(* ===== verification/_CoqProject ===== *)
-Q . S2P
Prelude.v
Memory.v
Pmm.v
PmmRuns.v
PmmInit.v
Mmu.v
MmuTree.v
MmuOps.v
MmuMap.v
MmuSpaces.v
PageFault.v
UserSpace.v
Elf.v
Heap.v
HeapList.v
HeapInv.v
HeapOps.v
HeapSpec.v
MemoryExamples.v
Ring.v
CString.v
Pipe.v
Irq.v
Tty.v
StreamExamples.v
Paths.v
Bytes.v
Memfs.v
User.v
BootMem.v
Alloc.v
Sched.v
SchedList.v
SchedInv.v
SchedSwitch.v
SchedSpec.v
SchedWait.v
SchedSteps.v
SchedExamples.v
Ramfs.v
RamfsSpec.v
State.v
Block.v
BlockSpec.v
BlockDisk.v
Ata.v
Console.v
Serial.v
Spinlock.v
Devices.v
Tables.v
Terminal.v
Fat.v
FatTable.v
FatRead.v
FatWrite.v
FatFile.v
FatSpec.v
FatDir.v
StorageExamples.v
Vfs.v
VfsInv.v
VfsSpec.v
VfsIo.v
Handles.v
UserPtr.v
Syscall.v
SyscallSpec.v
SyscallInv.v
SyscallSafe.v
Launch.v
Images.v
Programs.v
ProgramExamples.v
KernelExamples.v
OutputExamples.v
Ls.v
UserSys.v
Shell.v
UserPrograms.v
