(* ===== verification/Prelude.v ===== *)
(** * NeptuneOS: a verification of the kernel

    NeptuneOS is a small x86_64 kernel written in C (src/kernel).  At boot the
    physical memory manager takes over the usable regions, the page tables map
    physical memory and the kernel heap, and the heap serves every other part.
    Interrupts feed keyboard and serial input to the terminal; pipes, a table
    of built-in programs, a RAM file system and a FAT16 volume on a block
    device hold the files.  Programs (src/user) run as threads of a scheduler
    and reach all this by system calls.  This library models these parts
    function by function and proves what they do.

    ** Conventions

    A machine word is a [Z] wrapped with [w8], [w16], [w32], [w64] wherever C
    arithmetic can leave the range.  Memory is a map from addresses to bytes
    (Memory.v).  Global variables of a C file are a record, and a function
    takes the record and returns the new one.  A call that panics returns
    [Panic]; a call that may wait takes the list of what other threads or
    interrupts do at each of its waits and returns [Done], [Waiting] or
    [Spinning]; a call that may never return is a computation of State.v, with
    [None] for that outcome.  Null pointers are an [option] or are excluded, as
    each file says.  Locks make an operation one atomic step.  A loop without a
    structural bound gets fuel: the fuel is computed from the loop's variables
    and a lemma shows that it is enough ([walk_fuel_enough] for the heap's free
    list, [grow_spec] for the growth of RAM files, [norm_loop_canon] for paths,
    [read_chunks_fuel] for disk transfers, [chain_length] for cluster chains).

    ** Files and what they show

    - Prelude.v, Memory.v: words, alignment, loops, the [result] monad; bytes
      and little-endian words in memory, [memset] and [memcpy] (string.c).
    - Pmm.v, PmmRuns.v, PmmInit.v, BootMem.v (mem.c, hal.c): the bitmaps, kept
      in the memory they describe.  [mem_init] turns the memory map of the boot
      loader into the state where exactly the usable frames are free;
      allocation of one frame or of a run returns free frames and changes no
      other; freeing and its errors; when allocation fails.
    - Mmu.v, MmuTree.v, MmuOps.v, MmuMap.v, MmuSpaces.v, PageFault.v,
      UserSpace.v (arch/x86_64/mmu.c, idt.c, hal.c): the four-level tables in
      memory and the translation the processor computes from them.  Mapping,
      unmapping, new address spaces, the direct map, copy-on-write and stack
      growth change exactly the translations they should; some theorems state
      defects, such as [mmu_protect_kernel_sections_no_effect].
    - Heap.v, HeapList.v, HeapInv.v, HeapOps.v, HeapSpec.v (heap.c): the slab
      lists and the sorted, coalesced list of large blocks in the bytes of the
      heap window.  The invariant holds after every history of calls; [kalloc]
      returns fresh disjoint blocks; [kfree] implements the abstract release;
      [kalloc_slab_overlap] is a defect.
    - Alloc.v: the interface [Allocator] with its laws; the heap satisfies it.
      The RAM file system is verified against the interface.
    - Ring.v, CString.v, Bytes.v: ring buffers, C strings (string.c and the
      static copies of its routines), byte arrays and listings.
    - Pipe.v, Irq.v, Tty.v (pipe.c, irq.c, tty.c): pipes are first in, first
      out for every interleaving of readers and writers; the input queues are
      bounded queues; [tty_read] computes a line editor.
    - Elf.v, User.v, Launch.v, Images.v, Programs.v (elf.c, user.c,
      user_images.c): the loader accepts exactly the valid images and maps and
      fills every segment with the permissions it asks for; the stack of a new
      program holds its arguments; the bytes of the seven built-in programs
      pass the loader, and a thread started for one enters user mode at its
      entry point.
    - Sched.v, SchedList.v, SchedInv.v, SchedSwitch.v, SchedSpec.v,
      SchedWait.v, SchedSteps.v (sched.c, arch/x86_64/sched.c, switch.s,
      preempt_stub.s): threads in a circular list.  Every state reachable by
      scheduler calls satisfies the invariant; the scheduler is a round robin;
      wait queues refine lists; exit and wait hand over the status.
    - Paths.v, Memfs.v, Ramfs.v, RamfsSpec.v (fs.c, ramfs.c): both copies of
      [normalize_path] compute the resolution of a path's components; the table
      of built-in programs; opening, reading and writing RAM files.
    - State.v: computations over a state and the interface [SectorDev] with its
      laws between a file system and the block layer.
    - Block.v, BlockSpec.v, BlockDisk.v, Ata.v (block.c, ata.c): the RAM disk
      with its FAT16 image, the sector cache and the disk driver over any
      machine that answers port accesses.  Reads through the cache return what
      the device holds; the block layer over the RAM disk is a lawful
      [SectorDev]; [ata_cast_misreads] states the effect of a pointer cast.
    - Fat.v, FatTable.v, FatRead.v, FatWrite.v, FatFile.v, FatSpec.v, FatDir.v
      (fat.c): every function of the file system.  Reading returns the bytes of
      the cluster chain, writing lays data over it and extends it, lookup in a
      directory is a search of its entries; all three are total on volumes of a
      valid geometry and leave the rest of the disk as it is.
    - Vfs.v, VfsInv.v, VfsSpec.v, VfsIo.v (vfs.c): opening, reading, writing
      and closing over the three file systems, with the objects it allocates.
    - Handles.v, UserPtr.v, Syscall.v, SyscallSpec.v, SyscallInv.v,
      SyscallSafe.v (syscall.c): the table of handles with its reference
      counts, the checks of user pointers, and [syscall_handle] itself.
      Whatever a thread passes in its registers, the call keeps the invariants
      of the kernel, with every heap block accounted for.
    - Console.v, Serial.v, Spinlock.v (console.c, serial.c, printf.c, log.c,
      panic.c, spinlock.c): the screen shows the layout of the text written;
      [kvprintf] prints numerals with the value of their argument; the lock
      excludes in every interleaving of any number of processors.
    - Devices.v (timer.c, pic.c, pit.c, pci.c, acpi.c): ticks call every
      callback, the masks and acknowledgements reach the right controller, the
      divisor is the one of the frequency; [pci_init] finds the functions on
      the bus and [acpi_parse_madt] reads the controller table.  The chips are
      interfaces with their documented behaviour as laws.
    - Tables.v (gdt.c, gdt.s, idt.c, syscall_msr.c): what the processor reads
      from the segment descriptors, the gates and the system call registers is
      what their users rely on; an interrupt is acknowledged once; the report
      of an exception on the screen and the serial line.
    - Terminal.v (terminal.c): the terminal refines a line editor and never
      leaves its array.
    - UserSys.v, Shell.v, Ls.v, UserPrograms.v (src/user): the programs as
      interaction trees of their system calls, with a program logic for trees
      that run for ever.  The shell never leaks a descriptor or a child; [cat]
      copies; [ls] prints the sorted entries of the directory; [init] keeps a
      shell running.
    - MemoryExamples.v, StreamExamples.v, SchedExamples.v, StorageExamples.v,
      ProgramExamples.v, KernelExamples.v, OutputExamples.v evaluate the model
      at concrete states and apply the theorems there.

    ** Not modelled

    [kernel_main] in kernel.c, which calls the initialisers in order and runs
    self tests, beyond its heartbeat callback; the assembly of boot and of the
    interrupt and system call entry with [syscall_handler_fast]; fuzz.c, whose
    calls are covered by the safety of system calls for all arguments.  Outside
    Spinlock.v a locked operation is one step, and TLB flushes have no effect of
    their own.  The firmware tables are taken to lie in the direct map.  The
    correctness of the ATA driver against a model of the disk hardware is not
    stated. *)

From Stdlib Require Import ZArith Lia.
From stdpp Require Export base gmap list strings.
From stdpp Require Import options.

#[global] Open Scope Z_scope.

(** Linear arithmetic with division and remainder by constants. *)
Ltac dlia := Z.to_euclidean_division_equations; lia.

(** ** Machine words

    A [uintN_t] of the C code is a [Z]; every operation that can leave the
    range is wrapped explicitly with [wN]. *)

Definition w8 (z : Z) : Z := z mod 2 ^ 8.
Definition w16 (z : Z) : Z := z mod 2 ^ 16.
Definition w32 (z : Z) : Z := z mod 2 ^ 32.
Definition w64 (z : Z) : Z := z mod 2 ^ 64.

(** Conversion to a 32-bit [int] (two's complement). *)
Definition s32 (z : Z) : Z := (z + 2 ^ 31) mod 2 ^ 32 - 2 ^ 31.

(** [~x] on a [uint64_t]. *)
Definition not64 (z : Z) : Z := w64 (Z.lnot z).

(** The bit-mask idiom [(value + align - 1) & ~(align - 1)], and its
    round-down form, which mem.c, heap.c, elf.c and mmu.c each define. *)
Definition align_up (value align : Z) : Z :=
  Z.land (w64 (value + align - 1)) (not64 (align - 1)).
Definition align_down (value align : Z) : Z := Z.land value (not64 (align - 1)).

Lemma w8_range z : 0 ≤ w8 z < 256.
Proof. unfold w8. dlia. Qed.
Lemma w16_range z : 0 ≤ w16 z < 2 ^ 16.
Proof. unfold w16. dlia. Qed.
Lemma w32_range z : 0 ≤ w32 z < 2 ^ 32.
Proof. unfold w32. dlia. Qed.
Lemma w64_range z : 0 ≤ w64 z < 2 ^ 64.
Proof. unfold w64. dlia. Qed.

Lemma w8_small z : 0 ≤ z < 256 → w8 z = z.
Proof. unfold w8. dlia. Qed.
Lemma w16_small z : 0 ≤ z < 2 ^ 16 → w16 z = z.
Proof. unfold w16. dlia. Qed.
Lemma w32_small z : 0 ≤ z < 2 ^ 32 → w32 z = z.
Proof. unfold w32. dlia. Qed.
Lemma w64_small z : 0 ≤ z < 2 ^ 64 → w64 z = z.
Proof. unfold w64. dlia. Qed.

Create HintDb words.
Create Rewrite HintDb words.
#[export] Hint Rewrite w8_small w16_small w32_small w64_small using lia : words.
#[export] Hint Resolve w8_range w16_range w32_range w64_range : words.

(** Removes every wrap whose argument [lia] shows to be in range. *)
Ltac wsimp := autorewrite with words.
Tactic Notation "wsimp" "in" hyp(H) := autorewrite with words in H.

(** Splits the boolean tests of a conditional into their propositions. *)
Ltac bsimp :=
  repeat match goal with
  | H : _ && _ = true |- _ => apply andb_true_iff in H; destruct H
  | H : _ || _ = false |- _ => apply orb_false_iff in H; destruct H
  | H : negb _ = true |- _ => apply negb_true_iff in H
  | H : negb _ = false |- _ => apply negb_false_iff in H
  | H : (_ <? _) = true |- _ => apply Z.ltb_lt in H
  | H : (_ <? _) = false |- _ => apply Z.ltb_ge in H
  | H : (_ <=? _) = true |- _ => apply Z.leb_le in H
  | H : (_ <=? _) = false |- _ => apply Z.leb_gt in H
  | H : (_ =? _) = true |- _ => apply Z.eqb_eq in H
  | H : (_ =? _) = false |- _ => apply Z.eqb_neq in H
  end.

(** Case analysis on the condition of the innermost [if] of the goal. *)
Ltac case_if :=
  match goal with
  | |- context [if ?b then _ else _] =>
      lazymatch b with
      | context [if _ then _ else _] => fail
      | _ => destruct b eqn:?
      end
  end; bsimp.
Tactic Notation "case_if" "in" hyp(H) :=
  match type of H with
  | context [if ?b then _ else _] =>
      lazymatch b with
      | context [if _ then _ else _] => fail
      | _ => destruct b eqn:?
      end
  end; bsimp.

(** ** Bit-level facts *)

Lemma land_ones_lnot x k :
  0 ≤ k → Z.land x (Z.lnot (Z.ones k)) = x - x mod 2 ^ k.
Proof.
  intros Hk. rewrite <- Z.ldiff_land, Z.ldiff_ones_r by lia.
  rewrite Z.shiftr_div_pow2, Z.shiftl_mul_pow2 by lia.
  rewrite Z.mod_eq by (apply Z.pow_nonzero; lia). ring.
Qed.

(** Masking with [~(2^k - 1)] rounds a 64-bit value down to a multiple. *)
Lemma land_not64 x k :
  0 ≤ x < 2 ^ 64 → 0 ≤ k ≤ 64 →
  Z.land x (not64 (2 ^ k - 1)) = x - x mod 2 ^ k.
Proof.
  intros Hx Hk. rewrite <- land_ones_lnot by lia.
  unfold not64, w64. rewrite <- Z.land_ones by lia.
  rewrite (Z.land_comm _ (Z.ones 64)), Z.land_assoc, (Z.land_ones x 64) by lia.
  rewrite (Z.mod_small x) by lia.
  now rewrite Z.ones_equiv, <- Z.sub_1_r.
Qed.

Lemma align_up_spec v k :
  0 ≤ v → 0 ≤ k ≤ 63 → v + 2 ^ k - 1 < 2 ^ 64 →
  align_up v (2 ^ k) = (v + 2 ^ k - 1) / 2 ^ k * 2 ^ k.
Proof.
  intros Hv Hk Hlt. assert (0 < 2 ^ k) by (apply Z.pow_pos_nonneg; lia).
  unfold align_up. rewrite w64_small by lia.
  rewrite land_not64 by lia. rewrite Z.mod_eq by lia. lia.
Qed.

Lemma align_down_spec v k :
  0 ≤ v < 2 ^ 64 → 0 ≤ k ≤ 63 → align_down v (2 ^ k) = v / 2 ^ k * 2 ^ k.
Proof.
  intros Hv Hk. assert (0 < 2 ^ k) by (apply Z.pow_pos_nonneg; lia).
  unfold align_down. rewrite land_not64 by lia. rewrite Z.mod_eq by lia. lia.
Qed.

(** The two page-size instances used everywhere. *)
Lemma align_up_4096 v :
  0 ≤ v < 2 ^ 64 - 4096 → align_up v 4096 = (v + 4095) / 4096 * 4096.
Proof.
  intros Hv. change 4096 with (2 ^ 12). rewrite align_up_spec by lia.
  do 2 f_equal. lia.
Qed.

Lemma align_up_8 v :
  0 ≤ v < 2 ^ 64 - 8 → align_up v 8 = (v + 7) / 8 * 8.
Proof.
  intros Hv. change 8 with (2 ^ 3). rewrite align_up_spec by lia.
  do 2 f_equal. lia.
Qed.

Lemma align_up_16 v :
  0 ≤ v < 2 ^ 64 - 16 → align_up v 16 = (v + 15) / 16 * 16.
Proof.
  intros Hv. change 16 with (2 ^ 4). rewrite align_up_spec by lia.
  do 2 f_equal. lia.
Qed.

Lemma align_down_4096 v :
  0 ≤ v < 2 ^ 64 → align_down v 4096 = v / 4096 * 4096.
Proof. intros Hv. change 4096 with (2 ^ 12). apply align_down_spec; lia. Qed.

(** [a <= b] on powers of two is divisibility; used for alignments. *)
Definition is_pow2 (a : Z) : Prop := ∃ k, 0 ≤ k ≤ 63 ∧ a = 2 ^ k.

Lemma is_pow2_pos a : is_pow2 a → 0 < a < 2 ^ 64.
Proof.
  intros (k & Hk & ->). split; [apply Z.pow_pos_nonneg; lia|].
  apply Z.pow_lt_mono_r; lia.
Qed.
#[export] Hint Resolve is_pow2_pos : words.

Lemma align_up_pow2 v a :
  is_pow2 a → 0 ≤ v → v + a - 1 < 2 ^ 64 →
  v ≤ align_up v a < v + a ∧ align_up v a mod a = 0.
Proof.
  intros Ha Hv Hlt. pose proof (is_pow2_pos a Ha) as Hpos.
  destruct Ha as (k & Hk & ->). rewrite align_up_spec by lia.
  split; [|apply Z.mod_mul; lia].
  pose proof (Z.div_mod (v + 2 ^ k - 1) (2 ^ k)).
  pose proof (Z.mod_pos_bound (v + 2 ^ k - 1) (2 ^ k)). nia.
Qed.

(** ** Kernel results

    [panic] does not return: a kernel operation either returns a value or
    stops the machine with the message and code it was given. *)

Inductive result (A : Type) : Type :=
| Ret (a : A)
| Panic (msg : string) (code : Z).
Arguments Ret {A} _.
Arguments Panic {A} _ _.

#[export] Instance result_ret : MRet result := λ A a, Ret a.
#[export] Instance result_bind : MBind result := λ A B f r,
  match r with Ret a => f a | Panic m c => Panic m c end.

Lemma bind_Ret {A B} (r : result A) (f : A → result B) b :
  r ≫= f = Ret b ↔ ∃ a, r = Ret a ∧ f a = Ret b.
Proof.
  destruct r as [a|m c]; simpl; split.
  - eauto.
  - by intros (? & [= ->] & ?).
  - done.
  - by intros (? & ? & ?).
Qed.

(** ** Calls that may wait *)

(** A call that may have to wait for other threads returns, is still waiting,
    or runs for ever without letting go. *)
Inductive outcome (A : Type) :=
| Done (a : A)
| Waiting (a : A)
| Spinning.
Arguments Done {_} _.
Arguments Waiting {_} _.
Arguments Spinning {_}.

(** ** Counted loops

    [for (i = lo; i < hi; ++i)] with a body updating an accumulator, and the
    search loop that stops at the first index satisfying a test. *)

Section Loops.
Context {A : Type}.

Fixpoint zfold (f : Z → A → A) (i : Z) (n : nat) (a : A) : A :=
  match n with
  | O => a
  | S n' => zfold f (i + 1) n' (f i a)
  end.

Definition for_range (lo hi : Z) (f : Z → A → A) (a : A) : A :=
  zfold f lo (Z.to_nat (hi - lo)) a.

Lemma zfold_inv (P : Z → A → Prop) f n : ∀ i a,
  P i a →
  (∀ j b, i ≤ j < i + Z.of_nat n → P j b → P (j + 1) (f j b)) →
  P (i + Z.of_nat n) (zfold f i n a).
Proof.
  induction n as [|n IH]; intros i a H0 Hstep; simpl.
  - by rewrite Z.add_0_r.
  - replace (i + Z.of_nat (S n)) with ((i + 1) + Z.of_nat n) by lia.
    apply IH; [apply Hstep; [lia|done]|]. intros; apply Hstep; [lia|done].
Qed.

(** Loop-invariant rule. *)
Lemma for_range_inv (P : Z → A → Prop) lo hi f a :
  lo ≤ hi → P lo a →
  (∀ j b, lo ≤ j < hi → P j b → P (j + 1) (f j b)) →
  P hi (for_range lo hi f a).
Proof.
  intros Hle H0 Hstep. unfold for_range.
  replace hi with (lo + Z.of_nat (Z.to_nat (hi - lo))) at 1 by lia.
  apply zfold_inv; [done|]. intros; apply Hstep; [lia|done].
Qed.

Lemma for_range_nil lo hi f a : hi ≤ lo → for_range lo hi f a = a.
Proof. intros H. unfold for_range. by replace (Z.to_nat (hi - lo)) with O by lia. Qed.

Lemma for_range_cons lo hi f a :
  lo < hi → for_range lo hi f a = for_range (lo + 1) hi f (f lo a).
Proof.
  intros H. unfold for_range.
  replace (Z.to_nat (hi - lo)) with (S (Z.to_nat (hi - (lo + 1)))) by lia. done.
Qed.

Lemma zfold_snoc f n : ∀ i a, zfold f i (S n) a = f (i + Z.of_nat n) (zfold f i n a).
Proof.
  induction n as [|n IH]; intros i a; [by rewrite Z.add_0_r|].
  change (zfold f i (S (S n)) a) with (zfold f (i + 1) (S n) (f i a)).
  rewrite IH. simpl. f_equal. lia.
Qed.

Lemma for_range_snoc lo hi f a :
  lo ≤ hi → for_range lo (hi + 1) f a = f hi (for_range lo hi f a).
Proof.
  intros H. unfold for_range.
  replace (Z.to_nat (hi + 1 - lo)) with (S (Z.to_nat (hi - lo))) by lia.
  rewrite zfold_snoc. f_equal. lia.
Qed.
End Loops.

(** [for (i = lo; i < hi; i += step)] with a body that may panic. *)
Section FallibleLoops.
Context {A : Type}.

Fixpoint rfold (f : Z → A → result A) (i step : Z) (n : nat) (a : A) : result A :=
  match n with
  | O => Ret a
  | S n' => a' ← f i a; rfold f (i + step) step n' a'
  end.

Definition rfor (lo hi step : Z) (f : Z → A → result A) (a : A) : result A :=
  rfold f lo step (Z.to_nat ((hi - lo + step - 1) / step)) a.

Lemma rfold_inv (P : Z → A → Prop) f step n : ∀ i a a',
  P i a →
  (∀ k b b', 0 ≤ k < Z.of_nat n → P (i + k * step) b → f (i + k * step) b = Ret b' →
     P (i + (k + 1) * step) b') →
  rfold f i step n a = Ret a' → P (i + Z.of_nat n * step) a'.
Proof.
  induction n as [|n IH]; intros i a a' H0 Hstep H.
  - simpl in H. simplify_eq. by replace (i + Z.of_nat 0 * step) with i by lia.
  - simpl in H. apply bind_Ret in H as (b & Hb & H).
    replace (i + Z.of_nat (S n) * step) with ((i + step) + Z.of_nat n * step) by lia.
    eapply IH; [| |done].
    + replace (i + step) with (i + (0 + 1) * step) by lia.
      eapply (Hstep 0); [lia| |]; rewrite Z.mul_0_l, Z.add_0_r; done.
    + intros k c c' Hk Hc Hf.
      replace (i + step + (k + 1) * step) with (i + (k + 1 + 1) * step) by lia.
      eapply (Hstep (k + 1)); [lia| |];
        replace (i + (k + 1) * step) with (i + step + k * step) by lia; done.
Qed.

(** Invariant rule for a range that the step divides. *)
Lemma rfor_inv (P : Z → A → Prop) lo hi step f a a' :
  0 < step → lo ≤ hi → (hi - lo) mod step = 0 →
  P lo a →
  (∀ i b b', lo ≤ i < hi → (i - lo) mod step = 0 → P i b → f i b = Ret b' → P (i + step) b') →
  rfor lo hi step f a = Ret a' → P hi a'.
Proof.
  intros Hs Hle Hmod H0 Hstep H. unfold rfor in H.
  apply Z.mod_divide in Hmod as [q Hq]; [|lia].
  assert ((hi - lo + step - 1) / step = q) as E.
  { rewrite Hq. replace (q * step + step - 1) with (step - 1 + q * step) by lia.
    rewrite Z.div_add, Z.div_small by lia. lia. }
  assert (0 ≤ q) by nia. rewrite E in H.
  apply (rfold_inv P) in H; [| done |].
  - replace (lo + Z.of_nat (Z.to_nat q) * step) with hi in H by lia. done.
  - intros k b b' Hk Hb Hf. replace (lo + (k + 1) * step) with (lo + k * step + step) by lia.
    eapply Hstep; eauto; [nia|]. replace (lo + k * step - lo) with (k * step) by lia.
    apply Z.mod_mul. lia.
Qed.
End FallibleLoops.

Fixpoint zfind (p : Z → bool) (i : Z) (n : nat) : option Z :=
  match n with
  | O => None
  | S n' => if p i then Some i else zfind p (i + 1) n'
  end.

Definition find_range (lo hi : Z) (p : Z → bool) : option Z :=
  zfind p lo (Z.to_nat (hi - lo)).

Lemma zfind_Some p n : ∀ i j,
  zfind p i n = Some j ↔
  i ≤ j < i + Z.of_nat n ∧ p j = true ∧ ∀ k, i ≤ k < j → p k = false.
Proof.
  induction n as [|n IH]; intros i j; simpl; [split; [done|lia]|].
  destruct (p i) eqn:Hp.
  - split.
    + intros [= <-]. split_and!; [lia|lia|done|intros; lia].
    + intros (? & ? & Hk). f_equal. destruct (decide (i = j)); [done|].
      rewrite (Hk i) in Hp by lia. done.
  - rewrite IH. split; intros (? & ? & Hk); split_and!; try lia; auto.
    + intros k ?. destruct (decide (k = i)) as [->|]; [done|]. apply Hk; lia.
    + destruct (decide (i = j)) as [->|]; [congruence|lia].
    + intros k ?. apply Hk; lia.
Qed.

Lemma zfind_None p n : ∀ i,
  zfind p i n = None ↔ ∀ k, i ≤ k < i + Z.of_nat n → p k = false.
Proof.
  induction n as [|n IH]; intros i; simpl; [split; [intros; lia|done]|].
  destruct (p i) eqn:Hp.
  - split; [done|]. intros Hk. rewrite (Hk i) in Hp by lia. done.
  - rewrite IH. split; intros Hk k ?.
    + destruct (decide (k = i)) as [->|]; [done|]. apply Hk; lia.
    + apply Hk; lia.
Qed.

Lemma find_range_Some lo hi p j :
  find_range lo hi p = Some j ↔
  lo ≤ j < hi ∧ p j = true ∧ ∀ k, lo ≤ k < j → p k = false.
Proof.
  unfold find_range. rewrite zfind_Some. split; intros (? & ? & ?); split_and!; auto; lia.
Qed.

Lemma find_range_None lo hi p :
  find_range lo hi p = None ↔ ∀ k, lo ≤ k < hi → p k = false.
Proof.
  unfold find_range. rewrite zfind_None. split; intros H k ?; apply H; lia.
Qed.

(** Sums over a range, with the two facts counters need. *)
Definition sum_range (lo hi : Z) (f : Z → Z) : Z :=
  for_range lo hi (λ i c, c + f i) 0.

Lemma zfold_sum_acc f n : ∀ i c,
  zfold (λ i c, c + f i) i n c = c + zfold (λ i c, c + f i) i n 0.
Proof.
  induction n as [|n IH]; intros i c; simpl; [lia|].
  rewrite IH, (IH _ (0 + f i)). lia.
Qed.

Lemma sum_range_cons lo hi f :
  lo < hi → sum_range lo hi f = f lo + sum_range (lo + 1) hi f.
Proof.
  intros H. unfold sum_range. rewrite for_range_cons by done.
  unfold for_range. rewrite zfold_sum_acc. lia.
Qed.

Lemma sum_range_nil lo hi f : hi ≤ lo → sum_range lo hi f = 0.
Proof. intros H. by apply for_range_nil. Qed.

Lemma range_ind (P : Z → Z → Prop) :
  (∀ lo hi, hi ≤ lo → P lo hi) →
  (∀ lo hi, lo < hi → P (lo + 1) hi → P lo hi) →
  ∀ lo hi, P lo hi.
Proof.
  intros Hb Hs lo hi. remember (Z.to_nat (hi - lo)) as n eqn:Hn.
  revert lo Hn. induction n as [|n IH]; intros lo Hn.
  - apply Hb. lia.
  - apply Hs; [lia|]. apply IH. lia.
Qed.

Lemma sum_range_ext lo hi f g :
  (∀ i, lo ≤ i < hi → f i = g i) → sum_range lo hi f = sum_range lo hi g.
Proof.
  revert lo hi. apply (range_ind (λ lo hi, (∀ i, lo ≤ i < hi → f i = g i) → _ = _)).
  - intros lo hi H _. by rewrite !sum_range_nil.
  - intros lo hi H IH Hfg. rewrite !(sum_range_cons lo) by lia.
    rewrite IH by (intros; apply Hfg; lia). rewrite Hfg by lia. done.
Qed.

Lemma sum_range_update lo hi f g i :
  lo ≤ i < hi → (∀ j, lo ≤ j < hi → j ≠ i → f j = g j) →
  sum_range lo hi g = sum_range lo hi f + (g i - f i).
Proof.
  revert lo hi. apply (range_ind (λ lo hi, lo ≤ i < hi →
    (∀ j, lo ≤ j < hi → j ≠ i → f j = g j) → _ = _)).
  - intros; lia.
  - intros lo hi H IH Hi Hfg. rewrite !(sum_range_cons lo) by lia.
    destruct (decide (i = lo)) as [->|].
    + rewrite (sum_range_ext (lo + 1) hi f g); [lia|]. intros; apply Hfg; lia.
    + rewrite IH by (lia || (intros; apply Hfg; lia)). rewrite (Hfg lo) by lia. lia.
Qed.

Lemma sum_range_bounds lo hi f b :
  lo ≤ hi → (∀ i, lo ≤ i < hi → 0 ≤ f i ≤ b) → 0 ≤ sum_range lo hi f ≤ b * (hi - lo).
Proof.
  revert lo hi. apply (range_ind (λ lo hi, lo ≤ hi → (∀ i, lo ≤ i < hi → 0 ≤ f i ≤ b) → _)).
  - intros lo hi H Hle _. rewrite sum_range_nil by lia.
    replace (hi - lo) with 0 by lia. lia.
  - intros lo hi H IH _ Hf. rewrite sum_range_cons by lia.
    pose proof (Hf lo ltac:(lia)). assert (IH' := IH ltac:(lia) ltac:(intros; apply Hf; lia)). nia.
Qed.

Lemma sum_range_indicator lo hi k :
  lo ≤ k ≤ hi → sum_range lo hi (λ p, if p <? k then 1 else 0) = k - lo.
Proof.
  revert lo hi. apply (range_ind (λ lo hi, lo ≤ k ≤ hi → _ = _)).
  - intros lo hi H Hk. rewrite sum_range_nil by lia. lia.
  - intros lo hi H IH Hk. rewrite sum_range_cons by lia. destruct (decide (lo = k)) as [->|].
    + rewrite (sum_range_ext (k + 1) hi _ (λ _, 0)).
      * rewrite Z.ltb_irrefl. 
        pose proof (sum_range_bounds (k + 1) hi (λ _, 0) 0 ltac:(lia) ltac:(intros; lia)). lia.
      * intros i ?. by rewrite (proj2 (Z.ltb_ge i k)) by lia.
    + rewrite IH, (proj2 (Z.ltb_lt lo k)) by lia. lia.
Qed.
