(* ===== verification/Memory.v ===== *)
(** * Byte-addressed memory

    Physical memory (page tables, frame bitmaps, loaded images) and the
    kernel-heap window are finite maps from addresses to bytes.  A byte that
    was never written reads as 0.  Multi-byte accesses are little endian, as
    on x86_64.  The last section models [memset] and [memcpy] of
    src/kernel/string.c, whose loops the other components repeat inline. *)

From S2P Require Import Prelude.
From stdpp Require Import options.

Abbreviation memory := (gmap Z Z).

Definition rd8 (m : memory) (a : Z) : Z := w8 (default 0 (m !! a)).
Definition wr8 (m : memory) (a v : Z) : memory := <[a := w8 v]> m.

(** [n]-byte little-endian access. *)
Fixpoint rd_le (n : nat) (m : memory) (a : Z) : Z :=
  match n with
  | O => 0
  | S n' => rd8 m a + 256 * rd_le n' m (a + 1)
  end.

Fixpoint wr_le (n : nat) (m : memory) (a v : Z) : memory :=
  match n with
  | O => m
  | S n' => wr_le n' (wr8 m a v) (a + 1) (v / 256)
  end.

Definition rd16 := rd_le 2.
Definition rd32 := rd_le 4.
Definition rd64 := rd_le 8.
Definition wr32 := wr_le 4.
Definition wr64 := wr_le 8.

(** A run of bytes. *)
Fixpoint rd_bytes (m : memory) (a : Z) (n : nat) : list Z :=
  match n with
  | O => []
  | S n' => rd8 m a :: rd_bytes m (a + 1) n'
  end.

Fixpoint wr_bytes (m : memory) (a : Z) (l : list Z) : memory :=
  match l with
  | [] => m
  | b :: l' => wr_bytes (wr8 m a b) (a + 1) l'
  end.

(** ** string.c *)

(** [for (i = 0; i < n; ++i) d[i] = (unsigned char)c]. *)
Definition memset (m : memory) (dst c n : Z) : memory :=
  for_range 0 n (λ i m, wr8 m (dst + i) c) m.

(** [for (i = 0; i < n; ++i) d[i] = s[i]], reading as it writes. *)
Definition memcpy (m : memory) (dst src n : Z) : memory :=
  for_range 0 n (λ i m, wr8 m (dst + i) (rd8 m (src + i))) m.

(** ** Single bytes *)

Lemma rd8_range m a : 0 ≤ rd8 m a < 256.
Proof. apply w8_range. Qed.
#[export] Hint Resolve rd8_range : words.

Lemma rd8_wr8 m a v b :
  rd8 (wr8 m a v) b = if decide (a = b) then w8 v else rd8 m b.
Proof.
  unfold rd8, wr8. rewrite lookup_insert. case_decide; simpl; [|done].
  rewrite (w8_small (w8 v)); auto with words.
Qed.

Lemma rd8_wr8_eq m a v : rd8 (wr8 m a v) a = w8 v.
Proof. rewrite rd8_wr8. by rewrite decide_True. Qed.

Lemma rd8_wr8_ne m a v b : a ≠ b → rd8 (wr8 m a v) b = rd8 m b.
Proof. intros. rewrite rd8_wr8. by rewrite decide_False. Qed.

(** ** Little-endian words *)

Lemma rd_le_range n : ∀ m a, 0 ≤ rd_le n m a < 256 ^ Z.of_nat n.
Proof.
  induction n as [|n IH]; intros m a; simpl.
  - lia.
  - specialize (IH m (a + 1)). pose proof (rd8_range m a).
    replace (Z.of_nat (S n)) with (Z.of_nat n + 1) by lia.
    rewrite Z.pow_add_r by lia. lia.
Qed.

Lemma rd64_range m a : 0 ≤ rd64 m a < 2 ^ 64.
Proof. exact (rd_le_range 8 m a). Qed.
Lemma rd32_range m a : 0 ≤ rd32 m a < 2 ^ 32.
Proof. exact (rd_le_range 4 m a). Qed.
Lemma rd16_range m a : 0 ≤ rd16 m a < 2 ^ 16.
Proof. exact (rd_le_range 2 m a). Qed.
#[export] Hint Resolve rd64_range rd32_range rd16_range : words.

(** Reads depend only on the bytes they cover. *)
Lemma rd_le_ext n : ∀ m m' a,
  (∀ b, a ≤ b < a + Z.of_nat n → rd8 m b = rd8 m' b) → rd_le n m a = rd_le n m' a.
Proof.
  induction n as [|n IH]; intros m m' a H; simpl; [done|].
  rewrite (H a) by lia. rewrite (IH m m' (a + 1)); [done|]. intros; apply H; lia.
Qed.

Lemma rd8_wr_le_disj n : ∀ m a v b,
  b < a ∨ a + Z.of_nat n ≤ b → rd8 (wr_le n m a v) b = rd8 m b.
Proof.
  induction n as [|n IH]; intros m a v b H; simpl; [done|].
  rewrite IH by lia. apply rd8_wr8_ne. lia.
Qed.

Lemma rd_le_wr_le_disj n k m a v b :
  b + Z.of_nat k ≤ a ∨ a + Z.of_nat n ≤ b → rd_le k (wr_le n m a v) b = rd_le k m b.
Proof. intros H. apply rd_le_ext. intros c ?. apply rd8_wr_le_disj. lia. Qed.

Lemma rd_le_wr_le_same n : ∀ m a v,
  rd_le n (wr_le n m a v) a = v mod 256 ^ Z.of_nat n.
Proof.
  induction n as [|n IH]; intros m a v; simpl.
  - by rewrite Z.mod_1_r.
  - rewrite rd8_wr_le_disj by lia. rewrite rd8_wr8_eq, IH.
    replace (Z.of_nat (S n)) with (Z.of_nat n + 1) by lia.
    rewrite Z.pow_add_r, Z.pow_1_r, (Z.mul_comm _ 256) by lia.
    assert (0 < 256 ^ Z.of_nat n) by (apply Z.pow_pos_nonneg; lia).
    rewrite Z.rem_mul_r by lia. done.
Qed.

Lemma rd64_wr64_same m a v : rd64 (wr64 m a v) a = w64 v.
Proof. exact (rd_le_wr_le_same 8 m a v). Qed.

Lemma rd64_wr64_disj m a v b :
  b + 8 ≤ a ∨ a + 8 ≤ b → rd64 (wr64 m a v) b = rd64 m b.
Proof. intros H. apply rd_le_wr_le_disj. lia. Qed.

Lemma rd8_wr64_disj m a v b :
  b < a ∨ a + 8 ≤ b → rd8 (wr64 m a v) b = rd8 m b.
Proof. intros H. apply rd8_wr_le_disj. lia. Qed.

Lemma rd64_ext m m' a :
  (∀ b, a ≤ b < a + 8 → rd8 m b = rd8 m' b) → rd64 m a = rd64 m' a.
Proof. intros H. apply rd_le_ext. intros; apply H; lia. Qed.

#[global] Opaque rd64 wr64 rd32 wr32 rd16.

(** ** Byte runs *)

Lemma length_rd_bytes m n : ∀ a, length (rd_bytes m a n) = n.
Proof. induction n as [|n IH]; intros a; simpl; [done|]. by rewrite IH. Qed.

Lemma rd8_wr_bytes l : ∀ m a b,
  rd8 (wr_bytes m a l) b =
  match l !! Z.to_nat (b - a) with
  | Some v => if decide (a ≤ b) then w8 v else rd8 m b
  | None => rd8 m b
  end.
Proof.
  induction l as [|x l IH]; intros m a b; simpl; [done|].
  rewrite IH. destruct (decide (a + 1 ≤ b)) as [Hle|Hgt].
  - replace (Z.to_nat (b - a)) with (S (Z.to_nat (b - (a + 1)))) by lia. simpl.
    destruct (l !! _).
    + by rewrite !decide_True by lia.
    + apply rd8_wr8_ne. lia.
  - replace (Z.to_nat (b - a)) with O by lia. simpl.
    destruct (l !! _); rewrite rd8_wr8; repeat case_decide; done || lia.
Qed.

Lemma rd_bytes_ext n : ∀ m m' a,
  (∀ b, a ≤ b < a + Z.of_nat n → rd8 m b = rd8 m' b) →
  rd_bytes m a n = rd_bytes m' a n.
Proof.
  induction n as [|n IH]; intros m m' a H; simpl; [done|].
  rewrite (H a) by lia. f_equal. apply IH. intros; apply H; lia.
Qed.

(** Reading back a run just written gives it back, byte-truncated. *)
Lemma rd_bytes_wr_bytes l : ∀ m a,
  rd_bytes (wr_bytes m a l) a (length l) = w8 <$> l.
Proof.
  induction l as [|x l IH]; intros m a; simpl; [done|].
  rewrite IH. f_equal. rewrite rd8_wr_bytes.
  replace (Z.to_nat (a - (a + 1))) with O by lia.
  rewrite rd8_wr8_eq. destruct (l !! 0%nat); [|done]. by rewrite decide_False by lia.
Qed.

(** [memset] writes exactly its range. *)
Lemma rd8_memset m dst c n b :
  0 ≤ n →
  rd8 (memset m dst c n) b =
  if decide (dst ≤ b < dst + n) then w8 c else rd8 m b.
Proof.
  intros Hn. unfold memset.
  refine (for_range_inv (λ (i : Z) (m' : memory), rd8 m' b =
    if decide (dst ≤ b < dst + i) then w8 c else rd8 m b) 0 n _ m _ _ _); [lia| |].
  - by rewrite decide_False by lia.
  - intros i m' Hi IH. rewrite rd8_wr8, IH.
    repeat case_decide; try done; lia.
Qed.

(** [memcpy] between non-overlapping buffers copies the source. *)
Lemma rd8_memcpy m dst src n b :
  0 ≤ n → dst + n ≤ src ∨ src + n ≤ dst →
  rd8 (memcpy m dst src n) b =
  if decide (dst ≤ b < dst + n) then rd8 m (src + (b - dst)) else rd8 m b.
Proof.
  intros Hn Hdisj. unfold memcpy.
  enough (∀ b, rd8 (for_range 0 n (λ i m, wr8 m (dst + i) (rd8 m (src + i))) m) b =
    if decide (dst ≤ b < dst + n) then rd8 m (src + (b - dst)) else rd8 m b) by done.
  refine (for_range_inv (λ (i : Z) (m' : memory), ∀ b, rd8 m' b =
    if decide (dst ≤ b < dst + i) then rd8 m (src + (b - dst)) else rd8 m b)
    0 n _ m _ _ _); [lia| |].
  - intros. by rewrite decide_False by lia.
  - intros i m' Hi IH c. rewrite rd8_wr8, (IH (src + i)).
    rewrite (decide_False (P := dst ≤ src + i < _)) by lia.
    rewrite (w8_small (rd8 m _)) by auto with words.
    case_decide.
    + subst c. rewrite decide_True by lia. f_equal. lia.
    + rewrite IH. repeat case_decide; try done; lia.
Qed.

#[global] Opaque memset memcpy.
