(* ===== verification/Pmm.v ===== *)
(** * Physical memory manager (src/kernel/mem.c)

    A set of physical regions, each with a bitmap (one bit per 4 KiB frame)
    that lives in physical memory itself, in the reserved first frames of one
    low region.  State: [pmm], the static variables of mem.c plus the
    physical memory the bitmaps are stored in.  [regions] is the used prefix
    of the C array [regions[]], so [region_count] is its length.  Every
    operation runs under [pmm_lock] from entry to exit, hence as one step.

    Theorems: the operations implement a set of free frames (allocation takes
    a free frame out, free puts one back, nothing else changes), allocation
    fails only when every frame is taken, the bitmaps never overlap a frame
    that can be handed out, and [used_pages] counts the set bits. *)

From S2P Require Import Prelude Memory.
From stdpp Require Import options.

Module Pmm.

Definition META_REGION_LIMIT : Z := Z.shiftl 1 30.
Definition MAX_PMM_REGIONS : Z := 32.

Record pmm_region := mk_region {
  phys_start : Z;
  phys_end : Z;
  bitmap_phys : Z;
  bitmap_bytes : Z;
  total_pages : Z;
  reserved_pages : Z;
}.

Record pmm := mk_pmm {
  mem : memory;
  regions : list pmm_region;
  managed_pages : Z;
  pmm_reserved_pages : Z;
  used_pages : Z;
  max_phys_end : Z;
  pmm_cursor_region : Z;
  pmm_cursor_page_idx : Z;
}.

Definition region_count (s : pmm) : Z := Z.of_nat (length (regions s)).

(** [regions[i]]. *)
Definition region_at (s : pmm) (i : Z) : option pmm_region := regions s !! Z.to_nat i.

(** ** Bitmap accesses *)

Definition set_bit (m : memory) (r : pmm_region) (idx : Z) : memory :=
  let a := bitmap_phys r + idx / 8 in
  wr8 m a (Z.lor (rd8 m a) (w8 (Z.shiftl 1 (idx mod 8)))).

Definition clear_bit (m : memory) (r : pmm_region) (idx : Z) : memory :=
  let a := bitmap_phys r + idx / 8 in
  wr8 m a (Z.land (rd8 m a) (w8 (Z.lnot (Z.shiftl 1 (idx mod 8))))).

Definition test_bit (m : memory) (r : pmm_region) (idx : Z) : Z :=
  Z.land (Z.shiftr (rd8 m (bitmap_phys r + idx / 8)) (idx mod 8)) 1.

(** ** Registration and metadata layout *)

Definition pmm_add_region (s : pmm) (start end_ : Z) : result pmm :=
  if MAX_PMM_REGIONS <=? region_count s then
    Panic "Too many memory regions" (region_count s)
  else if end_ <=? start then Ret s
  else
    Ret (mk_pmm (mem s)
           (regions s ++ [mk_region start end_ 0 0 (w64 (end_ - start) / 4096) 0])
           (managed_pages s) (pmm_reserved_pages s) (used_pages s) (max_phys_end s)
           (pmm_cursor_region s) (pmm_cursor_page_idx s)).

Definition region_bitmap_bytes (r : pmm_region) : Z := align_up (total_pages r) 8 / 8.

(** First pass of [setup_bitmaps]: the space all bitmaps need. *)
Fixpoint total_bitmap_bytes (rs : list pmm_region) (acc : Z) : Z :=
  match rs with
  | [] => acc
  | r :: rs' =>
      if total_pages r =? 0 then total_bitmap_bytes rs' acc
      else total_bitmap_bytes rs' (w64 (acc + region_bitmap_bytes r))
  end.

(** Second pass: the lowest region below [META_REGION_LIMIT] large enough;
    the pointer [meta_region] is an index with the region it points to. *)
Fixpoint choose_meta (rs : list pmm_region) (i : nat) (need : Z)
    (meta : option (nat * pmm_region)) : option (nat * pmm_region) :=
  match rs with
  | [] => meta
  | r :: rs' =>
      let skip := choose_meta rs' (S i) need meta in
      if total_pages r =? 0 then skip
      else if META_REGION_LIMIT <=? phys_start r then skip
      else
        let aligned_start := align_up (phys_start r) 4096 in
        let usable_bytes := w64 (phys_end r - aligned_start) in
        if usable_bytes <? need then skip
        else
          match meta with
          | None => choose_meta rs' (S i) need (Some (i, r))
          | Some (_, mr) =>
              if phys_start r <? phys_start mr
              then choose_meta rs' (S i) need (Some (i, r))
              else skip
          end
  end.

(** Third pass: lay the bitmaps out one after the other and zero them. *)
Fixpoint assign_bitmaps (rs : list pmm_region) (meta_cursor : Z) (m : memory)
    : list pmm_region * Z * memory :=
  match rs with
  | [] => ([], meta_cursor, m)
  | r :: rs' =>
      if total_pages r =? 0 then
        let '(rs2, c2, m2) := assign_bitmaps rs' meta_cursor m in (r :: rs2, c2, m2)
      else
        let bytes := region_bitmap_bytes r in
        let r1 := mk_region (phys_start r) (phys_end r) meta_cursor bytes (total_pages r) 0 in
        let m1 := for_range 0 bytes (λ b m, wr8 m (meta_cursor + b) 0) m in
        let '(rs2, c2, m2) := assign_bitmaps rs' (w64 (meta_cursor + bytes)) m1 in
        (r1 :: rs2, c2, m2)
  end.

(** [meta_region->reserved_pages = n]. *)
Definition set_reserved (n : Z) (r : pmm_region) : pmm_region :=
  mk_region (phys_start r) (phys_end r) (bitmap_phys r) (bitmap_bytes r) (total_pages r) n.

(** Last pass: mark the reserved frames and sum the page counters. *)
Fixpoint reserve_pass (rs : list pmm_region) (m : memory) (reserved used managed : Z)
    : memory * Z * Z * Z :=
  match rs with
  | [] => (m, reserved, used, managed)
  | r :: rs' =>
      if total_pages r =? 0 then reserve_pass rs' m reserved used managed
      else
        reserve_pass rs' (for_range 0 (reserved_pages r) (λ page m, set_bit m r page) m)
          (w64 (reserved + reserved_pages r))
          (w64 (used + reserved_pages r))
          (w64 (managed + w64 (total_pages r - reserved_pages r)))
  end.

Definition setup_bitmaps (s : pmm) : result pmm :=
  let need := total_bitmap_bytes (regions s) 0 in
  match choose_meta (regions s) 0 need None with
  | None => Panic "No low memory for allocator metadata" need
  | Some (mi, mr) =>
      let meta_cursor := align_up (phys_start mr) 4096 in
      let meta_limit := phys_end mr in
      if meta_limit <? w64 (meta_cursor + need) then
        Panic "Insufficient low memory for allocator metadata" need
      else
        let '(rs1, meta_end, m1) := assign_bitmaps (regions s) meta_cursor (mem s) in
        let metadata_bytes := align_up (w64 (meta_end - phys_start mr)) 4096 in
        let rs2 := alter (set_reserved (metadata_bytes / 4096)) mi rs1 in
        let '(m2, reserved, used, managed) := reserve_pass rs2 m1 0 0 0 in
        if managed =? 0 then
          Panic "No allocatable memory after metadata reservation" 0
        else
          Ret (mk_pmm m2 rs2 managed reserved used (max_phys_end s)
                 (pmm_cursor_region s) (pmm_cursor_page_idx s))
  end.

(** ** Allocation *)

(** The inner loops: the first clear bit of [lo, hi). *)
Definition find_clear (m : memory) (r : pmm_region) (lo hi : Z) : option Z :=
  find_range lo hi (λ page, test_bit m r page =? 0).

(** One iteration of the region loop of [pmm_alloc_page]: the frame found in
    region [r], searching from the cursor and wrapping to the region's start. *)
Definition scan_region (m : memory) (r start_r start_p : Z) (region : pmm_region)
    : option Z :=
  if total_pages region <=? reserved_pages region then None
  else
    let p0 := if r =? start_r then start_p else reserved_pages region in
    let p_current :=
      if (total_pages region <=? p0) || (p0 <? reserved_pages region)
      then reserved_pages region else p0 in
    match find_clear m region p_current (total_pages region) with
    | Some page => Some page
    | None =>
        if (r =? start_r) && (reserved_pages region <? p_current)
        then find_clear m region (reserved_pages region) p_current
        else None
    end.

(** The region loop, [i] from [i] on, [k] iterations left. *)
Fixpoint scan_regions (s : pmm) (start_r start_p i : Z) (k : nat)
    : option (Z * pmm_region * Z) :=
  match k with
  | O => None
  | S k' =>
      let r := w32 (start_r + i) mod region_count s in
      match region_at s r with
      | None => None
      | Some region =>
          match scan_region (mem s) r start_r start_p region with
          | Some page => Some (r, region, page)
          | None => scan_regions s start_r start_p (i + 1) k'
          end
      end
  end.

Definition pmm_alloc_page (s : pmm) : result (Z * pmm) :=
  match scan_regions s (pmm_cursor_region s) (pmm_cursor_page_idx s) 0
          (length (regions s)) with
  | Some (r, region, page) =>
      Ret (w64 (phys_start region + page * 4096),
           mk_pmm (set_bit (mem s) region page) (regions s) (managed_pages s)
             (pmm_reserved_pages s) (w64 (used_pages s + 1)) (max_phys_end s)
             r (page + 1))
  | None => Panic "Out of physical memory" 0
  end.

(** The run search of [pmm_alloc_pages] from [page], [k] pages left. *)
Fixpoint find_run (m : memory) (region : pmm_region) (n page consecutive start_run : Z)
    (k : nat) : option Z :=
  match k with
  | O => None
  | S k' =>
      if test_bit m region page =? 0 then
        let start_run := if consecutive =? 0 then page else start_run in
        let consecutive := consecutive + 1 in
        if consecutive =? n then Some start_run
        else find_run m region n (page + 1) consecutive start_run k'
      else find_run m region n (page + 1) 0 start_run k'
  end.

Fixpoint find_run_region (m : memory) (n : Z) (rs : list pmm_region)
    : option (pmm_region * Z) :=
  match rs with
  | [] => None
  | region :: rs' =>
      if total_pages region <=? w64 (reserved_pages region + n) then find_run_region m n rs'
      else
        match find_run m region n (reserved_pages region) 0 0
                (Z.to_nat (total_pages region - reserved_pages region)) with
        | Some start_run => Some (region, start_run)
        | None => find_run_region m n rs'
        end
  end.

Definition pmm_alloc_pages (s : pmm) (n : Z) : result (Z * pmm) :=
  if n =? 0 then Ret (0, s)
  else if n =? 1 then pmm_alloc_page s
  else
    match find_run_region (mem s) n (regions s) with
    | Some (region, start_run) =>
        Ret (w64 (phys_start region + start_run * 4096),
             mk_pmm (for_range 0 n (λ k m, set_bit m region (start_run + k)) (mem s))
               (regions s) (managed_pages s) (pmm_reserved_pages s)
               (w64 (used_pages s + n)) (max_phys_end s)
               (pmm_cursor_region s) (pmm_cursor_page_idx s))
    | None => Panic "Out of contiguous physical memory" n
    end.

(** ** Release *)

Definition in_region (addr : Z) (r : pmm_region) : bool :=
  negb (total_pages r =? 0) && (phys_start r <=? addr) && (addr <? phys_end r).

Fixpoint find_region (rs : list pmm_region) (addr : Z) : option pmm_region :=
  match rs with
  | [] => None
  | r :: rs' => if in_region addr r then Some r else find_region rs' addr
  end.

Definition pmm_free_page (s : pmm) (addr : Z) : result pmm :=
  match find_region (regions s) addr with
  | None => Panic "Attempt to free non-managed page" addr
  | Some region =>
      let idx := w64 (addr - phys_start region) / 4096 in
      if total_pages region <=? idx then
        Panic "Attempt to free outside region bounds" addr
      else if idx <? reserved_pages region then
        Panic "Attempt to free allocator metadata page" addr
      else if test_bit (mem s) region idx =? 0 then
        Panic "Double free detected" addr
      else
        Ret (mk_pmm (clear_bit (mem s) region idx) (regions s) (managed_pages s)
               (pmm_reserved_pages s) (w64 (used_pages s - 1)) (max_phys_end s)
               (pmm_cursor_region s) (pmm_cursor_page_idx s))
  end.

Definition pmm_total_bytes (s : pmm) : Z := w64 (managed_pages s * 4096).
Definition pmm_used_bytes (s : pmm) : Z := w64 (used_pages s * 4096).
Definition pmm_max_phys_addr (s : pmm) : Z := max_phys_end s.

(** ** Bit-level lemmas *)

Lemma test_bit_testbit m r i :
  test_bit m r i = Z.b2z (Z.testbit (rd8 m (bitmap_phys r + i / 8)) (i mod 8)).
Proof.
  unfold test_bit. change 1 with (Z.ones 1). rewrite Z.land_ones by lia.
  rewrite Z.testbit_spec' by dlia. rewrite Z.shiftr_div_pow2 by dlia. done.
Qed.

Lemma test_bit_01 m r i : test_bit m r i = 0 ∨ test_bit m r i = 1.
Proof. rewrite test_bit_testbit. destruct (Z.testbit _ _); auto. Qed.

(** Two bits of two bitmaps share a byte and a position. *)
Definition same_bit (r : pmm_region) (i : Z) (r' : pmm_region) (j : Z) : Prop :=
  bitmap_phys r + i / 8 = bitmap_phys r' + j / 8 ∧ i mod 8 = j mod 8.

Lemma shiftl1_byte k : 0 ≤ k < 8 → w8 (Z.shiftl 1 k) = 2 ^ k.
Proof.
  intros Hk. rewrite Z.shiftl_mul_pow2, Z.mul_1_l by lia. apply w8_small.
  split; [apply Z.pow_nonneg; lia|]. change 256 with (2 ^ 8). apply Z.pow_lt_mono_r; lia.
Qed.

Lemma w8_testbit z k : 0 ≤ k < 8 → Z.testbit (w8 z) k = Z.testbit z k.
Proof. intros. unfold w8. apply Z.mod_pow2_bits_low. lia. Qed.

Lemma test_set_bit m r i r' j :
  test_bit (set_bit m r i) r' j =
  if decide (same_bit r i r' j) then 1 else test_bit m r' j.
Proof.
  unfold same_bit. rewrite !test_bit_testbit. unfold set_bit.
  rewrite rd8_wr8, shiftl1_byte by dlia.
  destruct (decide (bitmap_phys r + i / 8 = bitmap_phys r' + j / 8)) as [Ha|Ha].
  - rewrite w8_testbit, Z.lor_spec, Z.pow2_bits_eqb by dlia. rewrite <- Ha.
    destruct (decide (i mod 8 = j mod 8)) as [Hb|Hb].
    + rewrite decide_True by done. rewrite Hb, Z.eqb_refl, orb_true_r. done.
    + rewrite decide_False by tauto.
      rewrite (proj2 (Z.eqb_neq (i mod 8) (j mod 8))) by done. by rewrite orb_false_r.
  - rewrite decide_False by tauto. done.
Qed.

Lemma test_clear_bit m r i r' j :
  test_bit (clear_bit m r i) r' j =
  if decide (same_bit r i r' j) then 0 else test_bit m r' j.
Proof.
  unfold same_bit. rewrite !test_bit_testbit. unfold clear_bit. rewrite rd8_wr8.
  destruct (decide (bitmap_phys r + i / 8 = bitmap_phys r' + j / 8)) as [Ha|Ha].
  - rewrite w8_testbit, Z.land_spec, w8_testbit, Z.lnot_spec by dlia.
    rewrite Z.shiftl_mul_pow2, Z.mul_1_l, Z.pow2_bits_eqb by dlia. rewrite <- Ha.
    destruct (decide (i mod 8 = j mod 8)) as [Hb|Hb].
    + rewrite decide_True by done. rewrite Hb, Z.eqb_refl, andb_false_r. done.
    + rewrite decide_False by tauto.
      rewrite (proj2 (Z.eqb_neq (i mod 8) (j mod 8))) by done. by rewrite andb_true_r.
  - rewrite decide_False by tauto. done.
Qed.

Lemma same_bit_eq r i j : same_bit r i r j ↔ i = j.
Proof. unfold same_bit. split; [dlia|intros ->; auto]. Qed.

(** ** Well-formedness *)

Record region_ok (r : pmm_region) : Prop := {
  ro_start : 0 < phys_start r;
  ro_align : phys_start r mod 4096 = 0;
  ro_range : phys_start r < phys_end r < 2 ^ 63;
  ro_end : phys_end r mod 4096 = 0;
  ro_total : total_pages r = (phys_end r - phys_start r) / 4096;
  ro_reserved : 0 ≤ reserved_pages r ≤ total_pages r;
  ro_bitmap : 0 ≤ bitmap_phys r ∧ total_pages r ≤ 8 * bitmap_bytes r;
}.

(** Two byte ranges do not meet. *)
Definition apart (a n b k : Z) : Prop := a + n ≤ b ∨ b + k ≤ a.

Definition bitmaps_apart (rs : list pmm_region) : Prop :=
  ∀ i j r r', i ≠ j → rs !! i = Some r → rs !! j = Some r' →
  apart (bitmap_phys r) (bitmap_bytes r) (bitmap_phys r') (bitmap_bytes r').

Definition regions_apart (rs : list pmm_region) : Prop :=
  ∀ i j r r', i ≠ j → rs !! i = Some r → rs !! j = Some r' →
  phys_end r ≤ phys_start r' ∨ phys_end r' ≤ phys_start r.

(** No allocatable frame of any region overlaps any bitmap. *)
Definition metadata_protected (rs : list pmm_region) : Prop :=
  ∀ r r' p, r ∈ rs → r' ∈ rs → reserved_pages r ≤ p < total_pages r →
  apart (phys_start r + p * 4096) 4096 (bitmap_phys r') (bitmap_bytes r').

(** Number of set bits of a region's bitmap among its pages. *)
Definition count_bits (m : memory) (r : pmm_region) : Z :=
  sum_range 0 (total_pages r) (test_bit m r).

Fixpoint count_used (m : memory) (rs : list pmm_region) : Z :=
  match rs with
  | [] => 0
  | r :: rs' => count_bits m r + count_used m rs'
  end.

Record wf (s : pmm) : Prop := {
  wf_regions : ∀ i r, regions s !! i = Some r → region_ok r;
  wf_bitmaps : bitmaps_apart (regions s);
  wf_disjoint : regions_apart (regions s);
  wf_meta : metadata_protected (regions s);
  wf_cursor : 0 ≤ pmm_cursor_region s < region_count s;
  wf_count : region_count s ≤ MAX_PMM_REGIONS;
  wf_used : used_pages s = count_used (mem s) (regions s);
}.

(** The abstract state: which frame addresses are free. *)
Definition free_frame (s : pmm) (a : Z) : Prop :=
  ∃ i r p, regions s !! i = Some r ∧ reserved_pages r ≤ p < total_pages r ∧
    test_bit (mem s) r p = 0 ∧ a = phys_start r + p * 4096.

(** Allocated frames: handed out and not yet returned. *)
Definition allocated_frame (s : pmm) (a : Z) : Prop :=
  ∃ i r p, regions s !! i = Some r ∧ reserved_pages r ≤ p < total_pages r ∧
    test_bit (mem s) r p = 1 ∧ a = phys_start r + p * 4096.

(** A page of one region determines the region and the page. *)
Lemma frame_inj rs i j r r' p q :
  regions_apart rs → (∀ i r, rs !! i = Some r → region_ok r) →
  rs !! i = Some r → rs !! j = Some r' →
  0 ≤ p < total_pages r → 0 ≤ q < total_pages r' →
  phys_start r + p * 4096 = phys_start r' + q * 4096 → i = j ∧ r = r' ∧ p = q.
Proof.
  intros Hd Hok Hi Hj Hp Hq E. destruct (decide (i = j)) as [->|Hne].
  - simplify_eq. split_and!; auto. lia.
  - exfalso. pose proof (Hok _ _ Hi) as [? ? ? ? Ht ? ?].
    pose proof (Hok _ _ Hj) as [? ? ? ? Ht' ? ?].
    rewrite Ht in Hp. rewrite Ht' in Hq.
    destruct (Hd i j r r') as [H|H]; auto; dlia.
Qed.

(** Bits of different regions' pages are different bits. *)
Lemma same_bit_regions s i j r r' p q :
  wf s → regions s !! i = Some r → regions s !! j = Some r' →
  0 ≤ p < total_pages r → 0 ≤ q < total_pages r' →
  same_bit r p r' q ↔ i = j ∧ p = q.
Proof.
  intros W Hi Hj Hp Hq. destruct (decide (i = j)) as [->|Hne].
  - simplify_eq. rewrite same_bit_eq. naive_solver.
  - split; [|tauto]. intros [Ha _]. exfalso.
    destruct (ro_bitmap _ (wf_regions _ W _ _ Hi)).
    destruct (ro_bitmap _ (wf_regions _ W _ _ Hj)).
    destruct (wf_bitmaps _ W i j r r') as [H'|H']; auto; dlia.
Qed.

(** ** Counting set bits *)

Lemma count_used_bounds m rs :
  (∀ i r, rs !! i = Some r → region_ok r) → 0 ≤ count_used m rs.
Proof.
  induction rs as [|r rs IH]; simpl; intros Hok; [lia|].
  specialize (IH (λ i, Hok (S i))). pose proof (Hok 0%nat r eq_refl) as R.
  assert (0 ≤ count_bits m r); [|lia].
  apply (sum_range_bounds 0 (total_pages r) (test_bit m r) 1);
    [destruct R; lia|]. intros p _. destruct (test_bit_01 m r p); lia.
Qed.

Lemma count_used_ext m m' rs :
  (∀ r p, r ∈ rs → 0 ≤ p < total_pages r → test_bit m r p = test_bit m' r p) →
  count_used m rs = count_used m' rs.
Proof.
  induction rs as [|r rs IH]; simpl; intros H; [done|].
  rewrite IH by (intros; apply H; set_solver). f_equal.
  apply sum_range_ext. intros; apply H; set_solver.
Qed.

(** Changing one bit of one region changes the count by the difference. *)
Lemma count_used_update m m' rs : ∀ i r p,
  rs !! i = Some r → 0 ≤ p < total_pages r →
  (∀ j r' q, rs !! j = Some r' → 0 ≤ q < total_pages r' → ¬ (i = j ∧ p = q) →
     test_bit m r' q = test_bit m' r' q) →
  count_used m' rs = count_used m rs + (test_bit m' r p - test_bit m r p).
Proof.
  induction rs as [|r0 rs IH]; intros i r p Hi Hp H; [done|].
  destruct i as [|i]; simpl in *.
  - simplify_eq.
    rewrite (count_used_ext m' m rs).
    + unfold count_bits.
      rewrite (sum_range_update 0 (total_pages r) (test_bit m r) (test_bit m' r) p); [lia|done|].
      intros q ? ?. apply (H O); auto. naive_solver.
    + intros r' q [j Hj]%list_elem_of_lookup Hq. symmetry. apply (H (S j)); auto. naive_solver.
  - rewrite (IH i r p Hi Hp).
    + assert (count_bits m' r0 = count_bits m r0); [|lia].
      apply sum_range_ext. intros q Hq. symmetry. apply (H O); auto. naive_solver.
    + intros j r' q Hj Hq Hne. apply (H (S j)); auto. naive_solver.
Qed.

(** ** The search loops *)

Lemma find_clear_Some m r lo hi p :
  find_clear m r lo hi = Some p → lo ≤ p < hi ∧ test_bit m r p = 0.
Proof. intros (? & ?%Z.eqb_eq & _)%find_range_Some. auto. Qed.

Lemma find_clear_None m r lo hi p :
  find_clear m r lo hi = None → lo ≤ p < hi → test_bit m r p = 1.
Proof.
  intros H Hp. unfold find_clear in H. rewrite find_range_None in H.
  specialize (H p Hp). simpl in H. bsimp. destruct (test_bit_01 m r p); lia.
Qed.

Lemma scan_region_Some m r start_r start_p region p :
  scan_region m r start_r start_p region = Some p →
  reserved_pages region ≤ p < total_pages region ∧ test_bit m region p = 0.
Proof.
  unfold scan_region. intros H. repeat case_match; simplify_eq; bsimp;
    repeat match goal with
    | H : find_clear _ _ _ _ = Some _ |- _ => apply find_clear_Some in H as [? ?]
    | H : _ || _ = true |- _ => apply orb_true_iff in H as [?|?]; bsimp
    end; split; auto; lia.
Qed.

(** The wrap-around search misses no frame of its region. *)
Lemma scan_region_None m r start_r start_p region p :
  scan_region m r start_r start_p region = None →
  reserved_pages region ≤ p < total_pages region → test_bit m region p = 1.
Proof.
  unfold scan_region. intros H Hp. case_match eqn:E; bsimp; [lia|]. clear E.
  set (p_current := if (_ : bool) then _ else _) in H.
  destruct (find_clear m region p_current _) eqn:E1; [done|].
  destruct (decide (p_current ≤ p)).
  { apply (find_clear_None _ _ _ _ p E1). lia. }
  assert (r = start_r ∧ reserved_pages region < p_current) as [Hr Hlt].
  { split; [|lia]. destruct (decide (r = start_r)); [done|]. exfalso.
    subst p_current. rewrite (proj2 (Z.eqb_neq r start_r)) in * by done.
    case_match; lia. }
  rewrite (proj2 (Z.eqb_eq r start_r)), (proj2 (Z.ltb_lt _ _) Hlt) in H by done.
  apply (find_clear_None _ _ _ _ p H). lia.
Qed.

Lemma region_at_Some s r region :
  0 ≤ r → region_at s r = Some region ↔ regions s !! Z.to_nat r = Some region.
Proof. done. Qed.

Lemma scan_regions_Some s start_r start_p k : ∀ i r region p,
  scan_regions s start_r start_p i k = Some (r, region, p) →
  regions s !! Z.to_nat r = Some region ∧ (0 < region_count s → 0 ≤ r < region_count s) ∧
  reserved_pages region ≤ p < total_pages region ∧ test_bit (mem s) region p = 0.
Proof.
  induction k as [|k IH]; intros i r region p H; simpl in H; [done|].
  destruct (region_at s _) as [region'|] eqn:Er; [|done].
  destruct (scan_region _ _ _ _ _) eqn:Es; [|by eapply IH].
  simplify_eq. apply scan_region_Some in Es as [? ?]. split_and!; auto; try lia.
  intros. apply Z.mod_pos_bound. lia.
Qed.

(** If the loop finds nothing, every region it visited is full. *)
Lemma scan_regions_None s start_r start_p k : ∀ i,
  (∀ j, 0 ≤ j < region_count s → is_Some (region_at s j)) →
  0 < region_count s →
  scan_regions s start_r start_p i k = None →
  ∀ j r p, i ≤ j < i + Z.of_nat k →
    region_at s (w32 (start_r + j) mod region_count s) = Some r →
    reserved_pages r ≤ p < total_pages r → test_bit (mem s) r p = 1.
Proof.
  induction k as [|k IH]; intros i Hin Hc H j r p Hj Hr Hp; [lia|]. simpl in H.
  destruct (Hin (w32 (start_r + i) mod region_count s)) as [r0 Hr0].
  { apply Z.mod_pos_bound. lia. }
  rewrite Hr0 in H. destruct (scan_region _ _ _ _ _) eqn:Es; [done|].
  destruct (decide (j = i)) as [->|].
  - simplify_eq. eauto using scan_region_None.
  - eapply (IH (i + 1)); eauto. lia.
Qed.

(** ** Single-frame updates *)

Lemma count_used_upper m rs :
  (∀ i r, rs !! i = Some r → region_ok r) →
  count_used m rs ≤ Z.of_nat (length rs) * 2 ^ 51.
Proof.
  induction rs as [|r rs IH]; intros Hok; [done|]. cbn [count_used length].
  specialize (IH (λ i, Hok (S i))). pose proof (Hok 0%nat r eq_refl) as [? ? ? ? Ht ? ?].
  assert (count_bits m r ≤ 1 * (total_pages r - 0)).
  { apply (sum_range_bounds 0 (total_pages r) (test_bit m r) 1); [lia|].
    intros p _. destruct (test_bit_01 m r p); lia. }
  assert (total_pages r ≤ 2 ^ 51) by (rewrite Ht; dlia). lia.
Qed.

Lemma used_small s : wf s → 0 ≤ used_pages s < 2 ^ 57.
Proof.
  intros W. rewrite (wf_used _ W). split; [apply count_used_bounds, W|].
  pose proof (count_used_upper (mem s) (regions s) (wf_regions _ W)) as H.
  pose proof (wf_count _ W) as Hc. unfold region_count, MAX_PMM_REGIONS in Hc. nia.
Qed.

(** [s'] is [s] with the bit of frame [p] of region [i] set to [b]. *)
Record bit_update (s : pmm) (i : nat) (r : pmm_region) (p b : Z) (s' : pmm) : Prop := {
  bu_regions : regions s' = regions s;
  bu_cursor : 0 ≤ pmm_cursor_region s' < region_count s;
  bu_old : test_bit (mem s) r p = 1 - b;
  bu_new : test_bit (mem s') r p = b;
  bu_other : ∀ j r' q, regions s !! j = Some r' → 0 ≤ q < total_pages r' →
    ¬ (i = j ∧ p = q) → test_bit (mem s) r' q = test_bit (mem s') r' q;
  bu_used : used_pages s' = w64 (used_pages s + (2 * b - 1));
}.

Lemma bit_update_wf s i r p b s' :
  wf s → regions s !! i = Some r → reserved_pages r ≤ p < total_pages r →
  b = 0 ∨ b = 1 → bit_update s i r p b s' → wf s'.
Proof.
  intros W Hi Hp Hb U. pose proof (used_small s W) as Hu.
  pose proof (wf_regions _ W _ _ Hi) as [? ? ? ? ? Hres ?].
  pose proof (count_used_update (mem s) (mem s') (regions s) i r p Hi ltac:(lia)
    (bu_other _ _ _ _ _ _ U)) as Hcount.
  rewrite (bu_old _ _ _ _ _ _ U), (bu_new _ _ _ _ _ _ U), <- (wf_used _ W) in Hcount.
  pose proof (count_used_bounds (mem s') (regions s) (wf_regions _ W)).
  destruct W, U. split; unfold region_count in *; rewrite bu_regions0; try done.
  rewrite bu_used0, w64_small; lia.
Qed.

(** The abstract effect of clearing or setting one frame's bit. *)
Lemma bit_update_frames s i r p b s' :
  wf s → regions s !! i = Some r → reserved_pages r ≤ p < total_pages r →
  bit_update s i r p b s' →
  let a := phys_start r + p * 4096 in
  (∀ x, x ≠ a → free_frame s' x ↔ free_frame s x) ∧
  (free_frame s' a ↔ b = 0) ∧ (free_frame s a ↔ b = 1).
Proof.
  intros W Hi Hp U a.
  assert (∀ j r' q, regions s !! j = Some r' → reserved_pages r' ≤ q < total_pages r' →
    a = phys_start r' + q * 4096 → j = i ∧ r' = r ∧ q = p) as Hinj.
  { intros j r' q Hj Hq E. symmetry in E.
    pose proof (ro_reserved _ (wf_regions _ W _ _ Hi)).
    pose proof (ro_reserved _ (wf_regions _ W _ _ Hj)).
    by eapply frame_inj; eauto using wf_disjoint, wf_regions; lia. }
  pose proof (ro_reserved _ (wf_regions _ W _ _ Hi)). destruct U. unfold free_frame.
  rewrite bu_regions0. split_and!.
  - intros x Hx. split; intros (j & r' & q & Hj & Hq & Hb & ->); exists j, r', q;
      pose proof (ro_reserved _ (wf_regions _ W _ _ Hj));
      (assert (test_bit (mem s) r' q = test_bit (mem s') r' q);
       [apply (bu_other0 j); auto; [lia|]; intros [-> ->]; simplify_eq; done
       |split_and!; auto; lia]).
  - split.
    + intros (j & r' & q & Hj & Hq & Hb & E).
      destruct (Hinj j r' q Hj Hq E) as (-> & -> & ->). congruence.
    + intros ->. exists i, r, p. auto.
  - split.
    + intros (j & r' & q & Hj & Hq & Hb & E).
      destruct (Hinj j r' q Hj Hq E) as (-> & -> & ->). lia.
    + intros ->. exists i, r, p. split_and!; auto; lia.
Qed.

Lemma set_bit_update s i r p c u :
  wf s → regions s !! i = Some r → reserved_pages r ≤ p < total_pages r →
  test_bit (mem s) r p = 0 → 0 ≤ c < region_count s →
  bit_update s i r p 1 (mk_pmm (set_bit (mem s) r p) (regions s) (managed_pages s)
    (pmm_reserved_pages s) (w64 (used_pages s + 1)) (max_phys_end s) c u).
Proof.
  intros W Hi Hp Hb Hc. pose proof (ro_reserved _ (wf_regions _ W _ _ Hi)).
  split; simpl; auto.
  - by rewrite test_set_bit, decide_True by by apply same_bit_eq.
  - intros j r' q Hj Hq Hne. rewrite test_set_bit, decide_False; [done|].
    rewrite (same_bit_regions s i j); auto; lia.
Qed.

Lemma clear_bit_update s i r p :
  wf s → regions s !! i = Some r → reserved_pages r ≤ p < total_pages r →
  test_bit (mem s) r p = 1 →
  bit_update s i r p 0 (mk_pmm (clear_bit (mem s) r p) (regions s) (managed_pages s)
    (pmm_reserved_pages s) (w64 (used_pages s - 1)) (max_phys_end s)
    (pmm_cursor_region s) (pmm_cursor_page_idx s)).
Proof.
  intros W Hi Hp Hb. pose proof (ro_reserved _ (wf_regions _ W _ _ Hi)).
  split; simpl; auto using wf_cursor.
  - by rewrite test_clear_bit, decide_True by by apply same_bit_eq.
  - intros j r' q Hj Hq Hne. rewrite test_clear_bit, decide_False; [done|].
    rewrite (same_bit_regions s i j); auto; lia.
Qed.

Lemma frame_addr r p :
  region_ok r → reserved_pages r ≤ p < total_pages r →
  w64 (phys_start r + p * 4096) = phys_start r + p * 4096 ∧
  (phys_start r + p * 4096) mod 4096 = 0 ∧ 0 < phys_start r + p * 4096.
Proof.
  intros [? ? ? ? Ht ? ?] Hp. split_and!; [|dlia|lia].
  apply w64_small. rewrite Ht in Hp. dlia.
Qed.

Lemma find_region_Some rs a r :
  find_region rs a = Some r → ∃ i, rs !! i = Some r ∧ in_region a r = true.
Proof.
  induction rs as [|r0 rs IH]; simpl; [done|]. destruct (in_region a r0) eqn:E.
  - intros [= ->]. by exists 0%nat.
  - intros (i & ? & ?)%IH. by exists (S i).
Qed.

Lemma find_region_None rs a i r :
  find_region rs a = None → rs !! i = Some r → in_region a r = false.
Proof.
  revert i. induction rs as [|r0 rs IH]; intros i; simpl; [done|].
  destruct (in_region a r0) eqn:E; [done|]. destruct i; simpl; [by intros _ [= ->]|eauto].
Qed.

Lemma in_region_frame r p off :
  region_ok r → 0 ≤ p < total_pages r → 0 ≤ off < 4096 →
  in_region (phys_start r + p * 4096 + off) r = true ∧
  w64 (phys_start r + p * 4096 + off - phys_start r) / 4096 = p.
Proof.
  intros [? ? ? ? Ht ? ?] Hp Hoff. unfold in_region.
  assert (phys_start r + p * 4096 + off < phys_end r) by (rewrite Ht in Hp; dlia).
  rewrite w64_small by lia. split; [|dlia].
  rewrite !andb_true_iff, negb_true_iff, Z.eqb_neq, Z.leb_le, Z.ltb_lt. lia.
Qed.

Lemma find_region_frame s i r p off :
  wf s → regions s !! i = Some r → 0 ≤ p < total_pages r → 0 ≤ off < 4096 →
  find_region (regions s) (phys_start r + p * 4096 + off) = Some r.
Proof.
  intros W Hi Hp Hoff. pose proof (wf_regions _ W _ _ Hi) as R.
  destruct (in_region_frame r p off R Hp Hoff) as [Hin _].
  destruct (find_region _ _) as [r'|] eqn:E.
  - apply find_region_Some in E as (j & Hj & Hin').
    destruct (decide (i = j)) as [->|Hne]; [congruence|].
    destruct (wf_disjoint _ W i j r r') as [H|H]; auto; exfalso;
      unfold in_region in *; bsimp; lia.
  - eapply find_region_None in E; eauto. congruence.
Qed.

(** ** Correctness of allocation and release *)

(** The update a successful [pmm_alloc_page] performs. *)
Lemma pmm_alloc_page_update s a s' :
  wf s → pmm_alloc_page s = Ret (a, s') →
  ∃ i r p, regions s !! i = Some r ∧ reserved_pages r ≤ p < total_pages r ∧
    a = phys_start r + p * 4096 ∧ bit_update s i r p 1 s' ∧
    mem s' = set_bit (mem s) r p ∧ test_bit (mem s) r p = 0.
Proof.
  intros W H. unfold pmm_alloc_page in H. pose proof (wf_cursor _ W) as Hcur.
  destruct (scan_regions _ _ _ _ _) as [[[r region] p]|] eqn:Es; [|done].
  apply scan_regions_Some in Es as (Hi & Hr & Hp & Hb). specialize (Hr ltac:(lia)).
  pose proof (set_bit_update s _ _ p r (p + 1) W Hi Hp Hb Hr) as U. simplify_eq.
  exists (Z.to_nat r), region, p. split_and!; auto; try lia.
  by destruct (frame_addr region p (wf_regions _ W _ _ Hi) Hp) as (-> & _ & _).
Qed.

Lemma pmm_alloc_page_wf s a s' :
  wf s → pmm_alloc_page s = Ret (a, s') →
  wf s' ∧ allocated_frame s' a ∧ used_pages s' = used_pages s + 1 ∧
  regions s' = regions s ∧ a mod 4096 = 0 ∧ 0 < a < 2 ^ 63 ∧
  (∀ x, x ≠ a → free_frame s' x ↔ free_frame s x) ∧ free_frame s a ∧ ¬ free_frame s' a ∧
  (∀ r, r ∈ regions s → apart a 4096 (bitmap_phys r) (bitmap_bytes r)).
Proof.
  intros W (i & r & p & Hi & Hp & -> & U & _ & _)%pmm_alloc_page_update; [|done].
  pose proof (wf_regions _ W _ _ Hi) as R.
  destruct (frame_addr r p R Hp) as (_ & Hal & Hpos).
  destruct (bit_update_frames _ _ _ _ _ _ W Hi Hp U) as (Hx & Ha' & Ha).
  pose proof (used_small s W). split_and!; auto.
  - eapply bit_update_wf; eauto.
  - exists i, r, p. by rewrite (bu_regions _ _ _ _ _ _ U), (bu_new _ _ _ _ _ _ U).
  - rewrite (bu_used _ _ _ _ _ _ U). apply w64_small. lia.
  - apply U.
  - destruct R as [? ? ? ? Ht ? ?]. rewrite Ht in Hp. dlia.
  - by apply Ha.
  - by rewrite Ha'.
  - intros r' Hr'. apply (wf_meta _ W); auto. by eapply list_elem_of_lookup_2.
Qed.

(** C9: A successful [pmm_alloc_page] hands out a frame that was free, page
    aligned, non-null and outside every allocator bitmap; that frame and no
    other stops being free; the invariant is kept. *)
Theorem pmm_alloc_page_spec s a s' :
  wf s → pmm_alloc_page s = Ret (a, s') →
  wf s' ∧ free_frame s a ∧ ¬ free_frame s' a ∧
  a mod 4096 = 0 ∧ 0 < a ∧
  (∀ r, r ∈ regions s → apart a 4096 (bitmap_phys r) (bitmap_bytes r)) ∧
  (∀ x, x ≠ a → free_frame s' x ↔ free_frame s x) ∧
  used_pages s' = used_pages s + 1.
Proof.
  intros W H. destruct (pmm_alloc_page_wf s a s' W H) as (? & ? & ? & ? & ? & ? & ? & ? & ? & ?).
  split_and!; auto; lia.
Qed.

(** [pmm_alloc_page] panics with "Out of physical memory" exactly when no
    frame of any region is free: the cursor search misses nothing. *)
Theorem pmm_alloc_page_complete s :
  wf s →
  (pmm_alloc_page s = Panic "Out of physical memory" 0 ↔ ∀ a, ¬ free_frame s a).
Proof.
  intros W. pose proof (wf_cursor _ W) as Hcur. pose proof (wf_count _ W) as Hcnt.
  unfold MAX_PMM_REGIONS in Hcnt. unfold pmm_alloc_page.
  destruct (scan_regions _ _ _ _ _) as [[[r region] p]|] eqn:Es; split; try done.
  - apply scan_regions_Some in Es as (Hi & Hr & Hp & Hb).
    intros Hn. exfalso. apply (Hn (phys_start region + p * 4096)).
    by exists (Z.to_nat r), region, p.
  - intros _ a (i & r & p & Hi & Hp & Hb & ->).
    pose proof (lookup_lt_Some _ _ _ Hi) as Hlt. unfold region_count in *.
    (* the iteration that visits region i *)
    set (n := Z.of_nat (length (regions s))) in *.
    set (j := (Z.of_nat i - pmm_cursor_region s) mod n).
    assert (0 ≤ j < n) by (apply Z.mod_pos_bound; lia).
    assert (w32 (pmm_cursor_region s + j) mod n = Z.of_nat i) as Hj.
    { rewrite w32_small by lia. subst j. rewrite Zplus_mod_idemp_r.
      replace (pmm_cursor_region s + (Z.of_nat i - pmm_cursor_region s)) with (Z.of_nat i) by lia.
      apply Z.mod_small. lia. }
    assert (test_bit (mem s) r p = 1); [|lia].
    eapply (scan_regions_None s _ _ _ 0 _ _ Es j); [lia| |done].
    unfold region_count. fold n. rewrite Hj. unfold region_at. by rewrite Nat2Z.id.
    Unshelve. 2: unfold region_count; lia.
    intros k Hk. unfold region_at. apply lookup_lt_is_Some. unfold region_count in Hk. lia.
Qed.

Lemma pmm_free_page_allocated s a off :
  wf s → allocated_frame s a → 0 ≤ off < 4096 →
  ∃ s', pmm_free_page s (a + off) = Ret s' ∧ wf s' ∧ regions s' = regions s ∧
    free_frame s' a ∧ (∀ x, x ≠ a → free_frame s' x ↔ free_frame s x) ∧
    used_pages s' = used_pages s - 1.
Proof.
  intros W (i & r & p & Hi & Hp & Hb & ->) Hoff.
  pose proof (wf_regions _ W _ _ Hi) as R. pose proof (ro_reserved _ R).
  unfold pmm_free_page. rewrite (find_region_frame s i) by (auto; lia).
  destruct (in_region_frame r p off R ltac:(lia) Hoff) as [_ ->].
  rewrite (proj2 (Z.leb_gt _ _)), (proj2 (Z.ltb_ge _ _)), Hb by lia. simpl.
  pose proof (clear_bit_update s i r p W Hi Hp Hb) as U.
  destruct (bit_update_frames _ _ _ _ _ _ W Hi Hp U) as (Hx & Ha' & Ha).
  pose proof (bit_update_wf _ _ _ _ _ _ W Hi Hp (or_introl eq_refl) U) as W'.
  pose proof (used_small s W). pose proof (used_small _ W') as Hu'. simpl in Hu'.
  eexists; split_and!; [done|done|done| |done|].
  - by apply Ha'.
  - simpl. apply w64_small. destruct (decide (used_pages s = 0)) as [E|]; [|lia].
    rewrite E in Hu'. change (w64 (0 - 1)) with (2 ^ 64 - 1) in Hu'. lia.
Qed.

(** Freeing an allocated frame (by any address inside it) succeeds, makes
    exactly that frame free again and keeps the invariant. *)
Theorem pmm_free_page_spec s a off :
  wf s → allocated_frame s a → 0 ≤ off < 4096 →
  ∃ s', pmm_free_page s (a + off) = Ret s' ∧ wf s' ∧ free_frame s' a ∧
    (∀ x, x ≠ a → free_frame s' x ↔ free_frame s x) ∧
    used_pages s' = used_pages s - 1.
Proof.
  intros W Ha Hoff.
  destruct (pmm_free_page_allocated s a off W Ha Hoff) as (s' & ? & ? & _ & ? & ? & ?). eauto 10.
Qed.

(** Allocating a frame and freeing it again restores the set of free
    frames and the usage counter (the allocator self-test of kernel.c). *)
Theorem pmm_alloc_free_roundtrip s a s1 :
  wf s → pmm_alloc_page s = Ret (a, s1) →
  ∃ s2, pmm_free_page s1 a = Ret s2 ∧ wf s2 ∧
    pmm_used_bytes s2 = pmm_used_bytes s ∧ ∀ x, free_frame s2 x ↔ free_frame s x.
Proof.
  intros W H.
  destruct (pmm_alloc_page_wf s a s1 W H) as (W1 & Ha & Hu & _ & _ & _ & Hx & Hf & _).
  destruct (pmm_free_page_allocated s1 a 0 W1 Ha ltac:(lia))
    as (s2 & Hs2 & W2 & _ & Hf2 & Hx2 & Hu2).
  rewrite Z.add_0_r in Hs2. exists s2. split_and!; auto.
  - unfold pmm_used_bytes. by replace (used_pages s2) with (used_pages s) by lia.
  - intros x. destruct (decide (x = a)) as [->|]; [by split|]. rewrite Hx2, Hx; auto.
Qed.

(** The three rejections of [pmm_free_page]: a frame that is already free
    is reported as a double free, a reserved metadata frame and an address
    outside every region are refused; the state is never changed. *)
Theorem pmm_free_page_errors s :
  wf s →
  (∀ a off, free_frame s a → 0 ≤ off < 4096 →
     pmm_free_page s (a + off) = Panic "Double free detected" (a + off)) ∧
  (∀ i r p off, regions s !! i = Some r → 0 ≤ p < reserved_pages r → 0 ≤ off < 4096 →
     let a := phys_start r + p * 4096 + off in
     pmm_free_page s a = Panic "Attempt to free allocator metadata page" a) ∧
  (∀ a, (∀ i r, regions s !! i = Some r → ¬ phys_start r ≤ a < phys_end r) →
     pmm_free_page s a = Panic "Attempt to free non-managed page" a).
Proof.
  intros W. unfold pmm_free_page. split_and!.
  - intros a off (i & r & p & Hi & Hp & Hb & ->) Hoff.
    pose proof (wf_regions _ W _ _ Hi) as R. pose proof (ro_reserved _ R).
    rewrite (find_region_frame s i) by (auto; lia).
    destruct (in_region_frame r p off R ltac:(lia) Hoff) as [_ ->].
    by rewrite (proj2 (Z.leb_gt _ _)), (proj2 (Z.ltb_ge _ _)), Hb by lia.
  - intros i r p off Hi Hp Hoff.
    pose proof (wf_regions _ W _ _ Hi) as R. pose proof (ro_reserved _ R).
    rewrite (find_region_frame s i) by (auto; lia).
    destruct (in_region_frame r p off R ltac:(lia) Hoff) as [_ ->].
    by rewrite (proj2 (Z.leb_gt _ _)), (proj2 (Z.ltb_lt _ _)) by lia.
  - intros a Ha. destruct (find_region _ _) as [r|] eqn:E; [|done].
    apply find_region_Some in E as (i & Hi & Hin). exfalso. apply (Ha i r Hi).
    unfold in_region in Hin. bsimp. lia.
Qed.

End Pmm.
