(* ===== verification/PmmRuns.v ===== *)
(** * Contiguous allocation and bitmap layout of the frame allocator

    Proofs about [pmm_alloc_pages] and [setup_bitmaps] of src/kernel/mem.c
    (modelled in Pmm.v): a run handed out is n adjacent free frames, and the
    metadata layout computed at boot establishes the allocator's invariant. *)

From S2P Require Import Prelude Memory Pmm.
From stdpp Require Import options.
Import Pmm.

Module PmmRuns.

(** ** The run search *)

Lemma find_run_Some m region n k : ∀ page c st0 st,
  0 ≤ c < n →
  (0 < c → st0 = page - c ∧ ∀ q, st0 ≤ q < page → test_bit m region q = 0) →
  find_run m region n page c st0 k = Some st →
  page - c ≤ st ∧ st + n ≤ page + Z.of_nat k ∧
  ∀ q, st ≤ q < st + n → test_bit m region q = 0.
Proof.
  induction k as [|k IH]; intros page c st0 st Hc Hrun H; simpl in H; [done|].
  destruct (test_bit m region page =? 0) eqn:Hb; bsimp.
  - set (st1 := if c =? 0 then page else st0) in H.
    assert (st1 = page - c ∧ ∀ q, st1 ≤ q < page + 1 → test_bit m region q = 0) as [Hst Hclr].
    { subst st1. case_if.
      - split; [lia|]. intros q ?. by replace q with page by lia.
      - destruct Hrun as [-> Hq]; [lia|]. split; [done|]. intros q ?.
        destruct (decide (q = page)) as [->|]; [done|]. apply Hq. lia. }
    case_if in H.
    + simplify_eq. split_and!; [lia|lia|]. intros q ?. apply Hclr. lia.
    + destruct (IH (page + 1) (c + 1) st1 st) as (? & ? & ?); [lia| |done|].
      * intros _. split; [lia|done].
      * split_and!; auto; lia.
  - destruct (IH (page + 1) 0 st0 st) as (? & ? & ?); [lia|lia|done|].
    split_and!; auto; lia.
Qed.

Lemma find_run_None m region n k : ∀ page c st0 x,
  0 ≤ c < n → find_run m region n page c st0 k = None →
  page - c ≤ x → x + n ≤ page + Z.of_nat k →
  ∃ q, x ≤ q < x + n ∧ page ≤ q ∧ test_bit m region q = 1.
Proof.
  induction k as [|k IH]; intros page c st0 x Hc H Hx Hn; simpl in H; [lia|].
  destruct (test_bit m region page =? 0) eqn:Hb; bsimp.
  - destruct (c + 1 =? n) eqn:Hcn; [done|]. bsimp.
    destruct (IH (page + 1) (c + 1) _ x ltac:(lia) H) as (q & ? & ? & ?); [lia|lia|].
    exists q. split_and!; auto; lia.
  - destruct (decide (x ≤ page)).
    + exists page. destruct (test_bit_01 m region page); [lia|]. split_and!; auto; lia.
    + destruct (IH (page + 1) 0 st0 x ltac:(lia) H) as (q & ? & ? & ?); [lia|lia|].
      exists q. split_and!; auto; lia.
Qed.

Lemma find_run_region_Some m n rs region st :
  1 ≤ n → find_run_region m n rs = Some (region, st) →
  ∃ i, rs !! i = Some region ∧ w64 (reserved_pages region + n) < total_pages region ∧
    reserved_pages region ≤ st ∧
    st + n ≤ Z.max (reserved_pages region) (total_pages region) ∧
    ∀ q, st ≤ q < st + n → test_bit m region q = 0.
Proof.
  intros Hn. induction rs as [|r rs IH]; simpl; [done|].
  intros H. assert (find_run_region m n rs = Some (region, st) →
    ∃ i, (r :: rs) !! i = Some region ∧ w64 (reserved_pages region + n) < total_pages region ∧
    reserved_pages region ≤ st ∧
    st + n ≤ Z.max (reserved_pages region) (total_pages region) ∧
    ∀ q, st ≤ q < st + n → test_bit m region q = 0) as IH'.
  { intros (i & ?)%IH. by exists (S i). }
  case_if in H; [by apply IH'|]. case_match eqn:E; [|by apply IH'].
  simplify_eq. apply find_run_Some in E as (? & ? & ?); [|lia|lia].
  exists 0%nat. split_and!; auto; lia.
Qed.

(** The state after setting the first [k] bits of the run. *)
Definition after_run (s : pmm) (region : pmm_region) (st k : Z) : pmm :=
  mk_pmm (for_range 0 k (λ k m, set_bit m region (st + k)) (mem s)) (regions s)
    (managed_pages s) (pmm_reserved_pages s) (w64 (used_pages s + k)) (max_phys_end s)
    (pmm_cursor_region s) (pmm_cursor_page_idx s).

Lemma after_run_step s region st k :
  wf s → 0 ≤ k → used_pages s + k < 2 ^ 64 →
  after_run s region st (k + 1) =
  let s1 := after_run s region st k in
  mk_pmm (set_bit (mem s1) region (st + k)) (regions s1) (managed_pages s1)
    (pmm_reserved_pages s1) (w64 (used_pages s1 + 1)) (max_phys_end s1)
    (pmm_cursor_region s1) (pmm_cursor_page_idx s1).
Proof.
  intros W Hk Hu. pose proof (used_small s W). unfold after_run. cbn -[w64 for_range].
  rewrite for_range_snoc by lia. f_equal. rewrite (w64_small (used_pages s + k)) by lia.
  f_equal. lia.
Qed.

Lemma after_run_spec s i region st n :
  wf s → regions s !! i = Some region →
  reserved_pages region ≤ st → st + n ≤ total_pages region →
  (∀ q, st ≤ q < st + n → test_bit (mem s) region q = 0) →
  ∀ k, 0 ≤ k → k ≤ n →
  let s1 := after_run s region st k in
  wf s1 ∧ regions s1 = regions s ∧
  (∀ q, st + k ≤ q < st + n → test_bit (mem s1) region q = 0) ∧
  (∀ x, free_frame s1 x ↔
     free_frame s x ∧ ¬ ∃ q, st ≤ q < st + k ∧ x = phys_start region + q * 4096).
Proof.
  intros W Hi Hlo Hhi Hclr. pose proof (used_small s W) as Hu.
  assert (n < 2 ^ 52) as Hn.
  { pose proof (wf_regions _ W _ _ Hi) as [? ? ? ? Ht ? ?]. rewrite Ht in Hhi. dlia. }
  refine (natlike_ind _ _ _).
  - intros _ s1. assert (s1 = s) as ->.
    { subst s1. unfold after_run. rewrite for_range_nil, Z.add_0_r, w64_small by lia.
      by destruct s. }
    split; [done|]. split; [done|]. split; [intros; apply Hclr; lia|].
    intros x. split; [|tauto]. intros Hx. split; [done|]. intros (q & ? & ?). lia.
  - intros k Hk IH Hle. cbn zeta in *. destruct IH as (W1 & Hrs & Hq & Hx); [lia|].
    unfold Z.succ. rewrite after_run_step by (auto; lia). cbn zeta.
    set (s1 := after_run s region st k) in *.
    assert (regions s1 !! i = Some region) as Hi1 by by rewrite Hrs.
    pose proof (wf_cursor _ W1) as Hcur.
    pose proof (set_bit_update s1 i region (st + k) (pmm_cursor_region s1)
      (pmm_cursor_page_idx s1) W1 Hi1 ltac:(lia) (Hq (st + k) ltac:(lia)) Hcur) as U.
    pose proof (bit_update_wf s1 i region (st + k) 1 _ W1 Hi1 ltac:(lia) (or_intror eq_refl) U) as W2.
    pose proof (bit_update_frames s1 i region (st + k) 1 _ W1 Hi1 ltac:(lia) U) as (Hfr & Hf1 & Hf0).
    pose proof (ro_reserved _ (wf_regions _ W _ _ Hi)).
    split_and!; [done|done| |].
    + intros q ?. rewrite <- (bu_other _ _ _ _ _ _ U i); auto; [apply Hq; lia|lia|lia].
    + intros x. destruct (decide (x = phys_start region + (st + k) * 4096)) as [->|Hne].
      * rewrite Hf1. split; [lia|]. intros [_ Hnot]. destruct Hnot. exists (st + k). lia.
      * rewrite Hfr, Hx by done. split; intros [? Hnot]; split; auto;
          intros (q & ? & ->); apply Hnot; exists q; split; auto; [|lia].
        destruct (decide (q = st + k)) as [->|]; [done|lia].
Qed.

(** C28: [pmm_alloc_pages n] (n at least 2) returns the base of n adjacent
    frames, all free before and none after; no other frame changes, the usage
    counter grows by n and the invariant is kept. *)
Theorem pmm_alloc_pages_spec s n a s' :
  wf s → 2 ≤ n → pmm_alloc_pages s n = Ret (a, s') →
  wf s' ∧ a mod 4096 = 0 ∧
  (∀ k, 0 ≤ k < n → free_frame s (a + k * 4096)) ∧
  (∀ x, free_frame s' x ↔ free_frame s x ∧ ¬ ∃ k, 0 ≤ k < n ∧ x = a + k * 4096) ∧
  used_pages s' = used_pages s + n.
Proof.
  intros W Hn H. unfold pmm_alloc_pages in H.
  rewrite (proj2 (Z.eqb_neq n 0)), (proj2 (Z.eqb_neq n 1)) in H by lia.
  destruct (find_run_region _ _ _) as [[region st]|] eqn:E; [|done].
  apply find_run_region_Some in E as (i & Hi & _ & Hlo & Hhi & Hclr); [|lia].
  pose proof (wf_regions _ W _ _ Hi) as R. pose proof (ro_reserved _ R).
  replace (Z.max _ _) with (total_pages region) in Hhi by lia.
  destruct (after_run_spec s i region st n W Hi Hlo Hhi Hclr n) as (W' & _ & _ & Hx); [lia|lia|].
  pose proof (used_small s W). unfold after_run in *. simplify_eq.
  assert (w64 (phys_start region + st * 4096) = phys_start region + st * 4096 ∧
    (phys_start region + st * 4096) mod 4096 = 0) as [-> Hal].
  { destruct (frame_addr region st R) as (? & ? & ?); [lia|auto]. }
  split_and!; [done|done| | |].
  - intros k Hk. exists i, region, (st + k). split_and!; auto; try lia. apply Hclr. lia.
  - intros x. rewrite Hx. split; intros [? Hnot]; split; auto; intros (k & ? & ->);
      apply Hnot; [exists (st + k)|exists (k - st)]; split; lia.
  - apply w64_small.
    destruct R as [? ? ? ? Ht ? ?]. rewrite Ht in Hhi. dlia.
Qed.

Lemma find_run_region_None m n rs :
  find_run_region m n rs = None ↔
  ∀ i r, rs !! i = Some r → w64 (reserved_pages r + n) < total_pages r →
    find_run m r n (reserved_pages r) 0 0 (Z.to_nat (total_pages r - reserved_pages r)) = None.
Proof.
  induction rs as [|r rs IH]; simpl.
  - by split.
  - case_if; [|case_match eqn:E].
    + rewrite IH. split; [|intros H i; apply (H (S i))].
      intros H [|i] r' Hi Hlt; simpl in Hi; [simplify_eq; lia|eauto].
    + split; [done|]. intros H. rewrite (H O r eq_refl) in E; [done|lia].
    + rewrite IH. split; [|intros H i; apply (H (S i))].
      intros H [|i] r' Hi Hlt; simpl in Hi; [by simplify_eq|eauto].
Qed.

(** [pmm_alloc_pages n] fails exactly when every region with more than n
    allocatable frames has a used frame in each of its n-frame windows.  A
    region with exactly n allocatable frames is never searched. *)
Theorem pmm_alloc_pages_complete s n :
  wf s → 2 ≤ n < 2 ^ 52 →
  (pmm_alloc_pages s n = Panic "Out of contiguous physical memory" n ↔
   ∀ i r st, regions s !! i = Some r → reserved_pages r + n < total_pages r →
     reserved_pages r ≤ st → st + n ≤ total_pages r →
     ∃ q, st ≤ q < st + n ∧ ¬ free_frame s (phys_start r + q * 4096)).
Proof.
  intros W Hn. unfold pmm_alloc_pages.
  rewrite (proj2 (Z.eqb_neq n 0)), (proj2 (Z.eqb_neq n 1)) by lia.
  assert (∀ i r q, regions s !! i = Some r → reserved_pages r ≤ q < total_pages r →
    free_frame s (phys_start r + q * 4096) → test_bit (mem s) r q = 0) as Hfree.
  { intros i r q Hi Hq (j & r' & p & Hj & Hp & Hb & E).
    pose proof (ro_reserved _ (wf_regions _ W _ _ Hi)).
    pose proof (ro_reserved _ (wf_regions _ W _ _ Hj)).
    destruct (frame_inj _ i j r r' q p (wf_disjoint _ W) (wf_regions _ W)) as (-> & -> & ->);
      auto; lia. }
  destruct (find_run_region _ _ _) as [[region st]|] eqn:E; split; try done.
  - intros H. exfalso.
    apply find_run_region_Some in E as (i & Hi & Hlt & Hlo & Hhi & Hclr); [|lia].
    pose proof (wf_regions _ W _ _ Hi) as R. pose proof (ro_reserved _ R).
    assert (total_pages region < 2 ^ 52) by (destruct R as [? ? ? ? Ht ? ?]; rewrite Ht; dlia).
    rewrite w64_small in Hlt by lia.
    destruct (H i region st Hi) as (q & Hq & Hnf); [lia|lia|lia|].
    apply Hnf. exists i, region, q. split_and!; auto; lia.
  - intros _ i r st Hi Hlt Hst Hend. rewrite find_run_region_None in E.
    pose proof (wf_regions _ W _ _ Hi) as R. pose proof (ro_reserved _ R).
    assert (total_pages r < 2 ^ 52) by (destruct R as [? ? ? ? Ht ? ?]; rewrite Ht; dlia).
    specialize (E i r Hi ltac:(rewrite w64_small; lia)).
    apply (find_run_None _ _ _ _ _ _ _ st) in E as (q & Hq & ? & Hb); [|lia|lia|lia].
    exists q. split; [lia|]. intros Hf%(Hfree i); [lia|done|lia].
Qed.

End PmmRuns.
