(* ===== verification/PmmInit.v ===== *)
(** * Boot-time layout of the frame allocator

    [setup_bitmaps] of src/kernel/mem.c (modelled in Pmm.v) establishes the
    allocator invariant: it places every bitmap, back to back, in the reserved
    first frames of one region, zeroes them and marks exactly the reserved
    frames as used. *)

From S2P Require Import Prelude Memory Pmm.
From stdpp Require Import options.
Import Pmm.

Module PmmInit.

(** What [pmm_add_region] leaves for page-aligned bounds, as [arch_mem_init]
    passes them. *)
Record fresh_region (r : pmm_region) : Prop := {
  fr_start : 0 < phys_start r;
  fr_align : phys_start r mod 4096 = 0;
  fr_range : phys_start r < phys_end r < 2 ^ 63;
  fr_end : phys_end r mod 4096 = 0;
  fr_total : total_pages r = (phys_end r - phys_start r) / 4096;
  fr_reserved : reserved_pages r = 0;
}.

Lemma fresh_total r : fresh_region r → 1 ≤ total_pages r < 2 ^ 52.
Proof. intros [? ? ? ? Ht ?]. rewrite Ht. dlia. Qed.

Definition nbytes (r : pmm_region) : Z := (total_pages r + 7) / 8.

Lemma region_bitmap_bytes_eq r : fresh_region r → region_bitmap_bytes r = nbytes r.
Proof.
  intros F%fresh_total. unfold region_bitmap_bytes, nbytes. rewrite align_up_8 by lia. dlia.
Qed.

Lemma nbytes_bounds r : fresh_region r → 1 ≤ nbytes r < 2 ^ 50 ∧ total_pages r ≤ 8 * nbytes r.
Proof. intros F%fresh_total. unfold nbytes. dlia. Qed.

Fixpoint sum_bytes (rs : list pmm_region) : Z :=
  match rs with [] => 0 | r :: rs' => nbytes r + sum_bytes rs' end.

Lemma sum_bytes_bounds rs :
  Forall fresh_region rs → 0 ≤ sum_bytes rs ≤ Z.of_nat (length rs) * 2 ^ 50.
Proof.
  induction 1 as [|r rs F _ IH]; [done|]. cbn [sum_bytes length].
  pose proof (nbytes_bounds r F). lia.
Qed.

Lemma total_bitmap_bytes_eq rs : ∀ acc,
  Forall fresh_region rs → 0 ≤ acc → acc + Z.of_nat (length rs) * 2 ^ 50 < 2 ^ 64 →
  total_bitmap_bytes rs acc = acc + sum_bytes rs.
Proof.
  induction rs as [|r rs IH]; intros acc HF Ha Hlt; [simpl; lia|].
  apply Forall_cons in HF as [F HF]. cbn [total_bitmap_bytes sum_bytes length] in *.
  pose proof (fresh_total r F). pose proof (nbytes_bounds r F).
  rewrite (proj2 (Z.eqb_neq _ 0)), region_bitmap_bytes_eq by (auto; lia).
  rewrite w64_small by lia. rewrite IH by (auto; lia). lia.
Qed.

(** The layout the third pass produces, as a pure list. *)
Fixpoint layout (rs : list pmm_region) (c : Z) : list pmm_region :=
  match rs with
  | [] => []
  | r :: rs' =>
      mk_region (phys_start r) (phys_end r) c (nbytes r) (total_pages r) 0
        :: layout rs' (c + nbytes r)
  end.

Lemma zero_loop_rd8 m c n a :
  0 ≤ n →
  rd8 (for_range 0 n (λ b m, wr8 m (c + b) 0) m) a =
  if decide (c ≤ a < c + n) then 0 else rd8 m a.
Proof. apply (rd8_memset m c 0 n a). Qed.

Lemma assign_bitmaps_eq rs : ∀ c m,
  Forall fresh_region rs → 0 ≤ c → c + sum_bytes rs < 2 ^ 64 →
  ∃ m', assign_bitmaps rs c m = (layout rs c, c + sum_bytes rs, m') ∧
    ∀ a, rd8 m' a = if decide (c ≤ a < c + sum_bytes rs) then 0 else rd8 m a.
Proof.
  induction rs as [|r rs IH]; intros c m HF Hc Hlt; cbn [sum_bytes layout assign_bitmaps] in *.
  - exists m. rewrite Z.add_0_r. split; [done|]. intros a. by rewrite decide_False by lia.
  - apply Forall_cons in HF as [F HF]. pose proof (fresh_total r F).
    pose proof (nbytes_bounds r F). pose proof (sum_bytes_bounds rs HF).
    rewrite (proj2 (Z.eqb_neq _ 0)), region_bitmap_bytes_eq, w64_small by (auto; lia).
    destruct (IH (c + nbytes r) (for_range 0 (nbytes r) (λ b m, wr8 m (c + b) 0) m))
      as (m' & -> & Hm'); [done|lia|lia|].
    exists m'. rewrite Z.add_assoc. split; [done|]. intros a.
    rewrite Hm', zero_loop_rd8 by lia. repeat case_decide; done || lia.
Qed.

(** The [i]-th region of the layout. *)
Lemma layout_lookup rs : ∀ c i r,
  rs !! i = Some r →
  layout rs c !! i = Some (mk_region (phys_start r) (phys_end r)
    (c + sum_bytes (take i rs)) (nbytes r) (total_pages r) 0).
Proof.
  induction rs as [|r0 rs IH]; intros c i r Hi; [done|].
  destruct i as [|i]; simpl in *.
  - simplify_eq. by rewrite Z.add_0_r.
  - rewrite (IH _ _ _ Hi). do 2 f_equal. lia.
Qed.

Lemma layout_lookup_inv rs c i r1 :
  layout rs c !! i = Some r1 → ∃ r, rs !! i = Some r.
Proof.
  revert c i. induction rs as [|r0 rs IH]; intros c i; [done|].
  destruct i; simpl; eauto.
Qed.

Lemma length_layout rs c : length (layout rs c) = length rs.
Proof. revert c. induction rs; intros c; simpl; auto. Qed.

Lemma sum_bytes_take_lt rs : ∀ i r,
  Forall fresh_region rs → rs !! i = Some r →
  0 ≤ sum_bytes (take i rs) ∧ sum_bytes (take i rs) + nbytes r ≤ sum_bytes rs.
Proof.
  induction rs as [|r0 rs IH]; intros i r HF Hi; [done|].
  apply Forall_cons in HF as [F HF]. pose proof (nbytes_bounds r0 F).
  destruct i as [|i]; simpl in *.
  - simplify_eq. pose proof (sum_bytes_bounds rs HF). lia.
  - destruct (IH i r HF Hi). lia.
Qed.

Lemma sum_bytes_take_mono rs : ∀ i j r,
  Forall fresh_region rs → rs !! i = Some r → (i < j)%nat →
  sum_bytes (take i rs) + nbytes r ≤ sum_bytes (take j rs).
Proof.
  induction rs as [|r0 rs IH]; intros i j r HF Hi Hij; [done|].
  apply Forall_cons in HF as [F HF].
  destruct i as [|i], j as [|j]; simpl in *; try lia.
  - simplify_eq. pose proof (sum_bytes_bounds (take j rs) (Forall_take _ _ _ HF)). lia.
  - pose proof (IH i j r HF Hi). lia.
Qed.

Lemma choose_meta_Some rs need : ∀ i meta mi mr,
  choose_meta rs i need meta = Some (mi, mr) →
  meta = Some (mi, mr) ∨
  (i ≤ mi)%nat ∧ rs !! (mi - i)%nat = Some mr ∧
  need ≤ w64 (phys_end mr - align_up (phys_start mr) 4096).
Proof.
  induction rs as [|r rs IH]; intros i meta mi mr H; simpl in H; [by left|].
  assert (∀ meta', choose_meta rs (S i) need meta' = Some (mi, mr) →
    meta' = Some (mi, mr) ∨ (i ≤ mi)%nat ∧ (r :: rs) !! (mi - i)%nat = Some mr ∧
    need ≤ w64 (phys_end mr - align_up (phys_start mr) 4096)) as IH'.
  { intros meta' [?|(? & ? & ?)]%IH; [by left|right].
    replace (mi - i)%nat with (S (mi - S i)) by lia. split_and!; auto; lia. }
  repeat case_match; bsimp;
    (destruct (IH' _ H) as [E|?]; [|by right]); try (by left);
    simplify_eq; right; rewrite Nat.sub_diag; split_and!; auto; lia.
Qed.

(** The region table after the metadata region got its reservation. *)
Definition placed (rs : list pmm_region) (c : Z) (mi : nat) (k : Z) : list pmm_region :=
  alter (set_reserved k) mi (layout rs c).

Definition placed_region (rs : list pmm_region) (c : Z) (mi : nat) (k : Z) (i : nat)
    (r : pmm_region) : pmm_region :=
  mk_region (phys_start r) (phys_end r) (c + sum_bytes (take i rs)) (nbytes r)
    (total_pages r) (if decide (i = mi) then k else 0).

Lemma placed_lookup rs c mi k i r2 :
  placed rs c mi k !! i = Some r2 ↔
  ∃ r, rs !! i = Some r ∧ r2 = placed_region rs c mi k i r.
Proof.
  unfold placed. split.
  - intros H. assert (∃ r1, layout rs c !! i = Some r1) as [r1 H1].
    { apply lookup_lt_is_Some. rewrite <- (length_alter (set_reserved k) _ mi).
      by eapply lookup_lt_Some. }
    destruct (layout_lookup_inv _ _ _ _ H1) as [r Hr]. exists r. split; [done|].
    pose proof (layout_lookup _ c _ _ Hr) as H2. unfold placed_region.
    destruct (decide (i = mi)) as [->|Hne].
    + rewrite list_lookup_alter_eq, H2 in H. simpl in H. by simplify_eq.
    + rewrite list_lookup_alter_ne in H by done. by simplify_eq.
  - intros (r & Hr & ->). pose proof (layout_lookup _ c _ _ Hr) as H2.
    unfold placed_region. destruct (decide (i = mi)) as [->|Hne].
    + by rewrite list_lookup_alter_eq, H2.
    + by rewrite list_lookup_alter_ne.
Qed.

(** ** The reservation pass *)

Fixpoint sum_reserved (rs : list pmm_region) : Z :=
  match rs with [] => 0 | r :: rs' => reserved_pages r + sum_reserved rs' end.
Fixpoint sum_managed (rs : list pmm_region) : Z :=
  match rs with
  | [] => 0
  | r :: rs' => (total_pages r - reserved_pages r) + sum_managed rs'
  end.

Definition region_shape (r : pmm_region) : Prop :=
  1 ≤ total_pages r < 2 ^ 52 ∧ 0 ≤ reserved_pages r ≤ total_pages r ∧
  0 ≤ bitmap_phys r ∧ total_pages r ≤ 8 * bitmap_bytes r.

Lemma sum_managed_nonneg rs : Forall region_shape rs → 0 ≤ sum_managed rs.
Proof. induction 1 as [|r rs (? & ? & _) _ IH]; simpl; lia. Qed.

Lemma set_prefix_same m r n q :
  0 ≤ n → 0 ≤ q →
  test_bit (for_range 0 n (λ page m, set_bit m r page) m) r q =
  if q <? n then 1 else test_bit m r q.
Proof.
  intros Hn Hq.
  refine (for_range_inv (λ (i : Z) (m' : memory), test_bit m' r q =
    if q <? i then 1 else test_bit m r q) 0 n _ m _ _ _); [lia| |].
  - by rewrite (proj2 (Z.ltb_ge q 0)) by lia.
  - intros i m' Hi IH. rewrite test_set_bit. case_decide as E.
    + apply same_bit_eq in E as ->. by rewrite (proj2 (Z.ltb_lt q (q + 1))) by lia.
    + rewrite same_bit_eq in E. rewrite IH.
      destruct (Z.ltb_spec q i), (Z.ltb_spec q (i + 1)); done || lia.
Qed.

Lemma set_prefix_apart m r r' n q :
  0 ≤ n ≤ 8 * bitmap_bytes r → 0 ≤ q < 8 * bitmap_bytes r' →
  apart (bitmap_phys r) (bitmap_bytes r) (bitmap_phys r') (bitmap_bytes r') →
  test_bit (for_range 0 n (λ page m, set_bit m r page) m) r' q = test_bit m r' q.
Proof.
  intros Hn Hq Hap.
  refine (for_range_inv (λ (i : Z) (m' : memory), test_bit m' r' q = test_bit m r' q)
    0 n _ m _ _ _); [lia|done|].
  intros i m' Hi IH. rewrite test_set_bit, decide_False; [done|].
  unfold same_bit. intros [E _]. destruct Hap; dlia.
Qed.

Lemma reserve_pass_outside rs : ∀ m a b c r0 q m' a' b' c',
  Forall region_shape rs → 0 ≤ q < 8 * bitmap_bytes r0 →
  (∀ r, r ∈ rs → apart (bitmap_phys r) (bitmap_bytes r) (bitmap_phys r0) (bitmap_bytes r0)) →
  reserve_pass rs m a b c = (m', a', b', c') → test_bit m' r0 q = test_bit m r0 q.
Proof.
  induction rs as [|r rs IH]; intros m a b c r0 q m' a' b' c' HS Hq Hap H; simpl in H.
  - by simplify_eq.
  - apply Forall_cons in HS as [[? [? [? ?]]] HS].
    rewrite (proj2 (Z.eqb_neq _ 0)) in H by lia.
    erewrite (IH _ _ _ _ r0 q m'); [|done|done| |done].
    + apply set_prefix_apart; [lia|done|]. apply Hap. set_solver.
    + intros; apply Hap. set_solver.
Qed.

Lemma reserve_pass_spec rs : ∀ m a b c m' a' b' c',
  Forall region_shape rs → bitmaps_apart rs →
  0 ≤ a → 0 ≤ b → 0 ≤ c →
  a + Z.of_nat (length rs) * 2 ^ 52 < 2 ^ 64 → b + Z.of_nat (length rs) * 2 ^ 52 < 2 ^ 64 →
  c + Z.of_nat (length rs) * 2 ^ 52 < 2 ^ 64 →
  reserve_pass rs m a b c = (m', a', b', c') →
  a' = a + sum_reserved rs ∧ b' = b + sum_reserved rs ∧ c' = c + sum_managed rs ∧
  (∀ i r q, rs !! i = Some r → 0 ≤ q < total_pages r →
     test_bit m' r q = if q <? reserved_pages r then 1 else test_bit m r q).
Proof.
  induction rs as [|r rs IH]; intros m a b c m' a' b' c' HS Hap Ha Hb Hc La Lb Lc H;
    cbn [reserve_pass sum_reserved sum_managed length] in *.
  - simplify_eq. split_and!; try lia. done.
  - apply Forall_cons in HS as [R HS]. destruct R as (? & ? & ? & ?).
    rewrite (proj2 (Z.eqb_neq _ 0)) in H by lia.
    rewrite (w64_small (total_pages r - reserved_pages r)), !w64_small in H by lia.
    pose proof H as Hout.
    assert (bitmaps_apart rs) as Hap'.
    { intros i j r1 r2 Hne Hi Hj. apply (Hap (S i) (S j)); auto. }
    apply IH in H as (-> & -> & -> & Hbits); auto; try lia.
    split_and!; try lia. intros i r' q Hi Hq. destruct i as [|i]; simpl in Hi.
    + simplify_eq. erewrite (reserve_pass_outside _ _ _ _ _ r' q); [|done|lia| |done].
      * apply set_prefix_same; lia.
      * intros r2 [j Hj]%list_elem_of_lookup. apply (Hap (S j) O); auto.
    + rewrite (Hbits i) by done. case_match; [done|].
      pose proof (Forall_lookup_1 _ _ _ _ HS Hi) as (? & ? & ? & ?).
      apply set_prefix_apart; [lia|lia|]. by apply (Hap O (S i)).
Qed.

Lemma count_used_reserved m rs :
  Forall region_shape rs →
  (∀ i r q, rs !! i = Some r → 0 ≤ q < total_pages r →
     test_bit m r q = if q <? reserved_pages r then 1 else 0) →
  count_used m rs = sum_reserved rs.
Proof.
  induction rs as [|r rs IH]; intros HS Hb; simpl; [done|].
  apply Forall_cons in HS as [(? & ? & _) HS]. rewrite IH by (auto; intros; by apply (Hb (S i))).
  unfold count_bits.
  rewrite (sum_range_ext _ _ _ (λ p, if p <? reserved_pages r then 1 else 0)).
  - rewrite sum_range_indicator by lia. lia.
  - intros q Hq. by apply (Hb O).
Qed.

(** ** The metadata placement is sound *)

Section Placement.
Context (rs : list pmm_region) (mi : nat) (mr : pmm_region).
Hypothesis Hfresh : Forall fresh_region rs.
Hypothesis Hapart : regions_apart rs.
Hypothesis Hmr : rs !! mi = Some mr.
Hypothesis Hfits : sum_bytes rs ≤ phys_end mr - phys_start mr.

Let c := phys_start mr.
Let k := (sum_bytes rs + 4095) / 4096.
Let rs2 := placed rs c mi k.

Lemma meta_fresh : fresh_region mr.
Proof using Hfresh Hmr. by apply (Forall_lookup_1 _ _ _ _ Hfresh Hmr). Qed.

Lemma meta_reserved_bound : 0 ≤ k ≤ total_pages mr ∧ sum_bytes rs ≤ k * 4096.
Proof using Hfits Hfresh Hmr.
  pose proof meta_fresh as [? ? ? ? Ht ?]. pose proof (sum_bytes_bounds rs Hfresh).
  subst k. rewrite Ht. dlia.
Qed.

(** Bitmap [i] lies inside the metadata area. *)
Lemma placed_bitmap_inside i r :
  rs !! i = Some r →
  c ≤ c + sum_bytes (take i rs) ∧
  c + sum_bytes (take i rs) + nbytes r ≤ c + sum_bytes rs.
Proof using Hfresh.
  intros Hi. destruct (sum_bytes_take_lt rs i r Hfresh Hi). lia.
Qed.

Lemma placed_region_ok i r2 : rs2 !! i = Some r2 → region_ok r2.
Proof using Hfits Hfresh Hmr.
  intros (r & Hr & ->)%placed_lookup.
  pose proof (Forall_lookup_1 _ _ _ _ Hfresh Hr) as F.
  pose proof (nbytes_bounds r F). pose proof (fresh_total r F).
  pose proof (placed_bitmap_inside i r Hr). pose proof meta_reserved_bound.
  pose proof (fr_start _ meta_fresh). destruct F. split; simpl; auto.
  - case_decide; [|lia]. subst i. replace r with mr by congruence. apply meta_reserved_bound.
  - subst c. lia.
Qed.

Lemma placed_bitmaps_apart : bitmaps_apart rs2.
Proof using Hfresh.
  intros i j r r' Hne (r0 & Hr & ->)%placed_lookup (r0' & Hr' & ->)%placed_lookup.
  unfold apart; simpl.
  destruct (decide (i < j)%nat).
  - left. pose proof (sum_bytes_take_mono rs i j r0 Hfresh Hr). lia.
  - right. pose proof (sum_bytes_take_mono rs j i r0' Hfresh Hr'). lia.
Qed.

Lemma placed_regions_apart : regions_apart rs2.
Proof using Hapart.
  intros i j r r' Hne (r0 & Hr & ->)%placed_lookup (r0' & Hr' & ->)%placed_lookup.
  simpl. eapply (Hapart i j); eauto.
Qed.

Lemma placed_metadata_protected : metadata_protected rs2.
Proof using Hapart Hfits Hfresh Hmr.
  intros r r' p [i Hi]%list_elem_of_lookup [j Hj]%list_elem_of_lookup Hp.
  apply placed_lookup in Hi as (r0 & Hi & ->). apply placed_lookup in Hj as (r1 & Hj & ->).
  simpl in *. pose proof (placed_bitmap_inside j r1 Hj). pose proof meta_reserved_bound.
  pose proof (Forall_lookup_1 _ _ _ _ Hfresh Hi) as [? ? ? ? Ht ?].
  unfold apart. case_decide as Heq.
  - subst i. replace r0 with mr in * by congruence. right. subst c. lia.
  - rewrite Ht in Hp. subst c.
    destruct (Hapart i mi r0 mr) as [H'|H']; auto; [left|right]; dlia.
Qed.

Lemma placed_shape : Forall region_shape rs2.
Proof using Hfits Hfresh Hmr.
  apply Forall_lookup_2. intros i r2 Hi. pose proof (placed_region_ok i r2 Hi) as [].
  apply placed_lookup in Hi as (r & Hr & ->).
  pose proof (Forall_lookup_1 _ _ _ _ Hfresh Hr) as F. pose proof (fresh_total r F).
  unfold region_shape. simpl in *. lia.
Qed.

(** Zeroed bitmaps read as all-clear. *)
Lemma placed_bits_clear m i r2 q :
  (∀ a, c ≤ a < c + sum_bytes rs → rd8 m a = 0) →
  rs2 !! i = Some r2 → 0 ≤ q < total_pages r2 → test_bit m r2 q = 0.
Proof using Hfresh.
  intros Hz (r & Hr & ->)%placed_lookup Hq. simpl in Hq.
  pose proof (Forall_lookup_1 _ _ _ _ Hfresh Hr) as F. pose proof (nbytes_bounds r F).
  pose proof (placed_bitmap_inside i r Hr).
  unfold test_bit. simpl. rewrite Hz by dlia. by rewrite Z.shiftr_0_l.
Qed.
End Placement.

(** What a successful [setup_bitmaps] computed, pass by pass. *)
Lemma setup_bitmaps_Ret s s' :
  Forall fresh_region (regions s) → region_count s ≤ MAX_PMM_REGIONS →
  setup_bitmaps s = Ret s' →
  ∃ mi mr m1, let k := (sum_bytes (regions s) + 4095) / 4096 in
    regions s !! mi = Some mr ∧ sum_bytes (regions s) ≤ phys_end mr - phys_start mr ∧
    regions s' = placed (regions s) (phys_start mr) mi k ∧
    (∀ a, phys_start mr ≤ a < phys_start mr + sum_bytes (regions s) → rd8 m1 a = 0) ∧
    reserve_pass (regions s') m1 0 0 0 =
      (mem s', pmm_reserved_pages s', used_pages s', managed_pages s') ∧
    managed_pages s' ≠ 0 ∧ pmm_cursor_region s' = pmm_cursor_region s.
Proof.
  intros HF Hcnt H. unfold setup_bitmaps, region_count, MAX_PMM_REGIONS in *.
  set (rs := regions s) in *. pose proof (sum_bytes_bounds rs HF) as Hsum.
  rewrite total_bitmap_bytes_eq, Z.add_0_l in H by (auto; lia).
  destruct (choose_meta rs 0 (sum_bytes rs) None) as [[mi mr]|] eqn:Em; [|done].
  apply choose_meta_Some in Em as [?|(_ & Hmr & Hfit)]; [done|]. rewrite Nat.sub_0_r in Hmr.
  pose proof (Forall_lookup_1 _ _ _ _ HF Hmr) as Fm.
  assert (align_up (phys_start mr) 4096 = phys_start mr) as Hal.
  { destruct Fm. rewrite align_up_4096 by lia. dlia. }
  rewrite Hal in *. rewrite w64_small in Hfit by (destruct Fm; lia).
  destruct (_ <? _) in H; [done|].
  destruct (assign_bitmaps_eq rs (phys_start mr) (mem s)) as (m1 & Ea & Hm1);
    [done|destruct Fm; lia|destruct Fm; lia|]. rewrite Ea in H.
  replace (align_up (w64 (phys_start mr + sum_bytes rs - phys_start mr)) 4096 / 4096)
    with ((sum_bytes rs + 4095) / 4096) in H.
  2:{ rewrite w64_small, align_up_4096 by lia.
      replace (phys_start mr + sum_bytes rs - phys_start mr) with (sum_bytes rs) by lia.
      symmetry. apply Z.div_mul. lia. }
  fold (placed rs (phys_start mr) mi ((sum_bytes rs + 4095) / 4096)) in H.
  destruct (reserve_pass _ m1 0 0 0) as [[[m2 rv] us] mg] eqn:Er.
  destruct (mg =? 0) eqn:Emg; [done|]. bsimp. simplify_eq.
  exists mi, mr, m1. split_and!; auto.
  intros a Ha. rewrite Hm1. by rewrite decide_True.
Qed.

(** Boot establishes the invariant (shared by the property below and by the
    concrete states used elsewhere). *)
Lemma setup_bitmaps_wf s s' :
  Forall fresh_region (regions s) → regions_apart (regions s) →
  region_count s ≤ MAX_PMM_REGIONS → 0 ≤ pmm_cursor_region s < region_count s →
  setup_bitmaps s = Ret s' →
  wf s' ∧ region_count s' = region_count s ∧
  used_pages s' = pmm_reserved_pages s' ∧
  managed_pages s' = sum_managed (regions s') ∧ managed_pages s' ≠ 0 ∧
  (∀ i r q, regions s' !! i = Some r → 0 ≤ q < total_pages r →
    test_bit (mem s') r q = if q <? reserved_pages r then 1 else 0).
Proof.
  intros HF HA Hcnt Hcur H.
  apply setup_bitmaps_Ret in H as (mi & mr & m1 & Hmr & Hfit & Hrs & Hz & Er & Hm & Hc); auto.
  pose proof (placed_shape _ mi mr HF Hmr Hfit) as Hshape.
  assert (length (regions s') = length (regions s)) as Hlen.
  { rewrite Hrs. unfold placed. by rewrite length_alter, length_layout. }
  unfold region_count, MAX_PMM_REGIONS in *. rewrite <- Hrs in Hshape.
  apply reserve_pass_spec in Er as (Hrv & Hus & Hmg & Hbits);
    [|done|rewrite Hrs; by eapply placed_bitmaps_apart|lia|lia|lia|lia|lia|lia].
  assert (∀ i r q, regions s' !! i = Some r → 0 ≤ q < total_pages r →
    test_bit (mem s') r q = if q <? reserved_pages r then 1 else 0) as Hb.
  { intros i r q Hi Hq. rewrite (Hbits i) by done. case_match; [done|].
    rewrite Hrs in Hi. by eapply (placed_bits_clear _ mi mr HF m1). }
  split; [|split_and!; auto; lia].
  split; unfold region_count; rewrite ?Hlen, ?Hc; auto.
  - rewrite Hrs. intros i r. by apply placed_region_ok.
  - rewrite Hrs. by eapply placed_bitmaps_apart.
  - rewrite Hrs. by eapply placed_regions_apart.
  - rewrite Hrs. by eapply placed_metadata_protected.
  - rewrite Hus, Z.add_0_l. symmetry. by apply count_used_reserved.
Qed.

(** [setup_bitmaps] establishes the allocator invariant: whenever it
    returns, the bitmaps lie in reserved frames that can never be handed out,
    exactly the frames past the reservation are free, and the counters agree
    with the bitmaps. *)
Theorem setup_bitmaps_establishes_wf s s' :
  Forall fresh_region (regions s) → regions_apart (regions s) →
  region_count s ≤ MAX_PMM_REGIONS → 0 ≤ pmm_cursor_region s < region_count s →
  setup_bitmaps s = Ret s' →
  wf s' ∧ used_pages s' = pmm_reserved_pages s' ∧
  managed_pages s' = sum_managed (regions s') ∧
  (∀ a, free_frame s' a ↔ ∃ i r p, regions s' !! i = Some r ∧
     reserved_pages r ≤ p < total_pages r ∧ a = phys_start r + p * 4096).
Proof.
  intros HF HA Hcnt Hcur H.
  destruct (setup_bitmaps_wf _ _ HF HA Hcnt Hcur H) as (W & _ & Hu & Hm & _ & Hb).
  split_and!; auto. intros x. split.
  - intros (i & r & p & Hi & Hp & _ & ->). eauto 10.
  - intros (i & r & p & Hi & Hp & ->). exists i, r, p.
    pose proof (ro_reserved _ (wf_regions _ W _ _ Hi)).
    rewrite (Hb i), (proj2 (Z.ltb_ge _ _)) by (done || lia). auto.
Qed.

End PmmInit.
