(* ===== verification/Mmu.v ===== *)
(** * Page tables (src/kernel/arch/x86_64/mmu.c)

    The 4-level x86_64 page tables live in physical memory, the [mem] field
    of the frame allocator's state, because mmu.c takes every table from
    [pmm_alloc_page].  The kernel reaches a table at physical address [t]
    through the higher-half or the HHDM window; both are fixed offsets, so the
    model addresses the table by [t] itself.  TLB maintenance ([invlpg], CR3
    reloads) has no effect on memory and is left out.  [pml4_table], the
    boot-time root defined by boot.s, is a parameter of the operations on the
    kernel's own address space. *)

From S2P Require Import Prelude Memory Pmm.
From stdpp Require Import options.
Import Pmm.

Module Mmu.

Definition PTE_PRESENT : Z := 0x1.
Definition PTE_RW : Z := 0x2.
Definition PTE_USER : Z := 0x4.
Definition PTE_PS : Z := 0x80.
Definition PTE_COW : Z := Z.shiftl 1 9.

Definition MMU_FLAG_WRITE : Z := 0x2.
Definition MMU_FLAG_USER : Z := 0x4.
Definition MMU_FLAG_NOEXEC : Z := Z.shiftl 1 63.
Definition MMU_FLAG_GLOBAL : Z := Z.shiftl 1 8.
Definition MMU_FLAG_COW : Z := Z.shiftl 1 9.

Definition HIGHER_HALF_BASE : Z := 0xFFFFFFFF80000000.
Definition HHDM_BASE : Z := 0xFFFF800000000000.
Definition ARCH_PHYS_BASE : Z := 0.
Definition PAGE_SIZE_2M : Z := Z.shiftl 1 21.
Definition HHDM_PML4_INDEX : Z := Z.land (Z.shiftr HHDM_BASE 39) 0x1FF.

(** [x & bit] as a condition. *)
Definition has (x bit : Z) : bool := negb (Z.land x bit =? 0).

(** ** Address arithmetic (include/kernel/mmu.h) *)

Definition phys_to_higher_half (phys : Z) : Z := w64 (phys + HIGHER_HALF_BASE).
Definition higher_half_to_phys (virt : Z) : Z := w64 (virt - HIGHER_HALF_BASE).
Definition phys_to_hhdm (phys : Z) : Z := w64 (phys + HHDM_BASE).
Definition hhdm_to_phys (virt : Z) : Z := w64 (virt - HHDM_BASE).

Definition virt_to_phys (v : Z) : Z :=
  if HHDM_BASE <=? v then hhdm_to_phys v
  else w64 (higher_half_to_phys v + ARCH_PHYS_BASE).

(** ** Tables *)

(** [table[i]] and [table[i] = v] for a table of 512 entries at [t]. *)
Definition entry_at (m : memory) (t i : Z) : Z := rd64 m (t + 8 * i).
Definition set_entry (m : memory) (t i v : Z) : memory := wr64 m (t + 8 * i) v.

(** The allocator state with its memory replaced. *)
Definition with_mem (s : pmm) (m : memory) : pmm :=
  mk_pmm m (regions s) (managed_pages s) (pmm_reserved_pages s) (used_pages s)
    (max_phys_end s) (pmm_cursor_region s) (pmm_cursor_page_idx s).

Definition zero_page (m : memory) (phys : Z) : memory :=
  for_range 0 512 (λ i m, set_entry m phys i 0) m.

Definition table_addr (entry : Z) : Z := Z.land entry (not64 0xFFF).

Definition ensure_hhdm_pdpt (pml4_table : Z) (s : pmm) : result (Z * pmm) :=
  let entry := entry_at (mem s) pml4_table HHDM_PML4_INDEX in
  if negb (has entry PTE_PRESENT) then
    '(phys, s1) ← pmm_alloc_page s;
    let m := zero_page (mem s1) phys in
    Ret (phys, with_mem s1 (set_entry m pml4_table HHDM_PML4_INDEX
                              (Z.lor (Z.lor phys PTE_PRESENT) PTE_RW)))
  else Ret (table_addr entry, s).

Definition ensure_hhdm_pd (s : pmm) (pdpt pdpt_index : Z) : result (Z * pmm) :=
  let entry := entry_at (mem s) pdpt pdpt_index in
  if negb (has entry PTE_PRESENT) then
    '(phys, s1) ← pmm_alloc_page s;
    let m := zero_page (mem s1) phys in
    Ret (phys, with_mem s1 (set_entry m pdpt pdpt_index
                              (Z.lor (Z.lor phys PTE_PRESENT) PTE_RW)))
  else Ret (table_addr entry, s).

(** The flags a split 2 MiB entry hands on, to its pages and to the table. *)
Definition SPLIT_KEEP : Z :=
  Z.lor (Z.lor (Z.lor (Z.lor PTE_PRESENT PTE_RW) PTE_USER) (Z.shiftl 1 8)) (Z.shiftl 1 63).
Definition SPLIT_TABLE : Z :=
  Z.lor (Z.lor (Z.lor PTE_RW PTE_USER) (Z.shiftl 1 8)) (Z.shiftl 1 63).

(** [for (i = 0; i < 512; ++i) pt[i] = (base + i * 4096) | flags_keep]. *)
Definition split_fill (m : memory) (pt base flags_keep : Z) : memory :=
  for_range 0 512
    (λ i m, set_entry m pt i (Z.lor (w64 (base + i * 4096)) flags_keep)) m.

Definition ensure_table (s : pmm) (parent index flags : Z) : result (Z * pmm) :=
  let entry := entry_at (mem s) parent index in
  if has entry PTE_PS then
    let base := Z.land entry (not64 (Z.shiftl 1 21 - 1)) in
    let flags_keep := Z.land entry SPLIT_KEEP in
    '(phys, s1) ← pmm_alloc_page s;
    let m := split_fill (mem s1) phys base flags_keep in
    Ret (phys, with_mem s1 (set_entry m parent index
      (Z.lor (Z.lor phys PTE_PRESENT) (Z.land flags_keep SPLIT_TABLE))))
  else if negb (has entry PTE_PRESENT) then
    '(phys, s1) ← pmm_alloc_page s;
    let m := zero_page (mem s1) phys in
    let new_entry := Z.lor (Z.lor phys PTE_PRESENT) PTE_RW in
    let new_entry := if has flags MMU_FLAG_USER then Z.lor new_entry PTE_USER else new_entry in
    Ret (phys, with_mem s1 (set_entry m parent index new_entry))
  else
    let s1 :=
      if has flags MMU_FLAG_USER && negb (has entry PTE_USER)
      then with_mem s (set_entry (mem s) parent index (Z.lor entry PTE_USER)) else s in
    Ret (table_addr entry, s1).

Definition mmu_create_user_pml4 (pml4_table : Z) (s : pmm) : result (Z * pmm) :=
  '(phys, s1) ← pmm_alloc_page s;
  if phys =? 0 then Ret (0, s1)
  else
    let m := zero_page (mem s1) phys in
    let m := for_range 256 512
      (λ i m, set_entry m phys i (entry_at m pml4_table i)) m in
    Ret (phys, with_mem s1 m).

(** ** Mapping *)

Definition pml4_index (virt : Z) : Z := Z.land (Z.shiftr virt 39) 0x1FF.
Definition pdpt_index (virt : Z) : Z := Z.land (Z.shiftr virt 30) 0x1FF.
Definition pd_index (virt : Z) : Z := Z.land (Z.shiftr virt 21) 0x1FF.
Definition pt_index (virt : Z) : Z := Z.land (Z.shiftr virt 12) 0x1FF.

(** One iteration of the loop of [mmu_map_hhdm_2m]. *)
Definition hhdm_step (pdpt phys : Z) (s : pmm) : result pmm :=
  let virt := phys_to_hhdm phys in
  '(pd, s1) ← ensure_hhdm_pd s pdpt (pdpt_index virt);
  let entry := Z.lor (Z.lor (Z.lor (Z.lor (align_down phys PAGE_SIZE_2M) PTE_PRESENT)
                 PTE_RW) PTE_PS) (Z.shiftl 1 63) in
  Ret (with_mem s1 (set_entry (mem s1) pd (pd_index virt) entry)).

Definition mmu_map_hhdm_2m (pml4_table : Z) (s : pmm) (phys_start phys_end : Z)
    : result pmm :=
  let start := align_down phys_start PAGE_SIZE_2M in
  let end_ := align_up phys_end PAGE_SIZE_2M in
  if end_ <=? start then Ret s
  else
    '(pdpt, s1) ← ensure_hhdm_pdpt pml4_table s;
    rfor start end_ PAGE_SIZE_2M (hhdm_step pdpt) s1.

(** The leaf entry both map functions build. *)
Definition pte_entry (phys flags : Z) : Z :=
  let entry := Z.lor (Z.land phys (not64 0xFFF)) PTE_PRESENT in
  let entry := if has flags MMU_FLAG_WRITE then Z.lor entry PTE_RW else entry in
  let entry := if has flags MMU_FLAG_USER then Z.lor entry PTE_USER else entry in
  let entry := if has flags MMU_FLAG_GLOBAL then Z.lor entry (Z.shiftl 1 8) else entry in
  let entry := if has flags MMU_FLAG_COW then Z.lor entry PTE_COW else entry in
  if has flags MMU_FLAG_NOEXEC then Z.lor entry (Z.shiftl 1 63) else entry.

(** The three table levels above the page table of [virt]. *)
Definition walk_alloc (s : pmm) (pml4 virt flags : Z) : result (Z * pmm) :=
  '(pdpt, s1) ← ensure_table s pml4 (pml4_index virt) flags;
  '(pd, s2) ← ensure_table s1 pdpt (pdpt_index virt) flags;
  ensure_table s2 pd (pd_index virt) flags.

Definition mmu_map_page (pml4_table : Z) (s : pmm) (virt phys flags : Z) : result pmm :=
  if has virt 0xFFF || has phys 0xFFF then
    Panic "mmu_map_page: unaligned" (Z.lor virt phys)
  else
    '(pt, s1) ← walk_alloc s pml4_table virt flags;
    let existing := entry_at (mem s1) pt (pt_index virt) in
    if has existing PTE_PRESENT && negb (table_addr existing =? Z.land phys (not64 0xFFF))
    then Panic "mmu_map_page: remap to different phys" existing
    else Ret (with_mem s1 (set_entry (mem s1) pt (pt_index virt) (pte_entry phys flags))).

Definition mmu_map_page_in (s : pmm) (pml4_phys virt phys flags : Z) : result (Z * pmm) :=
  if (pml4_phys =? 0) || has pml4_phys 0xFFF || has virt 0xFFF || has phys 0xFFF then
    Ret (-1, s)
  else
    '(pt, s1) ← walk_alloc s pml4_phys virt flags;
    let existing := entry_at (mem s1) pt (pt_index virt) in
    if has existing PTE_PRESENT && negb (table_addr existing =? Z.land phys (not64 0xFFF))
    then Ret (-1, s1)
    else Ret (0, with_mem s1 (set_entry (mem s1) pt (pt_index virt) (pte_entry phys flags))).

Definition mmu_unmap_page (pml4_table : Z) (s : pmm) (virt : Z) : result pmm :=
  if has virt 0xFFF then Panic "mmu_unmap_page: unaligned" virt
  else
    let pml4_entry := entry_at (mem s) pml4_table (pml4_index virt) in
    if negb (has pml4_entry PTE_PRESENT) then
      Panic "mmu_unmap_page: missing pml4 entry" virt
    else
      let pdpt_entry := entry_at (mem s) (table_addr pml4_entry) (pdpt_index virt) in
      if negb (has pdpt_entry PTE_PRESENT) || has pdpt_entry PTE_PS then
        Panic "mmu_unmap_page: missing pdpt entry" virt
      else
        let pd_entry := entry_at (mem s) (table_addr pdpt_entry) (pd_index virt) in
        if negb (has pd_entry PTE_PRESENT) || has pd_entry PTE_PS then
          Panic "mmu_unmap_page: missing pd entry" virt
        else
          let pt := table_addr pd_entry in
          let pte := entry_at (mem s) pt (pt_index virt) in
          if negb (has pte PTE_PRESENT) then Panic "mmu_unmap_page: not mapped" virt
          else Ret (with_mem s (set_entry (mem s) pt (pt_index virt) 0)).

(** ** Kernel section protection *)

(** The section bounds the linker script defines. *)
Record sections := mk_sections {
  text_start : Z; text_end : Z;
  rodata_start : Z; rodata_end : Z;
  data_start : Z; data_end : Z;
  bss_start : Z; bss_end : Z;
}.

(** One of the four loops: map the pages of [start, end) at their
    higher-half address with [flags]. *)
Definition protect_range (pml4_table : Z) (start end_ flags : Z) (s : pmm) : result pmm :=
  rfor (align_down start 4096) (align_up end_ 4096) 4096
    (λ phys s, mmu_map_page pml4_table s (phys_to_higher_half phys) phys flags) s.

Definition mmu_protect_kernel_sections (pml4_table : Z) (k : sections) (s : pmm)
    : result pmm :=
  let text_flags := MMU_FLAG_GLOBAL in
  let ro_flags := Z.lor MMU_FLAG_GLOBAL MMU_FLAG_NOEXEC in
  let data_flags := Z.lor (Z.lor MMU_FLAG_GLOBAL MMU_FLAG_WRITE) MMU_FLAG_NOEXEC in
  s1 ← protect_range pml4_table (virt_to_phys (text_start k)) (virt_to_phys (text_end k)) text_flags s;
  s2 ← protect_range pml4_table (virt_to_phys (rodata_start k)) (virt_to_phys (rodata_end k)) ro_flags s1;
  s3 ← protect_range pml4_table (virt_to_phys (data_start k)) (virt_to_phys (data_end k)) data_flags s2;
  protect_range pml4_table (virt_to_phys (bss_start k)) (virt_to_phys (bss_end k)) data_flags s3.

(** [arch_drop_identity_map] of hal.c. *)
Definition arch_drop_identity_map (pml4_table : Z) (s : pmm) : pmm :=
  with_mem s (set_entry (mem s) pml4_table 0 0).

(** ** Software walks in other files *)

(** idt.c: the address of the page-table entry of [virt], [None] for NULL. *)
Definition pte_lookup (m : memory) (pml4_phys virt : Z) : option Z :=
  let pml4e := entry_at m pml4_phys (pml4_index virt) in
  if negb (has pml4e PTE_PRESENT) then None else
  let pdpte := entry_at m (table_addr pml4e) (pdpt_index virt) in
  if negb (has pdpte PTE_PRESENT) || has pdpte PTE_PS then None else
  let pde := entry_at m (table_addr pdpte) (pd_index virt) in
  if negb (has pde PTE_PRESENT) || has pde PTE_PS then None else
  Some (table_addr pde + 8 * pt_index virt).

(** syscall.c: may user code access the page of [virt]? *)
Definition user_page_present (m : memory) (pml4_phys virt : Z) : bool :=
  if pml4_phys =? 0 then false else
  let pml4e := entry_at m pml4_phys (pml4_index virt) in
  if negb (has pml4e PTE_PRESENT) || negb (has pml4e PTE_USER) then false else
  let pdpte := entry_at m (table_addr pml4e) (pdpt_index virt) in
  if negb (has pdpte PTE_PRESENT) || negb (has pdpte PTE_USER) then false else
  if has pdpte PTE_PS then true else
  let pde := entry_at m (table_addr pdpte) (pd_index virt) in
  if negb (has pde PTE_PRESENT) || negb (has pde PTE_USER) then false else
  if has pde PTE_PS then true else
  let pte := entry_at m (table_addr pde) (pt_index virt) in
  has pte PTE_PRESENT && has pte PTE_USER.

(** ** Entry arithmetic *)

Lemma has_pow2 x k : 0 ≤ k → has x (2 ^ k) = Z.testbit x k.
Proof.
  intros Hk. unfold has. destruct (Z.testbit x k) eqn:E.
  - apply negb_true_iff, Z.eqb_neq. intros H.
    assert (Z.testbit (Z.land x (2 ^ k)) k = false) as H' by (by rewrite H, Z.bits_0).
    rewrite Z.land_spec, E, Z.pow2_bits_true in H' by lia. done.
  - apply negb_false_iff, Z.eqb_eq. apply Z.bits_inj'. intros n Hn.
    rewrite Z.land_spec, Z.pow2_bits_eqb, Z.bits_0 by lia.
    destruct (k =? n) eqn:En; bsimp; subst; [by rewrite E|by rewrite andb_false_r].
Qed.

Lemma has_present x : has x PTE_PRESENT = Z.testbit x 0.
Proof. exact (has_pow2 x 0 ltac:(lia)). Qed.
Lemma has_rw x : has x PTE_RW = Z.testbit x 1.
Proof. exact (has_pow2 x 1 ltac:(lia)). Qed.
Lemma has_user x : has x PTE_USER = Z.testbit x 2.
Proof. exact (has_pow2 x 2 ltac:(lia)). Qed.
Lemma has_ps x : has x PTE_PS = Z.testbit x 7.
Proof. exact (has_pow2 x 7 ltac:(lia)). Qed.
Lemma has_global x : has x MMU_FLAG_GLOBAL = Z.testbit x 8.
Proof. exact (has_pow2 x 8 ltac:(lia)). Qed.
Lemma has_cow x : has x PTE_COW = Z.testbit x 9.
Proof. exact (has_pow2 x 9 ltac:(lia)). Qed.
Lemma has_nx x : has x MMU_FLAG_NOEXEC = Z.testbit x 63.
Proof. exact (has_pow2 x 63 ltac:(lia)). Qed.

(** The page-offset test [x & 0xFFF]. *)
Lemma has_offset x : has x 0xFFF = false ↔ x mod 4096 = 0.
Proof.
  unfold has. change 0xFFF with (Z.ones 12). rewrite Z.land_ones by lia.
  rewrite negb_false_iff, Z.eqb_eq. done.
Qed.

Lemma table_addr_eq e : 0 ≤ e < 2 ^ 64 → table_addr e = e - e mod 4096.
Proof.
  intros He. unfold table_addr. change 0xFFF with (2 ^ 12 - 1).
  rewrite land_not64 by lia. done.
Qed.

Lemma page_testbit_low p k : p mod 4096 = 0 → 0 ≤ k < 12 → Z.testbit p k = false.
Proof.
  intros Hp Hk. rewrite <- (Z.mod_pow2_bits_low p 12 k) by lia.
  change (2 ^ 12) with 4096. by rewrite Hp, Z.bits_0.
Qed.

Lemma small_testbit_high f n k : 0 ≤ f < 2 ^ n → n ≤ k → Z.testbit f k = false.
Proof.
  intros Hf Hk. destruct (decide (0 ≤ n)); [|rewrite Z.pow_neg_r in Hf; lia].
  rewrite <- (Z.mod_small f (2 ^ n)) by lia. apply Z.mod_pow2_bits_high. lia.
Qed.

Lemma lor_page p f : p mod 4096 = 0 → 0 ≤ f < 4096 → Z.lor p f = p + f.
Proof.
  intros Hp Hf.
  assert (Z.land p f = 0) as H0.
  { apply Z.bits_inj'. intros n Hn. rewrite Z.land_spec, Z.bits_0.
    destruct (decide (n < 12)).
    - by rewrite page_testbit_low.
    - by rewrite (small_testbit_high f 12), andb_false_r by lia. }
  rewrite <- Z.lxor_lor, Z.add_nocarry_lxor; done.
Qed.

(** A table pointer built as [phys | low flags]. *)
Lemma table_entry p f :
  p mod 4096 = 0 → 0 ≤ p < 2 ^ 52 → 0 ≤ f < 4096 →
  0 ≤ Z.lor p f < 2 ^ 52 ∧ table_addr (Z.lor p f) = p ∧
  (∀ k, 0 ≤ k < 12 → Z.testbit (Z.lor p f) k = Z.testbit f k).
Proof.
  intros Hp Hr Hf. split_and!.
  - rewrite lor_page by done. lia.
  - rewrite lor_page by done. dlia.
  - rewrite lor_page by done. rewrite table_addr_eq by dlia. dlia.
  - intros k Hk. rewrite Z.lor_spec, page_testbit_low by done. done.
Qed.

Lemma index_range x : 0 ≤ Z.land x 0x1FF < 512.
Proof. change 0x1FF with (Z.ones 9). rewrite Z.land_ones by lia. dlia. Qed.
Lemma pml4_index_range v : 0 ≤ pml4_index v < 512.
Proof. apply index_range. Qed.
Lemma pdpt_index_range v : 0 ≤ pdpt_index v < 512.
Proof. apply index_range. Qed.
Lemma pd_index_range v : 0 ≤ pd_index v < 512.
Proof. apply index_range. Qed.
Lemma pt_index_range v : 0 ≤ pt_index v < 512.
Proof. apply index_range. Qed.
#[export] Hint Resolve pml4_index_range pdpt_index_range pd_index_range pt_index_range : words.

(** The number of the 4 KiB page of [v] in the 48-bit address space. *)
Definition vpn (v : Z) : Z := (v / 4096) mod 2 ^ 36.

Lemma vpn_indices v :
  vpn v = ((pml4_index v * 512 + pdpt_index v) * 512 + pd_index v) * 512 + pt_index v.
Proof.
  unfold vpn, pml4_index, pdpt_index, pd_index, pt_index. change 0x1FF with (Z.ones 9).
  rewrite !Z.land_ones, !Z.shiftr_div_pow2 by lia. dlia.
Qed.

Lemma vpn_eq v w :
  vpn v = vpn w ↔ pml4_index v = pml4_index w ∧ pdpt_index v = pdpt_index w ∧
    pd_index v = pd_index w ∧ pt_index v = pt_index w.
Proof.
  rewrite !vpn_indices.
  pose proof (pml4_index_range v). pose proof (pdpt_index_range v).
  pose proof (pd_index_range v). pose proof (pt_index_range v).
  pose proof (pml4_index_range w). pose proof (pdpt_index_range w).
  pose proof (pd_index_range w). pose proof (pt_index_range w). lia.
Qed.

End Mmu.
