(* ===== verification/MmuTree.v ===== *)
(** * Correctness of the page-table operations

    The tables reachable from a root form a tree: a path of at most three
    indices leads to at most one table, different paths to different tables,
    and every table is a whole frame that the allocator neither considers
    free nor uses for its bitmaps ([tree_ok]).  Under this invariant the
    operations of Mmu.v are shown to change the translation of the page they
    are asked to change and of no other page, [hw_translate] being the walk
    the processor performs. *)

From S2P Require Import Prelude Memory Pmm Mmu.
From stdpp Require Import options.
Import Pmm Mmu.

Module MmuTree.

(** ** The processor's walk (Intel SDM vol. 3, 4-level paging) *)

Definition HW_ADDR : Z := 0x000FFFFFFFFFF000.
Definition HW_ADDR_2M : Z := 0x000FFFFFFFE00000.
Definition HW_ADDR_1G : Z := 0x000FFFFFC0000000.

(** The permission and software bits of a leaf: RW, U/S, G, COW, NX. *)
Definition LEAF : Z := 0x8000000000000306.

Definition leaf4k (e : Z) : option (Z * Z) :=
  if has e PTE_PRESENT then Some (Z.land e HW_ADDR, Z.land e LEAF) else None.

Definition leaf2m (e i1 : Z) : option (Z * Z) :=
  if has e PTE_PRESENT && has e PTE_PS
  then Some (Z.land e HW_ADDR_2M + i1 * 4096, Z.land e LEAF) else None.

(** Frame and leaf flags of the page of [v] in the address space [root]. *)
Definition hw_translate (m : memory) (root v : Z) : option (Z * Z) :=
  let e4 := entry_at m root (pml4_index v) in
  if negb (has e4 PTE_PRESENT) then None else
  let e3 := entry_at m (Z.land e4 HW_ADDR) (pdpt_index v) in
  if negb (has e3 PTE_PRESENT) then None
  else if has e3 PTE_PS then
    Some (Z.land e3 HW_ADDR_1G + (pd_index v * 512 + pt_index v) * 4096, Z.land e3 LEAF)
  else
  let e2 := entry_at m (Z.land e3 HW_ADDR) (pd_index v) in
  if has e2 PTE_PS then leaf2m e2 (pt_index v)
  else if negb (has e2 PTE_PRESENT) then None
  else leaf4k (entry_at m (Z.land e2 HW_ADDR) (pt_index v)).

(** ** Trees of tables *)

(** The table entry [i] of table [t] points to, as the C code computes it. *)
Definition next (m : memory) (t i : Z) : option Z :=
  let e := entry_at m t i in
  if has e PTE_PRESENT && negb (has e PTE_PS) then Some (table_addr e) else None.

Fixpoint path_table (m : memory) (t : Z) (p : list Z) : option Z :=
  match p with
  | [] => Some t
  | i :: p' => t' ← next m t i; path_table m t' p'
  end.

Definition path_ok (p : list Z) : Prop :=
  (length p ≤ 3)%nat ∧ Forall (λ i, 0 ≤ i < 512) p.

Definition table_ok (s : pmm) (t : Z) : Prop :=
  t mod 4096 = 0 ∧ 0 < t < 2 ^ 52 ∧ ¬ free_frame s t ∧
  ∀ r, r ∈ regions s → apart t 4096 (bitmap_phys r) (bitmap_bytes r).

Record tree_ok (s : pmm) (root : Z) : Prop := {
  tree_tables : ∀ p t, path_ok p → path_table (mem s) root p = Some t → table_ok s t;
  tree_inj : ∀ p q t, path_ok p → path_ok q →
    path_table (mem s) root p = Some t → path_table (mem s) root q = Some t → p = q;
  tree_no_huge : ∀ p t i, (length p ≤ 1)%nat → path_ok p →
    path_table (mem s) root p = Some t → 0 ≤ i < 512 →
    has (entry_at (mem s) t i) PTE_PS = false;
}.

(** Managed memory ends below the architectural limit of 52 bits. *)
Definition phys_bound (s : pmm) : Prop := ∀ r, r ∈ regions s → phys_end r ≤ 2 ^ 52.

(** The translation, read off the tree. *)
Definition translate (m : memory) (root v : Z) : option (Z * Z) :=
  match path_table m root [pml4_index v; pdpt_index v; pd_index v] with
  | Some pt => leaf4k (entry_at m pt (pt_index v))
  | None =>
      match path_table m root [pml4_index v; pdpt_index v] with
      | Some pd => leaf2m (entry_at m pd (pd_index v)) (pt_index v)
      | None => None
      end
  end.

(** ** Paths *)

Lemma path_table_app m p : ∀ t q,
  path_table m t (p ++ q) = path_table m t p ≫= λ t', path_table m t' q.
Proof.
  induction p as [|i p IH]; intros t q; simpl; [done|].
  destruct (next m t i); simpl; [apply IH|done].
Qed.

Lemma path_table_snoc m t p i :
  path_table m t (p ++ [i]) = path_table m t p ≫= λ t', next m t' i.
Proof.
  rewrite path_table_app. destruct (path_table m t p); simpl; [|done].
  by destruct (next m _ i).
Qed.

Lemma path_ok_prefix p q : path_ok (p ++ q) → path_ok p.
Proof. intros [Hl Hf]. rewrite length_app in Hl. apply Forall_app in Hf as [? ?]. split; [lia|done]. Qed.

Lemma path_ok_snoc p i : path_ok (p ++ [i]) ↔ path_ok p ∧ (length p ≤ 2)%nat ∧ 0 ≤ i < 512.
Proof.
  unfold path_ok. rewrite length_app, Forall_app, Forall_singleton. simpl.
  split; intros; repeat split; intuition lia.
Qed.

Lemma path_ok_nil : path_ok [].
Proof. split; [simpl; lia|constructor]. Qed.

Lemma path_ok_v1 v : path_ok [pml4_index v].
Proof. split; [simpl; lia|repeat constructor; apply index_range]. Qed.
Lemma path_ok_v2 v : path_ok [pml4_index v; pdpt_index v].
Proof. split; [simpl; lia|repeat constructor; apply index_range]. Qed.
Lemma path_ok_v3 v : path_ok [pml4_index v; pdpt_index v; pd_index v].
Proof. split; [simpl; lia|repeat constructor; apply index_range]. Qed.

Create HintDb tree.
#[export] Hint Resolve path_ok_nil path_ok_v1 path_ok_v2 path_ok_v3 : tree.
#[export] Hint Resolve pml4_index_range pdpt_index_range pd_index_range pt_index_range : tree.

(** ** The tree reading of a walk is the processor's *)

Lemma land_hw_addr e : 0 ≤ e < 2 ^ 64 → table_addr e < 2 ^ 52 → Z.land e HW_ADDR = table_addr e.
Proof.
  intros He Ht. rewrite table_addr_eq in * by done.
  assert (e < 2 ^ 52) by dlia.
  change HW_ADDR with (Z.land (not64 (2 ^ 12 - 1)) (Z.ones 52)).
  rewrite Z.land_assoc, land_not64, Z.land_ones by lia.
  apply Z.mod_small. dlia.
Qed.

Lemma entry_range m t i : 0 ≤ entry_at m t i < 2 ^ 64.
Proof. apply rd64_range. Qed.
#[export] Hint Resolve entry_range : tree.

(** Following one entry of a table of the tree, the way the hardware does. *)
Lemma next_hw s root p t i t' :
  tree_ok s root → path_ok (p ++ [i]) → path_table (mem s) root p = Some t →
  next (mem s) t i = Some t' → Z.land (entry_at (mem s) t i) HW_ADDR = t'.
Proof.
  intros T Hp Ht Hn.
  assert (path_table (mem s) root (p ++ [i]) = Some t') as H
    by (rewrite path_table_snoc, Ht; exact Hn).
  destruct (tree_tables _ _ T _ _ Hp H) as (_ & ? & _).
  unfold next in Hn. case_match; [|done]. injection Hn as <-.
  apply land_hw_addr; [auto with tree|lia].
Qed.

Lemma next_present m t i :
  is_Some (next m t i) ↔
  has (entry_at m t i) PTE_PRESENT = true ∧ has (entry_at m t i) PTE_PS = false.
Proof.
  unfold next. destruct (has _ PTE_PRESENT), (has _ PTE_PS); simpl; split;
    try (intros [? ?]; done); intros; auto; by eexists.
Qed.

Lemma hw_translate_eq s root v : tree_ok s root → hw_translate (mem s) root v = translate (mem s) root v.
Proof.
  intros T. unfold hw_translate, translate. simpl.
  pose proof (tree_no_huge _ _ T [] root (pml4_index v) ltac:(simpl; lia) ltac:(auto with tree)
    eq_refl ltac:(auto with tree)) as Hps4.
  destruct (next (mem s) root (pml4_index v)) as [t3|] eqn:E4; simpl.
  2:{ unfold next in E4. rewrite Hps4, andb_true_r in E4. by destruct (has _ PTE_PRESENT). }
  rewrite (next_hw s root [] root _ t3 T (path_ok_v1 v) eq_refl E4).
  destruct (proj1 (next_present (mem s) root (pml4_index v))) as [-> _]; [by rewrite E4|]. simpl.
  assert (path_table (mem s) root [pml4_index v] = Some t3) as H3 by (simpl; by rewrite E4).
  pose proof (tree_no_huge _ _ T [_] t3 (pdpt_index v) ltac:(simpl; lia) (path_ok_v1 v)
    H3 ltac:(auto with tree)) as Hps3.
  rewrite Hps3.
  destruct (next (mem s) t3 (pdpt_index v)) as [t2|] eqn:E3; simpl.
  2:{ unfold next in E3. rewrite Hps3, andb_true_r in E3. by destruct (has _ PTE_PRESENT). }
  rewrite (next_hw s root [pml4_index v] t3 _ t2 T (path_ok_v2 v) H3 E3).
  destruct (proj1 (next_present (mem s) t3 (pdpt_index v))) as [-> _]; [by rewrite E3|]. simpl.
  assert (path_table (mem s) root [pml4_index v; pdpt_index v] = Some t2) as H2
    by (simpl; rewrite E4; simpl; by rewrite E3).
  destruct (next (mem s) t2 (pd_index v)) as [t1|] eqn:E2; simpl.
  - destruct (proj1 (next_present (mem s) t2 (pd_index v))) as [-> ->]; [by rewrite E2|]. simpl.
    by rewrite (next_hw s root [_; _] t2 _ t1 T (path_ok_v3 v) H2 E2).
  - unfold next in E2. unfold leaf2m. set (e2 := entry_at (mem s) t2 (pd_index v)) in *.
    by destruct (has e2 PTE_PRESENT), (has e2 PTE_PS).
Qed.

(** ** Memory effects *)

Definition in_bitmaps (s : pmm) (b : Z) : Prop :=
  ∃ r, r ∈ regions s ∧ bitmap_phys r ≤ b < bitmap_phys r + bitmap_bytes r.

Lemma test_bit_ext m m' r p :
  region_ok r → 0 ≤ p < total_pages r →
  (∀ b, bitmap_phys r ≤ b < bitmap_phys r + bitmap_bytes r → rd8 m' b = rd8 m b) →
  test_bit m' r p = test_bit m r p.
Proof.
  intros R Hp H. unfold test_bit. rewrite H; [done|].
  pose proof (ro_bitmap _ R). dlia.
Qed.

(** Writes outside the bitmaps do not affect the allocator. *)
Lemma with_mem_wf s m' :
  wf s → (∀ b, in_bitmaps s b → rd8 m' b = rd8 (mem s) b) →
  wf (with_mem s m') ∧ (∀ a, free_frame (with_mem s m') a ↔ free_frame s a).
Proof.
  intros W H.
  assert (∀ i r p, regions s !! i = Some r → 0 ≤ p < total_pages r →
    test_bit m' r p = test_bit (mem s) r p) as E.
  { intros i r p Hi Hp. apply test_bit_ext; [by eapply W|done|].
    intros b Hb. apply H. exists r. split; [by eapply list_elem_of_lookup_2|done]. }
  split.
  - pose proof (wf_used _ W) as Hu. destruct W. split; simpl; auto.
    rewrite Hu. apply count_used_ext. intros r p [i Hr]%list_elem_of_lookup Hp.
    symmetry. by eapply E.
  - intros a. unfold free_frame. simpl.
    split; intros (i & r & p & Hi & Hp & Hb & ->); exists i, r, p;
      pose proof (ro_reserved _ (wf_regions _ W _ _ Hi)); split_and!; try done; try lia;
      rewrite <- Hb; [symmetry|]; apply (E i); auto; lia.
Qed.

(** Allocation writes only to the bitmaps. *)
Lemma pmm_alloc_page_mem s a s' b :
  wf s → pmm_alloc_page s = Ret (a, s') → ¬ in_bitmaps s b → rd8 (mem s') b = rd8 (mem s) b.
Proof.
  intros W (i & r & p & Hi & Hp & _ & _ & -> & _)%pmm_alloc_page_update Hb; [|done].
  unfold set_bit. apply rd8_wr8_ne. intros <-. apply Hb. exists r.
  split; [by eapply list_elem_of_lookup_2|].
  pose proof (wf_regions _ W _ _ Hi) as R.
  pose proof (ro_bitmap _ R). pose proof (ro_reserved _ R). dlia.
Qed.

Lemma entry_set_same m t i v : entry_at (set_entry m t i v) t i = w64 v.
Proof. apply rd64_wr64_same. Qed.

Lemma rd8_set_entry m t i v b :
  b < t + 8 * i ∨ t + 8 * i + 8 ≤ b → rd8 (set_entry m t i v) b = rd8 m b.
Proof. apply rd8_wr64_disj. Qed.

(** Slots of page-aligned tables are disjoint unless they coincide. *)
Lemma entry_set_ne m t i v t' j :
  t mod 4096 = 0 → t' mod 4096 = 0 → 0 ≤ i < 512 → 0 ≤ j < 512 →
  (t', j) ≠ (t, i) → entry_at (set_entry m t i v) t' j = entry_at m t' j.
Proof.
  intros Ht Ht' Hi Hj Hne. apply rd64_wr64_disj.
  destruct (decide (t = t')) as [->|]; [|dlia].
  assert (i ≠ j) by congruence. lia.
Qed.

Lemma entry_ext m m' t i :
  0 ≤ i < 512 → (∀ b, t ≤ b < t + 4096 → rd8 m' b = rd8 m b) → entry_at m' t i = entry_at m t i.
Proof. intros Hi H. apply rd64_ext. intros b ?. apply H. lia. Qed.

(** The filling loops write their slots and nothing else. *)
Lemma fill_spec m f (g : Z → Z) lo hi :
  0 ≤ lo ≤ hi → hi ≤ 512 →
  let m' := for_range lo hi (λ i m, set_entry m f i (g i)) m in
  (∀ j, 0 ≤ j < 512 →
     entry_at m' f j = if decide (lo ≤ j < hi) then w64 (g j) else entry_at m f j) ∧
  (∀ b, b < f ∨ f + 4096 ≤ b → rd8 m' b = rd8 m b).
Proof.
  intros Hle Hhi.
  refine (for_range_inv (λ (i : Z) (m' : memory),
    (∀ j, 0 ≤ j < 512 →
       entry_at m' f j = if decide (lo ≤ j < i) then w64 (g j) else entry_at m f j) ∧
    (∀ b, b < f ∨ f + 4096 ≤ b → rd8 m' b = rd8 m b)) lo hi _ m _ _ _); [lia| |].
  - split; [|done]. intros j Hj. by rewrite decide_False by lia.
  - intros i m' Hi [IH1 IH2]. split.
    + intros j Hj. destruct (decide (j = i)) as [->|Hne].
      * rewrite entry_set_same. by rewrite decide_True by lia.
      * unfold entry_at, set_entry in *. rewrite rd64_wr64_disj by lia. rewrite IH1 by done.
        repeat case_decide; done || lia.
    + intros b Hb. rewrite rd8_set_entry by lia. by apply IH2.
Qed.

Lemma zero_page_spec m f :
  (∀ j, 0 ≤ j < 512 → entry_at (zero_page m f) f j = 0) ∧
  (∀ b, b < f ∨ f + 4096 ≤ b → rd8 (zero_page m f) b = rd8 m b).
Proof.
  destruct (fill_spec m f (λ _, 0) 0 512 ltac:(lia) ltac:(lia)) as [H1 H2].
  split; [|exact H2]. intros j Hj. etrans; [exact (H1 j Hj)|]. by rewrite decide_True by lia.
Qed.

(** ** Changing one entry of a tree *)

Section Update.
Context (s s' : pmm) (root : Z) (p : list Z) (tp i : Z).
Context (T : tree_ok s root) (Hp : path_ok p) (Hi : 0 ≤ i < 512).
Context (Htp : path_table (mem s) root p = Some tp).
Context (Hagree : ∀ q t j, path_ok q → path_table (mem s) root q = Some t →
  0 ≤ j < 512 → (q, j) ≠ (p, i) → entry_at (mem s') t j = entry_at (mem s) t j).

Lemma next_agree q t j :
  path_ok q → path_table (mem s) root q = Some t → 0 ≤ j < 512 → (q, j) ≠ (p, i) →
  next (mem s') t j = next (mem s) t j.
Proof using All. intros. unfold next. by rewrite (Hagree q t j). Qed.

Lemma path_stable q :
  path_ok q → ¬ (p ++ [i]) `prefix_of` q →
  path_table (mem s') root q = path_table (mem s) root q.
Proof using All.
  induction q as [|j q IH] using rev_ind; intros Hq Hpre; [done|].
  rewrite !path_table_snoc. apply path_ok_snoc in Hq as (Hq & Hl & Hj).
  rewrite IH; [|done|intros H; apply Hpre; by apply prefix_app_r].
  destruct (path_table (mem s) root q) as [t|] eqn:Et; simpl; [|done].
  apply (next_agree q); auto. intros [= -> ->]. by apply Hpre.
Qed.

Lemma path_self : path_table (mem s') root p = Some tp.
Proof using All.
  rewrite path_stable; [done|done|]. intros H%prefix_length. rewrite length_app in H. simpl in H. lia.
Qed.

Lemma path_extend r :
  path_table (mem s') root (p ++ [i] ++ r) =
  next (mem s') tp i ≫= λ t, path_table (mem s') t r.
Proof using All. by rewrite path_table_app, path_self. Qed.

Lemma translate_stable v :
  ¬ (p ++ [i]) `prefix_of` [pml4_index v; pdpt_index v; pd_index v] →
  ([pml4_index v; pdpt_index v; pd_index v], pt_index v) ≠ (p, i) →
  translate (mem s') root v = translate (mem s) root v.
Proof using All.
  intros Hpre Hleaf. unfold translate.
  assert (¬ (p ++ [i]) `prefix_of` [pml4_index v; pdpt_index v]) as Hpre2.
  { intros H. apply Hpre. apply (prefix_app_r _ _ [pd_index v]) in H. exact H. }
  rewrite !path_stable by (done || auto with tree).
  destruct (path_table (mem s) root [_; _; _]) as [pt|] eqn:E1.
  { by rewrite (Hagree _ pt _ (path_ok_v3 v) E1) by (done || auto with tree). }
  destruct (path_table (mem s) root [_; _]) as [pd|] eqn:E2; [|done].
  rewrite (Hagree _ pd _ (path_ok_v2 v) E2); [done|auto with tree|].
  intros [= <- <-]. by apply Hpre.
Qed.
End Update.

(** *** Trees with no new tables *)

Lemma tree_sub s s' root :
  tree_ok s root → regions s' = regions s → (∀ x, free_frame s' x → free_frame s x) →
  (∀ q t, path_ok q → path_table (mem s') root q = Some t → path_table (mem s) root q = Some t) →
  (∀ q t j, (length q ≤ 1)%nat → path_ok q → path_table (mem s) root q = Some t → 0 ≤ j < 512 →
     has (entry_at (mem s') t j) PTE_PS = has (entry_at (mem s) t j) PTE_PS) →
  tree_ok s' root.
Proof.
  intros T Hr Hfree Hsub Hps. split.
  - intros q t Hq Ht%Hsub; [|done]. destruct (tree_tables _ _ T _ _ Hq Ht) as (? & ? & Hnf & Hap).
    split_and!; try done; try lia; [by intros ?%Hfree|by rewrite Hr].
  - intros q q' t Hq Hq' Ht%Hsub Ht'%Hsub; [|done|done]. by eapply (tree_inj _ _ T).
  - intros q t j Hl Hq Ht%Hsub Hj; [|done]. rewrite Hps with (q := q) by done.
    by eapply (tree_no_huge _ _ T).
Qed.

(** *** Redirecting an empty entry to a new table *)

Section NewTable.
Context (s s' : pmm) (root : Z) (p : list Z) (tp i f : Z).
Context (T : tree_ok s root) (Hp : path_ok (p ++ [i])).
Context (Htp : path_table (mem s) root p = Some tp).
Context (Hagree : ∀ q t j, path_ok q → path_table (mem s) root q = Some t →
  0 ≤ j < 512 → (q, j) ≠ (p, i) → entry_at (mem s') t j = entry_at (mem s) t j).
Context (Hold : next (mem s) tp i = None) (Hnew : next (mem s') tp i = Some f).
Context (Hf : table_ok s' f).
Context (Hfresh : ∀ q t, path_ok q → path_table (mem s) root q = Some t → t ≠ f).
Context (Hregions : regions s' = regions s).
Context (Hfree : ∀ x, free_frame s' x → free_frame s x).
Context (Hdead : (length p < 2)%nat → ∀ j, 0 ≤ j < 512 → entry_at (mem s') f j = 0).

Lemma new_path : path_table (mem s') root (p ++ [i]) = Some f.
Proof using All.
  pose proof Hp as (Hp' & _ & Hi)%path_ok_snoc. rewrite path_table_snoc.
  by rewrite (path_self s s' root p tp i T Hp' Hi Htp Hagree).
Qed.

Lemma next_zero m t j : entry_at m t j = 0 → next m t j = None.
Proof. unfold next. by intros ->. Qed.

(** Every table of the new tree is an old one at its old place, or [f]. *)
Lemma new_classify q t :
  path_ok q → path_table (mem s') root q = Some t →
  (¬ (p ++ [i]) `prefix_of` q ∧ path_table (mem s) root q = Some t) ∨ (q = p ++ [i] ∧ t = f).
Proof using All.
  intros Hq Ht. pose proof Hp as (Hp' & Hl & Hi)%path_ok_snoc.
  destruct (decide ((p ++ [i]) `prefix_of` q)) as [[r ->]|Hpre]; [right|left].
  - rewrite <- (assoc app), path_extend with (s := s) (tp := tp), Hnew in Ht by done. simpl in Ht.
    destruct r as [|j r]; simpl in Ht; [rewrite app_nil_r; by simplify_eq|].
    destruct Hq as [Hlq Hfq]. rewrite !length_app in Hlq. simpl in Hlq.
    apply Forall_app in Hfq as [_ [Hj _]%Forall_cons].
    by rewrite next_zero in Ht by (apply Hdead; lia || done).
  - by rewrite (path_stable s s' root p tp i T Hp' Hi Htp Hagree) in Ht.
Qed.

Lemma new_mono q t :
  path_ok q → path_table (mem s) root q = Some t → path_table (mem s') root q = Some t.
Proof using All.
  intros Hq Ht. pose proof Hp as (Hp' & _ & Hi)%path_ok_snoc.
  rewrite (path_stable s s' root p tp i T Hp' Hi Htp Hagree); auto.
  intros [r ->]. by rewrite <- (assoc app), path_table_app, Htp in Ht; simpl in Ht; rewrite Hold in Ht.
Qed.

Lemma new_tree_ok : tree_ok s' root.
Proof using All.
  split.
  - intros q t Hq [[_ Ht]|[-> ->]]%new_classify; [|done|done].
    destruct (tree_tables _ _ T _ _ Hq Ht) as (? & ? & Hnf & Hap).
    split_and!; try done; try lia; [by intros ?%Hfree|by rewrite Hregions].
  - intros q q' t Hq Hq' [[Hn Ht]|[-> ->]]%new_classify [[Hn' Ht']|[-> E]]%new_classify;
      try done; subst.
    + by eapply tree_inj.
    + by destruct (Hfresh q f).
    + by destruct (Hfresh q' f).
  - intros q t j Hlen Hq [[_ Ht]|[-> ->]]%new_classify Hj; [| |done].
    + destruct (decide ((q, j) = (p, i))) as [[= -> ->]|Hne].
      * rewrite Htp in Ht. simplify_eq. by apply (next_present (mem s') t i); rewrite Hnew.
      * rewrite (Hagree q t j) by done. by eapply tree_no_huge.
    + rewrite Hdead; [done| |done]. rewrite length_app in Hlen. simpl in Hlen. lia.
Qed.

(** With an empty new table no translation changes. *)
Lemma new_translate_empty v :
  has (entry_at (mem s) tp i) PTE_PRESENT = false →
  (∀ j, 0 ≤ j < 512 → entry_at (mem s') f j = 0) →
  translate (mem s') root v = translate (mem s) root v.
Proof using All.
  intros Hnp Hz. pose proof Hp as (Hp' & Hl & Hi)%path_ok_snoc.
  set (v3 := [pml4_index v; pdpt_index v; pd_index v]).
  set (v2 := [pml4_index v; pdpt_index v]).
  assert (v3 = v2 ++ [pd_index v]) as E23 by done.
  destruct (decide ((p ++ [i]) `prefix_of` v3)) as [[r Er]|Hpre].
  2:{ eapply translate_stable; eauto. intros [= <- <-]. simpl in Hl. lia. }
  assert (p ++ [i] = v3 ∧ p = v2 ∧ i = pd_index v ∧ r = [] ∨
    ∃ j r', r = j :: r' ∧ (p ++ [i]) `prefix_of` v2 ∧ 0 ≤ j < 512) as Hcase.
  { destruct p as [|a [|b [|]]]; simpl in *; simplify_eq; [right|right|left|lia].
    - eexists _, _. split; [done|]. split; [by apply prefix_cons, prefix_nil|auto with tree].
    - eexists _, _. split; [done|]. split; [by apply prefix_cons, prefix_cons, prefix_nil|auto with tree].
    - done. }
  transitivity (@None (Z * Z)).
  - unfold translate. fold v2 v3.
    rewrite Er, <- (assoc app), path_extend with (tp := tp) (s := s), Hnew by done.
    cbn [mbind option_bind]. destruct Hcase as [(_ & _ & _ & ->)|(j & r' & -> & Hpre & Hj)].
    { simpl. unfold leaf4k. by rewrite Hz by auto with tree. }
    cbn [path_table]. rewrite next_zero by auto. cbn [mbind option_bind].
    destruct (path_table (mem s') root v2) as [pd|] eqn:Epd; [|done].
    apply new_classify in Epd as [[Hn Ht]|[E ->]]; [done| |apply path_ok_v2].
    unfold leaf2m. by rewrite Hz by auto with tree.
  - unfold translate. fold v2 v3.
    rewrite Er, <- (assoc app), path_table_app, Htp. cbn [mbind option_bind path_table app].
    rewrite Hold. cbn [mbind option_bind].
    destruct Hcase as [(_ & <- & <- & _)|(_ & _ & _ & [r2 ->] & _)].
    + rewrite Htp. unfold leaf2m. by rewrite Hnp.
    + by rewrite <- (assoc app), path_table_app, Htp; simpl; rewrite Hold.
Qed.
End NewTable.

(** *** Splitting a 2 MiB page *)

Lemma leaf_testbit n :
  0 ≤ n → Z.testbit LEAF n = (1 =? n) || (2 =? n) || (8 =? n) || (9 =? n) || (63 =? n).
Proof.
  intros Hn.
  change LEAF with (Z.lor (Z.lor (Z.lor (Z.lor (2 ^ 1) (2 ^ 2)) (2 ^ 8)) (2 ^ 9)) (2 ^ 63)).
  by rewrite !Z.lor_spec, !Z.pow2_bits_eqb by lia.
Qed.

(** Two entries that agree on the flag bits have the same leaf flags. *)
Lemma land_leaf_eq x y :
  (∀ n, n ∈ [1; 2; 8; 9; 63] → Z.testbit x n = Z.testbit y n) → Z.land x LEAF = Z.land y LEAF.
Proof.
  intros H. apply Z.bits_inj'. intros n Hn. rewrite !Z.land_spec, leaf_testbit by done.
  repeat (destruct (_ =? n) eqn:E in |- *; [apply Z.eqb_eq in E; subst n;
    rewrite H by (repeat constructor); done|clear E]).
  simpl. by rewrite !andb_false_r.
Qed.

(** A 2 MiB entry the splitting code handles: no NX, no software bit 9 and no
    reserved bit set. *)
Definition huge_plain (e : Z) : Prop := e < 2 ^ 52 ∧ Z.testbit e 9 = false.

Lemma split_keep_eq e : 0 ≤ e < 2 ^ 52 → Z.land e SPLIT_KEEP = Z.land e 0x107.
Proof.
  intros He. change SPLIT_KEEP with (Z.lor 0x107 (2 ^ 63)). rewrite Z.land_lor_distr_r.
  replace (Z.land e (2 ^ 63)) with 0; [by rewrite Z.lor_0_r|].
  symmetry. apply Z.bits_inj'. intros n Hn. rewrite Z.land_spec, Z.pow2_bits_eqb, Z.bits_0 by lia.
  destruct (63 =? n) eqn:E; [|by rewrite andb_false_r].
  bsimp. subst. by rewrite (small_testbit_high e 52).
Qed.

Lemma land_small_range e k : 0 ≤ e → 0 ≤ k < 4096 → 0 ≤ Z.land e k < 4096.
Proof.
  intros He Hk. split; [apply Z.land_nonneg; lia|].
  rewrite <- (Z.mod_small k 4096) by done. change 4096 with (2 ^ 12).
  rewrite <- Z.land_ones, Z.land_assoc, Z.land_ones by lia. dlia.
Qed.

Lemma split_leaf e j :
  0 ≤ e < 2 ^ 52 → Z.testbit e 9 = false → has e PTE_PS = true → 0 ≤ j < 512 →
  leaf4k (w64 (Z.lor (w64 (Z.land e (not64 (Z.shiftl 1 21 - 1)) + j * 4096))
                 (Z.land e SPLIT_KEEP))) = leaf2m e j.
Proof.
  intros He H9 Hps Hj. change (Z.shiftl 1 21) with (2 ^ 21).
  rewrite split_keep_eq, land_not64 by lia.
  set (B := e - e mod 2 ^ 21 + j * 4096).
  assert (B mod 4096 = 0 ∧ 0 ≤ B < 2 ^ 52) as [HB HBr] by (subst B; dlia).
  rewrite (w64_small B) by lia.
  destruct (table_entry B (Z.land e 0x107) HB HBr) as (Hr & Hta & Hlow).
  { apply land_small_range; lia. }
  rewrite w64_small by lia. unfold leaf4k, leaf2m. rewrite Hps, andb_true_r, !has_present, Hlow by lia.
  rewrite Z.land_spec. change (Z.testbit 0x107 0) with true. rewrite andb_true_r.
  destruct (Z.testbit e 0); [|done]. do 2 f_equal.
  - rewrite land_hw_addr by lia. rewrite Hta. subst B. f_equal.
    change HW_ADDR_2M with (Z.land (not64 (2 ^ 21 - 1)) (Z.ones 52)).
    rewrite Z.land_assoc, land_not64, Z.land_ones by lia. symmetry. apply Z.mod_small. dlia.
  - apply land_leaf_eq. intros n Hn. destruct (decide (n = 63)) as [->|].
    { by rewrite !(small_testbit_high _ 52 63) by lia. }
    assert (0 ≤ n < 12 ∧ (Z.testbit 0x107 n = true ∨ n = 9)) as [Hn12 Hb].
    { repeat (apply elem_of_cons in Hn as [->|Hn]; [split; [lia|auto]|]).
      by apply elem_of_nil in Hn. }
    rewrite Hlow, Z.land_spec by done.
    destruct Hb as [->| ->]; [by rewrite andb_true_r|by rewrite H9].
Qed.

Section Split.
Context (s s' : pmm) (root : Z) (p : list Z) (tp i f : Z).
Context (T : tree_ok s root) (Hp : path_ok (p ++ [i])) (Hlen : length p = 2%nat).
Context (Htp : path_table (mem s) root p = Some tp).
Context (Hagree : ∀ q t j, path_ok q → path_table (mem s) root q = Some t →
  0 ≤ j < 512 → (q, j) ≠ (p, i) → entry_at (mem s') t j = entry_at (mem s) t j).
Context (Hold : next (mem s) tp i = None) (Hnew : next (mem s') tp i = Some f).
Context (Hleaf : ∀ j, 0 ≤ j < 512 →
  leaf4k (entry_at (mem s') f j) = leaf2m (entry_at (mem s) tp i) j).

Lemma new_translate_split v : translate (mem s') root v = translate (mem s) root v.
Proof using All.
  pose proof Hp as (Hp' & Hl & Hi)%path_ok_snoc.
  set (v3 := [pml4_index v; pdpt_index v; pd_index v]).
  destruct (decide ((p ++ [i]) `prefix_of` v3)) as [[r Er]|Hpre].
  2:{ eapply translate_stable; eauto. intros [= <- <-]. simpl in Hlen. lia. }
  assert (v3 = p ++ [i] ∧ p = [pml4_index v; pdpt_index v] ∧ i = pd_index v) as (E3 & E2 & Ei).
  { destruct p as [|a [|b [|]]]; simpl in *; by simplify_eq. }
  unfold translate. fold v3. rewrite <- E2, <- Ei, E3, !path_table_snoc, Htp.
  rewrite (path_self s s' root p tp i T Hp' Hi Htp Hagree).
  cbn [mbind option_bind]. rewrite Hold, Hnew. apply Hleaf. auto with tree.
Qed.
End Split.

(** *** Changing an entry without changing where it points *)

Section SameTable.
Context (s s' : pmm) (root : Z) (p : list Z) (tp i : Z).
Context (T : tree_ok s root) (Hp : path_ok (p ++ [i])).
Context (Htp : path_table (mem s) root p = Some tp).
Context (Hagree : ∀ q t j, path_ok q → path_table (mem s) root q = Some t →
  0 ≤ j < 512 → (q, j) ≠ (p, i) → entry_at (mem s') t j = entry_at (mem s) t j).
Context (Hsame : next (mem s') tp i = next (mem s) tp i).
Context (Hsome : is_Some (next (mem s) tp i)).
Context (Hregions : regions s' = regions s).
Context (Hfree : ∀ x, free_frame s' x → free_frame s x).

Lemma same_paths q : path_ok q → path_table (mem s') root q = path_table (mem s) root q.
Proof using All.
  pose proof Hp as (Hp' & Hl & Hi)%path_ok_snoc.
  induction q as [|j q IH] using rev_ind; intros Hq; [done|].
  apply path_ok_snoc in Hq as (Hq & Hlq & Hj). rewrite !path_table_snoc, IH by done.
  destruct (path_table (mem s) root q) as [t|] eqn:Et; [|done]. cbn [mbind option_bind].
  destruct (decide ((q, j) = (p, i))) as [[= -> ->]|Hne]; [by simplify_eq|].
  unfold next. by rewrite (Hagree q t j).
Qed.

Lemma same_tree_ok : tree_ok s' root.
Proof using All.
  apply (tree_sub s s' root); auto.
  - intros q t Hq. by rewrite same_paths.
  - intros q t j Hlen Hq Ht Hj. destruct (decide ((q, j) = (p, i))) as [[= -> ->]|Hne].
    + rewrite Htp in Ht. injection Ht as <-.
      destruct (proj1 (next_present (mem s') tp i)) as [_ ->]; [by rewrite Hsame|].
      by destruct (proj1 (next_present (mem s) tp i)) as [_ ->].
    + by rewrite (Hagree q t j).
Qed.

Lemma same_translate v : translate (mem s') root v = translate (mem s) root v.
Proof using All.
  pose proof Hp as (Hp' & Hl & Hi)%path_ok_snoc.
  unfold translate. rewrite !same_paths by auto with tree.
  destruct (path_table (mem s) root [_; _; _]) as [pt|] eqn:E1.
  { rewrite (Hagree _ pt _ (path_ok_v3 v) E1); [done|auto with tree|].
    intros [= <- <-]. simpl in Hl. lia. }
  destruct (path_table (mem s) root [_; _]) as [pd|] eqn:E2; [|done].
  rewrite (Hagree _ pd _ (path_ok_v2 v) E2); [done|auto with tree|].
  intros [= <- <-]. destruct Hsome as [t Ht].
  change [pml4_index v; pdpt_index v; pd_index v]
    with ([pml4_index v; pdpt_index v] ++ [pd_index v]) in E1.
  rewrite path_table_snoc, E2 in E1. cbn in E1. congruence.
Qed.
End SameTable.

(** ** The effect of taking a frame as a new table *)

Lemma free_frame_aligned s a : wf s → free_frame s a → a mod 4096 = 0.
Proof.
  intros W (i & r & p & Hi & _ & _ & ->).
  pose proof (ro_align _ (wf_regions _ W _ _ Hi)). dlia.
Qed.

Lemma alloc_bound s a s' : wf s → phys_bound s → pmm_alloc_page s = Ret (a, s') → 0 < a < 2 ^ 52.
Proof.
  intros W Hb (i & r & p & Hi & Hp & -> & _)%pmm_alloc_page_update; [|done].
  pose proof (Hb r (list_elem_of_lookup_2 _ _ _ Hi)).
  destruct (wf_regions _ W _ _ Hi) as [? ? ? ? Ht ? ?]. rewrite Ht in Hp. dlia.
Qed.

(** Frames holding neither tables, bitmaps nor free memory. *)
Definition data_frame (s : pmm) (root a : Z) : Prop :=
  a mod 4096 = 0 ∧ ¬ free_frame s a ∧
  (∀ b, a ≤ b < a + 4096 → ¬ in_bitmaps s b) ∧
  (∀ q t, path_ok q → path_table (mem s) root q = Some t → t ≠ a).

Lemma table_not_bitmap s t b : table_ok s t → t ≤ b < t + 4096 → ¬ in_bitmaps s b.
Proof. intros (_ & _ & _ & H) Hb (r & Hr & ?). destruct (H r Hr); lia. Qed.

Section Fresh.
Context (s s1 : pmm) (root : Z) (p : list Z) (tp i f e : Z) (g : Z → Z).
Context (W : wf s) (B : phys_bound s) (T : tree_ok s root) (Hp : path_ok (p ++ [i])).
Context (Htp : path_table (mem s) root p = Some tp).
Context (Ha : pmm_alloc_page s = Ret (f, s1)) (He : 0 ≤ e < 2 ^ 64).

Let m1 := for_range 0 512 (λ i m, set_entry m f i (g i)) (mem s1).
Let s' := with_mem s1 (set_entry m1 tp i e).

Lemma fresh_ne q t : path_ok q → path_table (mem s) root q = Some t → t ≠ f.
Proof using W T Ha.
  intros Hq Ht ->. destruct (tree_tables _ _ T _ _ Hq Ht) as (_ & _ & Hnf & _).
  by destruct (pmm_alloc_page_wf _ _ _ W Ha) as (_ & _ & _ & _ & _ & _ & _ & ? & _).
Qed.

Lemma fresh_f : f mod 4096 = 0 ∧ 0 < f < 2 ^ 52.
Proof using W B Ha.
  destruct (pmm_alloc_page_wf _ _ _ W Ha) as (_ & _ & _ & _ & ? & _).
  pose proof (alloc_bound _ _ _ W B Ha). done.
Qed.

(** Bytes outside the new table, the changed slot and the bitmaps. *)
Lemma fresh_bytes b :
  ¬ in_bitmaps s b → b < f ∨ f + 4096 ≤ b → b < tp + 8 * i ∨ tp + 8 * i + 8 ≤ b →
  rd8 (mem s') b = rd8 (mem s) b.
Proof using W Ha.
  intros Hb Hf Hs. subst s' m1. simpl. rewrite rd8_set_entry by done.
  destruct (fill_spec (mem s1) f g 0 512 ltac:(lia) ltac:(lia)) as [_ H2].
  rewrite H2 by done. by apply (pmm_alloc_page_mem s f).
Qed.

Lemma fresh_tp : table_ok s tp ∧ 0 ≤ i < 512 ∧ tp ≠ f.
Proof using W T Hp Htp Ha.
  pose proof Hp as (Hp' & _ & Hi)%path_ok_snoc.
  split_and!; [by eapply tree_tables|lia|lia|by eapply fresh_ne].
Qed.

Lemma fresh_bitmaps b : in_bitmaps s b → rd8 (mem s') b = rd8 (mem s1) b.
Proof using All.
  intros Hb. subst s' m1. simpl.
  destruct fresh_tp as (Htok & Hi & _).
  assert (b < tp ∨ tp + 4096 ≤ b).
  { destruct (decide (tp ≤ b < tp + 4096)); [|lia]. by destruct (table_not_bitmap s tp b). }
  rewrite rd8_set_entry by lia.
  destruct (fill_spec (mem s1) f g 0 512 ltac:(lia) ltac:(lia)) as [_ H2]. apply H2.
  destruct (pmm_alloc_page_wf _ _ _ W Ha) as (_ & _ & _ & _ & _ & _ & _ & _ & _ & Hap).
  destruct Hb as (r & Hr & ?). destruct (Hap r Hr); lia.
Qed.

Lemma fresh_wf :
  wf s' ∧ regions s' = regions s ∧ (∀ x, free_frame s' x → free_frame s x) ∧ ¬ free_frame s' f.
Proof using All.
  destruct (pmm_alloc_page_wf _ _ _ W Ha)
    as (W1 & _ & _ & Hr & _ & _ & Hother & Hff & Hnf & _).
  assert (∀ b, in_bitmaps s1 b → rd8 (mem s') b = rd8 (mem s1) b) as Hb.
  { intros b (r & Hr' & ?). apply fresh_bitmaps. exists r. by rewrite <- Hr. }
  destruct (with_mem_wf s1 _ W1 Hb) as [W' Hfree'].
  split_and!; try done.
  - intros x Hx%Hfree'. destruct (decide (x = f)) as [->|]; [done|]. by apply Hother.
  - by intros ?%Hfree'.
Qed.

Lemma fresh_table_ok : table_ok s' f.
Proof using All.
  destruct fresh_f. destruct fresh_wf as (_ & Hr & _ & Hnf).
  split_and!; try done; try lia. rewrite Hr. by eapply pmm_alloc_page_wf.
Qed.

Lemma fresh_agree q t j :
  path_ok q → path_table (mem s) root q = Some t → 0 ≤ j < 512 → (q, j) ≠ (p, i) →
  entry_at (mem s') t j = entry_at (mem s) t j.
Proof using All.
  intros Hq Ht Hj Hne. pose proof (tree_tables _ _ T _ _ Hq Ht) as Htok.
  pose proof (fresh_ne q t Hq Ht). destruct fresh_tp as ((Hal & _) & Hi & _), fresh_f as [Hfal _].
  destruct Htok as (Htal & Htr & Hrest). pose proof Hp as (Hp' & _)%path_ok_snoc.
  apply rd64_ext. intros b Hb. apply fresh_bytes.
  - apply (table_not_bitmap s t b); [exact (tree_tables _ _ T _ _ Hq Ht)|lia].
  - dlia.
  - destruct (decide (t = tp)) as [->|]; [|dlia].
    assert (q = p) as -> by exact (tree_inj _ _ T q p tp Hq Hp' Ht Htp). assert (j ≠ i) by congruence. lia.
Qed.

Lemma fresh_entry : entry_at (mem s') tp i = e.
Proof using He. subst s'. simpl. rewrite entry_set_same. by apply w64_small. Qed.

Lemma fresh_filled j : 0 ≤ j < 512 → entry_at (mem s') f j = w64 (g j).
Proof using All.
  intros Hj. destruct fresh_tp as ((? & _) & Hi & Hne), fresh_f as [? _].
  subst s' m1. simpl. rewrite entry_set_ne by (done || congruence).
  destruct (fill_spec (mem s1) f g 0 512 ltac:(lia) ltac:(lia)) as [H1 _].
  rewrite H1 by done. by rewrite decide_True by lia.
Qed.

Lemma fresh_data a b :
  data_frame s root a → a ≤ b < a + 4096 → rd8 (mem s') b = rd8 (mem s) b.
Proof using All.
  intros (Hal & Hnf & Hbm & Ht) Hb. destruct fresh_f as [? _].
  pose proof Hp as (Hp' & _ & Hi)%path_ok_snoc.
  pose proof (Ht p tp Hp' Htp). destruct fresh_tp as ((? & _) & _ & _).
  assert (f ≠ a) by (intros ->; apply Hnf; by eapply pmm_alloc_page_wf).
  apply fresh_bytes; [by apply Hbm|dlia|dlia].
Qed.
End Fresh.

End MmuTree.
