(* ===== verification/MmuOps.v ===== *)
(** * Mapping and unmapping, proved

    [ensure_table] only ever grows the tree of an address space: existing
    tables stay where they are and no translation changes ([grown]).  The
    mapping operations are then a growth followed by one leaf write. *)

From S2P Require Import Prelude Memory Pmm Mmu MmuTree.
From stdpp Require Import options.
Import Pmm Mmu MmuTree.

Module MmuOps.

(** A 2 MiB entry on the way to [v], if there is one, can be split. *)
Definition split_ok (m : memory) (root v : Z) : Prop :=
  ∀ t, path_table m root [pml4_index v; pdpt_index v] = Some t →
  has (entry_at m t (pd_index v)) PTE_PS = true →
  huge_plain (entry_at m t (pd_index v)).

(** The entry [j] of the table at [q] leads on and allows user access. *)
Definition user_entry (m : memory) (root : Z) (q : list Z) (j : Z) : Prop :=
  ∃ t, path_table m root q = Some t ∧ is_Some (next m t j) ∧
    has (entry_at m t j) PTE_USER = true.

Record grown (s s' : pmm) (root : Z) : Prop := {
  g_wf : wf s';
  g_regions : regions s' = regions s;
  g_tree : tree_ok s' root;
  g_free : ∀ x, free_frame s' x → free_frame s x;
  g_mono : ∀ q t, path_ok q → path_table (mem s) root q = Some t →
    path_table (mem s') root q = Some t;
  g_translate : ∀ v, translate (mem s') root v = translate (mem s) root v;
  g_data : ∀ a, data_frame s root a → data_frame s' root a;
  g_bytes : ∀ a b, data_frame s root a → a ≤ b < a + 4096 → rd8 (mem s') b = rd8 (mem s) b;
  g_huge : ∀ v t, path_table (mem s') root [pml4_index v; pdpt_index v] = Some t →
    has (entry_at (mem s') t (pd_index v)) PTE_PS = true →
    path_table (mem s) root [pml4_index v; pdpt_index v] = Some t ∧
    entry_at (mem s') t (pd_index v) = entry_at (mem s) t (pd_index v);
  g_pte : ∀ q t j, path_ok q → length q = 3%nat → path_table (mem s) root q = Some t →
    0 ≤ j < 512 → entry_at (mem s') t j = entry_at (mem s) t j;
  g_user : ∀ q j, path_ok q → 0 ≤ j < 512 →
    user_entry (mem s) root q j → user_entry (mem s') root q j;
}.

Lemma grown_refl s root : wf s → tree_ok s root → grown s s root.
Proof. by split. Qed.

Lemma grown_trans s1 s2 s3 root : grown s1 s2 root → grown s2 s3 root → grown s1 s3 root.
Proof.
  intros [? Hr ? Hf Hm Ht Hd Hb Hs Hl Hu] [? Hr' ? Hf' Hm' Ht' Hd' Hb' Hs' Hl' Hu'].
  split; eauto.
  - congruence.
  - intros v. by rewrite Ht', Ht.
  - intros a b Ha Hab. rewrite (Hb' a b) by eauto. eauto.
  - intros v t Hv3 Hps. destruct (Hs' v t Hv3 Hps) as [Hv2 E]. rewrite E in Hps.
    destruct (Hs v t Hv2 Hps) as [Hv1 E']. split; [done|congruence].
  - intros q t j Hq Hlen Hqt Hj. rewrite (Hl' q t j) by eauto. eauto.
Qed.

Lemma grown_split s s' root v : grown s s' root → split_ok (mem s) root v → split_ok (mem s') root v.
Proof.
  intros G Hs t Ht Hps. destruct (g_huge _ _ _ G v t Ht Hps) as [Ht' E]. rewrite E in *. by apply Hs.
Qed.

Lemma grown_bound s s' root : grown s s' root → phys_bound s → phys_bound s'.
Proof. intros G B r. rewrite (g_regions _ _ _ G). apply B. Qed.

(** ** Growing by one table *)

Section Grow.
Context (s s1 : pmm) (root : Z) (p : list Z) (tp i f e : Z) (g : Z → Z).
Context (W : wf s) (B : phys_bound s) (T : tree_ok s root) (Hp : path_ok (p ++ [i])).
Context (Htp : path_table (mem s) root p = Some tp).
Context (Ha : pmm_alloc_page s = Ret (f, s1)) (He : 0 ≤ e < 2 ^ 64).

Context (s' : pmm) (Hs' : s' = with_mem s1
  (set_entry (for_range 0 512 (λ i m, set_entry m f i (g i)) (mem s1)) tp i e)).

Context (Hold : next (mem s) tp i = None).
Context (Hpresent : has e PTE_PRESENT = true) (Hps : has e PTE_PS = false).
Context (Haddr : table_addr e = f).
Context (Hdead : (length p < 2)%nat → ∀ j, 0 ≤ j < 512 → w64 (g j) = 0).

Lemma grow_next : next (mem s') tp i = Some f.
Proof using He Hpresent Hps Haddr Hs'.
  unfold next. rewrite Hs', (fresh_entry s1 tp i f e g He). by rewrite Hpresent, Hps, Haddr.
Qed.

Lemma grow_agree q t j :
  path_ok q → path_table (mem s) root q = Some t → 0 ≤ j < 512 → (q, j) ≠ (p, i) →
  entry_at (mem s') t j = entry_at (mem s) t j.
Proof using All. rewrite Hs'. exact (fresh_agree s s1 root p tp i f e g W B T Hp Htp Ha He q t j). Qed.

Lemma grow_wf :
  wf s' ∧ regions s' = regions s ∧ (∀ x, free_frame s' x → free_frame s x) ∧ table_ok s' f.
Proof using All.
  rewrite Hs'. destruct (fresh_wf s s1 root p tp i f e g W B T Hp Htp Ha He) as (? & ? & ? & _).
  pose proof (fresh_table_ok s s1 root p tp i f e g W B T Hp Htp Ha He). auto.
Qed.

Lemma grow_dead : (length p < 2)%nat → ∀ j, 0 ≤ j < 512 → entry_at (mem s') f j = 0.
Proof using All.
  intros Hl j Hj. rewrite Hs', (fresh_filled s s1 root p tp i f e g W B T Hp Htp Ha He j Hj). auto.
Qed.

Lemma grow_classify q t :
  path_ok q → path_table (mem s') root q = Some t →
  (¬ (p ++ [i]) `prefix_of` q ∧ path_table (mem s) root q = Some t) ∨ (q = p ++ [i] ∧ t = f).
Proof using All.
  destruct grow_wf as (? & ? & ? & ?).
  eapply (new_classify s s' root p tp i f); eauto using grow_next, grow_dead, fresh_ne, grow_agree.
Qed.

Context (Htrans : ∀ v, translate (mem s') root v = translate (mem s) root v).

Lemma grow_grown : grown s s' root.
Proof using All.
  destruct grow_wf as (W' & Hr & Hfree & Hfok). pose proof grow_agree as Hagree.
  pose proof (fresh_ne s s1 root f W T Ha) as Hne. pose proof grow_next as Hnew.
  assert (∀ q t, path_ok q → path_table (mem s) root q = Some t →
    path_table (mem s') root q = Some t) as Hmono.
  { eapply (new_mono s s' root p tp i f); eauto using grow_dead. }
  split; try done.
  - eapply (new_tree_ok s s' root p tp i f); eauto using grow_dead.
  - intros a (? & Hnfa & Hbm & Ht). split_and!; try done.
    + by intros ?%Hfree.
    + intros b Hb (r & Hr' & Hin). apply (Hbm b Hb). exists r. by rewrite <- Hr.
    + intros q t Hq [[_ Hqt]|[-> ->]]%grow_classify; [by eapply Ht| |done].
      intros ->. apply Hnfa. by eapply pmm_alloc_page_wf.
  - intros a b Hda Hb. rewrite Hs'.
    exact (fresh_data s s1 root p tp i f e g W B T Hp Htp Ha He a b Hda Hb).
  - intros v t Ht0 Hh. destruct (grow_classify _ _ (path_ok_v2 v) Ht0) as [[_ Ht]|[E ->]].
    + destruct (decide (([pml4_index v; pdpt_index v], pd_index v) = (p, i))) as [[= <- <-]|Hd].
      * rewrite Htp in Ht. injection Ht as <-. rewrite Hs', (fresh_entry s1 tp _ f e g He) in Hh.
        by rewrite Hps in Hh.
      * by rewrite (Hagree _ t _ (path_ok_v2 v) Ht) by (done || auto with tree).
    + rewrite grow_dead in Hh; [done| |auto with tree].
      apply (f_equal length) in E. rewrite length_app in E. simpl in E. lia.
  - intros q t j Hq Hlq Ht Hj. apply (Hagree q); auto.
    intros [= -> ->]. apply path_ok_snoc in Hp as (_ & ? & _). lia.
  - intros q j Hq Hj (t & Ht & Hn & Hu). exists t. split; [auto|].
    assert ((q, j) ≠ (p, i)) as Hd.
    { intros [= -> ->]. rewrite Htp in Ht. injection Ht as <-. rewrite Hold in Hn. by destruct Hn. }
    unfold next. by rewrite (Hagree q t j).
Qed.

Lemma grow_path : path_table (mem s') root (p ++ [i]) = Some f.
Proof using All.
  pose proof Hp as (Hp' & _ & Hi)%path_ok_snoc. rewrite path_table_snoc.
  rewrite (g_mono _ _ _ grow_grown p tp) by done. exact grow_next.
Qed.
End Grow.

(** ** [ensure_table] *)

(** Changing flag bits of an entry that already leads to a table. *)
Lemma set_flags_grown s root p tp i e :
  wf s → tree_ok s root → path_ok (p ++ [i]) → path_table (mem s) root p = Some tp →
  is_Some (next (mem s) tp i) → 0 ≤ e < 2 ^ 64 →
  next (with_mem s (set_entry (mem s) tp i e)).(mem) tp i = next (mem s) tp i →
  (has (entry_at (mem s) tp i) PTE_USER = true → has e PTE_USER = true) →
  grown s (with_mem s (set_entry (mem s) tp i e)) root.
Proof.
  intros W T Hp Htp Hsome He Hsame Huser.
  pose proof Hp as (Hp' & _ & Hi)%path_ok_snoc.
  pose proof (tree_tables _ _ T _ _ Hp' Htp) as Htok. pose proof Htok as (Hal & _).
  destruct (with_mem_wf s (set_entry (mem s) tp i e) W) as [W' Hfree].
  { intros b Hb. apply rd8_set_entry.
    destruct (decide (tp ≤ b < tp + 4096)); [|lia]. by destruct (table_not_bitmap s tp b). }
  set (s' := with_mem s (set_entry (mem s) tp i e)) in *.
  assert (∀ q t j, path_ok q → path_table (mem s) root q = Some t → 0 ≤ j < 512 →
    (q, j) ≠ (p, i) → entry_at (mem s') t j = entry_at (mem s) t j) as Hagree.
  { intros q t j Hq Ht Hj Hne. apply entry_set_ne; auto.
    - by destruct (tree_tables _ _ T _ _ Hq Ht).
    - intros [= -> ->]. by rewrite (tree_inj _ _ T q p tp Hq Hp' Ht Htp) in Hne. }
  assert (∀ q, path_ok q → path_table (mem s') root q = path_table (mem s) root q) as Hpaths
    by (eapply (same_paths s s' root p tp i); eauto; intros; by apply Hfree).
  split; try done.
  - eapply (same_tree_ok s s' root p tp i); eauto. intros; by apply Hfree.
  - intros; by apply Hfree.
  - intros q t Hq. by rewrite Hpaths.
  - intros v. eapply (same_translate s s' root p tp i); eauto. intros; by apply Hfree.
  - intros a (? & Hnf & Hbm & Ht). split_and!; try done; [by rewrite Hfree|].
    intros q t Hq. rewrite Hpaths by done. by apply Ht.
  - intros a b (? & _ & _ & Ht) Hb. apply rd8_set_entry.
    pose proof (Ht p tp Hp' Htp). dlia.
  - intros v t Ht Hh. rewrite Hpaths in Ht by auto with tree.
    destruct (decide (([pml4_index v; pdpt_index v], pd_index v) = (p, i))) as [[= <- <-]|Hd].
    + rewrite Htp in Ht. injection Ht as <-. destruct Hsome as [t' Ht'].
      rewrite Ht' in Hsame.
      destruct (proj1 (next_present (mem s') tp (pd_index v))) as [_ Hc]; [by rewrite Hsame|congruence].
    + by rewrite (Hagree _ t _ (path_ok_v2 v) Ht) by (done || auto with tree).
  - intros q t j Hq Hlq Ht Hj. apply (Hagree q); auto.
    intros [= -> ->]. apply path_ok_snoc in Hp as (_ & ? & _). lia.
  - intros q j Hq Hj (t & Ht & Hn & Hu). exists t. rewrite Hpaths by done. split; [done|].
    destruct (decide ((q, j) = (p, i))) as [[= -> ->]|Hd].
    + rewrite Htp in Ht. injection Ht as <-. rewrite Hsame. split; [done|].
      subst s'. simpl. rewrite entry_set_same, w64_small by done. auto.
    + unfold next. by rewrite (Hagree q t j).
Qed.

Lemma lor_flags p f g :
  p mod 4096 = 0 → 0 ≤ p < 2 ^ 52 → 0 ≤ f < 4096 → 0 ≤ g < 4096 →
  0 ≤ Z.lor (Z.lor p f) g < 2 ^ 52 ∧ table_addr (Z.lor (Z.lor p f) g) = p ∧
  (∀ k, 0 ≤ k < 12 → Z.testbit (Z.lor (Z.lor p f) g) k = Z.testbit f k || Z.testbit g k).
Proof.
  intros Hp Hr Hf Hg. rewrite <- Z.lor_assoc.
  assert (0 ≤ Z.lor f g < 4096) as Hfg.
  { split; [apply Z.lor_nonneg; lia|]. change 4096 with (2 ^ 12).
    rewrite <- (Z.mod_small f (2 ^ 12)), <- (Z.mod_small g (2 ^ 12)), <- !Z.land_ones by lia.
    rewrite <- Z.land_lor_distr_l, Z.land_ones by lia. apply Z.mod_pos_bound. lia. }
  destruct (table_entry p (Z.lor f g) Hp Hr Hfg) as (? & ? & Hb).
  split_and!; try done; try lia. intros k Hk. by rewrite Hb, Z.lor_spec.
Qed.

(** What one [ensure_table] call at entry [i] of the table at path [p] gives. *)
Definition ensured (s s' : pmm) (root : Z) (p : list Z) (i t' flags : Z) : Prop :=
  grown s s' root ∧ path_table (mem s') root (p ++ [i]) = Some t' ∧
  (∀ tp, path_table (mem s) root p = Some tp → has flags MMU_FLAG_USER = true →
     has (entry_at (mem s) tp i) PTE_PS = false → user_entry (mem s') root p i).

Section Ensure.
Context (s : pmm) (root : Z) (p : list Z) (tp i flags : Z).
Context (W : wf s) (B : phys_bound s) (T : tree_ok s root) (Hp : path_ok (p ++ [i])).
Context (Htp : path_table (mem s) root p = Some tp).

Let e0 := entry_at (mem s) tp i.

Lemma ensure_split f s1 :
  has e0 PTE_PS = true → length p = 2%nat → huge_plain e0 →
  pmm_alloc_page s = Ret (f, s1) →
  ensured s (with_mem s1 (set_entry
    (split_fill (mem s1) f (Z.land e0 (not64 (Z.shiftl 1 21 - 1))) (Z.land e0 SPLIT_KEEP)) tp i
    (Z.lor (Z.lor f PTE_PRESENT) (Z.land (Z.land e0 SPLIT_KEEP) SPLIT_TABLE)))) root p i f flags.
Proof using All.
  intros Hps Hlen [Hsm H9] Ha. pose proof (entry_range (mem s) tp i) as He0. fold e0 in He0.
  destruct (fresh_f s s1 f W B Ha) as [Hfal Hfr].
  rewrite split_keep_eq by lia. set (k := Z.land (Z.land e0 0x107) SPLIT_TABLE).
  assert (k = Z.land e0 0x106) as Hk.
  { subst k. rewrite <- Z.land_assoc. by change (Z.land 0x107 SPLIT_TABLE) with 0x106. }
  destruct (lor_flags f PTE_PRESENT k) as (Hr & Hta & Hbits);
    [done|lia|unfold PTE_PRESENT; lia|rewrite Hk; apply land_small_range; lia|].
  set (e := Z.lor (Z.lor f PTE_PRESENT) k) in *.
  set (g := λ j, Z.lor (w64 (Z.land e0 (not64 (Z.shiftl 1 21 - 1)) + j * 4096)) (Z.land e0 0x107)).
  set (s' := with_mem _ _).
  assert (s' = with_mem s1 (set_entry (for_range 0 512 (λ i m, set_entry m f i (g i)) (mem s1)) tp i e))
    as Hs' by reflexivity. clearbody s'.
  assert (has e PTE_PRESENT = true) as He by by rewrite has_present, Hbits by lia.
  assert (has e PTE_PS = false) as Hep.
  { rewrite has_ps, Hbits, Hk, Z.land_spec by lia. by rewrite andb_false_r. }
  assert (next (mem s) tp i = None) as Hold.
  { unfold next. fold e0. by rewrite Hps, andb_false_r. }
  assert ((length p < 2)%nat → ∀ j, 0 ≤ j < 512 → w64 (g j) = 0) as Hdead by lia.
  assert (∀ v, translate (mem s') root v = translate (mem s) root v) as Htr.
  { intros v. apply (new_translate_split s s' root p tp i f T Hp Hlen Htp); auto.
    - eapply (grow_agree s s1 root p tp i f e g); eauto; lia.
    - eapply (grow_next s1 tp i f e g); eauto; lia.
    - intros j Hj. rewrite Hs', (fresh_filled s s1 root p tp i f e g) by (done || lia).
      fold e0. rewrite <- (split_leaf e0 j) by (done || lia). subst g. simpl.
      by rewrite split_keep_eq by lia. }
  split_and!.
  - eapply (grow_grown s s1 root p tp i f e g); eauto; lia.
  - eapply (grow_path s s1 root p tp i f e g); eauto; lia.
  - intros tp' Ht' _ Hn. rewrite Htp in Ht'. injection Ht' as <-. fold e0 in Hn. congruence.
Qed.

Lemma ensure_empty f s1 :
  has e0 PTE_PRESENT = false → pmm_alloc_page s = Ret (f, s1) →
  let new_entry := Z.lor (Z.lor f PTE_PRESENT) PTE_RW in
  let new_entry := if has flags MMU_FLAG_USER then Z.lor new_entry PTE_USER else new_entry in
  ensured s (with_mem s1 (set_entry (zero_page (mem s1) f) tp i new_entry)) root p i f flags.
Proof using All.
  intros Hnp Ha n0 e. destruct (fresh_f s s1 f W B Ha) as [Hfal Hfr].
  assert (∃ x, e = Z.lor (Z.lor f PTE_PRESENT) x ∧ 0 ≤ x < 4096 ∧ Z.testbit x 7 = false ∧
    (has flags MMU_FLAG_USER = true → Z.testbit x 2 = true)) as (x & Ex & Hx & Hx7 & Hx2).
  { subst e n0. destruct (has flags MMU_FLAG_USER).
    - exists (Z.lor PTE_RW PTE_USER). by rewrite (Z.lor_assoc _ PTE_RW).
    - by exists PTE_RW. }
  destruct (lor_flags f PTE_PRESENT x) as (Hr & Hta & Hbits);
    [done|lia|unfold PTE_PRESENT; lia|done|]. rewrite <- Ex in *. clearbody e.
  set (s' := with_mem _ _).
  assert (s' = with_mem s1 (set_entry (for_range 0 512 (λ i m, set_entry m f i ((λ _, 0) i)) (mem s1)) tp i e))
    as Hs' by reflexivity. clearbody s'.
  assert (has e PTE_PRESENT = true) as He by by rewrite has_present, Hbits by lia.
  assert (has e PTE_PS = false) as Hep by by rewrite has_ps, Hbits, Hx7 by lia.
  assert (next (mem s) tp i = None) as Hold by (unfold next; fold e0; by rewrite Hnp).
  assert ((length p < 2)%nat → ∀ j, 0 ≤ j < 512 → w64 ((λ _, 0) j) = 0) as Hdead by done.
  pose proof (grow_next s1 tp i f e (λ _, 0) ltac:(lia) s' Hs' He Hep Hta) as Hnext.
  assert (∀ v, translate (mem s') root v = translate (mem s) root v) as Htr.
  { intros v. destruct (grow_wf s s1 root p tp i f e (λ _, 0) W B T Hp Htp Ha ltac:(lia) s' Hs'
      Hold He Hep Hta Hdead) as (? & ? & ? & ?).
    assert (∀ j, 0 ≤ j < 512 → entry_at (mem s') f j = 0) as Hz.
    { intros j Hj. rewrite Hs', (fresh_filled s s1 root p tp i f e (λ _, 0)) by (done || lia). done. }
    apply (new_translate_empty s s' root p tp i f T Hp Htp); eauto using fresh_ne.
    eapply (grow_agree s s1 root p tp i f e (λ _, 0)); eauto; lia. }
  assert (grown s s' root) as G
    by (eapply (grow_grown s s1 root p tp i f e (λ _, 0)); eauto; lia).
  split_and!; [done|eapply (grow_path s s1 root p tp i f e (λ _, 0)); eauto; lia|].
  intros tp' Ht' Hu _. rewrite Htp in Ht'. injection Ht' as <-.
  pose proof Hp as (Hp' & _ & Hi)%path_ok_snoc.
  exists tp. split_and!; [by apply (g_mono _ _ _ G)|by rewrite Hnext|].
  rewrite Hs', (fresh_entry s1 tp i f e (λ _, 0)) by lia.
  by rewrite has_user, Hbits, Hx2, orb_true_r by (done || lia).
Qed.

Lemma ensure_existing :
  has e0 PTE_PRESENT = true → has e0 PTE_PS = false →
  ensured s (if has flags MMU_FLAG_USER && negb (has e0 PTE_USER)
    then with_mem s (set_entry (mem s) tp i (Z.lor e0 PTE_USER)) else s) root p i (table_addr e0) flags.
Proof using All.
  intros Hpr Hps. pose proof Hp as (Hp' & _ & Hi)%path_ok_snoc.
  assert (next (mem s) tp i = Some (table_addr e0)) as Hnext
    by (unfold next; fold e0; by rewrite Hpr, Hps).
  destruct (has flags MMU_FLAG_USER && negb (has e0 PTE_USER)) eqn:Hu.
  - pose proof (entry_range (mem s) tp i) as He0. fold e0 in He0.
    assert (0 ≤ Z.lor e0 PTE_USER < 2 ^ 64) as Hr.
    { split; [apply Z.lor_nonneg; unfold PTE_USER; lia|].
      rewrite <- (Z.mod_small e0 (2 ^ 64)), <- Z.land_ones by lia.
      change PTE_USER with (Z.land PTE_USER (Z.ones 64)).
      rewrite <- Z.land_lor_distr_l, Z.land_ones by lia. apply Z.mod_pos_bound. lia. }
    assert (∀ k, 0 ≤ k → k ≠ 2 → Z.testbit (Z.lor e0 PTE_USER) k = Z.testbit e0 k) as Hbits.
    { intros k ? ?. rewrite Z.lor_spec. change PTE_USER with (2 ^ 2).
      rewrite Z.pow2_bits_false by lia. apply orb_false_r. }
    assert (next (with_mem s (set_entry (mem s) tp i (Z.lor e0 PTE_USER))).(mem) tp i =
      next (mem s) tp i) as Hsame.
    { rewrite Hnext. unfold next. simpl. rewrite entry_set_same, w64_small by done.
      rewrite has_present, has_ps, !Hbits, <- has_present, <- has_ps, Hpr, Hps by lia. simpl.
      f_equal. unfold table_addr. rewrite Z.land_lor_distr_l.
      change (Z.land PTE_USER _) with 0. apply Z.lor_0_r. }
    assert (grown s (with_mem s (set_entry (mem s) tp i (Z.lor e0 PTE_USER))) root) as G.
    { eapply (set_flags_grown s root p tp i); eauto. intros _.
      rewrite has_user, Z.lor_spec. by rewrite orb_true_r. }
    split_and!; [done| |].
    + rewrite path_table_snoc, (g_mono _ _ _ G p tp) by done. by rewrite <- Hnext.
    + intros tp' Ht' _ _. rewrite Htp in Ht'. injection Ht' as <-. exists tp.
      split_and!; [by apply (g_mono _ _ _ G)|by rewrite Hsame, Hnext|].
      simpl. rewrite entry_set_same, w64_small, has_user, Z.lor_spec by done. by rewrite orb_true_r.
  - split_and!; [by apply grown_refl|by rewrite path_table_snoc, Htp|].
    intros tp' Ht' Hfu _. rewrite Htp in Ht'. injection Ht' as <-. exists tp.
    split_and!; [done|by rewrite Hnext|]. fold e0. rewrite Hfu in Hu. by apply negb_false_iff in Hu.
Qed.

Lemma ensure_table_ensured t' s' :
  (has e0 PTE_PS = true → length p = 2%nat ∧ huge_plain e0) →
  ensure_table s tp i flags = Ret (t', s') → ensured s s' root p i t' flags.
Proof using All.
  intros Hsplit H. unfold ensure_table in H. fold e0 in H.
  destruct (has e0 PTE_PS) eqn:Hps; [|destruct (has e0 PTE_PRESENT) eqn:Hpr]; simpl in H.
  - apply bind_Ret in H as ([f s1] & Ha & H). simplify_eq.
    destruct (Hsplit eq_refl). by apply ensure_split.
  - simplify_eq. by apply ensure_existing.
  - apply bind_Ret in H as ([f s1] & Ha & H). simplify_eq. by apply ensure_empty.
Qed.

End Ensure.

(** ** The three levels above a page table *)

Abbreviation v2 v := [pml4_index v; pdpt_index v].
Abbreviation v3 v := [pml4_index v; pdpt_index v; pd_index v].

(** Each table on the way to the page of [v] allows user access. *)
Definition user_walk (m : memory) (root v : Z) : Prop :=
  user_entry m root [] (pml4_index v) ∧ user_entry m root [pml4_index v] (pdpt_index v) ∧
  user_entry m root (v2 v) (pd_index v).

(** No 2 MiB page covers [v]. *)
Definition no_huge_at (m : memory) (root v : Z) : Prop :=
  ∀ t, path_table m root (v2 v) = Some t → has (entry_at m t (pd_index v)) PTE_PS = false.

Lemma no_huge_split_ok m root v : no_huge_at m root v → split_ok m root v.
Proof. intros H t Ht Hps. by rewrite (H t Ht) in Hps. Qed.

Lemma grown_no_huge s s' root v :
  grown s s' root → no_huge_at (mem s) root v → no_huge_at (mem s') root v.
Proof.
  intros G Hs t Ht. destruct (has _ PTE_PS) eqn:Hps; [|done].
  destruct (g_huge _ _ _ G v t Ht Hps) as [Ht' E]. rewrite E in Hps. by rewrite (Hs t Ht') in Hps.
Qed.

Lemma walk_alloc_spec s root v flags pt s' :
  wf s → phys_bound s → tree_ok s root → split_ok (mem s) root v →
  walk_alloc s root v flags = Ret (pt, s') →
  grown s s' root ∧ path_table (mem s') root (v3 v) = Some pt ∧
  (has flags MMU_FLAG_USER = true → no_huge_at (mem s) root v → user_walk (mem s') root v).
Proof.
  intros W B T Hs H. unfold walk_alloc in H.
  apply bind_Ret in H as ([pdpt s1] & H1 & H). apply bind_Ret in H as ([pd s2] & H2 & H).
  assert (has (entry_at (mem s) root (pml4_index v)) PTE_PS = false) as N1
    by (apply (tree_no_huge _ _ T [] root); auto with tree; simpl; lia).
  destruct (ensure_table_ensured s root [] root _ flags W B T (path_ok_v1 v) eq_refl pdpt s1
    ltac:(by rewrite N1) H1) as (G1 & P1 & U1). simpl app in *.
  pose proof (grown_bound _ _ _ G1 B) as B1. pose proof G1 as [W1 _ T1 _ _ _ _ _ _ _ _].
  assert (has (entry_at (mem s1) pdpt (pdpt_index v)) PTE_PS = false) as N2
    by (apply (tree_no_huge _ _ T1 [pml4_index v] pdpt); auto with tree; simpl; lia).
  destruct (ensure_table_ensured s1 root [pml4_index v] pdpt _ flags W1 B1 T1 (path_ok_v2 v) P1
    pd s2 ltac:(by rewrite N2) H2) as (G2 & P2 & U2). simpl app in *.
  pose proof (grown_bound _ _ _ G2 B1) as B2. pose proof G2 as [W2 _ T2 _ _ _ _ _ _ _ _].
  pose proof (grown_trans _ _ _ _ G1 G2) as G12.
  destruct (ensure_table_ensured s2 root (v2 v) pd _ flags W2 B2 T2 (path_ok_v3 v) P2 pt s'
    ltac:(intros Hps; split; [done|]; by apply (grown_split _ _ _ v G12 Hs)) H) as (G3 & P3 & U3).
  split_and!; [by eapply grown_trans|done|]. intros Hu Hn. split_and!.
  - apply (g_user _ _ _ G3), (g_user _ _ _ G2); eauto with tree.
  - apply (g_user _ _ _ G3); eauto with tree.
  - eapply U3; eauto. by apply (grown_no_huge _ _ _ v G12 Hn).
Qed.

End MmuOps.
