(* ===== verification/MmuMap.v ===== *)
(** * What the mapping operations do to an address space

    The theorems about [mmu_map_page], [mmu_map_page_in], [mmu_unmap_page]
    and [mmu_create_user_pml4] of mmu.c, stated on the processor's walk. *)

From S2P Require Import Prelude Memory Pmm Mmu MmuTree MmuOps.
From stdpp Require Import options.
Import Pmm Mmu MmuTree MmuOps.

Module MmuMap.

(** ** The leaf entry *)

Lemma testbit_if_lor (b : bool) e c n :
  Z.testbit (if b then Z.lor e c else e) n = Z.testbit e n || (b && Z.testbit c n).
Proof. destruct b; [apply Z.lor_spec|by rewrite orb_false_r]. Qed.

Lemma pow2_testbit k n : 0 ≤ k → Z.testbit (2 ^ k) n = (k =? n).
Proof. intros. by apply Z.pow2_bits_eqb. Qed.

Lemma pte_entry_testbit phys flags n :
  phys mod 4096 = 0 → 0 ≤ phys < 2 ^ 52 → 0 ≤ n →
  Z.testbit (pte_entry phys flags) n =
  Z.testbit phys n || (0 =? n) ||
  (Z.testbit flags 1 && (1 =? n)) || (Z.testbit flags 2 && (2 =? n)) ||
  (Z.testbit flags 8 && (8 =? n)) || (Z.testbit flags 9 && (9 =? n)) ||
  (Z.testbit flags 63 && (63 =? n)).
Proof.
  intros Hal Hr Hn. unfold pte_entry. rewrite !testbit_if_lor, Z.lor_spec.
  change 0xFFF with (2 ^ 12 - 1). rewrite land_not64 by lia. change (2 ^ 12) with 4096.
  rewrite Hal, Z.sub_0_r, has_nx, has_global.
  change MMU_FLAG_WRITE with PTE_RW. change MMU_FLAG_USER with PTE_USER.
  change MMU_FLAG_COW with PTE_COW. rewrite has_rw, has_user, has_cow.
  change PTE_PRESENT with (2 ^ 0). change PTE_RW with (2 ^ 1). change PTE_USER with (2 ^ 2).
  change PTE_COW with (2 ^ 9). change (Z.shiftl 1 8) with (2 ^ 8). change (Z.shiftl 1 63) with (2 ^ 63).
  by rewrite !pow2_testbit by lia.
Qed.

Lemma hw_testbit n : 0 ≤ n → Z.testbit HW_ADDR n = (12 <=? n) && (n <? 52).
Proof.
  intros Hn. change HW_ADDR with (Z.shiftl (Z.ones 40) 12).
  rewrite Z.shiftl_spec by lia. destruct (12 <=? n) eqn:E; bsimp.
  - rewrite Z.testbit_ones_nonneg by lia.
    destruct (n <? 52) eqn:E'; bsimp; apply Z.ltb_lt || apply Z.ltb_ge; lia.
  - by rewrite Z.testbit_neg_r by lia.
Qed.

Lemma bound_bits e : 0 ≤ e → (∀ n, 64 ≤ n → Z.testbit e n = false) → 0 ≤ e < 2 ^ 64.
Proof.
  intros He H. split; [done|]. destruct (decide (e < 2 ^ 64)) as [|Hge]; [done|].
  exfalso. assert (64 ≤ Z.log2 e) as Hl by (apply Z.log2_le_pow2; lia).
  specialize (H _ Hl). rewrite Z.bit_log2 in H by lia. done.
Qed.

Lemma pte_entry_range phys flags :
  phys mod 4096 = 0 → 0 ≤ phys < 2 ^ 52 → 0 ≤ pte_entry phys flags < 2 ^ 64.
Proof.
  intros Hal Hr. apply bound_bits.
  - unfold pte_entry. change 0xFFF with (2 ^ 12 - 1). rewrite land_not64 by lia.
    repeat case_match; repeat (apply Z.lor_nonneg; split); dlia || (cbv; congruence).
  - intros n Hn. rewrite pte_entry_testbit, (small_testbit_high phys 52) by lia.
    rewrite !(proj2 (Z.eqb_neq _ n)) by lia. by rewrite !andb_false_r.
Qed.

(** The entry maps [phys] with the requested flags. *)
Lemma pte_entry_leaf phys flags :
  phys mod 4096 = 0 → 0 ≤ phys < 2 ^ 52 →
  leaf4k (pte_entry phys flags) = Some (phys, Z.land flags LEAF).
Proof.
  intros Hal Hr. unfold leaf4k.
  rewrite has_present, pte_entry_testbit, orb_true_r by lia. simpl.
  do 2 f_equal.
  - apply Z.bits_inj'. intros n Hn.
    rewrite Z.land_spec, hw_testbit, pte_entry_testbit by done.
    destruct (decide (12 ≤ n < 52)) as [Hin|Hout].
    + rewrite (proj2 (Z.leb_le 12 n)), (proj2 (Z.ltb_lt n 52)) by lia.
      rewrite !(proj2 (Z.eqb_neq _ n)) by lia. by rewrite !andb_false_r, !orb_false_r, andb_true_r.
    + replace ((12 <=? n) && (n <? 52)) with false
        by (symmetry; apply andb_false_iff; rewrite Z.leb_gt, Z.ltb_ge; lia).
      rewrite andb_false_r. symmetry. destruct (decide (n < 12)).
      * apply page_testbit_low; done.
      * apply (small_testbit_high phys 52); lia.
  - apply land_leaf_eq. intros n Hn.
    assert (n ∈ [1; 2; 8; 9; 63] → Z.testbit phys n = false ∧ 0 ≤ n) as Hphys.
    { intros _. repeat (apply elem_of_cons in Hn as [->|Hn];
        [split; [solve [apply page_testbit_low; lia]
          || solve [apply (small_testbit_high phys 52); lia]|lia]|]).
      by apply elem_of_nil in Hn. }
    destruct (Hphys Hn) as [Hp0 Hn0]. rewrite pte_entry_testbit, Hp0 by done.
    repeat (apply elem_of_cons in Hn as [->|Hn];
      [simpl; rewrite ?andb_false_r, ?andb_true_r, ?orb_false_r; done|]).
    by apply elem_of_nil in Hn.
Qed.

(** ** Writing one page-table entry *)

(** [s'] is [s] with the leaf entry of the page of [v] replaced by [e]. *)
Record leaf_written (s s' : pmm) (root v e : Z) : Prop := {
  lw_wf : wf s';
  lw_regions : regions s' = regions s;
  lw_tree : tree_ok s' root;
  lw_free : ∀ x, free_frame s' x ↔ free_frame s x;
  lw_paths : ∀ q, path_ok q → path_table (mem s') root q = path_table (mem s) root q;
  lw_same : ∀ w, vpn w = vpn v → translate (mem s') root w = leaf4k e;
  lw_other : ∀ w, vpn w ≠ vpn v → translate (mem s') root w = translate (mem s) root w;
  lw_bytes : ∀ a b, data_frame s root a → a ≤ b < a + 4096 → rd8 (mem s') b = rd8 (mem s) b;
  lw_upper : ∀ q t j, path_ok q → (length q ≤ 2)%nat → path_table (mem s) root q = Some t →
    0 ≤ j < 512 → entry_at (mem s') t j = entry_at (mem s) t j;
}.

Lemma leaf_write s root v pt e :
  wf s → tree_ok s root → path_table (mem s) root (v3 v) = Some pt → 0 ≤ e < 2 ^ 64 →
  leaf_written s (with_mem s (set_entry (mem s) pt (pt_index v) e)) root v e.
Proof.
  intros W T Hpt He. pose proof (tree_tables _ _ T _ _ (path_ok_v3 v) Hpt) as Htok.
  pose proof (pt_index_range v) as Hi.
  destruct (with_mem_wf s (set_entry (mem s) pt (pt_index v) e) W) as [W' Hfree].
  { intros b Hb. apply rd8_set_entry.
    destruct (decide (pt ≤ b < pt + 4096)); [|lia]. by destruct (table_not_bitmap s pt b). }
  set (s' := with_mem s (set_entry (mem s) pt (pt_index v) e)) in *.
  assert (∀ q t j, path_ok q → path_table (mem s) root q = Some t → 0 ≤ j < 512 →
    (q, j) ≠ (v3 v, pt_index v) → entry_at (mem s') t j = entry_at (mem s) t j) as Hagree.
  { intros q t j Hq Ht Hj Hne. apply entry_set_ne; auto; [by destruct Htok| |].
    - by destruct (tree_tables _ _ T _ _ Hq Ht).
    - intros [= -> ->]. by rewrite (tree_inj _ _ T q (v3 v) pt Hq (path_ok_v3 v) Ht Hpt) in Hne. }
  assert (∀ q, path_ok q → ¬ (v3 v ++ [pt_index v]) `prefix_of` q) as Hpre.
  { intros q [Hl _] H%prefix_length. simpl in H. lia. }
  assert (∀ q, path_ok q → path_table (mem s') root q = path_table (mem s) root q) as Hpaths.
  { intros q Hq. apply (path_stable s s' root (v3 v) pt (pt_index v)); auto with tree. }
  split; try done.
  - apply (tree_sub s s' root); auto; [intros; by apply Hfree|intros q t Hq; by rewrite Hpaths|].
    intros q t j Hl Hq Ht Hj. rewrite (Hagree q t j); auto. intros [= -> ->]. simpl in Hl. lia.
  - intros w (E4 & E3 & E2 & E1)%vpn_eq. unfold translate. rewrite E4, E3, E2, E1.
    rewrite Hpaths, Hpt by auto with tree. subst s'. cbn [mem with_mem].
    by rewrite entry_set_same, w64_small.
  - intros w Hw. eapply (translate_stable s s' root (v3 v) pt (pt_index v)); auto with tree.
    intros [= E4 E3 E2 E1]. apply Hw, vpn_eq. auto.
  - intros a b (Hal & _ & _ & Ht) Hb. apply rd8_set_entry.
    pose proof (Ht _ pt (path_ok_v3 v) Hpt). destruct Htok as (? & _). dlia.
  - intros q t j Hq Hl Ht Hj. apply (Hagree q); auto. intros [= -> ->]. simpl in Hl. lia.
Qed.

(** A successful mapping: growth, then one leaf. *)
Record mapped (s s' : pmm) (root virt phys flags : Z) : Prop := {
  mp_wf : wf s';
  mp_regions : regions s' = regions s;
  mp_tree : tree_ok s' root;
  mp_free : ∀ x, free_frame s' x → free_frame s x;
  mp_same : ∀ w, vpn w = vpn virt → hw_translate (mem s') root w = Some (phys, Z.land flags LEAF);
  mp_other : ∀ w, vpn w ≠ vpn virt → hw_translate (mem s') root w = hw_translate (mem s) root w;
  mp_bytes : ∀ a b, data_frame s root a → a ≤ b < a + 4096 → rd8 (mem s') b = rd8 (mem s) b;
  mp_data : ∀ a, data_frame s root a → data_frame s' root a;
}.

Lemma map_leaf s s1 root virt pt phys flags :
  tree_ok s root → grown s s1 root → path_table (mem s1) root (v3 virt) = Some pt →
  phys mod 4096 = 0 → 0 ≤ phys < 2 ^ 52 →
  let s' := with_mem s1 (set_entry (mem s1) pt (pt_index virt) (pte_entry phys flags)) in
  mapped s s' root virt phys flags ∧ leaf_written s1 s' root virt (pte_entry phys flags).
Proof.
  intros T G Hpt Hal Hr s'. pose proof G as [W1 Hr1 T1 Hf1 _ Ht1 Hd1 Hb1 _ _ _].
  pose proof (leaf_write s1 root virt pt _ W1 T1 Hpt (pte_entry_range phys flags Hal Hr)) as L.
  fold s' in L. clearbody s'. pose proof L as [W' Hr' T' Hf' Hp' Hs' Ho' Hb' _].
  split; [|done]. split; try done.
  - congruence.
  - intros x Hx%Hf'. auto.
  - intros w Hw. by rewrite hw_translate_eq, Hs', pte_entry_leaf.
  - intros w Hw. by rewrite !hw_translate_eq, Ho', Ht1.
  - intros a b Ha Hb. rewrite (Hb' a b) by auto. eauto.
  - intros a Ha%Hd1. destruct Ha as (? & Hnf & Hbm & Htab). split_and!; [done|by rewrite Hf'| |].
    + intros b Hb (r & Hin & ?). rewrite Hr' in Hin. apply (Hbm b Hb). by exists r.
    + intros q t Hq. rewrite Hp' by done. by apply Htab.
Qed.

(** ** The software walks *)

Lemma next_inv m t i t' :
  next m t i = Some t' → has (entry_at m t i) PTE_PRESENT = true ∧
  has (entry_at m t i) PTE_PS = false ∧ table_addr (entry_at m t i) = t'.
Proof.
  intros H. destruct (proj1 (next_present m t i)) as [Hp Hs]; [by rewrite H|].
  unfold next in H. rewrite Hp, Hs in H. by injection H.
Qed.

Lemma next_None m t i :
  next m t i = None →
  negb (has (entry_at m t i) PTE_PRESENT) || has (entry_at m t i) PTE_PS = true.
Proof. unfold next. by destruct (has _ PTE_PRESENT), (has _ PTE_PS). Qed.

Lemma path3_inv m root v pt :
  path_table m root (v3 v) = Some pt → ∃ t3 t2,
    next m root (pml4_index v) = Some t3 ∧ next m t3 (pdpt_index v) = Some t2 ∧
    next m t2 (pd_index v) = Some pt.
Proof.
  simpl. destruct (next m root _) as [t3|] eqn:E4; simpl; [|done].
  destruct (next m t3 _) as [t2|] eqn:E3; simpl; [|done].
  destruct (next m t2 _) as [t1|] eqn:E2; simpl; [|done]. intros [= ->]. eauto.
Qed.

(** [pte_lookup] finds the slot the tree says. *)
Lemma pte_lookup_path s root v :
  tree_ok s root →
  pte_lookup (mem s) root v =
  pt ← path_table (mem s) root (v3 v); Some (pt + 8 * pt_index v).
Proof.
  intros T. unfold pte_lookup. cbn [path_table].
  assert (has (entry_at (mem s) root (pml4_index v)) PTE_PS = false) as N
    by (apply (tree_no_huge _ _ T [] root); auto with tree; simpl; lia).
  destruct (next (mem s) root _) as [t3|] eqn:E4; cbn [mbind option_bind].
  2:{ unfold next in E4. rewrite N, andb_true_r in E4. by destruct (has _ PTE_PRESENT). }
  apply next_inv in E4 as (-> & _ & ->). simpl negb. cbv iota.
  destruct (next (mem s) t3 _) as [t2|] eqn:E3; cbn [mbind option_bind].
  2:{ by rewrite (next_None _ _ _ E3). }
  apply next_inv in E3 as (-> & -> & ->). simpl negb. cbn [orb].
  destruct (next (mem s) t2 _) as [t1|] eqn:E2; cbn [mbind option_bind].
  2:{ by rewrite (next_None _ _ _ E2). }
  by apply next_inv in E2 as (-> & -> & ->).
Qed.

Lemma user_page_present_walk m root v pt :
  root ≠ 0 → path_table m root (v3 v) = Some pt → user_walk m root v →
  has (entry_at m pt (pt_index v)) PTE_PRESENT = true →
  has (entry_at m pt (pt_index v)) PTE_USER = true →
  user_page_present m root v = true.
Proof.
  intros Hroot (t3 & t2 & N4 & N3 & N2)%path3_inv
    ((r & [= <-] & _ & U4) & (t3' & P3 & _ & U3) & (t2' & P2 & _ & U2)) Hpr Hus.
  simpl in P3, P2. rewrite N4 in P3, P2. simpl in P3, P2. rewrite N3 in P2. simplify_eq/=.
  apply next_inv in N4 as (H4 & _ & <-), N3 as (H3 & S3 & <-), N2 as (H2 & S2 & <-).
  unfold user_page_present. rewrite (proj2 (Z.eqb_neq _ _)) by done.
  by rewrite H4, U4, H3, U3, S3, H2, U2, S2, Hpr, Hus.
Qed.

(** ** Mapping a page *)

(** The common core of the two map functions. *)
Lemma map_core s root virt phys flags pt s1 :
  wf s → phys_bound s → tree_ok s root → split_ok (mem s) root virt →
  phys mod 4096 = 0 → 0 ≤ phys < 2 ^ 52 →
  walk_alloc s root virt flags = Ret (pt, s1) →
  let s' := with_mem s1 (set_entry (mem s1) pt (pt_index virt) (pte_entry phys flags)) in
  mapped s s' root virt phys flags ∧ path_table (mem s') root (v3 virt) = Some pt ∧
  entry_at (mem s') pt (pt_index virt) = pte_entry phys flags ∧
  (has flags MMU_FLAG_USER = true → no_huge_at (mem s) root virt → root ≠ 0 →
     user_page_present (mem s') root virt = true).
Proof.
  intros W B T Hs Hal Hr Hw s'.
  destruct (walk_alloc_spec s root virt flags pt s1 W B T Hs Hw) as (G & Hpt & Hu).
  destruct (map_leaf s s1 root virt pt phys flags T G Hpt Hal Hr) as [M L]. fold s' in M, L.
  assert (entry_at (mem s') pt (pt_index virt) = pte_entry phys flags) as He.
  { subst s'. cbn [mem with_mem]. rewrite entry_set_same. apply w64_small.
    by apply pte_entry_range. }
  assert (path_table (mem s') root (v3 virt) = Some pt) as Hpt'
    by (rewrite (lw_paths _ _ _ _ _ L); auto with tree).
  split_and!; auto. intros Hfl Hn Hroot.
  apply (user_page_present_walk _ _ _ pt); auto.
  - assert (∀ q j, path_ok q → (length q ≤ 2)%nat → 0 ≤ j < 512 →
      user_entry (mem s1) root q j → user_entry (mem s') root q j) as Hue.
    { intros q j Hq Hl Hj (t & Ht & Hn' & Hus). exists t.
      rewrite (lw_paths _ _ _ _ _ L) by done. split; [done|]. unfold next.
      by rewrite (lw_upper _ _ _ _ _ L q t j). }
    destruct (Hu Hfl Hn) as (U4 & U3 & U2).
    split_and!; apply Hue; auto with tree; simpl; lia.
  - rewrite He, has_present, pte_entry_testbit by lia. by rewrite orb_true_r.
  - change MMU_FLAG_USER with PTE_USER in Hfl. rewrite has_user in Hfl.
    rewrite He, has_user, pte_entry_testbit, Hfl, Z.eqb_refl by lia.
    by rewrite andb_true_r, orb_true_r.
Qed.

Lemma mmu_map_page_in_mapped s root virt phys flags s' :
  wf s → phys_bound s → tree_ok s root → split_ok (mem s) root virt → 0 ≤ phys < 2 ^ 52 →
  mmu_map_page_in s root virt phys flags = Ret (0, s') →
  mapped s s' root virt phys flags ∧
  (has flags MMU_FLAG_USER = true → no_huge_at (mem s) root virt →
     user_page_present (mem s') root virt = true).
Proof.
  intros W B T Hs Hr H. unfold mmu_map_page_in in H. case_if in H; [done|]. bsimp.
  apply bind_Ret in H as ([pt s1] & Hw & H).
  rewrite has_offset in *.
  destruct (map_core s root virt phys flags pt s1 W B T Hs ltac:(done) Hr Hw) as (M & _ & _ & Hu).
  case_if in H; [done|]. injection H as <-. split; [done|]. intros Hfl Hn. by apply Hu.
Qed.

(** C5: A successful [mmu_map_page_in] makes exactly the page of [virt]
    translate to [phys] with the requested RW, user, global, COW and NX bits:
    every other page of the address space keeps its translation, memory in
    other allocated frames is untouched, tables come only from free frames,
    and both the allocator and the table tree stay well formed.  With
    MMU_FLAG_USER the page also passes the system-call layer's user check. *)
Theorem mmu_map_page_in_spec s root virt phys flags s' :
  wf s → phys_bound s → tree_ok s root → split_ok (mem s) root virt → 0 ≤ phys < 2 ^ 52 →
  mmu_map_page_in s root virt phys flags = Ret (0, s') →
  wf s' ∧ tree_ok s' root ∧
  (∀ w, vpn w = vpn virt → hw_translate (mem s') root w = Some (phys, Z.land flags LEAF)) ∧
  (∀ w, vpn w ≠ vpn virt → hw_translate (mem s') root w = hw_translate (mem s) root w) ∧
  (∀ x, free_frame s' x → free_frame s x) ∧
  (∀ a b, data_frame s root a → a ≤ b < a + 4096 → rd8 (mem s') b = rd8 (mem s) b) ∧
  (has flags MMU_FLAG_USER = true → no_huge_at (mem s) root virt →
     user_page_present (mem s') root virt = true).
Proof.
  intros W B T Hs Hr H.
  destruct (mmu_map_page_in_mapped s root virt phys flags s' W B T Hs Hr H)
    as [[? ? ? ? ? ? ? _] Hu]. by split_and!.
Qed.

(** ** Mapping the same page again *)

Lemma ensure_table_existing s parent i flags t :
  next (mem s) parent i = Some t → ∃ s', ensure_table s parent i flags = Ret (t, s').
Proof.
  intros (Hp & Hs & <-)%next_inv. unfold ensure_table. rewrite Hp, Hs. by eexists.
Qed.

Lemma path_snoc_next m root p i t t' :
  path_table m root p = Some t → path_table m root (p ++ [i]) = Some t' → next m t i = Some t'.
Proof. intros Ht. by rewrite path_table_snoc, Ht. Qed.

(** On an existing path the walk allocates nothing. *)
Lemma walk_alloc_existing s root v flags pt :
  wf s → phys_bound s → tree_ok s root → path_table (mem s) root (v3 v) = Some pt →
  ∃ s', walk_alloc s root v flags = Ret (pt, s') ∧ grown s s' root.
Proof.
  intros W B T Hpt. pose proof (path3_inv _ _ _ _ Hpt) as (t3 & t2 & N4 & N3 & N2).
  assert (path_table (mem s) root [pml4_index v] = Some t3) as P3 by (simpl; by rewrite N4).
  assert (path_table (mem s) root (v2 v) = Some t2) as P2
    by (simpl; rewrite N4; simpl; by rewrite N3).
  assert (split_ok (mem s) root v) as Hs.
  { intros t Ht Hps. rewrite P2 in Ht. injection Ht as <-. apply next_inv in N2 as (_ & ? & _). congruence. }
  destruct (ensure_table_existing s root (pml4_index v) flags t3 N4) as [s1 E1].
  destruct (ensure_table_ensured s root [] root (pml4_index v) flags W B T (path_ok_v1 v) eq_refl
    t3 s1 ltac:(apply next_inv in N4 as (_ & ? & _); congruence) E1) as (G1 & _ & _).
  pose proof G1 as [W1 _ T1 _ M1 _ _ _ _ _ _]. pose proof (grown_bound _ _ _ G1 B) as B1.
  pose proof (path_snoc_next _ root [_] (pdpt_index v) t3 t2 (M1 _ _ (path_ok_v1 v) P3)
    (M1 _ _ (path_ok_v2 v) P2)) as N3'.
  destruct (ensure_table_existing s1 t3 (pdpt_index v) flags t2 N3') as [s2 E2].
  destruct (ensure_table_ensured s1 root [pml4_index v] t3 (pdpt_index v) flags W1 B1 T1
    (path_ok_v2 v) (M1 _ _ (path_ok_v1 v) P3) t2 s2
    ltac:(apply next_inv in N3' as (_ & ? & _); congruence) E2) as (G2 & _ & _).
  pose proof (grown_trans _ _ _ _ G1 G2) as G12. pose proof G12 as [_ _ _ _ M2 _ _ _ _ _ _].
  pose proof (path_snoc_next _ root (v2 v) (pd_index v) t2 pt (M2 _ _ (path_ok_v2 v) P2)
    (M2 _ _ (path_ok_v3 v) Hpt)) as N2'.
  destruct (ensure_table_existing s2 t2 (pd_index v) flags pt N2') as [s3 E3].
  exists s3. assert (walk_alloc s root v flags = Ret (pt, s3)) as Hw
    by (unfold walk_alloc; rewrite E1; simpl; rewrite E2; simpl; exact E3).
  split; [done|]. by apply (walk_alloc_spec s root v flags pt s3).
Qed.

Lemma pte_table_addr phys flags :
  phys mod 4096 = 0 → 0 ≤ phys < 2 ^ 52 →
  (table_addr (pte_entry phys flags) =? phys) = negb (has flags MMU_FLAG_NOEXEC).
Proof.
  intros Hal Hr. pose proof (pte_entry_range phys flags Hal Hr) as He. rewrite has_nx.
  pose proof (pte_entry_leaf phys flags Hal Hr) as Hl. unfold leaf4k in Hl. case_match; [|done].
  injection Hl as Hl _.
  pose proof (pte_entry_testbit phys flags 63 Hal Hr ltac:(lia)) as H63.
  rewrite (small_testbit_high phys 52) in H63 by lia.
  change (63 =? 63) with true in H63. rewrite !(proj2 (Z.eqb_neq _ 63)), !andb_false_r in H63 by lia.
  rewrite andb_true_r in H63. cbn [orb] in H63.
  destruct (Z.testbit flags 63) eqn:E; simpl negb; rewrite ?E in H63.
  - apply Z.eqb_neq. intros Heq. rewrite table_addr_eq in Heq by done.
    rewrite (small_testbit_high _ 53) in H63 by dlia. done.
  - apply Z.eqb_eq. rewrite <- Hl at 2. symmetry. apply land_hw_addr; [done|].
    assert (pte_entry phys flags < 2 ^ 52); [|rewrite table_addr_eq by done; dlia].
    destruct (decide (pte_entry phys flags < 2 ^ 52)) as [|Hge]; [done|exfalso].
    assert (52 ≤ Z.log2 (pte_entry phys flags)) as Hlog by (apply Z.log2_le_pow2; lia).
    pose proof (Z.bit_log2 (pte_entry phys flags) ltac:(lia)) as Hb.
    rewrite pte_entry_testbit, (small_testbit_high phys 52), E in Hb by lia.
    rewrite !(proj2 (Z.eqb_neq _ (Z.log2 _))), !andb_false_r in Hb by lia. done.
Qed.

(** Mapping a page a second time to the frame it already has succeeds,
    without using memory, unless the first mapping was no-execute: the NX bit
    is not masked off the existing entry's address, so such a page can never
    be mapped again, not even identically. *)
Theorem mmu_map_page_in_again s root virt phys flags flags2 s1 :
  wf s → phys_bound s → tree_ok s root → split_ok (mem s) root virt → 0 ≤ phys < 2 ^ 52 →
  mmu_map_page_in s root virt phys flags = Ret (0, s1) →
  ∃ s2, mmu_map_page_in s1 root virt phys flags2 =
    Ret ((if has flags MMU_FLAG_NOEXEC then -1 else 0), s2).
Proof.
  intros W B T Hs Hr H. unfold mmu_map_page_in in H. case_if in H; [done|]. bsimp.
  rewrite has_offset in *. apply bind_Ret in H as ([pt s0] & Hw & H).
  case_if in H; [done|]. injection H as <-.
  destruct (map_core s root virt phys flags pt s0 W B T Hs ltac:(done) Hr Hw) as (M & Hpt & He & _).
  set (s1 := with_mem s0 _) in *. clearbody s1. destruct M as [W1 Hreg T1 Hfree _ _ _ _].
  assert (phys_bound s1) as B1 by (intros r; rewrite Hreg; apply B).
  destruct (walk_alloc_existing s1 root virt flags2 pt W1 B1 T1 Hpt) as (s2 & Hw2 & G).
  unfold mmu_map_page_in. rewrite !(proj2 (has_offset _)) by done.
  rewrite (proj2 (Z.eqb_neq root 0)) by done. cbn [orb]. rewrite Hw2. cbn [mbind result_bind].
  rewrite (g_pte _ _ _ G _ pt _ (path_ok_v3 virt) eq_refl Hpt), He by auto with tree.
  change (Z.land phys (not64 0xFFF)) with (table_addr phys).
  rewrite (table_addr_eq phys) by lia.
  replace (phys - phys mod 4096) with phys by lia. rewrite pte_table_addr by (done || lia).
  rewrite has_present, pte_entry_testbit by lia. rewrite orb_true_r. cbn [andb].
  rewrite negb_involutive. destruct (has flags MMU_FLAG_NOEXEC); by eexists.
Qed.

(** ** Unmapping *)

Lemma unmap_existing s root virt pt :
  tree_ok s root → virt mod 4096 = 0 → path_table (mem s) root (v3 virt) = Some pt →
  has (entry_at (mem s) pt (pt_index virt)) PTE_PRESENT = true →
  mmu_unmap_page root s virt = Ret (with_mem s (set_entry (mem s) pt (pt_index virt) 0)).
Proof.
  intros T Hal (t3 & t2 & N4 & N3 & N2)%path3_inv Hpr.
  apply next_inv in N4 as (H4 & _ & <-), N3 as (H3 & S3 & <-), N2 as (H2 & S2 & <-).
  unfold mmu_unmap_page. rewrite (proj2 (has_offset virt)) by done.
  by rewrite H4, H3, S3, H2, S2, Hpr.
Qed.

(** A page mapped by [mmu_map_page] can be unmapped; afterwards it has no
    translation, every other page translates as before the mapping, and the
    frame allocator and the tables are well formed. *)
Theorem mmu_map_unmap_roundtrip s root virt phys flags s1 :
  wf s → phys_bound s → tree_ok s root → split_ok (mem s) root virt → 0 ≤ phys < 2 ^ 52 →
  mmu_map_page root s virt phys flags = Ret s1 →
  hw_translate (mem s1) root virt = Some (phys, Z.land flags LEAF) ∧
  ∃ s2, mmu_unmap_page root s1 virt = Ret s2 ∧ wf s2 ∧ tree_ok s2 root ∧
    (∀ w, vpn w = vpn virt → hw_translate (mem s2) root w = None) ∧
    (∀ w, vpn w ≠ vpn virt → hw_translate (mem s2) root w = hw_translate (mem s) root w).
Proof.
  intros W B T Hs Hr H. unfold mmu_map_page in H. case_if in H; [done|].
  rewrite has_offset in *. apply bind_Ret in H as ([pt s0] & Hw & H).
  case_if in H; [done|]. injection H as <-.
  destruct (map_core s root virt phys flags pt s0 W B T Hs ltac:(done) Hr Hw) as (M & Hpt & He & _).
  set (s1 := with_mem s0 _) in *. clearbody s1. destruct M as [W1 _ T1 _ Hsame Hother _ _].
  split; [by apply Hsame|]. eexists. split.
  { apply (unmap_existing s1 root virt pt); auto.
    rewrite He, has_present, pte_entry_testbit by lia. by rewrite orb_true_r. }
  destruct (leaf_write s1 root virt pt 0 W1 T1 Hpt ltac:(lia)) as [W2 _ T2 _ _ Hs2 Ho2 _ _].
  split_and!; try done.
  - intros w Hv. by rewrite hw_translate_eq, Hs2.
  - intros w Hv. rewrite hw_translate_eq, Ho2, <- hw_translate_eq by done. by apply Hother.
Qed.

Lemma mmu_map_page_mapped s root virt phys flags s' :
  wf s → phys_bound s → tree_ok s root → split_ok (mem s) root virt → 0 ≤ phys < 2 ^ 52 →
  mmu_map_page root s virt phys flags = Ret s' →
  mapped s s' root virt phys flags ∧
  (∀ v, no_huge_at (mem s) root v → no_huge_at (mem s') root v).
Proof.
  intros W B T Hs Hr H. unfold mmu_map_page in H. case_if in H; [done|].
  rewrite has_offset in *. apply bind_Ret in H as ([pt s0] & Hw & H).
  case_if in H; [done|]. injection H as <-.
  destruct (walk_alloc_spec s root virt flags pt s0 W B T Hs Hw) as (G & Hpt & _).
  destruct (map_leaf s s0 root virt pt phys flags T G Hpt ltac:(done) Hr) as [M L]. split; [done|].
  intros v Hn t Ht. rewrite (lw_paths _ _ _ _ _ L) in Ht by auto with tree.
  rewrite (lw_upper _ _ _ _ _ L _ t _ (path_ok_v2 v) ltac:(simpl; lia) Ht) by auto with tree.
  by apply (grown_no_huge _ _ _ v G Hn).
Qed.

(** ** Kernel section protection *)

(** The conversion of a kernel-image address subtracts the wrong base. *)
Lemma virt_to_phys_image v :
  HIGHER_HALF_BASE ≤ v < 2 ^ 64 → virt_to_phys v = v - HHDM_BASE.
Proof.
  intros Hv. unfold virt_to_phys, hhdm_to_phys. unfold HIGHER_HALF_BASE, HHDM_BASE in *.
  rewrite (proj2 (Z.leb_le _ _)) by lia. apply w64_small. lia.
Qed.

(** The page of the kernel image at offset [o] is looked for at a user
    address, in slot 255 of the root. *)
Lemma protect_virt o :
  0 ≤ o < 2 ^ 30 →
  pml4_index (phys_to_higher_half (HIGHER_HALF_BASE + o - HHDM_BASE)) = 255.
Proof.
  intros Ho. unfold phys_to_higher_half, pml4_index, HIGHER_HALF_BASE, HHDM_BASE, w64.
  replace (_ + o - _ + _) with (0x7FFF00000000 + o + 1 * 2 ^ 64) by lia.
  rewrite Z.mod_add, Z.mod_small by lia. change 0x1FF with (Z.ones 9).
  rewrite Z.land_ones, Z.shiftr_div_pow2 by lia. dlia.
Qed.

Section Protect.
Context (root : Z) (s0 : pmm).

(** Only slot 255 of the address space has changed. *)
Record upper_kept (s : pmm) : Prop := {
  uk_wf : wf s;
  uk_regions : regions s = regions s0;
  uk_tree : tree_ok s root;
  uk_huge : ∀ v, pml4_index v = 255 → no_huge_at (mem s) root v;
  uk_same : ∀ w, pml4_index w ≠ 255 → hw_translate (mem s) root w = hw_translate (mem s0) root w;
}.

Lemma protect_range_kept start end_ flags s s' :
  phys_bound s0 → HIGHER_HALF_BASE ≤ start ≤ end_ → end_ < HIGHER_HALF_BASE + 2 ^ 30 - 4096 →
  upper_kept s →
  protect_range root (virt_to_phys start) (virt_to_phys end_) flags s = Ret s' → upper_kept s'.
Proof.
  intros B0 Hse He K H. unfold protect_range in H.
  rewrite !virt_to_phys_image in H by (unfold HIGHER_HALF_BASE in *; lia).
  rewrite align_down_4096, align_up_4096 in H by (unfold HIGHER_HALF_BASE, HHDM_BASE in *; lia).
  unfold HIGHER_HALF_BASE, HHDM_BASE in *.
  refine (rfor_inv (λ (_ : Z) s, upper_kept s) _ _ 4096 _ s s' _ _ _ K _ H); [lia|dlia|dlia|].
  intros i s1 s2 Hi _ [W1 Hr1 T1 Hh1 Hs1] Hm.
  assert (pml4_index (phys_to_higher_half i) = 255) as Hv.
  { pose proof (protect_virt (i - 0x7FFF80000000)) as Hp. unfold HIGHER_HALF_BASE, HHDM_BASE in Hp.
    rewrite <- Hp by dlia. do 2 f_equal. lia. }
  destruct (mmu_map_page_mapped s1 root (phys_to_higher_half i) i flags s2 W1) as [M Hn]; auto.
  - intros r. rewrite Hr1. apply B0.
  - by apply no_huge_split_ok, Hh1.
  - dlia.
  - destruct M as [W2 Hr2 T2 _ _ Hother _ _]. split; auto.
    + congruence.
    + intros w Hw. rewrite Hother; [auto|]. intros (E4 & _)%vpn_eq. congruence.
Qed.
End Protect.

(** [mmu_protect_kernel_sections] leaves the translation of every
    kernel-half address exactly as it was: the pages it maps with the section
    permissions all lie at user addresses, because [virt_to_phys] subtracts
    [HHDM_BASE] from the kernel image's addresses. *)
Theorem mmu_protect_kernel_sections_no_effect root s k s' :
  wf s → phys_bound s → tree_ok s root →
  (∀ v, pml4_index v = 255 → no_huge_at (mem s) root v) →
  Forall (λ se, HIGHER_HALF_BASE ≤ se.1 ≤ se.2 ∧ se.2 < HIGHER_HALF_BASE + 2 ^ 30 - 4096)
    [(text_start k, text_end k); (rodata_start k, rodata_end k);
     (data_start k, data_end k); (bss_start k, bss_end k)] →
  mmu_protect_kernel_sections root k s = Ret s' →
  wf s' ∧ tree_ok s' root ∧
  ∀ w, 256 ≤ pml4_index w → hw_translate (mem s') root w = hw_translate (mem s) root w.
Proof.
  intros W B T Hn Hk H. unfold mmu_protect_kernel_sections in H. cbv zeta in H.
  rewrite !Forall_cons in Hk. destruct Hk as ([? ?] & [? ?] & [? ?] & [? ?] & _). simpl in *.
  apply bind_Ret in H as (s1 & P1 & H). apply bind_Ret in H as (s2 & P2 & H).
  apply bind_Ret in H as (s3 & P3 & H).
  assert (upper_kept root s s) as K by by split.
  apply (protect_range_kept root s) in P1; auto. apply (protect_range_kept root s) in P2; auto.
  apply (protect_range_kept root s) in P3; auto. apply (protect_range_kept root s) in H; auto.
  destruct H as [W' _ T' _ Hs]. split_and!; auto. intros w Hw. apply Hs. lia.
Qed.

End MmuMap.
