(* ===== verification/MmuSpaces.v ===== *)
(** * Address-space creation and the direct map

    [mmu_create_user_pml4] gives a new root that shares the kernel half of
    the address space; [mmu_map_hhdm_2m] builds the direct map of physical
    memory at [HHDM_BASE]. *)

From S2P Require Import Prelude Memory Pmm Mmu MmuTree MmuOps.
From stdpp Require Import options.
Import Pmm Mmu MmuTree MmuOps.

Module MmuSpaces.

(** ** New user address spaces *)

(** The loop copying the kernel half of the root. *)
Lemma copy_spec m f kroot :
  f mod 4096 = 0 → kroot mod 4096 = 0 → f ≠ kroot →
  let m' := for_range 256 512 (λ i m, set_entry m f i (entry_at m kroot i)) m in
  (∀ j, 0 ≤ j < 512 →
     entry_at m' f j = if decide (256 ≤ j) then entry_at m kroot j else entry_at m f j) ∧
  (∀ b, b < f ∨ f + 4096 ≤ b → rd8 m' b = rd8 m b).
Proof.
  intros Hf Hk Hne.
  enough (∀ m', m' = for_range 256 512 (λ i m, set_entry m f i (entry_at m kroot i)) m →
    (∀ j, 0 ≤ j < 512 → entry_at m' f j =
       if decide (256 ≤ j < 512) then entry_at m kroot j else entry_at m f j) ∧
    (∀ b, b < f ∨ f + 4096 ≤ b → rd8 m' b = rd8 m b)) as H.
  { destruct (H _ eq_refl) as [H1 H2]. split; [|done]. intros j Hj. rewrite H1 by done.
    repeat case_decide; done || lia. }
  intros m' ->. refine (for_range_inv (λ (i : Z) (m' : memory),
    (∀ j, 0 ≤ j < 512 → entry_at m' f j =
       if decide (256 ≤ j < i) then entry_at m kroot j else entry_at m f j) ∧
    (∀ b, b < f ∨ f + 4096 ≤ b → rd8 m' b = rd8 m b)) 256 512 _ m _ _ _); [lia| |].
  - split; [|done]. intros j Hj. by rewrite decide_False by lia.
  - intros i m' Hi [IH1 IH2].
    assert (entry_at m' kroot i = entry_at m kroot i) as E
      by (apply entry_ext; [lia|]; intros b Hb; apply IH2; dlia).
    split.
    + intros j Hj. destruct (decide (j = i)) as [->|Hji].
      * rewrite entry_set_same, w64_small, E by apply entry_range. by rewrite decide_True by lia.
      * rewrite entry_set_ne, IH1 by (done || lia || congruence). repeat case_decide; done || lia.
    + intros b Hb. rewrite rd8_set_entry by lia. by apply IH2.
Qed.

(** If every entry of a tree keeps its value, so does every path. *)
Lemma paths_agree m m' root :
  (∀ q t j, path_ok q → path_table m root q = Some t → 0 ≤ j < 512 →
     entry_at m' t j = entry_at m t j) →
  ∀ q, path_ok q → path_table m' root q = path_table m root q.
Proof.
  intros H q. induction q as [|j q IH] using rev_ind; intros Hq; [done|].
  apply path_ok_snoc in Hq as (Hq & _ & Hj). rewrite !path_table_snoc, IH by done.
  destruct (path_table m root q) as [t|] eqn:Et; [|done]. cbn [mbind option_bind].
  unfold next. by rewrite (H q t j).
Qed.

Lemma tree_preserved s s' root :
  tree_ok s root → regions s' = regions s → (∀ x, free_frame s' x → free_frame s x) →
  (∀ q t j, path_ok q → path_table (mem s) root q = Some t → 0 ≤ j < 512 →
     entry_at (mem s') t j = entry_at (mem s) t j) →
  tree_ok s' root ∧ (∀ q, path_ok q → path_table (mem s') root q = path_table (mem s) root q) ∧
  (∀ v, translate (mem s') root v = translate (mem s) root v).
Proof.
  intros T Hr Hfree H. pose proof (paths_agree _ _ root H) as Hpaths. split_and!; [|done|].
  - apply (tree_sub s s' root); auto; [intros q t Hq; by rewrite Hpaths|].
    intros q t j _ Hq Ht Hj. by rewrite (H q t j).
  - intros v. unfold translate. rewrite !Hpaths by auto with tree.
    destruct (path_table (mem s) root [_; _; _]) as [pt|] eqn:E3.
    { by rewrite (H _ pt _ (path_ok_v3 v) E3) by auto with tree. }
    destruct (path_table (mem s) root [_; _]) as [pd|] eqn:E2; [|done].
    by rewrite (H _ pd _ (path_ok_v2 v) E2) by auto with tree.
Qed.

(** The state [mmu_create_user_pml4] returns. *)
Lemma create_effect kroot s root s' :
  wf s → phys_bound s → tree_ok s kroot → mmu_create_user_pml4 kroot s = Ret (root, s') →
  wf s' ∧ regions s' = regions s ∧ (∀ x, free_frame s' x → free_frame s x) ∧ table_ok s' root ∧
  (∀ q t, path_ok q → path_table (mem s) kroot q = Some t → t ≠ root) ∧
  (∀ j, 0 ≤ j < 512 → entry_at (mem s') root j =
     if decide (256 ≤ j) then entry_at (mem s) kroot j else 0) ∧
  (∀ q t j, path_ok q → path_table (mem s) kroot q = Some t → 0 ≤ j < 512 →
     entry_at (mem s') t j = entry_at (mem s) t j).
Proof.
  intros W B T H. unfold mmu_create_user_pml4 in H. apply bind_Ret in H as ([f s1] & Ha & H).
  destruct (pmm_alloc_page_wf _ _ _ W Ha)
    as (W1 & _ & _ & Hr & Hal & Hpos & Hother & Hff & Hnf & Hap).
  pose proof (alloc_bound _ _ _ W B Ha) as Hb52.
  rewrite (proj2 (Z.eqb_neq f 0)) in H by lia. injection H as <- <-.
  pose proof (fresh_ne s s1 kroot f W T Ha) as Hne.
  destruct (tree_tables _ _ T [] kroot path_ok_nil eq_refl) as (Hkal & _).
  pose proof (Hne [] kroot path_ok_nil eq_refl) as Hkne.
  destruct (zero_page_spec (mem s1) f) as [Z1 Z2].
  destruct (copy_spec (zero_page (mem s1) f) f kroot Hal Hkal ltac:(done)) as [C1 C2].
  set (m' := for_range 256 512 _ _) in *.
  assert (∀ b, b < f ∨ f + 4096 ≤ b → rd8 m' b = rd8 (mem s1) b) as Hbytes.
  { intros b Hb. by rewrite C2, Z2. }
  clearbody m'.
  destruct (with_mem_wf s1 m' W1) as [W' Hfree'].
  { intros b (r & Hin & ?). apply Hbytes. rewrite Hr in Hin. destruct (Hap r Hin); lia. }
  assert (∀ q t j, path_ok q → path_table (mem s) kroot q = Some t → 0 ≤ j < 512 →
    entry_at (mem s1) t j = entry_at (mem s) t j) as Hs1.
  { intros q t j Hq Ht Hj. pose proof (tree_tables _ _ T _ _ Hq Ht) as Htok.
    apply entry_ext; [done|]. intros b Hb. apply (pmm_alloc_page_mem s f); auto.
    by apply (table_not_bitmap s t). }
  assert (table_ok (with_mem s1 m') f) as Hok.
  { split; [done|]. split; [lia|]. split; [by intros ?%Hfree'|]. simpl. by rewrite Hr. }
  split; [done|]. split; [done|].
  split; [|split; [done|split; [done|split]]].
  - intros x Hx%Hfree'. destruct (decide (x = f)) as [->|]; [done|]. by apply Hother.
  - intros j Hj. simpl. rewrite C1, Z1 by done. case_decide; [|done].
    rewrite (entry_ext (mem s1)); [by apply (Hs1 [] kroot j path_ok_nil)|done|]. intros b Hb. apply Z2. dlia.
  - intros q t j Hq Ht Hj. rewrite <- (Hs1 q t j) by done. simpl.
    pose proof (Hne q t Hq Ht). destruct (tree_tables _ _ T _ _ Hq Ht) as (? & _).
    apply entry_ext; [done|]. intros b Hb. apply Hbytes. dlia.
Qed.

Section Created.
Context (kroot root : Z) (s s' : pmm).
Context (T : tree_ok s kroot) (T' : tree_ok s' kroot) (Hroot : table_ok s' root).
Context (Hpaths : ∀ q, path_ok q → path_table (mem s') kroot q = path_table (mem s) kroot q).
Context (Hne : ∀ q t, path_ok q → path_table (mem s) kroot q = Some t → t ≠ root).
Context (Hentry : ∀ j, 0 ≤ j < 512 → entry_at (mem s') root j =
  if decide (256 ≤ j) then entry_at (mem s) kroot j else 0).
Context (Hsame : ∀ j, 0 ≤ j < 512 → entry_at (mem s') kroot j = entry_at (mem s) kroot j).

(** Paths from the new root are the kernel's, or do not exist. *)
Lemma created_paths i r :
  path_ok (i :: r) → path_table (mem s') root (i :: r) =
  if decide (256 ≤ i) then path_table (mem s) kroot (i :: r) else None.
Proof using Hpaths Hentry Hsame.
  intros Hp. pose proof Hp as [_ [Hi _]%Forall_cons]. rewrite <- Hpaths by done. simpl.
  unfold next. rewrite Hentry, Hsame by done. by case_decide.
Qed.

Lemma created_tree : tree_ok s' root.
Proof using All.
  assert (∀ p t, path_ok p → path_table (mem s') root p = Some t →
    p = [] ∧ t = root ∨ p ≠ [] ∧ path_table (mem s') kroot p = Some t) as Hcase.
  { intros [|i r] t Hp Ht; [by left; simplify_eq/=|right].
    rewrite created_paths in Ht by done. case_decide; [|done]. by rewrite Hpaths. }
  assert (∀ p, path_ok p → path_table (mem s') kroot p ≠ Some root) as Hnr.
  { intros p Hp Ht. rewrite Hpaths in Ht by done. by destruct (Hne p root). }
  split.
  - intros p t Hp [[-> ->]|[_ Ht]]%Hcase; [done| |done]. by eapply (tree_tables _ _ T').
  - intros p q t Hp Hq [[-> ->]|[Hpn Ht]]%Hcase [[-> E]|[Hqn Ht']]%Hcase; try done; subst.
    + by destruct (Hnr q).
    + by destruct (Hnr p).
    + by eapply (tree_inj _ _ T').
  - intros p t i Hl Hp [[-> ->]|[_ Ht]]%Hcase Hi; [| |done].
    + rewrite Hentry by done. case_decide; [|done].
      apply (tree_no_huge _ _ T []); auto with tree; simpl; lia.
    + by eapply (tree_no_huge _ _ T' p).
Qed.

Lemma created_translate v :
  (∀ v, translate (mem s') kroot v = translate (mem s) kroot v) →
  translate (mem s') root v = if decide (256 ≤ pml4_index v) then translate (mem s) kroot v else None.
Proof using All.
  intros Ht. rewrite <- (Ht v). unfold translate at 1. rewrite !created_paths by auto with tree.
  case_decide; [|done]. unfold translate. by rewrite !Hpaths by auto with tree.
Qed.
End Created.

(** C36: [mmu_create_user_pml4] returns a fresh root whose upper half
    translates exactly as the kernel's and whose lower half is empty; the
    kernel's address space is unchanged and both trees are well formed. *)
Theorem mmu_create_user_pml4_spec kroot s root s' :
  wf s → phys_bound s → tree_ok s kroot → mmu_create_user_pml4 kroot s = Ret (root, s') →
  wf s' ∧ tree_ok s' kroot ∧ tree_ok s' root ∧ (∀ x, free_frame s' x → free_frame s x) ∧
  (∀ q t, path_ok q → path_table (mem s) kroot q = Some t → t ≠ root) ∧
  (∀ v, hw_translate (mem s') kroot v = hw_translate (mem s) kroot v) ∧
  (∀ v, hw_translate (mem s') root v =
     if decide (256 ≤ pml4_index v) then hw_translate (mem s) kroot v else None).
Proof.
  intros W B T H.
  destruct (create_effect kroot s root s' W B T H) as (W' & Hr & Hfree & Hok & Hne & He & Hsame).
  destruct (tree_preserved s s' kroot T Hr Hfree Hsame) as (T' & Hpaths & Htr).
  assert (tree_ok s' root) as Tr
    by (eapply (created_tree kroot root s s'); eauto; intros; by apply (Hsame [] kroot _ path_ok_nil)).
  split_and!; try done.
  - intros v. by rewrite !hw_translate_eq.
  - intros v. rewrite !hw_translate_eq by done.
    eapply (created_translate kroot root s s'); eauto. intros; by apply (Hsame [] kroot _ path_ok_nil).
Qed.

(** ** The direct map *)

Lemma ensure_hhdm_pd_table s t i :
  has (entry_at (mem s) t i) PTE_PS = false → ensure_hhdm_pd s t i = ensure_table s t i 0.
Proof. intros H. unfold ensure_hhdm_pd, ensure_table. rewrite H. by destruct (has _ PTE_PRESENT). Qed.

(** The 2 MiB entry the loop writes. *)
Definition hhdm_entry (phys : Z) : Z :=
  Z.lor (Z.lor (Z.lor (Z.lor (align_down phys PAGE_SIZE_2M) PTE_PRESENT) PTE_RW) PTE_PS)
    (Z.shiftl 1 63).

Definition HHDM_FLAGS : Z := Z.lor (Z.shiftl 1 63) PTE_RW.

Lemma hhdm_entry_testbit phys n :
  0 ≤ phys < 2 ^ 52 → phys mod 2 ^ 21 = 0 → 0 ≤ n →
  Z.testbit (hhdm_entry phys) n =
  Z.testbit phys n || (0 =? n) || (1 =? n) || (7 =? n) || (63 =? n).
Proof.
  intros Hr Hal Hn. unfold hhdm_entry. change PAGE_SIZE_2M with (2 ^ 21).
  rewrite align_down_spec by lia. replace (phys / 2 ^ 21 * 2 ^ 21) with phys by dlia.
  rewrite !Z.lor_spec. change PTE_PRESENT with (2 ^ 0). change PTE_RW with (2 ^ 1).
  change PTE_PS with (2 ^ 7). change (Z.shiftl 1 63) with (2 ^ 63).
  by rewrite !Z.pow2_bits_eqb by lia.
Qed.

Lemma page2m_testbit_low p k : p mod 2 ^ 21 = 0 → 0 ≤ k < 21 → Z.testbit p k = false.
Proof.
  intros Hp Hk. rewrite <- (Z.mod_pow2_bits_low p 21 k) by lia. by rewrite Hp, Z.bits_0.
Qed.

Lemma hhdm_entry_leaf phys i1 :
  0 ≤ phys < 2 ^ 52 → phys mod 2 ^ 21 = 0 →
  leaf2m (hhdm_entry phys) i1 = Some (phys + i1 * 4096, HHDM_FLAGS) ∧
  has (hhdm_entry phys) PTE_PS = true ∧ 0 ≤ hhdm_entry phys < 2 ^ 64.
Proof.
  intros Hr Hal.
  assert (has (hhdm_entry phys) PTE_PS = true) as Hps
    by (rewrite has_ps, hhdm_entry_testbit by lia; by rewrite orb_true_r).
  split_and!; auto.
  - unfold leaf2m. rewrite Hps, has_present, hhdm_entry_testbit, orb_true_r by lia. simpl.
    do 2 f_equal; [f_equal|].
    + apply Z.bits_inj'. intros n Hn. change HW_ADDR_2M with (Z.shiftl (Z.ones 31) 21).
      rewrite Z.land_spec, hhdm_entry_testbit, Z.shiftl_spec by lia.
      destruct (decide (n < 21)).
      { rewrite (Z.testbit_neg_r _ (n - 21)), andb_false_r by lia.
        by rewrite page2m_testbit_low by lia. }
      rewrite Z.testbit_ones_nonneg by lia.
      destruct (decide (n < 52)).
      * rewrite (proj2 (Z.ltb_lt _ _)), andb_true_r by lia.
        rewrite !(proj2 (Z.eqb_neq _ n)) by lia. by rewrite !orb_false_r.
      * rewrite (proj2 (Z.ltb_ge _ _)), andb_false_r by lia. symmetry.
        apply (small_testbit_high phys 52); lia.
    + change HHDM_FLAGS with (Z.land HHDM_FLAGS LEAF). apply land_leaf_eq. intros n Hn.
      repeat (apply elem_of_cons in Hn as [->|Hn];
        [rewrite hhdm_entry_testbit by lia;
         first [rewrite page2m_testbit_low by lia | rewrite (small_testbit_high phys 52) by lia];
         reflexivity|]).
      by apply elem_of_nil in Hn.
  - unfold hhdm_entry. change PAGE_SIZE_2M with (2 ^ 21). rewrite align_down_spec by lia.
    assert (0 ≤ phys / 2 ^ 21 * 2 ^ 21) as H0 by dlia.
    repeat (apply Z.lor_nonneg; split); [exact H0| | | |]; cbv; congruence.
  - destruct (decide (hhdm_entry phys < 2 ^ 64)) as [|Hge]; [done|exfalso].
    assert (64 ≤ Z.log2 (hhdm_entry phys)) as Hl by (apply Z.log2_le_pow2; lia).
    pose proof (Z.bit_log2 (hhdm_entry phys) ltac:(lia)) as Hb.
    rewrite hhdm_entry_testbit, (small_testbit_high phys 52) in Hb by lia.
    rewrite !(proj2 (Z.eqb_neq _ (Z.log2 _))) in Hb by lia. done.
Qed.

Lemma vpn2m_eq w v :
  vpn w / 512 = vpn v / 512 ↔
  pml4_index w = pml4_index v ∧ pdpt_index w = pdpt_index v ∧ pd_index w = pd_index v.
Proof.
  rewrite !vpn_indices.
  pose proof (pml4_index_range v). pose proof (pdpt_index_range v).
  pose proof (pd_index_range v). pose proof (pt_index_range v).
  pose proof (pml4_index_range w). pose proof (pdpt_index_range w).
  pose proof (pd_index_range w). pose proof (pt_index_range w).
  rewrite !Z.div_add_l, !(Z.div_small (pt_index _)) by lia. lia.
Qed.

(** Writing a 2 MiB entry into a page directory. *)
Lemma huge_write s root v pd e :
  wf s → tree_ok s root → path_table (mem s) root (v2 v) = Some pd →
  0 ≤ e < 2 ^ 64 → has e PTE_PS = true →
  let s' := with_mem s (set_entry (mem s) pd (pd_index v) e) in
  wf s' ∧ tree_ok s' root ∧ (∀ x, free_frame s' x ↔ free_frame s x) ∧
  (∀ q, path_ok q → (length q ≤ 2)%nat →
     path_table (mem s') root q = path_table (mem s) root q) ∧
  (∀ w, vpn w / 512 = vpn v / 512 → translate (mem s') root w = leaf2m e (pt_index w)) ∧
  (∀ w, vpn w / 512 ≠ vpn v / 512 → translate (mem s') root w = translate (mem s) root w).
Proof.
  intros W T Hpd He Hps s'. pose proof (tree_tables _ _ T _ _ (path_ok_v2 v) Hpd) as Htok.
  pose proof (pd_index_range v) as Hi. pose proof Htok as (Hal & _).
  destruct (with_mem_wf s (set_entry (mem s) pd (pd_index v) e) W) as [W' Hfree].
  { intros b Hb. apply rd8_set_entry.
    destruct (decide (pd ≤ b < pd + 4096)); [|lia]. by destruct (table_not_bitmap s pd b). }
  fold s' in W', Hfree.
  assert (∀ q t j, path_ok q → path_table (mem s) root q = Some t → 0 ≤ j < 512 →
    (q, j) ≠ (v2 v, pd_index v) → entry_at (mem s') t j = entry_at (mem s) t j) as Hagree.
  { intros q t j Hq Ht Hj Hne. apply entry_set_ne; auto.
    - by destruct (tree_tables _ _ T _ _ Hq Ht).
    - intros [= -> ->]. by rewrite (tree_inj _ _ T q (v2 v) pd Hq (path_ok_v2 v) Ht Hpd) in Hne. }
  assert (entry_at (mem s') pd (pd_index v) = e) as Hent
    by (subst s'; cbn [mem with_mem]; by rewrite entry_set_same, w64_small).
  assert (next (mem s') pd (pd_index v) = None) as Hnone
    by (unfold next; by rewrite Hent, Hps, andb_false_r).
  assert (regions s' = regions s) as Hreg by done. clearbody s'.
  pose proof (path_stable s s' root (v2 v) pd (pd_index v) T (path_ok_v2 v) Hi Hpd Hagree) as Hstable.
  pose proof (path_self s s' root (v2 v) pd (pd_index v) T (path_ok_v2 v) Hi Hpd Hagree) as Hself.
  assert (∀ q t, path_ok q → path_table (mem s') root q = Some t →
    path_table (mem s) root q = Some t) as Hsub.
  { intros q t Hq Ht. destruct (decide ((v2 v ++ [pd_index v]) `prefix_of` q)) as [[r ->]|Hn];
      [|by rewrite <- Hstable].
    by rewrite <- (assoc app), path_table_app, Hself in Ht; simpl in Ht; rewrite Hnone in Ht. }
  assert (∀ q, path_ok q → (length q ≤ 2)%nat →
    path_table (mem s') root q = path_table (mem s) root q) as Hup.
  { intros q Hq Hl. apply Hstable; [done|]. intros H%prefix_length. simpl in H. lia. }
  split; [done|]. split; [|split; [done|split; [done|split]]].
  - apply (tree_sub s s' root); auto; [intros; by apply Hfree|].
    intros q t j Hl Hq Ht Hj. rewrite (Hagree q t j); auto. intros [= -> ->]. simpl in Hl. lia.
  - intros w (E4 & E3 & E2)%vpn2m_eq. unfold translate. rewrite E4, E3, E2.
    change (v3 v) with (v2 v ++ [pd_index v]).
    rewrite path_table_snoc, Hself. cbn [mbind option_bind]. by rewrite Hnone, Hent.
  - intros w Hw. eapply (translate_stable s s' root (v2 v) pd (pd_index v)); auto with tree.
    intros [r [= E4 E3 E2 _]]. apply Hw, vpn2m_eq. auto.
Qed.

Lemma hhdm_vpn x : 0 ≤ x < 2 ^ 39 → vpn (phys_to_hhdm x) = 2 ^ 35 + x / 4096.
Proof.
  intros Hx. unfold vpn, phys_to_hhdm, HHDM_BASE. rewrite w64_small by lia. dlia.
Qed.

Lemma hhdm_pml4_index x : 0 ≤ x < 2 ^ 39 → pml4_index (phys_to_hhdm x) = HHDM_PML4_INDEX.
Proof.
  intros Hx. change HHDM_PML4_INDEX with 256.
  unfold pml4_index, phys_to_hhdm, HHDM_BASE. rewrite w64_small by lia.
  change 0x1FF with (Z.ones 9). rewrite Z.land_ones, Z.shiftr_div_pow2 by lia. dlia.
Qed.

Lemma hhdm_path_ok : path_ok ([] ++ [HHDM_PML4_INDEX]).
Proof. split; [simpl; lia|]. repeat constructor; cbv; done. Qed.

Lemma pt_index_vpn v : pt_index v = vpn v mod 512.
Proof.
  rewrite vpn_indices, Z.add_comm, Z.mod_add by lia. symmetry. apply Z.mod_small.
  apply pt_index_range.
Qed.

Section Hhdm.
Context (kroot pdpt : Z).

Record hhdm_inv (s s' : pmm) : Prop := {
  hi_wf : wf s';
  hi_regions : regions s' = regions s;
  hi_tree : tree_ok s' kroot;
  hi_pdpt : path_table (mem s') kroot [HHDM_PML4_INDEX] = Some pdpt;
  hi_free : ∀ x, free_frame s' x → free_frame s x;
}.

Lemma hhdm_step_spec s0 s phys s' :
  phys_bound s0 → hhdm_inv s0 s → 0 ≤ phys < 2 ^ 39 → phys mod 2 ^ 21 = 0 →
  hhdm_step pdpt phys s = Ret s' →
  hhdm_inv s0 s' ∧
  (∀ w, vpn w / 512 = (2 ^ 35 + phys / 4096) / 512 →
     translate (mem s') kroot w = Some (phys + pt_index w * 4096, HHDM_FLAGS)) ∧
  (∀ w, vpn w / 512 ≠ (2 ^ 35 + phys / 4096) / 512 →
     translate (mem s') kroot w = translate (mem s) kroot w).
Proof.
  intros B0 [W Hr T Hpd Hfree] Hx Hal H. unfold hhdm_step in H.
  apply bind_Ret in H as ([pd s1] & H1 & H).
  change (Z.lor _ (Z.shiftl 1 63)) with (hhdm_entry phys) in H. injection H as <-.
  pose proof (hhdm_pml4_index phys Hx) as E4. set (v := phys_to_hhdm phys) in *.
  rewrite <- E4 in Hpd. rewrite <- (hhdm_vpn phys Hx). fold v.
  assert (has (entry_at (mem s) pdpt (pdpt_index v)) PTE_PS = false) as N
    by (apply (tree_no_huge _ _ T [pml4_index v] pdpt); auto with tree; simpl; lia).
  rewrite (ensure_hhdm_pd_table s pdpt _ N) in H1.
  assert (phys_bound s) as B by (intros r; rewrite Hr; apply B0).
  destruct (ensure_table_ensured s kroot [pml4_index v] pdpt _ 0 W B T (path_ok_v2 v) Hpd pd s1
    ltac:(by rewrite N) H1) as (G & P2 & _). pose proof G as [W1 Hr1 T1 Hf1 M1 Ht1 _ _ _ _ _].
  destruct (hhdm_entry_leaf phys 0 ltac:(lia) Hal) as (_ & Hps & He).
  destruct (huge_write s1 kroot v pd _ W1 T1 P2 He Hps) as (W2 & T2 & Hf2 & Hup & Hsame & Hother).
  split; [split|split].
  - done.
  - simpl. congruence.
  - done.
  - rewrite <- E4, Hup by (auto with tree; simpl; lia). apply M1; auto with tree.
  - intros x Hx2%Hf2. auto.
  - intros w Hw. rewrite Hsame by done. by destruct (hhdm_entry_leaf phys (pt_index w) ltac:(lia) Hal).
  - intros w Hw. by rewrite Hother, Ht1.
Qed.
End Hhdm.

(** After [mmu_map_hhdm_2m(start, end)], every physical byte of the range
    is reachable at its HHDM address, through a supervisor, writable,
    no-execute mapping to exactly its own frame; addresses outside the HHDM
    slot translate as before; allocator and tables stay well formed. *)
Theorem mmu_map_hhdm_2m_spec kroot s start end_ s' :
  wf s → phys_bound s → tree_ok s kroot → 0 ≤ start < end_ → end_ ≤ 2 ^ 39 →
  mmu_map_hhdm_2m kroot s start end_ = Ret s' →
  wf s' ∧ tree_ok s' kroot ∧
  (∀ x, start ≤ x < end_ →
     hw_translate (mem s') kroot (phys_to_hhdm x) = Some (x / 4096 * 4096, HHDM_FLAGS)) ∧
  (∀ w, pml4_index w ≠ HHDM_PML4_INDEX →
     hw_translate (mem s') kroot w = hw_translate (mem s) kroot w).
Proof.
  intros W B T Hs He H. unfold mmu_map_hhdm_2m in H. change PAGE_SIZE_2M with (2 ^ 21) in H.
  rewrite align_down_spec, align_up_spec in H by lia.
  set (st := start / 2 ^ 21 * 2 ^ 21) in H. set (en := (end_ + 2 ^ 21 - 1) / 2 ^ 21 * 2 ^ 21) in H.
  assert (0 ≤ st ≤ start ∧ end_ ≤ en ≤ 2 ^ 39 ∧ st mod 2 ^ 21 = 0 ∧ en mod 2 ^ 21 = 0)
    as (Hst & Hen & Hsm & Hem) by (subst st en; dlia).
  clearbody st en. case_if in H; [lia|].
  apply bind_Ret in H as ([pdpt s1] & H1 & H).
  change (ensure_hhdm_pdpt kroot s) with (ensure_hhdm_pd s kroot HHDM_PML4_INDEX) in H1.
  assert (has (entry_at (mem s) kroot HHDM_PML4_INDEX) PTE_PS = false) as N
    by (apply (tree_no_huge _ _ T [] kroot); auto with tree; simpl; cbv; done || lia).
  rewrite (ensure_hhdm_pd_table s kroot _ N) in H1.
  destruct (ensure_table_ensured s kroot [] kroot _ 0 W B T hhdm_path_ok eq_refl pdpt s1
    ltac:(by rewrite N) H1) as (G & P1 & _). pose proof G as [W1 Hr1 T1 Hf1 _ Ht1 _ _ _ _ _].
  assert (hhdm_inv kroot pdpt s s' ∧
    (∀ x, st ≤ x < en → translate (mem s') kroot (phys_to_hhdm x) =
       Some (x / 4096 * 4096, HHDM_FLAGS)) ∧
    (∀ w, pml4_index w ≠ HHDM_PML4_INDEX →
       translate (mem s') kroot w = translate (mem s) kroot w)) as ([W' _ T' _ _] & Hin & Hout).
  { refine (rfor_inv (λ (i : Z) (s2 : pmm), hhdm_inv kroot pdpt s s2 ∧
      (∀ x, st ≤ x < i → translate (mem s2) kroot (phys_to_hhdm x) =
         Some (x / 4096 * 4096, HHDM_FLAGS)) ∧
      (∀ w, pml4_index w ≠ HHDM_PML4_INDEX →
         translate (mem s2) kroot w = translate (mem s) kroot w))
      st en (2 ^ 21) (hhdm_step pdpt) s1 s' _ _ _ _ _ H); [lia|lia|dlia| |].
    - split_and!; [by split|intros; lia|]. intros w _. apply Ht1.
    - intros i s2 s3 Hi Him (I & IHin & IHout) Hstep.
      destruct (hhdm_step_spec kroot pdpt s s2 i s3 B I ltac:(lia) ltac:(dlia) Hstep)
        as (I' & Hsame & Hother). split_and!; [done| |].
      + intros x Hx. assert (i + 2 ^ 21 ≤ en) by dlia.
        pose proof (hhdm_vpn x ltac:(lia)) as Ev.
        destruct (decide (i ≤ x)).
        * rewrite Hsame by (rewrite Ev; dlia). do 2 f_equal. rewrite pt_index_vpn, Ev. dlia.
        * rewrite Hother by (rewrite Ev; dlia). apply IHin. lia.
      + intros w Hw. rewrite Hother; [by apply IHout|].
        rewrite <- (hhdm_vpn i ltac:(lia)). intros (E4 & _)%vpn2m_eq.
        by rewrite hhdm_pml4_index in E4 by lia. }
  split_and!; auto.
  - intros x Hx. rewrite hw_translate_eq by done. apply Hin. lia.
  - intros w Hw. rewrite !hw_translate_eq by done. by apply Hout.
Qed.

(** ** Frames taken for data

    Allocating a frame and writing into it leaves every address space as it
    is. *)

Record data_alloc (s s' : pmm) (root f : Z) : Prop := {
  da_wf : wf s';
  da_regions : regions s' = regions s;
  da_tree : tree_ok s' root;
  da_free : ∀ x, free_frame s' x → free_frame s x;
  da_paths : ∀ q, path_ok q → path_table (mem s') root q = path_table (mem s) root q;
  da_entries : ∀ q t j, path_ok q → path_table (mem s) root q = Some t → 0 ≤ j < 512 →
    entry_at (mem s') t j = entry_at (mem s) t j;
  da_translate : ∀ v, translate (mem s') root v = translate (mem s) root v;
  da_bytes : ∀ a b, data_frame s root a → a ≤ b < a + 4096 → rd8 (mem s') b = rd8 (mem s) b;
  da_data : ∀ a, data_frame s root a → data_frame s' root a;
  da_frame : data_frame s' root f;
}.

Lemma alloc_filled s s1 root f m' :
  wf s → tree_ok s root → pmm_alloc_page s = Ret (f, s1) →
  (∀ b, b < f ∨ f + 4096 ≤ b → rd8 m' b = rd8 (mem s1) b) →
  data_alloc s (with_mem s1 m') root f.
Proof.
  intros W T Ha Hbytes.
  destruct (pmm_alloc_page_wf _ _ _ W Ha)
    as (W1 & _ & _ & Hr & Hal & Hpos & Hother & Hff & Hnf & Hap).
  destruct (with_mem_wf s1 m' W1) as [W' Hfree'].
  { intros b (r & Hin & ?). apply Hbytes. rewrite Hr in Hin. destruct (Hap r Hin); lia. }
  assert (∀ x, free_frame (with_mem s1 m') x → free_frame s x) as Hfree.
  { intros x Hx%Hfree'. destruct (decide (x = f)) as [->|]; [done|]. by apply Hother. }
  assert (∀ b, ¬ in_bitmaps s b → b < f ∨ f + 4096 ≤ b → rd8 m' b = rd8 (mem s) b) as Hb.
  { intros b Hb Hout. rewrite Hbytes by done. by apply (pmm_alloc_page_mem s f). }
  assert (∀ q t j, path_ok q → path_table (mem s) root q = Some t → 0 ≤ j < 512 →
    entry_at m' t j = entry_at (mem s) t j) as He.
  { intros q t j Hq Ht Hj. pose proof (tree_tables _ _ T _ _ Hq Ht) as Htok.
    pose proof (fresh_ne s s1 root f W T Ha q t Hq Ht) as Hne.
    apply entry_ext; [done|]. intros b Hbr. apply Hb; [by apply (table_not_bitmap s t)|].
    destruct Htok as (? & _). dlia. }
  destruct (tree_preserved s (with_mem s1 m') root T Hr Hfree He) as (T' & Hpaths & Htr).
  split; try done.
  - intros a b (Hala & Hnfa & Hbm & _) Hab. apply Hb; [by apply Hbm|].
    assert (f ≠ a) by (intros ->; done). dlia.
  - intros a (Hala & Hnfa & Hbm & Hta). split_and!; [done|by intros ?%Hfree| |].
    + intros b Hin (r & Hr' & ?). simpl in Hr'. rewrite Hr in Hr'.
      apply (Hbm b Hin). by exists r.
    + intros q t Hq. rewrite Hpaths by done. by apply Hta.
  - split_and!; [done|by intros ?%Hfree'| |].
    + intros b Hin (r & Hr' & ?). simpl in Hr'. rewrite Hr in Hr'. destruct (Hap r Hr'); lia.
    + intros q t Hq. rewrite Hpaths by done.
      exact (fresh_ne s s1 root f W T Ha q t Hq).
Qed.

End MmuSpaces.
