(* ===== verification/PageFault.v ===== *)
(** * Page faults of user code (src/kernel/arch/x86_64/idt.c)

    Stack growth on not-present faults, copy-on-write on write faults, and
    the dispatch of [exception_handler].  The state is the frame allocator's
    (which holds all physical memory) with the static variable [zero_phys] of
    [get_zero_page] and the expected-fault registers.  The value
    [sched_current_aspace()] returns is an argument.

    Frames are reached through the HHDM window.  A window address that is not
    canonical makes the processor raise #GP; in kernel mode the handler
    [isr_general_protection] then panics, which is what the model does. *)

From S2P Require Import Prelude Memory Pmm Mmu MmuTree MmuOps MmuMap MmuSpaces.
From stdpp Require Import options.
Import Pmm Mmu MmuTree MmuOps MmuMap MmuSpaces.

Module PageFault.

Definition USER_STACK_TOP : Z := 0x0000007FFFFFF000.
Definition USER_STACK_MAX_PAGES : Z := 4.
Definition USER_STACK_GUARD_PAGES : Z := 4.
Definition PF_PRESENT : Z := 0x1.
Definition PF_WRITE : Z := 0x2.

(** 48-bit canonical addresses. *)
Definition canonical (v : Z) : bool := (v <? 2 ^ 47) || (2 ^ 64 - 2 ^ 47 <=? v).

Definition handle_user_cow_fault (s : pmm) (aspace page : Z) : result (Z * pmm) :=
  match pte_lookup (mem s) aspace page with
  | None => Ret (0, s)
  | Some pte =>
      let entry := rd64 (mem s) pte in
      if negb (has entry PTE_PRESENT) || negb (has entry PTE_COW) then Ret (0, s)
      else
        let old_phys := table_addr entry in
        '(new_phys, s1) ← pmm_alloc_page s;
        if new_phys =? 0 then Ret (0, s1)
        else if negb (canonical (phys_to_hhdm old_phys)) then Panic "isr_general_protection" 0
        else
          let m := memcpy (mem s1) new_phys old_phys 4096 in
          let flags := Z.land entry 0xFFF in
          let flags := Z.lor flags PTE_RW in
          let flags := Z.land flags (not64 PTE_COW) in
          let m := wr64 m pte (Z.lor (Z.lor (table_addr new_phys) flags)
                                 (Z.land entry (Z.shiftl 1 63))) in
          Ret (1, with_mem s1 m)
  end.

(** Returns the frame and the new value of the static [zero_phys]. *)
Definition get_zero_page (zero_phys : Z) (s : pmm) : result (Z * Z * pmm) :=
  if negb (zero_phys =? 0) then Ret (zero_phys, zero_phys, s)
  else
    '(phys, s1) ← pmm_alloc_page s;
    if phys =? 0 then Ret (0, zero_phys, s1)
    else
      let m := memset (mem s1) phys 0 4096 in (* the loop [dst[i] = 0] *)
      Ret (phys, phys, with_mem s1 m).

Definition STACK_FLAGS : Z := Z.lor (Z.lor MMU_FLAG_USER MMU_FLAG_NOEXEC) MMU_FLAG_COW.

Definition handle_user_page_fault (zero_phys : Z) (s : pmm) (aspace cr2 err rsp : Z)
    : result (Z * Z * pmm) :=
  let page := Z.land cr2 (not64 0xFFF) in
  if aspace =? 0 then Ret (0, zero_phys, s)
  else if has err PF_PRESENT then
    if has err PF_WRITE then
      '(r, s1) ← handle_user_cow_fault s aspace page; Ret (r, zero_phys, s1)
    else Ret (0, zero_phys, s)
  else
    let stack_low := USER_STACK_TOP - USER_STACK_MAX_PAGES * 4096 in
    if (page <? stack_low) || (USER_STACK_TOP <=? page) then Ret (0, zero_phys, s)
    else if (rsp <? stack_low) || (USER_STACK_TOP <=? rsp) then Ret (0, zero_phys, s)
    else
      let guard := USER_STACK_GUARD_PAGES * 4096 in
      let min := if guard <? rsp then rsp - guard else stack_low in
      let min := if min <? stack_low then stack_low else min in
      if page <? min then Ret (0, zero_phys, s)
      else
        '(phys, z1, s1) ← get_zero_page zero_phys s;
        if phys =? 0 then Ret (0, z1, s1)
        else
          '(r, s2) ← mmu_map_page_in s1 aspace page phys STACK_FLAGS;
          if negb (r =? 0) then Ret (0, z1, s2) else Ret (1, z1, s2).

(** ** Expected kernel faults and dispatch *)

Record expected_pf := mk_expected {
  expected_pf_addr : Z;
  expected_pf_resume : Z;
  expected_pf_active : Z;
  expected_pf_hit : Z;
}.

Definition idt_expect_page_fault (addr resume_rip : Z) : expected_pf :=
  mk_expected addr resume_rip 1 0.

Definition idt_complete_expected_page_fault (x : expected_pf) : Z * expected_pf :=
  (expected_pf_hit x, mk_expected 0 0 0 0).

(** How [exception_handler] ends: returning to [rip], terminating the user
    task, or in a panic (a [Panic] of the result). *)
Inductive disposition :=
| Resume (rip : Z)
| KillTask.

Record frame := mk_frame { f_rip : Z; f_cs : Z; f_rsp : Z }.

Definition exception_handler (x : expected_pf) (zero_phys : Z) (s : pmm) (aspace cr2_reg : Z)
    (label : string) (vec err : Z) (has_err : bool) (fr : frame)
    : result (disposition * expected_pf * Z * pmm) :=
  let code := if has_err then err else 0 in
  let cr2 := if vec =? 14 then cr2_reg else 0 in
  if (vec =? 14) && negb (expected_pf_active x =? 0) && (cr2 =? expected_pf_addr x) then
    Ret (Resume (expected_pf_resume x),
         mk_expected (expected_pf_addr x) (expected_pf_resume x) 0 1, zero_phys, s)
  else
    '(r, z1, s1) ←
      (if (vec =? 14) && has (f_cs fr) 0x3
       then handle_user_page_fault zero_phys s aspace cr2 err (f_rsp fr)
       else Ret (0, zero_phys, s));
    if negb (r =? 0) then Ret (Resume (f_rip fr), x, z1, s1)
    else if has (f_cs fr) 0x3 then Ret (KillTask, x, z1, s1)
    else Panic label (if negb (code =? 0) then code else cr2).

(** ** Copy on write *)

Lemma canonical_hhdm a : 0 ≤ a < 2 ^ 47 → canonical (phys_to_hhdm a) = true.
Proof.
  intros Ha. unfold canonical, phys_to_hhdm, HHDM_BASE. rewrite w64_small by lia.
  apply orb_true_iff. right. apply Z.leb_le. lia.
Qed.

(** The HHDM address of a frame number carrying the NX bit is not canonical. *)
Lemma canonical_nx a : 0 ≤ a < 2 ^ 52 → canonical (phys_to_hhdm (2 ^ 63 + a)) = false.
Proof.
  intros Ha. unfold canonical, phys_to_hhdm, HHDM_BASE, w64.
  replace (2 ^ 63 + a + _) with (0x7FFF800000000000 + a + 1 * 2 ^ 64) by lia.
  rewrite Z.mod_add, Z.mod_small by lia.
  apply orb_false_iff. rewrite Z.ltb_ge, Z.leb_gt. lia.
Qed.

(** The entry written for the private copy. *)
Definition cow_entry (entry new_phys : Z) : Z :=
  Z.lor (Z.lor (table_addr new_phys)
           (Z.land (Z.lor (Z.land entry 0xFFF) PTE_RW) (not64 PTE_COW)))
    (Z.land entry (Z.shiftl 1 63)).

(** The leaf flags of the copy: writable, no longer copy-on-write. *)
Definition cow_flags (fl : Z) : Z := Z.lor (Z.ldiff fl PTE_COW) PTE_RW.

Lemma not64_cow_testbit n : 0 ≤ n < 64 → Z.testbit (not64 PTE_COW) n = negb (9 =? n).
Proof.
  intros Hn. unfold not64, w64. rewrite Z.mod_pow2_bits_low, Z.lnot_spec by lia.
  change PTE_COW with (2 ^ 9). by rewrite Z.pow2_bits_eqb by lia.
Qed.

Lemma cow_entry_testbit e a n :
  0 ≤ e < 2 ^ 52 → a mod 4096 = 0 → 0 ≤ a < 2 ^ 52 → 0 ≤ n →
  Z.testbit (cow_entry e a) n =
  if n <? 12 then (Z.testbit e n || (1 =? n)) && negb (9 =? n) else Z.testbit a n.
Proof.
  intros He Hal Hr Hn. unfold cow_entry. rewrite (table_addr_eq a) by lia.
  replace (a - a mod 4096) with a by lia.
  replace (Z.land e (Z.shiftl 1 63)) with 0.
  2:{ change (Z.shiftl 1 63) with (2 ^ 63). symmetry. apply Z.bits_inj'. intros k Hk.
      rewrite Z.land_spec, Z.pow2_bits_eqb, Z.bits_0 by lia.
      destruct (63 =? k) eqn:E; bsimp; subst; [|by rewrite andb_false_r].
      by rewrite (small_testbit_high e 52). }
  rewrite Z.lor_0_r, Z.lor_spec, Z.land_spec, Z.lor_spec, Z.land_spec.
  change 0xFFF with (Z.ones 12). change PTE_RW with (2 ^ 1).
  rewrite Z.pow2_bits_eqb, Z.testbit_ones_nonneg by lia.
  destruct (n <? 12) eqn:E; bsimp.
  - rewrite page_testbit_low, not64_cow_testbit, andb_true_r by (done || lia). done.
  - rewrite andb_false_r, (proj2 (Z.eqb_neq 1 n)), orb_false_r by lia. done.
Qed.

Lemma cow_entry_leaf e a :
  0 ≤ e < 2 ^ 52 → has e PTE_PRESENT = true → a mod 4096 = 0 → 0 ≤ a < 2 ^ 52 →
  leaf4k (cow_entry e a) = Some (a, cow_flags (Z.land e LEAF)) ∧ 0 ≤ cow_entry e a < 2 ^ 64.
Proof.
  intros He Hpr Hal Hr. pose proof (cow_entry_testbit e a) as Hb. rewrite has_present in Hpr. split.
  - unfold leaf4k. rewrite has_present, Hb by lia. rewrite Hpr. simpl. do 2 f_equal.
    + apply Z.bits_inj'. intros n Hn. rewrite Z.land_spec, hw_testbit, Hb by done.
      destruct (n <? 12) eqn:E; bsimp.
      * rewrite (proj2 (Z.leb_gt _ _)), andb_false_l, andb_false_r by lia. symmetry. by apply page_testbit_low.
      * rewrite (proj2 (Z.leb_le _ _)), andb_true_l by lia. destruct (n <? 52) eqn:E'; bsimp.
        -- by rewrite andb_true_r.
        -- rewrite andb_false_r. symmetry. apply (small_testbit_high a 52); lia.
    + unfold cow_flags. apply Z.bits_inj'. intros n Hn.
      rewrite Z.lor_spec, Z.ldiff_spec, !Z.land_spec, leaf_testbit, Hb by done.
      change PTE_COW with (2 ^ 9). change PTE_RW with (2 ^ 1). rewrite !Z.pow2_bits_eqb by lia.
      destruct (n <? 12) eqn:E; bsimp.
      * destruct (Z.testbit e n), (1 =? n) eqn:?, (2 =? n) eqn:?, (8 =? n) eqn:?, (9 =? n) eqn:?,
          (63 =? n) eqn:?; bsimp; simpl; done || lia.
      * rewrite (proj2 (Z.eqb_neq 1 n)), (proj2 (Z.eqb_neq 2 n)), (proj2 (Z.eqb_neq 8 n)),
          (proj2 (Z.eqb_neq 9 n)) by lia. cbn [orb negb].
        destruct (63 =? n) eqn:E63; bsimp; [|by rewrite !andb_false_r].
        by rewrite (small_testbit_high e 52), (small_testbit_high a 52) by lia.
  - apply bound_bits.
    + unfold cow_entry. rewrite (table_addr_eq a) by lia.
      repeat (apply Z.lor_nonneg; split); [lia| |apply Z.land_nonneg; lia].
      apply Z.land_nonneg. right. apply w64_range.
    + intros n Hn. rewrite Hb by lia. rewrite (proj2 (Z.ltb_ge _ _)) by lia.
      apply (small_testbit_high a 52); lia.
Qed.

(** The state after the copy [m2] is made and the entry replaced. *)
Lemma cow_resolve s s1 root page pt a m2 :
  wf s → phys_bound s → tree_ok s root → path_table (mem s) root (v3 page) = Some pt →
  let e := entry_at (mem s) pt (pt_index page) in
  has e PTE_PRESENT = true → e < 2 ^ 47 → data_frame s root (table_addr e) →
  pmm_alloc_page s = Ret (a, s1) →
  (∀ b, rd8 m2 b = if decide (a ≤ b < a + 4096) then rd8 (mem s1) (table_addr e + (b - a))
     else rd8 (mem s1) b) →
  let s' := with_mem s1 (set_entry m2 pt (pt_index page) (cow_entry e a)) in
  wf s' ∧ tree_ok s' root ∧ free_frame s a ∧ ¬ free_frame s' a ∧
    hw_translate (mem s') root page = Some (a, cow_flags (Z.land e LEAF)) ∧
    (∀ o, 0 ≤ o < 4096 → rd8 (mem s') (a + o) = rd8 (mem s) (table_addr e + o)) ∧
    (∀ o, 0 ≤ o < 4096 → rd8 (mem s') (table_addr e + o) = rd8 (mem s) (table_addr e + o)) ∧
    (∀ w, vpn w ≠ vpn page → hw_translate (mem s') root w = hw_translate (mem s) root w).
Proof.
  intros W B T Hpt e Hpr He Hold Ha Hcpy.
  destruct (pmm_alloc_page_wf _ _ _ W Ha) as (_ & _ & _ & _ & Hal & Hpos & _ & Hff & _ & _).
  pose proof (alloc_bound _ _ _ W B Ha) as Hb52. pose proof (entry_range (mem s) pt (pt_index page)) as Her.
  fold e in Her. set (old := table_addr e) in *. clearbody old.
  assert (data_alloc s (with_mem s1 m2) root a) as D.
  { apply (alloc_filled s s1); auto. intros b Hb. by rewrite Hcpy, decide_False by lia. }
  assert (∀ b, ¬ in_bitmaps s b → rd8 (mem s1) b = rd8 (mem s) b) as Hs1
    by (intros; by apply (pmm_alloc_page_mem s a)).
  assert (∀ o, 0 ≤ o < 4096 → rd8 m2 (a + o) = rd8 (mem s) (old + o)) as Hcopy.
  { intros o Ho. rewrite Hcpy, decide_True by lia.
    replace (old + (a + o - a)) with (old + o) by lia. apply Hs1.
    destruct Hold as (_ & _ & Hbm & _). apply Hbm. lia. }
  destruct D as [W2 _ T2 Hf2 Hp2 _ Ht2 Hb2 Hda2 Hd2].
  destruct (cow_entry_leaf e a ltac:(lia) Hpr Hal ltac:(lia)) as [Hleaf Hcr].
  rewrite <- Hp2 in Hpt by auto with tree.
  destruct (leaf_write (with_mem s1 m2) root page pt (cow_entry e a) W2 T2 Hpt Hcr)
    as [W3 _ T3 Hf3 _ Hs3 Ho3 Hb3 _].
  split; [exact W3|]. split; [exact T3|]. split; [done|]. split.
  { intros Hc%Hf3. revert Hc. apply Hd2. }
  split; [by rewrite (hw_translate_eq _ _ _ T3), Hs3|]. split; [|split].
  - intros o Ho. etrans; [apply (Hb3 a); [done|lia]|]. by apply Hcopy.
  - intros o Ho. etrans; [apply (Hb3 old); [auto|lia]|]. apply (Hb2 old); [done|lia].
  - intros w Hw. rewrite (hw_translate_eq _ _ _ T3), (hw_translate_eq _ _ _ T).
    etrans; [by apply Ho3|]. apply Ht2.
Qed.


(** ** Stack growth *)

(** The shared zero frame, once allocated, is a data frame full of zeros. *)
Definition zero_ok (s : pmm) (root z : Z) : Prop :=
  z = 0 ∨ (data_frame s root z ∧ 0 < z < 2 ^ 52 ∧ ∀ o, 0 ≤ o < 4096 → rd8 (mem s) (z + o) = 0).

Lemma get_zero_page_spec s root z phys z' s' :
  wf s → phys_bound s → tree_ok s root → zero_ok s root z →
  get_zero_page z s = Ret (phys, z', s') →
  phys = z' ∧ z' ≠ 0 ∧ zero_ok s' root z' ∧ wf s' ∧ regions s' = regions s ∧ tree_ok s' root ∧
  (∀ q, path_ok q → path_table (mem s') root q = path_table (mem s) root q) ∧
  (∀ q t j, path_ok q → path_table (mem s) root q = Some t → 0 ≤ j < 512 →
     entry_at (mem s') t j = entry_at (mem s) t j) ∧
  (∀ v, translate (mem s') root v = translate (mem s) root v).
Proof.
  intros W B T Hz H. unfold get_zero_page in H. case_if in H.
  { injection H as <- <- <-. auto 10. }
  apply bind_Ret in H as ([a s1] & Ha & H). pose proof (alloc_bound _ _ _ W B Ha) as Hab.
  rewrite (proj2 (Z.eqb_neq a 0)) in H by lia.
  pose proof (rd8_memset (mem s1) a 0 4096) as Hset. set (m2 := memset _ _ _ _) in *. clearbody m2.
  injection H as <- <- <-.
  assert (data_alloc s (with_mem s1 m2) root a) as [W2 Hr2 T2 Hf2 Hp2 He2 Ht2 Hb2 _ Hd2].
  { apply (alloc_filled s s1); auto. intros b Hb. by rewrite Hset, decide_False by lia. }
  split_and!; try done; [lia|]. right. split; [done|]. split; [lia|].
  intros o Ho. simpl. by rewrite Hset, decide_True by lia.
Qed.

Lemma stack_entry_addr phys :
  phys mod 4096 = 0 → 0 ≤ phys < 2 ^ 52 →
  table_addr (pte_entry phys STACK_FLAGS) = 2 ^ 63 + phys ∧
  has (pte_entry phys STACK_FLAGS) PTE_PRESENT = true ∧
  has (pte_entry phys STACK_FLAGS) PTE_COW = true.
Proof.
  intros Hal Hr.
  assert (pte_entry phys STACK_FLAGS = 2 ^ 63 + (phys + 0x205)) as ->.
  { unfold pte_entry. change (Z.land phys (not64 0xFFF)) with (table_addr phys).
    rewrite table_addr_eq by lia. replace (phys - phys mod 4096) with phys by lia.
    change (has STACK_FLAGS MMU_FLAG_WRITE) with false.
    change (has STACK_FLAGS MMU_FLAG_USER) with true.
    change (has STACK_FLAGS MMU_FLAG_GLOBAL) with false.
    change (has STACK_FLAGS MMU_FLAG_COW) with true.
    change (has STACK_FLAGS MMU_FLAG_NOEXEC) with true. cbv iota zeta.
    assert (Z.lor (Z.lor (Z.lor phys PTE_PRESENT) PTE_USER) PTE_COW = Z.lor phys 0x205) as ->
      by (rewrite <- !Z.lor_assoc; f_equal).
    rewrite (lor_page phys 0x205) by lia. change (Z.shiftl 1 63) with (2 ^ 63).
    rewrite <- Z.lxor_lor, <- Z.add_nocarry_lxor; [lia| |];
      apply Z.bits_inj'; intros n Hn; rewrite Z.land_spec, Z.pow2_bits_eqb, Z.bits_0 by lia;
      (destruct (63 =? n) eqn:E; bsimp; subst; [|by rewrite andb_false_r]);
      by rewrite (small_testbit_high _ 53) by lia. }
  rewrite table_addr_eq by lia. split; [dlia|].
  rewrite has_present, has_cow.
  replace (2 ^ 63 + (phys + 0x205)) with (0x205 + (2 ^ 51 + phys / 4096) * 2 ^ 12) by dlia.
  assert (∀ q k, 0 ≤ k < 12 → Z.testbit (0x205 + q * 2 ^ 12) k = Z.testbit 0x205 k) as Hlow.
  { intros q k Hk. by rewrite <- (Z.mod_pow2_bits_low _ 12), Z.mod_add by lia. }
  by rewrite !Hlow by lia.
Qed.

Lemma growth_core s root z cr2 err rsp z' s' :
  wf s → phys_bound s → tree_ok s root → zero_ok s root z →
  let page := Z.land cr2 (not64 0xFFF) in
  split_ok (mem s) root page → has err PF_PRESENT = false →
  handle_user_page_fault z s root cr2 err rsp = Ret (1, z', s') →
  (USER_STACK_TOP - 0x4000 ≤ page < USER_STACK_TOP ∧ rsp - 0x4000 ≤ page) ∧
  wf s' ∧ tree_ok s' root ∧ root ≠ 0 ∧ (z' mod 4096 = 0 ∧ 0 < z' < 2 ^ 52) ∧
  (∀ o, 0 ≤ o < 4096 → rd8 (mem s') (z' + o) = 0) ∧
  (∀ w, vpn w = vpn page → hw_translate (mem s') root w = Some (z', STACK_FLAGS)) ∧
  (∀ w, vpn w ≠ vpn page → hw_translate (mem s') root w = hw_translate (mem s) root w) ∧
  ∃ pt, path_table (mem s') root (v3 page) = Some pt ∧
    entry_at (mem s') pt (pt_index page) = pte_entry z' STACK_FLAGS.
Proof.
  intros W B T Hz page Hs Hnp H. unfold handle_user_page_fault in H. fold page in H.
  rewrite Hnp in H. unfold USER_STACK_MAX_PAGES, USER_STACK_GUARD_PAGES in H.
  case_if in H; [done|]. case_if in H; [done|]. case_if in H; [done|].
  cbv zeta in H. match type of H with context [page <? ?m] => set (mn := m) in H end.
  assert (rsp - 0x4000 ≤ mn) as Hmn.
  { subst mn. repeat case_match; bsimp; lia. }
  clearbody mn. case_if in H; [done|]. apply bind_Ret in H as ([[phys z1] s1] & Hg & H).
  destruct (get_zero_page_spec s root z phys z1 s1 W B T Hz Hg)
    as (-> & Hz0 & Hzok & W1 & Hr1 & T1 & Hp1 & He1 & Ht1).
  rewrite (proj2 (Z.eqb_neq z1 0)) in H by done.
  apply bind_Ret in H as ([r s2] & Hm & H). case_if in H; [done|]. injection H as <- <-. subst r.
  destruct Hzok as [|(Hzd & Hzr & Hzz)]; [done|].
  assert (phys_bound s1) as B1 by (intros r; rewrite Hr1; apply B).
  assert (split_ok (mem s1) root page) as Hs1.
  { intros t Ht. rewrite Hp1 in Ht by auto with tree. rewrite (He1 _ t _ (path_ok_v2 page) Ht) by auto with tree.
    by apply Hs. }
  unfold mmu_map_page_in in Hm. case_if in Hm; [done|]. bsimp. rewrite has_offset in *.
  apply bind_Ret in Hm as ([pt s3] & Hw & Hm). case_if in Hm; [done|]. injection Hm as <-.
  destruct (map_core s1 root page z1 STACK_FLAGS pt s3 W1 B1 T1 Hs1 ltac:(done) ltac:(lia) Hw)
    as ([W2 _ T2 _ Hsame Hother Hbytes _] & Hpt & He & _).
  split; [lia|]. split; [done|]. split; [done|]. split; [done|]. split; [lia|].
  split; [intros o Ho; rewrite (Hbytes z1); [by apply Hzz|done|lia]|].
  split; [exact Hsame|]. split; [|by exists pt].
  intros w Hw'. rewrite Hother by done. by rewrite !hw_translate_eq.
Qed.

(** C39: When a not-present user fault is resolved, the page lies in the stack
    window and at most the guard distance below the stack pointer; it then
    reads as zeros through a user, no-execute, read-only copy-on-write mapping
    and no other page changes. *)
Theorem stack_growth_spec s root z cr2 err rsp z' s' :
  wf s → phys_bound s → tree_ok s root → zero_ok s root z →
  split_ok (mem s) root (Z.land cr2 (not64 0xFFF)) → has err PF_PRESENT = false →
  handle_user_page_fault z s root cr2 err rsp = Ret (1, z', s') →
  let page := Z.land cr2 (not64 0xFFF) in
  (USER_STACK_TOP - 0x4000 ≤ page < USER_STACK_TOP ∧ rsp - 0x4000 ≤ page) ∧
  wf s' ∧ tree_ok s' root ∧
  hw_translate (mem s') root page = Some (z', STACK_FLAGS) ∧
  (∀ o, 0 ≤ o < 4096 → rd8 (mem s') (z' + o) = 0) ∧
  (∀ w, vpn w ≠ vpn page → hw_translate (mem s') root w = hw_translate (mem s) root w).
Proof.
  intros W B T Hz Hs Hnp H page.
  destruct (growth_core s root z cr2 err rsp z' s' W B T Hz Hs Hnp H)
    as (? & ? & ? & _ & _ & ? & Hsame & ? & _).
  split; [done|]. split; [done|]. split; [done|]. split; [by apply Hsame|]. split; done.
Qed.

(** C40: The first write to a page the stack-growth path has just mapped stops
    the kernel: the shared frame's address is read from the entry with the NX
    bit still in it, and copying from that address faults (or memory is
    exhausted); the write is never resolved. *)
Theorem stack_page_write_panics s root z cr2 err rsp z' s' err2 rsp2 :
  wf s → phys_bound s → tree_ok s root → zero_ok s root z →
  split_ok (mem s) root (Z.land cr2 (not64 0xFFF)) → has err PF_PRESENT = false →
  handle_user_page_fault z s root cr2 err rsp = Ret (1, z', s') →
  has err2 PF_PRESENT = true → has err2 PF_WRITE = true →
  ∃ msg code, handle_user_page_fault z' s' root cr2 err2 rsp2 = Panic msg code.
Proof.
  intros W B T Hz Hs Hnp H Hp Hwr.
  destruct (growth_core s root z cr2 err rsp z' s' W B T Hz Hs Hnp H)
    as (_ & W' & T' & Hroot & (Hal & Hr) & _ & _ & _ & pt & Hpt & He).
  unfold handle_user_page_fault. rewrite (proj2 (Z.eqb_neq root 0)), Hp, Hwr by done.
  unfold handle_user_cow_fault. rewrite (pte_lookup_path s' root _ T'), Hpt.
  cbn [mbind option_bind].
  change (rd64 (mem s') (pt + 8 * pt_index (Z.land cr2 (not64 0xFFF))))
    with (entry_at (mem s') pt (pt_index (Z.land cr2 (not64 0xFFF)))). rewrite He.
  destruct (stack_entry_addr z' Hal ltac:(lia)) as (Ha & -> & ->). cbn [negb orb].
  destruct (pmm_alloc_page s') as [[a s1]|msg code] eqn:Hall; [|by exists msg, code].
  destruct (pmm_alloc_page_wf _ _ _ W' Hall) as (_ & _ & _ & _ & _ & Hapos & _).
  cbn [mbind result_bind]. rewrite (proj2 (Z.eqb_neq a 0)), Ha, canonical_nx by lia.
  by eexists _, _.
Qed.

End PageFault.
