(* ===== verification/UserSpace.v ===== *)
(** * User address spaces (src/kernel/user.c)

    The record [user_space], its initialisation and the mapping of user pages,
    and the facts program loading is built on: what a page taken from the
    frame allocator, mapped for user code and filled holds afterwards, and
    that earlier pages keep what they hold. *)

From S2P Require Import Prelude Memory Pmm Mmu MmuTree MmuOps MmuMap MmuSpaces PageFault.
From stdpp Require Import options.
Import Pmm Mmu MmuTree MmuOps MmuMap MmuSpaces.

Module UserSpace.

Definition USER_BASE : Z := 0x400000.
Definition USER_STACK_TOP : Z := PageFault.USER_STACK_TOP.
Definition USER_STACK_MAX_PAGES : Z := PageFault.USER_STACK_MAX_PAGES.
Definition USER_STACK_PAGE_SIZE : Z := 4096.

Record user_space := mk_space {
  pml4_phys : Z;
  entry : Z;
  stack_top : Z;
  stack_bottom : Z;
  stack_pages : Z;
  stack_phys : list Z;
}.

(** Loops whose body may return from the function with a value other than 0. *)
Section Until.
Context {A : Type} (f : Z → A → result (Z * A)) (step : Z).

Fixpoint efold (i : Z) (n : nat) (a : A) : result (Z * A) :=
  match n with
  | O => Ret (0, a)
  | S n' => '(r, a1) ← f i a; if r =? 0 then efold (i + step) n' a1 else Ret (r, a1)
  end.

Lemma efold_inv (P : Z → A → Prop) n : ∀ i a a',
  P i a →
  (∀ k b b', 0 ≤ k < Z.of_nat n → P (i + k * step) b → f (i + k * step) b = Ret (0, b') →
     P (i + (k + 1) * step) b') →
  efold i n a = Ret (0, a') → P (i + Z.of_nat n * step) a'.
Proof.
  induction n as [|n IH]; intros i a a' H0 Hs H; cbn [efold] in H.
  - injection H as <-. by replace (i + Z.of_nat 0 * step) with i by lia.
  - apply bind_Ret in H as ([r b] & Hb & H). case_if in H; [subst r|by injection H].
    replace (i + Z.of_nat (S n) * step) with ((i + step) + Z.of_nat n * step) by lia.
    eapply IH; [| |done].
    + replace (i + step) with (i + (0 + 1) * step) by lia.
      eapply (Hs 0); [lia| |]; replace (i + 0 * step) with i by lia; done.
    + intros k c c' Hk Hc Hf. replace (i + step + (k + 1) * step) with (i + (k + 1 + 1) * step) by lia.
      eapply (Hs (k + 1)); [lia| |]; replace (i + (k + 1) * step) with (i + step + k * step) by lia; done.
Qed.

Lemma efold_runs (P : Z → A → Prop) n : ∀ i a r a',
  P i a →
  (∀ k b r b', 0 ≤ k < Z.of_nat n → P (i + k * step) b → f (i + k * step) b = Ret (r, b') →
     r = 0 ∧ P (i + (k + 1) * step) b') →
  efold i n a = Ret (r, a') → r = 0.
Proof.
  induction n as [|n IH]; intros i a r a' H0 Hs H; cbn [efold] in H; [by injection H|].
  apply bind_Ret in H as ([r1 b] & Hb & H).
  destruct (Hs 0 a r1 b ltac:(lia)) as [-> Hp]; [by replace (i + 0 * step) with i by lia..|]. cbn [Z.eqb] in H.
  eapply (IH (i + step)); [| |done]; [by replace (i + step) with (i + (0 + 1) * step) by lia|].
  intros k c r2 c' Hk. replace (i + step + k * step) with (i + (k + 1) * step) by lia.
  replace (i + step + (k + 1) * step) with (i + (k + 1 + 1) * step) by lia. apply Hs. lia.
Qed.
End Until.

(** ** The only failure is that no frame is left *)

Definition oom {A} (r : result A) : Prop :=
  match r with Ret _ => True | Panic msg code => msg = "Out of physical memory"%string ∧ code = 0 end.

Lemma oom_bind {A B} (r : result A) (f : A → result B) : oom r → (∀ a, oom (f a)) → oom (r ≫= f).
Proof. intros Hr Hf. destruct r; [apply Hf|done]. Qed.

Create HintDb oom.
Ltac solve_oom := repeat first [done | by eauto with oom | apply oom_bind; [|intros] | case_match].

Lemma pmm_alloc_page_oom s : oom (pmm_alloc_page s).
Proof. unfold pmm_alloc_page. by repeat case_match. Qed.
#[export] Hint Resolve pmm_alloc_page_oom : oom.

Lemma ensure_table_oom s parent index flags : oom (ensure_table s parent index flags).
Proof. unfold ensure_table. solve_oom. Qed.
#[export] Hint Resolve ensure_table_oom : oom.

Lemma mmu_map_page_in_oom s root virt phys flags : oom (mmu_map_page_in s root virt phys flags).
Proof. unfold mmu_map_page_in, walk_alloc. solve_oom. Qed.
#[export] Hint Resolve mmu_map_page_in_oom : oom.

Lemma mmu_create_user_pml4_oom pml4_table s : oom (mmu_create_user_pml4 pml4_table s).
Proof. unfold mmu_create_user_pml4. solve_oom. Qed.
#[export] Hint Resolve mmu_create_user_pml4_oom : oom.

Lemma efold_oom {A} (f : Z → A → result (Z * A)) step n : (∀ i a, oom (f i a)) → ∀ i a, oom (efold f step i n a).
Proof. intros Hf. induction n as [|n IH]; intros i a; cbn [efold]; solve_oom. Qed.
#[export] Hint Resolve efold_oom : oom.

Definition user_space_init (pml4_table : Z) (s : pmm) (space : user_space)
    : result (Z * user_space * pmm) :=
  '(pml4, s1) ← mmu_create_user_pml4 pml4_table s;
  if pml4 =? 0 then Ret (-1, space, s1)
  else Ret (0, mk_space pml4 USER_BASE USER_STACK_TOP USER_STACK_TOP 0
              (replicate (Z.to_nat USER_STACK_MAX_PAGES) 0), s1).

Definition user_space_map_page (space : user_space) (virt phys flags : Z) (s : pmm)
    : result (Z * pmm) :=
  if pml4_phys space =? 0 then Ret (-1, s)
  else mmu_map_page_in s (pml4_phys space) virt phys (Z.lor flags MMU_FLAG_USER).

Definition set_stack_phys (space : user_space) (i phys : Z) : user_space :=
  mk_space (pml4_phys space) (entry space) (stack_top space) (stack_bottom space)
    (stack_pages space) (<[Z.to_nat i := phys]> (stack_phys space)).

(** One iteration of the loop of [user_space_map_stack]. *)
Definition map_stack_page (bottom i : Z) (a : user_space * pmm) : result (Z * (user_space * pmm)) :=
  let '(space, s) := a in
  '(phys, s1) ← pmm_alloc_page s;
  if phys =? 0 then Ret (-1, (space, s1))
  else
    let virt := bottom + i * USER_STACK_PAGE_SIZE in
    '(r, s2) ← user_space_map_page space virt phys (Z.lor MMU_FLAG_WRITE MMU_FLAG_NOEXEC) s1;
    if negb (r =? 0) then Ret (-1, (space, s2))
    else Ret (0, (set_stack_phys space i phys, s2)).

Definition user_space_map_stack (space : user_space) (pages : Z) (s : pmm)
    : result (Z * user_space * pmm) :=
  if (pml4_phys space =? 0) || (pages =? 0) || (USER_STACK_MAX_PAGES <? pages)
  then Ret (-1, space, s)
  else
    let bottom := USER_STACK_TOP - pages * USER_STACK_PAGE_SIZE in
    '(r, (space1, s1)) ← efold (map_stack_page bottom) 1 0 (Z.to_nat pages) (space, s);
    if negb (r =? 0) then Ret (-1, space1, s1)
    else Ret (0, mk_space (pml4_phys space1) (entry space1) USER_STACK_TOP bottom pages
                (stack_phys space1), s1).

Lemma user_space_map_page_oom space virt phys flags s : oom (user_space_map_page space virt phys flags s).
Proof. unfold user_space_map_page. solve_oom. Qed.
#[export] Hint Resolve user_space_map_page_oom : oom.

Lemma user_space_map_stack_oom space pages s : oom (user_space_map_stack space pages s).
Proof.
  unfold user_space_map_stack. case_match; [done|]. apply oom_bind; [|intros [? []]; by case_match].
  apply efold_oom. intros i [sp s1]. unfold map_stack_page. solve_oom.
Qed.
#[export] Hint Resolve user_space_map_stack_oom : oom.

(** ** Pages mapped for user code *)

(** Every table on the way to [v] is reachable by user code. *)
Definition user_path (m : memory) (root v : Z) : Prop :=
  is_Some (path_table m root (v3 v)) ∧ user_walk m root v.

(** An address space whose lower 512 GiB hold no large pages. *)
Record uspace (s : pmm) (root : Z) : Prop := {
  us_wf : wf s;
  us_bound : phys_bound s;
  us_tree : tree_ok s root;
  us_small : ∀ v, pml4_index v = 0 → no_huge_at (mem s) root v;
}.

(** [s'] is [s] with the pages in [P] changed and new frames in use. *)
Record extends (s s' : pmm) (root : Z) (P : Z → Prop) : Prop := {
  ex_ok : uspace s' root;
  ex_free : ∀ x, free_frame s' x → free_frame s x;
  ex_data : ∀ a, data_frame s root a → data_frame s' root a;
  ex_bytes : ∀ a b, data_frame s root a → a ≤ b < a + 4096 → rd8 (mem s') b = rd8 (mem s) b;
  ex_other : ∀ w, ¬ P (vpn w) → translate (mem s') root w = translate (mem s) root w;
  ex_user : ∀ v, user_path (mem s) root v → user_path (mem s') root v;
}.

Lemma extends_refl s root P : uspace s root → extends s s root P.
Proof. by split. Qed.

Lemma extends_trans s1 s2 s3 root P Q R :
  extends s1 s2 root P → extends s2 s3 root Q → (∀ x, P x → R x) → (∀ x, Q x → R x) →
  extends s1 s3 root R.
Proof.
  intros [? Hf Hd Hb Ho Hu] [? Hf' Hd' Hb' Ho' Hu'] HP HQ. split; eauto.
  - intros a b Ha Hab. rewrite (Hb' a b) by eauto. eauto.
  - intros w Hw. rewrite Ho', Ho by eauto. done.
Qed.

(** The page of [v] is a private frame with leaf flags [fl] and bytes [g]. *)
Definition holds (s : pmm) (root v fl : Z) (g : Z → Z) : Prop :=
  ∃ f, translate (mem s) root v = Some (f, fl) ∧ data_frame s root f ∧
    user_path (mem s) root v ∧ ∀ o, 0 ≤ o < 4096 → rd8 (mem s) (f + o) = g o.

Lemma holds_extends s s' root P v fl g :
  extends s s' root P → ¬ P (vpn v) → holds s root v fl g → holds s' root v fl g.
Proof.
  intros E Hv (f & Ht & Hd & Hu & Hb). exists f. split_and!.
  - by rewrite (ex_other _ _ _ _ E).
  - by apply (ex_data _ _ _ _ E).
  - by apply (ex_user _ _ _ _ E).
  - intros o Ho. rewrite (ex_bytes _ _ _ _ E f) by (done || lia). by apply Hb.
Qed.

Lemma leaf4k_user e f fl :
  leaf4k e = Some (f, fl) → has fl MMU_FLAG_USER = true →
  has e PTE_PRESENT = true ∧ has e PTE_USER = true.
Proof.
  unfold leaf4k. destruct (has e PTE_PRESENT) eqn:Hp; [|done]. intros [= <- <-] Hu. split; [done|].
  change MMU_FLAG_USER with PTE_USER in Hu. rewrite has_user in *.
  rewrite Z.land_spec in Hu. by apply andb_true_iff in Hu as [? _].
Qed.

(** Such a page passes the check the system calls make on user pointers. *)
Lemma holds_present s root v fl g :
  root ≠ 0 → holds s root v fl g → has fl MMU_FLAG_USER = true →
  user_page_present (mem s) root v = true.
Proof.
  intros Hr (f & Ht & _ & [[pt Hpt] Hw] & _) Hfl. unfold translate in Ht.
  change [pml4_index v; pdpt_index v; pd_index v] with (v3 v) in Ht. rewrite Hpt in Ht.
  destruct (leaf4k_user _ _ _ Ht Hfl). by apply (user_page_present_walk _ _ _ pt).
Qed.

Lemma user_entry_leaf s s' root v e q j :
  leaf_written s s' root v e → path_ok q → (length q ≤ 2)%nat → 0 ≤ j < 512 →
  user_entry (mem s) root q j → user_entry (mem s') root q j.
Proof.
  intros L Hq Hl Hj (t & Ht & Hn & Hu). exists t. rewrite (lw_paths _ _ _ _ _ L) by done.
  split; [done|]. unfold next. by rewrite (lw_upper _ _ _ _ _ L q t j).
Qed.

Lemma user_path_grown s s' root v :
  grown s s' root → user_path (mem s) root v → user_path (mem s') root v.
Proof.
  intros G ([pt Hpt] & U4 & U3 & U2). split.
  - exists pt. apply (g_mono _ _ _ G); auto with tree.
  - split_and!; apply (g_user _ _ _ G); auto with tree words.
Qed.

Lemma user_path_leaf s s' root v w e :
  leaf_written s s' root v e → user_path (mem s) root w → user_path (mem s') root w.
Proof.
  intros L ([pt Hpt] & U4 & U3 & U2). split.
  - exists pt. rewrite (lw_paths _ _ _ _ _ L); auto with tree.
  - split_and!; eapply user_entry_leaf; eauto with tree words; simpl; lia.
Qed.

Lemma no_huge_leaf s s' root v w e :
  leaf_written s s' root v e → no_huge_at (mem s) root w → no_huge_at (mem s') root w.
Proof.
  intros L Hn t Ht. rewrite (lw_paths _ _ _ _ _ L) in Ht by auto with tree.
  rewrite (lw_upper _ _ _ _ _ L (v2 w) t); auto with tree words; simpl; lia.
Qed.

(** Mapping a page for user code. *)
Lemma map_in_extends s root virt phys flags s' :
  uspace s root → pml4_index virt = 0 → 0 ≤ phys < 2 ^ 52 → has flags MMU_FLAG_USER = true →
  mmu_map_page_in s root virt phys flags = Ret (0, s') →
  extends s s' root (eq (vpn virt)) ∧ user_path (mem s') root virt ∧
  translate (mem s') root virt = Some (phys, Z.land flags LEAF).
Proof.
  intros [W B T Hn] Hv Hp Hfl H. unfold mmu_map_page_in in H. case_if in H; [done|].
  repeat match goal with H : has _ 0xFFF = false |- _ => apply has_offset in H end.
  apply bind_Ret in H as ([pt s1] & Hw & H). case_if in H; [done|]. injection H as <-.
  destruct (walk_alloc_spec s root virt flags pt s1 W B T (no_huge_split_ok _ _ _ (Hn virt Hv)) Hw)
    as (G & Hpt & Hu). specialize (Hu Hfl (Hn virt Hv)).
  destruct (map_leaf s s1 root virt pt phys flags T G Hpt ltac:(done) Hp) as [M L].
  set (s' := with_mem s1 _) in *. clearbody s'.
  destruct M as [W' Hr' T' Hf' Hsame Hother Hbytes Hdata].
  assert (∀ w, user_path (mem s) root w → user_path (mem s') root w) as Hup
    by (intros; eapply user_path_leaf, user_path_grown; eauto).
  split; [|split].
  - split; auto.
    + split; [done|by intros r; rewrite Hr'; apply B|done|].
      intros v E. eapply no_huge_leaf, grown_no_huge; eauto.
    + intros w E. rewrite <- !hw_translate_eq by done. apply Hother. congruence.
  - eapply user_path_leaf; [done|]. split; [by exists pt|done].
  - rewrite <- hw_translate_eq by done. by apply Hsame.
Qed.

(** A page that is not mapped can be mapped. *)
Lemma map_in_unmapped s root virt phys flags r s' :
  uspace s root → pml4_index virt = 0 → virt mod 4096 = 0 → phys mod 4096 = 0 →
  translate (mem s) root virt = None → mmu_map_page_in s root virt phys flags = Ret (r, s') → r = 0.
Proof.
  intros [W B T Hn] Hv Hva Hpa Ht H. unfold mmu_map_page_in in H.
  destruct (tree_tables _ _ T [] root) as (Hra & Hr0 & _); [auto with tree|done|].
  rewrite (proj2 (Z.eqb_neq root 0)), !(proj2 (has_offset _)) in H by (done || lia). cbn [orb] in H.
  apply bind_Ret in H as ([pt s1] & Hw & H).
  destruct (walk_alloc_spec s root virt flags pt s1 W B T (no_huge_split_ok _ _ _ (Hn virt Hv)) Hw) as (G & Hpt & _).
  pose proof (g_translate _ _ _ G virt) as E. rewrite Ht in E. unfold translate in E.
  change [pml4_index virt; pdpt_index virt; pd_index virt] with (v3 virt) in E. rewrite Hpt in E. unfold leaf4k in E.
  destruct (has (entry_at (mem s1) pt (pt_index virt)) PTE_PRESENT); [done|]. cbn [andb] in H. congruence.
Qed.

(** A page that is mapped to another frame is not mapped again. *)
Lemma map_in_refuses s root virt phys flags f fl r s' :
  uspace s root → phys mod 4096 = 0 → 0 ≤ phys < 2 ^ 52 →
  user_path (mem s) root virt → translate (mem s) root virt = Some (f, fl) → f ≠ phys →
  mmu_map_page_in s root virt phys flags = Ret (r, s') → r = -1.
Proof.
  intros [W B T Hn] Hal Hp [[pt Hpt] _] Ht Hne H. unfold mmu_map_page_in in H.
  case_if in H; [by injection H|]. apply bind_Ret in H as ([pt' s1] & Hw & H).
  destruct (walk_alloc_existing s root virt flags pt W B T Hpt) as (s2 & Hw' & G).
  rewrite Hw in Hw'. injection Hw' as <- <-.
  rewrite (g_pte _ _ _ G (v3 virt)) in H by auto with tree words.
  unfold translate in Ht. change [pml4_index virt; pdpt_index virt; pd_index virt] with (v3 virt) in Ht.
  rewrite Hpt in Ht. pose proof (entry_range (mem s) pt' (pt_index virt)) as He.
  set (e := entry_at (mem s) pt' (pt_index virt)) in *. clearbody e.
  unfold leaf4k in Ht. destruct (has e PTE_PRESENT); [|done]. injection Ht as Hf _.
  case_if in H; [by injection H|]. cbn [andb] in *. bsimp.
  change (Z.land phys (not64 0xFFF)) with (table_addr phys) in *.
  rewrite (table_addr_eq phys) in * by lia. exfalso. apply Hne. rewrite <- Hf.
  rewrite land_hw_addr by lia. lia.
Qed.

(** Writing into data frames changes no address space. *)
Lemma data_write s root (F : Z → Prop) m' :
  uspace s root → (∀ f, F f → data_frame s root f) →
  (∀ b, (∀ f, F f → b < f ∨ f + 4096 ≤ b) → rd8 m' b = rd8 (mem s) b) →
  uspace (with_mem s m') root ∧
  (∀ x, free_frame (with_mem s m') x ↔ free_frame s x) ∧
  (∀ a, data_frame s root a → data_frame (with_mem s m') root a) ∧
  (∀ w, translate m' root w = translate (mem s) root w) ∧
  (∀ v, user_path (mem s) root v → user_path m' root v).
Proof.
  intros [W B T Hn] HF Hb.
  destruct (with_mem_wf s m' W) as [W' Hfree].
  { intros b Hin. apply Hb. intros f (_ & _ & Hbm & _)%HF.
    destruct (decide (f ≤ b < f + 4096)); [|lia]. by destruct (Hbm b). }
  assert (∀ q t j, path_ok q → path_table (mem s) root q = Some t → 0 ≤ j < 512 →
    entry_at m' t j = entry_at (mem s) t j) as He.
  { intros q t j Hq Ht Hj. destruct (tree_tables _ _ T _ _ Hq Ht) as (Hta & _).
    apply entry_ext; [done|]. intros b Hbr. apply Hb. intros f (Hal & _ & _ & Htab)%HF.
    specialize (Htab q t Hq Ht). dlia. }
  destruct (tree_preserved s (with_mem s m') root T eq_refl (λ x Hx, proj1 (Hfree x) Hx) He)
    as (T' & Hp & Htr). cbn [mem with_mem] in *.
  assert (∀ q j, path_ok q → 0 ≤ j < 512 → user_entry (mem s) root q j → user_entry m' root q j) as Hue.
  { intros q j Hq Hj (t & Ht & Hnx & Hu). exists t. rewrite Hp by done. split; [done|].
    unfold next. by rewrite (He q t j). }
  split_and!; auto.
  - split; [done|done|done|]. intros v E t Ht. cbn [mem with_mem] in *. rewrite Hp in Ht by auto with tree.
    rewrite (He (v2 v) t) by auto with tree words. by apply Hn.
  - intros a (? & ? & ? & Hta). split_and!; auto; [by rewrite Hfree|].
    intros q t Hq. cbn [mem with_mem]. rewrite Hp by done. by apply Hta.
  - intros v ([pt Hpt] & U4 & U3 & U2). split; [exists pt; rewrite Hp; auto with tree|].
    split_and!; apply Hue; auto with tree words.
Qed.

(** Taking a frame changes no address space. *)
Lemma alloc_extends s root f s1 :
  uspace s root → pmm_alloc_page s = Ret (f, s1) →
  extends s s1 root (λ _, False) ∧ data_frame s1 root f.
Proof.
  intros [W B T Hn] Ha.
  pose proof (alloc_filled s s1 root f (mem s1) W T Ha (λ b _, eq_refl)) as D.
  replace (with_mem s1 (mem s1)) with s1 in D by (by destruct s1).
  split; [split; [|apply D|apply D|apply D|intros; apply D|]|exact (da_frame _ _ _ _ D)].
  - split; [apply D| |apply D|].
    + intros r. rewrite (da_regions _ _ _ _ D). apply B.
    + intros w Hw t Ht. rewrite (da_paths _ _ _ _ D) in Ht by auto with tree.
      rewrite (da_entries _ _ _ _ D (v2 w) t) by auto with tree words. by apply Hn.
  - intros w ([pt Hpt] & U4 & U3 & U2). split; [exists pt; rewrite (da_paths _ _ _ _ D); auto with tree|].
    assert (∀ q j, path_ok q → 0 ≤ j < 512 → user_entry (mem s) root q j → user_entry (mem s1) root q j)
      as Hue; [|split_and!; apply Hue; auto with tree words].
    intros q j Hq Hj (t & Ht & Hnx & Hu). exists t. rewrite (da_paths _ _ _ _ D) by done. split; [done|].
    unfold next. by rewrite (da_entries _ _ _ _ D q t j).
Qed.

(** A fresh frame mapped at [v] and filled. *)
Lemma map_fresh s root v flags f s1 s2 m' :
  uspace s root → pml4_index v = 0 → pmm_alloc_page s = Ret (f, s1) →
  mmu_map_page_in s1 root v f (Z.lor flags MMU_FLAG_USER) = Ret (0, s2) →
  (∀ b, b < f ∨ f + 4096 ≤ b → rd8 m' b = rd8 (mem s2) b) →
  extends s (with_mem s2 m') root (eq (vpn v)) ∧ free_frame s f ∧
  holds (with_mem s2 m') root v (Z.land (Z.lor flags MMU_FLAG_USER) LEAF) (λ o, rd8 m' (f + o)) ∧
  translate m' root v = Some (f, Z.land (Z.lor flags MMU_FLAG_USER) LEAF).
Proof.
  intros U Hv Ha Hmap Hb. pose proof U as [W B T Hn].
  destruct (pmm_alloc_page_wf _ _ _ W Ha) as (_ & _ & _ & _ & Hal & _ & _ & Hff & _).
  pose proof (alloc_bound _ _ _ W B Ha) as Hf.
  destruct (alloc_extends s root f s1 U Ha) as [E1 Hdf].
  assert (has (Z.lor flags MMU_FLAG_USER) MMU_FLAG_USER = true) as Hfl.
  { change MMU_FLAG_USER with PTE_USER. rewrite has_user, Z.lor_spec. apply orb_true_r. }
  destruct (map_in_extends s1 root v f _ s2 (ex_ok _ _ _ _ E1) Hv ltac:(lia) Hfl Hmap) as (E2 & Hup & Ht).
  pose proof (ex_data _ _ _ _ E2 f Hdf) as Hd2.
  destruct (data_write s2 root (eq f) m' (ex_ok _ _ _ _ E2)) as (U3 & Hf3 & Hd3 & Ht3 & Hu3).
  { by intros ? <-. }
  { intros b Hb'. by apply Hb, Hb'. }
  assert (translate m' root v = Some (f, Z.land (Z.lor flags MMU_FLAG_USER) LEAF)) as Htf by (by rewrite Ht3).
  split_and!; auto.
  - split; [done| | | | |].
    + intros x Hx%Hf3. by apply (ex_free _ _ _ _ E1), (ex_free _ _ _ _ E2).
    + intros a Had. by apply Hd3, (ex_data _ _ _ _ E2), (ex_data _ _ _ _ E1).
    + intros a b Had Hab. cbn [mem with_mem]. rewrite Hb.
      * rewrite (ex_bytes _ _ _ _ E2 a) by (done || by apply (ex_data _ _ _ _ E1)).
        by apply (ex_bytes _ _ _ _ E1 a).
      * destruct Had as (? & Hnf & _). assert (a ≠ f) by (intros ->; done). dlia.
    + intros w Hw. cbn [mem with_mem]. rewrite Ht3, (ex_other _ _ _ _ E2) by done.
      exact (ex_other _ _ _ _ E1 w (λ H, H)).
    + intros w Hw. by apply Hu3, (ex_user _ _ _ _ E2), (ex_user _ _ _ _ E1).
  - exists f. cbn [mem with_mem]. auto.
Qed.

(** A page that already holds something is not mapped to a fresh frame. *)
Lemma map_fresh_held s root v fl g flags f s1 s2 :
  uspace s root → holds s root v fl g → pmm_alloc_page s = Ret (f, s1) →
  mmu_map_page_in s1 root v f flags ≠ Ret (0, s2).
Proof.
  intros U (f' & Ht & (_ & Hnf & _) & Hu & _) Ha Hm. pose proof U as [W B T _].
  destruct (pmm_alloc_page_wf _ _ _ W Ha) as (_ & _ & _ & _ & Hal & _ & _ & Hff & _).
  pose proof (alloc_bound _ _ _ W B Ha) as Hf. assert (f' ≠ f) as Hne by (intros ->; done).
  destruct (alloc_extends s root f s1 U Ha) as [[U1 _ _ _ Ho Hu1] _].
  apply (map_in_refuses s1 _ v f _ f' fl 0 s2 U1) in Hm; auto; [done|lia|].
  by rewrite (Ho v (λ F, F)).
Qed.

Lemma uspace_root s root : uspace s root → root ≠ 0.
Proof. intros [W B T Hn]. destruct (tree_tables _ _ T [] root) as (_ & ? & _); auto with tree; lia. Qed.

(** A page that is not mapped can be given a new frame. *)
Lemma alloc_map_runs s space v flags f s1 :
  uspace s (pml4_phys space) → pml4_index v = 0 → v mod 4096 = 0 →
  translate (mem s) (pml4_phys space) v = None → pmm_alloc_page s = Ret (f, s1) →
  f ≠ 0 ∧ ∀ r s2, user_space_map_page space v f flags s1 = Ret (r, s2) → r = 0.
Proof.
  intros U Hv Hva Ht Ha. pose proof U as [W B T _].
  destruct (pmm_alloc_page_wf _ _ _ W Ha) as (_ & _ & _ & _ & Hal & Hf & _).
  destruct (alloc_extends s _ f s1 U Ha) as [[U1 _ _ _ Ho _] _]. split; [lia|].
  intros r s2 H. unfold user_space_map_page in H. rewrite (proj2 (Z.eqb_neq _ 0) (uspace_root _ _ U)) in H.
  refine (map_in_unmapped s1 _ v f _ r s2 U1 Hv Hva Hal _ H). by rewrite (Ho v (λ F, F)).
Qed.

(** ** Addresses below the top of the user stack *)

Lemma user_pages v : 0 ≤ v < USER_STACK_TOP → pml4_index v = 0 ∧ vpn v = v / 4096.
Proof.
  unfold USER_STACK_TOP, PageFault.USER_STACK_TOP. intros Hv. split.
  - unfold pml4_index. rewrite Z.shiftr_div_pow2 by lia. change 0x1FF with (Z.ones 9).
    rewrite Z.land_ones by lia. dlia.
  - unfold vpn. dlia.
Qed.

Lemma vpn_translate m root a b : vpn a = vpn b → translate m root a = translate m root b.
Proof. intros (E4 & E3 & E2 & E1)%vpn_eq. unfold translate. by rewrite E4, E3, E2, E1. Qed.

Lemma vpn_present m root a b : vpn a = vpn b → user_page_present m root a = user_page_present m root b.
Proof. intros (E4 & E3 & E2 & E1)%vpn_eq. unfold user_page_present. by rewrite E4, E3, E2, E1. Qed.

Lemma holds_byte s root v fl g a :
  uspace s root → holds s root v fl g → vpn a = vpn v → has fl MMU_FLAG_USER = true →
  ∃ f, hw_translate (mem s) root a = Some (f, fl) ∧
    (∀ o, 0 ≤ o < 4096 → rd8 (mem s) (f + o) = g o) ∧ user_page_present (mem s) root a = true.
Proof.
  intros [W B T _] H Ea Hfl. pose proof H as (f & Ht & _ & _ & Hb). exists f. split_and!; auto.
  - by rewrite (hw_translate_eq _ _ _ T), (vpn_translate _ _ a v).
  - rewrite (vpn_present _ _ a v) by done. eapply holds_present; [|done|done].
    destruct (tree_tables _ _ T [] root) as (_ & ? & _); auto with tree; lia.
Qed.

(** ** The stack *)

Definition STACK_LEAF : Z :=
  Z.land (Z.lor (Z.lor MMU_FLAG_WRITE MMU_FLAG_NOEXEC) MMU_FLAG_USER) LEAF.

Definition stack_frame (space : user_space) (i : Z) : Z := nth (Z.to_nat i) (stack_phys space) 0.

(** The first [i] pages of the stack are mapped to frames of their own, which
    were free in [s]. *)
Record stack_mapped (s : pmm) (sp0 : user_space) (bottom i : Z) (a : user_space * pmm) : Prop := {
  sm_root : pml4_phys a.1 = pml4_phys sp0;
  sm_entry : entry a.1 = entry sp0;
  sm_length : length (stack_phys a.1) = length (stack_phys sp0);
  sm_extends : extends s a.2 (pml4_phys sp0) (λ n, ∃ v, bottom ≤ v < bottom + i * 4096 ∧ n = v / 4096);
  sm_frame : ∀ k, 0 ≤ k < i → let f := stack_frame a.1 k in
    translate (mem a.2) (pml4_phys sp0) (bottom + k * 4096) = Some (f, STACK_LEAF) ∧
    user_path (mem a.2) (pml4_phys sp0) (bottom + k * 4096) ∧
    data_frame a.2 (pml4_phys sp0) f ∧ free_frame s f;
  sm_new : ∀ k fl g, 0 ≤ k < i → ¬ holds s (pml4_phys sp0) (bottom + k * 4096) fl g;
  sm_apart : ∀ k l, 0 ≤ k < i → 0 ≤ l < i → k ≠ l →
    Pmm.apart (stack_frame a.1 k) 4096 (stack_frame a.1 l) 4096;
}.

Lemma aligned_apart f g : f mod 4096 = 0 → g mod 4096 = 0 → f ≠ g → Pmm.apart f 4096 g 4096.
Proof. unfold Pmm.apart. dlia. Qed.

Lemma map_stack_page_spec s sp0 bottom i a a' :
  0 ≤ i < Z.of_nat (length (stack_phys sp0)) → bottom mod 4096 = 0 → 0 ≤ bottom →
  bottom + (i + 1) * 4096 ≤ USER_STACK_TOP →
  stack_mapped s sp0 bottom i a → map_stack_page bottom i a = Ret (0, a') →
  stack_mapped s sp0 bottom (i + 1) a'.
Proof.
  intros Hi Hal Hb Htop M H. destruct a as [sp s1]. destruct M as [Hr He Hl E Hf Hnh Hap]. cbn [fst snd] in *.
  unfold map_stack_page in H. apply bind_Ret in H as ([f s2] & Ha & H). case_if in H; [done|].
  apply bind_Ret in H as ([r s3] & Hm & H). case_if in H; [done|]. subst r. injection H as <-.
  unfold user_space_map_page in Hm. case_if in Hm; [done|]. rewrite Hr in Hm.
  unfold USER_STACK_PAGE_SIZE in Hm. set (root := pml4_phys sp0) in *. set (v := bottom + i * 4096) in *.
  destruct (user_pages v ltac:(subst v; lia)) as [Hv0 Hvpn].
  destruct (map_fresh s1 root v _ f s2 s3 (mem s3) (ex_ok _ _ _ _ E) Hv0 Ha Hm (λ b _, eq_refl))
    as (E' & Hff & (f' & Ht & Hd & Hu & _) & Ht').
  replace (with_mem s3 (mem s3)) with s3 in E', Ht, Hd, Hu by (by destruct s3).
  rewrite Ht in Ht'. injection Ht' as ->.
  assert (stack_frame (set_stack_phys sp i f) i = f) as Ef.
  { unfold stack_frame. cbn [stack_phys set_stack_phys]. rewrite nth_lookup, list_lookup_insert_eq by lia. done. }
  assert (∀ k, 0 ≤ k < i → stack_frame (set_stack_phys sp i f) k = stack_frame sp k) as Ek.
  { intros k Hk. unfold stack_frame. cbn [stack_phys set_stack_phys].
    by rewrite !nth_lookup, list_lookup_insert_ne by lia. }
  assert (∀ k, 0 ≤ k < i → Pmm.apart f 4096 (stack_frame sp k) 4096) as Hnew.
  { intros k Hk. destruct (Hf k Hk) as (_ & _ & (Hka & Hkf & _) & _). apply aligned_apart; [apply Hd|done|].
    intros Efk. apply Hkf. by rewrite <- Efk. }
  split; cbn [fst snd]; auto.
  - cbn [stack_phys set_stack_phys]. by rewrite length_insert.
  - eapply extends_trans; [done|done| |].
    + intros n (w & ? & ->). exists w. split; [lia|done].
    + intros n <-. exists v. rewrite Hvpn. split; [lia|done].
  - intros k Hk. destruct (decide (k = i)) as [->|].
    + rewrite Ef. split_and!; auto. by apply (ex_free _ _ _ _ E).
    + rewrite Ek by lia. destruct (Hf k ltac:(lia)) as (H1 & H2 & H3 & H4). split_and!; auto.
      * rewrite (ex_other _ _ _ _ E'); [done|]. rewrite Hvpn, (proj2 (user_pages (bottom + k * 4096) ltac:(lia))). subst v. dlia.
      * by apply (ex_user _ _ _ _ E').
      * by apply (ex_data _ _ _ _ E').
  - intros k fl g Hk. destruct (decide (k = i)) as [->|]; [|apply Hnh; lia].
    intros Hh. refine (map_fresh_held s1 root v fl g _ f s2 s3 (ex_ok _ _ _ _ E) _ Ha Hm).
    eapply holds_extends; [done| |done]. intros (w & ? & Ew). fold v in Ew. rewrite Hvpn in Ew. subst v. dlia.
  - intros k l Hk Hkl Hne. destruct (decide (k = i)) as [->|], (decide (l = i)) as [->|]; try lia.
    + rewrite Ef, Ek by lia. apply Hnew. lia.
    + rewrite Ef, Ek by lia. destruct (Hnew k ltac:(lia)) as [?|?]; unfold Pmm.apart; lia.
    + rewrite !Ek by lia. apply Hap; lia.
Qed.

Lemma user_space_map_stack_spec sp0 pages s sp1 s1 :
  uspace s (pml4_phys sp0) → 0 ≤ pages → length (stack_phys sp0) = Z.to_nat USER_STACK_MAX_PAGES →
  user_space_map_stack sp0 pages s = Ret (0, sp1, s1) →
  let bottom := USER_STACK_TOP - pages * 4096 in
  0 < pages ≤ USER_STACK_MAX_PAGES ∧ stack_top sp1 = USER_STACK_TOP ∧ stack_bottom sp1 = bottom ∧
  stack_pages sp1 = pages ∧ stack_mapped s sp0 bottom pages (sp1, s1).
Proof.
  intros U Hp Hl H bottom. unfold user_space_map_stack in H. case_if in H; [done|].
  apply bind_Ret in H as ([r [sp2 s2]] & Hfold & H). case_if in H; [done|]. subst r. injection H as <- <-.
  unfold USER_STACK_MAX_PAGES, PageFault.USER_STACK_MAX_PAGES in *.
  assert (0 < pages ≤ 4) as Hpg by lia. split; [done|]. do 3 (split; [done|]).
  change (USER_STACK_TOP - pages * USER_STACK_PAGE_SIZE) with bottom in Hfold.
  assert (bottom mod 4096 = 0 ∧ 0 ≤ bottom) as [Hb1 Hb2]
    by (subst bottom; unfold USER_STACK_TOP, PageFault.USER_STACK_TOP; dlia).
  assert (bottom + pages * 4096 = USER_STACK_TOP) as Hb3 by (subst bottom; lia). clearbody bottom.
  apply (efold_inv _ _ (λ i a, stack_mapped s sp0 bottom i a)) in Hfold.
  - replace (0 + Z.of_nat (Z.to_nat pages) * 1) with pages in Hfold by lia. by destruct Hfold.
  - split; auto; [by apply extends_refl|intros; lia..].
  - intros k b b' Hk M Hs. replace (0 + k * 1) with k in * by lia. replace (0 + (k + 1) * 1) with (k + 1) by lia.
    apply (map_stack_page_spec s sp0 bottom k b b'); auto; lia.
Qed.

(** The pages of the stack can be mapped where nothing is. *)
Lemma user_space_map_stack_runs sp0 pages s r sp1 s1 :
  uspace s (pml4_phys sp0) → 0 < pages ≤ USER_STACK_MAX_PAGES →
  length (stack_phys sp0) = Z.to_nat USER_STACK_MAX_PAGES →
  (∀ v, USER_STACK_TOP - pages * 4096 ≤ v < USER_STACK_TOP → translate (mem s) (pml4_phys sp0) v = None) →
  user_space_map_stack sp0 pages s = Ret (r, sp1, s1) → r = 0.
Proof.
  unfold USER_STACK_MAX_PAGES, PageFault.USER_STACK_MAX_PAGES. intros U Hp Hl Hfree H.
  unfold user_space_map_stack in H. unfold USER_STACK_MAX_PAGES, PageFault.USER_STACK_MAX_PAGES in H.
  rewrite (proj2 (Z.eqb_neq _ 0) (uspace_root _ _ U)), (proj2 (Z.eqb_neq pages 0)), (proj2 (Z.ltb_ge 4 pages)) in H by lia.
  cbn [orb] in H. apply bind_Ret in H as ([r' [sp2 s2]] & Hfold & H). unfold USER_STACK_PAGE_SIZE in Hfold.
  set (bottom := USER_STACK_TOP - pages * 4096) in *.
  assert (bottom mod 4096 = 0 ∧ 0 ≤ bottom) as [Hb1 Hb2]
    by (subst bottom; unfold USER_STACK_TOP, PageFault.USER_STACK_TOP; dlia).
  assert (bottom + pages * 4096 = USER_STACK_TOP) as Hb3 by (subst bottom; lia). clearbody bottom.
  apply (efold_runs _ _ (λ i a, stack_mapped s sp0 bottom i a)) in Hfold; [subst r'; cbn in H; congruence|..].
  { split; auto; [by apply extends_refl|intros; lia..]. }
  intros k [sp3 s3] r3 b' Hk M Hs. replace (0 + k * 1) with k in * by lia. replace (0 + (k + 1) * 1) with (k + 1) by lia.
  pose proof (sm_root _ _ _ _ _ M) as Hr. pose proof (sm_extends _ _ _ _ _ M) as E. cbn [fst snd] in Hr, E.
  set (v := bottom + k * 4096). destruct (user_pages v ltac:(subst v; lia)) as [Hv0 Hvpn].
  assert (translate (mem s3) (pml4_phys sp0) v = None) as Ht.
  { rewrite (ex_other _ _ _ _ E); [apply Hfree; subst v; lia|]. intros (w & ? & Ew). rewrite Hvpn in Ew. subst v. dlia. }
  assert (r3 = 0) as ->; [|split; [done|apply (map_stack_page_spec s sp0 bottom k (sp3, s3) b'); auto; lia]].
  unfold map_stack_page in Hs. apply bind_Ret in Hs as ([f s4] & Ha & Hs).
  rewrite <- Hr in Ht, E. destruct (alloc_map_runs s3 sp3 v (Z.lor MMU_FLAG_WRITE MMU_FLAG_NOEXEC) f s4 (ex_ok _ _ _ _ E) Hv0
    ltac:(subst v; dlia) Ht Ha) as [Hf0 Hrun].
  rewrite (proj2 (Z.eqb_neq f 0) Hf0) in Hs. apply bind_Ret in Hs as ([r4 s5] & Hm & Hs).
  change (bottom + k * USER_STACK_PAGE_SIZE) with v in Hm. rewrite (Hrun r4 s5 Hm) in Hs. cbn in Hs. congruence.
Qed.

End UserSpace.
