(* ===== verification/Elf.v ===== *)
(** * Program images (src/kernel/elf.c)

    [elf_load_user] copies the loadable segments of an ELF file into fresh
    frames mapped for user code.  The image is a function from 64-bit offsets
    to bytes, because nothing stops the code from reading outside the file:
    offset [k] is the byte at address [image + k], modulo 2^64.  The image lies
    in the kernel's read-only data, apart from every frame that is written. *)

From S2P Require Import Prelude Memory Pmm Mmu MmuTree MmuOps MmuMap MmuSpaces PageFault UserSpace.
From stdpp Require Import options.
Import Pmm Mmu MmuTree MmuOps UserSpace.

Module Elf.

Definition ELFCLASS64 : Z := 2.
Definition ELFDATA2LSB : Z := 1.
Definition PT_LOAD : Z := 1.
Definition PF_X : Z := 0x1.
Definition PF_W : Z := 0x2.
Definition EHDR_SIZE : Z := 64.
Definition PHDR_SIZE : Z := 56.

(** [bytes[off]] and little-endian fields of the packed structs. *)
Definition byte (src : Z → Z) (off : Z) : Z := w8 (src (w64 off)).

Fixpoint field (n : nat) (src : Z → Z) (off : Z) : Z :=
  match n with
  | O => 0
  | S n' => byte src off + 256 * field n' src (off + 1)
  end.

Record Elf64_Ehdr := mk_ehdr {
  e_ident : list Z;
  e_entry : Z;
  e_phoff : Z;
  e_phentsize : Z;
  e_phnum : Z;
}.

Record Elf64_Phdr := mk_phdr {
  p_type : Z;
  p_flags : Z;
  p_offset : Z;
  p_vaddr : Z;
  p_filesz : Z;
  p_memsz : Z;
}.

(** The casts of the image to the header structs, for the fields in use. *)
Definition ehdr_at (src : Z → Z) : Elf64_Ehdr :=
  mk_ehdr (byte src <$> seqZ 0 16) (field 8 src 24) (field 8 src 32) (field 2 src 54) (field 2 src 56).

Definition phdr_at (src : Z → Z) (off : Z) : Elf64_Phdr :=
  mk_phdr (field 4 src off) (field 4 src (off + 4)) (field 8 src (off + 8)) (field 8 src (off + 16))
    (field 8 src (off + 32)) (field 8 src (off + 40)).

Definition ident (eh : Elf64_Ehdr) (i : nat) : Z := nth i (e_ident eh) 0.

Definition elf_check_header (eh : Elf64_Ehdr) (size : Z) : Z :=
  if size <? EHDR_SIZE then -1
  else if negb (ident eh 0 =? 0x7F) || negb (ident eh 1 =? 0x45) || negb (ident eh 2 =? 0x4C) ||
    negb (ident eh 3 =? 0x46) then -1
  else if negb (ident eh 4 =? ELFCLASS64) || negb (ident eh 5 =? ELFDATA2LSB) ||
    negb (ident eh 6 =? 1) then -1
  else if negb (e_phentsize eh =? PHDR_SIZE) || (e_phnum eh =? 0) then -1
  else if size <? w64 (e_phoff eh + e_phnum eh * PHDR_SIZE) then -1
  else 0.

Definition seg_start (ph : Elf64_Phdr) : Z := align_down (p_vaddr ph) 4096.
Definition seg_end (ph : Elf64_Phdr) : Z := align_up (w64 (p_vaddr ph + p_memsz ph)) 4096.

Definition seg_flags (ph : Elf64_Phdr) : Z :=
  let flags := 0 in
  let flags := if has (p_flags ph) PF_W then Z.lor flags MMU_FLAG_WRITE else flags in
  if negb (has (p_flags ph) PF_X) then Z.lor flags MMU_FLAG_NOEXEC else flags.

(** [for (k = 0; k < len; ++k) dst[dst_off + k] = bytes[src_off + k]]. *)
Definition copy_in (m : memory) (src : Z → Z) (dst src_off len : Z) : memory :=
  for_range 0 len (λ k m, wr8 m (dst + k) (byte src (src_off + k))) m.

(** The body of the loop over the pages of a segment. *)
Definition load_page (src : Z → Z) (space : user_space) (ph : Elf64_Phdr) (v : Z) (s : pmm)
    : result (Z * pmm) :=
  '(phys, s1) ← pmm_alloc_page s;
  if phys =? 0 then Ret (-1, s1)
  else
    '(r, s2) ← user_space_map_page space v phys (seg_flags ph) s1;
    if negb (r =? 0) then Ret (-1, s2)
    else
      let m := memset (mem s2) phys 0 4096 in
      let page_end := w64 (v + 4096) in
      let data_start := p_vaddr ph in
      let data_end := w64 (p_vaddr ph + p_filesz ph) in
      let copy_start := if data_start <? v then v else data_start in
      let copy_end := if page_end <? data_end then page_end else data_end in
      if copy_start <? copy_end then
        let src_off := w64 (p_offset ph + (copy_start - p_vaddr ph)) in
        let dst_off := copy_start - v in
        Ret (0, with_mem s2 (copy_in m src (phys + dst_off) src_off (copy_end - copy_start)))
      else Ret (0, with_mem s2 m).

(** The checks and the loop for one program header. *)
Definition load_segment (src : Z → Z) (size : Z) (space : user_space) (ph : Elf64_Phdr) (s : pmm)
    : result (Z * pmm) :=
  if negb (p_type ph =? PT_LOAD) then Ret (0, s)
  else if (p_memsz ph =? 0) || (p_memsz ph <? p_filesz ph) then Ret (-1, s)
  else if size <? w64 (p_offset ph + p_filesz ph) then Ret (-1, s)
  else if w64 (p_vaddr ph + p_memsz ph) <? p_vaddr ph then Ret (-1, s)
  else
    let load_min := if 0x1000 <=? USER_BASE then USER_BASE - 0x1000 else USER_BASE in
    if (seg_start ph <? load_min) || (USER_STACK_TOP <? seg_end ph) then Ret (-1, s)
    else efold (load_page src space ph) 4096 (seg_start ph)
           (Z.to_nat ((seg_end ph - seg_start ph + 4095) / 4096)) s.

Definition phdr (src : Z → Z) (i : Z) : Elf64_Phdr :=
  phdr_at src (e_phoff (ehdr_at src) + i * PHDR_SIZE).

Definition elf_load_user (image : option (Z → Z)) (size : Z) (space : user_space) (s : pmm)
    : result (Z * user_space * pmm) :=
  match image with
  | None => Ret (-1, space, s)
  | Some src =>
      if size =? 0 then Ret (-1, space, s)
      else
        let eh := ehdr_at src in
        if negb (elf_check_header eh size =? 0) then Ret (-1, space, s)
        else
          '(r, s1) ← efold (λ i, load_segment src size space (phdr src i)) 1 0
                       (Z.to_nat (e_phnum eh)) s;
          if negb (r =? 0) then Ret (-1, space, s1)
          else Ret (0, mk_space (pml4_phys space) (e_entry eh) (stack_top space) (stack_bottom space)
                      (stack_pages space) (stack_phys space), s1)
  end.

(** ** Reading the image *)

Lemma byte_range src off : 0 ≤ byte src off < 256.
Proof. apply w8_range. Qed.

Lemma field_range n src : ∀ off, 0 ≤ field n src off < 256 ^ Z.of_nat n.
Proof.
  induction n as [|n IH]; intros off; [simpl; lia|]. cbn [field].
  pose proof (byte_range src off). specialize (IH (off + 1)).
  rewrite Nat2Z.inj_succ, Z.pow_succ_r by lia. lia.
Qed.

(** The fields in their C ranges. *)
Lemma phdr_ranges src i :
  let ph := phdr src i in
  0 ≤ p_vaddr ph < 2 ^ 64 ∧ 0 ≤ p_filesz ph < 2 ^ 64 ∧ 0 ≤ p_memsz ph < 2 ^ 64 ∧
  0 ≤ p_offset ph < 2 ^ 64.
Proof.
  intros ph. split_and!; subst ph; unfold phdr, phdr_at;
    cbn [p_vaddr p_filesz p_memsz p_offset]; apply (field_range 8).
Qed.

(** ** One page *)

Lemma rd8_copy_in m src dst off len b :
  0 ≤ len →
  rd8 (copy_in m src dst off len) b =
  if decide (dst ≤ b < dst + len) then byte src (off + (b - dst)) else rd8 m b.
Proof.
  intros Hl. unfold copy_in.
  assert (∀ k, 0 ≤ k → rd8 (for_range 0 k (λ k m, wr8 m (dst + k) (byte src (off + k))) m) b =
    if decide (dst ≤ b < dst + k) then byte src (off + (b - dst)) else rd8 m b) as H; [|by apply H].
  clear Hl len. apply (natlike_ind _).
  - rewrite decide_False, for_range_nil by lia. done.
  - intros k Hk IH. rewrite <- (Z.add_1_r k), for_range_snoc by lia. rewrite rd8_wr8.
    destruct (decide (dst + k = b)) as [<-|]; rewrite ?IH.
    + rewrite decide_True by lia. replace (dst + k - dst) with k by lia.
      apply w8_small, byte_range.
    + destruct (decide (dst ≤ b < dst + k)), (decide (dst ≤ b < dst + (k + 1))); done || lia.
Qed.

(** The byte at address [a] of a loaded segment. *)
Definition seg_byte (src : Z → Z) (ph : Elf64_Phdr) (a : Z) : Z :=
  if decide (p_vaddr ph ≤ a < p_vaddr ph + p_filesz ph)
  then byte src (p_offset ph + (a - p_vaddr ph)) else 0.

Definition leaf_flags (ph : Elf64_Phdr) : Z := Z.land (Z.lor (seg_flags ph) MMU_FLAG_USER) LEAF.

Lemma byte_w64 src a b : byte src (w64 a + b) = byte src (a + b).
Proof. unfold byte, w64. by rewrite Zplus_mod_idemp_l. Qed.

Section Page.
Context (src : Z → Z) (ph : Elf64_Phdr) (space : user_space).
Context (Hvaddr : 0 ≤ p_vaddr ph) (Hfile : 0 ≤ p_filesz ph) (Hoff : 0 ≤ p_offset ph).
Context (Hend : p_vaddr ph + p_filesz ph < 2 ^ 64).

Lemma load_page_spec v s s' :
  uspace s (pml4_phys space) → 0 ≤ v < USER_STACK_TOP →
  load_page src space ph v s = Ret (0, s') →
  extends s s' (pml4_phys space) (eq (v / 4096)) ∧
  holds s' (pml4_phys space) v (leaf_flags ph) (λ o, seg_byte src ph (v + o)).
Proof using All.
  intros U Hv H. destruct (user_pages v Hv) as [Hi Hvpn].
  assert (0 ≤ v < 2 ^ 63) as Hv' by (clear -Hv; unfold USER_STACK_TOP, PageFault.USER_STACK_TOP in Hv; lia).
  unfold load_page in H. apply bind_Ret in H as ([f s1] & Ha & H). case_if in H; [done|].
  apply bind_Ret in H as ([r s2] & Hm & H). case_if in H; [done|].
  unfold user_space_map_page in Hm. case_if in Hm; [injection Hm as <- _; done|]. subst r.
  assert (∃ m', s' = with_mem s2 m' ∧ ∀ b, rd8 m' b =
    if decide (f ≤ b < f + 4096) then seg_byte src ph (v + (b - f)) else rd8 (mem s2) b)
    as (m' & -> & Hm').
  { clear -H Hv' Hvaddr Hfile Hoff Hend. rewrite (w64_small (v + 4096)), (w64_small (_ + p_filesz ph)) in H by lia.
    unfold seg_byte.
    repeat case_if in H; eexists; (split; [by injection H as <-|]); intros b;
      rewrite ?rd8_copy_in, (rd8_memset (mem s2)), ?byte_w64 by lia;
      repeat case_decide; done || lia || (f_equal; lia). }
  destruct (map_fresh s _ v (seg_flags ph) f s1 s2 m' U Hi Ha Hm) as (E & _ & (f' & Ht & Hd & Hu & Hb) & Ht').
  { intros b Hb. by rewrite Hm', decide_False by lia. }
  rewrite <- Hvpn. split; [done|]. exists f. cbn [mem with_mem] in *.
  rewrite Ht in Ht'. injection Ht' as ->. split_and!; auto.
  intros o Ho. rewrite Hm', decide_True by lia. f_equal. lia.
Qed.

(** A page that already holds something is not loaded over. *)
Lemma load_page_held v s s' fl g :
  uspace s (pml4_phys space) → 0 ≤ v < USER_STACK_TOP → holds s (pml4_phys space) v fl g →
  load_page src space ph v s ≠ Ret (0, s').
Proof using Type.
  intros U Hv Hh H.
  unfold load_page in H. apply bind_Ret in H as ([f s1] & Ha & H). case_if in H; [done|].
  apply bind_Ret in H as ([r s2] & Hm & H). case_if in H; [done|]. subst r.
  unfold user_space_map_page in Hm. case_if in Hm; [done|].
  exact (map_fresh_held s _ v fl g _ f s1 s2 U Hh Ha Hm).
Qed.
End Page.

(** ** One segment *)

(** The pages of a segment. *)
Definition seg_page (ph : Elf64_Phdr) (v : Z) : Prop :=
  p_type ph = PT_LOAD ∧ seg_start ph ≤ v < seg_end ph.

(** The address space holds the bytes of the segment. *)
Definition seg_loaded (src : Z → Z) (ph : Elf64_Phdr) (s : pmm) (root : Z) : Prop :=
  ∀ v, v mod 4096 = 0 → seg_page ph v →
  holds s root v (leaf_flags ph) (λ o, seg_byte src ph (v + o)).

Lemma align_up_mod v : align_up v 4096 mod 4096 = 0 ∧ 0 ≤ align_up v 4096 < 2 ^ 64.
Proof.
  unfold align_up. change (not64 (4096 - 1)) with (not64 (2 ^ 12 - 1)).
  pose proof (w64_range (v + 4096 - 1)). rewrite land_not64 by lia. dlia.
Qed.

(** What the loop over the pages from [a] to [e] establishes. *)
Lemma load_pages_spec src space ph a e s s' :
  0 ≤ p_vaddr ph → 0 ≤ p_filesz ph → 0 ≤ p_offset ph → p_vaddr ph + p_filesz ph < 2 ^ 64 →
  uspace s (pml4_phys space) → a mod 4096 = 0 → e mod 4096 = 0 → 0 ≤ a → e ≤ USER_STACK_TOP →
  efold (load_page src space ph) 4096 a (Z.to_nat ((e - a + 4095) / 4096)) s = Ret (0, s') →
  extends s s' (pml4_phys space) (λ n, ∃ v, a ≤ v < e ∧ n = v / 4096) ∧
  (∀ v, v mod 4096 = 0 → a ≤ v < e →
     holds s' (pml4_phys space) v (leaf_flags ph) (λ o, seg_byte src ph (v + o)) ∧
     ∀ fl g, ¬ holds s (pml4_phys space) v fl g).
Proof.
  intros Hv Hf Ho Hsum U Ha He Ha0 Htop H. set (root := pml4_phys space) in *.
  destruct (decide (a < e)) as [Hlt|].
  2:{ replace (Z.to_nat ((e - a + 4095) / 4096)) with 0%nat in H by dlia. injection H as <-.
      split; [by apply extends_refl|intros; lia]. }
  apply (efold_inv _ _ (λ i s2, extends s s2 root (λ n, ∃ v, a ≤ v < i ∧ n = v / 4096) ∧
    (∀ v, v mod 4096 = 0 → a ≤ v < i →
     holds s2 root v (leaf_flags ph) (λ o, seg_byte src ph (v + o)) ∧ ∀ fl g, ¬ holds s root v fl g))) in H.
  - by replace (a + Z.of_nat (Z.to_nat ((e - a + 4095) / 4096)) * 4096) with e in H by dlia.
  - split; [by apply extends_refl|intros; lia].
  - intros k b b' Hk [E IH] Hp. set (v := a + k * 4096) in *.
    assert (0 ≤ v < USER_STACK_TOP ∧ v mod 4096 = 0) as [Hvr Hva] by (subst v; dlia).
    replace (a + (k + 1) * 4096) with (v + 4096) by lia.
    assert (a ≤ v) by lia. clearbody v.
    destruct (load_page_spec src ph space Hv Hf Ho Hsum v b b' (ex_ok _ _ _ _ E) Hvr Hp) as [E' Hh].
    assert (∀ w, a ≤ w < v → ¬ v / 4096 = vpn w) as Hne
      by (intros w Hw; rewrite (proj2 (user_pages w ltac:(lia))); dlia).
    split.
    + eapply extends_trans; [done|done| |].
      * intros n (w & ? & ->). exists w. split; [lia|done].
      * intros n <-. exists v. split; [lia|done].
    + intros w Hwa Hw. destruct (decide (w = v)) as [->|].
      * split; [done|]. intros fl g Hh0.
        apply (load_page_held src ph space v b b' fl g (ex_ok _ _ _ _ E) Hvr); [|done].
        eapply holds_extends; [done| |done].
        intros (w & ? & E2). by apply (Hne w ltac:(lia)); rewrite (proj2 (user_pages w ltac:(lia))), <- E2, (proj2 (user_pages v Hvr)).
      * destruct (IH w Hwa ltac:(dlia)) as [Hw1 Hw2]. split; [|done].
        eapply holds_extends; [done| |done]. apply Hne. dlia.
Qed.

Lemma load_segment_spec src size space ph s s' :
  uspace s (pml4_phys space) →
  0 ≤ p_vaddr ph < 2 ^ 64 → 0 ≤ p_filesz ph < 2 ^ 64 → 0 ≤ p_memsz ph < 2 ^ 64 → 0 ≤ p_offset ph →
  load_segment src size space ph s = Ret (0, s') →
  extends s s' (pml4_phys space) (λ n, ∃ v, seg_page ph v ∧ n = v / 4096) ∧
  seg_loaded src ph s' (pml4_phys space) ∧
  (∀ v, seg_page ph v → USER_BASE - 4096 ≤ v < USER_STACK_TOP) ∧
  (∀ v fl g, v mod 4096 = 0 → seg_page ph v → ¬ holds s (pml4_phys space) v fl g).
Proof.
  intros U Hv Hf Hm Ho H. unfold load_segment in H. unfold seg_loaded, seg_page. case_if in H.
  { injection H as <-. split_and!; [by apply extends_refl|..]; naive_solver. }
  do 3 (case_if in H; [done|]). change (0x1000 <=? USER_BASE) with true in H. cbv iota zeta in H.
  case_if in H; [done|].
  assert (p_vaddr ph + p_memsz ph < 2 ^ 64) as Hsum.
  { destruct (decide (p_vaddr ph + p_memsz ph < 2 ^ 64)); [done|]. exfalso. unfold w64 in *. dlia. }
  assert (seg_start ph mod 4096 = 0) as Hs1 by (unfold seg_start; rewrite align_down_4096 by lia; dlia).
  destruct (align_up_mod (w64 (p_vaddr ph + p_memsz ph))) as [He1 He2].
  change (align_up (w64 (p_vaddr ph + p_memsz ph)) 4096) with (seg_end ph) in He1, He2.
  assert (USER_BASE - 4096 ≤ seg_start ph) as Hlow by (change 4096 with 0x1000; lia).
  assert (0 ≤ seg_start ph) by (unfold USER_BASE in Hlow; lia).
  destruct (load_pages_spec src space ph (seg_start ph) (seg_end ph) s s') as [E Hp]; auto; [lia..|].
  split_and!.
  - eapply extends_trans; [exact (extends_refl s _ (λ _, False) U)|exact E|done|].
    intros n (v & ? & ->). by exists v.
  - intros v Hva [_ Hr]. by apply Hp.
  - intros v [_ ?]. lia.
  - intros v fl g Hva [_ Hr]. by apply Hp.
Qed.

(** ** The whole image *)

(** Some segment of the image covers the page numbered [n]. *)
Definition image_page (src : Z → Z) (k n : Z) : Prop :=
  ∃ i v, 0 ≤ i < k ∧ seg_page (phdr src i) v ∧ n = v / 4096.

(** The first [k] segments are in place. *)
Record loaded (src : Z → Z) (root : Z) (s s' : pmm) (k : Z) : Prop := {
  ld_extends : extends s s' root (image_page src k);
  ld_held : ∀ i, 0 ≤ i < k → seg_loaded src (phdr src i) s' root;
  ld_range : ∀ i v, 0 ≤ i < k → seg_page (phdr src i) v → USER_BASE - 4096 ≤ v < USER_STACK_TOP;
  ld_apart : ∀ i j v, 0 ≤ i < j → j < k → seg_page (phdr src i) v → ¬ seg_page (phdr src j) v;
}.

Lemma seg_page_base ph v :
  0 ≤ p_vaddr ph < 2 ^ 64 → seg_page ph v → seg_page ph (v / 4096 * 4096).
Proof.
  intros Hv [Ht Hr]. split; [done|]. unfold seg_start in *. rewrite align_down_4096 in * by done. dlia.
Qed.

Lemma loaded_step src size space s s1 s2 k :
  loaded src (pml4_phys space) s s1 k → 0 ≤ k →
  load_segment src size space (phdr src k) s1 = Ret (0, s2) →
  loaded src (pml4_phys space) s s2 (k + 1).
Proof.
  intros [E Hh Hr Hap] Hk H. destruct (phdr_ranges src k) as (R1 & R2 & R3 & R4).
  destruct (load_segment_spec src size space (phdr src k) s1 s2 (ex_ok _ _ _ _ E) R1 R2 R3 ltac:(lia) H)
    as (E' & Hl & Hb & Hfresh). split.
  - eapply extends_trans; [done|done| |].
    + intros n (i & v & ? & ? & ->). exists i, v. split_and!; auto; lia.
    + intros n (v & ? & ->). exists k, v. split_and!; auto; lia.
  - intros i Hi. destruct (decide (i = k)) as [->|]; [done|].
    assert (0 ≤ i < k) as Hi' by lia. intros v Hva Hv. pose proof (Hr i v Hi' Hv) as Hvr.
    eapply holds_extends; [done| |by apply Hh].
    intros (w & Hw & Ew). unfold USER_BASE in Hvr. rewrite (proj2 (user_pages v ltac:(lia))) in Ew.
    apply (Hfresh v (leaf_flags (phdr src i)) (λ o, seg_byte src (phdr src i) (v + o)) Hva).
    + replace v with (w / 4096 * 4096) by dlia. by apply seg_page_base.
    + by apply Hh.
  - intros i v Hi Hv. destruct (decide (i = k)) as [->|]; [by apply Hb|]. apply (Hr i); [lia|done].
  - intros i j v Hij Hj Hv Hv'. destruct (decide (j = k)) as [->|]; [|by apply (Hap i j v); [lia|lia|..]].
    destruct (phdr_ranges src i) as (Ri & _).
    apply (Hfresh (v / 4096 * 4096) (leaf_flags (phdr src i)) (λ o, seg_byte src (phdr src i) (v / 4096 * 4096 + o)));
      [dlia|by apply seg_page_base|]. apply (Hh i ltac:(lia)); [dlia|by apply seg_page_base].
Qed.

Lemma elf_load_user_loaded src size space s space' s' :
  uspace s (pml4_phys space) → elf_load_user (Some src) size space s = Ret (0, space', s') →
  space' = mk_space (pml4_phys space) (e_entry (ehdr_at src)) (stack_top space) (stack_bottom space)
    (stack_pages space) (stack_phys space) ∧
  loaded src (pml4_phys space) s s' (e_phnum (ehdr_at src)).
Proof.
  intros U H. unfold elf_load_user in H. do 2 (case_if in H; [done|]).
  apply bind_Ret in H as ([r s1] & He & H). case_if in H; [done|]. subst r. injection H as <- <-.
  split; [done|]. pose proof (field_range 2 src 56) as Hn.
  change (field 2 src 56) with (e_phnum (ehdr_at src)) in Hn.
  apply (efold_inv _ _ (λ i s2, loaded src (pml4_phys space) s s2 i)) in He.
  - by replace (0 + _) with (e_phnum (ehdr_at src)) in He by lia.
  - split; [by apply extends_refl|intros; lia..].
  - intros k b b' Hk L Hseg. replace (0 + k * 1) with k in * by lia.
    replace (0 + (k + 1) * 1) with (k + 1) by lia. eapply loaded_step; [done|lia|done].
Qed.

(** ** Which images are loaded *)

(** The checks on a segment. *)
Record segment_ok (size : Z) (ph : Elf64_Phdr) : Prop := {
  sg_mem : 0 < p_memsz ph;
  sg_file : p_filesz ph ≤ p_memsz ph;
  sg_in_file : w64 (p_offset ph + p_filesz ph) ≤ size;
  sg_no_wrap : p_vaddr ph + p_memsz ph < 2 ^ 64;
  sg_low : USER_BASE - 0x1000 ≤ seg_start ph;
  sg_high : seg_end ph ≤ USER_STACK_TOP;
}.

(** An image the loader accepts: a valid header and valid segments that share
    no page. *)
Record image_ok (src : Z → Z) (size : Z) : Prop := {
  im_header : elf_check_header (ehdr_at src) size = 0;
  im_segments : ∀ i, 0 ≤ i < e_phnum (ehdr_at src) → p_type (phdr src i) = PT_LOAD → segment_ok size (phdr src i);
  im_apart : ∀ i j v, 0 ≤ i < j → j < e_phnum (ehdr_at src) →
    seg_page (phdr src i) v → ¬ seg_page (phdr src j) v;
}.

Lemma load_page_runs src space ph v s r s' :
  uspace s (pml4_phys space) → 0 ≤ v < USER_STACK_TOP → v mod 4096 = 0 →
  translate (mem s) (pml4_phys space) v = None → load_page src space ph v s = Ret (r, s') → r = 0.
Proof.
  intros U Hv Hva Ht H. destruct (user_pages v Hv) as [Hi _].
  unfold load_page in H. apply bind_Ret in H as ([f s1] & Ha & H).
  destruct (alloc_map_runs s space v (seg_flags ph) f s1 U Hi Hva Ht Ha) as [Hf Hrun].
  rewrite (proj2 (Z.eqb_neq f 0) Hf) in H. apply bind_Ret in H as ([r1 s2] & Hm & H).
  rewrite (Hrun r1 s2 Hm) in H. cbn [Z.eqb negb] in H. repeat case_if in H; congruence.
Qed.

Lemma load_segment_checks src size space ph s s' :
  0 ≤ p_vaddr ph < 2 ^ 64 → 0 ≤ p_memsz ph < 2 ^ 64 →
  load_segment src size space ph s = Ret (0, s') → p_type ph = PT_LOAD → segment_ok size ph.
Proof.
  intros Hv Hm H Ht. unfold load_segment in H. rewrite Ht in H. cbn [Z.eqb negb PT_LOAD Pos.eqb] in H.
  do 3 (case_if in H; [done|]). change (0x1000 <=? USER_BASE) with true in H. cbv iota zeta in H.
  case_if in H; [done|]. split; try lia.
  destruct (decide (p_vaddr ph + p_memsz ph < 2 ^ 64)); [done|]. exfalso. unfold w64 in *. dlia.
Qed.

Lemma load_segment_runs src size space ph s r s' :
  uspace s (pml4_phys space) →
  0 ≤ p_vaddr ph < 2 ^ 64 → 0 ≤ p_filesz ph < 2 ^ 64 → 0 ≤ p_memsz ph < 2 ^ 64 → 0 ≤ p_offset ph →
  (p_type ph = PT_LOAD → segment_ok size ph) →
  (∀ v, seg_page ph v → translate (mem s) (pml4_phys space) v = None) →
  load_segment src size space ph s = Ret (r, s') → r = 0.
Proof.
  intros U Hv Hf Hm Ho Hok Hfree H. unfold load_segment in H.
  destruct (Z.eqb_spec (p_type ph) PT_LOAD) as [Ht|]; cbn [negb] in H; [|by injection H].
  destruct (Hok Ht) as [S1 S2 S3 S4 S5 S6].
  rewrite (proj2 (Z.eqb_neq _ 0)), (proj2 (Z.ltb_ge (p_memsz ph) _)), (proj2 (Z.ltb_ge size _)) in H by lia.
  rewrite (w64_small (p_vaddr ph + p_memsz ph)), (proj2 (Z.ltb_ge (p_vaddr ph + p_memsz ph) _)) in H by lia.
  cbn [orb] in H. change (0x1000 <=? USER_BASE) with true in H. cbv iota zeta in H.
  rewrite (proj2 (Z.ltb_ge (seg_start ph) _)), (proj2 (Z.ltb_ge USER_STACK_TOP _)) in H by lia. cbn [orb] in H.
  assert (seg_start ph mod 4096 = 0) as Hs1 by (unfold seg_start; rewrite align_down_4096 by lia; dlia).
  destruct (align_up_mod (w64 (p_vaddr ph + p_memsz ph))) as [He1 _].
  change (align_up (w64 (p_vaddr ph + p_memsz ph)) 4096) with (seg_end ph) in He1.
  assert (0 ≤ seg_start ph) by (unfold USER_BASE in S5; lia). set (root := pml4_phys space) in *.
  revert H. apply (efold_runs _ _ (λ a s2, extends s s2 root (λ n, ∃ v, seg_start ph ≤ v < a ∧ n = v / 4096))).
  { eapply extends_trans; [exact (extends_refl s _ (λ _, False) U)|exact (extends_refl s _ (λ _, False) U)|done..]. }
  intros k b r1 b' Hk E Hp. set (v := seg_start ph + k * 4096) in *.
  assert (0 ≤ v < USER_STACK_TOP ∧ v mod 4096 = 0 ∧ seg_start ph ≤ v < seg_end ph) as (Hvr & Hva & Hvs) by (subst v; dlia).
  replace (seg_start ph + (k + 1) * 4096) with (v + 4096) by lia. clearbody v. destruct (user_pages v Hvr) as [_ Hvpn].
  assert (r1 = 0) as ->.
  { refine (load_page_runs src space ph v b r1 b' (ex_ok _ _ _ _ E) Hvr Hva _ Hp).
    rewrite (ex_other _ _ _ _ E); [by apply Hfree|]. rewrite Hvpn. intros (w & ? & Ew). dlia. }
  split; [done|].
  destruct (load_page_spec src ph space ltac:(lia) ltac:(lia) Ho ltac:(lia) v b b' (ex_ok _ _ _ _ E) Hvr Hp) as [E' _].
  eapply extends_trans; [done|done| |].
  - intros n (w & ? & ->). exists w. split; [lia|done].
  - intros n <-. exists v. split; [lia|done].
Qed.

Lemma phnum_range src : 0 ≤ e_phnum (ehdr_at src) < 2 ^ 16.
Proof. exact (field_range 2 src 56). Qed.

Lemma elf_load_user_valid src size space s space' s' :
  uspace s (pml4_phys space) → elf_load_user (Some src) size space s = Ret (0, space', s') → image_ok src size.
Proof.
  intros U H. destruct (elf_load_user_loaded src size space s space' s' U H) as [_ L].
  pose proof (phnum_range src) as Hn. unfold elf_load_user in H. do 2 (case_if in H; [done|]).
  apply bind_Ret in H as ([r s1] & He & H). case_if in H; [done|]. subst r.
  split; [lia| |exact (ld_apart _ _ _ _ _ L)].
  pose proof (efold_inv (λ i, load_segment src size space (phdr src i)) 1 (λ k _, ∀ i, 0 ≤ i < k → p_type (phdr src i) = PT_LOAD → segment_ok size (phdr src i))
    (Z.to_nat (e_phnum (ehdr_at src))) 0 s s1) as Hv. cbv beta in Hv.
  replace (0 + _) with (e_phnum (ehdr_at src)) in Hv by lia. refine (Hv _ _ He).
  - intros; lia.
  - intros k b b' Hk IH Hs i Hi. replace (0 + k * 1) with k in * by lia.
    destruct (decide (i = k)) as [->|]; [|apply IH; lia].
    destruct (phdr_ranges src k) as (R1 & R2 & R3 & R4). by apply (load_segment_checks src size space _ b b').
Qed.

Lemma elf_load_user_runs src size space s r space' s' :
  uspace s (pml4_phys space) → image_ok src size →
  (∀ i v, 0 ≤ i < e_phnum (ehdr_at src) → seg_page (phdr src i) v → translate (mem s) (pml4_phys space) v = None) →
  elf_load_user (Some src) size space s = Ret (r, space', s') → r = 0.
Proof.
  intros U [Hh Hs Hap] Hfree H. pose proof (phnum_range src) as Hn. unfold elf_load_user in H.
  assert (size ≠ 0) by (intros ->; by unfold elf_check_header in Hh).
  rewrite (proj2 (Z.eqb_neq size 0)), Hh in H by done. cbn [Z.eqb negb] in H.
  apply bind_Ret in H as ([r1 s1] & He & H).
  apply (efold_runs _ _ (λ k s2, loaded src (pml4_phys space) s s2 k)) in He; [subst r1; cbn in H; congruence|..].
  { split; [by apply extends_refl|intros; lia..]. }
  intros k b r2 b' Hk L Hseg. replace (0 + k * 1) with k in * by lia. replace (0 + (k + 1) * 1) with (k + 1) by lia.
  destruct (phdr_ranges src k) as (R1 & R2 & R3 & R4). pose proof (ld_extends _ _ _ _ _ L) as E.
  assert (r2 = 0) as ->; [|split; [done|eapply loaded_step; [done|lia|done]]].
  refine (load_segment_runs src size space _ b r2 b' (ex_ok _ _ _ _ E) R1 R2 R3 ltac:(lia) (Hs k ltac:(lia)) _ Hseg).
  intros v Hv. rewrite (ex_other _ _ _ _ E); [apply (Hfree k); [lia|done]|].
  destruct (Hs k ltac:(lia) (proj1 Hv)) as [_ _ _ _ S5 S6]. unfold USER_BASE in S5.
  rewrite (proj2 (user_pages v ltac:(destruct Hv; lia))). intros (i & w & Hi & Hw & Ew).
  destruct (phdr_ranges src i) as (Ri & _). apply (Hap i k (v / 4096 * 4096)); [lia|lia| |by apply seg_page_base].
  rewrite Ew. by apply seg_page_base.
Qed.

Lemma elf_load_user_oom image size space s : oom (elf_load_user image size space s).
Proof.
  unfold elf_load_user. repeat (case_match; try done). apply oom_bind; [|intros []; by case_match].
  apply efold_oom. intros i a. unfold load_segment. repeat (case_match; try done).
  apply efold_oom. intros v a'. unfold load_page. solve_oom.
Qed.

Lemma leaf_flags_user ph : has (leaf_flags ph) MMU_FLAG_USER = true.
Proof.
  unfold leaf_flags, seg_flags. by destruct (has (p_flags ph) PF_W), (has (p_flags ph) PF_X).
Qed.


(** ** What the loader reads *)

Lemma efold_ext {A} (f g : Z → A → result (Z * A)) step n : ∀ i a,
  (∀ k b, 0 ≤ k < Z.of_nat n → f (i + k * step) b = g (i + k * step) b) →
  efold f step i n a = efold g step i n a.
Proof.
  induction n as [|n IH]; intros i a H; [done|]. cbn [efold].
  pose proof (H 0 a ltac:(lia)) as H0. replace (i + 0 * step) with i in H0 by lia. rewrite H0.
  destruct (g i a) as [[r a1]|]; [|done]. cbn [mbind result_bind]. destruct (r =? 0); [|done].
  apply IH. intros k b Hk. replace (i + step + k * step) with (i + (k + 1) * step) by lia.
  apply H. lia.
Qed.

(** The two images agree on the file. *)
Definition agree (src src' : Z → Z) (size : Z) : Prop := ∀ k, 0 ≤ k < size → src k = src' k.

Section Reads.
Context (src src' : Z → Z) (size : Z) (Hsize : 0 ≤ size < 2 ^ 64) (Hagree : agree src src' size).

Lemma byte_agree off : 0 ≤ off < size → byte src off = byte src' off.
Proof using All. intros H. unfold byte. by rewrite w64_small, Hagree by lia. Qed.

Lemma field_agree n : ∀ off, 0 ≤ off → off + Z.of_nat n ≤ size → field n src off = field n src' off.
Proof using All.
  induction n as [|n IH]; intros off H0 H; [done|]. cbn [field]. rewrite byte_agree, IH by lia. done.
Qed.

Lemma ehdr_agree : EHDR_SIZE ≤ size → ehdr_at src = ehdr_at src'.
Proof using All.
  unfold EHDR_SIZE. intros H. unfold ehdr_at. f_equal; try (apply field_agree; lia).
  apply list_fmap_ext. intros i x Hx%lookup_seqZ. apply byte_agree. lia.
Qed.

Lemma phdr_agree off : 0 ≤ off → off + PHDR_SIZE ≤ size → phdr_at src off = phdr_at src' off.
Proof using All. unfold PHDR_SIZE. intros H0 H. unfold phdr_at. f_equal; apply field_agree; lia. Qed.

Lemma copy_in_agree m dst off len :
  0 ≤ off → off + len ≤ size → copy_in m src dst off len = copy_in m src' dst off len.
Proof using All.
  intros H0 H. unfold copy_in, for_range.
  assert (∀ n i m, 0 ≤ i → i + Z.of_nat n ≤ Z.max 0 len →
    zfold (λ k m, wr8 m (dst + k) (byte src (off + k))) i n m =
    zfold (λ k m, wr8 m (dst + k) (byte src' (off + k))) i n m) as Hz; [|apply Hz; lia].
  induction n as [|n IH]; intros i m0 Hi Hn; [done|]. cbn [zfold].
  rewrite byte_agree by lia. apply IH; lia.
Qed.

Lemma load_page_agree space ph v s :
  0 ≤ v < USER_STACK_TOP → 0 ≤ p_vaddr ph → 0 ≤ p_filesz ph → 0 ≤ p_offset ph →
  p_vaddr ph + p_filesz ph < 2 ^ 64 → p_offset ph + p_filesz ph ≤ size →
  load_page src space ph v s = load_page src' space ph v s.
Proof using All.
  intros Hv H1 H2 H3 H4 H5. unfold USER_STACK_TOP, PageFault.USER_STACK_TOP in Hv. unfold load_page.
  destruct (pmm_alloc_page s) as [[f s1]|]; [|done]. cbn [mbind result_bind].
  destruct (f =? 0); [done|]. destruct (user_space_map_page _ _ _ _ _) as [[r s2]|]; [|done].
  cbn [mbind result_bind]. destruct (negb (r =? 0)); [done|].
  rewrite (w64_small (v + 4096)), (w64_small (p_vaddr ph + _)) by lia.
  repeat case_if; auto; rewrite w64_small by lia; do 3 f_equal; apply copy_in_agree; lia.
Qed.

Lemma load_segment_agree space ph s :
  0 ≤ p_vaddr ph < 2 ^ 64 → 0 ≤ p_filesz ph < 2 ^ 64 → 0 ≤ p_memsz ph < 2 ^ 64 → 0 ≤ p_offset ph →
  p_offset ph + p_filesz ph < 2 ^ 64 →
  load_segment src size space ph s = load_segment src' size space ph s.
Proof using All.
  intros H1 H2 H3 H4 H5. unfold load_segment. do 4 (case_if; [done|]).
  change (0x1000 <=? USER_BASE) with true. cbv iota zeta. case_if; [done|]. unfold USER_BASE in *.
  rewrite (w64_small (p_offset ph + _)) in * by lia.
  assert (p_vaddr ph + p_memsz ph < 2 ^ 64) as Hsum.
  { destruct (decide (p_vaddr ph + p_memsz ph < 2 ^ 64)); [done|]. exfalso. unfold w64 in *. dlia. }
  destruct (align_up_mod (w64 (p_vaddr ph + p_memsz ph))) as [He _].
  change (align_up (w64 (p_vaddr ph + p_memsz ph)) 4096) with (seg_end ph) in He.
  assert (seg_start ph mod 4096 = 0) by (unfold seg_start; rewrite align_down_4096 by lia; dlia).
  apply efold_ext. intros k b Hk. apply load_page_agree; try lia. dlia.
Qed.
End Reads.

(** the loader reads nothing outside the file when the sums it checks do
    not wrap: two images with the same [size] bytes are loaded alike, whatever
    lies before and after them.  [elf_phoff_wraps] shows the condition is
    needed. *)
Theorem elf_load_user_reads src src' size space s :
  0 ≤ size < 2 ^ 64 → agree src src' size →
  e_phoff (ehdr_at src) + e_phnum (ehdr_at src) * PHDR_SIZE < 2 ^ 64 →
  (∀ i, 0 ≤ i < e_phnum (ehdr_at src) → p_offset (phdr src i) + p_filesz (phdr src i) < 2 ^ 64) →
  elf_load_user (Some src) size space s = elf_load_user (Some src') size space s.
Proof.
  intros Hsize Ha Hw1 Hw2. unfold elf_load_user. case_if; [done|].
  destruct (decide (size < EHDR_SIZE)) as [Hlt|Hge].
  { unfold elf_check_header. by rewrite (proj2 (Z.ltb_lt _ _) Hlt). }
  rewrite <- (ehdr_agree src src' size Hsize Ha) by lia. case_if; [done|].
  set (eh := ehdr_at src) in *. pose proof (field_range 8 src 32) as Hoff. pose proof (field_range 2 src 56) as Hnum.
  change (field 8 src 32) with (e_phoff eh) in Hoff. change (field 2 src 56) with (e_phnum eh) in Hnum.
  assert (e_phoff eh + e_phnum eh * PHDR_SIZE ≤ size) as Hfit.
  { assert (elf_check_header eh size = 0) as Hc by lia. unfold elf_check_header in Hc.
    repeat (case_if in Hc; [done|]). rewrite w64_small in * by (unfold PHDR_SIZE in *; lia). lia. }
  rewrite (efold_ext _ (λ i, load_segment src' size space (phdr src' i))); [done|].
  intros i b Hi. replace (0 + i * 1) with i by lia.
  assert (phdr src i = phdr src' i) as <-.
  { unfold phdr. rewrite <- (ehdr_agree src src' size Hsize Ha) by lia.
    apply (phdr_agree src src' size); auto; fold eh; unfold PHDR_SIZE in *; lia. }
  destruct (phdr_ranges src i) as (R1 & R2 & R3 & R4).
  apply load_segment_agree; auto; [lia|]. apply Hw2. lia.
Qed.

(** A header whose table offset wraps: the file is 64 bytes long, and its
    program header is read from the 56 bytes before it. *)
Definition wrap_header (before : Z) (k : Z) : Z :=
  if k <? 64 then
    nth (Z.to_nat k) ([0x7F; 0x45; 0x4C; 0x46; 2; 1; 1] ++ replicate 25 0 ++
      [0xC8; 0xFF; 0xFF; 0xFF; 0xFF; 0xFF; 0xFF; 0xFF] ++ replicate 14 0 ++ [56; 0; 1; 0]) 0
  else if k =? 2 ^ 64 - 56 then before else 0.

(** The result depends on bytes outside the file. *)
Lemma elf_phoff_wraps space s :
  agree (wrap_header 0) (wrap_header 1) 64 ∧
  elf_load_user (Some (wrap_header 0)) 64 space s ≠ elf_load_user (Some (wrap_header 1)) 64 space s.
Proof.
  split.
  - intros k Hk. unfold wrap_header. by rewrite (proj2 (Z.ltb_lt k 64)) by lia.
  - assert (elf_load_user (Some (wrap_header 1)) 64 space s = Ret (-1, space, s)) as ->
      by (vm_compute; reflexivity).
    assert (∃ sp, elf_load_user (Some (wrap_header 0)) 64 space s = Ret (0, sp, s)) as [sp ->]
      by (eexists; vm_compute; reflexivity).
    done.
Qed.

End Elf.
