(* ===== verification/Heap.v ===== *)
(** * Kernel heap (src/kernel/heap.c)

    A bump allocator over the window starting at [HEAP_BASE] with eight slab
    free lists and one address-ordered, coalescing free list for everything
    else.  Free nodes and block headers live in the window itself and share
    their first 24 bytes: [class_idx] of [struct alloc_hdr] is [next] of
    [struct free_node], then [size] and [align].

    State: the static variables of heap.c; [hmem], the bytes of the window by
    virtual address; [phys], the frame allocator with the page tables that
    [map_next_page] extends.  [pml4_table] is the kernel's root table.  Every
    operation runs under [heap_lock].

    Walks of the free lists are loops over memory; they run with [fuel], and
    running out of it (a list that does not end) is reported as a panic with
    the message [LOOP].  HeapInv.v shows that [walk_fuel] is always enough. *)

From S2P Require Import Prelude Memory Pmm Mmu.
From stdpp Require Import options.
Import Pmm Mmu.

Module Heap.

Definition HEAP_BASE : Z := 0xFFFF900000000000.
Definition HEAP_FLAGS : Z := Z.lor (Z.lor MMU_FLAG_WRITE MMU_FLAG_GLOBAL) MMU_FLAG_NOEXEC.

(** [sizeof(struct alloc_hdr)], and the same rounded up to 16. *)
Definition HEAP_HDR_SIZE : Z := 24.
Definition HEAP_PAYLOAD_OFFSET : Z := Z.land (HEAP_HDR_SIZE + 15) (not64 15).
Definition LARGE_CLASS : Z := 2 ^ 64 - 1.
Definition large_split_min : Z := HEAP_PAYLOAD_OFFSET + 32.

Definition slab_classes : list Z := [64; 128; 256; 512; 1024; 2048; 4096; 8192].
Definition slab_count : Z := 8.

Record heap := mk_heap {
  hmem : memory;
  phys : pmm;
  heap_cur : Z;
  heap_end : Z;
  heap_ready : bool;
  frees_enabled : bool;
  free_lists : list Z;
  free_large : Z;
  total_allocs : Z;
  total_frees : Z;
  slab_allocs : list Z;
  slab_reuses : list Z;
  large_allocs : Z;
  large_reuses : Z;
}.

(** The static initialisers. *)
Definition heap_boot (s : pmm) : heap :=
  mk_heap ∅ s HEAP_BASE HEAP_BASE false false (replicate 8 0) 0 0 0
    (replicate 8 0) (replicate 8 0) 0 0.

(** Field updates. *)
Definition with_hmem (h : heap) (m : memory) : heap :=
  mk_heap m (phys h) (heap_cur h) (heap_end h) (heap_ready h) (frees_enabled h) (free_lists h)
    (free_large h) (total_allocs h) (total_frees h) (slab_allocs h) (slab_reuses h)
    (large_allocs h) (large_reuses h).
Definition with_window (h : heap) (s : pmm) (e : Z) : heap :=
  mk_heap (hmem h) s (heap_cur h) e (heap_ready h) (frees_enabled h) (free_lists h)
    (free_large h) (total_allocs h) (total_frees h) (slab_allocs h) (slab_reuses h)
    (large_allocs h) (large_reuses h).
Definition with_cur (h : heap) (c : Z) : heap :=
  mk_heap (hmem h) (phys h) c (heap_end h) (heap_ready h) (frees_enabled h) (free_lists h)
    (free_large h) (total_allocs h) (total_frees h) (slab_allocs h) (slab_reuses h)
    (large_allocs h) (large_reuses h).
Definition with_large (h : heap) (m : memory) (fl : Z) : heap :=
  mk_heap m (phys h) (heap_cur h) (heap_end h) (heap_ready h) (frees_enabled h) (free_lists h)
    fl (total_allocs h) (total_frees h) (slab_allocs h) (slab_reuses h)
    (large_allocs h) (large_reuses h).
Definition with_lists (h : heap) (m : memory) (ls : list Z) : heap :=
  mk_heap m (phys h) (heap_cur h) (heap_end h) (heap_ready h) (frees_enabled h) ls
    (free_large h) (total_allocs h) (total_frees h) (slab_allocs h) (slab_reuses h)
    (large_allocs h) (large_reuses h).
Definition with_counts (h : heap) (ta tf : Z) (sa sr : list Z) (la lr : Z) : heap :=
  mk_heap (hmem h) (phys h) (heap_cur h) (heap_end h) (heap_ready h) (frees_enabled h)
    (free_lists h) (free_large h) ta tf sa sr la lr.

(** [++count] and [++counts[i]]. *)
Definition incr (n : Z) : Z := w64 (n + 1).
Definition incr_at (l : list Z) (i : Z) : list Z := alter incr (Z.to_nat i) l.

Definition LOOP : string := "heap: free list does not end".

(** More nodes than [heap_cur - HEAP_BASE] bytes can hold. *)
Definition walk_fuel (h : heap) : nat := Z.to_nat ((heap_cur h - HEAP_BASE) / 32 + 1).

(** ** The window *)

Section Ops.
Context (pml4_table : Z).

Definition map_next_page (h : heap) : result heap :=
  '(p, s1) ← pmm_alloc_page (phys h);
  s2 ← mmu_map_page pml4_table s1 (heap_end h) p HEAP_FLAGS;
  Ret (with_window h s2 (w64 (heap_end h + 4096))).

(** [while (aligned_start + need > heap_end) map_next_page()]; [heap_end]
    advances by 4096 in each iteration. *)
Definition ensure_space (h : heap) (aligned_start need : Z) : result heap :=
  rfor (heap_end h) (w64 (aligned_start + need)) 4096 (λ _ h, map_next_page h) h.

Definition kheap_init (h : heap) : result heap :=
  let h := with_window (with_cur h (HEAP_BASE + 4096)) (phys h) (HEAP_BASE + 4096) in
  h1 ← map_next_page h;
  Ret (mk_heap (hmem h1) (phys h1) (heap_cur h1) (heap_end h1) true (frees_enabled h1)
    (free_lists h1) (free_large h1) (total_allocs h1) (total_frees h1) (slab_allocs h1)
    (slab_reuses h1) (large_allocs h1) (large_reuses h1)).

Definition is_canonical (addr : Z) : bool :=
  let high := Z.shiftr addr 47 in (high =? 0) || (high =? 0x1FFFF).

(** ** The large free list *)

(** [while (cur && cur < addr) { prev = cur; cur = cur->next; }]. *)
Fixpoint find_pos (fuel : nat) (m : memory) (addr prev cur : Z) : option (Z * Z) :=
  if negb (cur =? 0) && (cur <? addr) then
    match fuel with
    | O => None
    | S fuel' => find_pos fuel' m addr cur (rd64 m cur)
    end
  else Some (prev, cur).

(** The two coalescing steps at the end of [insert_large_node]. *)
Definition coalesce_next (m : memory) (node cur : Z) : memory :=
  if negb (cur =? 0) then
    let node_end := w64 (node + rd64 m (node + 8)) in
    if node_end =? cur then
      let m := wr64 m (node + 8) (w64 (rd64 m (node + 8) + rd64 m (cur + 8))) in
      wr64 m node (rd64 m cur)
    else m
  else m.

Definition coalesce_prev (m : memory) (prev node : Z) : memory :=
  if negb (prev =? 0) then
    let prev_end := w64 (prev + rd64 m (prev + 8)) in
    if prev_end =? node then
      let m := wr64 m (prev + 8) (w64 (rd64 m (prev + 8) + rd64 m (node + 8))) in
      let m := wr64 m prev (rd64 m node) in
      (* try coalesce forward again, with node = prev *)
      let nx := rd64 m prev in
      if negb (nx =? 0) then
        if w64 (prev + rd64 m (prev + 8)) =? nx then
          let m := wr64 m (prev + 8) (w64 (rd64 m (prev + 8) + rd64 m (nx + 8))) in
          wr64 m prev (rd64 m nx)
        else m
      else m
    else m
  else m.

(** Returns the memory and the new list head. *)
Definition insert_large_node (fuel : nat) (m : memory) (fl node : Z) : option (memory * Z) :=
  if (node =? 0) || negb (is_canonical node) then Some (m, fl)
  else
    let m := wr64 m (node + 16) 16 in
    match find_pos fuel m node 0 fl with
    | None => None
    | Some (prev, cur) =>
        let m := wr64 m node cur in
        let '(m, fl) := if negb (prev =? 0) then (wr64 m prev node, fl) else (m, node) in
        let m := coalesce_next m node cur in
        let m := coalesce_prev m prev node in
        Some (m, fl)
    end.

Definition insert_large_fragment (fuel : nat) (m : memory) (fl addr size : Z)
    : option (memory * Z) :=
  if size <? large_split_min then Some (m, fl)
  else if negb (is_canonical addr) then Some (m, fl)
  else insert_large_node fuel (wr64 m (addr + 8) size) fl addr.

(** ** Allocation *)

Fixpoint pick_class (cs : list Z) (i need req_align : Z) : Z :=
  match cs with
  | [] => -1
  | c :: cs' => if (need <=? c) && (req_align <=? c) then i else pick_class cs' (i + 1) need req_align
  end.

Definition pick_slab_class (size align : Z) : Z :=
  let need := w64 (size + HEAP_HDR_SIZE) in
  let req_align := if align <? 16 then 16 else align in
  pick_class slab_classes 0 need req_align.

(** Where in a free node an allocation would go: its start and end. *)
Definition fit (node_addr total_need req_align : Z) : Z * Z :=
  let aligned_start :=
    w64 (align_up (w64 (node_addr + HEAP_PAYLOAD_OFFSET)) req_align - HEAP_PAYLOAD_OFFSET) in
  (aligned_start, w64 (aligned_start + total_need)).

(** The search loop of [kalloc]: [prev] is the node whose [next] field points
    to [node], 0 for [free_large] itself. *)
Fixpoint find_fit (fuel : nat) (m : memory) (prev node total_need req_align : Z)
    : option (option (Z * Z)) :=
  if node =? 0 then Some None
  else
    match fuel with
    | O => None
    | S fuel' =>
        let size := rd64 m (node + 8) in
        let '(aligned_start, block_end) := fit node total_need req_align in
        if (total_need <=? size) && (node <=? aligned_start) && (block_end <=? w64 (node + size))
        then Some (Some (prev, node))
        else find_fit fuel' m node (rd64 m node) total_need req_align
    end.

Definition write_hdr (m : memory) (b class_idx size align : Z) : memory :=
  wr64 (wr64 (wr64 m b class_idx) (b + 8) size) (b + 16) align.

(** Taking a block out of a node of the large list. *)
Definition take_large (h : heap) (prev node total_need req_align : Z) : result (Z * heap) :=
  let m := hmem h in
  let node_end := w64 (node + rd64 m (node + 8)) in
  let '(aligned_start, block_end) := fit node total_need req_align in
  let '(m, fl) := if prev =? 0 then (m, rd64 m node) else (wr64 m prev (rd64 m node), free_large h) in
  match (if node <? aligned_start
         then insert_large_fragment (walk_fuel h) m fl node (w64 (aligned_start - node))
         else Some (m, fl)) with
  | None => Panic LOOP 0
  | Some (m, fl) =>
      match (if block_end <? node_end
             then insert_large_fragment (walk_fuel h) m fl block_end (w64 (node_end - block_end))
             else Some (m, fl)) with
      | None => Panic LOOP 0
      | Some (m, fl) =>
          let m := write_hdr m aligned_start LARGE_CLASS total_need req_align in
          let h := with_large h m fl in
          Ret (w64 (aligned_start + HEAP_PAYLOAD_OFFSET),
               with_counts h (incr (total_allocs h)) (total_frees h) (slab_allocs h) (slab_reuses h)
                 (large_allocs h) (incr (large_reuses h)))
      end
  end.

(** Slab classes: reuse a freed block, else cut a new one at [heap_cur]. *)
Definition alloc_slab (h : heap) (slab_idx req_align : Z) : result (Z * heap) :=
  let node := nth (Z.to_nat slab_idx) (free_lists h) 0 in
  if negb (node =? 0) then
    let h := with_lists h (hmem h) (<[Z.to_nat slab_idx := rd64 (hmem h) node]> (free_lists h)) in
    Ret (w64 (node + HEAP_PAYLOAD_OFFSET),
         with_counts h (incr (total_allocs h)) (total_frees h) (slab_allocs h)
           (incr_at (slab_reuses h) slab_idx) (large_allocs h) (large_reuses h))
  else
    let class_size := nth (Z.to_nat slab_idx) slab_classes 0 in
    let h := with_cur h (align_up (heap_cur h) req_align) in
    h1 ← ensure_space h (heap_cur h) class_size;
    let block := heap_cur h1 in
    let h2 := with_cur h1 (w64 (block + class_size)) in
    let h3 := with_hmem h2 (write_hdr (hmem h2) block slab_idx class_size req_align) in
    Ret (w64 (block + HEAP_PAYLOAD_OFFSET),
         with_counts h3 (incr (total_allocs h3)) (total_frees h3) (incr_at (slab_allocs h3) slab_idx)
           (slab_reuses h3) (large_allocs h3) (large_reuses h3)).

Definition alloc_big (h : heap) (total_need req_align : Z) : result (Z * heap) :=
  let h := with_cur h (w64 (align_up (w64 (heap_cur h + HEAP_PAYLOAD_OFFSET)) req_align
                            - HEAP_PAYLOAD_OFFSET)) in
  h1 ← ensure_space h (heap_cur h) total_need;
  let b := heap_cur h1 in
  let h2 := with_hmem h1 (write_hdr (hmem h1) b LARGE_CLASS total_need req_align) in
  let h3 := with_cur h2 (w64 (b + total_need)) in
  Ret (w64 (b + HEAP_PAYLOAD_OFFSET),
       with_counts h3 (incr (total_allocs h3)) (total_frees h3) (slab_allocs h3) (slab_reuses h3)
         (incr (large_allocs h3)) (large_reuses h3)).

Definition kalloc (h : heap) (size align : Z) : result (Z * heap) :=
  let align := if align =? 0 then 8 else align in
  if size =? 0 then Ret (0, h)
  else
    let req_align := if align <? 16 then 16 else align in
    let total_need := w64 (size + HEAP_PAYLOAD_OFFSET) in
    match find_fit (walk_fuel h) (hmem h) 0 (free_large h) total_need req_align with
    | None => Panic LOOP 0
    | Some (Some (prev, node)) => take_large h prev node total_need req_align
    | Some None =>
        let slab_idx := pick_slab_class size align in
        if 0 <=? slab_idx then alloc_slab h slab_idx req_align
        else alloc_big h total_need req_align
    end.

Definition kalloc_zero (h : heap) (size align : Z) : result (Z * heap) :=
  '(ptr, h1) ← kalloc h size align;
  if ptr =? 0 then Ret (0, h1)
  else Ret (ptr, with_hmem h1 (memset (hmem h1) ptr 0 size)).

(** ** Release *)

Definition kfree (h : heap) (ptr : Z) : result heap :=
  if (ptr =? 0) || negb (frees_enabled h) then Ret h
  else
    let block := w64 (ptr - HEAP_PAYLOAD_OFFSET) in
    let m := hmem h in
    let idx := rd64 m block in
    if idx =? LARGE_CLASS then
      let m := wr64 m (block + 8) (rd64 m (block + 8)) in
      let m := wr64 m (block + 16) (rd64 m (block + 16)) in
      if negb (is_canonical block) then Ret (with_hmem h m)
      else
        match insert_large_node (walk_fuel h) m (free_large h) block with
        | None => Panic LOOP 0
        | Some (m, fl) =>
            let h := with_large h m fl in
            Ret (with_counts h (total_allocs h) (incr (total_frees h)) (slab_allocs h)
                   (slab_reuses h) (large_allocs h) (large_reuses h))
        end
    else if slab_count <=? idx then Ret h
    else if negb (is_canonical block) then Ret h
    else
      let m := wr64 m block (nth (Z.to_nat idx) (free_lists h) 0) in
      let h := with_lists h m (<[Z.to_nat idx := block]> (free_lists h)) in
      Ret (with_counts h (total_allocs h) (incr (total_frees h)) (slab_allocs h) (slab_reuses h)
             (large_allocs h) (large_reuses h)).

Definition kalloc_enable_frees (h : heap) : heap :=
  mk_heap (hmem h) (phys h) (heap_cur h) (heap_end h) (heap_ready h) true (free_lists h)
    (free_large h) (total_allocs h) (total_frees h) (slab_allocs h) (slab_reuses h)
    (large_allocs h) (large_reuses h).
End Ops.

(** ** Statistics and consistency check *)

(** Nodes counted before the walk is given up. *)
Definition MAX_WALK : nat := Z.to_nat 65536.

(** The two loops of [track_free_bytes]: [size_of] is the class size, or the
    node's own size for the large list. *)
Fixpoint track_list (fuel : nat) (m : memory) (size_of : Z → Z) (node acc : Z) : Z :=
  if node =? 0 then acc
  else if negb (is_canonical node) then acc
  else
    let acc := w64 (acc + size_of node) in
    match fuel with
    | O => acc
    | S fuel' => track_list fuel' m size_of (rd64 m node) acc
    end.

Definition track_free_bytes (h : heap) : Z * Z :=
  let slab_bytes :=
    foldl (λ acc '(c, node), track_list MAX_WALK (hmem h) (λ _, c) node acc) 0
      (zip slab_classes (free_lists h)) in
  let large_bytes :=
    track_list MAX_WALK (hmem h) (λ node, rd64 (hmem h) (node + 8)) (free_large h) 0 in
  (slab_bytes, large_bytes).

Record kheap_stats := mk_stats {
  st_total_allocs : Z;
  st_total_frees : Z;
  st_slab_allocs : list Z;
  st_slab_reuses : list Z;
  st_large_allocs : Z;
  st_large_reuses : Z;
  st_free_slab_bytes : Z;
  st_free_large_bytes : Z;
}.

Definition kheap_get_stats (h : heap) : kheap_stats :=
  let '(slab_bytes, large_bytes) := track_free_bytes h in
  mk_stats (total_allocs h) (total_frees h) (slab_allocs h) (slab_reuses h)
    (large_allocs h) (large_reuses h) slab_bytes large_bytes.

Definition node_bad (h : heap) (addr : Z) : bool :=
  (addr <? HEAP_BASE) || (heap_end h <=? addr) || negb (addr mod 16 =? 0).

Fixpoint verify_slab (fuel : nat) (h : heap) (node : Z) : Z :=
  if node =? 0 then 0
  else if negb (is_canonical node) then -2
  else if node_bad h node then -3
  else
    match fuel with
    | O => -4
    | S fuel' => verify_slab fuel' h (rd64 (hmem h) node)
    end.

Fixpoint verify_slabs (h : heap) (ls : list (Z * Z)) : Z :=
  match ls with
  | [] => 0
  | (class_size, node) :: ls' =>
      let r := verify_slab MAX_WALK h node in
      if negb (r =? 0) then r
      else if class_size <? HEAP_PAYLOAD_OFFSET + 8 then -5
      else verify_slabs h ls'
  end.

Fixpoint verify_large (fuel : nat) (h : heap) (prev cur : Z) : Z :=
  if cur =? 0 then 0
  else if negb (is_canonical cur) then -6
  else if node_bad h cur then -7
  else if negb (prev =? 0) && (cur <=? prev) then -8
  else
    let end_ := w64 (cur + rd64 (hmem h) (cur + 8)) in
    if negb (prev =? 0) && (w64 (prev + rd64 (hmem h) (prev + 8)) =? cur) then -9
    else
      match fuel with
      | O => -10
      | S fuel' =>
          if heap_end h <? end_ then -11
          else verify_large fuel' h cur (rd64 (hmem h) cur)
      end.

Definition kheap_verify (h : heap) : Z :=
  if negb (heap_ready h) then -1
  else
    let r := verify_slabs h (zip slab_classes (free_lists h)) in
    if negb (r =? 0) then r else verify_large MAX_WALK h 0 (free_large h).

End Heap.
