(* ===== verification/HeapList.v ===== *)
(** * The large free list of the heap, as a list

    [rep m h l e] says that memory holds the linked list of free nodes [l]
    (address and size of each) from head [h] to end pointer [e].
    [insert_large_node] is shown to implement [ins], the insertion into an
    address-ordered list of extents that merges neighbours. *)

From Stdlib Require Import Sorted.
From S2P Require Import Prelude Memory Heap.
From stdpp Require Import options.
Import Heap.

Module HeapList.

(** A block or free node: start address and size. *)
Abbreviation ext := (Z * Z)%type.

(** Extents that do not overlap. *)
Definition apart (x y : ext) : Prop := x.1 + x.2 ≤ y.1 ∨ y.1 + y.2 ≤ x.1.

#[export] Instance apart_sym : Symmetric apart.
Proof. intros x y [H|H]; [right|left]; done. Qed.

(** Strictly increasing, with a gap between neighbours. *)
Definition before (x y : ext) : Prop := x.1 + x.2 < y.1.
Definition coalesced (l : list ext) : Prop := StronglySorted before l.

(** Node extents: non-null, room for three words, no wrap-around. *)
Definition node_ok (x : ext) : Prop := 0 < x.1 ∧ 24 ≤ x.2 ∧ x.1 + x.2 < 2 ^ 64.

(** ** The reference insertion *)

Definition joinr (x : ext) (l : list ext) : list ext :=
  match l with
  | y :: l' => if x.1 + x.2 =? y.1 then (x.1, x.2 + y.2) :: l' else x :: l
  | [] => [x]
  end.

Fixpoint ins (x : ext) (l : list ext) : list ext :=
  match l with
  | [] => [x]
  | y :: l' =>
      if y.1 <? x.1 then
        if y.1 + y.2 =? x.1 then joinr (y.1, y.2 + x.2) l' else y :: ins x l'
      else joinr x l
  end.

(** Extents covered by a list: every extent of [l'] is made of extents of [l]. *)
Definition covered (l l' : list ext) : Prop :=
  ∀ z : ext, 0 < z.2 → (∀ x, x ∈ l → apart z x) → ∀ x, x ∈ l' → apart z x.

(** ** Linked representation *)

Fixpoint rep (m : memory) (h : Z) (l : list ext) (e : Z) : Prop :=
  match l with
  | [] => h = e
  | x :: l' => h = x.1 ∧ rd64 m (x.1 + 8) = x.2 ∧ rep m (rd64 m x.1) l' e
  end.

Lemma rep_app m l1 : ∀ h l2 e,
  rep m h (l1 ++ l2) e ↔ ∃ x, rep m h l1 x ∧ rep m x l2 e.
Proof.
  induction l1 as [|y l1 IH]; intros h l2 e; simpl.
  - split; [intros H; by exists h|intros (x & -> & H); done].
  - split.
    + intros (-> & Hs & (x & Hx & H)%IH). by exists x.
    + intros (x & (-> & Hs & Hx) & H). split_and!; auto. apply IH. eauto.
Qed.

(** Two memories agree on the link and size words of the nodes of [l]. *)
Definition same_nodes (l : list ext) (m m' : memory) : Prop :=
  ∀ x, x ∈ l → rd64 m' x.1 = rd64 m x.1 ∧ rd64 m' (x.1 + 8) = rd64 m (x.1 + 8).

Lemma rep_same l m m' : same_nodes l m m' → ∀ h e, rep m h l e → rep m' h l e.
Proof.
  induction l as [|x l IH]; intros H h e; simpl; [done|]. intros (-> & Hs & Hl).
  destruct (H x) as [H1 H2]; [set_solver|]. rewrite H1, H2.
  split_and!; auto. apply IH; auto. intros y Hy. apply H. set_solver.
Qed.

(** A write inside an extent apart from all of [l] changes no node of [l]. *)
Lemma same_nodes_write l m x o v :
  (∀ y, y ∈ l → apart x y ∧ 16 ≤ y.2) → 0 ≤ o → o + 8 ≤ x.2 →
  same_nodes l m (wr64 m (x.1 + o) v).
Proof.
  intros H Ho Hx y Hy. destruct (H y Hy) as [[?|?] ?];
    split; apply rd64_wr64_disj; lia.
Qed.

Lemma same_nodes_trans l m1 m2 m3 :
  same_nodes l m1 m2 → same_nodes l m2 m3 → same_nodes l m1 m3.
Proof. intros H1 H2 x Hx. destruct (H1 x Hx), (H2 x Hx). split; congruence. Qed.

Lemma before_apart x y : before x y → apart x y.
Proof. unfold before. left. lia. Qed.

Lemma coalesced_app l1 l2 :
  coalesced (l1 ++ l2) ↔ coalesced l1 ∧ coalesced l2 ∧ ∀ x y, x ∈ l1 → y ∈ l2 → before x y.
Proof.
  unfold coalesced. induction l1 as [|z l1 IH]; simpl.
  - split; [|tauto]. intros H. split_and!; [constructor|done|set_solver].
  - split.
    + inversion 1 as [|? ? Hl Hz]; subst. apply IH in Hl as (H1 & H2 & H3).
      rewrite Forall_app in Hz. destruct Hz as [Hz1 Hz2].
      rewrite Forall_forall in Hz2. split_and!; [by constructor|done|].
      intros x y [->|Hx]%elem_of_cons Hy; auto.
    + intros (H1 & H2 & H3). inversion H1 as [|? ? Hs Hz]; subst. constructor.
      * apply IH. split_and!; auto. intros; apply H3; auto. set_solver.
      * apply Forall_app. split; [done|]. apply Forall_forall. intros y Hy. apply H3; set_solver.
Qed.

(** ** Properties of the reference insertion *)

Section Ins.
Context (x : ext) (Hx : 0 < x.2).

(** A list apart from [x] splits around it. *)
Lemma split_around l :
  coalesced l → (∀ y, y ∈ l → apart x y ∧ 0 < y.2) →
  ∃ l1 l2, l = l1 ++ l2 ∧ (∀ y, y ∈ l1 → y.1 + y.2 ≤ x.1 ∧ 0 < y.2) ∧
    (∀ y, y ∈ l2 → x.1 + x.2 ≤ y.1 ∧ 0 < y.2).
Proof using Hx.
  induction l as [|y l IH]; intros Hc Ha.
  { exists [], []. set_solver. }
  inversion Hc as [|? ? Hl Hy]; subst. destruct (Ha y) as [[H|H] Hp]; [set_solver| |].
  - exists [], (y :: l). split_and!; [done|set_solver|].
    intros z [->|Hz]%elem_of_cons; [lia|]. rewrite Forall_forall in Hy.
    pose proof (Hy z Hz) as Hb. unfold before in Hb. destruct (Ha z); [set_solver|lia].
  - destruct IH as (l1 & l2 & -> & H1 & H2); [done|set_solver|].
    exists (y :: l1), l2. split_and!; [done| |done].
    intros z [->|Hz]%elem_of_cons; [lia|auto].
Qed.

Lemma ins_skip l1 l2 :
  (∀ y, y ∈ l1 → y.1 + y.2 < x.1 ∧ 0 < y.2) → ins x (l1 ++ l2) = l1 ++ ins x l2.
Proof using Hx.
  induction l1 as [|y l1 IH]; intros H; [done|]. simpl.
  destruct (H y); [set_solver|].
  rewrite (proj2 (Z.ltb_lt _ _)), (proj2 (Z.eqb_neq _ _)) by lia. f_equal. apply IH. set_solver.
Qed.

Lemma ins_after l : (∀ y, y ∈ l → x.1 + x.2 ≤ y.1 ∧ 0 < y.2) → ins x l = joinr x l.
Proof using Hx.
  destruct l as [|y l]; intros H; [done|]. simpl. destruct (H y); [set_solver|].
  by rewrite (proj2 (Z.ltb_ge _ _)) by lia.
Qed.

Lemma ins_merge y l :
  y.1 + y.2 = x.1 → 0 < y.2 → ins x (y :: l) = joinr (y.1, y.2 + x.2) l.
Proof.
  intros H Hy. simpl. by rewrite (proj2 (Z.ltb_lt _ _)), (proj2 (Z.eqb_eq _ _)) by lia.
Qed.
End Ins.

(** [joinr] on a list that starts at or after the extent's end. *)
Lemma joinr_coalesced x l :
  0 < x.2 → coalesced l → (∀ y, y ∈ l → x.1 + x.2 ≤ y.1 ∧ 0 < y.2) → coalesced (joinr x l).
Proof.
  intros Hx Hl H. destruct l as [|y l]; simpl; [repeat constructor|].
  inversion Hl as [|? ? Hl' Hy]; subst. destruct (H y) as [Hxy Hyp]; [set_solver|].
  destruct (Z.eqb_spec (x.1 + x.2) y.1) as [E|E].
  - constructor; [done|]. eapply Forall_impl; [exact Hy|]. unfold before. simpl. lia.
  - constructor; [done|]. constructor; [unfold before; lia|].
    eapply Forall_impl; [exact Hy|]. unfold before. simpl. lia.
Qed.

Lemma joinr_elem x l z :
  z ∈ joinr x l → z = x ∨ z ∈ l ∨ ∃ y, y ∈ l ∧ x.1 + x.2 = y.1 ∧ z = (x.1, x.2 + y.2).
Proof.
  destruct l as [|y l]; simpl; [set_solver|].
  destruct (Z.eqb_spec (x.1 + x.2) y.1); intros [->|Hz]%elem_of_cons; set_solver.
Qed.

(** The start of an inserted extent's merge is the extent's, or a merged
    predecessor's. *)
Lemma ins_elem x l z :
  z ∈ ins x l →
  z ∈ x :: l ∨ ∃ y, y ∈ l ∧
    (x.1 + x.2 = y.1 ∧ z = (x.1, x.2 + y.2) ∨
     y.1 + y.2 = x.1 ∧ (z = (y.1, y.2 + x.2) ∨
       ∃ w, w ∈ l ∧ x.1 + x.2 = w.1 ∧ z = (y.1, y.2 + x.2 + w.2))).
Proof.
  induction l as [|y l IH]; simpl; [set_solver|].
  destruct (y.1 <? x.1).
  - destruct (Z.eqb_spec (y.1 + y.2) x.1) as [E|E].
    + intros [->|[Hz|(w & Hw & Ew & ->)]]%joinr_elem.
      * right. exists y. split; [set_solver|]. right. auto.
      * left. set_solver.
      * right. exists y. split; [set_solver|]. right. split; [done|]. right. simpl in *.
        exists w. split_and!; [set_solver|lia|done].
    + intros [->|Hz]%elem_of_cons; [set_solver|].
      destruct (IH Hz) as [?|(w & Hw & [Hc|(Hc & [Hc'|(u & Hu & Hc')])])]; [set_solver| | |].
      * right. exists w. set_solver.
      * right. exists w. set_solver.
      * right. exists w. split; [set_solver|]. right. split; [done|]. right. exists u. set_solver.
  - change (z ∈ joinr x (y :: l) → z ∈ x :: y :: l ∨ ∃ y0, y0 ∈ y :: l ∧
      (x.1 + x.2 = y0.1 ∧ z = (x.1, x.2 + y0.2) ∨ y0.1 + y0.2 = x.1 ∧
        (z = (y0.1, y0.2 + x.2) ∨ ∃ w, w ∈ y :: l ∧ x.1 + x.2 = w.1 ∧ z = (y0.1, y0.2 + x.2 + w.2)))).
    intros [->|[Hz|(w & Hw & Ew & ->)]]%joinr_elem; [set_solver|set_solver|].
    right. exists w. auto.
Qed.

(** Merged extents cover no new addresses. *)
Lemma ins_covered x l :
  0 < x.2 → (∀ y, y ∈ l → 0 < y.2) → covered (x :: l) (ins x l).
Proof.
  intros Hx Hl z Hz Ha u [Hu|(y & Hy & [(E & ->)|(E & [->|(w & Hw & Ew & ->)])])]%ins_elem.
  - by apply Ha.
  - pose proof (Ha x ltac:(set_solver)) as A1. pose proof (Ha y ltac:(set_solver)) as A2.
    pose proof (Hl y Hy). unfold apart in *. simpl. lia.
  - pose proof (Ha x ltac:(set_solver)) as A1. pose proof (Ha y ltac:(set_solver)) as A2.
    pose proof (Hl y Hy). unfold apart in *. simpl. lia.
  - pose proof (Ha x ltac:(set_solver)) as A1. pose proof (Ha y ltac:(set_solver)) as A2.
    pose proof (Ha w ltac:(set_solver)) as A3. pose proof (Hl y Hy). pose proof (Hl w Hw).
    unfold apart in *. simpl. lia.
Qed.

(** Bounds carry over. *)
Lemma ins_bounds x l lo hi k :
  0 < k → (∀ y, y ∈ x :: l → lo ≤ y.1 ∧ k ≤ y.2 ∧ y.1 + y.2 ≤ hi) →
  ∀ z, z ∈ ins x l → lo ≤ z.1 ∧ k ≤ z.2 ∧ z.1 + z.2 ≤ hi.
Proof.
  intros Hk H z [Hz|(y & Hy & [(E & ->)|(E & [->|(w & Hw & Ew & ->)])])]%ins_elem.
  - by apply H.
  - pose proof (H x ltac:(set_solver)). pose proof (H y ltac:(set_solver)). simpl. lia.
  - pose proof (H x ltac:(set_solver)). pose proof (H y ltac:(set_solver)). simpl. lia.
  - pose proof (H x ltac:(set_solver)). pose proof (H y ltac:(set_solver)).
    pose proof (H w ltac:(set_solver)). simpl. lia.
Qed.

(** How [ins] places an extent into a coalesced list apart from it. *)
Lemma ins_cases x l :
  0 < x.2 → coalesced l → (∀ y, y ∈ l → apart x y ∧ 0 < y.2) →
  ∃ l1 l2, (∀ y, y ∈ l2 → x.1 + x.2 ≤ y.1 ∧ 0 < y.2) ∧ coalesced l2 ∧
    ((l = l1 ++ l2 ∧ (∀ y, y ∈ l1 → before y x) ∧ ins x l = l1 ++ joinr x l2) ∨
     (∃ y, l = l1 ++ y :: l2 ∧ y.1 + y.2 = x.1 ∧ (∀ z, z ∈ l1 → before z y) ∧
        ins x l = l1 ++ joinr (y.1, y.2 + x.2) l2)).
Proof.
  intros Hx Hc Ha. destruct (split_around x Hx l Hc Ha) as (l1 & l2 & -> & H1 & H2).
  apply coalesced_app in Hc as (Hc1 & Hc2 & H12).
  destruct l1 as [|y l1 _] using rev_ind.
  { exists [], l2. split_and!; auto. left. split_and!; [done|set_solver|by apply ins_after]. }
  apply coalesced_app in Hc1 as (Hc1 & _ & Hy).
  destruct (H1 y) as [Hyx Hyp]; [set_solver|].
  assert (∀ z, z ∈ l1 → before z x) as Hbx.
  { intros z Hz. pose proof (Hy z y Hz ltac:(set_solver)). unfold before in *. lia. }
  assert (∀ z, z ∈ l1 → z.1 + z.2 < x.1 ∧ 0 < z.2) as Hsk.
  { intros z Hz. split; [by apply Hbx|]. apply H1. set_solver. }
  rewrite <- app_assoc. simpl.
  destruct (decide (y.1 + y.2 = x.1)) as [E|E].
  - exists l1, l2. split_and!; auto. right. exists y. split_and!; auto; [set_solver|].
    by rewrite ins_skip, ins_merge.
  - exists (l1 ++ [y]), l2. split_and!; auto. left. rewrite <- app_assoc. simpl. split_and!; auto.
    + intros z [Hz|Hz]%elem_of_app; [auto|].
      apply list_elem_of_singleton in Hz as ->. unfold before. lia.
    + assert (∀ z, z ∈ l1 ++ [y] → z.1 + z.2 < x.1 ∧ 0 < z.2) as Hsk'.
      { intros z [Hz|Hz]%elem_of_app; [auto|]. apply list_elem_of_singleton in Hz as ->. lia. }
      rewrite <- (ins_after x Hx l2 H2).
      rewrite <- (ins_skip x Hx (l1 ++ [y]) l2 Hsk'). by rewrite <- app_assoc.
Qed.

Lemma ins_coalesced x l :
  0 < x.2 → coalesced l → (∀ y, y ∈ l → apart x y ∧ 0 < y.2) → coalesced (ins x l).
Proof.
  intros Hx Hc Ha.
  destruct (ins_cases x l Hx Hc Ha) as (l1 & l2 & H2 & Hc2 & [(-> & Hb & ->)|(y & -> & E & Hb & ->)]).
  - apply coalesced_app in Hc as (Hc1 & _ & H12). apply coalesced_app. split_and!; auto.
    + by apply joinr_coalesced.
    + intros z w Hz [->|[Hw|(u & Hu & Eu & ->)]]%joinr_elem; auto.
      unfold before. simpl. by apply Hb.
  - apply coalesced_app in Hc as (Hc1 & Hcy & H12).
    destruct (Ha y) as [_ Hyp]; [set_solver|]. apply coalesced_app. split_and!; auto.
    + apply joinr_coalesced; simpl; [lia|done|]. intros z Hz. destruct (H2 z Hz). lia.
    + intros z w Hz [->|[Hw|(u & Hu & Eu & ->)]]%joinr_elem; unfold before; simpl.
      * by apply Hb.
      * apply H12; [done|set_solver].
      * by apply Hb.
Qed.

(** ** Memory steps *)

(** Bytes outside the three header words of the nodes of [L]. *)
Definition frame_hdrs (L : list ext) (m m' : memory) : Prop :=
  ∀ b, (∀ z, z ∈ L → b < z.1 ∨ z.1 + 24 ≤ b) → rd8 m' b = rd8 m b.

Lemma frame_refl L m : frame_hdrs L m m.
Proof. done. Qed.
Lemma frame_trans L m1 m2 m3 : frame_hdrs L m1 m2 → frame_hdrs L m2 m3 → frame_hdrs L m1 m3.
Proof. intros H1 H2 b Hb. rewrite H2, H1; auto. Qed.
Lemma frame_write (L : list ext) (z : ext) m o v :
  z ∈ L → 0 ≤ o ≤ 16 → frame_hdrs L m (wr64 m (z.1 + o) v).
Proof. intros Hz Ho b Hb. apply rd8_wr64_disj. pose proof (Hb z Hz). lia. Qed.
Lemma frame_write0 (L : list ext) (z : ext) m v : z ∈ L → frame_hdrs L m (wr64 m z.1 v).
Proof. intros Hz. rewrite <- (Z.add_0_r z.1). apply frame_write; [done|lia]. Qed.

(** [z] keeps clear of the header of a node at [a]. *)
Definition clear (a : Z) (l : list ext) : Prop := ∀ z, z ∈ l → apart (a, 24) z ∧ 16 ≤ z.2.

Lemma clear_same a l m o v : clear a l → 0 ≤ o ≤ 16 → same_nodes l m (wr64 m (a + o) v).
Proof.
  intros H Ho. apply (same_nodes_write l m (a, 24) o v); simpl; [|lia|lia].
  intros y Hy. by apply H.
Qed.

Lemma clear_same0 a l m v : clear a l → same_nodes l m (wr64 m a v).
Proof.
  intros H. pose proof (clear_same a l m 0 v H ltac:(lia)) as C. by rewrite Z.add_0_r in C.
Qed.

Lemma clear_app a l1 l2 : clear a (l1 ++ l2) ↔ clear a l1 ∧ clear a l2.
Proof. unfold clear. set_solver. Qed.

(** Changing the link of a node. *)
Lemma rep_relink m h l y r r' v :
  rep m h (l ++ y :: r) 0 → rep m v r' 0 → 0 ≤ v < 2 ^ 64 → clear y.1 (l ++ r') →
  rep (wr64 m y.1 v) h (l ++ y :: r') 0.
Proof.
  intros (x & Hl & -> & Hs & _)%rep_app Hr Hv [C1 C2]%clear_app.
  apply rep_app. exists y.1. split.
  - eapply rep_same; [|done]. by apply clear_same0.
  - simpl. split_and!; [done| |].
    + rewrite rd64_wr64_disj by lia. done.
    + rewrite rd64_wr64_same, w64_small by done.
      eapply rep_same; [|done]. by apply clear_same0.
Qed.

(** Changing the size of a node. *)
Lemma rep_resize m h l y r s :
  rep m h (l ++ y :: r) 0 → 0 ≤ s < 2 ^ 64 → clear y.1 (l ++ r) →
  rep (wr64 m (y.1 + 8) s) h (l ++ (y.1, s) :: r) 0.
Proof.
  intros (x & Hl & -> & Hs & Hr)%rep_app Hv [C1 C2]%clear_app. apply rep_app. exists y.1. split.
  - eapply rep_same; [|done]. apply clear_same; [done|lia].
  - simpl. rewrite rd64_wr64_same, w64_small by done. split_and!; [done|done|].
    rewrite rd64_wr64_disj by lia. eapply rep_same; [|done]. apply clear_same; [done|lia].
Qed.

Definition head_addr (l : list ext) : Z := match l with [] => 0 | y :: _ => y.1 end.
Definition last_addr (prev : Z) (l : list ext) : Z :=
  match last l with Some y => y.1 | None => prev end.

Lemma rep_head m h l : rep m h l 0 → h = head_addr l.
Proof. destruct l; simpl; tauto. Qed.

Lemma find_pos_spec m a l1 : ∀ fuel prev h l2,
  rep m h (l1 ++ l2) 0 → (∀ y, y ∈ l1 → 0 < y.1 < a) → (∀ y, y ∈ l2 → a ≤ y.1) →
  (length l1 ≤ fuel)%nat →
  find_pos fuel m a prev h = Some (last_addr prev l1, head_addr l2).
Proof.
  induction l1 as [|y l1 IH]; intros fuel prev h l2 Hr H1 H2 Hf.
  - apply rep_head in Hr as ->. simpl. destruct l2 as [|z l2]; simpl.
    + destruct fuel; done.
    + pose proof (H2 z ltac:(set_solver)).
      assert (negb (z.1 =? 0) && (z.1 <? a) = false) as E
        by (apply andb_false_iff; right; apply Z.ltb_ge; lia).
      destruct fuel; simpl; by rewrite E.
  - destruct Hr as (-> & _ & Hr). destruct fuel as [|fuel]; [simpl in Hf; lia|]. simpl in Hf |- *.
    pose proof (H1 y ltac:(set_solver)).
    rewrite (proj2 (Z.eqb_neq _ _)), (proj2 (Z.ltb_lt _ _)) by lia. simpl.
    rewrite (IH fuel y.1 _ l2) by (auto; set_solver || lia).
    unfold last_addr. rewrite last_cons. by destruct (last l1).
Qed.

Lemma node_clear x l :
  node_ok x → (∀ z, z ∈ l → node_ok z ∧ apart x z) → clear x.1 l.
Proof.
  intros (Hx1 & Hx2 & Hx3) H z Hz. destruct (H z Hz) as [(Hz1 & Hz2 & Hz3) Ha]. unfold apart in *. simpl. lia.
Qed.

(** Reading a node in the middle of a list. *)
Lemma rep_node m h P x Q :
  rep m h (P ++ x :: Q) 0 → rd64 m (x.1 + 8) = x.2 ∧ rep m (rd64 m x.1) Q 0.
Proof. intros (e & _ & _ & ? & ?)%rep_app. auto. Qed.

Lemma merge_step m h P x c Q :
  rep m h (P ++ x :: c :: Q) 0 → node_ok x → node_ok c → x.1 + x.2 = c.1 → clear x.1 (P ++ c :: Q) →
  let m1 := wr64 m (x.1 + 8) (w64 (rd64 m (x.1 + 8) + rd64 m (c.1 + 8))) in
  rep (wr64 m1 x.1 (rd64 m1 c.1)) h (P ++ (x.1, x.2 + c.2) :: Q) 0.
Proof.
  intros Hr (Hx1 & Hx2 & Hx3) (Hc1 & Hc2 & Hc3) E C m1.
  destruct (rep_node _ _ _ _ _ Hr) as (Hxs & _ & Hcs & _). subst m1.
  rewrite Hxs, Hcs, w64_small by lia.
  apply (rep_resize _ _ _ _ _ (x.2 + c.2)) in Hr; [|lia|done].
  destruct (rep_node _ _ _ _ _ Hr) as (_ & _ & _ & HQ).
  eapply (rep_relink _ h P (x.1, x.2 + c.2) (c :: Q) Q); [done|done|apply rd64_range|].
  simpl. apply clear_app in C as [C1 C2]. apply clear_app. split; [done|].
  intros z Hz. apply C2. set_solver.
Qed.

Lemma coalesce_next_spec m h P x Q :
  rep m h (P ++ x :: Q) 0 → node_ok x → (∀ z, z ∈ P ++ Q → node_ok z ∧ apart x z) →
  rep (coalesce_next m x.1 (head_addr Q)) h (P ++ joinr x Q) 0 ∧
  frame_hdrs [x] m (coalesce_next m x.1 (head_addr Q)).
Proof.
  intros Hr Hx H. pose proof (node_clear x _ Hx H) as C. unfold coalesce_next.
  destruct Q as [|c Q]; simpl; [split; [done|apply frame_refl]|].
  destruct (H c) as [Hc Hxc]; [set_solver|].
  pose proof (rep_node _ _ _ _ _ Hr) as (Hxs & Hcr). pose proof Hx as (Hx1 & Hx2 & Hx3).
  pose proof Hc as (Hc1 & Hc2 & Hc3).
  rewrite (proj2 (Z.eqb_neq c.1 0)) by lia. simpl. rewrite Hxs, w64_small by lia.
  destruct (Z.eqb_spec (x.1 + x.2) c.1) as [E|E]; [|split; [done|apply frame_refl]].
  split.
  - pose proof (merge_step m h P x c Q Hr Hx Hc E C) as M. simpl in M. by rewrite Hxs in M.
  - eapply frame_trans; [|apply frame_write0; set_solver]. apply (frame_write _ x); [set_solver|lia].
Qed.

Lemma coalesce_prev_spec m h P y x Q :
  rep m h (P ++ y :: x :: Q) 0 → node_ok y → (∀ z, z ∈ P ++ x :: Q → node_ok z ∧ apart y z) →
  (∀ z, z ∈ P ++ Q → apart (y.1, y.2 + x.2) z) →
  rep (coalesce_prev m y.1 x.1) h
    (P ++ if y.1 + y.2 =? x.1 then joinr (y.1, y.2 + x.2) Q else y :: x :: Q) 0 ∧
  frame_hdrs [y] m (coalesce_prev m y.1 x.1).
Proof.
  intros Hr Hy H Hm. pose proof (node_clear y _ Hy H) as C. unfold coalesce_prev.
  destruct (H x) as [Hx Hyx]; [set_solver|].
  pose proof (rep_node _ _ _ _ _ Hr) as (Hys & _ & Hxs & HQ).
  pose proof Hy as (Hy1 & Hy2 & Hy3). pose proof Hx as (Hx1 & Hx2 & Hx3).
  rewrite (proj2 (Z.eqb_neq y.1 0)) by lia. simpl. rewrite Hys, w64_small by lia.
  destruct (Z.eqb_spec (y.1 + y.2) x.1) as [E|E]; [|split; [done|apply frame_refl]].
  pose proof (merge_step m h P y x Q Hr Hy Hx E C) as Hr1. simpl in Hr1. rewrite Hys in Hr1.
  set (m2 := wr64 (wr64 m (y.1 + 8) _) y.1 _) in *.
  assert (frame_hdrs [y] m m2) as Hf.
  { eapply frame_trans; [|apply frame_write0; set_solver]. apply (frame_write _ y); [set_solver|lia]. }
  clearbody m2. destruct (rep_node _ _ _ _ _ Hr1) as [_ HQ1]. pose proof (rep_head _ _ _ HQ1) as Hnx. simpl in Hnx.
  change (if negb (rd64 m2 y.1 =? 0) then _ else m2) with (coalesce_next m2 y.1 (rd64 m2 y.1)).
  rewrite Hnx. destruct (coalesce_next_spec m2 h P (y.1, y.2 + x.2) Q Hr1) as [Hr2 Hf2].
  - split_and!; simpl; lia.
  - intros z Hz. split; [apply H; set_solver|auto].
  - split; [done|]. eapply frame_trans; [done|]. intros b Hb. apply Hf2.
    intros z ->%list_elem_of_singleton. apply (Hb y). set_solver.
Qed.

(** ** [insert_large_node] *)

Lemma joinr_head x l : ∃ x' l', joinr x l = x' :: l' ∧ x'.1 = x.1 ∧
  (x' = x ∧ l' = l ∨ ∃ c, l = c :: l' ∧ x.1 + x.2 = c.1 ∧ x' = (x.1, x.2 + c.2)).
Proof.
  destruct l as [|c l]; simpl; [exists x, []; auto|].
  destruct (Z.eqb_spec (x.1 + x.2) c.1); eexists _, _; split_and!; eauto.
Qed.

(** Merging with the predecessor after merging with the successor is [ins]. *)
Lemma ins_joined x l1 y l2 x' l2' :
  node_ok x → coalesced (l1 ++ y :: l2) → node_ok y → y.1 + y.2 ≤ x.1 →
  (∀ z, z ∈ l1 → node_ok z) → (∀ z, z ∈ l2 → node_ok z ∧ x.1 + x.2 ≤ z.1) →
  joinr x l2 = x' :: l2' →
  l1 ++ (if y.1 + y.2 =? x.1 then joinr (y.1, y.2 + x'.2) l2' else y :: x' :: l2') =
  ins x (l1 ++ y :: l2).
Proof.
  intros (Hx1 & Hx2 & Hx3) Hc (Hy1 & Hy2 & Hy3) Hyx Hn1 Hn2 Ej.
  apply coalesced_app in Hc as (Hc1 & Hcy & H12). inversion Hcy as [|? ? Hc2 _]; subst.
  rewrite ins_skip; [|lia|].
  2:{ intros z Hz. destruct (Hn1 z Hz) as (? & ? & ?).
      pose proof (H12 z y Hz ltac:(set_solver)) as Hb. unfold before in Hb. lia. }
  f_equal. destruct (Z.eqb_spec (y.1 + y.2) x.1) as [E|E].
  - rewrite ins_merge by lia. destruct (joinr_head x l2) as (x0 & l0 & Ej' & _ & Hj).
    rewrite Ej in Ej'. injection Ej' as <- <-.
    destruct Hj as [[-> ->]|(c & -> & Ec & ->)]; [done|].
    inversion Hc2 as [|? ? _ Hcl]; subst. simpl.
    rewrite (proj2 (Z.eqb_eq (y.1 + (y.2 + x.2)) c.1)) by lia.
    destruct l2' as [|d l2']; simpl; [do 2 f_equal; lia|].
    apply Forall_cons in Hcl as [Hcd _]. unfold before in Hcd.
    destruct (Hn2 c) as [(? & ? & ?) _]; [set_solver|].
    rewrite (proj2 (Z.eqb_neq _ _)) by lia. do 2 f_equal. lia.
  - simpl. rewrite (proj2 (Z.ltb_lt _ _)), (proj2 (Z.eqb_neq _ _)) by lia. f_equal.
    rewrite ins_after; [done|lia|]. intros z Hz. destruct (Hn2 z Hz) as [(? & ? & ?) ?]. lia.
Qed.

Section Insert.
Context (m : memory) (x : ext) (l2 : list ext).
Context (Hx : node_ok x) (Hxs : rd64 m (x.1 + 8) = x.2).
Context (H2 : ∀ z, z ∈ l2 → node_ok z ∧ x.1 + x.2 ≤ z.1) (Hc2 : coalesced l2).

Let m2 := wr64 (wr64 m (x.1 + 16) 16) x.1 (head_addr l2).

Lemma insert_clear : clear x.1 l2.
Proof using Hx H2.
  apply node_clear; [done|]. intros z Hz. destruct (H2 z Hz). split; [done|by left].
Qed.

Lemma insert_same l : clear x.1 l → same_nodes l m m2.
Proof.
  intros C. apply (same_nodes_trans _ _ (wr64 m (x.1 + 16) 16)).
  - apply clear_same; [done|lia].
  - by apply clear_same0.
Qed.

Lemma insert_node h : rep m h l2 0 → rep m2 x.1 (x :: l2) 0.
Proof using All.
  intros Hr. pose proof (rep_head _ _ _ Hr) as ->. destruct Hx as (? & ? & ?).
  assert (0 ≤ head_addr l2 < 2 ^ 64) as Hh.
  { destruct l2 as [|c l]; simpl; [lia|]. destruct (H2 c) as [(? & ? & ?) _]; [set_solver|lia]. }
  assert (rd64 m2 x.1 = head_addr l2) as E by (subst m2; by rewrite rd64_wr64_same, w64_small).
  simpl. rewrite E. split_and!; [done| |].
  - subst m2. rewrite !rd64_wr64_disj by lia. done.
  - eapply rep_same; [|exact Hr]. apply insert_same, insert_clear.
Qed.

Lemma insert_frame L : x ∈ L → frame_hdrs L m m2.
Proof.
  intros Hin. eapply frame_trans; [|by apply frame_write0]. apply frame_write; [done|lia].
Qed.

(** At the front of the list. *)
Lemma insert_front fl :
  rep m fl l2 0 →
  let m' := coalesce_prev (coalesce_next m2 x.1 (head_addr l2)) 0 x.1 in
  rep m' x.1 (ins x l2) 0 ∧ frame_hdrs (x :: l2) m m'.
Proof using All.
  intros Hr m'. destruct (coalesce_next_spec m2 x.1 [] x l2 (insert_node fl Hr) Hx) as [Hr' Hf].
  { intros z Hz. destruct (H2 z Hz). split; [done|by left]. }
  rewrite ins_after; [|destruct Hx; lia|intros z Hz; destruct (H2 z Hz) as [(? & ? & ?) ?]; lia].
  split; [exact Hr'|]. eapply frame_trans; [apply insert_frame; set_solver|].
  intros b Hb. apply Hf. intros z ->%list_elem_of_singleton. apply Hb. set_solver.
Qed.

(** After a node [y]. *)
Lemma insert_after fl l1 y :
  rep m fl (l1 ++ y :: l2) 0 → coalesced (l1 ++ y :: l2) →
  (∀ z, z ∈ l1 ++ [y] → node_ok z ∧ z.1 + z.2 ≤ x.1) →
  let m' := coalesce_prev (coalesce_next (wr64 m2 y.1 x.1) x.1 (head_addr l2)) y.1 x.1 in
  rep m' fl (ins x (l1 ++ y :: l2)) 0 ∧ frame_hdrs (x :: l1 ++ y :: l2) m m'.
Proof using All.
  intros Hr Hc H1 m'. pose proof Hx as (Hx1 & Hx2 & Hx3).
  apply coalesced_app in Hc as (Hc1 & Hcy & H12).
  destruct (H1 y) as [Hy Hyx]; [set_solver|]. pose proof Hy as (Hy1 & Hy2 & Hy3).
  assert (∀ z, z ∈ l1 → node_ok z ∧ before z y) as Hl1.
  { intros z Hz. split; [apply H1; set_solver|apply H12; set_solver]. }
  assert (∀ z, z ∈ l2 → node_ok z ∧ before y z) as Hl2.
  { intros z Hz. split; [by apply H2|]. destruct (H2 z Hz). unfold before. lia. }
  assert (∀ z, z ∈ (l1 ++ [y]) ++ l2 → node_ok z ∧ apart x z) as Hxall.
  { intros z [Hz|Hz]%elem_of_app.
    - destruct (H1 z Hz). split; [done|by right].
    - destruct (H2 z Hz). split; [done|by left]. }
  assert (clear x.1 (l1 ++ y :: l2)) as Cx.
  { apply node_clear; [done|]. intros z Hz. apply Hxall. rewrite <- app_assoc. done. }
  assert (clear y.1 (l1 ++ x :: l2)) as Cy.
  { apply node_clear; [done|]. intros z [Hz|[->|Hz]%elem_of_cons]%elem_of_app.
    - destruct (Hl1 z Hz). split; [done|]. by apply symmetry, before_apart.
    - split; [done|]. left. lia.
    - destruct (Hl2 z Hz). split; [done|]. by apply before_apart. }
  (* link x in after y *)
  assert (rep (wr64 m2 y.1 x.1) fl (l1 ++ y :: x :: l2) 0) as Hr3.
  { destruct (rep_node _ _ _ _ _ Hr) as [_ Hrl2].
    eapply rep_relink; [eapply rep_same; [|exact Hr]; by apply insert_same| |lia|done].
    by eapply insert_node. }
  change (l1 ++ y :: x :: l2) with (l1 ++ [y] ++ x :: l2) in Hr3. rewrite app_assoc in Hr3.
  destruct (coalesce_next_spec _ fl (l1 ++ [y]) x l2 Hr3 Hx Hxall) as [Hr4 Hf4].
  set (m4 := coalesce_next _ _ _) in *.
  assert (frame_hdrs (x :: l1 ++ y :: l2) m m4) as Hf.
  { eapply frame_trans; [apply insert_frame; set_solver|].
    eapply frame_trans; [apply (frame_write0 _ y); set_solver|].
    intros b Hb. apply Hf4. intros z ->%list_elem_of_singleton. apply Hb. set_solver. }
  destruct (joinr_head x l2) as (x' & l2' & Ej & Ex1 & Hj). rewrite Ej, <- app_assoc in Hr4.
  assert (node_ok x' ∧ ∀ z, z ∈ l2' → node_ok z ∧ x'.1 + x'.2 ≤ z.1) as [Hx' Hl2'].
  { destruct Hj as [[-> ->]|(c & -> & Ec & ->)]; [done|].
    destruct (H2 c) as [(? & ? & ?) _]; [set_solver|]. split; [split_and!; simpl; lia|].
    intros z Hz. split; [apply H2; set_solver|].
    inversion Hc2 as [|? ? _ Hcl]; subst. rewrite Forall_forall in Hcl.
    pose proof (Hcl z Hz) as Hb. unfold before in Hb. simpl. lia. }
  destruct (coalesce_prev_spec m4 fl l1 y x' l2' Hr4 Hy) as [Hr5 Hf5].
  - intros z [Hz|[->|Hz]%elem_of_cons]%elem_of_app.
    + destruct (Hl1 z Hz). split; [done|]. by apply symmetry, before_apart.
    + split; [done|]. left. lia.
    + destruct (Hl2' z Hz), Hx' as (? & ? & ?). split; [done|]. left. lia.
  - intros z [Hz|Hz]%elem_of_app; unfold apart; simpl.
    + destruct (Hl1 z Hz) as [_ Hb]. unfold before in Hb. lia.
    + destruct (Hl2' z Hz). lia.
  - rewrite Ex1 in Hr5, Hf5. rewrite (ins_joined x l1 y l2 x' l2') in Hr5; auto.
    + split; [done|]. eapply frame_trans; [done|]. intros b Hb. apply Hf5.
      intros z ->%list_elem_of_singleton. apply Hb. set_solver.
    + by apply coalesced_app.
    + intros z Hz. by apply Hl1.
Qed.
End Insert.

(** [insert_large_node] implements [ins], touching only node headers. *)
Lemma insert_large_node_ins fuel m fl l x :
  rep m fl l 0 → coalesced l → node_ok x → (∀ y, y ∈ l → node_ok y ∧ apart x y) →
  is_canonical x.1 = true → rd64 m (x.1 + 8) = x.2 → (length l ≤ fuel)%nat →
  ∃ m' fl', insert_large_node fuel m fl x.1 = Some (m', fl') ∧ rep m' fl' (ins x l) 0 ∧
    frame_hdrs (x :: l) m m'.
Proof.
  intros Hr Hc Hx Hl Hcan Hxs Hfuel. pose proof Hx as (Hx1 & Hx2 & Hx3).
  destruct (split_around x ltac:(lia) l Hc) as (l1 & l2 & -> & H1 & H2).
  { intros y Hy. destruct (Hl y Hy) as [(? & ? & ?) ?]. split; [done|lia]. }
  rewrite length_app in Hfuel.
  assert (∀ z, z ∈ l2 → node_ok z ∧ x.1 + x.2 ≤ z.1) as Hn2.
  { intros z Hz. split; [apply Hl; set_solver|by apply H2]. }
  assert (∀ z, z ∈ l1 → node_ok z ∧ z.1 + z.2 ≤ x.1) as Hn1.
  { intros z Hz. split; [apply Hl; set_solver|by apply H1]. }
  assert (coalesced l2) as Hc2 by (apply coalesced_app in Hc; tauto).
  unfold insert_large_node. rewrite (proj2 (Z.eqb_neq _ _)), Hcan by lia. simpl.
  rewrite (find_pos_spec _ x.1 l1 fuel 0 fl l2).
  2:{ eapply rep_same; [|exact Hr]. apply clear_same; [|lia]. by apply node_clear. }
  2:{ intros y Hy. destruct (Hn1 y Hy) as [(? & ? & ?) ?]. lia. }
  2:{ intros y Hy. destruct (Hn2 y Hy). lia. }
  2:{ lia. }
  destruct l1 as [|y l1 _] using rev_ind.
  - simpl. destruct (insert_front m x l2 Hx Hxs Hn2 Hc2 fl Hr) as [Hr' Hf]. eauto.
  - unfold last_addr. rewrite last_snoc.
    destruct (Hn1 y) as [(Hy1 & Hy2 & Hy3) _]; [set_solver|].
    rewrite (proj2 (Z.eqb_neq y.1 0)) by lia. simpl.
    rewrite <- app_assoc in *. simpl in *.
    destruct (insert_after m x l2 Hx Hxs Hn2 Hc2 fl l1 y Hr Hc Hn1) as [Hr' Hf]. eauto.
Qed.

(** A fragment too small to hold a node is dropped. *)
Lemma insert_large_fragment_ins fuel m fl l x :
  rep m fl l 0 → coalesced l → 0 < x.1 → 0 ≤ x.2 → x.1 + x.2 < 2 ^ 64 →
  (∀ y, y ∈ l → node_ok y ∧ apart x y) → is_canonical x.1 = true → (length l ≤ fuel)%nat →
  ∃ m' fl', insert_large_fragment fuel m fl x.1 x.2 = Some (m', fl') ∧
    rep m' fl' (if x.2 <? large_split_min then l else ins x l) 0 ∧
    frame_hdrs (if x.2 <? large_split_min then [] else x :: l) m m'.
Proof.
  intros Hr Hc Hx1 Hx2 Hx3 Hl Hcan Hfuel. unfold insert_large_fragment.
  destruct (x.2 <? large_split_min) eqn:E; bsimp; [eauto using frame_refl|].
  change large_split_min with 64 in E. assert (node_ok x) as Hx by (split_and!; lia).
  rewrite Hcan. simpl.
  destruct (insert_large_node_ins fuel (wr64 m (x.1 + 8) x.2) fl l x) as (m' & fl' & Hi & Hr' & Hf); auto.
  - eapply rep_same; [|exact Hr]. apply clear_same; [|lia]. by apply node_clear.
  - rewrite rd64_wr64_same. apply w64_small. lia.
  - exists m', fl'. split_and!; auto. eapply frame_trans; [|exact Hf].
    apply frame_write; [set_solver|lia].
Qed.

End HeapList.
