(* ===== verification/HeapInv.v ===== *)
(** * Correctness of the kernel heap

    The abstract state of the heap is the list of live blocks.  The invariant
    [heap_ok] says that live blocks, the blocks on the eight slab lists and
    the nodes of the large list are pairwise disjoint pieces of the used part
    of the window, and that memory represents the free lists. *)

From Stdlib Require Import Sorted.
From S2P Require Import Prelude Memory Pmm Mmu Heap HeapList.
From stdpp Require Import options.
Import Heap HeapList.

Module HeapInv.

(** ** Pairwise disjointness *)

Definition pairwise (l : list ext) : Prop := ForallOrdPairs apart l.

Lemma pairwise_cons x l : pairwise (x :: l) ↔ (∀ y, y ∈ l → apart x y) ∧ pairwise l.
Proof.
  split.
  - inversion 1 as [|? ? H1 H2]; subst. rewrite List.Forall_forall in H1.
    split; [|done]. intros y Hy. apply H1. by apply list_elem_of_In.
  - intros [H1 H2]. constructor; [|done]. apply List.Forall_forall.
    intros y Hy. apply H1. by apply list_elem_of_In.
Qed.

Lemma pairwise_app l1 l2 :
  pairwise (l1 ++ l2) ↔ pairwise l1 ∧ pairwise l2 ∧ ∀ x y, x ∈ l1 → y ∈ l2 → apart x y.
Proof.
  induction l1 as [|z l1 IH]; simpl.
  - split; [|tauto]. intros H. split_and!; [constructor|done|set_solver].
  - rewrite !pairwise_cons, IH. split.
    + intros (H1 & H2 & H3 & H4). split_and!; auto; [set_solver|].
      intros x y [->|Hx]%elem_of_cons Hy; [apply H1; set_solver|auto].
    + intros ((H1 & H2) & H3 & H4). split_and!; auto; [|set_solver].
      intros y [Hy|Hy]%elem_of_app; [auto|]. apply H4; set_solver.
Qed.

#[export] Instance pairwise_perm : Proper ((≡ₚ) ==> iff) pairwise.
Proof.
  intros l l' H. induction H as [|x l l' Hp IH|x y l|l1 l2 l3 _ IH1 _ IH2].
  - done.
  - rewrite !pairwise_cons, IH. split; intros [H1 H2]; (split; [|done]); intros y Hy; apply H1;
      by rewrite Hp in * || rewrite <- Hp in *.
  - rewrite !pairwise_cons. split; intros (H1 & H2 & H3); split_and!; auto;
      try (intros z [->|Hz]%elem_of_cons; [apply symmetry, H1; set_solver|apply H2 || apply H1; set_solver]);
      intros z Hz; apply H1; set_solver.
  - by rewrite IH1.
Qed.

Lemma coalesced_pairwise l : coalesced l → pairwise l.
Proof.
  induction 1 as [|x l Hl IH Hx]; [constructor|]. apply pairwise_cons. split; [|done].
  intros y Hy. apply before_apart. by rewrite Forall_forall in Hx; apply Hx.
Qed.

(** ** The invariant *)

Definition HEAP_LIMIT : Z := HEAP_BASE + 2 ^ 44.

(** What the class word of a live block can hold: its class; after reuse of a
    slab block, the link of the free list it came from. *)
Definition word_ok (w c : Z) : Prop :=
  w = LARGE_CLASS ∨ (∃ i k, w = Z.of_nat i ∧ slab_classes !! i = Some k ∧ k ≤ c) ∨
  slab_count ≤ w < LARGE_CLASS.

Definition in_window (h : heap) (x : ext) : Prop :=
  HEAP_BASE + 4096 ≤ x.1 ∧ 33 ≤ x.2 ∧ x.1 + x.2 ≤ heap_cur h.

Record heap_ok (h : heap) (live : list ext) (slabs : list (list ext)) (large : list ext) : Prop := {
  ho_apart : pairwise (live ++ concat slabs ++ large);
  ho_bounds : ∀ x, x ∈ live ++ concat slabs ++ large → in_window h x;
  ho_window : HEAP_BASE + 4096 ≤ heap_cur h ≤ heap_end h ∧ heap_end h ≤ HEAP_LIMIT ∧
    heap_end h mod 4096 = 0;
  ho_large : rep (hmem h) (free_large h) large 0;
  ho_sorted : coalesced large;
  ho_lengths : length (free_lists h) = 8%nat ∧ length slabs = 8%nat;
  ho_slabs : ∀ i hd l c, free_lists h !! i = Some hd → slabs !! i = Some l →
    slab_classes !! i = Some c → rep (hmem h) hd l 0 ∧ ∀ x, x ∈ l → c ≤ x.2 ∧ x.1 mod 16 = 0;
  ho_live : ∀ x, x ∈ live → x.1 mod 16 = 0 ∧ rd64 (hmem h) (x.1 + 8) = x.2 ∧
    word_ok (rd64 (hmem h) x.1) x.2;
}.

(** Only five fields matter. *)
Lemma heap_ok_ext h h' live slabs large :
  hmem h' = hmem h → heap_cur h' = heap_cur h → heap_end h' = heap_end h →
  free_lists h' = free_lists h → free_large h' = free_large h →
  heap_ok h live slabs large → heap_ok h' live slabs large.
Proof.
  intros E1 E2 E3 E4 E5 []. split; unfold in_window in *; rewrite ?E1, ?E2, ?E3, ?E4, ?E5; auto.
Qed.

(** ** Unchanged extents *)

Definition kept (m m' : memory) (z : ext) : Prop :=
  ∀ b, z.1 ≤ b < z.1 + z.2 → rd8 m' b = rd8 m b.

Lemma kept_trans m1 m2 m3 z : kept m1 m2 z → kept m2 m3 z → kept m1 m3 z.
Proof. intros H1 H2 b Hb. rewrite H2, H1; auto. Qed.

Lemma frame_kept L m m' z :
  frame_hdrs L m m' → (∀ w, w ∈ L → apart z w ∧ 24 ≤ w.2) → kept m m' z.
Proof.
  intros Hf H b Hb. apply Hf. intros w Hw. destruct (H w Hw) as [[?|?] ?]; lia.
Qed.

Lemma kept_word m m' z o : kept m m' z → 0 ≤ o → o + 8 ≤ z.2 → rd64 m' (z.1 + o) = rd64 m (z.1 + o).
Proof. intros H Ho Hz. apply rd64_ext. intros b Hb. apply H. lia. Qed.

Lemma kept_word0 m m' z : kept m m' z → 8 ≤ z.2 → rd64 m' z.1 = rd64 m z.1.
Proof. intros H Hz. apply rd64_ext. intros b Hb. apply H. lia. Qed.

Lemma rep_kept l m m' h e : (∀ x, x ∈ l → kept m m' x ∧ 16 ≤ x.2) → rep m h l e → rep m' h l e.
Proof.
  intros H. apply rep_same. intros x Hx. destruct (H x Hx).
  split; [apply kept_word0; [done|lia]|apply kept_word; [done|lia|lia]].
Qed.

Lemma write_hdr_kept m b c s a z : apart (b, 24) z → kept m (write_hdr m b c s a) z.
Proof.
  intros Ha y Hy. unfold write_hdr, apart in *. simpl in Ha. by rewrite !rd8_wr64_disj by lia.
Qed.

Lemma write_hdr_words m b c s a :
  0 ≤ c < 2 ^ 64 → 0 ≤ s < 2 ^ 64 →
  rd64 (write_hdr m b c s a) b = c ∧ rd64 (write_hdr m b c s a) (b + 8) = s.
Proof.
  intros Hc Hs. unfold write_hdr. split.
  - rewrite !rd64_wr64_disj, rd64_wr64_same by lia. by apply w64_small.
  - rewrite rd64_wr64_disj, rd64_wr64_same by lia. by apply w64_small.
Qed.

(** ** Steps on the invariant *)

Section Steps.
Context (h : heap) (live : list ext) (slabs : list (list ext)) (large : list ext).
Context (H : heap_ok h live slabs large).

(** Replacing the large list, with everything else untouched. *)
Lemma heap_ok_large m' fl' large' :
  (∀ z, z ∈ live ++ concat slabs → kept (hmem h) m' z) →
  rep m' fl' large' 0 → coalesced large' → (∀ x, x ∈ large' → in_window h x) →
  (∀ z w, z ∈ live ++ concat slabs → w ∈ large' → apart z w) →
  heap_ok (with_large h m' fl') live slabs large'.
Proof using H.
  intros Hk Hr Hc Hb Ha. destruct H as [Hp Hw Hwin _ _ Hlen Hsl Hlv].
  rewrite app_assoc in Hp, Hw. apply pairwise_app in Hp as (Hp & _ & _).
  assert (∀ x, x ∈ live ++ concat slabs → 33 ≤ x.2) as Hsz by (intros; apply Hw; set_solver).
  split; simpl; auto.
  - rewrite app_assoc. apply pairwise_app. split_and!; auto using coalesced_pairwise.
  - intros x Hx. rewrite app_assoc in Hx.
    apply elem_of_app in Hx as [Hx|Hx]; [apply Hw; set_solver|by apply Hb].
  - intros i hd l c Hhd Hl Hcl. destruct (Hsl i hd l c Hhd Hl Hcl) as [Hrl Hxs]. split; [|done].
    eapply rep_kept; [|done]. intros x Hx.
    assert (x ∈ live ++ concat slabs) as Hin.
    { apply elem_of_app. right. apply list_elem_of_In, in_concat. exists l.
      split; apply list_elem_of_In; [by eapply list_elem_of_lookup_2|done]. }
    split; [auto|]. pose proof (Hsz x Hin). lia.
  - intros x Hx. destruct (Hlv x Hx) as (? & Hs & Hwd).
    assert (x ∈ live ++ concat slabs) as Hin by set_solver.
    pose proof (Hsz x Hin). rewrite (kept_word (hmem h)), (kept_word0 (hmem h)) by (auto; lia). done.
Qed.

(** A new live block, disjoint from everything, with its header written. *)
Lemma heap_ok_new m' blk :
  (∀ z, z ∈ live ++ concat slabs ++ large → apart blk z ∧ kept (hmem h) m' z) →
  in_window h blk → blk.1 mod 16 = 0 → rd64 m' (blk.1 + 8) = blk.2 →
  word_ok (rd64 m' blk.1) blk.2 →
  heap_ok (with_hmem h m') (blk :: live) slabs large.
Proof using H.
  intros Ha Hb Hal Hs Hwd. destruct H as [Hp Hw Hwin Hr Hc Hlen Hsl Hlv].
  assert (∀ x, x ∈ live ++ concat slabs ++ large → kept (hmem h) m' x ∧ 33 ≤ x.2) as Hk.
  { intros x Hx. split; [by apply Ha|by apply Hw]. }
  split; simpl; auto.
  - apply pairwise_cons. split; [|done]. intros y Hy. by apply Ha.
  - intros x [->|Hx]%elem_of_cons; [done|]. by apply Hw.
  - eapply rep_kept; [|done]. intros x Hx. destruct (Hk x); [set_solver|]. split; [done|lia].
  - intros i hd l c Hhd Hl Hcl. destruct (Hsl i hd l c Hhd Hl Hcl) as [Hrl Hxs]. split; [|done].
    eapply rep_kept; [|done]. intros x Hx. destruct (Hk x) as [? ?]; [|split; [done|lia]].
    apply elem_of_app. right. apply elem_of_app. left.
    apply list_elem_of_In, in_concat. exists l.
    split; apply list_elem_of_In; [by eapply list_elem_of_lookup_2|done].
  - intros x [->|Hx]%elem_of_cons; [done|]. destruct (Hlv x Hx) as (? & ? & ?).
    destruct (Hk x) as [? ?]; [set_solver|].
    rewrite (kept_word (hmem h)), (kept_word0 (hmem h)) by (auto; lia). done.
Qed.

(** Moving the bump pointer and extending the window. *)
Lemma heap_ok_bump s' c e :
  heap_cur h ≤ c ≤ e → heap_end h ≤ e ≤ HEAP_LIMIT → e mod 4096 = 0 →
  heap_ok (with_window (with_cur h c) s' e) live slabs large.
Proof using H.
  intros Hce He Hm. destruct H as [Hp Hw Hwin Hr Hc Hlen Hsl Hlv]. split; simpl; auto; [|lia].
  intros x Hx. destruct (Hw x Hx) as (? & ? & ?). unfold in_window. simpl. lia.
Qed.

(** Forgetting a live block. *)
Lemma heap_ok_drop x live' : live ≡ₚ x :: live' → heap_ok h live' slabs large.
Proof using H.
  intros E. destruct H as [Hp Hw Hwin Hr Hc Hlen Hsl Hlv]. rewrite E in Hp.
  split; auto.
  - by apply (pairwise_cons x) in Hp as [_ Hp].
  - intros y Hy. apply Hw. rewrite E. set_solver.
  - intros y Hy. apply Hlv. rewrite E. set_solver.
Qed.
End Steps.

(** ** Slab lists *)

Lemma concat_pop (slabs : list (list ext)) i x l :
  slabs !! i = Some (x :: l) → concat slabs ≡ₚ x :: concat (<[i := l]> slabs).
Proof.
  revert i. induction slabs as [|l0 slabs IH]; intros [|i] Hi; simpl in *; simplify_eq; [done|].
  rewrite (IH i Hi). symmetry. apply Permutation_middle.
Qed.

Lemma concat_push (slabs : list (list ext)) i x l :
  slabs !! i = Some l → concat (<[i := x :: l]> slabs) ≡ₚ x :: concat slabs.
Proof.
  revert i. induction slabs as [|l0 slabs IH]; intros [|i] Hi; simpl in *; simplify_eq; [done|].
  rewrite (IH i Hi). symmetry. apply Permutation_middle.
Qed.

Lemma elem_concat (slabs : list (list ext)) i l x : slabs !! i = Some l → x ∈ l → x ∈ concat slabs.
Proof.
  intros Hi Hx. apply list_elem_of_In, in_concat. exists l.
  split; apply list_elem_of_In; [by eapply list_elem_of_lookup_2|done].
Qed.

Lemma slab_class_small i c : slab_classes !! i = Some c → 64 ≤ c ≤ 8192 ∧ (i < 8)%nat.
Proof.
  intros Hi. split; [|by apply lookup_lt_Some in Hi].
  repeat (destruct i as [|i]; [injection Hi as <-; lia|]). done.
Qed.

Section Slabs.
Context (h : heap) (live : list ext) (slabs : list (list ext)) (large : list ext).
Context (H : heap_ok h live slabs large).

Lemma heap_ok_pop i x l c :
  slabs !! i = Some (x :: l) → slab_classes !! i = Some c →
  heap_ok (with_lists h (hmem h) (<[i := rd64 (hmem h) x.1]> (free_lists h)))
    (x :: live) (<[i := l]> slabs) large.
Proof using H.
  intros Hi Hcl. destruct H as [Hp Hw Hwin Hr Hc [Hlf Hls] Hsl Hlv].
  destruct (slab_class_small i c Hcl) as [Hcr Hi8].
  destruct (lookup_lt_is_Some_2 (free_lists h) i) as [hd Hhd]; [lia|].
  destruct (Hsl i hd _ c Hhd Hi Hcl) as [(-> & Hxs & Hrl) Hcx].
  assert (live ++ concat slabs ++ large ≡ₚ (x :: live) ++ concat (<[i := l]> slabs) ++ large) as E.
  { rewrite (concat_pop slabs i x l Hi). solve_Permutation. }
  split; simpl; auto.
  - by rewrite E in Hp.
  - intros y Hy. apply Hw. by rewrite E.
  - by rewrite !length_insert.
  - intros j hd l' c' Hhd' Hl' Hc'. destruct (decide (i = j)) as [<-|Hne].
    + rewrite list_lookup_insert_eq in Hhd' by lia. rewrite list_lookup_insert_eq in Hl' by lia.
      simplify_eq. split; [done|]. intros y Hy. apply Hcx. set_solver.
    + rewrite list_lookup_insert_ne in Hhd' by done. rewrite list_lookup_insert_ne in Hl' by done. eauto.
  - intros y [->|Hy]%elem_of_cons; [|auto]. split_and!; [apply Hcx; set_solver|done|].
    destruct (Hcx x) as [Hxc _]; [set_solver|].
    pose proof (rep_head _ _ _ Hrl) as ->. destruct l as [|y l]; simpl.
    + right. left. exists 0%nat, 64. split_and!; [done|done|lia].
    + destruct (Hw y) as (Hy1 & Hy2 & Hy3).
      { apply elem_of_app. right. apply elem_of_app. left. eapply elem_concat; [done|set_solver]. }
      right. right. destruct Hwin as (? & ? & _).
      unfold slab_count, LARGE_CLASS, HEAP_LIMIT, HEAP_BASE in *. lia.
Qed.

Lemma heap_ok_push i x l c live' :
  live ≡ₚ x :: live' → slabs !! i = Some l → slab_classes !! i = Some c → c ≤ x.2 →
  heap_ok (with_lists h (wr64 (hmem h) x.1 (nth i (free_lists h) 0)) (<[i := x.1]> (free_lists h)))
    live' (<[i := x :: l]> slabs) large.
Proof using H.
  intros El Hi Hcl Hcx. destruct H as [Hp Hw Hwin Hr Hc [Hlf Hls] Hsl Hlv].
  destruct (slab_class_small i c Hcl) as [Hcr Hi8].
  destruct (lookup_lt_is_Some_2 (free_lists h) i) as [hd Hhd]; [lia|].
  rewrite (nth_lookup_Some _ _ _ _ Hhd).
  destruct (Hlv x) as (Hal & Hxs & _); [rewrite El; set_solver|].
  assert (live ++ concat slabs ++ large ≡ₚ live' ++ concat (<[i := x :: l]> slabs) ++ large) as E.
  { rewrite El, (concat_push slabs i x l Hi). solve_Permutation. }
  assert (pairwise (x :: live' ++ concat slabs ++ large)) as [Hxa _]%pairwise_cons
    by (by rewrite El in Hp).
  assert (∀ y, y ∈ live' ++ concat slabs ++ large → apart (x.1, 24) y ∧ 33 ≤ y.2) as Hcl24.
  { intros y Hy. assert (y ∈ live ++ concat slabs ++ large) as Hy' by (rewrite El; set_solver).
    destruct (Hw y Hy') as (_ & ? & _). pose proof (Hxa y Hy). unfold apart in *. simpl. lia. }
  assert (∀ l', (∀ y, y ∈ l' → y ∈ live' ++ concat slabs ++ large) → clear x.1 l') as Hclear.
  { intros l' Hl' y Hy. destruct (Hcl24 y (Hl' y Hy)). split; [done|lia]. }
  destruct (Hsl i hd l c Hhd Hi Hcl) as [Hrl Hlx].
  assert (0 ≤ hd < 2 ^ 64) as Hhr.
  { rewrite (rep_head _ _ _ Hrl). destruct l as [|y l]; simpl; [lia|].
    destruct (Hw y) as (? & ? & ?);
      [apply elem_of_app; right; apply elem_of_app; left; eapply elem_concat; [done|set_solver]|].
    destruct Hwin as (? & ? & _). unfold HEAP_LIMIT, HEAP_BASE in *. lia. }
  split; simpl; auto.
  - by rewrite E in Hp.
  - intros y Hy. apply Hw. by rewrite E.
  - eapply rep_same; [|done]. apply clear_same0, Hclear. set_solver.
  - by rewrite !length_insert.
  - intros j hd' l' c' Hhd' Hl' Hc'. destruct (decide (i = j)) as [<-|Hne].
    + rewrite list_lookup_insert_eq in Hhd' by lia. rewrite list_lookup_insert_eq in Hl' by lia.
      simplify_eq. split.
      * simpl. split_and!; [done|by rewrite rd64_wr64_disj by lia|].
        rewrite rd64_wr64_same, w64_small by done.
        eapply rep_same; [|done]. apply clear_same0, Hclear.
        intros y Hy. pose proof (elem_concat slabs i l y Hi Hy). set_solver.
      * intros y [->|Hy]%elem_of_cons; [done|auto].
    + rewrite list_lookup_insert_ne in Hhd' by done. rewrite list_lookup_insert_ne in Hl' by done.
      destruct (Hsl j hd' l' c' Hhd' Hl' Hc') as [Hrl' Hlx']. split; [|done].
      eapply rep_same; [|done]. apply clear_same0, Hclear.
      intros y Hy. pose proof (elem_concat slabs j l' y Hl' Hy). set_solver.
  - intros y Hy. destruct (Hlv y) as (? & ? & ?); [rewrite El; set_solver|].
    destruct (Hcl24 y) as [Hay ?]; [set_solver|]. unfold apart in Hay. simpl in Hay.
    by rewrite !rd64_wr64_disj by lia.
Qed.
End Slabs.

End HeapInv.
