(* ===== verification/HeapOps.v ===== *)
(** * [kalloc] and [kfree] keep the heap invariant *)

From Stdlib Require Import Sorted.
From S2P Require Import Prelude Memory Pmm Mmu Heap HeapList HeapInv.
From stdpp Require Import options.
Import Heap HeapList HeapInv.

Module HeapOps.

(** ** Extending the window *)

Lemma map_next_page_eq root h h' :
  map_next_page root h = Ret h' → ∃ s', h' = with_window h s' (w64 (heap_end h + 4096)).
Proof.
  unfold map_next_page. intros ([p s1] & _ & (s2 & _ & H)%bind_Ret)%bind_Ret.
  injection H as <-. eauto.
Qed.

Lemma ensure_space_spec root h a n h' :
  0 ≤ heap_end h ≤ HEAP_LIMIT → heap_end h mod 4096 = 0 → 0 ≤ a + n ≤ HEAP_LIMIT - 4096 →
  ensure_space root h a n = Ret h' →
  ∃ s' e', h' = with_window h s' e' ∧ heap_end h ≤ e' ≤ HEAP_LIMIT ∧ a + n ≤ e' ∧ e' mod 4096 = 0.
Proof.
  intros He Hm Han H. unfold ensure_space, rfor in H. unfold HEAP_LIMIT, HEAP_BASE in *.
  rewrite w64_small in H by lia.
  apply (rfold_inv (λ e g, ∃ s', g = with_window h s' e)) in H as (s' & ->).
  - eexists _, _. split; [done|]. dlia.
  - exists (phys h). by destruct h.
  - intros k b b' Hk (s1 & ->) Hf. apply map_next_page_eq in Hf as (s2 & ->).
    exists s2. unfold with_window. simpl. f_equal. rewrite w64_small by dlia. lia.
Qed.

Lemma rfold_panic {A} (f : Z → A → result A) step n : ∀ i a msg v,
  rfold f i step n a = Panic msg v → ∃ j b, f j b = Panic msg v.
Proof.
  induction n as [|n IH]; intros i a msg v E; simpl in E; [done|].
  destruct (f i a) eqn:Ef; simpl in E; [eauto|]. simplify_eq. eauto.
Qed.

(** ** Fuel *)

Lemma coalesced_length l : ∀ lo hi,
  coalesced l → (∀ x, x ∈ l → lo ≤ x.1 ∧ 33 ≤ x.2 ∧ x.1 + x.2 ≤ hi) → lo ≤ hi →
  33 * Z.of_nat (length l) ≤ hi - lo.
Proof.
  induction l as [|x l IH]; intros lo hi Hc Hb Hle; simpl; [lia|].
  inversion Hc as [|? ? Hc' Hx]; subst. rewrite Forall_forall in Hx.
  destruct (Hb x) as (? & ? & ?); [set_solver|].
  pose proof (IH (x.1 + x.2) hi Hc') as Hl. rewrite Nat2Z.inj_succ.
  assert (33 * Z.of_nat (length l) ≤ hi - (x.1 + x.2)); [|lia]. apply Hl; [|lia].
  intros y Hy. destruct (Hb y) as (? & ? & ?); [set_solver|].
  pose proof (Hx y Hy) as Hxy. unfold before in Hxy. lia.
Qed.

Lemma walk_fuel_enough h live slabs large :
  heap_ok h live slabs large → (length large ≤ walk_fuel h)%nat.
Proof.
  intros H. pose proof (ho_window _ _ _ _ H) as (Hw & _ & _).
  pose proof (coalesced_length large (HEAP_BASE + 4096) (heap_cur h) (ho_sorted _ _ _ _ H)) as Hl.
  assert (33 * Z.of_nat (length large) ≤ heap_cur h - (HEAP_BASE + 4096)).
  { apply Hl; [|lia]. intros x Hx. apply (ho_bounds _ _ _ _ H). set_solver. }
  unfold walk_fuel. dlia.
Qed.

(** ** Placement *)

Lemma pow2_mod16 a r : is_pow2 r → 16 ≤ r → a mod r = 0 → a mod 16 = 0.
Proof.
  intros (k & Hk & ->) H16 Hm.
  assert (4 ≤ k) as Hk4.
  { destruct (decide (4 ≤ k)); [done|]. assert (2 ^ k ≤ 2 ^ 3) by (apply Z.pow_le_mono_r; lia). lia. }
  replace k with ((k - 4) + 4) in Hm by lia. rewrite Z.pow_add_r in Hm by lia.
  apply Z.mod_divide in Hm as [q Hq]; [|lia]. change (2 ^ 4) with 16 in Hq.
  replace a with ((q * 2 ^ (k - 4)) * 16) by lia. apply Z.mod_mul. lia.
Qed.

Lemma fit_spec a n r :
  is_pow2 r → 16 ≤ r → 0 < a → a + 32 + r + n < 2 ^ 64 → 0 ≤ n →
  ∃ st, fit a n r = (st, st + n) ∧ a ≤ st < a + r ∧ (st + 32) mod r = 0 ∧ st mod 16 = 0.
Proof.
  intros Hr Hr16 Ha Hlt Hn. unfold fit. change HEAP_PAYLOAD_OFFSET with 32.
  rewrite (w64_small (a + 32)) by lia.
  destruct (align_up_pow2 (a + 32) r Hr ltac:(lia) ltac:(lia)) as [Hb Hm].
  set (u := align_up (a + 32) r) in *. clearbody u.
  rewrite !w64_small by lia. exists (u - 32). split_and!; [done|lia|lia| |].
  - by replace (u - 32 + 32) with u by lia.
  - apply (pow2_mod16 u r) in Hm; auto. dlia.
Qed.

(** Result of the first-fit search. *)
Lemma find_fit_spec m n r l : ∀ fuel prev h,
  rep m h l 0 → (∀ x, x ∈ l → node_ok x) → (length l ≤ fuel)%nat →
  find_fit fuel m prev h n r = Some None ∨
  ∃ l1 x l2, l = l1 ++ x :: l2 ∧
    find_fit fuel m prev h n r = Some (Some (last_addr prev l1, x.1)) ∧
    n ≤ x.2 ∧ x.1 ≤ (fit x.1 n r).1 ∧ (fit x.1 n r).2 ≤ x.1 + x.2.
Proof.
  induction l as [|x l IH]; intros fuel prev h Hr Hn Hf.
  - left. simpl in Hr. subst. by destruct fuel.
  - destruct fuel as [|fuel]; [simpl in Hf; lia|]. destruct Hr as (-> & Hs & Hr). cbn [find_fit].
    destruct (Hn x) as (Hx1 & Hx2 & Hx3); [set_solver|].
    rewrite (proj2 (Z.eqb_neq x.1 0)), Hs, (w64_small (x.1 + x.2)) by lia.
    destruct (fit x.1 n r) as [st en] eqn:Ef.
    destruct ((n <=? x.2) && (x.1 <=? st) && (en <=? x.1 + x.2)) eqn:Ec.
    + right. exists [], x, l. bsimp. rewrite Ef. simpl. split_and!; auto.
    + simpl in Hf. destruct (IH fuel x.1 _ Hr) as [E|(l1 & y & l2 & -> & E & ? & ? & ?)];
        [set_solver|lia|by left|].
      right. exists (x :: l1), y, l2. split_and!; auto.
      rewrite E. unfold last_addr. rewrite last_cons. by destruct (last l1).
Qed.

(** ** The free list as an abstract object *)

Record frees (c : Z) (m : memory) (fl : Z) (l : list ext) : Prop := {
  fr_rep : rep m fl l 0;
  fr_sorted : coalesced l;
  fr_bounds : ∀ x, x ∈ l → HEAP_BASE + 4096 ≤ x.1 ∧ 33 ≤ x.2 ∧ x.1 + x.2 ≤ c;
}.

Lemma heap_frees h live slabs large :
  heap_ok h live slabs large → frees (heap_cur h) (hmem h) (free_large h) large.
Proof.
  intros [Hp Hb]. split; auto. intros x Hx. apply Hb. set_solver.
Qed.

Definition fuel_of (c : Z) : nat := Z.to_nat ((c - HEAP_BASE) / 32 + 1).

Lemma frees_length c m fl l :
  HEAP_BASE + 4096 ≤ c → frees c m fl l → (length l ≤ fuel_of c)%nat.
Proof.
  intros Hc []. unfold fuel_of.
  pose proof (coalesced_length l (HEAP_BASE + 4096) c). dlia.
Qed.

Lemma window_canonical a : HEAP_BASE ≤ a < HEAP_LIMIT → is_canonical a = true.
Proof.
  unfold HEAP_BASE, HEAP_LIMIT, is_canonical. intros Ha. rewrite Z.shiftr_div_pow2 by lia.
  apply orb_true_iff. right. apply Z.eqb_eq. unfold HEAP_BASE in *. dlia.
Qed.

Lemma bounded_node c x :
  c ≤ HEAP_LIMIT → HEAP_BASE + 4096 ≤ x.1 ∧ 33 ≤ x.2 ∧ x.1 + x.2 ≤ c → node_ok x.
Proof. unfold node_ok, HEAP_LIMIT, HEAP_BASE. lia. Qed.

(** Inserting a fragment. *)
Lemma frees_fragment c m fl l x :
  c ≤ HEAP_LIMIT → frees c m fl l → HEAP_BASE + 4096 ≤ x.1 → 0 < x.2 → x.1 + x.2 ≤ c →
  (∀ y, y ∈ l → apart x y) →
  ∃ m' fl' l', insert_large_fragment (fuel_of c) m fl x.1 x.2 = Some (m', fl') ∧
    frees c m' fl' l' ∧ covered (x :: l) l' ∧
    ∀ z, 0 < z.2 → (∀ y, y ∈ x :: l → apart z y) → kept m m' z.
Proof.
  intros HcL Hfr Hx1 Hx2 Hx3 Ha. pose proof (frees_length c m fl l ltac:(lia) Hfr) as Hlen.
  destruct Hfr as [Hr Hc Hb]. pose proof HcL as HcL'. unfold HEAP_LIMIT in HcL'.
  destruct (insert_large_fragment_ins (fuel_of c) m fl l x) as (m' & fl' & Hi & Hr' & Hf); auto;
    [unfold HEAP_BASE in *; lia|lia|unfold HEAP_BASE in *; lia| |apply window_canonical; unfold HEAP_LIMIT; lia|].
  { intros y Hy. split; [eapply bounded_node; eauto|auto]. }
  assert (∀ y, y ∈ l → 0 < y.2) as Hpos by (intros y Hy; apply Hb in Hy; lia).
  exists m', fl', (if x.2 <? large_split_min then l else ins x l). split; [done|].
  change large_split_min with 64 in *. destruct (Z.ltb_spec x.2 64) as [Hs|Hs].
  - split_and!; [split; auto| |].
    + intros z Hz Hza y Hy. apply Hza. set_solver.
    + intros z _ _. apply (frame_kept [] m m'); [done|set_solver].
  - split_and!; [split; auto| |].
    + apply ins_coalesced; auto.
    + apply ins_bounds; [lia|]. intros y [->|Hy]%elem_of_cons; [lia|auto].
    + apply ins_covered; auto.
    + intros z Hz Hza. apply (frame_kept (x :: l) m m'); [done|]. intros w Hw. split; [auto|].
      apply elem_of_cons in Hw as [->|Hw]; [lia|]. apply Hb in Hw. lia.
Qed.

(** Taking a node out: [*link = node->next]. *)
Lemma frees_unlink c m fl l1 x l2 :
  c ≤ HEAP_LIMIT → frees c m fl (l1 ++ x :: l2) →
  let prev := last_addr 0 l1 in
  let m' := if prev =? 0 then m else wr64 m prev (rd64 m x.1) in
  let fl' := if prev =? 0 then rd64 m x.1 else fl in
  frees c m' fl' (l1 ++ l2) ∧ ∀ z, (∀ y, y ∈ l1 → apart z y) → kept m m' z.
Proof.
  intros HcL [Hr Hc Hb]. simpl.
  assert (∀ y, y ∈ l1 ++ l2 → y ∈ l1 ++ x :: l2) as Hsub by set_solver.
  pose proof Hc as (Hc1 & (Hc2 & Hx2)%StronglySorted_inv & H12)%coalesced_app.
  assert (coalesced (l1 ++ l2)) as Hc'.
  { apply coalesced_app. split_and!; [done|done|]. intros y z Hy Hz. apply H12; set_solver. }
  destruct l1 as [|y l1 _] using rev_ind.
  - simpl in *. destruct Hr as (_ & _ & Hr). split; [|done]. split; auto.
  - unfold last_addr. rewrite last_snoc.
    destruct (Hb y) as (Hy1 & Hy2 & Hy3); [set_solver|].
    rewrite (proj2 (Z.eqb_neq y.1 0)) by (unfold HEAP_BASE in *; lia). split.
    + split; auto. rewrite <- app_assoc in *. simpl in *.
      destruct (rep_node m fl (l1 ++ [y]) x l2) as [_ Hx]; [by rewrite <- app_assoc|].
      apply (rep_relink m fl l1 y (x :: l2) l2 _ Hr Hx); [auto with words|].
      apply node_clear; [eapply bounded_node; eauto|].
      intros z Hz. split; [eapply bounded_node; [exact HcL|apply Hb; set_solver]|].
      apply coalesced_pairwise in Hc'. apply pairwise_app in Hc' as (_ & Hp & Hp1).
      apply pairwise_cons in Hp as [Hp _].
      apply elem_of_app in Hz as [Hz|Hz]; [|auto]. symmetry. apply Hp1; set_solver.
    + intros z Hz. apply (frame_kept [y] m); [apply frame_write0; set_solver|].
      intros w Hw. apply list_elem_of_singleton in Hw as ->. split; [apply Hz; set_solver|lia].
Qed.

(** The piece between [a] and [b], returned to the list if not empty. *)
Lemma frees_gap c m fl l a b :
  c ≤ HEAP_LIMIT → frees c m fl l → HEAP_BASE + 4096 ≤ a → a ≤ b ≤ c →
  (a < b → ∀ y, y ∈ l → apart (a, b - a) y) →
  ∃ m' fl' l',
    (if a <? b then insert_large_fragment (fuel_of c) m fl a (w64 (b - a)) else Some (m, fl)) =
      Some (m', fl') ∧
    frees c m' fl' l' ∧ covered ((a, b - a) :: l) l' ∧
    ∀ z, 0 < z.2 → (∀ y, y ∈ (a, b - a) :: l → apart z y) → kept m m' z.
Proof.
  intros HcL Hfr Ha Hab Hap. destruct (Z.ltb_spec a b) as [Hlt|Hge].
  - rewrite w64_small by (unfold HEAP_LIMIT, HEAP_BASE in *; lia).
    apply (frees_fragment c m fl l (a, b - a)); simpl; auto; lia.
  - exists m, fl, l. split_and!; auto; [|done]. intros z Hz Hza y Hy. apply Hza. set_solver.
Qed.

Lemma apart_within (z x y : ext) :
  apart z x → x.1 ≤ y.1 → y.1 + y.2 ≤ x.1 + x.2 → apart z y.
Proof. unfold apart. lia. Qed.

Lemma apart_nodes l1 x l2 :
  pairwise (l1 ++ x :: l2) → ∀ y, y ∈ l1 ++ l2 → apart x y.
Proof.
  intros (_ & [Hp _]%pairwise_cons & Hx)%pairwise_app y [Hy|Hy]%elem_of_app; [|auto].
  symmetry. apply Hx; set_solver.
Qed.

(** The node [x] is split into a leading rest, the block and a trailing rest. *)
Lemma frees_split c m fl l1 x l2 st n :
  c ≤ HEAP_LIMIT → frees c m fl (l1 ++ x :: l2) → 33 ≤ n → x.1 ≤ st → st + n ≤ x.1 + x.2 →
  let prev := last_addr 0 l1 in
  let m1 := if prev =? 0 then m else wr64 m prev (rd64 m x.1) in
  let fl1 := if prev =? 0 then rd64 m x.1 else fl in
  ∃ m2 fl2 m3 fl3 l',
    (if x.1 <? st then insert_large_fragment (fuel_of c) m1 fl1 x.1 (w64 (st - x.1))
     else Some (m1, fl1)) = Some (m2, fl2) ∧
    (if st + n <? x.1 + x.2
     then insert_large_fragment (fuel_of c) m2 fl2 (st + n) (w64 (x.1 + x.2 - (st + n)))
     else Some (m2, fl2)) = Some (m3, fl3) ∧
    frees c m3 fl3 l' ∧ (∀ y, y ∈ l' → apart (st, n) y) ∧
    ∀ z, 0 < z.2 → (∀ y, y ∈ l1 ++ x :: l2 → apart z y) →
      kept m m3 z ∧ ∀ y, y ∈ l' → apart z y.
Proof.
  intros HcL Hfr Hn Hst Hend prev m1 fl1.
  destruct (fr_bounds _ _ _ _ Hfr x) as (Hx1 & Hx2 & Hx3); [set_solver|].
  pose proof (apart_nodes _ _ _ (coalesced_pairwise _ (fr_sorted _ _ _ _ Hfr))) as Hxa.
  destruct (frees_unlink c m fl l1 x l2 HcL Hfr) as [Hfr1 Hk1].
  fold prev m1 fl1 in Hfr1, Hk1. clearbody m1 fl1.
  assert (∀ w : ext, x.1 ≤ w.1 → w.1 + w.2 ≤ x.1 + x.2 → ∀ y, y ∈ l1 ++ l2 → apart w y) as Hsub.
  { intros w Hw1 Hw2 y Hy. symmetry. apply (apart_within y x w); auto. symmetry. auto. }
  destruct (frees_gap c m1 fl1 (l1 ++ l2) x.1 st) as (m2 & fl2 & L2 & E2 & Hfr2 & Hc2 & Hk2);
    auto; [lia|intros _; apply Hsub; simpl; lia|].
  assert (∀ z : ext, 0 < z.2 → apart z (x.1, st - x.1) → (∀ y, y ∈ l1 ++ l2 → apart z y) →
    ∀ y, y ∈ L2 → apart z y) as Hz2.
  { intros z Hz Hz1 Hz2. apply Hc2; [done|]. intros y [->|Hy]%elem_of_cons; auto. }
  destruct (frees_gap c m2 fl2 L2 (st + n) (x.1 + x.2)) as (m3 & fl3 & L3 & E3 & Hfr3 & Hc3 & Hk3);
    auto; [lia| |].
  { intros Hlt. apply Hz2; [simpl; lia|unfold apart; simpl; lia|apply Hsub; simpl; lia]. }
  exists m2, fl2, m3, fl3, L3. split_and!; auto.
  - apply Hc3; [simpl; lia|]. intros y [->|Hy]%elem_of_cons; [unfold apart; simpl; lia|].
    revert y Hy. apply Hz2; [simpl; lia|unfold apart; simpl; lia|apply Hsub; simpl; lia].
  - intros z Hz Hza. pose proof (Hza x ltac:(set_solver)) as Hzx.
    assert (apart z (x.1, st - x.1)) by (apply (apart_within z x); simpl; auto; lia).
    assert (∀ y, y ∈ l1 ++ l2 → apart z y) by (intros; apply Hza; set_solver).
    assert (∀ y, y ∈ (st + n, x.1 + x.2 - (st + n)) :: L2 → apart z y) as Hz3.
    { intros y [->|Hy]%elem_of_cons; [apply (apart_within z x); simpl; auto; lia|]. by eapply Hz2. }
    split; [|by apply Hc3].
    eapply kept_trans; [apply Hk1; intros; apply Hza; set_solver|].
    eapply kept_trans; [apply Hk2; [done|]|by apply Hk3].
    intros y [->|Hy]%elem_of_cons; auto.
Qed.

(** ** Allocation *)

(** What an allocation of [size] bytes promises. *)
Definition allocated (h h' : heap) (live : list ext) (size p : Z) : Prop :=
  ∃ blk slabs large, p = blk.1 + 32 ∧ heap_ok h' (blk :: live) slabs large ∧
    size + 24 ≤ blk.2 ∧ ∀ z, z ∈ live → kept (hmem h) (hmem h') z.

Section Alloc.
Context (root : Z) (h : heap) (live : list ext) (slabs : list (list ext)) (large : list ext).
Context (H : heap_ok h live slabs large).

Lemma live_apart z w : z ∈ live ++ concat slabs → w ∈ large → apart z w ∧ 0 < z.2.
Proof using H.
  intros Hz Hw. destruct H as [Hp Hb _ _ _ _ _ _]. rewrite app_assoc in Hp, Hb.
  apply pairwise_app in Hp as (_ & _ & Hp). destruct (Hb z); [set_solver|]. split; [auto|lia].
Qed.

Lemma live_pos z : z ∈ live ++ concat slabs → 0 < z.2.
Proof using H.
  intros Hz. destruct H as [_ Hb _ _ _ _ _ _]. destruct (Hb z); [set_solver|]. lia.
Qed.

Lemma heap_cur_bounds : HEAP_BASE + 4096 ≤ heap_cur h ≤ HEAP_LIMIT.
Proof using H. destruct (ho_window _ _ _ _ H). lia. Qed.

(** Replacing the large list and writing the header of a block cut from it. *)
Lemma heap_ok_cut m' fl' large' blk r ta tf sa sr la lr :
  frees (heap_cur h) m' fl' large' → in_window h blk → blk.1 mod 16 = 0 →
  (∀ y, y ∈ large' → apart blk y) →
  (∀ z, z ∈ live ++ concat slabs →
    apart blk z ∧ kept (hmem h) m' z ∧ ∀ y, y ∈ large' → apart z y) →
  let m'' := write_hdr m' blk.1 LARGE_CLASS blk.2 r in
  heap_ok (with_counts (with_large h m'' fl') ta tf sa sr la lr) (blk :: live) slabs large' ∧
  ∀ z, z ∈ live → kept (hmem h) m'' z.
Proof using H.
  intros [Hr Hc Hb] Hw H16 Hblk Hz m''. pose proof heap_cur_bounds as Hcb.
  assert (∀ y, apart blk y → kept m' m'' y) as Hk.
  { intros y Hy. apply write_hdr_kept. unfold in_window, apart in *. simpl. lia. }
  assert (0 ≤ blk.2 < 2 ^ 64) as Hs.
  { unfold in_window, HEAP_LIMIT, HEAP_BASE in *. lia. }
  destruct (write_hdr_words m' blk.1 LARGE_CLASS blk.2 r) as [Hw1 Hw2]; [done|done|].
  split.
  - eapply (heap_ok_ext (with_hmem (with_large h m' fl') m'')); try done.
    apply heap_ok_new.
    + apply (heap_ok_large h live slabs large H); auto; intros; by apply Hz.
    + intros z Hin. rewrite app_assoc in Hin.
      apply elem_of_app in Hin as [Hin|Hin]; [destruct (Hz z Hin) as (? & _ & _)|]; auto.
    + done.
    + done.
    + done.
    + left. done.
  - intros z Hzl. destruct (Hz z) as (? & ? & _); [set_solver|].
    eapply kept_trans; [done|]. by apply Hk.
Qed.

Lemma take_large_spec l1 x l2 n r :
  large = l1 ++ x :: l2 → is_pow2 r → 16 ≤ r ≤ 2 ^ 44 → 33 ≤ n ≤ x.2 →
  x.1 ≤ (fit x.1 n r).1 → (fit x.1 n r).2 ≤ x.1 + x.2 →
  ∃ p h', take_large h (last_addr 0 l1) x.1 n r = Ret (p, h') ∧
    allocated h h' live (n - 32) p ∧ p mod r = 0.
Proof using H.
  intros El Hr Hr16 Hn Hst Hend. pose proof heap_cur_bounds as Hcb.
  pose proof (heap_frees _ _ _ _ H) as Hfr. rewrite El in Hfr.
  destruct (fr_bounds _ _ _ _ Hfr x) as (Hx1 & Hx2 & Hx3); [set_solver|].
  destruct (rep_node _ _ _ _ _ (fr_rep _ _ _ _ Hfr)) as [Hxs _].
  assert (x.1 + x.2 < 2 ^ 64 - 2 ^ 46) as Hx4 by (unfold HEAP_LIMIT, HEAP_BASE in *; lia).
  assert (0 < x.1) by (unfold HEAP_LIMIT, HEAP_BASE in *; lia).
  destruct (fit_spec x.1 n r) as (st & Ef & Hsb & Hsr & Hs16); auto; [lia|lia|lia|].
  rewrite Ef in Hst, Hend. simpl in Hst, Hend.
  destruct (frees_split (heap_cur h) (hmem h) (free_large h) l1 x l2 st n)
    as (m2 & fl2 & m3 & fl3 & l' & E2 & E3 & Hfr3 & Hblk & Hoth); auto; [apply Hcb|lia|].
  unfold take_large. rewrite Hxs, Ef. rewrite (w64_small (x.1 + x.2)) by lia.
  destruct (heap_ok_cut m3 fl3 l' (st, n) r (incr (total_allocs h)) (total_frees h) (slab_allocs h)
    (slab_reuses h) (large_allocs h) (incr (large_reuses h))) as [Hok Hk]; simpl; auto.
  - unfold in_window. simpl. lia.
  - intros z Hz. assert (∀ y, y ∈ l1 ++ x :: l2 → apart z y) as Hza.
    { intros y Hy. apply live_apart; [done|]. by rewrite El. }
    destruct (Hoth z) as [Hk Ha]; auto using live_pos. split_and!; auto.
    symmetry. apply (apart_within z x); simpl; [apply Hza; set_solver|lia|lia].
  - destruct (last_addr 0 l1 =? 0); change (walk_fuel h) with (fuel_of (heap_cur h));
      rewrite E2, E3; eexists _, _; (split; [reflexivity|]);
      change HEAP_PAYLOAD_OFFSET with 32; rewrite w64_small by lia; (split; [|done]);
      exists (st, n), slabs, l'; (split_and!; [done|done|simpl; lia|done]).
Qed.

(** A block cut at the bump pointer. *)
Lemma heap_ok_cut_cur s' b n e w r h' :
  heap_cur h ≤ b → b mod 16 = 0 → 33 ≤ n → b + n ≤ e → heap_end h ≤ e ≤ HEAP_LIMIT →
  e mod 4096 = 0 → 0 ≤ w < 2 ^ 64 → word_ok w n →
  hmem h' = write_hdr (hmem h) b w n r → heap_cur h' = b + n → heap_end h' = e →
  free_lists h' = free_lists h → free_large h' = free_large h → phys h' = s' →
  heap_ok h' ((b, n) :: live) slabs large ∧ ∀ z, z ∈ live → kept (hmem h) (hmem h') z.
Proof using H.
  intros Hb H16 Hn Hbn He Hm Hw Hwd E1 E2 E3 E4 E5 _. pose proof heap_cur_bounds as Hcb.
  destruct (write_hdr_words (hmem h) b w n r) as [Hw1 Hw2];
    [done|unfold HEAP_LIMIT, HEAP_BASE in *; lia|].
  assert (∀ z, z ∈ live ++ concat slabs ++ large →
    apart (b, n) z ∧ kept (hmem h) (write_hdr (hmem h) b w n r) z) as Hz.
  { intros z Hin. destruct (ho_bounds _ _ _ _ H z Hin) as (? & ? & ?).
    split; [|apply write_hdr_kept]; unfold apart; simpl; lia. }
  split.
  - apply (heap_ok_ext (with_hmem (with_window (with_cur h (b + n)) (phys h) e)
      (write_hdr (hmem h) b w n r))); auto.
    apply heap_ok_new; simpl; auto.
    + apply heap_ok_bump; auto; lia.
    + unfold in_window. simpl. lia.
    + by rewrite Hw1.
  - intros z Hin. rewrite E1. apply Hz. set_solver.
Qed.

Lemma ensure_space_cases b n :
  heap_cur h ≤ b → 0 ≤ n → b + n ≤ HEAP_LIMIT - 4096 →
  match ensure_space root (with_cur h b) b n with
  | Ret h1 => ∃ s' e, h1 = with_window (with_cur h b) s' e ∧ heap_end h ≤ e ≤ HEAP_LIMIT ∧
      b + n ≤ e ∧ e mod 4096 = 0
  | Panic msg a => ∃ g, map_next_page root g = Panic msg a
  end.
Proof using H.
  intros Hb Hn Hl. destruct (ensure_space root (with_cur h b) b n) as [h1|msg a] eqn:E.
  - pose proof heap_cur_bounds. destruct (ho_window _ _ _ _ H) as (? & ? & ?).
    apply (ensure_space_spec root (with_cur h b)) in E; simpl; auto;
      unfold HEAP_BASE, HEAP_LIMIT in *; lia.
  - unfold ensure_space, rfor in E. apply rfold_panic in E as (i & g & E). eauto.
Qed.

Lemma alloc_big_spec size r :
  is_pow2 r → 16 ≤ r → 0 < size → heap_cur h + size + r + 8192 ≤ HEAP_LIMIT →
  match alloc_big root h (size + 32) r with
  | Ret (p, h') => allocated h h' live size p ∧ p mod r = 0
  | Panic msg a => ∃ g, map_next_page root g = Panic msg a
  end.
Proof using H.
  intros Hr Hr16 Hs Hl. pose proof heap_cur_bounds as Hcb.
  destruct (fit_spec (heap_cur h) (size + 32) r) as (b & Ef & Hb & Hbr & Hb16); auto;
    [unfold HEAP_LIMIT, HEAP_BASE in *; lia..|].
  unfold fit in Ef. injection Ef as Eb Ebn. unfold alloc_big. rewrite Eb.
  pose proof (ensure_space_cases b (size + 32)) as He. cbn [heap_cur with_cur].
  destruct (ensure_space root _ b _) as [h1|msg a]; [|apply He; lia].
  destruct He as (s' & e & -> & Hee & Hbe & Hem); [lia..|]. simpl.
  assert (b + (size + 32) < 2 ^ 64) by (unfold HEAP_LIMIT, HEAP_BASE in *; lia).
  change HEAP_PAYLOAD_OFFSET with 32. unfold HEAP_BASE in *. rewrite !w64_small by lia.
  split; [|done]. exists (b, size + 32), slabs, large. split; [done|]. simpl.
  match goal with |- heap_ok ?g _ _ _ ∧ _ =>
    destruct (heap_ok_cut_cur s' b (size + 32) e LARGE_CLASS r g) as [Hok Hk]; auto end;
    [lia|lia|done|by left|]. split_and!; [done|lia|done].
Qed.

Lemma alloc_slab_spec i c size r :
  slab_classes !! i = Some c → size + 24 ≤ c → is_pow2 r → 16 ≤ r →
  heap_cur h + r + 16384 ≤ HEAP_LIMIT →
  match alloc_slab root h (Z.of_nat i) r with
  | Ret (p, h') => allocated h h' live size p
  | Panic msg a => ∃ g, map_next_page root g = Panic msg a
  end.
Proof using H.
  intros Hc Hs Hr Hr16 Hl. pose proof heap_cur_bounds as Hcb.
  destruct (slab_class_small i c Hc) as [Hcr Hi8].
  destruct (ho_lengths _ _ _ _ H) as [Hlf Hls].
  destruct (lookup_lt_is_Some_2 (free_lists h) i) as [hd Hhd]; [lia|].
  destruct (lookup_lt_is_Some_2 slabs i) as [l Hsl]; [lia|].
  destruct (ho_slabs _ _ _ _ H i hd l c Hhd Hsl Hc) as [Hrep Hlx].
  unfold alloc_slab. rewrite Nat2Z.id, (nth_lookup_Some _ _ _ _ Hhd), (nth_lookup_Some _ _ _ _ Hc).
  destruct (Z.eqb_spec hd 0) as [E|E]; simpl.
  - destruct (align_up_pow2 (heap_cur h) r) as [Hab Ham]; auto;
      [unfold HEAP_LIMIT, HEAP_BASE in *; lia..|].
    assert (align_up (heap_cur h) r mod 16 = 0) as H16 by (by apply (pow2_mod16 _ r)).
    set (b := align_up (heap_cur h) r) in *. clearbody b.
    pose proof (ensure_space_cases b c) as He.
    destruct (ensure_space root _ b _) as [h1|msg a]; [|apply He; lia].
    destruct He as (s' & e & -> & Hee & Hbe & Hem); [lia..|]. simpl.
    assert (b + 8192 < 2 ^ 64) by (unfold HEAP_LIMIT, HEAP_BASE in *; lia).
    change HEAP_PAYLOAD_OFFSET with 32. unfold HEAP_BASE in *. rewrite !w64_small by lia.
    exists (b, c), slabs, large. split; [done|]. simpl.
    match goal with |- heap_ok ?g _ _ _ ∧ _ =>
      destruct (heap_ok_cut_cur s' b c e (Z.of_nat i) r g) as [Hok Hk]; auto end;
      try lia. right. left. by exists i, c.
  - destruct l as [|x l]; [by rewrite Hrep in E|]. destruct Hrep as (-> & _ & _).
    destruct (Hlx x) as [Hx16 _]; [set_solver|].
    destruct (ho_bounds _ _ _ _ H x) as (Hx1 & Hx2 & Hx3).
    { pose proof (elem_concat slabs i (x :: l) x Hsl). set_solver. }
    rewrite w64_small by (change HEAP_PAYLOAD_OFFSET with 32; unfold HEAP_LIMIT, HEAP_BASE in *; lia).
    exists x, (<[i := l]> slabs), large. split_and!; [done| |lia|done].
    eapply heap_ok_ext, (heap_ok_pop h live slabs large H i x l c Hsl Hc); done.
Qed.

Lemma pick_class_spec cs : ∀ i n r,
  0 ≤ i → pick_class cs i n r = -1 ∨
  ∃ k c, pick_class cs i n r = i + Z.of_nat k ∧ cs !! k = Some c ∧ n ≤ c ∧ r ≤ c.
Proof.
  induction cs as [|c cs IH]; intros i n r Hi; simpl; [by left|].
  destruct ((n <=? c) && (r <=? c)) eqn:E; bsimp.
  - right. exists 0%nat, c. split_and!; [lia|done|lia|lia].
  - destruct (IH (i + 1) n r ltac:(lia)) as [->|(k & c' & -> & ? & ?)]; [by left|].
    right. exists (S k), c'. split_and!; auto; lia.
Qed.

(** The alignment used: at least 16. *)
Lemma req_align_spec align :
  align = 0 ∨ is_pow2 align →
  let al := if align =? 0 then 8 else align in
  let r := if al <? 16 then 16 else al in
  is_pow2 r ∧ 16 ≤ r ≤ align + 16 ∧ (16 ≤ align → r = align ∧ al = align).
Proof using.
  intros Hal al r. unfold r, al. destruct Hal as [->|Hal]; simpl.
  - split_and!; [by exists 4|lia|lia|lia].
  - pose proof (is_pow2_pos _ Hal). rewrite (proj2 (Z.eqb_neq align 0)) by lia.
    destruct (Z.ltb_spec align 16); split_and!; auto; try lia. by exists 4.
Qed.

Lemma pick_slab_class_align size al :
  pick_slab_class size al = pick_class slab_classes 0 (w64 (size + 24)) (if al <? 16 then 16 else al).
Proof using. done. Qed.

Lemma kalloc_core size align :
  0 < size → align = 0 ∨ is_pow2 align → heap_cur h + size + align + 32768 ≤ HEAP_LIMIT →
  match kalloc root h size align with
  | Ret (p, h') => allocated h h' live size p ∧
      (pick_slab_class size align = -1 → 16 ≤ align → p mod align = 0)
  | Panic msg a => ∃ g, map_next_page root g = Panic msg a
  end.
Proof using H.
  intros Hs Hal Hl. pose proof heap_cur_bounds as Hcb.
  assert (0 < HEAP_BASE ∧ HEAP_LIMIT < 2 ^ 64 ∧ HEAP_LIMIT = HEAP_BASE + 2 ^ 44) as HL by done.
  unfold kalloc. rewrite (proj2 (Z.eqb_neq size 0)) by lia.
  assert (0 ≤ align) by (destruct Hal as [->|Hal]; [lia|]; apply is_pow2_pos in Hal; lia).
  destruct (req_align_spec align Hal) as (Hr & Hr16 & Hra).
  set (al := if align =? 0 then 8 else align) in *. set (r := if al <? 16 then 16 else al) in *.
  change HEAP_PAYLOAD_OFFSET with 32. rewrite (w64_small (size + 32)) by lia.
  pose proof (heap_frees _ _ _ _ H) as Hfr.
  destruct (find_fit_spec (hmem h) (size + 32) r large (walk_fuel h) 0 (free_large h))
    as [->|(l1 & x & l2 & El & -> & Hx & Hst & Hend)].
  - apply Hfr.
  - intros y Hy. eapply bounded_node, Hfr; [apply Hcb|done].
  - by eapply walk_fuel_enough.
  - rewrite pick_slab_class_align. fold r.
    rewrite (w64_small (size + 24)) by lia.
    destruct (pick_class_spec slab_classes 0 (size + 24) r ltac:(lia)) as [E|(k & c & E & Hk & Hkn & Hkr)].
    + rewrite E. simpl. pose proof (alloc_big_spec size r Hr) as Hb.
      destruct (alloc_big root h (size + 32) r) as [[p h']|msg a]; [|apply Hb; lia].
      destruct Hb as [Hb Hp]; [lia..|]. split; [done|]. intros _ H16. destruct (Hra H16) as [Er _]. by rewrite <- Er.
    + rewrite E, Z.add_0_l, (proj2 (Z.leb_le 0 _)) by lia.
      pose proof (alloc_slab_spec k c size r Hk Hkn Hr) as Hb.
      destruct (alloc_slab root h (Z.of_nat k) r) as [[p h']|msg a]; [|apply Hb; lia].
      split; [apply Hb; lia|]. intros Hn H16. destruct (Hra H16) as [Er Ea].
      rewrite pick_slab_class_align in Hn. rewrite <- Ea in Hn. fold r in Hn.
      rewrite w64_small in Hn by lia. lia.
  - destruct (take_large_spec l1 x l2 (size + 32) r) as (p & h' & -> & Ha & Hp); auto; [lia..|].
    replace (size + 32 - 32) with size in Ha by lia. split; [done|].
    intros _ H16. destruct (Hra H16) as [Er _]. by rewrite <- Er.
Qed.
End Alloc.

(** ** Release *)

Section Free.
Context (h : heap) (live : list ext) (slabs : list (list ext)) (large : list ext).
Context (H : heap_ok h live slabs large).

(** A live block is disjoint from the rest, and others are kept by writes to
    its header. *)
Lemma live_rest blk live' :
  live ≡ₚ blk :: live' → ∀ z, z ∈ live' ++ concat slabs ++ large → apart blk z ∧ in_window h z.
Proof using H.
  intros El z Hz. destruct H as [Hp Hb _ _ _ _ _ _]. rewrite El in Hp.
  split; [|apply Hb; rewrite El; set_solver].
  change (pairwise (blk :: (live' ++ concat slabs ++ large))) in Hp.
  apply pairwise_cons in Hp as [Hp _]. auto.
Qed.

Lemma kfree_large blk live' ta tf sa sr la lr :
  live ≡ₚ blk :: live' → rd64 (hmem h) (blk.1 + 8) = blk.2 → in_window h blk →
  ∃ m' fl', insert_large_node (walk_fuel h)
      (wr64 (wr64 (hmem h) (blk.1 + 8) blk.2) (blk.1 + 16)
         (rd64 (wr64 (hmem h) (blk.1 + 8) blk.2) (blk.1 + 16))) (free_large h) blk.1 = Some (m', fl') ∧
    heap_ok (with_counts (with_large h m' fl') ta tf sa sr la lr) live' slabs (ins blk large) ∧
    ∀ z, z ∈ live' → kept (hmem h) m' z.
Proof using H.
  intros El Hsz Hw. pose proof (live_rest blk live' El) as Hrest.
  assert (HEAP_BASE + 4096 ≤ heap_cur h ≤ HEAP_LIMIT) as Hcb by (by eapply heap_cur_bounds).
  assert (node_ok blk) as Hnode by (eapply bounded_node; [apply Hcb|done]).
  set (m0 := wr64 (wr64 (hmem h) _ _) _ _). destruct Hw as (Hw1 & Hw2 & Hw3).
  assert (frame_hdrs (blk :: large) (hmem h) m0) as Hf0.
  { apply (frame_trans _ _ (wr64 (hmem h) (blk.1 + 8) blk.2));
      apply (frame_write _ blk); lia || by left. }
  assert (clear blk.1 large) as Hclr.
  { apply node_clear; [done|]. intros z Hz. destruct (Hrest z) as [? ?]; [set_solver|].
    split; [eapply bounded_node; [apply Hcb|done]|done]. }
  destruct (insert_large_node_ins (walk_fuel h) m0 (free_large h) large blk) as (m' & fl' & E & Hr & Hf).
  - eapply rep_same; [|apply (ho_large _ _ _ _ H)].
    apply (same_nodes_trans _ _ (wr64 (hmem h) (blk.1 + 8) blk.2)); apply clear_same; done || lia.
  - apply (ho_sorted _ _ _ _ H).
  - done.
  - intros y Hy. destruct (Hrest y) as [? ?]; [set_solver|].
    split; [eapply bounded_node; [apply Hcb|done]|done].
  - apply window_canonical. unfold HEAP_LIMIT in *. lia.
  - unfold m0. rewrite rd64_wr64_disj, rd64_wr64_same by lia.
    apply w64_small. destruct Hnode as (? & ? & ?). lia.
  - by eapply walk_fuel_enough.
  - assert (∀ z, z ∈ live' ++ concat slabs → kept (hmem h) m' z) as Hk.
    { intros z Hz. apply (frame_kept (blk :: large)); [by eapply frame_trans|].
      intros w [->|Hwl]%elem_of_cons.
      - split; [|lia]. symmetry. apply Hrest. set_solver.
      - destruct (Hrest w) as [_ (? & ? & ?)]; [set_solver|]. split; [|lia].
        eapply (live_apart h live slabs large H); [rewrite El; set_solver|done]. }
    exists m', fl'. split_and!; [done| |intros; apply Hk; set_solver].
    eapply (heap_ok_ext (with_large h m' fl')); try done.
    assert (∀ y, y ∈ large → 0 < y.2) as Hpos by (intros y Hy; destruct (Hrest y) as [_ (? & ? & ?)]; [set_solver|lia]).
    eapply heap_ok_large; [by eapply heap_ok_drop|done|done| | |].
    + apply ins_coalesced; [lia|apply (ho_sorted _ _ _ _ H)|].
      intros y Hy. split; [apply Hrest; set_solver|auto].
    + unfold in_window. apply ins_bounds; [lia|].
      intros y [->|Hy]%elem_of_cons; [lia|]. apply Hrest. set_solver.
    + intros z w Hz. apply ins_covered; auto; [lia| |].
      * destruct (Hrest z) as [_ (? & ? & ?)]; [set_solver|lia].
      * intros x [->|Hx]%elem_of_cons; [symmetry; apply Hrest; set_solver|].
        eapply (live_apart h live slabs large H); [rewrite El; set_solver|done].
Qed.

Lemma kfree_core blk live' :
  live ≡ₚ blk :: live' → frees_enabled h = true →
  ∃ h', kfree h (blk.1 + 32) = Ret h' ∧ (∀ z, z ∈ live' → kept (hmem h) (hmem h') z) ∧
    let w := rd64 (hmem h) blk.1 in
    (w = LARGE_CLASS → heap_ok h' live' slabs (ins blk large)) ∧
    (w < slab_count → ∃ l, slabs !! Z.to_nat w = Some l ∧
       heap_ok h' live' (<[Z.to_nat w := blk :: l]> slabs) large) ∧
    (slab_count ≤ w < LARGE_CLASS → h' = h ∧ heap_ok h' live' slabs large).
Proof using H.
  intros El Hen. assert (blk ∈ live) as Hin by (rewrite El; by left).
  pose proof (ho_bounds _ _ _ _ H blk ltac:(set_solver)) as Hw.
  destruct (ho_live _ _ _ _ H blk Hin) as (H16 & Hsz & Hwd). pose proof Hw as (Hb1 & Hb2 & Hb3).
  assert (HEAP_BASE + 4096 ≤ heap_cur h ≤ HEAP_LIMIT) as Hcb by (by eapply heap_cur_bounds).
  assert (0 < HEAP_BASE ∧ HEAP_LIMIT < 2 ^ 64 - 2 ^ 44) as HL by done.
  assert (is_canonical blk.1 = true) as Hcan by (apply window_canonical; lia).
  unfold kfree. rewrite Hen, (proj2 (Z.eqb_neq _ 0)) by lia. cbn [orb negb].
  change HEAP_PAYLOAD_OFFSET with 32. replace (blk.1 + 32 - 32) with blk.1 by lia.
  rewrite (w64_small blk.1), Hcan by lia. cbn [negb].
  destruct (Z.eqb_spec (rd64 (hmem h) blk.1) LARGE_CLASS) as [E|E].
  - rewrite Hsz.
    destruct (kfree_large blk live' (total_allocs h) (incr (total_frees h)) (slab_allocs h)
      (slab_reuses h) (large_allocs h) (large_reuses h) El Hsz Hw) as (m' & fl' & -> & Hok & Hk).
    eexists. split; [reflexivity|]. split; [done|]. simpl. rewrite E.
    unfold slab_count, LARGE_CLASS. split_and!; [done|lia|lia].
  - destruct (Z.leb_spec slab_count (rd64 (hmem h) blk.1)) as [Hc|Hc].
    + exists h. split_and!; [done|done|done|lia|]. intros _. split; [done|]. by eapply heap_ok_drop.
    + destruct Hwd as [?|[(i & k & Ei & Hk & Hkc)|?]]; [done| |lia].
      rewrite Ei, Nat2Z.id. destruct (slab_class_small i k Hk) as [_ Hi8].
      destruct (lookup_lt_is_Some_2 slabs i) as [l Hl];
        [destruct (ho_lengths _ _ _ _ H); lia|].
      eexists. split; [reflexivity|]. split_and!; simpl.
      * intros z Hz b Hb. apply rd8_wr64_disj.
        destruct (live_rest blk live' El z) as [Ha _]; [set_solver|]. unfold apart in Ha. lia.
      * by rewrite <- Ei.
      * intros _. exists l. split; [done|].
        eapply heap_ok_ext, (heap_ok_push h live slabs large H i blk l k live' El Hl Hk Hkc); done.
      * unfold slab_count. lia.
Qed.

(** A write into the payload of a live block. *)
Lemma heap_ok_write x a v :
  x ∈ live → x.1 + 32 ≤ a < x.1 + x.2 → heap_ok (with_hmem h (wr8 (hmem h) a v)) live slabs large.
Proof using H.
  intros Hx Ha. apply elem_of_Permutation in Hx as (live' & El).
  pose proof (live_rest x live' El) as Hrest. destruct H as [Hp Hw Hwin Hr Hc Hlen Hsl Hlv].
  assert (∀ z, z ∈ live' ++ concat slabs ++ large →
    kept (hmem h) (wr8 (hmem h) a v) z ∧ 33 ≤ z.2) as Hk.
  { intros z Hz. destruct (Hrest z Hz) as [Hap (? & ? & ?)]. split; [|lia].
    intros b Hb. apply rd8_wr8_ne. unfold apart in Hap. lia. }
  split; auto; simpl.
  - eapply rep_kept; [|done]. intros y Hy. destruct (Hk y); [set_solver|]. split; [done|lia].
  - intros i hd l c Hhd Hl Hcl. destruct (Hsl i hd l c Hhd Hl Hcl) as [Hrl Hxs]. split; [|done].
    eapply rep_kept; [|done]. intros y Hy. pose proof (elem_concat slabs i l y Hl Hy).
    destruct (Hk y); [set_solver|]. split; [done|lia].
  - intros y Hy. destruct (Hlv y Hy) as (? & Hs & Hwd). rewrite El in Hy.
    apply elem_of_cons in Hy as [->|Hy].
    + rewrite !(rd64_ext (wr8 (hmem h) a v) (hmem h));
        [done|intros b Hb; apply rd8_wr8_ne; lia..].
    + destruct (Hk y); [set_solver|].
      rewrite (kept_word (hmem h)), (kept_word0 (hmem h)) by (done || lia). done.
Qed.
End Free.

End HeapOps.
