(* ===== verification/HeapSpec.v ===== *)
(** * Properties of the kernel heap

    The heap as its clients see it: the list of live blocks.  [heap_run]
    relates a heap state to the blocks its clients hold after any sequence of
    initialisation, [kalloc], [kfree], [kalloc_enable_frees] and writes of
    clients into their own payloads. *)

From S2P Require Import Prelude Memory Pmm Mmu Heap HeapList HeapInv HeapOps.
From stdpp Require Import options.
Import Heap HeapList HeapInv HeapOps.

Module HeapSpec.

Lemma kheap_init_ok root s h :
  kheap_init root (heap_boot s) = Ret h →
  heap_ok h [] (replicate 8 []) [] ∧ heap_ready h = true ∧ frees_enabled h = false.
Proof.
  unfold kheap_init. intros (h1 & (s' & ->)%map_next_page_eq & E)%bind_Ret. injection E as <-.
  split; [|done]. split; simpl; try done.
  - constructor.
  - intros x Hx. set_solver.
  - constructor.
  - intros i hd l c Hhd Hl Hc.
    do 8 (destruct i as [|i]; [simplify_eq/=; split; [done|set_solver]|]). done.
  - intros x Hx. set_solver.
Qed.

(** [room h size align]: the request fits below the end of the window. *)
Definition room (h : heap) (size align : Z) : Prop :=
  heap_cur h + size + align + 32768 ≤ HEAP_LIMIT.

Definition good_align (align : Z) : Prop := align = 0 ∨ is_pow2 align.

(** The block that contains a payload, as its header describes it. *)
Definition block_of (h : heap) (p : Z) : ext := (p - 32, rd64 (hmem h) (p - 24)).

Inductive heap_run (root : Z) : heap → list ext → Prop :=
| run_init s h :
    kheap_init root (heap_boot s) = Ret h → heap_run root h []
| run_enable h live :
    heap_run root h live → heap_run root (kalloc_enable_frees h) live
| run_alloc h live size align p h' :
    heap_run root h live → 0 < size → good_align align → room h size align →
    kalloc root h size align = Ret (p, h') → heap_run root h' (block_of h' p :: live)
| run_free h live x live' h' :
    heap_run root h live → live ≡ₚ x :: live' →
    kfree h (x.1 + 32) = Ret h' → heap_run root h' live'
| run_write h live x a v :
    heap_run root h live → x ∈ live → x.1 + 32 ≤ a < x.1 + x.2 →
    heap_run root (with_hmem h (wr8 (hmem h) a v)) live.

Lemma allocated_block h h' live size p :
  allocated h h' live size p → ∃ slabs large,
    heap_ok h' (block_of h' p :: live) slabs large ∧ size + 24 ≤ (block_of h' p).2 ∧
    p mod 16 = 0 ∧ ∀ z, z ∈ live → kept (hmem h) (hmem h') z.
Proof.
  intros (blk & slabs & large & -> & Hok & Hs & Hk).
  destruct (ho_live _ _ _ _ Hok blk) as (H16 & Hsz & _); [by left|].
  assert (block_of h' (blk.1 + 32) = blk) as ->.
  { unfold block_of. replace (blk.1 + 32 - 24) with (blk.1 + 8) by lia. rewrite Hsz.
    replace (blk.1 + 32 - 32) with blk.1 by lia. by destruct blk. }
  exists slabs, large. split_and!; auto. dlia.
Qed.

Lemma kfree_ok h live slabs large x live' :
  heap_ok h live slabs large → live ≡ₚ x :: live' →
  ∃ h' slabs' large', kfree h (x.1 + 32) = Ret h' ∧ heap_ok h' live' slabs' large' ∧
    ∀ z, z ∈ live' → kept (hmem h) (hmem h') z.
Proof.
  intros H El. destruct (frees_enabled h) eqn:Hen.
  - destruct (kfree_core h live slabs large H x live' El Hen) as (h' & E & Hk & Hl & Hs & Ho).
    assert (word_ok (rd64 (hmem h) x.1) x.2) as [Hw|[(i & k & Hw & Hik & _)|Hw]].
    { apply (ho_live _ _ _ _ H). rewrite El. by left. }
    + eauto 10.
    + destruct Hs as (l & _ & Hs); [|eauto 10].
      destruct (slab_class_small i k Hik). rewrite Hw. unfold slab_count. lia.
    + destruct (Ho Hw) as [-> Hok]. eauto 10.
  - exists h, slabs, large. split_and!; [|by eapply heap_ok_drop|done].
    unfold kfree. rewrite Hen. by rewrite orb_true_r.
Qed.

Lemma heap_run_inv root h live :
  heap_run root h live → ∃ slabs large, heap_ok h live slabs large.
Proof.
  induction 1 as [s h E|h live _ (slabs & large & IH)|h live size align p h' _ (slabs & large & IH) Hs Ha Hr E
    |h live x live' h' _ (slabs & large & IH) El E|h live x a v _ (slabs & large & IH) Hx Ha].
  - apply kheap_init_ok in E as [? _]. eauto.
  - exists slabs, large. by eapply heap_ok_ext; [..|exact IH].
  - pose proof (kalloc_core root h live slabs large IH size align Hs Ha Hr) as Hk. rewrite E in Hk.
    destruct Hk as [(slabs' & large' & Hok & _)%allocated_block _]. eauto.
  - destruct (kfree_ok h live slabs large x live' IH El) as (h1 & slabs' & large' & E1 & Hok & _).
    rewrite E1 in E. injection E as <-. eauto.
  - exists slabs, large. by eapply heap_ok_write.
Qed.


(** C18: on a heap in its invariant, [kalloc] of a non-zero size with zero or
    power-of-two alignment either panics because a page could not be mapped,
    or returns a 16-byte aligned payload 32 bytes into a block of at least
    [size + 24] bytes that is disjoint from every live and free block; live
    blocks keep their contents.  Requests too large for the slab classes are
    aligned as asked.  In particular no walk of a free list fails to end. *)
Theorem kalloc_spec root h live slabs large size align :
  heap_ok h live slabs large → 0 < size → good_align align → room h size align →
  match kalloc root h size align with
  | Ret (p, h') => (∃ slabs' large', heap_ok h' (block_of h' p :: live) slabs' large') ∧
      size + 24 ≤ (block_of h' p).2 ∧ p mod 16 = 0 ∧
      (pick_slab_class size align = -1 → 16 ≤ align → p mod align = 0) ∧
      ∀ z, z ∈ live → kept (hmem h) (hmem h') z
  | Panic msg a => ∃ g, map_next_page root g = Panic msg a
  end.
Proof.
  intros H Hs Ha Hr. pose proof (kalloc_core root h live slabs large H size align Hs Ha Hr) as Hk.
  destruct (kalloc root h size align) as [[p h']|msg a]; [|done].
  destruct Hk as [(slabs' & large' & ? & ? & ? & ?)%allocated_block ?]. split_and!; eauto.
Qed.

(** C21: [kfree] of a live block always returns and leaves the other blocks
    alone.  A block whose class word says large is merged into the sorted list
    of large nodes by [ins]; one with a slab class is pushed on that class's
    list; one whose class word is neither (a slab block that was reused, whose
    header still holds the old list link) is leaked. *)
Theorem kfree_spec h live slabs large x live' :
  heap_ok h live slabs large → live ≡ₚ x :: live' → frees_enabled h = true →
  ∃ h', kfree h (x.1 + 32) = Ret h' ∧ (∀ z, z ∈ live' → kept (hmem h) (hmem h') z) ∧
    let w := rd64 (hmem h) x.1 in
    (w = LARGE_CLASS → heap_ok h' live' slabs (ins x large)) ∧
    (w < slab_count → ∃ l, slabs !! Z.to_nat w = Some l ∧
       heap_ok h' live' (<[Z.to_nat w := x :: l]> slabs) large) ∧
    (slab_count ≤ w < LARGE_CLASS → h' = h ∧ heap_ok h' live' slabs large).
Proof. intros H. apply (kfree_core h live slabs large H). Qed.

(** ** Slab payloads overlap the next block *)

Lemma find_fit_nil fuel m prev n r : find_fit fuel m prev 0 n r = Some None.
Proof. by destruct fuel. Qed.

Lemma slab_fresh root h live slabs large size p h' :
  heap_ok h live slabs large → 32 < size ≤ 40 → room h size 16 →
  free_large h = 0 → nth 0 (free_lists h) 0 = 0 →
  kalloc root h size 16 = Ret (p, h') →
  p - 32 = align_up (heap_cur h) 16 ∧ heap_cur h' = p + 32 ∧ free_large h' = 0 ∧
  nth 0 (free_lists h') 0 = 0.
Proof.
  intros H Hs Hr Hl Hf. pose proof (heap_cur_bounds h live slabs large H) as Hcb.
  assert (HEAP_LIMIT < 2 ^ 64 - 2 ^ 44 ∧ 0 < HEAP_BASE) as HL by done. unfold room in Hr.
  assert (slab_class : pick_slab_class size 16 = 0).
  { unfold pick_slab_class. change HEAP_HDR_SIZE with 24. rewrite w64_small by lia.
    cbn [pick_class slab_classes Z.ltb Z.compare Pos.compare Pos.compare_cont].
    by rewrite (proj2 (Z.leb_le (size + 24) 64)) by lia. }
  unfold kalloc. rewrite (proj2 (Z.eqb_neq size 0)) by lia.
  change (if 16 =? 0 then 8 else 16) with 16. rewrite slab_class, Hl, find_fit_nil.
  change (if 16 <? 16 then 16 else 16) with 16. change (0 <=? 0) with true. cbv iota.
  unfold alloc_slab. change (Z.to_nat 0) with 0%nat. rewrite Hf. cbn [Z.eqb negb].
  intros (h1 & E1 & E)%bind_Ret.
  destruct (align_up_pow2 (heap_cur h) 16 ltac:(by exists 4) ltac:(lia) ltac:(lia)) as [Hb _].
  set (b := align_up (heap_cur h) 16) in *. clearbody b.
  pose proof (ensure_space_cases root h live slabs large H b 64) as Hc.
  cbn [nth slab_classes heap_cur with_cur] in E1. rewrite E1 in Hc.
  destruct Hc as (s' & e & -> & _); [lia..|]. injection E as <- <-.
  change HEAP_PAYLOAD_OFFSET with 32. simpl. rewrite !w64_small by lia. split_and!; done || lia.
Qed.

(** two consecutive allocations of the same size between 33 and 40 bytes
    from fresh slab memory overlap: the header of the second block starts
    inside the payload of the first. *)
Theorem kalloc_slab_overlap root h live slabs large size p h1 q h2 :
  heap_ok h live slabs large → 32 < size ≤ 40 → room h (size + 4096) 16 →
  free_large h = 0 → nth 0 (free_lists h) 0 = 0 →
  kalloc root h size 16 = Ret (p, h1) → kalloc root h1 size 16 = Ret (q, h2) →
  p ≤ (block_of h2 q).1 < p + size.
Proof.
  intros H Hs Hr Hl Hf E1 E2. unfold room in Hr.
  assert (HEAP_LIMIT < 2 ^ 64 - 2 ^ 44 ∧ 0 < HEAP_BASE) as HL by done.
  pose proof (heap_cur_bounds h live slabs large H) as Hcb.
  pose proof (kalloc_core root h live slabs large H size 16 ltac:(lia) ltac:(right; by exists 4)
    ltac:(lia)) as Hk.
  destruct (slab_fresh root h live slabs large size p h1) as (Hp & Hc1 & Hl1 & Hf1);
    auto; [unfold room; lia|].
  rewrite E1 in Hk. destruct Hk as [(slabs' & large' & Hok & _)%allocated_block _].
  destruct (align_up_pow2 (heap_cur h) 16 ltac:(by exists 4) ltac:(lia) ltac:(lia)) as [Hb Hm].
  destruct (slab_fresh root h1 (block_of h1 p :: live) slabs' large' size q h2) as (Hq & _);
    auto; [unfold room; lia|].
  simpl. rewrite Hq, align_up_16 by lia. dlia.
Qed.

End HeapSpec.
