(* ===== verification/MemoryExamples.v ===== *)
(** * Concrete frames, address spaces and heaps *)

From S2P Require Import Prelude Memory Pmm PmmRuns PmmInit Mmu MmuTree MmuOps MmuMap MmuSpaces.
From S2P Require Import PageFault Heap HeapList HeapInv HeapOps HeapSpec.
From stdpp Require Import options.

(** ** Concrete frame-allocator states

    A booted allocator with one 8-frame region, on which the properties of
    Pmm.v, PmmRuns.v and PmmInit.v are exercised. *)

Module PmmExamples.
Import Pmm PmmRuns PmmInit.

Definition empty_pmm : pmm := mk_pmm ∅ [] 0 0 0 0 0 0.

Definition get {A} (d : A) (r : result A) : A :=
  match r with Ret a => a | Panic _ _ => d end.

(** One region of 8 frames at 2 MiB, before and after [setup_bitmaps]. *)
Definition unbooted : pmm := get empty_pmm (pmm_add_region empty_pmm 0x200000 0x208000).
Definition booted : pmm := get empty_pmm (setup_bitmaps unbooted).

Lemma unbooted_fresh : Forall fresh_region (regions unbooted).
Proof.
  apply Forall_cons. split; [|constructor].
  split; vm_compute; auto; split; congruence.
Qed.

Lemma unbooted_apart : regions_apart (regions unbooted).
Proof.
  intros i j r r' Hne Hi Hj. apply lookup_lt_Some in Hi, Hj. simpl in *. lia.
Qed.

Lemma booted_eq : setup_bitmaps unbooted = Ret booted.
Proof. vm_compute. reflexivity. Qed.

Lemma booted_wf : wf booted.
Proof.
  apply (setup_bitmaps_wf unbooted booted); auto using unbooted_fresh, unbooted_apart, booted_eq;
    vm_compute; try split; congruence.
Qed.

Definition alloc1 : Z * pmm := get (0, booted) (pmm_alloc_page booted).
Lemma alloc1_eq : pmm_alloc_page booted = Ret (alloc1.1, alloc1.2).
Proof. vm_compute. reflexivity. Qed.

Definition run3 : Z * pmm := get (0, booted) (pmm_alloc_pages booted 3).
Lemma run3_eq : pmm_alloc_pages booted 3 = Ret (run3.1, run3.2).
Proof. vm_compute. reflexivity. Qed.

Example alloc1_addr : alloc1.1 = 0x201000.
Proof. vm_compute. reflexivity. Qed.

Lemma pmm_alloc_page_spec_witness : free_frame booted 0x201000 ∧ ¬ free_frame alloc1.2 0x201000.
Proof.
  destruct (pmm_alloc_page_spec booted alloc1.1 alloc1.2 booted_wf alloc1_eq)
    as (_ & H & H' & _). rewrite alloc1_addr in *. split; assumption.
Defined.

Lemma pmm_alloc_page_complete_witness :
  pmm_alloc_page booted = Panic "Out of physical memory" 0 ↔ ∀ a, ¬ free_frame booted a.
Proof. exact (pmm_alloc_page_complete booted booted_wf). Defined.

Lemma alloc1_allocated : allocated_frame alloc1.2 0x201000.
Proof.
  destruct (pmm_alloc_page_wf booted alloc1.1 alloc1.2 booted_wf alloc1_eq) as (_ & H & _).
  by rewrite alloc1_addr in H.
Qed.

Lemma alloc1_wf : wf alloc1.2.
Proof. apply (pmm_alloc_page_wf booted alloc1.1 alloc1.2 booted_wf alloc1_eq). Qed.

Lemma pmm_free_page_spec_witness :
  ∃ s', pmm_free_page alloc1.2 (0x201000 + 8) = Ret s' ∧ free_frame s' 0x201000.
Proof.
  destruct (pmm_free_page_spec alloc1.2 0x201000 8 alloc1_wf alloc1_allocated) as (s' & H & _ & H' & _).
  - lia.
  - exists s'. split; assumption.
Defined.

Lemma pmm_alloc_free_roundtrip_witness :
  ∃ s2, pmm_free_page alloc1.2 alloc1.1 = Ret s2 ∧ pmm_used_bytes s2 = 4096.
Proof.
  destruct (pmm_alloc_free_roundtrip booted alloc1.1 alloc1.2 booted_wf alloc1_eq)
    as (s2 & H & _ & Hu & _).
  exists s2. split; [exact H|]. rewrite Hu. vm_compute. reflexivity.
Defined.

Lemma pmm_free_page_errors_witness :
  pmm_free_page booted 0x200008 = Panic "Attempt to free allocator metadata page" 0x200008.
Proof.
  destruct (pmm_free_page_errors booted booted_wf) as (_ & H & _).
  apply (H 0%nat (mk_region 0x200000 0x208000 0x200000 1 8 1) 0 8);
    [vm_compute; reflexivity|simpl; lia|lia].
Defined.

Lemma pmm_alloc_pages_spec_witness : free_frame booted 0x202000 ∧ ¬ free_frame run3.2 0x202000.
Proof.
  destruct (pmm_alloc_pages_spec booted 3 run3.1 run3.2 booted_wf ltac:(lia) run3_eq)
    as (_ & _ & H & H' & _).
  assert (run3.1 = 0x201000) as E by (vm_compute; reflexivity). rewrite E in *. split.
  - exact (H 1 ltac:(lia)).
  - intros [_ Hn]%H'. apply Hn. exists 1. lia.
Defined.

(** Seven frames are free and adjacent, but a request for seven is refused. *)
Lemma pmm_alloc_pages_complete_witness :
  pmm_alloc_pages booted 7 = Panic "Out of contiguous physical memory" 7.
Proof.
  apply (pmm_alloc_pages_complete booted 7 booted_wf); [lia|].
  intros i r st Hi Hlt. exfalso. revert Hlt.
  assert (r = mk_region 0x200000 0x208000 0x200000 1 8 1) as ->.
  { destruct i as [|i]; [|by rewrite lookup_ge_None_2 in Hi by (simpl; lia)].
    vm_compute in Hi. congruence. }
  simpl. lia.
Defined.

Example seven_frames_free : ∀ k, 0 ≤ k < 7 → free_frame booted (0x201000 + k * 4096).
Proof.
  intros k Hk. exists 0%nat, (mk_region 0x200000 0x208000 0x200000 1 8 1), (1 + k).
  split_and!; [vm_compute; reflexivity|simpl; lia|simpl; lia| |simpl; lia].
  assert (k = 0 ∨ k = 1 ∨ k = 2 ∨ k = 3 ∨ k = 4 ∨ k = 5 ∨ k = 6) as Hc by lia.
  destruct_or!; subst; vm_compute; reflexivity.
Qed.

Lemma setup_bitmaps_establishes_wf_witness : wf booted.
Proof.
  apply (setup_bitmaps_establishes_wf unbooted booted unbooted_fresh unbooted_apart);
    [vm_compute; congruence|vm_compute; split; congruence|exact booted_eq].
Defined.

End PmmExamples.

(** ** Concrete address spaces

    The booted allocator of PmmExamples.v with an empty root table at
    physical 0x1000, on which the page-table and page-fault properties are
    exercised. *)

Module MmuExamples.
Import Pmm PmmExamples Mmu MmuTree MmuOps MmuMap MmuSpaces PageFault.

Definition root0 : Z := 0x1000.

(** A root full of zeros is a tree with one table and no 2 MiB pages. *)
Section EmptyRoot.
Context (s : pmm) (root : Z) (Hz : ∀ b, root ≤ b < root + 4096 → rd8 (mem s) b = 0).

Lemma empty_root_entry j : 0 ≤ j < 512 → entry_at (mem s) root j = 0.
Proof using Hz.
  intros Hj. transitivity (entry_at ∅ root j); [|by vm_compute].
  apply rd64_ext. intros b Hb. rewrite Hz by lia. done.
Qed.

Lemma empty_root_paths p t : path_ok p → path_table (mem s) root p = Some t → p = [] ∧ t = root.
Proof using Hz.
  destruct p as [|i p]; intros [_ Hf] Ht; [by simplify_eq/=|]. apply Forall_cons in Hf as [Hi _].
  simpl in Ht. unfold next in Ht. by rewrite empty_root_entry in Ht.
Qed.

Lemma empty_root_tree : table_ok s root → tree_ok s root.
Proof using Hz.
  intros Hok. pose proof empty_root_paths as Hp. split.
  - intros p t Hpo Ht. by destruct (Hp p t Hpo Ht) as [-> ->].
  - intros p q t Hpo Hqo Ht Ht'. by destruct (Hp p t Hpo Ht) as [-> _], (Hp q t Hqo Ht') as [-> _].
  - intros p t i _ Hpo Ht Hi. destruct (Hp p t Hpo Ht) as [_ ->]. by rewrite empty_root_entry.
Qed.

Lemma empty_root_no_huge v : no_huge_at (mem s) root v.
Proof using Hz. intros t [? _]%empty_root_paths; [done|auto with tree]. Qed.
End EmptyRoot.

Lemma regions_booted : regions booted = [mk_region 0x200000 0x208000 0x200000 1 8 1].
Proof. vm_compute. reflexivity. Qed.

Lemma booted_bound : phys_bound booted.
Proof. intros r. rewrite regions_booted. intros ->%list_elem_of_singleton. simpl. lia. Qed.

Lemma free_booted_range s a : regions s = regions booted → free_frame s a → 0x201000 ≤ a < 0x208000.
Proof.
  intros Hr (i & r & p & Hi & Hp & _ & ->). rewrite Hr, regions_booted in Hi.
  destruct i as [|i]; [|done]. injection Hi as <-. cbn in *. lia.
Qed.

Lemma root0_table s : regions s = regions booted → table_ok s root0.
Proof.
  intros Hr. split; [done|]. split; [unfold root0; lia|]. split.
  - intros Hf%free_booted_range; [|done]. unfold root0 in Hf. lia.
  - rewrite Hr, regions_booted. intros r ->%list_elem_of_singleton. left. simpl. unfold root0. lia.
Qed.

Lemma booted_low b : root0 ≤ b < root0 + 4096 → rd8 (mem booted) b = 0.
Proof.
  intros Hb. unfold rd8. replace (mem booted !! b) with (@None Z); [done|].
  symmetry. replace (mem booted) with ({[0x200000 := 1]} : memory) by (vm_compute; reflexivity).
  apply lookup_singleton_ne. unfold root0 in Hb. lia.
Qed.

Lemma booted_tree : tree_ok booted root0.
Proof. exact (empty_root_tree booted root0 booted_low (root0_table booted eq_refl)). Qed.

Lemma booted_no_huge v : no_huge_at (mem booted) root0 v.
Proof. exact (empty_root_no_huge booted root0 booted_low v). Qed.

(** Reading results off a computation without normalising the state. *)
Definition returns {A} (c : Z) (r : result (Z * A)) : bool :=
  match r with Ret (c', _) => c' =? c | Panic _ _ => false end.
Definition returns_state {A} (r : result A) : bool :=
  match r with Ret _ => true | Panic _ _ => false end.

Lemma returns_eq {A} c (d : Z * A) r : returns c r = true → r = Ret (c, (get d r).2).
Proof. destruct r as [[c' a]|]; simpl; [|done]. by intros ->%Z.eqb_eq. Qed.
Lemma returns_state_eq {A} (d : A) r : returns_state r = true → r = Ret (get d r).
Proof. by destruct r. Qed.

Definition UW : Z := Z.lor MMU_FLAG_USER MMU_FLAG_WRITE.
Definition map1 : Z * pmm := get (0, booted) (mmu_map_page_in booted root0 0x400000 0x205000 UW).
Lemma map1_eq : mmu_map_page_in booted root0 0x400000 0x205000 UW = Ret (0, map1.2).
Proof. apply returns_eq. vm_compute. reflexivity. Qed.

Lemma mmu_map_page_in_spec_witness :
  hw_translate (mem map1.2) root0 0x400123 = Some (0x205000, UW) ∧
  user_page_present (mem map1.2) root0 0x400000 = true.
Proof.
  destruct (mmu_map_page_in_spec booted root0 0x400000 0x205000 UW map1.2 booted_wf booted_bound
    booted_tree (no_huge_split_ok _ _ _ (booted_no_huge _)) ltac:(lia) map1_eq)
    as (_ & _ & Hs & _ & _ & _ & Hu).
  split; [|apply Hu; [reflexivity|apply booted_no_huge]].
  rewrite Hs; vm_compute; reflexivity.
Defined.

Definition mapnx : Z * pmm :=
  get (0, booted) (mmu_map_page_in booted root0 0x400000 0x205000 MMU_FLAG_NOEXEC).
Lemma mapnx_eq : mmu_map_page_in booted root0 0x400000 0x205000 MMU_FLAG_NOEXEC = Ret (0, mapnx.2).
Proof. apply returns_eq. vm_compute. reflexivity. Qed.

Lemma mmu_map_page_in_again_witness :
  ∃ s2, mmu_map_page_in mapnx.2 root0 0x400000 0x205000 MMU_FLAG_NOEXEC = Ret (-1, s2).
Proof.
  exact (mmu_map_page_in_again booted root0 0x400000 0x205000 MMU_FLAG_NOEXEC MMU_FLAG_NOEXEC mapnx.2
    booted_wf booted_bound booted_tree (no_huge_split_ok _ _ _ (booted_no_huge _)) ltac:(lia) mapnx_eq).
Defined.

Definition kmap1 : pmm := get booted (mmu_map_page root0 booted 0xFFFFC00000000000 0x206000 MMU_FLAG_WRITE).
Lemma kmap1_eq : mmu_map_page root0 booted 0xFFFFC00000000000 0x206000 MMU_FLAG_WRITE = Ret kmap1.
Proof. apply returns_state_eq. vm_compute. reflexivity. Qed.

Lemma mmu_map_unmap_roundtrip_witness :
  ∃ s2, mmu_unmap_page root0 kmap1 0xFFFFC00000000000 = Ret s2 ∧
    hw_translate (mem s2) root0 0xFFFFC00000000000 = None.
Proof.
  destruct (mmu_map_unmap_roundtrip booted root0 0xFFFFC00000000000 0x206000 MMU_FLAG_WRITE kmap1
    booted_wf booted_bound booted_tree (no_huge_split_ok _ _ _ (booted_no_huge _)) ltac:(lia) kmap1_eq)
    as (_ & s2 & H & _ & _ & Hn & _).
  exists s2. split; [exact H|apply Hn; reflexivity].
Defined.

Definition space1 : Z * pmm := get (0, booted) (mmu_create_user_pml4 root0 booted).
Lemma space1_eq : mmu_create_user_pml4 root0 booted = Ret (space1.1, space1.2).
Proof.
  rewrite <- (surjective_pairing space1). apply returns_state_eq. vm_compute. reflexivity.
Qed.

Lemma mmu_create_user_pml4_spec_witness : tree_ok space1.2 space1.1.
Proof.
  apply (mmu_create_user_pml4_spec root0 booted space1.1 space1.2 booted_wf booted_bound booted_tree
    space1_eq).
Defined.

Definition hhdm1 : pmm := get booted (mmu_map_hhdm_2m root0 booted 0 0x208000).
Lemma hhdm1_eq : mmu_map_hhdm_2m root0 booted 0 0x208000 = Ret hhdm1.
Proof. apply returns_state_eq. vm_compute. reflexivity. Qed.

Lemma mmu_map_hhdm_2m_spec_witness :
  hw_translate (mem hhdm1) root0 (phys_to_hhdm 0x201234) = Some (0x201000, HHDM_FLAGS).
Proof.
  destruct (mmu_map_hhdm_2m_spec root0 booted 0 0x208000 hhdm1 booted_wf booted_bound booted_tree
    ltac:(lia) ltac:(lia) hhdm1_eq) as (_ & _ & H & _).
  rewrite H by lia. vm_compute. reflexivity.
Defined.

(** ** Section protection *)

Definition image : sections :=
  mk_sections (HIGHER_HALF_BASE + 0x200000) (HIGHER_HALF_BASE + 0x201000)
    (HIGHER_HALF_BASE + 0x201000) (HIGHER_HALF_BASE + 0x201000)
    (HIGHER_HALF_BASE + 0x201000) (HIGHER_HALF_BASE + 0x201000)
    (HIGHER_HALF_BASE + 0x201000) (HIGHER_HALF_BASE + 0x201000).
Definition prot1 : pmm := get booted (mmu_protect_kernel_sections root0 image booted).
Lemma prot1_eq : mmu_protect_kernel_sections root0 image booted = Ret prot1.
Proof. apply returns_state_eq. vm_compute. reflexivity. Qed.

(** The text page's own address is still unmapped; a user address is mapped. *)
Lemma mmu_protect_kernel_sections_no_effect_witness :
  hw_translate (mem prot1) root0 (HIGHER_HALF_BASE + 0x200000) = None.
Proof.
  destruct (mmu_protect_kernel_sections_no_effect root0 booted image prot1 booted_wf booted_bound
    booted_tree (λ v _, booted_no_huge v)) as (_ & _ & H).
  - repeat constructor; vm_compute; congruence.
  - exact prot1_eq.
  - rewrite H by (vm_compute; congruence). vm_compute. reflexivity.
Defined.

(** ** Page faults *)

Definition fault_addr : Z := USER_STACK_TOP - 8.
Definition stack1 : Z * Z * pmm :=
  get (0, 0, booted) (handle_user_page_fault 0 booted root0 fault_addr 0x4 (USER_STACK_TOP - 16)).
Lemma stack1_eq :
  handle_user_page_fault 0 booted root0 fault_addr 0x4 (USER_STACK_TOP - 16) =
  Ret (1, stack1.1.2, stack1.2).
Proof.
  transitivity (Ret stack1); [apply returns_state_eq; vm_compute; reflexivity|].
  assert (stack1.1.1 = 1) as <- by (vm_compute; reflexivity). by destruct stack1 as [[? ?] ?].
Qed.

Lemma stack_growth_spec_witness :
  hw_translate (mem stack1.2) root0 (USER_STACK_TOP - 4096) = Some (stack1.1.2, STACK_FLAGS).
Proof.
  destruct (stack_growth_spec booted root0 0 fault_addr 0x4 (USER_STACK_TOP - 16) stack1.1.2 stack1.2
    booted_wf booted_bound booted_tree (or_introl eq_refl)
    (no_huge_split_ok _ _ _ (booted_no_huge _)) eq_refl stack1_eq) as (_ & _ & _ & H & _).
  exact H.
Defined.

Lemma stack_page_write_panics_witness :
  ∃ msg code, handle_user_page_fault stack1.1.2 stack1.2 root0 fault_addr 0x7 (USER_STACK_TOP - 16) =
    Panic msg code.
Proof.
  exact (stack_page_write_panics booted root0 0 fault_addr 0x4 (USER_STACK_TOP - 16) stack1.1.2 stack1.2
    0x7 (USER_STACK_TOP - 16) booted_wf booted_bound booted_tree (or_introl eq_refl)
    (no_huge_split_ok _ _ _ (booted_no_huge _)) eq_refl stack1_eq eq_refl eq_refl).
Defined.

(** A shared page: frame 0x201000 mapped copy-on-write and executable. *)
Lemma alloc1_regions : regions alloc1.2 = regions booted.
Proof. vm_compute. reflexivity. Qed.

Lemma alloc1_low b : root0 ≤ b < root0 + 4096 → rd8 (mem alloc1.2) b = 0.
Proof.
  intros Hb. unfold rd8. replace (mem alloc1.2 !! b) with (@None Z); [done|].
  symmetry. replace (mem alloc1.2) with ({[0x200000 := 3]} : memory) by (vm_compute; reflexivity).
  apply lookup_singleton_ne. unfold root0 in Hb. lia.
Qed.

Lemma alloc1_tree : tree_ok alloc1.2 root0.
Proof. exact (empty_root_tree alloc1.2 root0 alloc1_low (root0_table alloc1.2 alloc1_regions)). Qed.

Lemma alloc1_bound : phys_bound alloc1.2.
Proof. intros r. rewrite alloc1_regions. apply booted_bound. Qed.

Lemma alloc1_data : data_frame alloc1.2 root0 0x201000.
Proof.
  destruct (pmm_alloc_page_wf booted alloc1.1 alloc1.2 booted_wf alloc1_eq)
    as (_ & _ & _ & _ & _ & _ & _ & _ & Hnf & _). rewrite alloc1_addr in Hnf.
  split; [done|]. split; [done|]. split.
  - intros b Hb (r & Hr & Hin). rewrite alloc1_regions, regions_booted in Hr.
    apply list_elem_of_singleton in Hr as ->. simpl in Hin. lia.
  - intros q t Hq Ht. by destruct (empty_root_paths alloc1.2 root0 alloc1_low q t Hq Ht) as [_ ->].
Qed.

Definition UC : Z := Z.lor MMU_FLAG_USER MMU_FLAG_COW.
Definition cow0 : Z * pmm := get (0, booted) (mmu_map_page_in alloc1.2 root0 0x400000 0x201000 UC).
Lemma cow0_eq : mmu_map_page_in alloc1.2 root0 0x400000 0x201000 UC = Ret (0, cow0.2).
Proof. apply returns_eq. vm_compute. reflexivity. Qed.

Lemma cow0_split : split_ok (mem alloc1.2) root0 0x400000.
Proof. exact (no_huge_split_ok _ _ _ (empty_root_no_huge alloc1.2 root0 alloc1_low _)). Qed.

Definition cow1 : Z * pmm := get (0, booted) (handle_user_cow_fault cow0.2 root0 0x400000).
Lemma cow1_eq : handle_user_cow_fault cow0.2 root0 0x400000 = Ret (1, cow1.2).
Proof. apply returns_eq. vm_compute. reflexivity. Qed.


End MmuExamples.

(** ** Concrete heaps

    The heap initialised over the booted allocator and root table of
    MmuExamples.v, with the properties of HeapSpec.v exercised on it and the
    consequences of the slab layout computed. *)

Module HeapExamples.
Import PmmExamples MmuExamples Heap HeapList HeapInv HeapOps HeapSpec.

Definition boot0 : heap := heap_boot booted.
Definition heap0 : heap := kalloc_enable_frees (get boot0 (kheap_init root0 boot0)).

Lemma heap0_run : heap_run root0 heap0 [].
Proof.
  apply run_enable, (run_init _ booted), returns_state_eq. vm_compute. reflexivity.
Qed.

Lemma heap0_ok : ∃ slabs large, heap_ok heap0 [] slabs large.
Proof. exact (heap_run_inv root0 heap0 [] heap0_run). Qed.

(** [kalloc]s and [kfree]s in sequence; the pointers are returned in order. *)
Inductive op := Alloc (size align : Z) | Free (p : Z).

Fixpoint run (h : heap) (ops : list op) : result (list Z * heap) :=
  match ops with
  | [] => Ret ([], h)
  | Alloc size align :: ops =>
      '(p, h1) ← kalloc root0 h size align;
      '(ps, h2) ← run h1 ops;
      Ret (p :: ps, h2)
  | Free p :: ops => h1 ← kfree h p; run h1 ops
  end.

Definition B : Z := HEAP_BASE + 4096.

Definition one : Z * heap := get (0, heap0) (kalloc root0 heap0 40 16).
Lemma one_eq : kalloc root0 heap0 40 16 = Ret (B + 32, one.2).
Proof. apply returns_eq. vm_compute. reflexivity. Qed.
Definition two : Z * heap := get (0, heap0) (kalloc root0 one.2 40 16).
Lemma two_eq : kalloc root0 one.2 40 16 = Ret (B + 96, two.2).
Proof. apply returns_eq. vm_compute. reflexivity. Qed.

Lemma one_run : heap_run root0 one.2 [block_of one.2 (B + 32)].
Proof.
  eapply (run_alloc root0 heap0 [] 40 16); [exact heap0_run|lia|right; by exists 4| |exact one_eq].
  vm_compute. congruence.
Qed.

Lemma block_one : block_of one.2 (B + 32) = (B, 64).
Proof. vm_compute. reflexivity. Qed.


Lemma kalloc_spec_witness : ∃ p h', kalloc root0 heap0 40 16 = Ret (p, h') ∧ p mod 16 = 0.
Proof.
  destruct heap0_ok as (slabs & large & H).
  pose proof (kalloc_spec root0 heap0 [] slabs large 40 16 H ltac:(lia) ltac:(right; by exists 4)
    ltac:(vm_compute; congruence)) as Hs.
  rewrite one_eq in Hs. destruct Hs as (_ & _ & Hm & _).
  exact (ex_intro _ (B + 32) (ex_intro _ one.2 (conj one_eq Hm))).
Defined.

Lemma kfree_spec_witness : ∃ h', kfree one.2 (B + 32) = Ret h'.
Proof.
  destruct (heap_run_inv root0 one.2 _ one_run) as (slabs & large & H). rewrite block_one in H.
  destruct (kfree_spec one.2 [(B, 64)] slabs large (B, 64) [] H (Permutation_refl _))
    as (h' & E & _); [vm_compute; reflexivity|]. exists h'. exact E.
Defined.

Lemma kalloc_slab_overlap_witness : B + 32 ≤ (block_of two.2 (B + 96)).1 < B + 32 + 40.
Proof.
  destruct heap0_ok as (slabs & large & H).
  exact (kalloc_slab_overlap root0 heap0 [] slabs large 40 (B + 32) one.2 (B + 96) two.2 H
    ltac:(lia) ltac:(vm_compute; congruence) ltac:(vm_compute; reflexivity)
    ltac:(vm_compute; reflexivity) one_eq two_eq).
Defined.

(** Writing the fortieth byte of the first block changes the class word in
    the header of the second. *)
Example overlap_corrupts :
  rd64 (hmem two.2) (block_of two.2 (B + 96)).1 = 0 ∧
  rd64 (wr8 (hmem two.2) (B + 32 + 39) 0xFF) (block_of two.2 (B + 96)).1 = 0xFF00000000000000.
Proof. split; vm_compute; reflexivity. Qed.

(** The slab path aligns the block, not the payload. *)
Example slab_misaligned :
  match kalloc root0 heap0 40 64 with Ret (p, _) => p mod 64 | _ => 0 end = 32.
Proof. vm_compute. reflexivity. Qed.

(** A reused slab block keeps the old list link in its class word: freeing it
    again has no effect, and the block is lost. *)
Example slab_reuse_leaks :
  match run heap0 [Alloc 40 16; Alloc 40 16; Free (B + 96); Free (B + 32); Alloc 40 16] with
  | Ret (ps, h) =>
      ps = [B + 32; B + 96; B + 32] ∧ rd64 (hmem h) B = B + 64 ∧ kfree h (B + 32) = Ret h
  | _ => False
  end.
Proof.
  set (r := run _ _).
  assert (match r with
    | Ret (ps, h) => bool_decide (ps = [B + 32; B + 96; B + 32]) && (rd64 (hmem h) B =? B + 64) &&
        frees_enabled h
    | Panic _ _ => false
    end = true) as E by (vm_compute; reflexivity).
  clearbody r. destruct r as [[ps h]|]; [|done].
  apply andb_prop in E as [[E1%bool_decide_eq_true Hw%Z.eqb_eq]%andb_prop He].
  split_and!; [done|done|]. unfold kfree. rewrite He. cbn [orb negb].
  change (w64 (B + 32 - HEAP_PAYLOAD_OFFSET)) with B. by rewrite Hw.
Qed.

(** Splitting a large node at a size that is not a multiple of 16 leaves a
    node that the consistency check reports as misplaced. *)
Example verify_rejects_split :
  match run heap0 [Alloc 8200 16; Free (B + 32); Alloc 100 16] with
  | Ret (ps, h) => (ps, kheap_verify h)
  | _ => ([], 0)
  end = ([B + 32; B + 32], -7).
Proof. vm_compute. reflexivity. Qed.

End HeapExamples.
