(* ===== verification/Ring.v ===== *)
(** * Circular buffers

    The contents of a circular buffer as a list: [k] elements from index
    [rd] on, indices modulo the length.  Pipe.v and Irq.v refine their
    buffers to it. *)

From S2P Require Import Prelude.
From stdpp Require Import options.

Module Ring.

Definition slot (buf : list Z) (i : Z) : nat := Z.to_nat (i mod Z.of_nat (length buf)).

Definition ring (buf : list Z) (rd : Z) (k : nat) : list Z :=
  (λ i, nth (slot buf (rd + Z.of_nat i)) buf 0) <$> seq 0 k.

Lemma length_ring buf rd k : length (ring buf rd k) = k.
Proof. unfold ring. by rewrite length_fmap, length_seq. Qed.

Lemma ring_0 buf rd : ring buf rd 0 = [].
Proof. done. Qed.

Lemma slot_lt buf i : buf ≠ [] → (slot buf i < length buf)%nat.
Proof. intros Hb. unfold slot. destruct buf; [done|]. simpl length. dlia. Qed.

Lemma slot_mod buf i j : buf ≠ [] → slot buf (i mod Z.of_nat (length buf) + j) = slot buf (i + j).
Proof. intros Hb. unfold slot. by rewrite Zplus_mod_idemp_l. Qed.

(** Removing the oldest element. *)
Lemma ring_pop buf rd k :
  buf ≠ [] → 0 ≤ rd < Z.of_nat (length buf) →
  ring buf rd (S k) = nth (Z.to_nat rd) buf 0 :: ring buf ((rd + 1) mod Z.of_nat (length buf)) k.
Proof.
  intros Hb Hrd. unfold ring. simpl. f_equal.
  - unfold slot. rewrite Z.add_0_r, Z.mod_small by done. done.
  - rewrite <- seq_shift, <- list_fmap_compose. apply list_fmap_ext. intros _ i _. unfold compose.
    rewrite slot_mod by done. do 2 f_equal. lia.
Qed.

(** Adding an element behind the newest. *)
Lemma ring_push buf rd k x :
  0 ≤ rd → (k < length buf)%nat →
  ring (<[slot buf (rd + Z.of_nat k) := x]> buf) rd (S k) = ring buf rd k ++ [x].
Proof.
  intros Hrd Hk. assert (buf ≠ []) as Hb by (intros ->; simpl in Hk; lia).
  unfold ring. rewrite seq_S, fmap_app. f_equal.
  - apply list_fmap_ext. intros j i [-> Hi]%lookup_seq. unfold slot at 1. rewrite length_insert.
    fold (slot buf (rd + Z.of_nat (0 + j))).
    rewrite !nth_lookup, list_lookup_insert_ne; [done|].
    unfold slot. intros E%Z2Nat.inj; [|dlia..].
    assert ((Z.of_nat k - Z.of_nat j) mod Z.of_nat (length buf) = 0) as E0.
    { replace (Z.of_nat k - Z.of_nat j) with ((rd + Z.of_nat k) - (rd + Z.of_nat (0 + j))) by lia.
      rewrite Zminus_mod, E, Z.sub_diag. done. }
    rewrite Z.mod_small in E0 by lia. lia.
  - simpl. f_equal. unfold slot at 1. rewrite length_insert. fold (slot buf (rd + Z.of_nat k)).
    rewrite nth_lookup, list_lookup_insert_eq by (by apply slot_lt). done.
Qed.

End Ring.
