(* ===== verification/CString.v ===== *)
(** * C strings

    A [char] array is a list of bytes; reading past the end of the list gives
    NUL.  [cstr] is the string an array holds: its bytes before the first NUL.
    The functions are those of src/kernel/string.c and the copies of [streq],
    [str_len] and [starts_with] that fs.c, ramfs.c, vfs.c, fat.c, user.c and
    syscall.c define for themselves. *)

From Stdlib Require Import Ascii.
From S2P Require Import Prelude.
From stdpp Require Import options.

Module CString.

(** The bytes of a literal. *)
Definition chars (s : string) : list Z :=
  (λ c, Z.of_N (N_of_ascii c)) <$> String.list_ascii_of_string s.

Fixpoint cstr (b : list Z) : list Z :=
  match b with
  | [] => []
  | c :: b' => if c =? 0 then [] else c :: cstr b'
  end.

(** ** string.c *)

(** [while (s && s[len]) ++len]. *)
Fixpoint strlen (s : list Z) : Z :=
  match s with
  | [] => 0
  | c :: s' => if c =? 0 then 0 else 1 + strlen s'
  end.

(** [while (s1[0] && s2[0] && s1[0] == s2[0])]. *)
Fixpoint strcmp (s1 s2 : list Z) : Z :=
  let y := hd 0 s2 in
  match s1 with
  | [] => 0 - y
  | x :: s1' =>
      if negb (x =? 0) && negb (y =? 0) && (x =? y) then strcmp s1' (tl s2)
      else x - y
  end.

(** [while (dst[i] = src[i]) ++i]: [None] when [dst] is too short. *)
Fixpoint strcpy (dst src : list Z) : option (list Z) :=
  match dst with
  | [] => None
  | _ :: dst' =>
      let c := hd 0 src in
      if c =? 0 then Some (c :: dst')
      else match strcpy dst' (tl src) with Some d => Some (c :: d) | None => None end
  end.

(** ** The helpers of the file systems *)

(** [while (a[0] && b[0]) { if (a[0] != b[0]) return 0; ++a; ++b; } return a[0] == b[0]]. *)
Fixpoint streq (a b : list Z) : bool :=
  let y := hd 0 b in
  match a with
  | [] => 0 =? y
  | x :: a' =>
      if negb (x =? 0) && negb (y =? 0) then if negb (x =? y) then false else streq a' (tl b)
      else x =? y
  end.

(** [while (prefix[0]) { if (s[0] != prefix[0]) return 0; ++s; ++prefix; }]. *)
Fixpoint starts_with (s prefix : list Z) : bool :=
  match prefix with
  | [] => true
  | p :: prefix' =>
      if p =? 0 then true
      else if negb (hd 0 s =? p) then false else starts_with (tl s) prefix'
  end.

(** ** What they compute *)

Lemma cstr_nonzero b : Forall (λ c, c ≠ 0) (cstr b).
Proof.
  induction b as [|c b IH]; simpl; [constructor|].
  destruct (Z.eqb_spec c 0); [constructor|]. by constructor.
Qed.

Lemma cstr_id s : Forall (λ c, c ≠ 0) s → cstr s = s.
Proof.
  induction 1 as [|c s Hc _ IH]; simpl; [done|]. by rewrite (proj2 (Z.eqb_neq c 0) Hc), IH.
Qed.

Lemma cstr_app s t : Forall (λ c, c ≠ 0) s → cstr (s ++ 0 :: t) = s.
Proof.
  induction 1 as [|c s Hc _ IH]; simpl; [done|]. by rewrite (proj2 (Z.eqb_neq c 0) Hc), IH.
Qed.

Lemma cstr_hd b : hd 0 (cstr b) = hd 0 b.
Proof. destruct b as [|c b]; simpl; [done|]. destruct (Z.eqb_spec c 0); [by subst|done]. Qed.

Lemma cstr_tl b : hd 0 b ≠ 0 → cstr b = hd 0 b :: cstr (tl b).
Proof. destruct b as [|c b]; simpl; [done|]. intros Hc. by rewrite (proj2 (Z.eqb_neq c 0) Hc). Qed.

Lemma cstr_nil b : hd 0 b = 0 → cstr b = [].
Proof. destruct b as [|c b]; simpl; [done|]. by intros ->. Qed.

Lemma strlen_spec s : strlen s = Z.of_nat (length (cstr s)).
Proof.
  induction s as [|c s IH]; simpl; [done|]. destruct (c =? 0); [done|]. rewrite IH. simpl. lia.
Qed.

Lemma streq_spec a : ∀ b, streq a b = true ↔ cstr a = cstr b.
Proof.
  induction a as [|x a IH]; intros b; cbn [streq strcmp].
  - rewrite Z.eqb_eq. split; [intros; symmetry; by apply cstr_nil|].
    intros E. rewrite <- cstr_hd, <- E. done.
  - destruct (Z.eqb_spec x 0) as [->|Hx]; cbn [negb andb].
    + rewrite Z.eqb_eq. split; [intros; symmetry; by apply cstr_nil|].
      intros E. rewrite <- cstr_hd, <- E. done.
    + destruct (Z.eqb_spec (hd 0 b) 0) as [Hy|Hy]; cbn [negb andb].
      * rewrite Z.eqb_eq, (cstr_nil b) by done. simpl. rewrite (proj2 (Z.eqb_neq x 0) Hx). split; [lia|done].
      * rewrite (cstr_tl b) by done. simpl cstr. rewrite (proj2 (Z.eqb_neq x 0) Hx).
        destruct (Z.eqb_spec x (hd 0 b)) as [->|Hne]; cbn [negb].
        -- rewrite IH. split; [by intros ->|by intros [=]].
        -- split; [done|]. by intros [=].
Qed.

Lemma strcmp_eq a : ∀ b, strcmp a b = 0 ↔ cstr a = cstr b.
Proof.
  induction a as [|x a IH]; intros b; cbn [streq strcmp].
  - split.
    + intros. symmetry. apply cstr_nil. lia.
    + intros E. rewrite <- cstr_hd, <- E. done.
  - destruct (Z.eqb_spec x 0) as [->|Hx]; cbn [negb andb].
    + split; [intros; symmetry; apply cstr_nil; lia|]. intros E. rewrite <- cstr_hd, <- E. done.
    + destruct (Z.eqb_spec (hd 0 b) 0) as [Hy|Hy]; cbn [negb andb].
      * rewrite (cstr_nil b) by done. simpl. rewrite (proj2 (Z.eqb_neq x 0) Hx). split; [lia|done].
      * rewrite (cstr_tl b) by done. simpl cstr. rewrite (proj2 (Z.eqb_neq x 0) Hx).
        destruct (Z.eqb_spec x (hd 0 b)) as [->|Hne]; cbn [negb].
        -- rewrite IH. split; [by intros ->|by intros [=]].
        -- split; [lia|]. by intros [=].
Qed.

Lemma starts_with_spec p : ∀ s, starts_with s p = true ↔ cstr p `prefix_of` cstr s.
Proof.
  induction p as [|c p IH]; intros s; simpl.
  - split; [intros _; apply prefix_nil|done].
  - destruct (Z.eqb_spec c 0) as [->|Hc]; [split; [intros _; apply prefix_nil|done]|].
    destruct (Z.eqb_spec (hd 0 s) c) as [<-|Hne]; simpl.
    + rewrite (cstr_tl s) by done. rewrite IH. split; [apply prefix_cons|apply prefix_cons_inv_2].
    + split; [done|]. intros [t E]. exfalso. apply Hne. rewrite <- (cstr_hd s), E. done.
Qed.

(** Strings that fit are copied with their terminator. *)
Lemma strcpy_spec src : ∀ dst,
  (length (cstr src) < length dst)%nat →
  strcpy dst src = Some (cstr src ++ 0 :: drop (S (length (cstr src))) dst).
Proof.
  intros dst. revert src. induction dst as [|d dst IH]; intros src Hl; simpl in *; [lia|].
  destruct (Z.eqb_spec (hd 0 src) 0) as [E|E].
  - rewrite (cstr_nil src), E by done. simpl. by rewrite drop_0.
  - rewrite (cstr_tl src) in * by done. simpl in *. rewrite IH by lia. done.
Qed.

End CString.
