(* ===== verification/Pipe.v ===== *)
(** * Pipes (src/kernel/pipe.c)

    A pipe is a circular buffer of [PIPE_SIZE] bytes with reader and writer
    counts.  [pipe_read_impl] and [pipe_write_impl] release the pipe's lock
    and yield while they have to wait; what the other threads do to the pipe
    during each [sched_yield] is an argument, the list [env] of their effects.
    When [env] runs out the call is still waiting.  The two wait queues of the
    struct are initialised and never used. *)

From S2P Require Import Prelude Ring.
From stdpp Require Import options.
Import Ring.

Module Pipe.

Definition PIPE_SIZE : Z := 4096.
Definition SYSCALL_EIO : Z := 6.

Record pipe := mk_pipe {
  buffer : list Z;
  read_pos : Z;
  write_pos : Z;
  used : Z;
  readers : Z;
  writers : Z;
}.

(** [kalloc_zero] and the initial reader and writer. *)
Definition pipe_alloc_struct : pipe :=
  mk_pipe (replicate (Z.to_nat PIPE_SIZE) 0) 0 0 0 1 1.

(** [while (read < len && p->used > 0)], with [n = len - read]. *)
Fixpoint read_loop (n : nat) (p : pipe) : list Z * pipe :=
  match n with
  | O => ([], p)
  | S n' =>
      if 0 <? used p then
        let c := nth (Z.to_nat (read_pos p)) (buffer p) 0 in
        let p1 := mk_pipe (buffer p) ((read_pos p + 1) mod PIPE_SIZE) (write_pos p)
          (w32 (used p - 1)) (readers p) (writers p) in
        let '(out, p2) := read_loop n' p1 in (c :: out, p2)
      else ([], p)
  end.

(** Returns the value, the bytes stored in [buf] and the pipe.  [po] is [None]
    for a null pointer. *)
Fixpoint pipe_read_loop (env : list (pipe → pipe)) (p : pipe) (len : Z)
    : outcome (Z * list Z * pipe) :=
  if used p =? 0 then
    if writers p =? 0 then Done (0, [], p)
    else
      match env with
      | [] => Waiting (0, [], p)
      | e :: env' => pipe_read_loop env' (e p) len
      end
  else let '(out, p') := read_loop (Z.to_nat len) p in Done (Z.of_nat (length out), out, p').

Definition pipe_read_impl (env : list (pipe → pipe)) (po : option pipe) (buf_null : bool) (len : Z)
    : outcome (Z * list Z * option pipe) :=
  match po with
  | None => Done (-1, [], None)
  | Some p =>
      if buf_null then Done (-1, [], Some p)
      else
        match pipe_read_loop env p len with
        | Done (r, out, p') => Done (r, out, Some p')
        | Waiting (r, out, p') => Waiting (r, out, Some p')
        | Spinning => Spinning
        end
  end.

(** [while (written < len && p->used < PIPE_SIZE)]; returns what is left. *)
Fixpoint fill (p : pipe) (data : list Z) : list Z * pipe :=
  match data with
  | [] => ([], p)
  | c :: data' =>
      if used p <? PIPE_SIZE then
        fill (mk_pipe (<[Z.to_nat (write_pos p) := c]> (buffer p)) (read_pos p)
                ((write_pos p + 1) mod PIPE_SIZE) (w32 (used p + 1)) (readers p) (writers p)) data'
      else (data, p)
  end.

(** [while (written < len)].  A pipe that is neither full nor accepts a byte
    would make the loop run for ever; [pipe_write_total] shows that this
    cannot happen. *)
Fixpoint write_loop (env : list (pipe → pipe)) (p : pipe) (data : list Z) (written : Z)
    : outcome (Z * pipe) :=
  let '(rest, p1) := fill p data in
  let written := written + Z.of_nat (length data - length rest) in
  match rest with
  | [] => Done (written, p1)
  | _ =>
      if used p1 =? PIPE_SIZE then
        if readers p1 =? 0 then Done (- SYSCALL_EIO, p1)
        else
          match env with
          | [] => Waiting (written, p1)
          | e :: env' => write_loop env' (e p1) rest written
          end
      else Spinning
  end.

Definition pipe_write_impl (env : list (pipe → pipe)) (po : option pipe) (buf : option (list Z))
    : outcome (Z * option pipe) :=
  match po, buf with
  | Some p, Some data =>
      if readers p =? 0 then Done (- SYSCALL_EIO, Some p)
      else
        match write_loop env p data 0 with
        | Done (r, p') => Done (r, Some p')
        | Waiting (r, p') => Waiting (r, Some p')
        | Spinning => Spinning
        end
  | _, _ => Done (-1, po)
  end.

(** The pipe and whether the last end is gone, so that it is freed. *)
Definition pipe_close_impl (p : pipe) (is_writer : bool) : pipe * bool :=
  let p' := if is_writer
    then mk_pipe (buffer p) (read_pos p) (write_pos p) (used p) (readers p) (writers p - 1)
    else mk_pipe (buffer p) (read_pos p) (write_pos p) (used p) (readers p - 1) (writers p) in
  (p', (readers p' =? 0) && (writers p' =? 0)).

(** ** Refinement to a bounded queue of bytes *)

Record pipe_wf (p : pipe) : Prop := {
  pw_length : length (buffer p) = Z.to_nat PIPE_SIZE;
  pw_read : 0 ≤ read_pos p < PIPE_SIZE;
  pw_used : 0 ≤ used p ≤ PIPE_SIZE;
  pw_write : write_pos p = (read_pos p + used p) mod PIPE_SIZE;
}.

(** The bytes in the pipe, oldest first. *)
Definition contents (p : pipe) : list Z := ring (buffer p) (read_pos p) (Z.to_nat (used p)).

Lemma length_contents p : 0 ≤ used p → Z.of_nat (length (contents p)) = used p.
Proof. intros H. unfold contents. rewrite length_ring. lia. Qed.

Lemma pipe_alloc_struct_wf : pipe_wf pipe_alloc_struct ∧ contents pipe_alloc_struct = [].
Proof. split; [split; done|done]. Qed.

Section Steps.
Context (p : pipe) (Hwf : pipe_wf p).

Lemma buffer_length : Z.of_nat (length (buffer p)) = PIPE_SIZE.
Proof using Hwf. rewrite (pw_length _ Hwf). done. Qed.
Lemma buffer_nonempty : buffer p ≠ [].
Proof using Hwf. pose proof buffer_length as E. intros E'. by rewrite E' in E. Qed.

(** One byte out. *)
Lemma take_one :
  0 < used p →
  let p1 := mk_pipe (buffer p) ((read_pos p + 1) mod PIPE_SIZE) (write_pos p)
    (w32 (used p - 1)) (readers p) (writers p) in
  pipe_wf p1 ∧ contents p = nth (Z.to_nat (read_pos p)) (buffer p) 0 :: contents p1.
Proof using Hwf.
  intros Hu. pose proof buffer_length as Hl. pose proof buffer_nonempty as Hne.
  destruct Hwf as [Hb Hr Hu' Hw]. unfold PIPE_SIZE in *. simpl.
  rewrite (w32_small (used p - 1)) by lia. split.
  - split; simpl; unfold PIPE_SIZE; [done|dlia|lia|].
    rewrite Hw, Zplus_mod_idemp_l. f_equal. lia.
  - unfold contents. simpl. replace (Z.to_nat (used p)) with (S (Z.to_nat (used p - 1))) by lia.
    rewrite ring_pop by (done || lia). by rewrite Hl.
Qed.

(** One byte in. *)
Lemma put_one c :
  used p < PIPE_SIZE →
  let p1 := mk_pipe (<[Z.to_nat (write_pos p) := c]> (buffer p)) (read_pos p)
    ((write_pos p + 1) mod PIPE_SIZE) (w32 (used p + 1)) (readers p) (writers p) in
  pipe_wf p1 ∧ contents p1 = contents p ++ [c].
Proof using Hwf.
  intros Hu. pose proof buffer_length as Hl. destruct Hwf as [Hb Hr Hu' Hw]. unfold PIPE_SIZE in *. simpl.
  rewrite (w32_small (used p + 1)) by lia. split.
  - split; simpl; unfold PIPE_SIZE; [by rewrite length_insert|done|lia|].
    rewrite Hw, Zplus_mod_idemp_l. f_equal. lia.
  - unfold contents. simpl. replace (Z.to_nat (used p + 1)) with (S (Z.to_nat (used p))) by lia.
    rewrite <- (ring_push (buffer p) (read_pos p) (Z.to_nat (used p)) c) by lia.
    do 2 f_equal. unfold slot. rewrite Hl, Hw. f_equal. f_equal. lia.
Qed.
End Steps.

Lemma read_loop_spec n : ∀ p out p',
  pipe_wf p → read_loop n p = (out, p') →
  pipe_wf p' ∧ contents p = out ++ contents p' ∧
  length out = (n `min` length (contents p))%nat ∧
  readers p' = readers p ∧ writers p' = writers p.
Proof.
  induction n as [|n IH]; intros p out p' Hwf E; simpl in E; [by simplify_eq|].
  pose proof (length_contents p (proj1 (pw_used _ Hwf))) as Hl.
  destruct (Z.ltb_spec 0 (used p)) as [Hu|Hu].
  - destruct (take_one p Hwf Hu) as [Hwf1 Hc]. destruct (read_loop n _) as [out1 p2] eqn:E1.
    injection E as <- <-. apply IH in E1 as (? & Hc1 & Hn & ? & ?); [|done].
    split_and!; auto.
    + rewrite Hc, Hc1 at 1. done.
    + rewrite Hc. simpl. lia.
  - injection E as <- <-. split_and!; auto. destruct (contents p); [done|simpl in Hl; lia].
Qed.

Lemma pipe_fill_spec data : ∀ p rest p',
  pipe_wf p → fill p data = (rest, p') →
  pipe_wf p' ∧ (∃ done, data = done ++ rest ∧ contents p' = contents p ++ done) ∧
  (rest ≠ [] → used p' = PIPE_SIZE) ∧ readers p' = readers p ∧ writers p' = writers p.
Proof.
  induction data as [|c data IH]; intros p rest p' Hwf E; simpl in E.
  - injection E as <- <-. split_and!; auto; [|done]. exists []. split; [done|by rewrite app_nil_r].
  - destruct (Z.ltb_spec (used p) PIPE_SIZE) as [Hu|Hu].
    + destruct (put_one p Hwf c Hu) as [Hwf1 Hc].
      apply IH in E as (? & (d & -> & Hc') & ? & ? & ?); [|done]. split_and!; auto.
      exists (c :: d). split; [done|]. by rewrite Hc', Hc, <- app_assoc.
    + injection E as <- <-. split_and!; auto.
      * exists []. split; [done|by rewrite app_nil_r].
      * intros _. pose proof (pw_used _ Hwf). lia.
Qed.

(** ** Interleavings *)

(** One critical section of a thread that uses the pipe. *)
Inductive event := EvRead (out : list Z) | EvWrite (taken : list Z) | EvClose (is_writer : bool).

Inductive pipe_step : pipe → event → pipe → Prop :=
| step_read p len out p' :
    used p ≠ 0 → read_loop (Z.to_nat len) p = (out, p') → pipe_step p (EvRead out) p'
| step_write p data rest p' taken :
    fill p data = (rest, p') → data = taken ++ rest → pipe_step p (EvWrite taken) p'
| step_close p w :
    pipe_step p (EvClose w) (pipe_close_impl p w).1.

Inductive pipe_run : pipe → list event → pipe → Prop :=
| run_nil p : pipe_run p [] p
| run_snoc p es p1 e p2 : pipe_run p es p1 → pipe_step p1 e p2 → pipe_run p (es ++ [e]) p2.

Definition bytes_out (es : list event) : list Z :=
  concat ((λ e, match e with EvRead o => o | _ => [] end) <$> es).
Definition bytes_in (es : list event) : list Z :=
  concat ((λ e, match e with EvWrite t => t | _ => [] end) <$> es).

Lemma bytes_out_snoc es e :
  bytes_out (es ++ [e]) = bytes_out es ++ match e with EvRead o => o | _ => [] end.
Proof. unfold bytes_out. rewrite fmap_app, concat_app. simpl. by rewrite app_nil_r. Qed.
Lemma bytes_in_snoc es e :
  bytes_in (es ++ [e]) = bytes_in es ++ match e with EvWrite t => t | _ => [] end.
Proof. unfold bytes_in. rewrite fmap_app, concat_app. simpl. by rewrite app_nil_r. Qed.

(** C7: for every interleaving of the critical sections of any number of
    readers and writers, the bytes read so far followed by the bytes in the
    pipe are exactly the bytes written so far, in order; the pipe never holds
    more than [PIPE_SIZE] bytes. *)
Theorem pipe_fifo es p :
  pipe_run pipe_alloc_struct es p →
  bytes_in es = bytes_out es ++ contents p ∧ pipe_wf p.
Proof.
  intros H. remember pipe_alloc_struct as p0. revert Heqp0.
  induction H as [p|p es p1 e p2 _ IH Hs]; intros ->.
  - destruct pipe_alloc_struct_wf as [? ->]. done.
  - destruct (IH eq_refl) as [Hio Hwf]. rewrite bytes_in_snoc, bytes_out_snoc, Hio.
    inversion Hs as [? len out ? _ E|? data rest ? taken E Ed|? w]; subst.
    + apply read_loop_spec in E as (? & -> & _); [|done]. by rewrite app_nil_r, <- app_assoc.
    + apply pipe_fill_spec in E as (? & (d & E' & ->) & _); [|done].
      apply app_inv_tail in E' as ->. by rewrite app_nil_r, <- app_assoc.
    + rewrite !app_nil_r. split; [by destruct w|]. destruct Hwf. by destruct w; split.
Qed.

(** ** Blocking calls *)

(** What the readers can do while a writer waits. *)
Definition reader_act (e : pipe → pipe) : Prop :=
  ∀ p, pipe_wf p → pipe_wf (e p) ∧ ∃ k, contents (e p) = drop k (contents p).

Lemma write_loop_spec env : ∀ p data written,
  pipe_wf p → Forall reader_act env →
  match write_loop env p data written with
  | Done (r, p') => pipe_wf p' ∧
      (r = - SYSCALL_EIO ∧ readers p' = 0 ∧ used p' = PIPE_SIZE ∨
       r = written + Z.of_nat (length data) ∧ ∃ k, contents p' = drop k (contents p ++ data))
  | Waiting (_, p') => pipe_wf p' ∧ used p' = PIPE_SIZE
  | Spinning => False
  end.
Proof.
  induction env as [|e env IH]; intros p data written Hwf He;
    (simpl; destruct (fill p data) as [rest p1] eqn:E;
     apply pipe_fill_spec in E as (Hwf1 & (d & -> & Hc) & Hfull & _); [|done];
     destruct rest as [|c rest];
     [split; [done|]; right; split; [by rewrite Nat.sub_0_r|exists 0%nat; by rewrite drop_0, app_nil_r]|];
     rewrite Hfull, Z.eqb_refl by done;
     destruct (Z.eqb_spec (readers p1) 0); [split; [done|]; left; split_and!; auto|]).
  - auto.
  - apply Forall_cons in He as [Hact He]. destruct (Hact p1 Hwf1) as [Hwf2 [k Hk]].
    specialize (IH (e p1) (c :: rest) (written + Z.of_nat (length (d ++ c :: rest) - length (c :: rest)))
      Hwf2 He).
    destruct (write_loop env (e p1) _ _) as [[r p']|[r p']|]; [|done|done].
    destruct IH as [Hwf' [?|[Hr [k' Hk']]]]; (split; [done|]); [by left|right]. split.
    + rewrite Hr, length_app. simpl. lia.
    + rewrite Hk, Hc in Hk'. destruct (decide (k ≤ length (contents p ++ d))%nat) as [Hle|Hgt].
      * exists (k + k')%nat. rewrite Hk', app_assoc, <- drop_drop.
        f_equal. symmetry. by apply drop_app_le.
      * exists (length (contents p ++ d) + k')%nat. rewrite Hk', app_assoc, <- drop_drop.
        by rewrite drop_app_length, (drop_ge (contents p ++ d) k) by lia.
Qed.

(** with only readers active while it waits, [pipe_write_impl] on a pipe
    with a reader returns the full length, the data having entered the pipe
    in order behind what was there, or [-EIO] if the pipe is full and the last
    reader has gone; it never spins on a pipe that is not full. *)
Theorem pipe_write_total env p data :
  pipe_wf p → Forall reader_act env → readers p ≠ 0 →
  match pipe_write_impl env (Some p) (Some data) with
  | Done (r, Some p') => pipe_wf p' ∧
      (r = - SYSCALL_EIO ∧ readers p' = 0 ∧ used p' = PIPE_SIZE ∨
       r = Z.of_nat (length data) ∧ ∃ k, contents p' = drop k (contents p ++ data))
  | Waiting (_, Some p') => pipe_wf p' ∧ used p' = PIPE_SIZE
  | _ => False
  end.
Proof.
  intros Hwf He Hr. unfold pipe_write_impl. rewrite (proj2 (Z.eqb_neq _ _) Hr).
  pose proof (write_loop_spec env p data 0 Hwf He) as H.
  by destruct (write_loop env p data 0) as [[r p']|[r p']|].
Qed.

(** A reader that takes at least one byte each time it runs. *)
Definition draining (e : pipe → pipe) : Prop :=
  ∀ p, pipe_wf p → pipe_wf (e p) ∧ (used p = PIPE_SIZE → used (e p) < PIPE_SIZE).

Lemma write_loop_ends env : ∀ p data written,
  pipe_wf p → Forall draining env → (length data ≤ length env + Z.to_nat (PIPE_SIZE - used p))%nat →
  ∃ a, write_loop env p data written = Done a.
Proof.
  assert (∀ p rest p' data, pipe_wf p → fill p data = (rest, p') →
    (length rest = length data - Z.to_nat (PIPE_SIZE - used p))%nat) as Hrest.
  { intros p rest p' data Hwf E. pose proof E as (Hwf1 & (d & -> & Hc) & Hfull & _)%pipe_fill_spec; [|done].
    apply (f_equal length) in Hc. rewrite length_app in Hc.
    pose proof (length_contents p (proj1 (pw_used _ Hwf))).
    pose proof (length_contents p' (proj1 (pw_used _ Hwf1))).
    pose proof (pw_used _ Hwf). pose proof (pw_used _ Hwf1).
    rewrite length_app. destruct rest as [|c rest]; [simpl; lia|].
    rewrite Hfull in * by done. lia. }
  induction env as [|e env IH]; intros p data written Hwf He Hlen;
    (simpl; destruct (fill p data) as [rest p1] eqn:E; pose proof (Hrest _ _ _ _ Hwf E) as Hl;
     destruct rest as [|c rest]; [eauto|]).
  - simpl in *. lia.
  - apply pipe_fill_spec in E as (Hwf1 & _ & Hfull & _); [|done]. rewrite Hfull, Z.eqb_refl by done.
    destruct (readers p1 =? 0); [eauto|]. apply Forall_cons in He as [Hd He].
    destruct (Hd p1 Hwf1) as [Hwf2 Hu]. specialize (Hu (Hfull ltac:(done))).
    apply IH; [done|done|]. simpl in *. lia.
Qed.

(** a write completes once the readers have run often enough: at most one
    turn in which they take at least one byte for each byte that does not fit
    at once. *)
Theorem pipe_write_completes env p data :
  pipe_wf p → Forall draining env → readers p ≠ 0 →
  (length data ≤ length env + Z.to_nat (PIPE_SIZE - used p))%nat →
  ∃ r p', pipe_write_impl env (Some p) (Some data) = Done (r, Some p').
Proof.
  intros Hwf He Hr Hlen. unfold pipe_write_impl. rewrite (proj2 (Z.eqb_neq _ _) Hr).
  destruct (write_loop_ends env p data 0 Hwf He Hlen) as [[r p'] ->]. eauto.
Qed.

(** Reading returns at end of file with 0, otherwise the oldest bytes of
    the pipe, as many as fit and at least one for a non-empty buffer. *)
Lemma pipe_read_spec p len :
  pipe_wf p → 0 < len →
  match pipe_read_impl [] (Some p) false len with
  | Done (r, out, Some p') => pipe_wf p' ∧ r = Z.of_nat (length out) ∧
      contents p = out ++ contents p' ∧ r = Z.min len (used p) ∧ (used p = 0 → writers p = 0)
  | Waiting (_, out, p') => out = [] ∧ p' = Some p ∧ used p = 0 ∧ writers p ≠ 0
  | _ => False
  end.
Proof.
  intros Hwf Hlen. pose proof (length_contents p (proj1 (pw_used _ Hwf))) as Hc. simpl.
  pose proof (pw_used _ Hwf). destruct (Z.eqb_spec (used p) 0) as [E|E].
  - destruct (Z.eqb_spec (writers p) 0); [|done]. split_and!; auto. simpl. lia.
  - destruct (read_loop (Z.to_nat len) p) as [out p'] eqn:Er.
    apply read_loop_spec in Er as (? & Hs & Hn & _); [|done]. split_and!; auto; [lia|done].
Qed.

End Pipe.
