(* ===== verification/Irq.v ===== *)
(** * Input interrupts (src/kernel/irq.c)

    Two circular buffers, for scan codes and for serial bytes, filled by the
    interrupt handlers and emptied by [tty_read].  One slot is always left
    empty; input that does not fit is dropped.  The operations on [input_wq]
    that a step performs are returned as a list; the value of an I/O port at
    the interrupt is the argument [inb]. *)

From S2P Require Import Prelude Ring.
From stdpp Require Import options.
Import Ring.

Module Irq.

Definition KB_DATA_PORT : Z := 0x60.
Definition COM1_PORT : Z := 0x3F8.
Definition KB_BUF_SIZE : Z := 64.
Definition COM_BUF_SIZE : Z := 128.
Definition IRQ_KEYBOARD : Z := 1.
Definition IRQ_SERIAL_COM1 : Z := 4.

Record irqs := mk_irqs {
  kb_buf : list Z;
  kb_head : Z;
  kb_tail : Z;
  com_buf : list Z;
  com_head : Z;
  com_tail : Z;
  wq_init_done : bool;
}.

Definition irqs_boot : irqs :=
  mk_irqs (replicate (Z.to_nat KB_BUF_SIZE) 0) 0 0 (replicate (Z.to_nat COM_BUF_SIZE) 0) 0 0 false.

Inductive wq_op := WqInit | WqWakeOne | WqSleepCond.

Definition ensure_wq_init (s : irqs) : irqs * list wq_op :=
  if wq_init_done s then (s, [])
  else (mk_irqs (kb_buf s) (kb_head s) (kb_tail s) (com_buf s) (com_head s) (com_tail s) true,
        [WqInit]).

Definition kb_push (s : irqs) (sc : Z) : irqs * list wq_op :=
  let next := w32 (kb_head s + 1) mod KB_BUF_SIZE in
  if negb (next =? kb_tail s) then
    let s1 := mk_irqs (<[Z.to_nat (kb_head s) := sc]> (kb_buf s)) next (kb_tail s)
      (com_buf s) (com_head s) (com_tail s) (wq_init_done s) in
    let '(s2, ops) := ensure_wq_init s1 in (s2, ops ++ [WqWakeOne])
  else (s, []).

Definition irq_com_push (s : irqs) (ch : Z) : irqs * list wq_op :=
  let next := w32 (com_head s + 1) mod COM_BUF_SIZE in
  if negb (next =? com_tail s) then
    let s1 := mk_irqs (kb_buf s) (kb_head s) (kb_tail s)
      (<[Z.to_nat (com_head s) := ch]> (com_buf s)) next (com_tail s) (wq_init_done s) in
    let '(s2, ops) := ensure_wq_init s1 in (s2, ops ++ [WqWakeOne])
  else (s, []).

Definition irq_dispatch (inb : Z → Z) (s : irqs) (irq : Z) : irqs * list wq_op :=
  if irq =? IRQ_KEYBOARD then kb_push s (w8 (inb KB_DATA_PORT))
  else if irq =? IRQ_SERIAL_COM1 then
    let lsr := w8 (inb (COM1_PORT + 5)) in
    if negb (Z.land lsr 1 =? 0) then irq_com_push s (w8 (inb COM1_PORT)) else (s, [])
  else (s, []).

(** [None] is the return value 0; [Some c] is 1 with [*scancode = c]. *)
Definition irq_kb_pop (s : irqs) : option Z * irqs :=
  if kb_tail s =? kb_head s then (None, s)
  else (Some (nth (Z.to_nat (kb_tail s)) (kb_buf s) 0),
        mk_irqs (kb_buf s) (kb_head s) (w32 (kb_tail s + 1) mod KB_BUF_SIZE)
          (com_buf s) (com_head s) (com_tail s) (wq_init_done s)).

Definition irq_com_pop (s : irqs) : option Z * irqs :=
  if com_tail s =? com_head s then (None, s)
  else (Some (nth (Z.to_nat (com_tail s)) (com_buf s) 0),
        mk_irqs (kb_buf s) (kb_head s) (kb_tail s)
          (com_buf s) (com_head s) (w32 (com_tail s + 1) mod COM_BUF_SIZE) (wq_init_done s)).

Definition irq_has_input (s : irqs) : bool :=
  if negb (kb_head s =? kb_tail s) then true
  else negb (com_head s =? com_tail s).

Definition irq_wait_input (s : irqs) : irqs * list wq_op :=
  let '(s1, ops) := ensure_wq_init s in (s1, ops ++ [WqSleepCond]).

(** ** Refinement to two bounded queues *)

Section HeadTail.
Context (n : Z) (Hn : 1 < n < 2 ^ 31).

(** The queue of a buffer with head and tail indices. *)
Definition pending (buf : list Z) (head tail : Z) : list Z :=
  ring buf tail (Z.to_nat ((head - tail) mod n)).

Definition ht_ok (buf : list Z) (head tail : Z) : Prop :=
  Z.of_nat (length buf) = n ∧ 0 ≤ head < n ∧ 0 ≤ tail < n.

Lemma length_pending buf head tail :
  Z.of_nat (length (pending buf head tail)) = (head - tail) mod n.
Proof using Hn. unfold pending. rewrite length_ring. dlia. Qed.

Lemma next_eq i : 0 ≤ i < n → w32 (i + 1) mod n = (i + 1) mod n.
Proof using Hn. intros Hi. by rewrite w32_small by lia. Qed.

Lemma pending_full buf head tail :
  ht_ok buf head tail →
  (w32 (head + 1) mod n = tail ↔ Z.of_nat (length (pending buf head tail)) = n - 1).
Proof using Hn.
  intros (_ & Hh & Ht). rewrite length_pending, next_eq by done.
  destruct (decide (head + 1 = n)) as [E|E].
  - rewrite E, Z.mod_same by lia. destruct (decide (head < tail)); [lia|].
    rewrite (Z.mod_small (head - tail)) by lia. lia.
  - rewrite (Z.mod_small (head + 1)) by lia. destruct (decide (head < tail)) as [Hlt|Hge].
    + rewrite <- (Z.mod_add (head - tail) 1), Z.mod_small by lia. lia.
    + rewrite (Z.mod_small (head - tail)) by lia. lia.
Qed.

Lemma pending_push buf head tail x :
  ht_ok buf head tail → w32 (head + 1) mod n ≠ tail →
  ht_ok (<[Z.to_nat head := x]> buf) (w32 (head + 1) mod n) tail ∧
  pending (<[Z.to_nat head := x]> buf) (w32 (head + 1) mod n) tail = pending buf head tail ++ [x].
Proof using Hn.
  intros Hok Hne. pose proof (pending_full buf head tail Hok) as Hf.
  pose proof (length_pending buf head tail) as Hl. destruct Hok as (Hb & Hh & Ht).
  assert ((head - tail) mod n < n - 1) as Hlt.
  { assert ((head - tail) mod n ≠ n - 1) by (intros E; apply Hne, Hf; lia).
    pose proof (Z.mod_pos_bound (head - tail) n). lia. }
  rewrite next_eq in * by done. split.
  - pose proof (Z.mod_pos_bound (head + 1) n). split_and!; rewrite ?length_insert; lia.
  - unfold pending.
    assert (((head + 1) mod n - tail) mod n = (head - tail) mod n + 1) as ->.
    { rewrite Zminus_mod_idemp_l. replace (head + 1 - tail) with (head - tail + 1) by lia.
      pose proof (Z.mod_pos_bound (head - tail) n).
      rewrite <- Zplus_mod_idemp_l. apply Z.mod_small. lia. }
    pose proof (Z.mod_pos_bound (head - tail) n). rewrite Z2Nat.inj_add by lia.
    rewrite Nat.add_1_r, <- ring_push by lia. do 2 f_equal. unfold slot. rewrite Hb, Z2Nat.id by lia.
    rewrite Zplus_mod_idemp_r. replace (tail + (head - tail)) with head by lia.
    by rewrite Z.mod_small.
Qed.

Lemma pending_pop buf head tail :
  ht_ok buf head tail → tail ≠ head →
  ht_ok buf head (w32 (tail + 1) mod n) ∧
  pending buf head tail =
    nth (Z.to_nat tail) buf 0 :: pending buf head (w32 (tail + 1) mod n).
Proof using Hn.
  intros (Hb & Hh & Ht) Hne. rewrite next_eq by done. split.
  - pose proof (Z.mod_pos_bound (tail + 1) n). split_and!; lia.
  - unfold pending.
    assert (0 < (head - tail) mod n) as Hpos.
    { pose proof (Z.mod_pos_bound (head - tail) n).
      assert ((head - tail) mod n ≠ 0) as Hz; [|lia]. intros E. apply Z.mod_divide in E as [q Hq]; [|lia].
      assert (q = 0) by nia. lia. }
    assert ((head - (tail + 1) mod n) mod n = (head - tail) mod n - 1) as E.
    { rewrite Zminus_mod_idemp_r. replace (head - (tail + 1)) with (head - tail - 1) by lia.
      pose proof (Z.mod_pos_bound (head - tail) n).
      rewrite <- Zminus_mod_idemp_l. apply Z.mod_small. lia. }
    rewrite E. replace (Z.to_nat ((head - tail) mod n)) with (S (Z.to_nat ((head - tail) mod n - 1))) by lia.
    rewrite ring_pop; [by rewrite Hb| |lia]. intros ->. simpl in Hb. lia.
Qed.

Lemma pending_nil buf i : pending buf i i = [].
Proof using Hn. unfold pending. by rewrite Z.sub_diag, Z.mod_0_l by lia. Qed.
End HeadTail.

Definition irqs_ok (s : irqs) : Prop :=
  ht_ok KB_BUF_SIZE (kb_buf s) (kb_head s) (kb_tail s) ∧
  ht_ok COM_BUF_SIZE (com_buf s) (com_head s) (com_tail s).

Definition scancodes (s : irqs) : list Z := pending KB_BUF_SIZE (kb_buf s) (kb_head s) (kb_tail s).
Definition serial_in (s : irqs) : list Z := pending COM_BUF_SIZE (com_buf s) (com_head s) (com_tail s).

Lemma irqs_boot_ok : irqs_ok irqs_boot ∧ scancodes irqs_boot = [] ∧ serial_in irqs_boot = [].
Proof. done. Qed.

(** Appending to a queue that holds at most [cap] elements. *)
Definition enqueue (cap : Z) (q : list Z) (x : Z) : list Z :=
  if Z.of_nat (length q) <? cap then q ++ [x] else q.

Lemma ensure_wq_init_same s :
  let s' := (ensure_wq_init s).1 in
  kb_buf s' = kb_buf s ∧ kb_head s' = kb_head s ∧ kb_tail s' = kb_tail s ∧
  com_buf s' = com_buf s ∧ com_head s' = com_head s ∧ com_tail s' = com_tail s ∧
  wq_init_done s' = true.
Proof. unfold ensure_wq_init. by destruct (wq_init_done s) eqn:E. Qed.

Lemma kb_push_spec s sc :
  irqs_ok s →
  let s' := (kb_push s sc).1 in
  irqs_ok s' ∧ scancodes s' = enqueue (KB_BUF_SIZE - 1) (scancodes s) sc ∧ serial_in s' = serial_in s ∧
  (WqWakeOne ∈ (kb_push s sc).2 ↔ (length (scancodes s) < length (scancodes s'))%nat).
Proof.
  intros [Hk Hc]. pose proof (pending_full KB_BUF_SIZE ltac:(done) _ _ _ Hk) as Hf.
  assert (Z.of_nat (length (scancodes s)) ≤ KB_BUF_SIZE - 1) as Hle.
  { unfold scancodes. rewrite length_pending by done. unfold KB_BUF_SIZE. dlia. }
  unfold kb_push, enqueue. destruct (Z.eqb_spec (w32 (kb_head s + 1) mod KB_BUF_SIZE) (kb_tail s)) as [E|E];
    cbn [negb].
  - apply Hf in E. fold (scancodes s) in E. rewrite (proj2 (Z.ltb_ge _ _)) by lia.
    split_and!; auto; [by split|]. simpl. split; [set_solver|lia].
  - destruct (pending_push KB_BUF_SIZE ltac:(done) _ _ _ sc Hk E) as [Hk' Hp].
    rewrite (proj2 (Z.ltb_lt _ _)).
    2:{ assert (Z.of_nat (length (scancodes s)) ≠ KB_BUF_SIZE - 1); [|lia].
        intros E'. apply E, Hf, E'. }
    match goal with |- context [ensure_wq_init ?t] => pose proof (ensure_wq_init_same t) as He;
      destruct (ensure_wq_init t) as [s' ops] end.
    simpl in *. destruct He as (E1 & E2 & E3 & E4 & E5 & E6 & _).
    unfold irqs_ok, scancodes, serial_in. rewrite E1, E2, E3, E4, E5, E6, Hp.
    split_and!; auto. rewrite length_app. simpl. split; [lia|set_solver].
Qed.

Lemma com_push_spec s ch :
  irqs_ok s →
  let s' := (irq_com_push s ch).1 in
  irqs_ok s' ∧ serial_in s' = enqueue (COM_BUF_SIZE - 1) (serial_in s) ch ∧ scancodes s' = scancodes s ∧
  (WqWakeOne ∈ (irq_com_push s ch).2 ↔ (length (serial_in s) < length (serial_in s'))%nat).
Proof.
  intros [Hk Hc]. pose proof (pending_full COM_BUF_SIZE ltac:(done) _ _ _ Hc) as Hf.
  assert (Z.of_nat (length (serial_in s)) ≤ COM_BUF_SIZE - 1) as Hle.
  { unfold serial_in. rewrite length_pending by done. unfold COM_BUF_SIZE. dlia. }
  unfold irq_com_push, enqueue.
  destruct (Z.eqb_spec (w32 (com_head s + 1) mod COM_BUF_SIZE) (com_tail s)) as [E|E]; cbn [negb].
  - apply Hf in E. fold (serial_in s) in E. rewrite (proj2 (Z.ltb_ge _ _)) by lia.
    split_and!; auto; [by split|]. simpl. split; [set_solver|lia].
  - destruct (pending_push COM_BUF_SIZE ltac:(done) _ _ _ ch Hc E) as [Hk' Hp].
    rewrite (proj2 (Z.ltb_lt _ _)).
    2:{ assert (Z.of_nat (length (serial_in s)) ≠ COM_BUF_SIZE - 1); [|lia].
        intros E'. apply E, Hf, E'. }
    match goal with |- context [ensure_wq_init ?t] => pose proof (ensure_wq_init_same t) as He;
      destruct (ensure_wq_init t) as [s' ops] end.
    simpl in *. destruct He as (E1 & E2 & E3 & E4 & E5 & E6 & _).
    unfold irqs_ok, scancodes, serial_in. rewrite E1, E2, E3, E4, E5, E6, Hp.
    split_and!; auto. rewrite length_app. simpl. split; [lia|set_solver].
Qed.

Lemma kb_pop_spec s :
  irqs_ok s →
  irqs_ok (irq_kb_pop s).2 ∧ serial_in (irq_kb_pop s).2 = serial_in s ∧
  match irq_kb_pop s with
  | (Some c, s') => scancodes s = c :: scancodes s'
  | (None, s') => scancodes s = [] ∧ s' = s
  end.
Proof.
  intros Hok. pose proof Hok as [Hk Hc]. unfold irq_kb_pop. destruct (Z.eqb_spec (kb_tail s) (kb_head s)) as [E|E].
  - split_and!; auto. unfold scancodes. rewrite E. by apply pending_nil.
  - destruct (pending_pop KB_BUF_SIZE ltac:(done) _ _ _ Hk E) as [Hk' Hp]. by split_and!.
Qed.

Lemma com_pop_spec s :
  irqs_ok s →
  irqs_ok (irq_com_pop s).2 ∧ scancodes (irq_com_pop s).2 = scancodes s ∧
  match irq_com_pop s with
  | (Some c, s') => serial_in s = c :: serial_in s'
  | (None, s') => serial_in s = [] ∧ s' = s
  end.
Proof.
  intros Hok. pose proof Hok as [Hk Hc]. unfold irq_com_pop. destruct (Z.eqb_spec (com_tail s) (com_head s)) as [E|E].
  - split_and!; auto. unfold serial_in. rewrite E. by apply pending_nil.
  - destruct (pending_pop COM_BUF_SIZE ltac:(done) _ _ _ Hc E) as [Hk' Hp]. by split_and!.
Qed.

(** an interrupt changes the two input queues exactly as the abstract
    device does: a keyboard interrupt appends its scan code to the scan-code
    queue and a serial interrupt with data ready its byte to the serial queue,
    unless the queue already holds 63 (127) elements, when the input is
    dropped; every other interrupt changes nothing.  A sleeping reader is
    woken exactly when something was queued. *)
Theorem irq_dispatch_spec inb s irq :
  irqs_ok s →
  let '(s', ops) := irq_dispatch inb s irq in
  irqs_ok s' ∧
  scancodes s' = (if irq =? IRQ_KEYBOARD
                  then enqueue (KB_BUF_SIZE - 1) (scancodes s) (w8 (inb KB_DATA_PORT)) else scancodes s) ∧
  serial_in s' = (if (irq =? IRQ_SERIAL_COM1) && Z.testbit (inb (COM1_PORT + 5)) 0
                  then enqueue (COM_BUF_SIZE - 1) (serial_in s) (w8 (inb COM1_PORT)) else serial_in s) ∧
  (WqWakeOne ∈ ops ↔ (length (scancodes s ++ serial_in s) < length (scancodes s' ++ serial_in s'))%nat).
Proof.
  intros Hok. unfold irq_dispatch.
  assert (Hbit : negb (Z.land (w8 (inb (COM1_PORT + 5))) 1 =? 0) = Z.testbit (inb (COM1_PORT + 5)) 0).
  { change 1 with (Z.ones 1). rewrite Z.land_ones by lia. change (2 ^ 1) with 2.
    rewrite <- (Z.mod_pow2_bits_low (inb _) 8 0) by lia. fold (w8 (inb (COM1_PORT + 5))).
    rewrite Z.bit0_odd, Zmod_odd. by destruct (Z.odd _). }
  destruct (Z.eqb_spec irq IRQ_KEYBOARD) as [->|Hk].
  - pose proof (kb_push_spec s (w8 (inb KB_DATA_PORT)) Hok) as H. change (IRQ_KEYBOARD =? IRQ_SERIAL_COM1) with false.
    destruct (kb_push s _) as [s' ops]. simpl in H. destruct H as (? & Hs & Hc & Hw).
    split_and!; auto. rewrite Hw, !length_app, Hc. lia.
  - destruct (Z.eqb_spec irq IRQ_SERIAL_COM1) as [->|Hc]; cbn [andb].
    + rewrite Hbit. destruct (Z.testbit _ 0).
      * pose proof (com_push_spec s (w8 (inb COM1_PORT)) Hok) as H.
        destruct (irq_com_push s _) as [s' ops]. simpl in H. destruct H as (? & Hs & Hc & Hw).
        split_and!; auto. rewrite Hw, !length_app, Hc. lia.
      * split_and!; auto. split; [set_solver|lia].
    + split_and!; auto. split; [set_solver|lia].
Qed.

End Irq.
