(* ===== verification/Tty.v ===== *)
(** * Terminal input (src/kernel/tty.c)

    [tty_read] takes serial bytes and translated scan codes from the input
    queues of Irq.v, echoes them, edits the line on backspace and returns at
    newline or when the buffer is full.  What interrupts do to the queues
    while it sleeps in [irq_wait_input] is the argument [env], one entry for
    each sleep. *)

From S2P Require Import Prelude Ring CString Irq.
From stdpp Require Import options.
Import Ring CString Irq.

Module Tty.

(** Rows of consecutive scan codes. *)
Definition rows_get (rows : list (Z * list Z)) (sc : Z) : Z :=
  foldr (λ '(start, row) rest,
    if (start <=? sc) && (sc <? start + Z.of_nat (length row))
    then nth (Z.to_nat (sc - start)) row 0 else rest) 0 rows.

Definition scancode_map : Z → Z := rows_get
  [(0x02, chars "1234567890-="); (0x10, chars "qwertyuiop[]"); (0x1E, chars "asdfghjkl;'`");
   (0x2B, chars "\"); (0x2C, chars "zxcvbnm,./"); (0x39, chars " ")].
Definition scancode_shift_map : Z → Z := rows_get
  [(0x02, chars "!@#$%^&*()_+"); (0x10, chars "QWERTYUIOP{}");
   (0x1E, chars "ASDFGHJKL:" ++ [34] ++ chars "~");
   (0x2B, chars "|"); (0x2C, chars "ZXCVBNM<>?"); (0x39, chars " ")].

(** The new [shift_state] and, for return value 1, the character. *)
Definition scancode_to_char (shift_state : bool) (sc : Z) : bool * option Z :=
  if (sc =? 0x2A) || (sc =? 0x36) then (true, None)
  else if (sc =? 0xAA) || (sc =? 0xB6) then (false, None)
  else if negb (Z.land sc 0x80 =? 0) then (shift_state, None)
  else if sc =? 0x1C then (shift_state, Some 10)
  else if sc =? 0x0E then (shift_state, Some 8)
  else
    let c := if shift_state then scancode_shift_map sc else scancode_map sc in
    if c =? 0 then (shift_state, None) else (shift_state, Some c).

(** What the terminal shows. *)
Inductive display := Written (bs : list Z) | Rubout.

Record tty := mk_tty {
  input : irqs;
  shift : bool;
  shown : list display;
}.

Definition tty_write (t : tty) (buf : option (list Z)) : Z * tty :=
  match buf with
  | Some (c :: bs) =>
      (Z.of_nat (length (c :: bs)), mk_tty (input t) (shift t) (shown t ++ [Written (c :: bs)]))
  | _ => (0, t)
  end.

(** The body shared by both input sources: line editing of one character.
    The last component is false for [break]. *)
Definition accept (t : tty) (buf : list Z) (count c : Z) : tty * list Z * Z * bool :=
  if c =? 8 then
    if 0 <? count then
      (mk_tty (input t) (shift t) (shown t ++ [Rubout]), buf, count - 1, true)
    else (t, buf, count, true)
  else
    let buf := <[Z.to_nat count := c]> buf in
    let t := (tty_write t (Some [c])).2 in
    (t, buf, count + 1, negb (c =? 10)).

(** One iteration of the loop; [None] when it goes to sleep. *)
Definition tty_iter (t : tty) (buf : list Z) (count : Z) : option (tty * list Z * Z * bool) :=
  match irq_com_pop (input t) with
  | (Some ch, i) =>
      let ch := if ch =? 13 then 10 else ch in
      Some (accept (mk_tty i (shift t) (shown t)) buf count ch)
  | (None, _) =>
      match irq_kb_pop (input t) with
      | (Some sc, i) =>
          let '(sh, oc) := scancode_to_char (shift t) sc in
          let t := mk_tty i sh (shown t) in
          match oc with
          | Some c => Some (accept t buf count c)
          | None => Some (t, buf, count, true)
          end
      | (None, _) => None
      end
  end.

(** Elements in both queues. *)
Definition queued (s : irqs) : nat :=
  Z.to_nat ((kb_head s - kb_tail s) mod KB_BUF_SIZE + (com_head s - com_tail s) mod COM_BUF_SIZE).

(** The loop until it sleeps ([false]) or ends; every iteration takes one
    element from a queue, so [queued] iterations always suffice. *)
Fixpoint tty_drain (fuel : nat) (len : Z) (t : tty) (buf : list Z) (count : Z)
    : option (tty * list Z * Z * bool) :=
  if count <? len then
    match tty_iter t buf count with
    | None => Some (mk_tty (irq_wait_input (input t)).1 (shift t) (shown t), buf, count, false)
    | Some (t', buf', count', more) =>
        if more then
          match fuel with
          | O => None
          | S fuel' => tty_drain fuel' len t' buf' count'
          end
        else Some (t', buf', count', true)
    end
  else Some (t, buf, count, true).

Fixpoint tty_loop (env : list (irqs → irqs)) (len : Z) (t : tty) (buf : list Z) (count : Z)
    : outcome (tty * list Z * Z) :=
  match tty_drain (queued (input t)) len t buf count with
  | None => Spinning
  | Some (t', buf', count', true) => Done (t', buf', count')
  | Some (t', buf', count', false) =>
      match env with
      | [] => Waiting (t', buf', count')
      | e :: env' => tty_loop env' len (mk_tty (e (input t')) (shift t') (shown t')) buf' count'
      end
  end.

(** [buf] is [None] for a null pointer; otherwise the caller's array. *)
Definition tty_read (env : list (irqs → irqs)) (t : tty) (buf : option (list Z)) (len : Z)
    : outcome (tty * list Z * Z) :=
  match buf with
  | None => Done (t, [], 0)
  | Some b => if len =? 0 then Done (t, b, 0) else tty_loop env len t b 0
  end.

(** ** The line editor *)

(** Characters as the user typed them: serial input first, then the keyboard. *)
Definition cr_to_nl (c : Z) : Z := if c =? 13 then 10 else c.
Fixpoint decode (sh : bool) (codes : list Z) : list Z :=
  match codes with
  | [] => []
  | sc :: codes' =>
      let '(sh', oc) := scancode_to_char sh sc in
      match oc with Some c => c :: decode sh' codes' | None => decode sh' codes' end
  end.
Definition typed (t : tty) : list Z :=
  (cr_to_nl <$> serial_in (input t)) ++ decode (shift t) (scancodes (input t)).

(** The line after some input: its text and whether it is finished. *)
Fixpoint line (len : Z) (acc : list Z) (cs : list Z) : list Z * bool :=
  if Z.of_nat (length acc) <? len then
    match cs with
    | [] => (acc, false)
    | c :: cs' =>
        if c =? 8 then line len (removelast acc) cs'
        else if c =? 10 then (acc ++ [c], true)
        else line len (acc ++ [c]) cs'
    end
  else (acc, true).

Lemma take_snoc_insert (buf : list Z) (n : nat) c :
  (n < length buf)%nat → take (S n) (<[n := c]> buf) = take n buf ++ [c].
Proof.
  intros Hn. rewrite (take_S_r _ _ c) by (by apply list_lookup_insert_eq).
  by rewrite take_insert_ge.
Qed.

Lemma removelast_take (buf : list Z) (n : nat) :
  (S n ≤ length buf)%nat → removelast (take (S n) buf) = take n buf.
Proof.
  intros Hn. destruct (lookup_lt_is_Some_2 buf n) as [x Hx]; [lia|].
  rewrite (take_S_r _ _ x Hx). apply removelast_last.
Qed.

Lemma queued_eq s : irqs_ok s → queued s = (length (serial_in s) + length (scancodes s))%nat.
Proof.
  intros _. unfold queued, serial_in, scancodes.
  pose proof (length_pending KB_BUF_SIZE ltac:(done) (kb_buf s) (kb_head s) (kb_tail s)).
  pose proof (length_pending COM_BUF_SIZE ltac:(done) (com_buf s) (com_head s) (com_tail s)). lia.
Qed.

(** The text of the line so far. *)
Definition text (buf : list Z) (count : Z) : list Z := take (Z.to_nat count) buf.

Lemma accept_line len t buf count c cs :
  Z.of_nat (length buf) = len → 0 ≤ count < len →
  let '(t', buf', count', more) := accept t buf count c in
  input t' = input t ∧ shift t' = shift t ∧ length buf' = length buf ∧ 0 ≤ count' ≤ len ∧
  (if more then line len (text buf count) (c :: cs) = line len (text buf' count') cs
   else line len (text buf count) (c :: cs) = (text buf' count', true)).
Proof.
  intros Hb Hc. assert (Z.of_nat (length (text buf count)) = count) as Hl.
  { unfold text. rewrite length_take. lia. }
  unfold accept. cbn [line]. rewrite Hl, (proj2 (Z.ltb_lt count len)) by lia.
  destruct (Z.eqb_spec c 8) as [->|H8].
  - destruct (Z.ltb_spec 0 count) as [Hpos|Hz]; split_and!; simpl; auto; try lia.
    + unfold text. replace (Z.to_nat count) with (S (Z.to_nat (count - 1))) by lia.
      rewrite removelast_take by lia. done.
    + unfold text. replace (Z.to_nat count) with 0%nat by lia. done.
  - assert (text (<[Z.to_nat count := c]> buf) (count + 1) = text buf count ++ [c]) as E.
    { unfold text. rewrite Z2Nat.inj_add, Nat.add_1_r by lia. apply take_snoc_insert. lia. }
    destruct (Z.eqb_spec c 10) as [->|H10]; split_and!; simpl; rewrite ?length_insert; auto; try lia;
      by rewrite E.
Qed.

(** Number of inputs waiting. *)
Definition waiting (s : irqs) : nat := (length (serial_in s) + length (scancodes s))%nat.

Lemma tty_iter_line len t buf count :
  irqs_ok (input t) → Z.of_nat (length buf) = len → 0 ≤ count < len →
  match tty_iter t buf count with
  | None => typed t = []
  | Some (t', buf', count', more) =>
      irqs_ok (input t') ∧ length buf' = length buf ∧ 0 ≤ count' ≤ len ∧
      waiting (input t) = S (waiting (input t')) ∧
      line len (text buf count) (typed t) =
        if more then line len (text buf' count') (typed t') else (text buf' count', true)
  end.
Proof.
  intros Hok Hb Hc. unfold tty_iter, typed, waiting.
  destruct (com_pop_spec _ Hok) as (Hok1 & Hk1 & H1).
  destruct (irq_com_pop (input t)) as [[ch|] i]; simpl in *.
  - rewrite H1, <- Hk1. simpl. fold (cr_to_nl ch).
    pose proof (accept_line len (mk_tty i (shift t) (shown t)) buf count (cr_to_nl ch)
      ((cr_to_nl <$> serial_in i) ++ decode (shift t) (scancodes i)) Hb Hc) as Ha.
    destruct (accept _ buf count _) as [[[t' buf'] count'] more]. simpl in Ha.
    destruct Ha as (E1 & E2 & ? & ? & Hl). rewrite E1, E2. split_and!; auto; [lia..|].
    destruct more; done.
  - destruct H1 as [H1 ->]. rewrite H1. simpl.
    destruct (kb_pop_spec _ Hok) as (Hok2 & Hk2 & H2).
    destruct (irq_kb_pop (input t)) as [[sc|] i2]; simpl in *; [|by destruct H2 as [-> _]].
    rewrite H2. simpl. destruct (scancode_to_char (shift t) sc) as [sh [c|]].
    + pose proof (accept_line len (mk_tty i2 sh (shown t)) buf count c (decode sh (scancodes i2)) Hb Hc) as Ha.
      destruct (accept _ buf count _) as [[[t' buf'] count'] more]. simpl in Ha.
      destruct Ha as (E1 & E2 & ? & ? & Hl). rewrite E1, E2, Hk2, H1. split_and!; auto; [lia..|].
      destruct more; done.
    + simpl. rewrite Hk2, H1. split_and!; auto; lia.
Qed.

Lemma wait_input_ok s : irqs_ok s → irqs_ok (irq_wait_input s).1.
Proof.
  intros Hok. unfold irq_wait_input. pose proof (ensure_wq_init_same s) as He.
  destruct (ensure_wq_init s) as [s' ops]. simpl in *.
  destruct He as (E1 & E2 & E3 & E4 & E5 & E6 & _).
  unfold irqs_ok. by rewrite E1, E2, E3, E4, E5, E6.
Qed.

Lemma tty_drain_line fuel : ∀ len t buf count,
  irqs_ok (input t) → Z.of_nat (length buf) = len → 0 ≤ count ≤ len →
  (waiting (input t) ≤ fuel)%nat →
  ∃ t' buf' count' fin, tty_drain fuel len t buf count = Some (t', buf', count', fin) ∧
    line len (text buf count) (typed t) = (text buf' count', fin) ∧
    length buf' = length buf ∧ 0 ≤ count' ≤ len ∧ irqs_ok (input t').
Proof.
  induction fuel as [|fuel IH]; intros len t buf count Hok Hb Hc Hf;
    (assert (Z.of_nat (length (text buf count)) = count) as Hl
      by (unfold text; rewrite length_take; lia);
     cbn [tty_drain]; destruct (Z.ltb_spec count len) as [Hlt|Hge];
     [pose proof (tty_iter_line len t buf count Hok Hb ltac:(lia)) as Hi;
      destruct (tty_iter t buf count) as [[[[t' buf'] count'] more]|]|
      exists t, buf, count, true; split; [done|]; split; [|auto]; destruct (typed t); cbn [line];
        by rewrite Hl, (proj2 (Z.ltb_ge count len))]).
  1: destruct Hi as (_ & _ & _ & Hw & _); lia.
  2: destruct Hi as (Hok' & Hb' & Hc' & Hw & Hline); rewrite Hline; destruct more;
    [destruct (IH len t' buf' count') as (t2 & b2 & c2 & fin & -> & -> & ? & ? & ?);
      [done|lia|done|lia|]; exists t2, b2, c2, fin; split_and!; auto; lia
    |exists t', buf', count', true; split_and!; auto; lia].
  all: eexists _, _, _, _; split; [reflexivity|]; rewrite Hi; cbn [line input];
    rewrite Hl, (proj2 (Z.ltb_lt count len) Hlt); auto using wait_input_ok.
Qed.

(** C30: for the input in the queues, [tty_read] computes the line editor
    [line]: carriage returns become newlines, scan codes are decoded under the
    shift state, backspace removes the last character, and the call ends at a
    newline or a full buffer, else it goes to sleep with the line so far.  It
    never loops without consuming input. *)
Theorem tty_read_line t buf len :
  irqs_ok (input t) → Z.of_nat (length buf) = len → 0 < len →
  match tty_read [] t (Some buf) len with
  | Done (t', buf', count) =>
      line len [] (typed t) = (take (Z.to_nat count) buf', true) ∧ 0 ≤ count ≤ len
  | Waiting (t', buf', count) =>
      line len [] (typed t) = (take (Z.to_nat count) buf', false) ∧ 0 ≤ count ≤ len
  | Spinning => False
  end.
Proof.
  intros Hok Hb Hlen. unfold tty_read. rewrite (proj2 (Z.eqb_neq len 0)) by lia. simpl.
  destruct (tty_drain_line (queued (input t)) len t buf 0) as (t' & buf' & count' & fin & -> & Hl & ? & ? & ?);
    auto; [lia|by rewrite queued_eq|].
  unfold text in Hl. simpl in Hl. destruct fin; auto.
Qed.

(** Whatever interrupts arrive while it sleeps, the call never loops without
    consuming input and leaves the queues intact. *)
Lemma tty_loop_total env : ∀ len t buf count,
  irqs_ok (input t) → Forall (λ e, ∀ i, irqs_ok i → irqs_ok (e i)) env →
  Z.of_nat (length buf) = len → 0 ≤ count ≤ len →
  match tty_loop env len t buf count with
  | Done (t', buf', count') | Waiting (t', buf', count') => irqs_ok (input t') ∧ length buf' = length buf
  | Spinning => False
  end.
Proof.
  induction env as [|e env IH]; intros len t buf count Hok He Hb Hc; cbn [tty_loop];
    destruct (tty_drain_line (queued (input t)) len t buf count) as (t' & buf' & count' & fin & -> & _ & Hl & Hc' & Hok');
    auto; try (by rewrite queued_eq); destruct fin; auto.
  apply Forall_cons in He as [He Henv].
  pose proof (IH len (mk_tty (e (input t')) (shift t') (shown t')) buf' count' (He _ Hok') Henv ltac:(lia) Hc') as H.
  by rewrite Hl in H.
Qed.

(** The line editor can be resumed: input after a sleep continues the line. *)
Lemma line_resume len acc cs1 cs2 :
  line len acc (cs1 ++ cs2) =
  match line len acc cs1 with (acc', true) => (acc', true) | (acc', false) => line len acc' cs2 end.
Proof.
  revert acc. induction cs1 as [|c cs1 IH]; intros acc; simpl.
  - destruct (Z.ltb_spec (Z.of_nat (length acc)) len) as [H|H]; [done|].
    destruct cs2; cbn [line]; by rewrite (proj2 (Z.ltb_ge _ _)).
  - destruct (_ <? len); [|done]. destruct (c =? 8); [apply IH|]. by destruct (c =? 10).
Qed.

End Tty.
