(* ===== verification/StreamExamples.v ===== *)
(** * Concrete pipes and input queues *)

From S2P Require Import Prelude Ring CString Pipe Irq Tty.
From stdpp Require Import options.

(** ** Concrete pipes *)

Module PipeExamples.
Import Ring Pipe.

Definition three : pipe := (fill pipe_alloc_struct [1; 2; 3]).2.
Definition one_left : pipe := (read_loop 2 three).2.

Lemma pipe_fifo_witness : [1; 2; 3] = [1; 2] ++ contents one_left ∧ pipe_wf one_left.
Proof.
  apply (pipe_fifo [EvWrite [1; 2; 3]; EvRead [1; 2]] one_left).
  apply (run_snoc _ [EvWrite [1; 2; 3]] three).
  - apply (run_snoc _ [] pipe_alloc_struct); [constructor|].
    apply (step_write _ [1; 2; 3] []); vm_compute; reflexivity.
  - apply (step_read _ 2); [vm_compute; congruence|vm_compute; reflexivity].
Defined.

(** A full pipe and a reader that takes one byte. *)
Definition full : pipe := (fill pipe_alloc_struct (replicate (Z.to_nat PIPE_SIZE) 7)).2.
Definition take1 (p : pipe) : pipe := (read_loop 1 p).2.

Lemma full_wf : pipe_wf full.
Proof. split; vm_compute; try reflexivity; split; congruence. Qed.

Lemma take1_spec p : pipe_wf p →
  pipe_wf (take1 p) ∧ ∃ out, contents p = out ++ contents (take1 p) ∧
    length out = (1 `min` length (contents p))%nat.
Proof.
  intros Hwf. unfold take1. destruct (read_loop 1 p) as [out p'] eqn:E.
  apply read_loop_spec in E as (? & ? & ? & _); [|done]. eauto.
Qed.

Lemma take1_reader : reader_act take1.
Proof.
  intros p Hwf. destruct (take1_spec p Hwf) as (? & out & -> & _). split; [done|].
  exists (length out). by rewrite drop_app_length.
Qed.

Lemma take1_draining : draining take1.
Proof.
  intros p Hwf. destruct (take1_spec p Hwf) as (Hwf' & out & Hc & Hl). split; [done|]. intros Hu.
  apply (f_equal length) in Hc. rewrite length_app in Hc.
  pose proof (length_contents p (proj1 (pw_used _ Hwf))).
  pose proof (length_contents _ (proj1 (pw_used _ Hwf'))). unfold PIPE_SIZE in *. lia.
Qed.

Lemma pipe_write_total_witness :
  match pipe_write_impl [take1] (Some full) (Some [9]) with
  | Done (r, Some p') => pipe_wf p' ∧
      (r = - SYSCALL_EIO ∧ readers p' = 0 ∧ used p' = PIPE_SIZE ∨
       r = 1 ∧ ∃ k, contents p' = drop k (contents full ++ [9]))
  | Waiting (_, Some p') => pipe_wf p' ∧ used p' = PIPE_SIZE
  | _ => False
  end.
Proof.
  exact (pipe_write_total [take1] full [9] full_wf (Forall_cons_2 _ _ _ take1_reader (Forall_nil_2 _))
    ltac:(vm_compute; congruence)).
Defined.

Lemma pipe_write_completes_witness :
  ∃ r p', pipe_write_impl [take1] (Some full) (Some [9]) = Done (r, Some p').
Proof.
  apply (pipe_write_completes [take1] full [9] full_wf);
    [exact (Forall_cons_2 _ _ _ take1_draining (Forall_nil_2 _))|vm_compute; congruence|].
  vm_compute. auto.
Defined.

End PipeExamples.

(** ** Concrete terminal input *)

Module InputExamples.
Import CString Irq Tty.

(** The UART holds [c] and reports it in its line status register. *)
Definition uart (c : Z) : Z → Z := λ port, if port =? COM1_PORT + 5 then 1 else c.

Lemma irq_dispatch_spec_witness :
  serial_in (irq_dispatch (uart 65) irqs_boot IRQ_SERIAL_COM1).1 = [65].
Proof.
  pose proof (irq_dispatch_spec (uart 65) irqs_boot IRQ_SERIAL_COM1 (proj1 irqs_boot_ok)) as H.
  destruct (irq_dispatch (uart 65) irqs_boot IRQ_SERIAL_COM1) as [s ops].
  destruct H as (_ & _ & H & _). exact H.
Defined.

(** Serial input "hx", backspace, then shift-i and enter on the keyboard. *)
Definition feed : irqs :=
  let s := foldl (λ s c, (irq_com_push s c).1) irqs_boot [104; 120; 8] in
  foldl (λ s c, (kb_push s c).1) s [0x2A; 0x17; 0xAA; 0x1C].
Definition tty0 : tty := mk_tty feed false [].

Lemma feed_ok : irqs_ok feed.
Proof. repeat split; vm_compute; congruence. Qed.

Lemma tty_read_line_witness :
  match tty_read [] tty0 (Some (replicate 8 0)) 8 with
  | Done (_, buf, count) => take (Z.to_nat count) buf = chars "hI" ++ [10]
  | _ => False
  end.
Proof.
  pose proof (tty_read_line tty0 (replicate 8 0) 8 feed_ok ltac:(done) ltac:(lia)) as H.
  assert (line 8 [] (typed tty0) = (chars "hI" ++ [10], true)) as E by (vm_compute; reflexivity).
  destruct (tty_read [] tty0 (Some (replicate 8 0)) 8) as [[[t buf] count]|[[t buf] count]|];
    [|destruct H as [H _]; rewrite E in H; discriminate H|exact H].
  destruct H as [H _]. rewrite E in H. injection H as H. symmetry. exact H.
Defined.

(** Input beyond the capacity of the queue is dropped. *)
Example serial_overflow :
  length (serial_in (foldl (λ s c, (irq_com_push s c).1) irqs_boot (replicate 200 65))) = 127%nat.
Proof. vm_compute. reflexivity. Qed.

End InputExamples.
