(* ===== verification/Paths.v ===== *)
(** * Path handling (src/kernel/vfs.c, src/kernel/syscall.c)

    [normalize_path] of vfs.c and its variant in syscall.c build the result in
    a bounded buffer by scanning the path once.  [canon] is the reference: the
    stack of components left after resolving [.] and [..].  The output buffer
    is kept reversed, [rout], so that its head is [out[out_pos - 1]] and its
    length is [out_pos]. *)

From S2P Require Import Prelude CString.
From stdpp Require Import options.
Import CString.

Module Paths.

Definition SLASH : Z := 47.
Definition DOT : Z := 46.
Definition VFS_LIST_PATH_MAX : Z := 64.
Definition VFS_PATH_MAX : Z := 128.

(** [while (src[len-1] == '/') --len], on the reversed string. *)
Fixpoint trim (r : list Z) : list Z :=
  match r with
  | c :: r' => if c =? SLASH then trim r' else r
  | [] => []
  end.

(** [copy_trimmed]: [None] is the return value -1. *)
Definition copy_trimmed (src : list Z) (dst_len : Z) : option (list Z) :=
  if dst_len =? 0 then None
  else
    let t := reverse (trim (reverse (cstr src))) in
    let len := Z.of_nat (length t) in
    if (len =? 0) || (dst_len <? len + 1) then None else Some t.

(** [while (p[0] == '/') ++p]. *)
Fixpoint skip_slashes (p : list Z) : list Z :=
  match p with
  | c :: p' => if c =? SLASH then skip_slashes p' else p
  | [] => []
  end.

(** The segment from [p] up to the next slash or NUL, and what follows. *)
Fixpoint span_seg (p : list Z) : list Z * list Z :=
  match p with
  | c :: p' =>
      if (c =? 0) || (c =? SLASH) then ([], p)
      else let '(s, r) := span_seg p' in (c :: s, r)
  | [] => ([], [])
  end.

(** [while (out_pos > 1 && out[out_pos - 1] != '/') --out_pos]. *)
Fixpoint strip (rout : list Z) : list Z :=
  match rout with
  | [] => []
  | c :: r =>
      match r with
      | [] => rout
      | _ => if negb (c =? SLASH) then strip r else rout
      end
  end.

Definition pos (rout : list Z) : Z := Z.of_nat (length rout).

Definition dot_dot (rout : list Z) : list Z :=
  if 1 <? pos rout then strip (if hd 0 rout =? SLASH then tl rout else rout) else rout.

Definition push_seg (out_len : Z) (rout seg : list Z) : option (list Z) :=
  let sep := (1 <? pos rout) && negb (hd 0 rout =? SLASH) in
  if sep && (out_len <=? pos rout + 1) then None
  else
    let rout := if sep then SLASH :: rout else rout in
    if out_len <=? pos rout + Z.of_nat (length seg) then None else Some (reverse seg ++ rout).

(** The three cases of the loop body. *)
Definition add_seg (out_len : Z) (rout seg : list Z) : option (list Z) :=
  match seg with
  | [c] => if c =? DOT then Some rout else push_seg out_len rout seg
  | [c; d] => if (c =? DOT) && (d =? DOT) then Some (dot_dot rout) else push_seg out_len rout seg
  | [] => Some rout
  | _ => push_seg out_len rout seg
  end.

(** [while (p[0]) { ... }]; each iteration consumes input. *)
Fixpoint norm_loop (fuel : nat) (out_len : Z) (p rout : list Z) : option (list Z) :=
  if hd 0 p =? 0 then Some rout
  else
    match fuel with
    | O => None
    | S fuel' =>
        let '(seg, p1) := span_seg p in
        match add_seg out_len rout seg with
        | None => None
        | Some rout' => norm_loop fuel' out_len (skip_slashes p1) rout'
        end
    end.

(** vfs.c: the normalised path and the want-directory flag. *)
Definition normalize_path (path : list Z) (out_len : Z) : option (list Z * bool) :=
  if out_len <? 2 then None
  else if negb (hd 0 path =? SLASH) then None
  else
    let len := strlen path in
    let want_dir := (1 <? len) && (nth (Z.to_nat (len - 1)) path 0 =? SLASH) in
    match norm_loop (length path) out_len (skip_slashes path) [SLASH] with
    | None => None
    | Some rout => Some (reverse rout, want_dir)
    end.

(** syscall.c: no flag, relative paths allowed, one leading slash skipped. *)
Definition sys_normalize_path (path : list Z) (out_len : Z) : option (list Z) :=
  if out_len <? 2 then None
  else
    match norm_loop (length path) out_len (if hd 0 path =? SLASH then tl path else path) [SLASH] with
    | None => None
    | Some rout => Some (reverse rout)
    end.

(** ** The reference *)

(** The segments between slashes, empty ones dropped. *)
Definition split_slash (p : list Z) : list (list Z) :=
  foldr (λ c acc, if c =? SLASH then [] :: acc
                  else match acc with s :: r => (c :: s) :: r | [] => [[c]] end) [[]] p.
Definition components (p : list Z) : list (list Z) :=
  filter (λ s, s ≠ []) (split_slash (cstr p)).

(** The stack of components, deepest first, and whether a [..] left the
    output with a trailing slash. *)
Definition stack : Type := list (list Z) * bool.

Definition canon_step (st : stack) (seg : list Z) : stack :=
  if decide (seg = [DOT]) then st
  else if decide (seg = [DOT; DOT]) then
    match st with (_ :: up, _) => (up, true) | ([], tr) => ([], tr) end
  else (seg :: st.1, false).

Fixpoint body (segs : list (list Z)) : list Z :=
  match segs with [] => [] | s :: up => body up ++ SLASH :: s end.
Definition render (st : stack) : list Z :=
  match st with
  | ([], _) => [SLASH]
  | (segs, tr) => body segs ++ (if tr : bool then [SLASH] else [])
  end.

(** Resolves the components one by one; fails when a component does not fit. *)
Fixpoint canon (out_len : Z) (st : stack) (segs : list (list Z)) : option stack :=
  match segs with
  | [] => Some st
  | s :: segs' =>
      let st' := canon_step st s in
      if decide (s ≠ [DOT] ∧ s ≠ [DOT; DOT] ∧ out_len ≤ Z.of_nat (length (render st'))) then None
      else canon out_len st' segs'
  end.

(** ** Equivalence *)

Definition seg_ok (s : list Z) : Prop := s ≠ [] ∧ SLASH ∉ s.
Definition stack_ok (st : stack) : Prop := Forall seg_ok st.1.

Lemma body_cons_reverse s up : reverse (body (s :: up)) = reverse s ++ SLASH :: reverse (body up).
Proof. simpl. by rewrite reverse_app, reverse_cons, <- app_assoc. Qed.

Lemma strip_seg s r : SLASH ∉ s → strip (s ++ SLASH :: r) = SLASH :: r.
Proof.
  induction s as [|c s IH]; intros Hs; [by destruct r|].
  assert (negb (c =? SLASH) = true) as Hc by (apply negb_true_iff, Z.eqb_neq; set_solver).
  rewrite <- app_comm_cons. destruct (s ++ SLASH :: r) as [|d t] eqn:E; [by destruct s|].
  change (strip (c :: d :: t)) with (if negb (c =? SLASH) then strip (d :: t) else c :: d :: t).
  rewrite Hc. apply IH. set_solver.
Qed.

Lemma hd_seg s r : seg_ok s → hd 0 (reverse s ++ r) ≠ SLASH.
Proof.
  intros [Hne Hs]. destruct (reverse s) as [|c t] eqn:E.
  - apply (f_equal reverse) in E. rewrite reverse_involutive in E. done.
  - simpl. intros ->. apply Hs. rewrite <- (reverse_involutive s), E. apply elem_of_reverse. set_solver.
Qed.

Lemma seg_length s : seg_ok s → 0 < Z.of_nat (length s).
Proof. intros [Hne _]. destruct s; [done|]. simpl. lia. Qed.

Lemma dot_dot_render st :
  stack_ok st → dot_dot (reverse (render st)) = reverse (render (canon_step st [DOT; DOT])).
Proof.
  destruct st as [[|s up] tr]; intros Hok; [done|]. apply Forall_cons in Hok as [Hs Hup]. simpl in Hup.
  assert (strip (reverse (body (s :: up))) = SLASH :: reverse (body up)) as Hst.
  { rewrite body_cons_reverse. apply strip_seg. destruct Hs as [_ Hs]. by rewrite elem_of_reverse. }
  assert (hd 0 (reverse (body (s :: up))) ≠ SLASH) as Hh
    by (rewrite body_cons_reverse; by apply hd_seg).
  pose proof (seg_length s Hs) as Hl.
  unfold canon_step. rewrite decide_False, decide_True by done. unfold dot_dot, pos.
  rewrite (proj2 (Z.ltb_lt 1 _)).
  2:{ unfold render. rewrite length_reverse, length_app. cbn [body]. rewrite length_app.
      simpl length. lia. }
  assert (render (up, true) = body up ++ [SLASH]) as -> by (by destruct up).
  rewrite reverse_snoc. destruct tr; unfold render.
  - rewrite reverse_snoc. cbn [hd tl]. by rewrite Z.eqb_refl.
  - rewrite app_nil_r, (proj2 (Z.eqb_neq _ _) Hh). done.
Qed.

Lemma push_seg_render out_len st seg :
  stack_ok st → seg_ok seg →
  push_seg out_len (reverse (render st)) seg =
  if out_len <=? Z.of_nat (length (render (seg :: st.1, false))) then None
  else Some (reverse (render (seg :: st.1, false))).
Proof.
  intros Hok Hseg. pose proof (seg_length seg Hseg) as Hl.
  assert (render (seg :: st.1, false) = body (seg :: st.1)) as -> by (unfold render; apply app_nil_r).
  rewrite body_cons_reverse. cbn [body]. rewrite length_app. simpl length.
  unfold push_seg, pos. destruct st as [[|s up] tr].
  - change (reverse (render ([], tr))) with [SLASH].
    change ((1 <? Z.of_nat (length [SLASH])) && negb (hd 0 [SLASH] =? SLASH)) with false.
    cbn [andb fst body length]. change (reverse []) with (@nil Z).
    replace (Z.of_nat 1 + Z.of_nat (length seg)) with (Z.of_nat (0 + S (length seg))) by lia. done.
  - apply Forall_cons in Hok as [Hs Hup].
    assert (hd 0 (reverse (body (s :: up))) ≠ SLASH) as Hh
      by (rewrite body_cons_reverse; by apply hd_seg).
    pose proof (seg_length s Hs) as Hls.
    assert (1 < Z.of_nat (length (body (s :: up)))) as Hb
      by (cbn [body]; rewrite length_app; simpl length; lia).
    unfold render. cbn [fst]. set (b := body (s :: up)) in *. clearbody b. destruct tr.
    + rewrite reverse_snoc. cbn [hd]. rewrite Z.eqb_refl, andb_false_r. cbn [negb andb].
      simpl length. rewrite length_reverse.
      replace (Z.of_nat (S (length b)) + Z.of_nat (length seg))
        with (Z.of_nat (length b + S (length seg))) by lia. done.
    + rewrite app_nil_r, (proj2 (Z.eqb_neq _ _) Hh), length_reverse, (proj2 (Z.ltb_lt 1 _)) by lia.
      cbn [negb andb]. simpl length. rewrite length_reverse.
      destruct (Z.leb_spec out_len (Z.of_nat (length b) + 1)) as [H1|H1].
      * rewrite (proj2 (Z.leb_le _ _)) by lia. done.
      * replace (Z.of_nat (S (length b)) + Z.of_nat (length seg))
          with (Z.of_nat (length b + S (length seg))) by lia. done.
Qed.

Lemma add_seg_render out_len st seg :
  stack_ok st → seg_ok seg →
  add_seg out_len (reverse (render st)) seg =
  if decide (seg ≠ [DOT] ∧ seg ≠ [DOT; DOT] ∧
             out_len ≤ Z.of_nat (length (render (canon_step st seg))))
  then None else Some (reverse (render (canon_step st seg))).
Proof.
  intros Hok Hseg. destruct (decide (seg = [DOT])) as [->|H1].
  { rewrite decide_False by tauto. done. }
  destruct (decide (seg = [DOT; DOT])) as [->|H2].
  { rewrite decide_False by tauto. cbn [add_seg DOT Z.eqb andb]. by rewrite dot_dot_render. }
  assert (canon_step st seg = (seg :: st.1, false)) as ->
    by (unfold canon_step; by rewrite !decide_False).
  transitivity (push_seg out_len (reverse (render st)) seg).
  - destruct Hseg as [Hne _]. destruct seg as [|c [|d [|e seg]]]; simpl; try done.
    + destruct (Z.eqb_spec c DOT); [by subst|done].
    + destruct (Z.eqb_spec c DOT), (Z.eqb_spec d DOT); simpl; by subst.
  - rewrite push_seg_render by done. destruct (Z.leb_spec out_len (Z.of_nat (length (render (seg :: st.1, false))))).
    + by rewrite decide_True by auto.
    + rewrite decide_False by lia. done.
Qed.

Lemma canon_step_ok st seg : stack_ok st → seg_ok seg → stack_ok (canon_step st seg).
Proof.
  unfold canon_step, stack_ok. intros Hok Hs. repeat case_decide; auto.
  - destruct st as [[|s up] tr]; [done|]. by apply Forall_cons in Hok as [_ ?].
  - by constructor.
Qed.

(** ** Scanning *)

Lemma span_seg_spec p : ∀ seg rest,
  span_seg p = (seg, rest) →
  p = seg ++ rest ∧ SLASH ∉ seg ∧ 0 ∉ seg ∧ (hd 0 rest = 0 ∨ hd 0 rest = SLASH).
Proof.
  induction p as [|c p IH]; intros seg rest E; simpl in E.
  - injection E as <- <-. split_and!; auto; set_solver.
  - destruct (Z.eqb_spec c 0) as [->|H0]; simpl in E.
    { injection E as <- <-. split_and!; auto; set_solver. }
    destruct (Z.eqb_spec c SLASH) as [->|H1].
    { injection E as <- <-. split_and!; auto; set_solver. }
    destruct (span_seg p) as [s r]. injection E as <- <-.
    destruct (IH s r eq_refl) as (-> & ? & ? & ?). split_and!; auto; set_solver.
Qed.

Lemma components_slash p : components (SLASH :: p) = components p.
Proof. unfold components. simpl. by rewrite filter_cons_False by tauto. Qed.

Lemma components_skip p : components (skip_slashes p) = components p.
Proof.
  induction p as [|c p IH]; [done|]. cbn [skip_slashes]. destruct (Z.eqb_spec c SLASH) as [->|]; [|done].
  by rewrite IH, components_slash.
Qed.

Lemma components_end p : hd 0 p = 0 → components p = [].
Proof. intros Hp. unfold components. rewrite (cstr_nil p Hp). done. Qed.

Lemma split_seg seg r :
  SLASH ∉ seg → ∃ s t, split_slash r = s :: t ∧ split_slash (seg ++ r) = (seg ++ s) :: t.
Proof.
  intros Hs. assert (∃ s t, split_slash r = s :: t) as (s & t & E).
  { destruct r as [|c r]; cbn; [eauto|]. destruct (c =? SLASH); [eauto|].
    fold (split_slash r). destruct (split_slash r); eauto. }
  exists s, t. split; [done|]. induction seg as [|c seg IH]; [done|]. simpl.
  rewrite (proj2 (Z.eqb_neq c SLASH)) by set_solver.
  fold (split_slash (seg ++ r)). by rewrite IH by set_solver.
Qed.

Lemma cstr_seg seg rest : 0 ∉ seg → cstr (seg ++ rest) = seg ++ cstr rest.
Proof.
  induction seg as [|c seg IH]; intros H; [done|]. simpl.
  rewrite (proj2 (Z.eqb_neq c 0)) by set_solver. by rewrite IH by set_solver.
Qed.

Lemma components_seg seg rest :
  seg ≠ [] → SLASH ∉ seg → 0 ∉ seg → hd 0 rest = 0 ∨ hd 0 rest = SLASH →
  components (seg ++ rest) = seg :: components rest.
Proof.
  intros Hne Hs H0 Hr. unfold components. rewrite cstr_seg by done.
  destruct (split_seg seg (cstr rest) Hs) as (s & t & E & ->). rewrite E.
  assert (s = []) as ->.
  { destruct Hr as [Hr|Hr].
    - rewrite (cstr_nil rest Hr) in E. simpl in E. by injection E.
    - rewrite (cstr_tl rest), Hr in E by (by rewrite Hr). simpl in E. by injection E. }
  rewrite app_nil_r, filter_cons_True by done. by rewrite filter_cons_False by tauto.
Qed.

Lemma skip_length p : (length (skip_slashes p) ≤ length p)%nat.
Proof. induction p as [|c p IH]; simpl; [done|]. destruct (c =? SLASH); simpl; lia. Qed.

Lemma skip_length_lt p : hd 0 p = SLASH → (length (skip_slashes p) < length p)%nat.
Proof.
  destruct p as [|c p]; [done|]. simpl. intros ->. rewrite Z.eqb_refl. pose proof (skip_length p). lia.
Qed.

Lemma norm_loop_canon fuel out_len : ∀ p st,
  stack_ok st → (length p ≤ fuel)%nat →
  norm_loop fuel out_len p (reverse (render st)) =
  (λ st', reverse (render st')) <$> canon out_len st (components p).
Proof.
  induction fuel as [|fuel IH]; intros p st Hok Hf.
  - destruct p; [done|simpl in Hf; lia].
  - cbn [norm_loop]. destruct (Z.eqb_spec (hd 0 p) 0) as [E|E]; [by rewrite components_end|].
    destruct (span_seg p) as [seg rest] eqn:Es. apply span_seg_spec in Es as (-> & Hs & H0 & Hr).
    rewrite length_app in Hf. pose proof (skip_length rest) as Hl.
    destruct seg as [|c seg].
    + assert (hd 0 rest = SLASH) as Hsl by (simpl in E; destruct Hr; done).
      pose proof (skip_length_lt rest Hsl). simpl in Hf. cbn [add_seg app].
      rewrite IH by (done || lia). by rewrite components_skip.
    + rewrite components_seg by done. cbn [canon].
      assert (seg_ok (c :: seg)) as Hseg by (by split).
      rewrite add_seg_render by done. case_decide; [done|].
      rewrite IH; [by rewrite components_skip|by apply canon_step_ok|simpl in Hf; lia].
Qed.

Lemma normalize_core out_len p n :
  (length p ≤ n)%nat →
  norm_loop n out_len p [SLASH] = (λ st, reverse (render st)) <$> canon out_len ([], false) (components p).
Proof. intros Hn. by apply (norm_loop_canon n out_len p ([], false)); [constructor|]. Qed.

(** C29: [normalize_path] of vfs.c is the reference resolution of the path's
    components: an absolute path is resolved component by component, [.]
    ignored and [..] dropping the last component (of the root, nothing), and
    the call fails exactly for a relative path, a buffer of less than two
    bytes, or a component that would not leave room for the terminator. *)
Theorem normalize_path_canon path out_len :
  normalize_path path out_len =
  if (out_len <? 2) || negb (hd 0 path =? SLASH) then None
  else (λ st, (render st, (1 <? strlen path) && (nth (Z.to_nat (strlen path - 1)) path 0 =? SLASH))) <$>
         canon out_len ([], false) (components path).
Proof.
  unfold normalize_path. destruct (out_len <? 2); [done|]. destruct (hd 0 path =? SLASH); [|done].
  cbn [negb orb]. rewrite normalize_core by apply skip_length. rewrite components_skip.
  destruct (canon out_len _ _); simpl; [|done]. by rewrite reverse_involutive.
Qed.

(** the path normalisation of syscall.c agrees with that of vfs.c on
    absolute paths, and reads a relative path as if a slash preceded it. *)
Theorem sys_normalize_path_agrees path out_len :
  sys_normalize_path path out_len =
  fst <$> normalize_path (if hd 0 path =? SLASH then path else SLASH :: path) out_len.
Proof.
  unfold sys_normalize_path, normalize_path. destruct (out_len <? 2); [done|].
  destruct (Z.eqb_spec (hd 0 path) SLASH) as [Hh|Hh].
  - rewrite Hh, Z.eqb_refl. cbn [negb]. destruct path as [|c path]; [done|]. simpl in Hh. subst c.
    cbn [tl]. rewrite !normalize_core by (apply skip_length || simpl; lia).
    rewrite components_skip, components_slash.
    destruct (canon out_len _ _); simpl; [|done]. by rewrite reverse_involutive.
  - cbn [hd]. rewrite Z.eqb_refl. cbn [negb]. rewrite !normalize_core by (apply skip_length || lia).
    rewrite components_skip, components_slash.
    destruct (canon out_len _ _); simpl; [|done]. by rewrite reverse_involutive.
Qed.

(** ** Shape of the result *)

Definition clean_seg (s : list Z) : Prop :=
  seg_ok s ∧ 0 ∉ s ∧ s ≠ [DOT] ∧ s ≠ [DOT; DOT].

Lemma split_slash_ok p : 0 ∉ p → Forall (λ s, SLASH ∉ s ∧ 0 ∉ s) (split_slash p).
Proof.
  induction p as [|c p IH]; intros H; [by repeat constructor; set_solver|]. cbn.
  fold (split_slash p). specialize (IH ltac:(set_solver)).
  destruct (Z.eqb_spec c SLASH); [by constructor; [set_solver|]|].
  destruct (split_slash p) as [|s t]; [by repeat constructor; set_solver|].
  apply Forall_cons in IH as [[? ?] ?]. constructor; [|done]. set_solver.
Qed.

Lemma components_ok p : Forall (λ s, seg_ok s ∧ 0 ∉ s) (components p).
Proof.
  assert (0 ∉ cstr p) as H0.
  { pose proof (cstr_nonzero p) as H. rewrite Forall_forall in H. intros Hin. by apply (H 0). }
  pose proof (split_slash_ok _ H0) as H. rewrite Forall_forall in *. unfold components.
  intros s [Hne Hin]%list_elem_of_filter. destruct (H s Hin). by repeat split.
Qed.

Lemma body_length_le s up : (length (body up) < length (body (s :: up)))%nat.
Proof. simpl. rewrite length_app. simpl. lia. Qed.

Lemma canon_clean out_len segs : ∀ st st',
  Forall (λ s, seg_ok s ∧ 0 ∉ s) segs → Forall clean_seg st.1 →
  Z.of_nat (length (render st)) < out_len → canon out_len st segs = Some st' →
  Forall clean_seg st'.1 ∧ Z.of_nat (length (render st')) < out_len.
Proof.
  induction segs as [|s segs IH]; intros st st' Hs Hc Hl E; simpl in E; [by simplify_eq|].
  apply Forall_cons in Hs as [[Hs H0] Hsegs]. case_decide as Hd; [done|].
  revert E. apply IH; [done|..]; unfold canon_step in *; repeat case_decide; subst; auto.
  - destruct st as [[|s up] tr]; [done|]. by apply Forall_cons in Hc as [_ ?].
  - constructor; [|done]. unfold clean_seg. auto.
  - destruct st as [[|s up] tr]; [done|]. unfold render in Hl. rewrite length_app in Hl.
    pose proof (body_length_le s up). destruct up as [|t up]; [simpl in *; lia|].
    unfold render. rewrite length_app. cbn [length]. set (b := body (t :: up)) in *. clearbody b. lia.
  - destruct (decide (out_len ≤ Z.of_nat (length (render (s :: st.1, false))))); [tauto|lia].
Qed.

Lemma components_body segs r :
  Forall clean_seg segs → hd 0 r = 0 ∨ hd 0 r = SLASH →
  components (body segs ++ r) = reverse segs ++ components r.
Proof.
  revert r. induction segs as [|s up IH]; intros r Hc Hr; [done|].
  apply Forall_cons in Hc as [([Hne Hsl] & H0 & _) Hc]. simpl body. rewrite <- app_assoc.
  rewrite IH; [|done|by right]. rewrite <- app_comm_cons, components_slash, components_seg by done.
  by rewrite reverse_cons, <- app_assoc.
Qed.

Lemma components_render st : Forall clean_seg st.1 → components (render st) = reverse st.1.
Proof.
  destruct st as [[|s up] tr]; intros Hc; [done|]. unfold render.
  rewrite components_body; [|done|destruct tr; auto].
  destruct tr; (rewrite (components_slash []) || idtac); by rewrite app_nil_r.
Qed.

Lemma body_app_length segs up : (length (body up) ≤ length (body (segs ++ up)))%nat.
Proof. induction segs as [|s segs IH]; simpl; [done|]. rewrite length_app. lia. Qed.

(** Clean components are only pushed. *)
Lemma canon_push out_len segs : ∀ up tr,
  Forall clean_seg segs → Z.of_nat (length (body (reverse segs ++ up))) < out_len →
  ∃ tr', canon out_len (up, tr) segs = Some (reverse segs ++ up, tr').
Proof.
  induction segs as [|s segs IH]; intros up tr Hc Hl; [by exists tr|].
  apply Forall_cons in Hc as [([Hne Hsl] & H0 & Hd & Hdd) Hc].
  rewrite reverse_cons, <- app_assoc in *. cbn [canon app].
  assert (canon_step (up, tr) s = (s :: up, false)) as ->
    by (unfold canon_step; by rewrite !decide_False).
  rewrite decide_False; [by apply IH|]. intros (_ & _ & Hle). unfold render in Hle.
  rewrite app_nil_r in Hle. pose proof (body_app_length (reverse segs) (s :: up)). simpl app in *. lia.
Qed.

Lemma hd_body up : ∀ s r, hd 0 (body (s :: up) ++ r) = SLASH.
Proof.
  induction up as [|t up IH]; intros s r; [done|].
  change (body (s :: t :: up)) with (body (t :: up) ++ SLASH :: s). rewrite <- app_assoc. apply IH.
Qed.

(** a normalised path is absolute, fits its buffer with the terminator,
    and has no empty, [.] or [..] component; normalising it again leaves its
    components unchanged. *)
Theorem normalize_path_safe path out_len out dir :
  normalize_path path out_len = Some (out, dir) →
  hd 0 out = SLASH ∧ Z.of_nat (length out) < out_len ∧ Forall clean_seg (components out) ∧
  ∃ out' dir', normalize_path out out_len = Some (out', dir') ∧ components out' = components out.
Proof.
  intros E. assert (2 ≤ out_len ∧ ∃ st, canon out_len ([], false) (components path) = Some st ∧ out = render st)
    as (H2 & st & Ec & ->).
  { unfold normalize_path in E. destruct (Z.ltb_spec out_len 2); [done|].
    destruct (hd 0 path =? SLASH); [|done]. cbn [negb] in E.
    rewrite normalize_core, components_skip in E by apply skip_length.
    destruct (canon out_len _ _) as [st|]; [|done]. simpl in E. rewrite reverse_involutive in E.
    injection E as <- _. eauto. }
  apply canon_clean in Ec as [Hc Hl]; [|apply components_ok|constructor|simpl; lia].
  assert (hd 0 (render st) = SLASH) as Hh.
  { destruct st as [[|s up] tr]; [done|]. apply hd_body. }
  assert (Forall clean_seg (components (render st))) as Hcc.
  { rewrite components_render by done. rewrite Forall_forall in *. intros s Hs. apply Hc.
    by apply elem_of_reverse. }
  split_and!; auto.
  destruct (canon_push out_len (components (render st)) [] false Hcc) as [tr' Ep].
  { rewrite components_render, reverse_involutive, app_nil_r by done.
    destruct st as [[|s up] tr]; [simpl; lia|]. unfold render in Hl. rewrite length_app in Hl.
    cbn [fst]. lia. }
  rewrite app_nil_r in Ep. unfold normalize_path.
  rewrite (proj2 (Z.ltb_ge out_len 2)), Hh, Z.eqb_refl by done. cbn [negb].
  rewrite normalize_core, components_skip, Ep by apply skip_length.
  cbn [fmap option_fmap option_map]. rewrite reverse_involutive.
  eexists _, _. split; [reflexivity|]. rewrite (components_render (_, tr')).
  - simpl. by rewrite reverse_involutive.
  - simpl. rewrite Forall_forall in *. intros s Hs. apply Hcc. by apply elem_of_reverse.
Qed.

(** A [..] at the end leaves a slash behind. *)
Example dot_dot_trailing :
  normalize_path (chars "/a/b/..") VFS_PATH_MAX = Some (chars "/a/", false).
Proof. vm_compute. reflexivity. Qed.

Lemma normalize_path_safe_witness :
  Forall clean_seg (components (chars "/bin/ls")) ∧
  normalize_path (chars "/bin/../bin/./x/../ls") VFS_PATH_MAX = Some (chars "/bin/ls", false).
Proof.
  assert (normalize_path (chars "/bin/../bin/./x/../ls") VFS_PATH_MAX = Some (chars "/bin/ls", false))
    as E by (vm_compute; reflexivity).
  split; [|exact E]. apply (normalize_path_safe _ _ _ _ E).
Defined.

End Paths.
