(* ===== verification/Bytes.v ===== *)
(** * Byte buffers

    A buffer of known length is a list of bytes.  [store] is the copy loop
    [for (i = 0; i < len; ++i) dst[off + i] = src[i]] that the file systems
    repeat; [slice] is what the corresponding read loop returns. *)

From S2P Require Import Prelude CString.
From stdpp Require Import options.
Import CString.

Module Bytes.

Fixpoint store (dst : list Z) (off : nat) (src : list Z) : list Z :=
  match src with
  | [] => dst
  | x :: src' => store (<[off := x]> dst) (S off) src'
  end.

Definition slice (b : list Z) (off len : nat) : list Z := take len (drop off b).

Lemma length_store src : ∀ dst off, length (store dst off src) = length dst.
Proof. induction src as [|x src IH]; intros; simpl; [done|]. by rewrite IH, length_insert. Qed.

Lemma store_eq src : ∀ dst off,
  (off + length src ≤ length dst)%nat →
  store dst off src = take off dst ++ src ++ drop (off + length src) dst.
Proof.
  induction src as [|x src IH]; intros dst off Hl; simpl in *.
  - by rewrite Nat.add_0_r, take_drop.
  - rewrite IH by (rewrite length_insert; lia).
    rewrite (take_S_r (<[off:=x]> dst) off x) by (apply list_lookup_insert_eq; lia).
    rewrite take_insert_ge, <- app_assoc by lia. simpl.
    rewrite drop_insert_lt by lia. by rewrite Nat.add_succ_r.
Qed.

Lemma slice_store src dst off :
  (off + length src ≤ length dst)%nat → slice (store dst off src) off (length src) = src.
Proof.
  intros Hl. unfold slice. rewrite store_eq by done.
  rewrite drop_app_length' by (rewrite length_take; lia).
  by rewrite take_app_length.
Qed.

(** Reads that do not meet the written range are unaffected. *)
Lemma lookup_store src dst off i :
  (off + length src ≤ length dst)%nat →
  store dst off src !! i =
  if decide (off ≤ i < off + length src)%nat then src !! (i - off)%nat else dst !! i.
Proof.
  intros Hl. rewrite store_eq by done. case_decide as Hi.
  - rewrite lookup_app_r by (rewrite length_take; lia). rewrite length_take, Nat.min_l by lia.
    rewrite lookup_app_l by lia. done.
  - destruct (decide (i < off)%nat).
    + rewrite lookup_app_l by (rewrite length_take; lia). by apply lookup_take_lt.
    + rewrite lookup_app_r by (rewrite length_take; lia). rewrite length_take, Nat.min_l by lia.
      rewrite lookup_app_r by lia. rewrite lookup_drop. f_equal. lia.
Qed.

Lemma length_slice b off len : length (slice b off len) = (len `min` (length b - off))%nat.
Proof. unfold slice. by rewrite length_take, length_drop. Qed.

Lemma lookup_slice b off len i :
  slice b off len !! i = if decide (i < len)%nat then b !! (off + i)%nat else None.
Proof.
  unfold slice. case_decide.
  - by rewrite lookup_take_lt, lookup_drop.
  - by rewrite lookup_take_ge by lia.
Qed.

(** ** Listings

    [memfs_list] and [ramfs_list] write path names and newlines until one
    byte of the buffer is left. *)

(** The inner loop over one name; the flag says that the buffer is full. *)
Fixpoint put_name (len : Z) (out name : list Z) : list Z * bool :=
  match name with
  | [] => (out, false)
  | c :: name' =>
      if c =? 0 then (out, false)
      else if len <=? Z.of_nat (length out) + 1 then (out, true)
      else put_name len (out ++ [c]) name'
  end.

Fixpoint put_lines (len : Z) (out : list Z) (names : list (list Z)) : list Z :=
  match names with
  | [] => out
  | name :: names' =>
      let '(out1, full) := put_name len out name in
      if full then out1
      else if len <=? Z.of_nat (length out1) + 1 then out1
      else put_lines len (out1 ++ [10]) names'
  end.

Lemma put_name_spec len name : ∀ out,
  Z.of_nat (length out) < len →
  put_name len out name =
  (take (Z.to_nat (len - 1)) (out ++ cstr name),
   bool_decide (len - 1 < Z.of_nat (length out + length (cstr name)))).
Proof.
  induction name as [|c name IH]; intros out Hl; simpl.
  - rewrite app_nil_r, take_ge by lia. by rewrite bool_decide_eq_false_2 by lia.
  - destruct (c =? 0).
    { rewrite app_nil_r, take_ge by lia. by rewrite bool_decide_eq_false_2 by (simpl; lia). }
    destruct (Z.leb_spec len (Z.of_nat (length out) + 1)) as [Hf|Hf].
    + rewrite take_app_le, take_ge by lia. by rewrite bool_decide_eq_true_2 by (simpl; lia).
    + rewrite IH by (rewrite length_app; simpl; lia). rewrite <- app_assoc. f_equal.
      rewrite length_app. simpl. apply bool_decide_ext. lia.
Qed.

Definition lines (names : list (list Z)) : list Z := concat ((λ n, cstr n ++ [10]) <$> names).

(** A listing is the text of the lines, cut to one byte less than the buffer. *)
Lemma put_lines_spec len names : ∀ out,
  Z.of_nat (length out) < len →
  put_lines len out names = take (Z.to_nat (len - 1)) (out ++ lines names).
Proof.
  induction names as [|name names IH]; intros out Hl; simpl.
  - unfold lines. simpl. by rewrite app_nil_r, take_ge by lia.
  - rewrite put_name_spec by done. unfold lines. cbn [fmap list_fmap concat].
    rewrite <- app_assoc, (app_assoc out). change (concat _) with (lines names).
    case_bool_decide as Hf.
    + rewrite (take_app_le (out ++ cstr name)) by (rewrite length_app; lia). done.
    + rewrite (take_ge (out ++ cstr name)) by (rewrite length_app; lia).
      rewrite length_app. destruct (Z.leb_spec len (Z.of_nat (length out + length (cstr name)) + 1)).
      * rewrite take_app_le, take_ge by (rewrite length_app; lia). done.
      * rewrite IH by (rewrite !length_app; simpl; lia). by rewrite <- app_assoc.
Qed.

End Bytes.
