(* ===== verification/Memfs.v ===== *)
(** * The built-in read-only file system (src/kernel/fs.c)

    Seven program images under /bin.  The images themselves are generated
    (src/kernel/user_images.c; their bytes are in Images.v) and are an argument
    of the model; the length constant of each is the length of its array. *)

From S2P Require Import Prelude CString Bytes.
From stdpp Require Import options.
Import CString Bytes.

Module Memfs.

Record user_images := mk_images {
  user_image_hello : list Z;
  user_image_shell : list Z;
  user_image_init : list Z;
  user_image_echo : list Z;
  user_image_ls : list Z;
  user_image_cat : list Z;
  user_image_fuzz : list Z;
}.

(** [mf_path] is [None] while it is a null pointer. *)
Record memfs_file := mk_memfs_file {
  mf_path : option (list Z);
  mf_data : list Z;
  mf_size : Z;
}.

Record memfs := mk_memfs {
  memfs_files : list memfs_file;
  memfs_ready : bool;
}.

Definition memfs_boot : memfs := mk_memfs (replicate 7 (mk_memfs_file None [] 0)) false.

Section Ops.
Context (img : user_images).

Definition image (path : string) (data : list Z) : memfs_file :=
  mk_memfs_file (Some (chars path)) data (Z.of_nat (length data)).

Definition memfs_init (s : memfs) : memfs :=
  if memfs_ready s then s
  else mk_memfs
    [image "/bin/hello" (user_image_hello img); image "/bin/shell" (user_image_shell img);
     image "/bin/init" (user_image_init img); image "/bin/echo" (user_image_echo img);
     image "/bin/ls" (user_image_ls img); image "/bin/cat" (user_image_cat img);
     image "/bin/fuzz" (user_image_fuzz img)] true.

(** First index whose path equals the argument. *)
Fixpoint find_file (i : nat) (fs : list memfs_file) (path : list Z) : option nat :=
  match fs with
  | [] => None
  | f :: fs' =>
      match mf_path f with
      | Some p => if streq p path then Some i else find_file (S i) fs' path
      | None => find_file (S i) fs' path
      end
  end.

Definition memfs_lookup (s : memfs) (path : option (list Z)) : option nat * memfs :=
  match path with
  | None => (None, s)
  | Some p => let s := memfs_init s in (find_file 0 (memfs_files s) p, s)
  end.

(** The number of bytes and the bytes themselves. *)
Definition memfs_read (s : memfs) (file : option memfs_file) (offset : Z) (buf_null : bool) (len : Z)
    : Z * list Z * memfs :=
  match file with
  | None => (0, [], s)
  | Some f =>
      if buf_null || (len =? 0) then (0, [], s)
      else
        let s := memfs_init s in
        if mf_size f <=? offset then (0, [], s)
        else
          let remaining := w64 (mf_size f - offset) in
          let len := if remaining <? len then remaining else len in
          (len, slice (mf_data f) (Z.to_nat offset) (Z.to_nat len), s)
  end.

Definition memfs_list (s : memfs) (buf_null : bool) (len : Z) : list Z * memfs :=
  if buf_null || (len =? 0) then ([], s)
  else
    let s := memfs_init s in
    (put_lines len [] (omap mf_path (memfs_files s)), s).
End Ops.

(** ** Properties *)

Lemma find_file_Some fs path : ∀ i j,
  find_file i fs path = Some j →
  ∃ f p, fs !! (j - i)%nat = Some f ∧ (i ≤ j)%nat ∧ mf_path f = Some p ∧ cstr p = cstr path.
Proof.
  induction fs as [|f fs IH]; intros i j E; simpl in E; [done|].
  destruct (mf_path f) as [p|] eqn:Ep; [destruct (streq p path) eqn:Eq|].
  - injection E as <-. rewrite Nat.sub_diag. exists f, p. split_and!; auto. by apply streq_spec.
  - destruct (IH (S i) j E) as (g & q & Hg & ? & ? & ?).
    exists g, q. split_and!; auto; [|lia]. by replace (j - i)%nat with (S (j - S i))%nat by lia.
  - destruct (IH (S i) j E) as (g & q & Hg & ? & ? & ?).
    exists g, q. split_and!; auto; [|lia]. by replace (j - i)%nat with (S (j - S i))%nat by lia.
Qed.

Lemma memfs_read_slice img s f offset len :
  mf_size f = Z.of_nat (length (mf_data f)) → 0 ≤ offset → 0 < len → mf_size f < 2 ^ 64 →
  (memfs_read img s (Some f) offset false len).1.2 =
    slice (mf_data f) (Z.to_nat offset) (Z.to_nat len) ∧
  (memfs_read img s (Some f) offset false len).1.1 =
    Z.of_nat (length (slice (mf_data f) (Z.to_nat offset) (Z.to_nat len))).
Proof.
  intros Hs Ho Hl Hb. unfold memfs_read. cbn [orb]. rewrite (proj2 (Z.eqb_neq len 0)) by lia.
  rewrite length_slice. destruct (Z.leb_spec (mf_size f) offset) as [Hge|Hlt]; cbn [fst snd].
  - split; [|lia]. unfold slice. by rewrite drop_ge, take_nil by lia.
  - rewrite w64_small by lia. destruct (Z.ltb_spec (mf_size f - offset) len); (split; [|lia]); [|done].
    unfold slice. rewrite !take_ge by (rewrite length_drop; lia). done.
Qed.

(** The listing of /bin is the names of the seven programs, one per line. *)
Lemma memfs_list_lines img s len :
  memfs_ready s = false → 0 < len →
  (memfs_list img s false len).1 =
  take (Z.to_nat (len - 1)) (lines (chars <$> ["/bin/hello"; "/bin/shell"; "/bin/init"; "/bin/echo";
    "/bin/ls"; "/bin/cat"; "/bin/fuzz"]%string)).
Proof.
  intros Hr Hl. unfold memfs_list. cbn [orb]. rewrite (proj2 (Z.eqb_neq len 0)) by lia.
  cbn [fst]. rewrite put_lines_spec by (simpl; lia). unfold memfs_init. rewrite Hr. done.
Qed.

End Memfs.
