(* ===== verification/User.v ===== *)
(** * Starting a program (src/kernel/user.c)

    The initial stack of a program ([user_stack_setup] and the routines under
    it) and [user_prepare_image], which creates the address space, loads the
    image and builds the stack.  The stack is written through the frames the
    [user_space] records, not through the new page tables.  Log messages are
    left out. *)

From S2P Require Import Prelude Memory Pmm Mmu MmuTree MmuOps MmuMap MmuSpaces PageFault UserSpace Elf.
From S2P Require Import CString Bytes Memfs.
From stdpp Require Import options.
Import Pmm Mmu MmuTree MmuOps MmuSpaces UserSpace Elf CString Memfs.

Module User.

Definition USER_ARG_MAX : Z := 8.
Definition USER_ENV_MAX : Z := 8.

(** The loop of [stack_write]; [None] when the fuel runs out, which
    [write_chunks_spec] excludes. *)
Fixpoint write_chunks (fuel : nat) (space : user_space) (offset : Z) (src : list Z) (m : memory)
    : option (Z * memory) :=
  match src with
  | [] => Some (0, m)
  | _ =>
      match fuel with
      | O => None
      | S fuel' =>
          let remaining := Z.of_nat (length src) in
          let page_index := offset / USER_STACK_PAGE_SIZE in
          let page_off := offset mod USER_STACK_PAGE_SIZE in
          if stack_pages space <=? page_index then Some (-1, m)
          else
            let phys := nth (Z.to_nat page_index) (stack_phys space) 0 in
            let chunk := USER_STACK_PAGE_SIZE - page_off in
            let chunk := if remaining <? chunk then remaining else chunk in
            let m1 := wr_bytes m (phys + page_off) (take (Z.to_nat chunk) src) in
            write_chunks fuel' space (offset + chunk) (drop (Z.to_nat chunk) src) m1
      end
  end.

Definition stack_write (space : user_space) (addr : Z) (data : list Z) (m : memory)
    : option (Z * memory) :=
  let len := Z.of_nat (length data) in
  if len =? 0 then Some (-1, m)
  else if (addr <? stack_bottom space) || (stack_top space <? w64 (addr + len)) then Some (-1, m)
  else write_chunks (length data) space (addr - stack_bottom space) data m.

(** The value returned, the stack pointer and memory. *)
Definition push_bytes (space : user_space) (data : list Z) (st : Z * memory)
    : option (Z * (Z * memory)) :=
  let '(sp, m) := st in
  let len := Z.of_nat (length data) in
  if len =? 0 then Some (-1, (sp, m))
  else if sp <? w64 (stack_bottom space + len) then Some (-1, (sp, m))
  else
    let sp := sp - len in
    '(r, m1) ← stack_write space sp data m; Some (r, (sp, m1)).

(** The bytes of a [uint64_t]. *)
Fixpoint le_bytes (n : nat) (v : Z) : list Z :=
  match n with O => [] | S n' => v mod 256 :: le_bytes n' (v / 256) end.

Definition push_u64 (space : user_space) (value : Z) (st : Z * memory) : option (Z * (Z * memory)) :=
  push_bytes space (le_bytes 8 value) st.

(** The first [str_len(s) + 1] bytes at [s]; the terminator is pushed as well. *)
Definition push_string (space : user_space) (s : list Z) (st : Z * memory)
    : option (Z * (Z * memory)) :=
  push_bytes space (take (Z.to_nat (strlen s + 1)) (s ++ [0])) st.

(** [for (i = 0; i < argc; ++i)] with the addresses stored in [argv_addr]. *)
Fixpoint push_strings (space : user_space) (ss : list (list Z)) (st : Z * memory)
    : option (Z * list Z * (Z * memory)) :=
  match ss with
  | [] => Some (0, [], st)
  | s :: ss' =>
      '(r, st1) ← push_string space s st;
      if negb (r =? 0) then Some (-1, [], st1)
      else
        '(r', addrs, st2) ← push_strings space ss' st1;
        Some (r', st1.1 :: addrs, st2)
  end.

(** Pushes the words in the order of the list. *)
Fixpoint push_words (space : user_space) (ws : list Z) (st : Z * memory)
    : option (Z * (Z * memory)) :=
  match ws with
  | [] => Some (0, st)
  | w :: ws' =>
      '(r, st1) ← push_u64 space w st;
      if negb (r =? 0) then Some (-1, st1) else push_words space ws' st1
  end.

(** A null-terminated vector as the list of its strings, [None] for a null
    pointer: [argc] is the length cut at the maximum. *)
Definition count_vec (v : option (list (list Z))) (max : Z) : Z :=
  match v with None => 0 | Some l => Z.min (Z.of_nat (length l)) max end.

(** [argv && argv[argc]]. *)
Definition too_many (v : option (list (list Z))) (max : Z) : bool :=
  match v with None => false | Some l => max <? Z.of_nat (length l) end.

Definition strings (v : option (list (list Z))) : list (list Z) := default [] v.

(** The value returned, [*out_sp] and memory. *)
Definition user_stack_setup (space : user_space) (argv envp : option (list (list Z))) (m : memory)
    : option (Z * Z * memory) :=
  if stack_pages space =? 0 then Some (-1, 0, m)
  else if too_many argv USER_ARG_MAX then Some (-1, 0, m)
  else if too_many envp USER_ENV_MAX then Some (-1, 0, m)
  else
    let argc := count_vec argv USER_ARG_MAX in
    let sp := stack_top space in
    '(r, argv_addr, st1) ← push_strings space (strings argv) (sp, m);
    if negb (r =? 0) then Some (-1, 0, st1.2) else
    '(r, env_addr, st2) ← push_strings space (strings envp) st1;
    if negb (r =? 0) then Some (-1, 0, st2.2) else
    let sp := Z.land st2.1 (not64 0xF) in
    '(r, st3) ← push_u64 space 0 (sp, st2.2);
    if negb (r =? 0) then Some (-1, 0, st3.2) else
    '(r, st4) ← push_words space (reverse env_addr) st3;
    if negb (r =? 0) then Some (-1, 0, st4.2) else
    '(r, st5) ← push_u64 space 0 st4;
    if negb (r =? 0) then Some (-1, 0, st5.2) else
    '(r, st6) ← push_words space (reverse argv_addr) st5;
    if negb (r =? 0) then Some (-1, 0, st6.2) else
    '(r, st7) ← push_u64 space argc st6;
    if negb (r =? 0) then Some (-1, 0, st7.2) else
    Some (0, st7.1, st7.2).

(** ** The stack as an array *)

Record stack_ok (space : user_space) : Prop := {
  so_pages : 0 < stack_pages space ≤ USER_STACK_MAX_PAGES;
  so_bottom : 0 ≤ stack_bottom space;
  so_top : stack_top space = stack_bottom space + stack_pages space * 4096;
  so_small : stack_top space < 2 ^ 63;
  so_align : stack_top space mod 4096 = 0;
  so_apart : ∀ i j, 0 ≤ i < stack_pages space → 0 ≤ j < stack_pages space → i ≠ j →
    Pmm.apart (nth (Z.to_nat i) (stack_phys space) 0) 4096 (nth (Z.to_nat j) (stack_phys space) 0) 4096;
}.

Section Stack.
Context (space : user_space) (Hok : stack_ok space).

Definition frame_of (a : Z) : Z :=
  nth (Z.to_nat ((a - stack_bottom space) / 4096)) (stack_phys space) 0.
Definition slot (a : Z) : Z := frame_of a + (a - stack_bottom space) mod 4096.

Definition on_stack (a : Z) : Prop := stack_bottom space ≤ a < stack_top space.

(** Physical addresses outside the frames of the stack. *)
Definition off_stack (b : Z) : Prop :=
  ∀ i, 0 ≤ i < stack_pages space → let f := nth (Z.to_nat i) (stack_phys space) 0 in
  b < f ∨ f + 4096 ≤ b.

Lemma slot_inj a b : on_stack a → on_stack b → slot a = slot b → a = b.
Proof using Hok.
  intros Ha Hb. unfold on_stack in *. pose proof (so_top _ Hok). pose proof (so_bottom _ Hok).
  unfold slot, frame_of. set (i := (a - stack_bottom space) / 4096). set (j := (b - stack_bottom space) / 4096).
  destruct (decide (i = j)) as [E|Hne].
  - rewrite E. subst i j. dlia.
  - pose proof (so_apart _ Hok i j ltac:(subst i; dlia) ltac:(subst j; dlia) Hne) as [?|?]; dlia.
Qed.

Lemma off_stack_slot a b : on_stack a → off_stack b → b ≠ slot a.
Proof using Hok.
  intros Ha Hb. unfold on_stack in *. pose proof (so_top _ Hok). pose proof (so_bottom _ Hok).
  unfold slot, frame_of. specialize (Hb ((a - stack_bottom space) / 4096) ltac:(dlia)).
  cbv zeta in Hb. dlia.
Qed.

(** [data] is at [p]. *)
Definition at_ (m : memory) (p : Z) (data : list Z) : Prop :=
  ∀ (k : nat) x, data !! k = Some x → rd8 m (slot (p + Z.of_nat k)) = w8 x.

(** The bytes at [addr] replaced by [data], nothing else changed. *)
Record written (m m' : memory) (addr : Z) (data : list Z) : Prop := {
  wt_data : at_ m' addr data;
  wt_stack : ∀ a, on_stack a → a < addr ∨ addr + Z.of_nat (length data) ≤ a →
    rd8 m' (slot a) = rd8 m (slot a);
  wt_off : ∀ b, off_stack b → rd8 m' b = rd8 m b;
}.

Lemma at_app m p l1 l2 : at_ m p (l1 ++ l2) ↔ at_ m p l1 ∧ at_ m (p + Z.of_nat (length l1)) l2.
Proof using Type.
  unfold at_. split.
  - intros H. split; intros k x Hk.
    + apply H. by apply lookup_app_l_Some.
    + replace (p + _ + Z.of_nat k) with (p + Z.of_nat (length l1 + k)) by lia. apply H.
      rewrite lookup_app_r by lia. by replace (length l1 + k - length l1)%nat with k by lia.
  - intros [H1 H2] k x [Hk|[Hl Hk]]%lookup_app_Some; [by apply H1|].
    rewrite <- (H2 _ _ Hk). do 2 f_equal. lia.
Qed.

Lemma written_keeps m m' addr data p l :
  written m m' addr data → at_ m p l →
  stack_bottom space ≤ p → p + Z.of_nat (length l) ≤ stack_top space →
  addr + Z.of_nat (length data) ≤ p → at_ m' p l.
Proof using Type.
  intros W H Hp Hl Ha k x Hk. pose proof (lookup_lt_Some _ _ _ Hk).
  rewrite (wt_stack _ _ _ _ W); [by apply H|unfold on_stack; lia|lia].
Qed.

Lemma written_nil m addr : written m m addr [].
Proof using Type. split; [by intros ??|done|done]. Qed.

Lemma written_app m m1 m2 addr l1 l2 :
  stack_bottom space ≤ addr → addr + Z.of_nat (length l1) ≤ stack_top space →
  written m m1 addr l1 → written m1 m2 (addr + Z.of_nat (length l1)) l2 → written m m2 addr (l1 ++ l2).
Proof using Type.
  intros Hb Ht W1 W2. split.
  - apply at_app. split; [|apply W2]. intros k x Hk. pose proof (lookup_lt_Some _ _ _ Hk).
    rewrite (wt_stack _ _ _ _ W2); [by apply W1|unfold on_stack; lia|lia].
  - intros a Ha Hout. rewrite length_app in Hout.
    rewrite (wt_stack _ _ _ _ W2) by (done || lia). apply (wt_stack _ _ _ _ W1); [done|lia].
  - intros b Hb'. rewrite (wt_off _ _ _ _ W2) by done. by apply (wt_off _ _ _ _ W1).
Qed.

(** A write that stays in one page. *)
Lemma written_page m addr l :
  stack_bottom space ≤ addr → addr + Z.of_nat (length l) ≤ stack_top space →
  (addr - stack_bottom space) mod 4096 + Z.of_nat (length l) ≤ 4096 →
  written m (wr_bytes m (slot addr) l) addr l.
Proof using Hok.
  intros Hb Ht Hp. pose proof (so_top _ Hok) as Htop. pose proof (so_bottom _ Hok) as Hbot.
  assert (∀ a, addr ≤ a < addr + Z.of_nat (length l) → slot a = slot addr + (a - addr)) as Hslot.
  { intros a Ha. unfold slot, frame_of.
    replace ((a - stack_bottom space) / 4096) with ((addr - stack_bottom space) / 4096) by dlia. dlia. }
  assert (∀ b, (∀ a, addr ≤ a < addr + Z.of_nat (length l) → b ≠ slot a) →
    rd8 (wr_bytes m (slot addr) l) b = rd8 m b) as Hother.
  { intros b Hne. rewrite rd8_wr_bytes. destruct (l !! Z.to_nat (b - slot addr)) eqn:El; [|done].
    apply lookup_lt_Some in El. case_decide; [|done]. exfalso.
    apply (Hne (addr + (b - slot addr))); [lia|]. rewrite Hslot by lia. lia. }
  split.
  - intros k x Hk. pose proof (lookup_lt_Some _ _ _ Hk). rewrite (Hslot (addr + Z.of_nat k)) by lia. rewrite rd8_wr_bytes.
    replace (Z.to_nat (slot addr + (addr + Z.of_nat k - addr) - slot addr)) with k by lia.
    rewrite Hk, decide_True by lia. done.
  - intros a Ha Hout. apply Hother. intros a' Ha' E. unfold on_stack in *.
    apply slot_inj in E; unfold on_stack; lia.
  - intros b Hoff. apply Hother. intros a Ha. apply off_stack_slot; [unfold on_stack; lia|done].
Qed.

Lemma write_chunks_spec fuel : ∀ addr src m,
  (length src ≤ fuel)%nat → stack_bottom space ≤ addr → addr + Z.of_nat (length src) ≤ stack_top space →
  ∃ m', write_chunks fuel space (addr - stack_bottom space) src m = Some (0, m') ∧
    written m m' addr src.
Proof using Hok.
  pose proof (so_top _ Hok) as Htop. pose proof (so_bottom _ Hok) as Hbot.
  induction fuel as [|fuel IH]; intros addr src m Hf Hb Ht;
    destruct src as [|c src]; cbn [write_chunks].
  1, 3: exists m; split; [done|apply written_nil].
  { simpl in Hf. lia. }
  set (data := c :: src) in *. assert (0 < Z.of_nat (length data)) as Hpos by (subst data; simpl; lia).
  clearbody data. unfold USER_STACK_PAGE_SIZE.
  rewrite (proj2 (Z.leb_gt _ _)) by dlia.
  set (chunk := if _ <? _ then _ else _).
  assert (0 < chunk ≤ Z.of_nat (length data) ∧ chunk ≤ 4096 - (addr - stack_bottom space) mod 4096) as [Hc1 Hc2]
    by (subst chunk; case_if; dlia).
  clearbody chunk. cbv zeta. fold (frame_of addr). fold (slot addr).
  assert (length (take (Z.to_nat chunk) data) = Z.to_nat chunk) as Hlt by (rewrite length_take; lia).
  assert (length (drop (Z.to_nat chunk) data) = (length data - Z.to_nat chunk)%nat) as Hld
    by (by rewrite length_drop).
  pose proof (written_page m addr (take (Z.to_nat chunk) data) Hb ltac:(lia) ltac:(lia)) as W1.
  set (m1 := wr_bytes _ _ _) in *.
  destruct (IH (addr + chunk) (drop (Z.to_nat chunk) data) m1) as (m' & E & W2); [lia..|].
  replace (addr - stack_bottom space + chunk) with (addr + chunk - stack_bottom space) by lia.
  exists m'. split; [done|]. rewrite <- (take_drop (Z.to_nat chunk) data).
  apply (written_app m m1); [done|lia|done|]. rewrite Hlt.
  by replace (addr + Z.of_nat (Z.to_nat chunk)) with (addr + chunk) by lia.
Qed.

(** ** Pushing *)

Lemma push_bytes_spec data sp m :
  data ≠ [] → stack_bottom space ≤ sp ≤ stack_top space → Z.of_nat (length data) < 2 ^ 62 →
  let sp' := sp - Z.of_nat (length data) in
  if decide (stack_bottom space ≤ sp') then
    ∃ m', push_bytes space data (sp, m) = Some (0, (sp', m')) ∧ written m m' sp' data
  else push_bytes space data (sp, m) = Some (-1, (sp, m)).
Proof using Hok.
  intros Hne Hsp Hlen sp'. pose proof (so_bottom _ Hok). pose proof (so_small _ Hok).
  assert (0 < Z.of_nat (length data)) by (destruct data; simpl; [done|lia]).
  unfold push_bytes. rewrite (proj2 (Z.eqb_neq _ 0)), w64_small by lia. case_decide as Hfit.
  - rewrite (proj2 (Z.ltb_ge _ _)) by lia. fold sp'. unfold stack_write.
    rewrite (proj2 (Z.eqb_neq _ 0)), (proj2 (Z.ltb_ge _ _)), w64_small, (proj2 (Z.ltb_ge _ _)) by lia.
    cbn [orb]. destruct (write_chunks_spec (length data) sp' data m) as (m' & -> & W); [lia..|].
    by exists m'.
  - by rewrite (proj2 (Z.ltb_lt _ _)) by lia.
Qed.

(** What is above [sp] is left alone. *)
Record below (m m' : memory) (sp : Z) : Prop := {
  bl_stack : ∀ a, on_stack a → sp ≤ a → rd8 m' (slot a) = rd8 m (slot a);
  bl_off : ∀ b, off_stack b → rd8 m' b = rd8 m b;
}.

Lemma below_refl m sp : below m m sp.
Proof using Type. by split. Qed.

Lemma below_trans m1 m2 m3 sp sp' : sp' ≤ sp → below m1 m2 sp → below m2 m3 sp' → below m1 m3 sp.
Proof using Type.
  intros Hle [H1 H2] [H3 H4]. split; intros; [rewrite H3, H1 by (done || lia)|rewrite H4, H2 by done]; done.
Qed.

Lemma written_below m m' sp data : written m m' (sp - Z.of_nat (length data)) data → below m m' sp.
Proof using Type. intros W. split; [intros; apply W; [done|lia]|apply W]. Qed.

Lemma at_below m m' sp p l :
  below m m' sp → at_ m p l → sp ≤ p → stack_bottom space ≤ p →
  p + Z.of_nat (length l) ≤ stack_top space → at_ m' p l.
Proof using Type.
  intros B H Hsp Hb Ht k x Hk. pose proof (lookup_lt_Some _ _ _ Hk).
  rewrite (bl_stack _ _ _ B); [by apply H|unfold on_stack; lia|lia].
Qed.

Definition zstr (s : list Z) : list Z := cstr s ++ [0].

Lemma zstr_take s : take (Z.to_nat (strlen s + 1)) (s ++ [0]) = zstr s.
Proof using Type.
  rewrite strlen_spec. replace (Z.to_nat _) with (S (length (cstr s))) by lia. unfold zstr.
  induction s as [|c s IH]; [done|]. cbn [cstr]. destruct (Z.eqb_spec c 0) as [->|]; [done|].
  cbn [length app]. rewrite firstn_cons. f_equal. exact IH.
Qed.

Lemma length_zstr s : Z.of_nat (length (zstr s)) = strlen s + 1.
Proof using Type. unfold zstr. rewrite length_app, strlen_spec. simpl. lia. Qed.

Definition str_size (ss : list (list Z)) : Z := Z.of_nat (length (concat (zstr <$> ss))).

Lemma str_size_cons s ss : str_size (s :: ss) = strlen s + 1 + str_size ss.
Proof using Type. unfold str_size. cbn [fmap list_fmap concat]. rewrite length_app, Nat2Z.inj_add, length_zstr. done. Qed.

Lemma strlen_nonneg s : 0 ≤ strlen s.
Proof using Type. rewrite strlen_spec. lia. Qed.

(** [p] points to the string [s], between [lo] and [hi]. *)
Definition string_at (m : memory) (lo hi p : Z) (s : list Z) : Prop :=
  at_ m p (zstr s) ∧ lo ≤ p ∧ p + strlen s + 1 ≤ hi.

Lemma strings_below m m' lo hi sp ps ss :
  below m m' sp → sp ≤ lo → stack_bottom space ≤ lo → hi ≤ stack_top space →
  Forall2 (string_at m lo hi) ps ss → Forall2 (string_at m' lo hi) ps ss.
Proof using Type.
  intros B H1 H2 H3 F. eapply Forall2_impl; [exact F|]. intros p s (Ha & Hl & Hh). split_and!; auto.
  eapply at_below; [done|done|lia|lia|]. rewrite length_zstr. lia.
Qed.

Lemma push_strings_spec ss : ∀ sp m,
  stack_bottom space ≤ sp ≤ stack_top space → str_size ss < 2 ^ 62 →
  let sp' := sp - str_size ss in
  if decide (stack_bottom space ≤ sp') then
    ∃ addrs m', push_strings space ss (sp, m) = Some (0, addrs, (sp', m')) ∧ below m m' sp ∧
      Forall2 (string_at m' sp' sp) addrs ss
  else ∃ addrs st, push_strings space ss (sp, m) = Some (-1, addrs, st) ∧ below m st.2 sp.
Proof using Hok.
  induction ss as [|s ss IH]; intros sp m Hsp Hsz sp'.
  { subst sp'. unfold str_size in *. simpl in *. rewrite decide_True by lia. exists [], m.
    split; [do 2 f_equal; f_equal; lia|]. split; [apply below_refl|constructor]. }
  assert (sp' = sp - (strlen s + 1 + str_size ss)) as Esp by (subst sp'; by rewrite str_size_cons).
  clearbody sp'. rewrite str_size_cons in Hsz. pose proof (strlen_nonneg s). pose proof (length_zstr s) as Hl.
  assert (0 ≤ str_size ss) by (unfold str_size; lia).
  cbn [push_strings]. unfold push_string. rewrite zstr_take.
  pose proof (push_bytes_spec (zstr s) sp m ltac:(intros E; rewrite E in Hl; simpl in Hl; lia) Hsp ltac:(lia)) as Hp.
  cbv zeta in Hp. rewrite Hl in Hp.
  destruct (decide (stack_bottom space ≤ sp - (strlen s + 1))) as [Hd|Hd].
  2:{ rewrite Hp. cbn [mbind option_bind]. rewrite decide_False by lia.
      exists [], (sp, m). split; [done|apply below_refl]. }
  destruct Hp as (m1 & -> & W). cbn [mbind option_bind]. cbn [Z.eqb negb fst].
  rewrite <- Hl in W. pose proof (written_below _ _ _ _ W) as B1. apply wt_data in W. rewrite Hl in W.
  specialize (IH (sp - (strlen s + 1)) m1 ltac:(lia) ltac:(lia)). cbv zeta in IH.
  replace (sp - (strlen s + 1) - str_size ss) with sp' in IH by lia. destruct (decide (stack_bottom space ≤ sp')) as [Hd'|Hd'].
  - destruct IH as (addrs & m' & -> & B2 & F). cbn [mbind option_bind].
    eexists _, m'. split; [done|]. split; [by eapply below_trans; [|done|done]; lia|].
    constructor.
    + split_and!; [|lia|lia]. eapply at_below; [done|done|lia|lia|]. rewrite Hl. lia.
    + eapply Forall2_impl; [done|]. intros p x (? & ? & ?). split_and!; auto; lia.
  - destruct IH as (addrs & st & -> & B2). cbn [mbind option_bind].
    eexists _, st. split; [done|]. by eapply below_trans; [|done|done]; lia.
Qed.

Definition words (ws : list Z) : list Z := concat (le_bytes 8 <$> ws).

Lemma length_le_bytes n : ∀ v, length (le_bytes n v) = n.
Proof using Type. induction n as [|n IH]; intros v; simpl; [done|]. by rewrite IH. Qed.

Lemma words_app ws1 ws2 : words (ws1 ++ ws2) = words ws1 ++ words ws2.
Proof using Type. unfold words. by rewrite fmap_app, concat_app. Qed.

Lemma length_words ws : Z.of_nat (length (words ws)) = 8 * Z.of_nat (length ws).
Proof using Type.
  induction ws as [|w ws IH]; [done|]. change (w :: ws) with ([w] ++ ws).
  rewrite words_app, !length_app, Nat2Z.inj_add, IH. simpl. lia.
Qed.

Lemma push_words_spec ws : ∀ sp m,
  stack_bottom space ≤ sp ≤ stack_top space →
  let sp' := sp - 8 * Z.of_nat (length ws) in
  if decide (stack_bottom space ≤ sp') then
    ∃ m', push_words space ws (sp, m) = Some (0, (sp', m')) ∧ below m m' sp ∧
      at_ m' sp' (words (reverse ws))
  else ∃ st, push_words space ws (sp, m) = Some (-1, st) ∧ below m st.2 sp.
Proof using Hok.
  induction ws as [|w ws IH]; intros sp m Hsp sp'.
  { subst sp'. simpl. rewrite decide_True by lia. exists m.
    split; [do 2 f_equal; f_equal; lia|]. split; [apply below_refl|by intros ??]. }
  assert (sp' = sp - 8 - 8 * Z.of_nat (length ws)) as Esp by (subst sp'; simpl length; lia).
  clearbody sp'. cbn [push_words]. unfold push_u64.
  pose proof (push_bytes_spec (le_bytes 8 w) sp m ltac:(done) Hsp ltac:(by rewrite length_le_bytes)) as Hp.
  cbv zeta in Hp. rewrite length_le_bytes in Hp. change (Z.of_nat 8) with 8 in Hp.
  destruct (decide (stack_bottom space ≤ sp - 8)) as [Hd|Hd].
  2:{ rewrite Hp. cbn [mbind option_bind]. rewrite decide_False by lia.
      exists (sp, m). split; [done|apply below_refl]. }
  destruct Hp as (m1 & -> & W). cbn [mbind option_bind]. cbn [Z.eqb negb].
  assert (below m m1 sp) as B1
    by (apply (written_below _ _ _ (le_bytes 8 w)); by rewrite length_le_bytes).
  apply wt_data in W. specialize (IH (sp - 8) m1 ltac:(lia)). cbv zeta in IH.
  replace (sp - 8 - 8 * Z.of_nat (length ws)) with sp' in IH by lia. destruct (decide (stack_bottom space ≤ sp')) as [Hd'|Hd'].
  - destruct IH as (m' & -> & B2 & A). exists m'. split; [done|].
    split; [by eapply below_trans; [|done|done]; lia|].
    rewrite reverse_cons, words_app. apply at_app. split; [done|].
    rewrite length_words, length_reverse. replace (sp' + _) with (sp - 8) by lia.
    eapply at_below; [done| |lia|lia|].
    + unfold words. cbn [fmap list_fmap concat]. by rewrite app_nil_r.
    + rewrite length_words. simpl. lia.
  - destruct IH as (st & -> & B2). exists st. split; [done|]. by eapply below_trans; [|done|done]; lia.
Qed.

Lemma push_words_app ws1 ws2 : ∀ st,
  push_words space (ws1 ++ ws2) st =
  '(r, st1) ← push_words space ws1 st;
  if negb (r =? 0) then Some (-1, st1) else push_words space ws2 st1.
Proof using Type.
  induction ws1 as [|w ws1 IH]; intros st; [done|]. cbn [push_words app].
  destruct (push_u64 space w st) as [[r st1]|]; [|done]. cbn [mbind option_bind].
  destruct (negb (r =? 0)); [done|apply IH].
Qed.

(** The words of the initial frame, from the highest address down. *)
Definition frame_words (argc : Z) (argv_addr env_addr : list Z) : list Z :=
  [0] ++ reverse env_addr ++ [0] ++ reverse argv_addr ++ [argc].

Lemma push_frame argc argv_addr env_addr st :
  ('(r, st3) ← push_u64 space 0 st;
   if negb (r =? 0) then Some (-1, 0, st3.2) else
   '(r, st4) ← push_words space (reverse env_addr) st3;
   if negb (r =? 0) then Some (-1, 0, st4.2) else
   '(r, st5) ← push_u64 space 0 st4;
   if negb (r =? 0) then Some (-1, 0, st5.2) else
   '(r, st6) ← push_words space (reverse argv_addr) st5;
   if negb (r =? 0) then Some (-1, 0, st6.2) else
   '(r, st7) ← push_u64 space argc st6;
   if negb (r =? 0) then Some (-1, 0, st7.2) else Some (0, st7.1, st7.2)) =
  '(r, st7) ← push_words space (frame_words argc argv_addr env_addr) st;
  if negb (r =? 0) then Some (-1, 0, st7.2) else Some (0, st7.1, st7.2).
Proof using Type.
  unfold frame_words.
  repeat match goal with
  | |- context [push_words space (_ ++ _) _] => rewrite push_words_app
  | |- context [push_words space [_] _] => cbn [push_words]
  | |- context [push_u64 space ?w ?s] => destruct (push_u64 space w s) as [[? ?]|]; cbn [mbind option_bind]; [|done]
  | |- context [push_words space ?w ?s] => destruct (push_words space w s) as [[? ?]|]; cbn [mbind option_bind]; [|done]
  | |- context [negb (?r =? 0)] => destruct (Z.eqb_spec r 0); subst; cbn [negb mbind option_bind Z.eqb]; try done
  end.
Qed.

Lemma land_not15 x : 0 ≤ x < 2 ^ 64 → Z.land x (not64 0xF) = x - x mod 16.
Proof using Type. intros Hx. change 0xF with (2 ^ 4 - 1). rewrite land_not64 by lia. done. Qed.

Lemma setup_core argv envp m :
  str_size (strings argv) + str_size (strings envp) < 2 ^ 62 →
  too_many argv USER_ARG_MAX = false → too_many envp USER_ENV_MAX = false →
  let sp1 := stack_top space - str_size (strings argv) - str_size (strings envp) in
  let argc := Z.of_nat (length (strings argv)) in
  let sp := sp1 - sp1 mod 16 - 8 * (argc + Z.of_nat (length (strings envp)) + 3) in
  if decide (stack_bottom space ≤ sp) then
    ∃ m' argv_addr env_addr,
      user_stack_setup space argv envp m = Some (0, sp, m') ∧ below m m' (stack_top space) ∧
      Forall2 (string_at m' sp1 (stack_top space)) argv_addr (strings argv) ∧
      Forall2 (string_at m' sp1 (stack_top space)) env_addr (strings envp) ∧
      at_ m' sp (words ([argc] ++ argv_addr ++ [0] ++ env_addr ++ [0]))
  else ∃ m', user_stack_setup space argv envp m = Some (-1, 0, m') ∧ below m m' (stack_top space).
Proof using Hok.
  intros Hsz Ha He sp1 argc sp. pose proof (so_pages _ Hok) as Hpg. pose proof (so_top _ Hok) as Htop.
  pose proof (so_bottom _ Hok) as Hbot. pose proof (so_small _ Hok) as Hsm. pose proof (so_align _ Hok) as Hal.
  assert (count_vec argv USER_ARG_MAX = argc) as Hargc.
  { unfold count_vec, too_many, argc, strings in *. destruct argv as [l|]; [|done].
    unfold USER_ARG_MAX in *. simpl. bsimp. lia. }
  unfold user_stack_setup. rewrite (proj2 (Z.eqb_neq _ 0)), Ha, He, Hargc by lia.
  assert (0 ≤ str_size (strings argv) ∧ 0 ≤ str_size (strings envp)) as [Hz1 Hz2] by (unfold str_size; lia).
  pose proof (push_strings_spec (strings argv) (stack_top space) m ltac:(lia) ltac:(lia)) as H1.
  cbv zeta in H1. set (spa := stack_top space - str_size (strings argv)) in *.
  destruct (decide (stack_bottom space ≤ spa)) as [D1|D1].
  2:{ rewrite decide_False by (subst sp sp1 spa; dlia). destruct H1 as (ad & st & -> & B). by exists st.2. }
  destruct H1 as (argv_addr & m1 & -> & B1 & F1). cbn [mbind option_bind Z.eqb negb].
  pose proof (push_strings_spec (strings envp) spa m1 ltac:(lia) ltac:(lia)) as H2.
  cbv zeta in H2. change (spa - str_size (strings envp)) with sp1 in H2.
  destruct (decide (stack_bottom space ≤ sp1)) as [D2|D2].
  2:{ rewrite decide_False by (subst sp argc; dlia). destruct H2 as (ad & st & -> & B). exists st.2.
      split; [done|]. by eapply below_trans; [|done|done]; lia. }
  destruct H2 as (env_addr & m2 & -> & B2 & F2). cbn [mbind option_bind Z.eqb negb fst snd].
  rewrite land_not15 by (subst sp1; lia). rewrite push_frame. set (spr := sp1 - sp1 mod 16) in *.
  assert (length (frame_words argc argv_addr env_addr) =
    (length (strings argv) + length (strings envp) + 3)%nat) as Hfw.
  { unfold frame_words. rewrite !length_app, !length_reverse, (Forall2_length _ _ _ F1), (Forall2_length _ _ _ F2).
    simpl. lia. }
  assert (below m m2 (stack_top space)) as B12 by (by eapply below_trans; [|done|done]; lia).
  assert (stack_bottom space ≤ spr ≤ sp1) as Hspr by (subst spr; split; [dlia|dlia]).
  assert (sp1 ≤ spa) by (subst sp1; lia).
  pose proof (push_words_spec (frame_words argc argv_addr env_addr) spr m2 ltac:(lia)) as H3.
  cbv zeta in H3. rewrite Hfw in H3.
  replace (spr - 8 * Z.of_nat (length (strings argv) + length (strings envp) + 3)) with sp in H3
    by (subst sp argc; lia).
  clearbody sp. destruct (decide (stack_bottom space ≤ sp)) as [D3|D3].
  - destruct H3 as (m3 & -> & B3 & A). cbn [mbind option_bind Z.eqb negb fst snd].
    exists m3, argv_addr, env_addr. split; [done|]. split; [by eapply below_trans; [|done|done]; lia|].
    split; [|split].
    + apply (strings_below m2 m3 _ _ spr); [done|lia|lia|lia|].
      apply (strings_below m1 m2 _ _ spa) in F1; [|done|lia|lia|lia].
      eapply Forall2_impl; [exact F1|]. intros p s (? & ? & ?). split_and!; auto; lia.
    + apply (strings_below m2 m3 _ _ spr); [done|lia|lia|lia|].
      eapply Forall2_impl; [exact F2|]. intros p s (? & ? & ?). split_and!; auto; lia.
    + unfold frame_words in A. rewrite !reverse_app, !reverse_involutive, <- !app_assoc in A. exact A.
  - destruct H3 as (st & -> & B3). exists st.2. split; [done|]. by eapply below_trans; [|done|done]; lia.
Qed.
End Stack.

(** [user_stack_setup] builds the initial stack of a program.  With room
    for them it stores the argument and environment strings at the top, and
    below them, from the returned stack pointer up, the number of arguments,
    pointers to the argument strings, a null pointer, pointers to the
    environment strings and a null pointer; it writes nothing outside the
    frames of the stack.  Without room it returns an error.  The stack pointer
    is a multiple of 16 only when the number of strings is odd. *)
Theorem user_stack_setup_spec space argv envp m :
  stack_ok space → str_size (strings argv) + str_size (strings envp) < 2 ^ 62 →
  too_many argv USER_ARG_MAX = false → too_many envp USER_ENV_MAX = false →
  let argc := Z.of_nat (length (strings argv)) in
  let envc := Z.of_nat (length (strings envp)) in
  let sp1 := stack_top space - str_size (strings argv) - str_size (strings envp) in
  let sp := sp1 - sp1 mod 16 - 8 * (argc + envc + 3) in
  (if decide (stack_bottom space ≤ sp) then
     ∃ m' argv_addr env_addr,
       user_stack_setup space argv envp m = Some (0, sp, m') ∧
       (∀ b, off_stack space b → rd8 m' b = rd8 m b) ∧
       Forall2 (string_at space m' sp1 (stack_top space)) argv_addr (strings argv) ∧
       Forall2 (string_at space m' sp1 (stack_top space)) env_addr (strings envp) ∧
       at_ space m' sp (words ([argc] ++ argv_addr ++ [0] ++ env_addr ++ [0]))
   else ∃ m', user_stack_setup space argv envp m = Some (-1, 0, m') ∧
     ∀ b, off_stack space b → rd8 m' b = rd8 m b) ∧
  (sp mod 16 = 0 ↔ (argc + envc) mod 2 = 1).
Proof.
  intros Hok Hsz Ha He argc envc sp1 sp. pose proof (setup_core space Hok argv envp m Hsz Ha He) as H.
  cbv zeta in H. fold argc envc sp1 sp in H. split; [|subst sp; dlia].
  destruct (decide (stack_bottom space ≤ sp)).
  - destruct H as (m' & aa & ea & E & B & F1 & F2 & A). exists m', aa, ea.
    split_and!; auto. apply B.
  - destruct H as (m' & E & B). exists m'. split; [done|apply B].
Qed.

(** ** Loading a program *)

(** No page of the kernel's half is a page below the stack. *)
Lemma upper_vpn v w : 256 ≤ pml4_index v → w < USER_STACK_TOP → vpn v ≠ w / 4096.
Proof.
  intros Hv Hw. unfold USER_STACK_TOP, PageFault.USER_STACK_TOP in Hw. rewrite vpn_indices.
  pose proof (pdpt_index_range v). pose proof (pd_index_range v). pose proof (pt_index_range v). dlia.
Qed.

Section Prepare.
Context (img : user_images) (pml4_table : Z).
(** The bytes of the kernel around an image. *)
Context (outside : Z → Z).

(** [image->data] as the loader reads it. *)
Definition image_src (f : memfs_file) (k : Z) : Z :=
  if k <? mf_size f then nth (Z.to_nat k) (mf_data f) 0 else outside k.

(** The value returned, [*space], [*out_sp] and the state; [None] when the
    fuel of [stack_write] runs out. *)
Definition user_prepare_image (path : option (list Z)) (argv envp : option (list (list Z)))
    (space : user_space) (out_sp : Z) (fs : memfs) (s : pmm)
    : result (option (Z * user_space * Z * memfs * pmm)) :=
  match path with
  | None => Ret (Some (-1, space, out_sp, fs, s))
  | Some _ =>
      '(r, space, s1) ← user_space_init pml4_table s space;
      if negb (r =? 0) then Ret (Some (-1, space, out_sp, fs, s1)) else
      let '(idx, fs) := memfs_lookup img fs path in
      match idx ≫= λ i, memfs_files fs !! i with
      | None => Ret (Some (-1, space, out_sp, fs, s1))
      | Some image =>
          '(r, space, s2) ← elf_load_user (Some (image_src image)) (mf_size image) space s1;
          if negb (r =? 0) then Ret (Some (-1, space, out_sp, fs, s2)) else
          '(r, space, s3) ← user_space_map_stack space 1 s2;
          if negb (r =? 0) then Ret (Some (-1, space, out_sp, fs, s3)) else
          match user_stack_setup space argv envp (mem s3) with
          | None => Ret None
          | Some (r, sp, m) =>
              if negb (r =? 0) then Ret (Some (-1, space, out_sp, fs, with_mem s3 m))
              else Ret (Some (0, space, sp, fs, with_mem s3 m))
          end
      end
  end.

(** ** What the program sees *)

(** A new address space has the kernel's half and nothing else. *)
Lemma create_uspace s root s' :
  wf s → phys_bound s → tree_ok s pml4_table → mmu_create_user_pml4 pml4_table s = Ret (root, s') →
  uspace s' root ∧ ∀ v, translate (mem s') root v =
    if decide (256 ≤ pml4_index v) then translate (mem s) pml4_table v else None.
Proof using Type.
  intros W B T H. destruct (create_effect _ _ _ _ W B T H) as (W' & Hr & Hf & Htab & Hne & He & Hsame).
  destruct (tree_preserved s s' pml4_table T Hr Hf Hsame) as (T' & Hp & Ht).
  assert (∀ j, 0 ≤ j < 512 → entry_at (mem s') pml4_table j = entry_at (mem s) pml4_table j) as Hk
    by (intros; by apply (Hsame [] pml4_table _ path_ok_nil)).
  pose proof (created_tree pml4_table root s s' T T' Htab Hp Hne He Hk) as Tr.
  split.
  - split; [done|by intros r; rewrite Hr; apply B|done|].
    intros v Hv t Hpt.
    rewrite (created_paths pml4_table root s s' Hp He Hk), Hv in Hpt by apply path_ok_v2. done.
  - intros v. by apply (created_translate pml4_table root s s').
Qed.

(** [data] at the user address [p]. *)
Definition user_at (s : pmm) (root p : Z) (data : list Z) : Prop :=
  ∀ (k : nat) x, data !! k = Some x → let a := p + Z.of_nat k in
  ∃ f fl, hw_translate (mem s) root a = Some (f, fl) ∧ rd8 (mem s) (f + a mod 4096) = w8 x.

(** The image [src] with its arguments is ready to run in the address space
    of [space], with the stack pointer [sp]. *)
Record ready (s : pmm) (space : user_space) (sp : Z) (src : Z → Z) (argv envp : list (list Z)) : Prop := {
  rd_space : uspace s (pml4_phys space);
  rd_entry : entry space = e_entry (ehdr_at src);
  rd_segments : ∀ i a, 0 ≤ i < e_phnum (ehdr_at src) → seg_page (phdr src i) a →
    ∃ f, hw_translate (mem s) (pml4_phys space) a = Some (f, leaf_flags (phdr src i)) ∧
      rd8 (mem s) (f + a mod 4096) = seg_byte src (phdr src i) a;
  rd_stack : ∀ a, USER_STACK_TOP - 4096 ≤ a < USER_STACK_TOP →
    ∃ f, hw_translate (mem s) (pml4_phys space) a = Some (f, STACK_LEAF);
  rd_args : ∃ argv_addr env_addr,
    Forall2 (λ p x, user_at s (pml4_phys space) p (zstr x)) argv_addr argv ∧
    Forall2 (λ p x, user_at s (pml4_phys space) p (zstr x)) env_addr envp ∧
    user_at s (pml4_phys space) sp
      (words ([Z.of_nat (length argv)] ++ argv_addr ++ [0] ++ env_addr ++ [0]));
}.

Lemma one_page_ok space :
  stack_top space = USER_STACK_TOP → stack_bottom space = USER_STACK_TOP - 1 * 4096 →
  stack_pages space = 1 → stack_ok space.
Proof using Type.
  intros Htop Hbot Hpg. split; rewrite ?Hpg, ?Htop, ?Hbot;
    unfold USER_STACK_TOP, PageFault.USER_STACK_TOP, USER_STACK_MAX_PAGES,
      PageFault.USER_STACK_MAX_PAGES; try done; lia.
Qed.

Section Ready.
Context (s1 s2 s3 : pmm) (sp1 sp2 : user_space) (src : Z → Z).
Let root := pml4_phys sp1.
Let bottom := USER_STACK_TOP - 1 * 4096.
Context (L : loaded src root s1 s2 (e_phnum (ehdr_at src))).
Context (M : stack_mapped s2 sp1 bottom 1 (sp2, s3)).
Context (Htop : stack_top sp2 = USER_STACK_TOP) (Hbot : stack_bottom sp2 = bottom) (Hpg : stack_pages sp2 = 1).
Context (m' : memory) (Hoff : ∀ b, off_stack sp2 b → rd8 m' b = rd8 (mem s3) b).
Let s' := with_mem s3 m'.
Let f := stack_frame sp2 0.

Lemma stack_page_fact :
  translate (mem s3) root bottom = Some (f, STACK_LEAF) ∧ user_path (mem s3) root bottom ∧
  data_frame s3 root f ∧ free_frame s2 f.
Proof using All.
  pose proof (sm_frame _ _ _ _ _ M 0 ltac:(lia)) as H. cbn [fst snd] in H.
  by replace (bottom + 0 * 4096) with bottom in H by lia.
Qed.

Lemma final_space :
  uspace s' root ∧ (∀ w, translate (mem s') root w = translate (mem s3) root w) ∧
  (∀ b, b < f ∨ f + 4096 ≤ b → rd8 (mem s') b = rd8 (mem s3) b).
Proof using All.
  destruct stack_page_fact as (_ & _ & Hd & _).
  assert (∀ b, b < f ∨ f + 4096 ≤ b → rd8 m' b = rd8 (mem s3) b) as Hb.
  { intros b Hb. apply Hoff. intros i Hi. rewrite Hpg in Hi. by replace i with 0 by lia. }
  destruct (data_write s3 root (eq f) m' (ex_ok _ _ _ _ (sm_extends _ _ _ _ _ M))) as (U & _ & _ & Ht & _).
  { by intros ? <-. }
  { intros b Hb'. by apply Hb, Hb'. }
  done.
Qed.

(** The segments survive the building of the stack. *)
Lemma final_segment i a :
  0 ≤ i < e_phnum (ehdr_at src) → seg_page (phdr src i) a →
  ∃ g, hw_translate (mem s') root a = Some (g, leaf_flags (phdr src i)) ∧
    rd8 (mem s') (g + a mod 4096) = seg_byte src (phdr src i) a.
Proof using All.
  intros Hi Ha. destruct final_space as (U' & Ht' & Hb'). destruct stack_page_fact as (_ & _ & Hd & Hff).
  pose proof (ld_range _ _ _ _ _ L i a Hi Ha) as Har. destruct (phdr_ranges src i) as (R & _).
  assert (0 ≤ a) by (unfold USER_BASE in Har; lia).
  set (v := a / 4096 * 4096). assert (0 ≤ v < USER_STACK_TOP ∧ v mod 4096 = 0) as [Hvr Hva] by (subst v; dlia).
  pose proof (ld_held _ _ _ _ _ L i Hi v Hva (seg_page_base _ _ R Ha)) as Hh.
  pose proof (sm_extends _ _ _ _ _ M) as E. cbn [snd] in E. change (pml4_phys sp1) with root in E. destruct (user_pages v Hvr) as [_ Hvpn].
  assert (v ≠ bottom) as Hvb.
  { intros Ev. refine (sm_new _ _ _ _ _ M 0 _ _ ltac:(lia) _).
    replace (bottom + 0 * 4096) with v by lia. exact Hh. }
  pose proof Hh as (g0 & Ht0 & (Hg0 & Hnf & _) & _ & _).
  apply (holds_extends s2 s3 root _ v _ _ E) in Hh.
  2:{ intros (w & Hw & Ew). rewrite Hvpn in Ew. apply Hvb. unfold bottom, USER_STACK_TOP, PageFault.USER_STACK_TOP in *. dlia. }
  destruct Hh as (g & Ht & _ & _ & Hb). exists g.
  assert (g = g0) as ->.
  { rewrite (ex_other _ _ _ _ E), Ht0 in Ht; [by injection Ht|].
    intros (w & Hw & Ew). rewrite Hvpn in Ew. apply Hvb. unfold bottom, USER_STACK_TOP, PageFault.USER_STACK_TOP in *. dlia. }
  split.
  - rewrite (hw_translate_eq _ _ _ (us_tree _ _ U')), Ht', (vpn_translate _ _ a v); [done|].
    rewrite Hvpn, (proj2 (user_pages a ltac:(lia))). subst v. dlia.
  - assert (g0 ≠ f) by (intros ->; done). destruct Hd as (Hfa & _).
    rewrite Hb' by dlia. rewrite Hb by dlia. f_equal. subst v. dlia.
Qed.

(** User code sees the stack through its page. *)
Lemma final_stack a :
  bottom ≤ a < USER_STACK_TOP →
  hw_translate (mem s') root a = Some (f, STACK_LEAF) ∧ slot sp2 a = f + a mod 4096.
Proof using All.
  intros Ha. destruct final_space as (U' & Ht' & _). destruct stack_page_fact as (Ht & _).
  assert (0 ≤ bottom ∧ bottom mod 4096 = 0 ∧ bottom + 4096 = USER_STACK_TOP) as (H1 & H2 & H3)
    by (unfold bottom, USER_STACK_TOP, PageFault.USER_STACK_TOP; dlia).
  split.
  - rewrite (hw_translate_eq _ _ _ (us_tree _ _ U')), Ht', (vpn_translate _ _ a bottom); [done|].
    rewrite (proj2 (user_pages a ltac:(lia))), (proj2 (user_pages bottom ltac:(lia))). dlia.
  - unfold slot, frame_of. rewrite Hbot. replace ((a - bottom) / 4096) with 0 by dlia.
    change (nth (Z.to_nat 0) (stack_phys sp2) 0) with f. dlia.
Qed.

Lemma final_at p data :
  bottom ≤ p → p + Z.of_nat (length data) ≤ USER_STACK_TOP →
  at_ sp2 m' p data → user_at s' root p data.
Proof using All.
  intros H1 H2 A k x Hk. pose proof (lookup_lt_Some _ _ _ Hk).
  destruct (final_stack (p + Z.of_nat k) ltac:(lia)) as [Ht Hs]. exists f, STACK_LEAF.
  split; [done|]. rewrite <- Hs. by apply A.
Qed.

Lemma final_strings lo ps ss :
  bottom ≤ lo → Forall2 (string_at sp2 m' lo (stack_top sp2)) ps ss →
  Forall2 (λ p x, user_at s' root p (zstr x)) ps ss.
Proof using All.
  intros Hlo F. eapply Forall2_impl; [exact F|]. intros p x (A & H1 & H2).
  apply final_at; [lia| |done]. rewrite length_zstr. lia.
Qed.
End Ready.

(** The arguments fit the memory of the machine. *)
Definition small_args (argv envp : option (list (list Z))) : Prop :=
  str_size (strings argv) + str_size (strings envp) < 2 ^ 62.

(** The stack pointer the arguments lead to. *)
Definition args_sp (argv envp : option (list (list Z))) : Z :=
  let sp1 := USER_STACK_TOP - str_size (strings argv) - str_size (strings envp) in
  sp1 - sp1 mod 16 - 8 * (Z.of_nat (length (strings argv)) + Z.of_nat (length (strings envp)) + 3).

(** A program that can be started: its image is valid and stays below the
    stack, and its arguments fit one page. *)
Record launchable (f : memfs_file) (argv envp : option (list (list Z))) : Prop := {
  la_image : image_ok (image_src f) (mf_size f);
  la_stack : ∀ i v, 0 ≤ i < e_phnum (ehdr_at (image_src f)) → seg_page (phdr (image_src f) i) v →
    v < USER_STACK_TOP - 4096;
  la_argc : too_many argv USER_ARG_MAX = false;
  la_envc : too_many envp USER_ENV_MAX = false;
  la_fits : USER_STACK_TOP - 4096 ≤ args_sp argv envp;
}.

(** Loading leaves the page of the stack alone unless the image covers it. *)
Lemma stack_unmapped src root s1 s2 :
  loaded src root s1 s2 (e_phnum (ehdr_at src)) →
  (∀ v, pml4_index v < 256 → translate (mem s1) root v = None) →
  (∀ i v, 0 ≤ i < e_phnum (ehdr_at src) → seg_page (phdr src i) v → v < USER_STACK_TOP - 4096) →
  ∀ v, USER_STACK_TOP - 1 * 4096 ≤ v < USER_STACK_TOP → translate (mem s2) root v = None.
Proof using Type.
  clear outside img pml4_table. intros L H0 Hs v Hv. assert (0 ≤ v < USER_STACK_TOP) as Hvr
    by (unfold USER_STACK_TOP, PageFault.USER_STACK_TOP in *; lia).
  destruct (user_pages v Hvr) as [Hi Hvpn]. rewrite (ex_other _ _ _ _ (ld_extends _ _ _ _ _ L)); [apply H0; lia|].
  rewrite Hvpn. intros (i & w & Hi' & Hw & Ew). pose proof (Hs i w Hi' Hw).
  unfold USER_STACK_TOP, PageFault.USER_STACK_TOP in *. dlia.
Qed.

(** The stack could only be mapped if the image stays below it. *)
Lemma stack_below src s1 s2 sp2 sp3 s3 :
  loaded src (pml4_phys sp2) s1 s2 (e_phnum (ehdr_at src)) →
  stack_mapped s2 sp2 (USER_STACK_TOP - 1 * 4096) 1 (sp3, s3) →
  ∀ i v, 0 ≤ i < e_phnum (ehdr_at src) → seg_page (phdr src i) v → v < USER_STACK_TOP - 4096.
Proof using Type.
  clear outside img pml4_table. intros L M i v Hi Hv. pose proof (ld_range _ _ _ _ _ L i v Hi Hv) as Hr.
  destruct (decide (v < USER_STACK_TOP - 4096)) as [|Hge]; [done|]. exfalso. destruct (phdr_ranges src i) as (R & _).
  refine (sm_new _ _ _ _ _ M 0 _ _ ltac:(lia) (ld_held _ _ _ _ _ L i Hi _ _ _)).
  - unfold USER_STACK_TOP, PageFault.USER_STACK_TOP. dlia.
  - replace (USER_STACK_TOP - 1 * 4096 + 0 * 4096) with (v / 4096 * 4096)
      by (unfold USER_STACK_TOP, PageFault.USER_STACK_TOP in *; dlia).
    by apply seg_page_base.
Qed.

(** What the caller of [user_prepare_image] gets. *)
Definition prepared (path : list Z) (argv envp : option (list (list Z))) (fs : memfs) (s : pmm)
    (o : result (option (Z * user_space * Z * memfs * pmm))) : Prop :=
  match o with
  | Panic msg code => msg = "Out of physical memory"%string ∧ code = 0
  | Ret None => False
  | Ret (Some (r, space, sp, fs', s')) =>
      fs' = (memfs_lookup img fs (Some path)).2 ∧
      ((r = -1 ∧ ∀ i f, memfs_lookup img fs (Some path) = (Some i, fs') → memfs_files fs' !! i = Some f →
          ¬ launchable f argv envp) ∨
       (r = 0 ∧ (∃ i f, memfs_lookup img fs (Some path) = (Some i, fs') ∧ memfs_files fs' !! i = Some f ∧
           launchable f argv envp ∧ sp = args_sp argv envp ∧
           ready s' space sp (image_src f) (strings argv) (strings envp)) ∧
         ∀ v, 256 ≤ pml4_index v →
           hw_translate (mem s') (pml4_phys space) v = hw_translate (mem s) pml4_table v))
  end.

Lemma prepared_refused path argv envp fs s i f fs1 sp out s' :
  memfs_lookup img fs (Some path) = (Some i, fs1) → memfs_files fs1 !! i = Some f → ¬ launchable f argv envp →
  prepared path argv envp fs s (Ret (Some (-1, sp, out, fs1, s'))).
Proof using Type.
  intros El Ef Hn. split; [by rewrite El|]. left. split; [done|]. rewrite El. intros j g [= <-] Hg.
  by assert (g = f) as -> by congruence.
Qed.

(** The arguments of a loaded program. *)
Lemma prepare_args path argv envp fs s root s1 i f fs1 sp2 s2 sp3 s3 :
  let src := image_src f in
  small_args argv envp → tree_ok s pml4_table →
  (∀ v, translate (mem s1) root v = if decide (256 ≤ pml4_index v) then translate (mem s) pml4_table v else None) →
  memfs_lookup img fs (Some path) = (Some i, fs1) → memfs_files fs1 !! i = Some f →
  image_ok src (mf_size f) → loaded src (pml4_phys sp2) s1 s2 (e_phnum (ehdr_at src)) →
  pml4_phys sp2 = root → entry sp2 = e_entry (ehdr_at src) →
  stack_top sp3 = USER_STACK_TOP → stack_bottom sp3 = USER_STACK_TOP - 1 * 4096 → stack_pages sp3 = 1 →
  stack_mapped s2 sp2 (USER_STACK_TOP - 1 * 4096) 1 (sp3, s3) →
  ∀ out_sp, prepared path argv envp fs s
    match user_stack_setup sp3 argv envp (mem s3) with
    | None => Ret None
    | Some (r, sp, m) =>
        if negb (r =? 0) then Ret (Some (-1, sp3, out_sp, fs1, with_mem s3 m))
        else Ret (Some (0, sp3, sp, fs1, with_mem s3 m))
    end.
Proof using Type.
  intros src Hargs T Ht1 El Ef Him L Hroot Hent Htop Hbot Hpg M out_sp.
  pose proof (one_page_ok sp3 Htop Hbot Hpg) as Hok.
  pose proof (λ sp out s', prepared_refused path argv envp fs s i f fs1 sp out s' El Ef) as Hno.
  destruct (too_many argv USER_ARG_MAX) eqn:Ta.
  { unfold user_stack_setup. rewrite Hpg, Ta. apply Hno. intros [_ _ ? _ _]. congruence. }
  destruct (too_many envp USER_ENV_MAX) eqn:Te.
  { unfold user_stack_setup. rewrite Hpg, Ta, Te. apply Hno. intros [_ _ _ ? _]. congruence. }
  pose proof (setup_core sp3 Hok argv envp (mem s3) Hargs Ta Te) as Hset. cbv zeta in Hset.
  rewrite Htop in Hset. set (lo := USER_STACK_TOP - _ - _) in *. fold (args_sp argv envp) in Hset.
  change (lo - lo mod 16 - _) with (args_sp argv envp) in Hset. rewrite Hbot in Hset.
  destruct (decide (_ ≤ args_sp argv envp)) as [Hfit|Hlow].
  2:{ destruct Hset as (m' & -> & _). apply Hno. intros [_ _ _ _ ?]. lia. }
  destruct Hset as (m' & aa & ea & -> & Bl & F1 & F2 & A). cbn [negb Z.eqb]. split; [by rewrite El|]. right. split; [done|]. rewrite El.
  pose proof (bl_off _ _ _ _ Bl) as Hoff. rewrite <- Htop in F1, F2.
  assert (lo ≤ USER_STACK_TOP) by (subst lo; unfold str_size; lia).
  assert (args_sp argv envp ≤ lo) by (unfold args_sp; fold lo; dlia).
  destruct (final_space s1 s2 s3 sp2 sp3 src L M Htop Hbot Hpg m' Hoff) as (U' & Ht' & _).
  pose proof (sm_root _ _ _ _ _ M) as Hr3. pose proof (sm_entry _ _ _ _ _ M) as He3. cbn [fst] in Hr3, He3.
  split.
  - exists i, f. split_and!; [done|done| |done|].
    { split; auto. exact (stack_below src s1 s2 sp2 sp3 s3 L M). }
    split; rewrite ?Hr3; [done|by rewrite He3|..].
    + intros k a Hk Ha. by apply (final_segment s1 s2 s3 sp2 sp3 src L M Htop Hbot Hpg m' Hoff).
    + intros a Ha. eexists. by apply (final_stack s1 s2 s3 sp2 sp3 src L M Htop Hbot Hpg m' Hoff a).
    + exists aa, ea. split_and!.
      * eapply (final_strings s1 s2 s3 sp2 sp3 src L M Htop Hbot Hpg m' Hoff lo); [lia|done].
      * eapply (final_strings s1 s2 s3 sp2 sp3 src L M Htop Hbot Hpg m' Hoff lo); [lia|done].
      * apply (final_at s1 s2 s3 sp2 sp3 src L M Htop Hbot Hpg m' Hoff); [done| |done].
        rewrite length_words, !length_app, (Forall2_length _ _ _ F1), (Forall2_length _ _ _ F2).
        simpl length. unfold args_sp. fold lo. dlia.
  - intros v Hv. rewrite Hr3, (hw_translate_eq _ _ _ (us_tree _ _ U')), Ht', (hw_translate_eq _ _ _ T).
    rewrite (ex_other _ _ _ _ (sm_extends _ _ _ _ _ M)), (ex_other _ _ _ _ (ld_extends _ _ _ _ _ L)), Hroot, Ht1.
    + by rewrite decide_True.
    + intros (k & w & Hk & Hw & Ew). apply (ld_range _ _ _ _ _ L k w Hk) in Hw. apply (upper_vpn v w Hv); [lia|done].
    + intros (w & Hw & Ew). cbn [snd] in *. apply (upper_vpn v w Hv); [|done]. lia.
Qed.

Lemma prepare_core path argv envp space0 sp0 fs s :
  wf s → phys_bound s → tree_ok s pml4_table → small_args argv envp →
  prepared path argv envp fs s (user_prepare_image (Some path) argv envp space0 sp0 fs s).
Proof using Type.
  intros W B T Hargs. unfold user_prepare_image, user_space_init.
  pose proof (mmu_create_user_pml4_oom pml4_table s) as O1.
  destruct (mmu_create_user_pml4 pml4_table s) as [[root s1]|] eqn:Hc; [|exact O1]. cbn [mbind result_bind].
  destruct (create_uspace s root s1 W B T Hc) as [U1 Ht1].
  rewrite (proj2 (Z.eqb_neq root 0) (uspace_root _ _ U1)). cbn [mbind result_bind Z.eqb negb].
  destruct (memfs_lookup img fs (Some path)) as [[i|] fs1] eqn:El; cbn [mbind option_bind].
  2:{ split; [by rewrite El|]. left. split; [done|]. rewrite El. done. }
  destruct (memfs_files fs1 !! i) as [f|] eqn:Ef.
  2:{ split; [by rewrite El|]. left. split; [done|]. rewrite El. intros j g [= ->]. congruence. }
  set (src := image_src f). set (sp1 := mk_space root _ _ _ _ _).
  assert (∀ v, pml4_index v < 256 → translate (mem s1) root v = None) as Hempty
    by (intros v Hv; rewrite Ht1, decide_False; [done|lia]).
  pose proof (elf_load_user_oom (Some src) (mf_size f) sp1 s1) as O2.
  destruct (elf_load_user (Some src) (mf_size f) sp1 s1) as [[[r sp2] s2]|] eqn:He; [|exact O2].
  cbn [mbind result_bind]. destruct (Z.eqb_spec r 0) as [->|Hr]; cbn [negb].
  2:{ apply (prepared_refused _ _ _ _ _ i f); [done|done|]. intros [Him _ _ _ _]. fold src in Him. apply Hr. refine (elf_load_user_runs src _ sp1 s1 r sp2 s2 U1 Him _ He).
      intros k v Hk Hv. apply Hempty. destruct (im_segments _ _ Him k Hk (proj1 Hv)) as [_ _ _ _ S5 S6].
      rewrite (proj1 (user_pages v ltac:(unfold USER_BASE in S5; destruct Hv; lia))). lia. }
  pose proof (elf_load_user_valid src _ sp1 s1 sp2 s2 U1 He) as Him.
  destruct (elf_load_user_loaded src _ sp1 s1 sp2 s2 U1 He) as [Esp2 L].
  assert (pml4_phys sp2 = root ∧ entry sp2 = e_entry (ehdr_at src) ∧
    length (stack_phys sp2) = Z.to_nat USER_STACK_MAX_PAGES) as (Hroot & Hent & Hlen) by (by rewrite Esp2).
  change (pml4_phys sp1) with root in L. rewrite <- Hroot in L. clear Esp2.
  pose proof (user_space_map_stack_oom sp2 1 s2) as O3.
  destruct (user_space_map_stack sp2 1 s2) as [[[r sp3] s3]|] eqn:Hs; [|exact O3].
  pose proof (ex_ok _ _ _ _ (ld_extends _ _ _ _ _ L)) as U2.
  cbn [mbind result_bind]. destruct (Z.eqb_spec r 0) as [->|Hr]; cbn [negb].
  2:{ apply (prepared_refused _ _ _ _ _ i f); [done|done|]. intros [_ Hst _ _ _]. apply Hr. rewrite <- Hroot in Hempty.
      exact (user_space_map_stack_runs sp2 1 s2 r sp3 s3 U2 ltac:(done) Hlen (stack_unmapped src _ s1 s2 L Hempty Hst) Hs). }
  destruct (user_space_map_stack_spec sp2 1 s2 sp3 s3 U2 ltac:(lia) Hlen Hs) as (_ & Htop & Hbot & Hpg & M).
  exact (prepare_args path argv envp fs s root s1 i f fs1 sp2 s2 sp3 s3 Hargs T Ht1 El Ef Him L Hroot Hent Htop Hbot Hpg M _).
Qed.

End Prepare.
End User.
