(* ===== verification/BootMem.v ===== *)
(** * From the boot loader's memory map to the frame allocator

    [arch_mem_init] (src/kernel/arch/x86_64/hal.c) walks the tags of the
    Multiboot 2 information block and registers the available memory above
    the kernel; [mem_init] (src/kernel/mem.c) resets the allocator, calls it
    and lays out the bitmaps.  The block is read from physical memory, where
    the window of [phys_to_virt] shows it.  A loop that does not advance gives
    [None].  The addresses of the kernel image come from the linker and are
    arguments. *)

From S2P Require Import Prelude Memory Pmm PmmInit CString Bytes Memfs User.
From stdpp Require Import options.
Import Pmm PmmInit User.

Module BootMem.

Record mmap_entry := mk_entry { me_addr : Z; me_len : Z; me_type : Z }.

Section Init.
(** [_kernel_phys_start] and [_kernel_phys_end]. *)
Context (kernel_start_addr kernel_end_addr : Z).

(** The body of the loop over the entries of the memory map. *)
Definition add_entry (e : mmap_entry) (s : pmm) : result pmm :=
  if me_type e =? 1 then
    let start := me_addr e in
    let end_ := w64 (me_addr e + me_len e) in
    if end_ <=? kernel_start_addr then Ret s
    else
      let start := if (start <? kernel_end_addr) && (kernel_start_addr <? end_) then kernel_end_addr else start in
      let start := align_up start 4096 in
      let end_ := align_down end_ 4096 in
      if start <? end_ then pmm_add_region s start end_ else Ret s
  else Ret s.

Definition entry_read (m : memory) (p : Z) : mmap_entry :=
  mk_entry (rd64 m p) (rd64 m (p + 8)) (rd32 m (p + 16)).

Fixpoint entry_loop (fuel : nat) (entry_size mmap_end entry_ptr : Z) (s : pmm) : result (option pmm) :=
  if entry_ptr + entry_size <=? mmap_end then
    match fuel with
    | O => Ret None
    | S fuel' =>
        s ← add_entry (entry_read (mem s) entry_ptr) s;
        entry_loop fuel' entry_size mmap_end (entry_ptr + entry_size) s
    end
  else Ret (Some s).

(** Entries of size 0 are registered again and again, until there are too
    many regions. *)
Definition entry_fuel (mmap_end entry_ptr : Z) : nat := 34 + Z.to_nat (mmap_end - entry_ptr).

Fixpoint tag_loop (fuel : nat) (info_end tag_ptr : Z) (s : pmm) : result (option pmm) :=
  if tag_ptr <? info_end then
    match fuel with
    | O => Ret None
    | S fuel' =>
        let type := rd32 (mem s) tag_ptr in
        let size := rd32 (mem s) (tag_ptr + 4) in
        if type =? 0 then Ret (Some s)
        else
          o ← (if type =? 6 then
                 let entry_size := rd32 (mem s) (tag_ptr + 8) in
                 entry_loop (entry_fuel (tag_ptr + size) (tag_ptr + 16)) entry_size (tag_ptr + size) (tag_ptr + 16) s
               else Ret (Some s));
          match o with
          | None => Ret None
          | Some s => tag_loop fuel' info_end (align_up (tag_ptr + size) 8) s
          end
    end
  else Ret (Some s).

Definition arch_mem_init (info : Z) (s : pmm) : result (option pmm) :=
  if info =? 0 then Panic "Multiboot info missing" 0
  else
    let total_size := rd32 (mem s) info in
    let info_end := info + align_up total_size 8 in
    tag_loop (Z.to_nat (info_end - info)) info_end (info + 8) s.

(** [if (regions[i].phys_end > max_phys_end)]. *)
Definition max_end (rs : list pmm_region) (m : Z) : Z :=
  foldl (λ m r, if m <? phys_end r then phys_end r else m) m rs.

Definition mem_init (sys_info : Z) (s : pmm) : result (option pmm) :=
  let s := mk_pmm (mem s) [] 0 0 0 0 (pmm_cursor_region s) (pmm_cursor_page_idx s) in
  o ← arch_mem_init sys_info s;
  match o with
  | None => Ret None
  | Some s =>
      if region_count s =? 0 then Panic "No physical memory regions found" 0
      else
        let s := mk_pmm (mem s) (regions s) (managed_pages s) (pmm_reserved_pages s) (used_pages s)
                   (max_end (regions s) (max_phys_end s)) (pmm_cursor_region s) (pmm_cursor_page_idx s) in
        s ← setup_bitmaps s; Ret (Some s)
  end.
End Init.

(** ** The information block of the boot loader

    As the Multiboot 2 specification lays it out: a header, tags padded to
    eight bytes, and an end tag. *)

Inductive tag :=
| Mmap (es : list mmap_entry)
| Other (type : Z) (payload : list Z).

Definition encode_entry (e : mmap_entry) : list Z :=
  le_bytes 8 (me_addr e) ++ le_bytes 8 (me_len e) ++ le_bytes 4 (me_type e) ++ le_bytes 4 0.

Definition padding (n : nat) : list Z := replicate (Z.to_nat (- Z.of_nat n mod 8)) 0.

Definition encode_tag (t : tag) : list Z :=
  match t with
  | Mmap es =>
      le_bytes 4 6 ++ le_bytes 4 (16 + 24 * Z.of_nat (length es)) ++ le_bytes 4 24 ++ le_bytes 4 0 ++
      concat (encode_entry <$> es)
  | Other ty payload =>
      le_bytes 4 ty ++ le_bytes 4 (8 + Z.of_nat (length payload)) ++ payload ++ padding (length payload)
  end.

Definition encode_tags (ts : list tag) : list Z :=
  concat (encode_tag <$> ts) ++ le_bytes 4 0 ++ le_bytes 4 8.

Definition encode_info (ts : list tag) : list Z :=
  le_bytes 4 (8 + Z.of_nat (length (encode_tags ts))) ++ le_bytes 4 0 ++ encode_tags ts.

Definition bytes_at (m : memory) (a : Z) (l : list Z) : Prop :=
  ∀ (i : nat) b, l !! i = Some b → rd8 m (a + Z.of_nat i) = b.

Definition entries (ts : list tag) : list mmap_entry :=
  concat ((λ t, match t with Mmap es => es | Other _ _ => [] end) <$> ts).

(** What the C types and the specification guarantee of the numbers. *)
Definition entry_ok (e : mmap_entry) : Prop :=
  0 ≤ me_addr e ∧ 0 ≤ me_len e ∧ me_addr e + me_len e < 2 ^ 63 ∧ 0 ≤ me_type e < 2 ^ 32.

Definition tag_ok (t : tag) : Prop :=
  match t with Mmap es => Forall entry_ok es | Other ty _ => 0 < ty < 2 ^ 32 ∧ ty ≠ 6 end.

(** ** Reading it *)

Lemma bytes_at_app m a l1 l2 :
  bytes_at m a (l1 ++ l2) ↔ bytes_at m a l1 ∧ bytes_at m (a + Z.of_nat (length l1)) l2.
Proof.
  unfold bytes_at. split.
  - intros H. split; intros i b Hb.
    + apply H. by apply lookup_app_l_Some.
    + replace (a + Z.of_nat (length l1) + Z.of_nat i) with (a + Z.of_nat (length l1 + i)) by lia.
      apply H. rewrite lookup_app_r by lia. by replace (length l1 + i - length l1)%nat with i by lia.
  - intros [H1 H2] i b Hb. apply lookup_app_Some in Hb as [Hb|[Hi Hb]]; [by apply H1|].
    apply H2 in Hb. by replace (a + Z.of_nat i) with (a + Z.of_nat (length l1) + Z.of_nat (i - length l1)) by lia.
Qed.

Lemma rd_le_bytes n m : ∀ a v, 0 ≤ v < 256 ^ Z.of_nat n → bytes_at m a (le_bytes n v) → rd_le n m a = v.
Proof.
  induction n as [|n IH]; intros a v Hv H; [simpl in *; lia|]. cbn [rd_le le_bytes] in *.
  replace (256 ^ Z.of_nat (S n)) with (256 * 256 ^ Z.of_nat n) in Hv by (rewrite Nat2Z.inj_succ, Z.pow_succ_r; lia).
  assert (0 < 256 ^ Z.of_nat n) by (apply Z.pow_pos_nonneg; lia).
  apply (bytes_at_app m a [v mod 256]) in H as [H1 H2]. simpl length in H2. change (Z.of_nat 1) with 1 in H2.
  rewrite (IH (a + 1) (v / 256)) by (done || (split; [dlia|apply Z.div_lt_upper_bound; lia])).
  specialize (H1 O _ eq_refl). rewrite Z.add_0_r in H1. rewrite H1. dlia.
Qed.

Lemma rd32_bytes m a v : 0 ≤ v < 2 ^ 32 → bytes_at m a (le_bytes 4 v) → rd32 m a = v.
Proof. intros Hv. apply rd_le_bytes. lia. Qed.
Lemma rd64_bytes m a v : 0 ≤ v < 2 ^ 64 → bytes_at m a (le_bytes 8 v) → rd64 m a = v.
Proof. intros Hv. apply rd_le_bytes. lia. Qed.

Lemma length_encode_entry e : length (encode_entry e) = 24%nat.
Proof. unfold encode_entry. by rewrite !length_app, !length_le_bytes. Qed.

Lemma entry_read_spec m p e : entry_ok e → bytes_at m p (encode_entry e) → entry_read m p = e.
Proof.
  intros (H1 & H2 & H3 & H4) H. unfold encode_entry in H. rewrite !bytes_at_app, !length_le_bytes in H.
  destruct H as (A & B & C & _). unfold entry_read.
  rewrite (rd64_bytes m p (me_addr e) ltac:(lia) A), (rd64_bytes m (p + 8) (me_len e) ltac:(lia) B).
  replace (p + 16) with (p + Z.of_nat 8 + Z.of_nat 8) by lia. rewrite (rd32_bytes m _ _ H4 C). by destruct e.
Qed.

Lemma length_encode_tag t : ∃ n, Z.of_nat (length (encode_tag t)) = 8 * n ∧ 1 ≤ n.
Proof.
  destruct t as [es|ty payload]; cbn [encode_tag]; rewrite !length_app, !length_le_bytes.
  - assert (length (concat (encode_entry <$> es)) = (24 * length es)%nat) as ->.
    { induction es as [|e es IH]; [done|]. cbn [fmap list_fmap concat length]. rewrite length_app, length_encode_entry, IH. lia. }
    exists (2 + 3 * Z.of_nat (length es)). lia.
  - unfold padding. rewrite length_replicate. exists (1 + (Z.of_nat (length payload) + 7) / 8). dlia.
Qed.

Section Walk.
Context (kernel_start_addr kernel_end_addr : Z).
Let add := add_entry kernel_start_addr kernel_end_addr.

Fixpoint add_all (es : list mmap_entry) (s : pmm) : result pmm :=
  match es with [] => Ret s | e :: es' => s ← add e s; add_all es' s end.

Lemma add_mem e s s' : add e s = Ret s' → mem s' = mem s.
Proof using Type.
  subst add. unfold add_entry, pmm_add_region. intros H. repeat case_if in H; by simplify_eq.
Qed.

Lemma add_all_app es es' s : add_all (es ++ es') s = (s ← add_all es s; add_all es' s).
Proof using Type.
  revert s. induction es as [|e es IH]; intros s; [done|]. cbn [app add_all].
  destruct (add e s); cbn [mbind result_bind]; [apply IH|done].
Qed.

Lemma add_all_mem es s s' : add_all es s = Ret s' → mem s' = mem s.
Proof using Type.
  revert s. induction es as [|e es IH]; intros s H; cbn [add_all] in H; [by simplify_eq|].
  apply bind_Ret in H as (s1 & H1 & H). by rewrite (IH _ H), (add_mem _ _ _ H1).
Qed.

Lemma entry_loop_spec es : ∀ fuel p s,
  Forall entry_ok es → bytes_at (mem s) p (concat (encode_entry <$> es)) → (length es ≤ fuel)%nat →
  entry_loop kernel_start_addr kernel_end_addr fuel 24 (p + 24 * Z.of_nat (length es)) p s =
    (s ← add_all es s; Ret (Some s)).
Proof using Type.
  induction es as [|e es IH]; intros fuel p s Hok H Hf; cbn [length add_all].
  - destruct fuel; cbn [entry_loop]; (case_if; [lia|done]).
  - destruct fuel as [|fuel]; [simpl in Hf; lia|]. cbn [entry_loop].
    rewrite (proj2 (Z.leb_le _ _)) by lia. apply Forall_cons in Hok as [He Hok].
    cbn [fmap list_fmap concat] in H. apply bytes_at_app in H as [H1 H2]. rewrite length_encode_entry in H2.
    rewrite (entry_read_spec _ _ _ He H1). fold (add e s). destruct (add e s) as [s1|] eqn:Ea; [|done].
    cbn [mbind result_bind]. replace (p + 24 * Z.of_nat (S (length es))) with (p + 24 + 24 * Z.of_nat (length es)) by lia.
    apply IH; [done| |simpl in Hf; lia]. by rewrite (add_mem _ _ _ Ea).
Qed.

(** The tag at [a] is read back. *)
Lemma tag_step t fuel info_end a s :
  tag_ok t → 0 ≤ a → a mod 8 = 0 → bytes_at (mem s) a (encode_tag t) →
  a + Z.of_nat (length (encode_tag t)) ≤ info_end → info_end < 2 ^ 63 → Z.of_nat (length (encode_tag t)) < 2 ^ 32 →
  tag_loop kernel_start_addr kernel_end_addr (S fuel) info_end a s =
    (s ← add_all (match t with Mmap es => es | Other _ _ => [] end) s;
     tag_loop kernel_start_addr kernel_end_addr fuel info_end (a + Z.of_nat (length (encode_tag t))) s).
Proof using Type.
  intros Hok Ha Hal H Hend Hsm Hlen. destruct (length_encode_tag t) as (n & En & Hn).
  cbn [tag_loop]. rewrite (proj2 (Z.ltb_lt a info_end)) by lia.
  destruct t as [es|ty payload]; cbn [encode_tag tag_ok] in *.
  - assert (length (concat (encode_entry <$> es)) = (24 * length es)%nat) as El.
    { clear. induction es as [|e es IH]; [done|]. cbn [fmap list_fmap concat length]. rewrite length_app, length_encode_entry, IH. lia. }
    rewrite !length_app, !length_le_bytes, El in *.
    rewrite !bytes_at_app, !length_le_bytes in H. destruct H as (H1 & H2 & H3 & _ & H5).
    rewrite (rd32_bytes _ _ 6 ltac:(lia) H1), (rd32_bytes _ (a + 4) (16 + 24 * Z.of_nat (length es)) ltac:(lia) H2). cbn [Z.eqb Pos.eqb].
    replace (a + 8) with (a + Z.of_nat 4 + Z.of_nat 4) by lia. rewrite (rd32_bytes _ _ 24 ltac:(lia) H3).
    replace (a + (16 + 24 * Z.of_nat (length es))) with (a + 16 + 24 * Z.of_nat (length es)) by lia.
    rewrite entry_loop_spec; [|done| |unfold entry_fuel; lia].
    2:{ by replace (a + 16) with (a + Z.of_nat 4 + Z.of_nat 4 + Z.of_nat 4 + Z.of_nat 4) by lia. }
    destruct (add_all es s) as [s1|]; [|done]. cbn [mbind result_bind]. f_equal.
    rewrite align_up_8 by lia. dlia.
  - rewrite !length_app, !length_le_bytes in *.
    rewrite !bytes_at_app, !length_le_bytes in H. destruct H as (H1 & H2 & _).
    rewrite (rd32_bytes _ _ ty ltac:(lia) H1), (rd32_bytes _ (a + 4) (8 + Z.of_nat (length payload)) ltac:(lia) H2).
    rewrite (proj2 (Z.eqb_neq ty 0)), (proj2 (Z.eqb_neq ty 6)) by lia. cbn [mbind result_bind add_all]. f_equal.
    unfold padding in *. rewrite length_replicate in *. rewrite align_up_8 by lia. dlia.
Qed.

Lemma tag_loop_spec ts : ∀ fuel a s,
  Forall tag_ok ts → 0 ≤ a → a mod 8 = 0 → bytes_at (mem s) a (encode_tags ts) →
  a + Z.of_nat (length (encode_tags ts)) < 2 ^ 63 → Z.of_nat (length (encode_tags ts)) < 2 ^ 32 →
  (length ts < fuel)%nat →
  tag_loop kernel_start_addr kernel_end_addr fuel (a + Z.of_nat (length (encode_tags ts))) a s =
    (s ← add_all (entries ts) s; Ret (Some s)).
Proof using Type.
  induction ts as [|t ts IH]; intros fuel a s Hok Ha Hal H Hsm Hlen Hf; (destruct fuel as [|fuel]; [lia|]).
  - unfold encode_tags in *. cbn [fmap list_fmap concat app] in *. rewrite length_app, !length_le_bytes.
    apply bytes_at_app in H as [H _]. cbn [tag_loop]. rewrite (proj2 (Z.ltb_lt _ _)) by lia.
    by rewrite (rd32_bytes _ _ 0 ltac:(lia) H).
  - apply Forall_cons in Hok as [Ht Hok]. destruct (length_encode_tag t) as (n & En & Hn).
    change (encode_tags (t :: ts)) with ((encode_tag t ++ concat (encode_tag <$> ts)) ++ le_bytes 4 0 ++ le_bytes 4 8) in *.
    rewrite <- (app_assoc (encode_tag t)) in *. fold (encode_tags ts) in *. rewrite length_app in *.
    apply bytes_at_app in H as [H1 H2].
    rewrite (tag_step t) by (done || lia). change (entries (t :: ts)) with (match t with Mmap es => es | Other _ _ => [] end ++ entries ts).
    rewrite add_all_app. destruct (add_all _ s) as [s1|] eqn:E1; [|done]. cbn [mbind result_bind].
    replace (a + Z.of_nat (length (encode_tag t) + length (encode_tags ts)))
      with (a + Z.of_nat (length (encode_tag t)) + Z.of_nat (length (encode_tags ts))) by lia.
    apply IH; [done|lia|rewrite En; dlia|by rewrite (add_all_mem _ _ _ E1)|lia|lia|simpl in Hf; lia].
Qed.

(** [arch_mem_init] reads the memory map back from the information block. *)
Lemma arch_mem_init_spec ts info s :
  Forall tag_ok ts → 0 < info → info mod 8 = 0 → info + 2 ^ 32 < 2 ^ 63 →
  Z.of_nat (length (encode_info ts)) < 2 ^ 32 → bytes_at (mem s) info (encode_info ts) →
  arch_mem_init kernel_start_addr kernel_end_addr info s = (s ← add_all (entries ts) s; Ret (Some s)).
Proof using Type.
  intros Hok Hi Hal Hsm Hlen H. unfold arch_mem_init. rewrite (proj2 (Z.eqb_neq info 0)) by lia.
  unfold encode_info in *. rewrite !length_app, !length_le_bytes in Hlen.
  rewrite !bytes_at_app, !length_le_bytes in H. destruct H as (H1 & _ & H3).
  rewrite (rd32_bytes _ _ (8 + Z.of_nat (length (encode_tags ts))) ltac:(lia) H1).
  assert (∃ n, Z.of_nat (length (encode_tags ts)) = 8 * n ∧ Z.of_nat (length ts) < n) as (n & En & Hn).
  { clear. unfold encode_tags. induction ts as [|t ts (n & En & Hn)]; [by exists 1|].
    destruct (length_encode_tag t) as (k & Ek & Hk). exists (k + n).
    rewrite length_app in *. cbn [fmap list_fmap concat length] in *. rewrite length_app. lia. }
  rewrite align_up_8 by lia.
  replace (info + (8 + Z.of_nat (length (encode_tags ts)) + 7) / 8 * 8)
    with (info + 8 + Z.of_nat (length (encode_tags ts))) by (rewrite En; dlia).
  apply tag_loop_spec; try done; try lia; [dlia|]. by replace (info + 8) with (info + Z.of_nat 4 + Z.of_nat 4) by lia.
Qed.

(** ** The regions *)

(** The whole pages of an available entry above the kernel. *)
Definition region_of (e : mmap_entry) : option pmm_region :=
  let start := (Z.max (me_addr e) kernel_end_addr + 4095) / 4096 * 4096 in
  let end_ := (me_addr e + me_len e) / 4096 * 4096 in
  if decide (me_type e = 1 ∧ start < end_) then Some (mk_region start end_ 0 0 ((end_ - start) / 4096) 0) else None.

Context (Hk : 0 < kernel_start_addr ≤ kernel_end_addr) (Hkend : kernel_end_addr < 2 ^ 63).

Lemma add_region_of e s : entry_ok e →
  add e s = match region_of e with Some r => pmm_add_region s (phys_start r) (phys_end r) | None => Ret s end.
Proof using Hk Hkend.
  intros (H1 & H2 & H3 & _). subst add. unfold add_entry, region_of.
  destruct (Z.eqb_spec (me_type e) 1) as [Ht|Ht]; [|by rewrite decide_False by (intros [? _]; done)].
  rewrite (w64_small (_ + _)) by lia. destruct (Z.leb_spec (me_addr e + me_len e) kernel_start_addr) as [Hle|Hgt].
  { rewrite decide_False; [done|]. intros [_ ?]. dlia. }
  assert ((if (me_addr e <? kernel_end_addr) && (kernel_start_addr <? me_addr e + me_len e) then kernel_end_addr
    else me_addr e) = Z.max (me_addr e) kernel_end_addr) as ->.
  { rewrite (proj2 (Z.ltb_lt kernel_start_addr _)) by lia. rewrite andb_true_r.
    destruct (Z.ltb_spec (me_addr e) kernel_end_addr); lia. }
  rewrite align_up_4096, align_down_4096 by lia.
  destruct (Z.ltb_spec ((Z.max (me_addr e) kernel_end_addr + 4095) / 4096 * 4096) ((me_addr e + me_len e) / 4096 * 4096)).
  - by rewrite decide_True.
  - rewrite decide_False; [done|]. intros [_ ?]. lia.
Qed.

Lemma region_of_fresh e r : entry_ok e → region_of e = Some r → fresh_region r.
Proof using Hk Hkend.
  intros (H1 & H2 & H3 & _) H. unfold region_of in H. case_decide as Hd; [|done]. simplify_eq. destruct Hd as [_ Hd].
  split; cbn [phys_start phys_end total_pages reserved_pages]; try done; dlia.
Qed.

Lemma add_all_spec es s : Forall entry_ok es → region_count s ≤ 32 →
  match add_all es s with
  | Ret s' => regions s' = regions s ++ omap region_of es ∧ region_count s' ≤ 32 ∧
      mem s' = mem s ∧ pmm_cursor_region s' = pmm_cursor_region s
  | Panic msg _ => msg = "Too many memory regions"%string
  end.
Proof using Hk Hkend.
  revert s. induction es as [|e es IH]; intros s Hok Hc; cbn [add_all omap list_omap].
  { rewrite app_nil_r. by split_and!. }
  apply Forall_cons in Hok as [He Hok]. rewrite (add_region_of e s He).
  destruct (region_of e) as [r|] eqn:Er; cbn [mbind result_bind]; [|by apply IH].
  pose proof (region_of_fresh e r He Er) as F. unfold pmm_add_region at 1. unfold MAX_PMM_REGIONS.
  destruct (Z.leb_spec 32 (region_count s)) as [Hge|Hlt]; [done|].
  rewrite (proj2 (Z.leb_gt (phys_end r) (phys_start r))) by (destruct F; lia). cbn [mbind result_bind].
  match goal with |- context [add_all es ?x] => set (s1 := x) end.
  assert (regions s1 = regions s ++ [r]) as E1.
  { subst s1. cbn [regions]. do 2 f_equal. destruct F as [F1 F2 F3 F4 F5 F6]. rewrite w64_small by lia. rewrite <- F5.
    unfold region_of in Er. case_decide; [|done]. by simplify_eq. }
  specialize (IH s1 Hok). unfold region_count in *. rewrite E1, length_app in IH. specialize (IH ltac:(simpl; lia)).
  destruct (add_all es s1); [|done]. destruct IH as (-> & Hl & ? & ?). rewrite <- app_assoc in Hl |- *. by split_and!.
Qed.

(** Available entries do not overlap. *)
Definition entries_apart (es : list mmap_entry) : Prop :=
  ∀ i j e e', i ≠ j → es !! i = Some e → es !! j = Some e' → me_type e = 1 → me_type e' = 1 →
  me_addr e + me_len e ≤ me_addr e' ∨ me_addr e' + me_len e' ≤ me_addr e.

Lemma omap_lookup_inv {A B} (f : A → option B) (l : list A) : ∀ i y,
  omap f l !! i = Some y → ∃ j x, l !! j = Some x ∧ f x = Some y ∧ length (omap f (take j l)) = i.
Proof using Type.
  clear. induction l as [|x l IH]; intros i y H; [done|]. cbn [omap list_omap] in H.
  destruct (f x) as [z|] eqn:E.
  - destruct i as [|i]; [simplify_eq/=; by exists O, x|].
    destruct (IH i y H) as (j & x' & ? & ? & <-). exists (S j), x'. split_and!; try done. cbn. by rewrite E.
  - destruct (IH i y H) as (j & x' & ? & ? & <-). exists (S j), x'. split_and!; try done. cbn. by rewrite E.
Qed.

Lemma regions_of_apart es : entries_apart es → regions_apart (omap region_of es).
Proof using Type.
  clear Hk Hkend add kernel_start_addr. intros Ha i j r r' Hne Hi Hj.
  destruct (omap_lookup_inv _ _ _ _ Hi) as (i' & e & He & Er & Ei).
  destruct (omap_lookup_inv _ _ _ _ Hj) as (j' & e' & He' & Er' & Ej).
  assert (i' ≠ j') by (intros ->; congruence).
  unfold region_of in Er, Er'. case_decide as D; [|done]. case_decide as D'; [|done]. simplify_eq. cbn [phys_start phys_end].
  destruct (Ha i' j' e e') as [?|?]; try done; [apply D'|apply D|left; dlia|right; dlia].
Qed.

Lemma regions_of_fresh es : Forall entry_ok es → Forall fresh_region (omap region_of es).
Proof using Hk Hkend.
  intros Hok. apply Forall_lookup_2. intros i r Hi. destruct (omap_lookup_inv _ _ _ _ Hi) as (j & e & He & Er & _).
  by eapply region_of_fresh; [apply (Forall_lookup_1 _ _ _ _ Hok He)|].
Qed.

Lemma setup_bitmaps_panic s msg code : setup_bitmaps s = Panic msg code →
  msg ∈ ["No low memory for allocator metadata"; "Insufficient low memory for allocator metadata";
         "No allocatable memory after metadata reservation"]%string.
Proof using Type.
  clear. unfold setup_bitmaps. intros H. repeat case_match; simplify_eq; set_solver.
Qed.

(** The frame at [a] is available memory above the kernel. *)
Definition usable (es : list mmap_entry) (a : Z) : Prop :=
  a mod 4096 = 0 ∧ kernel_end_addr ≤ a ∧
  ∃ e, e ∈ es ∧ me_type e = 1 ∧ me_addr e ≤ a ∧ a + 4096 ≤ me_addr e + me_len e.

(** Frames kept for the bitmaps. *)
Definition reserved_frame (s : pmm) (a : Z) : Prop :=
  ∃ i r p, regions s !! i = Some r ∧ 0 ≤ p < reserved_pages r ∧ a = phys_start r + p * 4096.

Lemma usable_region es a : Forall entry_ok es →
  usable es a ↔ ∃ i r p, omap region_of es !! i = Some r ∧ 0 ≤ p < total_pages r ∧ a = phys_start r + p * 4096.
Proof using Hk Hkend.
  intros Hok. split.
  - intros (Hal & Hka & e & He & Ht & H1 & H2). pose proof (proj1 (Forall_forall _ _) Hok e He) as (? & ? & ? & _).
    assert (region_of e = Some (mk_region ((Z.max (me_addr e) kernel_end_addr + 4095) / 4096 * 4096)
      ((me_addr e + me_len e) / 4096 * 4096) 0 0 (((me_addr e + me_len e) / 4096 * 4096 -
       (Z.max (me_addr e) kernel_end_addr + 4095) / 4096 * 4096) / 4096) 0)) as Er.
    { unfold region_of. rewrite decide_True; [done|]. split; [done|dlia]. }
    match type of Er with _ = Some ?r => assert (r ∈ omap region_of es) as Hin by (apply list_elem_of_omap; by exists e) end.
    apply list_elem_of_lookup_1 in Hin as [i Hi]. eexists i, _, ((a - (Z.max (me_addr e) kernel_end_addr + 4095) / 4096 * 4096) / 4096). split; [done|].
    cbn [phys_start total_pages].
    split; dlia.
  - intros (i & r & p & Hi & Hp & ->). destruct (omap_lookup_inv _ _ _ _ Hi) as (j & e & He & Er & _).
    pose proof (Forall_lookup_1 _ _ _ _ Hok He) as (? & ? & ? & _). unfold region_of in Er.
    case_decide as D; [|done]. simplify_eq. cbn [phys_start total_pages] in *. destruct D as [Ht D].
    split; [dlia|]. split; [dlia|]. exists e. split; [by eapply list_elem_of_lookup_2|]. split; [done|]. dlia.
Qed.

End Walk.
End BootMem.
