(* ===== verification/Alloc.v ===== *)
(** * The allocator interface

    What the users of [kalloc] and [kfree] rely on, and the proof that the
    kernel heap of Heap.v provides it.  [al_live h ps] says that [ps] are the
    payload pointers handed out and not yet released. *)

From S2P Require Import Prelude Memory Pmm Mmu Heap HeapList HeapInv HeapOps HeapSpec.
From stdpp Require Import options.

Class Allocator (H : Type) := {
  al_alloc : H → Z → Z → result (Z * H);
  al_free : H → Z → result H;
  al_live : H → list Z → Prop;
  al_room : H → Z → Z → Prop;
}.

Class AllocatorLaws (H : Type) `{!Allocator H} := {
  al_live_perm (h : H) (ps ps' : list Z) : ps ≡ₚ ps' → al_live h ps → al_live h ps';
  (** A block handed out is new. *)
  al_alloc_fresh (h h' : H) (ps : list Z) (size align p : Z) :
    al_live h ps → 0 < size → al_room h size align → al_alloc h size align = Ret (p, h') →
    p ∉ ps ∧ p ≠ 0 ∧ al_live h' (p :: ps);
  (** A block can be released once. *)
  al_free_live (h : H) (ps : list Z) (p : Z) :
    al_live h (p :: ps) → ∃ h', al_free h p = Ret h' ∧ al_live h' ps;
  al_free_null (h : H) : al_free h 0 = Ret h;
}.

(** ** The kernel heap *)

Module HeapAlloc.
Import Heap HeapList HeapInv HeapOps HeapSpec.

Section Instance_.
Context (root : Z).

#[local] Instance heap_allocator : Allocator heap := {
  al_alloc := kalloc root;
  al_free := kfree;
  al_live h ps := ∃ live, heap_run root h live ∧ ps ≡ₚ (λ x, x.1 + 32) <$> live;
  al_room h size align := good_align align ∧ room h size align;
}.

Lemma fmap_permutation_split (live : list ext) p ps :
  p :: ps ≡ₚ (λ x : ext, x.1 + 32) <$> live →
  ∃ x live', live ≡ₚ x :: live' ∧ p = x.1 + 32 ∧ ps ≡ₚ (λ x : ext, x.1 + 32) <$> live'.
Proof.
  intros E. assert (p ∈ (λ x : ext, x.1 + 32) <$> live) as (x & -> & Hx)%list_elem_of_fmap
    by (rewrite <- E; set_solver).
  apply elem_of_Permutation in Hx as (live' & El). exists x, live'. split_and!; auto.
  rewrite El in E. simpl in E. by apply Permutation_cons_inv in E.
Qed.

Lemma heap_allocator_laws : AllocatorLaws heap.
Proof using Type.
  split.
  - intros h ps ps' E (live & Hr & El). exists live. split; [done|]. by rewrite <- E.
  - intros h h' ps size align p (live & Hr & El) Hs [Ha Hroom] E.
    assert (heap_run root h' (block_of h' p :: live)) as Hr' by (by eapply run_alloc).
    destruct (heap_run_inv root h' _ Hr') as (slabs & large & Hok).
    destruct (ho_bounds _ _ _ _ Hok (block_of h' p)) as (Hb1 & Hb2 & Hb3); [set_solver|].
    simpl in Hb1. unfold HEAP_BASE in Hb1. split_and!.
    + intros Hin. rewrite El in Hin. apply list_elem_of_fmap in Hin as (x & Ep & Hx).
      pose proof (ho_apart _ _ _ _ Hok) as Hp. rewrite <- app_comm_cons in Hp.
      apply pairwise_cons in Hp as [Hp _].
      destruct (ho_bounds _ _ _ _ Hok x) as (_ & Hx2 & _); [set_solver|].
      specialize (Hp x ltac:(set_solver)). unfold apart in Hp. cbn [fst] in Hp. simpl in Hp, Hb2. lia.
    + lia.
    + exists (block_of h' p :: live). split; [done|]. rewrite El. cbn [fmap list_fmap].
      simpl. by replace (p - 32 + 32) with p by lia.
  - intros h ps p (live & Hr & El).
    apply fmap_permutation_split in El as (x & live' & El & -> & Eps).
    destruct (heap_run_inv root h live Hr) as (slabs & large & Hok).
    destruct (kfree_ok h live slabs large x live' Hok El) as (h' & _ & _ & E & _).
    exists h'. split; [done|]. exists live'. split; [by eapply run_free|done].
  - done.
Qed.
End Instance_.

(** the kernel heap meets the allocator interface its users are verified
    against: blocks handed out are new and not null, stay live until they are
    released, and can be released in any order. *)
Theorem heap_is_allocator root : @AllocatorLaws heap (heap_allocator root).
Proof. apply heap_allocator_laws. Qed.

End HeapAlloc.
