(* ===== verification/Sched.v ===== *)
(** * The scheduler (src/kernel/sched.c, arch/x86_64/sched.c)

    Threads are heap objects on a doubly linked list; [threads] holds the
    objects by address, and the pointers in them are addresses, 0 for NULL.  A
    read through an address that holds no thread gives the zeroed object; the
    invariant of SchedSpec.v excludes it.  The scheduler uses the heap through
    the interface of Alloc.v and the table of open files through
    [FileTable].

    [sched_lock] makes every operation atomic.  A call that reaches
    [context_switch] leaves the thread: the model returns [Switched] with the
    state in which the other thread continues, and whatever that thread was
    doing, its next action is to release the lock.  [Halted] is the idle loop
    of a thread that may not go on, with the lock released. *)

From S2P Require Import Prelude CString Bytes Alloc.
From stdpp Require Import options.
Import CString Bytes.

(** What the scheduler needs of the table of open files: counting references
    of threads to its entries. *)
Class FileTable (H T : Type) := {
  ft_acquire : Z → T → T;
  ft_release : Z → T → H → result (T * H);
}.

Module Sched.

Inductive thread_state :=
| THREAD_UNUSED
| THREAD_RUNNABLE
| THREAD_RUNNING
| THREAD_BLOCKED
| THREAD_DEAD.

#[export] Instance thread_state_eq_dec : EqDecision thread_state.
Proof. solve_decision. Defined.

Definition STACK_SIZE : Z := 65536.
Definition SIZEOF_THREAD : Z := 480.

Record context := mk_context { rsp : Z; rip : Z; rflags : Z }.

Record thread := mk_thread {
  next : Z;
  prev : Z;
  wait_next : Z;
  ctx : context;
  entry : Z;
  arg : Z;
  stack : Z;
  state : thread_state;
  aspace : Z;
  exit_to_kernel : bool;
  pid : Z;
  ppid : Z;
  exit_code : Z;
  is_user : bool;
  reaped : bool;
  cwd : list Z;
  fds : list Z;
}.

(** The object [kalloc_zero] returns. *)
Definition zero_thread : thread :=
  mk_thread 0 0 0 (mk_context 0 0 0) 0 0 0 THREAD_UNUSED 0 false 0 0 0 false false
    (replicate 256 0) (replicate 16 0).

Record wait_queue := mk_wq { wq_head : Z; wq_tail : Z }.

(** Assignments to one field. *)
Definition set_next (x : Z) (t : thread) : thread :=
  mk_thread x (prev t) (wait_next t) (ctx t) (entry t) (arg t) (stack t) (state t) (aspace t)
    (exit_to_kernel t) (pid t) (ppid t) (exit_code t) (is_user t) (reaped t) (cwd t) (fds t).
Definition set_prev (x : Z) (t : thread) : thread :=
  mk_thread (next t) x (wait_next t) (ctx t) (entry t) (arg t) (stack t) (state t) (aspace t)
    (exit_to_kernel t) (pid t) (ppid t) (exit_code t) (is_user t) (reaped t) (cwd t) (fds t).
Definition set_wait_next (x : Z) (t : thread) : thread :=
  mk_thread (next t) (prev t) x (ctx t) (entry t) (arg t) (stack t) (state t) (aspace t)
    (exit_to_kernel t) (pid t) (ppid t) (exit_code t) (is_user t) (reaped t) (cwd t) (fds t).
Definition set_ctx (x : context) (t : thread) : thread :=
  mk_thread (next t) (prev t) (wait_next t) x (entry t) (arg t) (stack t) (state t) (aspace t)
    (exit_to_kernel t) (pid t) (ppid t) (exit_code t) (is_user t) (reaped t) (cwd t) (fds t).
Definition set_stack (x : Z) (t : thread) : thread :=
  mk_thread (next t) (prev t) (wait_next t) (ctx t) (entry t) (arg t) x (state t) (aspace t)
    (exit_to_kernel t) (pid t) (ppid t) (exit_code t) (is_user t) (reaped t) (cwd t) (fds t).
Definition set_state (x : thread_state) (t : thread) : thread :=
  mk_thread (next t) (prev t) (wait_next t) (ctx t) (entry t) (arg t) (stack t) x (aspace t)
    (exit_to_kernel t) (pid t) (ppid t) (exit_code t) (is_user t) (reaped t) (cwd t) (fds t).
Definition set_aspace (x : Z) (t : thread) : thread :=
  mk_thread (next t) (prev t) (wait_next t) (ctx t) (entry t) (arg t) (stack t) (state t) x
    (exit_to_kernel t) (pid t) (ppid t) (exit_code t) (is_user t) (reaped t) (cwd t) (fds t).
Definition set_exit_to_kernel (x : bool) (t : thread) : thread :=
  mk_thread (next t) (prev t) (wait_next t) (ctx t) (entry t) (arg t) (stack t) (state t) (aspace t)
    x (pid t) (ppid t) (exit_code t) (is_user t) (reaped t) (cwd t) (fds t).
Definition set_exit_code (x : Z) (t : thread) : thread :=
  mk_thread (next t) (prev t) (wait_next t) (ctx t) (entry t) (arg t) (stack t) (state t) (aspace t)
    (exit_to_kernel t) (pid t) (ppid t) x (is_user t) (reaped t) (cwd t) (fds t).
Definition set_reaped (x : bool) (t : thread) : thread :=
  mk_thread (next t) (prev t) (wait_next t) (ctx t) (entry t) (arg t) (stack t) (state t) (aspace t)
    (exit_to_kernel t) (pid t) (ppid t) (exit_code t) (is_user t) x (cwd t) (fds t).
Definition set_cwd (x : list Z) (t : thread) : thread :=
  mk_thread (next t) (prev t) (wait_next t) (ctx t) (entry t) (arg t) (stack t) (state t) (aspace t)
    (exit_to_kernel t) (pid t) (ppid t) (exit_code t) (is_user t) (reaped t) x (fds t).
Definition set_fds (x : list Z) (t : thread) : thread :=
  mk_thread (next t) (prev t) (wait_next t) (ctx t) (entry t) (arg t) (stack t) (state t) (aspace t)
    (exit_to_kernel t) (pid t) (ppid t) (exit_code t) (is_user t) (reaped t) (cwd t) x.

(** The static variables of sched.c, the processor registers a switch writes
    (CR3 and the kernel stack of the TSS and of the syscall entry), the heap
    and the table of open files. *)
Record sched (H T : Type) := mk_sched {
  threads : gmap Z thread;
  threads_head : Z;
  threads_tail : Z;
  thread_count : Z;
  current_thread : Z;
  sched_ticks : Z;
  need_resched : bool;
  last_switch_tick : Z;
  sched_ready : bool;
  preempt_pending : bool;
  preempt_target : Z;
  next_pid : Z;
  cr3 : Z;
  kernel_stack : Z;
  s_heap : H;
  s_files : T;
}.
Arguments mk_sched {_ _} _ _ _ _ _ _ _ _ _ _ _ _ _ _ _ _.
Arguments threads {_ _} _.
Arguments threads_head {_ _} _.
Arguments threads_tail {_ _} _.
Arguments thread_count {_ _} _.
Arguments current_thread {_ _} _.
Arguments sched_ticks {_ _} _.
Arguments need_resched {_ _} _.
Arguments last_switch_tick {_ _} _.
Arguments sched_ready {_ _} _.
Arguments preempt_pending {_ _} _.
Arguments preempt_target {_ _} _.
Arguments next_pid {_ _} _.
Arguments cr3 {_ _} _.
Arguments kernel_stack {_ _} _.
Arguments s_heap {_ _} _.
Arguments s_files {_ _} _.

Definition time_slice_ticks : Z := 5.

Inductive flow (A : Type) :=
| Returned (a : A)
| Switched (a : A)
| Halted (a : A)
| Looping.
Arguments Returned {_} _.
Arguments Switched {_} _.
Arguments Halted {_} _.
Arguments Looping {_}.

(** The state a flow leaves behind. *)
Definition after {A} (d : A) (f : flow A) : A :=
  match f with Returned a | Switched a | Halted a => a | Looping => d end.

Section Ops.
Context {H T : Type} `{!Allocator H} `{!FileTable H T}.
(** The address of [thread_trampoline]. *)
Context (thread_trampoline : Z).

Implicit Types s : sched H T.

Definition thr s (p : Z) : thread := default zero_thread (threads s !! p).
Definition cur s : thread := thr s (current_thread s).

Definition with_threads s (m : gmap Z thread) : sched H T :=
  mk_sched m (threads_head s) (threads_tail s) (thread_count s) (current_thread s) (sched_ticks s)
    (need_resched s) (last_switch_tick s) (sched_ready s) (preempt_pending s) (preempt_target s)
    (next_pid s) (cr3 s) (kernel_stack s) (s_heap s) (s_files s).
(** [p->field = x]. *)
Definition upd (p : Z) (f : thread → thread) s : sched H T := with_threads s (alter f p (threads s)).
Definition upd_cur (f : thread → thread) s : sched H T := upd (current_thread s) f s.

Definition with_list s (head tail count : Z) : sched H T :=
  mk_sched (threads s) head tail count (current_thread s) (sched_ticks s)
    (need_resched s) (last_switch_tick s) (sched_ready s) (preempt_pending s) (preempt_target s)
    (next_pid s) (cr3 s) (kernel_stack s) (s_heap s) (s_files s).
Definition with_heap s (h : H) : sched H T :=
  mk_sched (threads s) (threads_head s) (threads_tail s) (thread_count s) (current_thread s)
    (sched_ticks s) (need_resched s) (last_switch_tick s) (sched_ready s) (preempt_pending s)
    (preempt_target s) (next_pid s) (cr3 s) (kernel_stack s) h (s_files s).
Definition with_files s (t : T) : sched H T :=
  mk_sched (threads s) (threads_head s) (threads_tail s) (thread_count s) (current_thread s)
    (sched_ticks s) (need_resched s) (last_switch_tick s) (sched_ready s) (preempt_pending s)
    (preempt_target s) (next_pid s) (cr3 s) (kernel_stack s) (s_heap s) t.
Definition with_next_pid s (n : Z) : sched H T :=
  mk_sched (threads s) (threads_head s) (threads_tail s) (thread_count s) (current_thread s)
    (sched_ticks s) (need_resched s) (last_switch_tick s) (sched_ready s) (preempt_pending s)
    (preempt_target s) n (cr3 s) (kernel_stack s) (s_heap s) (s_files s).

(** ** The list of threads *)

Definition list_append (t : Z) s : sched H T :=
  if t =? 0 then s
  else
    let s := upd t (set_next 0) s in
    let s := upd t (set_prev (threads_tail s)) s in
    let '(s, head) :=
      if negb (threads_tail s =? 0) then (upd (threads_tail s) (set_next t) s, threads_head s)
      else (s, t) in
    with_list s head t (thread_count s + 1).

Definition list_remove (t : Z) s : sched H T :=
  if t =? 0 then s
  else
    let s :=
      if negb (prev (thr s t) =? 0) then upd (prev (thr s t)) (set_next (next (thr s t))) s
      else with_list s (next (thr s t)) (threads_tail s) (thread_count s) in
    let s :=
      if negb (next (thr s t) =? 0) then upd (next (thr s t)) (set_prev (prev (thr s t))) s
      else with_list s (threads_head s) (prev (thr s t)) (thread_count s) in
    let s := with_list s (threads_head s) (threads_tail s) (thread_count s - 1) in
    upd t (set_prev 0) (upd t (set_next 0) s).

(** [kfree(t)]: the object is gone. *)
Definition free_thread (t : Z) s : result (sched H T) :=
  h ← al_free (s_heap s) t; Ret (with_threads (with_heap s h) (delete t (threads s))).

Definition thread_alloc s : result (Z * sched H T) :=
  '(t, h) ← al_alloc (s_heap s) SIZEOF_THREAD 16;
  let s := with_heap s h in
  if t =? 0 then Ret (0, s)
  else Ret (t, list_append t (with_threads s (<[t := zero_thread]> (threads s)))).

Definition sched_init s : result (sched H T) :=
  '(boot, s) ← thread_alloc (with_list s 0 0 0);
  if boot =? 0 then Ret s
  else
    let s := upd boot (set_state THREAD_RUNNING) s in
    let s := upd boot (set_reaped true) s in
    Ret (mk_sched (threads s) (threads_head s) (threads_tail s) (thread_count s) boot 0 false 0 true
      (preempt_pending s) (preempt_target s) (next_pid s) (cr3 s) (kernel_stack s) (s_heap s) (s_files s)).

(** [arch_thread_setup]: the stack pointer below a dummy return address. *)
Definition arch_thread_setup (t : Z) s : sched H T :=
  if (t =? 0) || (stack (thr s t) =? 0) then s
  else
    let stack_top := w64 (stack (thr s t) + STACK_SIZE) in
    let stack_top := Z.land stack_top (not64 0xF) - 8 in
    upd t (set_ctx (mk_context stack_top thread_trampoline 0x2)) s.

Definition acquire (id : Z) s : sched H T := with_files s (ft_acquire id (s_files s)).

(** Standard input, output and error on the first three handles. *)
Definition default_fds : list Z := [0; 1; 2] ++ replicate 13 (-1).

(** The tail of both create functions: stack, context, or undoing it all. *)
Definition finish_create (t : Z) s : result (Z * sched H T) :=
  '(stk, h) ← al_alloc (s_heap s) STACK_SIZE 16;
  let s := upd t (set_stack stk) (with_heap s h) in
  if stk =? 0 then
    let s := list_remove t s in
    s ← free_thread t s; Ret (-1, s)
  else Ret (0, arch_thread_setup t s).

Definition sched_create (entry_ arg_ : Z) s : result (Z * sched H T) :=
  if entry_ =? 0 then Ret (-1, s)
  else
    '(t, s) ← thread_alloc s;
    if t =? 0 then Ret (-1, s)
    else
      let s := upd t (λ x, mk_thread (next x) (prev x) (wait_next x) (ctx x) entry_ arg_ (stack x)
        THREAD_RUNNABLE 0 false 0 0 0 false true (<[1%nat := 0]> (<[0%nat := 47]> (cwd x))) default_fds) s in
      let s := acquire 2 (acquire 1 (acquire 0 s)) in
      finish_create t s.

(** [while (t) if (t->pid == pid) break]. *)
Fixpoint find_pid (fuel : nat) s (pid_ t : Z) : Z :=
  match fuel with
  | O => 0
  | S fuel' =>
      if t =? 0 then 0
      else if pid (thr s t) =? pid_ then t
      else find_pid fuel' s pid_ (next (thr s t))
  end.
Definition find_thread s (pid_ : Z) : Z := find_pid (S (size (threads s))) s pid_ (threads_head s).

(** The references the parent's descriptors hold are counted once more. *)
Definition inherit_fds (fds_ : list Z) s : sched H T :=
  foldl (λ s fd, if 0 <=? fd then acquire fd s else s) s fds_.

(** The value returned, the pid stored in [*out_pid], and the state. *)
Definition sched_create_user (entry_ arg_ parent_pid : Z) s : result (Z * Z * sched H T) :=
  if entry_ =? 0 then Ret (-1, 0, s)
  else
    '(t, s) ← thread_alloc s;
    if t =? 0 then Ret (-1, 0, s)
    else
      let new_pid := next_pid s in
      let s := with_next_pid s (s32 (next_pid s + 1)) in
      let s := upd t (λ x, mk_thread (next x) (prev x) (wait_next x) (ctx x) entry_ arg_ (stack x)
        THREAD_RUNNABLE 0 false new_pid parent_pid 0 true false (cwd x) (fds x)) s in
      let parent := if 0 <? parent_pid then find_thread s parent_pid else 0 in
      let s :=
        if negb (parent =? 0) then
          let s' := upd t (set_cwd (cwd (thr s parent))) s in
          let s' := upd t (set_fds (fds (thr s' parent))) s' in
          inherit_fds (fds (thr s' t)) s'
        else
          let s' := upd t (λ x, set_cwd (<[1%nat := 0]> (<[0%nat := 47]> (cwd x))) x) s in
          let s' := upd t (set_fds default_fds) s' in
          acquire 2 (acquire 1 (acquire 0 s')) in
      '(r, s) ← finish_create t s;
      Ret (r, (if r =? 0 then new_pid else 0), s).

(** ** Switching *)

(** [do ... while (t != start)] over the circular list. *)
Fixpoint find_runnable (fuel : nat) s (start t : Z) : option Z :=
  match fuel with
  | O => None
  | S fuel' =>
      if decide (state (thr s t) = THREAD_RUNNABLE) then Some t
      else
        let t := next (thr s t) in
        let t := if t =? 0 then threads_head s else t in
        if t =? start then Some 0 else find_runnable fuel' s start t
  end.

(** The kernel stack [arch_thread_switch] installs. *)
Definition kernel_stack_of (t : thread) : Z := Z.land (w64 (stack t + STACK_SIZE)) (not64 0xF).

Definition switch_to (p n : Z) s : sched H T :=
  let s := if decide (state (thr s p) = THREAD_RUNNING) then upd p (set_state THREAD_RUNNABLE) s else s in
  let s := upd n (set_state THREAD_RUNNING) s in
  let t := thr s n in
  mk_sched (threads s) (threads_head s) (threads_tail s) (thread_count s) n (sched_ticks s) false
    (sched_ticks s) (sched_ready s) (preempt_pending s) (preempt_target s) (next_pid s)
    (if negb (aspace t =? 0) then aspace t else cr3 s)
    (if negb (stack t =? 0) then kernel_stack_of t else kernel_stack s) (s_heap s) (s_files s).

Definition sched_resched_locked s : flow (sched H T) :=
  if negb (sched_ready s) || (current_thread s =? 0) then Returned s
  else
    let start := next (cur s) in
    let start := if start =? 0 then threads_head s else start in
    match (if start =? 0 then Some 0 else find_runnable (S (size (threads s))) s start start) with
    | None => Looping
    | Some next_thread =>
        if next_thread =? 0 then
          if decide (state (cur s) = THREAD_RUNNING) then Returned s
          else if decide (state (cur s) = THREAD_DEAD) then Halted s
          else Returned s
        else if next_thread =? current_thread s then Returned s
        else Switched (switch_to (current_thread s) next_thread s)
    end.

Definition sched_yield s : flow (sched H T) := sched_resched_locked s.

(** [for (i = 0; i < 16; ++i)]: release what the thread holds. *)
Fixpoint release_fds (fds_ : list Z) s : result (sched H T) :=
  match fds_ with
  | [] => Ret s
  | fd :: fds' =>
      if 0 <=? fd then
        '(t, h) ← ft_release fd (s_files s) (s_heap s);
        release_fds fds' (with_files (with_heap s h) t)
      else release_fds fds' s
  end.

Definition closed_fds (fds_ : list Z) : list Z := (λ fd, if 0 <=? fd then -1 else fd) <$> fds_.

Definition sched_exit s : result (flow (sched H T)) :=
  s ← (if negb (current_thread s =? 0) then
         let s := upd_cur (set_state THREAD_DEAD) s in
         s ← release_fds (fds (cur s)) s;
         Ret (upd_cur (λ x, set_fds (closed_fds (fds x)) x) s)
       else Ret s);
  Ret (match sched_resched_locked s with Returned s' => Halted s' | f => f end).

Definition sched_exit_current s : result (flow (sched H T)) := sched_exit s.
Definition sched_start s : result (flow (sched H T)) := sched_exit s.

(** ** The current thread's attributes *)

Definition sched_set_current_aspace (pml4_phys : Z) s : sched H T :=
  if negb (current_thread s =? 0) then upd_cur (set_aspace pml4_phys) s else s.
Definition sched_set_current_exit_to_kernel (enable : Z) s : sched H T :=
  if negb (current_thread s =? 0) then upd_cur (set_exit_to_kernel (negb (enable =? 0))) s else s.
Definition sched_current_exit_to_kernel s : Z :=
  if current_thread s =? 0 then 0 else if exit_to_kernel (cur s) then 1 else 0.
Definition sched_current_aspace s : Z := if current_thread s =? 0 then 0 else aspace (cur s).
Definition sched_current_pid s : Z := if current_thread s =? 0 then 0 else pid (cur s).
Definition sched_get_ppid s (pid_ : Z) : Z :=
  if pid_ <=? 0 then 0
  else let t := find_thread s pid_ in if t =? 0 then 0 else ppid (thr s t).
Definition sched_set_current_exit_code (code : Z) s : sched H T :=
  if negb (current_thread s =? 0) then upd_cur (set_exit_code code) s else s.

(** What is stored in [buf] (of at least two bytes). *)
Definition sched_get_cwd s (size_ : Z) : list Z :=
  if size_ =? 0 then []
  else if negb (current_thread s =? 0) then take (Z.to_nat (size_ - 1)) (cstr (cwd (cur s))) ++ [0]
  else [47; 0].
Definition sched_set_cwd (buf : list Z) s : sched H T :=
  if negb (current_thread s =? 0)
  then upd_cur (λ t, set_cwd (store (cwd t) 0 (take 255 (cstr buf) ++ [0])) t) s else s.

Definition sched_get_fd s (fd : Z) : Z :=
  if (fd <? 0) || (16 <=? fd) then -1
  else if negb (current_thread s =? 0) then nth (Z.to_nat fd) (fds (cur s)) 0 else -1.
Definition sched_set_fd (fd global_handle : Z) s : sched H T :=
  if (fd <? 0) || (16 <=? fd) then s
  else if negb (current_thread s =? 0)
  then upd_cur (λ t, set_fds (<[Z.to_nat fd := global_handle]> (fds t)) t) s else s.
Definition sched_allocate_fd (global_handle : Z) s : Z * sched H T :=
  if global_handle <? 0 then (-1, s)
  else if negb (current_thread s =? 0) then
    match find_range 0 16 (λ i, nth (Z.to_nat i) (fds (cur s)) 0 =? -1) with
    | Some i => (i, upd_cur (λ t, set_fds (<[Z.to_nat i := global_handle]> (fds t)) t) s)
    | None => (-1, s)
    end
  else (-1, s).

(** ** Waiting for children *)

(** The [while] loop of [sched_wait_child]: the first dead child not yet
    waited for, or whether there is a child at all. *)
Inductive scan := Reap (t : Z) | Found (has_child : bool) | Endless.

Fixpoint scan_children (fuel : nat) s (parent_pid t : Z) (has_child : bool) : scan :=
  if t =? 0 then Found has_child
  else
    match fuel with
    | O => Endless
    | S fuel' =>
        let x := thr s t in
        if is_user x && (ppid x =? parent_pid) then
          if bool_decide (state x = THREAD_DEAD) && negb (reaped x) then Reap t
          else scan_children fuel' s parent_pid (next x) true
        else scan_children fuel' s parent_pid (next x) has_child
    end.

(** Removing and freeing it. *)
Definition reap (t : Z) s : result (sched H T) :=
  let s := upd t (set_reaped true) s in
  let s := list_remove t s in
  h ← (if negb (stack (thr s t) =? 0) then al_free (s_heap s) (stack (thr s t)) else Ret (s_heap s));
  free_thread t (with_heap s h).

(** Returns the pid and the exit code; [env] is what happens from each
    [sched_yield] until this thread runs again. *)
Fixpoint sched_wait_child (env : list (sched H T → sched H T)) (parent_pid : Z) s
    : result (outcome (Z * Z * sched H T)) :=
  if parent_pid <? 0 then Ret (Done (-1, 0, s))
  else
    match scan_children (S (size (threads s))) s parent_pid (threads_head s) false with
    | Reap t =>
        let pid_ := pid (thr s t) in
        let code := exit_code (thr s t) in
        s ← reap t s; Ret (Done (pid_, code, s))
    | Found false => Ret (Done (-1, 0, s))
    | Found true =>
        match env with
        | [] => Ret (Waiting (0, 0, s))
        | e :: env' => sched_wait_child env' parent_pid (e s)
        end
    | Endless => Ret Spinning
    end.

(** [while (t)] over the list. *)
Fixpoint kill_loop (fuel : nat) (t : Z) s : sched H T :=
  match fuel with
  | O => s
  | S fuel' =>
      if t =? 0 then s
      else
        let s := if negb (aspace (thr s t) =? 0)
          then upd t (λ x, set_reaped true (set_aspace 0 (set_state THREAD_DEAD x))) s else s in
        kill_loop fuel' (next (thr s t)) s
  end.
Definition sched_kill_user_threads s : sched H T :=
  kill_loop (S (size (threads s))) (threads_head s) s.

(** ** The timer *)

Definition with_clock s (ticks : Z) (need : bool) : sched H T :=
  mk_sched (threads s) (threads_head s) (threads_tail s) (thread_count s) (current_thread s) ticks
    need (last_switch_tick s) (sched_ready s) (preempt_pending s) (preempt_target s) (next_pid s)
    (cr3 s) (kernel_stack s) (s_heap s) (s_files s).

Definition sched_on_tick s : sched H T :=
  let ticks := w64 (sched_ticks s + 1) in
  if negb (sched_ready s) then with_clock s ticks (need_resched s)
  else with_clock s ticks
    (if time_slice_ticks <=? w64 (ticks - last_switch_tick s) then true else need_resched s).

Definition sched_maybe_preempt s : flow (sched H T) :=
  if negb (sched_ready s) then Returned s
  else if need_resched s then sched_yield s else Returned s.

(** [frame] is the [cs] and [rip] of the interrupt frame, [trampoline] the
    address of [sched_preempt_trampoline]; returns the value, the new [rip]
    and the state. *)
Definition sched_request_preempt (trampoline : Z) (frame : option (Z * Z)) s : Z * Z * sched H T :=
  match frame with
  | None => (0, 0, s)
  | Some (cs, rip_) =>
      if negb (sched_ready s) || negb (need_resched s) then (0, rip_, s)
      else if negb (Z.land cs 0x3 =? 0) then (0, rip_, s)
      else if negb (current_thread s =? 0) && negb (aspace (cur s) =? 0) then (0, rip_, s)
      else if preempt_pending s then (0, rip_, s)
      else (1, trampoline,
        mk_sched (threads s) (threads_head s) (threads_tail s) (thread_count s) (current_thread s)
          (sched_ticks s) (need_resched s) (last_switch_tick s) (sched_ready s) true rip_ (next_pid s)
          (cr3 s) (kernel_stack s) (s_heap s) (s_files s))
  end.

(** ** Wait queues *)

Definition wait_queue_init : wait_queue := mk_wq 0 0.

(** The current thread goes to the end of the queue. *)
Definition enqueue (wq : wait_queue) s : wait_queue * sched H T :=
  let c := current_thread s in
  let s := upd c (set_state THREAD_BLOCKED) s in
  let s := upd c (set_wait_next 0) s in
  if negb (wq_tail wq =? 0) then (mk_wq (wq_head wq) c, upd (wq_tail wq) (set_wait_next c) s)
  else (mk_wq c c, s).

Definition sched_sleep (wq : wait_queue) s : wait_queue * flow (sched H T) :=
  if negb (current_thread s =? 0) then
    let '(wq, s) := enqueue wq s in (wq, sched_resched_locked s)
  else (wq, Returned s).

(** [cond] is the value of the condition, [None] for a null pointer. *)
Definition sched_sleep_cond (wq : wait_queue) (cond : option bool) s : wait_queue * flow (sched H T) :=
  if default false cond then (wq, Returned s) else sched_sleep wq s.

Definition sched_wake_one (wq : wait_queue) s : wait_queue * sched H T :=
  let t := wq_head wq in
  if negb (t =? 0) then
    let head := wait_next (thr s t) in
    let wq := mk_wq head (if head =? 0 then 0 else wq_tail wq) in
    (wq, upd t (λ x, set_state THREAD_RUNNABLE (set_wait_next 0 x)) s)
  else (wq, s).

Fixpoint wake_loop (fuel : nat) (t : Z) s : option (sched H T) :=
  if t =? 0 then Some s
  else
    match fuel with
    | O => None
    | S fuel' =>
        let next_ := wait_next (thr s t) in
        wake_loop fuel' next_ (upd t (λ x, set_state THREAD_RUNNABLE (set_wait_next 0 x)) s)
    end.
(** [None] when the queue is longer than there are threads. *)
Definition sched_wake_all (wq : wait_queue) s : wait_queue * option (sched H T) :=
  (mk_wq 0 0, wake_loop (S (size (threads s))) (wq_head wq) s).
End Ops.
End Sched.
