(* ===== verification/SchedList.v ===== *)
(** * The list of threads

    [dll m pv l nx]: the objects at the addresses [l] are linked in that order
    by [next] and [prev], from [pv] to [nx].  [list_append] and [list_remove]
    of sched.c compute the list operations their names say. *)

From S2P Require Import Prelude CString Bytes Alloc Sched.
From stdpp Require Import options.
Import Sched.

Module SchedList.

Fixpoint dll (m : gmap Z thread) (pv : Z) (l : list Z) (nx : Z) : Prop :=
  match l with
  | [] => True
  | p :: l' => ∃ t, m !! p = Some t ∧ prev t = pv ∧ next t = hd nx l' ∧ dll m p l' nx
  end.

(** The links of two stores agree. *)
Definition links (t : thread) : Z * Z := (prev t, next t).
Definition same_links (m m' : gmap Z thread) (l : list Z) : Prop :=
  ∀ p, p ∈ l → links <$> m' !! p = links <$> m !! p.

Lemma dll_frame m m' l : ∀ pv nx, same_links m m' l → dll m pv l nx → dll m' pv l nx.
Proof.
  induction l as [|p l IH]; intros pv nx Hs H; [done|]. destruct H as (t & Ht & Hp & Hn & H).
  pose proof (Hs p ltac:(set_solver)) as E. rewrite Ht in E.
  destruct (m' !! p) as [t'|] eqn:Ht'; [|done]. injection E as E1 E2. exists t'.
  split_and!; [done|congruence|congruence|]. apply IH; [|done]. intros q Hq. apply Hs. set_solver.
Qed.

Definition last_or (pv : Z) (l : list Z) : Z := default pv (last l).

Lemma last_or_cons pv p l : last_or pv (p :: l) = last_or p l.
Proof. unfold last_or. by destruct l as [|q l] using rev_ind; [|rewrite app_comm_cons, !last_snoc]. Qed.

Lemma hd_app {A} (d : A) l1 l2 : hd d (l1 ++ l2) = hd (hd d l2) l1.
Proof. by destruct l1. Qed.

Lemma dll_app m l1 : ∀ pv l2 nx,
  dll m pv (l1 ++ l2) nx ↔ dll m pv l1 (hd nx l2) ∧ dll m (last_or pv l1) l2 nx.
Proof.
  induction l1 as [|p l1 IH]; intros pv l2 nx; simpl; [naive_solver|].
  rewrite last_or_cons. setoid_rewrite IH. rewrite hd_app. naive_solver.
Qed.

(** Changing the last [next], or the first [prev]. *)
Lemma dll_set_next m l p : ∀ pv nx nx',
  NoDup (l ++ [p]) → dll m pv (l ++ [p]) nx → dll (alter (set_next nx') p m) pv (l ++ [p]) nx'.
Proof.
  intros pv nx nx' Hnd [H1 H2]%dll_app. apply dll_app. split.
  - eapply dll_frame; [|exact H1]. intros q Hq. rewrite lookup_alter_ne; [done|].
    apply NoDup_app in Hnd as (_ & Hnd & _). intros ->. apply (Hnd q Hq). set_solver.
  - destruct H2 as (t & Ht & Hp & Hn & _). exists (set_next nx' t).
    by rewrite lookup_alter_eq, Ht.
Qed.

Lemma dll_set_prev m l p : ∀ pv nx pv',
  NoDup (p :: l) → dll m pv (p :: l) nx → dll (alter (set_prev pv') p m) pv' (p :: l) nx.
Proof.
  intros pv nx pv' [Hp Hnd]%NoDup_cons (t & Ht & _ & Hn & H). exists (set_prev pv' t).
  rewrite lookup_alter_eq, Ht. split_and!; [done|done|done|].
  eapply dll_frame; [|exact H]. intros q Hq. rewrite lookup_alter_ne; [done|]. intros ->. done.
Qed.

(** [l] is the list of threads. *)
Record thread_list {H T} (s : sched H T) (l : list Z) : Prop := {
  tl_dll : dll (threads s) 0 l 0;
  tl_head : threads_head s = hd 0 l;
  tl_tail : threads_tail s = last_or 0 l;
  tl_count : thread_count s = Z.of_nat (length l);
  tl_dom : ∀ p, is_Some (threads s !! p) ↔ p ∈ l;
  tl_nodup : NoDup l;
  tl_null : 0 ∉ l;
}.

Section List.
Context {H T : Type}.
Implicit Types s : sched H T.

Lemma thr_lookup s p t : threads s !! p = Some t → thr s p = t.
Proof. unfold thr. by intros ->. Qed.

(** Changes to the objects that keep the links keep the list. *)
Lemma thread_list_frame s s' l :
  (∀ p, links <$> threads s' !! p = links <$> threads s !! p) →
  threads_head s' = threads_head s → threads_tail s' = threads_tail s → thread_count s' = thread_count s →
  thread_list s l → thread_list s' l.
Proof.
  intros Hl Hh Ht Hc [D Eh Et Ec Hd Hn H0]. split; try congruence.
  - eapply dll_frame; [|exact D]. intros p _. apply Hl.
  - intros p. rewrite <- Hd, <- !not_eq_None_Some. specialize (Hl p).
    destruct (threads s !! p), (threads s' !! p); naive_solver.
Qed.

Lemma upd_links s p f q :
  (∀ t, links (f t) = links t) → links <$> threads (upd p f s) !! q = links <$> threads s !! q.
Proof.
  intros Hf. unfold upd. cbn [threads with_threads]. destruct (decide (p = q)) as [->|].
  - rewrite lookup_alter_eq. destruct (threads s !! q); simpl; [by rewrite Hf|done].
  - by rewrite lookup_alter_ne.
Qed.

Lemma thread_list_upd s l p f :
  (∀ t, links (f t) = links t) → thread_list s l → thread_list (upd p f s) l.
Proof. intros Hf. apply thread_list_frame; try done. intros q. by apply upd_links. Qed.

(** A new object at a fresh address goes to the end. *)
Lemma list_append_spec s l p t :
  thread_list s l → p ∉ l → p ≠ 0 →
  thread_list (list_append p (with_threads s (<[p := t]> (threads s)))) (l ++ [p]).
Proof.
  intros [D Eh Et Ec Hd Hn H0] Hp Hp0.
  assert (NoDup (l ++ [p])) as Hn' by (apply NoDup_app; split_and!; [done|set_solver|apply NoDup_singleton]).
  unfold list_append. rewrite (proj2 (Z.eqb_neq p 0) Hp0). cbv zeta.
  set (s1 := upd p (set_prev _) _).
  assert (threads s1 !! p = Some (set_prev (threads_tail s) (set_next 0 t))) as Hm1
    by (subst s1; cbn [threads upd with_threads threads_tail]; by rewrite !lookup_alter_eq, lookup_insert_eq).
  assert (∀ q, q ≠ p → threads s1 !! q = threads s !! q) as Hm1'
    by (intros q Hq; subst s1; cbn [threads upd with_threads]; by rewrite !lookup_alter_ne, lookup_insert_ne).
  assert (threads_head s1 = threads_head s ∧ threads_tail s1 = threads_tail s ∧ thread_count s1 = thread_count s)
    as (Eh1 & Et1 & Ec1) by done. clearbody s1. rewrite Et1.
  assert (dll (threads s1) 0 l 0) as D1.
  { eapply dll_frame; [|exact D]. intros q Hq. rewrite Hm1'; [done|]. intros ->. done. }
  assert (∀ x, is_Some (threads s1 !! x) ↔ x ∈ l ++ [p]) as Hd1.
  { intros x. destruct (decide (x = p)) as [->|Hx]; [rewrite Hm1|rewrite Hm1', Hd by done]; set_solver. }
  assert (0 ∉ l ++ [p]) as H01 by set_solver.
  destruct l as [|q l _] using rev_ind.
  - rewrite Et in *. change (negb (last_or 0 [] =? 0)) with false. cbv iota beta.
    split; cbn [threads threads_head threads_tail thread_count with_list]; auto.
    + exists (set_prev (last_or 0 []) (set_next 0 t)). done.
    + rewrite Ec1, Ec. done.
  - assert (threads_tail s = q) as Etq by (rewrite Et; unfold last_or; by rewrite last_snoc).
    assert (q ≠ 0 ∧ q ≠ p) as [Hq0 Hqp] by set_solver.
    rewrite Etq in *. rewrite (proj2 (Z.eqb_neq q 0) Hq0). cbn [negb].
    split; cbn [threads threads_head threads_tail thread_count with_list upd with_threads]; auto.
    + apply dll_app. split; [by apply (dll_set_next (threads s1) l q 0 0)|].
      exists (set_prev q (set_next 0 t)). rewrite lookup_alter_ne by done. unfold last_or. by rewrite last_snoc.
    + rewrite Eh1, Eh. by destruct l.
    + unfold last_or. by rewrite last_snoc.
    + rewrite Ec1, Ec, !length_app. simpl. lia.
    + intros x. by rewrite lookup_alter_is_Some.
Qed.

(** Unlinking: the two steps of [list_remove] on the store. *)
Definition unlink_prev (m : gmap Z thread) (pv nx : Z) : gmap Z thread :=
  if negb (pv =? 0) then alter (set_next nx) pv m else m.
Definition unlink_next (m : gmap Z thread) (pv nx : Z) : gmap Z thread :=
  if negb (nx =? 0) then alter (set_prev pv) nx m else m.

Lemma unlink_prev_dll m l nx nx' :
  NoDup l → 0 ∉ l → dll m 0 l nx → dll (unlink_prev m (last_or 0 l) nx') 0 l nx'.
Proof.
  intros Hn H0 D. unfold unlink_prev. destruct l as [|q l _] using rev_ind; [done|].
  unfold last_or. rewrite last_snoc. cbn [default]. simpl.
  rewrite (proj2 (Z.eqb_neq q 0)) by set_solver. by apply (dll_set_next m l q 0 nx).
Qed.

Lemma unlink_next_dll m pv pv' l :
  NoDup l → 0 ∉ l → dll m pv l 0 → dll (unlink_next m pv' (hd 0 l)) pv' l 0.
Proof.
  intros Hn H0 D. unfold unlink_next. destruct l as [|q l]; [done|]. cbn [hd].
  rewrite (proj2 (Z.eqb_neq q 0)) by set_solver. by apply (dll_set_prev m l q pv 0).
Qed.

Lemma unlink_prev_ne m pv nx q : q ≠ pv → unlink_prev m pv nx !! q = m !! q.
Proof. intros Hq. unfold unlink_prev. destruct (negb _); [by rewrite lookup_alter_ne|done]. Qed.
Lemma unlink_next_ne m pv nx q : q ≠ nx → unlink_next m pv nx !! q = m !! q.
Proof. intros Hq. unfold unlink_next. destruct (negb _); [by rewrite lookup_alter_ne|done]. Qed.

(** An object without its links. *)
Definition sans (t : thread) : thread := set_prev 0 (set_next 0 t).

Lemma alter_sans (f : thread → thread) (p q : Z) (m : gmap Z thread) :
  (∀ t, sans (f t) = sans t) → sans <$> alter f p m !! q = sans <$> m !! q.
Proof.
  intros Hf. destruct (decide (p = q)) as [->|]; [|by rewrite lookup_alter_ne].
  rewrite lookup_alter_eq. destruct (m !! q); simpl; [by rewrite Hf|done].
Qed.
Lemma unlink_prev_sans m pv nx q : sans <$> unlink_prev m pv nx !! q = sans <$> m !! q.
Proof. unfold unlink_prev. destruct (negb _); [by apply alter_sans|done]. Qed.
Lemma unlink_next_sans m pv nx q : sans <$> unlink_next m pv nx !! q = sans <$> m !! q.
Proof. unfold unlink_next. destruct (negb _); [by apply alter_sans|done]. Qed.

Lemma last_or_in l : last_or 0 l = 0 ∨ last_or 0 l ∈ l.
Proof.
  destruct l as [|q l _] using rev_ind; [by left|right]. unfold last_or. rewrite last_snoc. set_solver.
Qed.
Lemma hd_in l : hd 0 l = 0 ∨ hd 0 l ∈ l.
Proof. destruct l; [by left|right; set_solver]. Qed.

(** The state [list_remove] computes. *)
Lemma list_remove_eq s l1 p l2 :
  thread_list s (l1 ++ p :: l2) →
  list_remove p s =
  with_threads (with_list s (hd 0 (l1 ++ l2)) (last_or 0 (l1 ++ l2)) (thread_count s - 1))
    (alter (set_prev 0) p (alter (set_next 0) p
       (unlink_next (unlink_prev (threads s) (last_or 0 l1) (hd 0 l2)) (last_or 0 l1) (hd 0 l2)))).
Proof.
  intros [D Eh Et Ec Hd Hn H0]. apply dll_app in D as [D1 (t & Ht & Hp & Hnx & D2)].
  apply NoDup_app in Hn as (Hn1 & Hn12 & [Hp2 Hn2]%NoDup_cons).
  assert (p ≠ 0) as Hp0 by set_solver. unfold list_remove. rewrite (proj2 (Z.eqb_neq p 0) Hp0).
  rewrite (thr_lookup s p t Ht), Hp, Hnx. cbv zeta.
  set (s1 := if negb (last_or 0 l1 =? 0) then _ else _).
  assert (threads s1 = unlink_prev (threads s) (last_or 0 l1) (hd 0 l2)) as E1
    by (subst s1; unfold unlink_prev; by destruct (negb _)).
  assert (thr s1 p = t) as Ht1.
  { apply thr_lookup. rewrite E1, unlink_prev_ne; [done|]. intros E. destruct (last_or_in l1) as [E0|Hin].
    - by rewrite E0 in E.
    - apply (Hn12 p); [by rewrite E|apply list_elem_of_here]. }
  rewrite Ht1, Hp, Hnx.
  assert (s1 = with_threads (with_list s (hd (hd 0 l2) l1) (threads_tail s) (thread_count s))
    (unlink_prev (threads s) (last_or 0 l1) (hd 0 l2))) as ->.
  { rewrite <- E1. subst s1. destruct l1 as [|q l1]; [done|].
    assert (last_or 0 (q :: l1) ≠ 0) as Hz by (rewrite last_or_cons; unfold last_or;
      destruct l1 as [|r l1 _] using rev_ind; simpl; [set_solver|rewrite last_snoc; set_solver]).
    rewrite (proj2 (Z.eqb_neq _ 0) Hz). cbn [negb].
    unfold upd, with_threads, with_list. simpl. by destruct s; simpl in *; subst. }
  assert (last_or 0 (l1 ++ p :: l2) = if decide (l2 = []) then p else last_or 0 (l1 ++ l2)) as El.
  { unfold last_or. destruct l2 as [|x l2 _] using rev_ind; [by rewrite last_snoc|].
    rewrite decide_False by (by destruct l2). by rewrite app_comm_cons, !app_assoc, !last_snoc. }
  rewrite El in Et. clear -Et H0 Eh. unfold unlink_next. destruct s. cbn in Et. destruct l2 as [|r l2].
  - rewrite !app_nil_r. reflexivity.
  - cbn [hd]. rewrite (proj2 (Z.eqb_neq r 0)) by set_solver. cbn [negb].
    rewrite decide_False in Et by done. rewrite Et, hd_app. reflexivity.
Qed.

Lemma list_remove_spec s l1 p l2 :
  thread_list s (l1 ++ p :: l2) →
  let s' := list_remove p s in
  thread_list (with_threads s' (delete p (threads s'))) (l1 ++ l2) ∧
  (∀ q, sans <$> threads s' !! q = sans <$> threads s !! q).
Proof.
  intros TL s'. subst s'. rewrite (list_remove_eq s l1 p l2 TL).
  destruct TL as [D Eh Et Ec Hd Hn H0]. apply dll_app in D as [D1 (t & Ht & Hp & Hnx & D2)].
  pose proof Hn as (Hn1 & Hn12 & [Hp2 Hn2]%NoDup_cons)%NoDup_app.
  set (m1 := unlink_prev (threads s) (last_or 0 l1) (hd 0 l2)).
  set (m2 := unlink_next m1 (last_or 0 l1) (hd 0 l2)).
  assert (∀ q, sans <$> m2 !! q = sans <$> threads s !! q) as Hs
    by (intros q; subst m2 m1; by rewrite unlink_next_sans, unlink_prev_sans).
  cbn [threads with_threads with_list]. split.
  2:{ intros q. rewrite !alter_sans by done. apply Hs. }
  assert (dll m2 0 (l1 ++ l2) 0) as D.
  { apply dll_app. split.
    - eapply dll_frame; [|apply (unlink_prev_dll (threads s) l1 p (hd 0 l2)); [done|set_solver|done]].
      intros q Hq. subst m2. rewrite unlink_next_ne; [done|]. intros E. destruct (hd_in l2) as [E0|Hin].
      + apply H0. rewrite <- E0, <- E. apply elem_of_app. by left.
      + apply (Hn12 q Hq). rewrite E. by apply list_elem_of_further.
    - apply (unlink_next_dll m1 p); [done|set_solver|]. eapply dll_frame; [|exact D2].
      intros q Hq. subst m1. rewrite unlink_prev_ne; [done|]. intros E. destruct (last_or_in l1) as [E0|Hin].
      + apply H0. rewrite <- E0, <- E. apply elem_of_app. right. by apply list_elem_of_further.
      + apply (Hn12 q); [by rewrite E|]. by apply list_elem_of_further. }
  assert (p ∉ l1 ++ l2) as Hpl by set_solver.
  split; cbn [threads threads_head threads_tail thread_count with_list with_threads]; auto.
  - eapply dll_frame; [|exact D]. intros q Hq.
    by rewrite lookup_delete_ne, !lookup_alter_ne by (intros ->; done).
  - rewrite Ec, !length_app. simpl. lia.
  - intros q. destruct (decide (q = p)) as [->|Hq].
    + rewrite lookup_delete_eq. split; [by intros [? ?]|done].
    + rewrite lookup_delete_ne, !lookup_alter_ne by done.
      assert (is_Some (m2 !! q) ↔ is_Some (threads s !! q)) as ->.
      { specialize (Hs q). rewrite <- !not_eq_None_Some. destruct (m2 !! q), (threads s !! q); naive_solver. }
      rewrite Hd. set_solver.
  - apply NoDup_app. split_and!; [done|set_solver|done].
  - set_solver.
Qed.
End List.
End SchedList.
