(* ===== verification/SchedInv.v ===== *)
(** * The invariant of the scheduler

    The threads form a well-formed list of typed objects, at most the current
    thread is running, and the heap blocks in use are exactly the thread
    objects, their stacks, the blocks of the table of open files and those of
    the rest of the kernel.  Every operation of the scheduler preserves it. *)

From S2P Require Import Prelude CString Bytes Alloc Sched SchedList.
From stdpp Require Import options.
Import CString Bytes Sched SchedList.

(** The table of open files owns the blocks [bs] and frees only those. *)
Class FileTableLaws (H T : Type) `{!Allocator H} `{!FileTable H T} := {
  ft_ok : T → list Z → Prop;
  ft_acquire_ok (i : Z) (t : T) (bs : list Z) : ft_ok t bs → ft_ok (ft_acquire i t) bs;
  ft_release_ok (i : Z) (t : T) (h : H) (bs ps : list Z) :
    ft_ok t bs → al_live h (bs ++ ps) →
    ∃ t' h' bs', ft_release i t h = Ret (t', h') ∧ ft_ok t' bs' ∧ al_live h' (bs' ++ ps);
}.

Module SchedInv.

(** The number of handles (syscall.c). *)
Definition HANDLE_MAX : Z := 128.

Record thread_typed (t : thread) : Prop := {
  ty_cwd : length (cwd t) = 256%nat;
  ty_cwd_end : 0 ∈ cwd t;
  ty_fds : length (fds t) = 16%nat;
  ty_fd : Forall (λ fd, -1 ≤ fd < HANDLE_MAX) (fds t);
}.

Lemma zero_thread_typed : thread_typed zero_thread.
Proof.
  split; [done|cbn [cwd zero_thread]; simpl; left|done|].
  cbn [fds zero_thread]. unfold HANDLE_MAX. repeat (constructor; [lia|]). constructor.
Qed.

Lemma default_fds_typed : length default_fds = 16%nat ∧ Forall (λ fd, -1 ≤ fd < HANDLE_MAX) default_fds.
Proof. split; [done|]. unfold HANDLE_MAX. repeat (constructor; [lia|]). constructor. Qed.

Section Inv.
Context {H T : Type} `{!Allocator H} {AL : AllocatorLaws H} `{!FileTable H T} {FL : FileTableLaws H T}.
Context (tramp : Z).
Implicit Types s : sched H T.

Definition stacks s (l : list Z) : list Z := filter (λ p, p ≠ 0) ((λ p, stack (thr s p)) <$> l).

Record sched_ok s (l bs others : list Z) : Prop := {
  so_list : thread_list s l;
  so_cur : current_thread s ∈ l ∨ (current_thread s = 0 ∧ sched_ready s = false);
  so_running : ∀ p, p ∈ l → state (thr s p) = THREAD_RUNNING → p = current_thread s;
  so_typed : ∀ p, p ∈ l → thread_typed (thr s p);
  so_files : ft_ok (s_files s) bs;
  so_live : al_live (s_heap s) (bs ++ l ++ stacks s l ++ others);
}.

(** Every address reads as a typed object. *)
Lemma so_typed_any s l bs others p : sched_ok s l bs others → thread_typed (thr s p).
Proof.
  intros Hok. destruct (decide (p ∈ l)) as [Hp|Hp]; [by apply (so_typed _ _ _ _ Hok)|].
  unfold thr. rewrite <- (tl_dom _ _ (so_list _ _ _ _ Hok)) in Hp.
  destruct (threads s !! p); [|apply zero_thread_typed]. by destruct Hp.
Qed.

Lemma stacks_ext s s' l :
  (∀ p, p ∈ l → stack (thr s' p) = stack (thr s p)) → stacks s' l = stacks s l.
Proof.
  intros Hs. unfold stacks. f_equal. apply list_fmap_ext. intros i p Hp. apply Hs.
  by eapply list_elem_of_lookup_2.
Qed.

Lemma stacks_app s l1 l2 : stacks s (l1 ++ l2) = stacks s l1 ++ stacks s l2.
Proof. unfold stacks. by rewrite fmap_app, filter_app. Qed.

Lemma stacks_one s p : stacks s [p] = if decide (stack (thr s p) = 0) then [] else [stack (thr s p)].
Proof.
  unfold stacks. cbn [fmap list_fmap]. case_decide.
  - by rewrite filter_cons_False by naive_solver.
  - by rewrite filter_cons_True by done.
Qed.

Lemma thr_upd s p f q :
  thr (upd p f s) q = if decide (p = q ∧ is_Some (threads s !! p)) then f (thr s p) else thr s q.
Proof.
  unfold thr, upd. cbn [threads with_threads]. case_decide as Hd.
  - destruct Hd as [-> [t Ht]]. by rewrite lookup_alter_eq, Ht.
  - destruct (decide (p = q)) as [->|]; [|by rewrite lookup_alter_ne].
    rewrite lookup_alter_eq. destruct (threads s !! q); [|done]. exfalso. apply Hd. eauto.
Qed.

Lemma thr_upd_eq s p f : is_Some (threads s !! p) → thr (upd p f s) p = f (thr s p).
Proof. intros Hp. by rewrite thr_upd, decide_True. Qed.
Lemma thr_upd_ne s p f q : p ≠ q → thr (upd p f s) q = thr s q.
Proof. intros Hp. by rewrite thr_upd, decide_False by naive_solver. Qed.

(** Assignments that keep links, stack and type and do not make another
    thread run. *)
Lemma sched_ok_upd s l bs others p f :
  (∀ t, links (f t) = links t) → stack (f (thr s p)) = stack (thr s p) →
  (state (f (thr s p)) = THREAD_RUNNING → state (thr s p) = THREAD_RUNNING ∨ p = current_thread s) →
  (thread_typed (thr s p) → thread_typed (f (thr s p))) →
  sched_ok s l bs others → sched_ok (upd p f s) l bs others.
Proof.
  intros Hl Hst Hrun Hty [L C R Ty F Lv]. split; auto.
  - by apply thread_list_upd.
  - intros q Hq. cbn [current_thread upd with_threads]. rewrite thr_upd. case_decide as Hd; [|by apply R].
    destruct Hd as [-> _]. intros [?|?]%Hrun; auto.
  - intros q Hq. rewrite thr_upd. case_decide as Hd; [|by apply Ty]. destruct Hd as [-> _]. auto.
  - cbn [s_heap upd with_threads]. rewrite (stacks_ext s); [done|]. intros q Hq.
    rewrite thr_upd. case_decide as Hd; [|done]. by destruct Hd as [-> _].
Qed.

(** Changes to the other variables. *)
Lemma sched_ok_same s s' l bs others :
  threads s' = threads s → threads_head s' = threads_head s → threads_tail s' = threads_tail s →
  thread_count s' = thread_count s → current_thread s' = current_thread s →
  sched_ready s' = sched_ready s → s_heap s' = s_heap s → ft_ok (s_files s') bs →
  sched_ok s l bs others → sched_ok s' l bs others.
Proof.
  intros E1 E2 E3 E4 E5 E6 E7 E8 [L C R Ty F Lv].
  assert (∀ p, thr s' p = thr s p) as Et by (intros p; unfold thr; by rewrite E1).
  split; rewrite ?E5, ?E6, ?E7; auto.
  - destruct L as [D Eh Ett Ec Hd Hn H0]. split; rewrite ?E1; auto; congruence.
  - intros p. rewrite Et. apply R.
  - intros p. rewrite Et. apply Ty.
  - by rewrite (stacks_ext s) by (intros; by rewrite Et).
Qed.

Lemma sched_ok_acquire s l bs others i : sched_ok s l bs others → sched_ok (acquire i s) l bs others.
Proof. intros Hok. apply (sched_ok_same s); try done. apply ft_acquire_ok, Hok. Qed.

Lemma sched_ok_inherit fs : ∀ s l bs others,
  sched_ok s l bs others → sched_ok (inherit_fds fs s) l bs others.
Proof.
  induction fs as [|fd fs IH]; intros s l bs others Hok; [done|]. unfold inherit_fds in *. cbn [foldl].
  apply IH. destruct (0 <=? fd); [by apply sched_ok_acquire|done].
Qed.

(** ** Creating threads *)

Lemma list_append_shape p s :
  ∃ m h t c, list_append p s = with_threads (with_list s h t c) m ∧
    ∀ q, sans <$> m !! q = sans <$> threads s !! q.
Proof.
  unfold list_append. destruct (p =? 0).
  { exists (threads s), (threads_head s), (threads_tail s), (thread_count s). by destruct s. }
  cbn [threads_tail upd with_threads]. destruct (negb (threads_tail s =? 0));
    eexists _, _, _, _; (split; [by unfold upd, with_threads, with_list|]);
    intros q; cbn [threads upd with_threads]; by rewrite !alter_sans.
Qed.

Lemma sans_stack t t' : sans t = sans t' → stack t = stack t' ∧ state t = state t' ∧
  cwd t = cwd t' ∧ fds t = fds t'.
Proof. intros E. split_and!; [by apply (f_equal stack) in E|by apply (f_equal state) in E|by apply (f_equal cwd) in E|by apply (f_equal fds) in E]. Qed.

Lemma thread_alloc_ok s l bs others t s' :
  sched_ok s l bs others → al_room (s_heap s) SIZEOF_THREAD 16 →
  thread_alloc s = Ret (t, s') →
  (t ∉ l) ∧ t ≠ 0 ∧ sched_ok s' (l ++ [t]) bs others ∧ stack (thr s' t) = 0 ∧
  al_alloc (s_heap s) SIZEOF_THREAD 16 = Ret (t, s_heap s').
Proof using AL.
  intros Hok Hroom E. pose proof Hok as [L C R Ty F Lv]. unfold thread_alloc in E.
  apply bind_Ret in E as ([t0 h] & Ha & E).
  destruct (al_alloc_fresh (s_heap s) h _ SIZEOF_THREAD 16 t0 Lv ltac:(done) Hroom Ha) as (Hfr & Hnz & Lv').
  rewrite (proj2 (Z.eqb_neq t0 0) Hnz) in E.
  assert (t0 ∉ l) as Htl by set_solver.
  pose proof (list_append_spec s l t0 zero_thread L Htl Hnz) as L'.
  set (s0 := with_threads (with_heap s h) _) in E.
  destruct (list_append_shape t0 s0) as (m & hd_ & tl_ & c & Es & Hm). injection E as <- <-.
  split; [done|]. split; [done|].
  assert (thread_list (list_append t0 s0) (l ++ [t0])) as L2.
  { destruct L' as [D Eh Et Ec Hd Hn H0]. unfold list_append in *. rewrite (proj2 (Z.eqb_neq t0 0) Hnz) in *.
    subst s0. cbn [threads_tail upd with_threads with_heap with_list threads] in *.
    destruct (negb (threads_tail s =? 0)); by split. }
  rewrite Es in *. set (s' := with_threads (with_list s0 hd_ tl_ c) m) in *.
  assert (∀ q, q ∈ l → sans (thr s' q) = sans (thr s q)) as Hq.
  { intros q Hq. pose proof (proj2 (tl_dom _ _ L q) Hq) as [x Hx]. specialize (Hm q).
    subst s0. cbn [threads with_threads] in Hm. rewrite lookup_insert_ne in Hm by (intros ->; done).
    rewrite (thr_lookup s q x Hx). unfold thr. subst s'. cbn [threads with_threads].
    cbn [threads with_heap] in Hm. rewrite Hx in Hm. destruct (m !! q); [by apply (inj Some) in Hm|done]. }
  assert (sans (thr s' t0) = sans zero_thread) as Ht0.
  { specialize (Hm t0). subst s0. cbn [threads with_threads] in Hm. rewrite lookup_insert_eq in Hm.
    unfold thr. subst s'. cbn [threads with_threads]. destruct (m !! t0); [by apply (inj Some) in Hm|done]. }
  apply sans_stack in Ht0 as (Ht1 & Ht2 & Ht3 & Ht4).
  split; [|split; [done|by rewrite Ha]].
  split; auto.
  - subst s' s0. cbn [current_thread sched_ready with_threads with_list with_heap]. set_solver.
  - intros p [Hp| ->%list_elem_of_singleton]%elem_of_app; [|by rewrite Ht2].
    destruct (sans_stack _ _ (Hq p Hp)) as (_ & -> & _). by apply R.
  - intros p [Hp| ->%list_elem_of_singleton]%elem_of_app.
    + destruct (sans_stack _ _ (Hq p Hp)) as (_ & _ & E3 & E4). destruct (Ty p Hp). split; congruence.
    + destruct zero_thread_typed. split; congruence.
  - change (s_heap s') with h. eapply al_live_perm; [|exact Lv'].
    rewrite stacks_app, (stacks_one s'), Ht1, (stacks_ext s s' l)
      by (intros p Hp; by destruct (sans_stack _ _ (Hq p Hp)) as (? & _)).
    rewrite decide_True, app_nil_r by done. solve_Permutation.
Qed.

Lemma stacks_perm s l l' : l ≡ₚ l' → stacks s l ≡ₚ stacks s l'.
Proof. intros E. unfold stacks. by rewrite E. Qed.

(** Giving a thread its stack. *)
Lemma set_stack_ok s l bs others p h stk :
  sched_ok s l bs others → p ∈ l → stack (thr s p) = 0 → stk ≠ 0 →
  al_live h (stk :: bs ++ l ++ stacks s l ++ others) →
  sched_ok (upd p (set_stack stk) (with_heap s h)) l bs others.
Proof using AL.
  intros [L C R Ty F Lv] Hp Hst Hk Lv'.
  assert (∀ q, thr (with_heap s h) q = thr s q) as Hth by done.
  pose proof (proj2 (tl_dom _ _ L p) Hp) as Hsome.
  assert (∀ q, thr (upd p (set_stack stk) (with_heap s h)) q =
    if decide (p = q) then set_stack stk (thr s p) else thr s q) as Hq.
  { intros q. rewrite thr_upd, !Hth. destruct (decide (p = q)) as [->|].
    - by rewrite decide_True.
    - by rewrite decide_False by naive_solver. }
  assert (thread_list (upd p (set_stack stk) (with_heap s h)) l) as L1
    by (apply thread_list_upd; [done|]; by destruct L).
  set (s1 := upd p (set_stack stk) (with_heap s h)) in *.
  assert (s_heap s1 = h ∧ s_files s1 = s_files s ∧ current_thread s1 = current_thread s ∧
    sched_ready s1 = sched_ready s) as (E1 & E2 & E3 & E4) by done. clearbody s1.
  split; rewrite ?E2, ?E3, ?E4; auto.
  - intros q Hin. rewrite Hq. case_decide; subst; [|by apply R]. cbn [state set_stack]. by apply R.
  - intros q Hin. rewrite Hq. case_decide; subst; [|by apply Ty]. destruct (Ty q Hin). by split.
  - rewrite E1. eapply al_live_perm; [|exact Lv'].
    apply elem_of_Permutation in Hp as (l' & El).
    rewrite (stacks_perm s1 l (p :: l') El), (stacks_perm s l (p :: l') El).
    change (p :: l') with ([p] ++ l'). rewrite !stacks_app, (stacks_one s1), (stacks_one s), Hst.
    assert (stack (thr s1 p) = stk) as -> by (by rewrite Hq, decide_True).
    rewrite (decide_False (P := stk = 0)), (decide_True (P := 0 = 0)) by done.
    pose proof (tl_nodup _ _ L) as Hnd. rewrite El in Hnd. apply NoDup_cons in Hnd as [Hpl _].
    rewrite (stacks_ext s s1 l') by (intros q Hin; by rewrite Hq, decide_False by (intros ->; done)).
    solve_Permutation.
Qed.

Lemma finish_create_ok s l bs others p r s' :
  sched_ok s l bs others → p ∈ l → stack (thr s p) = 0 → al_room (s_heap s) STACK_SIZE 16 →
  finish_create tramp p s = Ret (r, s') → r = 0 ∧ sched_ok s' l bs others.
Proof using AL.
  intros Hok Hp Hst Hroom E. unfold finish_create in E. apply bind_Ret in E as ([stk h] & Ha & E).
  destruct (al_alloc_fresh (s_heap s) h _ STACK_SIZE 16 stk (so_live _ _ _ _ Hok) ltac:(done) Hroom Ha)
    as (_ & Hnz & Lv').
  rewrite (proj2 (Z.eqb_neq stk 0) Hnz) in E. injection E as <- <-. split; [done|].
  pose proof (set_stack_ok s l bs others p h stk Hok Hp Hst Hnz Lv') as Hok'.
  set (s1 := upd p _ _) in *. clearbody s1. unfold arch_thread_setup. destruct (_ || _); [done|].
  apply sched_ok_upd; try done; [by intros; left|]. intros []. by split.
Qed.

(** The heap has room for a thread and its stack. *)
Definition create_room s : Prop :=
  al_room (s_heap s) SIZEOF_THREAD 16 ∧
  ∀ t h, al_alloc (s_heap s) SIZEOF_THREAD 16 = Ret (t, h) → al_room h STACK_SIZE 16.

Lemma cwd_root_typed t :
  thread_typed t → length (<[1%nat:=0]> (<[0%nat:=47]> (cwd t))) = 256%nat ∧
  0 ∈ <[1%nat:=0]> (<[0%nat:=47]> (cwd t)).
Proof.
  intros [H1 _ _ _]. rewrite !length_insert. split; [done|].
  apply list_elem_of_lookup_2 with 1%nat. apply list_lookup_insert_eq. rewrite length_insert. lia.
Qed.

(** A new thread without its stack. *)
Definition fresh_thread s (l bs others : list Z) (t : Z) (h : H) : Prop :=
  sched_ok s l bs others ∧ t ∈ l ∧ stack (thr s t) = 0 ∧ s_heap s = h.

Lemma fresh_upd s l bs others t h f :
  (∀ x, links (f x) = links x) → (∀ x, stack (f x) = stack x) →
  (state (f (thr s t)) ≠ THREAD_RUNNING ∨ state (f (thr s t)) = state (thr s t)) →
  (thread_typed (thr s t) → thread_typed (f (thr s t))) →
  fresh_thread s l bs others t h → fresh_thread (upd t f s) l bs others t h.
Proof.
  intros H1 H2 H3 H4 (Hok & Hin & Hst & Hh). split; [|split; [done|split; [|done]]].
  - apply sched_ok_upd; auto. destruct H3 as [?| ->]; [done|by left].
  - rewrite thr_upd. by case_decide; rewrite ?H2.
Qed.

Lemma fresh_acquire s l bs others t h i :
  fresh_thread s l bs others t h → fresh_thread (acquire i s) l bs others t h.
Proof. intros (Hok & ?). split; [by apply sched_ok_acquire|done]. Qed.

Lemma fresh_inherit fs : ∀ s l bs others t h,
  fresh_thread s l bs others t h → fresh_thread (inherit_fds fs s) l bs others t h.
Proof.
  induction fs as [|fd fs IH]; intros s l bs others t h Hf; [done|]. unfold inherit_fds in *. cbn [foldl].
  apply IH. destruct (0 <=? fd); [by apply fresh_acquire|done].
Qed.

Lemma fresh_finish s l bs others t h r s' :
  fresh_thread s l bs others t h → al_room h STACK_SIZE 16 →
  finish_create tramp t s = Ret (r, s') → r = 0 ∧ sched_ok s' l bs others.
Proof using AL. intros (Hok & Hin & Hst & <-) Hr E. eapply finish_create_ok; eauto. Qed.

Lemma sched_create_ok s l bs others e a r s' :
  sched_ok s l bs others → create_room s → sched_create tramp e a s = Ret (r, s') →
  ∃ l', sched_ok s' l' bs others ∧ ((l' = l ∧ r = -1 ∧ e = 0) ∨ ∃ t, (t ∉ l) ∧ l' = l ++ [t] ∧ r = 0).
Proof using AL.
  intros Hok [Hr1 Hr2] E. unfold sched_create in E. destruct (Z.eqb_spec e 0).
  { injection E as <- <-. exists l. auto. }
  apply bind_Ret in E as ([t s1] & Ha & E).
  destruct (thread_alloc_ok s l bs others t s1 Hok Hr1 Ha) as (Ht & Hnz & Hok1 & Hst & Hal).
  rewrite (proj2 (Z.eqb_neq t 0) Hnz) in E.
  apply (fresh_finish _ (l ++ [t]) bs others t (s_heap s1)) in E as [-> Hok3]; [|clear E|by apply (Hr2 t)].
  - exists (l ++ [t]). split; [done|]. right. by exists t.
  - do 3 apply fresh_acquire. apply fresh_upd; try done; [by left| |split_and!; auto; set_solver].
    intros Hty. destruct (cwd_root_typed _ Hty), default_fds_typed. by split.
Qed.

Lemma thread_alloc_pid s t s' : thread_alloc s = Ret (t, s') → next_pid s' = next_pid s.
Proof.
  intros Ha. unfold thread_alloc in Ha. apply bind_Ret in Ha as ([t0 h] & _ & Ha).
  destruct (t0 =? 0); injection Ha as <- <-; [done|].
  by destruct (list_append_shape t0 (with_threads (with_heap s h) (<[t0:=zero_thread]> (threads s))))
    as (? & ? & ? & ? & -> & _).
Qed.

(** Up to its stack, the new thread is set up. *)
Lemma create_user_fresh s l bs others e a pp t s1 :
  sched_ok s l bs others → al_room (s_heap s) SIZEOF_THREAD 16 → e ≠ 0 → thread_alloc s = Ret (t, s1) →
  ∃ s3, fresh_thread s3 (l ++ [t]) bs others t (s_heap s1) ∧ (t ∉ l) ∧
    al_alloc (s_heap s) SIZEOF_THREAD 16 = Ret (t, s_heap s1) ∧
    sched_create_user tramp e a pp s =
      ('(r, s') ← finish_create tramp t s3; Ret (r, (if r =? 0 then next_pid s else 0), s')).
Proof using AL.
  intros Hok Hr1 He Ha. destruct (thread_alloc_ok s l bs others t s1 Hok Hr1 Ha) as (Ht & Hnz & Hok1 & Hst & Hal).
  unfold sched_create_user. rewrite (proj2 (Z.eqb_neq e 0) He), Ha. cbn [mbind result_bind].
  rewrite (proj2 (Z.eqb_neq t 0) Hnz), (thread_alloc_pid _ _ _ Ha). cbv zeta.
  set (s2 := upd t _ _). set (par := if 0 <? pp then _ else _).
  assert (fresh_thread s2 (l ++ [t]) bs others t (s_heap s1)) as F2.
  { apply fresh_upd; try done; [by left|intros []; by split|].
    split_and!; auto; [|set_solver]. apply (sched_ok_same s1); try done. apply Hok1. }
  clearbody s2 par. eexists. split; [|split; [done|split; [done|reflexivity]]].
  destruct (negb (par =? 0)).
  - apply fresh_inherit.
    pose proof (so_typed_any _ _ _ _ par (proj1 F2)) as Hpar.
    set (s3 := upd t (set_cwd _) s2).
    assert (fresh_thread s3 (l ++ [t]) bs others t (s_heap s1)) as F3.
    { apply fresh_upd; try done; [by right|]. intros []. destruct Hpar. by split. }
    pose proof (so_typed_any _ _ _ _ par (proj1 F3)) as Hpar3. clearbody s3.
    apply fresh_upd; try done; [by right|]. intros []. destruct Hpar3. by split.
  - do 3 apply fresh_acquire. set (s3 := upd t _ s2).
    assert (fresh_thread s3 (l ++ [t]) bs others t (s_heap s1)) as F3.
    { apply fresh_upd; try done; [by right|]. intros Hty. destruct (cwd_root_typed _ Hty). destruct Hty. by split. }
    clearbody s3. apply fresh_upd; try done; [by right|]. intros []. destruct default_fds_typed. by split.
Qed.

Lemma sched_create_user_ok s l bs others e a pp r pid_ s' :
  sched_ok s l bs others → create_room s → sched_create_user tramp e a pp s = Ret (r, pid_, s') →
  ∃ l', sched_ok s' l' bs others ∧
    ((l' = l ∧ r = -1 ∧ e = 0) ∨ ∃ t, (t ∉ l) ∧ l' = l ++ [t] ∧ r = 0 ∧ pid_ = next_pid s).
Proof using AL.
  intros Hok [Hr1 Hr2] E. destruct (decide (e = 0)) as [->|He].
  { injection E as <- _ <-. exists l. auto. }
  pose proof E as E'. unfold sched_create_user in E'. rewrite (proj2 (Z.eqb_neq e 0) He) in E'.
  apply bind_Ret in E' as ([t s1] & Ha & _).
  destruct (create_user_fresh s l bs others e a pp t s1 Hok Hr1 He Ha) as (s3 & F3 & Ht & Hal & E3).
  rewrite E3 in E. apply bind_Ret in E as ([r0 s4] & Hf & E). injection E as <- <- <-.
  apply (fresh_finish s3 (l ++ [t]) bs others t (s_heap s1)) in Hf as [-> Hok4]; [|done|by apply (Hr2 t)].
  exists (l ++ [t]). split; [done|]. right. by exists t.
Qed.

(** Creating a thread panics only with the allocator. *)
Lemma sched_create_user_panic s l bs others e a pp msg code :
  sched_ok s l bs others → create_room s → sched_create_user tramp e a pp s = Panic msg code →
  ∃ h n, al_alloc h n 16 = Panic msg code.
Proof using AL.
  intros Hok [Hr1 Hr2] E. destruct (decide (e = 0)) as [->|He]; [done|].
  destruct (thread_alloc s) as [[t s1]|m c] eqn:Ha.
  2:{ unfold sched_create_user in E. rewrite (proj2 (Z.eqb_neq e 0) He), Ha in E. injection E as <- <-.
      unfold thread_alloc in Ha. destruct (al_alloc (s_heap s) SIZEOF_THREAD 16) as [[t h]|] eqn:Hal.
      - cbn in Ha. by destruct (t =? 0).
      - injection Ha as <- <-. by eexists _, _. }
  destruct (create_user_fresh s l bs others e a pp t s1 Hok Hr1 He Ha) as (s3 & (Hok3 & _ & _ & Hh) & Ht & Hal & E3).
  rewrite E3 in E. unfold finish_create in E.
  destruct (al_alloc (s_heap s3) STACK_SIZE 16) as [[stk h]|] eqn:Hs.
  - destruct (al_alloc_fresh (s_heap s3) h _ STACK_SIZE 16 stk (so_live _ _ _ _ Hok3) ltac:(done)
      ltac:(rewrite Hh; by apply (Hr2 t)) Hs) as (_ & Hnz & _).
    cbn [mbind result_bind] in E. by rewrite (proj2 (Z.eqb_neq stk 0) Hnz) in E.
  - injection E as <- <-. by eexists _, _.
Qed.
End Inv.
End SchedInv.
