(* ===== verification/SchedSwitch.v ===== *)
(** * Choosing the next thread

    [sched_resched_locked] takes the first runnable thread in circular order
    after the current one.  The order is fair: a runnable thread waits for at
    most one turn of each other thread. *)

From S2P Require Import Prelude CString Bytes Alloc Sched SchedList SchedInv.
From stdpp Require Import options.
Import Sched SchedList SchedInv.

Module SchedSwitch.

Section Switch.
Context {H T : Type}.
Implicit Types s : sched H T.

(** The thread after [p] on the circle. *)
Definition succ s (p : Z) : Z := let n := next (thr s p) in if n =? 0 then threads_head s else n.

Lemma succ_list s l1 p l2 : thread_list s (l1 ++ p :: l2) → succ s p = hd 0 (l2 ++ l1 ++ [p]).
Proof.
  intros [D Eh _ _ _ _ H0]. apply dll_app in D as [_ (t & Ht & _ & Hn & _)].
  unfold succ. rewrite (thr_lookup s p t Ht), Hn. destruct l2 as [|q l2]; simpl.
  - rewrite Eh. by destruct l1.
  - by rewrite (proj2 (Z.eqb_neq q 0)) by set_solver.
Qed.

(** Rotations: a list read from another of its elements on. *)
Lemma rot_split {A} (a b r1 : list A) (p : A) (r2 : list A) :
  b ++ a = r1 ++ p :: r2 → ∃ l1 l2, a ++ b = l1 ++ p :: l2 ∧ l2 ++ l1 = r2 ++ r1.
Proof.
  intros E. apply app_eq_app in E as (z & [[Eb Er]|[Er Ea]]).
  - destruct z as [|x z]; simpl in Er.
    + exists [], (r2 ++ r1). subst. by rewrite !app_nil_r.
    + injection Er as -> ->. exists (a ++ r1), z. subst b. by rewrite <- !app_assoc.
  - exists z, (r2 ++ b). subst. by rewrite <- !app_assoc.
Qed.

Lemma succ_rot s a b r1 p r2 :
  thread_list s (a ++ b) → b ++ a = r1 ++ p :: r2 → succ s p = hd 0 (r2 ++ r1 ++ [p]).
Proof.
  intros L (l1 & l2 & El & Er)%rot_split. rewrite El in L. rewrite (succ_list s l1 p l2 L).
  by rewrite !app_assoc, Er.
Qed.

Definition runnable s (p : Z) : Prop := state (thr s p) = THREAD_RUNNABLE.
#[export] Instance runnable_dec s p : Decision (runnable s p).
Proof. unfold runnable. apply _. Defined.

(** The first runnable thread of a list, 0 if there is none. *)
Definition first_runnable s (r : list Z) : Z := hd 0 (filter (runnable s) r).

Lemma find_runnable_spec s a b x r2 : ∀ r1 t fuel,
  thread_list s (a ++ b) → b ++ a = r1 ++ t :: r2 → hd 0 (b ++ a) = x → (length r2 < fuel)%nat →
  find_runnable fuel s x t = Some (first_runnable s (t :: r2)).
Proof.
  induction r2 as [|q r2 IH]; intros r1 t fuel L E Hx Hf; (destruct fuel as [|fuel]; [simpl in Hf; lia|]).
  all: cbn [find_runnable]; unfold first_runnable; rewrite filter_cons.
  all: change (state (thr s t) = THREAD_RUNNABLE) with (runnable s t).
  all: destruct (decide (runnable s t)); [done|]; cbv zeta; fold (succ s t).
  all: pose proof (succ_rot s a b r1 t _ L E) as Es; cbn [app hd] in Es; rewrite Es.
  - rewrite E in Hx. rewrite (proj2 (Z.eqb_eq _ x)); [done|]. rewrite <- Hx. by destruct r1.
  - rewrite (proj2 (Z.eqb_neq q x)).
    + apply (IH (r1 ++ [t])); [done|by rewrite <- app_assoc|done|simpl in Hf; lia].
    + pose proof (tl_nodup _ _ L) as Hnd. rewrite (Permutation_app_comm a b), E in Hnd. subst x. rewrite E.
      apply NoDup_app in Hnd as (_ & Hnd & [Hnt _]%NoDup_cons). destruct r1 as [|y r1]; simpl.
      * intros ->. apply Hnt. set_solver.
      * intros ->. apply (Hnd y); set_solver.
Qed.

Lemma threads_size s l : thread_list s l → size (threads s) = length l.
Proof.
  intros L. rewrite <- size_dom. replace (dom (threads s)) with (list_to_set l : gset Z).
  - apply size_list_to_set, L.
  - apply set_eq. intros p. rewrite elem_of_list_to_set, elem_of_dom. symmetry. apply L.
Qed.

(** The choice, and what happens without one. *)
Lemma resched_eq s l1 l2 :
  thread_list s (l1 ++ current_thread s :: l2) → sched_ready s = true →
  let n := first_runnable s (l2 ++ l1 ++ [current_thread s]) in
  sched_resched_locked s =
  if decide (n = 0) then
    if decide (state (cur s) = THREAD_DEAD) then Halted s else Returned s
  else if decide (n = current_thread s) then Returned s
  else Switched (switch_to (current_thread s) n s).
Proof.
  intros L Hr n. set (c := current_thread s) in *. unfold sched_resched_locked. rewrite Hr. fold c.
  assert (c ≠ 0) as Hc by (pose proof (tl_null _ _ L); set_solver).
  rewrite (proj2 (Z.eqb_neq c 0) Hc). cbn [negb orb]. unfold cur. fold c. cbv zeta. fold (succ s c).
  rewrite (succ_list s l1 c l2 L). set (x := hd 0 (l2 ++ l1 ++ [c])).
  assert (∃ r2, l2 ++ l1 ++ [c] = x :: r2) as [r2 Er].
  { subst x. destruct (l2 ++ l1 ++ [c]) as [|y r] eqn:E; [|by exists r].
    apply (f_equal length) in E. rewrite !length_app in E. simpl in E. lia. }
  assert (x ∈ l1 ++ c :: l2) as Hx.
  { assert (x ∈ l2 ++ l1 ++ [c]) by (rewrite Er; left). set_solver. }
  assert (x ≠ 0) as Hx0 by (intros ->; by apply (tl_null _ _ L)).
  rewrite (proj2 (Z.eqb_neq x 0) Hx0).
  change (c :: l2) with ([c] ++ l2) in L. rewrite app_assoc in L.
  rewrite (find_runnable_spec s (l1 ++ [c]) l2 x r2 [] x _ L).
  - rewrite <- Er. fold n. destruct (Z.eqb_spec n 0), (decide (n = 0)); try done.
    + by destruct (decide (state (thr s c) = THREAD_RUNNING)) as [->|];
        destruct (decide (_ = THREAD_DEAD)).
    + by destruct (Z.eqb_spec n c), (decide (n = c)).
  - by rewrite Er.
  - done.
  - apply (f_equal length) in Er. rewrite (threads_size _ _ L). rewrite !length_app in *. simpl in *. lia.
Qed.

(** ** The effect of a switch *)

Lemma switch_threads p n s :
  threads (switch_to p n s) =
  alter (set_state THREAD_RUNNING) n
    (if decide (state (thr s p) = THREAD_RUNNING) then alter (set_state THREAD_RUNNABLE) p (threads s)
     else threads s).
Proof. unfold switch_to. by destruct (decide _). Qed.

Lemma switch_lookup p n s q :
  p ≠ n →
  threads (switch_to p n s) !! q =
  (λ t, if decide (q = n) then set_state THREAD_RUNNING t
        else if decide (q = p ∧ state (thr s p) = THREAD_RUNNING) then set_state THREAD_RUNNABLE t
        else t) <$> threads s !! q.
Proof.
  intros Hpn. rewrite switch_threads. destruct (decide (q = n)) as [->|Hn].
  - rewrite lookup_alter_eq. destruct (decide _); [by rewrite lookup_alter_ne|done].
  - rewrite lookup_alter_ne by done. destruct (decide (state _ = _)) as [Hr|Hr].
    + destruct (decide (q = p)) as [->|Hp]; [rewrite lookup_alter_eq|rewrite lookup_alter_ne by done].
      all: destruct (threads s !! _); simpl; [|done]; case_decide; naive_solver.
    + destruct (threads s !! q); simpl; [|done]. case_decide; naive_solver.
Qed.

Lemma switch_list p n s l : p ≠ n → thread_list s l → thread_list (switch_to p n s) l.
Proof.
  intros Hpn. apply thread_list_frame; try (unfold switch_to; by destruct (decide _)).
  intros q. rewrite switch_lookup by done. destruct (threads s !! q); simpl; [|done].
  by repeat case_decide.
Qed.

Lemma switch_thr p n s l q :
  p ≠ n → thread_list s l → q ∈ l →
  thr (switch_to p n s) q =
  if decide (q = n) then set_state THREAD_RUNNING (thr s q)
  else if decide (q = p ∧ state (thr s p) = THREAD_RUNNING) then set_state THREAD_RUNNABLE (thr s q)
  else thr s q.
Proof.
  intros Hpn L Hq. unfold thr at 1. rewrite switch_lookup by done.
  destruct (proj2 (tl_dom _ _ L q) Hq) as [t Ht]. rewrite Ht. cbn [fmap option_fmap option_map default].
  by rewrite !(thr_lookup s q t Ht).
Qed.

Lemma switch_cur p n s : current_thread (switch_to p n s) = n.
Proof. unfold switch_to. by destruct (decide _). Qed.
Lemma switch_ready p n s : sched_ready (switch_to p n s) = sched_ready s.
Proof. unfold switch_to. by destruct (decide _). Qed.

(** ** Fairness *)

Fixpoint yields (k : nat) s : sched H T :=
  match k with O => s | S k' => yields k' (after s (sched_yield s)) end.

Lemma first_runnable_split s r1 p r2 :
  runnable s p → ∃ n x1 x2, first_runnable s (r1 ++ p :: r2) = n ∧ runnable s n ∧ r1 ++ [p] = x1 ++ n :: x2.
Proof.
  intros Hp. induction r1 as [|q r1 IH]; cbn [app].
  - exists p, [], []. unfold first_runnable. by rewrite filter_cons_True.
  - unfold first_runnable in *. destruct (decide (runnable s q)) as [Hq|Hq].
    + exists q, [], (r1 ++ [p]). by rewrite filter_cons_True.
    + rewrite filter_cons_False by done. destruct IH as (n & x1 & x2 & E1 & E2 & E3).
      exists n, (q :: x1), x2. by rewrite E3.
Qed.

Lemma yields_reach m : ∀ s l l1 l2 r1 p r2,
  (length r1 ≤ m)%nat → thread_list s l → l = l1 ++ current_thread s :: l2 → sched_ready s = true →
  state (cur s) = THREAD_RUNNING → runnable s p → l2 ++ l1 = r1 ++ p :: r2 →
  ∃ k, (1 ≤ k ≤ S (length r1))%nat ∧ current_thread (yields k s) = p.
Proof.
  induction m as [m IH] using lt_wf_ind. intros s l l1 l2 r1 p r2 Hm L El Hr Hc Hp Er.
  subst l. set (c := current_thread s) in *.
  destruct (first_runnable_split s r1 p (r2 ++ [c]) Hp) as (n & x1 & x2 & En & Hn & Ex).
  pose proof (resched_eq s l1 l2 L Hr) as E. cbv zeta in E. fold c in E.
  assert (l2 ++ l1 ++ [c] = r1 ++ p :: r2 ++ [c]) as Erc by (rewrite app_assoc, Er; by rewrite <- app_assoc).
  rewrite Erc, En in E.
  assert (n ∈ l1 ++ c :: l2) as Hnl.
  { assert (n ∈ r1 ++ p :: r2) as Hin by (assert (n ∈ r1 ++ [p]) by (rewrite Ex; set_solver); set_solver).
    rewrite <- Er in Hin. set_solver. }
  assert (n ≠ 0) as Hn0 by (intros ->; by apply (tl_null _ _ L)).
  assert (n ≠ c) as Hnc by (intros ->; unfold runnable, cur in *; fold c in Hc; congruence).
  rewrite !decide_False in E by done.
  destruct (decide (n = p)) as [->|Hnp].
  { exists 1%nat. split; [lia|]. cbn [yields]. unfold sched_yield. rewrite E. cbn [after]. apply switch_cur. }
  (* the next thread lies before [p] *)
  assert (∃ y, r1 = x1 ++ n :: y) as [y ->].
  { destruct x2 as [|z x2 _] using rev_ind.
    - apply app_inj_tail in Ex as [_ ->]. done.
    - rewrite app_comm_cons, app_assoc in Ex. apply app_inj_tail in Ex as [-> _]. by exists x2. }
  assert (l2 ++ l1 ++ [c] = x1 ++ n :: (y ++ p :: r2 ++ [c])) as Erot by (rewrite Erc; by rewrite <- app_assoc).
  rewrite app_assoc in Erot. change (c :: l2) with ([c] ++ l2) in L. 
  destruct (rot_split (l1 ++ [c]) l2 x1 n (y ++ p :: r2 ++ [c])) as (m1 & m2 & Em & Er').
  { by rewrite app_assoc. }
  rewrite <- app_assoc in Em. cbn [app] in Em.
  set (s' := switch_to c n s). change ([c] ++ l2) with (c :: l2) in L.
  pose proof (switch_list c n s _ (not_eq_sym Hnc) L) as L'. fold s' in L'.
  assert (p ∈ l1 ++ c :: l2) as Hpl.
  { assert (p ∈ l2 ++ l1) by (rewrite Er; set_solver). set_solver. }
  destruct (IH (length y) ltac:(rewrite length_app in Hm; simpl in Hm; lia) s' (l1 ++ c :: l2) m1 m2 y p
    ((r2 ++ [c]) ++ x1)) as (k & Hk & Ek).
  - lia.
  - done.
  - subst s'. by rewrite Em, switch_cur.
  - subst s'. by rewrite switch_ready.
  - unfold cur. subst s'. rewrite switch_cur, (switch_thr c n s _ n (not_eq_sym Hnc) L Hnl), decide_True; done.
  - unfold runnable. subst s'. rewrite (switch_thr c n s _ p (not_eq_sym Hnc) L Hpl).
    rewrite decide_False, decide_False; [done| |done].
    intros [-> _]. unfold runnable, cur in *. fold c in Hc. congruence.
  - rewrite Er', <- app_assoc. done.
  - exists (S k). split; [rewrite length_app; simpl; lia|]. cbn [yields]. unfold sched_yield. rewrite E. exact Ek.
Qed.
End Switch.
End SchedSwitch.
