(* ===== verification/SchedSpec.v ===== *)
(** * Switching, exiting and reaping keep the invariant

    The operations of sched.c that give up the processor or remove a thread,
    against the invariant of SchedInv.v. *)

From S2P Require Import Prelude CString Bytes Alloc Sched SchedList SchedInv SchedSwitch.
From stdpp Require Import options.
Import CString Bytes Sched SchedList SchedInv SchedSwitch.

Module SchedSpec.

Section Spec.
Context {H T : Type} `{!Allocator H} {AL : AllocatorLaws H} `{!FileTable H T} {FL : FileTableLaws H T}.
Context (tramp : Z).
Implicit Types s : sched H T.

(** ** Switching *)

Lemma switch_ok s l bs others n :
  sched_ok s l bs others → n ∈ l → n ≠ current_thread s → current_thread s ∈ l →
  sched_ok (switch_to (current_thread s) n s) l bs others.
Proof.
  intros [L C R Ty F Lv] Hn Hne Hc. set (c := current_thread s) in *.
  pose proof (λ q, switch_thr c n s l q (not_eq_sym Hne) L) as St.
  split.
  - by apply switch_list.
  - rewrite switch_cur. by left.
  - intros q Hq. rewrite switch_cur, St by done.
    destruct (decide (q = n)) as [|_]; [done|]. destruct (decide _) as [|Hd]; [done|]. intros Hr. 
    exfalso. apply Hd. split; [by apply R|]. by rewrite <- (R q Hq Hr).
  - intros q Hq. rewrite St by done. destruct (Ty q Hq). repeat case_decide; by split.
  - replace (s_files _) with (s_files s) by (unfold switch_to; by destruct (decide _)). done.
  - replace (s_heap _) with (s_heap s) by (unfold switch_to; by destruct (decide _)).
    rewrite (stacks_ext s); [done|]. intros q Hq. rewrite St by done. by repeat case_decide.
Qed.

Lemma first_runnable_in s r : first_runnable s r = 0 ∨ first_runnable s r ∈ r.
Proof.
  unfold first_runnable. destruct (filter (runnable s) r) as [|p x] eqn:E; [by left|right].
  assert (p ∈ filter (runnable s) r) as Hp by (rewrite E; left). by apply list_elem_of_filter in Hp as [_ ?].
Qed.

Lemma resched_ok s l bs others :
  sched_ok s l bs others →
  sched_resched_locked s ≠ Looping ∧ sched_ok (after s (sched_resched_locked s)) l bs others.
Proof.
  intros Hok. destruct (sched_ready s) eqn:Hr.
  2:{ unfold sched_resched_locked. by rewrite Hr. }
  destruct (so_cur _ _ _ _ Hok) as [Hc|[_ Hf]]; [|congruence].
  pose proof Hc as (l1 & l2 & El)%list_elem_of_split.
  pose proof (so_list _ _ _ _ Hok) as L. rewrite El in L. rewrite (resched_eq s l1 l2 L Hr).
  set (n := first_runnable s _). case_decide; [by case_decide|]. case_decide; [done|]. split; [done|].
  cbn [after]. apply switch_ok; auto. rewrite El.
  destruct (first_runnable_in s (l2 ++ l1 ++ [current_thread s])) as [E|E]; fold n in E; [done|].
  rewrite !elem_of_app, list_elem_of_singleton in E. rewrite elem_of_app, elem_of_cons. tauto.
Qed.

(** ** The end of a thread *)

Lemma sched_ok_files s l bs others bs' t h :
  sched_ok s l bs others → ft_ok t bs' → al_live h (bs' ++ l ++ stacks s l ++ others) →
  sched_ok (with_files (with_heap s h) t) l bs' others.
Proof.
  intros [L C R Ty F Lv] F' Lv'. split; auto. by destruct L.
Qed.

Lemma release_fds_ok fs : ∀ s l bs others,
  sched_ok s l bs others →
  ∃ s' bs', release_fds fs s = Ret s' ∧ sched_ok s' l bs' others ∧ threads s' = threads s ∧
    current_thread s' = current_thread s ∧ sched_ready s' = sched_ready s.
Proof using FL.
  induction fs as [|fd fs IH]; intros s l bs others Hok; cbn [release_fds]; [by exists s, bs|].
  destruct (0 <=? fd); [|by apply (IH s l bs)].
  destruct (ft_release_ok fd (s_files s) (s_heap s) bs _ (so_files _ _ _ _ Hok) (so_live _ _ _ _ Hok))
    as (t & h & bs' & -> & F & Lv). cbn [mbind result_bind].
  destruct (IH _ l bs' others (sched_ok_files s l bs others bs' t h Hok F Lv)) as (s' & b & E & Hok' & Et & Ec & Er).
  by exists s', b.
Qed.

Lemma closed_fds_typed t : thread_typed t → thread_typed (set_fds (closed_fds (fds t)) t).
Proof.
  intros [H1 H2 H3 H4]. split; auto; cbn [fds set_fds]; unfold closed_fds.
  - by rewrite length_fmap.
  - apply Forall_fmap. eapply Forall_impl; [exact H4|]. intros fd Hfd. simpl.
    unfold HANDLE_MAX in *. destruct (0 <=? fd); lia.
Qed.

(** The state in which [sched_exit] gives up the processor. *)
Lemma exit_prepare s l bs others :
  sched_ok s l bs others → current_thread s ∈ l →
  ∃ s' bs', sched_ok s' l bs' others ∧ current_thread s' = current_thread s ∧
    sched_ready s' = sched_ready s ∧ state (cur s') = THREAD_DEAD ∧ Forall (λ fd, fd = -1) (fds (cur s')) ∧
    sched_exit s = Ret (match sched_resched_locked s' with Returned x => Halted x | f => f end).
Proof using FL.
  intros Hok Hc. pose proof (so_list _ _ _ _ Hok) as L.
  assert (current_thread s ≠ 0) as Hc0 by (intros E; apply (tl_null _ _ L); by rewrite <- E).
  pose proof (proj2 (tl_dom _ _ L _) Hc) as Hsome.
  unfold sched_exit. rewrite (proj2 (Z.eqb_neq _ 0) Hc0). cbn [negb]. cbv zeta.
  set (s1 := upd_cur (set_state THREAD_DEAD) s).
  assert (sched_ok s1 l bs others) as Hok1 by (apply sched_ok_upd; try done; intros []; by split).
  assert (cur s1 = set_state THREAD_DEAD (cur s)) as Hcur1 by (by apply thr_upd_eq).
  destruct (release_fds_ok (fds (cur s1)) s1 l bs others Hok1) as (s2 & bs' & -> & Hok2 & Et & Ec & Er).
  cbn [mbind result_bind]. set (s3 := upd_cur _ s2).
  assert (cur s2 = cur s1) as Hcur2 by (unfold cur, thr; by rewrite Et, Ec).
  assert (is_Some (threads s2 !! current_thread s2)) as Hsome2.
  { apply (tl_dom _ _ (so_list _ _ _ _ Hok2)). by rewrite Ec. }
  assert (cur s3 = set_fds (closed_fds (fds (cur s2))) (cur s2)) as Hcur3
    by (by apply (thr_upd_eq s2 (current_thread s2) (λ x, set_fds (closed_fds (fds x)) x))).
  exists s3, bs'. split_and!.
  - apply sched_ok_upd; try done; [by left|apply closed_fds_typed].
  - exact Ec.
  - exact Er.
  - rewrite Hcur3, Hcur2, Hcur1. done.
  - rewrite Hcur3. cbn [fds set_fds]. unfold closed_fds. apply Forall_fmap.
    pose proof (ty_fd _ (so_typed_any _ _ _ _ (current_thread s2) Hok2)) as Hty.
    eapply Forall_impl; [exact Hty|]. intros fd Hfd. cbv beta in *.
    cbn [compose]. destruct (Z.leb_spec 0 fd); lia.
  - done.
Qed.

Lemma sched_exit_total s l bs others :
  sched_ok s l bs others → current_thread s ∈ l →
  ∃ f bs', sched_exit s = Ret f ∧ f ≠ Looping ∧ sched_ok (after s f) l bs' others.
Proof using FL.
  intros Hok Hc. destruct (exit_prepare s l bs others Hok Hc) as (s' & bs' & Hok' & _ & _ & _ & _ & ->).
  eexists _, bs'. split; [done|]. destruct (resched_ok s' l bs' others Hok') as [Hnl Hr].
  by destruct (sched_resched_locked s').
Qed.

Lemma sched_exit_ok s l bs others :
  sched_ok s l bs others → current_thread s ∈ l →
  ∃ f bs', sched_exit s = Ret f ∧ sched_ok (after s f) l bs' others.
Proof using FL.
  intros Hok Hc. destruct (sched_exit_total s l bs others Hok Hc) as (f & bs' & ? & _ & ?). by exists f, bs'.
Qed.

(** ** Removing a thread *)

Lemma sans_thr s s' q :
  sans <$> threads s' !! q = sans <$> threads s !! q → sans (thr s' q) = sans (thr s q).
Proof.
  unfold thr. destruct (threads s' !! q), (threads s !! q); try done. intros E. by apply (inj Some) in E.
Qed.

(** Taking a thread other than the current one out of the list. *)
Lemma sched_ok_removed s s' l1 t l2 bs others :
  sched_ok s (l1 ++ t :: l2) bs others → t ≠ current_thread s → thread_list s' (l1 ++ l2) →
  (∀ q, q ∈ l1 ++ l2 → sans (thr s' q) = sans (thr s q)) →
  current_thread s' = current_thread s → sched_ready s' = sched_ready s →
  ft_ok (s_files s') bs → al_live (s_heap s') (bs ++ (l1 ++ l2) ++ stacks s (l1 ++ l2) ++ others) →
  sched_ok s' (l1 ++ l2) bs others.
Proof.
  intros [L C R Ty F Lv] Ht L' Hs Ec Er F' Lv'.
  assert (∀ q, q ∈ l1 ++ l2 → q ∈ l1 ++ t :: l2) as Hin
    by (intros q; rewrite !elem_of_app, elem_of_cons; tauto).
  split; rewrite ?Ec, ?Er; auto.
  - destruct C as [C|C]; [left|by right]. rewrite elem_of_app, elem_of_cons in C. rewrite elem_of_app.
    destruct C as [?|[?|?]]; [tauto|congruence|tauto].
  - intros q Hq. destruct (sans_stack _ _ (Hs q Hq)) as (_ & -> & _). by apply R, Hin.
  - intros q Hq. destruct (sans_stack _ _ (Hs q Hq)) as (_ & _ & E3 & E4).
    destruct (Ty q (Hin q Hq)). split; congruence.
  - rewrite (stacks_ext s s' (l1 ++ l2)); [done|]. intros q Hq. by destruct (sans_stack _ _ (Hs q Hq)) as (? & _).
Qed.

Lemma free_stack_ok (h : H) (p : Z) (ps : list Z) :
  al_live h ((if decide (p = 0) then [] else [p]) ++ ps) →
  ∃ h', (if negb (p =? 0) then al_free h p else Ret h) = Ret h' ∧ al_live h' ps.
Proof using AL.
  destruct (Z.eqb_spec p 0), (decide (p = 0)); try done; cbn [negb app]; [by exists h|]. apply al_free_live.
Qed.

Lemma reap_ok s l1 t l2 bs others :
  sched_ok s (l1 ++ t :: l2) bs others → t ≠ current_thread s →
  ∃ s', reap t s = Ret s' ∧ sched_ok s' (l1 ++ l2) bs others ∧
    (∀ q, q ∈ l1 ++ l2 → sans (thr s' q) = sans (thr s q)).
Proof using AL.
  intros Hok Ht. unfold reap. cbv zeta.
  set (s1 := upd t (set_reaped true) s).
  assert (sched_ok s1 (l1 ++ t :: l2) bs others) as Hok1
    by (apply sched_ok_upd; try done; [by left|intros []; by split]).
  assert (∀ q, q ≠ t → thr s1 q = thr s q) as Hs1 by (intros q Hq; by apply thr_upd_ne).
  assert (current_thread s1 = current_thread s) as Ec1 by done. clearbody s1.
  pose proof (so_list _ _ _ _ Hok1) as L1. pose proof (tl_nodup _ _ L1) as Hnd.
  destruct (list_remove_spec s1 l1 t l2 L1) as [L2 Hs]. pose proof (list_remove_eq s1 l1 t l2 L1) as E2.
  set (s2 := list_remove t s1) in *.
  assert (s_heap s2 = s_heap s1 ∧ s_files s2 = s_files s1 ∧ current_thread s2 = current_thread s1 ∧
    sched_ready s2 = sched_ready s1) as (E3 & E4 & E5 & E6) by (by rewrite E2). clear E2. clearbody s2.
  destruct (sans_stack _ _ (sans_thr s1 s2 t (Hs t))) as (Est & _). rewrite Est, E3.
  destruct (free_stack_ok (s_heap s1) (stack (thr s1 t))
    (t :: bs ++ (l1 ++ l2) ++ stacks s1 (l1 ++ l2) ++ others)) as (h1 & -> & Lv1).
  { eapply al_live_perm; [|exact (so_live _ _ _ _ Hok1)].
    rewrite (stacks_perm s1 (l1 ++ t :: l2) ([t] ++ l1 ++ l2)), stacks_app, stacks_one by solve_Permutation.
    solve_Permutation. }
  cbn [mbind result_bind]. unfold free_thread. cbn [s_heap with_heap].
  destruct (al_free_live _ _ _ Lv1) as (h2 & -> & Lv2). cbn [mbind result_bind].
  assert (t ∉ l1 ++ l2) as Htl by (apply NoDup_app in Hnd as (_ & ? & [? _]%NoDup_cons); set_solver).
  eexists _. split; [done|].
  assert (∀ q, q ∈ l1 ++ l2 → sans (thr (with_threads (with_heap (with_heap s2 h1) h2)
    (delete t (threads s2))) q) = sans (thr s1 q)) as Hq.
  { intros q Hq. rewrite <- (sans_thr s1 s2 q (Hs q)). unfold thr. cbn [threads with_threads].
    by rewrite lookup_delete_ne by (intros ->; done). }
  split; [|intros q Hin; rewrite Hq, Hs1 by (done || by intros ->); done].
  apply (sched_ok_removed s1 _ l1 t l2 bs others Hok1); try done; [congruence|by destruct L2|].
  cbn [s_files with_threads with_heap]. rewrite E4. apply Hok1.
Qed.
End Spec.
End SchedSpec.
