(* ===== verification/SchedWait.v ===== *)
(** * Waiting for children, killing and the wait queues

    The loops over the list of threads, and the wait queues as lists. *)

From S2P Require Import Prelude CString Bytes Alloc Sched SchedList SchedInv SchedSwitch SchedSpec.
From stdpp Require Import options.
Import CString Bytes Sched SchedList SchedInv SchedSwitch SchedSpec.

Module SchedWait.

Section Wait.
Context {H T : Type} `{!Allocator H} {AL : AllocatorLaws H} `{!FileTable H T} {FL : FileTableLaws H T}.
Implicit Types s : sched H T.

(** A loop that follows [next] visits the rest of the list. *)
Lemma next_hd s l1 p l2 : thread_list s (l1 ++ p :: l2) → p ≠ 0 ∧ next (thr s p) = hd 0 l2.
Proof.
  intros L. split.
  - intros ->. apply (tl_null _ _ L). rewrite elem_of_app, elem_of_cons. auto.
  - pose proof (tl_dll _ _ L) as D. apply dll_app in D as [_ (t & Ht & _ & Hn & _)].
    by rewrite (thr_lookup s p t Ht).
Qed.

(** ** Children *)

Definition child s (pp x : Z) : Prop := is_user (thr s x) = true ∧ ppid (thr s x) = pp.
Definition zombie s (pp x : Z) : Prop :=
  child s pp x ∧ state (thr s x) = THREAD_DEAD ∧ reaped (thr s x) = false.

(** What one pass over the list finds. *)
Definition scanned s (pp : Z) (hc : bool) (l : list Z) (r : scan) : Prop :=
  match r with
  | Reap x => ∃ a b, l = a ++ x :: b ∧ zombie s pp x ∧ ∀ y, y ∈ a → ¬ zombie s pp y
  | Found f => (f = true ↔ hc = true ∨ ∃ x, x ∈ l ∧ child s pp x) ∧ ∀ y, y ∈ l → ¬ zombie s pp y
  | Endless => False
  end.

Lemma scanned_cons s pp hc hc' p l r :
  ¬ zombie s pp p → (hc' = true ↔ hc = true ∨ child s pp p) →
  scanned s pp hc' l r → scanned s pp hc (p :: l) r.
Proof.
  intros Hz Hh. destruct r as [x|f|]; [| |done]; cbn [scanned].
  - intros (a & b & -> & Hx & Ha). exists (p :: a), b. split_and!; [done|done|].
    intros y [->|Hy]%elem_of_cons; auto.
  - intros [Hf Hy]. split.
    + rewrite Hf, Hh. setoid_rewrite elem_of_cons. naive_solver.
    + intros y [->|?]%elem_of_cons; auto.
Qed.

Lemma scan_children_spec s l pp fuel : ∀ l1 l2 hc,
  thread_list s l → l = l1 ++ l2 → (length l2 < fuel)%nat →
  scanned s pp hc l2 (scan_children fuel s pp (hd 0 l2) hc).
Proof.
  induction fuel as [|fuel IH]; intros l1 l2 hc L El Hf; [lia|]. cbn [scan_children].
  destruct l2 as [|p l2]; cbn [hd].
  { cbn. setoid_rewrite elem_of_nil. naive_solver. }
  rewrite El in L. destruct (next_hd s l1 p l2 L) as [Hp0 Hn].
  rewrite (proj2 (Z.eqb_neq p 0) Hp0). cbv zeta. rewrite Hn, <- El in *.
  assert (∀ hc', scanned s pp hc' l2 (scan_children fuel s pp (hd 0 l2) hc')) as Hrec.
  { intros hc'. apply (IH (l1 ++ [p])); [done|by rewrite <- app_assoc|simpl in Hf; lia]. }
  destruct (is_user (thr s p)) eqn:Hu; cbn [andb].
  2:{ apply (scanned_cons s pp hc hc); [intros [[? ?] _]; congruence| |done].
      split; [by left|intros [?|[? ?]]; congruence]. }
  destruct (Z.eqb_spec (ppid (thr s p)) pp) as [Hpp|Hpp].
  2:{ apply (scanned_cons s pp hc hc); [intros [[? ?] _]; congruence| |done].
      split; [by left|intros [?|[? ?]]; congruence]. }
  destruct (bool_decide _ && _) eqn:Ed.
  - apply andb_true_iff in Ed as [Ed1%bool_decide_eq_true Ed2%negb_true_iff].
    exists [], l2. unfold zombie, child. split_and!; try done. by intros y ?%elem_of_nil.
  - apply (scanned_cons s pp hc true); [|split; [right; by split|done]|done].
    intros (_ & Hd & Hr). by rewrite Hr, bool_decide_true in Ed.
Qed.

(** Where [sched_wait_child] stands after examining the state [s]. *)
Definition wait_post (pp : Z) s (l bs others : list Z) (o : outcome (Z * Z * sched H T)) : Prop :=
  match o with
  | Done (r, code, s') =>
      (∃ l1 x l2, l = l1 ++ x :: l2 ∧ zombie s pp x ∧ (∀ y, y ∈ l1 → ¬ zombie s pp y) ∧
         r = pid (thr s x) ∧ code = exit_code (thr s x) ∧ sched_ok s' (l1 ++ l2) bs others ∧
         ∀ q, q ∈ l1 ++ l2 → sans (thr s' q) = sans (thr s q)) ∨
      (r = -1 ∧ s' = s ∧ ∀ x, x ∈ l → ¬ child s pp x)
  | Waiting (_, _, s') => s' = s ∧ (∃ x, x ∈ l ∧ child s pp x) ∧ ∀ y, y ∈ l → ¬ zombie s pp y
  | Spinning => False
  end.

(** The scheduler while a live thread runs. *)
Definition live_ok s (l bs others : list Z) : Prop :=
  sched_ok s l bs others ∧ state (cur s) ≠ THREAD_DEAD.

Lemma scan_list s l bs others pp :
  live_ok s l bs others →
  scanned s pp false l (scan_children (S (size (threads s))) s pp (threads_head s) false).
Proof.
  intros [Hok _]. pose proof (so_list _ _ _ _ Hok) as L. rewrite (tl_head _ _ L).
  apply (scan_children_spec s l pp _ []); [done|done|]. rewrite (threads_size _ _ L). lia.
Qed.

(** A dead child is not the thread that waits. *)
Lemma wait_reaps pp s l bs others x :
  live_ok s l bs others → scanned s pp false l (Reap x) →
  ∃ o s1 l1 bs1, (s' ← reap x s; Ret (Done (pid (thr s x), exit_code (thr s x), s'))) = Ret o ∧
    live_ok s1 l1 bs1 others ∧ wait_post pp s1 l1 bs1 others o.
Proof using AL.
  intros [Hok Hlive] (a & b & -> & Hz & Ha).
  destruct (reap_ok s a x b bs others Hok) as (s' & -> & Hok' & Hq); [intros ->; apply Hlive, Hz|].
  eexists _, s, (a ++ x :: b), bs. split_and!; [done|done|]. left. exists a, x, b. by split_and!.
Qed.

(** What the rest of the system does while this thread does not run. *)
Definition keeps (others : list Z) (e : sched H T → sched H T) : Prop :=
  ∀ s l bs, live_ok s l bs others → ∃ l' bs', live_ok (e s) l' bs' others.

Lemma wait_child_core env pp others : 0 ≤ pp → Forall (keeps others) env →
  ∀ s l bs, live_ok s l bs others →
  ∃ o s1 l1 bs1, sched_wait_child env pp s = Ret o ∧ live_ok s1 l1 bs1 others ∧
    wait_post pp s1 l1 bs1 others o.
Proof using AL.
  intros Hpp. induction env as [|e env IH]; intros Henv s l bs Hl; cbn [sched_wait_child];
    rewrite (proj2 (Z.ltb_ge pp 0) Hpp); pose proof (scan_list s l bs others pp Hl) as Hs;
    destruct (scan_children _ _ _ _ _) as [x|[]|] eqn:E; try done.
  - by apply (wait_reaps pp s l bs).
  - eexists _, s, l, bs. split_and!; [done|done|]. cbn. destruct Hs as [Hf Hz]. naive_solver.
  - eexists _, s, l, bs. split_and!; [done|done|]. right. destruct Hs as [Hf Hz]. naive_solver.
  - by apply (wait_reaps pp s l bs).
  - apply Forall_cons in Henv as [He Henv]. destruct (He s l bs Hl) as (l' & bs' & Hl'). by apply (IH Henv _ l' bs').
  - eexists _, s, l, bs. split_and!; [done|done|]. right. destruct Hs as [Hf Hz]. naive_solver.
Qed.
(** ** Killing the user threads *)

Definition killed (t : thread) : thread :=
  if aspace t =? 0 then t else set_reaped true (set_aspace 0 (set_state THREAD_DEAD t)).

Lemma killed_links t : links (killed t) = links t ∧ stack (killed t) = stack t.
Proof. unfold killed. by destruct (aspace t =? 0). Qed.

Lemma kill_loop_spec fuel : ∀ s l bs others l1 l2,
  sched_ok s l bs others → l = l1 ++ l2 → (length l2 < fuel)%nat →
  let s' := kill_loop fuel (hd 0 l2) s in
  sched_ok s' l bs others ∧ (∀ q, q ∈ l2 → thr s' q = killed (thr s q)) ∧
  (∀ q, q ∉ l2 → thr s' q = thr s q) ∧ current_thread s' = current_thread s.
Proof.
  induction fuel as [|fuel IH]; intros s l bs others l1 l2 Hok El Hf; [lia|]. cbn [kill_loop].
  destruct l2 as [|p l2]; cbn [hd]; cbv zeta.
  { split_and!; [done| |done|done]. by intros q ?%elem_of_nil. }
  pose proof (so_list _ _ _ _ Hok) as L. rewrite El in L. destruct (next_hd s l1 p l2 L) as [Hp0 Hn].
  pose proof (proj2 (tl_dom _ _ L p) ltac:(apply elem_of_app; right; left)) as Hsome.
  rewrite (proj2 (Z.eqb_neq p 0) Hp0). set (s1 := if negb _ then _ else _).
  assert (sched_ok s1 l bs others ∧ thr s1 p = killed (thr s p) ∧ (∀ q, q ≠ p → thr s1 q = thr s q) ∧
    current_thread s1 = current_thread s) as (Hok1 & Hp1 & Hq1 & Hc1).
  { subst s1. unfold killed. destruct (aspace (thr s p) =? 0); cbn [negb]; [done|].
    split_and!; [|by rewrite thr_upd_eq| |done].
    - apply sched_ok_upd; try done. intros []. by split.
    - intros q Hq. by apply thr_upd_ne. }
  clearbody s1.
  assert (next (thr s1 p) = hd 0 l2) as ->
    by (rewrite Hp1; destruct (killed_links (thr s p)) as [[= _ ->] _]; done).
  destruct (IH s1 l bs others (l1 ++ [p]) l2 Hok1 ltac:(by rewrite <- app_assoc) ltac:(simpl in Hf; lia))
    as (Hok2 & Ha & Hb & Hc). cbv zeta in *.
  pose proof (tl_nodup _ _ L) as (_ & _ & [Hpl _]%NoDup_cons)%NoDup_app.
  split_and!; [done| | |congruence].
  - intros q [->|Hq]%elem_of_cons; [by rewrite Hb|]. rewrite Ha, Hq1; [done|by intros ->|done].
  - intros q [Hqp Hq]%not_elem_of_cons. by rewrite Hb, Hq1.
Qed.

Lemma kill_spec s l bs others :
  sched_ok s l bs others →
  sched_ok (sched_kill_user_threads s) l bs others ∧
  (∀ q, q ∈ l → thr (sched_kill_user_threads s) q = killed (thr s q)) ∧
  current_thread (sched_kill_user_threads s) = current_thread s.
Proof.
  intros Hok. pose proof (so_list _ _ _ _ Hok) as L. unfold sched_kill_user_threads. rewrite (tl_head _ _ L).
  destruct (kill_loop_spec (S (size (threads s))) s l bs others [] l Hok eq_refl) as (? & ? & _ & ?); [|done].
  rewrite (threads_size _ _ L). lia.
Qed.

(** ** Wait queues *)

Fixpoint wchain s (q : list Z) : Prop :=
  match q with
  | [] => True
  | p :: q' => is_Some (threads s !! p) ∧ p ≠ 0 ∧ wait_next (thr s p) = hd 0 q' ∧ wchain s q'
  end.

(** The queue holds the threads [q], the longest waiting first. *)
Record wq_ok s (wq : wait_queue) (q : list Z) : Prop := {
  wq_chain : wchain s q;
  wq_first : wq_head wq = hd 0 q;
  wq_last : wq_tail wq = last_or 0 q;
  wq_nodup : NoDup q;
}.

Lemma wchain_frame s s' q :
  (∀ p, p ∈ q → is_Some (threads s !! p) → is_Some (threads s' !! p) ∧ wait_next (thr s' p) = wait_next (thr s p)) →
  wchain s q → wchain s' q.
Proof.
  induction q as [|p q IH]; intros Hs; [done|]. intros (H1 & H2 & H3 & H4).
  destruct (Hs p ltac:(left) H1) as [H5 H6]. split_and!; [done|done|congruence|].
  apply IH; [|done]. intros p' Hp'. apply Hs. by right.
Qed.

Lemma wchain_in s q p : wchain s q → p ∈ q → is_Some (threads s !! p) ∧ p ≠ 0.
Proof.
  induction q as [|x q IH]; [by intros _ ?%elem_of_nil|]. intros (? & ? & _ & ?) [->|?]%elem_of_cons; auto.
Qed.

Lemma upd_some p f s q : is_Some (threads (upd p f s) !! q) ↔ is_Some (threads s !! q).
Proof.
  unfold upd. cbn [threads with_threads]. destruct (decide (p = q)) as [->|].
  - rewrite lookup_alter_eq. by rewrite fmap_is_Some.
  - by rewrite lookup_alter_ne.
Qed.

Lemma wchain_upd s q p f :
  p ∉ q → wchain s q → wchain (upd p f s) q.
Proof.
  intros Hp. apply wchain_frame. intros x Hx Hsome. rewrite upd_some, thr_upd_ne by (intros ->; done). done.
Qed.

(** Linking a thread behind the last. *)
Lemma wchain_snoc s q p c :
  wchain s (q ++ [p]) → NoDup (q ++ [p]) → c ≠ 0 → is_Some (threads s !! c) → c ∉ q ++ [p] → wait_next (thr s c) = 0 →
  wchain (upd p (set_wait_next c) s) (q ++ [p] ++ [c]).
Proof.
  induction q as [|x q IH]; cbn [app].
  - intros (Hp & Hp0 & _) _ Hc0 Hc Hin Hw. assert (p ≠ c) by (intros ->; apply Hin; left). cbn [wchain hd].
    rewrite !upd_some, thr_upd_eq, thr_upd_ne by done. done.
  - intros (Hx & Hx0 & Hn & Hch) [Hxq Hnd]%NoDup_cons Hc0 Hc Hin Hw.
    apply not_elem_of_cons in Hin as [Hcx Hin].
    assert (p ≠ x) by (intros ->; apply Hxq, elem_of_app; right; left).
    cbn [wchain]. rewrite upd_some, thr_upd_ne by done. split_and!; [done|done| |by apply IH].
    rewrite Hn. by destruct q.
Qed.
Definition woken (t : thread) : thread := set_state THREAD_RUNNABLE (set_wait_next 0 t).

Lemma enqueue_ok s l bs others wq q :
  sched_ok s l bs others → current_thread s ∈ l → wq_ok s wq q → current_thread s ∉ q →
  let '(wq', s') := enqueue wq s in
  wq_ok s' wq' (q ++ [current_thread s]) ∧ sched_ok s' l bs others ∧
  current_thread s' = current_thread s ∧ sched_ready s' = sched_ready s ∧
  ∀ p, state (thr s' p) = if decide (p = current_thread s) then THREAD_BLOCKED else state (thr s p).
Proof.
  intros Hok Hc [Hch Hh Ht Hnd] Hcq. set (c := current_thread s) in *.
  pose proof (so_list _ _ _ _ Hok) as L. pose proof (proj2 (tl_dom _ _ L c) Hc) as Hsome.
  assert (c ≠ 0) as Hc0 by (intros E; apply (tl_null _ _ L); by rewrite <- E).
  unfold enqueue. fold c. set (s1 := upd c (set_wait_next 0) (upd c (set_state THREAD_BLOCKED) s)).
  assert (sched_ok s1 l bs others) as Hok1.
  { subst s1. apply sched_ok_upd; try done; [by left|intros []; by split|].
    apply sched_ok_upd; try done. intros []; by split. }
  assert (thr s1 c = set_wait_next 0 (set_state THREAD_BLOCKED (thr s c))) as Hc1.
  { subst s1. by rewrite !thr_upd_eq by (by rewrite ?upd_some). }
  assert (∀ p, p ≠ c → thr s1 p = thr s p) as Hne by (intros p Hp; subst s1; by rewrite !thr_upd_ne).
  assert (wchain s1 q) as Hch1 by (subst s1; apply wchain_upd; [done|]; by apply wchain_upd).
  assert (is_Some (threads s1 !! c)) as Hsome1 by (subst s1; by rewrite !upd_some).
  assert (current_thread s1 = c ∧ sched_ready s1 = sched_ready s) as [Ec Er] by done. clearbody s1.
  assert (NoDup (q ++ [c])) as Hnd' by (apply NoDup_app; split_and!; [done| |apply NoDup_singleton];
    intros x Hx ->%list_elem_of_singleton; done).
  assert (∀ p, state (thr s1 p) = if decide (p = c) then THREAD_BLOCKED else state (thr s p)) as Hst.
  { intros p. case_decide as Hp; [by rewrite Hp, Hc1|by rewrite Hne]. }
  destruct q as [|p q _] using rev_ind.
  - rewrite Ht. unfold last_or. cbn [last default negb]. simpl. split_and!; auto. split; auto.
    cbn. split_and!; auto. by rewrite Hc1.
  - pose proof (wchain_in s _ p Hch ltac:(apply elem_of_app; right; left)) as [_ Hp0].
    rewrite Ht. unfold last_or. rewrite last_snoc. cbn [default]. simpl.
    rewrite (proj2 (Z.eqb_neq p 0) Hp0). cbn [negb]. split_and!; auto.
    + rewrite <- app_assoc. split; [|rewrite Hh; by destruct q| |by rewrite app_assoc].
      * apply wchain_snoc; auto. by rewrite Hc1.
      * cbn [wq_tail]. unfold last_or. by rewrite app_assoc, last_snoc.
    + apply sched_ok_upd; try done; [by left|intros []; by split].
    + intros x. rewrite thr_upd. case_decide as Hx; [destruct Hx as [-> _]|]; apply Hst.
Qed.

(** A switch leaves the queues alone. *)
Lemma after_resched_thr s l bs others p :
  sched_ok s l bs others → p ∈ l →
  wait_next (thr (after s (sched_resched_locked s)) p) = wait_next (thr s p).
Proof.
  intros Hok Hp. destruct (sched_ready s) eqn:Hr; [|unfold sched_resched_locked; by rewrite Hr].
  destruct (so_cur _ _ _ _ Hok) as [Hc|[_ Hf]]; [|congruence].
  pose proof Hc as (l1 & l2 & El)%list_elem_of_split. pose proof (so_list _ _ _ _ Hok) as L.
  pose proof L as L'. rewrite El in L'. rewrite (resched_eq s l1 l2 L' Hr).
  set (n := first_runnable s _). case_decide; [by repeat case_decide|]. case_decide as Hn; [done|]. cbn [after].
  rewrite (switch_thr _ n s l p) by done. by repeat case_decide.
Qed.

Lemma sleep_core s l bs others wq q :
  sched_ok s l bs others → current_thread s ∈ l → wq_ok s wq q → current_thread s ∉ q →
  (∀ p, p ∈ q → p ∈ l) →
  let '(wq', f) := sched_sleep wq s in
  f ≠ Looping ∧ wq_ok (after s f) wq' (q ++ [current_thread s]) ∧ sched_ok (after s f) l bs others.
Proof.
  intros Hok Hc Hw Hcq Hql. pose proof (so_list _ _ _ _ Hok) as L.
  assert (current_thread s ≠ 0) as Hc0 by (intros E; apply (tl_null _ _ L); by rewrite <- E).
  unfold sched_sleep. rewrite (proj2 (Z.eqb_neq _ 0) Hc0). cbn [negb].
  pose proof (enqueue_ok s l bs others wq q Hok Hc Hw Hcq) as He.
  destruct (enqueue wq s) as [wq' s']. destruct He as ([Hch Hh Ht Hnd] & Hok' & _).
  destruct (resched_ok s' l bs others Hok') as [Hnl Hr].
  assert (after s (sched_resched_locked s') = after s' (sched_resched_locked s')) as ->
    by (by destruct (sched_resched_locked s')).
  split_and!; [done| |done]. split; auto. apply (wchain_frame s'); [|done]. intros p Hp Hsome.
  assert (p ∈ l) as Hpl by (apply elem_of_app in Hp as [?| ->%list_elem_of_singleton]; auto).
  split; [|by apply (after_resched_thr s' l bs others)].
  by apply (tl_dom _ _ (so_list _ _ _ _ Hr)).
Qed.

Lemma wake_sched_ok s l bs others p :
  sched_ok s l bs others → sched_ok (upd p woken s) l bs others.
Proof. apply sched_ok_upd; [done|done|by intros [=]|intros []; by split]. Qed.

Lemma wake_one_core s l bs others wq p q :
  sched_ok s l bs others → wq_ok s wq (p :: q) →
  let '(wq', s') := sched_wake_one wq s in
  wq_ok s' wq' q ∧ sched_ok s' l bs others ∧ thr s' p = woken (thr s p) ∧
  (∀ x, x ≠ p → thr s' x = thr s x) ∧ current_thread s' = current_thread s.
Proof.
  intros Hok [(Hsome & Hp0 & Hn & Hch) Hh Ht [Hpq Hnd]%NoDup_cons]. unfold sched_wake_one.
  cbn [hd] in Hh. rewrite Hh, (proj2 (Z.eqb_neq p 0) Hp0). cbn [negb]. rewrite Hn.
  split_and!.
  - split; [by apply wchain_upd|done| |done]. cbn [wq_tail]. destruct q as [|x q]; cbn [hd]; [done|].
    destruct Hch as (_ & Hx & _). rewrite (proj2 (Z.eqb_neq x 0) Hx), Ht. unfold last_or.
    by rewrite last_cons_cons.
  - by apply wake_sched_ok.
  - by rewrite thr_upd_eq.
  - intros x Hx. by rewrite thr_upd_ne.
  - done.
Qed.

Lemma wake_loop_spec fuel : ∀ s l bs others q,
  sched_ok s l bs others → wchain s q → NoDup q → (length q < fuel)%nat →
  ∃ s', wake_loop fuel (hd 0 q) s = Some s' ∧ sched_ok s' l bs others ∧
    (∀ x, x ∈ q → thr s' x = woken (thr s x)) ∧ (∀ x, x ∉ q → thr s' x = thr s x) ∧
    current_thread s' = current_thread s.
Proof.
  induction fuel as [|fuel IH]; intros s l bs others q Hok Hch Hnd Hf; [lia|]. cbn [wake_loop].
  destruct q as [|p q]; cbn [hd].
  { exists s. split_and!; try done. by intros x ?%elem_of_nil. }
  destruct Hch as (Hsome & Hp0 & Hn & Hch). apply NoDup_cons in Hnd as [Hpq Hnd].
  rewrite (proj2 (Z.eqb_neq p 0) Hp0). cbv zeta. rewrite Hn.
  change (λ x : thread, _) with woken. set (s1 := upd p woken s).
  destruct (IH s1 l bs others q) as (s' & E & Hok' & Ha & Hb & Hc).
  - by apply wake_sched_ok.
  - by apply wchain_upd.
  - done.
  - simpl in Hf. lia.
  - exists s'. split_and!; [done|done| | |done].
    + intros x [->|Hx]%elem_of_cons.
      * rewrite Hb by done. subst s1. by rewrite thr_upd_eq.
      * rewrite Ha by done. subst s1. rewrite thr_upd_ne; [done|]. by intros ->.
    + intros x [Hx1 Hx2]%not_elem_of_cons. rewrite Hb by done. subst s1. by rewrite thr_upd_ne.
Qed.

Lemma wake_all_core s l bs others wq q :
  sched_ok s l bs others → wq_ok s wq q →
  ∃ s', sched_wake_all wq s = (mk_wq 0 0, Some s') ∧ wq_ok s' (mk_wq 0 0) [] ∧ sched_ok s' l bs others ∧
    (∀ x, x ∈ q → thr s' x = woken (thr s x)) ∧ (∀ x, x ∉ q → thr s' x = thr s x).
Proof.
  intros Hok [Hch Hh Ht Hnd]. pose proof (so_list _ _ _ _ Hok) as L. unfold sched_wake_all. rewrite Hh.
  destruct (wake_loop_spec (S (size (threads s))) s l bs others q) as (s' & -> & Hok' & Ha & Hb & _); auto.
  - rewrite (threads_size _ _ L). apply Nat.lt_succ_r, submseteq_length, NoDup_submseteq; [done|].
    intros x Hx. apply (tl_dom _ _ L). by apply (wchain_in s q).
  - exists s'. split_and!; auto. split; [done|done|done|apply NoDup_nil_2].
Qed.
End Wait.
End SchedWait.
