(* ===== verification/SchedSteps.v ===== *)
(** * What the scheduler guarantees

    The operations of sched.c as the steps of a machine: every reachable state
    is well formed and well typed.  The choice of the next thread, fairness,
    the end of a thread, waiting for children and the wait queues. *)

From S2P Require Import Prelude CString Bytes Alloc Sched SchedList SchedInv SchedSwitch SchedSpec SchedWait.
From stdpp Require Import options.
Import CString Bytes Sched SchedList SchedInv SchedSwitch SchedSpec SchedWait.

Module SchedSteps.

Section Steps.
Context {H T : Type} `{!Allocator H} {AL : AllocatorLaws H} `{!FileTable H T} {FL : FileTableLaws H T}.
Context (tramp : Z).
Implicit Types s : sched H T.

(** ** Booting *)

(** The static variables before [sched_init]. *)
Record unbooted s (bs others : list Z) : Prop := {
  ub_threads : threads s = ∅;
  ub_current : current_thread s = 0;
  ub_ready : sched_ready s = false;
  ub_files : ft_ok (s_files s) bs;
  ub_live : al_live (s_heap s) (bs ++ others);
}.

Lemma sched_init_ok s bs others s' :
  unbooted s bs others → al_room (s_heap s) SIZEOF_THREAD 16 → sched_init s = Ret s' →
  ∃ boot, sched_ok s' [boot] bs others ∧ current_thread s' = boot ∧ sched_ready s' = true ∧
    state (cur s') = THREAD_RUNNING.
Proof using AL.
  intros [U1 U2 U3 U4 U5] Hroom E. unfold sched_init in E. apply bind_Ret in E as ([t s1] & Ha & E).
  set (s0 := with_list s 0 0 0) in *.
  assert (sched_ok s0 [] bs others) as Hok0.
  { split; cbn; auto; try by intros p ?%elem_of_nil. split; cbn; try done.
    - intros p. rewrite U1, lookup_empty, elem_of_nil. split; [by intros []|done].
    - apply NoDup_nil_2.
    - by intros ?%elem_of_nil. }
  destruct (thread_alloc_ok s0 [] bs others t s1 Hok0 Hroom Ha) as (_ & Hnz & Hok1 & _ & _).
  rewrite (proj2 (Z.eqb_neq t 0) Hnz) in E. cbv zeta in E. cbn [app] in Hok1.
  pose proof (proj2 (tl_dom _ _ (so_list _ _ _ _ Hok1) t) ltac:(left)) as Hsome.
  set (s2 := upd t (set_reaped true) (upd t (set_state THREAD_RUNNING) s1)) in E.
  assert (thr s2 t = set_reaped true (set_state THREAD_RUNNING (thr s1 t))) as Ht
    by (subst s2; by rewrite !thr_upd_eq by (by rewrite ?upd_some)).
  assert (thread_list s2 [t]) as L2 by (subst s2; do 2 (apply thread_list_upd; [done|]); apply Hok1).
  assert (s_files s2 = s_files s1 ∧ s_heap s2 = s_heap s1) as [E1 E2] by done. clearbody s2.
  injection E as <-. exists t. split; [|split_and!; [done|done|]].
  - split; cbn [current_thread sched_ready s_files s_heap].
    + by destruct L2.
    + left. left.
    + by intros p ->%list_elem_of_singleton.
    + intros p ->%list_elem_of_singleton. change (thread_typed (thr s2 t)). rewrite Ht.
      destruct (so_typed_any _ _ _ _ t Hok1). by split.
    + rewrite E1. apply Hok1.
    + rewrite E2. replace (stacks _ [t]) with (stacks s1 [t]); [apply Hok1|]. symmetry. apply stacks_ext.
      intros p ->%list_elem_of_singleton. change (stack (thr s2 t) = stack (thr s1 t)). by rewrite Ht.
  - unfold cur. cbn [current_thread]. change (state (thr s2 t) = THREAD_RUNNING). by rewrite Ht.
Qed.

(** ** The current thread's attributes *)

Lemma upd_cur_ok s l bs others f :
  (∀ t, links (f t) = links t) → (∀ t, stack (f t) = stack t) →
  (∀ t, thread_typed t → thread_typed (f t)) →
  sched_ok s l bs others →
  sched_ok (if negb (current_thread s =? 0) then upd_cur f s else s) l bs others.
Proof.
  intros H1 H2 H3 Hok. destruct (negb _); [|done]. apply sched_ok_upd; auto.
Qed.

Lemma set_cwd_typed (buf : list Z) t :
  thread_typed t → thread_typed (set_cwd (store (cwd t) 0 (take 255 (cstr buf) ++ [0])) t).
Proof.
  intros [H1 H2 H3 H4]. split; cbn [cwd fds set_cwd]; [by rewrite length_store| |done|done].
  assert (length (take 255 (cstr buf) ++ [0%Z]) ≤ 256)%nat as Hl by (rewrite length_app, length_take; cbn [length]; lia).
  rewrite store_eq by lia. rewrite !elem_of_app. right. left. right. left.
Qed.

Lemma insert_fd_typed (i : nat) (h : Z) t :
  -1 ≤ h < HANDLE_MAX → thread_typed t → thread_typed (set_fds (<[i := h]> (fds t)) t).
Proof.
  intros Hh [H1 H2 H3 H4]. split; cbn [cwd fds set_fds]; auto; [by rewrite length_insert|].
  by apply Forall_insert.
Qed.

(** ** Steps *)

(** One call of the scheduler's interface; creating needs room in the heap,
    waiting a thread that is alive, and a descriptor is set to a handle. *)
Inductive step : sched H T → sched H T → Prop :=
| step_create e a r s s' : create_room s → sched_create tramp e a s = Ret (r, s') → step s s'
| step_create_user e a pp r p s s' :
    create_room s → sched_create_user tramp e a pp s = Ret (r, p, s') → step s s'
| step_yield s : step s (after s (sched_yield s))
| step_preempt s : step s (after s (sched_maybe_preempt s))
| step_exit s f : sched_exit s = Ret f → step s (after s f)
| step_wait pp r code s s' :
    state (cur s) ≠ THREAD_DEAD → sched_wait_child [] pp s = Ret (Done (r, code, s')) → step s s'
| step_kill s : step s (sched_kill_user_threads s)
| step_tick s : step s (sched_on_tick s)
| step_request trampoline frame s : step s (sched_request_preempt trampoline frame s).2
| step_sleep wq s : step s (after s (sched_sleep wq s).2)
| step_sleep_cond wq c s : step s (after s (sched_sleep_cond wq c s).2)
| step_wake_one wq s : step s (sched_wake_one wq s).2
| step_wake_all wq s s' : (sched_wake_all wq s).2 = Some s' → step s s'
| step_aspace a s : step s (sched_set_current_aspace a s)
| step_exit_to_kernel e s : step s (sched_set_current_exit_to_kernel e s)
| step_exit_code c s : step s (sched_set_current_exit_code c s)
| step_cwd buf s : step s (sched_set_cwd buf s)
| step_set_fd fd h s : -1 ≤ h < HANDLE_MAX → step s (sched_set_fd fd h s)
| step_allocate_fd h s : h < HANDLE_MAX → step s (sched_allocate_fd h s).2.

Definition good (others : list Z) s : Prop := ∃ l bs, sched_ok s l bs others.

Lemma good_sleep others wq s : good others s → good others (after s (sched_sleep wq s).2).
Proof.
  intros (l & bs & Hok). exists l, bs. unfold sched_sleep. destruct (Z.eqb_spec (current_thread s) 0); [done|].
  cbn [negb]. destruct (enqueue wq s) as [wq' s'] eqn:E. cbn [snd].
  assert (sched_ok s' l bs others) as Hok'.
  { unfold enqueue in E. set (c := current_thread s) in *.
    set (s1 := upd c (set_wait_next 0) (upd c (set_state THREAD_BLOCKED) s)) in E.
    assert (sched_ok s1 l bs others) as Hok1.
    { subst s1. apply sched_ok_upd; try done; [by left|intros []; by split|].
      apply sched_ok_upd; try done. intros []; by split. }
    clearbody s1. destruct (negb _); injection E as <- <-; [|done].
    apply sched_ok_upd; try done; [by left|intros []; by split]. }
  destruct (resched_ok s' l bs others Hok') as [Hnl Hr]. by destruct (sched_resched_locked s').
Qed.

Lemma good_wake_loop others fuel : ∀ t s s',
  good others s → wake_loop fuel t s = Some s' → good others s'.
Proof.
  induction fuel as [|fuel IH]; intros t s s' Hg; cbn [wake_loop]; destruct (t =? 0); try done;
    try by intros [= <-]. cbv zeta. apply IH. destruct Hg as (l & bs & Hok). exists l, bs. by apply wake_sched_ok.
Qed.

Lemma wait_good others pp r code s s' l bs :
  sched_ok s l bs others → state (cur s) ≠ THREAD_DEAD →
  sched_wait_child [] pp s = Ret (Done (r, code, s')) → good others s'.
Proof using AL.
  intros Hok Hlive E. destruct (Z.ltb_spec pp 0) as [Hpp|Hpp].
  { cbn [sched_wait_child] in E. rewrite (proj2 (Z.ltb_lt pp 0) Hpp) in E. injection E as _ _ <-. by exists l, bs. }
  destruct (wait_child_core [] pp others Hpp ltac:(constructor) s l bs (conj Hok Hlive))
    as (o & s1 & l1 & bs1 & E' & [Hok1 _] & Hp).
  rewrite E in E'. injection E' as <-. destruct Hp as [(a & x & b & -> & _ & _ & _ & _ & Hok' & _)|(_ & -> & _)].
  - by exists (a ++ b), bs1.
  - by exists l1, bs1.
Qed.

Lemma exit_idle s : current_thread s = 0 → sched_exit s = Ret (Halted s).
Proof.
  intros Hc. unfold sched_exit. rewrite Hc. cbn [Z.eqb negb mbind result_bind].
  unfold sched_resched_locked. rewrite Hc. by destruct (sched_ready s).
Qed.

Lemma step_good others s s' : step s s' → good others s → good others s'.
Proof using AL FL.
  intros Hs (l & bs & Hok). destruct Hs.
  - destruct (sched_create_ok tramp s l bs others e a r s') as (l' & ? & _); auto. by exists l', bs.
  - destruct (sched_create_user_ok tramp s l bs others e a pp r p s') as (l' & ? & _); auto. by exists l', bs.
  - exists l, bs. by apply resched_ok.
  - exists l, bs. unfold sched_maybe_preempt. destruct (negb _); [done|]. destruct (need_resched s); [|done].
    by apply resched_ok.
  - destruct (so_cur _ _ _ _ Hok) as [Hc|[Hc Hr]].
    + destruct (sched_exit_ok s l bs others Hok Hc) as (f' & bs' & E & ?). assert (f' = f) as -> by congruence.
      by exists l, bs'.
    + exists l, bs. assert (f = Halted s) as -> by (pose proof (exit_idle s Hc); congruence). done.
  - exact (wait_good others pp r code s s' l bs ltac:(done) ltac:(done) ltac:(done)).
  - exists l, bs. by apply kill_spec.
  - exists l, bs. unfold sched_on_tick. destruct (negb _); apply (sched_ok_same s); auto; apply Hok.
  - exists l, bs. unfold sched_request_preempt. destruct frame as [[cs rip_]|]; [|done].
    destruct (_ || _); [done|]. destruct (negb (_ =? 0)); [done|]. destruct (_ && _); [done|].
    destruct (preempt_pending s); [done|].
    cbn [snd]. apply (sched_ok_same s); auto. apply Hok.
  - apply good_sleep. by exists l, bs.
  - unfold sched_sleep_cond. destruct (default false c); [by exists l, bs|]. apply good_sleep. by exists l, bs.
  - exists l, bs. unfold sched_wake_one. destruct (negb _); [|done]. by apply wake_sched_ok.
  - unfold sched_wake_all in *. cbn [snd] in *. eapply good_wake_loop; [by exists l, bs|]. eassumption.
  - exists l, bs. apply upd_cur_ok; try done. intros ? []; by split.
  - exists l, bs. apply upd_cur_ok; try done. intros ? []; by split.
  - exists l, bs. apply upd_cur_ok; try done. intros ? []; by split.
  - exists l, bs. apply upd_cur_ok; try done. apply set_cwd_typed.
  - exists l, bs. unfold sched_set_fd. destruct (_ || _); [done|]. apply upd_cur_ok; try done.
    intros t. by apply insert_fd_typed.
  - exists l, bs. unfold sched_allocate_fd. destruct (Z.ltb_spec h 0); [done|].
    pose proof (upd_cur_ok s l bs others) as Hu. destruct (negb _); [|done].
    destruct (find_range _ _ _) as [i|]; [|done]. cbn [snd]. apply Hu; try done.
    intros t. apply insert_fd_typed. lia.
Qed.
(** ** Reachable states *)

Lemma reachable_good s0 s1 s bs others :
  unbooted s0 bs others → al_room (s_heap s0) SIZEOF_THREAD 16 → sched_init s0 = Ret s1 →
  rtc step s1 s → good others s.
Proof using AL FL.
  intros Hu Hr Hi. destruct (sched_init_ok s0 bs others s1 Hu Hr Hi) as (boot & Hok & _).
  assert (good others s1) as Hg by (by exists [boot], bs). clear -Hg AL FL. intros Hs.
  induction Hs as [s|s s' s'' Hst _ IH]; [done|]. apply IH. by apply (step_good others s).
Qed.


(** A pointer to a thread object, or null. *)
Definition ptr_typed s (p : Z) : Prop := p = 0 ∨ is_Some (threads s !! p).

Lemma dll_links m l : ∀ pv nx p t, dll m pv l nx → p ∈ l → m !! p = Some t →
  (next t = nx ∨ next t ∈ l) ∧ (prev t = pv ∨ prev t ∈ l).
Proof.
  induction l as [|q l IH]; intros pv nx p t D Hp Ht; [by apply elem_of_nil in Hp|].
  destruct D as (t' & Ht' & Hpv & Hnx & D). apply elem_of_cons in Hp as [->|Hp].
  - assert (t' = t) as -> by congruence. rewrite Hnx, Hpv. split; [|by left].
    destruct l as [|x l]; [by left|right]. right. left.
  - destruct (IH q nx p t D Hp Ht) as [[->|?] [->|?]]; split; auto using list_elem_of_further;
      right; apply elem_of_cons; auto.
Qed.

(** every reachable state is well typed: the current thread, the ends of
    the list and the links of every thread point to thread objects or are
    null, every thread's working directory is a 256-byte buffer with a
    terminating null, and it has 16 descriptors that are -1 or below the
    number of handles. *)
Theorem sched_reachable_typed s0 s1 s bs others :
  unbooted s0 bs others → al_room (s_heap s0) SIZEOF_THREAD 16 → sched_init s0 = Ret s1 →
  rtc step s1 s →
  ptr_typed s (current_thread s) ∧ ptr_typed s (threads_head s) ∧ ptr_typed s (threads_tail s) ∧
  ∀ p t, threads s !! p = Some t → thread_typed t ∧ ptr_typed s (next t) ∧ ptr_typed s (prev t).
Proof using AL FL.
  intros Hu Hr Hi Hs. destruct (reachable_good s0 s1 s bs others Hu Hr Hi Hs) as (l & bs' & Hok).
  pose proof (so_list _ _ _ _ Hok) as L. pose proof (tl_dom _ _ L) as Hdom. unfold ptr_typed. split_and!.
  - destruct (so_cur _ _ _ _ Hok) as [?|[? _]]; [right; by apply Hdom|by left].
  - rewrite (tl_head _ _ L). destruct (hd_in l); [by left|right; by apply Hdom].
  - rewrite (tl_tail _ _ L). destruct (last_or_in l); [by left|right; by apply Hdom].
  - intros p t Ht. assert (p ∈ l) as Hp by (apply Hdom; eauto).
    destruct (dll_links _ l 0 0 p t (tl_dll _ _ L) Hp Ht) as [Hn Hv].
    split; [rewrite <- (thr_lookup s p t Ht); by apply (so_typed _ _ _ _ Hok)|].
    split; [destruct Hn|destruct Hv]; auto; right; by apply Hdom.
Qed.

(** ** The next thread *)

(** The effect of a switch from [c] to [n]. *)
Definition switched_to s (c n : Z) s' : Prop :=
  current_thread s' = n ∧ need_resched s' = false ∧ last_switch_tick s' = sched_ticks s ∧
  thr s' n = set_state THREAD_RUNNING (thr s n) ∧
  thr s' c = (if decide (state (thr s c) = THREAD_RUNNING) then set_state THREAD_RUNNABLE (thr s c) else thr s c) ∧
  (aspace (thr s n) ≠ 0 → cr3 s' = aspace (thr s n)) ∧
  (stack (thr s n) ≠ 0 → kernel_stack s' = kernel_stack_of (thr s n)) ∧
  ∀ q, q ≠ c → q ≠ n → threads s' !! q = threads s !! q.

Lemma switch_switched s l c n :
  thread_list s l → c ∈ l → n ∈ l → c ≠ n → switched_to s c n (switch_to c n s).
Proof.
  intros L Hc Hn Hcn.
  assert (∀ q, q ∈ l → aspace (thr (switch_to c n s) q) = aspace (thr s q) ∧
    stack (thr (switch_to c n s) q) = stack (thr s q)) as Hq.
  { intros q Hq. rewrite (switch_thr c n s l q) by done. by repeat case_decide. }
  destruct (Hq n Hn) as [Ha Hst]. unfold switched_to. split_and!.
  - apply switch_cur.
  - unfold switch_to. by destruct (decide _).
  - unfold switch_to. by destruct (decide _).
  - by rewrite (switch_thr c n s l n), decide_True by done.
  - rewrite (switch_thr c n s l c) by done. destruct (decide (c = n)); [done|].
    destruct (decide (c = c ∧ _)) as [[_ Hr]|Hr], (decide (state (thr s c) = _)); naive_solver.
  - rewrite <- Ha. intros Hnz. unfold switch_to, thr in *. cbn [cr3 threads] in *.
    by rewrite (proj2 (Z.eqb_neq _ 0) Hnz).
  - rewrite <- Hst. intros Hnz. unfold switch_to, thr, kernel_stack_of in *. cbn [kernel_stack threads] in *.
    by rewrite (proj2 (Z.eqb_neq _ 0) Hnz), Hst.
  - intros q Hqc Hqn. rewrite switch_lookup by done. destruct (threads s !! q); [|done]. cbn.
    rewrite decide_False by done. by rewrite decide_False by naive_solver.
Qed.
Lemma first_runnable_zero s r : (0 ∉ r) → first_runnable s r = 0 → ∀ y, y ∈ r → state (thr s y) ≠ THREAD_RUNNABLE.
Proof.
  intros H0 E y Hy Hr. unfold first_runnable in E.
  assert (y ∈ filter (runnable s) r) as Hf by (by apply list_elem_of_filter).
  destruct (filter (runnable s) r) as [|x f] eqn:Ef; [by apply elem_of_nil in Hf|]. cbn [hd] in E. subst x.
  apply H0. assert (0 ∈ filter (runnable s) r) as Hz by (rewrite Ef; left). by apply list_elem_of_filter in Hz as [_ ?].
Qed.

Lemma first_runnable_first s r n : n ≠ 0 → first_runnable s r = n →
  ∃ a b, r = a ++ n :: b ∧ state (thr s n) = THREAD_RUNNABLE ∧ ∀ y, y ∈ a → state (thr s y) ≠ THREAD_RUNNABLE.
Proof.
  intros Hn. unfold first_runnable. induction r as [|x r IH]; [done|].
  destruct (decide (runnable s x)) as [Hx|Hx].
  - rewrite filter_cons_True by done. cbn [hd]. intros ->. exists [], r. split_and!; try done.
    by intros y ?%elem_of_nil.
  - rewrite filter_cons_False by done. intros (a & b & -> & Hr & Ha)%IH. exists (x :: a), b.
    split_and!; try done. intros y [->|?]%elem_of_cons; auto.
Qed.

(** What [sched_resched_locked] does when [rest] are the other threads in
    circular order from the current one. *)
Definition resched_post s (c : Z) (rest : list Z) (f : flow (sched H T)) : Prop :=
  match f with
  | Switched s' => ∃ a n b, rest = a ++ n :: b ∧ state (thr s n) = THREAD_RUNNABLE ∧
      (∀ y, y ∈ a → state (thr s y) ≠ THREAD_RUNNABLE) ∧ switched_to s c n s'
  | Returned s' => s' = s ∧ (∀ y, y ∈ rest → state (thr s y) ≠ THREAD_RUNNABLE) ∧
      state (thr s c) ≠ THREAD_DEAD
  | Halted s' => s' = s ∧ (∀ y, y ∈ rest → state (thr s y) ≠ THREAD_RUNNABLE) ∧
      state (thr s c) = THREAD_DEAD
  | Looping => False
  end.

Lemma resched_core s l1 l2 :
  thread_list s (l1 ++ current_thread s :: l2) → sched_ready s = true →
  resched_post s (current_thread s) (l2 ++ l1) (sched_resched_locked s).
Proof.
  intros L Hr. rewrite (resched_eq s l1 l2 L Hr). set (c := current_thread s) in *. unfold cur. fold c.
  pose proof (tl_null _ _ L) as H0. pose proof (tl_nodup _ _ L) as (Hn1 & Hn12 & [Hc2 Hn2]%NoDup_cons)%NoDup_app.
  assert (0 ∉ l2 ++ l1 ++ [c]) as H0' by (intros Hin; apply H0; clear -Hin; set_solver).
  pose proof (first_runnable_zero s _ H0') as Hz. pose proof (first_runnable_first s (l2 ++ l1 ++ [c])) as Hf.
  set (n := first_runnable s _) in *. clearbody n.
  assert (∀ y, y ∈ l2 ++ l1 → y ∈ l2 ++ l1 ++ [c]) as Hin by (intros y; rewrite !elem_of_app; tauto).
  destruct (decide (n = 0)) as [En|En].
  - specialize (Hz En). destruct (decide (state (thr s c) = THREAD_DEAD)); cbn; auto.
  - destruct (Hf n En eq_refl) as (a & b & Er & Hn & Ha). rewrite app_assoc in Er.
    destruct (decide (n = c)) as [->|Hnc].
    + assert (a = l2 ++ l1) as ->.
      { destruct b as [|x b _] using rev_ind; [by apply app_inj_tail in Er as [-> _]|exfalso].
        rewrite app_comm_cons, app_assoc in Er. apply app_inj_tail in Er as [Er _].
        assert (c ∈ l2 ++ l1) as [Hx|Hx]%elem_of_app by (rewrite Er; apply elem_of_app; right; left); [done|].
        apply (Hn12 c Hx). left. }
      split; [done|]. split; [auto|congruence].
    + destruct b as [|x b _] using rev_ind; [by apply app_inj_tail in Er as [_ ->]|].
      rewrite app_comm_cons, app_assoc in Er. apply app_inj_tail in Er as [Er _]. exists a, n, b. split_and!; auto.
      assert (n ∈ l2 ++ l1) as Hnl by (rewrite Er; apply elem_of_app; right; left).
      apply (switch_switched s (l1 ++ c :: l2)); auto; rewrite elem_of_app, elem_of_cons; [tauto|].
      rewrite elem_of_app in Hnl. tauto.
Qed.

(** the scheduler's choice: [sched_resched_locked] (and so [sched_yield])
    switches to the first runnable thread after the current one in circular
    list order, skipping none, and the switch leaves every third thread as it
    was, marks the new thread running, the old one runnable if it was running,
    restarts the time slice and installs the new thread's address space and
    kernel stack; if no other thread is runnable it returns with nothing
    changed, unless the current thread is dead, when the processor halts.  The
    search always ends. *)
Theorem sched_resched_spec s l1 l2 bs others :
  sched_ok s (l1 ++ current_thread s :: l2) bs others → sched_ready s = true →
  resched_post s (current_thread s) (l2 ++ l1) (sched_resched_locked s).
Proof using. intros Hok. apply resched_core, Hok. Qed.

(** C23: round robin: if the running thread and its successors keep yielding, a
    runnable thread runs within as many yields as there are threads. *)
Theorem sched_round_robin s l bs others p :
  sched_ok s l bs others → sched_ready s = true → state (cur s) = THREAD_RUNNING → p ∈ l →
  state (thr s p) = THREAD_RUNNABLE →
  ∃ k, (1 ≤ k < length l)%nat ∧ current_thread (yields k s) = p.
Proof using.
  intros Hok Hr Hc Hp Hrun. pose proof (so_list _ _ _ _ Hok) as L.
  destruct (so_cur _ _ _ _ Hok) as [Hcl|[_ Hf]]; [|congruence].
  apply list_elem_of_split in Hcl as (l1 & l2 & El).
  assert (p ∈ l2 ++ l1) as Hpl.
  { rewrite El in Hp. rewrite elem_of_app, elem_of_cons in Hp. rewrite elem_of_app.
    destruct Hp as [?|[->|?]]; auto. unfold cur in Hc. congruence. }
  apply list_elem_of_split in Hpl as (r1 & r2 & Er).
  destruct (yields_reach (length r1) s l l1 l2 r1 p r2) as (k & Hk & Ek); auto.
  exists k. split; [|done]. apply (f_equal length) in Er. rewrite El, length_app in *. rewrite !length_app in Er.
  simpl in *. lia.
Qed.

(** ** Exit, wait, sleep and wake *)


(** [sched_wait_child]: whatever well-behaved code runs while the caller
    yields, the call does not fail and every pass over the list ends; when it
    returns, it returns the pid and exit code of the first dead child not yet
    waited for, whose object and stack are then freed and no other thread
    changed, or -1 because the caller has no child; it waits only while there
    is a child and none is dead. *)
Theorem sched_wait_child_spec env pp s l bs others :
  0 ≤ pp → live_ok s l bs others → Forall (keeps others) env →
  ∃ o s1 l1 bs1, sched_wait_child env pp s = Ret o ∧ live_ok s1 l1 bs1 others ∧
    wait_post pp s1 l1 bs1 others o.
Proof using AL. intros Hpp Hl He. by apply (wait_child_core env pp others Hpp He s l bs). Qed.

(** C24: a wait queue is a first-in first-out queue of threads: [sched_sleep]
    blocks the caller, appends it and switches away, [sched_wake_one] makes the
    longest waiting thread runnable and removes it, [sched_wake_all] makes
    every waiting thread runnable and leaves the queue empty; no thread is
    lost, and the invariant holds after each. *)
Theorem wait_queue_refines s l bs others wq q :
  sched_ok s l bs others → wq_ok s wq q →
  (current_thread s ∈ l → current_thread s ∉ q →
   let '(wq', f) := sched_sleep wq s in
   f ≠ Looping ∧ wq_ok (after s f) wq' (q ++ [current_thread s]) ∧ sched_ok (after s f) l bs others) ∧
  (∀ p q', q = p :: q' →
   let '(wq', s') := sched_wake_one wq s in
   wq_ok s' wq' q' ∧ sched_ok s' l bs others ∧ thr s' p = woken (thr s p) ∧ ∀ x, x ≠ p → thr s' x = thr s x) ∧
  (∃ s', sched_wake_all wq s = (mk_wq 0 0, Some s') ∧ wq_ok s' (mk_wq 0 0) [] ∧ sched_ok s' l bs others ∧
    (∀ x, x ∈ q → thr s' x = woken (thr s x)) ∧ (∀ x, x ∉ q → thr s' x = thr s x)).
Proof using.
  intros Hok Hw. split_and!.
  - intros Hc Hcq. apply (sleep_core s l bs others wq q Hok Hc Hw Hcq). intros p Hp.
    apply (tl_dom _ _ (so_list _ _ _ _ Hok)). by apply (wchain_in s q p (wq_chain _ _ _ Hw)).
  - intros p q' ->. pose proof (wake_one_core s l bs others wq p q' Hok Hw) as E.
    destruct (sched_wake_one wq s). destruct E as (? & ? & ? & ? & _). done.
  - by apply wake_all_core.
Qed.
End Steps.
End SchedSteps.
