(* ===== verification/SchedExamples.v ===== *)
(** * A concrete scheduler

    Threads on an arena that hands out fresh addresses, and a table that only
    counts references: every hypothesis of the scheduler's theorems can hold. *)

From S2P Require Import Prelude CString Bytes Alloc Sched SchedList SchedInv SchedSwitch SchedSpec SchedWait SchedSteps.
From stdpp Require Import options.
Import CString Bytes Sched SchedList SchedInv SchedSwitch SchedSpec SchedWait SchedSteps.

Module SchedExamples.

(** The next address and the blocks in use. *)
Record arena := mk_arena { ar_next : Z; ar_live : list Z }.

#[export] Instance arena_allocator : Allocator arena := {
  al_alloc h size align := Ret (ar_next h, mk_arena (ar_next h + 0x10000) (ar_next h :: ar_live h));
  al_free h p :=
    if p =? 0 then Ret h
    else if bool_decide (p ∈ ar_live h) then Ret (mk_arena (ar_next h) (list_difference (ar_live h) [p]))
    else Panic "double free" p;
  al_live h ps := ar_live h ≡ₚ ps ∧ NoDup ps ∧ (∀ p, p ∈ ps → 0 < p < ar_next h) ∧ 0 < ar_next h;
  al_room h size align := True;
}.

Lemma difference_one (l ps : list Z) p : l ≡ₚ p :: ps → NoDup (p :: ps) → list_difference l [p] ≡ₚ ps.
Proof.
  intros E Hn. assert (NoDup l) as Hl by (by rewrite E). apply NoDup_cons in Hn as [Hp Hn].
  apply NoDup_Permutation; [by apply NoDup_list_difference|done|]. intros x.
  rewrite list_elem_of_difference, E. set_solver.
Qed.

#[export] Instance arena_laws : AllocatorLaws arena.
Proof.
  split.
  - intros h ps ps' E (H1 & H2 & H3 & H4). split_and!; [by rewrite <- E|by rewrite <- E| |done].
    intros p. rewrite <- E. apply H3.
  - intros h h' ps size align p (H1 & H2 & H3 & H4) _ _ [= <- <-]. split_and!.
    + intros Hin. specialize (H3 _ Hin). lia.
    + lia.
    + cbn [al_live arena_allocator ar_live ar_next]. split_and!; [by rewrite H1| | |lia].
      * apply NoDup_cons. split; [|done]. intros Hin. specialize (H3 _ Hin). lia.
      * intros q [->|Hq]%elem_of_cons; [lia|]. specialize (H3 _ Hq). lia.
  - intros h ps p (H1 & H2 & H3 & H4). pose proof (H3 p ltac:(left)) as Hp. cbn [al_free arena_allocator].
    rewrite (proj2 (Z.eqb_neq p 0)) by lia. rewrite bool_decide_true by (rewrite H1; left).
    eexists. split; [done|]. cbn [al_live arena_allocator ar_live ar_next].
    split_and!; [by apply difference_one| |set_solver|done]. by apply NoDup_cons in H2 as [_ ?].
  - done.
Qed.

#[local] Instance counts : FileTable arena (list Z) := {
  ft_acquire i t := alter (λ c, c + 1) (Z.to_nat i) t;
  ft_release i t h := Ret (alter (λ c, c - 1) (Z.to_nat i) t, h);
}.
#[local] Instance counts_laws : FileTableLaws arena (list Z).
Proof.
  refine {| ft_ok t bs := bs = [] |}; [done|]. intros i t h bs ps -> Hl. eexists _, _, []. done.
Defined.

(** Before [sched_init], after it, and with a kernel and a user thread. *)
Definition s0 : sched arena (list Z) :=
  mk_sched ∅ 0 0 0 0 0 false 0 false false 0 1 0 0 (mk_arena 0x10000 []) (replicate 128 0).
Definition s1 : sched arena (list Z) :=
  Eval vm_compute in match sched_init s0 with Ret s => s | _ => s0 end.
Definition tramp : Z := 0x7000.
Definition s2 : sched arena (list Z) :=
  Eval vm_compute in match sched_create tramp 0x1000 0 s1 with Ret (_, s) => s | _ => s0 end.
Definition s3 : sched arena (list Z) :=
  Eval vm_compute in match sched_create_user tramp 0x2000 0 0 s2 with Ret (_, _, s) => s | _ => s0 end.

Lemma s0_unbooted : unbooted s0 [] [].
Proof.
  split; try done. split_and!; [done|apply NoDup_nil_2| |done]. by intros p ?%elem_of_nil.
Qed.
Lemma init_s1 : sched_init s0 = Ret s1.
Proof. vm_compute. reflexivity. Qed.

Lemma step_s2 : step tramp s1 s2.
Proof. apply (step_create tramp 0x1000 0 0); [split; [done|by intros ? ? _]|vm_compute; reflexivity]. Qed.
Lemma step_s3 : step tramp s2 s3.
Proof. apply (step_create_user tramp 0x2000 0 0 0 1); [split; [done|by intros ? ? _]|vm_compute; reflexivity]. Qed.
Lemma reach_s3 : rtc (step tramp) s1 s3.
Proof. eapply rtc_l; [exact step_s2|]. apply rtc_once, step_s3. Qed.


Lemma sched_reachable_typed_witness : ptr_typed s3 (threads_tail s3) ∧ threads_tail s3 = 0x40000.
Proof.
  destruct (sched_reachable_typed tramp s0 s1 s3 [] [] s0_unbooted I init_s1 reach_s3) as (_ & _ & H & _).
  split; [exact H|reflexivity].
Defined.
(** The list is the one the links give. *)
Fixpoint walk (n : nat) (s : sched arena (list Z)) (p : Z) : list Z :=
  match n with O => [] | S n' => p :: walk n' s (next (thr s p)) end.

Lemma walk_list s l : thread_list s l → walk (Z.to_nat (thread_count s)) s (threads_head s) = l.
Proof.
  intros L. rewrite (tl_count _ _ L), (tl_head _ _ L), Nat2Z.id.
  assert (∀ l2 l1, l = l1 ++ l2 → walk (length l2) s (hd 0 l2) = l2) as Hw; [|by apply (Hw l [])].
  induction l2 as [|p l2 IH]; intros l1 El; [done|]. cbn [length walk hd]. f_equal.
  rewrite El in L. destruct (next_hd s l1 p l2 L) as [_ ->]. apply (IH (l1 ++ [p])). by rewrite <- app_assoc.
Qed.

Definition threads3 : list Z := [0x10000; 0x20000; 0x40000].
Lemma s3_ok : ∃ bs, sched_ok s3 threads3 bs [].
Proof.
  destruct (reachable_good tramp s0 s1 s3 [] [] s0_unbooted I init_s1 reach_s3) as (l & bs & Hok).
  pose proof (walk_list s3 l (so_list _ _ _ _ Hok)) as E. exists bs.
  assert (walk (Z.to_nat (thread_count s3)) s3 (threads_head s3) = threads3) as E3 by (vm_compute; reflexivity).
  by rewrite <- E3, E.
Qed.

(** The boot thread yields to the kernel thread. *)
Lemma sched_resched_spec_witness :
  resched_post s3 0x10000 [0x20000; 0x40000] (sched_resched_locked s3) ∧
  current_thread (after s3 (sched_resched_locked s3)) = 0x20000.
Proof.
  destruct s3_ok as [bs Hok]. split; [|vm_compute; reflexivity].
  exact (sched_resched_spec s3 [] [0x20000; 0x40000] bs [] Hok eq_refl).
Defined.

(** The user thread runs within two yields. *)
Lemma sched_round_robin_witness :
  ∃ k, (1 ≤ k < 3)%nat ∧ current_thread (yields k s3) = 0x40000.
Proof.
  destruct s3_ok as [bs Hok].
  apply (sched_round_robin s3 threads3 bs [] 0x40000 Hok); [reflexivity|vm_compute; reflexivity| |vm_compute; reflexivity].
  right. right. left.
Defined.


(** The kernel has one child, still alive: waiting for it waits. *)
Lemma sched_wait_child_spec_witness :
  ∃ o s l bs, sched_wait_child [id] 0 s3 = Ret o ∧ live_ok s l bs [] ∧ wait_post 0 s l bs [] o.
Proof.
  destruct s3_ok as [bs Hok].
  apply (sched_wait_child_spec [id] 0 s3 threads3 bs []); [lia|split; [exact Hok|by vm_compute]|].
  constructor; [|constructor]. intros s l bs' H. by exists l, bs'.
Defined.

(** The boot thread waits in an empty queue. *)
Lemma wait_queue_refines_witness :
  wq_ok s3 wait_queue_init [] ∧
  let '(wq', f) := sched_sleep wait_queue_init s3 in wq_ok (after s3 f) wq' [0x10000].
Proof.
  destruct s3_ok as [bs Hok].
  assert (wq_ok s3 wait_queue_init []) as Hw by (split; [exact I|reflexivity|reflexivity|apply NoDup_nil_2]).
  split; [exact Hw|].
  destruct (wait_queue_refines s3 threads3 bs [] wait_queue_init [] Hok Hw) as [H _].
  specialize (H ltac:(left) ltac:(by intros ?%elem_of_nil)).
  destruct (sched_sleep wait_queue_init s3) as [wq' f]. apply H.
Defined.
End SchedExamples.
