(* ===== verification/Ramfs.v ===== *)
(** * The RAM file system (src/kernel/ramfs.c)

    A table of 32 files whose data are heap blocks.  The model is over any
    allocator (Alloc.v); [bufs] holds the contents of the blocks the file
    system owns, by pointer.  Files are named by their index in the table. *)

From S2P Require Import Prelude CString Bytes Alloc.
From stdpp Require Import options.
Import CString Bytes.

Module Ramfs.

Definition RAMFS_MAX_FILES : Z := 32.
Definition RAMFS_PATH_MAX : Z := 64.
Definition RAMFS_GROW_STEP : Z := 64.

Record ramfs_file := mk_rf {
  rf_path : list Z;
  rf_data : Z;
  rf_size : Z;
  rf_capacity : Z;
  rf_used : bool;
}.

Record ramfs (H : Type) := mk_ramfs {
  ramfs_files : list ramfs_file;
  rheap : H;
  bufs : gmap Z (list Z);
}.
Arguments mk_ramfs {_} _ _ _.
Arguments ramfs_files {_} _.
Arguments rheap {_} _.
Arguments bufs {_} _.

Definition empty_file : ramfs_file :=
  mk_rf (replicate (Z.to_nat RAMFS_PATH_MAX) 0) 0 0 0 false.
Definition ramfs_boot {H} (h : H) : ramfs H :=
  mk_ramfs (replicate (Z.to_nat RAMFS_MAX_FILES) empty_file) h ∅.

(** [for (; src[i] && i + 1 < RAMFS_PATH_MAX; ++i) dst[i] = src[i]; dst[i] = 0]. *)
Definition copy_path (dst src : list Z) : list Z :=
  store dst 0 (take (Z.to_nat (RAMFS_PATH_MAX - 1)) (cstr src) ++ [0]).

(** [while (new_cap < need) new_cap += RAMFS_GROW_STEP]; [None] when the
    capacity wraps around without reaching [need]. *)
Fixpoint grow (fuel : nat) (new_cap need : Z) : option Z :=
  if new_cap <? need then
    match fuel with
    | O => None
    | S fuel' => grow fuel' (w64 (new_cap + RAMFS_GROW_STEP)) need
    end
  else Some new_cap.

Definition HANG : string := "ramfs: capacity loop does not end".

Section Ops.
Context {H : Type} `{!Allocator H}.

Definition set_file (s : ramfs H) (i : nat) (f : ramfs_file) : ramfs H :=
  mk_ramfs (<[i := f]> (ramfs_files s)) (rheap s) (bufs s).

Definition buf_of (s : ramfs H) (f : ramfs_file) : list Z := default [] (bufs s !! rf_data f).

Definition ramfs_expand (s : ramfs H) (i : nat) (need : Z) : result (Z * ramfs H) :=
  match ramfs_files s !! i with
  | None => Ret (-1, s)
  | Some f =>
      if need <=? rf_capacity f then Ret (0, s)
      else
        let new_cap := if rf_capacity f =? 0 then RAMFS_GROW_STEP else rf_capacity f in
        match grow (Z.to_nat (need / RAMFS_GROW_STEP + 1)) new_cap need with
        | None => Panic HANG need
        | Some new_cap =>
            '(new_data, h1) ← al_alloc (rheap s) new_cap 16;
            if new_data =? 0 then Ret (-1, mk_ramfs (ramfs_files s) h1 (bufs s))
            else
              let nb := store (replicate (Z.to_nat new_cap) 0) 0
                          (take (Z.to_nat (rf_size f)) (buf_of s f)) in
              h2 ← (if rf_data f =? 0 then Ret h1 else al_free h1 (rf_data f));
              let f' := mk_rf (rf_path f) new_data (rf_size f) new_cap (rf_used f) in
              Ret (0, mk_ramfs (<[i := f']> (ramfs_files s)) h2
                        (<[new_data := nb]> (delete (rf_data f) (bufs s))))
        end
  end.

(** First file, from index [i] on, satisfying a test. *)
Fixpoint find_idx (p : ramfs_file → bool) (i : nat) (fs : list ramfs_file) : option nat :=
  match fs with
  | [] => None
  | f :: fs' => if p f then Some i else find_idx p (S i) fs'
  end.

(** The return value and the index stored in [*out]. *)
Definition ramfs_open (s : ramfs H) (path : option (list Z)) : Z * option nat * ramfs H :=
  match path with
  | None => (-1, None, s)
  | Some path =>
      if negb (hd 0 path =? 47) then (-1, None, s)
      else if RAMFS_PATH_MAX <=? strlen path then (-1, None, s)
      else
        match find_idx (λ f, rf_used f && streq (rf_path f) path) 0 (ramfs_files s) with
        | Some i => (0, Some i, s)
        | None =>
            match find_idx (λ f, negb (rf_used f)) 0 (ramfs_files s) with
            | Some i =>
                let f := default empty_file (ramfs_files s !! i) in
                (0, Some i, set_file s i (mk_rf (copy_path (rf_path f) path) 0 0 0 true))
            | None => (-1, None, s)
            end
        end
  end.

(** The return value, the bytes stored in [buf], and [*offset]. *)
Definition ramfs_read (s : ramfs H) (i : nat) (offset : Z) (buf_null : bool) (len : Z)
    : Z * list Z * Z :=
  match ramfs_files s !! i with
  | None => (0, [], offset)
  | Some f =>
      if buf_null || (len =? 0) then (0, [], offset)
      else if rf_size f <=? offset then (0, [], offset)
      else
        let remaining := w64 (rf_size f - offset) in
        let len := if remaining <? len then remaining else len in
        (len, slice (buf_of s f) (Z.to_nat offset) (Z.to_nat len), w64 (offset + len))
  end.

(** The return value, [*offset] and the new state. *)
Definition ramfs_write (s : ramfs H) (i : nat) (offset : Z) (buf : option (list Z))
    : result (Z * Z * ramfs H) :=
  match ramfs_files s !! i, buf with
  | Some _, Some src =>
      let len := Z.of_nat (length src) in
      if len =? 0 then Ret (0, offset, s)
      else
        let end_ := w64 (offset + len) in
        if end_ <? offset then Ret (-1, offset, s)
        else
          '(rc, s1) ← ramfs_expand s i end_;
          if negb (rc =? 0) then Ret (-1, offset, s1)
          else
            match ramfs_files s1 !! i with
            | None => Ret (-1, offset, s1)
            | Some f =>
                let b := store (buf_of s1 f) (Z.to_nat offset) src in
                let size := if rf_size f <? end_ then end_ else rf_size f in
                Ret (len, end_,
                     mk_ramfs (<[i := mk_rf (rf_path f) (rf_data f) size (rf_capacity f) (rf_used f)]>
                                 (ramfs_files s1)) (rheap s1) (<[rf_data f := b]> (bufs s1)))
            end
  | _, _ => Ret (0, offset, s)
  end.

Definition ramfs_list (s : ramfs H) (buf_null : bool) (len : Z) : list Z :=
  if buf_null || (len =? 0) then []
  else put_lines len [] (rf_path <$> filter (λ f, rf_used f) (ramfs_files s)).
End Ops.

(** ** Growing *)

Lemma grow_spec fuel : ∀ cap need,
  0 ≤ cap → cap mod RAMFS_GROW_STEP = 0 → need ≤ 2 ^ 64 - RAMFS_GROW_STEP →
  (need - cap ≤ RAMFS_GROW_STEP * Z.of_nat fuel) →
  ∃ c, grow fuel cap need = Some c ∧ Z.max cap need ≤ c ∧ c mod RAMFS_GROW_STEP = 0 ∧
    (c = cap ∨ c < need + RAMFS_GROW_STEP).
Proof.
  unfold RAMFS_GROW_STEP. induction fuel as [|fuel IH]; intros cap need H0 Hm Hn Hf;
    simpl; destruct (Z.ltb_spec cap need) as [Hlt|Hge].
  - lia.
  - exists cap. split_and!; auto; lia.
  - change RAMFS_GROW_STEP with 64. rewrite w64_small by lia. destruct (IH (cap + 64) need) as (c & -> & ? & ? & ?); try lia; [dlia|].
    exists c. split_and!; auto; lia.
  - exists cap. split_and!; auto; lia.
Qed.

End Ramfs.
