(* ===== verification/RamfsSpec.v ===== *)
(** * Correctness of the RAM file system

    Over any allocator that meets the laws of Alloc.v, the file system
    refines a table of named byte sequences: [content] is what a file holds.
    [others] are the blocks that other users of the allocator hold. *)

From S2P Require Import Prelude CString Bytes Alloc Ramfs.
From stdpp Require Import options.
Import CString Bytes Ramfs.

Module RamfsSpec.

Section Spec.
Context {H : Type} `{!Allocator H, !AllocatorLaws H}.
Implicit Types (s : ramfs H) (others : list Z).

(** The bytes of a file. *)
Definition content s (f : ramfs_file) : list Z := take (Z.to_nat (rf_size f)) (buf_of s f).

Definition zeros (n : nat) : list Z := replicate n 0.

(** The blocks the file system holds. *)
Definition ptr_of (f : ramfs_file) : option Z := if rf_data f =? 0 then None else Some (rf_data f).
Definition ptrs s : list Z := omap ptr_of (ramfs_files s).

Record file_ok s (f : ramfs_file) : Prop := {
  fo_path : length (rf_path f) = Z.to_nat RAMFS_PATH_MAX;
  fo_size : 0 ≤ rf_size f ≤ rf_capacity f;
  fo_cap : rf_capacity f mod RAMFS_GROW_STEP = 0;
  fo_none : rf_data f = 0 → rf_capacity f = 0 ∧ bufs s !! 0 = None;
  fo_buf : rf_data f ≠ 0 → ∃ b, bufs s !! rf_data f = Some b ∧ length b = Z.to_nat (rf_capacity f) ∧
    drop (Z.to_nat (rf_size f)) b = zeros (Z.to_nat (rf_capacity f - rf_size f));
  fo_unused : rf_used f = false → rf_data f = 0;
}.

Record ramfs_ok s others : Prop := {
  ro_length : length (ramfs_files s) = Z.to_nat RAMFS_MAX_FILES;
  ro_files : ∀ i f, ramfs_files s !! i = Some f → file_ok s f;
  ro_ptrs : NoDup (ptrs s);
  ro_live : al_live (rheap s) (ptrs s ++ others);
  ro_paths : ∀ i j f g, ramfs_files s !! i = Some f → ramfs_files s !! j = Some g →
    rf_used f = true → rf_used g = true → cstr (rf_path f) = cstr (rf_path g) → i = j;
}.

Lemma buf_length s f : file_ok s f → length (buf_of s f) = Z.to_nat (rf_capacity f).
Proof.
  intros []. unfold buf_of. destruct (decide (rf_data f = 0)) as [E|E].
  - destruct (fo_none0 E) as [-> Hb]. rewrite E, Hb. done.
  - destruct (fo_buf0 E) as (b & -> & ? & _). done.
Qed.

(** Beyond the size of a file its block is zero. *)
Lemma buf_tail s f :
  file_ok s f → drop (Z.to_nat (rf_size f)) (buf_of s f) = zeros (Z.to_nat (rf_capacity f - rf_size f)).
Proof.
  intros []. unfold buf_of. destruct (decide (rf_data f = 0)) as [E|E].
  - destruct (fo_none0 E) as [Hc Hb]. rewrite E, Hb, Hc in *.
    replace (Z.to_nat (0 - rf_size f)) with 0%nat by lia. by destruct (Z.to_nat (rf_size f)).
  - destruct (fo_buf0 E) as (b & -> & _ & ?). done.
Qed.

Lemma length_content s f : file_ok s f → length (content s f) = Z.to_nat (rf_size f).
Proof.
  intros Hf. unfold content. rewrite length_take, buf_length by done. pose proof (fo_size _ _ Hf). lia.
Qed.

Lemma buf_split s f :
  file_ok s f → buf_of s f = content s f ++ zeros (Z.to_nat (rf_capacity f - rf_size f)).
Proof. intros Hf. rewrite <- (buf_tail s f) by done. symmetry. apply take_drop. Qed.

(** ** The table *)

Lemma ptr_of_Some f p : ptr_of f = Some p ↔ rf_data f = p ∧ p ≠ 0.
Proof. unfold ptr_of. destruct (Z.eqb_spec (rf_data f) 0); split; intuition congruence. Qed.

Lemma ptrs_elem s i f p : ramfs_files s !! i = Some f → ptr_of f = Some p → p ∈ ptrs s.
Proof. intros Hi Hp. apply list_elem_of_omap. exists f. split; [by eapply list_elem_of_lookup_2|done]. Qed.

Lemma ptrs_split (fs : list ramfs_file) i f f' :
  fs !! i = Some f →
  omap ptr_of fs ≡ₚ option_list (ptr_of f) ++ omap ptr_of (delete i fs) ∧
  omap ptr_of (<[i := f']> fs) ≡ₚ option_list (ptr_of f') ++ omap ptr_of (delete i fs).
Proof.
  intros Hi. assert (Hlt := lookup_lt_Some _ _ _ Hi). split.
  - rewrite (delete_Permutation fs i f Hi) at 1. cbn [omap list_omap]. by destruct (ptr_of f).
  - rewrite (delete_Permutation (<[i := f']> fs) i f') by (by apply list_lookup_insert_eq).
    assert (delete i (<[i := f']> fs) = delete i fs) as ->.
    { rewrite !delete_take_drop, take_insert_ge, drop_insert_lt by lia. done. }
    cbn [omap list_omap]. by destruct (ptr_of f').
Qed.

(** Different files have different blocks. *)
Lemma ptrs_distinct s i j f g :
  NoDup (ptrs s) → ramfs_files s !! i = Some f → ramfs_files s !! j = Some g → i ≠ j →
  rf_data f ≠ 0 → rf_data f ≠ rf_data g.
Proof.
  intros Hnd Hi Hj Hne Hf E. unfold ptrs in Hnd.
  destruct (ptrs_split (ramfs_files s) i f f Hi) as [Hp _]. rewrite Hp in Hnd.
  assert (ptr_of f = Some (rf_data f)) as Ef by (by apply ptr_of_Some).
  rewrite Ef in Hnd. simpl in Hnd. apply NoDup_cons in Hnd as [Hn _]. apply Hn.
  apply list_elem_of_omap. exists g. split; [|apply ptr_of_Some; split; [done|congruence]].
  apply list_elem_of_lookup.
  destruct (decide (j < i)%nat).
  - exists j. rewrite list_lookup_delete_lt by done. done.
  - exists (pred j). rewrite list_lookup_delete_ge by lia. by replace (S (pred j)) with j by lia.
Qed.

(** Replacing one file, its name and use kept. *)
Lemma ramfs_ok_replace s others i f f' h' bufs' :
  ramfs_ok s others → ramfs_files s !! i = Some f →
  rf_path f' = rf_path f → rf_used f' = rf_used f →
  let s' := mk_ramfs (<[i := f']> (ramfs_files s)) h' bufs' in
  file_ok s' f' → bufs' !! 0 = bufs s !! 0 →
  (∀ j g, i ≠ j → ramfs_files s !! j = Some g → bufs' !! rf_data g = bufs s !! rf_data g) →
  NoDup (ptrs s') → al_live h' (ptrs s' ++ others) → ramfs_ok s' others.
Proof using Type.
  intros [Hl Hf Hn Hv Hp] Hi Ep Eu s' Hf' H0 Hb Hn' Hv'. split; auto.
  - simpl. by rewrite length_insert.
  - intros j g Hj. simpl in Hj. destruct (decide (i = j)) as [<-|Hne].
    { rewrite list_lookup_insert_eq in Hj by (by eapply lookup_lt_Some). by simplify_eq. }
    rewrite list_lookup_insert_ne in Hj by done. destruct (Hf j g Hj) as [? ? ? Hfn Hfb ?].
    split; auto; simpl.
    + intros E. rewrite H0. auto.
    + intros E. rewrite (Hb j g Hne Hj). auto.
  - assert (∀ k g, <[i := f']> (ramfs_files s) !! k = Some g → ∃ g0, ramfs_files s !! k = Some g0 ∧
      rf_used g0 = rf_used g ∧ rf_path g0 = rf_path g) as Hback.
    { intros k g Hk. destruct (decide (i = k)) as [<-|Hne].
      - rewrite list_lookup_insert_eq in Hk by (by eapply lookup_lt_Some). simplify_eq. eauto.
      - rewrite list_lookup_insert_ne in Hk by done. eauto. }
    intros j k g g' (g0 & ? & <- & <-)%Hback (g1 & ? & <- & <-)%Hback. by eapply Hp.
Qed.

Lemma expanded_buf (old : list Z) (size cap : Z) :
  0 ≤ size → size ≤ cap → (Z.to_nat size ≤ length old)%nat →
  store (zeros (Z.to_nat cap)) 0 (take (Z.to_nat size) old) =
  take (Z.to_nat size) old ++ zeros (Z.to_nat (cap - size)).
Proof using Type.
  intros Hs Hc Hl. assert (length (take (Z.to_nat size) old) = Z.to_nat size) as E
    by (rewrite length_take; lia).
  rewrite store_eq by (rewrite E; unfold zeros; rewrite length_replicate; lia).
  rewrite take_0. simpl. f_equal. unfold zeros. rewrite drop_replicate, E. f_equal. lia.
Qed.

(** Exchanging the block of one file for a new one. *)
Lemma ptrs_exchange s others i f p h1 h2 :
  ramfs_ok s others → ramfs_files s !! i = Some f → p ∉ ptrs s ++ others →
  al_live h1 (p :: ptrs s ++ others) →
  (if rf_data f =? 0 then Ret h1 else al_free h1 (rf_data f)) = Ret h2 →
  let rest := omap ptr_of (delete i (ramfs_files s)) in
  NoDup (p :: rest) ∧ al_live h2 ((p :: rest) ++ others).
Proof using All.
  intros Hok Hi Hfresh Hlive Eh rest. destruct (ptrs_split (ramfs_files s) i f f Hi) as [P _].
  fold rest in P. pose proof (ro_ptrs _ _ Hok) as Hnd. unfold ptrs in *. rewrite P in Hnd, Hfresh.
  apply (al_live_perm _ _ (p :: (option_list (ptr_of f) ++ rest) ++ others)) in Hlive; [|by rewrite P].
  unfold ptr_of in *. destruct (Z.eqb_spec (rf_data f) 0) as [E|E]; simpl in *.
  - injection Eh as <-. split; [|done]. constructor; [set_solver|done].
  - apply NoDup_cons in Hnd as [_ Hnd]. split; [constructor; [set_solver|done]|].
    apply (al_live_perm _ _ (rf_data f :: (p :: rest) ++ others)) in Hlive; [|solve_Permutation].
    apply al_free_live in Hlive as (h' & Eh' & Hlive). rewrite Eh in Eh'. by injection Eh' as <-.
Qed.

(** The capacity loop ends with room for [need]. *)
Lemma expand_grow s f need :
  file_ok s f → 0 < need ≤ 2 ^ 64 - RAMFS_GROW_STEP → rf_capacity f < need →
  ∃ c, grow (Z.to_nat (need / RAMFS_GROW_STEP + 1))
         (if rf_capacity f =? 0 then RAMFS_GROW_STEP else rf_capacity f) need = Some c ∧
    need ≤ c ∧ 0 < c < need + RAMFS_GROW_STEP ∧ c mod RAMFS_GROW_STEP = 0.
Proof using Type.
  intros Hf Hneed Hgt. pose proof (fo_size _ _ Hf). pose proof (fo_cap _ _ Hf).
  unfold RAMFS_GROW_STEP in *.
  destruct (grow_spec (Z.to_nat (need / 64 + 1)) (if rf_capacity f =? 0 then 64 else rf_capacity f) need)
    as (c & Eg & Hc1 & Hc2 & Hc3).
  1-4: unfold RAMFS_GROW_STEP in *; destruct (Z.eqb_spec (rf_capacity f) 0); try lia; try done; dlia.
  exists c. unfold RAMFS_GROW_STEP in *. split_and!; [exact Eg|lia|lia| |exact Hc2].
  destruct (Z.eqb_spec (rf_capacity f) 0); lia.
Qed.

Lemma ramfs_expand_spec s others i f need rc s' :
  ramfs_ok s others → ramfs_files s !! i = Some f → rf_used f = true →
  0 < need ≤ 2 ^ 64 - RAMFS_GROW_STEP →
  (∀ c, 0 < c < need + RAMFS_GROW_STEP → al_room (rheap s) c 16) →
  ramfs_expand s i need = Ret (rc, s') →
  rc = 0 ∧ ramfs_ok s' others ∧ ∃ f', ramfs_files s' = <[i := f']> (ramfs_files s) ∧
    rf_path f' = rf_path f ∧ rf_size f' = rf_size f ∧ rf_used f' = true ∧ need ≤ rf_capacity f' ∧
    content s' f' = content s f ∧ rf_data f' ≠ 0 ∧
    ∀ j g, i ≠ j → ramfs_files s !! j = Some g → buf_of s' g = buf_of s g.
Proof using All.
  intros Hok Hi Hu Hneed Hroom E. pose proof (ro_files _ _ Hok i f Hi) as Hf.
  pose proof (fo_size _ _ Hf) as Hsz. unfold ramfs_expand in E. rewrite Hi in E.
  destruct (Z.leb_spec need (rf_capacity f)) as [Hle|Hgt].
  { injection E as <- <-. split_and!; auto. exists f. split_and!; auto.
    - symmetry. by apply list_insert_id.
    - intros E0. destruct (fo_none _ _ Hf E0). lia. }
  destruct (expand_grow s f need Hf Hneed Hgt) as (c & Eg & Hc1 & Hcb & Hc2).
  rewrite Eg in E. apply bind_Ret in E as ([p h1] & Ea & E).
  destruct (al_alloc_fresh _ _ _ _ _ _ (ro_live _ _ Hok) (proj1 Hcb) (Hroom c Hcb) Ea) as (Hfresh & Hp0 & Hlive).
  rewrite (proj2 (Z.eqb_neq p 0) Hp0) in E. apply bind_Ret in E as (h2 & Eh & E). injection E as <- <-.
  split; [done|].
  set (f' := mk_rf (rf_path f) p (rf_size f) c (rf_used f)).
  destruct (ptrs_split (ramfs_files s) i f f' Hi) as [_ P2].
  assert (ptr_of f' = Some p) as Ep by (by apply ptr_of_Some).
  destruct (ptrs_exchange s others i f p h1 h2 Hok Hi Hfresh Hlive Eh) as [Hnd Hlive2].
  rewrite Ep in P2. simpl in P2. set (nb := store _ 0 _).
  assert (nb = content s f ++ zeros (Z.to_nat (c - rf_size f))) as Enb.
  { apply expanded_buf; [lia|lia|]. rewrite buf_length by done. lia. }
  assert (∀ j g, i ≠ j → ramfs_files s !! j = Some g → rf_data g ≠ p ∧ (rf_data g ≠ 0 → rf_data g ≠ rf_data f)) as Hoth.
  { intros j g Hne Hj. split.
    - intros Eg'. apply Hfresh, elem_of_app. left. apply (ptrs_elem s j g); [done|]. by apply ptr_of_Some.
    - intros Hg. by eapply (ptrs_distinct s j i); [apply Hok|..]. }
  assert (∀ j g, i ≠ j → ramfs_files s !! j = Some g →
    <[p := nb]> (delete (rf_data f) (bufs s)) !! rf_data g = bufs s !! rf_data g) as Hbufs.
  { intros j g Hne Hj. destruct (Hoth j g Hne Hj) as [H1 H2]. rewrite lookup_insert_ne by done.
    destruct (decide (rf_data g = rf_data f)) as [Eq|]; [|by rewrite lookup_delete_ne].
    destruct (decide (rf_data g = 0)) as [E0|]; [|by destruct H2]. rewrite <- Eq, E0, lookup_delete_eq.
    symmetry. by apply (fo_none _ _ (ro_files _ _ Hok j g Hj)). }
  split.
  - eapply ramfs_ok_replace; eauto; simpl.
    + pose proof (fo_path _ _ Hf). split; simpl; [done|lia|done|done| |congruence]. intros _. exists nb.
      rewrite lookup_insert_eq, Enb. split_and!; [done| |].
      * rewrite length_app, length_content by done. unfold zeros. rewrite length_replicate. lia.
      * rewrite <- (length_content s f) by done. by rewrite drop_app_length.
    + rewrite lookup_insert_ne by done. destruct (decide (rf_data f = 0)) as [E0|E0].
      * rewrite E0, lookup_delete_eq. symmetry. by apply (fo_none _ _ Hf).
      * by rewrite lookup_delete_ne.
    + unfold ptrs. simpl. by rewrite P2.
    + unfold ptrs. simpl. eapply al_live_perm; [|exact Hlive2]. by rewrite P2.
  - exists f'. split_and!; [done|done|done|done|simpl; lia| |done|].
    + unfold content, buf_of. simpl. rewrite lookup_insert_eq. simpl. rewrite Enb.
      rewrite <- (length_content s f) at 1 by done. by rewrite take_app_length.
    + intros j g Hne Hj. unfold buf_of. simpl. by rewrite (Hbufs j g).
Qed.

(** The only panic is the allocator's. *)
Lemma ramfs_expand_panic s others i f need msg code :
  ramfs_ok s others → ramfs_files s !! i = Some f → 0 < need ≤ 2 ^ 64 - RAMFS_GROW_STEP →
  (∀ c, 0 < c < need + RAMFS_GROW_STEP → al_room (rheap s) c 16) →
  ramfs_expand s i need = Panic msg code →
  ∃ c, 0 < c < need + RAMFS_GROW_STEP ∧ al_alloc (rheap s) c 16 = Panic msg code.
Proof using All.
  intros Hok Hi Hneed Hroom E. unfold ramfs_expand in E. rewrite Hi in E.
  destruct (Z.leb_spec need (rf_capacity f)) as [|Hgt]; [done|].
  destruct (expand_grow s f need (ro_files _ _ Hok i f Hi) Hneed Hgt) as (c & Eg & _ & Hcb & _).
  rewrite Eg in E. exists c. split; [done|].
  destruct (al_alloc (rheap s) c 16) as [[p h1]|] eqn:Ea; simpl in E; [exfalso|by injection E as -> ->].
  destruct (al_alloc_fresh _ _ _ _ _ _ (ro_live _ _ Hok) (proj1 Hcb) (Hroom c Hcb) Ea) as (Hfresh & Hp0 & Hlive).
  rewrite (proj2 (Z.eqb_neq p 0) Hp0) in E.
  destruct (Z.eqb_spec (rf_data f) 0) as [|Hd]; [done|].
  destruct (ptrs_split (ramfs_files s) i f f Hi) as [P _].
  assert (ptr_of f = Some (rf_data f)) as Ep by (by apply ptr_of_Some).
  rewrite Ep in P. simpl in P.
  destruct (al_free_live h1 (p :: omap ptr_of (delete i (ramfs_files s)) ++ others) (rf_data f))
    as (h2 & Eh & _).
  - eapply al_live_perm; [|exact Hlive]. unfold ptrs. rewrite P. simpl. solve_Permutation.
  - by rewrite Eh in E.
Qed.

(** Writing [d] at [off]: a gap between the end and [off] is filled with zeros. *)
Definition overlay (c : list Z) (off : nat) (d : list Z) : list Z :=
  take off (c ++ zeros (off - length c)) ++ d ++ drop (off + length d) c.

Lemma length_zeros n : length (zeros n) = n.
Proof using Type. apply length_replicate. Qed.

Lemma take_zeros (c : list Z) off k : (off ≤ length c + k)%nat →
  take off (c ++ zeros k) = take off (c ++ zeros (off - length c)).
Proof using Type.
  intros Hk. rewrite !take_app. f_equal. unfold zeros. rewrite !take_replicate. f_equal. lia.
Qed.

Lemma overlay_store (c d : list Z) k off :
  (off + length d ≤ length c + k)%nat →
  let n := (length c `max` (off + length d))%nat in
  take n (store (c ++ zeros k) off d) = overlay c off d ∧
  drop n (store (c ++ zeros k) off d) = zeros (length c + k - n).
Proof using Type.
  intros Hk n. rewrite store_eq by (rewrite length_app, length_zeros; done).
  rewrite app_assoc. set (a := take off (c ++ zeros k) ++ d).
  assert (length a = off + length d)%nat as Ha.
  { unfold a. rewrite length_app, length_take, length_app, length_zeros. lia. }
  split.
  - rewrite take_app. rewrite (take_ge a) by lia. rewrite Ha. unfold a, overlay.
    rewrite (take_zeros c off k), <- app_assoc by lia. do 2 f_equal.
    rewrite drop_app, take_app. rewrite (take_ge (drop _ c)) by (rewrite length_drop; lia).
    rewrite length_drop. replace (n - _ - _)%nat with 0%nat by lia. by rewrite take_0, app_nil_r.
  - rewrite drop_app, (drop_ge a) by lia. rewrite Ha. simpl. rewrite drop_drop.
    rewrite drop_app, (drop_ge c) by lia. simpl. unfold zeros. rewrite drop_replicate. f_equal. lia.
Qed.

(** Storing a new block contents and size. *)
Lemma write_ok s others i f f' b :
  ramfs_ok s others → ramfs_files s !! i = Some f → rf_data f ≠ 0 →
  rf_path f' = rf_path f → rf_used f' = rf_used f → rf_data f' = rf_data f →
  rf_capacity f' = rf_capacity f → 0 ≤ rf_size f' ≤ rf_capacity f →
  length b = Z.to_nat (rf_capacity f) →
  drop (Z.to_nat (rf_size f')) b = zeros (Z.to_nat (rf_capacity f - rf_size f')) →
  let s' := mk_ramfs (<[i := f']> (ramfs_files s)) (rheap s) (<[rf_data f := b]> (bufs s)) in
  ramfs_ok s' others ∧
  ∀ j g, i ≠ j → ramfs_files s !! j = Some g → buf_of s' g = buf_of s g.
Proof using All.
  intros Hok Hi Hd Ep Eu Ed Ec Hs Hl Hz s'. pose proof (ro_files _ _ Hok i f Hi) as Hf.
  assert (∀ j g, i ≠ j → ramfs_files s !! j = Some g →
    <[rf_data f := b]> (bufs s) !! rf_data g = bufs s !! rf_data g) as Hoth.
  { intros j g Hne Hj. apply lookup_insert_ne. by eapply (ptrs_distinct s i j); [apply Hok|..]. }
  destruct (ptrs_split (ramfs_files s) i f f' Hi) as [P1 P2].
  assert (ptr_of f' = ptr_of f) as Eptr by (unfold ptr_of; by rewrite Ed).
  rewrite Eptr, <- P1 in P2. split.
  - eapply ramfs_ok_replace; eauto.
    + destruct Hf as [? ? ? ? ? Hfu]. split; rewrite ?Ep, ?Ec, ?Ed, ?Eu; auto; [done|].
      intros _. exists b. split_and!; auto. simpl. apply lookup_insert_eq.
    + by apply lookup_insert_ne.
    + unfold ptrs. simpl. rewrite P2. apply Hok.
    + unfold ptrs. simpl. eapply al_live_perm; [|apply Hok]. unfold ptrs. by rewrite P2.
  - intros j g Hne Hj. unfold buf_of. simpl. by rewrite (Hoth j g).
Qed.

Lemma ramfs_write_core s others i f offset src r off' s' :
  ramfs_ok s others → ramfs_files s !! i = Some f → rf_used f = true →
  0 ≤ offset → src ≠ [] → offset + Z.of_nat (length src) ≤ 2 ^ 64 - RAMFS_GROW_STEP →
  (∀ c, 0 < c < offset + Z.of_nat (length src) + RAMFS_GROW_STEP → al_room (rheap s) c 16) →
  ramfs_write s i offset (Some src) = Ret (r, off', s') →
  r = Z.of_nat (length src) ∧ off' = offset + r ∧ ramfs_ok s' others ∧
  ∃ f', ramfs_files s' = <[i := f']> (ramfs_files s) ∧ rf_path f' = rf_path f ∧
    rf_used f' = true ∧ content s' f' = overlay (content s f) (Z.to_nat offset) src ∧
    ∀ j g, i ≠ j → ramfs_files s !! j = Some g → buf_of s' g = buf_of s g.
Proof using All.
  intros Hok Hi Hu Ho Hne Hb Hroom E. unfold ramfs_write in E. rewrite Hi in E.
  assert (0 < Z.of_nat (length src)) as Hl by (destruct src; simpl; [done|lia]).
  unfold RAMFS_GROW_STEP in *.
  rewrite (proj2 (Z.eqb_neq _ 0)), w64_small, (proj2 (Z.ltb_ge _ offset)) in E by lia.
  apply bind_Ret in E as ([rc s1] & Ee & E).
  destruct (ramfs_expand_spec s others i f (offset + Z.of_nat (length src)) rc s1)
    as (-> & Hok1 & f1 & Ef1 & Ep & Es & Eu & Hcap & Hcont & Hd & Hoth); auto;
    [unfold RAMFS_GROW_STEP; lia|].
  simpl in E. rewrite Ef1 in E. assert (Hlt := lookup_lt_Some _ _ _ Hi).
  rewrite list_lookup_insert_eq, Es in E by done.
  pose proof (ro_files _ _ Hok1 i f1) as Hf1. rewrite Ef1, list_lookup_insert_eq in Hf1 by done.
  specialize (Hf1 eq_refl). pose proof (fo_size _ _ Hf1) as Hs1. rewrite Es in Hs1.
  rewrite (buf_split s1 f1 Hf1), Es in E.
  pose proof (length_content s1 f1 Hf1) as Hlc. rewrite Es in Hlc.
  destruct (overlay_store (content s1 f1) src (Z.to_nat (rf_capacity f1 - rf_size f)) (Z.to_nat offset))
    as [Ht Hdr]; [lia|].
  set (n := (if rf_size f <? offset + Z.of_nat (length src) then offset + Z.of_nat (length src) else rf_size f)) in *.
  assert (Z.to_nat n = length (content s1 f1) `max` (Z.to_nat offset + length src))%nat as En.
  { unfold n. destruct (Z.ltb_spec (rf_size f) (offset + Z.of_nat (length src))); lia. }
  assert (0 ≤ n ≤ rf_capacity f1) as Hn.
  { unfold n. destruct (Z.ltb_spec (rf_size f) (offset + Z.of_nat (length src))); lia. }
  rewrite <- En in Ht, Hdr. clearbody n.
  set (b := store _ _ _) in *.
  assert (length b = Z.to_nat (rf_capacity f1)) as Hlb.
  { unfold b. rewrite length_store, length_app, length_zeros. lia. }
  clearbody b. injection E as <- <- <-.
  set (f2 := mk_rf (rf_path f1) (rf_data f1) n (rf_capacity f1) (rf_used f1)).
  assert (ramfs_files s1 !! i = Some f1) as Hi1 by (by rewrite Ef1, list_lookup_insert_eq).
  destruct (write_ok s1 others i f1 f2 b Hok1 Hi1) as [Hok2 Hoth2]; auto.
  { simpl. rewrite Hdr. f_equal. lia. }
  rewrite <- Ef1. split_and!; auto. exists f2. split_and!; auto.
  - simpl. by rewrite Ef1, list_insert_insert_eq.
  - unfold content at 1, buf_of. simpl. rewrite lookup_insert_eq. simpl. by rewrite Ht, Hcont.
  - intros j g Hij Hj. rewrite <- (Hoth j g) by done. apply (Hoth2 j); [done|].
    by rewrite Ef1, list_lookup_insert_ne.
Qed.

Lemma ramfs_write_panic s others i f offset src msg code :
  ramfs_ok s others → ramfs_files s !! i = Some f → 0 ≤ offset → src ≠ [] →
  offset + 2 * Z.of_nat (length src) + rf_size f ≤ 2 ^ 63 →
  (∀ c, 0 < c < offset + Z.of_nat (length src) + RAMFS_GROW_STEP → al_room (rheap s) c 16) →
  ramfs_write s i offset (Some src) = Panic msg code →
  ∃ c, al_alloc (rheap s) c 16 = Panic msg code.
Proof using All.
  intros Hok Hi Ho Hne Hb Hroom E. pose proof (fo_size _ _ (ro_files _ _ Hok i f Hi)).
  assert (0 < Z.of_nat (length src)) as Hl by (destruct src; simpl; [done|lia]).
  unfold ramfs_write in E. rewrite Hi in E.
  rewrite (proj2 (Z.eqb_neq _ 0)), w64_small, (proj2 (Z.ltb_ge _ offset)) in E by lia.
  destruct (ramfs_expand s i (offset + Z.of_nat (length src))) as [[rc s1]|] eqn:Ee; simpl in E.
  - destruct (rc =? 0); simpl in E; [|done]. by destruct (ramfs_files s1 !! i).
  - injection E as -> ->.
    destruct (ramfs_expand_panic s others i f (offset + Z.of_nat (length src)) msg code) as (c & _ & ?);
      auto; [unfold RAMFS_GROW_STEP; lia|eauto].
Qed.

Lemma ramfs_read_core s others i f offset len :
  ramfs_ok s others → ramfs_files s !! i = Some f → 0 ≤ offset → 0 < len →
  rf_size f < 2 ^ 64 → offset + Z.of_nat (length (content s f)) < 2 ^ 64 →
  let d := slice (content s f) (Z.to_nat offset) (Z.to_nat len) in
  ramfs_read s i offset false len = (Z.of_nat (length d), d, offset + Z.of_nat (length d)).
Proof using Type.
  intros Hok Hi Ho Hl Hs Hw d. pose proof (ro_files _ _ Hok i f Hi) as Hf.
  pose proof (fo_size _ _ Hf) as Hsz. pose proof (length_content s f Hf) as Hc.
  assert (length d = Z.to_nat len `min` (Z.to_nat (rf_size f) - Z.to_nat offset))%nat as Hd
    by (unfold d; by rewrite length_slice, Hc).
  unfold ramfs_read. rewrite Hi. cbn [orb]. rewrite (proj2 (Z.eqb_neq len 0)) by lia.
  destruct (Z.leb_spec (rf_size f) offset) as [Hge|Hlt].
  - assert (d = []) as -> by (apply nil_length_inv; lia). simpl. f_equal. lia.
  - rewrite (w64_small (rf_size f - offset)) by lia.
    set (n := if rf_size f - offset <? len then rf_size f - offset else len).
    assert (n = Z.of_nat (length d)) as En
      by (unfold n; destruct (Z.ltb_spec (rf_size f - offset) len); lia).
    assert (slice (buf_of s f) (Z.to_nat offset) (Z.to_nat n) = d) as ->.
    { apply list_eq. intros k. unfold d. rewrite !lookup_slice. unfold content.
      repeat case_decide; try done; try lia.
      - symmetry. apply lookup_take_lt. lia.
      - symmetry. apply lookup_take_ge. lia. }
    rewrite En, w64_small by lia. done.
Qed.

(** ** Opening *)

Lemma find_idx_Some P (fs : list ramfs_file) : ∀ i j,
  find_idx P i fs = Some j → ∃ f, fs !! (j - i)%nat = Some f ∧ (i ≤ j)%nat ∧ P f = true.
Proof using Type.
  induction fs as [|f fs IH]; intros i j E; simpl in E; [done|]. destruct (P f) eqn:Ep.
  - injection E as <-. rewrite Nat.sub_diag. eauto.
  - destruct (IH (S i) j E) as (g & Hg & ? & ?). exists g.
    replace (j - i)%nat with (S (j - S i))%nat by lia. split_and!; auto. lia.
Qed.

Lemma find_idx_None P (fs : list ramfs_file) : ∀ i k f,
  find_idx P i fs = None → fs !! k = Some f → P f = false.
Proof using Type.
  induction fs as [|g fs IH]; intros i k f E Hk; simpl in E; [done|].
  destruct (P g) eqn:Ep; [done|]. destruct k as [|k]; simpl in Hk; [by simplify_eq|eauto].
Qed.

Lemma copy_path_cstr dst src :
  length dst = Z.to_nat RAMFS_PATH_MAX → strlen src < RAMFS_PATH_MAX →
  cstr (copy_path dst src) = cstr src ∧ length (copy_path dst src) = Z.to_nat RAMFS_PATH_MAX.
Proof using Type.
  intros Hd Hs. rewrite strlen_spec in Hs. unfold copy_path, RAMFS_PATH_MAX in *.
  split; [|by rewrite length_store]. rewrite take_ge by lia.
  rewrite store_eq by (rewrite length_app; simpl; lia). rewrite take_0. simpl. rewrite <- app_assoc.
  apply cstr_app, cstr_nonzero.
Qed.

(** What a name denotes. *)
Definition named s (path : list Z) (i : nat) (f : ramfs_file) : Prop :=
  ramfs_files s !! i = Some f ∧ rf_used f = true ∧ cstr (rf_path f) = cstr path.

Lemma ramfs_open_new s others i f path :
  ramfs_ok s others → ramfs_files s !! i = Some f → rf_used f = false →
  strlen path < RAMFS_PATH_MAX → (∀ j g, ¬ named s path j g) →
  let f' := mk_rf (copy_path (rf_path f) path) 0 0 0 true in
  let s' := set_file s i f' in
  ramfs_ok s' others ∧ named s' path i f' ∧ content s' f' = [].
Proof using All.
  intros Hok Hi Hu Hp Hnone f' s'. assert (Hlt := lookup_lt_Some _ _ _ Hi).
  pose proof (ro_files _ _ Hok i f Hi) as Hf. pose proof (fo_unused _ _ Hf Hu) as Hd.
  destruct (copy_path_cstr (rf_path f) path (fo_path _ _ Hf) Hp) as [Hc Hl].
  assert (named s' path i f') as Hn by (split_and!; auto; by apply list_lookup_insert_eq).
  destruct (ptrs_split (ramfs_files s) i f f' Hi) as [P1 P2].
  assert (ptr_of f' = ptr_of f) as Eptr by (unfold ptr_of; simpl; by rewrite Hd).
  rewrite Eptr, <- P1 in P2. split_and!; [|done|done]. destruct Hok as [Hl' Hfs Hnd Hlive Hpaths].
  assert (∀ j g, ramfs_files s' !! j = Some g → j = i ∧ g = f' ∨ j ≠ i ∧ ramfs_files s !! j = Some g) as Hback.
  { intros j g Hj. simpl in Hj. destruct (decide (j = i)) as [->|Hne].
    - rewrite list_lookup_insert_eq in Hj by done. simplify_eq. auto.
    - rewrite list_lookup_insert_ne in Hj by done. auto. }
  split.
  - simpl. by rewrite length_insert.
  - intros j g [[-> ->]|[_ Hj]]%Hback.
    + split; simpl; auto; [lia| |done]. intros _. split; [done|]. by apply (fo_none _ _ Hf).
    + by destruct (Hfs j g Hj).
  - unfold ptrs. simpl. by rewrite P2.
  - unfold ptrs. simpl. eapply al_live_perm; [|exact Hlive]. unfold ptrs. by rewrite P2.
  - intros j k g g' [[-> ->]|[Hj1 Hj]]%Hback [[-> ->]|[Hk1 Hk]]%Hback Hg Hg' Eg; auto.
    + destruct (Hnone k g'). split_and!; auto. by rewrite <- Eg.
    + destruct (Hnone j g). split_and!; auto. by rewrite Eg.
    + by eapply Hpaths.
Qed.

Lemma ramfs_open_core s others path :
  ramfs_ok s others →
  match ramfs_open s (Some path) with
  | (r, Some i, s') => r = 0 ∧ ramfs_ok s' others ∧ bufs s' = bufs s ∧
      (∃ f, named s' path i f ∧ ((∃ g, named s path i g) ∨ content s' f = [])) ∧
      ∀ j g, rf_used g = true → ramfs_files s !! j = Some g → ramfs_files s' !! j = Some g
  | (r, None, s') => r = -1 ∧ s' = s ∧
      (hd 0 path ≠ 47 ∨ RAMFS_PATH_MAX ≤ strlen path ∨
       (∀ i f, ¬ named s path i f) ∧ ∀ i f, ramfs_files s !! i = Some f → rf_used f = true)
  end.
Proof using All.
  intros Hok. unfold ramfs_open.
  destruct (Z.eqb_spec (hd 0 path) 47) as [Eh|Eh]; cbn [negb]; [|by auto].
  destruct (Z.leb_spec RAMFS_PATH_MAX (strlen path)) as [Hl|Hl]; [by auto|].
  destruct (find_idx (λ f, rf_used f && streq (rf_path f) path) 0 (ramfs_files s)) as [i|] eqn:E1.
  - apply find_idx_Some in E1 as (f & Hf & _ & [Hu Hs]%andb_true_iff).
    rewrite Nat.sub_0_r in Hf. apply streq_spec in Hs.
    assert (named s path i f) by (by split_and!). split_and!; eauto.
  - assert (∀ j g, ¬ named s path j g) as Hnone.
    { intros j g (Hj & Hu & Hs). pose proof (find_idx_None _ _ _ _ _ E1 Hj) as E.
      simpl in E. rewrite Hu in E. apply streq_spec in Hs. simpl in E. congruence. }
    destruct (find_idx (λ f, negb (rf_used f)) 0 (ramfs_files s)) as [i|] eqn:E2.
    + apply find_idx_Some in E2 as (f & Hf & _ & Hu%negb_true_iff). rewrite Nat.sub_0_r in Hf.
      rewrite Hf. cbn [default].
      destruct (ramfs_open_new s others i f path Hok Hf Hu Hl Hnone) as (Hok' & Hn & Hc).
      split_and!; auto.
      * eexists. split; [exact Hn|]. by right.
      * intros j g Hg Hj. simpl. rewrite list_lookup_insert_ne; [done|]. intros ->. congruence.
    + split_and!; auto. right. right. split; [done|]. intros j f Hj.
      pose proof (find_idx_None _ _ _ _ _ E2 Hj) as E. by apply negb_false_iff in E.
Qed.

(** [ramfs_open] finds the file of the given name or creates it empty in
    a free slot, touching no other file; it fails exactly for a relative or
    over-long path and when the name is new and all 32 slots are taken. *)
Theorem ramfs_open_spec s others path :
  ramfs_ok s others →
  match ramfs_open s (Some path) with
  | (r, Some i, s') => r = 0 ∧ ramfs_ok s' others ∧ bufs s' = bufs s ∧
      (∃ f, named s' path i f ∧ ((∃ g, named s path i g) ∨ content s' f = [])) ∧
      ∀ j g, rf_used g = true → ramfs_files s !! j = Some g → ramfs_files s' !! j = Some g
  | (r, None, s') => r = -1 ∧ s' = s ∧
      (hd 0 path ≠ 47 ∨ RAMFS_PATH_MAX ≤ strlen path ∨
       (∀ i f, ¬ named s path i f) ∧ ∀ i f, ramfs_files s !! i = Some f → rf_used f = true)
  end.
Proof using All. apply ramfs_open_core. Qed.

(** C8: writing to a file of the RAM file system returns the full length,
    overlays the data on the file's contents with zeros in any gap, leaves
    every other file and the allocator's other blocks alone, and a read at
    the same offset then returns the data; the only failure is a panic of the
    allocator. *)
Theorem ramfs_write_read s others i f offset src :
  ramfs_ok s others → ramfs_files s !! i = Some f → rf_used f = true →
  0 ≤ offset → src ≠ [] → offset + 2 * Z.of_nat (length src) + rf_size f ≤ 2 ^ 63 →
  (∀ c, 0 < c < offset + Z.of_nat (length src) + RAMFS_GROW_STEP → al_room (rheap s) c 16) →
  match ramfs_write s i offset (Some src) with
  | Ret (r, off', s') =>
      r = Z.of_nat (length src) ∧ off' = offset + r ∧ ramfs_ok s' others ∧
      (∃ f', ramfs_files s' = <[i := f']> (ramfs_files s) ∧ rf_path f' = rf_path f ∧
        content s' f' = overlay (content s f) (Z.to_nat offset) src) ∧
      (∀ j g, i ≠ j → ramfs_files s !! j = Some g → content s' g = content s g) ∧
      ramfs_read s' i offset false r = (r, src, off')
  | Panic msg code => ∃ c, al_alloc (rheap s) c 16 = Panic msg code
  end.
Proof using All.
  intros Hok Hi Hu Ho Hne Hb Hroom.
  destruct (ramfs_write s i offset (Some src)) as [[[r off'] s']|msg code] eqn:E; cycle 1.
  { by eapply ramfs_write_panic. }
  unfold RAMFS_GROW_STEP in *.
  pose proof (ro_files _ _ Hok i f Hi) as Hf. pose proof (fo_size _ _ Hf) as Hsz.
  assert (0 < Z.of_nat (length src)) as Hl by (destruct src; simpl; [done|lia]).
  destruct (ramfs_write_core s others i f offset src r off' s') as (-> & -> & Hok' & f' & Ef & Ep & Eu & Hc & Hoth);
    auto; [unfold RAMFS_GROW_STEP; lia|].
  assert (ramfs_files s' !! i = Some f') as Hi'
    by (rewrite Ef; apply list_lookup_insert_eq; by eapply lookup_lt_Some).
  pose proof (ro_files _ _ Hok' i f' Hi') as Hf'. pose proof (fo_size _ _ Hf') as Hsz'.
  pose proof (length_content s' f' Hf') as Hlc. pose proof (length_content s f Hf) as Hlc0.
  assert (slice (content s' f') (Z.to_nat offset) (length src) = src) as Hslice.
  { rewrite Hc. unfold overlay, slice. rewrite drop_app_length'.
    - by rewrite take_app_length.
    - rewrite length_take, length_app, length_zeros. lia. }
  assert (length (content s' f') ≤ Z.to_nat offset + length src + length (content s f))%nat as Hbound.
  { rewrite Hc. unfold overlay. rewrite !length_app, length_take, length_drop. lia. }
  split_and!; auto.
  - eauto.
  - intros j g Hij Hj. unfold content. by rewrite (Hoth j g).
  - pose proof (ramfs_read_core s' others i f' offset (Z.of_nat (length src)) Hok' Hi' Ho Hl) as Hr.
    rewrite Nat2Z.id, Hslice in Hr. apply Hr; lia.
Qed.

End Spec.

End RamfsSpec.
