(* ===== verification/State.v ===== *)
(** * Computations over a state

    [M S X] runs on a state of type [S] and gives a result and a new state;
    [None] is a computation that never returns.  The [MBind] notation of the
    library sequences them.  [SectorDev] is the interface between a file
    system and the block layer. *)

From S2P Require Import Prelude.
From stdpp Require Import options.

Definition M (S X : Type) : Type := S → option (X * S).

#[export] Instance M_ret {S} : MRet (M S) := λ X x s, Some (x, s).
#[export] Instance M_bind {S} : MBind (M S) := λ X Y k c s,
  match c s with Some (x, s') => k x s' | None => None end.

Lemma run_bind {S X Y} (c : M S X) (k : X → M S Y) s x s' :
  c s = Some (x, s') → (c ≫= k) s = k x s'.
Proof. intros E. unfold mbind, M_bind. by rewrite E. Qed.

Lemma run_bind_Some {S X Y} (c : M S X) (k : X → M S Y) s r :
  (c ≫= k) s = Some r ↔ ∃ x s', c s = Some (x, s') ∧ k x s' = Some r.
Proof.
  unfold mbind, M_bind. destruct (c s) as [[x s']|]; split; [eauto|..].
  - by intros (? & ? & [= <- <-] & ?).
  - done.
  - by intros (? & ? & ? & _).
Qed.

(** ** Sectors *)

(** [D] are the handles of the devices: reading gives [None] and writing
    [false] for a non-zero return value. *)
Class SectorDev (D S : Type) := {
  sread : D → Z → M S (option (list Z));
  swrite : D → Z → list Z → M S bool;
}.

Definition sector (b : list Z) : Prop := length b = 512%nat ∧ Forall (λ x, 0 ≤ x < 256) b.

(** What the file system relies on: [sect d s lba] is the contents of a
    sector, [None] off the end of the device. *)
Class SectorLaws (D S : Type) `{!SectorDev D S} := {
  sd_ok : D → S → Prop;
  sect : D → S → Z → option (list Z);
  sect_sector d s lba b : sd_ok d s → sect d s lba = Some b → sector b;
  sread_spec d s lba : sd_ok d s → 0 ≤ lba < 2 ^ 32 →
    ∃ s', sread d lba s = Some (sect d s lba, s') ∧ sd_ok d s' ∧ ∀ l, sect d s' l = sect d s l;
  swrite_spec d s lba b b' : sd_ok d s → 0 ≤ lba < 2 ^ 32 → sector b' → sect d s lba = Some b →
    ∃ s', swrite d lba b' s = Some (true, s') ∧ sd_ok d s' ∧
      ∀ l, 0 ≤ l < 2 ^ 32 → sect d s' l = if l =? lba then Some b' else sect d s l;
}.
