(* ===== verification/Block.v ===== *)
(** * Block devices (src/kernel/block.c)

    The RAM disk, its FAT16 image, and the write-through cache of 16 sectors
    in front of every device.  A [struct block_device] is its two function
    pointers: the class [BlockDevice] gives a device's size and what its
    [read] and [write] do.  The disk found by [ata_init] is any such device;
    the RAM disk is the instance modelled here. *)

From S2P Require Import Prelude Memory CString.
From stdpp Require Import options.
Import CString.

Module Block.

Definition RAMDISK_SECTORS : Z := 8192.
Definition RAMDISK_SECTOR_SIZE : Z := 512.
Definition BLOCK_CACHE_ENTRIES : Z := 16.

(** [bd_read d lba count] is the data read, [None] for a non-zero return
    value; [bd_write d lba count data] says whether 0 is returned and gives
    the device afterwards. *)
Class BlockDevice (D : Type) := {
  bd_read : D → Z → Z → option (list Z);
  bd_write : D → Z → Z → list Z → bool * D;
}.

(** ** The RAM disk *)

Record ramdisk := mk_ramdisk {
  rd_sector_size : Z;
  rd_sectors : Z;
  ramdisk_data : memory;
}.

Definition ramdisk_read (d : ramdisk) (lba count : Z) : option (list Z) :=
  if count =? 0 then None
  else if (rd_sectors d <=? lba) || (rd_sectors d - lba <? count) then None
  else
    let offset := w64 (lba * rd_sector_size d) in
    let bytes := w64 (count * rd_sector_size d) in
    Some (rd_bytes (ramdisk_data d) offset (Z.to_nat bytes)).

(** [buf] holds at least [count] sectors. *)
Definition ramdisk_write (d : ramdisk) (lba count : Z) (buf : list Z) : bool * ramdisk :=
  if count =? 0 then (false, d)
  else if (rd_sectors d <=? lba) || (rd_sectors d - lba <? count) then (false, d)
  else
    let offset := w64 (lba * rd_sector_size d) in
    let bytes := w64 (count * rd_sector_size d) in
    (true, mk_ramdisk (rd_sector_size d) (rd_sectors d)
             (wr_bytes (ramdisk_data d) offset (take (Z.to_nat bytes) buf))).

#[export] Instance ramdisk_device : BlockDevice ramdisk := {
  bd_read := ramdisk_read;
  bd_write := ramdisk_write;
}.

(** ** The FAT16 image *)

Section Seed.
Let bytes_per_sector : Z := RAMDISK_SECTOR_SIZE.
Let sectors_per_cluster : Z := 1.
Let reserved : Z := 1.
Let fats : Z := 1.
Let root_entries : Z := 128.
Let total_sectors : Z := RAMDISK_SECTORS.
Let root_dir_sectors : Z := (root_entries * 32 + bytes_per_sector - 1) / bytes_per_sector.

(** [for (;;)]: the size of the FAT is a fixed point. *)
Fixpoint fat_size_loop (fuel : nat) (fat_size : Z) : option Z :=
  let data_sectors := w32 (total_sectors - reserved - fats * fat_size - root_dir_sectors) in
  let clusters := data_sectors / sectors_per_cluster in
  let needed := w16 ((w32 ((clusters + 2) * 2) + bytes_per_sector - 1) / bytes_per_sector) in
  if needed =? fat_size then Some fat_size
  else match fuel with O => None | S fuel' => fat_size_loop fuel' needed end.

Definition set_bytes (m : memory) (l : list (Z * Z)) : memory :=
  foldl (λ m '(a, v), wr8 m a v) m l.

(** The whole array is cleared first: every byte of the empty map reads 0. *)
Definition ramdisk_seed_fat16 (fat_size : Z) : memory :=
  let m := set_bytes ∅
    [(0, 0xEB); (1, 0x3C); (2, 0x90)] in
  let m := wr_bytes m 3 (chars "NEPTUNEO") in
  let m := set_bytes m
    [(11, Z.land bytes_per_sector 0xFF); (12, Z.shiftr bytes_per_sector 8);
     (13, sectors_per_cluster);
     (14, Z.land reserved 0xFF); (15, Z.shiftr reserved 8);
     (16, fats);
     (17, Z.land root_entries 0xFF); (18, Z.shiftr root_entries 8);
     (19, Z.land total_sectors 0xFF); (20, Z.shiftr total_sectors 8);
     (21, 0xF8);
     (22, Z.land fat_size 0xFF); (23, Z.shiftr fat_size 8);
     (24, 1); (26, 1); (36, 0x29)] in
  let m := wr_bytes m 39 (chars "NEPTUNEOS   FAT16   ") in
  let m := set_bytes m [(510, 0x55); (511, 0xAA)] in
  let fat_start := reserved * bytes_per_sector in
  let m := set_bytes m
    [(fat_start + 0, 0xF8); (fat_start + 1, 0xFF); (fat_start + 2, 0xFF);
     (fat_start + 3, 0xFF); (fat_start + 4, 0xFF); (fat_start + 5, 0xFF)] in
  let root_start := (reserved + fat_size) * bytes_per_sector in
  let m := wr_bytes m root_start (chars "README  TXT") in
  let m := set_bytes m
    [(root_start + 11, 0x20); (root_start + 26, 0x02); (root_start + 28, 0x1A);
     (root_start + 29, 0x00)] in
  let data_start := (reserved + fat_size + root_dir_sectors) * bytes_per_sector in
  wr_bytes m data_start (chars "NeptuneOS FAT16 volume\n").
End Seed.

(** ** The cache *)

(** Devices are compared by address. *)
Inductive dev_id := RamdiskDev | AtaDev.
#[export] Instance dev_id_eq : EqDecision dev_id.
Proof. solve_decision. Defined.

Record cache_entry := mk_entry {
  ce_dev : option dev_id;
  ce_lba : Z;
  ce_data : list Z;
  ce_valid : bool;
}.

Record blocks (A : Type) := mk_blocks {
  ram_dev : ramdisk;
  ata_dev : option A;
  default_dev : option dev_id;
  block_cache : list cache_entry;
}.
Arguments mk_blocks {_} _ _ _ _.
Arguments ram_dev {_} _.
Arguments ata_dev {_} _.
Arguments default_dev {_} _.
Arguments block_cache {_} _.

Section Ops.
Context {A : Type} `{!BlockDevice A}.

Definition block_cache_reset (c : list cache_entry) : list cache_entry :=
  (λ e, mk_entry None 0 (ce_data e) false) <$> c.

Definition cache_idx (lba : Z) : nat := Z.to_nat (lba mod BLOCK_CACHE_ENTRIES).

Definition block_cache_lookup (c : list cache_entry) (dev : dev_id) (lba : Z) : option cache_entry :=
  match c !! cache_idx lba with
  | Some e =>
      if ce_valid e && bool_decide (ce_dev e = Some dev) && (ce_lba e =? lba) then Some e else None
  | None => None
  end.

Definition block_cache_store (c : list cache_entry) (dev : dev_id) (lba : Z) (buf : list Z)
    : list cache_entry :=
  <[cache_idx lba := mk_entry (Some dev) lba (take (Z.to_nat RAMDISK_SECTOR_SIZE) buf) true]> c.

Definition with_cache (s : blocks A) (c : list cache_entry) : blocks A :=
  mk_blocks (ram_dev s) (ata_dev s) (default_dev s) c.

(** [dev->read] and [dev->write]. *)
Definition dev_read (s : blocks A) (dev : dev_id) (lba count : Z) : option (list Z) :=
  match dev with
  | RamdiskDev => bd_read (ram_dev s) lba count
  | AtaDev => match ata_dev s with Some a => bd_read a lba count | None => None end
  end.
Definition dev_write (s : blocks A) (dev : dev_id) (lba count : Z) (buf : list Z) : bool * blocks A :=
  match dev with
  | RamdiskDev =>
      let '(ok, r) := bd_write (ram_dev s) lba count buf in
      (ok, mk_blocks r (ata_dev s) (default_dev s) (block_cache s))
  | AtaDev =>
      match ata_dev s with
      | Some a =>
          let '(ok, a') := bd_write a lba count buf in
          (ok, mk_blocks (ram_dev s) (Some a') (default_dev s) (block_cache s))
      | None => (false, s)
      end
  end.

(** [ata] is what [ata_init] finds. *)
Definition block_init (s : blocks A) (ata : option A) : option (blocks A) :=
  match fat_size_loop 64 1 with
  | None => None
  | Some fat_size =>
      let r := mk_ramdisk RAMDISK_SECTOR_SIZE RAMDISK_SECTORS (ramdisk_seed_fat16 fat_size) in
      let c := block_cache_reset (block_cache s) in
      match ata with
      | Some _ => Some (mk_blocks r ata (Some AtaDev) (block_cache_reset c))
      | None => Some (mk_blocks r None (Some RamdiskDev) c)
      end
  end.

Definition block_get_default (s : blocks A) : option dev_id := default_dev s.

Definition block_get_ramdisk (s : blocks A) : option dev_id := Some RamdiskDev.

Definition block_set_default (s : blocks A) (dev : option dev_id) : blocks A :=
  match dev with
  | Some d => mk_blocks (ram_dev s) (ata_dev s) (Some d) (block_cache_reset (block_cache s))
  | None => s
  end.

(** The data stored in [buf] ([None] for a non-zero return value) and the new
    state; [buf] is not null. *)
Definition block_read (s : blocks A) (dev : option dev_id) (lba count : Z)
    : option (list Z) * blocks A :=
  match dev with
  | None => (None, s)
  | Some d =>
      match (if count =? 1 then block_cache_lookup (block_cache s) d lba else None) with
      | Some e => (Some (ce_data e), s)
      | None =>
          match dev_read s d lba count with
          | Some data =>
              if count =? 1 then (Some data, with_cache s (block_cache_store (block_cache s) d lba data))
              else (Some data, s)
          | None => (None, s)
          end
      end
  end.

(** True for the return value 0. *)
Definition block_write (s : blocks A) (dev : option dev_id) (lba count : Z) (buf : list Z)
    : bool * blocks A :=
  match dev with
  | None => (false, s)
  | Some d =>
      let '(ok, s') := dev_write s d lba count buf in
      if ok && (count =? 1)
      then (true, with_cache s' (block_cache_store (block_cache s') d lba buf))
      else (ok, s')
  end.
End Ops.

(** The size of the FAT is found after one correction. *)
Lemma fat_size_value : fat_size_loop 64 1 = Some 32.
Proof. vm_compute. reflexivity. Qed.

End Block.
