(* ===== verification/BlockSpec.v ===== *)
(** * Coherence of the block cache

    What a device promises ([DeviceLaws]), that the RAM disk keeps it, and
    that reads through the cache of Block.v return what the device holds. *)

From S2P Require Import Prelude Memory CString State Block.
From stdpp Require Import options.
Import Block.

Module BlockSpec.


(** Sectors written are read back; other sectors are not disturbed.  [bd_ok]
    is the device's own invariant. *)
Class DeviceLaws (D : Type) `{!BlockDevice D} := {
  bd_ok : D → Prop;
  bd_write_ok (d d' : D) lba count buf ok : bd_ok d → bd_write d lba count buf = (ok, d') → bd_ok d';
  bd_read_sector (d : D) lba data : bd_ok d → bd_read d lba 1 = Some data → sector data;
  bd_write_read (d d' : D) lba buf :
    bd_ok d → 0 ≤ lba < 2 ^ 64 → sector buf → bd_write d lba 1 buf = (true, d') → bd_read d' lba 1 = Some buf;
  bd_write_other (d d' : D) lba count buf other :
    bd_ok d → 0 ≤ lba < 2 ^ 64 → 0 ≤ other < 2 ^ 64 → 0 < count →
    (length buf = Z.to_nat (512 * count))%nat →
    bd_write d lba count buf = (true, d') → other < lba ∨ lba + count ≤ other →
    bd_read d' other 1 = bd_read d other 1;
}.

(** ** The RAM disk keeps the promise *)

Definition ramdisk_ok (d : ramdisk) : Prop :=
  rd_sector_size d = RAMDISK_SECTOR_SIZE ∧ rd_sectors d = RAMDISK_SECTORS.

Lemma rd_bytes_range m n : ∀ a, Forall (λ b, 0 ≤ b < 256) (rd_bytes m a n).
Proof. induction n as [|n IH]; intros a; simpl; constructor; [apply rd8_range|apply IH]. Qed.

Lemma ramdisk_accepts d lba count buf d' :
  ramdisk_ok d → 0 ≤ lba → 0 ≤ count → ramdisk_write d lba count buf = (true, d') →
  0 < count ∧ lba + count ≤ RAMDISK_SECTORS ∧
  d' = mk_ramdisk (rd_sector_size d) (rd_sectors d)
         (wr_bytes (ramdisk_data d) (lba * 512) (take (Z.to_nat (512 * count)) buf)).
Proof.
  intros [Es En] Hl Hc E. unfold ramdisk_write in E. rewrite Es, En in *.
  unfold RAMDISK_SECTORS, RAMDISK_SECTOR_SIZE in *.
  destruct (Z.eqb_spec count 0); [done|].
  destruct (Z.leb_spec 8192 lba), (Z.ltb_spec (8192 - lba) count); try done; simpl in E.
  rewrite !w64_small in E by lia. injection E as <-. split_and!; [lia|lia|]. do 3 f_equal. lia.
Qed.

Lemma ramdisk_read_one d lba :
  ramdisk_ok d → 0 ≤ lba < 2 ^ 64 →
  ramdisk_read d lba 1 =
  if lba <? RAMDISK_SECTORS then Some (rd_bytes (ramdisk_data d) (lba * 512) 512) else None.
Proof.
  intros [Es En] Hl. unfold ramdisk_read. rewrite Es, En.
  unfold RAMDISK_SECTORS, RAMDISK_SECTOR_SIZE in *. change (1 =? 0) with false. cbn iota.
  destruct (Z.ltb_spec lba 8192).
  - rewrite (proj2 (Z.leb_gt 8192 lba)), (proj2 (Z.ltb_ge (8192 - lba) 1)) by lia. cbn [orb].
    by rewrite !w64_small by lia.
  - by rewrite (proj2 (Z.leb_le 8192 lba)) by lia.
Qed.

#[export] Program Instance ramdisk_laws : DeviceLaws ramdisk := {| bd_ok := ramdisk_ok |}.
Next Obligation.
  intros d d' lba count buf ok Hd E. simpl in E. unfold ramdisk_write in E.
  destruct (count =? 0); [by injection E as _ <-|].
  destruct (_ || _); injection E as _ <-; [done|]. by destruct Hd.
Qed.
Next Obligation.
  intros d lba data [Es En] E. change (ramdisk_read d lba 1 = Some data) in E.
  unfold ramdisk_read in E. rewrite Es in E.
  destruct (1 =? 0); [done|]. destruct (_ || _); [done|]. remember (rd_bytes _ _ _) as l eqn:El.
  injection E as <-. subst l. unfold sector. rewrite length_rd_bytes. split; [done|apply rd_bytes_range].
Qed.
Next Obligation.
  intros d d' lba buf Hd Hl [Hlen Hb] E. change (ramdisk_read d' lba 1 = Some buf).
  change (ramdisk_write d lba 1 buf = (true, d')) in E.
  apply ramdisk_accepts in E as (_ & Hle & ->); [|done|lia|lia].
  rewrite ramdisk_read_one by (destruct Hd; done). rewrite (proj2 (Z.ltb_lt _ _)) by lia.
  cbn [ramdisk_data].
  rewrite take_ge by (rewrite Hlen; done). rewrite <- Hlen, rd_bytes_wr_bytes. f_equal.
  clear -Hb. induction Hb as [|b l Hb _ IH]; [done|]. rewrite fmap_cons, IH. by rewrite w8_small.
Qed.
Next Obligation.
  intros d d' lba count buf other Hd Hl Ho Hc Hlen E Hdis.
  change (ramdisk_read d' other 1 = ramdisk_read d other 1).
  change (ramdisk_write d lba count buf = (true, d')) in E.
  apply ramdisk_accepts in E as (_ & Hle & ->); [|done|lia|lia].
  rewrite !ramdisk_read_one by (destruct Hd; done). destruct (other <? RAMDISK_SECTORS); [|done].
  f_equal. apply rd_bytes_ext. intros b Hb. cbn [ramdisk_data]. rewrite rd8_wr_bytes, take_ge by lia.
  destruct (buf !! _) eqn:El; [|done]. apply lookup_lt_Some in El. rewrite decide_False; [done|].
  intros Hab. destruct Hdis; lia.
Qed.

(** ** The cache *)

Section Cache.
Context {A : Type} `{!BlockDevice A} `{!DeviceLaws A}.
Implicit Types s : blocks A.

Definition devs_ok s : Prop :=
  bd_ok (ram_dev s) ∧ match ata_dev s with Some a => bd_ok a | None => True end.

(** Every valid entry holds its sector. *)
Record cache_ok s : Prop := {
  co_devs : devs_ok s;
  co_len : length (block_cache s) = 16%nat;
  co_entries : ∀ i e, block_cache s !! i = Some e → ce_valid e = true →
    ∃ d, ce_dev e = Some d ∧ 0 ≤ ce_lba e < 2 ^ 64 ∧ i = cache_idx (ce_lba e) ∧
      dev_read s d (ce_lba e) 1 = Some (ce_data e);
}.

Lemma block_init_ok s ata s' :
  length (block_cache s) = 16%nat → match ata with Some a => bd_ok a | None => True end →
  block_init s ata = Some s' → cache_ok s'.
Proof using Type*.
  unfold block_init. rewrite fat_size_value. intros Hlen Ha E.
  assert (∀ c i e, block_cache_reset c !! i = Some e → ce_valid e = false) as Hr.
  { intros c i e Hi. unfold block_cache_reset in Hi. rewrite list_lookup_fmap in Hi.
    destruct (c !! i); [by injection Hi as <-|done]. }
  destruct ata; injection E as <-; split; simpl; try done;
    try (unfold block_cache_reset; rewrite !length_fmap; done);
    intros i e Hi Hv; apply Hr in Hi; congruence.
Qed.

Lemma cache_idx_lt lba : (cache_idx lba < 16)%nat.
Proof using Type. unfold cache_idx, BLOCK_CACHE_ENTRIES. dlia. Qed.

Lemma cache_lookup_Some c d lba e :
  block_cache_lookup c d lba = Some e →
  c !! cache_idx lba = Some e ∧ ce_valid e = true ∧ ce_dev e = Some d ∧ ce_lba e = lba.
Proof using Type.
  unfold block_cache_lookup. destruct (c !! cache_idx lba) as [e'|] eqn:E; [|done].
  destruct (ce_valid e' && _ && _) eqn:Et; [|done]. intros [= ->].
  apply andb_true_iff in Et as [[Ev Ed%bool_decide_eq_true]%andb_true_iff El%Z.eqb_eq]. done.
Qed.

Lemma dev_read_sector s d lba data :
  devs_ok s → dev_read s d lba 1 = Some data → sector data.
Proof using Type*.
  intros [Hr Ha] E. destruct d; unfold dev_read in E; [by apply (bd_read_sector (ram_dev s) lba)|].
  destruct (ata_dev s) as [a|]; [by apply (bd_read_sector a lba)|done].
Qed.

(** The devices see only their own writes. *)
Lemma dev_write_spec s d lba count buf ok s' :
  devs_ok s → dev_write s d lba count buf = (ok, s') →
  devs_ok s' ∧ block_cache s' = block_cache s ∧ default_dev s' = default_dev s ∧
  (∀ d' l c, d' ≠ d → dev_read s' d' l c = dev_read s d' l c) ∧
  (ok = true → 0 ≤ lba < 2 ^ 64 → 0 < count → (length buf = Z.to_nat (512 * count))%nat →
    (count = 1 → sector buf → dev_read s' d lba 1 = Some buf) ∧
    ∀ l, 0 ≤ l < 2 ^ 64 → l < lba ∨ lba + count ≤ l → dev_read s' d l 1 = dev_read s d l 1).
Proof using Type*.
  intros [Hr Ha] E. unfold dev_write in E. destruct d.
  - destruct (bd_write (ram_dev s) lba count buf) as [ok' r] eqn:Ew. injection E as <- <-.
    assert (bd_ok r) by (by apply (bd_write_ok (ram_dev s) r lba count buf ok')). unfold devs_ok. simpl ram_dev. simpl ata_dev.
    split_and!; auto; [by intros [] ??|]. intros -> Hl Hc Hb. split.
    + intros -> Hs. by apply (bd_write_read (ram_dev s)).
    + intros l Hl' Hd. by apply (bd_write_other (ram_dev s) r lba count buf).
  - destruct (ata_dev s) as [a|] eqn:Ea; [|injection E as <- <-; unfold devs_ok; rewrite Ea; by split_and!].
    destruct (bd_write a lba count buf) as [ok' a'] eqn:Ew. injection E as <- <-.
    unfold devs_ok. simpl ram_dev. simpl ata_dev.
    split_and!; auto; [by apply (bd_write_ok a a' lba count buf ok')|by intros [] ??|]. intros -> Hl Hc Hb. unfold dev_read. rewrite Ea. split.
    + intros -> Hs. by apply (bd_write_read a).
    + intros l Hl' Hd. by apply (bd_write_other a a' lba count buf).
Qed.

Lemma cache_store_ok s d lba data :
  devs_ok s → length (block_cache s) = 16%nat → 0 ≤ lba < 2 ^ 64 →
  (∀ i e, i ≠ cache_idx lba → block_cache s !! i = Some e → ce_valid e = true →
    ∃ d, ce_dev e = Some d ∧ 0 ≤ ce_lba e < 2 ^ 64 ∧ i = cache_idx (ce_lba e) ∧
      dev_read s d (ce_lba e) 1 = Some (ce_data e)) →
  dev_read s d lba 1 = Some data →
  cache_ok (with_cache s (block_cache_store (block_cache s) d lba data)).
Proof using Type*.
  intros Hd Hlen Hl Hoth Er. split; [done|by unfold block_cache_store; simpl; rewrite length_insert|].
  intros i e Hi Hv. unfold block_cache_store in Hi. cbn [block_cache with_cache] in Hi.
  destruct (decide (i = cache_idx lba)) as [->|Hne].
  - rewrite list_lookup_insert_eq in Hi by (rewrite Hlen; apply cache_idx_lt).
    injection Hi as <-. exists d. cbn [ce_dev ce_lba ce_data].
    destruct (dev_read_sector s d lba data Hd Er) as [Hs _].
    rewrite take_ge by (rewrite Hs; done). done.
  - rewrite list_lookup_insert_ne in Hi by done. by apply Hoth.
Qed.

Lemma cache_hit s d lba e :
  cache_ok s → block_cache_lookup (block_cache s) d lba = Some e → dev_read s d lba 1 = Some (ce_data e).
Proof using Type.
  intros Hc (Hi & Hv & Hd & <-)%cache_lookup_Some.
  destruct (co_entries _ Hc _ _ Hi Hv) as (d' & E & _ & _ & Er). rewrite Hd in E. by injection E as <-.
Qed.

Lemma block_read_core s dev lba count r s' :
  cache_ok s → 0 ≤ lba < 2 ^ 64 → block_read s dev lba count = (r, s') →
  r = dev ≫= (λ d, dev_read s d lba count) ∧ cache_ok s' ∧
  ram_dev s' = ram_dev s ∧ ata_dev s' = ata_dev s ∧ default_dev s' = default_dev s.
Proof using Type*.
  intros Hc Hl E. destruct dev as [d|]; simpl in *; [|by injection E as <- <-].
  destruct (Z.eqb_spec count 1) as [->|Hn].
  - destruct (block_cache_lookup (block_cache s) d lba) as [e|] eqn:El.
    + injection E as <- <-. by rewrite (cache_hit s d lba e).
    + destruct (dev_read s d lba 1) as [data|] eqn:Er; injection E as <- <-; [|done].
      split_and!; [done| |done..]. apply cache_store_ok; auto; [apply Hc..|]. intros i e _. apply Hc.
  - destruct (dev_read s d lba count); by injection E as <- <-.
Qed.

(** C20: reading through the cache returns exactly what the device would
    return, errors included, and keeps the cache coherent and the devices
    untouched. *)
Theorem block_read_coherent s dev lba count :
  cache_ok s → 0 ≤ lba < 2 ^ 64 →
  let '(r, s') := block_read s dev lba count in
  r = dev ≫= (λ d, dev_read s d lba count) ∧ cache_ok s' ∧
  ram_dev s' = ram_dev s ∧ ata_dev s' = ata_dev s ∧ default_dev s' = default_dev s.
Proof using Type*.
  intros Hc Hl. destruct (block_read s dev lba count) as [r s'] eqn:E. by eapply block_read_core.
Qed.

(** No sector of the range is cached. *)
Definition uncached s (d : dev_id) (lba count : Z) : Prop :=
  ∀ l, lba ≤ l < lba + count → block_cache_lookup (block_cache s) d l = None.

Lemma block_read_val s d l : cache_ok s → 0 ≤ l < 2 ^ 64 → (block_read s (Some d) l 1).1 = dev_read s d l 1.
Proof using Type*.
  intros Hc Hl. destruct (block_read s (Some d) l 1) as [r s'] eqn:E.
  by apply block_read_core in E as [-> _].
Qed.

(** An entry survives a write to other sectors. *)
Lemma entry_kept s s' d lba count buf i e :
  cache_ok s → dev_write s d lba count buf = (true, s') → 0 ≤ lba < 2 ^ 64 → 0 < count →
  (length buf = Z.to_nat (512 * count))%nat →
  block_cache s !! i = Some e → ce_valid e = true →
  (ce_dev e = Some d → ce_lba e < lba ∨ lba + count ≤ ce_lba e) →
  ∃ d', ce_dev e = Some d' ∧ 0 ≤ ce_lba e < 2 ^ 64 ∧ i = cache_idx (ce_lba e) ∧
    dev_read s' d' (ce_lba e) 1 = Some (ce_data e).
Proof using Type*.
  intros Hc E Hl Hn Hb Hi Hv Hout.
  destruct (dev_write_spec _ _ _ _ _ _ _ (co_devs _ Hc) E) as (_ & _ & _ & Hoth & Hok).
  destruct (Hok eq_refl Hl Hn Hb) as [_ Hrest].
  destruct (co_entries _ Hc i e Hi Hv) as (d' & Ed & Hr & Ei & Er). exists d'. split_and!; auto; [lia..|].
  destruct (decide (d' = d)) as [->|Hne]; [rewrite Hrest|rewrite Hoth]; auto.
Qed.

Lemma block_write_core s s' d lba count buf :
  cache_ok s → 0 ≤ lba < 2 ^ 64 → 0 < count → (length buf = Z.to_nat (512 * count))%nat →
  (count = 1 ∧ sector buf ∨ count ≠ 1 ∧ uncached s d lba count) →
  block_write s (Some d) lba count buf = (true, s') →
  cache_ok s' ∧ (count = 1 → dev_read s' d lba 1 = Some buf) ∧
  ∀ d' l, 0 ≤ l < 2 ^ 64 → d' ≠ d ∨ l < lba ∨ lba + count ≤ l → dev_read s' d' l 1 = dev_read s d' l 1.
Proof using Type*.
  intros Hc Hl Hn Hb Hcase E. cbn [block_write] in E.
  destruct (dev_write s d lba count buf) as [ok s1] eqn:Ew. pose proof Ew as Ew0.
  apply dev_write_spec in Ew as (Hd & Ec & _ & Hoth & Hok); [|apply Hc].
  destruct ok; [|done]. destruct (Hok eq_refl Hl Hn Hb) as [Hsame Hrest].
  assert (∀ d' l, 0 ≤ l < 2 ^ 64 → d' ≠ d ∨ l < lba ∨ lba + count ≤ l → dev_read s1 d' l 1 = dev_read s d' l 1) as Hother.
  { intros d' l Hl' Hdis. destruct (decide (d' = d)) as [->|]; [apply Hrest; [done|by destruct Hdis]|by apply Hoth]. }
  destruct Hcase as [[-> Hs]|[H1 Hu]].
  - injection E as <-. split_and!; [|intros _; by apply Hsame|exact Hother].
    apply cache_store_ok; [done|rewrite Ec; apply Hc|done| |by apply Hsame].
    intros i e Hi He Hv. rewrite Ec in He. eapply entry_kept; eauto.
    intros _. destruct (co_entries _ Hc i e He Hv) as (? & _ & _ & -> & _).
    destruct (decide (ce_lba e = lba)); [congruence|lia].
  - rewrite (proj2 (Z.eqb_neq count 1) H1) in E. injection E as <-. split_and!; [|done|exact Hother].
    split; [done|rewrite Ec; apply Hc|]. intros i e He Hv. rewrite Ec in He.
    eapply entry_kept; eauto. intros Ed. destruct (co_entries _ Hc i e He Hv) as (? & _ & _ & -> & _).
    destruct (decide (lba ≤ ce_lba e < lba + count)) as [Hin|]; [exfalso|lia].
    specialize (Hu _ Hin). unfold block_cache_lookup in Hu. rewrite He, Hv, Ed, Z.eqb_refl in Hu.
    by rewrite bool_decide_true in Hu.
Qed.

(** C10: a write through the cache reports what the device reports.  When it
    succeeds, the cache stays coherent, a later read of a single written
    sector returns the data, and a read of any other sector of any device is
    unchanged; for a write of several sectors this needs none of them to be
    cached. *)
Theorem block_write_coherent s d lba count buf :
  cache_ok s → 0 ≤ lba < 2 ^ 64 → 0 < count → (length buf = Z.to_nat (512 * count))%nat →
  (count = 1 ∧ sector buf ∨ count ≠ 1 ∧ uncached s d lba count) →
  let '(ok, s') := block_write s (Some d) lba count buf in
  ok = (dev_write s d lba count buf).1 ∧
  (ok = true → cache_ok s' ∧
    (count = 1 → (block_read s' (Some d) lba 1).1 = Some buf) ∧
    ∀ d' l, 0 ≤ l < 2 ^ 64 → d' ≠ d ∨ l < lba ∨ lba + count ≤ l →
      (block_read s' (Some d') l 1).1 = (block_read s (Some d') l 1).1).
Proof using Type*.
  intros Hc Hl Hn Hb Hcase. destruct (block_write s (Some d) lba count buf) as [ok s'] eqn:E. split.
  { cbn [block_write] in E. destruct (dev_write s d lba count buf) as [ok1 s1].
    by destruct ok1, (count =? 1); injection E as <- _. }
  intros ->. destruct (block_write_core s s' d lba count buf) as (Hc' & Hr & Ho); auto.
  split_and!; [done| |].
  - intros ->. rewrite block_read_val; auto.
  - intros d' l Hl' Hd. rewrite !block_read_val by done. auto.
Qed.

(** a write of several sectors does not update or invalidate their cache
    entries: a cached sector is still read with its old contents after the
    device has accepted the new ones. *)
Theorem block_write_stale s s' d lba count buf l e :
  count ≠ 1 → lba ≤ l < lba + count →
  block_cache_lookup (block_cache s) d l = Some e → devs_ok s →
  block_write s (Some d) lba count buf = (true, s') →
  block_read s' (Some d) l 1 = (Some (ce_data e), s').
Proof using Type*.
  intros Hn Hl He Hd E. cbn [block_write] in E.
  destruct (dev_write s d lba count buf) as [ok s1] eqn:Ew.
  apply dev_write_spec in Ew as (_ & Ec & _); [|done].
  rewrite (proj2 (Z.eqb_neq count 1) Hn), andb_false_r in E. injection E as _ <-.
  cbn [block_read]. change (1 =? 1) with true. cbn iota. by rewrite Ec, He.
Qed.
End Cache.

End BlockSpec.
