(* ===== verification/BlockDisk.v ===== *)
(** * The block layer as a sector device

    [block_read] and [block_write] of one sector, with the handles of Block.v,
    are a [SectorDev]; for the RAM disk they keep the promises of
    [SectorLaws], by the coherence of the cache. *)

From S2P Require Import Prelude Memory State Block BlockSpec.
From stdpp Require Import options.
Import Block BlockSpec.

Module BlockDisk.
Section Disk.
Context {A : Type} `{!BlockDevice A} `{!DeviceLaws A}.

#[export] Instance block_sectors : SectorDev dev_id (blocks A) := {
  sread d lba s := Some (block_read s (Some d) lba 1);
  swrite d lba b s := Some (block_write s (Some d) lba 1 b);
}.

Lemma ramdisk_write_accepts r lba b b' :
  ramdisk_ok r → 0 ≤ lba < 2 ^ 32 → ramdisk_read r lba 1 = Some b → (ramdisk_write r lba 1 b').1 = true.
Proof using Type.
  intros Hr Hl E. rewrite ramdisk_read_one in E by (done || lia). destruct Hr as [Es En].
  unfold ramdisk_write. rewrite En. change (1 =? 0) with false. cbn iota.
  destruct (Z.ltb_spec lba RAMDISK_SECTORS); [|done].
  rewrite (proj2 (Z.leb_gt RAMDISK_SECTORS lba)), (proj2 (Z.ltb_ge (RAMDISK_SECTORS - lba) 1)) by lia. done.
Qed.

#[export] Program Instance block_sector_laws : SectorLaws dev_id (blocks A) := {|
  sd_ok d s := d = RamdiskDev ∧ cache_ok s;
  sect d s lba := dev_read s d lba 1;
|}.
Next Obligation. intros d s lba b [_ Hc] E. by apply (dev_read_sector s d lba); [apply Hc|]. Qed.
Next Obligation.
  intros d s lba [-> Hc] Hl.
  destruct (block_read s (Some RamdiskDev) lba 1) as [r s'] eqn:E.
  destruct (block_read_core s (Some RamdiskDev) lba 1 r s') as (-> & Hc' & Er & Ea & _); [done|lia|done|].
  exists s'. split_and!; [|done|done|intros l; unfold dev_read; by rewrite Er].
  change (Some (block_read s (Some RamdiskDev) lba 1) = Some (dev_read s RamdiskDev lba 1, s')). by rewrite E.
Qed.
Next Obligation.
  intros d s lba b b' [-> Hc] Hl Hb E.
  destruct (block_write s (Some RamdiskDev) lba 1 b') as [ok s'] eqn:Ew.
  assert (ok = true) as ->.
  { cbn [block_write] in Ew. destruct (dev_write s RamdiskDev lba 1 b') as [ok1 s1] eqn:Ed.
    assert (ok1 = true) as ->; [|by injection Ew as <- _].
    pose proof (ramdisk_write_accepts (ram_dev s) lba b b' (proj1 (co_devs _ Hc)) Hl E) as H.
    unfold dev_write in Ed. change (bd_write (ram_dev s) lba 1 b') with (ramdisk_write (ram_dev s) lba 1 b') in Ed.
    destruct (ramdisk_write (ram_dev s) lba 1 b') as [ok2 r]. by injection Ed as <- _. }
  exists s'. pose proof Ew as Ew0.
  apply block_write_core in Ew as (Hc' & Hsame & Hoth);
    [|done|lia|lia|by rewrite (proj1 Hb)|by left].
  split_and!; [|done|done|].
  { change (Some (block_write s (Some RamdiskDev) lba 1 b') = Some (true, s')). by rewrite Ew0. }
  intros l Hl'. change (dev_read s' RamdiskDev l 1 = if l =? lba then Some b' else dev_read s RamdiskDev l 1).
  destruct (Z.eqb_spec l lba) as [->|Hne]; [by apply Hsame|]. apply Hoth; lia.
Qed.
End Disk.
End BlockDisk.
