(* ===== verification/Ata.v ===== *)
(** * The ATA driver (src/kernel/ata.c)

    Programmed I/O over any port machine: [Ports] says what reading and
    writing a port does to the hardware.  The driver's only object, [ata], is
    laid out in memory as the compiler does, because [ata_read] and
    [ata_write] get at it through a pointer cast. *)

From S2P Require Import Prelude Memory.
From stdpp Require Import options.

Class Ports (P : Type) := {
  inb : P → Z → Z * P;
  inw : P → Z → Z * P;
  outb : P → Z → Z → P;
  outw : P → Z → Z → P;
}.

Module Ata.

Definition ATA_PRIMARY_IO : Z := 0x1F0.
Definition ATA_PRIMARY_CTRL : Z := 0x3F6.
Definition ATA_SR_ERR : Z := 0x01.
Definition ATA_SR_DRQ : Z := 0x08.
Definition ATA_SR_DF : Z := 0x20.
Definition ATA_SR_BSY : Z := 0x80.
Definition ATA_CMD_IDENTIFY : Z := 0xEC.
Definition ATA_CMD_READ : Z := 0x20.
Definition ATA_CMD_WRITE : Z := 0x30.
Definition ATA_CMD_FLUSH : Z := 0xE7.

Definition bit (status mask : Z) : bool := negb (Z.land status mask =? 0).
Definition wr16 := wr_le 2.

(** ** struct ata_device and the struct block_device inside it *)

Definition ATA_IO : Z := 0.
Definition ATA_CTRL : Z := 2.
Definition ATA_DRIVE : Z := 4.
Definition ATA_SECTORS : Z := 8.
Definition ATA_DEV : Z := 16.
Definition BD_NAME : Z := 0.
Definition BD_SECTOR_SIZE : Z := 8.
Definition BD_SECTORS : Z := 16.
Definition BD_READ : Z := 24.
Definition BD_WRITE : Z := 32.

Section Driver.
Context {P : Type} `{!Ports P}.
Implicit Types p : P.

Definition in8 p (port : Z) : Z * P := let '(v, p') := inb p (w16 port) in (w8 v, p').
Definition in16 p (port : Z) : Z * P := let '(v, p') := inw p (w16 port) in (w16 v, p').
Definition out8 p (port v : Z) : P := outb p (w16 port) (w8 v).

Fixpoint wait_loop (n : nat) p (io : Z) : Z * P :=
  match n with
  | O => (-1, p)
  | S n' =>
      let '(st, p') := in8 p (io + 7) in
      if negb (bit st ATA_SR_BSY) then (0, p') else wait_loop n' p' io
  end.
Definition ata_wait_not_bsy p (io : Z) : Z * P := wait_loop (Z.to_nat 100000) p io.

(** The first loop of [ata_poll] leaves the last status read. *)
Fixpoint poll_bsy (n : nat) (status : Z) p (io : Z) : Z * P :=
  match n with
  | O => (status, p)
  | S n' =>
      let '(st, p') := in8 p (io + 7) in
      if negb (bit st ATA_SR_BSY) then (st, p') else poll_bsy n' st p' io
  end.
Fixpoint poll_drq (n : nat) p (io : Z) : Z * P :=
  match n with
  | O => (-1, p)
  | S n' =>
      let '(st, p') := in8 p (io + 7) in
      if bit st ATA_SR_DRQ then (0, p')
      else if bit st (Z.lor ATA_SR_ERR ATA_SR_DF) then (-1, p')
      else poll_drq n' p' io
  end.
Definition ata_poll p (io : Z) : Z * P :=
  let '(status, p) := poll_bsy (Z.to_nat 100000) 0 p io in
  if bit status (Z.lor ATA_SR_ERR ATA_SR_DF) then (-1, p)
  else poll_drq (Z.to_nat 100000) p io.

(** [n] words from the data port. *)
Fixpoint read_words (n : nat) p (io : Z) : list Z * P :=
  match n with
  | O => ([], p)
  | S n' =>
      let '(v, p1) := in16 p io in
      let '(vs, p2) := read_words n' p1 io in (v :: vs, p2)
  end.

Definition ata_identify (m : memory) p (dev : Z) : Z * memory * P :=
  let io := rd16 m (dev + ATA_IO) in
  let ctrl := rd16 m (dev + ATA_CTRL) in
  let drive := rd8 m (dev + ATA_DRIVE) in
  let p := out8 p ctrl 0x02 in
  let p := out8 p (io + 6) (Z.lor 0xA0 (Z.shiftl drive 4)) in
  let p := out8 p (io + 2) 0 in
  let p := out8 p (io + 3) 0 in
  let p := out8 p (io + 4) 0 in
  let p := out8 p (io + 5) 0 in
  let p := out8 p (io + 7) ATA_CMD_IDENTIFY in
  let '(status, p) := in8 p (io + 7) in
  if status =? 0 then (-1, m, p)
  else
    let '(rc, p) := ata_wait_not_bsy p io in
    if negb (rc =? 0) then (-1, m, p)
    else
      let '(mid, p) := in8 p (io + 4) in
      let '(high, p) := in8 p (io + 5) in
      if negb (mid =? 0) || negb (high =? 0) then (-1, m, p)
      else
        let '(rc, p) := ata_poll p io in
        if negb (rc =? 0) then (-1, m, p)
        else
          let '(data, p) := read_words 256 p io in
          let sectors := Z.lor (nth 60 data 0) (Z.shiftl (nth 61 data 0) 16) in
          if sectors =? 0 then (-1, m, p)
          else (0, wr32 m (dev + ATA_SECTORS) sectors, p).

(** The command block of a transfer of [chunk] sectors at [lba]. *)
Definition command p (io ctrl drive lba chunk cmd : Z) : P :=
  let p := out8 p ctrl 0x02 in
  let p := out8 p (io + 6) (Z.lor (Z.lor 0xE0 (Z.shiftl drive 4)) (Z.land (Z.shiftr lba 24) 0x0F)) in
  let p := out8 p (io + 2) chunk in
  let p := out8 p (io + 3) (Z.land lba 0xFF) in
  let p := out8 p (io + 4) (Z.land (Z.shiftr lba 8) 0xFF) in
  let p := out8 p (io + 5) (Z.land (Z.shiftr lba 16) 0xFF) in
  out8 p (io + 7) cmd.

Definition word_bytes (v : Z) : list Z := [Z.land v 0xFF; Z.shiftr v 8].

Fixpoint read_sectors (n : nat) p (io : Z) : Z * list Z * P :=
  match n with
  | O => (0, [], p)
  | S n' =>
      let '(rc, p) := ata_poll p io in
      if negb (rc =? 0) then (-1, [], p)
      else
        let '(ws, p) := read_words 256 p io in
        let '(rc, rest, p) := read_sectors n' p io in
        (rc, concat (word_bytes <$> ws) ++ rest, p)
  end.

Fixpoint read_chunks (fuel : nat) p (io ctrl drive lba count : Z) : Z * list Z * P :=
  match fuel with
  | O => (0, [], p)
  | S fuel' =>
      if count =? 0 then (0, [], p)
      else
        let chunk := if 255 <? count then 255 else count in
        let p := command p io ctrl drive lba chunk ATA_CMD_READ in
        let '(rc, data, p) := read_sectors (Z.to_nat chunk) p io in
        if negb (rc =? 0) then (-1, data, p)
        else
          let '(rc, rest, p) := read_chunks fuel' p io ctrl drive (w64 (lba + chunk)) (count - chunk) in
          (rc, data ++ rest, p)
  end.

(** The return value, the bytes stored in [buf] and the hardware. *)
Definition ata_read (m : memory) p (bdev lba count : Z) : Z * list Z * P :=
  if (bdev =? 0) || (count =? 0) then (-1, [], p)
  else
    let dev := bdev in
    let sectors := rd32 m (dev + ATA_SECTORS) in
    if (sectors <=? lba) || (w64 (sectors - lba) <? count) then (-1, [], p)
    else
      read_chunks (Z.to_nat count) p (rd16 m (dev + ATA_IO)) (rd16 m (dev + ATA_CTRL))
        (rd8 m (dev + ATA_DRIVE)) lba count.

(** [for (i = 0; i < 256; ++i) outw(io, in[i])], then the next sector. *)
Fixpoint write_words (n : nat) p (io : Z) (src : list Z) : P * list Z :=
  match n, src with
  | S n', lo :: hi :: src' => write_words n' (outw p (w16 io) (lo + 256 * hi)) io src'
  | _, _ => (p, src)
  end.

Fixpoint write_sectors (n : nat) p (io : Z) (src : list Z) : Z * list Z * P :=
  match n with
  | O => (0, src, p)
  | S n' =>
      let '(rc, p) := ata_poll p io in
      if negb (rc =? 0) then (-1, src, p)
      else let '(p, src) := write_words 256 p io src in write_sectors n' p io src
  end.

Fixpoint write_chunks (fuel : nat) p (io ctrl drive lba count : Z) (src : list Z) : Z * P :=
  match fuel with
  | O => (0, p)
  | S fuel' =>
      if count =? 0 then (0, p)
      else
        let chunk := if 255 <? count then 255 else count in
        let p := command p io ctrl drive lba chunk ATA_CMD_WRITE in
        let '(rc, src, p) := write_sectors (Z.to_nat chunk) p io src in
        if negb (rc =? 0) then (-1, p)
        else
          let p := out8 p (io + 7) ATA_CMD_FLUSH in
          let '(_, p) := ata_wait_not_bsy p io in
          write_chunks fuel' p io ctrl drive (w64 (lba + chunk)) (count - chunk) src
  end.

Definition ata_write (m : memory) p (bdev lba count : Z) (src : list Z) : Z * P :=
  if (bdev =? 0) || (count =? 0) then (-1, p)
  else
    let dev := bdev in
    let sectors := rd32 m (dev + ATA_SECTORS) in
    if (sectors <=? lba) || (w64 (sectors - lba) <? count) then (-1, p)
    else
      write_chunks (Z.to_nat count) p (rd16 m (dev + ATA_IO)) (rd16 m (dev + ATA_CTRL))
        (rd8 m (dev + ATA_DRIVE)) lba count src.

(** [ata] is the address of the driver's object, [name], [rfn] and [wfn] those
    of the string and of the two functions; the result is 0 for NULL. *)
Definition ata_init (ata name rfn wfn : Z) (m : memory) p : Z * memory * P :=
  let m := wr16 m (ata + ATA_IO) ATA_PRIMARY_IO in
  let m := wr16 m (ata + ATA_CTRL) ATA_PRIMARY_CTRL in
  let m := wr8 m (ata + ATA_DRIVE) 0 in
  let m := wr32 m (ata + ATA_SECTORS) 0 in
  let m := wr64 m (ata + ATA_DEV + BD_NAME) name in
  let m := wr64 m (ata + ATA_DEV + BD_SECTOR_SIZE) 512 in
  let m := wr64 m (ata + ATA_DEV + BD_SECTORS) 0 in
  let m := wr64 m (ata + ATA_DEV + BD_READ) rfn in
  let m := wr64 m (ata + ATA_DEV + BD_WRITE) wfn in
  let '(rc, m, p) := ata_identify m p ata in
  if negb (rc =? 0) then (0, m, p)
  else (ata + ATA_DEV, wr64 m (ata + ATA_DEV + BD_SECTORS) (rd32 m (ata + ATA_SECTORS)), p).

(** ** Loops end *)

(** One turn per sector is enough fuel. *)
Lemma read_chunks_fuel n k p io ctrl drive : ∀ lba count,
  0 ≤ count ≤ Z.of_nat n →
  read_chunks (n + k) p io ctrl drive lba count = read_chunks n p io ctrl drive lba count.
Proof using Type.
  revert p. induction n as [|n IH]; intros p lba count Hc.
  - assert (count = 0) as -> by lia. by destruct k.
  - cbn [read_chunks Nat.add]. destruct (Z.eqb_spec count 0); [done|].
    destruct (read_sectors _ _ _) as [[rc data] p1]. destruct (negb _); [done|].
    rewrite IH; [done|]. destruct (Z.ltb_spec 255 count); lia.
Qed.

(** ** The cast in ata_read and ata_write *)

Lemma wr_le_split j n : ∀ m a v,
  wr_le (j + n) m a v = wr_le n (wr_le j m a v) (a + Z.of_nat j) (v / 256 ^ Z.of_nat j).
Proof using Type.
  induction j as [|j IH]; intros m a v; cbn [wr_le Nat.add].
  - by rewrite Z.add_0_r, Z.div_1_r.
  - rewrite IH. replace (Z.of_nat (S j)) with (1 + Z.of_nat j) by lia.
    assert (0 < 256 ^ Z.of_nat j) by (apply Z.pow_pos_nonneg; lia).
    by rewrite Z.pow_add_r, Z.pow_1_r, Z.div_div, Z.add_assoc by lia.
Qed.

(** A field read at another width and offset than it was written. *)
Lemma rd_le_part j k r m a v :
  rd_le k (wr_le (j + (k + r)) m a v) (a + Z.of_nat j) = (v / 256 ^ Z.of_nat j) mod 256 ^ Z.of_nat k.
Proof using Type.
  rewrite wr_le_split, wr_le_split, rd_le_wr_le_disj by lia. apply rd_le_wr_le_same.
Qed.

Lemma ata_identify_mem m p dev rc m' p' :
  ata_identify m p dev = (rc, m', p') → m' = m ∨ ∃ v, m' = wr32 m (dev + ATA_SECTORS) v.
Proof using Type.
  unfold ata_identify. intros E.
  repeat match type of E with
  | (let '(_, _) := ?x in _) = _ => destruct x
  | (if ?b then _ else _) = _ => destruct b
  end; injection E as _ <- _; eauto.
Qed.

(** The fields of [*dev] as [ata_read] sees them through [&ata.dev]. *)
Lemma cast_fields ata name rfn wfn m p dev m' p' :
  ata_init ata name rfn wfn m p = (dev, m', p') → dev ≠ 0 →
  dev = ata + ATA_DEV ∧ rd32 m' (dev + ATA_SECTORS) = 512 ∧
  rd16 m' (dev + ATA_IO) = w16 name ∧ rd16 m' (dev + ATA_CTRL) = w16 (name / 2 ^ 16) ∧
  rd8 m' (dev + ATA_DRIVE) = w8 (name / 2 ^ 32).
Proof using Type.
  unfold ata_init. set (m0 := wr64 _ (ata + ATA_DEV + BD_NAME) name).
  destruct (ata_identify _ p ata) as [[rc m1] p1] eqn:Ei. intros E Hd.
  destruct (negb (rc =? 0)); [by injection E as <- _ _|]. injection E as <- <- _.
  apply ata_identify_mem in Ei.
  assert (∀ a k, ata + 16 ≤ a → a + Z.of_nat k ≤ ata + 32 →
    rd_le k (wr64 m1 (ata + ATA_DEV + BD_SECTORS) (rd32 m1 (ata + ATA_SECTORS))) a =
    rd_le k (wr64 m0 (ata + ATA_DEV + BD_SECTOR_SIZE) 512) a) as Hrest.
  { unfold ATA_DEV, BD_SECTORS, BD_SECTOR_SIZE, BD_READ, BD_WRITE, ATA_SECTORS in *. intros a k Ha Hk.
    with_strategy transparent [wr64] unfold wr64. rewrite rd_le_wr_le_disj by lia.
    destruct Ei as [->|[v ->]]; with_strategy transparent [wr64 wr32] unfold wr64, wr32;
      rewrite !rd_le_wr_le_disj by lia; done. }
  assert (∀ k, (k ≤ 8)%nat → rd_le k (wr64 m0 (ata + ATA_DEV + BD_SECTOR_SIZE) 512) (ata + 16 + 8) = 512 mod 256 ^ Z.of_nat k) as Hsz.
  { intros k Hk. with_strategy transparent [wr64] unfold wr64.
    replace 8%nat with (0 + (k + (8 - k)))%nat by lia.
    replace (ata + 16 + 8) with (ata + ATA_DEV + BD_SECTOR_SIZE + Z.of_nat 0) by (unfold ATA_DEV, BD_SECTOR_SIZE; lia).
    rewrite rd_le_part. change (256 ^ Z.of_nat 0) with 1. by rewrite Z.div_1_r. }
  assert (∀ j k, (j + k ≤ 8)%nat → rd_le k (wr64 m0 (ata + ATA_DEV + BD_SECTOR_SIZE) 512) (ata + 16 + Z.of_nat j) =
    (name / 256 ^ Z.of_nat j) mod 256 ^ Z.of_nat k) as Hname.
  { intros j k Hk. unfold m0. with_strategy transparent [wr64] unfold wr64.
    rewrite rd_le_wr_le_disj by (unfold ATA_DEV, BD_SECTOR_SIZE; lia).
    replace 8%nat with (j + (k + (8 - j - k)))%nat by lia.
    replace (ata + 16) with (ata + ATA_DEV + BD_NAME) by (unfold ATA_DEV, BD_NAME; lia).
    apply rd_le_part. }
  unfold ATA_SECTORS, ATA_IO, ATA_CTRL, ATA_DRIVE, ATA_DEV in *. split_and!; [done|..].
  - with_strategy transparent [rd32] unfold rd32 at 1. rewrite Hrest by lia. apply (Hsz 4%nat). lia.
  - with_strategy transparent [rd16] unfold rd16. rewrite Hrest by lia.
    etrans; [apply (Hname 0%nat 2%nat); lia|]. change (256 ^ Z.of_nat 0) with 1. by rewrite Z.div_1_r.
  - with_strategy transparent [rd16] unfold rd16. rewrite Hrest by lia. apply (Hname 2%nat 2%nat). lia.
  - assert (∀ m a, rd8 m a = rd_le 1 m a) as H1 by (intros; simpl; lia). rewrite H1, Hrest by lia.
    apply (Hname 4%nat 1%nat). lia.
Qed.

(** [ata_init] hands out [&ata.dev], and [ata_read] and [ata_write] cast
    that pointer to [struct ata_device *] although [dev] is not the first
    member.  Every transfer that reaches sector 512 or beyond is refused
    whatever the size of the disk, and the others drive the ports whose
    numbers are the low bytes of the address of the device's name. *)
Theorem ata_cast_misreads ata name rfn wfn m p dev m' p' q lba count src :
  ata_init ata name rfn wfn m p = (dev, m', p') → dev ≠ 0 → 0 ≤ lba < 2 ^ 64 → 0 < count →
  if 512 <? lba + count
  then ata_read m' q dev lba count = (-1, [], q) ∧ ata_write m' q dev lba count src = (-1, q)
  else ata_read m' q dev lba count =
         read_chunks (Z.to_nat count) q (w16 name) (w16 (name / 2 ^ 16)) (w8 (name / 2 ^ 32)) lba count ∧
       ata_write m' q dev lba count src =
         write_chunks (Z.to_nat count) q (w16 name) (w16 (name / 2 ^ 16)) (w8 (name / 2 ^ 32)) lba count src.
Proof using Type.
  intros E Hd Hl Hc. apply cast_fields in E as (_ & Es & Ei & Ec & Edr); [|done].
  unfold ata_read, ata_write. rewrite Es, Ei, Ec, Edr.
  rewrite (proj2 (Z.eqb_neq dev 0) Hd), (proj2 (Z.eqb_neq count 0)) by lia. cbn [orb].
  destruct (Z.leb_spec 512 lba) as [Hge|Hlt]; cbn [orb].
  - by rewrite (proj2 (Z.ltb_lt 512 (lba + count))) by lia.
  - rewrite w64_small by lia.
    destruct (Z.ltb_spec (512 - lba) count), (Z.ltb_spec 512 (lba + count)); done || lia.
Qed.

End Driver.
End Ata.
