(* ===== verification/Console.v ===== *)
(** * The text console (src/kernel/arch/x86_64/console.c, src/kernel/console.c)

    The VGA text buffer is the list of its 2000 cells; the hardware cursor is
    programmed through the ports of Ata.v's machine.  The lock of console.c
    makes each operation one step.  A reference layout -- lines of 80
    characters, the last 25 of them visible -- says what the screen shows. *)

From S2P Require Import Prelude CString Ata.
From stdpp Require Import options.
Import CString.

Module Console.

Definition VGA_COLS : Z := 80.
Definition VGA_ROWS : Z := 25.

Record vga (P : Type) := mk_vga {
  buf : list Z;
  cursor_row : Z;
  cursor_col : Z;
  current_color : Z;
  vports : P;
}.
Arguments mk_vga {_} _ _ _ _ _.
Arguments buf {_} _.
Arguments cursor_row {_} _.
Arguments cursor_col {_} _.
Arguments current_color {_} _.
Arguments vports {_} _.

(** [((uint16_t)color << 8) | (uint8_t)c]. *)
Definition cell (color c : Z) : Z := Z.lor (Z.shiftl color 8) (w8 c).

Section Ops.
Context {P : Type} `{!Ports P}.
Implicit Types s : vga P.

Definition with_buf s (b : list Z) : vga P :=
  mk_vga b (cursor_row s) (cursor_col s) (current_color s) (vports s).
Definition with_cursor s (row col : Z) : vga P := mk_vga (buf s) row col (current_color s) (vports s).
Definition put s (index v : Z) : vga P := with_buf s (<[Z.to_nat index := v]> (buf s)).

Definition update_hw_cursor s : vga P :=
  let pos := w16 (cursor_row s * VGA_COLS + cursor_col s) in
  let p := outb (vports s) 0x3D4 0x0F in
  let p := outb p 0x3D5 (w8 (Z.land pos 0xFF)) in
  let p := outb p 0x3D4 0x0E in
  let p := outb p 0x3D5 (w8 (Z.land (Z.shiftr pos 8) 0xFF)) in
  mk_vga (buf s) (cursor_row s) (cursor_col s) (current_color s) p.

(** The nested loops that move every row up by one. *)
Definition copy_row (row : Z) (b : list Z) : list Z :=
  for_range 0 VGA_COLS (λ col b,
    <[Z.to_nat ((row - 1) * VGA_COLS + col) := nth (Z.to_nat (row * VGA_COLS + col)) b 0]> b) b.

Definition scroll_if_needed s : vga P :=
  if cursor_row s <? VGA_ROWS then s
  else
    let b := for_range 1 VGA_ROWS copy_row (buf s) in
    let b := for_range 0 VGA_COLS (λ col b,
      <[Z.to_nat ((VGA_ROWS - 1) * VGA_COLS + col) := cell (current_color s) 32]> b) b in
    mk_vga b (VGA_ROWS - 1) (cursor_col s) (current_color s) (vports s).

Definition advance_cursor s : vga P :=
  let s := with_cursor s (cursor_row s) (w8 (cursor_col s + 1)) in
  if VGA_COLS <=? cursor_col s then scroll_if_needed (with_cursor s (w8 (cursor_row s + 1)) 0) else s.

Definition arch_console_write_char (c : Z) s : vga P :=
  if c =? 10 then update_hw_cursor (scroll_if_needed (with_cursor s (w8 (cursor_row s + 1)) 0))
  else
    let s := scroll_if_needed s in
    let s := put s (cursor_row s * VGA_COLS + cursor_col s) (cell (current_color s) c) in
    update_hw_cursor (advance_cursor s).

Definition arch_console_write (msg : list Z) s : vga P := foldl (λ s c, arch_console_write_char c s) s msg.

Definition arch_console_clear (color : Z) s : vga P :=
  let b := for_range 0 (VGA_COLS * VGA_ROWS) (λ i b, <[Z.to_nat i := cell color 32]> b) (buf s) in
  update_hw_cursor (mk_vga b 0 0 color (vports s)).

Definition arch_console_set_color (color : Z) s : vga P :=
  mk_vga (buf s) (cursor_row s) (cursor_col s) color (vports s).

Definition arch_console_backspace s : vga P :=
  if (cursor_row s =? 0) && (cursor_col s =? 0) then s
  else
    let s :=
      if cursor_col s =? 0
      then with_cursor s (if 0 <? cursor_row s then cursor_row s - 1 else cursor_row s) (VGA_COLS - 1)
      else with_cursor s (cursor_row s) (cursor_col s - 1) in
    let s := put s (cursor_row s * VGA_COLS + cursor_col s) (cell (current_color s) 32) in
    update_hw_cursor s.

(** ** console.c *)

Definition console_backspace s : vga P := arch_console_backspace s.
Definition console_clear (color : Z) s : vga P := arch_console_clear color s.
Definition console_set_color (color : Z) s : vga P := arch_console_set_color color s.

(** [while (msg[len]) len++]: the characters before the terminator. *)
Definition console_write (msg : list Z) s : vga P :=
  arch_console_write (take (Z.to_nat (strlen msg)) msg) s.

(** [None] for a null pointer; the array has [len] elements. *)
Definition console_write_len (msg : option (list Z)) s : vga P :=
  match msg with
  | None => s
  | Some m => if Z.of_nat (length m) =? 0 then s else arch_console_write m s
  end.
End Ops.

Definition hex_digit (value : Z) : Z := if value <? 10 then 48 + value else 65 + (value - 10).

(** The loop [for (shift = 60; shift >= 0; shift -= 4)] after "0x". *)
Definition hex_text (value : Z) : list Z :=
  [48; 120] ++ ((λ i, hex_digit (Z.land (Z.shiftr value (60 - 4 * i)) 0xF)) <$> seqZ 0 16).

Definition console_write_hex {P} `{!Ports P} (value : Z) (s : vga P) : vga P :=
  arch_console_write (hex_text value) s.
End Console.

(** ** What the console shows

    Scrolling moves the rows up; the screen after a text is the reference
    layout of the text; a backspace undoes a character; a number is written so
    that it can be read back. *)

Import Console.

Module ConsoleSpec.

(** ** The loops *)

Lemma insert_nth (b : list Z) (i j k : nat) :
  (j < length b)%nat → (i < length b)%nat → <[i := nth j b 0]> b !! k = if decide (k = i) then b !! j else b !! k.
Proof.
  intros Hj Hi. destruct (decide (k = i)) as [->|Hne]; [|by rewrite list_lookup_insert_ne].
  rewrite list_lookup_insert_eq by done. destruct (lookup_lt_is_Some_2 b j Hj) as [x Hx].
  by rewrite (nth_lookup_Some _ _ _ _ Hx).
Qed.

Lemma copy_row_lookup row b : 1 ≤ row < 25 → length b = 2000%nat →
  length (copy_row row b) = 2000%nat ∧
  ∀ i : nat, copy_row row b !! i =
    if decide ((row - 1) * 80 ≤ Z.of_nat i < row * 80) then b !! (i + 80)%nat else b !! i.
Proof.
  intros Hr Hl. unfold copy_row, VGA_COLS.
  pose proof (for_range_inv (λ col b', length b' = 2000%nat ∧ ∀ i : nat, b' !! i =
    if decide ((row - 1) * 80 ≤ Z.of_nat i < (row - 1) * 80 + col) then b !! (i + 80)%nat else b !! i) 0 80
    (λ col b, <[Z.to_nat ((row - 1) * 80 + col) := nth (Z.to_nat (row * 80 + col)) b 0]> b) b ltac:(lia)) as H.
  destruct H as [H1 H2].
  - split; [done|]. intros i. by rewrite decide_False by lia.
  - intros j b' Hj [L E]. split; [by rewrite length_insert|]. intros i.
    rewrite insert_nth, !E by lia. destruct (decide (i = _)) as [->|Hne].
    + rewrite decide_False, decide_True by lia. f_equal. lia.
    + repeat case_decide; done || lia.
  - split; [done|]. intros i. rewrite H2. repeat case_decide; done || lia.
Qed.

Lemma copy_rows b : length b = 2000%nat →
  length (for_range 1 VGA_ROWS copy_row b) = 2000%nat ∧
  ∀ i : nat, for_range 1 VGA_ROWS copy_row b !! i = if decide (i < 1920)%nat then b !! (i + 80)%nat else b !! i.
Proof.
  intros Hl. pose proof (for_range_inv (λ row b', length b' = 2000%nat ∧ ∀ i : nat, b' !! i =
    if decide (Z.of_nat i < (row - 1) * 80) then b !! (i + 80)%nat else b !! i) 1 25 copy_row b ltac:(lia)) as H.
  destruct H as [H1 H2].
  - split; [done|]. intros i. by rewrite decide_False by lia.
  - intros j b' Hj [L E]. destruct (copy_row_lookup j b' Hj L) as [L' E']. split; [done|]. intros i.
    rewrite E', !E. repeat case_decide; done || lia.
  - split; [done|]. intros i. unfold VGA_ROWS. rewrite H2. repeat case_decide; done || lia.
Qed.

Lemma fill_lookup (b : list Z) (v base n : Z) :
  0 ≤ base → 0 ≤ n → base + n ≤ Z.of_nat (length b) →
  length (for_range 0 n (λ i b, <[Z.to_nat (base + i) := v]> b) b) = length b ∧
  ∀ i : nat, for_range 0 n (λ i b, <[Z.to_nat (base + i) := v]> b) b !! i =
    if decide (base ≤ Z.of_nat i < base + n) then Some v else b !! i.
Proof.
  intros Hb Hn Hl.
  refine (for_range_inv (λ k b', length b' = length b ∧ ∀ i : nat, b' !! i =
    if decide (base ≤ Z.of_nat i < base + k) then Some v else b !! i) 0 n _ b _ _ _); [lia|..].
  - split; [done|]. intros i. by rewrite decide_False by lia.
  - intros j b' Hj [L E]. split; [by rewrite length_insert|]. intros i.
    destruct (decide (i = Z.to_nat (base + j))) as [->|Hne].
    + rewrite list_lookup_insert_eq, decide_True by lia. done.
    + rewrite list_lookup_insert_ne, E by done. repeat case_decide; done || lia.
Qed.

Section Spec.
Context {P : Type} `{!Ports P}.
Implicit Types s : vga P.

(** Scrolling drops the first row and appends a blank one. *)
Lemma scroll_spec s : length (buf s) = 2000%nat → VGA_ROWS ≤ cursor_row s →
  scroll_if_needed s = mk_vga (drop 80 (buf s) ++ replicate 80 (cell (current_color s) 32)) 24
    (cursor_col s) (current_color s) (vports s).
Proof using Type.
  intros Hl Hr. unfold scroll_if_needed. rewrite (proj2 (Z.ltb_ge _ _)) by done. cbv zeta.
  destruct (copy_rows (buf s) Hl) as [L1 E1]. set (b1 := for_range 1 VGA_ROWS copy_row (buf s)) in *.
  destruct (fill_lookup b1 (cell (current_color s) 32) ((VGA_ROWS - 1) * VGA_COLS) VGA_COLS) as [L2 E2];
    [unfold VGA_ROWS, VGA_COLS; lia..|]. f_equal.
  apply list_eq. intros i. rewrite E2, E1. unfold VGA_ROWS, VGA_COLS.
  destruct (decide (i < 1920)%nat).
  - rewrite decide_False, lookup_app_l, lookup_drop by (rewrite ?length_drop; lia). f_equal. lia.
  - rewrite lookup_app_r, length_drop, Hl by (rewrite length_drop; lia). case_decide.
    + by rewrite lookup_replicate_2 by lia.
    + rewrite (lookup_ge_None_2 (buf s)) by lia. symmetry. apply lookup_ge_None_2. rewrite length_replicate. lia.
Qed.

Lemma scroll_none s : cursor_row s < VGA_ROWS → scroll_if_needed s = s.
Proof using Type. intros H. unfold scroll_if_needed. by rewrite (proj2 (Z.ltb_lt _ _)). Qed.

(** ** The invariant: the cursor is on the screen *)

Record vga_ok s : Prop := {
  vo_buf : length (buf s) = 2000%nat;
  vo_row : 0 ≤ cursor_row s < 25;
  vo_col : 0 ≤ cursor_col s < 80;
}.

Lemma scroll_ok s : length (buf s) = 2000%nat → 0 ≤ cursor_row s → 0 ≤ cursor_col s < 80 → vga_ok (scroll_if_needed s).
Proof using Type.
  intros Hl Hr Hc. destruct (decide (cursor_row s < VGA_ROWS)).
  - rewrite scroll_none by done. split; [done| |done]. unfold VGA_ROWS in *. lia.
  - rewrite scroll_spec by (done || lia). split; cbn [buf cursor_row cursor_col]; [|lia|done].
    rewrite length_app, length_drop, length_replicate. lia.
Qed.

Lemma hw_cursor_ok s : vga_ok s → vga_ok (update_hw_cursor s).
Proof using Type. by intros []. Qed.

Lemma put_ok s i v : vga_ok s → vga_ok (put s i v).
Proof using Type. intros []. split; cbn; by rewrite ?length_insert. Qed.

Lemma advance_ok s : vga_ok s → vga_ok (advance_cursor s).
Proof using Type.
  intros [L R C]. unfold advance_cursor. cbn [cursor_col with_cursor]. rewrite w8_small by lia. unfold VGA_COLS.
  case_if; [|by split; cbn; try lia]. cbn [cursor_row with_cursor]. rewrite w8_small by lia. apply scroll_ok; cbn; lia.
Qed.

Lemma write_char_ok c s : vga_ok s → vga_ok (arch_console_write_char c s).
Proof using Type.
  intros [L R C]. unfold arch_console_write_char. case_if; apply hw_cursor_ok.
  - rewrite w8_small by lia. apply scroll_ok; cbn; lia.
  - apply advance_ok, put_ok. rewrite scroll_none by (unfold VGA_ROWS; lia). by split.
Qed.

Lemma clear_spec color s : length (buf s) = 2000%nat →
  arch_console_clear color s = update_hw_cursor (mk_vga (replicate 2000 (cell color 32)) 0 0 color (vports s)).
Proof using Type.
  intros Hl. unfold arch_console_clear. f_equal. f_equal.
  destruct (fill_lookup (buf s) (cell color 32) 0 2000) as [L E]; [lia..|].
  apply list_eq. intros i. etransitivity; [apply E|]. case_decide.
  - by rewrite lookup_replicate_2 by lia.
  - rewrite !lookup_ge_None_2; [done|rewrite length_replicate; lia|lia].
Qed.

Lemma backspace_ok s : vga_ok s → vga_ok (arch_console_backspace s).
Proof using Type.
  intros [L R C]. unfold arch_console_backspace. case_if; [by split|]. apply hw_cursor_ok, put_ok.
  unfold VGA_COLS.
  destruct (Z.eqb_spec (cursor_col s) 0); [destruct (Z.ltb_spec 0 (cursor_row s))|]; split; cbn; lia.
Qed.

(** ** The layout of a text *)

(** The finished lines and the line being written. *)
Definition page : Type := list (list Z) * list Z.

Definition type_char (p : page) (c : Z) : page :=
  let '(ls, l) := p in
  if c =? 10 then (ls ++ [l], [])
  else if (length l =? 79)%nat then (ls ++ [l ++ [c]], []) else (ls, l ++ [c]).

Definition layout (text : list Z) : page := foldl type_char ([], []) text.

Definition row_of (color : Z) (l : list Z) : list Z :=
  (cell color <$> l) ++ replicate (80 - length l) (cell color 32).

(** The finished lines that are still visible. *)
Definition visible (ls : list (list Z)) : list (list Z) := drop (length ls - 24) ls.

Definition shown (color : Z) (p : page) : list Z :=
  concat (row_of color <$> visible p.1) ++ row_of color p.2 ++
  replicate (1920 - 80 * length (visible p.1)) (cell color 32).

Record shows s (p : page) : Prop := {
  sh_buf : buf s = shown (current_color s) p;
  sh_row : cursor_row s = Z.of_nat (length (visible p.1));
  sh_col : cursor_col s = Z.of_nat (length p.2);
  sh_line : (length p.2 < 80)%nat;
  sh_lines : Forall (λ l, (length l ≤ 80)%nat) p.1;
}.

Lemma length_row_of color l : (length l ≤ 80)%nat → length (row_of color l) = 80%nat.
Proof using Type. clear. intros H. unfold row_of. rewrite length_app, length_fmap, length_replicate. lia. Qed.

Lemma length_rows color ls :
  Forall (λ l, (length l ≤ 80)%nat) ls → length (concat (row_of color <$> ls)) = (80 * length ls)%nat.
Proof using Type.
  clear. induction 1 as [|l ls Hl _ IH]; [done|]. cbn [fmap list_fmap concat length].
  rewrite length_app, length_row_of, IH by done. lia.
Qed.

Lemma length_visible ls : length (visible ls) = Nat.min 24 (length ls).
Proof using Type. clear. unfold visible. rewrite length_drop. lia. Qed.

Lemma visible_lines ls : Forall (λ l : list Z, (length l ≤ 80)%nat) ls → Forall (λ l, (length l ≤ 80)%nat) (visible ls).
Proof using Type. apply Forall_drop. Qed.

Lemma visible_snoc ls l :
  visible (ls ++ [l]) = (if decide (length ls < 24)%nat then visible ls else tl (visible ls)) ++ [l].
Proof using Type.
  clear. unfold visible. rewrite length_app. cbn [length]. case_decide.
  - replace (length ls + 1 - 24)%nat with O by lia. replace (length ls - 24)%nat with O by lia. done.
  - rewrite drop_app_le by lia. f_equal. replace (length ls + 1 - 24)%nat with (S (length ls - 24)) by lia.
    rewrite <- Nat.add_1_r, <- drop_drop. by destruct (drop (length ls - 24) ls).
Qed.

Lemma shown_snoc color ls l : Forall (λ l, (length l ≤ 80)%nat) ls → (length l ≤ 80)%nat →
  shown color (ls ++ [l], []) =
    if decide (length ls < 24)%nat then shown color (ls, l)
    else drop 80 (shown color (ls, l)) ++ replicate 80 (cell color 32).
Proof using Type.
  clear. intros Hls Hl. unfold shown. cbn [fst snd]. pose proof (length_visible ls) as Hv.
  pose proof (visible_lines ls Hls) as Hvl. rewrite visible_snoc.
  assert (row_of color [] = replicate 80 (cell color 32)) as E0 by done. case_decide as Hd.
  - rewrite fmap_app, concat_app. cbn [fmap list_fmap concat]. rewrite app_nil_r, <- !app_assoc. do 2 f_equal.
    rewrite E0, <- replicate_add. f_equal. rewrite length_app. cbn [length]. lia.
  - destruct (visible ls) as [|x xs] eqn:Ev; [cbn [length] in Hv; lia|]. apply Forall_cons in Hvl as [Hx _].
    cbn [tl fmap list_fmap concat length] in *. rewrite fmap_app, concat_app. cbn [fmap list_fmap concat].
    rewrite app_nil_r, <- !app_assoc, drop_app_length' by (by rewrite length_row_of).
    rewrite length_app. cbn [length]. rewrite <- !app_assoc. do 2 f_equal.
    rewrite E0. replace (1920 - 80 * (length xs + 1))%nat with O by lia.
    replace (1920 - 80 * S (length xs))%nat with O by lia. by rewrite app_nil_r.
Qed.

Lemma shown_type color ls l c : Forall (λ l, (length l ≤ 80)%nat) ls → (length l < 80)%nat →
  <[(80 * length (visible ls) + length l)%nat := cell color c]> (shown color (ls, l)) = shown color (ls, l ++ [c]).
Proof using Type.
  clear. intros Hls Hl. unfold shown. cbn [fst snd].
  rewrite insert_app_r_alt, length_rows by (rewrite ?length_rows; auto using visible_lines; lia). f_equal.
  replace (80 * length (visible ls) + length l - 80 * length (visible ls))%nat with (length l) by lia.
  rewrite insert_app_l by (rewrite length_row_of; lia). f_equal. unfold row_of. rewrite fmap_app, length_app. cbn [length].
  replace (80 - length l)%nat with (S (80 - (length l + 1))) by lia. cbn [replicate].
  rewrite insert_app_r_alt, length_fmap, Nat.sub_diag by (rewrite length_fmap; lia). cbn. by rewrite <- app_assoc.
Qed.

Lemma length_shown color p : Forall (λ l, (length l ≤ 80)%nat) p.1 → (length p.2 < 80)%nat → length (shown color p) = 2000%nat.
Proof using Type.
  clear. intros H1 H2. unfold shown. rewrite !length_app, length_replicate, length_row_of, length_rows by (auto using visible_lines; lia).
  rewrite length_visible. lia.
Qed.

Lemma newline_shows s ls l :
  Forall (λ l, (length l ≤ 80)%nat) ls → (length l ≤ 80)%nat → buf s = shown (current_color s) (ls, l) →
  cursor_row s = Z.of_nat (length (visible ls)) →
  shows (scroll_if_needed (with_cursor s (w8 (cursor_row s + 1)) 0)) (ls ++ [l], []).
Proof using Type.
  intros Hls Hl Hb Hr. pose proof (length_visible ls) as Hv. rewrite w8_small by lia.
  assert (Forall (λ l, (length l ≤ 80)%nat) (ls ++ [l])) as Hls' by (apply Forall_app; split; [done|by apply Forall_singleton]).
  assert (length (visible (ls ++ [l])) = Nat.min 24 (length ls + 1)) as Hv' by (rewrite length_visible, length_app; done).
  assert (length (buf s) = 2000%nat) as Hlen.
  { rewrite Hb. unfold shown. cbn [fst snd].
    rewrite !length_app, length_replicate, length_row_of, length_rows, Hv by (auto using visible_lines). lia. }
  pose proof (shown_snoc (current_color s) ls l Hls Hl) as Hs. destruct (decide (length ls < 24)%nat) as [Hd|Hd].
  - rewrite scroll_none by (cbn; unfold VGA_ROWS; lia). split; cbn [fst snd buf with_cursor current_color cursor_row cursor_col length]; try done; try lia.
    by rewrite Hs.
  - rewrite scroll_spec; [|done|cbn; unfold VGA_ROWS; lia].
    split; cbn [fst snd buf with_cursor current_color cursor_row cursor_col length]; try done; try lia. by rewrite Hs, Hb.
Qed.

Lemma hw_cursor_shows s p : shows s p → shows (update_hw_cursor s) p.
Proof using Type. by intros []. Qed.

Lemma write_char_shows c s p : shows s p → shows (arch_console_write_char c s) (type_char p c).
Proof using Type.
  destruct p as [ls l]. intros [Hb Hr Hc Hl Hls]. cbn [fst snd] in *. pose proof (length_visible ls) as Hv.
  unfold arch_console_write_char, type_char. destruct (c =? 10); apply hw_cursor_shows.
  { apply newline_shows; auto with lia. }
  rewrite scroll_none by (unfold VGA_ROWS; lia).
  set (s1 := put s _ _).
  assert (buf s1 = shown (current_color s1) (ls, l ++ [c])) as Hb1.
  { subst s1. cbn [buf put with_buf current_color]. rewrite Hb, <- (shown_type _ ls l c Hls Hl). f_equal. unfold VGA_COLS. lia. }
  assert (cursor_row s1 = cursor_row s ∧ cursor_col s1 = cursor_col s) as [Er Ec] by done. clearbody s1.
  unfold advance_cursor. cbn [cursor_col with_cursor]. rewrite w8_small, Ec, Hc by lia. unfold VGA_COLS.
  destruct (Nat.eqb_spec (length l) 79) as [E|E].
  - rewrite (proj2 (Z.leb_le _ _)) by lia.
    apply (newline_shows (with_cursor s1 (cursor_row s1) (Z.of_nat (length l) + 1)) ls (l ++ [c])); cbn; try done;
      rewrite ?length_app; cbn; lia.
  - rewrite (proj2 (Z.leb_gt _ _)) by lia.
    split; cbn [fst snd buf with_cursor current_color cursor_row cursor_col]; rewrite ?length_app; cbn [length]; try done; lia.
Qed.

Lemma write_shows text : ∀ s p, shows s p → shows (arch_console_write text s) (foldl type_char p text).
Proof using Type.
  unfold arch_console_write. induction text as [|c text IH]; intros s p H; [done|]. cbn [foldl]. by apply IH, write_char_shows.
Qed.

Lemma clear_shows color s : length (buf s) = 2000%nat → shows (arch_console_clear color s) ([], []).
Proof using Type.
  intros Hl. rewrite clear_spec by done. apply hw_cursor_shows. by split; cbn [fst snd cursor_row cursor_col length]; try lia.
Qed.

Lemma write_color t : ∀ s, current_color (arch_console_write t s) = current_color s.
Proof using Type.
  assert (∀ s : vga P, current_color (scroll_if_needed s) = current_color s) as Hs
    by (intros s; unfold scroll_if_needed; by case_if).
  assert (∀ c s, current_color (arch_console_write_char c s) = current_color s) as Hw.
  { intros c s. unfold arch_console_write_char.
    destruct (c =? 10); cbn [update_hw_cursor current_color]; [by rewrite Hs|].
    unfold advance_cursor. destruct (VGA_COLS <=? _); rewrite ?Hs; cbn; by rewrite ?Hs. }
  induction t as [|c t IH]; intros s; [done|]. unfold arch_console_write in *. cbn [foldl]. by rewrite IH, Hw.
Qed.

(** C34: the console is a typewriter.  After [console_clear] and any text the
    80 by 25 cells of the screen show the last lines of the reference layout
    of the text -- broken at newlines and after 80 characters, blank elsewhere,
    scrolled when there are more than 25 lines -- and the cursor is behind its
    last character. *)
Theorem console_shows_layout color text s :
  length (buf s) = 2000%nat →
  let s' := arch_console_write text (console_clear color s) in
  buf s' = shown color (layout text) ∧ length (buf s') = 2000%nat ∧
  cursor_row s' = Z.of_nat (Nat.min 24 (length (layout text).1)) ∧
  cursor_col s' = Z.of_nat (length (layout text).2) ∧ 0 ≤ cursor_col s' < 80.
Proof using Type.
  intros Hl s'. pose proof (write_shows text (console_clear color s) _ (clear_shows color s Hl)) as [Hb Hr Hc Hln Hls].
  fold s' in Hb, Hr, Hc. fold (layout text) in *. rewrite length_visible in Hr.
  assert (current_color s' = color) as E.
  { subst s'.
    rewrite write_color. unfold console_clear. by rewrite clear_spec. }
  rewrite E in Hb. split; [done|]. split; [rewrite Hb; by apply length_shown|]. split_and!; done || lia.
Qed.

(** ** Every operation stays on the screen *)

Inductive op := Write (text : list Z) | Clear (color : Z) | Set_color (color : Z) | Backspace | Hex (value : Z).

Definition run (o : op) s : vga P :=
  match o with
  | Write t => console_write t s
  | Clear c => console_clear c s
  | Set_color c => console_set_color c s
  | Backspace => console_backspace s
  | Hex v => console_write_hex v s
  end.

Lemma console_write_ok text s : vga_ok s → vga_ok (arch_console_write text s).
Proof using Type.
  revert s. unfold arch_console_write. induction text as [|c t IH]; intros s H; [done|]. cbn [foldl]. by apply IH, write_char_ok.
Qed.

Lemma run_ok o s : vga_ok s → vga_ok (run o s).
Proof using Type.
  intros H. destruct o; cbn [run]; [by apply console_write_ok| |by destruct H|by apply backspace_ok|by apply console_write_ok].
  unfold console_clear. rewrite clear_spec by apply H. apply hw_cursor_ok. split; cbn [buf cursor_row cursor_col]; lia || done.
Qed.

(** Any sequence of console calls keeps the cursor, and with it every store,
    inside the text buffer. *)
Theorem console_in_bounds os s : vga_ok s → vga_ok (foldl (λ s o, run o s) s os).
Proof using Type. revert s. induction os as [|o os IH]; intros s H; [done|]. cbn [foldl]. by apply IH, run_ok. Qed.

(** A backspace takes back the character just written, unless it ended a row. *)
Theorem backspace_undoes c s :
  vga_ok s → c ≠ 10 → cursor_col s < 79 →
  let s' := console_backspace (arch_console_write_char c s) in
  cursor_row s' = cursor_row s ∧ cursor_col s' = cursor_col s ∧
  buf s' = <[Z.to_nat (cursor_row s * 80 + cursor_col s) := cell (current_color s) 32]> (buf s).
Proof using Type.
  intros [L R C] Hc Hcol s'. subst s'. unfold arch_console_write_char. rewrite (proj2 (Z.eqb_neq c 10) Hc).
  rewrite scroll_none by (unfold VGA_ROWS; lia). unfold advance_cursor. cbn [cursor_col with_cursor put with_buf].
  rewrite w8_small by lia. unfold VGA_COLS. rewrite (proj2 (Z.leb_gt 80 _)) by lia.
  unfold console_backspace, arch_console_backspace. cbn [cursor_row cursor_col with_cursor with_buf put update_hw_cursor].
  rewrite (proj2 (Z.eqb_neq (cursor_col s + 1) 0)), andb_false_r by lia.
  cbn [cursor_row cursor_col with_cursor with_buf put update_hw_cursor buf current_color].
  replace (cursor_col s + 1 - 1) with (cursor_col s) by lia. split_and!; [done|done|].
  unfold VGA_COLS. by rewrite list_insert_insert_eq.
Qed.
End Spec.

(** ** Numbers *)

Definition hex_value (c : Z) : Z := if c <? 58 then c - 48 else c - 55.
Definition parse_hex (l : list Z) : Z := foldl (λ v c, 16 * v + hex_value c) 0 l.

Lemma hex_digit_value d : 0 ≤ d < 16 → hex_value (hex_digit d) = d.
Proof. intros H. unfold hex_digit, hex_value. repeat case_if; lia. Qed.

(** What [console_write_hex] prints is "0x" and sixteen digits that stand for
    the number. *)
Theorem hex_roundtrip v : 0 ≤ v < 2 ^ 64 → parse_hex (drop 2 (hex_text v)) = v ∧ length (hex_text v) = 18%nat.
Proof.
  intros Hv. split; [|done]. unfold hex_text, parse_hex.
  assert (∀ n : nat, (n ≤ 16)%nat → foldl (λ v c, 16 * v + hex_value c) 0
    ((λ i, hex_digit (Z.land (Z.shiftr v (60 - 4 * i)) 0xF)) <$> seqZ 0 (Z.of_nat n)) = v / 2 ^ (64 - 4 * Z.of_nat n)) as H.
  { induction n as [|n IH]; intros Hn.
    - symmetry. apply Z.div_small. change (64 - 4 * Z.of_nat 0) with 64. lia.
    - rewrite Nat2Z.inj_succ, <- Z.add_1_r, seqZ_app, fmap_app, foldl_app, IH by lia.
      replace (seqZ (0 + Z.of_nat n) 1) with [Z.of_nat n] by (rewrite seqZ_cons, seqZ_nil by lia; f_equal; lia).
      cbn [fmap list_fmap foldl].
      change 0xF with (Z.ones 4). rewrite Z.land_ones, Z.shiftr_div_pow2, hex_digit_value by (lia || apply Z.mod_pos_bound; lia).
      replace (64 - 4 * Z.of_nat n) with (60 - 4 * Z.of_nat n + 4) by lia.
      replace (64 - 4 * (Z.of_nat n + 1)) with (60 - 4 * Z.of_nat n) by lia.
      rewrite Z.pow_add_r by lia. assert (0 < 2 ^ (60 - 4 * Z.of_nat n)) by (apply Z.pow_pos_nonneg; lia).
      rewrite <- Z.div_div by lia. change (2 ^ 4) with 16. dlia. }
  specialize (H 16%nat ltac:(lia)). change (Z.of_nat 16) with 16 in H. rewrite drop_app_length' by done. rewrite H.
  change (64 - 4 * 16) with 0. apply Z.div_1_r.
Qed.
End ConsoleSpec.
