(* ===== verification/Serial.v ===== *)
(** * Output: serial port, formatted printing, the log and the panic screen
    (src/kernel/arch/x86_64/serial.c, src/kernel/printf.c, src/kernel/log.c,
    src/kernel/panic.c)

    Everything the kernel prints goes to the text console and to the serial
    port, which share the port machine inside [vga].  A call of [kvprintf]
    that would read past its format string or take an argument of another type
    has the value [None]. *)

From S2P Require Import Prelude CString Ata Alloc Console.
From stdpp Require Import options.
Import CString Console.

Module Serial.

Definition COM1_PORT : Z := 0x3F8.

Section Port.
Context {P : Type} `{!Ports P}.
Implicit Types p : P.

Definition tx_empty p : bool * P :=
  let '(v, p) := inb p (COM1_PORT + 5) in (negb (Z.land v 0x20 =? 0), p).

Fixpoint tx_loop (n : nat) (c : Z) p : Z * P :=
  match n with
  | O => (0, p)
  | S n' => let '(ready, p) := tx_empty p in if ready : bool then (1, outb p COM1_PORT (w8 c)) else tx_loop n' c p
  end.
Definition serial_write_char_unlocked (c : Z) p : Z * P := tx_loop (Z.to_nat 100000) c p.

Definition serial_init p : P :=
  let p := outb p (COM1_PORT + 1) 0x00 in
  let p := outb p (COM1_PORT + 3) 0x80 in
  let p := outb p (COM1_PORT + 0) 0x03 in
  let p := outb p (COM1_PORT + 1) 0x00 in
  let p := outb p (COM1_PORT + 3) 0x03 in
  let p := outb p (COM1_PORT + 2) 0xC7 in
  let p := outb p (COM1_PORT + 4) 0x0B in
  outb p (COM1_PORT + 1) 0x01.

Definition serial_write_char (c : Z) p : P := (serial_write_char_unlocked c p).2.

(** [serial_write_len]: a carriage return before every line feed. *)
Definition serial_write_len (msg : option (list Z)) p : P :=
  match msg with
  | None => p
  | Some m =>
      if Z.of_nat (length m) =? 0 then p
      else foldl (λ p c,
        let p := if c =? 10 then (serial_write_char_unlocked 13 p).2 else p in
        (serial_write_char_unlocked c p).2) p m
  end.

(** The same loop up to the terminator. *)
Fixpoint serial_write (msg : list Z) p : P :=
  match msg with
  | [] => p
  | c :: msg' =>
      if c =? 0 then p
      else
        let p := if c =? 10 then (serial_write_char_unlocked 13 p).2 else p in
        serial_write msg' (serial_write_char_unlocked c p).2
  end.

Definition serial_write_hex (value : Z) p : P :=
  foldl (λ p c, (serial_write_char_unlocked c p).2) p (hex_text value).
End Port.

(** ** printf.c *)

Section Printf.
Context {P : Type} `{!Ports P}.
Implicit Types s : vga P.

(** A serial port operation on the machine the console holds. *)
Definition on_port (f : P → P) s : vga P :=
  mk_vga (buf s) (cursor_row s) (cursor_col s) (current_color s) (f (vports s)).

Definition put_char (c : Z) s : vga P := on_port (serial_write [c; 0]) (console_write [c; 0] s).
Definition put_str (m : list Z) s : vga P := on_port (serial_write m) (console_write m s).

Definition digit_char (uppercase : bool) (d : Z) : Z :=
  if d <? 10 then 48 + d else (if uppercase then 65 else 97) + (d - 10).

(** [while (value && i < buf_size)]: the digits from the last one on. *)
Fixpoint digits (n : nat) (value base : Z) (uppercase : bool) : list Z :=
  match n with
  | O => []
  | S n' =>
      if value =? 0 then []
      else digit_char uppercase (value mod base) :: digits n' (value / base) base uppercase
  end.

(** What is stored in [buf]. *)
Definition format_uint (value base : Z) (uppercase : bool) (buf_size : Z) : list Z :=
  if buf_size =? 0 then []
  else if value =? 0 then [48]
  else digits (Z.to_nat buf_size) value base uppercase.

(** [while (len > 0) put_char(buf[--len])]. *)
Definition put_uint_printed (value base : Z) (uppercase : bool) (buf_size : Z) s : vga P :=
  foldl (λ s c, put_char c s) s (reverse (format_uint value base uppercase buf_size)).

Definition put_int (value buf_size : Z) s : vga P :=
  let mag := if value <? 0 then w64 (- value) else w64 value in
  let s := if value <? 0 then put_char 45 s else s in
  put_uint_printed mag 10 false buf_size s.

(** The variable arguments. *)
Inductive arg :=
| AStr (m : option (list Z))
| AInt (v : Z)
| APtr (v : Z).

(** One conversion. *)
Definition convert (spec : Z) (args : list arg) s : option (vga P * list arg) :=
  if spec =? 37 then Some (put_char 37 s, args)
  else if spec =? 115 then
    match args with AStr m :: args => Some (put_str (default (chars "(null)") m) s, args) | _ => None end
  else if spec =? 99 then
    match args with AInt v :: args => Some (put_char (w8 v) s, args) | _ => None end
  else if (spec =? 100) || (spec =? 105) then
    match args with AInt v :: args => Some (put_int (s32 v) 64 s, args) | _ => None end
  else if spec =? 117 then
    match args with AInt v :: args => Some (put_uint_printed (w32 v) 10 false 64 s, args) | _ => None end
  else if (spec =? 120) || (spec =? 88) then
    match args with AInt v :: args => Some (put_uint_printed (w32 v) 16 (spec =? 88) 64 s, args) | _ => None end
  else if spec =? 112 then
    match args with APtr v :: args => Some (put_uint_printed (w64 v) 16 false 64 (put_str (chars "0x") s), args) | _ => None end
  else Some (put_char spec (put_char 37 s), args).

(** [for (i = 0; fmt[i] != 0; ++i)].  A percent sign before the terminator
    makes the loop step over the terminator. *)
Fixpoint print_loop (fmt : list Z) (args : list arg) s : option (vga P) :=
  match fmt with
  | [] => Some s
  | c :: fmt' =>
      if c =? 0 then Some s
      else if negb (c =? 37) then print_loop fmt' args (put_char c s)
      else
        match fmt' with
        | [] => None
        | spec :: fmt'' =>
            if spec =? 0 then None
            else '(s, args) ← convert spec args s; print_loop fmt'' args s
        end
  end.

(** The number buffer comes from the heap when that is ready and has room. *)
Definition kvprintf {H} `{!Allocator H} (heap_ready : bool) (fmt : list Z) (args : list arg) s (h : H)
    : result (option (vga P) * H) :=
  '(tmp, h) ← (if heap_ready then al_alloc h 64 16 else Ret (0, h));
  let o := print_loop fmt args s in
  h ← (if negb (tmp =? 0) then al_free h tmp else Ret h);
  Ret (o, h).
End Printf.

(** ** log.c *)

Inductive log_level := LOG_LEVEL_DEBUG | LOG_LEVEL_INFO | LOG_LEVEL_WARN | LOG_LEVEL_ERROR.

Definition level_num (l : log_level) : Z :=
  match l with LOG_LEVEL_DEBUG => 0 | LOG_LEVEL_INFO => 1 | LOG_LEVEL_WARN => 2 | LOG_LEVEL_ERROR => 3 end.

Record log_colors := mk_colors {
  debug_color : Z;
  info_color : Z;
  warn_color : Z;
  error_color : Z;
  default_color : Z;
}.

Record log := mk_log { current_level : log_level; current_colors : log_colors }.

Definition log_boot : log := mk_log LOG_LEVEL_INFO (mk_colors 0x0A 0x0F 0x0E 0x0C 0x0F).

(** [arch_log_should_mirror_to_serial] (hal.c). *)
Definition arch_log_should_mirror_to_serial : Z := 1.

Section Log.
Context {P : Type} `{!Ports P}.
Implicit Types s : vga P.

Definition raw_serial_write (m : list Z) s : vga P :=
  if negb (arch_log_should_mirror_to_serial =? 0) then on_port (serial_write m) s else s.
Definition raw_serial_write_hex (v : Z) s : vga P :=
  if negb (arch_log_should_mirror_to_serial =? 0) then on_port (serial_write_hex v) s else s.

Definition prefix_color (g : log) (level : log_level) : Z :=
  match level with
  | LOG_LEVEL_DEBUG => debug_color (current_colors g)
  | LOG_LEVEL_INFO => info_color (current_colors g)
  | LOG_LEVEL_WARN => warn_color (current_colors g)
  | LOG_LEVEL_ERROR => error_color (current_colors g)
  end.

Definition prefix_text (level : log_level) : list Z :=
  match level with
  | LOG_LEVEL_DEBUG => chars "[DEBUG] "
  | LOG_LEVEL_INFO => chars "[INFO ] "
  | LOG_LEVEL_WARN => chars "[WARN ] "
  | LOG_LEVEL_ERROR => chars "[ERROR] "
  end.

Definition write_prefix (g : log) (level : log_level) s : vga P :=
  let s := console_set_color (prefix_color g level) s in
  let s := console_write (prefix_text level) s in
  raw_serial_write (prefix_text level) s.

Definition log_emit (g : log) (level : log_level) (msg : list Z) s : vga P :=
  if level_num level <? level_num (current_level g) then s
  else
    let s := write_prefix g level s in
    let s := console_set_color (default_color (current_colors g)) s in
    let s := console_write msg s in
    let s := console_write [10] s in
    let s := raw_serial_write msg s in
    raw_serial_write [10] s.

Definition log_emit_hex (g : log) (level : log_level) (label : list Z) (value : Z) s : vga P :=
  if level_num level <? level_num (current_level g) then s
  else
    let s := write_prefix g level s in
    let s := console_set_color (default_color (current_colors g)) s in
    let s := console_write label s in
    let s := console_write (chars ": ") s in
    let s := console_write_hex value s in
    let s := console_write [10] s in
    let s := raw_serial_write label s in
    let s := raw_serial_write (chars ": ") s in
    let s := raw_serial_write_hex value s in
    raw_serial_write [10] s.

Definition log_init (g : log) s : log * vga P :=
  let s := on_port serial_init s in
  let g := mk_log LOG_LEVEL_INFO (current_colors g) in
  (g, console_set_color (default_color (current_colors g)) s).

Definition log_set_level (level : log_level) (g : log) : log := mk_log level (current_colors g).

(** [None] for a null pointer. *)
Definition log_set_colors (colors : option log_colors) (g : log) s : log * vga P :=
  match colors with
  | None => (g, s)
  | Some c => (mk_log (current_level g) c, console_set_color (default_color c) s)
  end.

Definition log_debug (g : log) (msg : list Z) s : vga P := log_emit g LOG_LEVEL_DEBUG msg s.
Definition log_info (g : log) (msg : list Z) s : vga P := log_emit g LOG_LEVEL_INFO msg s.
Definition log_warn (g : log) (msg : list Z) s : vga P := log_emit g LOG_LEVEL_WARN msg s.
Definition log_error (g : log) (msg : list Z) s : vga P := log_emit g LOG_LEVEL_ERROR msg s.
Definition log_debug_hex (g : log) (label : list Z) (value : Z) s : vga P := log_emit_hex g LOG_LEVEL_DEBUG label value s.
Definition log_info_hex (g : log) (label : list Z) (value : Z) s : vga P := log_emit_hex g LOG_LEVEL_INFO label value s.

(** ** panic.c *)

(** [for (i = 0; i < 100000; ++i)] of [arch_reboot]: waits for the keyboard
    controller. *)
Fixpoint kbc_loop (n : nat) (p : P) : P :=
  match n with
  | O => p
  | S n' => let '(v, p) := inb p 0x64 in if Z.land v 0x02 =? 0 then p else kbc_loop n' p
  end.

(** Up to the point where the processor is reset. *)
Definition arch_reboot (p : P) : P := outb (kbc_loop (Z.to_nat 100000) p) 0x64 0xFE.

Definition crlf (t : list Z) : list Z := t ++ [13; 10].

(** What a panic leaves on the screen and on the ports. *)
Definition panic (message : list Z) (code : Z) s : vga P :=
  let s := on_port serial_init s in
  let s := console_set_color 0x4F s in
  let s := console_clear 0x4F s in
  let s := console_write (chars "KERNEL PANIC" ++ [10]) s in
  let s := console_write message s in
  let s := console_write ([10] ++ chars "CODE: ") s in
  let s := console_write_hex code s in
  let s := on_port (serial_write (crlf (chars "KERNEL PANIC"))) s in
  let s := on_port (serial_write message) s in
  let s := on_port (serial_write ([13; 10] ++ chars "CODE: ")) s in
  let s := on_port (serial_write_hex code) s in
  let s := on_port (serial_write [13; 10]) s in
  let s := console_write ([10] ++ chars "Rebooting..." ++ [10]) s in
  let s := on_port (serial_write ([13; 10] ++ crlf (chars "Rebooting..."))) s in
  on_port arch_reboot s.
End Log.
End Serial.

(** ** What is printed

    A declarative reading of format strings, and the proof that [kvprintf]
    prints such a reading on the console and on the serial port. *)

Import ConsoleSpec Serial.

(** A serial port that transmits: what it sent, and for how many more reads
    of the status register the transmitter is busy. *)
Class Uart (P : Type) `{!Ports P} := {
  sent : P → list Z;
  busy : P → nat;
  uart_poll (p : P) :
    (Z.land (inb p (COM1_PORT + 5)).1 0x20 = 0 ↔ busy p ≠ O) ∧
    busy (inb p (COM1_PORT + 5)).2 = pred (busy p) ∧ sent (inb p (COM1_PORT + 5)).2 = sent p;
  uart_send (p : P) (c : Z) : busy p = O → sent (outb p COM1_PORT c) = sent p ++ [c];
  uart_busy (p : P) : Z.of_nat (busy p) < 100000;
  uart_other (p : P) (port v : Z) : port ≠ COM1_PORT → sent (outb p port v) = sent p;
}.

Module SerialSpec.

(** ** The serial port *)

(** A carriage return before every line feed. *)
Definition with_cr (t : list Z) : list Z := t ≫= λ c, if c =? 10 then [13; 10] else [w8 c].

Section Port.
Context {P : Type} `{!Ports P} `{!Uart P}.
Implicit Types p : P.

Lemma tx_loop_sent n c p : (busy p < n)%nat →
  (tx_loop n c p).1 = 1 ∧ sent (tx_loop n c p).2 = sent p ++ [w8 c].
Proof using Type.
  revert p. induction n as [|n IH]; intros p Hb; [lia|]. cbn [tx_loop]. unfold tx_empty.
  pose proof (uart_poll p) as (Hr & Hb' & Hs). destruct (inb p (COM1_PORT + 5)) as [v p']. cbn [fst snd] in *.
  destruct (Z.eqb_spec (Z.land v 0x20) 0) as [E|E]; cbn [negb].
  - rewrite <- Hs. apply IH. apply Hr in E. lia.
  - cbn [fst snd]. split; [done|]. rewrite uart_send, Hs; [done|]. destruct (busy p); [by rewrite Hb'|].
    exfalso. apply E, Hr. done.
Qed.

Lemma write_char_sent c p : sent (serial_write_char_unlocked c p).2 = sent p ++ [w8 c].
Proof using Type. apply tx_loop_sent. pose proof (uart_busy p). lia. Qed.

Lemma serial_write_sent m p : sent (serial_write m p) = sent p ++ with_cr (cstr m).
Proof using Type.
  revert p. induction m as [|c m IH]; intros p; cbn [serial_write cstr]; [by rewrite app_nil_r|].
  destruct (c =? 0); [by rewrite app_nil_r|]. rewrite IH, write_char_sent. unfold with_cr. cbn [mbind list_bind].
  destruct (Z.eqb_spec c 10) as [->|]; rewrite ?write_char_sent, <- ?app_assoc; done.
Qed.
End Port.

(** ** Numerals *)

Definition digit_of (base : Z) (uppercase : bool) (c d : Z) : Prop := 0 ≤ d < base ∧ c = digit_char uppercase d.

(** [t] is the numeral of [v]: digits of the base, most significant first and
    without leading zeros. *)
Record numeral (base : Z) (uppercase : bool) (v : Z) (t : list Z) : Prop := {
  nu_digits : ∃ ds, Forall2 (digit_of base uppercase) t ds ∧ foldl (λ a d, base * a + d) 0 ds = v;
  nu_minimal : t = [48] ∨ ∃ c t', t = c :: t' ∧ c ≠ 48;
}.

Lemma digit_char_zero up d : 0 ≤ d → digit_char up d = 48 → d = 0.
Proof. unfold digit_char. intros Hd H. repeat case_if in H; lia. Qed.

Lemma digits_spec base up n : 2 ≤ base → ∀ v, 0 < v < base ^ Z.of_nat n →
  ∃ ds, Forall2 (digit_of base up) (reverse (digits n v base up)) ds ∧ foldl (λ a d, base * a + d) 0 ds = v ∧
    ∃ c t', reverse (digits n v base up) = c :: t' ∧ c ≠ 48.
Proof.
  intros Hb. induction n as [|n IH]; intros v Hv; [simpl in Hv; lia|]. cbn [digits].
  rewrite (proj2 (Z.eqb_neq v 0)) by lia. rewrite reverse_cons.
  rewrite Nat2Z.inj_succ, Z.pow_succ_r in Hv by lia.
  pose proof (Z.div_mod v base ltac:(lia)) as Hdm. pose proof (Z.mod_pos_bound v base ltac:(lia)) as Hm.
  destruct (decide (v / base = 0)) as [E|E].
  - assert (digits n (v / base) base up = []) as -> by (rewrite E; by destruct n). rewrite E in Hdm.
    exists [v mod base]. split; [repeat constructor; lia|]. split; [simpl; lia|].
    eexists _, []. split; [done|]. intros H. apply digit_char_zero in H; lia.
  - destruct (IH (v / base)) as (ds & Hds & Hval & c & t' & Et & Hc).
    { split; [|apply Z.div_lt_upper_bound; lia]. pose proof (Z.div_pos v base). lia. }
    exists (ds ++ [v mod base]). split; [by apply Forall2_app; [|repeat constructor; lia]|].
    split; [rewrite foldl_app, Hval; simpl; lia|]. rewrite Et. by exists c, (t' ++ [digit_char up (v mod base)]).
Qed.

Lemma format_uint_numeral base up v : 2 ≤ base → 0 ≤ v < 2 ^ 64 → numeral base up v (reverse (format_uint v base up 64)).
Proof.
  intros Hb Hv. unfold format_uint. change (64 =? 0) with false. cbv iota.
  destruct (Z.eqb_spec v 0) as [->|Hn].
  - split; [|by left]. exists [0]. split; [|simpl; lia]. repeat constructor; lia.
  - destruct (digits_spec base up 64 Hb v) as (ds & H1 & H2 & H3).
    + split; [lia|]. change (Z.of_nat 64) with 64. assert (2 ^ 64 ≤ base ^ 64) by (apply Z.pow_le_mono_l; lia). lia.
    + change (Z.to_nat 64) with 64%nat. split; [by exists ds|by right].
Qed.
(** ** Both devices *)

Section Out.
Context {P : Type} `{!Ports P} `{!Uart P}.
Implicit Types s : vga P.

(** The console without its ports. *)
Definition view s : list Z * Z * Z * Z := (buf s, cursor_row s, cursor_col s, current_color s).

Lemma scroll_view s s' : view s = view s' → view (scroll_if_needed s) = view (scroll_if_needed s').
Proof using Type.
  destruct s as [b r c k p], s' as [b' r' c' k' p']. unfold view, scroll_if_needed.
  cbn [buf cursor_row cursor_col current_color]. intros [= -> -> -> ->].
  destruct (r' <? VGA_ROWS); cbv zeta; cbn [buf cursor_row cursor_col current_color]; reflexivity.
Qed.

Lemma write_char_view c s s' :
  view s = view s' → view (arch_console_write_char c s) = view (arch_console_write_char c s').
Proof using Type.
  intros E. unfold arch_console_write_char. destruct (c =? 10).
  - apply (scroll_view (with_cursor s _ _) (with_cursor s' _ _)).
    destruct s, s'. unfold view in *. cbn in *. by simplify_eq.
  - pose proof (scroll_view s s' E) as E1. set (s1 := scroll_if_needed s) in *. set (s2 := scroll_if_needed s') in *.
    clearbody s1 s2. destruct s1, s2. unfold view in E1. cbn in E1. simplify_eq.
    unfold advance_cursor, put, with_buf, with_cursor, VGA_COLS. cbn [cursor_col cursor_row buf current_color vports].
    destruct (80 <=? _); [|done]. unfold view. cbn [update_hw_cursor buf cursor_row cursor_col current_color].
    apply (scroll_view (mk_vga _ _ _ _ _) (mk_vga _ _ _ _ _)). done.
Qed.

Lemma write_view t : ∀ s s', view s = view s' → view (arch_console_write t s) = view (arch_console_write t s').
Proof using Type.
  unfold arch_console_write. induction t as [|c t IH]; intros s s' E; [done|]. cbn [foldl]. by apply IH, write_char_view.
Qed.

Lemma hw_cursor_sent s : sent (vports (update_hw_cursor s)) = sent (vports s).
Proof using Type. cbn. by rewrite !uart_other. Qed.

Lemma write_sent t : ∀ s, sent (vports (arch_console_write t s)) = sent (vports s).
Proof using Type.
  assert (∀ s : vga P, vports (scroll_if_needed s) = vports s) as Hsc by (intros s; unfold scroll_if_needed; destruct (cursor_row s <? VGA_ROWS); reflexivity).
  unfold arch_console_write. induction t as [|c t IH]; intros s; [done|]. cbn [foldl]. rewrite IH.
  unfold arch_console_write_char. destruct (c =? 10); rewrite hw_cursor_sent.
  - by rewrite Hsc.
  - unfold advance_cursor. destruct (VGA_COLS <=? _); cbn; by rewrite ?Hsc; cbn; rewrite ?Hsc.
Qed.

Definition prints (t : list Z) s s' : Prop :=
  view s' = view (arch_console_write t s) ∧ sent (vports s') = sent (vports s) ++ with_cr t.

Lemma prints_nil s : prints [] s s.
Proof using Type. split; [done|]. by rewrite app_nil_r. Qed.

Lemma prints_app t1 t2 s1 s2 s3 : prints t1 s1 s2 → prints t2 s2 s3 → prints (t1 ++ t2) s1 s3.
Proof using Type.
  intros [V1 S1] [V2 S2]. split.
  - unfold arch_console_write in *. rewrite foldl_app, V2. by apply write_view.
  - rewrite S2, S1. unfold with_cr. by rewrite bind_app, app_assoc.
Qed.

Lemma cstr_take m : take (Z.to_nat (strlen m)) m = cstr m.
Proof using Type.
  clear. induction m as [|c m IH]; [done|]. cbn [strlen cstr]. destruct (c =? 0); [done|].
  assert (0 ≤ strlen m) by (clear; induction m as [|x m IHm]; cbn [strlen]; [lia|]; destruct (x =? 0); lia).
  rewrite Z2Nat.inj_add by lia. change (Z.to_nat 1) with 1%nat. cbn [Nat.add take]. by rewrite IH.
Qed.

Lemma put_str_prints m s : prints (cstr m) s (put_str m s).
Proof using Type.
  unfold put_str, on_port, console_write. rewrite cstr_take. split; [done|].
  cbn [vports]. by rewrite serial_write_sent, write_sent.
Qed.

Lemma put_char_prints c s : prints (if c =? 0 then [] else [c]) s (put_char c s).
Proof using Type. pose proof (put_str_prints [c; 0] s) as H. cbn [cstr] in H. by destruct (c =? 0). Qed.

Lemma put_chars_prints t : ∀ s, 0 ∉ t → prints t s (foldl (λ s c, put_char c s) s t).
Proof using Type.
  induction t as [|c t IH]; intros s H0; [apply prints_nil|]. cbn [foldl]. apply not_elem_of_cons in H0 as [Hc H0].
  apply (prints_app [c] t _ (put_char c s)); [|by apply IH].
  pose proof (put_char_prints c s) as H. by rewrite (proj2 (Z.eqb_neq c 0)) in H.
Qed.

Lemma numeral_nonzero base up v t : numeral base up v t → 0 ∉ t.
Proof using Type.
  clear. intros [(ds & H & _) _] Hin. apply list_elem_of_lookup in Hin as [i Hi].
  destruct (Forall2_lookup_l _ _ _ _ _ H Hi) as (d & _ & Hd & Hc). unfold digit_char in Hc. repeat case_if in Hc; lia.
Qed.

Lemma put_uint_prints base up v s : 2 ≤ base → 0 ≤ v < 2 ^ 64 →
  ∃ t, numeral base up v t ∧ prints t s (put_uint_printed v base up 64 s).
Proof using Type.
  intros Hb Hv. pose proof (format_uint_numeral base up v Hb Hv) as Hn. eexists. split; [done|].
  apply put_chars_prints. by eapply numeral_nonzero.
Qed.

(** ** Format strings *)

Definition char_text (c : Z) : list Z := if c =? 0 then [] else [c].

(** The text a conversion stands for, and the arguments it leaves. *)
Inductive conversion : Z → list arg → list Z → list arg → Prop :=
| conv_percent args : conversion 37 args [37] args
| conv_string m args : conversion 115 (AStr m :: args) (cstr (default (chars "(null)") m)) args
| conv_char v args : conversion 99 (AInt v :: args) (char_text (w8 v)) args
| conv_int spec v t args : spec = 100 ∨ spec = 105 → numeral 10 false (Z.abs (s32 v)) t →
    conversion spec (AInt v :: args) ((if s32 v <? 0 then [45] else []) ++ t) args
| conv_unsigned v t args : numeral 10 false (w32 v) t → conversion 117 (AInt v :: args) t args
| conv_hex spec v t args : spec = 120 ∨ spec = 88 → numeral 16 (spec =? 88) (w32 v) t →
    conversion spec (AInt v :: args) t args
| conv_pointer v t args : numeral 16 false (w64 v) t → conversion 112 (APtr v :: args) (chars "0x" ++ t) args
| conv_other spec args : spec ∉ [0; 37; 115; 99; 100; 105; 117; 120; 88; 112] → conversion spec args [37; spec] args.

Inductive renders : list Z → list arg → list Z → Prop :=
| rend_end args : renders [] args []
| rend_nul fmt args : renders (0 :: fmt) args []
| rend_char c fmt args t : c ≠ 0 → c ≠ 37 → renders fmt args t → renders (c :: fmt) args (c :: t)
| rend_conv spec fmt args args' t t' :
    conversion spec args t args' → renders fmt args' t' → renders (37 :: spec :: fmt) args (t ++ t').

Lemma s32_abs v : 0 ≤ Z.abs (s32 v) < 2 ^ 64 ∧ (if s32 v <? 0 then w64 (- s32 v) else w64 (s32 v)) = Z.abs (s32 v).
Proof using Type.
  clear. assert (- 2 ^ 31 ≤ s32 v < 2 ^ 31) by (unfold s32; dlia). split; [lia|].
  destruct (Z.ltb_spec (s32 v) 0); rewrite w64_small; lia.
Qed.

Lemma put_int_prints v s :
  ∃ t, numeral 10 false (Z.abs (s32 v)) t ∧ prints ((if s32 v <? 0 then [45] else []) ++ t) s (put_int (s32 v) 64 s).
Proof using Type.
  destruct (s32_abs v) as [Ha Em]. unfold put_int. rewrite Em. cbv zeta.
  set (s1 := if s32 v <? 0 then put_char 45 s else s).
  destruct (put_uint_prints 10 false _ s1 ltac:(lia) Ha) as (t & Hn & Hp). exists t. split; [done|].
  eapply prints_app; [|done]. subst s1. destruct (s32 v <? 0); [apply (put_char_prints 45)|apply prints_nil].
Qed.

Lemma convert_prints spec args s s' args' : spec ≠ 0 →
  convert spec args s = Some (s', args') → ∃ t, conversion spec args t args' ∧ prints t s s'.
Proof using Type.
  intros H0 H. unfold convert in H.
  destruct (Z.eqb_spec spec 37) as [->|N1].
  { injection H as <- <-. eexists. split; [constructor|]. apply (put_char_prints 37). }
  destruct (Z.eqb_spec spec 115) as [->|N2].
  { destruct args as [|[m| |] args]; try done. injection H as <- <-. eexists. split; [constructor|]. apply put_str_prints. }
  destruct (Z.eqb_spec spec 99) as [->|N3].
  { destruct args as [|[|v|] args]; try done. injection H as <- <-. eexists. split; [constructor|]. apply put_char_prints. }
  destruct ((spec =? 100) || (spec =? 105)) eqn:E4.
  { destruct args as [|[|v|] args]; try done. injection H as <- <-. destruct (put_int_prints v s) as (t & Hn & Hp).
    eexists. split; [|done]. constructor; [|done]. apply orb_true_iff in E4 as [?|?]; [left|right]; lia. }
  destruct (Z.eqb_spec spec 117) as [->|N5].
  { destruct args as [|[|v|] args]; try done. injection H as <- <-. pose proof (w32_range v).
    destruct (put_uint_prints 10 false (w32 v) s) as (t & Hn & Hp); [lia|lia|]. exists t. split; [by constructor|done]. }
  destruct ((spec =? 120) || (spec =? 88)) eqn:E6.
  { destruct args as [|[|v|] args]; try done. injection H as <- <-. pose proof (w32_range v).
    destruct (put_uint_prints 16 (spec =? 88) (w32 v) s) as (t & Hn & Hp); [lia|lia|]. exists t. split; [|done].
    constructor; [|done]. apply orb_true_iff in E6 as [?|?]; [left|right]; lia. }
  destruct (Z.eqb_spec spec 112) as [->|N7].
  { destruct args as [|[| |v] args]; try done. injection H as <- <-. pose proof (w64_range v).
    destruct (put_uint_prints 16 false (w64 v) (put_str (chars "0x") s)) as (t & Hn & Hp); [lia|lia|].
    eexists. split; [by constructor|]. eapply prints_app; [|done]. apply (put_str_prints (chars "0x")). }
  injection H as <- <-. apply orb_false_iff in E4 as [? ?], E6 as [? ?]. exists [37; spec]. split.
  - constructor. bsimp. rewrite !not_elem_of_cons. split_and!; [done..|apply not_elem_of_nil].
  - apply (prints_app [37] [spec] _ (put_char 37 s)); [apply (put_char_prints 37)|].
    pose proof (put_char_prints spec (put_char 37 s)) as Hp. by rewrite (proj2 (Z.eqb_neq spec 0) H0) in Hp.
Qed.

(** A conversion that has a text is printed. *)
Lemma convert_total spec args t args' s :
  conversion spec args t args' → spec ≠ 0 ∧ ∃ s', convert spec args s = Some (s', args').
Proof using Type.
  destruct 1 as [args|m args|v args|spec v t args Hs _|v t args _|spec v t args Hs _|v t args _|spec args Hs].
  1-3: split; [done|]; by eexists.
  - split; [lia|]. destruct Hs as [->| ->]; by eexists.
  - split; [done|]. by eexists.
  - split; [lia|]. destruct Hs as [->| ->]; by eexists.
  - split; [done|]. by eexists.
  - rewrite !not_elem_of_cons in Hs. destruct Hs as (? & ? & ? & ? & ? & ? & ? & ? & ? & ? & _). split; [done|].
    unfold convert. rewrite !(proj2 (Z.eqb_neq spec _)) by done. by eexists.
Qed.

Lemma print_loop_spec n : ∀ fmt args s, (length fmt ≤ n)%nat →
  match print_loop fmt args s with
  | Some s' => ∃ t, renders fmt args t ∧ prints t s s'
  | None => ∀ t, ¬ renders fmt args t
  end.
Proof using Type.
  induction n as [|n IH]; intros fmt args s Hl.
  { destruct fmt; [|simpl in Hl; lia]. cbn. exists []. split; [constructor|apply prints_nil]. }
  destruct fmt as [|c fmt]; cbn [print_loop].
  { exists []. split; [constructor|apply prints_nil]. }
  destruct (Z.eqb_spec c 0) as [->|Hc0]; [exists []; split; [constructor|apply prints_nil]|].
  destruct (Z.eqb_spec c 37) as [->|Hc]; cbn [negb].
  - destruct fmt as [|spec fmt]; [by intros t; inversion 1|].
    destruct (Z.eqb_spec spec 0) as [->|Hs0].
    { intros t Hr. inversion Hr; subst; [done|].
      match goal with H : conversion 0 _ _ _ |- _ => by destruct (convert_total _ _ _ _ s H) end. }
    destruct (convert spec args s) as [[s1 args1]|] eqn:Ec; cbn [mbind option_bind].
    + destruct (convert_prints spec args s s1 args1 Hs0 Ec) as (t1 & Hc1 & Hp1).
      specialize (IH fmt args1 s1 ltac:(simpl in Hl; lia)). destruct (print_loop fmt args1 s1) as [s2|].
      * destruct IH as (t2 & Hr2 & Hp2). exists (t1 ++ t2). split; [by econstructor|by eapply prints_app].
      * intros t Hr. inversion Hr; subst; [done|].
        match goal with H : conversion _ _ _ _, R : renders fmt _ _ |- _ =>
          destruct (convert_total _ _ _ _ s H) as (_ & s3 & E3); rewrite Ec in E3; simplify_eq; by apply (IH _ R) end.
    + intros t Hr. inversion Hr; subst; [done|].
      match goal with H : conversion _ _ _ _ |- _ => destruct (convert_total _ _ _ _ s H) as (_ & s3 & E3) end. congruence.
  - specialize (IH fmt args (put_char c s) ltac:(simpl in Hl; lia)).
    destruct (print_loop fmt args (put_char c s)) as [s2|].
    + destruct IH as (t & Hr & Hp). exists (c :: t). split; [by constructor|].
      apply (prints_app [c] t _ (put_char c s)); [|done].
      pose proof (put_char_prints c s) as H. by rewrite (proj2 (Z.eqb_neq c 0) Hc0) in H.
    + intros t Hr. inversion Hr; subst; try done. by eapply IH.
Qed.

(** C35: [kvprintf] prints what its format says.  If the arguments fit the
    format it puts a text on the screen, and the same text with a carriage
    return before each line feed on the serial port, in which every conversion
    stands for its argument: strings as they are, numbers as the numeral with
    that value and without leading zeros, of the base of the conversion.  It
    gives back its number buffer, and can only panic while allocating it. *)
Theorem kvprintf_spec {H} `{!Allocator H} {AL : AllocatorLaws H} ready fmt args s (h : H) O :
  al_live h O → al_room h 64 16 →
  match kvprintf ready fmt args s h with
  | Panic msg code => ready = true ∧ al_alloc h 64 16 = Panic msg code
  | Ret (o, h') =>
      al_live h' O ∧
      match o with
      | Some s' => ∃ t, renders fmt args t ∧ prints t s s'
      | None => ∀ t, ¬ renders fmt args t
      end
  end.
Proof using Type.
  intros Hl Hroom. unfold kvprintf.
  pose proof (print_loop_spec (length fmt) fmt args s ltac:(lia)) as Hp.
  destruct ready.
  - destruct (al_alloc h 64 16) as [[p h1]|msg code] eqn:Ea; [|done]. cbn [mbind result_bind].
    destruct (al_alloc_fresh h h1 O 64 16 p Hl ltac:(lia) Hroom Ea) as (_ & Hp0 & Hl1).
    rewrite (proj2 (Z.eqb_neq p 0) Hp0). cbn [negb]. destruct (al_free_live h1 O p Hl1) as (h2 & -> & Hl2). done.
  - done.
Qed.

(** ** The log and the panic screen *)

Lemma console_write_text m s : console_write m s = arch_console_write (cstr m) s.
Proof using Type. unfold console_write. by rewrite cstr_take. Qed.

Lemma on_port_view f s : view (on_port f s) = view s.
Proof using Type. done. Qed.

Lemma on_serial_sent m s : sent (vports (on_port (serial_write m) s)) = sent (vports s) ++ with_cr (cstr m).
Proof using Type. cbn. by rewrite serial_write_sent. Qed.

Lemma set_color_sent c s : sent (vports (console_set_color c s)) = sent (vports s).
Proof using Type. done. Qed.

Lemma write_app t1 t2 s : arch_console_write (t1 ++ t2) s = arch_console_write t2 (arch_console_write t1 s).
Proof using Type. unfold arch_console_write. by rewrite foldl_app. Qed.

(** A message below the current level changes nothing; any other goes to the
    serial port as one line behind its prefix, and to the screen in the default
    color behind the prefix in the color of its level. *)
Theorem log_emit_spec g level msg s :
  if level_num level <? level_num (current_level g) then log_emit g level msg s = s
  else
    sent (vports (log_emit g level msg s)) = sent (vports s) ++ with_cr (prefix_text level ++ cstr msg ++ [10]) ∧
    view (log_emit g level msg s) =
      view (arch_console_write (cstr msg ++ [10])
        (arch_console_set_color (default_color (current_colors g))
          (arch_console_write (prefix_text level) (arch_console_set_color (prefix_color g level) s)))).
Proof using Type.
  assert (cstr (prefix_text level) = prefix_text level) as Ep by (by destruct level).
  unfold log_emit. destruct (_ <? _); [done|]. cbv zeta. unfold write_prefix, raw_serial_write.
  change (negb (arch_log_should_mirror_to_serial =? 0)) with true. cbv iota zeta. rewrite !console_write_text, Ep. split.
  - rewrite !on_serial_sent, !write_sent, set_color_sent, on_serial_sent, write_sent, set_color_sent, Ep.
    unfold with_cr. by rewrite !bind_app, <- !app_assoc.
  - rewrite !on_port_view, write_app. apply write_view, write_view. done.
Qed.

Lemma view_buf s s' : view s = view s' → buf s = buf s'.
Proof using Type. unfold view. congruence. Qed.

Lemma clear_color c s : current_color (console_clear c s) = c.
Proof using Type. done. Qed.

Lemma write_on_port t f s : view (arch_console_write t (on_port f s)) = view (arch_console_write t s).
Proof using Type. by apply write_view. Qed.

(** The last thing on the screen: message, code and the announcement, white on
    red. *)
Theorem panic_screen message code s : length (buf s) = 2000%nat →
  buf (panic message code s) = shown 0x4F (layout
    (chars "KERNEL PANIC" ++ [10] ++ cstr message ++ [10] ++ chars "CODE: " ++ hex_text code ++
     [10] ++ chars "Rebooting..." ++ [10])).
Proof using Type.
  intros Hl.
  set (s0 := console_clear 0x4F (console_set_color 0x4F (on_port serial_init s))).
  assert (shows s0 ([], [])) as Hs by (by apply clear_shows).
  apply (write_shows (chars "KERNEL PANIC" ++ [10] ++ cstr message ++ [10] ++ chars "CODE: " ++ hex_text code ++
     [10] ++ chars "Rebooting..." ++ [10])) in Hs. fold (layout
    (chars "KERNEL PANIC" ++ [10] ++ cstr message ++ [10] ++ chars "CODE: " ++ hex_text code ++
     [10] ++ chars "Rebooting..." ++ [10])) in Hs. set (t := chars "KERNEL PANIC" ++ _) in *.
  assert (view (panic message code s) = view (arch_console_write t s0)) as Hv.
  { unfold panic. cbv zeta. fold s0. rewrite !on_port_view, !console_write_text.
    unfold console_write_hex. rewrite !write_on_port, <- !write_app. done. }
  destruct Hs as [Hb _ _ _ _]. assert (current_color s0 = 0x4F) as Ec by apply clear_color.
  rewrite write_color, Ec in Hb. rewrite (view_buf _ _ Hv). exact Hb.
Qed.
End Out.
End SerialSpec.
