(* ===== verification/Spinlock.v ===== *)
(** * Spin locks (src/kernel/spinlock.c)

    First the calls as one processor makes them, where spinning on a lock that
    is taken never ends; then the accesses to memory as steps of any number of
    processors in any order. *)

From S2P Require Import Prelude.
From stdpp Require Import options.

Module Spinlock.

(** [lock] and [flags]; the saved register matters for its interrupt flag
    (bit 9). *)
Record spinlock_t := mk_spinlock { lock : bool; flags : Z }.

Definition IF_BIT : Z := 0x200.

(** [arch_irq_save] and [arch_irq_restore] (arch/processor.h) on RFLAGS. *)
Definition arch_irq_save (rflags : Z) : Z * Z := (rflags, Z.land rflags (not64 IF_BIT)).
Definition arch_irq_restore (fl rflags : Z) : Z :=
  if negb (Z.land fl IF_BIT =? 0) then Z.lor rflags IF_BIT else rflags.

Definition spinlock_init : spinlock_t := mk_spinlock false 0.

Definition spinlock_acquire (l : spinlock_t) : outcome spinlock_t :=
  if lock l then Spinning else Done (mk_spinlock true (flags l)).

Definition spinlock_release (l : spinlock_t) : spinlock_t := mk_spinlock false (flags l).

(** The lock and RFLAGS. *)
Definition spinlock_acquire_irqsave (l : spinlock_t) (rflags : Z) : outcome (spinlock_t * Z) :=
  let '(fl, rflags) := arch_irq_save rflags in
  let l := mk_spinlock (lock l) fl in
  if lock l then Spinning else Done (mk_spinlock true (flags l), rflags).

Definition spinlock_release_irqrestore (l : spinlock_t) (rflags : Z) : spinlock_t * Z :=
  let fl := flags l in
  (mk_spinlock false (flags l), arch_irq_restore fl rflags).

(** On one processor the pair of calls leaves the lock free and RFLAGS as it
    was, and in between interrupts are off. *)
Theorem irqsave_roundtrip l rflags :
  0 ≤ rflags < 2 ^ 64 → lock l = false →
  ∃ l' rflags', spinlock_acquire_irqsave l rflags = Done (l', rflags') ∧ lock l' = true ∧
    Z.testbit rflags' 9 = false ∧
    (spinlock_release_irqrestore l' rflags').2 = rflags ∧ lock (spinlock_release_irqrestore l' rflags').1 = false.
Proof.
  intros Hr Hl. unfold spinlock_acquire_irqsave, arch_irq_save. cbn [lock flags]. rewrite Hl.
  eexists _, _. split; [done|]. split; [done|].
  assert (∀ i, 0 ≤ i → Z.testbit (Z.land rflags (not64 IF_BIT)) i = Z.testbit rflags i && negb (i =? 9)) as Hb.
  { intros i Hi. rewrite Z.land_spec. unfold not64, w64. destruct (Z.ltb_spec i 64) as [H64|H64].
    - rewrite Z.mod_pow2_bits_low, Z.lnot_spec by lia. f_equal. change IF_BIT with (2 ^ 9). rewrite Z.pow2_bits_eqb by lia.
      by rewrite Z.eqb_sym.
    - rewrite (Z.bits_above_log2 rflags); [done|lia|]. destruct (decide (rflags = 0)) as [->|]; [simpl; lia|].
      apply Z.log2_lt_pow2; [lia|]. assert (2 ^ 64 ≤ 2 ^ i) by (apply Z.pow_le_mono_r; lia). lia. }
  split; [by rewrite Hb by lia; rewrite andb_false_r|]. split; [|done]. cbn [spinlock_release_irqrestore flags snd]. unfold arch_irq_restore.
  apply Z.bits_inj'. intros i Hi. change IF_BIT with (2 ^ 9) in *.
  assert ((Z.land rflags (2 ^ 9) =? 0) = negb (Z.testbit rflags 9)) as ->.
  { destruct (Z.testbit rflags 9) eqn:E; cbn [negb].
    - apply Z.eqb_neq. intros H. assert (Z.testbit (Z.land rflags (2 ^ 9)) 9 = false) as H' by (by rewrite H).
      rewrite Z.land_spec, E, Z.pow2_bits_true in H' by lia. done.
    - apply Z.eqb_eq, Z.bits_inj'. intros j Hj. rewrite Z.land_spec, Z.pow2_bits_eqb, Z.bits_0 by lia.
      destruct (Z.eqb_spec 9 j) as [<-|]; [by rewrite E|by rewrite andb_false_r]. }
  destruct (Z.testbit rflags 9) eqn:E; cbn [negb].
  - rewrite Z.lor_spec, Hb, Z.pow2_bits_eqb by lia. destruct (Z.eqb_spec i 9) as [->|].
    + by rewrite E, andb_false_r.
    + rewrite (proj2 (Z.eqb_neq 9 i)) by lia. cbn. by rewrite andb_true_r, orb_false_r.
  - rewrite Hb by lia. destruct (Z.eqb_spec i 9) as [->|]; [by rewrite E|by rewrite andb_true_r].
Qed.

(** ** Many processors *)

(** Where a processor is in [spinlock_acquire_irqsave] and
    [spinlock_release_irqrestore], with the flags it holds in a register. *)
Inductive pc :=
| Outside
| Saved (fl : bool)
| Trying
| Inside
| Loaded (fl : bool)
| Cleared (fl : bool).

(** Its position and whether interrupts are enabled. *)
Record cpu := mk_cpu { at_ : pc; irq_on : bool }.

Record machine := mk_machine { lock_word : bool; saved_flags : bool; cpus : list cpu }.

Definition set_cpu (m : machine) (i : nat) (c : cpu) : machine :=
  mk_machine (lock_word m) (saved_flags m) (<[i := c]> (cpus m)).

(** One access of processor [i]. *)
Definition cpu_step (m : machine) (i : nat) : machine :=
  match cpus m !! i with
  | None => m
  | Some c =>
      match at_ c with
      | Outside => set_cpu m i (mk_cpu (Saved (irq_on c)) false)
      | Saved fl => set_cpu (mk_machine (lock_word m) fl (cpus m)) i (mk_cpu Trying (irq_on c))
      | Trying =>
          if lock_word m then m
          else set_cpu (mk_machine true (saved_flags m) (cpus m)) i (mk_cpu Inside (irq_on c))
      | Inside => set_cpu m i (mk_cpu (Loaded (saved_flags m)) (irq_on c))
      | Loaded fl => set_cpu (mk_machine false (saved_flags m) (cpus m)) i (mk_cpu (Cleared fl) (irq_on c))
      | Cleared fl => set_cpu m i (mk_cpu Outside (fl || irq_on c))
      end
  end.

(** The processors named by a schedule take their steps in turn. *)
Definition run (m : machine) (schedule : list nat) : machine := foldl cpu_step m schedule.

(** All processors outside, each with its interrupts on or off. *)
Definition start (irqs : list bool) : machine := mk_machine false false (mk_cpu Outside <$> irqs).

Definition critical (c : cpu) : Prop :=
  match at_ c with Inside | Loaded _ => True | _ => False end.

Record lock_inv (m : machine) : Prop := {
  li_one : ∀ i j c d, cpus m !! i = Some c → cpus m !! j = Some d → critical c → critical d → i = j;
  li_word : lock_word m = true ↔ ∃ i c, cpus m !! i = Some c ∧ critical c;
  li_irq : ∀ i c, cpus m !! i = Some c → at_ c ≠ Outside → irq_on c = false;
}.

(** Replacing a processor by one that is critical only if it was. *)
Lemma lock_inv_set m i c d fl :
  lock_inv m → cpus m !! i = Some c → (critical c ↔ critical d) → (at_ d ≠ Outside → irq_on d = false) →
  lock_inv (set_cpu (mk_machine (lock_word m) fl (cpus m)) i d).
Proof.
  intros [H1 H2 H3] Hi Hcd Hd. assert ((i < length (cpus m))%nat) as Hlt by (by eapply lookup_lt_Some).
  assert (∀ j x, <[i := d]> (cpus m) !! j = Some x → ∃ y, cpus m !! j = Some y ∧ (critical y ↔ critical x)) as Hback.
  { intros j x Hx. destruct (decide (j = i)) as [->|Hne].
    - rewrite list_lookup_insert_eq in Hx by done. injection Hx as <-. by exists c.
    - rewrite list_lookup_insert_ne in Hx by done. by exists x. }
  split; cbn [cpus set_cpu lock_word].
  - intros j k x y Hx Hy Cx Cy. destruct (Hback j x Hx) as (x' & Hx' & E1), (Hback k y Hy) as (y' & Hy' & E2).
    eapply H1; [exact Hx'|exact Hy'|by apply E1|by apply E2].
  - rewrite H2. split.
    + intros (j & x & Hx & Cx). destruct (decide (j = i)) as [->|Hne].
      * exists i, d. rewrite list_lookup_insert_eq by done. split; [done|]. apply Hcd. by simplify_eq.
      * exists j, x. by rewrite list_lookup_insert_ne.
    + intros (j & x & Hx & Cx). destruct (Hback j x Hx) as (y & Hy & E). exists j, y. split; [done|by apply E].
  - intros j x Hx Hout. destruct (decide (j = i)) as [->|Hne].
    + rewrite list_lookup_insert_eq in Hx by done. injection Hx as <-. by apply Hd.
    + rewrite list_lookup_insert_ne in Hx by done. by eapply H3.
Qed.

Lemma lock_inv_enter m i c :
  lock_inv m → cpus m !! i = Some c → lock_word m = false → irq_on c = false →
  lock_inv (set_cpu (mk_machine true (saved_flags m) (cpus m)) i (mk_cpu Inside (irq_on c))).
Proof.
  intros [H1 H2 H3] Hi Hw Hc. assert ((i < length (cpus m))%nat) as Hlt by (by eapply lookup_lt_Some).
  assert (∀ j x, cpus m !! j = Some x → ¬ critical x) as Hnone.
  { intros j x Hx Cx. assert (lock_word m = true) by (apply H2; by exists j, x). congruence. }
  split; cbn [cpus set_cpu lock_word].
  - intros j k x y Hx Hy Cx Cy. apply list_lookup_insert_Some in Hx as [(? & _)|[_ Hx]]; [|by destruct (Hnone j x)].
    apply list_lookup_insert_Some in Hy as [(? & _)|[_ Hy]]; [|by destruct (Hnone k y)]. congruence.
  - split; [|done]. intros _. exists i, (mk_cpu Inside (irq_on c)). by rewrite list_lookup_insert_eq.
  - intros j x Hx Hout. apply list_lookup_insert_Some in Hx as [(_ & <- & _)|[_ Hx]]; [done|by eapply H3].
Qed.

Lemma lock_inv_leave m i c fl :
  lock_inv m → cpus m !! i = Some c → critical c → irq_on c = false →
  lock_inv (set_cpu (mk_machine false (saved_flags m) (cpus m)) i (mk_cpu (Cleared fl) (irq_on c))).
Proof.
  intros [H1 H2 H3] Hi Cc Hc.
  assert (∀ j x, <[i := mk_cpu (Cleared fl) (irq_on c)]> (cpus m) !! j = Some x → ¬ critical x) as Hnone.
  { intros j x Hx Cx. apply list_lookup_insert_Some in Hx as [(_ & <- & _)|[Hne Hx]]; [done|].
    by destruct Hne; eapply H1. }
  split; cbn [cpus set_cpu lock_word].
  - intros j k x y Hx Hy Cx Cy. by destruct (Hnone j x).
  - split; [done|]. intros (j & x & Hx & Cx). by destruct (Hnone j x).
  - intros j x Hx Hout. apply list_lookup_insert_Some in Hx as [(_ & <- & _)|[_ Hx]]; [done|by eapply H3].
Qed.

Lemma step_inv m i : lock_inv m → lock_inv (cpu_step m i).
Proof.
  intros Hm. unfold cpu_step. destruct (cpus m !! i) as [c|] eqn:Hi; [|done].
  assert (∀ P, at_ c = P → P ≠ Outside → irq_on c = false) as Hirq by (intros P <-; by apply (li_irq _ Hm i)).
  destruct (at_ c) as [|fl| | |fl|fl] eqn:Hat.
  - apply (lock_inv_set m i c _ (saved_flags m) Hm Hi); [|done]. unfold critical. by rewrite Hat.
  - apply (lock_inv_set m i c _ fl Hm Hi); [|intros _; by apply (Hirq (Saved fl))].
    unfold critical. by rewrite Hat.
  - destruct (lock_word m) eqn:Hw; [done|]. apply lock_inv_enter; [done..|]. by apply (Hirq Trying).
  - apply (lock_inv_set m i c _ (saved_flags m) Hm Hi); [|intros _; by apply (Hirq Inside)].
    unfold critical. by rewrite Hat.
  - apply lock_inv_leave; [done..| |by apply (Hirq (Loaded fl))]. unfold critical. by rewrite Hat.
  - apply (lock_inv_set m i c _ (saved_flags m) Hm Hi); [|done]. unfold critical. by rewrite Hat.
Qed.

Lemma run_inv schedule m : lock_inv m → lock_inv (run m schedule).
Proof. revert m. induction schedule as [|i l IH]; intros m Hm; [done|]. by apply IH, step_inv. Qed.

Lemma start_inv irqs : lock_inv (start irqs).
Proof.
  assert (∀ i c, cpus (start irqs) !! i = Some c → at_ c = Outside) as Hout.
  { intros i c. unfold start. cbn [cpus]. rewrite list_lookup_fmap. destruct (irqs !! i); [|done]. by intros [= <-]. }
  split.
  - intros i j c d Hc _ Cc. unfold critical in Cc. by rewrite (Hout i c Hc) in Cc.
  - split; [done|]. intros (i & c & Hc & Cc). unfold critical in Cc. by rewrite (Hout i c Hc) in Cc.
  - intros i c Hc Hne. by rewrite (Hout i c Hc) in Hne.
Qed.

(** C15: the lock excludes.  However many processors use it, and in whatever
    order their accesses to memory are interleaved, at most one of them is
    between [spinlock_acquire_irqsave] and [spinlock_release_irqrestore]; the
    lock word says whether there is one; and no processor waits for the lock or
    holds it with its interrupts enabled, so that no handler can spin on a lock
    its own processor holds. *)
Theorem spinlock_mutex irqs schedule :
  let m := run (start irqs) schedule in
  (∀ i j c d, cpus m !! i = Some c → cpus m !! j = Some d → critical c → critical d → i = j) ∧
  (lock_word m = true ↔ ∃ i c, cpus m !! i = Some c ∧ critical c) ∧
  (∀ i c, cpus m !! i = Some c → at_ c ≠ Outside → irq_on c = false).
Proof. intros m. destruct (run_inv schedule _ (start_inv irqs)) as [H1 H2 H3]. split_and!; done. Qed.

(** A processor that tries a free lock has it one access later. *)
Theorem free_lock_taken m i c :
  cpus m !! i = Some c → at_ c = Trying → lock_word m = false →
  ∃ d, cpus (cpu_step m i) !! i = Some d ∧ at_ d = Inside.
Proof.
  intros Hi Ht Hw. unfold cpu_step. rewrite Hi, Ht, Hw. cbn [cpus set_cpu]. eexists.
  rewrite list_lookup_insert_eq by (by eapply lookup_lt_Some). done.
Qed.

(** [flags] is written before the lock is taken.  With two processors the one
    that enters second overwrites the flags of the one inside: processor 0,
    which had interrupts enabled, leaves its critical section with interrupts
    off, processor 1 having called with interrupts off. *)
Theorem saved_flags_overwritten :
  let m := run (start [true; false]) [0; 0; 0; 1; 1; 0; 0; 0]%nat in
  cpus (start [true; false]) !! 0%nat = Some (mk_cpu Outside true) ∧
  cpus m !! 0%nat = Some (mk_cpu Outside false).
Proof. by vm_compute. Qed.
End Spinlock.
