(* ===== verification/Devices.v ===== *)
(** * The timer, the interrupt controllers and the discovery of devices

    src/kernel/timer.c, src/kernel/arch/x86_64/pic.c and pit.c,
    src/kernel/pci.c and src/kernel/acpi.c.  What the devices do with the
    values written to their ports is a class with the documented behaviour as
    its laws. *)

From S2P Require Import Prelude Memory CString Bytes Pmm PmmInit Memfs User BootMem Alloc Sched Ata Console Serial.
From stdpp Require Import options.
Import CString User BootMem Sched Console Serial.

(** ** The timer *)

Module Timer.

Definition MAX_TIMER_CALLBACKS : nat := 8.

(** A callback with its [user] pointer is a function on the state [U] of the
    parts that register callbacks. *)
Definition callback (U : Type) : Type := Z → U → U.

Record timer (U : Type) := mk_timer { callbacks : list (option (callback U)); timer_ticks : Z }.
Arguments mk_timer {_} _ _.
Arguments callbacks {_} _.
Arguments timer_ticks {_} _.

Definition timer_boot {U} : timer U := mk_timer (replicate MAX_TIMER_CALLBACKS None) 0.

Section Timer.
Context {U : Type}.
Implicit Types t : timer U.

Definition call_back (ticks : Z) (u : U) (c : option (callback U)) : U :=
  match c with Some cb => cb ticks u | None => u end.

Definition timer_on_tick {H T} t (s : sched H T) (u : U) : timer U * sched H T * U :=
  let ticks := w64 (timer_ticks t + 1) in
  let s := sched_on_tick s in
  (mk_timer (callbacks t) ticks, s, foldl (call_back ticks) u (callbacks t)).

(** The first empty slot. *)
Fixpoint put_callback (cb : callback U) (cs : list (option (callback U))) : option (list (option (callback U))) :=
  match cs with
  | [] => None
  | None :: cs' => Some (Some cb :: cs')
  | Some c :: cs' => match put_callback cb cs' with Some l => Some (Some c :: l) | None => None end
  end.

(** [None] for a null pointer. *)
Definition timer_register_callback (cb : option (callback U)) t : Z * timer U :=
  match cb with
  | None => (-1, t)
  | Some cb =>
      match put_callback cb (callbacks t) with
      | Some cs => (0, mk_timer cs (timer_ticks t))
      | None => (-1, t)
      end
  end.

Definition timer_get_ticks t : Z := timer_ticks t.

(** ** What is called *)

Definition registered t (cbs : list (callback U)) : Prop :=
  (length cbs ≤ MAX_TIMER_CALLBACKS)%nat ∧
  callbacks t = (Some <$> cbs) ++ replicate (MAX_TIMER_CALLBACKS - length cbs) None.

Lemma put_callback_spec cb cbs n :
  put_callback cb ((Some <$> cbs) ++ replicate n None) =
    match n with O => None | S n' => Some ((Some <$> (cbs ++ [cb])) ++ replicate n' None) end.
Proof.
  induction cbs as [|c cbs IH]; cbn [fmap list_fmap app put_callback]; [by destruct n|].
  rewrite IH. by destruct n.
Qed.

(** Up to eight callbacks can be registered; the next one is refused. *)
Lemma register_spec cb t cbs : registered t cbs →
  if decide (length cbs < MAX_TIMER_CALLBACKS)%nat
  then ∃ t', timer_register_callback (Some cb) t = (0, t') ∧ registered t' (cbs ++ [cb]) ∧ timer_ticks t' = timer_ticks t
  else timer_register_callback (Some cb) t = (-1, t).
Proof.
  intros [Hl Hc]. unfold timer_register_callback. rewrite Hc, put_callback_spec. case_decide.
  - destruct (MAX_TIMER_CALLBACKS - length cbs)%nat as [|n] eqn:E; [lia|]. eexists. split; [done|]. split; [|done].
    split; [rewrite length_app; cbn; lia|]. cbn [callbacks]. rewrite length_app. do 2 f_equal. cbn [length]. lia.
  - by replace (MAX_TIMER_CALLBACKS - length cbs)%nat with 0%nat by lia.
Qed.

Lemma foldl_none ticks (u : U) n : foldl (call_back ticks) u (replicate n None) = u.
Proof. induction n as [|n IH]; [done|]. apply IH. Qed.

Lemma foldl_some ticks (u : U) cbs : foldl (call_back ticks) u (Some <$> cbs) = foldl (λ u cb, cb ticks u) u cbs.
Proof. revert u. induction cbs as [|c cbs IH]; intros u; [done|]. apply IH. Qed.

(** A tick advances the clock and the scheduler and calls every registered
    callback once, in the order of registration, with the new time. *)
Theorem timer_tick_spec {H T} t cbs (s : sched H T) u : registered t cbs →
  let '(t', s', u') := timer_on_tick t s u in
  registered t' cbs ∧ timer_ticks t' = w64 (timer_ticks t + 1) ∧ s' = sched_on_tick s ∧
  u' = foldl (λ u cb, cb (timer_ticks t') u) u cbs.
Proof.
  intros [Hl Hc]. cbn. split_and!; [by split|done|done|]. by rewrite Hc, foldl_app, foldl_none, foldl_some.
Qed.
End Timer.

(** ** The heartbeat of kernel.c *)

Record heartbeat_state := mk_heartbeat { next_tick : Z; interval : Z }.

(** The new state and the tick that is logged. *)
Definition heartbeat_cb (ticks : Z) (st : option heartbeat_state) : option heartbeat_state * option Z :=
  match st with
  | None => (None, None)
  | Some st =>
      if interval st =? 0 then (Some st, None)
      else if ticks <? next_tick st then (Some st, None)
      else (Some (mk_heartbeat (w64 (ticks + interval st)) (interval st)), Some ticks)
  end.

(** The callback as kernel.c registers it; the log collects the ticks. *)
Definition heartbeat (ticks : Z) (u : heartbeat_state * list Z) : heartbeat_state * list Z :=
  match heartbeat_cb ticks (Some (fst u)) with
  | (Some st, Some v) => (st, snd u ++ [v])
  | (Some st, None) => (st, snd u)
  | (None, _) => u
  end.

(** Ticks 1 to [n]. *)
Definition beats (n : nat) : heartbeat_state * list Z :=
  foldl (λ u k, heartbeat (Z.of_nat k) u) (mk_heartbeat 100 100, []) (seq 1 n).

(** With the values of kernel.c there is a beat at every hundredth tick, and at
    no other. *)
Theorem heartbeat_regular n : Z.of_nat n + 200 < 2 ^ 64 →
  beats n = (mk_heartbeat (100 * (Z.of_nat n / 100) + 100) 100,
             (λ k, 100 * k) <$> seqZ 1 (Z.of_nat n / 100)).
Proof.
  induction n as [|n IH]; intros Hn; [done|]. unfold beats in *. rewrite seq_S, foldl_app, IH by lia. cbn [foldl].
  unfold heartbeat, heartbeat_cb. cbn [fst snd interval next_tick]. change (1 + n)%nat with (S n).
  change (100 =? 0) with false. cbv iota. destruct (Z.ltb_spec (Z.of_nat (S n)) (100 * (Z.of_nat n / 100) + 100)) as [H|H].
  - replace (Z.of_nat (S n) / 100) with (Z.of_nat n / 100) by dlia. done.
  - assert (Z.of_nat (S n) / 100 = Z.of_nat n / 100 + 1) as E by dlia.
    assert (Z.of_nat (S n) = 100 * (Z.of_nat n / 100 + 1)) as E' by dlia. rewrite E. f_equal.
    + f_equal. rewrite w64_small by lia. lia.
    + rewrite (seqZ_app 1 (Z.of_nat n / 100) 1) by dlia. rewrite fmap_app. f_equal.
      rewrite (seqZ_cons (1 + _) 1), seqZ_nil by lia. cbn [fmap list_fmap]. f_equal. lia.
Qed.
End Timer.

(** ** The interrupt controllers *)

(** A pair of 8259A controllers, the slave being [true]: the interrupt mask,
    the vector of the first line, how many initialisation words are to come,
    and how often an end of interrupt was signalled. *)
Definition cmd_port (b : bool) : Z := if b then 0xA0 else 0x20.
Definition data_port (b : bool) : Z := if b then 0xA1 else 0x21.
Definition pic_port (port : Z) : Prop := ∃ b, port = cmd_port b ∨ port = data_port b.

Record chip := mk_chip { imr : Z; first_vector : Z; pending : nat; eois : nat }.

Class Pic8259 (P : Type) `{!Ports P} := {
  pic : bool → P → chip;
  pic_read (p : P) (b : bool) : (inb p (data_port b)).1 = imr (pic b p);
  pic_read_keeps (p : P) (port : Z) (b : bool) : pic b (inb p port).2 = pic b p;
  (* initialisation clears the mask and expects three words *)
  pic_icw1 (p : P) (b : bool) : pic b (outb p (cmd_port b) 0x11) = mk_chip 0 (first_vector (pic b p)) 3 (eois (pic b p));
  pic_eoi (p : P) (b : bool) :
    pic b (outb p (cmd_port b) 0x20) =
      mk_chip (imr (pic b p)) (first_vector (pic b p)) (pending (pic b p)) (S (eois (pic b p)));
  pic_data (p : P) (b : bool) (v : Z) :
    pic b (outb p (data_port b) v) =
      match pending (pic b p) with
      | O => mk_chip v (first_vector (pic b p)) 0 (eois (pic b p))
      | S n => mk_chip (imr (pic b p)) (if (n =? 2)%nat then v else first_vector (pic b p)) n (eois (pic b p))
      end;
  pic_other (p : P) (b : bool) (port v : Z) :
    port ≠ cmd_port b → port ≠ data_port b → pic b (outb p port v) = pic b p;
}.

Module Pic.

Definition PIC1_CMD : Z := 0x20.
Definition PIC1_DATA : Z := 0x21.
Definition PIC2_CMD : Z := 0xA0.
Definition PIC2_DATA : Z := 0xA1.
Definition PIC_EOI : Z := 0x20.

Section Pic.
Context {P : Type} `{!Ports P}.
Implicit Types (p : P) (s : vga P).

Definition remap_ports (offset1 offset2 : Z) p : P :=
  let '(mask1, p) := inb p PIC1_DATA in
  let '(mask2, p) := inb p PIC2_DATA in
  let p := outb p PIC1_CMD 0x11 in
  let p := outb p PIC2_CMD 0x11 in
  let p := outb p PIC1_DATA offset1 in
  let p := outb p PIC2_DATA offset2 in
  let p := outb p PIC1_DATA 0x04 in
  let p := outb p PIC2_DATA 0x02 in
  let p := outb p PIC1_DATA 0x01 in
  let p := outb p PIC2_DATA 0x01 in
  let p := outb p PIC1_DATA mask1 in
  outb p PIC2_DATA mask2.

Definition pic_remap (g : log) (offset1 offset2 : Z) s : vga P :=
  log_info g (chars "PIC remapped") (on_port (remap_ports offset1 offset2) s).

Definition pic_enable_irq (irq : Z) p : P :=
  let port := if irq <? 8 then PIC1_DATA else PIC2_DATA in
  let '(v, p) := inb p port in
  outb p port (w8 (Z.land v (Z.lnot (Z.shiftl 1 (Z.land irq 7))))).

Definition pic_disable_irq (irq : Z) p : P :=
  let port := if irq <? 8 then PIC1_DATA else PIC2_DATA in
  let '(v, p) := inb p port in
  outb p port (w8 (Z.lor v (Z.shiftl 1 (Z.land irq 7)))).

Definition pic_send_eoi (irq : Z) p : P :=
  let p := if 8 <=? irq then outb p PIC2_CMD PIC_EOI else p in
  outb p PIC1_CMD PIC_EOI.
End Pic.

(** ** What the controllers do *)

Section Spec.
Context {P : Type} `{!Ports P} `{!Pic8259 P}.
Implicit Types (p : P) (s : vga P).

(** Whether line [irq] of the pair is masked. *)
Definition masked p (irq : Z) : bool := Z.testbit (imr (pic (8 <=? irq) p)) (irq mod 8).

Definition ready p : Prop := ∀ b, pending (pic b p) = 0%nat ∧ 0 ≤ imr (pic b p) < 256.

Lemma bit_mod irq : 0 ≤ irq < 16 → Z.land irq 7 = irq mod 8.
Proof. intros H. change 7 with (Z.ones 3). by rewrite Z.land_ones. Qed.

Lemma testbit_clear v i j : 0 ≤ v < 256 → 0 ≤ i < 8 → 0 ≤ j < 8 →
  Z.testbit (w8 (Z.land v (Z.lnot (Z.shiftl 1 i)))) j = Z.testbit v j && negb (i =? j).
Proof.
  intros Hv Hi Hj. unfold w8. rewrite Z.mod_pow2_bits_low by lia.
  rewrite Z.land_spec, Z.lnot_spec, Z.shiftl_1_l, Z.pow2_bits_eqb by lia. done.
Qed.

Lemma testbit_set v i j : 0 ≤ v < 256 → 0 ≤ i < 8 → 0 ≤ j < 8 →
  Z.testbit (w8 (Z.lor v (Z.shiftl 1 i))) j = Z.testbit v j || (i =? j).
Proof.
  intros Hv Hi Hj. unfold w8. rewrite Z.mod_pow2_bits_low by lia.
  by rewrite Z.lor_spec, Z.shiftl_1_l, Z.pow2_bits_eqb by lia.
Qed.

Lemma port_of irq : (if irq <? 8 then PIC1_DATA else PIC2_DATA) = data_port (8 <=? irq).
Proof. destruct (Z.ltb_spec irq 8), (Z.leb_spec 8 irq); try lia; done. Qed.

Lemma data_keeps p b v : pic (negb b) (outb p (data_port b) v) = pic (negb b) p.
Proof. by apply pic_other; destruct b. Qed.
Lemma cmd_keeps p b v : pic (negb b) (outb p (cmd_port b) v) = pic (negb b) p.
Proof. by apply pic_other; destruct b. Qed.

(** A new mask for one of the controllers. *)
Lemma mask_written p b v : ready p → 0 ≤ v < 256 →
  ready (outb p (data_port b) v) ∧ imr (pic b (outb p (data_port b) v)) = v ∧
  imr (pic (negb b) (outb p (data_port b) v)) = imr (pic (negb b) p).
Proof.
  intros Hr Hv. assert (pic b (outb p (data_port b) v) = mk_chip v (first_vector (pic b p)) 0 (eois (pic b p))) as E.
  { rewrite pic_data. by rewrite (proj1 (Hr b)). }
  split_and!; [|by rewrite E|by rewrite data_keeps]. intros c.
  destruct (decide (c = b)) as [->|Hne]; [by rewrite E|].
  replace c with (negb b) by (by destruct b, c). rewrite data_keeps. apply Hr.
Qed.

Lemma same_line irq j : 0 ≤ irq < 16 → 0 ≤ j < 16 → (8 <=? irq) = (8 <=? j) → (irq mod 8 =? j mod 8) = (irq =? j).
Proof.
  intros H1 H2 E. destruct (Z.leb_spec 8 irq), (Z.leb_spec 8 j); try done;
    destruct (Z.eqb_spec irq j), (Z.eqb_spec (irq mod 8) (j mod 8)); subst; try done; dlia.
Qed.

(** [pic_enable_irq] unmasks the line and no other, [pic_disable_irq] masks it
    and no other. *)
Theorem pic_mask_spec irq p : 0 ≤ irq < 16 → ready p →
  (ready (pic_enable_irq irq p) ∧
   ∀ j, 0 ≤ j < 16 → masked (pic_enable_irq irq p) j = masked p j && negb (irq =? j)) ∧
  (ready (pic_disable_irq irq p) ∧
   ∀ j, 0 ≤ j < 16 → masked (pic_disable_irq irq p) j = masked p j || (irq =? j)).
Proof.
  intros Hi Hr. unfold pic_enable_irq, pic_disable_irq. rewrite port_of. cbv zeta. set (b := 8 <=? irq).
  pose proof (pic_read p b) as Hv. pose proof (λ c, pic_read_keeps p (data_port b) c) as Hk.
  destruct (inb p (data_port b)) as [v q]. cbn [fst snd] in *. subst v.
  assert (ready q) as Hq by (intros c; rewrite Hk; apply Hr). rewrite bit_mod by done.
  assert (∀ w, 0 ≤ w < 256 → ∀ j, masked (outb q (data_port b) w) j =
    if bool_decide (b = (8 <=? j)) then Z.testbit w (j mod 8) else masked p j) as Hm.
  { intros w Hw j. destruct (mask_written q b w Hq Hw) as (_ & E1 & E2). unfold masked. case_bool_decide as E.
    - by rewrite <- E, E1.
    - replace (8 <=? j) with (negb b) by (by destruct b, (8 <=? j)). by rewrite E2, Hk. }
  split; (split; [by apply mask_written; [done|apply w8_range]|]); intros j Hj; rewrite Hm by (apply w8_range);
    case_bool_decide as E.
  - rewrite testbit_clear by (apply Hr || dlia). rewrite same_line by done. unfold masked. by rewrite <- E.
  - destruct (Z.eqb_spec irq j) as [->|]; [done|by rewrite andb_true_r].
  - rewrite testbit_set by (apply Hr || dlia). rewrite same_line by done. unfold masked. by rewrite <- E.
  - destruct (Z.eqb_spec irq j) as [->|]; [done|by rewrite orb_false_r].
Qed.

Lemma data_mask p b v m f e : pic b p = mk_chip m f 0 e → pic b (outb p (data_port b) v) = mk_chip v f 0 e.
Proof. intros H. by rewrite pic_data, H. Qed.
Lemma data_step p b v m f n e :
  pic b p = mk_chip m f (S n) e → pic b (outb p (data_port b) v) = mk_chip m (if (n =? 2)%nat then v else f) n e.
Proof. intros H. by rewrite pic_data, H. Qed.

(** The port accesses of [pic_remap] move the vectors and keep the masks. *)
Lemma remap_ports_spec offset1 offset2 p : ready p →
  let p' := remap_ports offset1 offset2 p in
  ready p' ∧ (∀ b, imr (pic b p') = imr (pic b p)) ∧
  first_vector (pic false p') = offset1 ∧ first_vector (pic true p') = offset2.
Proof.
  intros Hr. unfold remap_ports. change PIC1_CMD with (cmd_port false). change PIC2_CMD with (cmd_port true).
  change PIC1_DATA with (data_port false). change PIC2_DATA with (data_port true).
  pose proof (pic_read p false) as H1. pose proof (λ b, pic_read_keeps p (data_port false) b) as K1.
  destruct (inb p (data_port false)) as [m1 p1]. cbn [fst snd] in *.
  pose proof (pic_read p1 true) as H2. pose proof (λ b, pic_read_keeps p1 (data_port true) b) as K2.
  destruct (inb p1 (data_port true)) as [m2 p2]. cbn [fst snd] in *. cbv zeta.
  assert (∀ q v, pic false (outb q (data_port true) v) = pic false q) as A1 by (intros q v; apply (data_keeps q true)).
  assert (∀ q v, pic true (outb q (data_port false) v) = pic true q) as A2 by (intros q v; apply (data_keeps q false)).
  assert (∀ q v, pic false (outb q (cmd_port true) v) = pic false q) as A3 by (intros q v; apply (cmd_keeps q true)).
  assert (∀ q v, pic true (outb q (cmd_port false) v) = pic true q) as A4 by (intros q v; apply (cmd_keeps q false)).
  match goal with |- context [ready ?q] => set (p' := q) end.
  assert (pic false p' = mk_chip m1 offset1 0 (eois (pic false p2))) as E1.
  { subst p'. rewrite A1. apply (data_mask _ _ _ 0). rewrite A1. apply (data_step _ _ _ _ offset1 0). rewrite A1.
    apply (data_step _ _ _ _ offset1 1). rewrite A1. apply (data_step _ _ _ _ (first_vector (pic false p2)) 2).
    rewrite A3. apply pic_icw1. }
  assert (pic true p' = mk_chip m2 offset2 0 (eois (pic true p2))) as E2.
  { subst p'. apply (data_mask _ _ _ 0). rewrite A2. apply (data_step _ _ _ _ offset2 0). rewrite A2.
    apply (data_step _ _ _ _ offset2 1). rewrite A2. apply (data_step _ _ _ _ (first_vector (pic true p2)) 2).
    rewrite A2, pic_icw1, A4. done. }
  rewrite K1 in H2. split_and!; [|intros []; rewrite ?E1, ?E2; cbn; congruence|by rewrite E1|by rewrite E2].
  intros []; rewrite ?E1, ?E2; cbn [pending imr]; (split; [done|]); rewrite ?H1, ?H2; apply Hr.
Qed.

(** An interrupt of the slave is acknowledged at both controllers, one of the
    master at the master. *)
Theorem pic_eoi_spec irq p :
  let p' := pic_send_eoi irq p in
  eois (pic false p') = S (eois (pic false p)) ∧
  eois (pic true p') = if 8 <=? irq then S (eois (pic true p)) else eois (pic true p).
Proof.
  unfold pic_send_eoi. change PIC1_CMD with (cmd_port false). change PIC2_CMD with (cmd_port true). change PIC_EOI with 0x20.
  cbv zeta. rewrite pic_eoi, (cmd_keeps _ false). cbn [eois].
  destruct (8 <=? irq); [|done]. by rewrite pic_eoi, (cmd_keeps _ true).
Qed.

(** ** Printing leaves the controllers alone *)

Section Observe.
Context {X : Type} (f : P → X).
Context (f_out : ∀ p port v, 0x3D4 ≤ port → f (outb p port v) = f p) (f_in : ∀ p port, f (inb p port).2 = f p).

Lemma obs_cursor s : f (vports (update_hw_cursor s)) = f (vports s).
Proof using f_out. unfold update_hw_cursor. cbn [vports]. by rewrite !f_out by lia. Qed.

Lemma obs_scroll s : vports (scroll_if_needed s) = vports s.
Proof using Type. unfold scroll_if_needed. by destruct (_ <? _). Qed.

Lemma obs_write_char c s : f (vports (arch_console_write_char c s)) = f (vports s).
Proof using f_out.
  unfold arch_console_write_char. destruct (c =? 10); rewrite obs_cursor; [by rewrite obs_scroll|].
  unfold advance_cursor. destruct (_ <=? _); rewrite ?obs_scroll; cbn [with_cursor put with_buf vports]; by rewrite obs_scroll.
Qed.

Lemma obs_write m s : f (vports (arch_console_write m s)) = f (vports s).
Proof using f_out.
  unfold arch_console_write. revert s. induction m as [|c m IH]; intros s; [done|]. cbn [foldl]. by rewrite IH, obs_write_char.
Qed.

Lemma obs_tx n c p : f (tx_loop n c p).2 = f p.
Proof using f_out f_in.
  revert p. induction n as [|n IH]; intros p; [done|]. cbn [tx_loop]. unfold tx_empty.
  pose proof (f_in p (COM1_PORT + 5)) as Hi. destruct (inb p (COM1_PORT + 5)) as [v q]. cbn [snd] in Hi.
  destruct (negb _); [|by rewrite IH]. cbn [snd]. by rewrite f_out by (unfold COM1_PORT; lia).
Qed.

Lemma obs_serial m p : f (serial_write m p) = f p.
Proof using f_out f_in.
  revert p. induction m as [|c m IH]; intros p; [done|]. cbn [serial_write]. destruct (c =? 0); [done|].
  rewrite IH. unfold serial_write_char_unlocked. rewrite obs_tx. destruct (c =? 10); by rewrite ?obs_tx.
Qed.

Lemma obs_log g level m s : f (vports (log_emit g level m s)) = f (vports s).
Proof using f_out f_in.
  assert (∀ t u, f (vports (raw_serial_write t u)) = f (vports u)) as Hr by (intros t u; apply obs_serial).
  assert (∀ t u, f (vports (console_write t u)) = f (vports u)) as Hc by (intros t u; apply obs_write).
  unfold log_emit. destruct (_ <? _); [done|]. cbv zeta. rewrite !Hr, !Hc. cbn [console_set_color arch_console_set_color vports].
  unfold write_prefix. rewrite Hr, Hc. done.
Qed.
End Observe.

(** [pic_remap] moves the sixteen lines to the vectors asked for and restores
    the masks. *)
Theorem pic_remap_spec g offset1 offset2 s : ready (vports s) →
  let p' := vports (pic_remap g offset1 offset2 s) in
  ready p' ∧ (∀ irq, masked p' irq = masked (vports s) irq) ∧
  first_vector (pic false p') = offset1 ∧ first_vector (pic true p') = offset2.
Proof.
  intros Hr. destruct (remap_ports_spec offset1 offset2 (vports s) Hr) as (H1 & H2 & H3 & H4). cbv zeta.
  assert (∀ b, pic b (vports (pic_remap g offset1 offset2 s)) = pic b (remap_ports offset1 offset2 (vports s))) as E.
  { intros b. unfold pic_remap, log_info. rewrite (obs_log (pic b)); [done| |intros p port; apply pic_read_keeps].
    intros p port v Hp. apply pic_other; destruct b; cbn; lia. }
  split_and!; [intros b; rewrite E; apply H1| |by rewrite E|by rewrite E]. intros irq. unfold masked. by rewrite E, H2.
Qed.
End Spec.
End Pic.

(** ** The interval timer *)

Module Pit.

Definition PIT_CH0 : Z := 0x40.
Definition PIT_CMD : Z := 0x43.

Definition divisor (frequency_hz : Z) : Z :=
  let f := if frequency_hz =? 0 then 100 else frequency_hz in
  let d := 1193182 / f in
  if d =? 0 then 1 else d.

Definition pit_init {P} `{!Ports P} (frequency_hz : Z) (p : P) : P :=
  let d := divisor frequency_hz in
  let p := outb p PIT_CMD 0x36 in
  let p := outb p PIT_CH0 (w8 (Z.land d 0xFF)) in
  outb p PIT_CH0 (w8 (Z.land (Z.shiftr d 8) 0xFF)).

(** The two bytes are the divisor when the frequency is at least 19 Hz; below,
    the counter has too few bits.  100 Hz gives 11931. *)
Theorem pit_divisor_spec f : 19 ≤ f →
  w8 (Z.land (divisor f) 0xFF) + 256 * w8 (Z.land (Z.shiftr (divisor f) 8) 0xFF) = divisor f ∧
  0 < divisor f < 65536 ∧ (f ≤ 1193182 → divisor f * f ≤ 1193182 < (divisor f + 1) * f).
Proof.
  intros Hf. unfold divisor. rewrite (proj2 (Z.eqb_neq f 0)) by lia.
  assert (0 ≤ 1193182 / f < 65536) as Hd by (split; [apply Z.div_pos; lia|apply Z.div_lt_upper_bound; lia]).
  assert (f ≤ 1193182 → 0 < 1193182 / f) as Hp by (intros H; apply Z.div_str_pos; lia).
  pose proof (Z.div_mod 1193182 f ltac:(lia)). pose proof (Z.mod_pos_bound 1193182 f ltac:(lia)).
  assert (∀ d, 0 ≤ d < 65536 → w8 (Z.land d 0xFF) + 256 * w8 (Z.land (Z.shiftr d 8) 0xFF) = d) as Hw.
  { intros d Hd'. change 0xFF with (Z.ones 8). rewrite !Z.land_ones, Z.shiftr_div_pow2 by lia. unfold w8.
    change (2 ^ 8) with 256. dlia. }
  destruct (Z.eqb_spec (1193182 / f) 0) as [E|E]; (split; [by apply Hw; lia|]); split; [lia|intros H'; specialize (Hp H'); lia|lia|].
  intros _. nia.
Qed.
End Pit.

(** ** PCI *)

Class Ports32 (P : Type) := {
  inl : P → Z → Z * P;
  outl : P → Z → Z → P;
}.

(** The configuration mechanism: a read of the data port returns the double
    word whose address was written to the address port. *)
Class PciBus (P : Type) `{!Ports32 P} := {
  config : P → Z → Z;
  config_read (p : P) (a : Z) : (inl (outl p 0xCF8 a) 0xCFC).1 = config p a;
  config_keeps (p : P) (a b : Z) : config (inl (outl p 0xCF8 a) 0xCFC).2 b = config p b;
}.

Module Pci.

Definition PCI_CONFIG_ADDR : Z := 0xCF8.
Definition PCI_CONFIG_DATA : Z := 0xCFC.
Definition PCI_MAX_DEVICES : nat := 64.

Record pci_device := mk_pci_device {
  bus : Z; dev : Z; func : Z;
  vendor : Z; device : Z;
  class_code : Z; subclass : Z; prog_if : Z;
  header_type : Z; irq_line : Z; irq_pin : Z;
}.

Definition pci_address (bus dev func offset : Z) : Z :=
  Z.lor (Z.lor (Z.lor (Z.lor (Z.shiftl 1 31) (Z.shiftl bus 16)) (Z.shiftl dev 11)) (Z.shiftl func 8)) (Z.land offset 0xFC).

Definition part16 (val offset : Z) : Z := Z.land (Z.shiftr val (Z.land offset 2 * 8)) 0xFFFF.
Definition part8 (val offset : Z) : Z := Z.land (Z.shiftr val (Z.land offset 3 * 8)) 0xFF.

Section Scan.
Context {P : Type} `{!Ports32 P}.
Implicit Types p : P.

Definition pci_config_read32 (bus dev func offset : Z) p : Z * P :=
  inl (outl p PCI_CONFIG_ADDR (pci_address bus dev func offset)) PCI_CONFIG_DATA.
Definition pci_config_read16 (bus dev func offset : Z) p : Z * P :=
  let '(val, p) := pci_config_read32 bus dev func offset p in (part16 val offset, p).
Definition pci_config_read8 (bus dev func offset : Z) p : Z * P :=
  let '(val, p) := pci_config_read32 bus dev func offset p in (part8 val offset, p).

(** The devices recorded so far; their number is [pci_device_count]. *)
Definition pci_record_device (b d f : Z) (st : list pci_device * P) : list pci_device * P :=
  let '(ds, p) := st in
  if (PCI_MAX_DEVICES <=? length ds)%nat then (ds, p)
  else
    let '(vendor, p) := pci_config_read16 b d f 0x00 p in
    let '(device, p) := pci_config_read16 b d f 0x02 p in
    let '(prog_if, p) := pci_config_read8 b d f 0x09 p in
    let '(subclass, p) := pci_config_read8 b d f 0x0A p in
    let '(class_code, p) := pci_config_read8 b d f 0x0B p in
    let '(header_type, p) := pci_config_read8 b d f 0x0E p in
    let '(irq_line, p) := pci_config_read8 b d f 0x3C p in
    let '(irq_pin, p) := pci_config_read8 b d f 0x3D p in
    (ds ++ [mk_pci_device b d f vendor device class_code subclass prog_if header_type irq_line irq_pin], p).

(** The bodies of the three loops. *)
Definition scan_func (b d : Z) (st : list pci_device * P) (f : Z) : list pci_device * P :=
  let '(ds, p) := st in
  let '(vendor, p) := pci_config_read16 b d f 0x00 p in
  if vendor =? 0xFFFF then (ds, p) else pci_record_device b d f (ds, p).

Definition scan_dev (b : Z) (st : list pci_device * P) (d : Z) : list pci_device * P :=
  let '(ds, p) := st in
  let '(vendor, p) := pci_config_read16 b d 0 0x00 p in
  if vendor =? 0xFFFF then (ds, p)
  else
    let '(header, p) := pci_config_read8 b d 0 0x0E p in
    let functions := if negb (Z.land header 0x80 =? 0) then 8 else 1 in
    foldl (scan_func b d) (ds, p) (seqZ 0 functions).

Definition scan_bus (st : list pci_device * P) (b : Z) : list pci_device * P :=
  foldl (scan_dev b) st (seqZ 0 32).

Definition pci_scan p : list pci_device * P := foldl scan_bus ([], p) (seqZ 0 32).
End Scan.

Definition pci_init {P} `{!Ports P} `{!Ports32 P} (g : log) (s : vga P) : list pci_device * vga P :=
  let '(ds, p) := pci_scan (vports s) in
  let s := on_port (λ _, p) s in
  let s := log_info g (chars "PCI enumeration complete") s in
  (ds, log_info_hex g (chars "PCI devices found") (Z.of_nat (length ds)) s).

Definition dump_device {P} `{!Ports P} (s : vga P) (e : pci_device) : vga P :=
  let s := console_write (chars "bus=") s in
  let s := console_write_hex (bus e) s in
  let s := console_write (chars " dev=") s in
  let s := console_write_hex (dev e) s in
  let s := console_write (chars " func=") s in
  let s := console_write_hex (func e) s in
  let s := console_write (chars " vid=") s in
  let s := console_write_hex (vendor e) s in
  let s := console_write (chars " did=") s in
  let s := console_write_hex (device e) s in
  let s := console_write (chars " cls=") s in
  let s := console_write_hex (class_code e) s in
  let s := console_write (chars " sub=") s in
  let s := console_write_hex (subclass e) s in
  let s := console_write (chars " irq=") s in
  let s := console_write_hex (irq_line e) s in
  console_write [10] s.

Definition pci_dump {P} `{!Ports P} (ds : list pci_device) (s : vga P) : vga P :=
  foldl dump_device (console_write (chars "PCI devices:" ++ [10]) s) ds.

(** ** What is found *)

(** The registers of a function, from the configuration space [c]. *)
Definition reg16 (c : Z → Z) (b d f offset : Z) : Z := part16 (c (pci_address b d f offset)) offset.
Definition reg8 (c : Z → Z) (b d f offset : Z) : Z := part8 (c (pci_address b d f offset)) offset.

Definition present (c : Z → Z) (b d f : Z) : bool := negb (reg16 c b d f 0 =? 0xFFFF).
Definition functions (c : Z → Z) (b d : Z) : list Z :=
  if present c b d 0 then
    filter (λ f, present c b d f = true) (seqZ 0 (if negb (Z.land (reg8 c b d 0 0x0E) 0x80 =? 0) then 8 else 1))
  else [].

Definition device_of (c : Z → Z) (b d f : Z) : pci_device :=
  mk_pci_device b d f (reg16 c b d f 0) (reg16 c b d f 2) (reg8 c b d f 0x0B) (reg8 c b d f 0x0A) (reg8 c b d f 9)
    (reg8 c b d f 0x0E) (reg8 c b d f 0x3C) (reg8 c b d f 0x3D).

(** The functions of all devices, in the order of bus, device and function. *)
Definition bus_devices (c : Z → Z) : list pci_device :=
  b ← seqZ 0 32; d ← seqZ 0 32; f ← functions c b d; [device_of c b d f].

Section Spec.
Context {P : Type} `{!Ports32 P} `{!PciBus P}.
Implicit Types p : P.

Definition sees (c : Z → Z) (p : P) : Prop := ∀ a, config p a = c a.

Lemma read32_spec c b d f o p : sees c p →
  ∃ p', pci_config_read32 b d f o p = (c (pci_address b d f o), p') ∧ sees c p'.
Proof.
  intros Hc. unfold pci_config_read32. pose proof (config_read p (pci_address b d f o)) as H1.
  pose proof (config_keeps p (pci_address b d f o)) as H2. change PCI_CONFIG_ADDR with 0xCF8. change PCI_CONFIG_DATA with 0xCFC.
  destruct (inl (outl p 0xCF8 (pci_address b d f o)) 0xCFC) as [v p']. cbn [fst snd] in *. subst v.
  exists p'. rewrite Hc. split; [done|]. intros a. by rewrite H2.
Qed.

Lemma read16_spec c b d f o p : sees c p → ∃ p', pci_config_read16 b d f o p = (reg16 c b d f o, p') ∧ sees c p'.
Proof. intros Hc. unfold pci_config_read16. destruct (read32_spec c b d f o p Hc) as (p' & -> & H). by exists p'. Qed.
Lemma read8_spec c b d f o p : sees c p → ∃ p', pci_config_read8 b d f o p = (reg8 c b d f o, p') ∧ sees c p'.
Proof. intros Hc. unfold pci_config_read8. destruct (read32_spec c b d f o p Hc) as (p' & -> & H). by exists p'. Qed.

(** Appending to a table of 64. *)
Definition grow (ds new : list pci_device) : list pci_device := take PCI_MAX_DEVICES (ds ++ new).

Lemma grow_grow ds n1 n2 : grow (grow ds n1) n2 = grow ds (n1 ++ n2).
Proof.
  unfold grow. rewrite app_assoc. generalize (ds ++ n1). intros l. rewrite !take_app. rewrite take_take, Nat.min_id, length_take.
  f_equal. f_equal. lia.
Qed.

(** A loop that adds [new x] for every [x]. *)
Lemma foldl_grow {A} (body : list pci_device * P → A → list pci_device * P) (new : A → list pci_device) c xs :
  (∀ ds p x, sees c p → (length ds ≤ PCI_MAX_DEVICES)%nat →
    ∃ p', body (ds, p) x = (grow ds (new x), p') ∧ sees c p') →
  ∀ ds p, sees c p → (length ds ≤ PCI_MAX_DEVICES)%nat →
    ∃ p', foldl body (ds, p) xs = (grow ds (xs ≫= new), p') ∧ sees c p'.
Proof.
  intros Hbody. induction xs as [|x xs IH]; intros ds p Hp Hl; cbn [foldl].
  - exists p. unfold grow. cbn. by rewrite app_nil_r, take_ge.
  - destruct (Hbody ds p x Hp Hl) as (p1 & -> & H1).
    destruct (IH (grow ds (new x)) p1 H1) as (p2 & -> & H2); [unfold grow; rewrite length_take; lia|].
    exists p2. cbn [mbind list_bind]. by rewrite grow_grow.
Qed.

Ltac pci_reads :=
  repeat match goal with
  | H : sees ?c ?p |- context [pci_config_read16 ?b ?d ?f ?o ?p] =>
      let q := fresh "q" in let Hq := fresh "Hq" in destruct (read16_spec c b d f o p H) as (q & -> & Hq)
  | H : sees ?c ?p |- context [pci_config_read8 ?b ?d ?f ?o ?p] =>
      let q := fresh "q" in let Hq := fresh "Hq" in destruct (read8_spec c b d f o p H) as (q & -> & Hq)
  end.

Lemma record_spec c b d f ds p : sees c p → (length ds ≤ PCI_MAX_DEVICES)%nat →
  ∃ p', pci_record_device b d f (ds, p) = (grow ds [device_of c b d f], p') ∧ sees c p'.
Proof.
  intros Hp Hl. unfold pci_record_device, grow. destruct (Nat.leb_spec PCI_MAX_DEVICES (length ds)) as [H|H].
  - exists p. by rewrite take_app_le, take_ge by lia.
  - pci_reads. eexists. split; [|done]. rewrite take_ge; [done|]. rewrite length_app. cbn [length]. lia.
Qed.

Lemma scan_func_spec c b d ds p f : sees c p → (length ds ≤ PCI_MAX_DEVICES)%nat →
  ∃ p', scan_func b d (ds, p) f = (grow ds (if present c b d f then [device_of c b d f] else []), p') ∧ sees c p'.
Proof.
  intros Hp Hl. unfold scan_func, present. pci_reads. destruct (_ =? _); cbn [negb].
  - exists q. unfold grow. by rewrite app_nil_r, take_ge.
  - by apply record_spec.
Qed.

Lemma scan_dev_spec c b ds p d : sees c p → (length ds ≤ PCI_MAX_DEVICES)%nat →
  ∃ p', scan_dev b (ds, p) d = (grow ds (functions c b d ≫= λ f, [device_of c b d f]), p') ∧ sees c p'.
Proof.
  intros Hp Hl. unfold scan_dev, functions, present at 1. pci_reads. destruct (_ =? _); cbn [negb].
  { exists q. unfold grow. cbn. by rewrite app_nil_r, take_ge. }
  pci_reads. set (fs := seqZ 0 _).
  destruct (foldl_grow (scan_func b d) (λ f, if present c b d f then [device_of c b d f] else []) c fs
    (λ ds p f, scan_func_spec c b d ds p f) ds q0 Hq0 Hl) as (p' & -> & Hp').
  exists p'. split; [|done]. f_equal. f_equal. clear. induction fs as [|f fs IH]; [done|].
  cbn [mbind list_bind]. rewrite filter_cons. destruct (present c b d f); [|by rewrite decide_False].
  rewrite decide_True by done. cbn [mbind list_bind app]. by rewrite <- IH.
Qed.

End Spec.

Lemma lor_low n hi lo : 0 ≤ n → hi mod 2 ^ n = 0 → 0 ≤ lo < 2 ^ n → Z.lor hi lo = hi + lo.
Proof.
  intros Hn Hh Hl. rewrite <- Z.lxor_lor, Z.add_nocarry_lxor; [done| |];
    (apply Z.bits_inj'; intros i Hi; rewrite Z.land_spec, Z.bits_0; destruct (Z.ltb_spec i n);
     [rewrite <- (Z.mod_pow2_bits_low hi n i), Hh, Z.bits_0 by lia; done|]);
    (rewrite <- (Z.mod_small lo (2 ^ n)) by lia; rewrite (Z.mod_pow2_bits_high lo n i) by lia; by rewrite andb_false_r).
Qed.

Lemma land_fc o : 0 ≤ o < 256 → Z.land o 0xFC = o / 4 * 4.
Proof.
  intros Ho. assert (forallb (λ o, Z.land o 0xFC =? o / 4 * 4) (seqZ 0 256) = true) as H by (by vm_compute).
  rewrite forallb_forall in H. apply Z.eqb_eq, H, list_elem_of_In, elem_of_seqZ. lia.
Qed.

(** The address names the function and the register. *)
Theorem pci_address_fields b d f o : 0 ≤ b < 256 → 0 ≤ d < 32 → 0 ≤ f < 8 → 0 ≤ o < 256 →
  let a := pci_address b d f o in
  0 ≤ a < 2 ^ 32 ∧ Z.shiftr a 16 mod 256 = b ∧ Z.shiftr a 11 mod 32 = d ∧ Z.shiftr a 8 mod 8 = f ∧ a mod 256 = o / 4 * 4.
Proof.
  intros Hb Hd Hf Ho. cbv zeta. assert (pci_address b d f o = 2 ^ 31 + b * 2 ^ 16 + d * 2 ^ 11 + f * 2 ^ 8 + o / 4 * 4) as ->.
  { unfold pci_address. rewrite land_fc, !Z.shiftl_mul_pow2 by lia. rewrite !Z.mul_1_l.
    rewrite (lor_low 31 (2 ^ 31)), (lor_low 16 (2 ^ 31 + b * 2 ^ 16)),
      (lor_low 11 (2 ^ 31 + b * 2 ^ 16 + d * 2 ^ 11)), (lor_low 8) by dlia. done. }
  rewrite !Z.shiftr_div_pow2 by lia. split_and!; dlia.
Qed.
End Pci.

(** ** ACPI *)

Module Acpi.

(** Addresses are physical: the tables are read through the direct map. *)
Definition SIZEOF_RSDP : Z := 36.
Definition SIZEOF_SDT : Z := 36.
Definition SIZEOF_MADT : Z := 44.

Record acpi_state := mk_acpi {
  rsdp_phys : Z; lapic_addr : Z; ioapic_addr : Z; ioapic_id : Z;
  cpu_count : Z; ioapic_count : Z; iso_count : Z; acpi_ready : Z;
}.

Definition acpi_zero : acpi_state := mk_acpi 0 0 0 0 0 0 0 0.

Definition checksum (m : memory) (data length : Z) : Z :=
  for_range 0 length (λ i sum, w8 (sum + rd8 m (data + i))) 0.
Definition checksum_ok (m : memory) (data length : Z) : bool := checksum m data length =? 0.

(** The comparison of a signature, character by character. *)
Fixpoint signature_at (m : memory) (a : Z) (sig : list Z) : bool :=
  match sig with
  | [] => true
  | c :: sig' => (rd8 m a =? c) && signature_at m (a + 1) sig'
  end.

Definition rsdp_ok (m : memory) (addr : Z) : bool :=
  signature_at m addr (chars "RSD PTR ") && checksum_ok m addr 20 &&
  (if (2 <=? rd8 m (addr + 15)) && (SIZEOF_RSDP <=? rd32 m (addr + 20))
   then checksum_ok m addr (rd32 m (addr + 20)) else true).

(** [for (addr = start; addr < start + length; addr += 16)]. *)
Fixpoint scan_loop (fuel : nat) (m : memory) (addr end_ : Z) : option Z :=
  match fuel with
  | O => None
  | S fuel' =>
      if addr <? end_ then if rsdp_ok m addr then Some addr else scan_loop fuel' m (addr + 16) end_ else None
  end.
Definition rsdp_scan (m : memory) (start length : Z) : option Z :=
  scan_loop (S (Z.to_nat (length / 16))) m start (start + length).

(** The loop over the addresses in a table of tables, [width] bytes each. *)
Fixpoint table_loop (n : nat) (m : memory) (width p : Z) (sig : list Z) : option Z :=
  match n with
  | O => None
  | S n' =>
      let hdr := if width =? 8 then rd64 m p else rd32 m p in
      if signature_at m hdr sig then Some hdr else table_loop n' m width (p + width) sig
  end.

(** The number of entries: the subtraction is done with 64 bits, the result
    has 32. *)
Definition table_entries (m : memory) (table width : Z) : Z :=
  w32 (w64 (rd32 m (table + 4) - SIZEOF_SDT) / width).

Definition search_table (m : memory) (table width : Z) (sig : list Z) : option Z :=
  table_loop (Z.to_nat (table_entries m table width)) m width (table + SIZEOF_SDT) sig.

Definition acpi_find_table (m : memory) (rsdp : Z) (sig : list Z) : option Z :=
  let revision := rd8 m (rsdp + 15) in
  let rsdt := rd32 m (rsdp + 16) in
  let xsdt := rd64 m (rsdp + 24) in
  let in_rsdt :=
    if negb (rsdt =? 0) then
      if negb (checksum_ok m rsdt (rd32 m (rsdt + 4))) then None else search_table m rsdt 4 sig
    else None in
  if (2 <=? revision) && negb (xsdt =? 0) then
    if negb (checksum_ok m xsdt (rd32 m (xsdt + 4))) then None
    else match search_table m xsdt 8 sig with Some t => Some t | None => in_rsdt end
  else in_rsdt.

(** One entry of the interrupt controller table. *)
Definition madt_entry (m : memory) (ptr : Z) (st : acpi_state) : acpi_state :=
  let type := rd8 m ptr in
  let len := rd8 m (ptr + 1) in
  if (type =? 0) && (8 <=? len) then
    if negb (Z.land (rd32 m (ptr + 4)) 0x1 =? 0)
    then mk_acpi (rsdp_phys st) (lapic_addr st) (ioapic_addr st) (ioapic_id st) (w8 (cpu_count st + 1))
           (ioapic_count st) (iso_count st) (acpi_ready st)
    else st
  else if (type =? 1) && (12 <=? len) then
    mk_acpi (rsdp_phys st) (lapic_addr st) (rd32 m (ptr + 4)) (rd8 m (ptr + 2)) (cpu_count st)
      (w8 (ioapic_count st + 1)) (iso_count st) (acpi_ready st)
  else if (type =? 2) && (10 <=? len) then
    mk_acpi (rsdp_phys st) (lapic_addr st) (ioapic_addr st) (ioapic_id st) (cpu_count st)
      (ioapic_count st) (w8 (iso_count st + 1)) (acpi_ready st)
  else st.

(** [while (ptr + 2 <= end)]; [None] when the fuel does not suffice. *)
Fixpoint madt_loop (fuel : nat) (m : memory) (ptr end_ : Z) (st : acpi_state) : option acpi_state :=
  match fuel with
  | O => None
  | S fuel' =>
      if ptr + 2 <=? end_ then
        let len := rd8 m (ptr + 1) in
        if (len <? 2) || (end_ <? ptr + len) then Some st
        else madt_loop fuel' m (ptr + len) end_ (madt_entry m ptr st)
      else Some st
  end.

Definition acpi_parse_madt (m : memory) (madt : Z) (st : acpi_state) : option acpi_state :=
  let st := mk_acpi (rsdp_phys st) (rd32 m (madt + 36)) (ioapic_addr st) (ioapic_id st) (cpu_count st)
              (ioapic_count st) (iso_count st) (acpi_ready st) in
  let length := rd32 m (madt + 4) in
  madt_loop (S (Z.to_nat length)) m (madt + SIZEOF_MADT) (madt + length) st.

Definition with_rsdp (st : acpi_state) (a : Z) : acpi_state :=
  mk_acpi a (lapic_addr st) (ioapic_addr st) (ioapic_id st) (cpu_count st) (ioapic_count st) (iso_count st) (acpi_ready st).
Definition with_ready (st : acpi_state) : acpi_state :=
  mk_acpi (rsdp_phys st) (lapic_addr st) (ioapic_addr st) (ioapic_id st) (cpu_count st) (ioapic_count st) (iso_count st) 1.

Definition find_rsdp (m : memory) : option Z :=
  let ebda_addr := Z.shiftl (rd16 m 0x40E) 4 in
  match rsdp_scan m ebda_addr 1024 with
  | Some r => Some r
  | None => rsdp_scan m 0xE0000 0x20000
  end.

Definition acpi_init {P} `{!Ports P} (g : log) (m : memory) (s : vga P) : option (acpi_state * vga P) :=
  match find_rsdp m with
  | None => Some (acpi_zero, log_warn g (chars "ACPI RSDP not found") s)
  | Some rsdp =>
      let st := with_rsdp acpi_zero rsdp in
      st ← match acpi_find_table m rsdp (chars "APIC") with
           | Some madt => acpi_parse_madt m madt st
           | None => Some st
           end;
      Some (with_ready st, log_info g (chars "ACPI tables discovered") s)
  end.

Definition acpi_dump {P} `{!Ports P} (st : acpi_state) (s : vga P) : vga P :=
  let s := console_write (chars "ACPI:" ++ [10]) s in
  if acpi_ready st =? 0 then console_write (chars "  not found" ++ [10]) s
  else
    let s := console_write (chars "  RSDP=") s in
    let s := console_write_hex (rsdp_phys st) s in
    let s := console_write ([10] ++ chars "  LAPIC=") s in
    let s := console_write_hex (lapic_addr st) s in
    let s := console_write (chars " CPUs=") s in
    let s := console_write_hex (cpu_count st) s in
    let s := console_write ([10] ++ chars "  IOAPIC=") s in
    let s := console_write_hex (ioapic_addr st) s in
    let s := console_write (chars " ID=") s in
    let s := console_write_hex (ioapic_id st) s in
    let s := console_write (chars " ISO=") s in
    let s := console_write_hex (iso_count st) s in
    console_write [10] s.

(** ** What is found *)

Definition sum_bytes (l : list Z) : Z := foldr Z.add 0 l.

(** A checksum is right when the bytes add up to zero. *)
Lemma checksum_spec m data n :
  checksum m data (Z.of_nat n) = sum_bytes (rd_bytes m data n) mod 256.
Proof.
  unfold checksum.
  assert (∀ k a, for_range (Z.of_nat k) (Z.of_nat k + Z.of_nat n) (λ i sum, w8 (sum + rd8 m (data + i))) (w8 a) =
    (a + sum_bytes (rd_bytes m (data + Z.of_nat k) n)) mod 256) as H.
  { induction n as [|n IH]; intros k a.
    - rewrite for_range_nil by lia. cbn. unfold w8. f_equal. lia.
    - rewrite for_range_cons by lia. replace (Z.of_nat k + 1) with (Z.of_nat (S k)) by lia.
      replace (Z.of_nat k + Z.of_nat (S n)) with (Z.of_nat (S k) + Z.of_nat n) by lia.
      rewrite IH. cbn [rd_bytes sum_bytes foldr]. replace (data + Z.of_nat (S k)) with (data + Z.of_nat k + 1) by lia.
      unfold w8, sum_bytes. dlia. }
  specialize (H 0%nat 0). cbn in H. rewrite Z.add_0_r in H. exact H.
Qed.

(** The scan finds the first descriptor in its range. *)
Theorem rsdp_scan_spec m start length : 0 ≤ length →
  match rsdp_scan m start length with
  | Some a => ∃ k, 0 ≤ k ∧ a = start + 16 * k ∧ a < start + length ∧ rsdp_ok m a = true ∧
                ∀ j, 0 ≤ j < k → rsdp_ok m (start + 16 * j) = false
  | None => ∀ k, 0 ≤ k → start + 16 * k < start + length → rsdp_ok m (start + 16 * k) = false
  end.
Proof.
  intros Hl. unfold rsdp_scan.
  assert (∀ fuel k, 0 ≤ k → start + length ≤ start + 16 * k + 16 * Z.of_nat fuel →
    (∀ j, 0 ≤ j < k → rsdp_ok m (start + 16 * j) = false) →
    match scan_loop fuel m (start + 16 * k) (start + length) with
    | Some a => ∃ k, 0 ≤ k ∧ a = start + 16 * k ∧ a < start + length ∧ rsdp_ok m a = true ∧
                  ∀ j, 0 ≤ j < k → rsdp_ok m (start + 16 * j) = false
    | None => ∀ k, 0 ≤ k → start + 16 * k < start + length → rsdp_ok m (start + 16 * k) = false
    end) as H.
  { induction fuel as [|fuel IH]; intros k Hk Hf Hno; cbn [scan_loop].
    - intros j Hj Hlt. apply Hno. lia.
    - destruct (Z.ltb_spec (start + 16 * k) (start + length)) as [Hlt|Hge]; [|intros j Hj Hlt; apply Hno; lia].
      destruct (rsdp_ok m (start + 16 * k)) eqn:E; [by exists k|].
      replace (start + 16 * k + 16) with (start + 16 * (k + 1)) by lia. apply IH; [lia|lia|].
      intros j Hj. destruct (decide (j = k)) as [->|]; [done|]. apply Hno. lia. }
  specialize (H (S (Z.to_nat (length / 16))) 0 ltac:(lia)). rewrite Z.mul_0_r, Z.add_0_r in H. apply H; [dlia|lia].
Qed.

(** The loop over the entries ends, whatever the table holds. *)
Lemma madt_loop_total fuel m end_ : ∀ ptr st, (Z.to_nat (end_ - ptr) < fuel)%nat →
  is_Some (madt_loop fuel m ptr end_ st).
Proof.
  induction fuel as [|fuel IH]; intros ptr st Hf; [lia|]. cbn [madt_loop].
  destruct (Z.leb_spec (ptr + 2) end_) as [H|H]; [|done].
  destruct (Z.ltb_spec (rd8 m (ptr + 1)) 2), (Z.ltb_spec end_ (ptr + rd8 m (ptr + 1))); cbn [orb]; try done.
  apply IH. lia.
Qed.

Theorem acpi_init_total {P} `{!Ports P} g m (s : vga P) : is_Some (acpi_init g m s).
Proof.
  unfold acpi_init. destruct (find_rsdp m) as [rsdp|]; [|done]. destruct (acpi_find_table _ _ _) as [madt|]; [|done].
  unfold acpi_parse_madt. cbv zeta. destruct (madt_loop_total (S (Z.to_nat (rd32 m (madt + 4)))) m
    (madt + rd32 m (madt + 4)) (madt + SIZEOF_MADT) (mk_acpi (rsdp_phys (with_rsdp acpi_zero rsdp)) (rd32 m (madt + 36))
      (ioapic_addr (with_rsdp acpi_zero rsdp)) (ioapic_id (with_rsdp acpi_zero rsdp)) (cpu_count (with_rsdp acpi_zero rsdp))
      (ioapic_count (with_rsdp acpi_zero rsdp)) (iso_count (with_rsdp acpi_zero rsdp)) (acpi_ready (with_rsdp acpi_zero rsdp))))
    as [st ->]; [unfold SIZEOF_MADT; lia|done].
Qed.

(** The entries of the table and their encoding. *)
Inductive controller :=
| Lapic (processor apic flags : Z)
| Ioapic (id addr gsi : Z)
| Override (payload : list Z)
| OtherEntry (type : Z) (payload : list Z).

Definition byte (b : Z) : Prop := 0 ≤ b < 256.

Definition controller_ok (e : controller) : Prop :=
  match e with
  | Lapic pr ap fl => byte pr ∧ byte ap ∧ 0 ≤ fl < 2 ^ 32
  | Ioapic id addr gsi => byte id ∧ 0 ≤ addr < 2 ^ 32 ∧ 0 ≤ gsi < 2 ^ 32
  | Override pl => length pl = 8%nat
  | OtherEntry ty pl => 2 < ty < 256 ∧ (length pl ≤ 253)%nat
  end.

Definition encode (e : controller) : list Z :=
  match e with
  | Lapic pr ap fl => [0; 8; pr; ap] ++ le_bytes 4 fl
  | Ioapic id addr gsi => [1; 12; id; 0] ++ le_bytes 4 addr ++ le_bytes 4 gsi
  | Override pl => [2; 10] ++ pl
  | OtherEntry ty pl => [ty; 2 + Z.of_nat (length pl)] ++ pl
  end.

(** What an entry adds. *)
Definition count_entry (st : acpi_state) (e : controller) : acpi_state :=
  match e with
  | Lapic _ _ fl =>
      if Z.testbit fl 0 then
        mk_acpi (rsdp_phys st) (lapic_addr st) (ioapic_addr st) (ioapic_id st) (w8 (cpu_count st + 1))
          (ioapic_count st) (iso_count st) (acpi_ready st)
      else st
  | Ioapic id addr _ =>
      mk_acpi (rsdp_phys st) (lapic_addr st) addr id (cpu_count st) (w8 (ioapic_count st + 1)) (iso_count st) (acpi_ready st)
  | Override _ =>
      mk_acpi (rsdp_phys st) (lapic_addr st) (ioapic_addr st) (ioapic_id st) (cpu_count st)
        (ioapic_count st) (w8 (iso_count st + 1)) (acpi_ready st)
  | OtherEntry _ _ => st
  end.

Lemma encode_head m p e : controller_ok e → bytes_at m p (encode e) →
  rd8 m (p + 1) = Z.of_nat (length (encode e)) ∧ (2 ≤ length (encode e))%nat ∧
  ∀ st, madt_entry m p st = count_entry st e.
Proof.
  intros Hok H. pose proof (λ i b, H i b) as Hb.
  assert (∀ b l, encode e = b :: l → rd8 m p = b) as H0.
  { intros b l E. specialize (Hb 0%nat b). rewrite E, Z.add_0_r in Hb. by apply Hb. }
  assert (∀ b c l, encode e = b :: c :: l → rd8 m (p + 1) = c) as H1.
  { intros b c l E. specialize (Hb 1%nat c). rewrite E in Hb. by apply Hb. }
  unfold madt_entry. cbv zeta.
  destruct e as [pr ap fl|id addr gsi|pl|ty pl]; cbn [encode app] in *;
    rewrite (H0 _ _ eq_refl), (H1 _ _ _ eq_refl).
  - change (0 :: 8 :: pr :: ap :: le_bytes 4 fl) with ([0; 8; pr; ap] ++ le_bytes 4 fl) in *.
    apply bytes_at_app in H as [_ H]. rewrite (rd32_bytes m (p + 4) fl) by (done || apply Hok).
    rewrite length_app, length_le_bytes. split_and!; [done|cbn; lia|]. intros st. cbn [Z.eqb andb Z.leb Z.compare].
    change 0x1 with (Z.ones 1). rewrite Z.land_ones, <- Z.bit0_mod by lia. cbn [count_entry]. by destruct (Z.testbit fl 0).
  - change (1 :: 12 :: id :: 0 :: le_bytes 4 addr ++ le_bytes 4 gsi) with ([1; 12; id; 0] ++ le_bytes 4 addr ++ le_bytes 4 gsi) in *.
    pose proof (Hb 2%nat id eq_refl) as H2. change (p + Z.of_nat 2) with (p + 2) in H2. apply bytes_at_app in H as [_ H]. apply bytes_at_app in H as [H _].
    rewrite (rd32_bytes m (p + 4) addr) by (done || apply Hok). rewrite !length_app, !length_le_bytes.
    split_and!; [done|cbn; lia|]. intros st. cbn. by rewrite H2.
  - cbn in Hok. rewrite !length_cons, Hok. split_and!; [done|lia|done].
  - destruct Hok as [Hty Hl]. rewrite !length_cons. split_and!; [lia|lia|]. intros st.
    rewrite (proj2 (Z.eqb_neq ty 0)), (proj2 (Z.eqb_neq ty 1)), (proj2 (Z.eqb_neq ty 2)) by lia. done.
Qed.

(** C38: [acpi_parse_madt] reads the interrupt controllers.  From a table that
    lists entries of any kinds it takes the address of the local controller,
    counts the enabled processors, the I/O controllers and the overrides, and
    keeps the number and address of the last I/O controller. *)
Theorem acpi_parse_madt_spec m madt es st :
  Forall controller_ok es → bytes_at m (madt + SIZEOF_MADT) (concat (encode <$> es)) →
  rd32 m (madt + 4) = SIZEOF_MADT + Z.of_nat (length (concat (encode <$> es))) →
  acpi_parse_madt m madt st =
    Some (foldl count_entry
      (mk_acpi (rsdp_phys st) (rd32 m (madt + 36)) (ioapic_addr st) (ioapic_id st) (cpu_count st)
         (ioapic_count st) (iso_count st) (acpi_ready st)) es).
Proof.
  intros Hok Hat Hlen. unfold acpi_parse_madt. cbv zeta. rewrite Hlen.
  generalize (mk_acpi (rsdp_phys st) (rd32 m (madt + 36)) (ioapic_addr st) (ioapic_id st) (cpu_count st)
    (ioapic_count st) (iso_count st) (acpi_ready st)). clear st Hlen.
  rewrite Z.add_assoc. generalize dependent (madt + SIZEOF_MADT). intros p Hat.
  assert (length (concat (encode <$> es)) ≤ Z.to_nat (SIZEOF_MADT + Z.of_nat (length (concat (encode <$> es)))))%nat as Hf
    by (unfold SIZEOF_MADT; lia).
  revert Hf. generalize (Z.to_nat (SIZEOF_MADT + Z.of_nat (length (concat (encode <$> es))))). intros fuel. revert fuel p Hat.
  induction Hok as [|e es He _ IH]; intros fuel p Hat Hf st; cbn [fmap list_fmap concat foldl] in *.
  - cbn [madt_loop length]. rewrite (proj2 (Z.leb_gt _ _)) by lia. done.
  - apply bytes_at_app in Hat as [H1 H2]. destruct (encode_head m p e He H1) as (Hl & H2' & Hst).
    rewrite length_app in *. cbn [madt_loop]. rewrite (proj2 (Z.leb_le _ _)) by lia.
    rewrite Hl, (proj2 (Z.ltb_ge _ 2)), (proj2 (Z.ltb_ge _ (p + _))), Hst by lia. cbn [orb].
    destruct fuel as [|fuel]; [lia|]. replace (p + Z.of_nat (length (encode e) + length (concat (encode <$> es)))) with
      (p + Z.of_nat (length (encode e)) + Z.of_nat (length (concat (encode <$> es)))) by lia.
    apply IH; [done|lia].
Qed.
End Acpi.
