(* ===== verification/Tables.v ===== *)
(** * Descriptor tables, exceptions and the system call registers

    src/kernel/arch/x86_64/gdt.c and gdt.s, idt.c and syscall_msr.c: the
    segment descriptors with the task state segment, the interrupt gates and
    their handlers, what an exception prints, and the registers that make the
    [syscall] instruction enter the kernel.  Where the linker puts a function
    is an argument. *)

From S2P Require Import Prelude Memory CString Pmm PmmInit Memfs User BootMem Alloc Sched Ata Console Serial Devices.
From S2P Require Import Mmu Irq.
From stdpp Require Import options.
Import CString Sched Console Serial Timer Pic Pci.

(** ** Segments *)

Module Gdt.

Definition GDT_KERNEL_CODE : Z := 0x08.
Definition GDT_KERNEL_DATA : Z := 0x10.
Definition GDT_USER_CODE : Z := 0x20.
Definition GDT_USER_DATA : Z := 0x18.
Definition GDT_TSS : Z := 0x28.

(** The table of gdt.s. *)
Definition gdt64 : list Z :=
  [0x0000000000000000; 0x00af9a000000ffff; 0x00af92000000ffff; 0x00affa000000ffff; 0x00aff2000000ffff].

(** 104 bytes, rounded up to the alignment of 16. *)
Definition SIZEOF_TSS : Z := 112.

Record tss64 := mk_tss { rsp0 : Z; ist1 : Z; ist2 : Z; iomap_base : Z }.

(** The two words of the descriptor of a segment at [tss_base]. *)
Definition tss_low (tss_base tss_limit : Z) : Z :=
  let v := Z.land tss_limit 0xFFFF in
  let v := Z.lor v (Z.shiftl (Z.land tss_base 0xFFFFFF) 16) in
  let v := Z.lor v (Z.shiftl 0x89 40) in
  let v := Z.lor v (Z.shiftl (Z.land (Z.shiftr tss_limit 16) 0xF) 48) in
  Z.lor v (Z.shiftl (Z.land (Z.shiftr tss_base 24) 0xFF) 56).
Definition tss_high (tss_base : Z) : Z := Z.shiftr tss_base 32.

Definition gdt_entries (tss_base : Z) : list Z :=
  [0x0000000000000000; 0x00af9a000000ffff; 0x00af92000000ffff; 0x00aff2000000ffff; 0x00affa000000ffff;
   tss_low tss_base (SIZEOF_TSS - 1); tss_high tss_base].

(** The loaded table: its address and contents; the task register. *)
Record gdt_state := mk_gdt { gdt_base : Z; gdt_limit : Z; gdt_table : list Z; task_register : Z; tss_kernel : tss64 }.

Section Relocate.
Context {H : Type} `{!Allocator H} {P : Type} `{!Ports P}.

Definition IST_STACK_SIZE : Z := 4096.

(** [tss_base] is the address of [tss_kernel], [stack_ptr] the stack pointer. *)
Definition gdt_relocate_heap (g : log) (tss_base stack_ptr : Z) (t : gdt_state) (h : H) (s : vga P)
    : result (gdt_state * H * vga P) :=
  '(new_table, h) ← al_alloc h 56 16;
  if new_table =? 0 then Ret (t, h, log_error g (chars "Failed to allocate heap-backed GDT") s)
  else
    '(st1, h) ← al_alloc h IST_STACK_SIZE 16;
    '(st2, h) ← al_alloc h IST_STACK_SIZE 16;
    let '(tss, s) :=
      if (st1 =? 0) || (st2 =? 0)
      then (mk_tss stack_ptr (ist1 (tss_kernel t)) (ist2 (tss_kernel t)) SIZEOF_TSS,
            log_error g (chars "Failed to allocate IST stacks") s)
      else (mk_tss stack_ptr (w64 (st1 + IST_STACK_SIZE)) (w64 (st2 + IST_STACK_SIZE)) SIZEOF_TSS, s) in
    let t := mk_gdt new_table (56 - 1) (gdt_entries tss_base) GDT_TSS tss in
    Ret (t, h, log_info g (chars "GDT relocated to heap") s).
End Relocate.

Definition gdt_set_kernel_stack (rsp : Z) (t : gdt_state) : gdt_state :=
  mk_gdt (gdt_base t) (gdt_limit t) (gdt_table t) (task_register t)
    (mk_tss rsp (ist1 (tss_kernel t)) (ist2 (tss_kernel t)) (iomap_base (tss_kernel t))).

(** ** What the descriptors say *)

(** Fields of a segment descriptor, as the processor reads them. *)
Definition seg_present (d : Z) : bool := Z.testbit d 47.
Definition seg_dpl (d : Z) : Z := Z.shiftr d 45 mod 4.
Definition seg_code (d : Z) : bool := Z.testbit d 44 && Z.testbit d 43.
Definition seg_data (d : Z) : bool := Z.testbit d 44 && negb (Z.testbit d 43).
Definition seg_long (d : Z) : bool := Z.testbit d 53.

Definition selected (table : list Z) (selector : Z) : Z := nth (Z.to_nat (selector / 8)) table 0.

(** Base and limit of the task state segment. *)
Definition sys_base (low high : Z) : Z :=
  Z.shiftr low 16 mod 2 ^ 24 + 2 ^ 24 * (Z.shiftr low 56 mod 256) + 2 ^ 32 * (high mod 2 ^ 32).
Definition sys_limit (low : Z) : Z := low mod 2 ^ 16 + 2 ^ 16 * (Z.shiftr low 48 mod 16).
Definition sys_type (low : Z) : Z := Z.shiftr low 40 mod 16.

Lemma tss_low_sum base limit : 0 ≤ base < 2 ^ 64 → 0 ≤ limit < 2 ^ 16 →
  tss_low base limit = limit + base mod 2 ^ 24 * 2 ^ 16 + 0x89 * 2 ^ 40 + base / 2 ^ 24 mod 256 * 2 ^ 56.
Proof.
  intros Hb Hl. unfold tss_low. change 0xFFFF with (Z.ones 16). change 0xFFFFFF with (Z.ones 24).
  change 0xF with (Z.ones 4). change 0xFF with (Z.ones 8). rewrite !Z.land_ones, !Z.shiftr_div_pow2, !Z.shiftl_mul_pow2 by lia.
  rewrite (Z.mod_small limit) by lia. rewrite (Z.div_small limit) by lia. rewrite Z.mod_0_l, Z.mul_0_l, Z.lor_0_r by lia.
  set (x := base mod 2 ^ 24). set (y := base / 2 ^ 24 mod 2 ^ 8).
  assert (0 ≤ x < 2 ^ 24) by (apply Z.mod_pos_bound; lia). assert (0 ≤ y < 2 ^ 8) by (apply Z.mod_pos_bound; lia).
  rewrite (Z.lor_comm limit), (lor_low 16 (x * 2 ^ 16)), (Z.lor_comm (x * 2 ^ 16 + limit)),
    (lor_low 40 (137 * 2 ^ 40)), Z.lor_comm, (lor_low 56 (y * 2 ^ 56)) by dlia.
  change 256 with (2 ^ 8). fold y. lia.
Qed.

(** The descriptors are what their selectors are used for. *)
Theorem gdt_entries_spec base : 0 ≤ base < 2 ^ 64 →
  let t := gdt_entries base in
  (seg_code (selected t GDT_KERNEL_CODE) && seg_long (selected t GDT_KERNEL_CODE) && seg_data (selected t GDT_KERNEL_DATA) &&
   seg_code (selected t GDT_USER_CODE) && seg_long (selected t GDT_USER_CODE) && seg_data (selected t GDT_USER_DATA) = true) ∧
  Forall (λ sel, seg_present (selected t sel) = true ∧ seg_dpl (selected t sel) = 0) [GDT_KERNEL_CODE; GDT_KERNEL_DATA] ∧
  Forall (λ sel, seg_present (selected t sel) = true ∧ seg_dpl (selected t sel) = 3) [GDT_USER_CODE; GDT_USER_DATA] ∧
  sys_base (selected t GDT_TSS) (selected t (GDT_TSS + 8)) = base ∧ sys_limit (selected t GDT_TSS) = SIZEOF_TSS - 1 ∧
  sys_type (selected t GDT_TSS) = 9.
Proof.
  intros Hb. cbv zeta. split_and!; [done|by repeat constructor|by repeat constructor|..].
  - change (selected (gdt_entries base) GDT_TSS) with (tss_low base (SIZEOF_TSS - 1)).
    change (selected (gdt_entries base) (GDT_TSS + 8)) with (tss_high base).
    unfold sys_base, tss_high. rewrite tss_low_sum by (done || (unfold SIZEOF_TSS; lia)). unfold SIZEOF_TSS.
    rewrite !Z.shiftr_div_pow2 by lia. dlia.
  - change (selected (gdt_entries base) GDT_TSS) with (tss_low base (SIZEOF_TSS - 1)).
    unfold sys_limit. rewrite tss_low_sum by (done || (unfold SIZEOF_TSS; lia)). unfold SIZEOF_TSS.
    rewrite !Z.shiftr_div_pow2 by lia. dlia.
  - change (selected (gdt_entries base) GDT_TSS) with (tss_low base (SIZEOF_TSS - 1)).
    unfold sys_type. rewrite tss_low_sum by (done || (unfold SIZEOF_TSS; lia)). unfold SIZEOF_TSS.
    rewrite !Z.shiftr_div_pow2 by lia. dlia.
Qed.

(** In the table of gdt.s the two user descriptors are the other way round. *)
Theorem boot_gdt_differs :
  seg_data (selected gdt64 GDT_USER_CODE) = true ∧ seg_code (selected gdt64 GDT_USER_DATA) = true.
Proof. done. Qed.

(** Relocation takes three new blocks of the heap: the table, and two whose
    ends are the interrupt stacks. *)
Theorem gdt_relocate_spec {H} `{!Allocator H} {AL : AllocatorLaws H} {P} `{!Ports P} g base sp t (h : H) (s : vga P) O :
  al_live h O → al_room h 56 16 →
  (∀ a h1, al_alloc h 56 16 = Ret (a, h1) → al_room h1 IST_STACK_SIZE 16 ∧
     ∀ b h2, al_alloc h1 IST_STACK_SIZE 16 = Ret (b, h2) → al_room h2 IST_STACK_SIZE 16) →
  match gdt_relocate_heap g base sp t h s with
  | Panic _ _ => True
  | Ret (t', h', _) => ∃ a b c,
      al_live h' (c :: b :: a :: O) ∧ gdt_base t' = a ∧ gdt_table t' = gdt_entries base ∧ task_register t' = GDT_TSS ∧
      tss_kernel t' = mk_tss sp (w64 (b + IST_STACK_SIZE)) (w64 (c + IST_STACK_SIZE)) SIZEOF_TSS
  end.
Proof.
  intros Hl R1 R2. unfold gdt_relocate_heap.
  destruct (al_alloc h 56 16) as [[a h1]|] eqn:E1; cbn [mbind result_bind]; [|done].
  destruct (al_alloc_fresh h h1 O 56 16 a Hl ltac:(lia) R1 E1) as (_ & Ha & L1). destruct (R2 a h1 eq_refl) as [R2' R3].
  rewrite (proj2 (Z.eqb_neq a 0)) by done.
  destruct (al_alloc h1 IST_STACK_SIZE 16) as [[b h2]|] eqn:E2; cbn [mbind result_bind]; [|done].
  destruct (al_alloc_fresh h1 h2 _ IST_STACK_SIZE 16 b L1 ltac:(unfold IST_STACK_SIZE; lia) R2' E2) as (_ & Hb & L2).
  destruct (al_alloc h2 IST_STACK_SIZE 16) as [[c h3]|] eqn:E3; cbn [mbind result_bind]; [|done].
  destruct (al_alloc_fresh h2 h3 _ IST_STACK_SIZE 16 c L2 ltac:(unfold IST_STACK_SIZE; lia) (R3 b h2 eq_refl) E3) as (_ & Hc & L3).
  rewrite (proj2 (Z.eqb_neq b 0)), (proj2 (Z.eqb_neq c 0)) by done. cbn [orb]. by exists a, b, c.
Qed.
End Gdt.

(** ** Interrupt gates *)

Module Idt.
Import Gdt.

Record idt_entry := mk_gate {
  offset_low : Z; selector : Z; ist : Z; type_attr : Z; offset_mid : Z; offset_high : Z; zero : Z;
}.

(** The handlers. *)
Inductive isr :=
| isr_divide_error | isr_debug | isr_nmi | isr_breakpoint | isr_overflow | isr_bound_range | isr_invalid_opcode
| isr_device_not_available | isr_double_fault | isr_invalid_tss | isr_segment_not_present | isr_stack_segment_fault
| isr_general_protection | isr_page_fault | isr_x87_fpu_error | isr_alignment_check | isr_machine_check | isr_simd
| isr_virtualization | isr_default | isr_irq0 | isr_irq1 | isr_irq4 | isr_spurious_master | isr_spurious_slave
| isr_syscall.

#[export] Instance isr_eq_dec : EqDecision isr.
Proof. solve_decision. Defined.

(** What the macros EXC_NOERR and EXC_ERR pass to [exception_handler]: the
    vector, and whether there is an error code. *)
Definition exception_of (h : isr) : option (Z * bool) :=
  match h with
  | isr_divide_error => Some (0, false)
  | isr_debug => Some (1, false)
  | isr_nmi => Some (2, false)
  | isr_breakpoint => Some (3, false)
  | isr_overflow => Some (4, false)
  | isr_bound_range => Some (5, false)
  | isr_invalid_opcode => Some (6, false)
  | isr_device_not_available => Some (7, false)
  | isr_double_fault => Some (8, true)
  | isr_invalid_tss => Some (10, true)
  | isr_segment_not_present => Some (11, true)
  | isr_stack_segment_fault => Some (12, true)
  | isr_general_protection => Some (13, true)
  | isr_page_fault => Some (14, true)
  | isr_x87_fpu_error => Some (16, false)
  | isr_alignment_check => Some (17, true)
  | isr_machine_check => Some (18, false)
  | isr_simd => Some (19, false)
  | isr_virtualization => Some (20, false)
  | isr_default => Some (255, false)
  | _ => None
  end.

Section Gates.
(** Where the handlers are. *)
Context (addr : isr → Z).

Definition gate (handler : isr) (type_attr ist_ : Z) : idt_entry :=
  mk_gate (Z.land (addr handler) 0xFFFF) 0x08 (Z.land ist_ 0x7) type_attr
    (Z.land (Z.shiftr (addr handler) 16) 0xFFFF) (Z.land (Z.shiftr (addr handler) 32) 0xFFFFFFFF) 0.

Definition set_gate (vec : Z) (handler : isr) (ist : Z) (t : list idt_entry) : list idt_entry :=
  <[Z.to_nat vec := gate handler 0x8E ist]> t.
Definition set_gate_user (vec : Z) (handler : isr) (ist : Z) (t : list idt_entry) : list idt_entry :=
  <[Z.to_nat vec := gate handler 0xEE ist]> (set_gate vec handler ist t).

(** The calls of [set_gate] behind the loop, in their order. *)
Definition gates : list (Z * isr * Z) :=
  [(0, isr_divide_error, 0); (1, isr_debug, 0); (2, isr_nmi, 0); (3, isr_breakpoint, 0); (4, isr_overflow, 0);
   (5, isr_bound_range, 0); (6, isr_invalid_opcode, 0); (7, isr_device_not_available, 0); (8, isr_double_fault, 0);
   (10, isr_invalid_tss, 0); (11, isr_segment_not_present, 0); (12, isr_stack_segment_fault, 0);
   (13, isr_general_protection, 0); (14, isr_page_fault, 0); (16, isr_x87_fpu_error, 0); (17, isr_alignment_check, 0);
   (18, isr_machine_check, 0); (19, isr_simd, 0); (20, isr_virtualization, 0); (32, isr_irq0, 1); (33, isr_irq1, 1);
   (36, isr_irq4, 1); (0x27, isr_spurious_master, 0); (0x2F, isr_spurious_slave, 0)].

Definition put_gate (t : list idt_entry) (g : Z * isr * Z) : list idt_entry := set_gate g.1.1 g.1.2 g.2 t.

Definition idt_build (t : list idt_entry) : list idt_entry :=
  let t := foldl (λ t i, set_gate i isr_default 0 t) t (seqZ 0 256) in
  let t := foldl put_gate t gates in
  set_gate_user 0x80 isr_syscall 0 t.

(** Address and contents of [idt_table]; the register. *)
Record idt_state := mk_idt { idt_addr : Z; idt_table : list idt_entry; idtr_limit : Z; idtr_base : Z }.

Definition idt_limit : Z := w16 (16 * 256 - 1).
Definition idt_load (t : idt_state) : idt_state := mk_idt (idt_addr t) (idt_table t) idt_limit (idt_addr t).

(** [idt_table t] is the content of [idt_boot]. *)
Definition idt_init (idt_boot : Z) (t : idt_state) : idt_state :=
  idt_load (mk_idt idt_boot (idt_build (idt_table t)) (idtr_limit t) (idtr_base t)).

(** [kalloc_zero] gives a table of zero words. *)
Definition idt_relocate_heap {H} `{!Allocator H} {P} `{!Ports P} (g : log) (t : idt_state) (h : H) (s : vga P)
    : result (idt_state * H * vga P) :=
  '(new_table, h) ← al_alloc h (16 * 256) 16;
  if new_table =? 0 then Ret (t, h, log_error g (chars "Failed to allocate heap-backed IDT") s)
  else
    let t := mk_idt new_table (idt_build (replicate 256 (mk_gate 0 0 0 0 0 0 0))) (idtr_limit t) (idtr_base t) in
    Ret (idt_load t, h, log_info g (chars "IDT relocated to heap") s).
End Gates.

(** ** What the gates say *)

(** The fields of a gate, as the processor reads them. *)
Definition gate_offset (e : idt_entry) : Z := offset_low e + 2 ^ 16 * offset_mid e + 2 ^ 32 * offset_high e.
Definition gate_present (e : idt_entry) : bool := Z.testbit (type_attr e) 7.
Definition gate_dpl (e : idt_entry) : Z := Z.shiftr (type_attr e) 5 mod 4.
Definition gate_type (e : idt_entry) : Z := type_attr e mod 16.

(** The exceptions the processor has defined vectors for, and those it pushes
    an error code for. *)
Definition defined_exception (v : Z) : bool := (v <=? 20) && negb (v =? 9) && negb (v =? 15).
Definition pushes_error (v : Z) : bool := (v =? 8) || (10 <=? v) && (v <=? 14) || (v =? 17).

(** The lines of the timer, the keyboard and the serial port, behind the
    vector the controllers are programmed with. *)
Definition irq_handler (v : Z) : option isr :=
  if v =? 0x20 + 0 then Some isr_irq0 else if v =? 0x20 + Irq.IRQ_KEYBOARD then Some isr_irq1
  else if v =? 0x20 + Irq.IRQ_SERIAL_COM1 then Some isr_irq4 else None.

(** [h] is the right handler for vector [v]. *)
Definition handles (h : isr) (v : Z) : bool :=
  if defined_exception v then bool_decide (exception_of h = Some (v, pushes_error v))
  else
    match irq_handler v with
    | Some i => bool_decide (h = i)
    | None =>
        if v =? 0x20 + 7 then bool_decide (h = isr_spurious_master)
        else if v =? 0x20 + 15 then bool_decide (h = isr_spurious_slave)
        else if v =? 0x80 then bool_decide (h = isr_syscall)
        else bool_decide (exception_of h = Some (255, false))
    end.

(** The last gate put into a slot is the one that is there. *)
Fixpoint last_gate (l : list (Z * isr * Z)) (v : nat) : option (isr * Z) :=
  match l with
  | [] => None
  | g :: l' => match last_gate l' v with Some x => Some x | None => if (Z.to_nat g.1.1 =? v)%nat then Some (g.1.2, g.2) else None end
  end.

Lemma put_gates_lookup addr l : ∀ t (v : nat), (v < length t)%nat →
  foldl (put_gate addr) t l !! v = match last_gate l v with Some (h, i) => Some (gate addr h 0x8E i) | None => t !! v end.
Proof.
  induction l as [|g l IH]; intros t v Hv; [done|]. cbn [foldl last_gate].
  rewrite IH by (unfold put_gate, set_gate; by rewrite length_insert). destruct (last_gate l v) as [[h i]|]; [done|].
  unfold put_gate, set_gate. destruct (Nat.eqb_spec (Z.to_nat g.1.1) v) as [->|Hne].
  - by rewrite list_lookup_insert_eq.
  - by rewrite list_lookup_insert_ne.
Qed.

Lemma set_all_lookup addr n : ∀ t (v : nat), (v < length t)%nat →
  foldl (λ t i, set_gate addr i isr_default 0 t) t (seqZ 0 (Z.of_nat n)) !! v =
    if (v <? n)%nat then Some (gate addr isr_default 0x8E 0) else t !! v.
Proof.
  induction n as [|n IH]; intros t v Hv; [done|].
  rewrite Nat2Z.inj_succ, <- Z.add_1_r, seqZ_app, foldl_app by lia.
  replace (seqZ (0 + Z.of_nat n) 1) with [Z.of_nat n] by (rewrite seqZ_cons, seqZ_nil by lia; f_equal; lia).
  cbn [foldl]. unfold set_gate at 1. rewrite Nat2Z.id.
  assert (∀ l t, length (foldl (λ t i, set_gate addr i isr_default 0 t) t l) = length t) as Hlen.
  { induction l as [|i l IHl]; intros t'; [done|]. cbn [foldl]. rewrite IHl. unfold set_gate. by rewrite length_insert. }
  destruct (decide (v = n)) as [->|Hne].
  - rewrite list_lookup_insert_eq by (by rewrite Hlen). by rewrite (proj2 (Nat.ltb_lt _ _)) by lia.
  - rewrite list_lookup_insert_ne, IH by done.
    destruct (Nat.ltb_spec v n), (Nat.ltb_spec v (S n)); try done; lia.
Qed.

Lemma gate_offset_spec addr h a i : 0 ≤ addr h < 2 ^ 64 → gate_offset (gate addr h a i) = addr h.
Proof.
  intros Ha. unfold gate_offset, gate. cbn. change 0xFFFF with (Z.ones 16). change 0xFFFFFFFF with (Z.ones 32).
  rewrite !Z.land_ones, !Z.shiftr_div_pow2 by lia. dlia.
Qed.

(** Handler, attributes and stack of a vector. *)
Definition slot (v : nat) : isr * Z * Z :=
  if (v =? 128)%nat then (isr_syscall, 0xEE, 0)
  else match last_gate gates v with Some (h, i) => (h, 0x8E, i) | None => (isr_default, 0x8E, 0) end.

Lemma idt_build_lookup addr t v : length t = 256%nat → (v < 256)%nat →
  idt_build addr t !! v = Some (gate addr (slot v).1.1 (slot v).1.2 (slot v).2).
Proof.
  intros Ht Hv. unfold idt_build, set_gate_user, slot. change (Z.to_nat 0x80) with 128%nat.
  assert (∀ l t, length (foldl (put_gate addr) t l) = length t) as Hp.
  { induction l as [|i l IHl]; intros t'; [done|]. cbn [foldl]. rewrite IHl. unfold put_gate, set_gate. by rewrite length_insert. }
  assert (∀ l t, length (foldl (λ t i, set_gate addr i isr_default 0 t) t l) = length t) as Hlen.
  { induction l as [|i l IHl]; intros t'; [done|]. cbn [foldl]. rewrite IHl. unfold set_gate. by rewrite length_insert. }
  destruct (Nat.eqb_spec v 128) as [->|Hne].
  - rewrite list_lookup_insert_eq; [done|]. unfold set_gate. rewrite length_insert, Hp, Hlen. lia.
  - rewrite list_lookup_insert_ne by done. unfold set_gate at 1. change (Z.to_nat 128) with 128%nat.
    rewrite list_lookup_insert_ne by done. rewrite put_gates_lookup by (rewrite Hlen; lia).
    destruct (last_gate gates v) as [[h i]|]; [done|]. change 256 with (Z.of_nat 256).
    rewrite set_all_lookup by lia. by rewrite (proj2 (Nat.ltb_lt _ _)).
Qed.

(** Every slot at once. *)
Definition slot_ok (v : Z) : bool :=
  let '(h, a, i) := slot (Z.to_nat v) in
  handles h v && Z.testbit a 7 && (Z.shiftr a 5 mod 4 =? if v =? 0x80 then 3 else 0) && (a mod 16 =? 14) &&
  (Z.land i 0x7 =? if bool_decide (is_Some (irq_handler v)) then 1 else 0).

Lemma slots_ok v : 0 ≤ v < 256 → slot_ok v = true.
Proof.
  intros Hv. assert (forallb slot_ok (seqZ 0 256) = true) as H by (vm_compute; reflexivity).
  rewrite forallb_forall in H. apply H, list_elem_of_In, elem_of_seqZ. lia.
Qed.

(** C32: the interrupt table.  Whatever the table held before, [idt_build] makes
    every one of its 256 entries a present 64-bit interrupt gate into the
    kernel's code segment whose parts add up to the address of the handler of
    its vector: for an exception the one that is told this vector and takes an
    error code exactly if the processor pushes one, for the timer, keyboard and
    serial line the handler of the line, for 0x80 the system call.  Only 0x80
    can be raised from user mode, and only the three device interrupts change
    to the interrupt stack. *)
Theorem idt_build_spec addr t v :
  (∀ h, 0 ≤ addr h < 2 ^ 64) → length t = 256%nat → 0 ≤ v < 256 →
  ∃ e h, idt_build addr t !! Z.to_nat v = Some e ∧ gate_offset e = addr h ∧ handles h v = true ∧
    selector e = GDT_KERNEL_CODE ∧ gate_present e = true ∧ gate_type e = 14 ∧
    gate_dpl e = (if v =? 0x80 then 3 else 0) ∧
    ist e = (if bool_decide (is_Some (irq_handler v)) then 1 else 0).
Proof.
  intros Ha Ht Hv. pose proof (slots_ok v Hv) as H. unfold slot_ok in H.
  pose proof (idt_build_lookup addr t (Z.to_nat v) Ht ltac:(lia)) as Hl.
  destruct (slot (Z.to_nat v)) as [[h a] i]. cbn [fst snd] in *.
  apply andb_true_iff in H as [H Hi%Z.eqb_eq]. apply andb_true_iff in H as [H Hty%Z.eqb_eq].
  apply andb_true_iff in H as [H Hd%Z.eqb_eq]. apply andb_true_iff in H as [Hh Hp].
  exists (gate addr h a i), h. rewrite gate_offset_spec by done. done.
Qed.
End Idt.

(** ** Interrupt handlers and the report of an exception *)

Module Handlers.
Import Gdt Idt Mmu ConsoleSpec SerialSpec.

Section Devices.
Context {U H T P : Type} `{!Ports P}.
Implicit Types p : P.

(** [frame] is the code segment and the address of the interrupted
    instruction; the new address is returned. *)
Definition isr_irq0 (trampoline : Z) (frame : Z * Z) (t : timer U) (s : sched H T) (u : U) p
    : Z * timer U * sched H T * U * P :=
  let '(t, s, u) := timer_on_tick t s u in
  let p := pic_send_eoi 0 p in
  let '(_, rip, s) := sched_request_preempt trampoline (Some frame) s in
  (rip, t, s, u, p).

(** The ports [irq_dispatch] reads: the values it sees and what is left. *)
Definition keyboard_reads p : (Z → Z) * P :=
  let '(v, p) := inb p Irq.KB_DATA_PORT in (λ _, v, p).
Definition serial_reads p : (Z → Z) * P :=
  let '(lsr, p) := inb p (Irq.COM1_PORT + 5) in
  let '(v, p) := inb p (if negb (Z.land (w8 lsr) 1 =? 0) then Irq.COM1_PORT else Irq.COM1_PORT + 2) in
  (λ port, if port =? Irq.COM1_PORT + 5 then lsr else v, p).

Definition isr_irq1 (s : Irq.irqs) p : Irq.irqs * list Irq.wq_op * P :=
  let '(read, p) := keyboard_reads p in
  let '(s, ops) := Irq.irq_dispatch read s Irq.IRQ_KEYBOARD in
  (s, ops, pic_send_eoi 1 p).
Definition isr_irq4 (s : Irq.irqs) p : Irq.irqs * list Irq.wq_op * P :=
  let '(read, p) := serial_reads p in
  let '(s, ops) := Irq.irq_dispatch read s Irq.IRQ_SERIAL_COM1 in
  (s, ops, pic_send_eoi 4 p).

Definition isr_spurious_master p : P := p.
Definition isr_spurious_slave p : P := outb p 0x20 0x20.

Definition idt_get_timer_ticks (t : timer U) : Z := timer_get_ticks t.
End Devices.

Section Report.
Context {P : Type} `{!Ports P}.
Implicit Types s : vga P.

Definition to_serial (m : list Z) s : vga P := on_port (serial_write m) s.
Definition to_serial_hex (v : Z) s : vga P := on_port (serial_write_hex v) s.

Definition write_both (label : list Z) (value : Z) s : vga P :=
  let s := console_write label s in
  let s := console_write_hex value s in
  let s := console_write [10] s in
  let s := to_serial label s in
  let s := to_serial_hex value s in
  to_serial [13; 10] s.

(** The texts for the bits of the error code. *)
Definition err_text (err : Z) : list (list Z) :=
  [if has err 1 then chars "P" else chars "NP";
   if has err (Z.shiftl 1 1) then chars " W" else chars " R";
   if has err (Z.shiftl 1 2) then chars " U" else chars " S";
   if has err (Z.shiftl 1 4) then chars " IX" else chars " DATA"] ++
  (if has err (Z.shiftl 1 3) then [chars " RSVD"] else []) ++
  (if has err (Z.shiftl 1 6) then [chars " SS"] else []).

(** The entries of the kernel's tables on the way to [cr2]. *)
Definition dump_walk (m : memory) (pml4_table cr2 : Z) s : vga P :=
  let pml4e := entry_at m pml4_table (pml4_index cr2) in
  let s := write_both (chars "PML4E=") pml4e s in
  if has pml4e 1 then
    let pdpte := entry_at m (table_addr pml4e) (pdpt_index cr2) in
    let s := write_both (chars "PDPTE=") pdpte s in
    if has pdpte 1 then
      if has pdpte (Z.shiftl 1 7) then write_both (chars "PDPE 1G=") pdpte s
      else
        let pde := entry_at m (table_addr pdpte) (pd_index cr2) in
        let s := write_both (chars "PDE=") pde s in
        if has pde 1 then
          if has pde (Z.shiftl 1 7) then write_both (chars "PDE 2M=") pde s
          else write_both (chars "PTE=") (entry_at m (table_addr pde) (pt_index cr2)) s
        else s
    else s
  else s.

Definition log_page_fault_details (m : memory) (pml4_table cr2 err : Z) s : vga P :=
  let s := console_set_color 0x4F s in
  let s := console_write (chars "PAGE FAULT @") s in
  let s := console_write_hex cr2 s in
  let s := console_write (chars " ERR=") s in
  let s := console_write_hex err s in
  let s := console_write (chars " [") s in
  let s := foldl (λ s t, console_write t s) s (err_text err) in
  let s := console_write (chars " ]" ++ [10]) s in
  let s := to_serial (chars "PAGE FAULT @") s in
  let s := to_serial_hex cr2 s in
  let s := to_serial (chars " ERR=") s in
  let s := to_serial_hex err s in
  let s := to_serial (chars " [") s in
  let s := foldl (λ s t, to_serial t s) s (err_text err) in
  let s := to_serial (chars " ]" ++ [13; 10]) s in
  dump_walk m pml4_table cr2 s.

Definition dump_regs (frame : option (Z * Z * Z)) (err cr2 vec : Z) (has_err : bool) s : vga P :=
  match frame with
  | None => s
  | Some (rip, cs, rflags) =>
      let s := console_set_color 0x4F s in
      let s := console_write (chars "Vector=") s in
      let s := console_write_hex vec s in
      let s := console_write (chars " RIP=") s in
      let s := console_write_hex rip s in
      let s := console_write ([10] ++ chars "CS=") s in
      let s := console_write_hex cs s in
      let s := console_write (chars " RFLAGS=") s in
      let s := console_write_hex rflags s in
      let s := console_write [10] s in
      let s := to_serial (chars "Vector=") s in
      let s := to_serial_hex vec s in
      let s := to_serial (chars " RIP=") s in
      let s := to_serial_hex rip s in
      let s := to_serial (chars " CS=") s in
      let s := to_serial_hex cs s in
      let s := to_serial (chars " RFLAGS=") s in
      let s := to_serial_hex rflags s in
      let s := to_serial [13; 10] s in
      let s :=
        if has_err then
          let s := console_write (chars "ERR=") s in
          let s := console_write_hex err s in
          let s := console_write [10] s in
          let s := to_serial (chars "ERR=") s in
          let s := to_serial_hex err s in
          to_serial [13; 10] s
        else s in
      if vec =? 14 then
        let s := console_write (chars "CR2=") s in
        let s := console_write_hex cr2 s in
        let s := console_write [10] s in
        let s := to_serial (chars "CR2=") s in
        let s := to_serial_hex cr2 s in
        to_serial [13; 10] s
      else s
  end.

Definition log_exception (label : list Z) (vec err : Z) (has_err : bool) (rip : Z) s : vga P :=
  let s := console_set_color 0x4F s in
  let s := console_write (chars "Exception: ") s in
  let s := console_write label s in
  let s := console_write (chars " (#") s in
  let s := console_write_hex vec s in
  let s := console_write (chars ") RIP=") s in
  let s := console_write_hex rip s in
  let s := if has_err then console_write_hex err (console_write (chars " ERR=") s) else s in
  let s := console_write [10] s in
  let s := to_serial (chars "Exception: ") s in
  let s := to_serial label s in
  let s := to_serial (chars " (#") s in
  let s := to_serial_hex vec s in
  let s := to_serial (chars ") RIP=") s in
  let s := to_serial_hex rip s in
  let s := if has_err then to_serial_hex err (to_serial (chars " ERR=") s) else s in
  to_serial [13; 10] s.

(** What [exception_handler] prints about an exception it does not resolve,
    before it ends the task or panics. *)
Definition report (m : memory) (pml4_table : Z) (label : list Z) (vec err : Z) (has_err : bool) (cr2 : Z)
    (frame : option (Z * Z * Z)) s : vga P :=
  let rip := match frame with Some (rip, _, _) => rip | None => 0 end in
  let s := log_exception label vec err has_err rip s in
  let s := if vec =? 14 then log_page_fault_details m pml4_table cr2 err s else s in
  dump_regs frame err cr2 vec has_err s.
End Report.

(** ** What the handlers do *)

(** A timer interrupt is acknowledged once, at the master; the clock advances,
    every callback is called, and the interrupted code goes on, or goes to the
    trampoline if the scheduler asks for it. *)
Theorem isr_irq0_spec {U H T P} `{!Ports P} `{!Pic8259 P} trampoline cs rip0 (t : timer U) cbs (s : sched H T) u (p : P) :
  registered t cbs →
  let '(rip, t', s', u', p') := isr_irq0 trampoline (cs, rip0) t s u p in
  timer_get_ticks t' = w64 (timer_get_ticks t + 1) ∧ u' = foldl (λ u cb, cb (timer_get_ticks t') u) u cbs ∧
  (rip = rip0 ∨ rip = trampoline ∧ Z.land cs 0x3 = 0) ∧
  eois (pic false p') = S (eois (pic false p)) ∧ eois (pic true p') = eois (pic true p).
Proof.
  intros Hr. unfold isr_irq0. pose proof (timer_tick_spec t cbs s u Hr) as Ht.
  destruct (timer_on_tick t s u) as [[t' s1] u'].
  destruct (pic_eoi_spec 0 p) as [E1 E2]. cbn [Z.leb Z.compare] in E2.
  destruct (sched_request_preempt trampoline (Some (cs, rip0)) s1) as [[r rip] s2] eqn:Er.
  split_and!; [apply Ht|apply Ht| |done|done].
  unfold sched_request_preempt in Er. repeat (case_match; simplify_eq/=; try (by left)).
  right. split; [done|]. by apply Z.eqb_eq, negb_false_iff.
Qed.

(** ** What is reported *)

Section Text.
Context {P : Type} `{!Ports P} `{!Uart P}.
Implicit Types s : vga P.

(** [c] is written to the screen and [r] to the serial line. *)
Definition says (c r : list Z) s s' : Prop :=
  view s' = view (arch_console_write c s) ∧ sent (vports s') = sent (vports s) ++ with_cr r.

Lemma says_nil s : says [] [] s s.
Proof using Type. split; [done|]. by rewrite app_nil_r. Qed.

Lemma says_app c1 r1 c2 r2 s1 s2 s3 : says c1 r1 s1 s2 → says c2 r2 s2 s3 → says (c1 ++ c2) (r1 ++ r2) s1 s3.
Proof using Type.
  intros [V1 S1] [V2 S2]. split.
  - rewrite write_app, V2. by apply write_view.
  - rewrite S2, S1. unfold with_cr. by rewrite bind_app, app_assoc.
Qed.

Lemma console_says m s : says (cstr m) [] s (console_write m s).
Proof using Type. rewrite console_write_text. split; [done|]. rewrite write_sent. symmetry. apply app_nil_r. Qed.
Lemma console_hex_says v s : says (hex_text v) [] s (console_write_hex v s).
Proof using Type. unfold console_write_hex. split; [done|]. rewrite write_sent. symmetry. apply app_nil_r. Qed.
Lemma serial_says m s : says [] (cstr m) s (to_serial m s).
Proof using Type. split; [done|]. apply on_serial_sent. Qed.

Lemma hex_text_range v : Forall (λ c, 10 < c < 256) (hex_text v).
Proof using Type.
  clear. unfold hex_text. apply Forall_app. split; [repeat constructor; lia|]. apply Forall_fmap, Forall_forall. intros i _. cbn.
  change 0xF with (Z.ones 4). rewrite Z.land_ones by lia.
  pose proof (Z.mod_pos_bound (Z.shiftr v (60 - 4 * i)) (2 ^ 4) ltac:(lia)) as H. unfold hex_digit.
  destruct (_ <? _) eqn:E; lia.
Qed.

Lemma serial_hex_says v s : says [] (hex_text v) s (to_serial_hex v s).
Proof using Type.
  split; [done|]. unfold to_serial_hex, on_port, serial_write_hex. cbn [vports]. generalize (hex_text_range v), (vports s). generalize (hex_text v).
  induction l as [|c l IH]; intros Hl p; [symmetry; apply app_nil_r|]. apply Forall_cons in Hl as [Hc Hl].
  cbn [foldl]. rewrite IH, write_char_sent by done. unfold with_cr. cbn [mbind list_bind].
  rewrite (proj2 (Z.eqb_neq c 10)) by lia. by rewrite <- app_assoc.
Qed.

Lemma says_if (b : bool) c r s s' : says c r s s' → says (if b then c else []) (if b then r else []) s (if b then s' else s).
Proof using Type. intros H. destruct b; [done|apply says_nil]. Qed.

(** Setting the color that is set. *)
Lemma says_color c r s s' : current_color s = 0x4F → says c r (console_set_color 0x4F s) s' → says c r s s'.
Proof using Type. intros Hc [V S]. split; [|exact S]. rewrite V. apply write_view. unfold view. cbn. by rewrite Hc. Qed.

Lemma says_keeps c r s s' : says c r s s' → current_color s' = current_color s.
Proof using Type.
  intros [V _]. pose proof (write_color c s) as Hc. unfold view in V. congruence.
Qed.
End Text.

(** The lines of the report, with [nl] for the end of a line. *)
Definition exception_text (nl label : list Z) (vec err : Z) (has_err : bool) (rip : Z) : list Z :=
  chars "Exception: " ++ cstr label ++ chars " (#" ++ hex_text vec ++ chars ") RIP=" ++ hex_text rip ++
  (if has_err then chars " ERR=" ++ hex_text err else []) ++ nl.

Definition line_of (nl label : list Z) (v : Z) : list Z := label ++ hex_text v ++ nl.

(** The entries on the way to [v] in the tables at [root]. *)
Definition walk_entries (m : memory) (root v : Z) : list (list Z * Z) :=
  let e4 := entry_at m root (pml4_index v) in
  (chars "PML4E=", e4) ::
  if negb (has e4 1) then []
  else
    let e3 := entry_at m (table_addr e4) (pdpt_index v) in
    (chars "PDPTE=", e3) ::
    if negb (has e3 1) then []
    else if has e3 0x80 then [(chars "PDPE 1G=", e3)]
    else
      let e2 := entry_at m (table_addr e3) (pd_index v) in
      (chars "PDE=", e2) ::
      if negb (has e2 1) then []
      else if has e2 0x80 then [(chars "PDE 2M=", e2)]
      else [(chars "PTE=", entry_at m (table_addr e2) (pt_index v))].

Definition walk_text (nl : list Z) (l : list (list Z * Z)) : list Z := l ≫= λ x, line_of nl x.1 x.2.

Definition fault_text (nl : list Z) (m : memory) (root cr2 err : Z) : list Z :=
  chars "PAGE FAULT @" ++ hex_text cr2 ++ chars " ERR=" ++ hex_text err ++ chars " [" ++ concat (err_text err) ++
  chars " ]" ++ nl ++ walk_text nl (walk_entries m root cr2).

Definition regs_text (nl cs_label : list Z) (frame : Z * Z * Z) (err cr2 vec : Z) (has_err : bool) : list Z :=
  let '(rip, cs, rflags) := frame in
  chars "Vector=" ++ hex_text vec ++ chars " RIP=" ++ hex_text rip ++ cs_label ++ hex_text cs ++
  chars " RFLAGS=" ++ hex_text rflags ++ nl ++
  (if has_err then line_of nl (chars "ERR=") err else []) ++ (if vec =? 14 then line_of nl (chars "CR2=") cr2 else []).

Definition report_text (nl cs_label : list Z) (m : memory) (root : Z) (label : list Z) (vec err : Z) (has_err : bool)
    (cr2 : Z) (frame : Z * Z * Z) : list Z :=
  exception_text nl label vec err has_err frame.1.1 ++
  (if vec =? 14 then fault_text nl m root cr2 err else []) ++ regs_text nl cs_label frame err cr2 vec has_err.

Section Report.
Context {P : Type} `{!Ports P} `{!Uart P}.
Implicit Types s : vga P.

Lemma says_eq c r c' r' s s' : says c r s s' → c = c' → r = r' → says c' r' s s'.
Proof using Type. by intros H -> ->. Qed.

(** Follows a sequence of writes backwards. *)
Ltac says_step :=
  lazymatch goal with
  | |- says _ _ ?s (console_write ?m ?s') => eapply says_app; [|apply console_says]
  | |- says _ _ ?s (console_write_hex ?m ?s') => eapply says_app; [|apply console_hex_says]
  | |- says _ _ ?s (to_serial ?m ?s') => eapply says_app; [|apply serial_says]
  | |- says _ _ ?s (to_serial_hex ?m ?s') => eapply says_app; [|apply serial_hex_says]
  end.
Ltac says_all := eapply says_eq; [repeat says_step; apply says_nil| |].
Ltac texts := cbn [app]; rewrite ?app_nil_r, <- ?app_assoc; reflexivity.

Lemma write_both_says label v s :
  cstr label = label → says (line_of [10] label v) (line_of [13; 10] label v) s (write_both label v s).
Proof using Type. intros Hl. unfold write_both, line_of. says_all; rewrite Hl; texts. Qed.

Lemma log_exception_says label vec err has_err rip s : current_color s = 0x4F →
  says (exception_text [10] label vec err has_err rip) (exception_text [13; 10] label vec err has_err rip) s
    (log_exception label vec err has_err rip s).
Proof using Type.
  intros Hc. apply says_color; [done|]. unfold log_exception, exception_text. destruct has_err; says_all; texts.
Qed.

Lemma says_then c1 r1 c2 r2 s1 s2 s3 : current_color s1 = 0x4F → says c1 r1 s1 s2 →
  (current_color s2 = 0x4F → says c2 r2 s2 s3) → says (c1 ++ c2) (r1 ++ r2) s1 s3.
Proof using Type. intros Hc H1 H2. eapply says_app; [done|]. apply H2. by rewrite (says_keeps _ _ _ _ H1). Qed.

Lemma foldl_write_both l s : Forall (λ x, cstr x.1 = x.1) l →
  says (walk_text [10] l) (walk_text [13; 10] l) s (foldl (λ s x, write_both x.1 x.2 s) s l).
Proof using Type.
  intros Hl. revert s. induction Hl as [|x l Hx _ IH]; intros s; [apply says_nil|].
  eapply says_app; [by apply write_both_says|apply IH].
Qed.

Lemma dump_walk_lines m root v s :
  dump_walk m root v s = foldl (λ s x, write_both x.1 x.2 s) s (walk_entries m root v).
Proof using Type.
  unfold dump_walk, walk_entries. change (Z.shiftl 1 7) with 0x80. cbv zeta. cbn [foldl fst snd].
  destruct (has _ 1); [|done]. cbn [negb foldl fst snd]. destruct (has _ 1); [|done]. cbn [negb].
  destruct (has _ 0x80); [done|]. cbn [foldl fst snd]. destruct (has _ 1); [|done]. cbn [negb]. by destruct (has _ 0x80).
Qed.

Lemma walk_labels m root v : Forall (λ x, cstr x.1 = x.1) (walk_entries m root v).
Proof using Type. clear. unfold walk_entries. repeat (case_match || constructor); done. Qed.

Lemma err_text_says err s :
  says (concat (err_text err)) [] s (foldl (λ s t, console_write t s) s (err_text err)) ∧
  says [] (concat (err_text err)) s (foldl (λ s t, to_serial t s) s (err_text err)).
Proof using Type.
  assert (Forall (λ t, cstr t = t) (err_text err)) as H by (unfold err_text; repeat (case_match || constructor); done).
  revert s. induction H as [|t l Ht _ IH]; intros s; [split; apply says_nil|]. cbn [foldl concat]. split.
  - change (@nil Z) with (@nil Z ++ []). eapply says_app; [|apply IH]. rewrite <- Ht at 1. apply console_says.
  - change (@nil Z) with (@nil Z ++ []) at 1. eapply says_app; [|apply IH]. rewrite <- Ht at 1. apply serial_says.
Qed.

Lemma page_fault_says m root cr2 err s : current_color s = 0x4F →
  says (fault_text [10] m root cr2 err) (fault_text [13; 10] m root cr2 err) s (log_page_fault_details m root cr2 err s).
Proof using Type.
  intros Hc. apply says_color; [done|]. unfold log_page_fault_details. rewrite dump_walk_lines.
  eapply says_eq; [eapply says_app; [|apply foldl_write_both, walk_labels]| |].
  { says_step. eapply says_app; [|apply err_text_says]. repeat says_step. eapply says_app; [|apply err_text_says].
    repeat says_step. apply says_nil. }
  - unfold fault_text. cbn [app]. rewrite ?app_nil_r, <- ?app_assoc. reflexivity.
  - unfold fault_text. cbn [app]. rewrite ?app_nil_r, <- ?app_assoc. reflexivity.
Qed.

Lemma dump_regs_says frame err cr2 vec has_err s : current_color s = 0x4F →
  says (regs_text [10] ([10] ++ chars "CS=") frame err cr2 vec has_err)
       (regs_text [13; 10] (chars " CS=") frame err cr2 vec has_err) s (dump_regs (Some frame) err cr2 vec has_err s).
Proof using Type.
  intros Hc. apply says_color; [done|]. destruct frame as [[rip cs] rflags]. unfold dump_regs, regs_text, line_of.
  destruct has_err, (vec =? 14); says_all; texts.
Qed.

(** The report of an exception.  On the screen, white on red, and on the serial
    line stand the name and vector of the exception, the address of the
    instruction, the error code, for a page fault the faulting address, the bits
    of the error code and the entries of the kernel's page tables on the way to
    that address, and the registers; the last entry is the one [pte_lookup]
    finds, if the address has a slot for a 4 KiB page. *)
Theorem report_spec m root label vec err has_err cr2 frame s :
  says (report_text [10] ([10] ++ chars "CS=") m root label vec err has_err cr2 frame)
       (report_text [13; 10] (chars " CS=") m root label vec err has_err cr2 frame) (console_set_color 0x4F s)
       (report m root label vec err has_err cr2 (Some frame) s) ∧
  (∀ slot, pte_lookup m root cr2 = Some slot → last (walk_entries m root cr2) = Some (chars "PTE=", rd64 m slot)).
Proof using Type.
  split.
  - change (report m root label vec err has_err cr2 (Some frame) s) with
      (report m root label vec err has_err cr2 (Some frame) (console_set_color 0x4F s)).
    assert (current_color (console_set_color 0x4F s) = 0x4F) as Hc by done. revert Hc. generalize (console_set_color 0x4F s).
    clear s. intros s Hc. unfold report, report_text. destruct frame as [[rip cs] rflags].
    apply (says_then _ _ _ _ _ _ _ Hc (log_exception_says label vec err has_err rip s Hc)). intros Hc1.
    destruct (vec =? 14) eqn:Ev; [|by apply dump_regs_says].
    apply (says_then _ _ _ _ _ _ _ Hc1 (page_fault_says m root cr2 err _ Hc1)). intros Hc2. by apply dump_regs_says.
  - intros slot. unfold pte_lookup, walk_entries. change PTE_PRESENT with 1. change PTE_PS with 0x80. cbv zeta.
    destruct (has _ 1); [|done]. cbn [negb]. destruct (has _ 1), (has _ 0x80); cbn [negb orb]; try done.
    destruct (has _ 1), (has _ 0x80); cbn [negb orb]; try done. by intros [= <-].
Qed.
End Report.
End Handlers.

(** ** The registers of the system call instruction *)

Module Msr.
Import Gdt.

Definition MSR_EFER : Z := 0xC0000080.
Definition MSR_STAR : Z := 0xC0000081.
Definition MSR_LSTAR : Z := 0xC0000082.
Definition MSR_SFMASK : Z := 0xC0000084.
Definition MSR_GS_BASE : Z := 0xC0000101.
Definition MSR_KERNEL_GS_BASE : Z := 0xC0000102.

(** The registers, as pairs of halves. *)
Definition msrs : Type := Z → Z * Z.

Definition arch_wrmsr (msr val : Z) (r : msrs) : msrs :=
  let low := w32 (Z.land val 0xFFFFFFFF) in
  let high := w32 (Z.shiftr val 32) in
  λ x, if x =? msr then (low, high) else r x.

Definition arch_rdmsr (msr : Z) (r : msrs) : Z :=
  let '(low, high) := r msr in Z.lor (w64 (Z.shiftl high 32)) low.

Record cpu_data := mk_cpu_data { kernel_stack : Z; user_rsp : Z; cpu_thread : Z; cpu_id : Z }.

(** [bsp_cpu_data]: its address and contents. *)
Definition cpu_init {H} `{!Allocator H} {P} `{!Ports P} (g : log) (r : msrs) (h : H) (s : vga P)
    : result (option (Z * cpu_data) * msrs * H * vga P) :=
  '(data, h) ← al_alloc h 32 16;
  if data =? 0 then Ret (None, r, h, log_error g (chars "Failed to allocate BSP CPU data") s)
  else
    '(stack, h) ← al_alloc h 65536 16;
    let c := mk_cpu_data (w64 (stack + 65536)) 0 0 0 in
    let r := arch_wrmsr MSR_GS_BASE data r in
    let r := arch_wrmsr MSR_KERNEL_GS_BASE 0 r in
    Ret (Some (data, c), r, h, s).

Definition cpu_set_kernel_stack (stack_top : Z) (c : option (Z * cpu_data)) : option (Z * cpu_data) :=
  match c with
  | Some (a, c) => Some (a, mk_cpu_data stack_top (user_rsp c) (cpu_thread c) (cpu_id c))
  | None => None
  end.

Definition star : Z := Z.lor (Z.lor 0 (Z.shiftl 0x08 32)) (Z.shiftl 0x10 48).

Definition syscall_enable (syscall_entry : Z) (r : msrs) : msrs :=
  let efer := Z.lor (arch_rdmsr MSR_EFER r) 1 in
  let r := arch_wrmsr MSR_EFER efer r in
  let r := arch_wrmsr MSR_STAR star r in
  let r := arch_wrmsr MSR_LSTAR syscall_entry r in
  arch_wrmsr MSR_SFMASK 0x200 r.

(** A register keeps the 64 bits written to it. *)
Lemma msr_roundtrip msr x val r : 0 ≤ val < 2 ^ 64 →
  arch_rdmsr x (arch_wrmsr msr val r) = if x =? msr then val else arch_rdmsr x r.
Proof.
  intros Hv. unfold arch_rdmsr, arch_wrmsr. destruct (x =? msr); [|done].
  change 0xFFFFFFFF with (Z.ones 32). rewrite Z.land_ones, Z.shiftr_div_pow2, Z.shiftl_mul_pow2 by lia. unfold w32, w64.
  rewrite (lor_low 32) by dlia. dlia.
Qed.

(** The selectors [syscall] and [sysret] load from STAR. *)
Definition syscall_cs (v : Z) : Z := Z.shiftr v 32 mod 2 ^ 16.
Definition syscall_ss (v : Z) : Z := Z.shiftr v 32 mod 2 ^ 16 + 8.
Definition sysret_cs (v : Z) : Z := Z.lor (Z.shiftr v 48 mod 2 ^ 16 + 16) 3.
Definition sysret_ss (v : Z) : Z := Z.lor (Z.shiftr v 48 mod 2 ^ 16 + 8) 3.

(** The system call instruction is set up.  After [syscall_enable] the
    extension bit of EFER is set and its other bits are as before, a system call
    enters at [syscall_entry] with interrupts off, on the kernel's code and data
    segments of the table [gdt_relocate_heap] loads, and returns to that table's
    64-bit user code and user data segments at privilege level 3. *)
Theorem syscall_enable_spec entry base r :
  0 ≤ entry < 2 ^ 64 → 0 ≤ base < 2 ^ 64 → 0 ≤ arch_rdmsr MSR_EFER r < 2 ^ 64 →
  let r' := syscall_enable entry r in
  let v := arch_rdmsr MSR_STAR r' in
  let t := gdt_entries base in
  arch_rdmsr MSR_LSTAR r' = entry ∧ arch_rdmsr MSR_SFMASK r' = 0x200 ∧
  (∀ i, Z.testbit (arch_rdmsr MSR_EFER r') i = (i =? 0) || Z.testbit (arch_rdmsr MSR_EFER r) i) ∧
  syscall_cs v = GDT_KERNEL_CODE ∧ syscall_ss v = GDT_KERNEL_DATA ∧
  sysret_cs v = GDT_USER_CODE + 3 ∧ sysret_ss v = GDT_USER_DATA + 3 ∧
  seg_code (selected t (sysret_cs v)) = true ∧ seg_long (selected t (sysret_cs v)) = true ∧
  seg_dpl (selected t (sysret_cs v)) = 3 ∧ seg_data (selected t (sysret_ss v)) = true ∧ seg_dpl (selected t (sysret_ss v)) = 3.
Proof.
  intros He Hb Hr. cbv zeta. unfold syscall_enable.
  assert (0 ≤ Z.lor (arch_rdmsr MSR_EFER r) 1 < 2 ^ 64) as Hor.
  { split; [apply Z.lor_nonneg; lia|]. destruct (decide (arch_rdmsr MSR_EFER r = 0)) as [->|Hne]; [done|].
    apply Z.log2_lt_pow2; [pose proof (Z.lor_nonneg (arch_rdmsr MSR_EFER r) 1); destruct (decide (Z.lor (arch_rdmsr MSR_EFER r) 1 = 0)) as [E|]; [apply Z.lor_eq_0_iff in E; lia|lia]|].
    rewrite Z.log2_lor by lia. apply Z.max_lub_lt; [apply Z.log2_lt_pow2; lia|done]. }
  rewrite !msr_roundtrip by (done || (unfold star; cbn; lia)). cbn [Z.eqb Pos.eqb MSR_STAR MSR_LSTAR MSR_SFMASK MSR_EFER].
  split_and!; try done. intros i. rewrite Z.lor_spec, orb_comm. f_equal.
Qed.
End Msr.
