(* ===== verification/Terminal.v ===== *)
(** * The kernel terminal (src/kernel/terminal.c)

    The command line of the kernel: the array that holds the line, the reading
    of scan codes and serial bytes, and the commands.  What the commands print
    about other components is an argument. *)

From S2P Require Import Prelude Memory Ring CString Bytes Pmm PmmInit Memfs User BootMem Heap Alloc Sched Irq Tty Ata Console Serial Devices.
From stdpp Require Import options.
Import CString Irq Console Serial.

Module Terminal.

Definition LINE_MAX : Z := 128.
Definition prompt : list Z := chars "neptune> ".

Definition scancode_map : Z → Z := Tty.rows_get
  [(0x02, chars "1234567890-="); (0x10, chars "qwertyuiop[]"); (0x1E, chars "asdfghjkl;'`");
   (0x2B, chars "\"); (0x2C, chars "zxcvbnm,./"); (0x39, chars " ")].
Definition scancode_shift_map : Z → Z := Tty.rows_get
  [(0x02, chars "!@#$%^&*()_+"); (0x10, chars "QWERTYUIOP{}");
   (0x1E, chars "ASDFGHJKL:" ++ [34] ++ chars "~");
   (0x2B, chars "|"); (0x2C, chars "ZXCVBNM<>?"); (0x39, chars " ")].

(** What the commands report on. *)
Record machine := mk_machine {
  ticks : Z; devices : list Pci.pci_device; acpi : Acpi.acpi_state; stats : Heap.kheap_stats;
}.

Section Terminal.
Context {P : Type} `{!Ports P}.
Implicit Types s : vga P.

(** How a command ends: the thread goes on with the log settings and the
    screen, or the machine is reset or switched off. *)
Inductive verdict (A : Type) :=
| Goes (a : A)
| Reboots (s : vga P)
| Shuts (s : vga P).
Arguments Goes {_} _.
Arguments Reboots {_} _.
Arguments Shuts {_} _.

#[global] Instance verdict_bind : MBind verdict := λ A B k v,
  match v with Goes a => k a | Reboots s => Reboots s | Shuts s => Shuts s end.

Definition terminal_prompt s : vga P := console_write prompt s.

Definition text (m : string) : list Z := chars m ++ [10].

(** heap.c: [kheap_dump_stats]. *)
Definition kheap_dump_stats (g : log) (st : Heap.kheap_stats) s : vga P :=
  let s := log_info_hex g (chars "Heap allocs") (Heap.st_total_allocs st) s in
  let s := log_info_hex g (chars "Heap frees") (Heap.st_total_frees st) s in
  let s := log_info_hex g (chars "Heap large allocs") (Heap.st_large_allocs st) s in
  let s := log_info_hex g (chars "Heap large reuses") (Heap.st_large_reuses st) s in
  let s := foldl (λ s i,
      let s := log_debug_hex g (chars "Heap slab allocs") (nth (Z.to_nat i) (Heap.st_slab_allocs st) 0) s in
      log_debug_hex g (chars "Heap slab reuses") (nth (Z.to_nat i) (Heap.st_slab_reuses st) 0) s) s
    (seqZ 0 Heap.slab_count) in
  let s := log_info_hex g (chars "Heap free slab bytes") (Heap.st_free_slab_bytes st) s in
  log_info_hex g (chars "Heap free large bytes") (Heap.st_free_large_bytes st) s.

(** [arch_shutdown]; then the processor halts for ever. *)
Definition arch_shutdown (p : P) : P := outw p 0x604 0x2000.

(** [line] is the string in the array. *)
Definition terminal_execute (mi : machine) (line : list Z) (g : log) s : verdict (log * vga P) :=
  match line with
  | [] => Goes (g, terminal_prompt s)
  | _ =>
      if streq line (chars "help") then
        let s := console_write (text "Commands: help, clear, ticks, lspci, acpi, heap, logdebug, loginfo, logwarn, logerror") s in
        Goes (g, terminal_prompt s)
      else if streq line (chars "clear") then Goes (g, terminal_prompt (console_clear 0x0F s))
      else if streq line (chars "ticks") then
        let s := console_write (chars "ticks=") s in
        let s := console_write_hex (ticks mi) s in
        Goes (g, terminal_prompt (console_write [10] s))
      else if streq line (chars "lspci") then Goes (g, terminal_prompt (Pci.pci_dump (devices mi) s))
      else if streq line (chars "acpi") then Goes (g, terminal_prompt (Acpi.acpi_dump (acpi mi) s))
      else if streq line (chars "heap") then Goes (g, terminal_prompt (kheap_dump_stats g (stats mi) s))
      else if streq line (chars "logdebug") then
        Goes (log_set_level LOG_LEVEL_DEBUG g, terminal_prompt (console_write (text "Log level set to debug") s))
      else if streq line (chars "loginfo") then
        Goes (log_set_level LOG_LEVEL_INFO g, terminal_prompt (console_write (text "Log level set to info") s))
      else if streq line (chars "logwarn") then
        Goes (log_set_level LOG_LEVEL_WARN g, terminal_prompt (console_write (text "Log level set to warn") s))
      else if streq line (chars "logerror") then Goes (log_set_level LOG_LEVEL_ERROR g, s)
      else if streq line (chars "reboot") then Reboots (on_port arch_reboot (console_write (text "Rebooting...") s))
      else if streq line (chars "shutdown") then Shuts (on_port arch_shutdown (console_write (text "Shutting down...") s))
      else
        let s := console_write (chars "Unknown command: ") s in
        let s := console_write line s in
        Goes (g, terminal_prompt (console_write [10] s))
  end.

Definition is_shift_scancode (sc : Z) (pressed : bool) : Z :=
  if (sc =? 0x2A) || (sc =? 0x36) then if pressed then 1 else 0
  else if (sc =? 0xAA) || (sc =? 0xB6) then 0
  else -1.

(** The variables of [terminal_thread], the log and the screen. *)
Record term := mk_term { line : list Z; len : Z; shift : bool; tlog : log; screen : vga P }.

(** The branches of the loops. *)
Definition enter (mi : machine) (t : term) : verdict term :=
  let s := console_write [10] (screen t) in
  let l := <[Z.to_nat (len t) := 0]> (line t) in
  '(g, s) ← terminal_execute mi (cstr l) (tlog t) s;
  Goes (mk_term (<[0%nat := 0]> l) 0 (shift t) g s).

Definition erase (t : term) : term :=
  if 0 <? len t then
    mk_term (<[Z.to_nat (len t - 1) := 0]> (line t)) (len t - 1) (shift t) (tlog t) (console_backspace (screen t))
  else t.

Definition put (c : Z) (t : term) : term :=
  if len t + 1 <? LINE_MAX then
    mk_term (<[Z.to_nat (len t + 1) := 0]> (<[Z.to_nat (len t) := c]> (line t))) (len t + 1) (shift t) (tlog t)
      (console_write [c; 0] (screen t))
  else t.

Definition kb_step (mi : machine) (sc : Z) (t : term) : verdict term :=
  let shift_state := is_shift_scancode sc (Z.land sc 0x80 =? 0) in
  if 0 <=? shift_state then Goes (mk_term (line t) (len t) (negb (shift_state =? 0)) (tlog t) (screen t))
  else if negb (Z.land sc 0x80 =? 0) then Goes t
  else if sc =? 0x1C then enter mi t
  else if sc =? 0x0E then Goes (erase t)
  else
    let c := if shift t then scancode_shift_map sc else scancode_map sc in
    if c =? 0 then Goes t else Goes (put c t).

Definition com_step (mi : machine) (ch : Z) (t : term) : verdict term :=
  if (ch =? 13) || (ch =? 10) then enter mi t
  else if (ch =? 0x08) || (ch =? 0x7F) then Goes (erase t)
  else if (0x20 <=? ch) && (ch <? 0x7F) then Goes (put ch t)
  else Goes t.

(** The two inner loops; the queues hold fewer elements than their size. *)
Fixpoint kb_loop (fuel : nat) (mi : machine) (q : irqs) (t : term) : verdict (irqs * term) :=
  match fuel with
  | O => Goes (q, t)
  | S fuel' =>
      match irq_kb_pop q with
      | (Some sc, q') => t' ← kb_step mi sc t; kb_loop fuel' mi q' t'
      | (None, _) => Goes (q, t)
      end
  end.
Fixpoint com_loop (fuel : nat) (mi : machine) (q : irqs) (t : term) : verdict (irqs * term) :=
  match fuel with
  | O => Goes (q, t)
  | S fuel' =>
      match irq_com_pop q with
      | (Some ch, q') => t' ← com_step mi ch t; com_loop fuel' mi q' t'
      | (None, _) => Goes (q, t)
      end
  end.

(** One turn of [for (;;)]. *)
Definition turn (mi : machine) (q : irqs) (t : term) : verdict (irqs * term) :=
  '(q, t) ← kb_loop (Z.to_nat KB_BUF_SIZE) mi q t;
  com_loop (Z.to_nat COM_BUF_SIZE) mi q t.

(** The interrupts of the keyboard and the serial line. *)
Inductive event := Scan (sc : Z) | Byte (ch : Z).

Definition arrive (q : irqs) (e : event) : irqs :=
  match e with Scan sc => (kb_push q sc).1 | Byte ch => (irq_com_push q ch).1 end.

(** The thread: the interrupts before each turn, and what the machine is like
    then, are an argument. *)
Fixpoint turns (env : list (machine * list event)) (q : irqs) (t : term) : verdict (irqs * term) :=
  match env with
  | [] => Goes (q, t)
  | (mi, es) :: env' => '(q, t) ← turn mi (foldl arrive q es) t; turns env' q t
  end.

Definition terminal_thread (env : list (machine * list event)) (q : irqs) (g : log) s : verdict (irqs * term) :=
  turns env q (mk_term (replicate (Z.to_nat LINE_MAX) 0) 0 false g (terminal_prompt s)).

(** ** The line editor *)

Inductive key := Char (c : Z) | Enter | Erase.

(** The keyboard is read the way tty.c reads it. *)
Definition kb_key (sh : bool) (sc : Z) : bool * option key :=
  let '(sh', oc) := Tty.scancode_to_char sh sc in
  (sh', (λ c, if c =? 10 then Enter else if c =? 8 then Erase else Char c) <$> oc).

Definition com_key (ch : Z) : option key :=
  if (ch =? 13) || (ch =? 10) then Some Enter
  else if (ch =? 0x08) || (ch =? 0x7F) then Some Erase
  else if (0x20 <=? ch) && (ch <? 0x7F) then Some (Char ch) else None.

Fixpoint kb_keys (sh : bool) (codes : list Z) : bool * list key :=
  match codes with
  | [] => (sh, [])
  | sc :: codes' =>
      let '(sh1, k) := kb_key sh sc in
      let '(sh2, ks) := kb_keys sh1 codes' in
      (sh2, match k with Some k => k :: ks | None => ks end)
  end.

(** The line as a list, with the log and the screen. *)
Definition editor : Type := list Z * log * vga P.

(** A key: at most 127 characters are kept. *)
Definition press (mi : machine) (k : key) (e : editor) : verdict editor :=
  let '(l, g, s) := e in
  match k with
  | Char c => if (length l <? 127)%nat then Goes (l ++ [c], g, console_write [c; 0] s) else Goes e
  | Erase => match l with [] => Goes e | _ => Goes (removelast l, g, console_backspace s) end
  | Enter => '(g, s) ← terminal_execute mi l g (console_write [10] s); Goes ([], g, s)
  end.

Fixpoint press_all (mi : machine) (ks : list key) (e : editor) : verdict editor :=
  match ks with [] => Goes e | k :: ks' => e' ← press mi k e; press_all mi ks' e' end.

(** The array holds the line, terminated. *)
Record holds (t : term) (e : editor) : Prop := {
  h_room : length (line t) = 128%nat;
  h_len : len t = Z.of_nat (length e.1.1);
  h_fits : (length e.1.1 ≤ 127)%nat;
  h_line : take (length e.1.1) (line t) = e.1.1;
  h_end : line t !! length e.1.1 = Some 0;
  h_chars : Forall (λ c, c ≠ 0) e.1.1;
  h_rest : (tlog t, screen t) = (e.1.2, e.2);
}.

(** The same on both sides. *)
Definition agree {A B} (R : A → B → Prop) (v : verdict A) (w : verdict B) : Prop :=
  match v, w with
  | Goes a, Goes b => R a b
  | Reboots s, Reboots s' => s = s'
  | Shuts s, Shuts s' => s = s'
  | _, _ => False
  end.

Lemma agree_bind {A B A' B'} (R : A → B → Prop) (R' : A' → B' → Prop) v w f g :
  agree R v w → (∀ a b, R a b → agree R' (f a) (g b)) → agree R' (v ≫= f) (w ≫= g).
Proof using Type. destruct v, w; cbn; auto; done. Qed.

Lemma agree_refl {A} (v : verdict A) : agree eq v v.
Proof using Type. by destruct v. Qed.

Lemma holds_cstr t e : holds t e → cstr (line t) = e.1.1.
Proof using Type.
  intros [_ _ _ Hl He Hc _]. rewrite <- (take_drop_middle (line t) (length e.1.1) 0 He), Hl. by apply cstr_app.
Qed.

Lemma enter_press mi t e : holds t e → agree (λ t' e', holds t' e' ∧ shift t' = shift t) (enter mi t) (press mi Enter e).
Proof using Type.
  intros H. pose proof (holds_cstr t e H) as Hs. destruct e as [[l g] s]. destruct H as [Hr Hn Hf Hl He Hc Hx]. cbn [fst snd] in *.
  injection Hx as <- <-. unfold enter, press. cbv zeta. rewrite Hn, Nat2Z.id, (list_insert_id (line t) (length l) 0), Hs by done.
  eapply agree_bind; [apply agree_refl|]. intros [g s'] ? <-. cbn. split; [|done].
  split; cbn; [by rewrite length_insert|done|lia|done|by apply list_lookup_insert_eq; lia|constructor|done].
Qed.

Lemma erase_press mi t e : holds t e →
  agree (λ t' e', holds t' e' ∧ shift t' = shift t) (Goes (erase t)) (press mi Erase e).
Proof using Type.
  intros H. destruct e as [[l g] s]. pose proof H as [Hr Hn Hf Hl He Hc Hx]. cbn [fst snd] in *.
  unfold erase, press. destruct l as [|x l _] using rev_ind.
  { rewrite (proj2 (Z.ltb_ge 0 (len t))) by (cbn in Hn; lia). by split. }
  rewrite length_app in *. cbn [length] in *. rewrite (proj2 (Z.ltb_lt 0 (len t))) by lia.
  replace (match l ++ [x] with [] => Goes (l ++ [x], g, s) | _ :: _ => Goes (removelast (l ++ [x]), g, console_backspace s) end)
    with (Goes (l, g, console_backspace s)) by (rewrite removelast_last; by destruct l).
  rewrite Nat.add_1_r in *. injection Hx as <- <-. replace (len t - 1) with (Z.of_nat (length l)) by lia. rewrite Nat2Z.id.
  apply Forall_app in Hc as [Hc _].
  split; [|done]. split; cbn; [by rewrite length_insert|done|lia| |by apply list_lookup_insert_eq; lia|done|done].
  rewrite take_insert_ge by done. rewrite <- (Tty.removelast_take (line t) (length l)), Hl by lia. apply removelast_last.
Qed.

Lemma put_press mi c t e : c ≠ 0 → holds t e →
  agree (λ t' e', holds t' e' ∧ shift t' = shift t) (Goes (put c t)) (press mi (Char c) e).
Proof using Type.
  intros H0 H. destruct e as [[l g] s]. pose proof H as [Hr Hn Hf Hl He Hc Hx]. cbn [fst snd] in *.
  unfold put, press, LINE_MAX. destruct (Nat.ltb_spec (length l) 127) as [Hlt|Hge].
  2:{ rewrite (proj2 (Z.ltb_ge _ 128)) by lia. by split. }
  rewrite (proj2 (Z.ltb_lt _ 128)) by lia. injection Hx as <- <-.
  replace (Z.to_nat (len t + 1)) with (S (length l)) by lia. replace (Z.to_nat (len t)) with (length l) by lia.
  split; [|done]. split; cbn; rewrite ?length_app; cbn [length]; rewrite ?Nat.add_1_r.
  - by rewrite !length_insert.
  - lia.
  - lia.
  - rewrite take_insert_ge, Tty.take_snoc_insert by lia. by rewrite Hl.
  - apply list_lookup_insert_eq. rewrite length_insert. lia.
  - apply Forall_app. split; [done|]. by constructor.
  - done.
Qed.

(** The characters of the maps are printable. *)
Lemma rows_printable rows i : forallb (λ r, forallb (Z.ltb 31) r.2) rows = true →
  31 < Tty.rows_get rows i ∨ Tty.rows_get rows i = 0.
Proof using Type.
  clear. induction rows as [|[st row] rows IH]; intros H; [by right|]. cbn [forallb snd] in H.
  apply andb_true_iff in H as [Hrow H]. cbn [Tty.rows_get foldr]. destruct (_ && _) eqn:E; [|by apply IH].
  left. apply andb_true_iff in E as [E1 E2]. rewrite forallb_forall in Hrow. apply Z.ltb_lt, Hrow, nth_In. lia.
Qed.

Lemma maps_printable (b : bool) sc :
  let c := if b then Tty.scancode_shift_map sc else Tty.scancode_map sc in 31 < c ∨ c = 0.
Proof using Type. destruct b; by apply rows_printable. Qed.

(** A scan code does what its key does. *)
Lemma kb_step_press mi sc t e : holds t e →
  agree (λ t' e', holds t' e' ∧ shift t' = (kb_key (shift t) sc).1) (kb_step mi sc t)
    (match (kb_key (shift t) sc).2 with Some k => press mi k e | None => Goes e end).
Proof using Type.
  intros H. assert (∀ b, holds (mk_term (line t) (len t) b (tlog t) (screen t)) e) as Hb
    by (intros b; destruct H; by split).
  unfold kb_step, kb_key, is_shift_scancode, Tty.scancode_to_char. cbv zeta.
  destruct ((sc =? 0x2A) || (sc =? 0x36)) eqn:E1.
  { assert (Z.land sc 0x80 =? 0 = true) as -> by
      (apply orb_true_iff in E1 as [E%Z.eqb_eq|E%Z.eqb_eq]; by rewrite E). cbn. by split. }
  destruct ((sc =? 0xAA) || (sc =? 0xB6)); [cbn; by split|]. cbn [Z.leb Z.compare fst].
  destruct (Z.land sc 0x80 =? 0); cbn [negb fst snd]; [|by split].
  destruct (sc =? 0x1C); [by apply enter_press|]. destruct (sc =? 0x0E); [by apply erase_press|].
  change scancode_map with Tty.scancode_map. change scancode_shift_map with Tty.scancode_shift_map.
  set (c := if shift t then _ else _). destruct (Z.eqb_spec c 0) as [E|E]; [by split|].
  assert (c ≠ 10 ∧ c ≠ 8) as [Hc1 Hc2] by (pose proof (maps_printable (shift t) sc : 31 < c ∨ c = 0); lia).
  cbn [fst snd fmap option_fmap option_map]. rewrite (proj2 (Z.eqb_neq c 10)), (proj2 (Z.eqb_neq c 8)) by done.
  by apply put_press.
Qed.
Lemma com_step_press mi ch t e : holds t e →
  agree (λ t' e', holds t' e' ∧ shift t' = shift t) (com_step mi ch t)
    (match com_key ch with Some k => press mi k e | None => Goes e end).
Proof using Type.
  intros H. unfold com_step, com_key. destruct ((ch =? 13) || (ch =? 10)); [by apply enter_press|].
  destruct ((ch =? 0x08) || (ch =? 0x7F)); [by apply erase_press|].
  destruct ((0x20 <=? ch) && (ch <? 0x7F)) eqn:E; [|by split]. apply put_press; [lia|done].
Qed.

Lemma press_all_app mi ks1 ks2 e : press_all mi (ks1 ++ ks2) e = press_all mi ks1 e ≫= press_all mi ks2.
Proof using Type.
  revert e. induction ks1 as [|k ks1 IH]; intros e; [done|]. cbn. destruct (press mi k e); [apply IH|done|done].
Qed.

(** The keyboard loop empties the queue of scan codes. *)
Lemma kb_loop_press mi fuel : ∀ q t e, irqs_ok q → (length (scancodes q) < fuel)%nat → holds t e →
  agree (λ r e', holds r.2 e' ∧ shift r.2 = (kb_keys (shift t) (scancodes q)).1 ∧
           irqs_ok r.1 ∧ scancodes r.1 = [] ∧ serial_in r.1 = serial_in q)
    (kb_loop fuel mi q t) (press_all mi (kb_keys (shift t) (scancodes q)).2 e).
Proof using Type.
  induction fuel as [|fuel IH]; intros q t e Hq Hf H; [lia|]. cbn [kb_loop].
  destruct (kb_pop_spec q Hq) as (Hq' & Hs & Hp). destruct (irq_kb_pop q) as [[sc|] q']; cbn [snd] in *.
  2:{ destruct Hp as [E ->]. rewrite E. cbn. by split_and!. }
  rewrite Hp in Hf |- *. cbn [kb_keys length] in *. pose proof (kb_step_press mi sc t e H) as Hk.
  destruct (kb_key (shift t) sc) as [sh k]. cbn [fst snd] in Hk.
  destruct (kb_keys sh (scancodes q')) as [sh2 ks] eqn:Ek. cbn [fst snd].
  replace (press_all mi (match k with Some k => k :: ks | None => ks end) e)
    with (match k with Some k => press mi k e | None => Goes e end ≫= press_all mi ks) by (by destruct k).
  eapply agree_bind; [exact Hk|]. intros t' e' [Ht' Hsh]. rewrite <- Hs. subst sh.
  specialize (IH q' t' e' Hq' ltac:(lia) Ht'). by rewrite Ek in IH.
Qed.

Lemma com_loop_press mi fuel : ∀ q t e, irqs_ok q → (length (serial_in q) < fuel)%nat → holds t e →
  agree (λ r e', holds r.2 e' ∧ shift r.2 = shift t ∧ irqs_ok r.1 ∧ scancodes r.1 = scancodes q ∧ serial_in r.1 = [])
    (com_loop fuel mi q t) (press_all mi (omap com_key (serial_in q)) e).
Proof using Type.
  induction fuel as [|fuel IH]; intros q t e Hq Hf H; [lia|]. cbn [com_loop].
  destruct (com_pop_spec q Hq) as (Hq' & Hs & Hp). destruct (irq_com_pop q) as [[ch|] q']; cbn [snd] in *.
  2:{ destruct Hp as [E ->]. rewrite E. cbn. by split_and!. }
  rewrite Hp in Hf |- *. cbn [length] in Hf. pose proof (com_step_press mi ch t e H) as Hk.
  replace (press_all mi (omap com_key (ch :: serial_in q')) e)
    with (match com_key ch with Some k => press mi k e | None => Goes e end ≫= press_all mi (omap com_key (serial_in q')))
    by (cbn; by destruct (com_key ch)).
  eapply agree_bind; [exact Hk|]. intros t' e' [Ht' Hsh]. rewrite <- Hs, <- Hsh. apply IH; [done|lia|done].
Qed.

(** What is typed in a turn. *)
Definition keys (sh : bool) (q : irqs) : list key := (kb_keys sh (scancodes q)).2 ++ omap com_key (serial_in q).

Lemma turn_press mi q t e : irqs_ok q → holds t e →
  agree (λ r e', holds r.2 e' ∧ shift r.2 = (kb_keys (shift t) (scancodes q)).1 ∧
           irqs_ok r.1 ∧ scancodes r.1 = [] ∧ serial_in r.1 = [])
    (turn mi q t) (press_all mi (keys (shift t) q) e).
Proof using Type.
  intros Hq H. assert (length (scancodes q) < Z.to_nat KB_BUF_SIZE ∧ length (serial_in q) < Z.to_nat COM_BUF_SIZE)%nat as [Hk Hc].
  { pose proof (length_pending KB_BUF_SIZE ltac:(done) (kb_buf q) (kb_head q) (kb_tail q)).
    pose proof (length_pending COM_BUF_SIZE ltac:(done) (com_buf q) (com_head q) (com_tail q)).
    unfold scancodes, serial_in, KB_BUF_SIZE, COM_BUF_SIZE in *. dlia. }
  unfold turn, keys. rewrite press_all_app. eapply agree_bind; [by apply kb_loop_press|].
  intros [q' t'] e' (Ht & Hsh & Hq' & Hs & Hi). cbn [fst snd] in *. rewrite <- Hi in Hc |- *.
  pose proof (com_loop_press mi _ q' t' e' Hq' Hc Ht) as Hl. rewrite Hsh, Hs in Hl. exact Hl.
Qed.

(** The interrupts between two turns, and the codes and bytes of them that find
    room in the empty queues. *)
Definition codes_of (es : list event) : list Z := take 63 (omap (λ e, match e with Scan sc => Some sc | Byte _ => None end) es).
Definition bytes_of (es : list event) : list Z := take 127 (omap (λ e, match e with Byte ch => Some ch | Scan _ => None end) es).

Lemma enqueue_take (cap : nat) q x : (length q ≤ cap)%nat → enqueue (Z.of_nat cap) q x = take cap (q ++ [x]).
Proof using Type.
  clear. intros H. unfold enqueue. destruct (Z.ltb_spec (Z.of_nat (length q)) (Z.of_nat cap)).
  - rewrite take_ge; [done|]. rewrite length_app. cbn. lia.
  - rewrite take_app_le, take_ge by lia. done.
Qed.

Lemma take_take_app {A} (cap : nat) (l l' : list A) : take cap (take cap l ++ l') = take cap (l ++ l').
Proof using Type. clear. rewrite !take_app, take_take, Nat.min_id, length_take. f_equal. f_equal. lia. Qed.

Lemma arrive_spec es q : irqs_ok q → scancodes q = [] → serial_in q = [] →
  let q' := foldl arrive q es in irqs_ok q' ∧ scancodes q' = codes_of es ∧ serial_in q' = bytes_of es.
Proof using Type.
  intros Hq Hk Hc. cbv zeta. unfold codes_of, bytes_of. induction es as [|e es IH] using rev_ind; [done|].
  destruct IH as (Ho & Es & Eb). rewrite foldl_app, !omap_app. cbn [foldl]. destruct e as [sc|ch]; cbn [arrive omap list_omap].
  - destruct (kb_push_spec (foldl arrive q es) sc Ho) as (H1 & H2 & H3 & _). split; [done|].
    rewrite H2, H3, Es, Eb, app_nil_r. split; [|done]. change (KB_BUF_SIZE - 1) with (Z.of_nat 63).
    rewrite enqueue_take by (rewrite length_take; lia). apply take_take_app.
  - destruct (com_push_spec (foldl arrive q es) ch Ho) as (H1 & H2 & H3 & _). split; [done|].
    rewrite H2, H3, Es, Eb, app_nil_r. split; [done|]. change (COM_BUF_SIZE - 1) with (Z.of_nat 127).
    rewrite enqueue_take by (rewrite length_take; lia). apply take_take_app.
Qed.

(** The reference: what is typed before each turn is edited and executed. *)
Fixpoint session (env : list (machine * list event)) (sh : bool) (e : editor) : verdict editor :=
  match env with
  | [] => Goes e
  | (mi, es) :: env' =>
      let '(sh', ks) := kb_keys sh (codes_of es) in
      e' ← press_all mi (ks ++ omap com_key (bytes_of es)) e; session env' sh' e'
  end.

(** The terminal is a line editor: whatever is typed on the keyboard and sent
    over the serial line, the lines it executes, what it shows and the line being
    typed are those of the reference, and it never writes outside its array.
    Of what arrives between two turns the first 63 scan codes and 127 bytes
    count. *)
Theorem terminal_thread_spec env q g s : irqs_ok q → scancodes q = [] → serial_in q = [] →
  agree (λ r e, holds r.2 e) (terminal_thread env q g s) (session env false ([], g, terminal_prompt s)).
Proof using Type.
  intros Hq Hk Hc. unfold terminal_thread.
  assert (holds (mk_term (replicate (Z.to_nat LINE_MAX) 0) 0 false g (terminal_prompt s)) ([], g, terminal_prompt s)) as H.
  { split; cbn [line len tlog screen fst snd length]; done || lia || constructor. }
  change false with (shift (mk_term (replicate (Z.to_nat LINE_MAX) 0) 0 false g (terminal_prompt s))) at 2.
  revert H. generalize (mk_term (replicate (Z.to_nat LINE_MAX) 0) 0 false g (terminal_prompt s)), (@nil Z, g, terminal_prompt s).
  revert q Hq Hk Hc. induction env as [|[mi es] env IH]; intros q Hq Hk Hc t e H; [done|].
  cbn [turns session]. destruct (arrive_spec es q Hq Hk Hc) as (Ho & Es & Eb).
  pose proof (turn_press mi _ t e Ho H) as Ht. unfold keys in Ht. rewrite Es, Eb in Ht.
  destruct (kb_keys (shift t) (codes_of es)) as [sh ks]. eapply agree_bind; [exact Ht|].
  intros [q' t'] e' (Ht' & Hsh & Hq' & Hk' & Hc'). cbn [fst snd] in *. rewrite <- Hsh. by apply IH.
Qed.
End Terminal.
End Terminal.
