(* ===== verification/Fat.v ===== *)
(** * The FAT16 file system (src/kernel/fat.c)

    Every function of the file, over any sector device.  Sector buffers are
    lists of 512 bytes; [fat_state] is the global [fat].  The two loops that
    follow a cluster chain without any other bound, in [dir_find_entry] and
    [list_dir], get one turn for each of the 65536 cluster numbers: a chain
    that needs more visits a cluster twice and the C loop never ends. *)

From S2P Require Import Prelude CString Paths Bytes State.
From stdpp Require Import options.
Import CString Paths Bytes.

Module Fat.

Definition FAT16_MIN_CLUSTERS : Z := 4085.
Definition FAT16_EOC : Z := 0xFFF8.

Definition byte_at (b : list Z) (i : Z) : Z := nth (Z.to_nat i) b 0.

Definition read_u16 (b : list Z) (o : Z) : Z :=
  Z.lor (byte_at b o) (Z.shiftl (byte_at b (o + 1)) 8).
Definition read_u32 (b : list Z) (o : Z) : Z :=
  Z.lor (Z.lor (Z.lor (byte_at b o) (Z.shiftl (byte_at b (o + 1)) 8)) (Z.shiftl (byte_at b (o + 2)) 16))
    (Z.shiftl (byte_at b (o + 3)) 24).

(** The stores of the low two (four) bytes of a value. *)
Definition u16_bytes (v : Z) : list Z := [Z.land v 0xFF; w8 (Z.shiftr v 8)].
Definition u32_bytes (v : Z) : list Z :=
  [Z.land v 0xFF; Z.land (Z.shiftr v 8) 0xFF; Z.land (Z.shiftr v 16) 0xFF; Z.land (Z.shiftr v 24) 0xFF].

Record fat_file := mk_fat_file {
  start_cluster : Z;
  size : Z;
  dir_sector : Z;
  dir_offset : Z;
  is_dir : bool;
  attr : Z;
}.

Record dir_loc := mk_loc { loc_sector : Z; loc_offset : Z }.

(** The outcomes 0, 1 and -1 of [dir_find_entry] with what it stores. *)
Inductive find_res := Found (f : fat_file) (l : dir_loc) | Free (l : dir_loc) | NotFound.

Record fat_state (D : Type) := mk_fat {
  fdev : option D;
  bytes_per_sector : Z;
  sectors_per_cluster : Z;
  reserved_sectors : Z;
  fat_count : Z;
  root_entries : Z;
  fat_size : Z;
  total_sectors : Z;
  root_dir_sectors : Z;
  fat_start : Z;
  root_start : Z;
  data_start : Z;
  cluster_count : Z;
  ready : bool;
}.
Arguments mk_fat {_} _ _ _ _ _ _ _ _ _ _ _ _ _ _.
Arguments fdev {_} _.
Arguments bytes_per_sector {_} _.
Arguments sectors_per_cluster {_} _.
Arguments reserved_sectors {_} _.
Arguments fat_count {_} _.
Arguments root_entries {_} _.
Arguments fat_size {_} _.
Arguments total_sectors {_} _.
Arguments root_dir_sectors {_} _.
Arguments fat_start {_} _.
Arguments root_start {_} _.
Arguments data_start {_} _.
Arguments cluster_count {_} _.
Arguments ready {_} _.

Definition is_end_cluster (value : Z) : bool := FAT16_EOC <=? value.

(** ** Short names *)

Definition upper_char (c : Z) : Z := if (97 <=? c) && (c <=? 122) then c - 32 else c.

(** [name] and [ext] are the characters stored so far. *)
Fixpoint short_name_loop (path name ext : list Z) (in_ext : bool) : option (list Z * list Z) :=
  match path with
  | [] => Some (name, ext)
  | c :: path' =>
      if c =? 0 then Some (name, ext)
      else if c =? SLASH then Some (name, ext)
      else if c =? DOT then if in_ext then None else short_name_loop path' name ext true
      else
        let c := upper_char c in
        if negb in_ext then
          if (8 <=? length name)%nat then None else short_name_loop path' (name ++ [c]) ext in_ext
        else if (3 <=? length ext)%nat then None else short_name_loop path' name (ext ++ [c]) in_ext
  end.

Definition pad (n : nat) (l : list Z) : list Z := l ++ replicate (n - length l) 32.

(** The eleven characters, [None] for the return value -1. *)
Definition build_short_name (path : list Z) : option (list Z) :=
  if hd 0 path =? 0 then None
  else
    match short_name_loop path [] [] false with
    | Some (name, ext) => if (0 <? length name)%nat then Some (pad 8 name ++ pad 3 ext) else None
    | None => None
    end.

(** [for (i = from; i < to && idx + 1 < out_len; ++i)], stopping at a blank. *)
Fixpoint copy_name (out_len : Z) (src out : list Z) : list Z :=
  match src with
  | [] => out
  | c :: src' =>
      if Z.of_nat (length out) + 1 <? out_len then
        if c =? 32 then out else copy_name out_len src' (out ++ [c])
      else out
  end.

(** The characters before the terminating NUL. *)
Definition format_name (ent : list Z) (out_len : Z) : list Z :=
  let out := copy_name out_len (take 8 ent) [] in
  let ext := take 3 (drop 8 ent) in
  let has_ext := existsb (λ c, negb (c =? 32)) ext in
  if has_ext && (Z.of_nat (length out) + 1 <? out_len) then copy_name out_len ext (out ++ [DOT])
  else out.

Definition dir_entry_init (name : list Z) (at_ cluster sz : Z) : list Z :=
  let entry := store (replicate 32 0) 0 (take 11 name) in
  let entry := store entry 11 [at_] in
  let entry := store entry 26 (u16_bytes cluster) in
  store entry 28 (u32_bytes sz).

Section Ops.
Context {D S : Type} `{!SectorDev D S}.
Implicit Types fat : fat_state D.

Definition read_sector fat (lba : Z) : M S (option (list Z)) :=
  match fdev fat with Some d => sread d lba | None => mret None end.
Definition write_sector fat (lba : Z) (buf : list Z) : M S bool :=
  match fdev fat with Some d => swrite d lba buf | None => mret false end.

Definition dir_read_sector fat (lba : Z) : M S (option (list Z)) := read_sector fat lba.
Definition dir_write_sector fat (lba : Z) (buf : list Z) : M S bool := write_sector fat lba buf.

(** ** The allocation table *)

Definition fat_next_cluster fat (cluster : Z) : M S Z :=
  let offset := w32 (cluster * 2) in
  let sector := w32 (fat_start fat + offset / bytes_per_sector fat) in
  let off := offset mod bytes_per_sector fat in
  r ← read_sector fat sector;
  match r with
  | None => mret 0
  | Some buf => mret (read_u16 buf off)
  end.

(** True for the return value 0. *)
Definition fat_set_cluster fat (cluster value : Z) : M S bool :=
  let offset := w32 (cluster * 2) in
  let sector := w32 (fat_start fat + offset / bytes_per_sector fat) in
  let off := offset mod bytes_per_sector fat in
  r ← read_sector fat sector;
  match r with
  | None => mret false
  | Some buf => write_sector fat sector (store buf (Z.to_nat off) (u16_bytes value))
  end.

Fixpoint alloc_loop fat (n : nat) (cluster : Z) : M S Z :=
  match n with
  | O => mret 0
  | Datatypes.S n' =>
      val ← fat_next_cluster fat (w16 cluster);
      if val =? 0 then
        ok ← fat_set_cluster fat (w16 cluster) FAT16_EOC;
        mret (if ok : bool then w16 cluster else 0)
      else alloc_loop fat n' (cluster + 1)
  end.

Definition fat_alloc_cluster fat : M S Z :=
  let total := w32 (cluster_count fat + 2) in
  alloc_loop fat (Z.to_nat (total - 2)) 2.

Definition cluster_to_sector fat (cluster : Z) : Z :=
  w32 (data_start fat + w32 (cluster - 2) * sectors_per_cluster fat).

(** ** Directories *)

Definition no_match (allow_free : bool) (free : option dir_loc) : find_res :=
  match free with Some l => if allow_free then Free l else NotFound | None => NotFound end.

(** Entries [e], [e + 1], ... of a sector: a result, or [seen] and the free
    slot to go on with. *)
Fixpoint scan_entries fat (dir_cluster : Z) (name : list Z) (want_dir : Z) (allow_free : bool)
    (lba : Z) (sector : list Z) (n : nat) (e seen : Z) (free : option dir_loc)
    : find_res + (Z * option dir_loc) :=
  match n with
  | O => inr (seen, free)
  | Datatypes.S n' =>
      if (dir_cluster =? 0) && (root_entries fat <=? seen) then inl (no_match allow_free free)
      else
        let idx := e * 32 in
        let first := byte_at sector idx in
        let seen := if dir_cluster =? 0 then w32 (seen + 1) else seen in
        let free' :=
          if allow_free && bool_decide (free = None) then Some (mk_loc lba (w16 idx)) else free in
        let next free :=
          scan_entries fat dir_cluster name want_dir allow_free lba sector n' (e + 1) seen free in
        if first =? 0 then inl (no_match allow_free free')
        else if first =? 0xE5 then next free'
        else if byte_at sector (idx + 11) =? 0x0F then next free
        else
          let dir := negb (Z.land (byte_at sector (idx + 11)) 0x10 =? 0) in
          if (want_dir =? 1) && negb dir then next free
          else if (want_dir =? 0) && dir then next free
          else if bool_decide (slice sector (Z.to_nat idx) 11 = name) then
            inl (Found (mk_fat_file (read_u16 sector (idx + 26)) (read_u32 sector (idx + 28)) lba
                          (w16 idx) dir (byte_at sector (idx + 11)))
                       (mk_loc lba (w16 idx)))
          else next free
  end.

(** Sectors [s], [s + 1], ... of one run of the directory. *)
Fixpoint scan_sectors fat (dir_cluster : Z) (name : list Z) (want_dir : Z) (allow_free : bool)
    (sector_start : Z) (n : nat) (i seen : Z) (free : option dir_loc)
    : M S (find_res + (Z * option dir_loc)) :=
  match n with
  | O => mret (inr (seen, free))
  | Datatypes.S n' =>
      let lba := w32 (sector_start + i) in
      r ← dir_read_sector fat lba;
      match r with
      | None => mret (inl NotFound)
      | Some sector =>
          match scan_entries fat dir_cluster name want_dir allow_free lba sector
                  (Z.to_nat (bytes_per_sector fat / 32)) 0 seen free with
          | inl res => mret (inl res)
          | inr (seen, free) =>
              scan_sectors fat dir_cluster name want_dir allow_free sector_start n' (i + 1) seen free
          end
      end
  end.

Definition dir_run fat (dir_cluster cluster : Z) : Z * Z :=
  if dir_cluster =? 0 then (root_start fat, root_dir_sectors fat)
  else (cluster_to_sector fat cluster, sectors_per_cluster fat).

Fixpoint find_chain (fuel : nat) fat (dir_cluster : Z) (name : list Z) (want_dir : Z)
    (allow_free : bool) (cluster seen : Z) (free : option dir_loc) : M S find_res :=
  match fuel with
  | O => λ _, None
  | Datatypes.S fuel' =>
      let '(sector_start, sector_count) := dir_run fat dir_cluster cluster in
      r ← scan_sectors fat dir_cluster name want_dir allow_free sector_start
            (Z.to_nat sector_count) 0 seen free;
      match r with
      | inl res => mret res
      | inr (_, free) =>
          if dir_cluster =? 0 then mret (no_match allow_free free)
          else
            next ← fat_next_cluster fat cluster;
            if (next =? 0) || is_end_cluster next then mret (no_match allow_free free)
            else find_chain fuel' fat dir_cluster name want_dir allow_free next 0 free
      end
  end.

Definition CHAIN_FUEL : nat := Z.to_nat 65537.

Definition dir_find_entry fat (dir_cluster : Z) (name : list Z) (want_dir : Z) (allow_free : bool)
    : M S find_res :=
  find_chain CHAIN_FUEL fat dir_cluster name want_dir allow_free dir_cluster 0 None.

Definition dir_write_entry fat (l : dir_loc) (entry : list Z) : M S bool :=
  r ← dir_read_sector fat (loc_sector l);
  match r with
  | None => mret false
  | Some sector =>
      dir_write_sector fat (loc_sector l) (store sector (Z.to_nat (loc_offset l)) (take 32 entry))
  end.

(** ** Paths *)

(** A component of a path in [char comp[16]]. *)
Definition comp_name (seg : list Z) : option (list Z) :=
  if (length seg =? 0)%nat || (16 <=? length seg)%nat then None else build_short_name seg.

Fixpoint traverse (fuel : nat) fat (p : list Z) (create want_dir_last : bool) (dir_cluster : Z)
    : M S (option fat_file) :=
  match fuel with
  | O => mret None
  | Datatypes.S fuel' =>
      if hd 0 p =? 0 then mret None
      else
        let '(seg, p) := span_seg p in
        let last := hd 0 p =? 0 in
        match comp_name seg with
        | None => mret None
        | Some name =>
            let want_dir := if last then (if want_dir_last then 1 else 0) else 1 in
            let allow_free := last && create && negb want_dir_last in
            res ← dir_find_entry fat dir_cluster name want_dir allow_free;
            match res with
            | Found found _ =>
                if negb last then
                  traverse fuel' fat (if hd 0 p =? SLASH then tl p else p) create want_dir_last
                    (w16 (start_cluster found))
                else mret (Some found)
            | Free l =>
                if allow_free then
                  let entry := store (store (replicate 32 0) 0 name) 11 [0x20] in
                  ok ← dir_write_entry fat l entry;
                  mret (if ok : bool then Some (mk_fat_file 0 0 (loc_sector l) (loc_offset l) false 0x20)
                        else None)
                else mret None
            | NotFound => mret None
            end
        end
  end.

(** [None] for the return value -1. *)
Definition fat_traverse_path fat (path : list Z) (create want_dir_last : bool) : M S (option fat_file) :=
  let p := if hd 0 path =? SLASH then tl path else path in
  traverse (Datatypes.S (length path)) fat p create want_dir_last 0.

Definition fat_open fat (path : list Z) : M S (option fat_file) :=
  if ready fat then fat_traverse_path fat path false false else mret None.
Definition fat_open_dir fat (path : list Z) : M S (option fat_file) :=
  if ready fat then fat_traverse_path fat path false true else mret None.
Definition fat_create fat (path : list Z) : M S (option fat_file) :=
  if ready fat then fat_traverse_path fat path true false else mret None.

(** ** Mounting *)

(** The return value and the new [fat]; fields the call does not reach keep
    their old values. *)
Definition fat_init fat (dev : option D) : M S (Z * fat_state D) :=
  match dev with
  | None =>
      mret (-1, mk_fat (fdev fat) (bytes_per_sector fat) (sectors_per_cluster fat) (reserved_sectors fat)
                  (fat_count fat) (root_entries fat) (fat_size fat) (total_sectors fat)
                  (root_dir_sectors fat) (fat_start fat) (root_start fat) (data_start fat)
                  (cluster_count fat) false)
  | Some d =>
      r ← sread d 0;
      match r with
      | None =>
          mret (-1, mk_fat dev (bytes_per_sector fat) (sectors_per_cluster fat) (reserved_sectors fat)
                      (fat_count fat) (root_entries fat) (fat_size fat) (total_sectors fat)
                      (root_dir_sectors fat) (fat_start fat) (root_start fat) (data_start fat)
                      (cluster_count fat) false)
      | Some buf =>
          let bps := read_u16 buf 11 in
          let spc := byte_at buf 13 in
          let reserved := read_u16 buf 14 in
          let fats := byte_at buf 16 in
          let roots := read_u16 buf 17 in
          let total16 := read_u16 buf 19 in
          let total := if total16 =? 0 then read_u32 buf 32 else total16 in
          let fsize := read_u16 buf 22 in
          if negb (bps =? 512) || (spc =? 0) || (fsize =? 0) then
            mret (-1, mk_fat dev bps spc reserved fats roots fsize total
                        (root_dir_sectors fat) (fat_start fat) (root_start fat) (data_start fat)
                        (cluster_count fat) false)
          else
            let root_secs := (roots * 32 + (bps - 1)) / bps in
            let fstart := reserved in
            let rstart := w32 (fstart + fats * fsize) in
            let dstart := w32 (rstart + root_secs) in
            let data_sectors := w32 (total - dstart) in
            let clusters := data_sectors / spc in
            let ok := FAT16_MIN_CLUSTERS <=? clusters in
            mret (if ok then 0 else -1,
                  mk_fat dev bps spc reserved fats roots fsize total root_secs fstart rstart dstart
                    clusters ok)
      end
  end.

(** ** Reading *)

(** [while (skip >= cluster_size && cluster >= 2)]: [None] for the early
    [return 0]. *)
Fixpoint skip_chain (n : nat) fat (cluster_size skip cluster : Z) : M S (option (Z * Z)) :=
  match n with
  | O => mret (Some (skip, cluster))
  | Datatypes.S n' =>
      if (cluster_size <=? skip) && (2 <=? cluster) then
        next ← fat_next_cluster fat (w16 cluster);
        if (next =? 0) || is_end_cluster next then mret None
        else skip_chain n' fat cluster_size (skip - cluster_size) next
      else mret (Some (skip, cluster))
  end.

(** The sectors of one cluster from [cluster_off] on: whether a read failed,
    the bytes copied, and the length still wanted. *)
Fixpoint read_cluster (n : nat) fat (base_sector cluster_size cluster_off len : Z)
    : M S (bool * list Z * Z) :=
  match n with
  | O => mret (true, [], len)
  | Datatypes.S n' =>
      if (cluster_off <? cluster_size) && (0 <? len) then
        let sector := w32 (base_sector + w32 (cluster_off / bytes_per_sector fat)) in
        let off := w32 (cluster_off mod bytes_per_sector fat) in
        r ← read_sector fat sector;
        match r with
        | None => mret (false, [], len)
        | Some sector_buf =>
            let chunk := bytes_per_sector fat - off in
            let chunk := if len <? chunk then len else chunk in
            '(ok, rest, len') ←
              read_cluster n' fat base_sector cluster_size (cluster_off + chunk) (len - chunk);
            mret (ok, slice sector_buf (Z.to_nat off) (Z.to_nat chunk) ++ rest, len')
        end
      else mret (true, [], len)
  end.

(** [while (len > 0 && cluster >= 2)]. *)
Fixpoint read_chain (fuel : nat) fat (cluster_size skip cluster len : Z) : M S (bool * list Z) :=
  match fuel with
  | O => mret (true, [])
  | Datatypes.S fuel' =>
      if (0 <? len) && (2 <=? cluster) then
        let base_sector := cluster_to_sector fat (w16 cluster) in
        '(ok, data, len) ←
          read_cluster (Z.to_nat (sectors_per_cluster fat)) fat base_sector cluster_size skip len;
        if negb (ok : bool) then mret (false, data)
        else if len =? 0 then mret (true, data)
        else
          next ← fat_next_cluster fat (w16 cluster);
          if (next =? 0) || is_end_cluster next then mret (true, data)
          else
            '(ok, rest) ← read_chain fuel' fat cluster_size 0 next len;
            mret (ok : bool, data ++ rest)
      else mret (true, [])
  end.

(** The return value, the bytes stored in [buf], and [*offset]. *)
Definition fat_read fat (file : fat_file) (offset len : Z) : M S (Z * list Z * Z) :=
  if negb (ready fat) then mret (-1, [], offset)
  else if (start_cluster file =? 0) || (size file <=? offset) || (len =? 0) then mret (0, [], offset)
  else
    let remaining := size file - offset in
    let len := if remaining <? len then remaining else len in
    let cluster_size := sectors_per_cluster fat * bytes_per_sector fat in
    r ← skip_chain (Z.to_nat (offset / cluster_size)) fat cluster_size offset (w16 (start_cluster file));
    match r with
    | None => mret (0, [], offset)
    | Some (skip, cluster) =>
        '(ok, data) ← read_chain (Z.to_nat len) fat cluster_size skip cluster len;
        if ok : bool then mret (Z.of_nat (length data), data, w64 (offset + Z.of_nat (length data)))
        else mret (-1, data, offset)
    end.

(** ** Writing *)

(** The cluster after [cluster], a new one if the chain ends there; [None]
    if there is none to be had. *)
Definition next_or_alloc fat (cluster : Z) : M S (option Z) :=
  next ← fat_next_cluster fat cluster;
  if (next =? 0) || is_end_cluster next then
    new_cluster ← fat_alloc_cluster fat;
    if new_cluster =? 0 then mret None
    else
      ok ← fat_set_cluster fat cluster new_cluster;
      mret (if ok : bool then Some new_cluster else None)
  else mret (Some next).

Fixpoint extend_chain (n : nat) fat (cluster_size skip cluster : Z) : M S (option (Z * Z)) :=
  match n with
  | O => mret (Some (skip, cluster))
  | Datatypes.S n' =>
      if cluster_size <=? skip then
        r ← next_or_alloc fat cluster;
        match r with
        | None => mret None
        | Some next => extend_chain n' fat cluster_size (skip - cluster_size) next
        end
      else mret (Some (skip, cluster))
  end.

(** Whether all accesses succeeded, and the data still to write. *)
Fixpoint write_cluster (n : nat) fat (base_sector cluster_size cluster_off : Z) (src : list Z)
    : M S (bool * list Z) :=
  match n with
  | O => mret (true, src)
  | Datatypes.S n' =>
      let len := Z.of_nat (length src) in
      if (cluster_off <? cluster_size) && (0 <? len) then
        let sector := w32 (base_sector + w32 (cluster_off / bytes_per_sector fat)) in
        let off := w32 (cluster_off mod bytes_per_sector fat) in
        r ← dir_read_sector fat sector;
        match r with
        | None => mret (false, src)
        | Some sector_buf =>
            let chunk := bytes_per_sector fat - off in
            let chunk := if len <? chunk then len else chunk in
            let sector_buf := store sector_buf (Z.to_nat off) (take (Z.to_nat chunk) src) in
            ok ← dir_write_sector fat sector sector_buf;
            if negb (ok : bool) then mret (false, src)
            else write_cluster n' fat base_sector cluster_size (cluster_off + chunk)
                   (drop (Z.to_nat chunk) src)
        end
      else mret (true, src)
  end.

(** How the loop over the clusters ends: an I/O error ([return -1]), no room
    for the rest ([return written]), or everything written. *)
Inductive write_end := WriteError | WriteShort (rest : list Z) | WriteAll.

Fixpoint write_chain (fuel : nat) fat (cluster_size skip cluster : Z) (src : list Z) : M S write_end :=
  match fuel with
  | O => mret WriteAll
  | Datatypes.S fuel' =>
      if (0 <? length src)%nat then
        let base_sector := cluster_to_sector fat cluster in
        '(ok, src) ←
          write_cluster (Z.to_nat (sectors_per_cluster fat)) fat base_sector cluster_size skip src;
        if negb (ok : bool) then mret WriteError
        else if (length src =? 0)%nat then mret WriteAll
        else
          r ← next_or_alloc fat cluster;
          match r with
          | None => mret (WriteShort src)
          | Some next => write_chain fuel' fat cluster_size 0 next src
          end
      else mret WriteAll
  end.

Definition set_start (f : fat_file) (c : Z) : fat_file :=
  mk_fat_file c (size f) (dir_sector f) (dir_offset f) (is_dir f) (attr f).
Definition set_size (f : fat_file) (n : Z) : fat_file :=
  mk_fat_file (start_cluster f) n (dir_sector f) (dir_offset f) (is_dir f) (attr f).

(** The first cluster of an empty file, recorded in its directory entry. *)
Definition first_cluster fat (file : fat_file) : M S (bool * fat_file) :=
  if start_cluster file =? 0 then
    first ← fat_alloc_cluster fat;
    if first =? 0 then mret (false, file)
    else
      let file := set_start file first in
      r ← dir_read_sector fat (dir_sector file);
      match r with
      | None => mret (false, file)
      | Some sector =>
          ok ← dir_write_sector fat (dir_sector file)
                 (store sector (Z.to_nat (dir_offset file + 26)) (u16_bytes first));
          mret (ok : bool, file)
      end
  else mret (true, file).

(** The new size of a file that grew, recorded in its directory entry. *)
Definition grow_size fat (file : fat_file) (end_ : Z) : M S fat_file :=
  if size file <? end_ then
    let file := set_size file (w32 end_) in
    r ← dir_read_sector fat (dir_sector file);
    match r with
    | None => mret file
    | Some sector =>
        _ ← dir_write_sector fat (dir_sector file)
              (store sector (Z.to_nat (dir_offset file + 28)) (u32_bytes (size file)));
        mret file
    end
  else mret file.

(** The return value, [*file] and [*offset]. *)
Definition fat_write fat (file : fat_file) (offset : Z) (src : list Z) : M S (Z * fat_file * Z) :=
  let len := Z.of_nat (length src) in
  if negb (ready fat) then mret (-1, file, offset)
  else if is_dir file then mret (-1, file, offset)
  else if negb (Z.land (attr file) 0x01 =? 0) then mret (-1, file, offset)
  else if len =? 0 then mret (0, file, offset)
  else
    let end_ := w64 (offset + len) in
    if end_ <? offset then mret (-1, file, offset)
    else
      '(ok, file) ← first_cluster fat file;
      if negb (ok : bool) then mret (-1, file, offset)
      else
        let cluster_size := sectors_per_cluster fat * bytes_per_sector fat in
        r ← extend_chain (Z.to_nat (offset / cluster_size)) fat cluster_size offset
              (w16 (start_cluster file));
        match r with
        | None => mret (-1, file, offset)
        | Some (skip, cluster) =>
            e ← write_chain (length src) fat cluster_size skip cluster src;
            match e with
            | WriteError => mret (-1, file, offset)
            | WriteShort rest => mret (len - Z.of_nat (length rest), file, offset)
            | WriteAll =>
                file ← grow_size fat file end_;
                mret (len, file, w64 (offset + len))
            end
        end.

(** ** Directories made and listed *)

Fixpoint zero_sectors (n : nat) fat (start i : Z) : M S bool :=
  match n with
  | O => mret true
  | Datatypes.S n' =>
      ok ← dir_write_sector fat (w32 (start + i)) (replicate (Z.to_nat (bytes_per_sector fat)) 0);
      if ok : bool then zero_sectors n' fat start (i + 1) else mret false
  end.
Definition zero_cluster fat (cluster : Z) : M S bool :=
  zero_sectors (Z.to_nat (sectors_per_cluster fat)) fat (cluster_to_sector fat cluster) 0.

Definition init_dir_cluster fat (cluster parent_cluster : Z) : M S bool :=
  ok ← zero_cluster fat cluster;
  if negb (ok : bool) then mret false
  else
    r ← dir_read_sector fat (cluster_to_sector fat cluster);
    match r with
    | None => mret false
    | Some sector =>
        let sector := store sector 0 (dir_entry_init (pad 11 [DOT]) 0x10 cluster 0) in
        let sector := store sector 32 (dir_entry_init (pad 11 [DOT; DOT]) 0x10 parent_cluster 0) in
        dir_write_sector fat (cluster_to_sector fat cluster) sector
    end.

Fixpoint find_parent_loop (fuel : nat) fat (p : list Z) (dir_cluster : Z) : M S (option (Z * list Z)) :=
  match fuel with
  | O => mret None
  | Datatypes.S fuel' =>
      let p := skip_slashes p in
      if hd 0 p =? 0 then mret None
      else
        let '(seg, p) := span_seg p in
        match comp_name seg with
        | None => mret None
        | Some tmp_name =>
            let next := skip_slashes p in
            if hd 0 next =? 0 then mret (Some (dir_cluster, tmp_name))
            else
              res ← dir_find_entry fat dir_cluster tmp_name 1 false;
              match res with
              | Found found _ => find_parent_loop fuel' fat next (w16 (start_cluster found))
              | _ => mret None
              end
        end
  end.

(** The cluster of the parent directory and the short name of the last
    component. *)
Definition fat_find_parent fat (path : list Z) : M S (option (Z * list Z)) :=
  let p := skip_slashes path in
  if hd 0 p =? 0 then mret None else find_parent_loop (Datatypes.S (length p)) fat p 0.

Definition fat_mkdir fat (path : list Z) : M S bool :=
  if negb (ready fat) then mret false
  else
    r ← fat_find_parent fat path;
    match r with
    | None => mret false
    | Some (dir_cluster, name) =>
        res ← dir_find_entry fat dir_cluster name (-1) true;
        match res with
        | Found found _ => mret (is_dir found)
        | NotFound => mret false
        | Free l =>
            cluster ← fat_alloc_cluster fat;
            if cluster =? 0 then mret false
            else
              ok ← dir_write_entry fat l (dir_entry_init name 0x10 cluster 0);
              if negb (ok : bool) then mret false else init_dir_cluster fat cluster dir_cluster
        end
    end.

Fixpoint append_str (len : Z) (out s : list Z) : list Z :=
  match s with
  | [] => out
  | c :: s' =>
      if c =? 0 then out
      else if len <=? Z.of_nat (length out) + 1 then out else append_str len (out ++ [c]) s'
  end.

(** Entries of a sector: the text so far, and whether the listing is over. *)
Fixpoint list_entries fat (dir_cluster : Z) (prefix : list Z) (len : Z) (sector : list Z)
    (n : nat) (e seen : Z) (out : list Z) : list Z * Z * bool :=
  match n with
  | O => (out, seen, false)
  | Datatypes.S n' =>
      if (dir_cluster =? 0) && (root_entries fat <=? seen) then (out, seen, true)
      else
        let ent := drop (Z.to_nat (e * 32)) sector in
        let seen := if dir_cluster =? 0 then w32 (seen + 1) else seen in
        let next out := list_entries fat dir_cluster prefix len sector n' (e + 1) seen out in
        let a := byte_at ent 11 in
        if byte_at ent 0 =? 0 then (out, seen, true)
        else if (byte_at ent 0 =? 0xE5) || (a =? 0x0F) || negb (Z.land a 0x08 =? 0) then next out
        else if (byte_at ent 0 =? DOT) && ((byte_at ent 1 =? 32) || (byte_at ent 1 =? DOT)) then next out
        else
          let out := append_str len (append_str len out prefix) (format_name ent 16) in
          let written := Z.of_nat (length out) in
          if negb (Z.land a 0x10 =? 0) then
            if len <=? written + 2 then (out, seen, true) else next (out ++ [SLASH; 10])
          else if len <=? written + 1 then (out, seen, true) else next (out ++ [10])
  end.

Fixpoint list_sectors fat (dir_cluster : Z) (prefix : list Z) (len sector_start : Z)
    (n : nat) (i seen : Z) (out : list Z) : M S (list Z * Z * bool) :=
  match n with
  | O => mret (out, seen, false)
  | Datatypes.S n' =>
      r ← read_sector fat (w32 (sector_start + i));
      match r with
      | None => mret (out, seen, true)
      | Some sector =>
          let '(out, seen, stop) :=
            list_entries fat dir_cluster prefix len sector (Z.to_nat (bytes_per_sector fat / 32)) 0 seen out in
          if stop then mret (out, seen, true)
          else list_sectors fat dir_cluster prefix len sector_start n' (i + 1) seen out
      end
  end.

Fixpoint list_chain (fuel : nat) fat (dir_cluster : Z) (prefix : list Z) (len cluster seen : Z)
    (out : list Z) : M S (list Z) :=
  match fuel with
  | O => λ _, None
  | Datatypes.S fuel' =>
      let '(sector_start, sector_count) := dir_run fat dir_cluster cluster in
      '(out, seen, stop) ←
        list_sectors fat dir_cluster prefix len sector_start (Z.to_nat sector_count) 0 seen out;
      if (stop : bool) || (dir_cluster =? 0) then mret out
      else
        next ← fat_next_cluster fat cluster;
        if (next =? 0) || is_end_cluster next then mret out
        else list_chain fuel' fat dir_cluster prefix len next seen out
  end.

(** The text stored in [buf]; its length is the return value. *)
Definition list_dir fat (dir_cluster : Z) (prefix : list Z) (len : Z) : M S (list Z) :=
  if len =? 0 then mret []
  else list_chain CHAIN_FUEL fat dir_cluster prefix len dir_cluster 0 [].

(** The static [normalize_path] of fat.c: [None] for the return value -1. *)
Definition fat_normalize_path (path : option (list Z)) (out_len : Z) : option (list Z) :=
  match path with
  | None => Some []
  | Some path =>
      let p := cstr (skip_slashes path) in
      let out := take (Z.to_nat (out_len - 1)) p in
      if (length out <? length p)%nat then None
      else Some (reverse (trim (reverse out)))
  end.

Definition fat_list_dir fat (path : option (list Z)) (len : Z) : M S (list Z) :=
  if negb (ready fat) || (len =? 0) then mret []
  else
    match fat_normalize_path path 64 with
    | None => mret []
    | Some trimmed =>
        let go dir_cluster :=
          let prefix := take 95 (chars "/disk/") in
          let prefix :=
            if bool_decide (trimmed = []) then prefix
            else
              let prefix := prefix ++ take (95 - length prefix) trimmed in
              if (length prefix + 1 <? 96)%nat then prefix ++ [SLASH] else prefix in
          list_dir fat dir_cluster prefix len in
        if bool_decide (trimmed = []) then go 0
        else
          r ← fat_open_dir fat trimmed;
          match r with
          | Some dir => if is_dir dir then go (w16 (start_cluster dir)) else mret []
          | None => mret []
          end
    end.

Definition fat_list fat (len : Z) : M S (list Z) := fat_list_dir fat None len.
End Ops.

End Fat.
