(* ===== verification/FatTable.v ===== *)
(** * The allocation table of the FAT file system

    The geometry of a mounted volume, the cluster entries as numbers, and what
    [fat_next_cluster], [fat_set_cluster] and [fat_alloc_cluster] do to them. *)

From S2P Require Import Prelude CString Paths Bytes State Fat.
From stdpp Require Import options.
Import Bytes Fat.

Module FatTable.

(** ** Little-endian fields of a sector *)

Lemma byte_at_store b off src i :
  0 ≤ off → 0 ≤ i → off + Z.of_nat (length src) ≤ Z.of_nat (length b) →
  byte_at (store b (Z.to_nat off) src) i =
  if decide (off ≤ i < off + Z.of_nat (length src)) then byte_at src (i - off) else byte_at b i.
Proof.
  intros Ho Hi Hl. unfold byte_at. rewrite !nth_lookup, lookup_store by lia.
  repeat case_decide; try lia; try done. by rewrite Z2Nat.inj_sub by lia.
Qed.

Lemma byte_at_range b i : Forall (λ x, 0 ≤ x < 256) b → 0 ≤ byte_at b i < 256.
Proof.
  intros Hb. unfold byte_at. rewrite nth_lookup. destruct (b !! Z.to_nat i) eqn:E; simpl; [|lia].
  by eapply Forall_lookup_1 in Hb.
Qed.

Lemma lor_bytes a b : 0 ≤ a < 256 → Z.lor a (Z.shiftl b 8) = a + 256 * b.
Proof.
  intros Ha. assert (Z.land a (Z.shiftl b 8) = 0) as E.
  { apply Z.bits_inj'. intros k Hk. rewrite Z.land_spec, Z.bits_0, Z.shiftl_spec by lia.
    destruct (Z.ltb_spec k 8); [by rewrite (Z.testbit_neg_r b), andb_false_r by lia|].
    rewrite <- (Z.mod_small a (2 ^ 8)), Z.mod_pow2_bits_high by lia. done. }
  pose proof (Z.add_lor_land a (Z.shiftl b 8)). rewrite Z.shiftl_mul_pow2 in * by lia. lia.
Qed.

Lemma u16_eq b o : Forall (λ x, 0 ≤ x < 256) b → read_u16 b o = byte_at b o + 256 * byte_at b (o + 1).
Proof. intros Hb. apply lor_bytes. by apply byte_at_range. Qed.

Lemma u16_range b o : Forall (λ x, 0 ≤ x < 256) b → 0 ≤ read_u16 b o < 65536.
Proof.
  intros Hb. rewrite u16_eq by done. pose proof (byte_at_range b o Hb).
  pose proof (byte_at_range b (o + 1) Hb). lia.
Qed.

Lemma land_ff v : Z.land v 0xFF = v mod 256.
Proof. apply (Z.land_ones v 8). lia. Qed.

Lemma u16_bytes_range v : Forall (λ x, 0 ≤ x < 256) (u16_bytes v).
Proof. unfold u16_bytes. rewrite land_ff. repeat constructor; try apply w8_range; dlia. Qed.

Lemma u32_bytes_range v : Forall (λ x, 0 ≤ x < 256) (u32_bytes v).
Proof. unfold u32_bytes. rewrite !land_ff. repeat constructor; dlia. Qed.

Lemma store_range b off src :
  Forall (λ x, 0 ≤ x < 256) b → Forall (λ x, 0 ≤ x < 256) src →
  Forall (λ x, 0 ≤ x < 256) (store b off src).
Proof.
  revert b off. induction src as [|x src IH]; intros b off Hb Hs; simpl; [done|].
  apply Forall_cons in Hs as [Hx Hs]. apply IH; [|done]. by apply Forall_insert.
Qed.

Lemma sector_store b off src :
  sector b → Forall (λ x, 0 ≤ x < 256) src → sector (store b off src).
Proof. intros [Hl Hb] Hs. split; [by rewrite length_store|by apply store_range]. Qed.

(** A 16-bit field written and read back, or read elsewhere. *)
Lemma u16_store b o o' v :
  sector b → 0 ≤ o ≤ 510 → 0 ≤ o' ≤ 510 → o mod 2 = 0 → o' mod 2 = 0 → 0 ≤ v < 65536 →
  read_u16 (store b (Z.to_nat o) (u16_bytes v)) o' = if o' =? o then v else read_u16 b o'.
Proof.
  intros Hb Ho Ho' He He' Hv. pose proof (sector_store b (Z.to_nat o) _ Hb (u16_bytes_range v)) as [_ Hr].
  destruct Hb as [Hl Hb]. rewrite !u16_eq by done. rewrite !byte_at_store by (rewrite ?Hl; simpl; lia).
  change (Z.of_nat (length (u16_bytes v))) with 2.
  destruct (Z.eqb_spec o' o) as [->|Hne].
  - rewrite !decide_True by lia. replace (o - o) with 0 by lia. replace (o + 1 - o) with 1 by lia.
    unfold byte_at, u16_bytes. simpl. rewrite land_ff. unfold w8. rewrite Z.shiftr_div_pow2 by lia.
    change (2 ^ 8) with 256. dlia.
  - rewrite !decide_False by dlia. done.
Qed.

(** ** A mounted volume *)

Section Volume.
Context {D S : Type} `{!SectorDev D S} `{!SectorLaws D S}.
Implicit Types fat : fat_state D.
Implicit Types s : S.

(** One more than the largest cluster number, and the end of the volume. *)
Definition cluster_end fat : Z := cluster_count fat + 2.
Definition volume_end fat : Z := data_start fat + cluster_count fat * sectors_per_cluster fat.

(** A geometry of a FAT16 volume whose table has an entry for every cluster. *)
Record geometry fat (d : D) : Prop := {
  g_ready : ready fat = true;
  g_dev : fdev fat = Some d;
  g_bps : bytes_per_sector fat = 512;
  g_spc : 0 < sectors_per_cluster fat < 256;
  g_count : 0 < cluster_count fat ∧ cluster_end fat ≤ FAT16_EOC;
  g_fat : 0 ≤ fat_start fat ∧ 512 * fat_start fat + 2 * cluster_end fat ≤ 512 * root_start fat;
  g_root : data_start fat = root_start fat + root_dir_sectors fat ∧ 0 ≤ root_dir_sectors fat;
  g_end : volume_end fat ≤ 2 ^ 32;
}.

Context (fat : fat_state D) (d : D) (G : geometry fat d).

(** Every sector of the volume is there. *)
Definition disk s : Prop := sd_ok d s ∧ ∀ l, 0 ≤ l < volume_end fat → is_Some (sect d s l).

Definition same s s' : Prop := disk s' ∧ ∀ l, sect d s' l = sect d s l.

Definition entry s (c : Z) : Z :=
  match sect d s (fat_start fat + 2 * c / 512) with
  | Some b => read_u16 b ((2 * c) mod 512)
  | None => 0
  end.

(** Entry [c] becomes [v]; nothing else of the volume changes. *)
Record updated s s' (c v : Z) : Prop := {
  up_disk : disk s';
  up_entry c' : 0 ≤ c' < cluster_end fat → entry s' c' = if c' =? c then v else entry s c';
  up_sect l : root_start fat ≤ l < volume_end fat → sect d s' l = sect d s l;
}.

Lemma same_refl s : disk s → same s s.
Proof using Type. by split. Qed.
Lemma same_trans s1 s2 s3 : same s1 s2 → same s2 s3 → same s1 s3.
Proof using Type. intros [_ H1] [? H2]. split; [done|]. intros l. by rewrite H2. Qed.
Lemma same_entry s s' c : same s s' → entry s' c = entry s c.
Proof using Type. intros [_ H]. unfold entry. by rewrite H. Qed.

Lemma bounds :
  0 ≤ fat_start fat ∧ fat_start fat < root_start fat ∧ root_start fat ≤ data_start fat ∧
  data_start fat < volume_end fat ∧ volume_end fat ≤ 2 ^ 32.
Proof using G.
  destruct G as [_ _ _ [Hs _] [Hc _] [Hf Hr] [Hd Hrd] He]. unfold volume_end, cluster_end in *. nia.
Qed.

Lemma entry_sector c :
  0 ≤ c < cluster_end fat →
  w32 (fat_start fat + w32 (c * 2) / bytes_per_sector fat) = fat_start fat + 2 * c / 512 ∧
  w32 (c * 2) mod bytes_per_sector fat = (2 * c) mod 512 ∧
  fat_start fat ≤ fat_start fat + 2 * c / 512 < root_start fat.
Proof using G.
  intros Hc. pose proof bounds. destruct G as [_ _ Hb _ [_ He] [Hf Hr] _ _]. rewrite Hb.
  unfold FAT16_EOC in *. rewrite (w32_small (c * 2)) by lia. rewrite (Z.mul_comm c).
  rewrite w32_small by dlia. split_and!; [done|done|dlia..].
Qed.

Lemma entry_in_range s c : disk s → 0 ≤ entry s c < 65536.
Proof using Type.
  intros [Hok _]. unfold entry. destruct (sect d s _) as [b|] eqn:E; [|lia].
  apply u16_range. by eapply sect_sector.
Qed.

Lemma read_sector_run s lba :
  disk s → 0 ≤ lba < volume_end fat →
  ∃ b s', read_sector fat lba s = Some (Some b, s') ∧ sect d s lba = Some b ∧ sector b ∧ same s s'.
Proof using G.
  intros [Hok Hd] Hl. pose proof bounds. destruct (Hd lba Hl) as [b Eb].
  destruct (sread_spec d s lba Hok) as (s' & E & Hok' & Hs); [lia|]. exists b, s'.
  unfold read_sector. rewrite (g_dev _ _ G), E, Eb. split_and!; [done|done|by apply (sect_sector d s lba)|].
  split; [|done]. split; [done|]. intros l ?. rewrite Hs. auto.
Qed.

Lemma write_sector_run s lba b :
  disk s → 0 ≤ lba < volume_end fat → sector b →
  ∃ s', write_sector fat lba b s = Some (true, s') ∧ disk s' ∧
    ∀ l, 0 ≤ l < volume_end fat → sect d s' l = if l =? lba then Some b else sect d s l.
Proof using G.
  intros [Hok Hd] Hl Hb. pose proof bounds. destruct (Hd lba Hl) as [b0 Eb].
  destruct (swrite_spec d s lba b0 b Hok) as (s' & E & Hok' & Hs); [lia|done|done|]. exists s'.
  unfold write_sector. rewrite (g_dev _ _ G), E.
  assert (∀ l, 0 ≤ l < volume_end fat → sect d s' l = if l =? lba then Some b else sect d s l) as Hs'
    by (intros; apply Hs; lia).
  split_and!; [done| |done]. split; [done|]. intros l Hl'. rewrite Hs' by done.
  destruct (l =? lba); eauto.
Qed.

Lemma next_cluster_run s c :
  disk s → 0 ≤ c < cluster_end fat →
  ∃ s', fat_next_cluster fat c s = Some (entry s c, s') ∧ same s s'.
Proof using G.
  intros Hs Hc. pose proof bounds. destruct (entry_sector c Hc) as (E1 & E2 & Hr).
  unfold fat_next_cluster. rewrite E1, E2.
  destruct (read_sector_run s (fat_start fat + 2 * c / 512) Hs) as (b & s' & E & Eb & _ & Hsame); [lia|].
  exists s'. rewrite (run_bind _ _ _ _ _ E). unfold entry. rewrite Eb. done.
Qed.

Lemma set_cluster_run s c v :
  disk s → 0 ≤ c < cluster_end fat → 0 ≤ v < 65536 →
  ∃ s', fat_set_cluster fat c v s = Some (true, s') ∧ updated s s' c v.
Proof using G.
  intros Hs Hc Hv. pose proof bounds. destruct (entry_sector c Hc) as (E1 & E2 & Hr).
  unfold fat_set_cluster. rewrite E1, E2. set (lba := fat_start fat + 2 * c / 512) in *.
  destruct (read_sector_run s lba Hs) as (b & s1 & E & Eb & Hb & Hd1 & Hsame); [lia|].
  rewrite (run_bind _ _ _ _ _ E).
  destruct (write_sector_run s1 lba (store b (Z.to_nat ((2 * c) mod 512)) (u16_bytes v)) Hd1)
    as (s2 & Ew & Hd2 & Hw); [lia|by apply sector_store, u16_bytes_range|].
  exists s2. split; [done|]. split; [done| |].
  - intros c' Hc'. destruct (entry_sector c' Hc') as (_ & _ & Hr'). unfold entry. rewrite Hw, Hsame by lia.
    destruct (Z.eqb_spec (fat_start fat + 2 * c' / 512) lba) as [El|Hne].
    + rewrite El, Eb, u16_store by (done || dlia). unfold lba in El.
      destruct (Z.eqb_spec ((2 * c') mod 512) ((2 * c) mod 512)), (Z.eqb_spec c' c); try done; dlia.
    + destruct (Z.eqb_spec c' c) as [->|]; [by destruct Hne|done].
  - intros l Hl. rewrite Hw, Hsame by lia. destruct (Z.eqb_spec l lba); [lia|done].
Qed.

(** ** Allocation *)

Lemma alloc_loop_run n : ∀ s c,
  disk s → 2 ≤ c → c + Z.of_nat n = cluster_end fat →
  ∃ r s', alloc_loop fat n c s = Some (r, s') ∧
    (r = 0 ∧ same s s' ∧ (∀ c', c ≤ c' < cluster_end fat → entry s c' ≠ 0) ∨
     c ≤ r < cluster_end fat ∧ entry s r = 0 ∧ (∀ c', c ≤ c' < r → entry s c' ≠ 0) ∧
     updated s s' r FAT16_EOC).
Proof using G.
  induction n as [|n IH]; intros s c Hs Hc Hn; cbn [alloc_loop].
  - exists 0, s. split; [done|]. left. split_and!; [done|by apply same_refl|lia].
  - pose proof (g_count _ _ G) as [_ He]. unfold FAT16_EOC in He. rewrite w16_small by lia.
    destruct (next_cluster_run s c Hs) as (s1 & E & Hsame); [lia|]. rewrite (run_bind _ _ _ _ _ E).
    destruct (Z.eqb_spec (entry s c) 0) as [Ez|Hnz].
    + destruct (set_cluster_run s1 c FAT16_EOC) as (s2 & Es & Hu); [apply Hsame|lia|unfold FAT16_EOC; lia|].
      exists c, s2. rewrite (run_bind _ _ _ _ _ Es). split; [done|]. right.
      split_and!; [lia|lia|done|lia|]. destruct Hu as [U1 U2 U3]. split; [done| |].
      * intros c' Hc'. rewrite U2 by done. by rewrite (same_entry s s1).
      * intros l Hl. rewrite U3 by done. apply Hsame.
    + destruct (IH s1 (c + 1)) as (r & s2 & Er & Hcase); [apply Hsame|lia|lia|]. exists r, s2.
      split; [done|]. setoid_rewrite (same_entry s s1) in Hcase; [|done..].
      destruct Hcase as [(-> & H2 & Hall)|(Hr & Ez & Hall & Hu)]; [left|right].
      * split_and!; [done|by eapply same_trans|]. intros c' Hc'.
        destruct (decide (c' = c)) as [->|]; [done|apply Hall; lia].
      * split_and!; [lia|lia|done| |].
        -- intros c' Hc'. destruct (decide (c' = c)) as [->|]; [done|apply Hall; lia].
        -- destruct Hu as [U1 U2 U3]. split; [done| |].
           ++ intros c' Hc'. rewrite U2 by done. by rewrite (same_entry s s1).
           ++ intros l Hl. rewrite U3 by done. apply Hsame.
Qed.

(** [fat_alloc_cluster] takes the first free cluster and marks it as the end
    of a chain; it returns 0, changing nothing, exactly when none is free. *)
Lemma alloc_cluster_run s :
  disk s →
  ∃ r s', fat_alloc_cluster fat s = Some (r, s') ∧
    (r = 0 ∧ same s s' ∧ (∀ c, 2 ≤ c < cluster_end fat → entry s c ≠ 0) ∨
     2 ≤ r < cluster_end fat ∧ entry s r = 0 ∧ (∀ c, 2 ≤ c < r → entry s c ≠ 0) ∧
     updated s s' r FAT16_EOC).
Proof using G.
  intros Hs. unfold fat_alloc_cluster. pose proof (g_count _ _ G) as [Hc He].
  unfold cluster_end, FAT16_EOC in *. rewrite w32_small by lia.
  apply alloc_loop_run; [done|lia|]. unfold cluster_end. lia.
Qed.
End Volume.
End FatTable.
