(* ===== verification/FatRead.v ===== *)
(** * Cluster chains and reading

    The contents of a chain of clusters as one list of bytes, and that
    [fat_read] returns the part of it that was asked for. *)

From S2P Require Import Prelude CString Paths Bytes State Fat FatTable.
From stdpp Require Import options.
Import Bytes Fat FatTable.

Module FatRead.

(** ** Blocks of equal size *)

Lemma length_concat_blocks (n : nat) (bs : list (list Z)) :
  Forall (λ b, length b = n) bs → length (concat bs) = (n * length bs)%nat.
Proof. induction 1 as [|b bs Hb _ IH]; simpl; [lia|]. rewrite length_app, Hb, IH. lia. Qed.

Lemma lookup_concat_blocks (n : nat) (bs : list (list Z)) : ∀ k i b,
  Forall (λ b, length b = n) bs → bs !! k = Some b → (i < n)%nat → concat bs !! (n * k + i)%nat = b !! i.
Proof.
  induction bs as [|b0 bs IH]; intros k i b Hf Hk Hi; [done|]. apply Forall_cons in Hf as [H0 Hf].
  destruct k as [|k]; simpl in *.
  - injection Hk as ->. rewrite lookup_app_l by lia. f_equal. lia.
  - rewrite lookup_app_r by lia. rewrite <- (IH k i b) by done. f_equal. lia.
Qed.

(** A slice that stays within one block. *)
Lemma slice_concat_blocks (n : nat) (bs : list (list Z)) k off len b :
  Forall (λ b, length b = n) bs → bs !! k = Some b → (off + len ≤ n)%nat →
  slice (concat bs) (n * k + off) len = slice b off len.
Proof.
  intros Hf Hk Hl. apply list_eq. intros i. rewrite !lookup_slice. case_decide; [|done].
  rewrite <- Nat.add_assoc. by apply lookup_concat_blocks; [| |lia].
Qed.

Lemma slice_add b off n m : slice b off (n + m) = slice b off n ++ slice b (off + n) m.
Proof.
  apply list_eq. intros i. destruct (decide (i < length (slice b off n))%nat) as [Hlt|Hge].
  - rewrite lookup_app_l by done. rewrite length_slice in Hlt. rewrite !lookup_slice.
    by rewrite !decide_True by lia.
  - rewrite lookup_app_r by lia. rewrite length_slice in *. rewrite !lookup_slice.
    destruct (decide (off + n ≤ length b)%nat).
    + replace (n `min` (length b - off))%nat with n in * by lia. repeat case_decide; try lia; [|done].
      f_equal. lia.
    + repeat case_decide; try done; repeat rewrite lookup_ge_None_2 by lia; try done.
Qed.

Lemma slice_0 b off : slice b off 0 = [].
Proof. done. Qed.

Lemma slice_app_l a b off len : (off + len ≤ length a)%nat → slice (a ++ b) off len = slice a off len.
Proof.
  intros Hl. apply list_eq. intros i. rewrite !lookup_slice. case_decide; [|done].
  by rewrite lookup_app_l by lia.
Qed.
Lemma slice_app_r a b off len : (length a ≤ off)%nat → slice (a ++ b) off len = slice b (off - length a) len.
Proof.
  intros Hl. apply list_eq. intros i. rewrite !lookup_slice. case_decide; [|done].
  rewrite lookup_app_r by lia. f_equal. lia.
Qed.
Lemma slice_past b off len : (length b ≤ off)%nat → slice b off len = [].
Proof. intros Hl. unfold slice. by rewrite drop_ge, take_nil. Qed.
Lemma slice_clip b off len : slice b off len = slice b off (len `min` (length b - off)).
Proof.
  apply list_eq. intros i. rewrite !lookup_slice. repeat case_decide; try done; [|lia].
  apply lookup_ge_None_2. lia.
Qed.

Section Chains.
Context {D S : Type} `{!SectorDev D S} `{!SectorLaws D S}.
Context (fat : fat_state D) (d : D) (G : geometry fat d).
Implicit Types s : S.
Local Notation disk := (disk fat d).
Local Notation same := (same fat d).
Local Notation entry := (entry fat d).

Definition csize : Z := sectors_per_cluster fat * 512.
Definition is_cluster (c : Z) : Prop := 2 ≤ c < cluster_end fat.
Definition csector (c : Z) : Z := data_start fat + (c - 2) * sectors_per_cluster fat.

(** The sectors of a cluster and its bytes. *)
Definition csectors s (c : Z) : list (list Z) :=
  (λ i, default [] (sect d s (csector c + Z.of_nat i))) <$> seq 0 (Z.to_nat (sectors_per_cluster fat)).
Definition cdata s (c : Z) : list Z := concat (csectors s c).

(** The end of a chain: the last entry is an end mark (or, as the code has
    it, 0). *)
Definition ends (v : Z) : bool := (v =? 0) || is_end_cluster v.
Fixpoint chain s (cs : list Z) : Prop :=
  match cs with
  | [] => False
  | c :: cs' => is_cluster c ∧
      match cs' with
      | [] => ends (entry s c) = true
      | c' :: _ => entry s c = c' ∧ chain s cs'
      end
  end.
Definition data s (cs : list Z) : list Z := concat (cdata s <$> cs).

Lemma csector_range c i :
  is_cluster c → 0 ≤ i < sectors_per_cluster fat →
  data_start fat ≤ csector c + i < volume_end fat ∧ csector c = cluster_to_sector fat c.
Proof using G.
  intros Hc Hi. pose proof (bounds fat d G). destruct (g_count _ _ G) as [_ He].
  unfold is_cluster, csector, cluster_to_sector, volume_end, cluster_end, FAT16_EOC in *.
  rewrite (w32_small (c - 2)) by lia. assert ((c - 2) * sectors_per_cluster fat + sectors_per_cluster fat
    ≤ cluster_count fat * sectors_per_cluster fat) by nia.
  split; [nia|]. rewrite w32_small by nia. done.
Qed.

Lemma csectors_lookup s c k :
  disk s → is_cluster c → (k < Z.to_nat (sectors_per_cluster fat))%nat →
  ∃ b, sect d s (csector c + Z.of_nat k) = Some b ∧ csectors s c !! k = Some b ∧ sector b.
Proof using G.
  intros [Hok Hd] Hc Hk. pose proof (bounds fat d G).
  destruct (csector_range c (Z.of_nat k) Hc) as [Hr _]; [lia|].
  destruct (Hd (csector c + Z.of_nat k)) as [b Eb]; [lia|]. exists b. split_and!; [done| |].
  - unfold csectors. rewrite list_lookup_fmap, lookup_seq_lt by done. simpl. by rewrite Eb.
  - by apply (sect_sector d s (csector c + Z.of_nat k)).
Qed.

Lemma csectors_size s c :
  disk s → is_cluster c →
  Forall (λ b, length b = 512%nat) (csectors s c) ∧ length (csectors s c) = Z.to_nat (sectors_per_cluster fat).
Proof using G.
  intros Hs Hc. assert (length (csectors s c) = Z.to_nat (sectors_per_cluster fat)) as El
    by (unfold csectors; by rewrite length_fmap, length_seq). split; [|done].
  apply Forall_lookup. intros k b Hk. pose proof (lookup_lt_Some _ _ _ Hk) as Hlt. rewrite El in Hlt.
  destruct (csectors_lookup s c k Hs Hc Hlt) as (b' & _ & E & [? _]). congruence.
Qed.

Lemma length_cdata s c : disk s → is_cluster c → length (cdata s c) = Z.to_nat csize.
Proof using G.
  intros Hs Hc. destruct (csectors_size s c Hs Hc) as [Hf Hl]. pose proof (g_spc _ _ G).
  unfold cdata, csize. rewrite (length_concat_blocks 512), Hl by done. lia.
Qed.

Lemma same_cdata s s' c : same s s' → cdata s' c = cdata s c.
Proof using Type. intros [_ H]. unfold cdata, csectors. f_equal. apply list_fmap_ext. intros. by rewrite H. Qed.

Lemma same_chain s s' cs : same s s' → chain s cs → chain s' cs.
Proof using Type.
  intros Hs. induction cs as [|c cs IH]; [done|]. intros [Hc H]. split; [done|].
  rewrite (same_entry fat d s s' c Hs). destruct cs; [done|]. destruct H. auto.
Qed.
Lemma same_data s s' cs : same s s' → data s' cs = data s cs.
Proof using Type. intros Hs. unfold data. f_equal. apply list_fmap_ext. intros. by apply same_cdata. Qed.

Lemma csize_pos : 0 < csize < 2 ^ 17.
Proof using G. pose proof (g_spc _ _ G). unfold csize. lia. Qed.

(** The part of a cluster within one sector. *)
Lemma slice_cdata s c coff len b :
  disk s → is_cluster c → 0 ≤ coff < csize → 0 ≤ len → coff mod 512 + len ≤ 512 →
  sect d s (csector c + coff / 512) = Some b →
  slice (cdata s c) (Z.to_nat coff) (Z.to_nat len) = slice b (Z.to_nat (coff mod 512)) (Z.to_nat len).
Proof using G.
  intros Hs Hc Hco Hl Hlen Eb. destruct (csectors_size s c Hs Hc) as [Hf Hn]. unfold csize in *.
  assert (0 ≤ coff / 512 < sectors_per_cluster fat) as Hk by dlia.
  destruct (csectors_lookup s c (Z.to_nat (coff / 512)) Hs Hc) as (b' & E1 & E2 & _); [lia|].
  rewrite Z2Nat.id in E1 by lia. assert (b' = b) as -> by congruence.
  pose proof (Z.div_mod coff 512 ltac:(lia)). pose proof (Z.mod_pos_bound coff 512 ltac:(lia)).
  rewrite <- (slice_concat_blocks 512 (csectors s c) (Z.to_nat (coff / 512)) _ _ b) by (done || lia).
  unfold cdata. f_equal. lia.
Qed.

Lemma read_cluster_run n : ∀ s c coff len,
  disk s → is_cluster c → 0 ≤ coff ≤ csize → 0 ≤ len →
  len = 0 ∨ csize - 512 * (coff / 512) ≤ 512 * Z.of_nat n →
  let k := len `min` (csize - coff) in
  ∃ s', read_cluster n fat (cluster_to_sector fat c) csize coff len s =
        Some ((true, slice (cdata s c) (Z.to_nat coff) (Z.to_nat k), len - k), s') ∧ same s s'.
Proof using G.
  induction n as [|n IH]; intros s c coff len Hs Hc Hco Hl Hfuel k; cbn [read_cluster].
  { exists s. split; [|by apply same_refl]. replace k with 0 by dlia. by rewrite Z.sub_0_r. }
  destruct (Z.ltb_spec coff csize) as [Hlt|]; cbn [andb]; cycle 1.
  { exists s. split; [|by apply same_refl]. replace k with 0 by lia. by rewrite Z.sub_0_r. }
  destruct (Z.ltb_spec 0 len) as [Hpos|]; cycle 1.
  { exists s. split; [|by apply same_refl]. replace k with 0 by lia. by rewrite Z.sub_0_r. }
  pose proof csize_pos. assert (0 ≤ coff / 512 < sectors_per_cluster fat) as Hk by (unfold csize in *; dlia).
  destruct (csector_range c (coff / 512) Hc Hk) as [Hr Ec]. pose proof (bounds fat d G).
  rewrite (g_bps _ _ G), <- Ec, (w32_small (coff / 512)), (w32_small (csector c + coff / 512)), (w32_small (coff mod 512)) by dlia.
  destruct (read_sector_run fat d G s (csector c + coff / 512) Hs) as (b & s1 & E & Eb & _ & Hsame); [lia|].
  rewrite (run_bind _ _ _ _ _ E).
  set (chunk := if len <? 512 - coff mod 512 then len else 512 - coff mod 512).
  assert (0 < chunk ∧ chunk ≤ len ∧ chunk ≤ 512 - coff mod 512 ∧ coff + chunk ≤ csize ∧
    (chunk = len ∨ chunk = 512 - coff mod 512)) as Hch.
  { unfold chunk, csize in *. destruct (Z.ltb_spec len (512 - coff mod 512)); dlia. }
  destruct (IH s1 c (coff + chunk) (len - chunk)) as (s2 & E2 & H2); [apply Hsame|done|lia|lia|dlia|].
  rewrite Ec, (run_bind _ _ _ _ _ E2). exists s2. split; [|by eapply same_trans].
  rewrite (same_cdata s s1) by done. set (k' := (len - chunk) `min` (csize - (coff + chunk))).
  assert (k = chunk + k') as -> by lia. replace (len - (chunk + k')) with (len - chunk - k') by lia.
  rewrite (Z2Nat.inj_add chunk), slice_add, (slice_cdata s c coff chunk b) by (done || lia).
  by rewrite Z2Nat.inj_add by lia.
Qed.

Lemma cluster_goes_on c : is_cluster c → ends c = false ∧ w16 c = c ∧ (2 <=? c) = true.
Proof using G.
  intros Hc. destruct (g_count _ _ G) as [_ He]. unfold is_cluster, ends, is_end_cluster, FAT16_EOC in *.
  rewrite (proj2 (Z.eqb_neq c 0)), (proj2 (Z.leb_gt _ c)), (proj2 (Z.leb_le 2 c)), w16_small by lia. done.
Qed.

(** The entry of the head of a chain: an end mark, or the next cluster. *)
Lemma chain_next s c cs :
  chain s (c :: cs) →
  is_cluster c ∧ (cs = [] ∧ ends (entry s c) = true ∨
    ∃ c' cs', cs = c' :: cs' ∧ entry s c = c' ∧ ends (entry s c) = false ∧ chain s cs).
Proof using G.
  intros [Hc H]. split; [done|]. destruct cs as [|c' cs']; [by left|]. right. destruct H as [E H].
  exists c', cs'. split_and!; auto. rewrite E. by apply cluster_goes_on, H.
Qed.

Lemma skip_chain_run n : ∀ s cs skip,
  disk s → chain s cs → 0 ≤ skip → Z.of_nat n = skip / csize →
  ∃ s', skip_chain n fat csize skip (hd 0 cs) s =
        Some (match drop n cs with [] => None | c :: _ => Some (skip - Z.of_nat n * csize, c) end, s') ∧
    same s s'.
Proof using G.
  pose proof csize_pos as Hp.
  induction n as [|n IH]; intros s cs skip Hs Hch H0 Hn; cbn [skip_chain].
  - exists s. split; [|by apply same_refl]. destruct cs; [done|]. cbn [drop hd]. change (Z.of_nat 0 * csize) with 0. by rewrite Z.sub_0_r.
  - pose proof (Z.mul_div_le skip csize ltac:(lia)) as Hle. rewrite <- Hn in Hle.
    destruct cs as [|c cs]; [done|]. cbn [hd]. apply chain_next in Hch as [Hc Hnext].
    destruct (cluster_goes_on c Hc) as (_ & Ew & E2). rewrite E2, Ew, (proj2 (Z.leb_le csize skip)) by nia.
    cbn [andb]. destruct (next_cluster_run fat d G s c Hs) as (s1 & E & Hs1); [unfold is_cluster in Hc; lia|].
    rewrite (run_bind _ _ _ _ _ E). fold (ends (entry s c)).
    destruct Hnext as [[-> ->]|(c' & cs' & -> & Ee & -> & Hch)]; [exists s1; cbn [drop]; by rewrite drop_nil|].
    destruct (IH s1 (c' :: cs') (skip - csize)) as (s2 & E' & Hs2); [apply Hs1|by eapply same_chain|nia| |].
    { replace (skip - csize) with (skip + (-1) * csize) by lia. rewrite Z.div_add by lia. lia. }
    exists s2. split; [|by eapply same_trans]. rewrite Ee. etrans; [exact E'|]. simpl.
    destruct (drop n (c' :: cs')); [done|].
    by replace (skip - csize - Z.of_nat n * csize) with (skip - Z.of_nat (Datatypes.S n) * csize) by lia.
Qed.

Lemma data_cons s c cs : data s (c :: cs) = cdata s c ++ data s cs.
Proof using Type. done. Qed.

Lemma read_chain_run fuel : ∀ s cs skip len,
  disk s → chain s cs → 0 ≤ skip < csize → 0 < len ≤ Z.of_nat fuel →
  ∃ s', read_chain fuel fat csize skip (hd 0 cs) len s =
        Some ((true, slice (data s cs) (Z.to_nat skip) (Z.to_nat len)), s') ∧ same s s'.
Proof using G.
  pose proof (g_spc _ _ G) as Hspc.
  induction fuel as [|fuel IH]; intros s cs skip len Hs Hch Hsk Hl; [lia|]. cbn [read_chain].
  destruct cs as [|c cs]; [done|]. cbn [hd]. apply chain_next in Hch as [Hc Hnext].
  destruct (cluster_goes_on c Hc) as (_ & Ew & E2).
  rewrite E2, Ew, (proj2 (Z.ltb_lt 0 len)) by lia. cbn [andb].
  destruct (read_cluster_run (Z.to_nat (sectors_per_cluster fat)) s c skip len) as (s1 & E & Hs1);
    [done|done|lia|lia|right; unfold csize; dlia|].
  rewrite (run_bind _ _ _ _ _ E). cbn [negb]. pose proof (length_cdata s c Hs Hc) as Hlc.
  set (k := len `min` (csize - skip)) in *. rewrite data_cons.
  destruct (Z.eqb_spec (len - k) 0) as [Ek|Ek].
  { exists s1. split; [|done]. rewrite slice_app_l by lia. by replace k with len by lia. }
  assert (k = csize - skip) as Ek' by lia.
  assert (slice (cdata s c ++ data s cs) (Z.to_nat skip) (Z.to_nat len) =
    slice (cdata s c) (Z.to_nat skip) (Z.to_nat k) ++ slice (data s cs) 0 (Z.to_nat (len - k))) as ->.
  { replace (Z.to_nat len) with (Z.to_nat k + Z.to_nat (len - k))%nat by lia. rewrite slice_add.
    rewrite slice_app_l, slice_app_r by lia. do 2 f_equal. lia. }
  destruct (next_cluster_run fat d G s1 c) as (s2 & En & Hs2); [apply Hs1|unfold is_cluster in Hc; lia|].
  rewrite (run_bind _ _ _ _ _ En), (same_entry fat d s s1) by done. fold (ends (entry s c)).
  assert (same s s2) as Hs12 by (by eapply same_trans).
  destruct Hnext as [[-> ->]|(c' & cs' & -> & Ee & -> & Hch)].
  { exists s2. split; [|done]. by rewrite (slice_past (data s [])), app_nil_r. }
  destruct (IH s2 (c' :: cs') 0 (len - k)) as (s3 & E' & Hs3);
    [apply Hs2|by eapply same_chain|lia|lia|].
  rewrite Ee. rewrite (run_bind _ _ _ _ _ E'). exists s3. split; [|by eapply same_trans].
  by rewrite (same_data s s2).
Qed.

(** Reading from position [offset] of a file whose clusters are [cs]. *)
Definition file_part s (file : fat_file) (cs : list Z) (offset len : Z) : list Z :=
  slice (take (Z.to_nat (size file)) (data s cs)) (Z.to_nat offset) (Z.to_nat len).

Lemma data_drop s cs n :
  disk s → Forall is_cluster cs → drop (n * Z.to_nat csize) (data s cs) = data s (drop n cs).
Proof using G.
  intros Hs Hf. revert cs Hf. induction n as [|n IH]; intros cs Hf; [by rewrite drop_0|].
  destruct cs as [|c cs]; [unfold data; cbn [drop fmap list_fmap concat]; by rewrite drop_nil|]. apply Forall_cons in Hf as [Hc Hf].
  rewrite data_cons. simpl drop. rewrite <- IH by done.
  rewrite <- drop_drop, drop_app_length'; [done|].
  symmetry. by apply length_cdata.
Qed.

Lemma chain_clusters s cs : chain s cs → Forall is_cluster cs.
Proof using Type.
  induction cs as [|c cs IH]; [done|]. intros [Hc H]. constructor; [done|].
  destruct cs; [done|]. by apply IH, H.
Qed.

Lemma chain_drop s cs n c cs' : chain s cs → drop n cs = c :: cs' → chain s (c :: cs').
Proof using Type.
  revert cs. induction n as [|n IH]; intros cs Hch E; [by rewrite <- E|].
  destruct cs as [|c0 cs]; [done|]. simpl in E. destruct cs as [|c1 cs]; [by destruct n|].
  apply (IH (c1 :: cs)); [apply Hch|done].
Qed.

Lemma fat_read_run s file cs offset len :
  disk s → chain s cs → start_cluster file = hd 0 cs → 0 ≤ size file < 2 ^ 32 → 0 ≤ offset → 0 ≤ len →
  let out := file_part s file cs offset len in
  ∃ s', fat_read fat file offset len s =
        Some ((Z.of_nat (length out), out, offset + Z.of_nat (length out)), s') ∧ same s s'.
Proof using G.
  intros Hs Hch Hst Hsz Ho Hl out. pose proof csize_pos as Hp. unfold fat_read. rewrite (g_ready _ _ G). cbn [negb].
  assert (is_cluster (hd 0 cs)) as Hc by (destruct cs; [done|apply Hch]).
  destruct (cluster_goes_on _ Hc) as (Hne & Ew & _). rewrite Hst, Ew.
  assert (hd 0 cs ≠ 0) as H0 by (unfold is_cluster in Hc; lia). rewrite (proj2 (Z.eqb_neq _ _) H0). cbn [orb].
  assert (out = [] → ∃ s', Some ((0, [], offset), s) =
    Some ((Z.of_nat (length out), out, offset + Z.of_nat (length out)), s') ∧ same s s') as Hnil.
  { intros ->. exists s. split; [|by apply same_refl]. simpl. by rewrite Z.add_0_r. }
  destruct (Z.leb_spec (size file) offset) as [Hge|Hlt]; cbn [orb].
  { apply Hnil. unfold out, file_part. apply slice_past. rewrite length_take. lia. }
  destruct (Z.eqb_spec len 0) as [->|Hl0]; [by apply Hnil|].
  set (len' := if size file - offset <? len then size file - offset else len).
  assert (len' = len `min` (size file - offset)) as El'
    by (unfold len'; destruct (Z.ltb_spec (size file - offset) len); lia). clearbody len'.
  rewrite (g_bps _ _ G). fold csize. pose proof (Z.div_pos offset csize ltac:(lia) ltac:(lia)).
  destruct (skip_chain_run (Z.to_nat (offset / csize)) s cs offset) as (s1 & E & Hs1);
    [done|done|lia|lia|]. rewrite (run_bind _ _ _ _ _ E).
  assert (out = slice (data s (drop (Z.to_nat (offset / csize)) cs))
    (Z.to_nat (offset mod csize)) (Z.to_nat len')) as Eout.
  { rewrite <- data_drop by (done || by eapply chain_clusters). unfold out, file_part.
    pose proof (Z.div_mod offset csize ltac:(lia)). pose proof (Z.mod_pos_bound offset csize ltac:(lia)).
    assert (Z.to_nat (offset / csize) * Z.to_nat csize + Z.to_nat (offset mod csize) = Z.to_nat offset)%nat
      as Eo by nia.
    apply list_eq. intros i. rewrite !lookup_slice, lookup_drop, Nat.add_assoc, Eo, El'.
    case_decide; case_decide; try lia; try done.
    - apply lookup_take_lt. lia.
    - apply lookup_take_ge. lia. }
  rewrite Z2Nat.id by lia. pose proof (chain_drop s cs (Z.to_nat (offset / csize))) as Hdr.
  destruct (drop (Z.to_nat (offset / csize)) cs) as [|c cs'].
  { exists s1. split; [|done]. assert (out = []) as -> by (rewrite Eout; apply slice_past; simpl; lia).
    simpl. by rewrite Z.add_0_r. }
  replace (offset - offset / csize * csize) with (offset mod csize) by (rewrite Z.mod_eq; lia).
  pose proof (Z.mod_pos_bound offset csize ltac:(lia)).
  destruct (read_chain_run (Z.to_nat len') s1 (c :: cs') (offset mod csize) len') as (s2 & E2 & Hs2);
    [apply Hs1|eapply same_chain; [done|by eapply Hdr]|lia|lia|].
  cbn [hd] in E2. rewrite (run_bind _ _ _ _ _ E2), (same_data s s1), <- Eout by done.
  exists s2. split; [|by eapply same_trans]. rewrite w64_small; [done|].
  assert (length out ≤ Z.to_nat len')%nat by (rewrite Eout, length_slice; lia). lia.
Qed.
End Chains.
End FatRead.
