(* ===== verification/FatWrite.v ===== *)
(** * Writing to cluster chains

    What [write_cluster], [next_or_alloc] and the loop over the chain do: the
    chain's bytes are overwritten in place, clusters are appended from the
    free ones, and every other cluster and sector keeps its contents. *)

From S2P Require Import Prelude CString Paths Bytes State Fat FatTable FatRead.
From stdpp Require Import options.
Import Bytes Fat FatTable FatRead.

Module FatWrite.

Local Notation bytes := (Forall (λ x, 0 ≤ x < 256)).

(** ** Storing into concatenated blocks *)

Lemma lookup_store_out src dst off i :
  (i < off ∨ off + length src ≤ i)%nat → store dst off src !! i = dst !! i.
Proof.
  revert dst off. induction src as [|x src IH]; intros dst off Hi; simpl in *; [done|].
  rewrite IH by lia. apply list_lookup_insert_ne. lia.
Qed.

Lemma store_nil dst off : store dst off [] = dst.
Proof. done. Qed.

Lemma store_app a b dst off : store dst off (a ++ b) = store (store dst off a) (off + length a) b.
Proof.
  revert dst off. induction a as [|x a IH]; intros dst off; simpl; [by rewrite Nat.add_0_r|].
  rewrite IH. f_equal. lia.
Qed.

Lemma store_app_l src a b off : (off + length src ≤ length a)%nat → store (a ++ b) off src = store a off src ++ b.
Proof.
  revert a off. induction src as [|x src IH]; intros a off Hl; simpl in *; [done|].
  rewrite insert_app_l by lia. apply IH. rewrite length_insert. lia.
Qed.

Lemma store_app_r src a b off : (length a ≤ off)%nat → store (a ++ b) off src = a ++ store b (off - length a) src.
Proof.
  revert b off. induction src as [|x src IH]; intros b off Hl; simpl in *; [done|].
  rewrite insert_app_r_alt by lia. rewrite IH by lia. do 2 f_equal. lia.
Qed.

(** Overwriting across a boundary. *)
Lemma store_across src a b off k :
  (off + k = length a)%nat → (k ≤ length src)%nat →
  store (a ++ b) off src = store a off (take k src) ++ store b 0 (drop k src).
Proof.
  intros Hk Hl. rewrite <- (take_drop k src) at 1. rewrite store_app.
  rewrite store_app_l by (rewrite length_take; lia).
  rewrite store_app_r by (rewrite length_store, length_take; lia). do 2 f_equal.
  rewrite length_store, length_take. lia.
Qed.

(** Replacing a part of one block. *)
Lemma concat_insert_store (n : nat) (bs : list (list Z)) : ∀ k off b src,
  Forall (λ b, length b = n) bs → bs !! k = Some b → (off + length src ≤ n)%nat →
  concat (<[k := store b off src]> bs) = store (concat bs) (n * k + off) src.
Proof.
  induction bs as [|b0 bs IH]; intros k off b src Hf Hk Hl; [done|]. apply Forall_cons in Hf as [H0 Hf].
  destruct k as [|k]; simpl in *.
  - injection Hk as ->. rewrite Nat.mul_0_r, Nat.add_0_l. by rewrite store_app_l by lia.
  - rewrite (IH k off b src) by done. rewrite store_app_r by lia. do 2 f_equal. lia.
Qed.

Section Write.
Context {D S : Type} `{!SectorDev D S} `{!SectorLaws D S}.
Context (fat : fat_state D) (d : D) (G : geometry fat d).
Implicit Types s : S.
Local Notation disk := (disk fat d).
Local Notation same := (same fat d).
Local Notation entry := (entry fat d).
Local Notation cdata := (cdata fat d).
Local Notation data := (data fat d).
Local Notation chain := (chain fat d).
Local Notation csize := (csize fat).
Local Notation csector := (csector fat).
Local Notation is_cluster := (is_cluster fat).

(** Sector [l] belongs to cluster [c]. *)
Definition inside (c l : Z) : Prop := csector c ≤ l < csector c + sectors_per_cluster fat.

Lemma inside_range c l : is_cluster c → inside c l → data_start fat ≤ l < volume_end fat.
Proof using G.
  intros Hc Hi. unfold inside in Hi.
  destruct (csector_range fat d G c (l - csector c) Hc) as [Hr _]; lia.
Qed.

Lemma inside_inj c c' l : inside c l → inside c' l → c = c'.
Proof using G. pose proof (g_spc _ _ G). unfold inside, FatRead.csector. intros H1 H2. nia. Qed.

Lemma cdata_ext s s' c :
  (∀ l, inside c l → sect d s' l = sect d s l) → cdata s' c = cdata s c.
Proof using Type.
  intros H. unfold FatRead.cdata, csectors. f_equal. apply list_fmap_ext. intros i k Hk.
  rewrite H; [done|]. apply lookup_seq in Hk. unfold inside. lia.
Qed.

(** Only the contents of cluster [c] change. *)
Record wrote s s' (c : Z) : Prop := {
  wr_disk : disk s';
  wr_sect l : 0 ≤ l < volume_end fat → ¬ inside c l → sect d s' l = sect d s l;
}.

Lemma wrote_entry s s' c c' :
  is_cluster c → wrote s s' c → 0 ≤ c' < cluster_end fat → entry s' c' = entry s c'.
Proof using G.
  intros Hc [_ H] Hc'. pose proof (bounds fat d G). destruct (entry_sector fat d G c' Hc') as (_ & _ & Hr).
  unfold FatTable.entry. rewrite H; [done|lia|]. intros Hi%inside_range; [lia|done].
Qed.

Lemma wrote_cdata s s' c c' : is_cluster c' → c' ≠ c → wrote s s' c → cdata s' c' = cdata s c'.
Proof using G.
  intros Hc' Hne [_ H]. pose proof (bounds fat d G). apply cdata_ext. intros l Hl. apply H.
  - apply inside_range in Hl; [lia|done].
  - intros Hl'. by pose proof (inside_inj _ _ _ Hl Hl').
Qed.

Lemma wrote_refl s c : disk s → wrote s s c.
Proof using Type. by split. Qed.
Lemma wrote_same s s1 s' c : same s s1 → wrote s1 s' c → wrote s s' c.
Proof using Type. intros [_ H1] [? H2]. split; [done|]. intros l Hl Hi. by rewrite H2, H1. Qed.
Lemma wrote_trans s1 s2 s3 c : wrote s1 s2 c → wrote s2 s3 c → wrote s1 s3 c.
Proof using Type. intros [_ H1] [? H2]. split; [done|]. intros l Hl Hi. by rewrite H2, H1. Qed.

(** One sector of a cluster. *)
Lemma write_one s c coff p b :
  disk s → is_cluster c → 0 ≤ coff < csize → coff mod 512 + Z.of_nat (length p) ≤ 512 → bytes p →
  sect d s (csector c + coff / 512) = Some b → sector b →
  ∃ s', write_sector fat (csector c + coff / 512) (store b (Z.to_nat (coff mod 512)) p) s = Some (true, s') ∧
    wrote s s' c ∧ cdata s' c = store (cdata s c) (Z.to_nat coff) p.
Proof using G.
  intros Hs Hc Hco Hp Hb Eb Hsec. pose proof (bounds fat d G).
  assert (0 ≤ coff / 512 < sectors_per_cluster fat) as Hk by (unfold FatRead.csize in *; dlia).
  destruct (csector_range fat d G c (coff / 512) Hc Hk) as [Hr _].
  destruct (write_sector_run fat d G s (csector c + coff / 512) (store b (Z.to_nat (coff mod 512)) p))
    as (s' & E & Hd & Hw); [done|lia|by apply sector_store|]. exists s'. split; [done|]. split.
  - split; [done|]. intros l Hl Hi. rewrite Hw by done.
    destruct (Z.eqb_spec l (csector c + coff / 512)) as [->|]; [|done]. destruct Hi. unfold inside. lia.
  - pose proof (Z.div_mod coff 512 ltac:(lia)). pose proof (Z.mod_pos_bound coff 512 ltac:(lia)).
    destruct (csectors_size fat d G s c Hs Hc) as [Hf Hn].
    destruct (csectors_lookup fat d G s c (Z.to_nat (coff / 512)) Hs Hc) as (b' & E1 & E2 & _); [lia|].
    rewrite Z2Nat.id in E1 by lia. assert (b' = b) as -> by congruence.
    replace (Z.to_nat coff) with (512 * Z.to_nat (coff / 512) + Z.to_nat (coff mod 512))%nat by lia.
    unfold FatRead.cdata. rewrite <- (concat_insert_store 512 _ _ _ b) by (done || lia). f_equal.
    apply list_eq. intros i. unfold csectors. destruct (decide (i = Z.to_nat (coff / 512))) as [->|Hne].
    + rewrite list_lookup_insert_eq by (rewrite length_fmap, length_seq; lia).
      rewrite list_lookup_fmap, lookup_seq_lt by lia. simpl. rewrite Z2Nat.id, Hw, Z.eqb_refl by lia. done.
    + rewrite list_lookup_insert_ne by done. rewrite !list_lookup_fmap.
      destruct (seq 0 _ !! i) as [j|] eqn:Ej; [|done]. apply lookup_seq in Ej as [-> Hj]. simpl.
      destruct (csector_range fat d G c (Z.of_nat i) Hc ltac:(lia)) as [Hri _].
      rewrite Hw by lia. by rewrite (proj2 (Z.eqb_neq _ _)) by lia.
Qed.

Lemma write_cluster_run n : ∀ s c coff src,
  disk s → is_cluster c → 0 ≤ coff ≤ csize → bytes src →
  src = [] ∨ csize - 512 * (coff / 512) ≤ 512 * Z.of_nat n →
  let k := (length src `min` Z.to_nat (csize - coff))%nat in
  ∃ s', write_cluster n fat (cluster_to_sector fat c) csize coff src s = Some ((true, drop k src), s') ∧
    wrote s s' c ∧ cdata s' c = store (cdata s c) (Z.to_nat coff) (take k src).
Proof using G.
  pose proof (csize_pos fat d G).
  induction n as [|n IH]; intros s c coff src Hs Hc Hco Hb Hfuel k; cbn [write_cluster].
  { exists s. replace k with 0%nat by (destruct Hfuel as [->|]; simpl in *; dlia).
    split_and!; [done|by apply wrote_refl|done]. }
  destruct (Z.ltb_spec coff csize) as [Hlt|]; cbn [andb]; cycle 1.
  { exists s. replace k with 0%nat by lia. split_and!; [done|by apply wrote_refl|done]. }
  destruct (Z.ltb_spec 0 (Z.of_nat (length src))) as [Hpos|]; cycle 1.
  { exists s. replace k with 0%nat by lia. split_and!; [done|by apply wrote_refl|done]. }
  assert (0 ≤ coff / 512 < sectors_per_cluster fat) as Hk by (unfold FatRead.csize in *; dlia).
  destruct (csector_range fat d G c (coff / 512) Hc Hk) as [Hr Ec]. pose proof (bounds fat d G).
  rewrite (g_bps _ _ G), <- Ec, (w32_small (coff / 512)), (w32_small (csector c + coff / 512)),
    (w32_small (coff mod 512)) by dlia.
  destruct (read_sector_run fat d G s (csector c + coff / 512) Hs) as (b & s1 & E & Eb & Hsec & Hsame); [lia|].
  unfold dir_read_sector. rewrite (run_bind _ _ _ _ _ E).
  set (chunk := if Z.of_nat (length src) <? 512 - coff mod 512 then Z.of_nat (length src) else 512 - coff mod 512).
  assert (0 < chunk ∧ chunk ≤ Z.of_nat (length src) ∧ chunk ≤ 512 - coff mod 512 ∧ coff + chunk ≤ csize ∧
    (chunk = Z.of_nat (length src) ∨ chunk = 512 - coff mod 512)) as Hch.
  { unfold chunk, FatRead.csize in *. destruct (Z.ltb_spec (Z.of_nat (length src)) (512 - coff mod 512)); dlia. }
  clearbody chunk.
  destruct (write_one s1 c coff (take (Z.to_nat chunk) src) b) as (s2 & Ew & Hw & Hc2);
    [apply Hsame|done|lia|rewrite length_take; lia|by apply Forall_take|by rewrite (proj2 Hsame)|done|].
  unfold dir_write_sector. rewrite (run_bind _ _ _ _ _ Ew). cbn [negb].
  destruct (IH s2 c (coff + chunk) (drop (Z.to_nat chunk) src)) as (s3 & E3 & Hw3 & Hc3);
    [apply Hw|done|lia|by apply Forall_drop| |].
  { destruct Hch as (? & ? & ? & ? & [Hall|Hsec']); [left; apply drop_ge; lia|right].
    destruct Hfuel as [->|Hfuel]; [done|dlia]. }
  rewrite length_drop in *.
  set (k' := ((length src - Z.to_nat chunk) `min` Z.to_nat (csize - (coff + chunk)))%nat) in *.
  assert (k = Z.to_nat chunk + k')%nat as -> by lia.
  exists s3. rewrite Ec. split_and!.
  - rewrite E3, drop_drop. done.
  - eapply wrote_trans; [|done]. by eapply wrote_same.
  - rewrite Hc3, Hc2, (same_cdata fat d s s1) by done.
    rewrite <- (take_drop (Z.to_nat chunk) src) at 3. rewrite take_app, length_take.
    rewrite (take_ge (take _ src)) by (rewrite length_take; lia). rewrite store_app. f_equal.
    + rewrite length_take. lia.
    + f_equal. lia.
Qed.

(** ** Chains *)

Lemma chain_det s cs1 : ∀ c cs2, chain s (c :: cs1) → chain s (c :: cs2) → cs1 = cs2.
Proof using G.
  induction cs1 as [|c1 cs1 IH]; intros c cs2 H1 H2;
    apply (chain_next fat d G) in H1 as [_ [[? E1]|(x & xs & Ex & Ee & E1 & H1)]]; try done;
    apply (chain_next fat d G) in H2 as [_ [[-> E2]|(y & ys & -> & Ee' & E2 & H2)]]; try done; try congruence.
  injection Ex as <- <-. assert (c1 = y) as <- by congruence. f_equal. by eapply IH.
Qed.

Lemma chain_suffix s pre c cs : chain s (pre ++ c :: cs) → chain s (c :: cs).
Proof using Type. intros H. eapply (chain_drop fat d s _ (length pre)); [done|]. by rewrite drop_app_length. Qed.

Lemma chain_nodup s cs : chain s cs → NoDup cs.
Proof using G.
  induction cs as [|c cs IH]; intros H; [constructor|]. constructor.
  - intros (l1 & l2 & ->)%list_elem_of_split.
    pose proof (chain_suffix s (c :: l1) c l2 H) as H2. pose proof (chain_det s _ _ _ H H2) as E.
    apply (f_equal length) in E. rewrite length_app in E. simpl in E. lia.
  - destruct cs; [constructor|]. apply IH, H.
Qed.

Lemma chain_replace s s' pre c rest rest' :
  chain s (pre ++ c :: rest) → chain s' (c :: rest') → (∀ x, x ∈ pre → entry s' x = entry s x) →
  chain s' (pre ++ c :: rest').
Proof using Type.
  intros H Hc Hp. induction pre as [|p pre IH]; [done|]. destruct H as [Hcl H].
  assert (∃ x xs, pre ++ c :: rest = x :: xs ∧ ∃ xs', pre ++ c :: rest' = x :: xs') as (x & xs & E & xs' & E').
  { destruct pre as [|x pre]; eauto. }
  cbn [app]. rewrite E in H. destruct H as [Ee H]. split; [done|]. rewrite E'. rewrite <- E in H.
  split; [rewrite Hp; [done|by left]|]. rewrite <- E'. apply IH; [done|]. intros; apply Hp; by right.
Qed.

(** ** Frames *)

(** A chain none of whose clusters looks free. *)
Definition owns s (cs : list Z) : Prop := chain s cs ∧ ∀ c, c ∈ cs → entry s c ≠ 0.

(** Sector [l] is neither of the allocation table, nor of [cs], nor free. *)
Definition foreign s (cs : list Z) (l : Z) : Prop :=
  root_start fat ≤ l < volume_end fat ∧
  ∀ c, is_cluster c → inside c l → c ∉ cs ∧ entry s c ≠ 0.

(** From [s] to [s'] only the clusters [cs] and free ones are touched. *)
Record step s s' (cs : list Z) : Prop := {
  st_disk : disk s';
  st_entry c : is_cluster c → c ∉ cs → entry s c ≠ 0 → entry s' c = entry s c;
  st_sect l : foreign s cs l → sect d s' l = sect d s l;
}.

(** Clusters of [cs'] are those of [cs] and free ones. *)
Definition within s (cs cs' : list Z) : Prop :=
  ∀ c, c ∈ cs' → c ∈ cs ∨ is_cluster c ∧ entry s c = 0.

Lemma step_same s s' cs : same s s' → step s s' cs.
Proof using Type. intros H. split; [apply H|intros; by apply same_entry|intros; apply H]. Qed.

Lemma foreign_step s s' cs cs' l : step s s' cs → within s cs cs' → foreign s cs l → foreign s' cs' l.
Proof using Type.
  intros [_ He _] Hw [Hr Hf]. split; [done|]. intros c Hc Hi. destruct (Hf c Hc Hi) as [Hn Hz].
  rewrite He by done. split; [|done]. intros [?|[_ ?]]%Hw; done.
Qed.

Lemma step_trans s1 s2 s3 cs cs' : step s1 s2 cs → step s2 s3 cs' → within s1 cs cs' → step s1 s3 cs.
Proof using Type.
  intros H1 H2 Hw. split; [apply H2| |].
  - intros c Hc Hn Hz. pose proof (st_entry _ _ _ H1 c Hc Hn Hz) as E.
    rewrite (st_entry _ _ _ H2 c Hc), E; [done| |by rewrite E]. intros [?|[_ ?]]%Hw; done.
  - intros l Hl. rewrite (st_sect _ _ _ H2), (st_sect _ _ _ H1); [done|done|]. by eapply foreign_step.
Qed.

Lemma step_cdata s s' cs c : is_cluster c → c ∉ cs → entry s c ≠ 0 → step s s' cs → cdata s' c = cdata s c.
Proof using G.
  intros Hc Hn Hz H. pose proof (bounds fat d G). apply cdata_ext. intros l Hl. apply (st_sect _ _ _ H).
  split; [apply inside_range in Hl; [lia|done]|]. intros c' Hc' Hl'. by rewrite (inside_inj c' c l Hl' Hl).
Qed.

Lemma wrote_step s s' c cs : is_cluster c → c ∈ cs → wrote s s' c → step s s' cs.
Proof using G.
  intros Hc Hin H. split; [apply H| |].
  - intros c' Hc' _ _. apply (wrote_entry s s' c); auto. unfold FatRead.is_cluster in Hc'. lia.
  - intros l [Hr Hf]. pose proof (bounds fat d G). apply (wr_sect _ _ _ H); [lia|].
    intros Hi. by destruct (Hf c Hc Hi).
Qed.

Lemma wrote_chain s s' c cs : is_cluster c → wrote s s' c → chain s cs → chain s' cs.
Proof using G.
  intros Hc H. induction cs as [|x cs IH]; [done|]. intros [Hx Hn]. split; [done|].
  rewrite (wrote_entry s s' c x) by (unfold FatRead.is_cluster in Hx; (done || lia)).
  destruct cs; [done|]. destruct Hn. auto.
Qed.

Lemma data_ext s s' cs : (∀ c, c ∈ cs → cdata s' c = cdata s c) → data s' cs = data s cs.
Proof using Type.
  intros H. unfold FatRead.data. f_equal. apply list_fmap_ext. intros i c Hi. apply H.
  by eapply list_elem_of_lookup_2.
Qed.

(** ** Appending a cluster *)

Lemma next_or_alloc_run s c cs :
  disk s → owns s (c :: cs) →
  ∃ r s', next_or_alloc fat c s = Some (r, s') ∧
    match r with
    | None => cs = [] ∧ same s s' ∧ ∀ x, is_cluster x → entry s x ≠ 0
    | Some c' =>
        (same s s' ∧ ∃ cs', cs = c' :: cs') ∨
        cs = [] ∧ is_cluster c' ∧ entry s c' = 0 ∧ owns s' [c; c'] ∧ step s s' [c] ∧
          ∀ x, is_cluster x → cdata s' x = cdata s x
    end.
Proof using G.
  intros Hs [Hch Hnz]. pose proof (bounds fat d G). assert (entry s c ≠ 0) as Hc0 by (apply Hnz; by left).
  apply (chain_next fat d G) in Hch as [Hc Hnext]. unfold next_or_alloc.
  assert (0 ≤ c < cluster_end fat) as Hcr by (unfold FatRead.is_cluster in Hc; lia).
  destruct (next_cluster_run fat d G s c Hs Hcr) as (s1 & E & Hs1). rewrite (run_bind _ _ _ _ _ E).
  fold (ends (entry s c)).
  destruct Hnext as [[-> ->]|(c' & cs' & -> & Ee & -> & _)].
  2: { exists (Some c'), s1. rewrite Ee. split; [done|]. left. eauto. }
  destruct (alloc_cluster_run fat d G s1) as (r & s2 & Ea & Hcase); [apply Hs1|].
  rewrite (run_bind _ _ _ _ _ Ea). setoid_rewrite (same_entry fat d s s1) in Hcase; [|done..].
  destruct Hcase as [(-> & Hs2 & Hall)|(Hr & Ez & _ & Hu)].
  { exists None, s2. split_and!; [done..|by eapply same_trans|exact Hall]. }
  rewrite (proj2 (Z.eqb_neq r 0)) by lia. destruct (g_count _ _ G) as [_ He]. unfold FAT16_EOC in He.
  destruct (set_cluster_run fat d G s2 c r) as (s3 & Es & Hu3); [apply Hu|lia|lia|].
  rewrite (run_bind _ _ _ _ _ Es). exists (Some r), s3. split; [done|]. right.
  assert (∀ x, 0 ≤ x < cluster_end fat →
    entry s3 x = if x =? c then r else if x =? r then FAT16_EOC else entry s x) as Hent.
  { intros x Hx. rewrite (up_entry _ _ _ _ _ _ Hu3), (up_entry _ _ _ _ _ _ Hu) by done.
    by rewrite (same_entry fat d s s1). }
  assert (∀ l, root_start fat ≤ l < volume_end fat → sect d s3 l = sect d s l) as Hsec.
  { intros l Hl. rewrite (up_sect _ _ _ _ _ _ Hu3), (up_sect _ _ _ _ _ _ Hu) by done. apply Hs1. }
  assert (r ≠ c) as Hne by congruence.
  assert (entry s3 c = r) as Ec by (rewrite Hent, Z.eqb_refl by done; done).
  assert (entry s3 r = FAT16_EOC) as Er
    by (rewrite Hent, (proj2 (Z.eqb_neq r c)), Z.eqb_refl by lia; done).
  split_and!; [done|done|done| | |].
  - split; [|intros x [->|[->|[]%elem_of_nil]%elem_of_cons]%elem_of_cons; rewrite ?Ec, ?Er; unfold FAT16_EOC; lia].
    cbn. rewrite Er. by split_and!.
  - split; [apply Hu3| |intros l [Hl _]; by apply Hsec].
    intros x Hx Hn Hz. unfold FatRead.is_cluster in Hx. rewrite Hent by lia.
    destruct (Z.eqb_spec x c) as [->|]; [destruct Hn; by left|].
    destruct (Z.eqb_spec x r) as [->|]; [done|done].
  - intros x Hx. apply cdata_ext. intros l Hl. apply inside_range in Hl; [|done]. apply Hsec. lia.
Qed.

Lemma step_mono s s' cs cs' : (∀ c, c ∈ cs → c ∈ cs') → step s s' cs → step s s' cs'.
Proof using Type.
  intros Hsub H. split; [apply H| |].
  - intros c Hc Hn Hz. apply (st_entry _ _ _ H); auto.
  - intros l [Hr Hf]. apply (st_sect _ _ _ H). split; [done|]. intros c Hc Hi.
    destruct (Hf c Hc Hi). split; auto.
Qed.

Lemma owns_same s s' cs : same s s' → owns s cs → owns s' cs.
Proof using Type.
  intros H [Hch Hz]. split; [by eapply same_chain|]. intros c Hc. rewrite (same_entry fat d s s') by done. auto.
Qed.

Lemma owns_tail s c cs : cs ≠ [] → owns s (c :: cs) → owns s cs.
Proof using Type.
  intros Hne [Hch Hz]. split; [|intros; apply Hz; by right]. destruct cs; [done|]. apply Hch.
Qed.

(** The walk along a chain, whether or not it has to be extended: [new] are
    the appended clusters. *)
Lemma advance_run s c cs :
  disk s → owns s (c :: cs) →
  ∃ r s', next_or_alloc fat c s = Some (r, s') ∧
    match r with
    | None => same s s' ∧ ∀ x, is_cluster x → entry s x ≠ 0
    | Some c' => ∃ new, hd 0 (cs ++ new) = c' ∧ cs ++ new ≠ [] ∧ owns s' (c :: cs ++ new) ∧
        step s s' (c :: cs) ∧ within s (c :: cs) (c :: cs ++ new) ∧
        ∀ x, is_cluster x → cdata s' x = cdata s x
    end.
Proof using G.
  intros Hs Ho. destruct (next_or_alloc_run s c cs Hs Ho) as (r & s' & E & Hr). exists r, s'. split; [done|].
  destruct r as [c'|]; [|by destruct Hr as (_ & ? & ?)].
  destruct Hr as [[Hsame (cs' & ->)]|(-> & Hc' & Ez & Ho' & Hst & Hcd)].
  - exists []. rewrite app_nil_r. split_and!; [done|done|by eapply owns_same|by apply step_same| |].
    + intros x Hx. by left.
    + intros x _. by apply same_cdata.
  - exists [c']. split_and!; [done|done|done|done| |done].
    intros x [->|[->|[]%elem_of_nil]%elem_of_cons]%elem_of_cons; [left; by left|by right].
Qed.

Lemma owns_cons s s' c suf rest :
  owns s (c :: suf) → suf ≠ [] → step s s' suf → owns s' (suf ++ rest) → owns s' (c :: suf ++ rest) ∧ cdata s' c = cdata s c.
Proof using G.
  intros [Hch Hz] Hne Hst [Hch' Hz']. pose proof (chain_nodup s _ Hch) as [Hn _]%NoDup_cons.
  assert (is_cluster c) as Hc by (destruct suf; apply Hch).
  assert (entry s c ≠ 0) as Hc0 by (apply Hz; by left).
  pose proof (st_entry _ _ _ Hst c Hc Hn Hc0) as Ee.
  split; [|by apply (step_cdata s s' suf)]. split.
  - destruct suf as [|x suf]; [done|]. split; [done|]. cbn [app]. rewrite Ee. split; [apply Hch|done].
  - intros x [->|Hx]%elem_of_cons; [by rewrite Ee|by apply Hz'].
Qed.

Lemma data_app s cs1 cs2 : data s (cs1 ++ cs2) = data s cs1 ++ data s cs2.
Proof using Type. unfold FatRead.data. by rewrite fmap_app, concat_app. Qed.

Lemma length_data s cs : disk s → Forall is_cluster cs → length (data s cs) = (length cs * Z.to_nat csize)%nat.
Proof using G.
  intros Hs Hf. induction Hf as [|c cs Hc Hf IH]; [done|]. rewrite data_cons, length_app, IH.
  rewrite (length_cdata fat d G) by done. simpl. lia.
Qed.

Lemma within_trans s s1 cs cs1 cs2 :
  (∀ c, is_cluster c → c ∉ cs → entry s c ≠ 0 → entry s1 c = entry s c) →
  within s cs cs1 → within s1 cs1 cs2 → within s cs cs2.
Proof using Type.
  intros He H1 H2 c Hc. destruct (H2 c Hc) as [Hin|[Hcl Hz]]; [by apply H1|].
  destruct (decide (c ∈ cs)); [by left|]. right. split; [done|].
  destruct (decide (entry s c = 0)); [done|]. by rewrite <- (He c).
Qed.

(** ** The loop over the clusters *)

Definition write_post s s' (cs : list Z) (skip : Z) (src : list Z) (e : write_end) : Prop :=
  ∃ news, step s s' cs ∧ owns s' (cs ++ news) ∧ within s cs (cs ++ news) ∧
    match e with
    | WriteAll => ∃ fresh, data s' (cs ++ news) = store (data s cs ++ fresh) (Z.to_nat skip) src ∧
        (Z.to_nat skip + length src ≤ length (data s cs ++ fresh))%nat
    | WriteShort rest => (∀ x, is_cluster x → entry s' x ≠ 0) ∧ (0 < length rest ≤ length src)%nat
    | WriteError => False
    end.
End Write.
End FatWrite.
