(* ===== verification/FatFile.v ===== *)
(** * Files on the FAT volume

    The whole of [fat_write]: the chain is extended up to the offset, the data
    is laid over it, and the directory entry is brought up to date. *)

From S2P Require Import Prelude CString Paths Bytes State Fat FatTable FatRead FatWrite.
From stdpp Require Import options.
Import Bytes Fat FatTable FatRead FatWrite.

Module FatFile.

Local Notation bytes := (Forall (λ x, 0 ≤ x < 256)).

Section File.
Context {D S : Type} `{!SectorDev D S} `{!SectorLaws D S}.
Context (fat : fat_state D) (d : D) (G : geometry fat d).
Implicit Types s : S.
Local Notation disk := (disk fat d).
Local Notation same := (same fat d).
Local Notation entry := (entry fat d).
Local Notation cdata := (cdata fat d).
Local Notation data := (data fat d).
Local Notation chain := (chain fat d).
Local Notation csize := (csize fat).
Local Notation is_cluster := (is_cluster fat).
Local Notation owns := (owns fat d).
Local Notation step := (step fat d).
Local Notation within := (within fat d).
Local Notation wrote := (wrote fat d).
Local Notation foreign := (foreign fat d).

Lemma wrote_owns s s' c cs : is_cluster c → wrote s s' c → owns s cs → owns s' cs.
Proof using G.
  intros Hc Hw [Hch Hz]. split; [by eapply wrote_chain|]. intros x Hx.
  pose proof (chain_clusters fat d s cs Hch) as Hf. rewrite Forall_forall in Hf. specialize (Hf x Hx).
  unfold FatRead.is_cluster in Hf. rewrite (wrote_entry fat d G s s' c); auto. lia.
Qed.

Lemma owns_head s cs : owns s cs → ∃ c cs', cs = c :: cs' ∧ is_cluster c.
Proof using Type. intros [H _]. destruct cs as [|c cs']; [done|]. exists c, cs'. split; [done|]. apply H. Qed.

Lemma write_chain_run fuel : ∀ s cs skip src,
  disk s → owns s cs → 0 ≤ skip < csize → bytes src → (0 < length src ≤ fuel)%nat →
  ∃ e s', write_chain fuel fat csize skip (hd 0 cs) src s = Some (e, s') ∧
    write_post fat d s s' cs skip src e.
Proof using G.
  induction fuel as [|fuel IH]; intros s cs skip src Hs Ho Hsk Hb Hl; [lia|]. cbn [write_chain].
  destruct (owns_head s cs Ho) as (c & cs' & -> & Hc). cbn [hd]. pose proof (g_spc _ _ G).
  rewrite (proj2 (Nat.ltb_lt 0 (length src))) by lia.
  destruct (write_cluster_run fat d G (Z.to_nat (sectors_per_cluster fat)) s c skip src)
    as (s1 & E1 & Hw1 & Hc1); [done|done|lia|done|right; unfold FatRead.csize; dlia|].
  rewrite (run_bind _ _ _ _ _ E1). cbn [negb].
  set (k := (length src `min` Z.to_nat (csize - skip))%nat) in *.
  pose proof (wrote_owns s s1 c _ Hc Hw1 Ho) as Ho1. rewrite length_drop.
  assert (step s s1 (c :: cs')) as Hst1 by (by apply (wrote_step fat d G s s1 c); [|left|]).
  pose proof (chain_nodup fat d G s _ (proj1 Ho)) as [Hn _]%NoDup_cons.
  assert (data s1 cs' = data s cs') as Hd1.
  { apply data_ext. intros x Hx. apply (wrote_cdata fat d G s s1 c); [|congruence|done].
    pose proof (chain_clusters fat d s _ (proj1 Ho)) as [_ Hf]%Forall_cons.
    rewrite Forall_forall in Hf. auto. }
  pose proof (length_cdata fat d G s c Hs Hc) as Hlc.
  destruct (Nat.eqb_spec (length src - k) 0) as [Ek|Ek].
  { exists WriteAll, s1. split; [done|]. exists []. rewrite app_nil_r.
    split_and!; [done|done|intros x Hx; by left|]. exists []. rewrite app_nil_r, !data_cons, Hd1, Hc1.
    rewrite take_ge by lia. rewrite store_app_l by lia. split; [done|]. rewrite length_app. lia. }
  destruct (advance_run fat d G s1 c cs') as (r & s2 & E2 & Hr); [apply Hw1|done|].
  rewrite (run_bind _ _ _ _ _ E2). destruct r as [c'|]; cycle 1.
  { destruct Hr as [Hsame Hfull]. exists (WriteShort (drop k src)), s2. split; [done|]. exists [].
    rewrite app_nil_r. split_and!; [|by eapply owns_same|intros x Hx; by left|..].
    - eapply step_trans; [done|by apply step_same|]. intros x Hx. by left.
    - intros x Hx. rewrite (same_entry fat d s1 s2) by done. auto.
    - rewrite length_drop. lia.
    - rewrite length_drop. lia. }
  destruct Hr as (new & Ehd & Hne & Ho2 & Hst2 & Hwi2 & Hcd2). rewrite <- Ehd.
  destruct (IH s2 (cs' ++ new) 0 (drop k src)) as (e & s3 & E3 & news & Hst3 & Ho3 & Hwi3 & Hpost);
    [apply Hst2|by eapply owns_tail|pose proof (csize_pos fat d G); lia|by apply Forall_drop|rewrite length_drop; lia|].
  exists e, s3. split; [done|]. exists (new ++ news). rewrite <- app_comm_cons, app_assoc.
  destruct (owns_cons fat d G s2 s3 c (cs' ++ new) news Ho2 Hne Hst3 Ho3) as [Ho3' Hcc].
  assert (∀ x, is_cluster x → x ∉ c :: cs' → entry s x ≠ 0 → entry s1 x = entry s x) as He1
    by apply Hst1.
  assert (within s (c :: cs') (c :: cs' ++ new)) as Hwi.
  { eapply (within_trans fat d s s1 _ (c :: cs')); [done|intros x Hx; by left|done]. }
  assert (step s s2 (c :: cs')) as Hst12 by (eapply step_trans; [done|done|intros x Hx; by left]).
  split_and!; [|done| |].
  - eapply step_trans; [done|done|]. intros x Hx. apply Hwi. by right.
  - intros x [->|Hx]%elem_of_cons; [left; by left|].
    apply (within_trans fat d s s2 _ (c :: cs' ++ new) (cs' ++ new ++ news)); [apply Hst12|done| |by rewrite app_assoc].
    intros y Hy. rewrite app_assoc in Hy. destruct (Hwi3 y Hy); [left; by right|by right].
  - destruct e as [|rest|]; [done| |].
    + destruct Hpost as [? Hlen]. rewrite length_drop in Hlen. split; [done|lia].
    + destruct Hpost as (fresh & Hd & Hlen). exists (data s2 new ++ fresh).
      assert (data s2 (cs' ++ new) = data s cs' ++ data s2 new) as Hdd.
      { rewrite data_app, (data_ext fat d s1 s2 cs'), Hd1; [done|]. intros x Hx. apply Hcd2.
        pose proof (chain_clusters fat d s1 _ (proj1 Ho1)) as [_ Hf]%Forall_cons.
        rewrite Forall_forall in Hf. auto. }
      rewrite Hdd in Hd, Hlen. rewrite data_cons, Hd, Hcc, Hcd2, Hc1, data_cons by done. rewrite length_drop in Hlen.
      rewrite <- !app_assoc in *. change (Z.to_nat 0) with 0%nat in *. split.
      * symmetry. apply store_across; lia.
      * rewrite length_app. lia.
Qed.

Definition extend_post s s' (cs : list Z) (n : nat) (skip : Z) (r : option (Z * Z)) : Prop :=
  ∃ news, step s s' cs ∧ owns s' (cs ++ news) ∧ within s cs (cs ++ news) ∧
    (∀ x, x ∈ cs → cdata s' x = cdata s x) ∧
    match r with
    | None => ∀ x, is_cluster x → entry s' x ≠ 0
    | Some (skip', c) => skip' = skip - Z.of_nat n * csize ∧
        ∃ pre suf, cs ++ news = pre ++ suf ∧ suf ≠ [] ∧ hd 0 suf = c ∧ length pre = n
    end.

Lemma owns_clusters s cs x : owns s cs → x ∈ cs → is_cluster x.
Proof using Type. intros [H _] Hx. apply chain_clusters in H. rewrite Forall_forall in H. auto. Qed.

Lemma extend_chain_run n : ∀ s cs skip,
  disk s → owns s cs → 0 ≤ skip → Z.of_nat n = skip / csize →
  ∃ r s', extend_chain n fat csize skip (hd 0 cs) s = Some (r, s') ∧ extend_post s s' cs n skip r.
Proof using G.
  pose proof (csize_pos fat d G) as Hp.
  induction n as [|n IH]; intros s cs skip Hs Ho H0 Hn; cbn [extend_chain].
  { exists (Some (skip, hd 0 cs)), s. split; [done|]. exists []. rewrite app_nil_r.
    split_and!; [by apply step_same, same_refl|done|intros x Hx; by left|done|lia|].
    exists [], cs. split_and!; auto. by destruct Ho, cs. }
  pose proof (Z.mul_div_le skip csize ltac:(lia)) as Hle. rewrite <- Hn in Hle.
  rewrite (proj2 (Z.leb_le csize skip)) by nia.
  destruct (owns_head s cs Ho) as (c & cs' & -> & Hc). cbn [hd].
  destruct (advance_run fat d G s c cs' Hs Ho) as (r & s1 & E1 & Hr). rewrite (run_bind _ _ _ _ _ E1).
  destruct r as [c'|]; cycle 1.
  { destruct Hr as [Hsame Hfull]. exists None, s1. split; [done|]. exists []. rewrite app_nil_r.
    split_and!; [by apply step_same|by eapply owns_same|intros x Hx; by left| |].
    - intros x _. by apply same_cdata.
    - intros x Hx. rewrite (same_entry fat d s s1) by done. auto. }
  destruct Hr as (new & Ehd & Hne & Ho1 & Hst1 & Hwi1 & Hcd1). rewrite <- Ehd.
  destruct (IH s1 (cs' ++ new) (skip - csize)) as (r & s2 & E2 & news & Hst2 & Ho2 & Hwi2 & Hcd2 & Hpost);
    [apply Hst1|by eapply owns_tail|nia| |].
  { replace (skip - csize) with (skip + (-1) * csize) by lia. rewrite Z.div_add by lia. lia. }
  exists r, s2. split; [done|]. exists (new ++ news). rewrite <- app_comm_cons, app_assoc.
  destruct (owns_cons fat d G s1 s2 c (cs' ++ new) news Ho1 Hne Hst2 Ho2) as [Ho2' Hcc].
  split_and!; [|done| | |].
  - eapply step_trans; [done|done|]. intros x Hx. apply Hwi1. by right.
  - intros x [->|Hx]%elem_of_cons; [left; by left|].
    apply (within_trans fat d s s1 _ (c :: cs' ++ new) ((cs' ++ new) ++ news)); [apply Hst1|done| |done].
    intros y Hy. destruct (Hwi2 y Hy); [left; by right|by right].
  - intros x Hx. pose proof (owns_clusters s _ x Ho Hx) as Hxc. rewrite <- (Hcd1 x) by done.
    apply elem_of_cons in Hx as [->|Hx]; [done|]. apply Hcd2, elem_of_app. by left.
  - destruct r as [[skip' c2]|]; [|done]. destruct Hpost as (-> & pre & suf & E & ? & ? & Hlp).
    split; [lia|]. exists (c :: pre), suf. split_and!; auto; [by rewrite E|simpl; lia].
Qed.

(** ** Extending and then writing *)

Lemma within_refl s cs : within s cs cs.
Proof using Type. intros x Hx. by left. Qed.

(** [extend_chain] followed by [write_chain], from the start of the chain. *)
Lemma lay_over s s1 s2 cs n offset src skip c e :
  disk s → owns s cs → 0 ≤ offset → Z.of_nat n = offset / csize →
  extend_post s s1 cs n offset (Some (skip, c)) →
  (∀ suf, owns s1 suf → hd 0 suf = c → write_post fat d s1 s2 suf skip src e) →
  write_post fat d s s2 cs offset src e.
Proof using G.
  intros Hs Ho H0 Hn (news & Hst1 & Ho1 & Hwi1 & Hcd1 & Eskip & pre & suf & Epre & Hne & Ehd & Hlp) Hw.
  assert (owns s1 suf) as Hsuf.
  { destruct Ho1 as [Hch Hz]. rewrite Epre in *. destruct suf as [|x suf]; [done|].
    split; [by eapply chain_suffix|]. intros y Hy. apply Hz, elem_of_app. by right. }
  destruct (Hw suf Hsuf Ehd) as (news2 & Hst2 & Ho2 & Hwi2 & Hpost). clear Hw.
  assert (∀ x, x ∈ pre → is_cluster x ∧ x ∉ suf ∧ entry s1 x ≠ 0) as Hpre.
  { intros x Hx. assert (x ∈ cs ++ news) as Hin by (rewrite Epre; apply elem_of_app; by left).
    split_and!; [by apply (owns_clusters s1 (cs ++ news))| |by apply Ho1].
    pose proof (chain_nodup fat d G s1 _ (proj1 Ho1)) as Hnd. rewrite Epre in Hnd.
    apply NoDup_app in Hnd as (_ & Hnd & _). auto. }
  exists (news ++ news2). rewrite app_assoc, Epre, <- app_assoc. split_and!.
  - eapply step_trans; [done|done|]. intros x Hx. apply Hwi1. rewrite Epre. apply elem_of_app. by right.
  - split.
    + destruct (owns_head s2 (suf ++ news2) Ho2) as (y & ys & Ey & _). rewrite Ey.
      destruct suf as [|x suf]; [done|]. injection Ey as <- <-.
      eapply (chain_replace fat d s1); [rewrite <- Epre; apply Ho1|apply Ho2|].
      intros z Hz. destruct (Hpre z Hz) as (? & ? & ?). by apply (st_entry _ _ _ _ _ Hst2).
    + intros z [Hz|Hz]%elem_of_app; [|by apply Ho2]. destruct (Hpre z Hz) as (? & ? & ?).
      by rewrite (st_entry _ _ _ _ _ Hst2).
  - intros x [Hx|Hx]%elem_of_app.
    + apply Hwi1. rewrite Epre. apply elem_of_app. by left.
    + eapply (within_trans fat d s s1 cs (cs ++ news)); [apply Hst1|done| |exact Hx].
      intros y Hy. destruct (Hwi2 y Hy); [left; rewrite Epre; apply elem_of_app; by right|by right].
  - destruct e as [|rest|]; [done|done|]. destruct Hpost as (fresh & Hd & Hlen).
    exists (data s1 news ++ fresh).
    assert (data s2 pre = data s1 pre) as Hdp.
    { apply data_ext. intros x Hx. destruct (Hpre x Hx) as (? & ? & ?). by apply (step_cdata fat d G s1 s2 suf). }
    assert (data s cs ++ data s1 news = data s1 pre ++ data s1 suf) as Hsp.
    { rewrite <- !data_app, <- Epre, data_app. f_equal. symmetry. by apply data_ext. }
    rewrite (app_assoc (data s cs)), Hsp, <- (app_assoc (data s1 pre)), data_app, Hdp, Hd.
    assert (length (data s1 pre) = (n * Z.to_nat csize)%nat) as Hlen1.
    { rewrite (length_data fat d G), Hlp; [done|apply Hst1|]. apply Forall_forall. intros x Hx. by apply Hpre. }
    pose proof (csize_pos fat d G). pose proof (Z.mul_div_le offset csize ltac:(lia)).
    assert (Z.to_nat offset = n * Z.to_nat csize + Z.to_nat skip)%nat as Eo by nia.
    rewrite Eo, (store_app_r src (data s1 pre)) by lia. split; [do 2 f_equal; lia|]. rewrite length_app. lia.
Qed.
End File.
End FatFile.
