(* ===== verification/FatSpec.v ===== *)
(** * Reading and writing files: the theorems

    [fat_read] returns the bytes of the file's clusters; [fat_write] lays the
    data over them, appends free clusters as needed and records the start and
    size in the directory entry; it falls short only when no cluster is free. *)

From S2P Require Import Prelude CString Paths Bytes State Fat FatTable FatRead FatWrite FatFile.
From stdpp Require Import options.
Import Bytes Fat FatTable FatRead FatWrite FatFile.

Module FatSpec.

Local Notation bytes := (Forall (λ x, 0 ≤ x < 256)).

(** ** Fields of a directory entry *)

Lemma u32_eq b o : bytes b →
  read_u32 b o = byte_at b o + 256 * byte_at b (o + 1) + 65536 * byte_at b (o + 2) + 16777216 * byte_at b (o + 3).
Proof.
  intros Hb. unfold read_u32. pose proof (byte_at_range b o Hb). pose proof (byte_at_range b (o + 1) Hb).
  pose proof (byte_at_range b (o + 2) Hb).
  assert (∀ x y k, 0 ≤ k → 0 ≤ x < 2 ^ k → Z.lor x (Z.shiftl y k) = x + 2 ^ k * y) as Hlor.
  { intros x y k Hk Hx. assert (Z.land x (Z.shiftl y k) = 0) as E.
    { apply Z.bits_inj'. intros j Hj. rewrite Z.land_spec, Z.bits_0, Z.shiftl_spec by lia.
      destruct (Z.ltb_spec j k); [by rewrite (Z.testbit_neg_r y), andb_false_r by lia|].
      rewrite <- (Z.mod_small x (2 ^ k)), Z.mod_pow2_bits_high by lia. done. }
    pose proof (Z.add_lor_land x (Z.shiftl y k)). rewrite Z.shiftl_mul_pow2 in * by lia. lia. }
  rewrite (Hlor (byte_at b o)), (Hlor _ (byte_at b (o + 2))), Hlor by lia. lia.
Qed.

Lemma u32_store b o v : sector b → 0 ≤ o ≤ 508 → 0 ≤ v < 2 ^ 32 →
  read_u32 (store b (Z.to_nat o) (u32_bytes v)) o = v.
Proof.
  intros Hb Ho Hv. pose proof (sector_store b (Z.to_nat o) _ Hb (u32_bytes_range v)) as [_ Hr].
  destruct Hb as [Hl Hb]. rewrite u32_eq by done. rewrite !byte_at_store by (rewrite ?Hl; simpl; lia).
  change (Z.of_nat (length (u32_bytes v))) with 4. rewrite !decide_True by lia.
  replace (o - o) with 0 by lia. replace (o + 1 - o) with 1 by lia.
  replace (o + 2 - o) with 2 by lia. replace (o + 3 - o) with 3 by lia.
  unfold byte_at, u32_bytes. simpl. rewrite !land_ff, !Z.shiftr_div_pow2 by lia.
  change (2 ^ 8) with 256. change (2 ^ 16) with 65536. change (2 ^ 24) with 16777216. dlia.
Qed.

Lemma u32_store_ne b o o' src : sector b → bytes src → 0 ≤ o → o + Z.of_nat (length src) ≤ 512 → 0 ≤ o' ≤ 508 →
  o' + 4 ≤ o ∨ o + Z.of_nat (length src) ≤ o' → read_u32 (store b (Z.to_nat o) src) o' = read_u32 b o'.
Proof.
  intros Hb Hs Ho Hl Ho' Hdis. pose proof (sector_store b (Z.to_nat o) _ Hb Hs) as [_ Hr].
  destruct Hb as [Hlen Hb]. rewrite !u32_eq by done. rewrite !byte_at_store by (rewrite ?Hlen; lia).
  by rewrite !decide_False by lia.
Qed.

Lemma u16_store_ne b o o' src : sector b → bytes src → 0 ≤ o → o + Z.of_nat (length src) ≤ 512 → 0 ≤ o' ≤ 510 →
  o' + 2 ≤ o ∨ o + Z.of_nat (length src) ≤ o' → read_u16 (store b (Z.to_nat o) src) o' = read_u16 b o'.
Proof.
  intros Hb Hs Ho Hl Ho' Hdis. pose proof (sector_store b (Z.to_nat o) _ Hb Hs) as [_ Hr].
  destruct Hb as [Hlen Hb]. rewrite !u16_eq by done. rewrite !byte_at_store by (rewrite ?Hlen; lia).
  by rewrite !decide_False by lia.
Qed.

Section Spec.
Context {D S : Type} `{!SectorDev D S} `{!SectorLaws D S}.
Context (fat : fat_state D) (d : D) (G : geometry fat d).
Implicit Types s : S.
Local Notation disk := (disk fat d).
Local Notation same := (same fat d).
Local Notation entry := (entry fat d).
Local Notation cdata := (cdata fat d).
Local Notation data := (data fat d).
Local Notation csize := (csize fat).
Local Notation is_cluster := (is_cluster fat).
Local Notation owns := (owns fat d).
Local Notation step := (step fat d).
Local Notation within := (within fat d).
Local Notation foreign := (foreign fat d).
Local Notation inside := (inside fat).

(** The directory entry of a file, 32-byte aligned, holds its start cluster
    and size. *)
Definition recorded s (f : fat_file) : Prop :=
  ∃ b, sect d s (dir_sector f) = Some b ∧
    read_u16 b (dir_offset f + 26) = start_cluster f ∧ read_u32 b (dir_offset f + 28) = size f.

Record file_ok s (f : fat_file) (cs : list Z) : Prop := {
  fo_chain : start_cluster f = 0 ∧ cs = [] ∨ owns s cs ∧ start_cluster f = hd 0 cs;
  fo_size : 0 ≤ size f < 2 ^ 32;
  fo_dir : foreign s cs (dir_sector f);
  fo_off : 0 ≤ dir_offset f ≤ 480 ∧ dir_offset f mod 32 = 0;
  fo_entry : recorded s f;
}.

(** Every cluster and sector but those of [cs], the free ones and the sector
    [ds] keep their contents. *)
Record frame s s' (cs : list Z) (ds : Z) : Prop := {
  fr_disk : disk s';
  fr_entry c : is_cluster c → c ∉ cs → entry s c ≠ 0 → entry s' c = entry s c;
  fr_sect l : foreign s cs l → l ≠ ds → sect d s' l = sect d s l;
}.

Lemma fat_frame_trans s1 s2 s3 cs cs' ds : frame s1 s2 cs ds → frame s2 s3 cs' ds → within s1 cs cs' → frame s1 s3 cs ds.
Proof using Type.
  intros H1 H2 Hw. split; [apply H2| |].
  - intros c Hc Hn Hz. pose proof (fr_entry _ _ _ _ H1 c Hc Hn Hz) as E.
    rewrite (fr_entry _ _ _ _ H2 c Hc), E; [done| |by rewrite E]. intros [?|[_ ?]]%Hw; done.
  - intros l [Hr Hf] Hl. rewrite (fr_sect _ _ _ _ H2), (fr_sect _ _ _ _ H1); [done|done|done| |done].
    split; [done|]. intros c Hc Hi. destruct (Hf c Hc Hi) as [Hn Hz].
    rewrite (fr_entry _ _ _ _ H1) by done. split; [|done]. intros [?|[_ ?]]%Hw; done.
Qed.
Lemma step_frame s s' cs ds : step s s' cs → frame s s' cs ds.
Proof using Type. intros [? ? ?]. split; auto. Qed.

(** Rewriting one directory sector. *)
Lemma dir_store s lba off p b :
  disk s → root_start fat ≤ lba < volume_end fat → bytes p → sect d s lba = Some b →
  ∃ s', write_sector fat lba (store b off p) s = Some (true, s') ∧ sector b ∧
    (∀ cs, frame s s' cs lba) ∧ sect d s' lba = Some (store b off p) ∧
    (∀ c, 0 ≤ c < cluster_end fat → entry s' c = entry s c) ∧
    ∀ c, is_cluster c → ¬ inside c lba → cdata s' c = cdata s c.
Proof using G.
  intros Hs Hl Hp Eb. pose proof (bounds fat d G).
  assert (sector b) as Hsec by (by apply (sect_sector d s lba); [apply Hs|]).
  destruct (write_sector_run fat d G s lba (store b off p)) as (s' & E & Hd & Hw);
    [done|lia|by apply sector_store|]. exists s'.
  assert (∀ c, 0 ≤ c < cluster_end fat → entry s' c = entry s c) as He.
  { intros c Hc. destruct (entry_sector fat d G c Hc) as (_ & _ & Hr). unfold FatTable.entry.
    rewrite Hw by lia. by rewrite (proj2 (Z.eqb_neq _ lba)) by lia. }
  split_and!; [done|done| | |done|].
  - intros cs. split; [done| |].
    + intros c Hc _ _. apply He. unfold FatRead.is_cluster in Hc. lia.
    + intros l [Hr _] Hne. rewrite Hw by lia. by rewrite (proj2 (Z.eqb_neq _ lba)).
  - rewrite Hw by lia. by rewrite Z.eqb_refl.
  - intros c Hc Hi. apply cdata_ext. intros l Hil. pose proof (inside_range fat d G c l Hc Hil).
    rewrite Hw by lia. by rewrite (proj2 (Z.eqb_neq l lba)) by (intros ->; done).
Qed.

Lemma owns_ext s s' cs :
  (∀ c, 0 ≤ c < cluster_end fat → entry s' c = entry s c) → owns s cs → owns s' cs.
Proof using Type.
  intros He [Hch Hz]. assert (∀ c, is_cluster c → entry s' c = entry s c) as He'
    by (intros c Hc; apply He; unfold FatRead.is_cluster in Hc; lia). split.
  - clear Hz. induction cs as [|c cs IH]; [done|]. destruct Hch as [Hc H]. split; [done|]. rewrite He' by done.
    destruct cs; [done|]. destruct H. auto.
  - intros c Hc. rewrite He'; [auto|]. apply chain_clusters in Hch. rewrite Forall_forall in Hch. auto.
Qed.

Lemma foreign_ext s s' cs l :
  (∀ c, 0 ≤ c < cluster_end fat → entry s' c = entry s c) → foreign s cs l → foreign s' cs l.
Proof using Type.
  intros He [Hr Hf]. split; [done|]. intros c Hc Hi. rewrite He by (unfold FatRead.is_cluster in Hc; lia). auto.
Qed.

Lemma owns_outside s cs l c : owns s cs → foreign s cs l → c ∈ cs → ¬ inside c l.
Proof using Type.
  intros Ho [_ Hf] Hc Hi. destruct (Hf c) as [Hn _]; [|done|done]. by eapply owns_clusters.
Qed.

(** The allocation of the first cluster. *)
Definition first_post s s' (f f' : fat_file) (cs : list Z) : Prop :=
  ∃ cs1 fresh, file_ok s' f' cs1 ∧ owns s' cs1 ∧ start_cluster f' = hd 0 cs1 ∧ within s cs cs1 ∧
    data s' cs1 = data s cs ++ fresh ∧
    size f' = size f ∧ dir_sector f' = dir_sector f ∧ dir_offset f' = dir_offset f.

Lemma first_cluster_run s f cs :
  disk s → file_ok s f cs →
  ∃ ok f' s', first_cluster fat f s = Some ((ok, f'), s') ∧ frame s s' cs (dir_sector f) ∧
    if ok then first_post s s' f f' cs else ∀ x, is_cluster x → entry s' x ≠ 0.
Proof using G.
  intros Hs Hf. pose proof Hf as [Hch Hsz Hdir [Hoff Hmod] Hrec]. unfold first_cluster.
  destruct Hch as [[Es ->]|[Ho Es]]; cycle 1.
  { destruct (owns_head fat d s cs Ho) as (c & cs' & -> & Hc). cbn [hd] in Es.
    rewrite Es, (proj2 (Z.eqb_neq c 0)) by (unfold FatRead.is_cluster in Hc; lia).
    exists true, f, s. split_and!; [done|by apply step_frame, step_same, same_refl|].
    exists (c :: cs'), []. rewrite app_nil_r. split_and!; auto. intros x Hx. by left. }
  rewrite Es. cbn [Z.eqb].
  destruct (alloc_cluster_run fat d G s Hs) as (r & s1 & Ea & Hcase). rewrite (run_bind _ _ _ _ _ Ea).
  destruct Hcase as [(-> & Hsame & Hfull)|(Hr & Ez & _ & Hu)].
  { exists false, f, s1. split_and!; [done|by apply step_frame, step_same|].
    intros x Hx. rewrite (same_entry fat d s s1) by done. by apply Hfull. }
  rewrite (proj2 (Z.eqb_neq r 0)) by lia. destruct Hu as [Hd1 He1 Hs1].
  destruct Hdir as [Hrange Hforeign]. pose proof (bounds fat d G).
  destruct (read_sector_run fat d G s1 (dir_sector f)) as (b & s2 & E2 & Eb & _ & Hsame2); [done|lia|].
  unfold dir_read_sector. cbn [dir_sector set_start]. rewrite (run_bind _ _ _ _ _ E2).
  destruct (dir_store s2 (dir_sector f) (Z.to_nat (dir_offset f + 26)) (u16_bytes r) b)
    as (s3 & E3 & Hsec & Hfr3 & Eb3 & He3 & Hcd3);
    [apply Hsame2|done|apply u16_bytes_range|by rewrite (proj2 Hsame2)|].
  unfold dir_write_sector. cbn [dir_offset set_start]. rewrite (run_bind _ _ _ _ _ E3).
  exists true, (set_start f r), s3. split; [done|].
  assert (frame s s1 [] (dir_sector f)) as Hfr1.
  { split; [done| |intros l [Hl _] _; by apply Hs1]. intros c Hc _ Hz. unfold FatRead.is_cluster in Hc.
    rewrite He1 by lia. by rewrite (proj2 (Z.eqb_neq c r)) by congruence. }
  assert (∀ c, 0 ≤ c < cluster_end fat → entry s3 c = if c =? r then FAT16_EOC else entry s c) as He.
  { intros c Hc. rewrite He3, (same_entry fat d s1 s2), He1 by done. done. }
  assert (entry s3 r = FAT16_EOC) as Er by (rewrite He by lia; by rewrite Z.eqb_refl).
  assert (owns s3 [r]) as Ho.
  { split; [|intros c [->|[]%elem_of_nil]%elem_of_cons; by rewrite Er]. cbn. rewrite Er. done. }
  assert (within s [] [r]) as Hwi by (intros c [->|[]%elem_of_nil]%elem_of_cons; by right).
  split.
  { eapply fat_frame_trans; [exact Hfr1| |intros c Hc; by left].
    eapply (fat_frame_trans s1 s2 s3 [] []); [by apply step_frame, step_same|apply Hfr3|intros c Hc; by left]. }
  exists [r], (cdata s3 r). split_and!; [|done|done|done|cbn; by rewrite app_nil_r|done|done|done].
  split; [by right|done| |done|].
  - split; [done|]. intros c Hc Hi. destruct (Hforeign c Hc Hi) as [_ Hz].
    assert (c ≠ r) by congruence. unfold FatRead.is_cluster in Hc. rewrite He by lia.
    rewrite (proj2 (Z.eqb_neq c r)) by done. split; [|done]. by intros [?|[]%elem_of_nil]%elem_of_cons.
  - exists (store b (Z.to_nat (dir_offset f + 26)) (u16_bytes r)). cbn [dir_sector dir_offset set_start start_cluster size].
    destruct (g_count _ _ G) as [_ Hce]. unfold FAT16_EOC in Hce.
    split_and!; [done| |].
    + rewrite u16_store by (done || lia || dlia). by rewrite Z.eqb_refl.
    + rewrite u32_store_ne by (done || apply u16_bytes_range || (simpl; lia)).
      destruct Hrec as (b0 & Eb0 & _ & E0). rewrite Hs1, Eb0 in Eb by done. by injection Eb as <-.
Qed.

Lemma grow_size_run s f cs end_ :
  disk s → file_ok s f cs → owns s cs → 0 ≤ end_ < 2 ^ 32 →
  ∃ f' s', grow_size fat f end_ s = Some (f', s') ∧ frame s s' cs (dir_sector f) ∧
    file_ok s' f' cs ∧ owns s' cs ∧ data s' cs = data s cs ∧
    size f' = size f `max` end_ ∧ start_cluster f' = start_cluster f ∧ dir_sector f' = dir_sector f.
Proof using G.
  intros Hs Hf Ho He. pose proof Hf as [Hch Hsz Hdir [Hoff Hmod] Hrec]. unfold grow_size.
  destruct (Z.ltb_spec (size f) end_) as [Hlt|Hge]; cycle 1.
  { exists f, s. split_and!; auto; [by apply step_frame, step_same, same_refl|lia]. }
  rewrite w32_small by lia. pose proof (proj1 Hdir) as Hrange. pose proof (bounds fat d G).
  destruct (read_sector_run fat d G s (dir_sector f)) as (b & s1 & E1 & Eb & _ & Hsame); [done|lia|].
  unfold dir_read_sector. cbn [dir_sector set_size]. rewrite (run_bind _ _ _ _ _ E1).
  destruct (dir_store s1 (dir_sector f) (Z.to_nat (dir_offset f + 28)) (u32_bytes end_) b)
    as (s2 & E2 & Hsec & Hfr & Eb2 & He2 & Hcd2);
    [apply Hsame|done|apply u32_bytes_range|by rewrite (proj2 Hsame)|].
  unfold dir_write_sector. cbn [dir_offset set_size size]. rewrite (run_bind _ _ _ _ _ E2).
  exists (set_size f end_), s2. split; [done|].
  assert (∀ c, 0 ≤ c < cluster_end fat → entry s2 c = entry s c) as Hent.
  { intros c Hc. by rewrite He2, (same_entry fat d s s1). }
  assert (owns s2 cs) as Ho2 by (by eapply owns_ext).
  split_and!; [|split|done| |simpl; lia|done|done].
  - eapply (fat_frame_trans s s1 s2 cs cs); [by apply step_frame, step_same|apply Hfr|intros c Hc; by left].
  - right. split; [done|]. destruct Hch as [[? ->]|[_ ?]]; [by destruct Ho|done].
  - simpl. lia.
  - by eapply foreign_ext.
  - done.
  - exists (store b (Z.to_nat (dir_offset f + 28)) (u32_bytes end_)).
    cbn [dir_sector dir_offset set_size start_cluster size]. split_and!; [done| |].
    + rewrite u16_store_ne by (done || apply u32_bytes_range || (simpl; lia)).
      destruct Hrec as (b0 & Eb0 & E0 & _). rewrite Eb0 in Eb. by injection Eb as <-.
    + apply u32_store; [done|lia|lia].
  - apply data_ext. intros c Hc. rewrite Hcd2; [by apply same_cdata|by apply (owns_clusters fat d s cs)|].
    by apply (owns_outside s cs).
Qed.

(** What a successful write leaves. *)
Definition written s s' (f f' : fat_file) (cs : list Z) (offset : Z) (src : list Z) : Prop :=
  ∃ cs' fresh, file_ok s' f' cs' ∧ owns s' cs' ∧ start_cluster f' = hd 0 cs' ∧ within s cs cs' ∧
    data s' cs' = store (data s cs ++ fresh) (Z.to_nat offset) src ∧
    (Z.to_nat offset + length src ≤ length (data s cs ++ fresh))%nat ∧
    size f' = size f `max` (offset + Z.of_nat (length src)).

(** The rest of [fat_write] once the file has a first cluster. *)
Lemma write_rest s f cs offset src :
  disk s → file_ok s f cs → owns s cs → start_cluster f = hd 0 cs →
  0 ≤ offset → offset + Z.of_nat (length src) < 2 ^ 32 → src ≠ [] → bytes src →
  ∃ r s1, extend_chain (Z.to_nat (offset / csize)) fat csize offset (w16 (start_cluster f)) s = Some (r, s1) ∧
    match r with
    | None => frame s s1 cs (dir_sector f) ∧ ∀ x, is_cluster x → entry s1 x ≠ 0
    | Some (skip, c) =>
        ∃ e s2, write_chain (length src) fat csize skip c src s1 = Some (e, s2) ∧
          frame s s2 cs (dir_sector f) ∧
          match e with
          | WriteError => False
          | WriteShort rest =>
              (0 < length rest ≤ length src)%nat ∧ ∀ x, is_cluster x → entry s2 x ≠ 0
          | WriteAll =>
              ∃ f' s3, grow_size fat f (offset + Z.of_nat (length src)) s2 = Some (f', s3) ∧
                frame s s3 cs (dir_sector f) ∧ written s s3 f f' cs offset src
          end
    end.
Proof using G.
  intros Hs Hf Ho Es Ho0 Hend Hne Hb. pose proof (csize_pos fat d G).
  destruct (owns_head fat d s cs Ho) as (c0 & cs0 & Ecs & Hc0).
  destruct (cluster_goes_on fat d G c0 Hc0) as (_ & Ew & _).
  assert (w16 (start_cluster f) = hd 0 cs) as -> by (by rewrite Es, Ecs).
  pose proof (Z.div_pos offset csize ltac:(lia) ltac:(lia)).
  destruct (extend_chain_run fat d G (Z.to_nat (offset / csize)) s cs offset) as (r & s1 & E1 & Hp1);
    [done|done|done|lia|]. exists r, s1. split; [done|].
  destruct r as [[skip c]|]; cycle 1.
  { destruct Hp1 as (news & Hst & _ & _ & _ & Hfull). split; [by apply step_frame|done]. }
  assert (0 ≤ skip < csize ∧ disk s1 ∧ ∃ suf, owns s1 suf ∧ hd 0 suf = c) as (Hskip & Hs1 & suf & Hsuf & Ehd).
  { destruct Hp1 as (news & Hst & Ho1 & _ & _ & -> & pre & suf & Epre & Hn & Ehd & _).
    pose proof (Z.mod_pos_bound offset csize ltac:(lia)). pose proof (Z.div_mod offset csize ltac:(lia)).
    rewrite Z2Nat.id by lia. split; [lia|]. split; [apply Hst|].
    exists suf. split; [|done]. destruct Ho1 as [Hch Hz]. rewrite Epre in *. destruct suf as [|x suf]; [done|].
    split; [by eapply chain_suffix|]. intros y Hy. apply Hz, elem_of_app. by right. }
  assert (0 < length src)%nat by (destruct src; simpl; [done|lia]).
  destruct (write_chain_run fat d G (length src) s1 suf skip src) as (e & s2 & E2 & _);
    [done|done|done|done|lia|]. rewrite Ehd in E2. exists e, s2. split; [done|].
  assert (write_post fat d s s2 cs offset src e) as (news & Hst & Ho2 & Hwi & Hpost).
  { eapply (lay_over fat d G s s1 s2 cs (Z.to_nat (offset / csize))); [done|done|done|lia|exact Hp1|].
    intros suf' Hsuf' Ehd'.
    destruct (write_chain_run fat d G (length src) s1 suf' skip src) as (e' & s2' & E2' & Hp);
      [done|done|done|done|lia|]. rewrite Ehd', E2 in E2'. by injection E2' as <- <-. }
  split; [by apply step_frame|]. destruct e as [|rest|]; [done|by destruct Hpost|].
  destruct Hpost as (fresh & Hdata & Hlen).
  assert (file_ok s2 f (cs ++ news)) as Hf2.
  { pose proof Hf as [_ Hsz Hdir Hoff Hrec]. split; [right|done| |done|].
    - split; [done|]. by rewrite Es, Ecs.
    - by eapply foreign_step.
    - destruct Hrec as (b & Eb & ?). exists b. by rewrite (st_sect _ _ _ _ _ Hst). }
  destruct (grow_size_run s2 f (cs ++ news) (offset + Z.of_nat (length src)))
    as (f' & s3 & E3 & Hfr3 & Hf3 & Ho3 & Hd3 & Hsz3 & Hst3 & Hds3); [apply Hst|done|done|lia|].
  exists f', s3. split; [done|]. split; [by eapply fat_frame_trans; [apply step_frame|..]|].
  exists (cs ++ news), fresh. split_and!; auto.
  - rewrite Hst3, Es, Ecs. done.
  - by rewrite Hd3.
Qed.

Lemma slice_take b n off len : (off + len ≤ n)%nat → slice (take n b) off len = slice b off len.
Proof using Type.
  intros Hl. apply list_eq. intros i. rewrite !lookup_slice. case_decide; [|done]. apply lookup_take_lt. lia.
Qed.

Lemma written_part s s' f f' cs offset src :
  0 ≤ offset → written s s' f f' cs offset src →
  ∃ cs', owns s' cs' ∧ start_cluster f' = hd 0 cs' ∧ 0 ≤ size f' < 2 ^ 32 ∧
    file_part fat d s' f' cs' offset (Z.of_nat (length src)) = src.
Proof using Type.
  intros Ho (cs' & fresh & Hf & Howns & Es & _ & Hd & Hlen & Hsz). exists cs'.
  split_and!; [done|done|apply Hf..|]. unfold file_part. rewrite Hd, Nat2Z.id, slice_take by lia.
  by apply slice_store.
Qed.

(** C22: [fat_read] of a file returns the bytes of its cluster chain from the
    offset on, cut off at the file's size, the chain's end and the length
    asked for, advances the offset by their number, and changes nothing on the
    disk. *)
Theorem fat_read_spec s f cs offset len :
  disk s → chain fat d s cs → start_cluster f = hd 0 cs → 0 ≤ size f < 2 ^ 32 → 0 ≤ offset → 0 ≤ len →
  let out := file_part fat d s f cs offset len in
  ∃ s', fat_read fat f offset len s =
        Some ((Z.of_nat (length out), out, offset + Z.of_nat (length out)), s') ∧ same s s'.
Proof using G. intros. by apply fat_read_run. Qed.

End Spec.
End FatSpec.
