(* ===== verification/FatDir.v ===== *)
(** * Directory lookup

    The nested loops of [dir_find_entry] over clusters, sectors and entries
    compute a lookup in the directory's list of entries; the lookup returns on
    every directory whose cluster chain ends. *)

From S2P Require Import Prelude CString Paths Bytes State Fat FatTable FatRead FatWrite.
From stdpp Require Import options.
Import Bytes Fat FatTable FatRead.

Module FatDir.

(** An entry: its sector's address and contents, and its offset there. *)
Record slot := mk_slot { sl_lba : Z; sl_idx : Z; sl_sector : list Z }.

Definition sl_first (x : slot) : Z := byte_at (sl_sector x) (sl_idx x).
Definition sl_attr (x : slot) : Z := byte_at (sl_sector x) (sl_idx x + 11).
Definition sl_dir (x : slot) : bool := negb (Z.land (sl_attr x) 0x10 =? 0).
Definition sl_loc (x : slot) : dir_loc := mk_loc (sl_lba x) (sl_idx x).
Definition sl_file (x : slot) : fat_file :=
  mk_fat_file (read_u16 (sl_sector x) (sl_idx x + 26)) (read_u32 (sl_sector x) (sl_idx x + 28))
    (sl_lba x) (sl_idx x) (sl_dir x) (sl_attr x).

(** ** The lookup

    Entries from the first one that starts with 0 on do not count.  A deleted
    entry starts with 0xE5; long-name entries (attribute 0x0F) are passed
    over.  [want] is 1 for directories, 0 for files, -1 for either. *)

Definition deleted (x : slot) : bool := sl_first x =? 0xE5.
Definition matches (name : list Z) (want : Z) (x : slot) : bool :=
  negb (deleted x) && negb (sl_attr x =? 0x0F) &&
  negb ((want =? 1) && negb (sl_dir x)) && negb ((want =? 0) && sl_dir x) &&
  bool_decide (slice (sl_sector x) (Z.to_nat (sl_idx x)) 11 = name).

Fixpoint live (slots : list slot) : list slot :=
  match slots with [] => [] | x :: xs => if sl_first x =? 0 then [] else x :: live xs end.
(** The first entry a new file can take: a deleted one, else the end mark. *)
Fixpoint first_free (slots : list slot) : option slot :=
  match slots with
  | [] => None
  | x :: xs => if (sl_first x =? 0) || deleted x then Some x else first_free xs
  end.

Definition lookup_entry (name : list Z) (want : Z) (allow_free : bool) (slots : list slot) : find_res :=
  match find (matches name want) (live slots) with
  | Some x => Found (sl_file x) (sl_loc x)
  | None =>
      if allow_free then match first_free slots with Some x => Free (sl_loc x) | None => NotFound end
      else NotFound
  end.

(** ** One pass *)

Section Scan.
Context (name : list Z) (want : Z) (allow_free : bool).

Fixpoint scan (slots : list slot) (free : option dir_loc) : find_res :=
  match slots with
  | [] => no_match allow_free free
  | x :: xs =>
      let free' := match free with Some l => Some l | None => if allow_free then Some (sl_loc x) else None end in
      if sl_first x =? 0 then no_match allow_free free'
      else if deleted x then scan xs free'
      else if matches name want x then Found (sl_file x) (sl_loc x)
      else scan xs free
  end.

Lemma scan_lookup slots : ∀ free,
  (free = None ∨ allow_free = true) →
  scan slots free =
  match find (matches name want) (live slots) with
  | Some x => Found (sl_file x) (sl_loc x)
  | None =>
      match free with
      | Some l => Free l
      | None => lookup_entry name want allow_free slots
      end
  end.
Proof.
  unfold lookup_entry. induction slots as [|x xs IH]; intros free Hf; simpl.
  - destruct free; [destruct Hf as [?| ->]; done|by destruct allow_free].
  - destruct (sl_first x =? 0) eqn:E0; simpl.
    { destruct free as [l|]; [destruct Hf as [?| ->]; done|]. by destruct allow_free. }
    destruct (deleted x) eqn:Ed; simpl.
    + assert (matches name want x = false) as -> by (unfold matches; by rewrite Ed).
      destruct free as [l|]; [by rewrite IH|]. destruct allow_free; rewrite IH by auto; [|done].
      by destruct (find _ (live xs)).
    + destruct (matches name want x) eqn:Em; [done|]. rewrite IH by done.
      destruct free; [done|]. by destruct (find _ (live xs)).
Qed.
End Scan.

(** ** The loops *)

Section Loops.
Context {D S : Type} `{!SectorDev D S} `{!SectorLaws D S}.
Context (fat : fat_state D) (d : D) (G : geometry fat d).
Implicit Types s : S.
Local Notation disk := (disk fat d).
Local Notation same := (same fat d).
Local Notation entry := (entry fat d).
Local Notation chain := (chain fat d).
Local Notation is_cluster := (is_cluster fat).

Definition sector_slots (lba : Z) (b : list Z) : list slot :=
  (λ e, mk_slot lba (Z.of_nat e * 32) b) <$> seq 0 16.
Definition run_slots s (start : Z) (n : nat) : list slot :=
  concat ((λ i, sector_slots (start + Z.of_nat i) (default [] (sect d s (start + Z.of_nat i)))) <$> seq 0 n).

(** The entries of the root directory, and of one with the clusters [cs]. *)
Definition root_slots s : list slot :=
  take (Z.to_nat (root_entries fat)) (run_slots s (root_start fat) (Z.to_nat (root_dir_sectors fat))).
Definition dir_slots s (cs : list Z) : list slot :=
  concat ((λ c, run_slots s (csector fat c) (Z.to_nat (sectors_per_cluster fat))) <$> cs).

(** The entries still to be looked at: in the root directory [seen] counts. *)
Definition limit (dc seen : Z) (l : list slot) : list slot :=
  if dc =? 0 then take (Z.to_nat (root_entries fat - seen)) l else l.

Context (name : list Z) (want : Z) (allow_free : bool).
Local Notation scan := (scan name want allow_free).

Lemma scan_entries_run dc lba b rest n : ∀ e seen free,
  (e + n = 16)%nat → 0 ≤ seen → root_entries fat < 65536 →
  scan (limit dc seen (drop e (sector_slots lba b) ++ rest)) free =
  match scan_entries fat dc name want allow_free lba b n (Z.of_nat e) seen free with
  | inl r => r
  | inr (seen', free') => scan (limit dc seen' rest) free' 
  end ∧
  (∀ seen' free', scan_entries fat dc name want allow_free lba b n (Z.of_nat e) seen free = inr (seen', free') →
    0 ≤ seen').
Proof using Type.
  induction n as [|n IH]; intros e seen free He Hs Hre; cbn [scan_entries].
  { rewrite drop_ge by (simpl; lia). split; [done|]. by intros ?? [= <- <-]. }
  assert (drop e (sector_slots lba b) = mk_slot lba (Z.of_nat e * 32) b :: drop (Datatypes.S e) (sector_slots lba b)) as ->.
  { apply drop_S. unfold sector_slots. rewrite list_lookup_fmap, lookup_seq_lt by lia. done. }
  set (x := mk_slot lba (Z.of_nat e * 32) b). cbn [app].
  assert (w16 (Z.of_nat e * 32) = Z.of_nat e * 32) as Ew by (apply w16_small; lia).
  set (seen1 := if dc =? 0 then w32 (seen + 1) else seen).
  destruct ((dc =? 0) && (root_entries fat <=? seen)) eqn:Estop.
  { apply andb_true_iff in Estop as [Edc Ele]. apply Z.leb_le in Ele. unfold limit. rewrite Edc.
    replace (Z.to_nat (root_entries fat - seen)) with 0%nat by lia. done. }
  assert (limit dc seen (x :: drop (Datatypes.S e) (sector_slots lba b) ++ rest) =
    x :: limit dc seen1 (drop (Datatypes.S e) (sector_slots lba b) ++ rest) ∧ 0 ≤ seen1) as [-> Hs1].
  { unfold limit, seen1. destruct (dc =? 0); [|done]. cbn [andb] in Estop. apply Z.leb_gt in Estop.
    rewrite w32_small by lia.
    replace (Z.to_nat (root_entries fat - seen)) with (Datatypes.S (Z.to_nat (root_entries fat - (seen + 1)))) by lia.
    split; [done|lia]. }
  assert (∀ f, scan (limit dc seen1 (drop (Datatypes.S e) (sector_slots lba b) ++ rest)) f =
    match scan_entries fat dc name want allow_free lba b n (Z.of_nat e + 1) seen1 f with
    | inl r => r
    | inr (seen', free') => scan (limit dc seen' rest) free'
    end ∧ ∀ seen' free', scan_entries fat dc name want allow_free lba b n (Z.of_nat e + 1) seen1 f =
      inr (seen', free') → 0 ≤ seen') as IH'.
  { intros f. replace (Z.of_nat e + 1) with (Z.of_nat (Datatypes.S e)) by lia. apply IH; [lia|done|done]. }
  clear IH. cbn [FatDir.scan]. rewrite Ew.
  change (byte_at b (Z.of_nat e * 32)) with (sl_first x).
  change (byte_at b (Z.of_nat e * 32 + 11)) with (sl_attr x).
  change (negb (Z.land (sl_attr x) 16 =? 0)) with (sl_dir x).
  change (mk_loc lba (Z.of_nat e * 32)) with (sl_loc x).
  change (mk_fat_file (read_u16 b (Z.of_nat e * 32 + 26)) (read_u32 b (Z.of_nat e * 32 + 28)) lba
    (Z.of_nat e * 32) (sl_dir x) (sl_attr x)) with (sl_file x).
  change (slice b (Z.to_nat (Z.of_nat e * 32)) 11) with (slice (sl_sector x) (Z.to_nat (sl_idx x)) 11).
  assert ((if allow_free && bool_decide (free = None) then Some (sl_loc x) else free) =
    match free with Some l => Some l | None => if allow_free then Some (sl_loc x) else None end) as ->
    by (by destruct allow_free, free).
  unfold deleted, matches. 
  destruct (sl_first x =? 0); [done|]. unfold deleted. destruct (sl_first x =? 229); [apply IH'|]. cbn [negb andb].
  destruct (sl_attr x =? 15); cbn [negb andb]; [apply IH'|].
  destruct ((want =? 1) && negb (sl_dir x)); cbn [negb andb]; [apply IH'|].
  destruct ((want =? 0) && sl_dir x); cbn [negb andb]; [apply IH'|].
  destruct (bool_decide _); [done|apply IH'].
Qed.

Lemma run_slots_S s start n :
  run_slots s start (Datatypes.S n) =
  sector_slots start (default [] (sect d s start)) ++ run_slots s (start + 1) n.
Proof using Type.
  unfold run_slots. cbn [seq fmap list_fmap concat]. rewrite Z.add_0_r. f_equal. f_equal.
  rewrite <- fmap_S_seq, <- list_fmap_compose. apply list_fmap_ext. intros i k _. cbn.
  by replace (start + Z.of_nat (Datatypes.S k)) with (start + 1 + Z.of_nat k) by lia.
Qed.

Lemma same_run s s' start n : same s s' → run_slots s' start n = run_slots s start n.
Proof using Type.
  intros [_ H]. unfold run_slots. f_equal. apply list_fmap_ext. intros i k _. by rewrite H.
Qed.

Lemma scan_sectors_run dc start rest n : ∀ s i seen free,
  disk s → 0 ≤ start → 0 ≤ i → start + i + Z.of_nat n ≤ volume_end fat → 0 ≤ seen → root_entries fat < 65536 →
  ∃ r s', scan_sectors fat dc name want allow_free start n i seen free s = Some (r, s') ∧ same s s' ∧
    scan (limit dc seen (run_slots s (start + i) n ++ rest)) free =
    match r with inl res => res | inr (seen', free') => scan (limit dc seen' rest) free' end.
Proof using G.
  induction n as [|n IH]; intros s i seen free Hs Hst Hi Hend Hse Hre; cbn [scan_sectors].
  { exists (inr (seen, free)), s. split_and!; [done|by apply same_refl|done]. }
  pose proof (bounds fat d G). rewrite w32_small by lia.
  destruct (read_sector_run fat d G s (start + i) Hs) as (b & s1 & E & Eb & _ & Hsame); [lia|].
  unfold dir_read_sector. rewrite (run_bind _ _ _ _ _ E). rewrite (g_bps _ _ G).
  change (Z.to_nat (512 / 32)) with 16%nat. rewrite run_slots_S, Eb, <- app_assoc.
  change (default [] (Some b)) with b.
  destruct (scan_entries_run dc (start + i) b (run_slots s (start + i + 1) n ++ rest) 16 0 seen free)
    as [Hsc Hse']; [done|done|done|]. rewrite drop_0 in Hsc. rewrite Hsc. change (Z.of_nat 0) with 0 in *.
  destruct (scan_entries _ _ _ _ _ _ _ _ _ _ _) as [res|[seen' free']].
  { exists (inl res), s1. by split_and!. }
  destruct (IH s1 (i + 1) seen' free') as (r & s2 & E2 & Hs2 & Hr); [apply Hsame|lia|lia|lia|by eapply Hse'|done|].
  exists r, s2. split_and!; [done|by eapply same_trans|].
  rewrite <- Hr, (same_run s s1) by done. do 3 f_equal. f_equal. lia.
Qed.

Lemma limit_nil dc seen : limit dc seen [] = [].
Proof using Type. unfold limit. destruct (dc =? 0); [|done]. by rewrite take_nil. Qed.

Lemma find_chain_run dc fuel : ∀ s cs seen free,
  dc ≠ 0 → disk s → chain s cs → (length cs ≤ fuel)%nat → 0 ≤ seen → root_entries fat < 65536 →
  ∃ s', find_chain fuel fat dc name want allow_free (hd 0 cs) seen free s =
        Some (scan (dir_slots s cs) free, s') ∧ same s s'.
Proof using G.
  induction fuel as [|fuel IH]; intros s cs seen free Hdc Hs Hch Hl Hse Hre; [by destruct cs; simpl in *; [|lia]|].
  destruct cs as [|c cs]; [done|]. cbn [hd find_chain]. apply (chain_next fat d G) in Hch as [Hc Hnext].
  pose proof (g_spc _ _ G) as Hspc. pose proof (bounds fat d G).
  destruct (csector_range fat d G c 0 Hc ltac:(lia)) as [Hr0 Ec].
  destruct (csector_range fat d G c (sectors_per_cluster fat - 1) Hc ltac:(lia)) as [Hr1 _].
  unfold dir_run. rewrite (proj2 (Z.eqb_neq dc 0) Hdc), <- Ec.
  destruct (scan_sectors_run dc (csector fat c) (dir_slots s cs) (Z.to_nat (sectors_per_cluster fat)) s 0 seen free)
    as (r & s1 & E & Hs1 & Hr); [done|lia|lia|lia|done|done|]. rewrite (run_bind _ _ _ _ _ E).
  rewrite Z.add_0_r in Hr. unfold limit in Hr. rewrite (proj2 (Z.eqb_neq dc 0) Hdc) in Hr.
  change (scan (dir_slots s (c :: cs)) free) with
    (scan (run_slots s (csector fat c) (Z.to_nat (sectors_per_cluster fat)) ++ dir_slots s cs) free).
  rewrite Hr. destruct r as [res|[seen' free']]; [by exists s1|].
  destruct (next_cluster_run fat d G s1 c) as (s2 & En & Hs2);
    [apply Hs1|unfold FatRead.is_cluster in Hc; lia|].
  rewrite (run_bind _ _ _ _ _ En), (same_entry fat d s s1) by done. fold (ends (entry s c)).
  assert (same s s2) as Hs12 by (by eapply same_trans).
  destruct Hnext as [[-> ->]|(c' & cs' & -> & Ee & -> & Hch)]; [by exists s2|].
  destruct (IH s2 (c' :: cs') 0 free') as (s3 & E3 & Hs3);
    [done|apply Hs12|by eapply same_chain|simpl in *; lia|lia|done|].
  exists s3. rewrite Ee. split; [|by eapply same_trans]. etrans; [exact E3|]. do 3 f_equal.
  unfold dir_slots. f_equal. apply list_fmap_ext. intros i x _. by apply same_run.
Qed.

Lemma chain_length s cs : chain s cs → (length cs ≤ CHAIN_FUEL)%nat.
Proof using G.
  intros Hch. pose proof (FatWrite.chain_nodup fat d G s cs Hch) as Hnd.
  apply chain_clusters in Hch. destruct (g_count _ _ G) as [_ He].
  assert (length (Z.to_nat <$> cs) ≤ length (seq 0 (Z.to_nat 65537)))%nat as Hle.
  { apply submseteq_length, NoDup_submseteq.
    - apply (NoDup_fmap_2_strong Z.to_nat); [|done]. rewrite Forall_forall in Hch. intros x y Hx Hy E.
      apply Hch in Hx, Hy. unfold FatRead.is_cluster in *. lia.
    - intros x (c & -> & Hc)%list_elem_of_fmap. rewrite Forall_forall in Hch. apply Hch in Hc.
      apply elem_of_seq. unfold FatRead.is_cluster, FAT16_EOC in *. lia. }
  by rewrite length_fmap, length_seq in Hle.
Qed.

(** What a directory argument of [dir_find_entry] stands for: cluster 0 is
    the root directory. *)
Definition directory s (dc : Z) (slots : list slot) : Prop :=
  dc = 0 ∧ slots = root_slots s ∨ ∃ cs, chain s cs ∧ dc = hd 0 cs ∧ slots = dir_slots s cs.

(** C19: on a directory whose chain of clusters ends, [dir_find_entry] returns
    and gives the result of the lookup in the list of its entries: the first
    entry with the name and kind, otherwise (when asked for) the first one a
    new file can take.  It changes nothing on the disk. *)
Theorem dir_find_entry_lookup s dc slots :
  disk s → directory s dc slots → root_entries fat < 65536 →
  ∃ s', dir_find_entry fat dc name want allow_free s =
        Some (lookup_entry name want allow_free slots, s') ∧ same s s'.
Proof using G.
  intros Hs Hdir Hre.
  assert (∀ l, scan l None = lookup_entry name want allow_free l) as Hsl.
  { intros l. rewrite scan_lookup by auto. unfold lookup_entry. by destruct (find _ (live l)). }
  rewrite <- Hsl. unfold dir_find_entry. destruct Hdir as [[-> ->]|(cs & Hch & -> & ->)].
  - pose proof (bounds fat d G). destruct (g_root _ _ G) as [Er Hr].
    unfold CHAIN_FUEL. replace (Z.to_nat 65537) with (Datatypes.S (Z.to_nat 65536)) by lia.
    generalize (Z.to_nat 65536). intros fuel. cbn [find_chain]. unfold dir_run. cbn [Z.eqb].
    destruct (scan_sectors_run 0 (root_start fat) [] (Z.to_nat (root_dir_sectors fat)) s 0 0 None)
      as (r & s1 & E & Hs1 & Hres); [done|lia|lia|lia|lia|done|]. rewrite (run_bind _ _ _ _ _ E).
    exists s1. split; [|done]. rewrite app_nil_r, Z.add_0_r in Hres. unfold limit in Hres at 1. cbn [Z.eqb] in Hres.
    rewrite Z.sub_0_r in Hres. unfold root_slots. rewrite Hres. destruct r as [res|[seen' free']]; [done|].
    by rewrite limit_nil.
  - apply find_chain_run; [|done|done|by eapply chain_length|lia|done].
    destruct cs; [done|]. destruct Hch as [Hc _]. unfold FatRead.is_cluster in Hc. simpl. lia.
Qed.
End Loops.
End FatDir.
