(* ===== verification/StorageExamples.v ===== *)
(** * Concrete files, disks and volumes *)

From S2P Require Import Prelude Memory Pmm Heap HeapInv HeapSpec MemoryExamples CString Paths Bytes.
From S2P Require Import Alloc Ramfs RamfsSpec State Block BlockSpec BlockDisk Ata Fat FatTable.
From S2P Require Import FatRead FatWrite FatFile FatSpec FatDir.
From stdpp Require Import options.

(** ** A concrete RAM file system on the kernel heap *)

Module RamfsExamples.
Import CString Bytes PmmExamples MmuExamples HeapExamples HeapAlloc Ramfs RamfsSpec.

#[local] Instance alloc0 : Allocator Heap.heap := heap_allocator root0.
#[local] Instance laws0 : AllocatorLaws Heap.heap := heap_allocator_laws root0.

Definition ram0 : ramfs Heap.heap := ramfs_boot heap0.

Lemma ram0_ok : ramfs_ok ram0 [].
Proof.
  assert (∀ i f, ramfs_files ram0 !! i = Some f → f = empty_file) as Hf
    by (intros i f Hi; by apply lookup_replicate in Hi as [-> _]).
  split; [done| | | |].
  - intros i f ->%Hf. by split.
  - constructor.
  - exists []. split; [exact heap0_run|done].
  - intros i j f g ->%Hf ->%Hf. done.
Qed.

Lemma ramfs_open_spec_witness :
  ∃ s', ramfs_open ram0 (Some (chars "/tmp")) = (0, Some 0%nat, s') ∧ ramfs_ok s' [].
Proof.
  pose proof (ramfs_open_spec ram0 [] (chars "/tmp") ram0_ok) as H.
  assert ((ramfs_open ram0 (Some (chars "/tmp"))).1 = (0, Some 0%nat)) as E by (vm_compute; reflexivity).
  destruct (ramfs_open ram0 (Some (chars "/tmp"))) as [[r o] s']. cbn [fst] in E.
  injection E as -> ->. exists s'. split; [reflexivity|apply H].
Defined.

Definition ram1 : ramfs Heap.heap := (ramfs_open ram0 (Some (chars "/tmp"))).2.
Definition file1 : ramfs_file := mk_rf (copy_path (rf_path empty_file) (chars "/tmp")) 0 0 0 true.

Lemma ram1_open : ramfs_open ram0 (Some (chars "/tmp")) = (0, Some 0%nat, set_file ram0 0 file1).
Proof.
  unfold ramfs_open. replace (negb (hd 0 (chars "/tmp") =? 47)) with false by (vm_compute; reflexivity).
  replace (RAMFS_PATH_MAX <=? strlen (chars "/tmp")) with false by (vm_compute; reflexivity).
  reflexivity.
Qed.

Lemma ram1_eq : ram1 = set_file ram0 0 file1.
Proof. unfold ram1. by rewrite ram1_open. Qed.

Lemma ram1_ok : ramfs_ok ram1 [].
Proof.
  destruct (ramfs_open_new ram0 [] 0 empty_file (chars "/tmp") ram0_ok) as (H & _ & _);
    [reflexivity|reflexivity|vm_compute; reflexivity| |rewrite ram1_eq; exact H].
  intros j g (Hj & Hu & _). apply lookup_replicate in Hj as [-> _]. done.
Qed.

Lemma ram1_room c : 0 < c < 200 → al_room (rheap ram1) c 16.
Proof.
  intros Hc. split; [right; by exists 4|]. rewrite ram1_eq. unfold HeapSpec.room.
  assert (Heap.heap_cur (rheap (set_file ram0 0 file1)) = HeapExamples.B) as -> by (vm_compute; reflexivity).
  unfold HeapInv.HEAP_LIMIT, HeapExamples.B. lia.
Qed.

(** Writing at offset 3 of the empty file leaves a gap of zeros. *)
Definition write1 : Z * Z * ramfs Heap.heap := get (0, 0, ram1) (ramfs_write ram1 0 3 (Some [7; 8])).

Lemma write1_eq : ramfs_write ram1 0 3 (Some [7; 8]) = Ret write1.
Proof. apply returns_state_eq. vm_compute. reflexivity. Qed.

Lemma ramfs_write_read_witness :
  write1.1 = (2, 5) ∧ ramfs_read write1.2 0 3 false 2 = (2, [7; 8], 5).
Proof.
  assert (∀ c, 0 < c < 3 + Z.of_nat (length [7; 8]) + RAMFS_GROW_STEP → al_room (rheap ram1) c 16) as Hroom.
  { intros c Hc. apply ram1_room. unfold RAMFS_GROW_STEP in Hc. simpl in Hc. lia. }
  pose proof write1_eq as E. destruct write1 as [[r off] s'].
  pose proof (ramfs_write_read ram1 [] 0 file1 3 [7; 8] ram1_ok
    ltac:(rewrite ram1_eq; reflexivity) eq_refl ltac:(lia) ltac:(congruence) ltac:(simpl; lia) Hroom) as Hw.
  rewrite E in Hw. destruct Hw as (-> & -> & _ & _ & _ & H). split; [reflexivity|exact H].
Defined.

End RamfsExamples.

(** ** Concrete block devices

    The state after boot without an ATA disk, a small port machine, and the
    theorems of BlockSpec.v and Ata.v at these. *)

Module BlockExamples.
Import CString Block BlockSpec Ata.

Definition boot0 : blocks ramdisk :=
  mk_blocks (mk_ramdisk 0 0 ∅) None None (replicate 16 (mk_entry None 0 (replicate 512 0) false)).
Definition s0 : blocks ramdisk := default boot0 (block_init boot0 None).

Lemma s0_eq : block_init boot0 None = Some s0.
Proof. unfold s0. unfold block_init at 1 2. rewrite fat_size_value. reflexivity. Qed.

Lemma s0_ok : cache_ok s0.
Proof. apply (block_init_ok boot0 None); [reflexivity|done|apply s0_eq]. Qed.

Definition disk : option dev_id := Some RamdiskDev.

Lemma block_read_coherent_witness :
  (block_read s0 disk 41 1).1 = dev_read s0 RamdiskDev 41 1 ∧
  firstn 9 (default [] (block_read s0 disk 41 1).1) = chars "NeptuneOS".
Proof.
  split; [|vm_compute; reflexivity].
  pose proof (block_read_coherent s0 disk 41 1 s0_ok ltac:(lia)) as H.
  destruct (block_read s0 disk 41 1) as [r s']. exact (proj1 H).
Defined.

Definition sevens (n : nat) : list Z := replicate n 7.

Lemma block_write_coherent_witness :
  (block_write s0 disk 3 1 (sevens 512)).1 = true ∧
  (block_read (block_write s0 disk 3 1 (sevens 512)).2 disk 3 1).1 = Some (sevens 512).
Proof.
  assert (sector (sevens 512)) as Hs.
  { split; [apply length_replicate|]. apply Forall_replicate. lia. }
  pose proof (block_write_coherent s0 RamdiskDev 3 1 (sevens 512) s0_ok ltac:(lia) ltac:(lia)
    (proj1 Hs) (or_introl (conj eq_refl Hs))) as H.
  assert ((block_write s0 disk 3 1 (sevens 512)).1 = true) as E by (vm_compute; reflexivity).
  unfold disk in *. destruct (block_write s0 (Some RamdiskDev) 3 1 (sevens 512)) as [ok s'].
  simpl in E. destruct H as [_ H]. destruct (H E) as (_ & Hr & _). split; [exact E|exact (Hr eq_refl)].
Defined.

(** A cached sector and a write of two sectors over it. *)
Definition s1 : blocks ramdisk := (block_read s0 disk 0 1).2.
Definition s2 : blocks ramdisk := (block_write s1 disk 0 2 (sevens 1024)).2.
Definition e0 : cache_entry :=
  default (mk_entry None 0 [] false) (block_cache_lookup (block_cache s1) RamdiskDev 0).

Lemma block_write_stale_witness :
  block_read s2 disk 0 1 = (Some (ce_data e0), s2) ∧
  firstn 3 (ce_data e0) = [0xEB; 0x3C; 0x90] ∧
  firstn 3 (default [] (dev_read s2 RamdiskDev 0 1)) = [7; 7; 7].
Proof.
  split; [|split; vm_compute; reflexivity].
  assert (block_cache_lookup (block_cache s1) RamdiskDev 0 = Some e0) as He.
  { unfold e0. assert (bool_decide (is_Some (block_cache_lookup (block_cache s1) RamdiskDev 0)) = true) as H
      by (vm_compute; reflexivity).
    by destruct (block_cache_lookup (block_cache s1) RamdiskDev 0). }
  apply (block_write_stale s1 s2 RamdiskDev 0 2 (sevens 1024) 0 e0); [lia|lia|exact He| |].
  - apply co_devs. unfold s1. destruct (block_read s0 disk 0 1) as [r s'] eqn:E.
    apply block_read_core in E as (_ & Hc & _); [exact Hc|apply s0_ok|lia].
  - unfold s2. assert ((block_write s1 (Some RamdiskDev) 0 2 (sevens 1024)).1 = true) as E
      by (vm_compute; reflexivity).
    unfold disk. destruct (block_write s1 (Some RamdiskDev) 0 2 (sevens 1024)) as [ok s'].
    simpl in *. by rewrite E.
Defined.

(** A disk that is always ready and identifies itself with 65537 sectors. *)
#[local] Instance ready_disk : Ports unit := {
  inb _ port := (if port =? 0x1F7 then 0x58 else 0, tt);
  inw _ _ := (1, tt);
  outb _ _ _ := tt;
  outw _ _ _ := tt;
}.

Definition ata0 : Z * memory * unit := ata_init 0x8000 0xFFFFFFFF80012340 0 0 ∅ tt.

Lemma ata_cast_misreads_witness :
  rd32 ata0.1.2 (0x8000 + ATA_SECTORS) = 65537 ∧
  ata_read ata0.1.2 tt ata0.1.1 512 1 = (-1, [], tt).
Proof.
  split; [vm_compute; reflexivity|].
  assert (ata0.1.1 ≠ 0) as Hd by (vm_compute; discriminate).
  assert (ata_init 0x8000 0xFFFFFFFF80012340 0 0 ∅ tt = (ata0.1.1, ata0.1.2, tt)) as E.
  { unfold ata0. destruct (ata_init 0x8000 0xFFFFFFFF80012340 0 0 ∅ tt) as [[d m] []]. reflexivity. }
  exact (proj1 (ata_cast_misreads 0x8000 0xFFFFFFFF80012340 0 0 ∅ tt ata0.1.1 ata0.1.2 tt tt 512 1 []
    E Hd ltac:(lia) ltac:(lia))).
Defined.

(** The file of the boot image is recorded two bytes longer than its text. *)
Example readme_size :
  rd8 (ramdisk_data (ram_dev s0)) (33 * 512 + 28) = 26 ∧
  length (chars "NeptuneOS FAT16 volume\n") = 24%nat.
Proof. split; vm_compute; reflexivity. Qed.

End BlockExamples.

(** ** The boot volume

    Mounting the FAT16 image that [block_init] builds, and the theorems on
    reading, writing and lookup at its file README.TXT. *)

Module FatExamples.
Import CString Bytes Block BlockSpec BlockDisk BlockExamples Fat FatTable FatRead FatWrite FatSpec FatDir.

Definition fat_boot : fat_state dev_id := mk_fat None 0 0 0 0 0 0 0 0 0 0 0 0 false.
Definition fat0 : fat_state dev_id :=
  mk_fat (Some RamdiskDev) 512 1 1 1 128 32 8192 8 1 33 41 8151 true.

(** The image mounts. *)
Lemma fat0_mounted : fst <$> fat_init fat_boot (Some RamdiskDev) s0 = Some (0, fat0).
Proof. vm_compute. reflexivity. Qed.

Lemma fat0_geometry : geometry fat0 RamdiskDev.
Proof. split; try reflexivity; vm_compute; intuition discriminate. Qed.

Lemma s0_disk : disk fat0 RamdiskDev s0.
Proof.
  split; [split; [done|apply s0_ok]|]. intros l Hl. change (volume_end fat0) with 8192 in Hl.
  change (sect RamdiskDev s0 l) with (ramdisk_read (ram_dev s0) l 1).
  rewrite ramdisk_read_one; [|exact (proj1 (co_devs _ s0_ok))|lia].
  rewrite (proj2 (Z.ltb_lt l RAMDISK_SECTORS)) by (unfold RAMDISK_SECTORS; lia). eauto.
Qed.

(** README.TXT: cluster 2, and its entry the first of the root directory. *)
Definition readme : fat_file := mk_fat_file 2 26 33 0 false 0x20.

Lemma readme_entry : entry fat0 RamdiskDev s0 2 = 0xFFFF.
Proof. vm_compute. reflexivity. Qed.

Lemma readme_chain : chain fat0 RamdiskDev s0 [2].
Proof. cbn [chain]. rewrite readme_entry. split; [vm_compute; intuition discriminate|reflexivity]. Qed.

Lemma readme_ok : file_ok fat0 RamdiskDev s0 readme [2].
Proof.
  split; simpl; [right|lia| |vm_compute; intuition discriminate|].
  - split; [|done]. split; [apply readme_chain|]. intros c [->|[]%elem_of_nil]%elem_of_cons. by rewrite readme_entry.
  - split; [vm_compute; intuition discriminate|]. intros c Hc Hi. unfold is_cluster, inside, csector in *.
    simpl in *. lia.
  - assert (match sect RamdiskDev s0 33 with
            | Some b => read_u16 b 26 = 2 ∧ read_u32 b 28 = 26
            | None => False
            end) as H by (vm_compute; split; reflexivity).
    destruct (sect RamdiskDev s0 33) as [b|] eqn:E; [|done]. by exists b.
Qed.

Lemma fat_read_spec_witness :
  ∃ s', fat_read fat0 readme 0 9 s0 = Some ((9, chars "NeptuneOS", 9), s').
Proof.
  destruct (fat_read_spec fat0 RamdiskDev fat0_geometry s0 readme [2] 0 9 s0_disk readme_chain eq_refl
    ltac:(simpl; lia) ltac:(lia) ltac:(lia)) as (s' & E & _).
  exists s'. rewrite E.
  assert (file_part fat0 RamdiskDev s0 readme [2] 0 9 = chars "NeptuneOS") as ->
    by (vm_compute; reflexivity).
  reflexivity.
Defined.

Definition line_end : list Z := [10].


Lemma dir_find_entry_lookup_witness :
  ∃ s', dir_find_entry fat0 0 (chars "README  TXT") 0 false s0 = Some (Found readme (mk_loc 33 0), s').
Proof.
  destruct (dir_find_entry_lookup fat0 RamdiskDev fat0_geometry (chars "README  TXT") 0 false s0 0
    (root_slots fat0 RamdiskDev s0) s0_disk (or_introl (conj eq_refl eq_refl)) ltac:(simpl; lia)) as (s' & E & _).
  exists s'. rewrite E.
  assert (lookup_entry (chars "README  TXT") 0 false (root_slots fat0 RamdiskDev s0) =
    Found readme (mk_loc 33 0)) as -> by (vm_compute; reflexivity).
  reflexivity.
Defined.

(** Opening by path, and a directory made and listed. *)
Example open_readme : fst <$> fat_open fat0 (chars "/readme.txt") s0 = Some (Some readme).
Proof. vm_compute. reflexivity. Qed.

Example mkdir_lists :
  (fst <$> (ok ← fat_mkdir fat0 (chars "docs"); fat_list fat0 64) s0) =
  Some (chars "/disk/README.TXT" ++ [10] ++ chars "/disk/DOCS/" ++ [10]).
Proof. vm_compute. reflexivity. Qed.

End FatExamples.
