(* ===== verification/Vfs.v ===== *)
(** * The virtual file system (src/kernel/vfs.c)

    Open files are heap objects that stand for an image of the built-in file
    system, a RAM file, a listing, a file of the FAT volume or one end of a
    pipe.  The state holds the objects of this layer by pointer, together with
    the state of the file systems below it; the heap is passed along.  Reading
    or writing through a dangling pointer, and a FAT computation that never
    returns, are the errors [DANGLING] and [HANG]. *)

From S2P Require Import Prelude CString Bytes Paths Pipe Memfs Alloc Ramfs State Fat.
From stdpp Require Import options.
Import CString Bytes Paths Pipe Memfs Ramfs Fat.

Module Vfs.

Inductive vfs_backend :=
| VFS_BACKEND_MEMFS | VFS_BACKEND_RAMFS | VFS_BACKEND_LIST | VFS_BACKEND_FAT | VFS_BACKEND_PIPE.
#[export] Instance vfs_backend_eq : EqDecision vfs_backend.
Proof. solve_decision. Defined.

(** [mem] and [ram] are indices into the tables of the two file systems,
    [None] for null; [fat] and [pipe_] are pointers to heap objects. *)
Record vfs_file := mk_vfs_file {
  backend : vfs_backend;
  offset : Z;
  mem : option nat;
  ram : option nat;
  fat : Z;
  pipe_ : Z;
  is_pipe_writer : bool;
  list_path : list Z;
  refcount : Z;
}.

Definition SIZEOF_VFS_FILE : Z := 120.
Definition SIZEOF_FAT_FILE : Z := 16.
Definition SIZEOF_PIPE : Z := 4168.

Definition SYSCALL_OK : Z := 0.
Definition SYSCALL_EINVAL : Z := 1.
Definition SYSCALL_ENOENT : Z := 2.
Definition SYSCALL_EBADF : Z := 3.
Definition SYSCALL_ENOMEM : Z := 5.
Definition SYSCALL_ERANGE : Z := 7.

Definition DANGLING : string := "access to an object that is not allocated".
Definition HANG : string := "fat: chain does not end".

(** Assignments to one field. *)
Definition set_offset (x : Z) (f : vfs_file) : vfs_file :=
  mk_vfs_file (backend f) x (mem f) (ram f) (fat f) (pipe_ f) (is_pipe_writer f) (list_path f) (refcount f).
Definition set_mem (x : option nat) (f : vfs_file) : vfs_file :=
  mk_vfs_file (backend f) (offset f) x (ram f) (fat f) (pipe_ f) (is_pipe_writer f) (list_path f) (refcount f).
Definition set_ram (x : option nat) (f : vfs_file) : vfs_file :=
  mk_vfs_file (backend f) (offset f) (mem f) x (fat f) (pipe_ f) (is_pipe_writer f) (list_path f) (refcount f).
Definition set_fat (x : Z) (f : vfs_file) : vfs_file :=
  mk_vfs_file (backend f) (offset f) (mem f) (ram f) x (pipe_ f) (is_pipe_writer f) (list_path f) (refcount f).
Definition set_pipe (x : Z) (w : bool) (f : vfs_file) : vfs_file :=
  mk_vfs_file (backend f) (offset f) (mem f) (ram f) (fat f) x w (list_path f) (refcount f).
Definition set_list_path (x : list Z) (f : vfs_file) : vfs_file :=
  mk_vfs_file (backend f) (offset f) (mem f) (ram f) (fat f) (pipe_ f) (is_pipe_writer f) x (refcount f).
Definition set_refcount (x : Z) (f : vfs_file) : vfs_file :=
  mk_vfs_file (backend f) (offset f) (mem f) (ram f) (fat f) (pipe_ f) (is_pipe_writer f) (list_path f) x.

Record vfs (D S : Type) := mk_vfs {
  files : gmap Z vfs_file;
  fats : gmap Z fat_file;
  pipes : gmap Z pipe;
  memfs_ : memfs;
  ram_files : list ramfs_file;
  ram_bufs : gmap Z (list Z);
  volume : fat_state D;
  disk : S;
}.
Arguments mk_vfs {_ _} _ _ _ _ _ _ _ _.
Arguments files {_ _} _.
Arguments fats {_ _} _.
Arguments pipes {_ _} _.
Arguments memfs_ {_ _} _.
Arguments ram_files {_ _} _.
Arguments ram_bufs {_ _} _.
Arguments volume {_ _} _.
Arguments disk {_ _} _.

Section Ops.
Context {H D S : Type} `{!Allocator H} `{!SectorDev D S}.
Context (img : user_images).
Implicit Types v : vfs D S.

Definition with_files v (m : gmap Z vfs_file) : vfs D S :=
  mk_vfs m (fats v) (pipes v) (memfs_ v) (ram_files v) (ram_bufs v) (volume v) (disk v).
Definition with_fats v (m : gmap Z fat_file) : vfs D S :=
  mk_vfs (files v) m (pipes v) (memfs_ v) (ram_files v) (ram_bufs v) (volume v) (disk v).
Definition with_pipes v (m : gmap Z pipe) : vfs D S :=
  mk_vfs (files v) (fats v) m (memfs_ v) (ram_files v) (ram_bufs v) (volume v) (disk v).
Definition with_memfs v (m : memfs) : vfs D S :=
  mk_vfs (files v) (fats v) (pipes v) m (ram_files v) (ram_bufs v) (volume v) (disk v).
Definition with_ram v (r : ramfs H) : vfs D S :=
  mk_vfs (files v) (fats v) (pipes v) (memfs_ v) (ramfs_files r) (bufs r) (volume v) (disk v).
Definition with_disk v (s : S) : vfs D S :=
  mk_vfs (files v) (fats v) (pipes v) (memfs_ v) (ram_files v) (ram_bufs v) (volume v) s.

Definition ramfs_of v (h : H) : ramfs H := mk_ramfs (ram_files v) h (ram_bufs v).

(** [*p]. *)
Definition deref {X} (m : gmap Z X) (p : Z) : result X :=
  match m !! p with Some x => Ret x | None => Panic DANGLING p end.

(** A computation of the FAT driver. *)
Definition run_disk {X} (c : M S X) v : result (X * vfs D S) :=
  match c (disk v) with Some (x, s) => Ret (x, with_disk v s) | None => Panic HANG 0 end.

Definition upd_file (p : Z) (f : vfs_file → vfs_file) v : vfs D S := with_files v (alter f p (files v)).

Definition free_file (p : Z) v (h : H) : result (vfs D S * H) :=
  h ← al_free h p; Ret (with_files v (delete p (files v)), h).
Definition free_fat (p : Z) v (h : H) : result (vfs D S * H) :=
  h ← al_free h p; Ret (with_fats v (delete p (fats v)), h).
Definition free_pipe (p : Z) v (h : H) : result (vfs D S * H) :=
  h ← al_free h p; Ret (with_pipes v (delete p (pipes v)), h).

(** ** Opening *)

Definition vfs_alloc (b : vfs_backend) v (h : H) : result (Z * vfs D S * H) :=
  '(file, h) ← al_alloc h SIZEOF_VFS_FILE 16;
  if file =? 0 then Ret (0, v, h)
  else
    Ret (file, with_files v
      (<[file := mk_vfs_file b 0 None None 0 0 false (replicate 64 0) 1]> (files v)), h).

(** The return value and the two ends. *)
Definition pipe_create v (h : H) : result (Z * Z * Z * vfs D S * H) :=
  '(p, h) ← al_alloc h SIZEOF_PIPE 16;
  if p =? 0 then Ret (SYSCALL_ENOMEM, 0, 0, v, h)
  else
    let v := with_pipes v (<[p := pipe_alloc_struct]> (pipes v)) in
    '(r, v, h) ← vfs_alloc VFS_BACKEND_PIPE v h;
    '(w, v, h) ← vfs_alloc VFS_BACKEND_PIPE v h;
    if (r =? 0) || (w =? 0) then
      '(v, h) ← (if negb (r =? 0) then free_file r v h else Ret (v, h));
      '(v, h) ← (if negb (w =? 0) then free_file w v h else Ret (v, h));
      '(v, h) ← free_pipe p v h;
      Ret (SYSCALL_ENOMEM, 0, 0, v, h)
    else
      let v := upd_file r (set_pipe p false) v in
      let v := upd_file w (set_pipe p true) v in
      Ret (0, r, w, v, h).

Definition vfs_close (file : Z) v (h : H) : result (vfs D S * H) :=
  if file =? 0 then Ret (v, h)
  else
    f ← deref (files v) file;
    if 1 <? refcount f then Ret (upd_file file (set_refcount (refcount f - 1)) v, h)
    else
      '(v, h) ← (if bool_decide (backend f = VFS_BACKEND_FAT) && negb (fat f =? 0)
                 then free_fat (fat f) v h else Ret (v, h));
      '(v, h) ← (if bool_decide (backend f = VFS_BACKEND_PIPE) && negb (pipe_ f =? 0) then
                   p ← deref (pipes v) (pipe_ f);
                   let '(p, loose) := pipe_close_impl p (is_pipe_writer f) in
                   let v := with_pipes v (<[pipe_ f := p]> (pipes v)) in
                   if loose : bool then free_pipe (pipe_ f) v h else Ret (v, h)
                 else Ret (v, h));
      free_file file v h.

(** "/dev/ls", optionally with a path to list. *)
Definition open_list (path : list Z) v (h : H) : result (Z * Z * vfs D S * H) :=
  let suffix := drop 7 path in
  if negb (hd 0 suffix =? 0) && negb (hd 0 suffix =? SLASH) then Ret (SYSCALL_EINVAL, 0, v, h)
  else
    '(file, v, h) ← vfs_alloc VFS_BACKEND_LIST v h;
    if file =? 0 then Ret (SYSCALL_ENOMEM, 0, v, h)
    else if (hd 0 suffix =? SLASH) && negb (hd 0 (tl suffix) =? 0) then
      match normalize_path suffix VFS_LIST_PATH_MAX with
      | None => '(v, h) ← vfs_close file v h; Ret (SYSCALL_EINVAL, 0, v, h)
      | Some (out, _) =>
          Ret (SYSCALL_OK, file, upd_file file (λ f, set_list_path (store (list_path f) 0 (out ++ [0])) f) v, h)
      end
    else Ret (SYSCALL_OK, file, v, h).

(** The directory is made and opened, or the file is opened or made; the
    error code or the entry. *)
Definition fat_lookup (fat_path : list Z) (want_dir : bool) v : result ((Z + fat_file) * vfs D S) :=
  if want_dir then
    match copy_trimmed fat_path VFS_LIST_PATH_MAX with
    | None => Ret (inl SYSCALL_EINVAL, v)
    | Some trimmed =>
        '(made, v) ← run_disk (fat_mkdir (volume v) trimmed) v;
        if negb made then Ret (inl SYSCALL_ENOENT, v)
        else
          '(d, v) ← run_disk (fat_open_dir (volume v) trimmed) v;
          Ret (match d with Some f => inr f | None => inl SYSCALL_ENOENT end, v)
    end
  else
    '(o, v) ← run_disk (fat_open (volume v) fat_path) v;
    match o with
    | Some f => Ret (inr f, v)
    | None =>
        '(c, v) ← run_disk (fat_create (volume v) fat_path) v;
        Ret (match c with Some f => inr f | None => inl SYSCALL_ENOENT end, v)
    end.

Definition open_fat (use_path : list Z) (want_dir : bool) v (h : H) : result (Z * Z * vfs D S * H) :=
  '(fp, h) ← al_alloc h SIZEOF_FAT_FILE 16;
  if fp =? 0 then Ret (SYSCALL_ENOMEM, 0, v, h)
  else
    let v := with_fats v (<[fp := mk_fat_file 0 0 0 0 false 0]> (fats v)) in
    '(r, v) ← fat_lookup (drop 6 use_path) want_dir v;
    match r with
    | inl code => '(v, h) ← free_fat fp v h; Ret (code, 0, v, h)
    | inr f =>
        let v := with_fats v (<[fp := f]> (fats v)) in
        '(file, v, h) ← vfs_alloc VFS_BACKEND_FAT v h;
        if file =? 0 then '(v, h) ← free_fat fp v h; Ret (SYSCALL_ENOMEM, 0, v, h)
        else Ret (SYSCALL_OK, file, upd_file file (set_fat fp) v, h)
    end.

Definition open_ram (use_path : list Z) v (h : H) : result (Z * Z * vfs D S * H) :=
  let '(rc, r, rs) := ramfs_open (ramfs_of v h) (Some use_path) in
  let v := with_ram v rs in
  if negb (rc =? 0) then Ret (SYSCALL_ENOMEM, 0, v, h)
  else
    '(file, v, h) ← vfs_alloc VFS_BACKEND_RAMFS v h;
    if file =? 0 then Ret (SYSCALL_ENOMEM, 0, v, h)
    else Ret (SYSCALL_OK, file, upd_file file (set_ram r) v, h).

(** The return value and what is stored in [*out]. *)
Definition vfs_open (path : option (list Z)) v (h : H) : result (Z * Z * vfs D S * H) :=
  match path with
  | None => Ret (SYSCALL_EINVAL, 0, v, h)
  | Some path =>
      if negb (hd 0 path =? SLASH) then Ret (SYSCALL_EINVAL, 0, v, h)
      else if starts_with path (chars "/dev/ls") then open_list path v h
      else
        match normalize_path path VFS_PATH_MAX with
        | None => Ret (SYSCALL_EINVAL, 0, v, h)
        | Some (use_path, want_dir) =>
            let '(m, ms) := memfs_lookup img (memfs_ v) (Some use_path) in
            let v := with_memfs v ms in
            match m with
            | Some i =>
                '(file, v, h) ← vfs_alloc VFS_BACKEND_MEMFS v h;
                if file =? 0 then Ret (SYSCALL_ENOMEM, 0, v, h)
                else Ret (SYSCALL_OK, file, upd_file file (set_mem (Some i)) v, h)
            | None =>
                if starts_with use_path (chars "/disk/") then open_fat use_path want_dir v h
                else if starts_with use_path (chars "/bin") then Ret (SYSCALL_ENOENT, 0, v, h)
                else open_ram use_path v h
            end
        end
  end.

(** ** Reading and writing *)

(** The text a listing shows. *)
Definition listing (f : vfs_file) v : result (list Z * vfs D S) :=
  if negb (hd 0 (list_path f) =? 0) && starts_with (list_path f) (chars "/disk") then
    let fat_path := drop 5 (list_path f) in
    let fat_path := if hd 0 fat_path =? SLASH then tl fat_path else fat_path in
    run_disk (fat_list_dir (volume v) (Some fat_path) 4096) v
  else let '(out, ms) := memfs_list img (memfs_ v) false 4096 in Ret (out, with_memfs v ms).

(** The value returned, the bytes stored in [buf] and the state.  [env] is
    what the other threads do to the pipe while the call waits for it. *)
Definition vfs_read (env : list (pipe → pipe)) (file : Z) (buf_null : bool) (len : Z) v
    : result (outcome (Z * list Z * vfs D S)) :=
  if (file =? 0) || buf_null then Ret (Done (- SYSCALL_EINVAL, [], v))
  else if len =? 0 then Ret (Done (0, [], v))
  else
    f ← deref (files v) file;
    match backend f with
    | VFS_BACKEND_MEMFS =>
        let '(n, out, ms) := memfs_read img (memfs_ v) (mem f ≫= λ i, memfs_files (memfs_ v) !! i)
          (offset f) false len in
        Ret (Done (n, out, upd_file file (set_offset (w64 (offset f + n))) (with_memfs v ms)))
    | VFS_BACKEND_RAMFS =>
        match ram f with
        | None => Ret (Done (0, [], v))
        | Some i =>
            match ram_files v !! i with
            | None => Panic DANGLING (Z.of_nat i)
            | Some _ =>
                let '(n, out, off) := ramfs_read (mk_ramfs (ram_files v) tt (ram_bufs v)) i (offset f) false len in
                Ret (Done (n, out, upd_file file (set_offset off) v))
            end
        end
    | VFS_BACKEND_LIST =>
        '(text, v) ← listing f v;
        let total := Z.of_nat (length text) in
        if total <=? offset f then Ret (Done (0, [], v))
        else
          let remaining := total - offset f in
          let len := if remaining <? len then remaining else len in
          Ret (Done (len, slice text (Z.to_nat (offset f)) (Z.to_nat len),
            upd_file file (set_offset (w64 (offset f + len))) v))
    | VFS_BACKEND_FAT =>
        if fat f =? 0 then Ret (Done (- SYSCALL_EIO, [], v))
        else
          x ← deref (fats v) (fat f);
          '(n, out, off, v) ← (r ← run_disk (fat_read (volume v) x (offset f) len) v; Ret (r.1, r.2));
          let v := upd_file file (set_offset off) v in
          Ret (Done (if n <? 0 then - SYSCALL_EIO else n, out, v))
    | VFS_BACKEND_PIPE =>
        if pipe_ f =? 0 then Ret (Done (-1, [], v))
        else
          p ← deref (pipes v) (pipe_ f);
          Ret (match pipe_read_impl env (Some p) false len with
          | Done (n, out, q) => Done (n, out, with_pipes v (<[pipe_ f := default p q]> (pipes v)))
          | Waiting (n, out, q) => Waiting (n, out, with_pipes v (<[pipe_ f := default p q]> (pipes v)))
          | Spinning => Spinning
          end)
    end.

Definition vfs_write (env : list (pipe → pipe)) (file : Z) (buf : option (list Z)) v (h : H)
    : result (outcome (Z * vfs D S * H)) :=
  match buf with
  | None => Ret (Done (- SYSCALL_EINVAL, v, h))
  | Some src =>
      if file =? 0 then Ret (Done (- SYSCALL_EINVAL, v, h))
      else if Z.of_nat (length src) =? 0 then Ret (Done (0, v, h))
      else
        f ← deref (files v) file;
        match backend f with
        | VFS_BACKEND_MEMFS => Ret (Done (- SYSCALL_EIO, v, h))
        | VFS_BACKEND_RAMFS =>
            match ram f with
            | None => Ret (Done (0, v, h))
            | Some i =>
                '(n, off, rs) ← ramfs_write (ramfs_of v h) i (offset f) (Some src);
                Ret (Done (n, upd_file file (set_offset off) (with_ram v rs), rheap rs))
            end
        | VFS_BACKEND_FAT =>
            if fat f =? 0 then Ret (Done (- SYSCALL_EIO, v, h))
            else
              x ← deref (fats v) (fat f);
              '(n, x, off, v) ← (r ← run_disk (fat_write (volume v) x (offset f) src) v; Ret (r.1, r.2));
              let v := upd_file file (set_offset off) (with_fats v (<[fat f := x]> (fats v))) in
              Ret (Done (if n <? 0 then - SYSCALL_EIO else n, v, h))
        | VFS_BACKEND_PIPE =>
            if pipe_ f =? 0 then Ret (Done (-1, v, h))
            else
              p ← deref (pipes v) (pipe_ f);
              Ret (match pipe_write_impl env (Some p) (Some src) with
              | Done (n, q) => Done (n, with_pipes v (<[pipe_ f := default p q]> (pipes v)), h)
              | Waiting (n, q) => Waiting (n, with_pipes v (<[pipe_ f := default p q]> (pipes v)), h)
              | Spinning => Spinning
              end)
        | VFS_BACKEND_LIST => Ret (Done (- SYSCALL_EBADF, v, h))
        end
  end.

Definition vfs_dup (file : Z) v : result (Z * vfs D S) :=
  if file =? 0 then Ret (0, v)
  else f ← deref (files v) file; Ret (file, upd_file file (set_refcount (refcount f + 1)) v).
End Ops.
End Vfs.
