(* ===== verification/VfsInv.v ===== *)
(** * The invariant of the virtual file system

    Every object of the layer is owned: an entry of the FAT volume by one open
    file, a pipe by its open ends, which its counters count.  [blocks] lists
    the heap blocks the layer holds. *)

From S2P Require Import Prelude CString Bytes Paths Pipe Memfs Alloc Ramfs RamfsSpec State Fat Vfs.
From stdpp Require Import options.
Import CString Bytes Paths Pipe Memfs Ramfs RamfsSpec Fat Vfs.

(** ** Keys of a map as a list *)

Definition keys {X} (m : gmap Z X) : list Z := elements (dom m).

Lemma elem_of_keys {X} (m : gmap Z X) p : p ∈ keys m ↔ is_Some (m !! p).
Proof. unfold keys. by rewrite elem_of_elements, elem_of_dom. Qed.

Lemma keys_fresh {X} (m : gmap Z X) p : p ∉ keys m ↔ m !! p = None.
Proof. rewrite elem_of_keys. symmetry. apply eq_None_not_Some. Qed.

Lemma keys_insert {X} (m : gmap Z X) p x : m !! p = None → keys (<[p := x]> m) ≡ₚ p :: keys m.
Proof.
  intros Hp. unfold keys. rewrite dom_insert_L. apply elements_union_singleton. by apply not_elem_of_dom.
Qed.

Lemma keys_same {X} (m : gmap Z X) p x : is_Some (m !! p) → keys (<[p := x]> m) = keys m.
Proof. intros Hp. unfold keys. by rewrite dom_insert_lookup_L. Qed.

Lemma keys_alter {X} (m : gmap Z X) p f : keys (alter f p m) = keys m.
Proof. unfold keys. by rewrite dom_alter_L. Qed.

Lemma keys_delete {X} (m : gmap Z X) p : is_Some (m !! p) → p :: keys (delete p m) ≡ₚ keys m.
Proof.
  intros [x Hx]. rewrite <- (keys_insert (delete p m) p x) by (by rewrite lookup_delete_eq).
  by rewrite insert_delete_id.
Qed.

(** ** Results with an excuse *)

Module VfsInv.

Section Inv.
Context {H D S : Type} `{!Allocator H} {AL : AllocatorLaws H} `{!SectorDev D S}.
Context (img : user_images).
Implicit Types (v : vfs D S) (h : H) (others : list Z).

(** The only ways to fail: the allocator gives up, or the driver follows a
    chain of clusters that does not end. *)
Definition excused (msg : string) (code : Z) : Prop :=
  (∃ h n, al_alloc h n 16 = Panic msg code) ∨ msg = Vfs.HANG.

Definition ensures {X} (r : result X) (P : X → Prop) : Prop :=
  match r with Ret x => P x | Panic msg code => excused msg code end.

Lemma ensures_bind {X Y} (r : result X) (k : X → result Y) P Q :
  ensures r P → (∀ x, P x → ensures (k x) Q) → ensures (r ≫= k) Q.
Proof. destruct r; simpl; auto. Qed.

Lemma ensures_mono {X} (r : result X) (P Q : X → Prop) :
  ensures r P → (∀ x, P x → Q x) → ensures r Q.
Proof. destruct r; simpl; auto. Qed.

Lemma deref_Some {X} (m : gmap Z X) p x : m !! p = Some x → deref m p = Ret x.
Proof. unfold deref. by intros ->. Qed.

(** ** The invariant *)

Definition blocks v : list Z :=
  omap ptr_of (ram_files v) ++ keys (files v) ++ keys (fats v) ++ keys (pipes v).

(** The RAM file system is well formed over any heap that holds its blocks. *)
Definition ram_inv v : Prop :=
  ∀ h others, al_live h (omap ptr_of (ram_files v) ++ others) → ramfs_ok (ramfs_of v h) others.

(** [f] is the writing or reading end of the pipe at [a]. *)
Definition is_end (a : Z) (w : bool) (f : vfs_file) : Prop :=
  backend f = VFS_BACKEND_PIPE ∧ pipe_ f = a ∧ is_pipe_writer f = w.
Definition open_end v (a : Z) (w : bool) : Prop := ∃ p f, files v !! p = Some f ∧ is_end a w f.
Definition counts v (a : Z) (w : bool) (n : Z) : Prop :=
  (n = 1 ∧ open_end v a w) ∨ (n = 0 ∧ ¬ open_end v a w).

Record vfile_ok v (f : vfs_file) : Prop := {
  vf_ref : 1 ≤ refcount f;
  vf_off : backend f = VFS_BACKEND_RAMFS → 0 ≤ offset f;
  vf_ram : backend f = VFS_BACKEND_RAMFS →
    ∃ i g, ram f = Some i ∧ ram_files v !! i = Some g ∧ rf_used g = true;
  vf_fat : backend f = VFS_BACKEND_FAT → is_Some (fats v !! fat f);
  vf_pipe : backend f = VFS_BACKEND_PIPE → is_Some (pipes v !! pipe_ f);
}.

Record vfs_inv v : Prop := {
  vi_ram : ram_inv v;
  vi_fats0 : fats v !! 0 = None;
  vi_pipes0 : pipes v !! 0 = None;
  vi_files : ∀ p f, files v !! p = Some f → p ≠ 0 ∧ vfile_ok v f;
  vi_fat_one : ∀ p q f g, files v !! p = Some f → files v !! q = Some g →
    backend f = VFS_BACKEND_FAT → backend g = VFS_BACKEND_FAT → fat f = fat g → p = q;
  vi_fat_owned : ∀ a, is_Some (fats v !! a) →
    ∃ p f, files v !! p = Some f ∧ backend f = VFS_BACKEND_FAT ∧ fat f = a;
  vi_end_one : ∀ p q f g a w, files v !! p = Some f → files v !! q = Some g →
    is_end a w f → is_end a w g → p = q;
  vi_pipes : ∀ a P, pipes v !! a = Some P →
    pipe_wf P ∧ counts v a false (readers P) ∧ counts v a true (writers P) ∧
    (open_end v a false ∨ open_end v a true);
}.

(** The layer and the heap, which holds its blocks and [others]. *)
Definition vfs_ok v h others : Prop := vfs_inv v ∧ al_live h (blocks v ++ others).

Lemma ramfs_ok_inv v h others : ramfs_ok (ramfs_of v h) others → ram_inv v.
Proof. intros [H1 H2 H3 H4 H5] h' others' Hl. split; auto. intros i f Hf. by destruct (H2 i f Hf). Qed.

Lemma vfs_ok_ram v h others :
  vfs_ok v h others → ramfs_ok (ramfs_of v h) (keys (files v) ++ keys (fats v) ++ keys (pipes v) ++ others).
Proof.
  intros [Hi Hl]. apply (vi_ram _ Hi). unfold blocks in Hl. by rewrite <- !app_assoc in Hl.
Qed.

(** ** Changes that keep the shape of the files *)

Definition shape (f : vfs_file) : vfs_backend * option nat * Z * Z * bool :=
  (backend f, ram f, fat f, pipe_ f, is_pipe_writer f).

Lemma shape_end f g a w : shape f = shape g → is_end a w f → is_end a w g.
Proof. unfold is_end. intros [= -> _ _ -> ->]. done. Qed.

Lemma upd_file_lookup p f v q :
  files (upd_file p f v) !! q = if decide (p = q) then f <$> files v !! q else files v !! q.
Proof.
  unfold upd_file. cbn [files with_files]. case_decide as E; [|by rewrite lookup_alter_ne].
  by rewrite E, lookup_alter_eq.
Qed.

Lemma vfs_inv_upd v p f :
  (∀ x, files v !! p = Some x → shape (f x) = shape x ∧ 1 ≤ refcount (f x) ∧
    (backend x = VFS_BACKEND_RAMFS → 0 ≤ offset (f x))) →
  vfs_inv v → vfs_inv (upd_file p f v).
Proof.
  intros Hf [I1 I2 I3 I4 I5 I6 I7 I8].
  assert (∀ q g, files (upd_file p f v) !! q = Some g →
    ∃ x, files v !! q = Some x ∧ shape g = shape x ∧ 1 ≤ refcount g ∧
      (backend x = VFS_BACKEND_RAMFS → 0 ≤ offset g)) as Hback.
  { intros q g. rewrite upd_file_lookup. case_decide as E.
    - destruct (files v !! q) as [x|] eqn:Hx; [|done]. intros [= <-]. exists x. subst q. split; [done|]. by apply Hf.
    - intros Hx. exists g. destruct (I4 q g Hx) as [_ [? ? _ _ _]]. done. }
  assert (∀ q x, files v !! q = Some x → ∃ g, files (upd_file p f v) !! q = Some g ∧ shape g = shape x) as Hfwd.
  { intros q x Hx. rewrite upd_file_lookup. case_decide as E.
    - rewrite Hx. exists (f x). split; [done|]. subst q. by apply Hf.
    - by exists x. }
  assert (∀ a w, open_end (upd_file p f v) a w ↔ open_end v a w) as Hends.
  { intros a w. split; intros (q & g & Hg & He).
    - apply Hback in Hg as (x & Hx & Hs & _). exists q, x. split; [done|]. by apply (shape_end g).
    - destruct (Hfwd q g Hg) as (x & Hx & Hs). exists q, x. split; [done|]. by apply (shape_end g). }
  split; auto.
  - intros q g Hg. apply Hback in Hg as (x & Hx & [= Eb Er Ef Ep Ew] & Href & Hoff).
    destruct (I4 q x Hx) as [Hq [_ _ V3 V4 V5]]. split; [done|]. split; auto; rewrite Eb, ?Er, ?Ef, ?Ep; auto.
  - intros q q' g g' (x & Hx & [= Eb Er Ef Ep Ew] & _)%Hback (x' & Hx' & [= Eb' Er' Ef' Ep' Ew'] & _)%Hback ? ? ?.
    apply (I5 q q' x x'); congruence.
  - intros a Ha. destruct (I6 a Ha) as (q & x & Hx & Hb & Hfa). destruct (Hfwd q x Hx) as (g & Hg & [= Eb Er Ef Ep Ew]).
    exists q, g. split_and!; congruence.
  - intros q q' g g' a w (x & Hx & Hs & _)%Hback (x' & Hx' & Hs' & _)%Hback He He'.
    eapply (I7 q q' x x' a w); eauto using shape_end.
  - intros a P HP. destruct (I8 a P HP) as (? & ? & ? & ?). unfold counts in *. by rewrite !Hends.
Qed.
(** ** Changes below and beside the files *)

Definition same_objects v v' : Prop :=
  files v' = files v ∧ fats v' = fats v ∧ pipes v' = pipes v ∧
  ram_files v' = ram_files v ∧ ram_bufs v' = ram_bufs v.

Lemma same_objects_inv v v' : same_objects v v' → vfs_inv v → vfs_inv v' ∧ blocks v' = blocks v.
Proof.
  destruct v as [f a p m r b vo d], v' as [f' a' p' m' r' b' vo' d'].
  intros (E1 & E2 & E3 & E4 & E5) [I1 I2 I3 I4 I5 I6 I7 I8]. cbn in *. subst f' a' p' r' b'. split; [|done].
  split; auto. intros q g Hg. destruct (I4 q g Hg) as [? []]. done.
Qed.

Lemma vfs_ok_same v v' h others : same_objects v v' → vfs_ok v h others → vfs_ok v' h others.
Proof. intros Hs [Hi Hl]. destruct (same_objects_inv v v' Hs Hi) as [? Eb]. split; [done|by rewrite Eb]. Qed.

Lemma with_memfs_same v m : same_objects v (with_memfs v m).
Proof. done. Qed.

Lemma run_disk_same {X} (c : M S X) v :
  ensures (run_disk c v) (λ '(_, v'), same_objects v v').
Proof. unfold run_disk. destruct (c (disk v)) as [[x s]|]; [done|]. by right. Qed.

Lemma same_objects_trans v1 v2 v3 : same_objects v1 v2 → same_objects v2 v3 → same_objects v1 v3.
Proof. unfold same_objects. intuition congruence. Qed.

(** ** New files *)

Definition new_file (b : vfs_backend) : vfs_file := mk_vfs_file b 0 None None 0 0 false (replicate 64 0) 1.

Lemma blocks_fresh v others p :
  p ∉ blocks v ++ others → files v !! p = None ∧ fats v !! p = None ∧ pipes v !! p = None.
Proof.
  unfold blocks. rewrite !not_elem_of_app, !keys_fresh. tauto.
Qed.

Lemma alloc_ensures h ps n :
  al_live h ps → 0 < n → al_room h n 16 →
  ensures (al_alloc h n 16) (λ '(p, h'), (p ∉ ps) ∧ p ≠ 0 ∧ al_live h' (p :: ps) ∧ al_alloc h n 16 = Ret (p, h')).
Proof using AL.
  intros Hl Hn Hr. destruct (al_alloc h n 16) as [[p h']|msg code] eqn:E; cbn [ensures].
  - destruct (al_alloc_fresh h h' ps n 16 p Hl Hn Hr E) as (? & ? & ?). done.
  - left. by exists h, n.
Qed.

Lemma vfs_alloc_ensures b v h ps :
  al_live h ps → al_room h SIZEOF_VFS_FILE 16 →
  ensures (vfs_alloc b v h) (λ '(p, v', h'), (p ∉ ps) ∧ p ≠ 0 ∧ al_live h' (p :: ps) ∧
    v' = with_files v (<[p := new_file b]> (files v)) ∧ al_alloc h SIZEOF_VFS_FILE 16 = Ret (p, h')).
Proof using AL.
  intros Hl Hr. unfold vfs_alloc. eapply ensures_bind; [by apply alloc_ensures|].
  intros [p h'] (Hp & Hp0 & Hl' & E). by rewrite (proj2 (Z.eqb_neq p 0) Hp0).
Qed.

Lemma upd_new p f x v :
  upd_file p f (with_files v (<[p := x]> (files v))) = with_files v (<[p := f x]> (files v)).
Proof. unfold upd_file, with_files. cbn. by rewrite alter_insert_eq. Qed.

Lemma open_end_new v p f a w :
  files v !! p = None → backend f ≠ VFS_BACKEND_PIPE →
  open_end (with_files v (<[p := f]> (files v))) a w ↔ open_end v a w.
Proof.
  intros Hp Hb. split; intros (q & g & Hg & He).
  - cbn [files with_files] in Hg. apply lookup_insert_Some in Hg as [[-> ->]|[_ Hg]].
    + destruct He as [? _]. done.
    + by exists q, g.
  - exists q, g. split; [|done]. cbn [files with_files]. rewrite lookup_insert_ne; [done|]. intros ->. congruence.
Qed.

(** A file that owns nothing but itself. *)
Lemma vfs_inv_new v p f :
  files v !! p = None → p ≠ 0 → backend f ≠ VFS_BACKEND_FAT → backend f ≠ VFS_BACKEND_PIPE → vfile_ok v f →
  vfs_inv v → vfs_inv (with_files v (<[p := f]> (files v))).
Proof.
  intros Hp Hp0 Hb1 Hb2 Hf [I1 I2 I3 I4 I5 I6 I7 I8].
  assert (∀ q g, files (with_files v (<[p := f]> (files v))) !! q = Some g →
    (q = p ∧ g = f) ∨ files v !! q = Some g) as Hback.
  { intros q g Hg. cbn [files with_files] in Hg. apply lookup_insert_Some in Hg as [[-> ->]|[_ Hg]]; auto. }
  split; auto.
  - intros q g [[-> ->]|Hg]%Hback.
    + split; [done|]. by destruct Hf.
    + destruct (I4 q g Hg) as [? []]. done.
  - intros q q' g g' [[-> ->]|Hg]%Hback [[-> ->]|Hg']%Hback ? ? ?; try done. by apply (I5 q q' g g').
  - intros a Ha. destruct (I6 a Ha) as (q & g & Hg & ?). exists q, g. split; [|done]. cbn [files with_files].
    rewrite lookup_insert_ne; [done|]. intros ->. congruence.
  - intros q q' g g' a w [[-> ->]|Hg]%Hback [[-> ->]|Hg']%Hback He He'; try (by destruct He); try (by destruct He').
    by apply (I7 q q' g g' a w).
  - intros a P HP. destruct (I8 a P HP) as (? & ? & ? & ?). unfold counts in *. by rewrite !open_end_new.
Qed.

Lemma blocks_new v p f : files v !! p = None → blocks (with_files v (<[p := f]> (files v))) ≡ₚ p :: blocks v.
Proof.
  intros Hp. unfold blocks. cbn [files fats pipes ram_files with_files]. rewrite keys_insert by done.
  solve_Permutation.
Qed.

(** A file with a fresh entry of the FAT volume. *)
Lemma vfs_inv_new_fat v p a x :
  files v !! p = None → p ≠ 0 → fats v !! a = None → a ≠ 0 → vfs_inv v →
  vfs_inv (with_files (with_fats v (<[a := x]> (fats v)))
    (<[p := set_fat a (new_file VFS_BACKEND_FAT)]> (files v))).
Proof.
  intros Hp Hp0 Ha Ha0 [I1 I2 I3 I4 I5 I6 I7 I8]. set (f := set_fat a _). set (v' := with_files _ _).
  assert (∀ q g, files v' !! q = Some g → (q = p ∧ g = f) ∨ files v !! q = Some g) as Hback.
  { intros q g Hg. cbn [files with_files v'] in Hg. apply lookup_insert_Some in Hg as [[-> ->]|[_ Hg]]; auto. }
  assert (∀ q g, files v !! q = Some g → files v' !! q = Some g) as Hfwd.
  { intros q g Hg. cbn [files with_files v']. rewrite lookup_insert_ne; [done|]. intros ->. congruence. }
  assert (∀ b, is_Some (fats v !! b) → is_Some (fats v' !! b)) as Hfats.
  { intros b Hb. cbn [fats with_files with_fats v']. rewrite lookup_insert_is_Some'. auto. }
  assert (∀ q g, files v !! q = Some g → backend g = VFS_BACKEND_FAT → fat g ≠ a) as Hother.
  { intros q g Hg Hb <-. destruct (I4 q g Hg) as [_ [_ _ _ [y Hy] _]]; [done|]. congruence. }
  assert (∀ b w, open_end v' b w ↔ open_end v b w) as Hends.
  { intros b w. apply (open_end_new v p f b w Hp). done. }
  split; auto.
  - cbn [fats with_files with_fats v']. by rewrite lookup_insert_ne.
  - intros q g [[-> ->]|Hg]%Hback.
    + split; [done|]. split; try done. intros _. cbn. rewrite lookup_insert_eq. by eexists.
    + destruct (I4 q g Hg) as [? []]. split; [done|]. split; auto.
  - intros q q' g g' [[-> ->]|Hg]%Hback [[-> ->]|Hg']%Hback Hb Hb' Ef; [done| | |by apply (I5 q q' g g')].
    + exfalso. by apply (Hother q' g').
    + exfalso. by apply (Hother q g).
  - intros b Hb. cbn [fats with_files with_fats v'] in Hb. destruct (decide (b = a)) as [->|Hne].
    + exists p, f. split; [|done]. cbn. by rewrite lookup_insert_eq.
    + rewrite lookup_insert_ne in Hb by done. destruct (I6 b Hb) as (q & g & Hg & ?). exists q, g. auto.
  - intros q q' g g' b w [[-> ->]|Hg]%Hback [[-> ->]|Hg']%Hback He He'; try (by destruct He); try (by destruct He').
    by apply (I7 q q' g g' b w).
  - intros b P HP. destruct (I8 b P HP) as (? & ? & ? & ?). unfold counts in *. by rewrite !Hends.
Qed.
(** A pipe with its two ends. *)
Lemma vfs_inv_new_pipe v a r w :
  files v !! r = None → files v !! w = None → r ≠ w → r ≠ 0 → w ≠ 0 → pipes v !! a = None → a ≠ 0 →
  vfs_inv v →
  vfs_inv (with_files (with_pipes v (<[a := pipe_alloc_struct]> (pipes v)))
    (<[w := set_pipe a true (new_file VFS_BACKEND_PIPE)]>
      (<[r := set_pipe a false (new_file VFS_BACKEND_PIPE)]> (files v)))).
Proof.
  intros Hr Hw Hrw Hr0 Hw0 Ha Ha0 [I1 I2 I3 I4 I5 I6 I7 I8].
  set (fr := set_pipe a false _). set (fw := set_pipe a true _). set (v' := with_files _ _).
  assert (∀ q g, files v' !! q = Some g → (q = w ∧ g = fw) ∨ (q = r ∧ g = fr) ∨ files v !! q = Some g) as Hback.
  { intros q g Hg. cbn [files with_files v'] in Hg. apply lookup_insert_Some in Hg as [[-> ->]|[_ Hg]]; auto.
    apply lookup_insert_Some in Hg as [[-> ->]|[_ Hg]]; auto. }
  assert (∀ q g, files v !! q = Some g → files v' !! q = Some g) as Hfwd.
  { intros q g Hg. cbn [files with_files v']. rewrite !lookup_insert_ne; [done|..]; intros ->; congruence. }
  assert (files v' !! w = Some fw ∧ files v' !! r = Some fr) as [Hfw Hfr].
  { cbn [files with_files v']. by rewrite lookup_insert_eq, lookup_insert_ne, lookup_insert_eq. }
  assert (∀ q g, files v !! q = Some g → backend g = VFS_BACKEND_PIPE → pipe_ g ≠ a) as Hother.
  { intros q g Hg Hb <-. destruct (I4 q g Hg) as [_ [_ _ _ _ [y Hy]]]; [done|]. congruence. }
  assert (∀ b e, b ≠ a → open_end v' b e ↔ open_end v b e) as Hends.
  { intros b e Hb. split; intros (q & g & Hg & He).
    - apply Hback in Hg as [[-> ->]|[[-> ->]|Hg]]; [by destruct He as (_ & <- & _)..|by exists q, g].
    - exists q, g. auto. }
  assert (open_end v' a false ∧ open_end v' a true) as [He1 He2] by (split; [by exists r, fr|by exists w, fw]).
  split; auto.
  - cbn [pipes with_files with_pipes v']. by rewrite lookup_insert_ne.
  - intros q g [[-> ->]|[[-> ->]|Hg]]%Hback.
    1,2: split; [done|]; split; try done; intros _; cbn; rewrite lookup_insert_eq; by eexists.
    destruct (I4 q g Hg) as [? []]. split; [done|]. split; auto. intros Hb. cbn. rewrite lookup_insert_is_Some'. auto.
  - intros q q' g g' [[-> ->]|[[-> ->]|Hg]]%Hback [[-> ->]|[[-> ->]|Hg']]%Hback; try done. by apply (I5 q q' g g').
  - intros b Hb. destruct (I6 b Hb) as (q & g & Hg & ?). exists q, g. auto.
  - intros q q' g g' b e [[-> ->]|[[-> ->]|Hg]]%Hback [[-> ->]|[[-> ->]|Hg']]%Hback (B & P & E) (B' & P' & E');
      try done; try (exfalso; cbn in *; congruence);
      try (exfalso; by apply (Hother q g); [|..|cbn in *; congruence]);
      try (exfalso; by apply (Hother q' g'); [|..|cbn in *; congruence]).
    by apply (I7 q q' g g' b e).
  - intros b P HP. cbn [pipes with_files with_pipes v'] in HP. apply lookup_insert_Some in HP as [[<- <-]|[Hb HP]].
    + split; [apply pipe_alloc_struct_wf|]. split_and!; [by left|by left|by left].
    + destruct (I8 b P HP) as (? & ? & ? & ?). unfold counts in *. by rewrite !Hends.
Qed.

(** ** Files that go *)

Definition without v (p : Z) : vfs D S := with_files v (delete p (files v)).

Lemma without_lookup v p q g : files (without v p) !! q = Some g ↔ q ≠ p ∧ files v !! q = Some g.
Proof. unfold without. cbn [files with_files]. rewrite lookup_delete_Some. naive_solver. Qed.

Lemma open_end_without v p f a w :
  files v !! p = Some f → ¬ is_end a w f → open_end (without v p) a w ↔ open_end v a w.
Proof.
  intros Hp He. split; intros (q & g & Hg & Hq).
  - apply without_lookup in Hg as [_ Hg]. by exists q, g.
  - exists q, g. split; [|done]. apply without_lookup. split; [|done]. intros ->. congruence.
Qed.

(** Neither an entry of the volume nor an end of a pipe. *)
Lemma vfs_inv_del v p f :
  files v !! p = Some f → backend f ≠ VFS_BACKEND_FAT → backend f ≠ VFS_BACKEND_PIPE →
  vfs_inv v → vfs_inv (without v p).
Proof.
  intros Hp Hb1 Hb2 [I1 I2 I3 I4 I5 I6 I7 I8].
  assert (∀ a w, open_end (without v p) a w ↔ open_end v a w) as Hends
    by (intros a w; apply (open_end_without v p f a w Hp); by intros [? _]).
  split; auto.
  - intros q g [_ Hg]%without_lookup. destruct (I4 q g Hg) as [? []]. done.
  - intros q q' g g' [_ Hg]%without_lookup [_ Hg']%without_lookup. by apply (I5 q q').
  - intros a Ha. destruct (I6 a Ha) as (q & g & Hg & Hb & Ef). exists q, g. split; [|done].
    apply without_lookup. split; [|done]. intros ->. congruence.
  - intros q q' g g' a w [_ Hg]%without_lookup [_ Hg']%without_lookup. by apply (I7 q q').
  - intros a P HP. destruct (I8 a P HP) as (? & ? & ? & ?). unfold counts in *. by rewrite !Hends.
Qed.

Lemma vfs_inv_del_fat v p f :
  files v !! p = Some f → backend f = VFS_BACKEND_FAT → vfs_inv v →
  vfs_inv (without (with_fats v (delete (fat f) (fats v))) p).
Proof.
  intros Hp Hb [I1 I2 I3 I4 I5 I6 I7 I8]. set (v1 := with_fats v _).
  assert (∀ a w, open_end (without v1 p) a w ↔ open_end v a w) as Hends.
  { intros a w. apply (open_end_without v1 p f a w Hp). intros [? _]. congruence. }
  split; auto.
  - cbn. rewrite lookup_delete_None. auto.
  - intros q g [Hq Hg]%without_lookup. destruct (I4 q g Hg) as [? []]. split; [done|]. split; auto.
    intros Hbg. cbn. rewrite lookup_delete_ne; [by auto|]. intros E. apply Hq. by apply (I5 q p g f).
  - intros q q' g g' [_ Hg]%without_lookup [_ Hg']%without_lookup. by apply (I5 q q').
  - intros a [x Ha]. cbn in Ha. apply lookup_delete_Some in Ha as [Hne Ha].
    destruct (I6 a ltac:(eauto)) as (q & g & Hg & Hbg & Ef). exists q, g. split; [|done].
    apply without_lookup. split; [|done]. intros ->. congruence.
  - intros q q' g g' a w [_ Hg]%without_lookup [_ Hg']%without_lookup. by apply (I7 q q').
  - intros a P HP. destruct (I8 a P HP) as (? & ? & ? & ?). unfold counts in *. by rewrite !Hends.
Qed.
(** Closing one end leaves the other counter alone. *)
Definition end_count (w : bool) (P : pipe) : Z := if w then writers P else readers P.

Lemma close_counts P w P' loose :
  pipe_close_impl P w = (P', loose) →
  end_count w P' = end_count w P - 1 ∧ end_count (negb w) P' = end_count (negb w) P ∧
  (pipe_wf P → pipe_wf P') ∧ (loose = true ↔ end_count w P' = 0 ∧ end_count (negb w) P' = 0).
Proof.
  unfold pipe_close_impl. intros [= <- <-]. destruct w; cbn; (split_and!; [done|done|by intros []|]);
    rewrite andb_true_iff, !Z.eqb_eq; tauto.
Qed.

Lemma vfs_inv_del_pipe v p f P P' (loose : bool) :
  files v !! p = Some f → backend f = VFS_BACKEND_PIPE → pipes v !! pipe_ f = Some P →
  pipe_close_impl P (is_pipe_writer f) = (P', loose) → vfs_inv v →
  vfs_inv (without (with_pipes v (if loose then delete (pipe_ f) (pipes v)
                                  else <[pipe_ f := P']> (pipes v))) p).
Proof.
  intros Hp Hb HP Ec [I1 I2 I3 I4 I5 I6 I7 I8]. set (a := pipe_ f) in *. set (w := is_pipe_writer f) in *.
  destruct (close_counts P w P' loose Ec) as (Hw & Hnw & Hwf & Hloose).
  assert (∀ e Q, pipes v !! a = Some Q → counts v a e (end_count e Q)) as Hcnt
    by (intros [] Q HQ; by destruct (I8 a Q HQ) as (_ & ? & ? & _)).
  set (v1 := with_pipes v _).
  assert (∀ b e, (b, e) ≠ (a, w) → open_end (without v1 p) b e ↔ open_end v b e) as Hends.
  { intros b e Hne. apply (open_end_without v1 p f b e Hp). intros (_ & <- & <-). done. }
  assert (¬ open_end (without v1 p) a w) as Hgone.
  { intros (q & g & [Hq Hg]%without_lookup & He). apply Hq. by apply (I7 q p g f a w Hg Hp He). }
  assert (end_count w P = 1) as Hone.
  { destruct (Hcnt w P HP) as [[? _]|[_ Hn]]; [done|]. destruct Hn. by exists p, f. }
  assert (a ≠ 0) as Ha0 by (intros E; rewrite E in HP; congruence).
  split; auto.
  - cbn. destruct loose; [rewrite lookup_delete_None; auto|by rewrite lookup_insert_ne].
  - intros q g [Hq Hg]%without_lookup. destruct (I4 q g Hg) as [? [? ? ? ? V5]]. split; [done|]. split; auto.
    intros Hbg. cbn. destruct loose; [|rewrite lookup_insert_is_Some'; auto].
    rewrite lookup_delete_ne; [by auto|]. intros E. destruct (proj1 Hloose eq_refl) as [_ Hz].
    destruct (Hcnt (negb w) P HP) as [[? _]|[_ Hno]]; [lia|]. apply Hno. exists q, g. split; [done|].
    split_and!; [done|done|]. destruct (decide (is_pipe_writer g = w)) as [Ew|Ew].
    + exfalso. apply Hq. apply (I7 q p g f a w Hg Hp); by split_and!.
    + by destruct (is_pipe_writer g), w.
  - intros q q' g g' [_ Hg]%without_lookup [_ Hg']%without_lookup. by apply (I5 q q').
  - intros b Hbs. destruct (I6 b Hbs) as (q & g & Hg & Hbg & Ef). exists q, g. split; [|done].
    apply without_lookup. split; [|done]. intros ->. congruence.
  - intros q q' g g' b e [_ Hg]%without_lookup [_ Hg']%without_lookup. by apply (I7 q q').
  - assert (∀ b Q, pipes (without v1 p) !! b = Some Q →
      (b = a ∧ Q = P' ∧ loose = false) ∨ (b ≠ a ∧ pipes v !! b = Some Q)) as Hback.
    { intros b Q HQ. cbn in HQ. destruct loose.
      - apply lookup_delete_Some in HQ as [? ?]. auto.
      - apply lookup_insert_Some in HQ as [[-> ->]|[? ?]]; auto. }
    intros b Q [(-> & -> & ->)|[Hne HQ]]%Hback.
    + destruct (I8 a P HP) as (W & _). split; [by apply Hwf|].
      assert (counts (without v1 p) a w (end_count w P')) as C1 by (right; split; [lia|done]).
      assert (open_end v a (negb w) ∧ end_count (negb w) P' = 1) as [Ho Ho'].
      { destruct (Hcnt (negb w) P HP) as [[? ?]|[? _]]; [split; [done|lia]|].
        assert (false = true) by (apply Hloose; lia). done. }
      assert (counts (without v1 p) a (negb w) (end_count (negb w) P')) as C2.
      { left. split; [done|]. rewrite Hends; [done|]. by destruct w. }
      rewrite <- (Hends a (negb w)) in Ho by (by destruct w). clear -C1 C2 Ho. destruct w; cbn in *; auto.
    + destruct (I8 b Q HQ) as (? & ? & ? & ?). unfold counts in *. rewrite !Hends by congruence. done.
Qed.

(** ** Freeing *)

Lemma blocks_without v p : is_Some (files v !! p) → blocks v ≡ₚ p :: blocks (without v p).
Proof.
  intros Hp. unfold blocks, without. cbn [files fats pipes ram_files with_files].
  rewrite <- (keys_delete (files v) p) by done. solve_Permutation.
Qed.
Lemma blocks_fats v a :
  is_Some (fats v !! a) → blocks v ≡ₚ a :: blocks (with_fats v (delete a (fats v))).
Proof.
  intros Ha. unfold blocks. cbn [files fats pipes ram_files with_fats].
  rewrite <- (keys_delete (fats v) a) by done. solve_Permutation.
Qed.
Lemma blocks_pipes v a :
  is_Some (pipes v !! a) → blocks v ≡ₚ a :: blocks (with_pipes v (delete a (pipes v))).
Proof.
  intros Ha. unfold blocks. cbn [files fats pipes ram_files with_pipes].
  rewrite <- (keys_delete (pipes v) a) by done. solve_Permutation.
Qed.

Lemma free_file_ok v h others p :
  is_Some (files v !! p) → vfs_inv (without v p) → al_live h (blocks v ++ others) →
  ∃ h', free_file p v h = Ret (without v p, h') ∧ vfs_ok (without v p) h' others.
Proof using AL.
  intros Hp Hi Hl. unfold free_file.
  destruct (al_free_live h (blocks (without v p) ++ others) p) as (h' & -> & Hl').
  - eapply al_live_perm; [|exact Hl]. by rewrite (blocks_without v p Hp).
  - by exists h'.
Qed.

Lemma free_fat_ok v h ps a :
  is_Some (fats v !! a) → al_live h (blocks v ++ ps) →
  ∃ h', free_fat a v h = Ret (with_fats v (delete a (fats v)), h') ∧
    al_live h' (blocks (with_fats v (delete a (fats v))) ++ ps).
Proof using AL.
  intros Ha Hl. unfold free_fat.
  destruct (al_free_live h (blocks (with_fats v (delete a (fats v))) ++ ps) a) as (h' & -> & Hl').
  - eapply al_live_perm; [|exact Hl]. by rewrite (blocks_fats v a Ha).
  - by exists h'.
Qed.

Lemma free_pipe_ok v h ps a :
  is_Some (pipes v !! a) → al_live h (blocks v ++ ps) →
  ∃ h', free_pipe a v h = Ret (with_pipes v (delete a (pipes v)), h') ∧
    al_live h' (blocks (with_pipes v (delete a (pipes v))) ++ ps).
Proof using AL.
  intros Ha Hl. unfold free_pipe.
  destruct (al_free_live h (blocks (with_pipes v (delete a (pipes v))) ++ ps) a) as (h' & -> & Hl').
  - eapply al_live_perm; [|exact Hl]. by rewrite (blocks_pipes v a Ha).
  - by exists h'.
Qed.

(** The pipe of a closed end. *)
Lemma close_pipe_ok v h ps a P P' (loose : bool) :
  pipes v !! a = Some P → al_live h (blocks v ++ ps) →
  let m := if loose then delete a (pipes v) else <[a := P']> (pipes v) in
  ∃ h', (if loose then free_pipe a (with_pipes v (<[a := P']> (pipes v))) h
         else Ret (with_pipes v (<[a := P']> (pipes v)), h)) = Ret (with_pipes v m, h') ∧
    al_live h' (blocks (with_pipes v m) ++ ps).
Proof using AL.
  intros HP Hl m. set (v1 := with_pipes v (<[a := P']> (pipes v))).
  assert (blocks v1 = blocks v) as Eb.
  { unfold blocks, v1. cbn [files fats pipes ram_files with_pipes]. by rewrite keys_same by eauto. }
  subst m. destruct loose.
  - destruct (free_pipe_ok v1 h ps a) as (h' & -> & Hl'); [|by rewrite Eb|].
    + subst v1. cbn. rewrite lookup_insert_eq. by eexists.
    + exists h'. subst v1. cbn [pipes with_pipes] in *. rewrite delete_insert_eq in *. done.
  - exists h. split; [done|]. fold v1. by rewrite Eb.
Qed.

(** Closing gives back the file's block and what it owned: nothing is leaked
    and nothing freed twice. *)
Lemma vfs_close_core v h others p f :
  vfs_ok v h others → files v !! p = Some f →
  ∃ v' h', vfs_close p v h = Ret (v', h') ∧ vfs_ok v' h' others ∧
    (ram_files v' = ram_files v ∧ ram_bufs v' = ram_bufs v) ∧
    (1 < refcount f → files v' = alter (set_refcount (refcount f - 1)) p (files v)) ∧
    (refcount f = 1 → files v' = delete p (files v)).
Proof using AL.
  intros [Hi Hl] Hp. destruct (vi_files _ Hi p f Hp) as [Hp0 Hf]. pose proof (vf_ref _ _ Hf) as Href.
  unfold vfs_close. rewrite (proj2 (Z.eqb_neq p 0) Hp0). rewrite (deref_Some _ _ _ Hp). cbn [mbind result_bind].
  destruct (Z.ltb_spec 1 (refcount f)) as [Hr|Hr].
  { eexists _, _. split; [done|]. split; [|split; [done|split; [done|lia]]]. split.
    - apply vfs_inv_upd; [|done]. intros x Hx. assert (x = f) as -> by congruence. split_and!; [done|cbn; lia|apply Hf].
    - unfold blocks in *. cbn [files fats pipes ram_files upd_file with_files]. by rewrite keys_alter. }
  assert (refcount f = 1) as Hr1 by lia.
  destruct (decide (backend f = VFS_BACKEND_FAT)) as [Hb|Hb];
    [rewrite (bool_decide_true _ Hb)|rewrite (bool_decide_false _ Hb)]; cbn [andb mbind result_bind].
  - pose proof (vf_fat _ _ Hf Hb) as Ha.
    assert (fat f ≠ 0) as Ha0 by (intros E; rewrite E, (vi_fats0 _ Hi) in Ha; by destruct Ha).
    rewrite (proj2 (Z.eqb_neq _ 0) Ha0). cbn [negb].
    destruct (free_fat_ok v h others (fat f) Ha Hl) as (h1 & -> & Hl1). cbn [mbind result_bind].
    rewrite (bool_decide_false (backend f = VFS_BACKEND_PIPE)) by congruence. cbn [andb mbind result_bind].
    destruct (free_file_ok (with_fats v (delete (fat f) (fats v))) h1 others p (ex_intro _ f Hp) (vfs_inv_del_fat v p f Hp Hb Hi) Hl1) as (h2 & -> & Hok).
    eexists _, _. split; [done|]. split; [done|]. split; [done|]. split; [lia|done].
  - destruct (decide (backend f = VFS_BACKEND_PIPE)) as [Hb2|Hb2];
      [rewrite (bool_decide_true _ Hb2)|rewrite (bool_decide_false _ Hb2)]; cbn [andb mbind result_bind].
    + pose proof (vf_pipe _ _ Hf Hb2) as Ha. pose proof Ha as [P HP].
      assert (pipe_ f ≠ 0) as Ha0 by (intros E; rewrite E, (vi_pipes0 _ Hi) in Ha; by destruct Ha).
      rewrite (proj2 (Z.eqb_neq _ 0) Ha0). cbn [negb]. rewrite (deref_Some _ _ _ HP). cbn [mbind result_bind].
      destruct (pipe_close_impl P (is_pipe_writer f)) as [P' loose] eqn:Ec.
      destruct (close_pipe_ok v h others (pipe_ f) P P' loose HP Hl) as (h1 & -> & Hl1). cbn [mbind result_bind].
      destruct (free_file_ok (with_pipes v _) h1 others p (ex_intro _ f Hp) (vfs_inv_del_pipe v p f P P' loose Hp Hb2 HP Ec Hi) Hl1)
        as (h2 & -> & Hok).
      eexists _, _. split; [done|]. split; [done|]. split; [done|]. split; [lia|done].
    + destruct (free_file_ok v h others p (ex_intro _ f Hp) (vfs_inv_del v p f Hp Hb Hb2 Hi) Hl) as (h2 & -> & Hok).
      eexists _, _. split; [done|]. split; [done|]. split; [done|]. split; [lia|done].
Qed.
End Inv.
End VfsInv.
