(* ===== verification/VfsSpec.v ===== *)
(** * What the virtual file system guarantees

    Opening, closing and pipes keep every object owned; reads and writes go to
    the object the path named. *)

From S2P Require Import Prelude CString Bytes Paths Pipe Memfs Alloc Ramfs RamfsSpec State Fat Vfs VfsInv.
From stdpp Require Import options.
Import CString Bytes Paths Pipe Memfs Ramfs RamfsSpec Fat Vfs VfsInv.

Module VfsSpec.

Section Spec.
Context {H D S : Type} `{!Allocator H} {AL : AllocatorLaws H} `{!SectorDev D S}.
Context (img : user_images).
Implicit Types (v : vfs D S) (h : H) (others : list Z).

(** The heap can serve these requests in turn. *)
Fixpoint room_for (ns : list Z) h : Prop :=
  match ns with
  | [] => True
  | n :: ns' => al_room h n 16 ∧ ∀ p h', al_alloc h n 16 = Ret (p, h') → room_for ns' h'
  end.

(** ** Opening *)

(** What the file of an opened path stands for. *)
Definition stands_for (path : list Z) v (f : vfs_file) : Prop :=
  match backend f with
  | VFS_BACKEND_LIST => starts_with path (chars "/dev/ls") = true
  | VFS_BACKEND_MEMFS => ∃ np d i m q, normalize_path path VFS_PATH_MAX = Some (np, d) ∧ mem f = Some i ∧
      memfs_files (memfs_ v) !! i = Some m ∧ mf_path m = Some q ∧ cstr q = cstr np
  | VFS_BACKEND_FAT => ∃ np d, normalize_path path VFS_PATH_MAX = Some (np, d) ∧
      starts_with np (chars "/disk/") = true
  | VFS_BACKEND_RAMFS => ∃ np d i g, normalize_path path VFS_PATH_MAX = Some (np, d) ∧ ram f = Some i ∧
      ram_files v !! i = Some g ∧ rf_used g = true ∧ cstr (rf_path g) = cstr np
  | VFS_BACKEND_PIPE => False
  end.

(** A new file, or an error and no new file. *)
Definition opened (path : list Z) v (code file : Z) v' : Prop :=
  (code = SYSCALL_OK ∧ file ≠ 0 ∧ files v !! file = None ∧
   ∃ f, files v' = <[file := f]> (files v) ∧ offset f = 0 ∧ refcount f = 1 ∧ stands_for path v' f) ∨
  (code ∈ [SYSCALL_EINVAL; SYSCALL_ENOENT; SYSCALL_ENOMEM] ∧ file = 0 ∧ files v' = files v).

(** The RAM files in use keep their slots and data. *)
Definition ram_kept v v' : Prop :=
  ram_bufs v' = ram_bufs v ∧
  ∀ j x, ram_files v !! j = Some x → rf_used x = true → ram_files v' !! j = Some x.

Definition open_post (path : list Z) others v (r : Z * Z * vfs D S * H) : Prop :=
  let '(code, file, v', h') := r in
  vfs_ok v' h' others ∧ ram_kept v v' ∧ opened path v code file v'.

Lemma open_error path others v v' h' code :
  code ∈ [SYSCALL_EINVAL; SYSCALL_ENOENT; SYSCALL_ENOMEM] → files v' = files v → ram_kept v v' →
  vfs_ok v' h' others → open_post path others v (code, 0, v', h').
Proof. intros Hc Hf Hk Hok. split; [done|]. split; [done|]. by right. Qed.

(** A plain file on a fresh block. *)
Lemma open_plain path others v v0 h h' file f :
  vfs_ok v0 h others → files v0 = files v → ram_kept v v0 → (file ∉ blocks v0 ++ others) → file ≠ 0 →
  al_live h' (file :: blocks v0 ++ others) →
  backend f ≠ VFS_BACKEND_FAT → backend f ≠ VFS_BACKEND_PIPE → vfile_ok v0 f → offset f = 0 → refcount f = 1 →
  stands_for path (with_files v0 (<[file := f]> (files v0))) f →
  open_post path others v (SYSCALL_OK, file, with_files v0 (<[file := f]> (files v0)), h').
Proof using AL.
  intros [Hi Hl] Ef Hk Hfr H0 Hl' Hb1 Hb2 Hf Ho Hr Hs. destruct (blocks_fresh v0 others file Hfr) as (Hn & _ & _).
  split.
  - split; [by apply vfs_inv_new|]. eapply al_live_perm; [|exact Hl']. by rewrite blocks_new.
  - split; [done|]. left. rewrite <- Ef. split_and!; [done|done|done|]. by exists f.
Qed.

Lemma alloc_plain path others v v0 h b k :
  vfs_ok v0 h others → files v0 = files v → al_room h SIZEOF_VFS_FILE 16 →
  (∀ file h', (file ∉ blocks v0 ++ others) → file ≠ 0 → al_live h' (file :: blocks v0 ++ others) →
    ensures (k (file, with_files v0 (<[file := new_file b]> (files v0)), h')) (open_post path others v)) →
  ensures (vfs_alloc b v0 h ≫= k) (open_post path others v).
Proof using AL.
  intros [Hi Hl] Ef Hr Hk. eapply ensures_bind; [by apply vfs_alloc_ensures|].
  intros [[file v1] h'] (Hfr & H0 & Hl' & -> & _). by apply Hk.
Qed.

Lemma open_list_ok path others v h :
  vfs_ok v h others → al_room h SIZEOF_VFS_FILE 16 → starts_with path (chars "/dev/ls") = true →
  ensures (open_list path v h) (open_post path others v).
Proof using AL.
  intros Hok Hr Hs. unfold open_list.
  destruct (_ && _). { apply open_error; [by left|done|done|done]. }
  apply (alloc_plain path others v v h VFS_BACKEND_LIST); [done|done|done|].
  intros file h' Hfr H0 Hl'. rewrite (proj2 (Z.eqb_neq file 0) H0).
  assert (∀ f, backend f = VFS_BACKEND_LIST → offset f = 0 → refcount f = 1 →
    open_post path others v (SYSCALL_OK, file, with_files v (<[file := f]> (files v)), h')) as Hopen.
  { intros f Hb Ho Hrf. apply (open_plain path others v v h); try congruence; try done.
    - split; try congruence; lia.
    - unfold stands_for. by rewrite Hb. }
  destruct (_ && _); [|by apply Hopen].
  destruct (normalize_path _ _) as [[out d]|].
  - cbn [ensures]. rewrite upd_new. by apply Hopen.
  - specialize (Hopen (new_file VFS_BACKEND_LIST) eq_refl eq_refl eq_refl) as [Hok' _].
    destruct (vfs_close_core _ h' others file (new_file VFS_BACKEND_LIST) Hok') as (v2 & h2 & -> & Hok2 & [Er Eb] & _ & Hdel).
    { cbn. by rewrite lookup_insert_eq. }
    cbn [mbind result_bind ensures]. apply open_error; [by left| |unfold ram_kept; by rewrite Er, Eb|done].
    rewrite Hdel by done. cbn [files with_files]. destruct (blocks_fresh v others file Hfr) as (Hn & _ & _).
    by rewrite delete_insert_id.
Qed.

Lemma open_mem_ok path np d others v h i ms :
  vfs_ok v h others → al_room h SIZEOF_VFS_FILE 16 → normalize_path path VFS_PATH_MAX = Some (np, d) →
  memfs_lookup img (memfs_ v) (Some np) = (Some i, ms) →
  ensures ('(file, v, h) ← vfs_alloc VFS_BACKEND_MEMFS (with_memfs v ms) h;
    if file =? 0 then Ret (SYSCALL_ENOMEM, 0, v, h)
    else Ret (SYSCALL_OK, file, upd_file file (set_mem (Some i)) v, h)) (open_post path others v).
Proof using AL.
  intros Hok Hr Hn Hm. assert (vfs_ok (with_memfs v ms) h others) as Hok0 by (by apply (vfs_ok_same v)).
  apply (alloc_plain path others v (with_memfs v ms) h VFS_BACKEND_MEMFS); [done|done|done|].
  intros file h' Hfr H0 Hl'. rewrite (proj2 (Z.eqb_neq file 0) H0). cbn [ensures]. rewrite upd_new.
  apply (open_plain path others v _ h); try done.
  unfold memfs_lookup in Hm. injection Hm as Hi <-.
  apply find_file_Some in Hi as (m & q & Hmi & _ & Hp & Hc). rewrite Nat.sub_0_r in Hmi.
  exists np, d, i, m, q. done.
Qed.
Lemma fat_lookup_ok fat_path want_dir v :
  ensures (fat_lookup fat_path want_dir v) (λ '(r, v'), same_objects v v' ∧
    match r with inl code => code ∈ [SYSCALL_EINVAL; SYSCALL_ENOENT; SYSCALL_ENOMEM] | inr _ => True end).
Proof.
  unfold fat_lookup. destruct want_dir.
  - destruct (copy_trimmed _ _) as [trimmed|]; [|split; [done|by left]].
    eapply ensures_bind; [apply run_disk_same|]. intros [made v1] H1.
    destruct (negb made); [split; [done|right; by left]|].
    eapply ensures_bind; [apply run_disk_same|]. intros [o v2] H2. cbn [ensures].
    split; [by eapply same_objects_trans|]. destruct o; [done|right; by left].
  - eapply ensures_bind; [apply run_disk_same|]. intros [o v1] H1.
    destruct o; [done|]. eapply ensures_bind; [apply run_disk_same|]. intros [c v2] H2. cbn [ensures].
    split; [by eapply same_objects_trans|]. destruct c; [done|right; by left].
Qed.

(** An entry of the volume in use, before the file that owns it exists. *)
Lemma fats_live v a x : fats v !! a = None → blocks (with_fats v (<[a := x]> (fats v))) ≡ₚ a :: blocks v.
Proof.
  intros Ha. unfold blocks. cbn [files fats pipes ram_files with_fats]. rewrite keys_insert by done. solve_Permutation.
Qed.

Lemma open_fat_ok path np d others v v0 h :
  vfs_ok v0 h others → files v0 = files v → ram_kept v v0 → room_for [SIZEOF_FAT_FILE; SIZEOF_VFS_FILE] h →
  normalize_path path VFS_PATH_MAX = Some (np, d) → starts_with np (chars "/disk/") = true →
  ensures (open_fat np d v0 h) (open_post path others v).
Proof using AL.
  intros [Hi Hl] Ef [Hk1 Hk2] (Hr1 & Hr2) Hn Hs. unfold open_fat.
  eapply ensures_bind; [by apply (alloc_ensures h (blocks v0 ++ others))|].
  intros [a h1] (Hfr & Ha0 & Hl1 & Ea). rewrite (proj2 (Z.eqb_neq a 0) Ha0).
  destruct (blocks_fresh v0 others a Hfr) as (_ & Hna & _).
  eapply ensures_bind; [apply fat_lookup_ok|]. intros [r v2] [(E1 & E2 & E3 & E4 & E5) Hcode].
  cbn [files fats pipes ram_files ram_bufs with_fats] in *.
  assert (∀ x, al_live h1 (blocks (with_fats v2 (<[a := x]> (fats v2))) ++ others) ∧
    delete a (fats v2) = fats v0 ∧ is_Some (fats v2 !! a)) as Hlive.
  { intros x. split_and!.
    - eapply al_live_perm; [|exact Hl1]. rewrite app_comm_cons, <- (fats_live v0 a x Hna). unfold blocks.
      cbn [files fats pipes ram_files with_fats]. by rewrite E1, E2, E3, E4, insert_insert_eq.
    - by rewrite E2, delete_insert_id.
    - rewrite E2, lookup_insert_eq. by eexists. }
  assert (∀ v3 h3 code, code ∈ [SYSCALL_EINVAL; SYSCALL_ENOENT; SYSCALL_ENOMEM] →
    same_objects v0 (with_fats v3 (delete a (fats v3))) → is_Some (fats v3 !! a) →
    al_live h3 (blocks v3 ++ others) →
    ensures ('(v, h) ← free_fat a v3 h3; Ret (code, 0, v, h)) (open_post path others v)) as Hfree.
  { intros v3 h3 code Hc Hsame Ha Hl3. destruct (free_fat_ok v3 h3 others a Ha Hl3) as (h4 & -> & Hl4).
    pose proof Hsame as (S1 & _ & _ & S4 & S5).
    apply open_error; [done|by rewrite S1|split; [by rewrite S5|by rewrite S4]|]. split; [|done].
    by apply (same_objects_inv v0). }
  destruct r as [code|f].
  - destruct (Hlive (mk_fat_file 0 0 0 0 false 0)) as (Hlv & Hd & Hsome). apply Hfree; [done| |done|].
    + unfold same_objects. cbn. by rewrite Hd.
    + eapply al_live_perm; [|exact Hlv]. unfold blocks. cbn [files fats pipes ram_files with_fats].
      by rewrite keys_same.
  - destruct (Hlive f) as (Hlv & Hd & Hsome). set (v3 := with_fats v2 _) in *.
    eapply ensures_bind; [apply (vfs_alloc_ensures VFS_BACKEND_FAT v3 h1 (blocks v3 ++ others)); [done|]|].
    { by apply (Hr2 a). }
    intros [[file v4] h4] (Hfr4 & H0 & Hl4 & -> & _). rewrite (proj2 (Z.eqb_neq file 0) H0). cbn [ensures].
    rewrite upd_new. destruct (blocks_fresh v3 others file Hfr4) as (Hnf & _ & _). subst v3.
    cbn [files fats pipes ram_files with_fats] in *. split.
    + split.
      * assert (vfs_inv (with_fats v2 (delete a (fats v2)))) as Hi2.
        { apply (same_objects_inv v0); [|done]. unfold same_objects. cbn. by rewrite Hd. }
        pose proof (vfs_inv_new_fat (with_fats v2 (delete a (fats v2))) file a f) as Hnew.
        cbn [files fats with_fats] in Hnew. rewrite insert_delete_eq in Hnew. apply Hnew; try done.
        by rewrite lookup_delete_eq.
      * eapply al_live_perm; [|exact Hl4]. rewrite app_comm_cons. by rewrite <- (blocks_new _ file).
    + split; [split; [by rewrite <- Hk1, <- E5|cbn; by rewrite E4]|]. left. rewrite <- Ef, <- E1. split_and!; [done|done|done|]. eexists. split; [done|].
      split_and!; [done|done|]. by exists np, d.
Qed.

(** The RAM file system changes; the files in use stay. *)
Lemma vfs_inv_ram v (rs : ramfs H) :
  ram_inv (H := H) (with_ram v rs) →
  (∀ i g, ram_files v !! i = Some g → rf_used g = true → ∃ g', ramfs_files rs !! i = Some g' ∧ rf_used g' = true) →
  vfs_inv v → vfs_inv (with_ram v rs).
Proof.
  intros Hr Hu [I1 I2 I3 I4 I5 I6 I7 I8]. split; auto.
  intros q g Hg. destruct (I4 q g Hg) as [? [? ? V3 ? ?]]. split; [done|]. split; auto.
  intros Hb. destruct (V3 Hb) as (i & x & Hi & Hx & Hux). destruct (Hu i x Hx Hux) as (y & Hy & Huy).
  exists i, y. done.
Qed.
Lemma ramfs_open_heap (s : ramfs H) path : rheap (ramfs_open s path).2 = rheap s.
Proof.
  unfold ramfs_open. destruct path as [path|]; [|done]. destruct (negb _); [done|]. destruct (_ <=? _); [done|].
  destruct (find_idx _ _ _); [done|]. by destruct (find_idx _ _ _).
Qed.

Lemma open_ram_ok path np d others v v0 h :
  vfs_ok v0 h others → files v0 = files v → ram_kept v v0 → al_room h SIZEOF_VFS_FILE 16 →
  normalize_path path VFS_PATH_MAX = Some (np, d) →
  ensures (open_ram np v0 h) (open_post path others v).
Proof using AL.
  intros Hok Ef [Hk1 Hk2] Hr Hn. unfold open_ram. pose proof (vfs_ok_ram v0 h others Hok) as Hram.
  pose proof (ramfs_open_core _ _ np Hram) as Ho.
  destruct (ramfs_open (ramfs_of v0 h) (Some np)) as [[rc [i|]] rs] eqn:Eo; cycle 1.
  { destruct Ho as (-> & -> & _). apply open_error; [right; right; by left|done|done|]. by apply (vfs_ok_same v0). }
  pose proof (ramfs_open_heap (ramfs_of v0 h) (Some np)) as Eh. rewrite Eo in Eh. cbn [snd rheap ramfs_of] in Eh.
  destruct Ho as (-> & Hram' & Hb & (f & (Hf & Hu & Hc) & _) & Hkeep). cbn [negb Z.eqb].
  assert (vfs_ok (with_ram v0 rs) h others) as Hok1.
  { destruct Hok as [Hi Hl]. split.
    - apply vfs_inv_ram; [|by eauto|done]. apply (ramfs_ok_inv _ h (keys (files v0) ++ keys (fats v0) ++ keys (pipes v0) ++ others)).
      unfold ramfs_of. cbn. rewrite <- Eh. by destruct rs.
    - pose proof (ro_live _ _ Hram') as Hl'. rewrite Eh in Hl'. unfold blocks. cbn. by rewrite <- !app_assoc. }
  apply (alloc_plain path others v (with_ram v0 rs) h VFS_BACKEND_RAMFS); [done|done|done|].
  intros file h' Hfr H0 Hl'. rewrite (proj2 (Z.eqb_neq file 0) H0). cbn [ensures]. rewrite upd_new.
  apply (open_plain path others v _ h); try done.
  - split; [by rewrite <- Hk1|]. intros j x Hx Hux. apply (Hkeep j x Hux), Hk2; done.
  - split; try done. intros _. by exists i, f.
  - by exists np, d, i, f.
Qed.

(** Opening keeps every object owned and gives the file the path names. *)
Lemma vfs_open_core path others v h :
  vfs_ok v h others → al_room h SIZEOF_VFS_FILE 16 → room_for [SIZEOF_FAT_FILE; SIZEOF_VFS_FILE] h →
  ensures (vfs_open img (Some path) v h) (open_post path others v).
Proof using AL.
  intros Hok Hr Hrf. unfold vfs_open. destruct (negb _).
  { apply open_error; [by left|done|done|done]. }
  destruct (starts_with path (chars "/dev/ls")) eqn:Hls; [by apply open_list_ok|].
  destruct (normalize_path path VFS_PATH_MAX) as [[np d]|] eqn:Hn.
  2:{ apply open_error; [by left|done|done|done]. }
  destruct (memfs_lookup img (memfs_ v) (Some np)) as [[i|] ms] eqn:Hm.
  { by apply (open_mem_ok path np d). }
  assert (vfs_ok (with_memfs v ms) h others) as Hok0 by (by apply (vfs_ok_same v)).
  destruct (starts_with np (chars "/disk/")) eqn:Hd; [by apply (open_fat_ok path np d)|].
  destruct (starts_with np (chars "/bin")).
  { apply open_error; [right; by left|done|done|done]. }
  by apply (open_ram_ok path np d).
Qed.

(** ** Pipes *)

Definition pipe_post others v (r : Z * Z * Z * vfs D S * H) : Prop :=
  let '(code, rd, wr, v', h') := r in
  code = 0 ∧ vfs_ok v' h' others ∧ rd ≠ 0 ∧ wr ≠ 0 ∧ rd ≠ wr ∧ files v !! rd = None ∧ files v !! wr = None ∧
  ∃ a, a ≠ 0 ∧ pipes v !! a = None ∧ pipes v' = <[a := pipe_alloc_struct]> (pipes v) ∧
    files v' = <[wr := set_pipe a true (new_file VFS_BACKEND_PIPE)]>
      (<[rd := set_pipe a false (new_file VFS_BACKEND_PIPE)]> (files v)).

Lemma pipe_create_core others v h :
  vfs_ok v h others → room_for [SIZEOF_PIPE; SIZEOF_VFS_FILE; SIZEOF_VFS_FILE] h →
  ensures (pipe_create v h) (pipe_post others v).
Proof using AL.
  intros [Hi Hl] (Hr1 & Hr2). unfold pipe_create.
  eapply ensures_bind; [by apply (alloc_ensures h (blocks v ++ others))|].
  intros [a h1] (Hfr & Ha0 & Hl1 & Ea). rewrite (proj2 (Z.eqb_neq a 0) Ha0). destruct (Hr2 a h1 Ea) as [Hr3 Hr4].
  set (v1 := with_pipes v _).
  eapply ensures_bind; [by apply (vfs_alloc_ensures VFS_BACKEND_PIPE v1 h1 (a :: blocks v ++ others))|].
  intros [[rd v2] h2] (Hfr2 & Hrd0 & Hl2 & -> & E2). destruct (Hr4 rd h2 E2) as [Hr5 _]. set (v2 := with_files v1 _).
  eapply ensures_bind; [by apply (vfs_alloc_ensures VFS_BACKEND_PIPE v2 h2 (rd :: a :: blocks v ++ others))|].
  intros [[wr v3] h3] (Hfr3 & Hwr0 & Hl3 & -> & E3).
  rewrite (proj2 (Z.eqb_neq rd 0) Hrd0), (proj2 (Z.eqb_neq wr 0) Hwr0). cbn [orb ensures].
  apply not_elem_of_cons in Hfr2 as [Hra Hfr2]. apply not_elem_of_cons in Hfr3 as [Hwrd [Hwa Hfr3]%not_elem_of_cons].
  destruct (blocks_fresh v others a Hfr) as (_ & _ & Hpa). destruct (blocks_fresh v others rd Hfr2) as (Hnr & _ & _).
  destruct (blocks_fresh v others wr Hfr3) as (Hnw & _ & _).
  assert (upd_file wr (set_pipe a true) (upd_file rd (set_pipe a false)
      (with_files v2 (<[wr := new_file VFS_BACKEND_PIPE]> (files v2)))) =
    with_files v1 (<[wr := set_pipe a true (new_file VFS_BACKEND_PIPE)]>
      (<[rd := set_pipe a false (new_file VFS_BACKEND_PIPE)]> (files v)))) as ->.
  { subst v2 v1. unfold upd_file, with_files, with_pipes. cbn. f_equal.
    rewrite alter_insert_ne, alter_insert_eq by done. by rewrite alter_insert_eq. }
  split_and!; try done.
  - split; [by apply vfs_inv_new_pipe|]. eapply al_live_perm; [|exact Hl3]. subst v1 v2.
    unfold blocks. cbn [files fats pipes ram_files with_files with_pipes].
    rewrite !keys_insert by (rewrite ?lookup_insert_ne by done; done). solve_Permutation.
  - exists a. done.
Qed.
End Spec.
End VfsSpec.
