(* ===== verification/VfsIo.v ===== *)
(** * Reading and writing through the virtual file system

    Every read and write keeps the invariant of VfsInv.v, and data comes back:
    through a RAM file under any spelling of its path, and through a pipe. *)

From S2P Require Import Prelude CString Bytes Paths Pipe Memfs Alloc Ramfs RamfsSpec State Fat Vfs VfsInv VfsSpec.
From stdpp Require Import options.
Import CString Bytes Paths Pipe Memfs Ramfs RamfsSpec Fat Vfs VfsInv VfsSpec.

Module VfsIo.

(** ** Pipes *)

(** What the other threads may do to a pipe during a call: read and write. *)
Definition ends_kept (e : pipe → pipe) : Prop :=
  ∀ P, pipe_wf P → pipe_wf (e P) ∧ readers (e P) = readers P ∧ writers (e P) = writers P.

Definition same_ends (P P' : pipe) : Prop :=
  pipe_wf P' ∧ readers P' = readers P ∧ writers P' = writers P.

Lemma same_ends_trans P Q R : same_ends P Q → same_ends Q R → same_ends P R.
Proof. unfold same_ends. intuition congruence. Qed.

Lemma pipe_read_keeps env len : ∀ P,
  pipe_wf P → Forall ends_kept env →
  match pipe_read_impl env (Some P) false len with
  | Done (_, _, Some P') | Waiting (_, _, Some P') => same_ends P P'
  | _ => False
  end.
Proof.
  unfold pipe_read_impl. induction env as [|e env IH]; intros P Hwf He; cbn [pipe_read_loop].
  all: destruct (used P =? 0);
    [destruct (writers P =? 0)
    |destruct (read_loop (Z.to_nat len) P) as [out P'] eqn:E;
     apply read_loop_spec in E as (? & _ & _ & ? & ?); [done|done]]; try done.
  apply Forall_cons in He as [He Henv]. destruct (He P Hwf) as (Hw & Er & Ew). specialize (IH (e P) Hw Henv).
  destruct (pipe_read_loop env (e P) len) as [[[]]|[[]]|]; [| |done];
    (eapply same_ends_trans; [|exact IH]); done.
Qed.

Lemma pipe_write_keeps env : ∀ P data written,
  pipe_wf P → Forall ends_kept env →
  match write_loop env P data written with
  | Done (_, P') | Waiting (_, P') => same_ends P P'
  | Spinning => False
  end.
Proof.
  induction env as [|e env IH]; intros P data written Hwf He; cbn [write_loop];
    destruct (fill P data) as [rest P'] eqn:E;
    pose proof (pipe_fill_spec _ _ _ _ Hwf E) as (Hwf' & _ & Hfull & Er & Ew);
    (destruct rest as [|c rest]; [done|]); rewrite (Hfull ltac:(done)), Z.eqb_refl;
    destruct (readers P' =? 0); try done.
  apply Forall_cons in He as [He Henv]. destruct (He P' Hwf') as (Hw2 & Er2 & Ew2).
  specialize (IH (e P') (c :: rest) (written + Z.of_nat (length data - length (c :: rest))) Hw2 Henv).
  destruct (write_loop _ _ _ _) as [[]|[]|]; [| |done];
    (eapply same_ends_trans; [|exact IH]); unfold same_ends; intuition congruence.
Qed.

Section Io.
Context {H D S : Type} `{!Allocator H} {AL : AllocatorLaws H} `{!SectorDev D S}.
Context (img : user_images).
Implicit Types (v : vfs D S) (h : H) (others : list Z).

Lemma vfs_ok_pipe v h others a P P' :
  vfs_ok v h others → pipes v !! a = Some P → same_ends P P' →
  vfs_ok (with_pipes v (<[a := P']> (pipes v))) h others.
Proof.
  intros [[I1 I2 I3 I4 I5 I6 I7 I8] Hl] HP (Hwf & Er & Ew).
  assert (a ≠ 0) as Ha by (intros ->; congruence). split.
  - split; auto.
    + cbn. by rewrite lookup_insert_ne.
    + intros q g Hg. destruct (I4 q g Hg) as [? []]. split; [done|]. split; auto.
      intros Hb. cbn. rewrite lookup_insert_is_Some'. auto.
    + intros b Q HQ. cbn in HQ. apply lookup_insert_Some in HQ as [[<- <-]|[_ HQ]]; [|by apply (I8 b Q)].
      destruct (I8 a P HP) as (_ & ? & ? & ?). rewrite Er, Ew. done.
  - unfold blocks in *. cbn [files fats pipes ram_files with_pipes]. by rewrite keys_same by eauto.
Qed.

Lemma vfs_ok_fat v h others a x :
  vfs_ok v h others → is_Some (fats v !! a) → vfs_ok (with_fats v (<[a := x]> (fats v))) h others.
Proof.
  intros [[I1 I2 I3 I4 I5 I6 I7 I8] Hl] Ha.
  assert (a ≠ 0) as Ha0 by (intros ->; rewrite I2 in Ha; by destruct Ha). split.
  - split; auto.
    + cbn. by rewrite lookup_insert_ne.
    + intros q g Hg. destruct (I4 q g Hg) as [? []]. split; [done|]. split; auto.
      intros Hb. cbn. rewrite lookup_insert_is_Some'. auto.
    + intros b Hb. cbn in Hb. apply lookup_insert_is_Some' in Hb as [<-|Hb]; auto.
  - unfold blocks in *. cbn [files fats pipes ram_files with_fats]. by rewrite keys_same.
Qed.

Lemma vfs_ok_offset v h others p f n :
  vfs_ok v h others → files v !! p = Some f → (backend f = VFS_BACKEND_RAMFS → 0 ≤ n) →
  vfs_ok (upd_file p (set_offset n) v) h others.
Proof.
  intros [Hi Hl] Hp Hn. split.
  - apply vfs_inv_upd; [|done]. intros x Hx. assert (x = f) as -> by congruence.
    split_and!; [done|apply (vi_files _ Hi p f Hp)|done].
  - unfold blocks in *. cbn [files fats pipes ram_files upd_file with_files]. by rewrite keys_alter.
Qed.

Lemma run_disk_ok {X} (c : M S X) v h others :
  vfs_ok v h others →
  ensures (run_disk c v) (λ '(_, v'), vfs_ok v' h others ∧ files v' = files v ∧ fats v' = fats v).
Proof.
  intros Hok. eapply ensures_mono; [apply run_disk_same|]. intros [x v'] Hs.
  split; [by apply (vfs_ok_same v)|]. destruct Hs as (? & ? & _). done.
Qed.

Lemma ramfs_read_offset (s : ramfs unit) i off b n r o off' :
  ramfs_read s i off b n = (r, o, off') → off' = off ∨ 0 ≤ off'.
Proof.
  unfold ramfs_read. destruct (ramfs_files s !! i); [|intros [=]; auto]. destruct (_ || _); [intros [=]; auto|].
  destruct (_ <=? _); [intros [=]; auto|]. intros [= <- <- <-]. right. unfold w64. apply Z.mod_pos_bound. lia.
Qed.

(** The state after a read or write, whether it returned or waits: the same
    files are open. *)
Definition io_ok {X} v (st : X → vfs D S) (hp : X → H) others (o : outcome X) : Prop :=
  match o with
  | Done x | Waiting x => vfs_ok (st x) (hp x) others ∧ dom (files (st x)) = dom (files v)
  | Spinning => False
  end.

Lemma upd_file_dom p f v : dom (files (upd_file p f v)) = dom (files v).
Proof. apply dom_alter_L. Qed.

Lemma vfs_read_core env file f len v h others :
  vfs_ok v h others → files v !! file = Some f → Forall ends_kept env →
  ensures (vfs_read img env file false len v) (io_ok v (λ x, x.2) (λ _, h) others).
Proof.
  intros Hok Hf He. pose proof Hok as [Hi Hl]. destruct (vi_files _ Hi file f Hf) as [H0 [V1 V2 V3 V4 V5]].
  unfold vfs_read. rewrite (proj2 (Z.eqb_neq file 0) H0). cbn [orb].
  destruct (len =? 0); [done|]. rewrite (deref_Some _ _ _ Hf). cbn [mbind result_bind].
  destruct (backend f) eqn:Hb.
  - destruct (memfs_read _ _ _ _ _ _) as [[n out] ms]. split; [|cbn [snd]; by rewrite upd_file_dom]. cbn [snd].
    apply (vfs_ok_offset _ h others file f); [|done|congruence]. by apply (vfs_ok_same v).
  - destruct (V3 eq_refl) as (i & g & -> & -> & _).
    destruct (ramfs_read _ _ _ _ _) as [[n out] off] eqn:E. split; [|cbn [snd]; by rewrite upd_file_dom]. cbn [snd].
    apply (vfs_ok_offset v h others file f); [done|done|]. intros _. specialize (V2 eq_refl).
    apply ramfs_read_offset in E as [->| ?]; done.
  - eapply ensures_bind with (P := λ '(_, v'), vfs_ok v' h others ∧ files v' = files v).
    + unfold listing. destruct (_ && _).
      * eapply ensures_mono; [by apply run_disk_ok|]. by intros [? ?] (? & ? & _).
      * destruct (memfs_list _ _ _ _) as [out ms]. split; [by apply (vfs_ok_same v)|done].
    + intros [text v'] [Hok' Ef]. destruct (_ <=? _); [by split; [|cbn [snd]; rewrite Ef]|].
      split; [|cbn [snd]; by rewrite upd_file_dom, Ef]. cbn [snd].
      apply (vfs_ok_offset v' h others file f); [done|by rewrite Ef|congruence].
  - pose proof (V4 eq_refl) as [x Hx].
    assert (fat f ≠ 0) as Ha0 by (intros E; rewrite E, (vi_fats0 _ Hi) in Hx; done).
    rewrite (proj2 (Z.eqb_neq _ 0) Ha0), (deref_Some _ _ _ Hx). cbn [mbind result_bind].
    pose proof (run_disk_ok (fat_read (volume v) x (offset f) len) v h others Hok) as Hd.
    destruct (run_disk _ v) as [[[[n out] off] v']|msg code]; [|exact Hd].
    destruct Hd as (Hok' & Ef & _). split; [|cbn [snd]; by rewrite upd_file_dom, Ef]. cbn [snd].
    apply (vfs_ok_offset v' h others file f); [done|by rewrite Ef|congruence].
  - pose proof (V5 eq_refl) as [P HP].
    assert (pipe_ f ≠ 0) as Ha0 by (intros E; rewrite E, (vi_pipes0 _ Hi) in HP; done).
    rewrite (proj2 (Z.eqb_neq _ 0) Ha0), (deref_Some _ _ _ HP). cbn [mbind result_bind].
    destruct (vi_pipes _ Hi _ _ HP) as (Hwf & _).
    pose proof (pipe_read_keeps env len P Hwf He) as Hk.
    destruct (pipe_read_impl env (Some P) false len) as [[[n out] [P'|]]|[[n out] [P'|]]|]; try done;
      (split; [|done]); by apply (vfs_ok_pipe v h others _ P P').
Qed.
(** The bytes of the RAM file in slot [i]. *)
Definition ram_content v (g : ramfs_file) : list Z :=
  take (Z.to_nat (rf_size g)) (default [] (ram_bufs v !! rf_data g)).

(** Room for a write of [src] at the file's offset. *)
Definition ram_room v h (f : vfs_file) (src : list Z) : Prop :=
  backend f = VFS_BACKEND_RAMFS → ∀ i g, ram f = Some i → ram_files v !! i = Some g →
  offset f + 2 * Z.of_nat (length src) + rf_size g ≤ 2 ^ 63 ∧
  ∀ c, 0 < c < offset f + Z.of_nat (length src) + RAMFS_GROW_STEP → al_room h c 16.

Definition ram_written v h others file (f : vfs_file) (i : nat) (g : ramfs_file) (src : list Z)
    (o : outcome (Z * vfs D S * H)) : Prop :=
  ∃ v' h' g', o = Done (Z.of_nat (length src), v', h') ∧ vfs_ok v' h' others ∧
    ram_files v' = <[i := g']> (ram_files v) ∧ rf_path g' = rf_path g ∧ rf_used g' = true ∧
    ram_content v' g' = overlay (ram_content v g) (Z.to_nat (offset f)) src ∧
    (∀ j x, j ≠ i → ram_files v !! j = Some x → ram_content v' x = ram_content v x) ∧
    files v' = alter (set_offset (offset f + Z.of_nat (length src))) file (files v).

Lemma vfs_write_ram env file f src v h others i g :
  vfs_ok v h others → files v !! file = Some f → backend f = VFS_BACKEND_RAMFS → ram f = Some i →
  ram_files v !! i = Some g → ram_room v h f src → src ≠ [] →
  ensures (vfs_write env file (Some src) v h) (ram_written v h others file f i g src).
Proof using AL.
  intros Hok Hf Hb Hri Hg Hroom Hne. pose proof Hok as [Hi Hl].
  destruct (vi_files _ Hi file f Hf) as [H0 [V1 V2 V3 V4 V5]].
  destruct (V3 Hb) as (i' & g' & Ei & Eg & Hu). assert (i' = i) as -> by congruence. assert (g' = g) as -> by congruence.
  destruct (Hroom Hb i g Hri Hg) as [Hbound Hroom']. specialize (V2 Hb).
  assert (0 < Z.of_nat (length src)) as Hlen by (destruct src; [done|simpl; lia]).
  unfold vfs_write. rewrite (proj2 (Z.eqb_neq file 0) H0), (proj2 (Z.eqb_neq _ 0)) by lia.
  rewrite (deref_Some _ _ _ Hf). cbn [mbind result_bind]. rewrite Hb, Hri.
  pose proof (vfs_ok_ram v h others Hok) as Hram. set (oth := keys (files v) ++ _) in Hram.
  pose proof (fo_size _ _ (ro_files _ _ Hram i g Hg)) as Hsz.
  destruct (ramfs_write (ramfs_of v h) i (offset f) (Some src)) as [[[n off] rs]|msg code] eqn:E; cycle 1.
  { destruct (ramfs_write_panic _ _ i g (offset f) src msg code Hram Hg V2 Hne Hbound Hroom' E) as [c Hc].
    left. by exists h, c. }
  destruct (ramfs_write_core _ _ i g (offset f) src n off rs Hram Hg Hu V2 Hne ltac:(unfold RAMFS_GROW_STEP; lia) Hroom' E)
    as (-> & -> & Hram' & g' & Efs & Ep & Eu & Hc & Hoth).
  cbn [mbind result_bind ensures]. eexists _, _, g'. split; [done|].
  assert (vfs_ok (with_ram v rs) (rheap rs) others) as Hok1.
  { split.
    - apply vfs_inv_ram; [| |done].
      + apply (ramfs_ok_inv _ (rheap rs) oth). by destruct rs.
      + intros j x Hx Hux. cbn [ram_files ramfs_of ramfs_files] in Efs. rewrite Efs.
        destruct (decide (j = i)) as [->|Hji].
        * exists g'. split; [|done]. apply list_lookup_insert_eq. by eapply lookup_lt_Some.
        * exists x. by rewrite list_lookup_insert_ne.
    - pose proof (ro_live _ _ Hram') as Hl'. unfold blocks. cbn. subst oth. by rewrite <- !app_assoc. }
  split_and!; try done.
  - apply (vfs_ok_offset _ _ others file f); [done|done|]. lia.
  - intros j x Hji Hx. specialize (Hoth j x ltac:(done) Hx). unfold buf_of in Hoth. unfold ram_content. cbn in *.
    by rewrite Hoth.
Qed.

Lemma vfs_write_core env file f src v h others :
  vfs_ok v h others → files v !! file = Some f → Forall ends_kept env → ram_room v h f src →
  ensures (vfs_write env file (Some src) v h) (io_ok v (λ x, x.1.2) (λ x, x.2) others).
Proof using AL.
  intros Hok Hf He Hroom. pose proof Hok as [Hi Hl]. destruct (vi_files _ Hi file f Hf) as [H0 [V1 V2 V3 V4 V5]].
  destruct (decide (src = [])) as [->|Hne].
  { unfold vfs_write. by rewrite (proj2 (Z.eqb_neq file 0) H0). }
  destruct (decide (backend f = VFS_BACKEND_RAMFS)) as [Hr|Hr].
  { destruct (V3 Hr) as (i & g & Ei & Eg & Hu). eapply ensures_mono; [by eapply vfs_write_ram|].
    intros o (v' & h' & g' & -> & ? & _ & _ & _ & _ & _ & Ef). split; [done|]. cbn [fst snd]. by rewrite Ef, dom_alter_L. }
  assert (0 < Z.of_nat (length src)) as Hlen by (destruct src; [done|simpl; lia]).
  unfold vfs_write. rewrite (proj2 (Z.eqb_neq file 0) H0), (proj2 (Z.eqb_neq _ 0)) by lia.
  rewrite (deref_Some _ _ _ Hf). cbn [mbind result_bind]. destruct (backend f) eqn:Hb; try done.
  - pose proof (V4 eq_refl) as [x Hx].
    assert (fat f ≠ 0) as Ha0 by (intros E; rewrite E, (vi_fats0 _ Hi) in Hx; done).
    rewrite (proj2 (Z.eqb_neq _ 0) Ha0), (deref_Some _ _ _ Hx). cbn [mbind result_bind].
    pose proof (run_disk_ok (fat_write (volume v) x (offset f) src) v h others Hok) as Hd.
    destruct (run_disk _ v) as [[[[n x'] off] v']|msg code]; [|exact Hd].
    destruct Hd as (Hok' & Ef & Efat). split; [|cbn [fst snd]; rewrite upd_file_dom; cbn; by rewrite Ef]. cbn [fst snd].
    apply (vfs_ok_offset _ h others file f); [|by cbn; rewrite Ef|congruence].
    apply vfs_ok_fat; [done|]. rewrite Efat. by eexists.
  - pose proof (V5 eq_refl) as [P HP].
    assert (pipe_ f ≠ 0) as Ha0 by (intros E; rewrite E, (vi_pipes0 _ Hi) in HP; done).
    rewrite (proj2 (Z.eqb_neq _ 0) Ha0), (deref_Some _ _ _ HP). cbn [mbind result_bind].
    destruct (vi_pipes _ Hi _ _ HP) as (Hwf & _). unfold pipe_write_impl.
    destruct (readers P =? 0); [split; [apply (vfs_ok_pipe v h others _ P P Hok HP); done|done]|].
    pose proof (pipe_write_keeps env P src 0 Hwf He) as Hk.
    destruct (write_loop env P src 0) as [[n P']|[n P']|]; try done; (split; [|done]); by apply (vfs_ok_pipe v h others _ P P').
Qed.
(** ** What the layer guarantees *)

(** [vfs_open] on any path and state: it fails only where the allocator
    panics or the FAT driver follows an endless chain.  Otherwise either a new
    file with offset 0 and one reference stands for what the path names (a
    listing under /dev/ls, the built-in program or the RAM file whose name is
    the normalised path, an entry of the volume under /disk/), or an error
    code is returned and there is no new file; in both cases every object and
    heap block stays owned and the RAM files in use keep their data. *)
Theorem vfs_open_spec path others v h :
  vfs_ok v h others → al_room h SIZEOF_VFS_FILE 16 → room_for [SIZEOF_FAT_FILE; SIZEOF_VFS_FILE] h →
  ensures (vfs_open img (Some path) v h) (open_post path others v).
Proof using AL. apply vfs_open_core. Qed.

(** [vfs_close] of an open file always succeeds: a shared file loses one
    reference, otherwise the file is freed together with the volume entry it
    owned or, at the last end, its pipe; nothing is leaked or freed twice and
    the other files are untouched. *)
Theorem vfs_close_spec v h others p f :
  vfs_ok v h others → files v !! p = Some f →
  ∃ v' h', vfs_close p v h = Ret (v', h') ∧ vfs_ok v' h' others ∧
    files v' = if 1 <? refcount f then alter (set_refcount (refcount f - 1)) p (files v) else delete p (files v).
Proof using AL.
  intros Hok Hp. destruct (vi_files _ (proj1 Hok) p f Hp) as [_ Hf]. pose proof (vf_ref _ _ Hf) as Hr.
  destruct (vfs_close_core v h others p f Hok Hp) as (v' & h' & E & Hok' & _ & H1 & H2).
  exists v', h'. split_and!; [done|done|]. destruct (Z.ltb_spec 1 (refcount f)); [by apply H1|apply H2; lia].
Qed.

(** The file an open call returned. *)
Lemma opened_file path others v h file v' h' f :
  open_post path others v (SYSCALL_OK, file, v', h') → files v' !! file = Some f →
  vfs_ok v' h' others ∧ ram_kept v v' ∧ offset f = 0 ∧ stands_for path v' f.
Proof.
  intros (Hok & Hk & [(_ & _ & _ & f' & Ef & Ho & _ & Hs)|[Hc _]]) Hf.
  - rewrite Ef, lookup_insert_eq in Hf. injection Hf as <-. done.
  - exfalso. cbn in Hc. rewrite !elem_of_cons, elem_of_nil in Hc. unfold SYSCALL_OK in Hc. naive_solver.
Qed.

Lemma ram_name_unique v h others i j x y :
  vfs_ok v h others → ram_files v !! i = Some x → ram_files v !! j = Some y → rf_used x = true → rf_used y = true →
  cstr (rf_path x) = cstr (rf_path y) → i = j.
Proof. intros Hok. apply (ro_paths _ _ (vfs_ok_ram v h others Hok)). Qed.

(** Reading a RAM file from its start. *)
Lemma vfs_read_ram env file f v h others i g src :
  vfs_ok v h others → files v !! file = Some f → backend f = VFS_BACKEND_RAMFS → ram f = Some i →
  ram_files v !! i = Some g → offset f = 0 → src ≠ [] → rf_size g < 2 ^ 63 →
  take (length src) (ram_content v g) = src →
  ∃ v', vfs_read img env file false (Z.of_nat (length src)) v =
    Ret (Done (Z.of_nat (length src), src, v')).
Proof.
  intros Hok Hf Hb Hri Hg Ho Hne Hsz Hsrc. pose proof Hok as [Hi Hl]. destruct (vi_files _ Hi file f Hf) as [H0 _].
  assert (0 < Z.of_nat (length src)) as Hlen by (destruct src; [done|simpl; lia]).
  unfold vfs_read. rewrite (proj2 (Z.eqb_neq file 0) H0), (proj2 (Z.eqb_neq _ 0)) by lia. cbn [orb].
  rewrite (deref_Some _ _ _ Hf). cbn [mbind result_bind]. rewrite Hb, Hri, Hg, Ho.
  unfold ramfs_read. cbn [ramfs_files]. rewrite Hg, (proj2 (Z.eqb_neq _ 0)) by lia. cbn [orb].
  pose proof (vfs_ok_ram v h others Hok) as Hram. pose proof (ro_files _ _ Hram i g Hg) as Hfo.
  pose proof (length_content (ramfs_of v h) g Hfo) as Hlc. change (content (ramfs_of v h) g) with (ram_content v g) in Hlc.
  assert (length src ≤ Z.to_nat (rf_size g))%nat as Hle.
  { rewrite <- Hlc, <- Hsrc at 1. rewrite length_take. lia. }
  pose proof (fo_size _ _ Hfo) as Hs.
  rewrite (proj2 (Z.leb_gt (rf_size g) 0)), w64_small by lia.
  rewrite (proj2 (Z.ltb_ge _ _)) by lia. eexists. f_equal. f_equal. f_equal. f_equal.
  unfold slice, buf_of. cbn [bufs]. rewrite Nat2Z.id. change (Z.to_nat 0) with 0%nat. rewrite drop_0.
  rewrite <- Hsrc at 2. unfold ram_content. rewrite take_take. f_equal. lia.
Qed.
(** C26: end to end through a RAM file: after opening a path that names one and
    writing [src] to it, opening any path with the same normal form gives a
    file from which a read returns exactly [src]. *)
Theorem vfs_ram_roundtrip path path' np d d' src v h others file f v1 h1 :
  vfs_ok v h others → al_room h SIZEOF_VFS_FILE 16 → room_for [SIZEOF_FAT_FILE; SIZEOF_VFS_FILE] h →
  normalize_path path VFS_PATH_MAX = Some (np, d) → normalize_path path' VFS_PATH_MAX = Some (np, d') →
  vfs_open img (Some path) v h = Ret (SYSCALL_OK, file, v1, h1) → files v1 !! file = Some f →
  backend f = VFS_BACKEND_RAMFS → src ≠ [] → ram_room v1 h1 f src →
  ensures (vfs_write [] file (Some src) v1 h1) (λ o, ∃ v2 h2, o = Done (Z.of_nat (length src), v2, h2) ∧
    ∀ file' f' v3 h3, al_room h2 SIZEOF_VFS_FILE 16 → room_for [SIZEOF_FAT_FILE; SIZEOF_VFS_FILE] h2 →
      vfs_open img (Some path') v2 h2 = Ret (SYSCALL_OK, file', v3, h3) → files v3 !! file' = Some f' →
      backend f' = VFS_BACKEND_RAMFS →
      ∃ v4, vfs_read img [] file' false (Z.of_nat (length src)) v3 =
        Ret (Done (Z.of_nat (length src), src, v4))).
Proof using AL.
  intros Hok Hr Hrf Hn Hn' Eo Hf Hb Hne Hroom.
  pose proof (vfs_open_core img path others v h Hok Hr Hrf) as Hpost. rewrite Eo in Hpost.
  destruct (opened_file path others v h file v1 h1 f Hpost Hf) as (Hok1 & _ & Ho & Hs).
  unfold stands_for in Hs. rewrite Hb in Hs. destruct Hs as (np0 & d0 & i & g & En & Hri & Hg & Hu & Hc).
  assert (np0 = np) as -> by congruence. destruct (Hroom Hb i g Hri Hg) as [Hbound _].
  eapply ensures_mono; [by eapply (vfs_write_ram [] file f src v1 h1 others i g)|].
  intros o (v2 & h2 & g' & -> & Hok2 & Efs & Ep & Eu & Hcont & _ & _). exists v2, h2. split; [done|].
  intros file' f' v3 h3 Hr2 Hrf2 Eo2 Hf' Hb'.
  pose proof (vfs_open_core img path' others v2 h2 Hok2 Hr2 Hrf2) as Hpost2. rewrite Eo2 in Hpost2.
  destruct (opened_file path' others v2 h2 file' v3 h3 f' Hpost2 Hf') as (Hok3 & [Kb Kf] & Ho' & Hs').
  unfold stands_for in Hs'. rewrite Hb' in Hs'. destruct Hs' as (np1 & d1 & j & x & En' & Hrj & Hx & Hux & Hcx).
  assert (np1 = np) as -> by congruence.
  assert (ram_files v2 !! i = Some g') as Hg2.
  { rewrite Efs. apply list_lookup_insert_eq. by eapply lookup_lt_Some. }
  pose proof (Kf i g' Hg2 Eu) as Hg3.
  assert (j = i) as -> by (apply (ram_name_unique v3 h3 others j i x g'); try done; congruence).
  assert (x = g') as -> by congruence.
  assert (ram_content v3 g' = ram_content v2 g') as Ec by (unfold ram_content; by rewrite Kb).
  rewrite Ho in *. change (Z.to_nat 0) with 0%nat in Hcont.
  pose proof (length_content _ g (ro_files _ _ (vfs_ok_ram v1 h1 others Hok1) i g Hg)) as Hl1.
  pose proof (length_content _ g' (ro_files _ _ (vfs_ok_ram v2 h2 others Hok2) i g' Hg2)) as Hl2.
  pose proof (fo_size _ _ (ro_files _ _ (vfs_ok_ram v1 h1 others Hok1) i g Hg)) as Hz1.
  pose proof (fo_size _ _ (ro_files _ _ (vfs_ok_ram v2 h2 others Hok2) i g' Hg2)) as Hz2.
  change (content (ramfs_of v2 h2) g') with (ram_content v2 g') in Hl2.
  change (content (ramfs_of v1 h1) g) with (ram_content v1 g) in Hl1.
  rewrite Hcont in Hl2. unfold overlay in *. rewrite take_0 in Hcont, Hl2. cbn [app] in Hcont, Hl2.
  rewrite length_app, length_drop in Hl2.
  assert (0 < Z.of_nat (length src)) as Hlen by (destruct src; [done|simpl; lia]).
  apply (vfs_read_ram [] file' f' v3 h3 others i g' src); try done; [lia|].
  rewrite Ec, Hcont. by rewrite take_app_length.
Qed.

(** ** A pipe from creation to the last close *)

Lemma fill_fits src :
  (length src ≤ Z.to_nat PIPE_SIZE)%nat →
  ∃ P, write_loop [] pipe_alloc_struct src 0 = Done (Z.of_nat (length src), P) ∧ pipe_wf P ∧
    contents P = src ∧ same_ends pipe_alloc_struct P.
Proof.
  intros Hl. destruct pipe_alloc_struct_wf as [Hwf Hc0]. cbn [write_loop].
  destruct (fill pipe_alloc_struct src) as [rest P] eqn:E.
  pose proof (pipe_fill_spec _ _ _ _ Hwf E) as (Hwf' & (dn & -> & Hc) & Hfull & Er & Ew).
  rewrite Hc0 in Hc. cbn [app] in Hc.
  assert (rest = []) as ->.
  { destruct rest as [|c rest]; [done|exfalso]. specialize (Hfull ltac:(done)).
    pose proof (length_contents P (proj1 (pw_used _ Hwf'))) as Hu. rewrite Hc, Hfull in Hu.
    rewrite length_app in Hl. simpl in Hl. lia. }
  exists P. rewrite app_nil_r in *. split_and!; [f_equal; f_equal; simpl; lia|done|done|done].
Qed.

Lemma read_all src P :
  pipe_wf P → contents P = src → src ≠ [] →
  ∃ P', pipe_read_impl [] (Some P) false (Z.of_nat (length src)) =
    Done (Z.of_nat (length src), src, Some P') ∧ same_ends P P'.
Proof.
  intros Hwf Hc Hne. pose proof (length_contents P (proj1 (pw_used _ Hwf))) as Hu. rewrite Hc in Hu.
  assert (0 < Z.of_nat (length src)) as Hlen by (destruct src; [done|simpl; lia]).
  unfold pipe_read_impl. cbn [pipe_read_loop]. rewrite (proj2 (Z.eqb_neq _ 0)) by lia. rewrite Nat2Z.id.
  destruct (read_loop (length src) P) as [out P'] eqn:E.
  pose proof (read_loop_spec _ _ _ _ Hwf E) as (Hwf' & Hout & Hl & Er & Ew). rewrite Hc, Nat.min_id in *.
  assert (out = src) as ->.
  { rewrite <- (take_app_length out (contents P')), <- Hout, Hl. by rewrite take_ge. }
  exists P'. done.
Qed.
(** The open ends determine which pipes there are. *)
Lemma pipes_dom v v' :
  vfs_inv (H := H) v → vfs_inv (H := H) v' → files v = files v' → dom (pipes v) = dom (pipes v').
Proof.
  assert (∀ w w' : vfs D S, vfs_inv (H := H) w → vfs_inv (H := H) w' → files w = files w' →
    ∀ a, is_Some (pipes w !! a) → is_Some (pipes w' !! a)) as Hsub.
  { intros w w' Hw Hw' E a [P HP]. destruct (vi_pipes _ Hw a P HP) as (_ & _ & _ & [Ho|Ho]);
      destruct Ho as (p & f & Hf & Hb & <- & _); rewrite E in Hf; by apply (vi_files _ Hw' p f Hf). }
  intros Hv Hv' E. apply set_eq. intros a. rewrite !elem_of_dom. split; by apply Hsub.
Qed.

Lemma vfs_write_pipe v h others p f P src :
  vfs_ok v h others → files v !! p = Some f → backend f = VFS_BACKEND_PIPE → pipes v !! pipe_ f = Some P →
  src ≠ [] → readers P ≠ 0 →
  vfs_write [] p (Some src) v h = Ret (match write_loop [] P src 0 with
    | Done (n, P') => Done (n, with_pipes v (<[pipe_ f := P']> (pipes v)), h)
    | Waiting (n, P') => Waiting (n, with_pipes v (<[pipe_ f := P']> (pipes v)), h)
    | Spinning => Spinning
    end).
Proof.
  intros [Hi Hl] Hf Hb HP Hne Hr. destruct (vi_files _ Hi p f Hf) as [H0 _].
  assert (0 < Z.of_nat (length src)) as Hlen by (destruct src; [done|simpl; lia]).
  assert (pipe_ f ≠ 0) as Ha0 by (intros E; rewrite E, (vi_pipes0 _ Hi) in HP; done).
  unfold vfs_write. rewrite (proj2 (Z.eqb_neq p 0) H0), (proj2 (Z.eqb_neq _ 0)) by lia.
  rewrite (deref_Some _ _ _ Hf). cbn [mbind result_bind].
  rewrite Hb, (proj2 (Z.eqb_neq _ 0) Ha0), (deref_Some _ _ _ HP). cbn [mbind result_bind].
  unfold pipe_write_impl. rewrite (proj2 (Z.eqb_neq _ 0) Hr). by destruct (write_loop [] P src 0) as [[]|[]|].
Qed.

Lemma vfs_read_pipe v h others p f P len n out P' :
  vfs_ok v h others → files v !! p = Some f → backend f = VFS_BACKEND_PIPE → pipes v !! pipe_ f = Some P →
  0 < len → pipe_read_impl [] (Some P) false len = Done (n, out, Some P') →
  vfs_read img [] p false len v = Ret (Done (n, out, with_pipes v (<[pipe_ f := P']> (pipes v)))).
Proof.
  intros [Hi Hl] Hf Hb HP Hlen E. destruct (vi_files _ Hi p f Hf) as [H0 _].
  assert (pipe_ f ≠ 0) as Ha0 by (intros E0; rewrite E0, (vi_pipes0 _ Hi) in HP; done).
  unfold vfs_read. rewrite (proj2 (Z.eqb_neq p 0) H0), (proj2 (Z.eqb_neq _ 0)) by lia. cbn [orb].
  rewrite (deref_Some _ _ _ Hf). cbn [mbind result_bind].
  rewrite Hb, (proj2 (Z.eqb_neq _ 0) Ha0), (deref_Some _ _ _ HP). cbn [mbind result_bind]. by rewrite E.
Qed.

(** a pipe from creation to the last close: what is written at one end (up
    to the capacity) comes out at the other in order, and after both ends are
    closed the files are those before, the pipe is gone and every heap block
    is returned. *)
Theorem vfs_pipe_roundtrip src v h others rd wr v1 h1 :
  vfs_ok v h others → room_for [SIZEOF_PIPE; SIZEOF_VFS_FILE; SIZEOF_VFS_FILE] h →
  pipe_create v h = Ret (0, rd, wr, v1, h1) → src ≠ [] → (length src ≤ Z.to_nat PIPE_SIZE)%nat →
  ∃ v2 v3 v4 h4 v5 h5,
    vfs_write [] wr (Some src) v1 h1 = Ret (Done (Z.of_nat (length src), v2, h1)) ∧
    vfs_read img [] rd false (Z.of_nat (length src)) v2 = Ret (Done (Z.of_nat (length src), src, v3)) ∧
    vfs_close wr v3 h1 = Ret (v4, h4) ∧ vfs_close rd v4 h4 = Ret (v5, h5) ∧
    vfs_ok v5 h5 others ∧ files v5 = files v ∧ dom (pipes v5) = dom (pipes v).
Proof using AL.
  intros Hok Hroom Ec Hne Hl. pose proof (pipe_create_core others v h Hok Hroom) as Hpost. rewrite Ec in Hpost.
  destruct Hpost as (_ & Hok1 & _ & _ & Hrw & Hnr & Hnw & a & _ & Hna & Ep & Ef).
  assert (0 < Z.of_nat (length src)) as Hlen by (destruct src; [done|simpl; lia]).
  assert (files v1 !! wr = Some (set_pipe a true (new_file VFS_BACKEND_PIPE)) ∧
    files v1 !! rd = Some (set_pipe a false (new_file VFS_BACKEND_PIPE))) as [Hw1 Hr1].
  { rewrite Ef. by rewrite lookup_insert_eq, lookup_insert_ne, lookup_insert_eq. }
  assert (pipes v1 !! a = Some pipe_alloc_struct) as Hp1 by (rewrite Ep; by rewrite lookup_insert_eq).
  destruct (fill_fits src Hl) as (P & EP & HwfP & HcP & HsP).
  pose proof (vfs_write_pipe v1 h1 others wr _ pipe_alloc_struct src Hok1 Hw1 eq_refl Hp1 Hne ltac:(done)) as E1.
  rewrite EP in E1. cbn [pipe_ set_pipe] in E1. set (v2 := with_pipes v1 (<[a := P]> (pipes v1))) in E1.
  assert (vfs_ok v2 h1 others) as Hok2 by (by apply (vfs_ok_pipe v1 h1 others a pipe_alloc_struct P)).
  assert (pipes v2 !! a = Some P) as Hp2 by (subst v2; cbn; by rewrite lookup_insert_eq).
  destruct (read_all src P HwfP HcP Hne) as (P' & EP' & HsP').
  pose proof (vfs_read_pipe v2 h1 others rd _ P _ _ _ P' Hok2 Hr1 eq_refl Hp2 Hlen EP') as E2.
  cbn [pipe_ set_pipe] in E2. set (v3 := with_pipes v2 (<[a := P']> (pipes v2))) in E2.
  assert (vfs_ok v3 h1 others) as Hok3 by (by apply (vfs_ok_pipe v2 h1 others a P P')).
  destruct (vfs_close_core v3 h1 others wr _ Hok3 Hw1) as (v4 & h4 & E3 & Hok4 & _ & _ & Hd4).
  specialize (Hd4 eq_refl). assert (files v4 !! rd = Some (set_pipe a false (new_file VFS_BACKEND_PIPE))) as Hr4.
  { rewrite Hd4. rewrite lookup_delete_ne by done. exact Hr1. }
  destruct (vfs_close_core v4 h4 others rd _ Hok4 Hr4) as (v5 & h5 & E4 & Hok5 & _ & _ & Hd5).
  specialize (Hd5 eq_refl). assert (files v5 = files v) as Ef5.
  { rewrite Hd5, Hd4. change (files v3) with (files v1). rewrite Ef, delete_insert_id.
    - by rewrite delete_insert_id.
    - by rewrite lookup_insert_ne. }
  exists v2, v3, v4, h4, v5, h5. split_and!; try done. apply pipes_dom; [apply Hok5|apply Hok|done].
Qed.
End Io.
End VfsIo.
