(* ===== verification/Handles.v ===== *)
(** * The table of open files (src/kernel/syscall.c)

    128 handles that threads share by reference count: the terminal, or a file
    of the virtual file system.  The table is what the scheduler acquires and
    releases descriptors of. *)

From S2P Require Import Prelude CString Bytes Paths Pipe Memfs Alloc Sched SchedList SchedInv.
From S2P Require Import Ramfs RamfsSpec State Fat Vfs VfsInv.
From stdpp Require Import options.
Import Sched SchedInv Vfs VfsInv.

Module Handles.

Inductive handle_type := HANDLE_FREE | HANDLE_TTY | HANDLE_VFS.
#[export] Instance handle_type_eq : EqDecision handle_type.
Proof. solve_decision. Defined.

Record handle := mk_handle {
  type : handle_type;
  file : Z;
  owner_pid : Z;
  hrefcount : Z;
}.

Definition free_handle : handle := mk_handle HANDLE_FREE 0 0 0.

(** The static variables of syscall.c and the file system below them. *)
Record table (D S : Type) := mk_table {
  handles : list handle;
  handles_ready : bool;
  tvfs : vfs D S;
}.
Arguments mk_table {_ _} _ _ _.
Arguments handles {_ _} _.
Arguments handles_ready {_ _} _.
Arguments tvfs {_ _} _.

Section Ops.
Context {H D S : Type} `{!Allocator H} `{!SectorDev D S}.
Implicit Types t : table D S.

Definition with_handles t (l : list handle) : table D S := mk_table l (handles_ready t) (tvfs t).
Definition with_vfs t (v : vfs D S) : table D S := mk_table (handles t) (handles_ready t) v.
Definition hnd t (i : Z) : handle := nth (Z.to_nat i) (handles t) free_handle.
Definition set_handle t (i : Z) (x : handle) : table D S :=
  with_handles t (<[Z.to_nat i := x]> (handles t)).

Definition syscall_acquire_handle (id : Z) t : table D S :=
  if (id <? 0) || (HANDLE_MAX <=? id) then t
  else if negb (bool_decide (type (hnd t id) = HANDLE_FREE)) then
    let x := hnd t id in set_handle t id (mk_handle (type x) (file x) (owner_pid x) (hrefcount x + 1))
  else t.

Definition syscall_release_handle (id : Z) t (h : H) : result (table D S * H) :=
  if (id <? 0) || (HANDLE_MAX <=? id) then Ret (t, h)
  else if bool_decide (type (hnd t id) = HANDLE_FREE) then Ret (t, h)
  else
    let x := hnd t id in
    let x := mk_handle (type x) (file x) (owner_pid x) (hrefcount x - 1) in
    let t := set_handle t id x in
    if hrefcount x <=? 0 then
      '(v, h) ← (if bool_decide (type x = HANDLE_VFS) then vfs_close (file x) (tvfs t) h else Ret (tvfs t, h));
      Ret (set_handle (with_vfs t v) id free_handle, h)
    else Ret (t, h).

(** [refcount] is not written. *)
Definition handles_init t : table D S :=
  let l := (λ x, mk_handle HANDLE_FREE 0 0 (hrefcount x)) <$> handles t in
  let tty i l := alter (λ x, mk_handle HANDLE_TTY (file x) 0 (hrefcount x)) i l in
  mk_table (tty 2%nat (tty 1%nat (tty 0%nat l))) true (tvfs t).

Definition handle_alloc (ty : handle_type) (f pid_ : Z) t : Z * table D S :=
  match find_range 0 HANDLE_MAX (λ i, bool_decide (type (hnd t i) = HANDLE_FREE)) with
  | Some i => (i, set_handle t i (mk_handle ty f pid_ 1))
  | None => (-1, t)
  end.

(** [pid_] is the current thread's. *)
Definition handle_valid (fd pid_ : Z) t : Z :=
  if (fd <? 0) || (HANDLE_MAX <=? fd) || bool_decide (type (hnd t fd) = HANDLE_FREE) then 0
  else if (owner_pid (hnd t fd) =? 0) || (owner_pid (hnd t fd) =? pid_) then 1 else 0.

(** The scheduler's interface. *)
#[export] Instance handle_table : FileTable H (table D S) := {
  ft_acquire := syscall_acquire_handle;
  ft_release := syscall_release_handle;
}.
End Ops.

(** ** The invariant *)

Section Inv.
Context {H D S : Type} `{!Allocator H} {AL : AllocatorLaws H} `{!SectorDev D S}.
Implicit Types t : table D S.

(** A handle to a file owns a reference of its own. *)
Record handles_ok t : Prop := {
  hk_length : length (handles t) = Z.to_nat HANDLE_MAX;
  hk_file : ∀ i x, handles t !! i = Some x → type x = HANDLE_VFS → is_Some (files (tvfs t) !! file x);
  hk_one : ∀ i j x y, handles t !! i = Some x → handles t !! j = Some y →
    type x = HANDLE_VFS → type y = HANDLE_VFS → file x = file y → i = j;
}.

Lemma hnd_lookup t i : length (handles t) = Z.to_nat HANDLE_MAX → 0 ≤ i < HANDLE_MAX →
  handles t !! Z.to_nat i = Some (hnd t i).
Proof.
  intros Hl Hi. unfold hnd. rewrite nth_lookup.
  destruct (lookup_lt_is_Some_2 (handles t) (Z.to_nat i)) as [x ->]; [lia|done].
Qed.

Lemma set_handle_lookup t i x j y :
  handles (set_handle t i x) !! j = Some y → (j = Z.to_nat i ∧ y = x) ∨ (j ≠ Z.to_nat i ∧ handles t !! j = Some y).
Proof.
  cbn [handles set_handle with_handles]. intros Hj. destruct (decide (j = Z.to_nat i)) as [->|Hne].
  - left. split; [done|]. destruct (decide (Z.to_nat i < length (handles t))%nat) as [Hlt|Hge].
    + rewrite list_lookup_insert_eq in Hj by done. congruence.
    + apply lookup_lt_Some in Hj. rewrite length_insert in Hj. lia.
  - right. split; [done|]. by rewrite list_lookup_insert_ne in Hj.
Qed.

(** Replacing a handle by one to the same file or to none. *)
Lemma set_handle_ok t i x :
  handles_ok t → 0 ≤ i < HANDLE_MAX →
  (type x = HANDLE_VFS → type (hnd t i) = HANDLE_VFS ∧ file x = file (hnd t i)) →
  handles_ok (set_handle t i x).
Proof.
  intros [K1 K2 K3] Hi Hx. pose proof (hnd_lookup t i K1 Hi) as Hl. split.
  - cbn. by rewrite length_insert.
  - intros j y [[-> ->]|[_ Hj]]%set_handle_lookup Hy; [|by eapply K2].
    destruct (Hx Hy) as [Ht ->]. by apply (K2 _ _ Hl).
  - intros j k y z [[-> ->]|[_ Hj]]%set_handle_lookup [[-> ->]|[_ Hk]]%set_handle_lookup Hy Hz Ef; [done|..].
    + destruct (Hx Hy) as [Ht Ef']. apply (K3 _ _ _ _ Hl Hk Ht Hz). congruence.
    + destruct (Hx Hz) as [Ht Ef']. apply (K3 _ _ _ _ Hj Hl Hy Ht). congruence.
    + by apply (K3 _ _ _ _ Hj Hk).
Qed.

(** The table and its file system; [bs] are the blocks they hold. *)
Definition table_ok t (bs : list Z) : Prop := handles_ok t ∧ vfs_inv (H := H) (tvfs t) ∧ bs = blocks (tvfs t).

Lemma acquire_ok id t bs : table_ok t bs → table_ok (syscall_acquire_handle id t) bs.
Proof.
  intros (Hh & Hv & ->). unfold syscall_acquire_handle. destruct ((id <? 0) || _) eqn:E; [done|].
  apply orb_false_iff in E as [E1%Z.ltb_ge E2%Z.leb_gt]. destruct (negb _); [|done].
  split_and!; [|done|done]. apply set_handle_ok; [done|lia|]. done.
Qed.

(** A handle that no longer refers to a file lets the file go. *)
Lemma release_vfs t id h ps :
  handles_ok t → vfs_inv (H := H) (tvfs t) → al_live h (blocks (tvfs t) ++ ps) → 0 ≤ id < HANDLE_MAX →
  type (hnd t id) = HANDLE_VFS →
  ∃ v' h', vfs_close (file (hnd t id)) (tvfs t) h = Ret (v', h') ∧ vfs_inv (H := H) v' ∧
    al_live h' (blocks v' ++ ps) ∧ handles_ok (set_handle (with_vfs t v') id free_handle).
Proof using AL.
  intros Hh Hv Hl Hi Ht. pose proof Hh as [K1 K2 K3]. pose proof (hnd_lookup t id K1 Hi) as Hx.
  destruct (K2 _ _ Hx Ht) as [f Hf].
  destruct (vfs_close_core (tvfs t) h ps _ f (conj Hv Hl) Hf) as (v' & h' & E & [Hv' Hl'] & _ & H1 & H2).
  exists v', h'. split_and!; [done|done|done|]. split.
  - cbn. by rewrite length_insert.
  - intros j y [[-> ->]|[Hne Hj]]%set_handle_lookup Hy; [done|]. cbn [tvfs set_handle with_handles with_vfs].
    pose proof (K2 _ _ Hj Hy) as Hsome. destruct (vi_files _ Hv _ f Hf) as [_ Hfo]. pose proof (vf_ref _ _ Hfo) as Hr.
    assert (file y ≠ file (hnd t id)) as Hfne by (intros Ef; apply Hne; by apply (K3 _ _ _ _ Hj Hx)).
    destruct (decide (1 < refcount f)) as [Hlt|Hge].
    + rewrite (H1 Hlt), lookup_alter_ne by done. done.
    + rewrite (H2 ltac:(lia)), lookup_delete_ne by done. done.
  - intros j k y z [[-> ->]|[_ Hj]]%set_handle_lookup [[-> ->]|[_ Hk]]%set_handle_lookup Hy Hz Ef; try done.
    by apply (K3 _ _ _ _ Hj Hk).
Qed.

(** One reference less; the last one frees the handle. *)
Definition released (id : Z) (l : list handle) : list handle :=
  if (id <? 0) || (HANDLE_MAX <=? id) then l
  else alter (λ x, if bool_decide (type x = HANDLE_FREE) then x
                   else if hrefcount x <=? 1 then free_handle
                   else mk_handle (type x) (file x) (owner_pid x) (hrefcount x - 1)) (Z.to_nat id) l.

Lemma released_eq t id :
  handles_ok t → 0 ≤ id < HANDLE_MAX → type (hnd t id) ≠ HANDLE_FREE →
  released id (handles t) = <[Z.to_nat id := if hrefcount (hnd t id) <=? 1 then free_handle
    else mk_handle (type (hnd t id)) (file (hnd t id)) (owner_pid (hnd t id)) (hrefcount (hnd t id) - 1)]> (handles t).
Proof.
  intros Hh Hi Ht. pose proof (hnd_lookup t id (hk_length _ Hh) Hi) as Hl. unfold released.
  rewrite (proj2 (Z.ltb_ge id 0)), (proj2 (Z.leb_gt _ id)) by lia. cbn [orb].
  apply list_eq. intros j. destruct (decide (Z.to_nat id = j)) as [<-|Hne].
  - rewrite list_lookup_alter_eq, Hl, list_lookup_insert_eq by (by eapply lookup_lt_Some). cbn.
    by rewrite bool_decide_false.
  - by rewrite list_lookup_alter_ne, list_lookup_insert_ne.
Qed.

Lemma released_free t id :
  handles_ok t → (0 ≤ id < HANDLE_MAX → type (hnd t id) = HANDLE_FREE) → released id (handles t) = handles t.
Proof.
  intros Hh Ht. unfold released. destruct ((id <? 0) || _) eqn:E; [done|].
  apply orb_false_iff in E as [E1%Z.ltb_ge E2%Z.leb_gt].
  pose proof (hnd_lookup t id (hk_length _ Hh) ltac:(lia)) as Hl.
  apply list_eq. intros j. destruct (decide (Z.to_nat id = j)) as [<-|Hne]; [|by rewrite list_lookup_alter_ne].
  rewrite list_lookup_alter_eq, Hl. cbn. by rewrite bool_decide_true by (apply Ht; lia).
Qed.

Lemma release_ok id t h bs ps :
  table_ok t bs → al_live h (bs ++ ps) →
  ∃ t' h' bs', syscall_release_handle id t h = Ret (t', h') ∧ table_ok t' bs' ∧ al_live h' (bs' ++ ps) ∧
    handles t' = released id (handles t).
Proof using AL.
  intros (Hh & Hv & ->) Hl. unfold syscall_release_handle. destruct ((id <? 0) || _) eqn:E.
  { exists t, h, (blocks (tvfs t)). unfold released. by rewrite E. }
  apply orb_false_iff in E as [E1%Z.ltb_ge E2%Z.leb_gt].
  destruct (decide (type (hnd t id) = HANDLE_FREE)) as [Hf|Hf];
    [rewrite (bool_decide_true _ Hf)|rewrite (bool_decide_false _ Hf)].
  { exists t, h, (blocks (tvfs t)). by rewrite released_free. }
  cbv zeta. set (x := mk_handle (type (hnd t id)) _ _ (hrefcount (hnd t id) - 1)).
  rewrite (released_eq t id Hh ltac:(lia) Hf). fold x.
  assert (handles_ok (set_handle t id x)) as Hh1 by (apply set_handle_ok; [done|lia|done]).
  replace (hrefcount (hnd t id) <=? 1) with (hrefcount x <=? 0)
    by (subst x; cbn; destruct (Z.leb_spec (hrefcount (hnd t id) - 1) 0), (Z.leb_spec (hrefcount (hnd t id)) 1); lia || done).
  destruct (hrefcount x <=? 0); [|by exists (set_handle t id x), h, (blocks (tvfs t))].
  assert (hnd (set_handle t id x) id = x) as Ex.
  { unfold hnd. cbn. rewrite nth_lookup, list_lookup_insert_eq; [done|]. rewrite (hk_length _ Hh). lia. }
  destruct (decide (type x = HANDLE_VFS)) as [Ht|Ht];
    [rewrite (bool_decide_true _ Ht)|rewrite (bool_decide_false _ Ht)].
  - destruct (release_vfs (set_handle t id x) id h ps Hh1 Hv Hl ltac:(lia) ltac:(by rewrite Ex))
      as (v' & h' & E & Hv' & Hl' & Hh').
    rewrite Ex in E. rewrite E. cbn [mbind result_bind]. eexists _, h', (blocks v'). split_and!; try done.
    cbn. by rewrite list_insert_insert_eq.
  - cbn [mbind result_bind]. eexists _, h, (blocks (tvfs t)). split; [done|].
    split; [|split; [done|cbn; by rewrite list_insert_insert_eq]].
    split_and!; [|done|done]. apply set_handle_ok; [by destruct Hh1|lia|done].
Qed.

Lemma release_law id t h bs ps :
  table_ok t bs → al_live h (bs ++ ps) →
  ∃ t' h' bs', syscall_release_handle id t h = Ret (t', h') ∧ table_ok t' bs' ∧ al_live h' (bs' ++ ps).
Proof using AL.
  intros Ht Hl. destruct (release_ok id t h bs ps Ht Hl) as (t' & h' & bs' & ? & ? & ? & _). by exists t', h', bs'.
Qed.

(** The handle table is a table of open files as the scheduler needs it. *)
#[export] Instance handle_table_laws : FileTableLaws H (table D S) := {
  ft_ok := table_ok;
  ft_acquire_ok := acquire_ok;
  ft_release_ok := release_law;
}.


(** the terminal's handles are created without a reference while the
    threads created earlier already use them: once a child that inherited one
    of them exits, the handle is free, although its parent still has it. *)
Theorem tty_handle_lost t i h :
  length (handles t) = Z.to_nat HANDLE_MAX → Forall (λ x, hrefcount x = 0) (handles t) → 0 ≤ i < 3 →
  type (hnd (handles_init t) i) = HANDLE_TTY ∧
  ∃ t', syscall_release_handle i (syscall_acquire_handle i (handles_init t)) h = Ret (t', h) ∧
    type (hnd t' i) = HANDLE_FREE.
Proof.
  intros Hl Hr Hi.
  assert (∃ x, handles (handles_init t) !! Z.to_nat i = Some x ∧ type x = HANDLE_TTY ∧ hrefcount x = 0) as (x & Hx & Ht & H0).
  { unfold handles_init. cbn [handles].
    destruct (lookup_lt_is_Some_2 (handles t) (Z.to_nat i)) as [y Hy]; [rewrite Hl; unfold HANDLE_MAX; lia|].
    pose proof (Forall_lookup_1 _ _ _ _ Hr Hy) as Hy0. cbv beta in Hy0.
    eexists. assert (Z.to_nat i = 0 ∨ Z.to_nat i = 1 ∨ Z.to_nat i = 2)%nat as [E|[E|E]] by lia; rewrite E in *;
      repeat first [rewrite list_lookup_alter_eq | rewrite list_lookup_alter_ne by done];
      rewrite list_lookup_fmap, Hy; cbn; done. }
  assert (hnd (handles_init t) i = x) as Eh by (unfold hnd; by rewrite nth_lookup, Hx).
  split; [by rewrite Eh|].
  assert (length (handles (handles_init t)) = Z.to_nat HANDLE_MAX) as Hl'.
  { unfold handles_init. cbn [handles]. rewrite !length_alter, length_fmap. done. }
  unfold HANDLE_MAX in *. unfold syscall_acquire_handle.
  rewrite (proj2 (Z.ltb_ge i 0)), (proj2 (Z.leb_gt _ i)), Eh, Ht by (unfold HANDLE_MAX; lia).
  rewrite bool_decide_false by done. cbn [orb negb]. set (t1 := set_handle _ i _).
  assert (hnd t1 i = mk_handle HANDLE_TTY (file x) (owner_pid x) (hrefcount x + 1)) as E1.
  { unfold hnd. subst t1. cbn [handles set_handle with_handles]. rewrite nth_lookup, list_lookup_insert_eq; [done|]. rewrite Hl'. lia. }
  unfold syscall_release_handle. rewrite (proj2 (Z.ltb_ge i 0)), (proj2 (Z.leb_gt _ i)) by (unfold HANDLE_MAX; lia).
  cbn [orb]. rewrite E1. cbn [type hrefcount]. rewrite bool_decide_false by done. rewrite H0. cbv zeta.
  change (0 + 1 - 1 <=? 0) with true. rewrite bool_decide_false by done. cbn [mbind result_bind].
  eexists. split; [done|]. unfold hnd. cbn [handles set_handle with_handles with_vfs]. rewrite nth_lookup, list_lookup_insert_eq; [done|].
  rewrite length_insert. subst t1. cbn [handles set_handle with_handles]. rewrite length_insert, Hl'. lia.
Qed.
End Inv.
End Handles.
