(* ===== verification/UserPtr.v ===== *)
(** * Pointers from user programs (src/kernel/syscall.c)

    The checks and copies the system calls make before they touch user
    memory.  The kernel reads and writes user memory through the page tables
    of the current address space; an access the processor would refuse is the
    error [FAULT]. *)

From S2P Require Import Prelude Memory Pmm Mmu MmuTree MmuOps MmuMap MmuSpaces PageFault UserSpace.
From S2P Require Import CString Bytes Paths Elf Memfs User.
From stdpp Require Import options.
Import Pmm Mmu MmuTree MmuOps MmuSpaces UserSpace CString Bytes Paths User.

Module UserPtr.

Definition USER_PATH_MAX : Z := 64.
Definition USER_STR_MAX : Z := 64.

Definition FAULT : string := "page fault".

(** ** The check *)

(** [while (addr < end)]; [None] when the fuel runs out. *)
Fixpoint range_loop (fuel : nat) (m : memory) (pml4_phys addr end_ : Z) : option bool :=
  if addr <? end_ then
    match fuel with
    | O => None
    | S fuel' =>
        if negb (user_page_present m pml4_phys addr) then Some false
        else
          let next := w64 (Z.land addr (not64 0xFFF) + 0x1000) in
          if next <=? addr then Some false else range_loop fuel' m pml4_phys next end_
    end
  else Some true.

(** The loop needs one step per page; [range_loop_spec] shows that the fuel
    is enough. *)
Definition user_ptr_range (m : memory) (pml4_phys ptr len : Z) : bool :=
  if len =? 0 then false
  else if ptr <? USER_BASE then false
  else if w64 (ptr + len) <? ptr then false
  else if USER_STACK_TOP <? w64 (ptr + len) then false
  else default false (range_loop (Z.to_nat (len / 4096 + 3)) m pml4_phys ptr (w64 (ptr + len))).

(** ** Accesses *)

(** [*(uint8_t * )a] in the address space [root]. *)
Definition user_byte (m : memory) (root a : Z) : result Z :=
  match hw_translate m root a with
  | Some (f, _) => Ret (rd8 m (f + a mod 4096))
  | None => Panic FAULT a
  end.

Fixpoint user_read (n : nat) (m : memory) (root a : Z) : result (list Z) :=
  match n with
  | O => Ret []
  | S n' => c ← user_byte m root a; l ← user_read n' m root (a + 1); Ret (c :: l)
  end.

(** A store, refused on a page that is not writable (CR0.WP is set). *)
Definition user_store (m : memory) (root a c : Z) : result memory :=
  match hw_translate m root a with
  | Some (f, fl) => if has fl PTE_RW then Ret (wr8 m (f + a mod 4096) c) else Panic FAULT a
  | None => Panic FAULT a
  end.

Fixpoint user_write (l : list Z) (m : memory) (root a : Z) : result memory :=
  match l with
  | [] => Ret m
  | c :: l' => m ← user_store m root a c; user_write l' m root (a + 1)
  end.

(** Little-endian words. *)
Fixpoint le_value (l : list Z) : Z := match l with [] => 0 | c :: l' => c + 256 * le_value l' end.

(** ** Copies *)

(** [for (i = 0; i + 1 < dst_len; ++i)] with [n] steps left; the value returned
    and the bytes stored. *)
Fixpoint str_loop (n : nat) (m : memory) (root addr : Z) : result (Z * list Z) :=
  match n with
  | O => Ret (-1, [])
  | S n' =>
      if negb (user_ptr_range m root addr 1) then Ret (-1, [])
      else
        c ← user_byte m root addr;
        if c =? 0 then Ret (0, [c])
        else '(r, l) ← str_loop n' m root (w64 (addr + 1)); Ret (r, c :: l)
  end.

(** The value returned and the start of [dst]. *)
Definition user_str_copy (m : memory) (root user dst_len : Z) : result (Z * list Z) :=
  if (user =? 0) || (dst_len =? 0) then Ret (-1, [])
  else str_loop (Z.to_nat (dst_len - 1)) m root user.

(** [for (i = 0; i < max; ++i)] with [n] steps left: the strings copied, [None]
    for the value -1. *)
Fixpoint vec_loop (n : nat) (m : memory) (root addr : Z) : result (option (list (list Z))) :=
  match n with
  | O => Ret None
  | S n' =>
      if negb (user_ptr_range m root addr 8) then Ret None
      else
        w ← user_read 8 m root addr;
        let ptr := le_value w in
        if ptr =? 0 then Ret (Some [])
        else
          '(r, s) ← user_str_copy m root ptr USER_STR_MAX;
          if negb (r =? 0) then Ret None
          else l ← vec_loop n' m root (w64 (addr + 8)); Ret (option_map (cons s) l)
  end.

Definition user_vec_copy (m : memory) (root user_vec max : Z) : result (option (list (list Z))) :=
  if user_vec =? 0 then Ret (Some []) else vec_loop (Z.to_nat max) m root user_vec.

(** The part of [struct user_launch] that is used: path, argv and envp. *)
Record user_launch := mk_launch {
  lpath : list Z;
  largv : list (list Z);
  lenvp : list (list Z);
  override_fds : list Z;
}.

Definition user_launch_fill (m : memory) (root : Z) (path : list Z) (argv envp : Z)
    : result (option user_launch) :=
  let lp := take (Z.to_nat (USER_PATH_MAX - 1)) (cstr path) in
  a ← user_vec_copy m root argv USER_ARG_MAX;
  match a with
  | None => Ret None
  | Some a =>
      let a := if bool_decide (a = []) then [lp ++ [0]] else a in
      e ← user_vec_copy m root envp USER_ENV_MAX;
      Ret (option_map (λ e, mk_launch lp a e [-1; -1; -1]) e)
  end.

(** ** Paths *)

(** [cwd] is what [sched_get_cwd] gives; [None] is the value -1. *)
Definition resolve_path (m : memory) (root : Z) (cwd : list Z) (user_path out_len : Z)
    : result (option (list Z)) :=
  if (user_path =? 0) || (out_len =? 0) then Ret None
  else if negb (user_ptr_range m root user_path 1) then Ret None
  else
    '(r, temp) ← user_str_copy m root user_path 256;
    if negb (r =? 0) then Ret None
    else if hd 0 temp =? SLASH then Ret (sys_normalize_path temp out_len)
    else
      let cwd := cstr cwd in
      let path := cstr temp in
      if 256 <=? Z.of_nat (length cwd) + 1 + Z.of_nat (length path) then Ret None
      else
        let sep := if bool_decide (cwd ≠ []) && negb (default 0 (last cwd) =? SLASH) then [SLASH] else [] in
        Ret (sys_normalize_path (cwd ++ sep ++ path ++ [0]) out_len).
(** ** The check is exact *)

Lemma land_page a : 0 ≤ a < 2 ^ 64 → Z.land a (not64 0xFFF) = a - a mod 4096.
Proof. intros Ha. change 0xFFF with (2 ^ 12 - 1). rewrite land_not64 by lia. done. Qed.

Lemma vpn_page a b : 0 ≤ a → a - a mod 4096 ≤ b < a - a mod 4096 + 4096 → vpn b = vpn a.
Proof. intros Ha Hb. unfold vpn. assert (b / 4096 = a / 4096) as E by dlia. dlia. Qed.

Lemma range_loop_spec m root fuel : ∀ addr end_,
  0 ≤ addr → end_ ≤ USER_STACK_TOP → end_ / 4096 - addr / 4096 + 2 ≤ Z.of_nat fuel →
  ∃ b, range_loop fuel m root addr end_ = Some b ∧
    (b = true ↔ ∀ a, addr ≤ a < end_ → user_page_present m root a = true).
Proof.
  unfold USER_STACK_TOP, PageFault.USER_STACK_TOP.
  induction fuel as [|fuel IH]; intros addr end_ Ha He Hf; cbn [range_loop];
    destruct (Z.ltb_spec addr end_) as [Hlt|Hge]; try (exists true; split; [done|]; split; [lia|done]).
  { exfalso. assert (addr / 4096 ≤ end_ / 4096) by (apply Z.div_le_mono; lia). lia. }
  destruct (user_page_present m root addr) eqn:Hp; cbn [negb].
  2:{ exists false. split; [done|]. split; [done|]. intros Hall. specialize (Hall addr ltac:(lia)). congruence. }
  cbv zeta. rewrite land_page, w64_small by dlia. rewrite (proj2 (Z.leb_gt _ addr)) by dlia.
  destruct (IH (addr - addr mod 4096 + 4096) end_) as (b & -> & Hb); [dlia|lia| |].
  { replace (addr - addr mod 4096 + 4096) with ((addr / 4096 + 1) * 4096) by dlia. rewrite Z.div_mul by lia. lia. }
  exists b. split; [done|]. rewrite Hb. split; intros Hall a Haa.
  - destruct (decide (addr - addr mod 4096 + 4096 ≤ a)) as [?|?]; [apply Hall; lia|].
    rewrite (vpn_present m root a addr); [done|]. apply vpn_page; [done|dlia].
  - apply Hall. dlia.
Qed.

Lemma user_ptr_range_iff m root ptr len :
  0 ≤ ptr < 2 ^ 64 → 0 ≤ len < 2 ^ 64 →
  user_ptr_range m root ptr len = true ↔
  0 < len ∧ USER_BASE ≤ ptr ∧ ptr + len ≤ USER_STACK_TOP ∧
  ∀ a, ptr ≤ a < ptr + len → user_page_present m root a = true.
Proof.
  intros Hp Hl. unfold user_ptr_range. destruct (Z.eqb_spec len 0); [split; [done|lia]|].
  destruct (Z.ltb_spec ptr USER_BASE); [split; [done|lia]|]. unfold w64.
  destruct (Z.ltb_spec ((ptr + len) mod 2 ^ 64) ptr) as [Hw|Hw].
  { split; [done|]. intros (_ & _ & Ht & _). unfold USER_STACK_TOP, PageFault.USER_STACK_TOP in *.
    rewrite Z.mod_small in Hw by lia. lia. }
  assert ((ptr + len) mod 2 ^ 64 = ptr + len) as ->.
  { apply Z.mod_small. destruct (decide (ptr + len < 2 ^ 64)); [lia|]. exfalso.
    replace (ptr + len) with (ptr + len - 2 ^ 64 + 1 * 2 ^ 64) in Hw by lia.
    rewrite Z.mod_add, Z.mod_small in Hw by lia. lia. }
  destruct (Z.ltb_spec USER_STACK_TOP (ptr + len)); [split; [done|lia]|].
  destruct (range_loop_spec m root (Z.to_nat (len / 4096 + 3)) ptr (ptr + len)) as (b & -> & Hb); [lia|lia| |].
  { rewrite Z2Nat.id by dlia. dlia. }
  cbn [default]. rewrite Hb. unfold USER_BASE in *. split; [intros; split_and!; auto; lia|tauto].
Qed.

(** the check the system calls make on a user pointer is exact: it accepts
    a range if and only if it is not empty, lies between the bottom of the
    user image and the top of the user stack without wrapping around, and
    every byte of it is on a page that is present for user mode. *)
Theorem user_ptr_range_spec m root ptr len :
  0 ≤ ptr < 2 ^ 64 → 0 ≤ len < 2 ^ 64 →
  user_ptr_range m root ptr len = true ↔
  0 < len ∧ USER_BASE ≤ ptr ∧ ptr + len ≤ USER_STACK_TOP ∧
  ∀ a, ptr ≤ a < ptr + len → user_page_present m root a = true.
Proof. apply user_ptr_range_iff. Qed.
(** ** Accepted addresses can be accessed *)

Section Access.
Context (s : pmm) (root : Z) (T : tree_ok s root).

Lemma present_translates a :
  user_page_present (mem s) root a = true → ∃ f fl, hw_translate (mem s) root a = Some (f, fl).
Proof using T.
  rewrite (hw_translate_eq s root a T). unfold user_page_present, translate.
  destruct (root =? 0); [done|]. cbn [path_table].
  pose proof (tree_no_huge _ _ T [] root (pml4_index a) ltac:(simpl; lia) ltac:(auto with tree)
    eq_refl ltac:(auto with tree)) as N4.
  destruct (has (entry_at (mem s) root (pml4_index a)) PTE_PRESENT) eqn:P4; [|done]. cbn [negb orb].
  destruct (negb (has _ PTE_USER)); [done|].
  assert (next (mem s) root (pml4_index a) = Some (table_addr (entry_at (mem s) root (pml4_index a)))) as E4
    by (unfold next; by rewrite P4, N4).
  rewrite E4. cbn [mbind option_bind]. set (t3 := table_addr (entry_at (mem s) root (pml4_index a))) in *.
  pose proof (tree_no_huge _ _ T [pml4_index a] t3 (pdpt_index a) ltac:(simpl; lia) ltac:(auto with tree)
    ltac:(cbn; by rewrite E4) ltac:(auto with tree)) as N3.
  destruct (has (entry_at (mem s) t3 (pdpt_index a)) PTE_PRESENT) eqn:P3; [|done]. cbn [negb orb].
  destruct (negb (has _ PTE_USER)); [done|]. rewrite N3.
  assert (next (mem s) t3 (pdpt_index a) = Some (table_addr (entry_at (mem s) t3 (pdpt_index a)))) as E3
    by (unfold next; by rewrite P3, N3).
  rewrite E3. cbn [mbind option_bind]. set (t2 := table_addr (entry_at (mem s) t3 (pdpt_index a))) in *.
  destruct (has (entry_at (mem s) t2 (pd_index a)) PTE_PRESENT) eqn:P2; [|done]. cbn [negb orb].
  destruct (negb (has _ PTE_USER)); [done|].
  unfold next. rewrite P2. destruct (has (entry_at (mem s) t2 (pd_index a)) PTE_PS) eqn:S2;
    cbn [andb negb mbind option_bind].
  - intros _. unfold leaf2m. rewrite P2, S2. cbn. eauto.
  - intros [P1 _]%andb_true_iff. unfold leaf4k. rewrite P1. eauto.
Qed.

Lemma checked_reads a : 0 ≤ a < 2 ^ 64 → user_ptr_range (mem s) root a 1 = true →
  ∃ c, user_byte (mem s) root a = Ret c ∧ 0 ≤ c < 256 ∧ w64 (a + 1) = a + 1 ∧ a + 1 ≤ USER_STACK_TOP.
Proof using T.
  intros Ha Hr. apply user_ptr_range_iff in Hr as (_ & _ & Ht & Hp); [|lia|lia].
  destruct (present_translates a (Hp a ltac:(lia))) as (f & fl & E). unfold user_byte. rewrite E.
  eexists. split; [done|]. unfold USER_STACK_TOP, PageFault.USER_STACK_TOP in *. rewrite w64_small by lia.
  split; [apply w8_range|lia].
Qed.

Lemma checked_read n : ∀ a, 0 ≤ a → a + Z.of_nat n ≤ USER_STACK_TOP →
  (∀ b, a ≤ b < a + Z.of_nat n → user_page_present (mem s) root b = true) →
  ∃ l, user_read n (mem s) root a = Ret l ∧ length l = n ∧ Forall (λ c, 0 ≤ c < 256) l.
Proof using T.
  induction n as [|n IH]; intros a Ha Ht Hp; cbn [user_read]; [by exists []|].
  destruct (present_translates a (Hp a ltac:(lia))) as (f & fl & E). unfold user_byte. rewrite E. cbn [mbind result_bind].
  destruct (IH (a + 1)) as (l & -> & Hl & Hf); [lia|lia|intros b Hb; apply Hp; lia|]. cbn [mbind result_bind].
  eexists. split; [done|]. split; [simpl; lia|]. constructor; [apply w8_range|done].
Qed.

(** The bytes at a user address, all of them accepted by the check. *)
Definition at_user (a : Z) (l : list Z) : Prop :=
  ∀ i c, l !! i = Some c →
    user_ptr_range (mem s) root (a + Z.of_nat i) 1 = true ∧ user_byte (mem s) root (a + Z.of_nat i) = Ret c.

Lemma at_user_cons a c l :
  at_user a (c :: l) ↔ (user_ptr_range (mem s) root a 1 = true ∧ user_byte (mem s) root a = Ret c) ∧ at_user (a + 1) l.
Proof using Type.
  split.
  - intros Hu. split; [specialize (Hu 0%nat c eq_refl); by rewrite Z.add_0_r in Hu|].
    intros i x Hx. specialize (Hu (S i) x Hx). by replace (a + 1 + Z.of_nat i) with (a + Z.of_nat (S i)) by lia.
  - intros [H1 H2] [|i] x Hx.
    + injection Hx as <-. by rewrite Z.add_0_r.
    + replace (a + Z.of_nat (S i)) with (a + 1 + Z.of_nat i) by lia. by apply H2.
Qed.

Definition str_post (a : Z) (n : nat) (r : Z) (l : list Z) : Prop :=
  (r = 0 ∧ ∃ str, l = str ++ [0] ∧ (0 ∉ str) ∧ (length l ≤ n)%nat ∧ at_user a l) ∨
  (r = -1 ∧ ∀ str, (0 ∉ str) → (length str < n)%nat → ¬ at_user a (str ++ [0])).

Lemma str_loop_spec n : ∀ a, 0 ≤ a < 2 ^ 64 →
  ∃ r l, str_loop n (mem s) root a = Ret (r, l) ∧ str_post a n r l ∧ Forall (λ c, 0 ≤ c < 256) l.
Proof using T.
  induction n as [|n IH]; intros a Ha; cbn [str_loop].
  { exists (-1), []. split; [done|]. split; [right; split; [done|lia]|constructor]. }
  destruct (user_ptr_range (mem s) root a 1) eqn:Hr; cbn [negb]; cycle 1.
  { exists (-1), []. split; [done|]. split; [|constructor]. right. split; [done|]. intros str _ _ Hu.
    assert (∃ c l, str ++ [0] = c :: l) as (c & l & E) by (destruct str; simpl; eauto).
    rewrite E, at_user_cons in Hu. destruct Hu as [[? _] _]. congruence. }
  destruct (checked_reads a Ha Hr) as (c & Hc & Hcr & Hw & Ht). rewrite Hc. cbn [mbind result_bind].
  unfold USER_STACK_TOP, PageFault.USER_STACK_TOP in Ht.
  destruct (Z.eqb_spec c 0) as [->|Hc0].
  { exists 0, [0]. split; [done|]. split; [|by constructor]. left. split; [done|]. exists []. split_and!; [done|by intros ?%elem_of_nil|simpl; lia|].
    apply at_user_cons. split; [done|]. by intros i x ?. }
  rewrite Hw. destruct (IH (a + 1) ltac:(lia)) as (r & l & -> & Hpost & Hl). cbn [mbind result_bind].
  exists r, (c :: l). split; [done|]. split; [|by constructor]. destruct Hpost as [(-> & str & -> & H0 & Hn & Hu)|[-> Hno]].
  - left. split; [done|]. exists (c :: str). split_and!; [done| |simpl in *; lia|by apply at_user_cons].
    intros [?|?]%elem_of_cons; congruence.
  - right. split; [done|]. intros str H0 Hn Hu. destruct str as [|x str].
    + apply at_user_cons in Hu as [[_ Hx] _]. rewrite Hc in Hx. congruence.
    + simpl in Hu. apply at_user_cons in Hu as [_ Hu]. apply not_elem_of_cons in H0 as [_ H0].
      apply (Hno str H0); [simpl in Hn; lia|done].
Qed.

Lemma str_copy_spec a n : 0 ≤ a < 2 ^ 64 → 0 < n →
  ∃ r l, user_str_copy (mem s) root a n = Ret (r, l) ∧ str_post a (Z.to_nat (n - 1)) r l ∧ Forall (λ c, 0 ≤ c < 256) l.
Proof using T.
  intros Ha Hn. unfold user_str_copy. destruct (Z.eqb_spec a 0) as [->|Ha0]; cbn [orb].
  - exists (-1), []. split; [done|]. split; [|constructor]. right. split; [done|]. intros str _ _ Hu.
    assert (∃ c l, str ++ [0] = c :: l) as (c & l & E) by (destruct str; simpl; eauto).
    rewrite E, at_user_cons in Hu. destruct Hu as [[Hr _] _]. apply user_ptr_range_iff in Hr; [|lia|lia].
    unfold USER_BASE in Hr. lia.
  - rewrite (proj2 (Z.eqb_neq n 0)) by lia. by apply str_loop_spec.
Qed.

Lemma le_value_range l : Forall (λ c, 0 ≤ c < 256) l → 0 ≤ le_value l < 256 ^ Z.of_nat (length l).
Proof using Type.
  induction 1 as [|c l Hc _ IH]; cbn [le_value length]; [done|].
  rewrite Nat2Z.inj_succ, Z.pow_succ_r by lia. lia.
Qed.

Lemma vec_loop_total n : ∀ a, 0 ≤ a < 2 ^ 64 →
  ∃ o, vec_loop n (mem s) root a = Ret o ∧
    ∀ l, o = Some l → (length l < n)%nat ∧ Forall (λ x, (length x < 64)%nat) l.
Proof using T.
  induction n as [|n IH]; intros a Ha; cbn [vec_loop]; [by exists None|].
  destruct (user_ptr_range (mem s) root a 8) eqn:Hr; cbn [negb]; [|by exists None].
  apply user_ptr_range_iff in Hr as (_ & _ & Ht & Hp); [|lia|lia].
  destruct (checked_read 8 a ltac:(lia) ltac:(lia) Hp) as (w & -> & Hw & Hf). cbn [mbind result_bind].
  pose proof (le_value_range w Hf) as Hv. rewrite Hw in Hv. change (256 ^ Z.of_nat 8) with (2 ^ 64) in Hv.
  destruct (le_value w =? 0); [exists (Some []); split; [done|]; intros l [= <-]; split; [simpl; lia|done]|].
  destruct (str_copy_spec (le_value w) USER_STR_MAX Hv ltac:(done)) as (r & str & -> & Hstr & _).
  cbn [mbind result_bind]. destruct (Z.eqb_spec r 0) as [Hr|]; cbn [negb]; [|by exists None].
  assert (length str < 64)%nat as Hlen
    by (destruct Hstr as [(_ & ? & _ & _ & ? & _)|[? _]]; [change (Z.to_nat (USER_STR_MAX - 1)) with 63%nat in *|]; lia). unfold USER_STACK_TOP, PageFault.USER_STACK_TOP in Ht.
  rewrite w64_small by lia. destruct (IH (a + 8) ltac:(lia)) as (o & -> & Ho). cbn [mbind result_bind].
  eexists. split; [done|]. intros l Hl. destruct o as [l'|]; [|done]. injection Hl as <-.
  destruct (Ho l' eq_refl) as [? ?]. split; [simpl; lia|by constructor].
Qed.

Lemma vec_copy_total a n : 0 ≤ a < 2 ^ 64 → 0 < n →
  ∃ o, user_vec_copy (mem s) root a n = Ret o ∧
    ∀ l, o = Some l → Z.of_nat (length l) < n ∧ Forall (λ x, (length x < 64)%nat) l.
Proof using T.
  intros Ha Hn. unfold user_vec_copy. destruct (a =? 0).
  - exists (Some []). split; [done|]. by intros l [= <-].
  - destruct (vec_loop_total (Z.to_nat n) a Ha) as (o & ? & Ho). exists o. split; [done|]. intros l Hl.
    destruct (Ho l Hl). split; [lia|done].
Qed.

(** copying a string from a user program: whatever address it passes, the
    copy ends without a page fault.  It succeeds exactly if an accessible
    null-terminated string that fits is there, and then the buffer holds that
    string with its terminator. *)
Theorem user_str_copy_spec a n :
  0 ≤ a < 2 ^ 64 → 0 < n →
  ∃ r l, user_str_copy (mem s) root a n = Ret (r, l) ∧ str_post a (Z.to_nat (n - 1)) r l.
Proof using T. intros Ha Hn. destruct (str_copy_spec a n Ha Hn) as (r & l & ? & ? & _). eauto. Qed.

Lemma resolve_total cwd a n : 0 ≤ a < 2 ^ 64 → ∃ o, resolve_path (mem s) root cwd a n = Ret o.
Proof using T.
  intros Ha. unfold resolve_path. destruct (_ || _); [eauto|]. destruct (negb _); [eauto|].
  destruct (str_copy_spec a 256 Ha ltac:(done)) as (r & temp & -> & _). cbn [mbind result_bind].
  destruct (negb _); [eauto|]. destruct (_ =? _); [eauto|]. cbv zeta. destruct (_ <=? _); eauto.
Qed.

(** What [user_launch_fill] accepts. *)
Definition launch_small (l : user_launch) : Prop :=
  (1 ≤ length (largv l) < 8)%nat ∧ (length (lenvp l) < 8)%nat ∧ (length (lpath l) < 64)%nat ∧
  Forall (λ x, (length x ≤ 64)%nat) (largv l) ∧ Forall (λ x, (length x ≤ 64)%nat) (lenvp l).

Lemma fill_total path a e : 0 ≤ a < 2 ^ 64 → 0 ≤ e < 2 ^ 64 →
  ∃ o, user_launch_fill (mem s) root path a e = Ret o ∧ ∀ l, o = Some l → launch_small l.
Proof using T.
  intros Ha He. unfold user_launch_fill. cbv zeta.
  destruct (vec_copy_total a USER_ARG_MAX Ha ltac:(done)) as ([av|] & -> & Hav); cbn [mbind result_bind];
    [|by exists None].
  destruct (vec_copy_total e USER_ENV_MAX He ltac:(done)) as ([ev|] & -> & Hev); cbn [mbind result_bind];
    [|by exists None].
  eexists. split; [done|].
  intros l [= <-]. unfold launch_small. cbn [largv lenvp lpath]. destruct (Hav av eq_refl) as [Hn1 Hf1].
  destruct (Hev ev eq_refl) as [Hn2 Hf2].
  assert (∀ l, Forall (λ x : list Z, (length x < 64)%nat) l → Forall (λ x : list Z, (length x ≤ 64)%nat) l) as Himpl
    by (intros l ?; eapply Forall_impl; [done|]; intros x ?; simpl in *; lia).
  unfold USER_ARG_MAX, USER_ENV_MAX, USER_PATH_MAX in *. split; [|split; [|split; [|split]]].
  - case_bool_decide as E; [simpl; lia|destruct av; [done|simpl in *; lia]].
  - lia.
  - rewrite length_take. lia.
  - case_bool_decide; [|by apply Himpl]. apply Forall_singleton. rewrite length_app, length_take. cbn [length]. lia.
  - by apply Himpl.
Qed.

(** no argument of a program can make the kernel fault while it fetches a
    path or the vectors of spawn and exec: both always finish, and what they
    accept is a program name below 64 bytes, between one and seven arguments
    (seven, not the eight the buffers hold) and at most seven environment
    strings, each of at most 64 bytes with its terminator. *)
Theorem launch_arguments_safe cwd path p a e n :
  0 ≤ p < 2 ^ 64 → 0 ≤ a < 2 ^ 64 → 0 ≤ e < 2 ^ 64 →
  (∃ o, resolve_path (mem s) root cwd p n = Ret o) ∧
  ∃ o, user_launch_fill (mem s) root path a e = Ret o ∧ ∀ l, o = Some l → launch_small l.
Proof using T. intros Hp Ha He. split; [by apply resolve_total|by apply fill_total]. Qed.
End Access.
End UserPtr.
