(* ===== verification/Syscall.v ===== *)
(** * The system calls (src/kernel/syscall.c)

    The dispatcher over the whole kernel: the scheduler with the table of open
    files and the heap, the frame allocator with physical memory, the
    terminal, and the launch records handed to new threads.  User memory is
    read and written through the page tables of the current address space.
    The heap is an allocator of its own (Alloc.v); the frames it takes while
    it grows are not seen by the frame allocator of this state.  What the rest
    of the system does while a call waits is an argument. *)

From S2P Require Import Prelude Memory Pmm Mmu MmuTree UserSpace Elf.
From S2P Require Import CString Pipe Irq Tty Paths Bytes Memfs User Alloc Sched SchedList SchedInv.
From S2P Require Import Ramfs State Fat Vfs VfsInv Handles UserPtr.
From stdpp Require Import options.
Import Pmm Mmu UserSpace CString Paths Bytes Memfs User Sched SchedInv Vfs Handles UserPtr.

Module Syscall.

Definition SYSCALL_EXIT : Z := 1.
Definition SYSCALL_YIELD : Z := 2.
Definition SYSCALL_READ : Z := 3.
Definition SYSCALL_WRITE : Z := 4.
Definition SYSCALL_OPEN : Z := 5.
Definition SYSCALL_CLOSE : Z := 6.
Definition SYSCALL_SPAWN : Z := 7.
Definition SYSCALL_EXEC : Z := 8.
Definition SYSCALL_GETPID : Z := 9.
Definition SYSCALL_WAIT : Z := 10.
Definition SYSCALL_DUP2 : Z := 11.
Definition SYSCALL_PIPE : Z := 12.
Definition SYSCALL_CHDIR : Z := 13.
Definition SYSCALL_GETCWD : Z := 14.

Definition SIZEOF_USER_LAUNCH : Z := 1248.

(** The registers a system call looks at. *)
Record syscall_regs := mk_regs { rax : Z; rdi : Z; rsi : Z; rdx : Z; r10 : Z }.

Definition syscall_error (err : Z) : Z := w64 (- err).

Record kernel (H D S : Type) := mk_kernel {
  ks : sched H (table D S);
  kp : pmm;
  kt : Tty.tty;
  launches : gmap Z user_launch;
}.
Arguments mk_kernel {_ _ _} _ _ _ _.
Arguments ks {_ _ _} _.
Arguments kp {_ _ _} _.
Arguments kt {_ _ _} _.
Arguments launches {_ _ _} _.

(** How a call ends: it returns, gives up the processor (returning 0 when the
    thread runs again), ends the thread, still waits, or starts a program. *)
Inductive sysres (K : Type) :=
| SysReturn (v : Z) (k : K)
| SysYield (f : flow K)
| SysExit (f : flow K)
| SysWaiting (k : K)
| SysSpinning
| SysEnter (entry sp pml4 : Z) (k : K).
Arguments SysReturn {_} _ _.
Arguments SysYield {_} _.
Arguments SysExit {_} _.
Arguments SysWaiting {_} _.
Arguments SysSpinning {_}.
Arguments SysEnter {_} _ _ _ _.

(** What the other threads and the devices do while a call waits. *)
Record world (H D S : Type) := mk_world {
  w_input : list (Irq.irqs → Irq.irqs);
  w_pipe : list (Pipe.pipe → Pipe.pipe);
  w_sched : list (sched H (table D S) → sched H (table D S));
}.
Arguments w_input {_ _ _} _.
Arguments w_pipe {_ _ _} _.
Arguments w_sched {_ _ _} _.

(** The number of leading bytes of [b'] that were stored over [b]. *)
Fixpoint last_diff (b b' : list Z) : nat :=
  match b, b' with
  | x :: b1, y :: b2 =>
      match last_diff b1 b2 with O => if x =? y then 0 else 1 | n => Datatypes.S n end
  | _, _ => O
  end.

Section Ops.
Context {H D S : Type} `{!Allocator H} `{!SectorDev D S}.
Context (img : user_images) (pml4_table : Z) (outside : Z → Z).
(** The addresses of [thread_trampoline] and [user_launch_thread]. *)
Context (thread_trampoline_ user_launch_thread_ : Z).
Implicit Types k : kernel H D S.

Definition with_sched k (s : sched H (table D S)) : kernel H D S := mk_kernel s (kp k) (kt k) (launches k).
Definition with_user_mem k (m : memory) : kernel H D S :=
  mk_kernel (ks k) (with_mem (kp k) m) (kt k) (launches k).
Definition with_tty k (t : Tty.tty) : kernel H D S := mk_kernel (ks k) (kp k) t (launches k).
Definition with_launches k (l : gmap Z user_launch) : kernel H D S := mk_kernel (ks k) (kp k) (kt k) l.
Definition ktable k : table D S := s_files (ks k).
Definition with_table k (t : table D S) : kernel H D S := with_sched k (Sched.with_files (ks k) t).
Definition with_table_heap k (t : table D S) (h : H) : kernel H D S :=
  with_sched k (Sched.with_files (Sched.with_heap (ks k) h) t).
Definition kheap k : H := s_heap (ks k).
Definition kmem k : memory := Pmm.mem (kp k).
Definition kroot k : Z := sched_current_aspace (ks k).

Definition error (e : Z) k : result (sysres (kernel H D S)) := Ret (SysReturn (syscall_error e) k).

(** The calls the handlers make on the components. *)
Definition release (id : Z) k : result (kernel H D S) :=
  '(t, h) ← syscall_release_handle id (ktable k) (kheap k); Ret (with_table_heap k t h).
Definition close_file (f : Z) k : result (kernel H D S) :=
  '(v, h) ← vfs_close f (tvfs (ktable k)) (kheap k); Ret (with_table_heap k (with_vfs (ktable k) v) h).
Definition new_handle (ty : handle_type) (f : Z) k : Z * kernel H D S :=
  let '(i, t) := handle_alloc ty f (sched_current_pid (ks k)) (ktable k) in (i, with_table k t).
Definition allocate_fd (g : Z) k : Z * kernel H D S :=
  let '(i, s) := sched_allocate_fd g (ks k) in (i, with_sched k s).
Definition set_fd (fd g : Z) k : kernel H D S := with_sched k (sched_set_fd fd g (ks k)).
Definition resolve (p out_len : Z) k : result (option (list Z)) :=
  resolve_path (kmem k) (kroot k) (sched_get_cwd (ks k) 256) p out_len.
Definition store_user (l : list Z) (a : Z) k : result (kernel H D S) :=
  m ← user_write l (kmem k) (kroot k) a; Ret (with_user_mem k m).

(** ** Files *)

Definition sys_read (w : world H D S) (r : syscall_regs) k : result (sysres (kernel H D S)) :=
  let fd := s32 (rdi r) in
  let buf := rsi r in
  let len := rdx r in
  if (buf =? 0) || (len =? 0) then Ret (SysReturn 0 k)
  else if negb (user_ptr_range (kmem k) (kroot k) buf len) then error SYSCALL_EINVAL k
  else
    let global := sched_get_fd (ks k) fd in
    if global <? 0 then error SYSCALL_EBADF k
    else
      let x := hnd (ktable k) global in
      match type x with
      | HANDLE_TTY =>
          b ← user_read (Z.to_nat len) (kmem k) (kroot k) buf;
          match Tty.tty_read (w_input w) (kt k) (Some b) len with
          | Done (t, b', count) =>
              k ← store_user (take (Nat.max (Z.to_nat count) (last_diff b b')) b') buf (with_tty k t);
              Ret (SysReturn count k)
          | Waiting (t, b', count) =>
              k ← store_user (take (Nat.max (Z.to_nat count) (last_diff b b')) b') buf (with_tty k t);
              Ret (SysWaiting k)
          | Spinning => Ret SysSpinning
          end
      | HANDLE_VFS =>
          o ← vfs_read img (w_pipe w) (file x) false len (tvfs (ktable k));
          match o with
          | Done (n, out, v) =>
              k ← store_user out buf (with_table k (with_vfs (ktable k) v));
              if n <? 0 then error (- n) k else Ret (SysReturn (w64 n) k)
          | Waiting (n, out, v) =>
              k ← store_user out buf (with_table k (with_vfs (ktable k) v)); Ret (SysWaiting k)
          | Spinning => Ret SysSpinning
          end
      | HANDLE_FREE => error SYSCALL_EBADF k
      end.

Definition sys_write (w : world H D S) (r : syscall_regs) k : result (sysres (kernel H D S)) :=
  let fd := s32 (rdi r) in
  let global := sched_get_fd (ks k) fd in
  if global <? 0 then error SYSCALL_EBADF k
  else
    let x := hnd (ktable k) global in
    if bool_decide (type x = HANDLE_FREE) then error SYSCALL_EBADF k
    else
      let buf := rsi r in
      let len := rdx r in
      if negb (user_ptr_range (kmem k) (kroot k) buf len) then error SYSCALL_ERANGE k
      else
        src ← user_read (Z.to_nat len) (kmem k) (kroot k) buf;
        match type x with
        | HANDLE_TTY => let '(n, t) := Tty.tty_write (kt k) (Some src) in Ret (SysReturn n (with_tty k t))
        | HANDLE_VFS =>
            o ← vfs_write (w_pipe w) (file x) (Some src) (tvfs (ktable k)) (kheap k);
            match o with
            | Done (n, v, h) =>
                let k := with_table_heap k (with_vfs (ktable k) v) h in
                if n <? 0 then error (- n) k else Ret (SysReturn (w64 n) k)
            | Waiting (n, v, h) => Ret (SysWaiting (with_table_heap k (with_vfs (ktable k) v) h))
            | Spinning => Ret SysSpinning
            end
        | HANDLE_FREE => error SYSCALL_EBADF k
        end.

Definition sys_open (r : syscall_regs) k : result (sysres (kernel H D S)) :=
  p ← resolve (rdi r) USER_PATH_MAX k;
  match p with
  | None => error SYSCALL_EINVAL k
  | Some path =>
      if streq path (chars "/dev/tty") || streq path (chars "/dev/console") then
        let '(global_fd, k) := new_handle HANDLE_TTY 0 k in
        if global_fd <? 0 then error SYSCALL_ENOMEM k
        else
          let '(local_fd, k) := allocate_fd global_fd k in
          if local_fd <? 0 then k ← release global_fd k; error SYSCALL_ENOMEM k
          else Ret (SysReturn (w64 local_fd) k)
      else
        '(err, f, v, h) ← vfs_open img (Some path) (tvfs (ktable k)) (kheap k);
        let k := with_table_heap k (with_vfs (ktable k) v) h in
        if negb (err =? SYSCALL_OK) then error err k
        else
          let '(global_fd, k) := new_handle HANDLE_VFS f k in
          if global_fd <? 0 then k ← close_file f k; error SYSCALL_ENOMEM k
          else
            let '(local_fd, k) := allocate_fd global_fd k in
            if local_fd <? 0 then
              k ← release global_fd k;
              k ← close_file f k;
              error SYSCALL_ENOMEM k
            else Ret (SysReturn (w64 local_fd) k)
  end.

Definition sys_close (r : syscall_regs) k : result (sysres (kernel H D S)) :=
  let fd := s32 (rdi r) in
  let global := sched_get_fd (ks k) fd in
  if global <? 0 then error SYSCALL_EBADF k
  else
    let k := set_fd fd (-1) k in
    k ← release global k;
    Ret (SysReturn 0 k).

Definition sys_dup2 (r : syscall_regs) k : result (sysres (kernel H D S)) :=
  let oldfd := s32 (rdi r) in
  let newfd := s32 (rsi r) in
  let global_old := sched_get_fd (ks k) oldfd in
  if global_old <? 0 then error SYSCALL_EBADF k
  else if (newfd <? 0) || (16 <=? newfd) then error SYSCALL_EBADF k
  else if oldfd =? newfd then Ret (SysReturn (w64 newfd) k)
  else
    let global_new := sched_get_fd (ks k) newfd in
    k ← (if 0 <=? global_new then
           let k := set_fd newfd (-1) k in release global_new k
         else Ret k);
    let k := set_fd newfd global_old k in
    let k := with_table k (syscall_acquire_handle global_old (ktable k)) in
    Ret (SysReturn (w64 newfd) k).

Definition sys_pipe (r : syscall_regs) k : result (sysres (kernel H D S)) :=
  let pipefd := rdi r in
  if negb (user_ptr_range (kmem k) (kroot k) pipefd 8) then error SYSCALL_EINVAL k
  else
    '(rc, rd, wr, v, h) ← pipe_create (tvfs (ktable k)) (kheap k);
    let k := with_table_heap k (with_vfs (ktable k) v) h in
    if negb (rc =? 0) then error SYSCALL_ENOMEM k
    else
      let '(h1, k) := new_handle HANDLE_VFS rd k in
      if h1 <? 0 then
        k ← close_file rd k; k ← close_file wr k; error SYSCALL_ENOMEM k
      else
        let '(h2, k) := new_handle HANDLE_VFS wr k in
        if h2 <? 0 then
          k ← release h1 k; k ← close_file wr k; error SYSCALL_ENOMEM k
        else
          let '(fd1, k) := allocate_fd h1 k in
          let '(fd2, k) := allocate_fd h2 k in
          if (fd1 <? 0) || (fd2 <? 0) then
            let k := if 0 <=? fd1 then set_fd fd1 (-1) k else k in
            let k := if 0 <=? fd2 then set_fd fd2 (-1) k else k in
            k ← release h1 k; k ← release h2 k; error SYSCALL_ENOMEM k
          else
            k ← store_user (le_bytes 4 fd1) pipefd k;
            k ← store_user (le_bytes 4 fd2) (pipefd + 4) k;
            Ret (SysReturn 0 k).
(** ** Processes *)

Definition lift_flow k (f : flow (sched H (table D S))) : flow (kernel H D S) :=
  match f with
  | Returned s => Returned (with_sched k s)
  | Switched s => Switched (with_sched k s)
  | Halted s => Halted (with_sched k s)
  | Looping => Looping
  end.

(** The handles are released in [sched_exit]
    ([syscall_cleanup_handles_for_pid] is empty). *)
Definition user_exit_common (code : Z) k : result (flow (kernel H D S)) :=
  f ← sched_exit_current (sched_set_current_exit_code code (ks k));
  Ret (lift_flow k f).
Definition user_exit_handler k : result (flow (kernel H D S)) := user_exit_common 0 k.
Definition user_exit_with_code (code : Z) k : result (flow (kernel H D S)) := user_exit_common code k.

Definition sys_exit (r : syscall_regs) k : result (sysres (kernel H D S)) :=
  f ← user_exit_with_code (s32 (rdi r)) k; Ret (SysExit f).

Definition sys_yield k : result (sysres (kernel H D S)) :=
  Ret (SysYield (lift_flow k (sched_yield (ks k)))).

(** One descriptor of the fd map is acquired and noted. *)
Definition map_fd (kl : kernel H D S * user_launch) (x : nat * Z) : kernel H D S * user_launch :=
  let '(k, l) := kl in
  let '(i, fd) := x in
  if 0 <=? fd then
    let g := sched_get_fd (ks k) fd in
    if 0 <=? g then
      (with_table k (syscall_acquire_handle g (ktable k)),
       mk_launch (lpath l) (largv l) (lenvp l) (<[i := g]> (override_fds l)))
    else (k, l)
  else (k, l).

Definition map_fds (user_map : list Z) k (l : user_launch) : kernel H D S * user_launch :=
  foldl map_fd (k, l) (imap pair user_map).

Definition free_launch (p : Z) k : result (kernel H D S) :=
  h ← al_free (kheap k) p;
  Ret (with_launches (with_sched k (Sched.with_heap (ks k) h)) (delete p (launches k))).

Definition sys_spawn (r : syscall_regs) k : result (sysres (kernel H D S)) :=
  p ← resolve (rdi r) USER_PATH_MAX k;
  match p with
  | None => error SYSCALL_EINVAL k
  | Some path =>
      '(launch, h) ← al_alloc (kheap k) SIZEOF_USER_LAUNCH 16;
      let k := with_sched k (Sched.with_heap (ks k) h) in
      if launch =? 0 then error SYSCALL_ENOMEM k
      else
        o ← user_launch_fill (kmem k) (kroot k) path (rsi r) (rdx r);
        match o with
        | None => k ← free_launch launch k; error SYSCALL_EINVAL k
        | Some l =>
            let fd_map := r10 r in
            '(k, l) ← (if negb (fd_map =? 0) && user_ptr_range (kmem k) (kroot k) fd_map 12 then
                         a ← user_read 4 (kmem k) (kroot k) fd_map;
                         b ← user_read 4 (kmem k) (kroot k) (fd_map + 4);
                         c ← user_read 4 (kmem k) (kroot k) (fd_map + 8);
                         Ret (map_fds [s32 (le_value a); s32 (le_value b); s32 (le_value c)] k l)
                       else Ret (k, l));
            let k := with_launches k (<[launch := l]> (launches k)) in
            '(rc, pid_, s) ← sched_create_user thread_trampoline_ user_launch_thread_ launch
                               (sched_current_pid (ks k)) (ks k);
            let k := with_sched k s in
            if negb (rc =? 0) then k ← free_launch launch k; error SYSCALL_ENOMEM k
            else Ret (SysReturn (w64 pid_) k)
        end
  end.

(** The image of a new program in a new address space. *)
Definition prepare (path : list Z) (argv envp : list (list Z)) k
    : result (option (Z * user_space * Z * kernel H D S)) :=
  let v := tvfs (ktable k) in
  o ← user_prepare_image img pml4_table outside (Some path) (Some argv) (Some envp)
        (mk_space 0 0 0 0 0 []) 0 (memfs_ v) (kp k);
  Ret (option_map (λ '(rc, space, sp, ms, s),
    (rc, space, sp, mk_kernel (Sched.with_files (ks k) (with_vfs (ktable k) (with_memfs v ms))) s (kt k) (launches k))) o).

Definition enter (space : user_space) (sp : Z) k : sysres (kernel H D S) :=
  SysEnter (UserSpace.entry space) sp (pml4_phys space)
    (with_sched k (sched_set_current_aspace (pml4_phys space) (ks k))).

Definition sys_exec (r : syscall_regs) k : result (sysres (kernel H D S)) :=
  p ← resolve (rdi r) USER_PATH_MAX k;
  match p with
  | None => error SYSCALL_EINVAL k
  | Some path =>
      o ← user_launch_fill (kmem k) (kroot k) path (rsi r) (rdx r);
      match o with
      | None => error SYSCALL_EINVAL k
      | Some l =>
          q ← prepare (lpath l) (largv l) (lenvp l) k;
          match q with
          | None => Ret SysSpinning
          | Some (rc, space, sp, k) =>
              if negb (rc =? 0) then error SYSCALL_ENOENT k else Ret (enter space sp k)
          end
      end
  end.

Definition sys_wait (w : world H D S) (r : syscall_regs) k : result (sysres (kernel H D S)) :=
  let status := rdi r in
  if negb (status =? 0) && negb (user_ptr_range (kmem k) (kroot k) status 4) then error SYSCALL_EINVAL k
  else
    o ← sched_wait_child (w_sched w) (sched_current_pid (ks k)) (ks k);
    match o with
    | Done (pid_, code, s) =>
        let k := with_sched k s in
        if pid_ <? 0 then error SYSCALL_ENOENT k
        else
          k ← (if negb (status =? 0) then store_user (le_bytes 4 (w32 code)) status k else Ret k);
          Ret (SysReturn (w64 pid_) k)
    | Waiting (_, _, s) => Ret (SysWaiting (with_sched k s))
    | Spinning => Ret SysSpinning
    end.

Definition sys_chdir (r : syscall_regs) k : result (sysres (kernel H D S)) :=
  p ← resolve (rdi r) USER_PATH_MAX k;
  match p with
  | None => error SYSCALL_EINVAL k
  | Some resolved =>
      '(err, f, v, h) ← vfs_open img (Some resolved) (tvfs (ktable k)) (kheap k);
      let k := with_table_heap k (with_vfs (ktable k) v) h in
      if negb (err =? SYSCALL_OK) then error err k
      else
        k ← close_file f k;
        Ret (SysReturn 0 (with_sched k (sched_set_cwd (resolved ++ [0]) (ks k))))
  end.

Definition sys_getcwd (r : syscall_regs) k : result (sysres (kernel H D S)) :=
  let buf := rdi r in
  let size_ := rsi r in
  if (buf =? 0) || (size_ =? 0) then error SYSCALL_EINVAL k
  else if negb (user_ptr_range (kmem k) (kroot k) buf size_) then error SYSCALL_EINVAL k
  else
    let cwd_ := cstr (sched_get_cwd (ks k) 256) in
    if size_ <=? Z.of_nat (length cwd_) then error SYSCALL_ERANGE k
    else k ← store_user (cwd_ ++ [0]) buf k; Ret (SysReturn 0 k).

(** ** The dispatcher *)

Definition syscall_handle (w : world H D S) (regs : option syscall_regs) k : result (sysres (kernel H D S)) :=
  match regs with
  | None => error SYSCALL_EINVAL k
  | Some r =>
      let k := if negb (handles_ready (ktable k)) then with_table k (handles_init (ktable k)) else k in
      let num := rax r in
      if num =? SYSCALL_EXIT then sys_exit r k
      else if num =? SYSCALL_YIELD then sys_yield k
      else if num =? SYSCALL_READ then sys_read w r k
      else if num =? SYSCALL_WRITE then sys_write w r k
      else if num =? SYSCALL_OPEN then sys_open r k
      else if num =? SYSCALL_CLOSE then sys_close r k
      else if num =? SYSCALL_SPAWN then sys_spawn r k
      else if num =? SYSCALL_EXEC then sys_exec r k
      else if num =? SYSCALL_GETPID then Ret (SysReturn (w64 (sched_current_pid (ks k))) k)
      else if num =? SYSCALL_WAIT then sys_wait w r k
      else if num =? SYSCALL_CHDIR then sys_chdir r k
      else if num =? SYSCALL_GETCWD then sys_getcwd r k
      else if num =? SYSCALL_DUP2 then sys_dup2 r k
      else if num =? SYSCALL_PIPE then sys_pipe r k
      else error SYSCALL_EINVAL k
  end.

(** ** The threads that start programs (src/kernel/user.c) *)

(** [None] is a plain return, after which the thread exits. *)
Definition user_launch_thread (launch : Z) k : result (option (sysres (kernel H D S)) * kernel H D S) :=
  if launch =? 0 then Ret (None, k)
  else
    match launches k !! launch with
    | None => Panic DANGLING launch
    | Some l =>
        q ← prepare (lpath l) (largv l) (lenvp l) k;
        match q with
        | None => Ret (Some SysSpinning, k)
        | Some (rc, space, sp, k) =>
            k ← free_launch launch k;
            if negb (rc =? 0) then Ret (None, k)
            else
              let k := with_sched k (sched_set_current_aspace (pml4_phys space) (ks k)) in
              let k := with_sched k (sched_set_current_exit_to_kernel 0 (ks k)) in
              Ret (Some (SysEnter (UserSpace.entry space) sp (pml4_phys space) k), k)
        end
    end.

Definition user_smoke_thread k : result (option (sysres (kernel H D S)) * kernel H D S) :=
  let argv := [chars "/bin/init"] in
  let envp := [chars "TERM=neptune"; chars "USER=guest"] in
  q ← prepare (chars "/bin/init") argv envp k;
  match q with
  | None => Ret (Some SysSpinning, k)
  | Some (rc, space, sp, k) =>
      if negb (rc =? 0) then Ret (None, k)
      else
        let k := with_sched k (sched_set_current_aspace (pml4_phys space) (ks k)) in
        let k := with_sched k (sched_set_current_exit_to_kernel 1 (ks k)) in
        Ret (Some (SysEnter (UserSpace.entry space) sp (pml4_phys space) k), k)
  end.

(** [thread_trampoline] (src/kernel/sched.c): [run] is the code at the entry
    point of the thread, given its argument. *)
Definition thread_trampoline
    (run : Z → Z → kernel H D S → result (option (sysres (kernel H D S)) * kernel H D S)) k
    : result (sysres (kernel H D S)) :=
  let t := cur (ks k) in
  '(o, k) ← (if negb (current_thread (ks k) =? 0) && negb (entry t =? 0)
             then run (entry t) (arg t) k else Ret (None, k));
  match o with
  | Some res => Ret res
  | None => f ← sched_exit (ks k); Ret (SysExit (lift_flow k f))
  end.
End Ops.
End Syscall.
