(* ===== verification/SyscallSpec.v ===== *)
(** * What the descriptor calls guarantee

    close and dup2 keep the invariants of the scheduler, the table of open
    files and the virtual file system together.  open does not when the
    caller has no descriptor left. *)

From S2P Require Import Prelude Memory Pmm Mmu MmuTree UserSpace Elf.
From S2P Require Import CString Pipe Irq Tty Paths Bytes Memfs User Alloc Sched SchedList SchedInv SchedSwitch SchedSpec SchedWait SchedSteps.
From S2P Require Import Ramfs State Fat Vfs VfsInv VfsSpec Handles UserPtr Syscall.
From stdpp Require Import options.
Import Pmm UserSpace CString Paths Bytes Memfs Sched SchedList SchedInv SchedSpec SchedSteps Vfs VfsInv VfsSpec Handles UserPtr Syscall.

Module SyscallSpec.

Section Spec.
Context {H D S : Type} `{!Allocator H} {AL : AllocatorLaws H} `{!SectorDev D S}.
Context (img : user_images).
Implicit Types k : kernel H D S.

Definition kernel_ok k (l bs others : list Z) : Prop := sched_ok (ks k) l bs others.

Definition cur_fds k : list Z := fds (cur (ks k)).

Lemma release_kernel k l bs others id :
  kernel_ok k l bs others →
  ∃ k' bs', release id k = Ret k' ∧ kernel_ok k' l bs' others ∧ cur_fds k' = cur_fds k ∧
    current_thread (ks k') = current_thread (ks k) ∧ handles (ktable k') = released id (handles (ktable k)) ∧
    kp k' = kp k.
Proof using AL.
  intros Hok. pose proof (so_files _ _ _ _ Hok) as F. pose proof (so_live _ _ _ _ Hok) as Hl.
  destruct (release_ok id (ktable k) (kheap k) bs _ F Hl) as (t' & h' & bs' & E & F' & Hl' & Eh).
  unfold release. rewrite E. cbn [mbind result_bind]. eexists _, bs'. split; [done|].
  split; [|done]. unfold kernel_ok, with_table_heap, with_sched. cbn [ks].
  by apply (sched_ok_files (ks k) l bs others bs' t' h').
Qed.

Lemma get_fd_cur k fd :
  0 ≤ sched_get_fd (ks k) fd →
  0 ≤ fd < 16 ∧ current_thread (ks k) ≠ 0 ∧ sched_get_fd (ks k) fd = nth (Z.to_nat fd) (cur_fds k) 0.
Proof.
  unfold sched_get_fd. destruct ((fd <? 0) || _) eqn:E; [lia|]. apply orb_false_iff in E as [E1%Z.ltb_ge E2%Z.leb_gt].
  destruct (Z.eqb_spec (current_thread (ks k)) 0); cbn [negb]; [lia|]. done.
Qed.

Lemma cur_upd (s : sched H (table D S)) f :
  is_Some (threads s !! current_thread s) → cur (upd_cur f s) = f (cur s).
Proof. intros Hs. by apply (thr_upd_eq s (current_thread s) f). Qed.

Lemma set_fd_kernel k l bs others fd g :
  kernel_ok k l bs others → 0 ≤ fd < 16 → current_thread (ks k) ≠ 0 → -1 ≤ g < HANDLE_MAX →
  kernel_ok (set_fd fd g k) l bs others ∧ cur_fds (set_fd fd g k) = <[Z.to_nat fd := g]> (cur_fds k) ∧
  current_thread (ks (set_fd fd g k)) = current_thread (ks k) ∧ ktable (set_fd fd g k) = ktable k ∧
  kp (set_fd fd g k) = kp k.
Proof.
  intros Hok Hfd Hc Hg. unfold set_fd, sched_set_fd, kernel_ok.
  rewrite (proj2 (Z.ltb_ge fd 0)), (proj2 (Z.leb_gt 16 fd)), (proj2 (Z.eqb_neq _ 0) Hc) by lia.
  cbn [orb negb with_sched ks]. split_and!; [| |done|done|done].
  - pose proof (upd_cur_ok (ks k) l bs others (λ t, set_fds (<[Z.to_nat fd := g]> (fds t)) t)) as Hu.
    rewrite (proj2 (Z.eqb_neq _ 0) Hc) in Hu. apply Hu; try done. intros t. by apply insert_fd_typed.
  - unfold cur_fds, with_sched. cbn [ks]. rewrite cur_upd; [done|]. apply (tl_dom _ _ (so_list _ _ _ _ Hok)).
    destruct (so_cur _ _ _ _ Hok) as [?|[? _]]; done.
Qed.

Lemma fd_range k l bs others fd :
  kernel_ok k l bs others → 0 ≤ sched_get_fd (ks k) fd → sched_get_fd (ks k) fd < HANDLE_MAX.
Proof.
  intros Hok Hg. destruct (get_fd_cur k fd Hg) as (Hfd & _ & E). rewrite E.
  destruct (so_typed_any _ _ _ _ (current_thread (ks k)) Hok) as [_ _ T3 T4].
  change (fds (thr (ks k) (current_thread (ks k)))) with (cur_fds k) in *.
  destruct (lookup_lt_is_Some_2 (cur_fds k) (Z.to_nat fd)) as [x Hx]; [lia|].
  rewrite nth_lookup, Hx. cbn [default]. apply (Forall_lookup_1 _ _ _ _ T4 Hx).
Qed.

(** close of an open descriptor always returns 0: the descriptor is free
    again, the handle behind it has one reference less and is freed with its
    file at the last one, and scheduler, handle table, file system and heap
    stay consistent; a descriptor that is not open gives EBADF and changes
    nothing. *)
Theorem sys_close_spec k l bs others r :
  kernel_ok k l bs others →
  let fd := s32 (rdi r) in
  let g := sched_get_fd (ks k) fd in
  if g <? 0 then sys_close r k = Ret (SysReturn (syscall_error SYSCALL_EBADF) k)
  else ∃ k' bs', sys_close r k = Ret (SysReturn 0 k') ∧ kernel_ok k' l bs' others ∧
    cur_fds k' = <[Z.to_nat fd := -1]> (cur_fds k) ∧
    handles (ktable k') = released g (handles (ktable k)).
Proof using AL.
  intros Hok fd g. unfold sys_close. fold fd. fold g. destruct (Z.ltb_spec g 0) as [Hg|Hg]; [done|].
  destruct (get_fd_cur k fd Hg) as (Hfd & Hc & _).
  destruct (set_fd_kernel k l bs others fd (-1) Hok Hfd Hc ltac:(unfold HANDLE_MAX; lia)) as (Hok1 & Ef & Ec & Et & _).
  destruct (release_kernel (set_fd fd (-1) k) l bs others g Hok1) as (k' & bs' & -> & Hok' & Ef' & _ & Eh & _).
  cbn [mbind result_bind]. exists k', bs'. split_and!; [done|done|congruence|congruence].
Qed.

(** The references after an acquisition. *)
Definition acquired (id : Z) (l : list handle) : list handle :=
  alter (λ x, if bool_decide (type x = HANDLE_FREE) then x
              else mk_handle (type x) (file x) (owner_pid x) (hrefcount x + 1)) (Z.to_nat id) l.

Lemma acquire_handles t id : 0 ≤ id < HANDLE_MAX → length (handles t) = Z.to_nat HANDLE_MAX →
  handles (syscall_acquire_handle id t : table D S) = acquired id (handles t).
Proof.
  intros Hi Hl. unfold syscall_acquire_handle, acquired.
  rewrite (proj2 (Z.ltb_ge id 0)), (proj2 (Z.leb_gt _ id)) by lia. cbn [orb].
  pose proof (hnd_lookup t id Hl Hi) as Hx. apply list_eq. intros j.
  destruct (decide (Z.to_nat id = j)) as [<-|Hne].
  - rewrite list_lookup_alter_eq, Hx. cbn [fmap option_fmap option_map].
    destruct (decide (type (hnd t id) = HANDLE_FREE)) as [E|E];
      [rewrite !(bool_decide_true _ E)|rewrite !(bool_decide_false _ E)]; cbn [negb]; [done|].
    cbn. by rewrite list_lookup_insert_eq by (by eapply lookup_lt_Some).
  - rewrite list_lookup_alter_ne by done. destruct (negb _); [|done]. cbn. by rewrite list_lookup_insert_ne.
Qed.

(** dup2 onto another descriptor: afterwards both descriptors name the
    same handle, which counts one more reference, whatever the new descriptor
    named before has been released, no other descriptor changed and every
    invariant holds; a bad descriptor gives EBADF and changes nothing. *)
Theorem sys_dup2_spec k l bs others r :
  kernel_ok k l bs others →
  let old := s32 (rdi r) in
  let new := s32 (rsi r) in
  let g := sched_get_fd (ks k) old in
  if (g <? 0) || (new <? 0) || (16 <=? new) then sys_dup2 r k = Ret (SysReturn (syscall_error SYSCALL_EBADF) k)
  else if old =? new then sys_dup2 r k = Ret (SysReturn (w64 new) k)
  else ∃ k' bs', sys_dup2 r k = Ret (SysReturn (w64 new) k') ∧ kernel_ok k' l bs' others ∧
    cur_fds k' = <[Z.to_nat new := g]> (cur_fds k) ∧
    handles (ktable k') = acquired g
      (if 0 <=? sched_get_fd (ks k) new then released (sched_get_fd (ks k) new) (handles (ktable k))
       else handles (ktable k)).
Proof using AL.
  intros Hok old new g. unfold sys_dup2. fold old new g. destruct (Z.ltb_spec g 0) as [Hg|Hg]; [done|].
  cbn [orb]. destruct ((new <? 0) || _) eqn:En; [done|]. apply orb_false_iff in En as [En1%Z.ltb_ge En2%Z.leb_gt].
  destruct (old =? new); [done|]. destruct (get_fd_cur k old Hg) as (_ & Hc & _).
  pose proof (fd_range k l bs others old Hok Hg) as Hgr. fold g in Hgr.
  assert (∀ k1 bs1, kernel_ok k1 l bs1 others → current_thread (ks k1) ≠ 0 →
    let k2 := set_fd new g k1 in
    kernel_ok (with_table k2 (syscall_acquire_handle g (ktable k2))) l bs1 others ∧
    cur_fds (with_table k2 (syscall_acquire_handle g (ktable k2))) = <[Z.to_nat new := g]> (cur_fds k1) ∧
    handles (ktable (with_table k2 (syscall_acquire_handle g (ktable k2)))) = acquired g (handles (ktable k1))) as Hend.
  { intros k1 bs1 Hok1 Hc1 k2.
    destruct (set_fd_kernel k1 l bs1 others new g Hok1 ltac:(lia) Hc1 ltac:(lia)) as (Hok2 & Ef & _ & Et & _).
    fold k2 in Hok2, Ef, Et. split_and!.
    - unfold kernel_ok, with_table, with_sched. cbn [ks].
      apply (sched_ok_acquire (ks k2) l bs1 others g Hok2).
    - exact Ef.
    - cbn [ktable with_table with_sched ks s_files Sched.with_files]. rewrite acquire_handles, Et; [done|lia|].
      rewrite Et. destruct (so_files _ _ _ _ Hok1) as [F _]. apply F. }
  destruct (Z.leb_spec 0 (sched_get_fd (ks k) new)) as [Hn|Hn].
  - destruct (set_fd_kernel k l bs others new (-1) Hok ltac:(lia) Hc ltac:(unfold HANDLE_MAX; lia)) as (Hok1 & Ef & Ec & Et & _).
    destruct (release_kernel (set_fd new (-1) k) l bs others (sched_get_fd (ks k) new) Hok1)
      as (k1 & bs1 & -> & Hok2 & Ef2 & Ec2 & Eh & _). cbn [mbind result_bind].
    destruct (Hend k1 bs1 Hok2 ltac:(congruence)) as (Hk & Hf & Hh).
    eexists _, bs1. split_and!; [done|done| |].
    + rewrite Hf, Ef2, Ef. by rewrite list_insert_insert_eq.
    + by rewrite Hh, Eh, Et.
  - cbn [mbind result_bind]. destruct (Hend k bs Hok Hc) as (Hk & Hf & Hh). by eexists _, bs.
Qed.
(** ** Opening without a free descriptor *)

Lemma kernel_vfs k l bs others :
  kernel_ok k l bs others → vfs_ok (tvfs (ktable k)) (kheap k) (l ++ stacks (ks k) l ++ others).
Proof. intros Hok. destruct (so_files _ _ _ _ Hok) as (_ & Hv & ->). split; [done|apply Hok]. Qed.

(** a defect of open: when the caller's sixteen descriptors are all in use
    and the path names a file, the file is closed twice, first with its new
    handle and then again through a pointer that is no longer allocated. *)
Theorem sys_open_double_close k l bs others r path f v h :
  kernel_ok k l bs others →
  al_room (kheap k) SIZEOF_VFS_FILE 16 → room_for [SIZEOF_FAT_FILE; SIZEOF_VFS_FILE] (kheap k) →
  resolve (rdi r) USER_PATH_MAX k = Ret (Some path) →
  streq path (chars "/dev/tty") = false → streq path (chars "/dev/console") = false →
  vfs_open img (Some path) (tvfs (ktable k)) (kheap k) = Ret (SYSCALL_OK, f, v, h) →
  (∃ i, 0 ≤ i < HANDLE_MAX ∧ type (hnd (ktable k) i) = HANDLE_FREE) →
  (∀ fd, 0 ≤ fd < 16 → nth (Z.to_nat fd) (cur_fds k) 0 ≠ -1) →
  sys_open img r k = Panic DANGLING f.
Proof using AL.
  intros Hok Hr1 Hr2 Hres Hs1 Hs2 Eo (i & Hi & Hfree) Hfull.
  pose proof (vfs_open_core img path _ _ _ (kernel_vfs k l bs others Hok) Hr1 Hr2) as Hpost.
  rewrite Eo in Hpost. destruct Hpost as (Hv & _ & [(_ & Hf0 & Hnew & x & Ef & _ & Href & _)|[Hc _]]);
    [|exfalso; rewrite !elem_of_cons, elem_of_nil in Hc; unfold SYSCALL_OK in Hc; naive_solver].
  assert (files v !! f = Some x) as Hfx by (rewrite Ef; by rewrite lookup_insert_eq).
  destruct (so_files _ _ _ _ Hok) as (Hh & _ & _). pose proof (hk_length _ Hh) as Hlen.
  change (s_files (ks k)) with (ktable k) in Hh, Hlen.
  unfold sys_open. rewrite Hres. cbn [mbind result_bind]. rewrite Hs1, Hs2. cbn [orb]. rewrite Eo.
  cbn [mbind result_bind]. set (k1 := with_table_heap k (with_vfs (ktable k) v) h).
  unfold new_handle, handle_alloc. change (λ i, bool_decide (type (hnd (ktable k1) i) = HANDLE_FREE))
    with (λ i, bool_decide (type (hnd (ktable k) i) = HANDLE_FREE)).
  destruct (find_range 0 HANDLE_MAX _) as [j|] eqn:Ej.
  2:{ exfalso. rewrite find_range_None in Ej. specialize (Ej i Hi). by rewrite bool_decide_true in Ej. }
  apply find_range_Some in Ej as (Hj & Hjf%bool_decide_eq_true & _).
  cbn [SYSCALL_OK Z.eqb negb]. rewrite (proj2 (Z.ltb_ge j 0)) by lia.
  set (hd_ := mk_handle HANDLE_VFS f _ 1). set (k2 := with_table k1 _).
  assert (allocate_fd j k2 = (-1, k2)) as ->.
  { unfold allocate_fd. assert (sched_allocate_fd j (ks k2) = (-1, ks k2)) as ->; [|by destruct k2].
    unfold sched_allocate_fd. rewrite (proj2 (Z.ltb_ge j 0)) by lia. destruct (negb _); [|done].
    replace (find_range 0 16 _) with (@None Z); [done|]. symmetry. apply find_range_None.
    intros fd Hfd. apply Z.eqb_neq. by apply Hfull. }
  cbn [Z.ltb Z.compare].
  assert (hnd (ktable k2) j = hd_) as Ehd.
  { unfold hnd. subst k2. unfold with_table, with_sched, ktable. cbn [ks s_files Sched.with_files].
    unfold set_handle. cbn [handles with_handles]. rewrite nth_lookup, list_lookup_insert_eq; [done|].
    change (handles _) with (handles (ktable k)). rewrite Hlen. lia. }
  destruct (vfs_close_core v h _ f x Hv Hfx) as (v2 & h2 & E2 & _ & _ & _ & Hd). specialize (Hd Href).
  assert (tvfs (ktable k2) = v ∧ kheap k2 = h) as [Ev Eh] by done.
  unfold release at 1, syscall_release_handle. rewrite (proj2 (Z.ltb_ge j 0)), (proj2 (Z.leb_gt _ j)) by lia.
  rewrite Ehd, bool_decide_false by done. cbn [orb hd_ type file owner_pid hrefcount].
  change (1 - 1 <=? 0) with true. rewrite bool_decide_true by done. cbv zeta iota.
  change (tvfs (set_handle (ktable k2) j _)) with (tvfs (ktable k2)). rewrite Ev, Eh, E2.
  cbn [mbind result_bind]. unfold close_file. cbn [ktable with_table_heap with_sched ks s_files Sched.with_files tvfs set_handle with_handles with_vfs].
  unfold vfs_close. rewrite (proj2 (Z.eqb_neq f 0) Hf0). unfold deref. by rewrite Hd, lookup_delete_eq.
Qed.
End Spec.
End SyscallSpec.
