(* ===== verification/SyscallInv.v ===== *)
(** * Every system call keeps the kernel consistent

    The invariant of the whole kernel (threads, stacks, handles, files, pipes,
    launch records and the blocks they own on the heap) is kept by every
    handler of the dispatcher, whatever a program passes in its registers.
    This file has the lemmas on the steps the handlers are made of. *)

From S2P Require Import Prelude Memory Pmm Mmu MmuTree UserSpace Elf.
From S2P Require Import CString Pipe Irq Tty Paths Bytes Memfs User Alloc.
From S2P Require Import Sched SchedList SchedInv SchedSwitch SchedSpec SchedWait SchedSteps.
From S2P Require Import Ramfs State Fat Vfs VfsInv VfsSpec VfsIo Handles UserPtr Syscall SyscallSpec.
From stdpp Require Import options.
Import Pmm UserSpace CString Paths Bytes Memfs Sched SchedList SchedInv SchedSpec SchedWait SchedSteps.
Import Vfs VfsInv VfsSpec VfsIo Handles UserPtr Syscall SyscallSpec.

Module SyscallInv.

Section Inv.
Context {H D S : Type} `{!Allocator H} {AL : AllocatorLaws H} `{!SectorDev D S}.
Implicit Types (k : kernel H D S) (v : vfs D S) (h : H) (l bs O others : list Z).

(** ** Results *)

(** How a system call may end the system: the allocator gives up, the FAT
    driver follows an endless chain, no frame is left or, for the calls that
    store into user memory, the page is not writable. *)
Definition may_panic (stores : bool) (msg : string) (code : Z) : Prop :=
  excused (H := H) msg code ∨ (msg = "Out of physical memory"%string ∧ code = 0) ∨ (stores = true ∧ msg = FAULT).

Definition safe {X} (stores : bool) (r : result X) (P : X → Prop) : Prop :=
  match r with Ret x => P x | Panic msg code => may_panic stores msg code end.

Lemma safe_bind {X Y} b (r : result X) (f : X → result Y) P Q :
  safe b r P → (∀ x, P x → safe b (f x) Q) → safe b (r ≫= f) Q.
Proof. destruct r; simpl; auto. Qed.

Lemma safe_ensures {X} b (r : result X) (P : X → Prop) : ensures (H := H) r P → safe b r P.
Proof. destruct r; simpl; [done|]. by left. Qed.

(** ** What the handlers leave alone *)

Record frame k k' : Prop := {
  fr_launches : launches k' = launches k;
  fr_tty : kt k' = kt k;
  fr_pmm : kp k' = kp k;
  fr_cur : current_thread (ks k') = current_thread (ks k);
  fr_threads : threads (ks k') = threads (ks k);
}.

Lemma kframe_refl k : frame k k.
Proof. done. Qed.
Lemma kframe_trans k1 k2 k3 : frame k1 k2 → frame k2 k3 → frame k1 k3.
Proof. intros [] []. split; congruence. Qed.

Lemma table_heap_frame k t h : frame k (with_table_heap k t h).
Proof. done. Qed.

Lemma release_frame id k k' : release id k = Ret k' → frame k k'.
Proof. unfold release. intros ([t h] & _ & [= <-])%bind_Ret. done. Qed.

(** ** The file system under the handles *)

Lemma set_vfs k l bs O v h :
  kernel_ok k l bs O → vfs_ok v h (l ++ stacks (ks k) l ++ O) → handles_ok (with_vfs (ktable k) v) →
  kernel_ok (with_table_heap k (with_vfs (ktable k) v) h) l (blocks v) O.
Proof.
  intros Hok [Hi Hl] Hh. unfold kernel_ok, with_table_heap, with_sched. cbn [ks].
  apply (sched_ok_files (ks k) l bs O); [done| |done]. split_and!; [done|done|done].
Qed.

Lemma handles_of k l bs O : kernel_ok k l bs O → handles_ok (ktable k).
Proof. intros Hok. by destruct (so_files _ _ _ _ Hok) as [? _]. Qed.

Lemma handles_grow (t : table D S) v :
  handles_ok t → (∀ p, is_Some (files (tvfs t) !! p) → is_Some (files v !! p)) → handles_ok (with_vfs t v).
Proof. intros [K1 K2 K3] Hv. split; [done| |done]. intros i x Hx Ht. apply Hv. by apply (K2 i). Qed.

(** An open file no handle refers to. *)
Definition unowned k (f : Z) : Prop :=
  is_Some (files (tvfs (ktable k)) !! f) ∧
  ∀ i x, handles (ktable k) !! i = Some x → type x = HANDLE_VFS → file x ≠ f.

(** A new file is not in the table. *)
Lemma fresh_unowned k l bs O f v h :
  kernel_ok k l bs O → files (tvfs (ktable k)) !! f = None → is_Some (files v !! f) →
  unowned (with_table_heap k (with_vfs (ktable k) v) h) f.
Proof.
  intros Hok Hf Hv. split; [done|]. intros i x Hx Ht Ef.
  destruct (hk_file _ (handles_of k l bs O Hok) i x Hx Ht) as [g Hg]. congruence.
Qed.

(** Closing a file. *)
Lemma closed_other v h O p f v' h' g :
  vfs_ok v h O → files v !! p = Some f → vfs_close p v h = Ret (v', h') → g ≠ p →
  is_Some (files v !! g) → is_Some (files v' !! g).
Proof using AL.
  intros Hok Hf E Hg Hs. destruct (vfs_close_core v h O p f Hok Hf) as (v2 & h2 & E' & _ & _ & H1 & H2).
  rewrite E in E'. injection E' as <- <-. destruct (vi_files _ (proj1 Hok) p f Hf) as [_ Hfo].
  pose proof (vf_ref _ _ Hfo). destruct (decide (1 < refcount f)).
  - by rewrite H1, lookup_alter_ne.
  - by rewrite H2, lookup_delete_ne by (done || lia).
Qed.

Lemma close_unowned k l bs O f :
  kernel_ok k l bs O → unowned k f →
  ∃ k' bs', close_file f k = Ret k' ∧ kernel_ok k' l bs' O ∧ frame k k' ∧
    ∀ g, g ≠ f → unowned k g → unowned k' g.
Proof using AL.
  intros Hok [[x Hx] Hn]. pose proof (kernel_vfs k l bs O Hok) as Hv.
  destruct (vfs_close_core _ _ _ f x Hv Hx) as (v & h & E & Hv' & _).
  pose proof (λ g, closed_other _ _ _ f x v h g Hv Hx E) as Ho.
  unfold close_file. rewrite E. cbn [mbind result_bind]. eexists _, (blocks v). split; [done|]. split_and!.
  - apply (set_vfs k l bs O v h); [done|done|]. destruct (handles_of k l bs O Hok) as [K1 K2 K3]. split; [done| |done].
    intros i y Hy Ht. apply Ho; [by apply (Hn i)|by apply (K2 i)].
  - done.
  - intros g Hg [Hs Hg']. split; [by apply Ho|done].
Qed.

Lemma release_unowned k l bs O id k' g :
  kernel_ok k l bs O → unowned k g → release id k = Ret k' → unowned k' g.
Proof using AL.
  intros Hok [Hs Hn] E. pose proof (kernel_vfs k l bs O Hok) as Hv.
  destruct (release_kernel k l bs O id Hok) as (k2 & bs2 & E2 & _ & _ & _ & Eh & _).
  assert (k2 = k') as -> by congruence. split.
  - unfold release in E. apply bind_Ret in E as ([t h] & E & [= <-]).
    change (is_Some (files (tvfs t) !! g)). unfold syscall_release_handle in E. destruct (_ || _) eqn:Ei; [by injection E as <- _|].
    apply orb_false_iff in Ei as [E1%Z.ltb_ge E3%Z.leb_gt].
    case_bool_decide as Hf; [by injection E as <- _|]. cbv zeta in E.
    set (x := mk_handle _ _ _ _) in E. destruct (hrefcount x <=? 0); [|by injection E as <- _].
    apply bind_Ret in E as ([v h'] & E & [= <- _]). cbn [tvfs set_handle with_handles with_vfs].
    case_bool_decide as Ht; [|by injection E as <- _].
    pose proof (hnd_lookup (ktable k) id (hk_length _ (handles_of _ _ _ _ Hok)) ltac:(lia)) as Hx.
    destruct (hk_file _ (handles_of _ _ _ _ Hok) _ _ Hx Ht) as [fl Hfl].
    refine (closed_other _ _ _ _ fl v h' g Hv Hfl E _ Hs). intros Eg. by apply (Hn _ _ Hx Ht).
  - intros i x Hx Ht. rewrite Eh in Hx. unfold released in Hx. destruct (_ || _); [by apply (Hn i)|].
    destruct (decide (Z.to_nat id = i)) as [<-|Hne]; [|rewrite list_lookup_alter_ne in Hx by done; by apply (Hn i)].
    rewrite list_lookup_alter_eq in Hx. destruct (handles (ktable k) !! Z.to_nat id) as [y|] eqn:Hy; [|done].
    injection Hx as <-. case_bool_decide; [by apply (Hn _ _ Hy)|]. destruct (_ <=? 1); [done|]. by apply (Hn _ _ Hy).
Qed.

(** ** Handles and descriptors *)

Lemma set_table k l bs O t :
  kernel_ok k l bs O → table_ok (H := H) t bs → kernel_ok (with_table k t) l bs O.
Proof.
  intros Hok Ht. unfold kernel_ok, with_table, with_sched. cbn [ks].
  apply (sched_ok_same (ks k)); auto.
Qed.

Lemma new_handle_ok k l bs O ty f i k' :
  kernel_ok k l bs O → (ty = HANDLE_VFS → unowned k f) → new_handle ty f k = (i, k') →
  kernel_ok k' l bs O ∧ frame k k' ∧ -1 ≤ i < HANDLE_MAX ∧ (i < 0 → k' = k) ∧
  ∀ g, g ≠ f → unowned k g → unowned k' g.
Proof.
  intros Hok Hf E. pose proof (handles_of k l bs O Hok) as [K1 K2 K3]. unfold new_handle, handle_alloc in E.
  destruct (find_range 0 HANDLE_MAX _) as [j|] eqn:Ej; injection E as <- <-.
  2:{ assert (with_table k (ktable k) = k) as -> by (by destruct k as [[] ? ? ?]). split_and!; [done|done|lia|done|done|done]. }
  apply find_range_Some in Ej as (Hj & Hjf%bool_decide_eq_true & _). set (x := mk_handle ty f _ 1).
  destruct (so_files _ _ _ _ Hok) as (_ & Hv & Eb). split_and!; [|done|lia|lia|lia|].
  - apply set_table; [done|]. split_and!; [|done|done]. split.
    + cbn. by rewrite length_insert.
    + intros i y [[-> ->]|[_ Hi]]%set_handle_lookup Hy; [by apply Hf|by apply (K2 i)].
    + intros a b y z [[-> ->]|[_ Ha]]%set_handle_lookup [[-> ->]|[_ Hb]]%set_handle_lookup Hy Hz Ef; [done|..].
      * exfalso. by apply (proj2 (Hf Hy) b z).
      * exfalso. by apply (proj2 (Hf Hz) a y).
      * by apply (K3 _ _ _ _ Ha Hb).
  - intros g Hg [Hs Hn]. split; [done|].
    intros i y [[-> ->]|[_ Hi]]%set_handle_lookup Hy; [by apply not_eq_sym|by apply (Hn i)].
Qed.

Lemma allocate_fd_ok k l bs O g i k' :
  kernel_ok k l bs O → g < HANDLE_MAX → allocate_fd g k = (i, k') →
  kernel_ok k' l bs O ∧ launches k' = launches k ∧ kt k' = kt k ∧ kp k' = kp k ∧ ktable k' = ktable k ∧
  current_thread (ks k') = current_thread (ks k) ∧ -1 ≤ i < 16 ∧
  (0 ≤ g → current_thread (ks k) ≠ 0 → (∃ fd, 0 ≤ fd < 16 ∧ nth (Z.to_nat fd) (cur_fds k) 0 = -1) → 0 ≤ i).
Proof.
  intros Hok Hg E. unfold allocate_fd, sched_allocate_fd in E.
  destruct (Z.ltb_spec g 0).
  { injection E as <- <-. unfold with_sched. cbn. split_and!; auto; lia. }
  destruct (Z.eqb_spec (current_thread (ks k)) 0) as [Hc|Hc]; cbn [negb] in E.
  { injection E as <- <-. unfold with_sched. cbn. split_and!; auto; lia. }
  destruct (find_range 0 16 _) as [j|] eqn:Ej; injection E as <- <-.
  2:{ unfold with_sched. cbn. split_and!; auto; [lia|lia|]. intros _ _ (fd & Hfd & E).
      rewrite find_range_None in Ej. specialize (Ej fd Hfd). apply Z.eqb_neq in Ej. done. }
  apply find_range_Some in Ej as (Hj & _ & _). split_and!; auto; [|lia|lia|lia].
  pose proof (upd_cur_ok (ks k) l bs O (λ t, set_fds (<[Z.to_nat j := g]> (fds t)) t)) as Hu.
  rewrite (proj2 (Z.eqb_neq _ 0) Hc) in Hu. apply Hu; try done. intros t. apply insert_fd_typed. lia.
Qed.

Lemma set_fd_ok k l bs O fd g :
  kernel_ok k l bs O → -1 ≤ g < HANDLE_MAX → kernel_ok (set_fd fd g k) l bs O.
Proof.
  intros Hok Hg. unfold set_fd, sched_set_fd, with_sched, kernel_ok. cbn [ks]. destruct (_ || _); [done|].
  apply upd_cur_ok; try done. intros t. by apply insert_fd_typed.
Qed.

(** ** The invariant of the kernel *)

(** The blocks of the launch records belong to the kernel too. *)
Record kinv k others : Prop := {
  ki_objects : ∃ l bs, kernel_ok k l bs (keys (launches k) ++ others);
  ki_input : Irq.irqs_ok (Tty.input (kt k));
}.

Lemma kinv_frame k k' l bs others :
  kinv k others → launches k' = launches k → kt k' = kt k →
  kernel_ok k' l bs (keys (launches k) ++ others) → kinv k' others.
Proof. intros [_ Hi] El Et Hok. split; [|by rewrite Et]. exists l, bs. by rewrite El. Qed.

Lemma kinv_release k others id : kinv k others → ∃ k', release id k = Ret k' ∧ kinv k' others ∧ frame k k'.
Proof using AL.
  intros [(l & bs & Hok) Hi]. destruct (release_kernel k l bs _ id Hok) as (k' & bs' & E & Hok' & _).
  pose proof (release_frame id k k' E) as F. exists k'. split; [done|]. split; [|done].
  eapply (kinv_frame k); [by split; [exists l, bs|]|apply F|apply F|done].
Qed.

(** ** User memory *)

Lemma store_user_inv k others data a : kinv k others → safe true (store_user data a k) (λ k', kinv k' others).
Proof.
  intros Hk. unfold store_user. assert (∀ m, kinv (with_user_mem k m) others) as Hm by (intros m; by destruct Hk).
  enough (∀ d m b, safe true (user_write d m (kroot k) b) (λ _, True)) as Hw.
  { eapply safe_bind; [apply Hw|]. intros m _. apply Hm. }
  intros d. induction d as [|c d IH]; intros m b; cbn [user_write]; [done|].
  unfold user_store. destruct (MmuTree.hw_translate m (kroot k) b) as [[f fl]|]; [|by right; right].
  destruct (Mmu.has fl _); [apply IH|by right; right].
Qed.

Lemma checked_range (s : pmm) (root a n : Z) :
  MmuTree.tree_ok s root → 0 ≤ a < 2 ^ 64 → 0 ≤ n < 2 ^ 64 → user_ptr_range (Pmm.mem s) root a n = true →
  ∀ o m, 0 ≤ o → 0 ≤ m → o + m ≤ n → ∃ x, user_read (Z.to_nat m) (Pmm.mem s) root (a + o) = Ret x ∧ length x = Z.to_nat m.
Proof.
  intros T Ha Hn Hr o m Ho Hm Hle. apply user_ptr_range_iff in Hr as (_ & _ & Ht & Hp); [|done|done].
  destruct (checked_read s root T (Z.to_nat m) (a + o)) as (x & E & Hl & _); [lia|lia| |by exists x].
  intros b Hb. apply Hp. lia.
Qed.
End Inv.
End SyscallInv.
