(* ===== verification/SyscallSafe.v ===== *)
(** * The system calls are safe

    [syscall_handle_safe]: a system call with any registers, made by a running
    thread, keeps the invariant of the kernel or ends the system in one of a
    few named ways. *)

From S2P Require Import Prelude Memory Pmm Mmu MmuTree UserSpace Elf.
From S2P Require Import CString Pipe Irq Tty Paths Bytes Memfs User Alloc.
From S2P Require Import Sched SchedList SchedInv SchedSwitch SchedSpec SchedWait SchedSteps.
From S2P Require Import Ramfs State Fat Vfs VfsInv VfsSpec VfsIo Handles UserPtr Syscall SyscallSpec SyscallInv.
From stdpp Require Import options.
Import Pmm UserSpace CString Paths Bytes Memfs User Sched SchedList SchedInv SchedSpec SchedWait SchedSteps.
Import Vfs VfsInv VfsSpec VfsIo Handles UserPtr Syscall SyscallSpec SyscallInv.

Module SyscallSafe.

Section Safe.
Context {H D S : Type} `{!Allocator H} {AL : AllocatorLaws H} `{!SectorDev D S}.
Context (img : user_images) (pml4_table : Z) (outside : Z → Z) (tramp launch_entry : Z).
Implicit Types (k : kernel H D S) (v : vfs D S) (h : H) (l bs O others : list Z) (w : world H D S).

(** ** The caller *)

(** The registers hold 64-bit words. *)
Definition regs_typed (r : syscall_regs) : Prop :=
  0 ≤ rdi r < 2 ^ 64 ∧ 0 ≤ rsi r < 2 ^ 64 ∧ 0 ≤ rdx r < 2 ^ 64 ∧ 0 ≤ r10 r < 2 ^ 64.

(** What happens while a call waits keeps every component consistent. *)
Record world_ok w others : Prop := {
  wo_input : Forall (λ e, ∀ i, Irq.irqs_ok i → Irq.irqs_ok (e i)) (w_input w);
  wo_pipe : Forall ends_kept (w_pipe w);
  wo_sched : Forall (keeps others) (w_sched w);
}.

(** A running thread with its own address space. *)
Record caller k (r : syscall_regs) : Prop := {
  ca_alive : state (cur (ks k)) ≠ THREAD_DEAD;
  ca_space : MmuTree.tree_ok (kp k) (kroot k);
  ca_regs : regs_typed r;
}.

(** The kernel after a call. *)
Definition res_ok k others (res : sysres (kernel H D S)) : Prop :=
  match res with
  | SysReturn _ k' | SysWaiting k' | SysEnter _ _ _ k' => kinv k' others
  | SysYield f | SysExit f => f ≠ Looping ∧ kinv (after k f) others
  | SysSpinning => False
  end.

Lemma safe_error b k0 k others e : kinv k others → safe b (error e k) (res_ok k0 others).
Proof. done. Qed.

Lemma with_table_same k t : with_table_heap k t (kheap k) = with_table k t.
Proof. by destruct k as [[] ? ? ?]. Qed.

Lemma kinv_tty k others t : kinv k others → Irq.irqs_ok (Tty.input t) → kinv (with_tty k t) others.
Proof. by intros [Hok _] Ht. Qed.

(** A handle to a file, found through a descriptor. *)
Lemma fd_file k l bs O fd :
  kernel_ok k l bs O → 0 ≤ sched_get_fd (ks k) fd →
  type (hnd (ktable k) (sched_get_fd (ks k) fd)) = HANDLE_VFS →
  ∃ f, files (tvfs (ktable k)) !! file (hnd (ktable k) (sched_get_fd (ks k) fd)) = Some f.
Proof.
  intros Hok Hg Ht. pose proof (handles_of k l bs O Hok) as Hh. pose proof (fd_range k l bs O fd Hok Hg) as Hr.
  destruct (hk_file _ Hh _ _ (hnd_lookup (ktable k) (sched_get_fd (ks k) fd) (hk_length _ Hh) ltac:(lia)) Ht) as [f Hf].
  by exists f.
Qed.

(** The table after a read or a write. *)
Lemma io_kernel k l bs others v h :
  kinv k others → kernel_ok k l bs (keys (launches k) ++ others) →
  vfs_ok v h (l ++ stacks (ks k) l ++ keys (launches k) ++ others) → dom (files v) = dom (files (tvfs (ktable k))) →
  kinv (with_table_heap k (with_vfs (ktable k) v) h) others.
Proof.
  intros Hk Hok Hv Hd. apply (kinv_frame k _ l (blocks v)); [done|done|done|].
  apply (set_vfs k l bs); [done|done|]. apply handles_grow; [by eapply handles_of|].
  intros p. by rewrite <- !elem_of_dom, Hd.
Qed.

(** ** Reading and writing *)

Lemma sys_read_safe w r k others :
  kinv k others → caller k r → world_ok w (keys (launches k) ++ others) →
  safe true (sys_read img w r k) (res_ok k others).
Proof.
  intros Hk [_ T (R1 & R2 & R3 & _)] [W1 W2 _]. pose proof Hk as [(l & bs & Hok) Hi]. unfold sys_read.
  destruct ((rsi r =? 0) || _) eqn:E0; [done|]. apply orb_false_iff in E0 as [_ E0%Z.eqb_neq].
  destruct (user_ptr_range _ _ _ _) eqn:Hr; cbn [negb]; [|by apply safe_error].
  set (g := sched_get_fd (ks k) (s32 (rdi r))). destruct (Z.ltb_spec g 0) as [Hg|Hg]; [by apply safe_error|].
  destruct (type (hnd (ktable k) g)) eqn:Ht.
  - by apply safe_error.
  - destruct (checked_range (kp k) (kroot k) (rsi r) (rdx r) T R2 R3 Hr 0 (rdx r)) as (b & Eb & Hb); [lia..|].
    rewrite Z.add_0_r in Eb. unfold kmem. rewrite Eb. cbn [mbind result_bind].
    pose proof (Tty.tty_loop_total (w_input w) (rdx r) (kt k) b 0 Hi W1 ltac:(lia) ltac:(lia)) as Htty.
    unfold Tty.tty_read. rewrite (proj2 (Z.eqb_neq _ 0) E0).
    destruct (Tty.tty_loop _ _ _ _ _) as [[[t b'] n]|[[t b'] n]|]; [| |done]; destruct Htty as [Ht' _];
      (eapply safe_bind; [by apply (store_user_inv (with_tty k t) others), kinv_tty|done]).
  - destruct (fd_file k l bs _ (s32 (rdi r)) Hok Hg Ht) as [f Hf].
    eapply safe_bind; [apply safe_ensures, (vfs_read_core img (w_pipe w) _ f (rdx r) _ _ _ (kernel_vfs k l bs _ Hok) Hf W2)|].
    intros o Ho. assert (∀ v, vfs_ok v (kheap k) (l ++ stacks (ks k) l ++ keys (launches k) ++ others) →
      dom (files v) = dom (files (tvfs (ktable k))) → kinv (with_table k (with_vfs (ktable k) v)) others) as Hv.
    { intros v Hv Hd. rewrite <- with_table_same. by apply (io_kernel k l bs). }
    destruct o as [[[n out] v]|[[n out] v]|]; [| |done]; destruct Ho as [Hv1 Hv2];
      (eapply safe_bind; [apply (store_user_inv _ others), Hv; done|]); intros k' Hk'; [|done].
    destruct (n <? 0); [by apply safe_error|done].
Qed.

(** Room in the heap for the largest file the call can make. *)
Definition write_room k (r : syscall_regs) : Prop :=
  ∀ p f src, files (tvfs (ktable k)) !! p = Some f → length src = Z.to_nat (rdx r) →
  ram_room (tvfs (ktable k)) (kheap k) f src.

Lemma sys_write_safe w r k others :
  kinv k others → caller k r → world_ok w (keys (launches k) ++ others) → write_room k r →
  safe false (sys_write w r k) (res_ok k others).
Proof using AL.
  intros Hk [_ T (R1 & R2 & R3 & _)] [W1 W2 _] Hroom. pose proof Hk as [(l & bs & Hok) Hi]. unfold sys_write.
  set (g := sched_get_fd (ks k) (s32 (rdi r))). destruct (Z.ltb_spec g 0) as [Hg|Hg]; [by apply safe_error|].
  case_bool_decide as Hf0; [by apply safe_error|].
  destruct (user_ptr_range _ _ _ _) eqn:Hr; cbn [negb]; [|by apply safe_error].
  destruct (checked_range (kp k) (kroot k) (rsi r) (rdx r) T R2 R3 Hr 0 (rdx r)) as (b & Eb & Hb); [lia..|].
  rewrite Z.add_0_r in Eb. unfold kmem. rewrite Eb. cbn [mbind result_bind].
  destruct (type (hnd (ktable k) g)) eqn:Ht.
  - by apply safe_error.
  - assert (Tty.input (Tty.tty_write (kt k) (Some b)).2 = Tty.input (kt k)) as Et
      by (by destruct b).
    destruct (Tty.tty_write (kt k) (Some b)) as [n t]. cbn [snd] in Et. apply kinv_tty; [done|by rewrite Et].
  - destruct (fd_file k l bs _ (s32 (rdi r)) Hok Hg Ht) as [f Hf].
    eapply safe_bind; [apply safe_ensures, (vfs_write_core (w_pipe w) _ f b _ _ _ (kernel_vfs k l bs _ Hok) Hf W2 (Hroom _ f b Hf Hb))|].
    intros o Ho. destruct o as [[[n v] h]|[[n v] h]|]; [| |done]; destruct Ho as [Hv1 Hv2];
      pose proof (io_kernel k l bs others v h Hk Hok Hv1 Hv2) as Hk'; [|done].
    cbv zeta. destruct (n <? 0); [by apply safe_error|done].
Qed.

(** ** Descriptors *)

Lemma sys_close_safe r k others : kinv k others → safe false (sys_close r k) (res_ok k others).
Proof using AL.
  intros Hk. pose proof Hk as [(l & bs & Hok) Hi]. unfold sys_close.
  destruct (Z.ltb_spec (sched_get_fd (ks k) (s32 (rdi r))) 0); [by apply safe_error|].
  assert (kinv (set_fd (s32 (rdi r)) (-1) k) others) as Hk1.
  { apply (kinv_frame k _ l bs); [done|done|done|]. apply set_fd_ok; [done|unfold HANDLE_MAX; lia]. }
  destruct (kinv_release _ others (sched_get_fd (ks k) (s32 (rdi r))) Hk1) as (k' & -> & Hk' & _). done.
Qed.

Lemma sys_dup2_safe r k others : kinv k others → safe false (sys_dup2 r k) (res_ok k others).
Proof using AL.
  intros Hk. pose proof Hk as [(l & bs & Hok) Hi]. unfold sys_dup2.
  set (g := sched_get_fd (ks k) (s32 (rdi r))). destruct (Z.ltb_spec g 0) as [|Hg]; [by apply safe_error|].
  destruct (_ || _); [by apply safe_error|]. destruct (_ =? _); [done|].
  pose proof (fd_range k l bs _ (s32 (rdi r)) Hok Hg) as Hr. fold g in Hr.
  apply safe_bind with (P := λ k', kinv k' others).
  - destruct (0 <=? _); [|done].
    assert (kinv (set_fd (s32 (rsi r)) (-1) k) others) as Hk1.
    { apply (kinv_frame k _ l bs); [done|done|done|]. apply set_fd_ok; [done|unfold HANDLE_MAX; lia]. }
    by destruct (kinv_release _ others (sched_get_fd (ks k) (s32 (rsi r))) Hk1) as (k' & -> & Hk' & _).
  - intros k' Hk'. pose proof Hk' as [(l' & bs' & Hok') Hi']. cbn [safe res_ok].
    apply (kinv_frame k' _ l' bs'); [done|done|done|].
    pose proof (set_fd_ok k' l' bs' _ (s32 (rsi r)) g Hok' ltac:(lia)) as Hok2.
    apply set_table; [done|]. apply acquire_ok. exact (so_files _ _ _ _ Hok2).
Qed.

(** ** Opening *)

(** The caller has a descriptor left. *)
Definition free_fd k : Prop :=
  current_thread (ks k) ≠ 0 ∧ ∃ fd, 0 ≤ fd < 16 ∧ nth (Z.to_nat fd) (cur_fds k) 0 = -1.

Definition open_room k : Prop :=
  al_room (kheap k) SIZEOF_VFS_FILE 16 ∧ room_for [SIZEOF_FAT_FILE; SIZEOF_VFS_FILE] (kheap k).

Lemma cur_fds_frame k k' : frame k k' → cur_fds k' = cur_fds k.
Proof. intros [_ _ _ Ec Et]. unfold cur_fds, cur, thr. by rewrite Ec, Et. Qed.

(** The file an open call returns. *)
Lemma vfs_open_kernel k l bs others path :
  kinv k others → kernel_ok k l bs (keys (launches k) ++ others) → open_room k →
  ensures (H := H) (vfs_open img (Some path) (tvfs (ktable k)) (kheap k)) (λ '(err, f, v, h),
    let k' := with_table_heap k (with_vfs (ktable k) v) h in
    kinv k' others ∧ kernel_ok k' l (blocks v) (keys (launches k) ++ others) ∧ (err = SYSCALL_OK → unowned k' f)).
Proof using AL.
  intros Hk Hok [Hr1 Hr2].
  eapply ensures_mono; [apply (vfs_open_core img path _ _ _ (kernel_vfs k l bs _ Hok) Hr1 Hr2)|].
  intros [[[err f] v] h] (Hv & _ & Ho). cbv zeta.
  assert (kernel_ok (with_table_heap k (with_vfs (ktable k) v) h) l (blocks v) (keys (launches k) ++ others)) as Hok'.
  { apply (set_vfs k l bs); [done|done|]. apply handles_grow; [by eapply handles_of|].
    intros p Hp. destruct Ho as [(_ & _ & _ & x & -> & _)|(_ & _ & ->)]; [|done]. rewrite lookup_insert_is_Some'. auto. }
  split; [by apply (kinv_frame k _ l (blocks v))|]. split; [done|]. intros ->.
  destruct Ho as [(_ & _ & Hn & x & Ef & _)|(Hc & _)].
  - apply (fresh_unowned k l bs _ f v h Hok Hn). rewrite Ef, lookup_insert_eq. by eexists.
  - exfalso. rewrite !elem_of_cons, elem_of_nil in Hc. by destruct Hc as [?|[?|[?|?]]].
Qed.

(** A new handle gets a descriptor. *)
Lemma handle_fd k l bs others ty f g k1 :
  kinv k others → kernel_ok k l bs (keys (launches k) ++ others) → free_fd k →
  (ty = HANDLE_VFS → unowned k f) → new_handle ty f k = (g, k1) → 0 ≤ g →
  let '(i, k2) := allocate_fd g k1 in 0 ≤ i ∧ kinv k2 others.
Proof.
  intros Hk Hok [Hc Hfree] Hun Eg Hg.
  destruct (new_handle_ok k l bs _ ty f g k1 Hok Hun Eg) as (Hok1 & F & Hgr & _).
  destruct (allocate_fd g k1) as [i k2] eqn:E.
  destruct (allocate_fd_ok k1 l bs _ g i k2 Hok1 ltac:(lia) E) as (Hok' & El & Et & _ & _ & _ & _ & Hi).
  split; [apply Hi; [lia|by rewrite (fr_cur _ _ F)|by rewrite (cur_fds_frame k k1 F)]|].
  apply (kinv_frame k _ l bs); [done|by rewrite El, (fr_launches _ _ F)|by rewrite Et, (fr_tty _ _ F)|done].
Qed.

Lemma sys_open_safe r k others :
  kinv k others → caller k r → open_room k → free_fd k → safe false (sys_open img r k) (res_ok k others).
Proof using AL.
  intros Hk [_ T (R1 & _)] Hroom Hfree. pose proof Hk as [(l & bs & Hok) Hi]. unfold sys_open.
  destruct (resolve_total (kp k) (kroot k) T (sched_get_cwd (ks k) 256) (rdi r) USER_PATH_MAX R1) as [p Ep].
  unfold resolve, kmem. rewrite Ep. cbn [mbind result_bind]. destruct p as [path|]; [|by apply safe_error].
  destruct (streq _ _ || _).
  - destruct (new_handle HANDLE_TTY 0 k) as [g k1] eqn:Eg.
    destruct (new_handle_ok k l bs _ HANDLE_TTY 0 g k1 Hok ltac:(done) Eg) as (_ & _ & _ & Hno & _).
    destruct (Z.ltb_spec g 0) as [Hlt|Hge]; [rewrite (Hno Hlt); by apply safe_error|].
    pose proof (handle_fd k l bs others HANDLE_TTY 0 g k1 Hk Hok Hfree ltac:(done) Eg Hge) as Hgive.
    destruct (allocate_fd g k1) as [i k2]. destruct Hgive as [Hi0 Hk2]. by rewrite (proj2 (Z.ltb_ge i 0) Hi0).
  - eapply safe_bind; [apply safe_ensures, (vfs_open_kernel k l bs others path Hk Hok Hroom)|].
    intros [[[err f] v] h]. cbv zeta. set (k0 := with_table_heap k (with_vfs (ktable k) v) h).
    intros (Hk0 & Hok0 & Hun). destruct (Z.eqb_spec err SYSCALL_OK) as [->|]; cbn [negb]; [|by apply safe_error].
    specialize (Hun eq_refl). destruct (new_handle HANDLE_VFS f k0) as [g k1] eqn:Eg.
    destruct (new_handle_ok k0 l _ _ _ _ g k1 Hok0 (λ _, Hun) Eg) as (_ & _ & _ & Hno & _).
    destruct (Z.ltb_spec g 0) as [Hlt|Hge].
    + rewrite (Hno Hlt). destruct (close_unowned k0 l _ _ f Hok0 Hun) as (k2 & bs2 & -> & Hok2 & F2 & _).
      apply (kinv_frame k0 _ l bs2); [done|apply F2|apply F2|done].
    + pose proof (handle_fd k0 l _ others HANDLE_VFS f g k1 Hk0 Hok0 Hfree (λ _, Hun) Eg Hge) as Hgive.
      destruct (allocate_fd g k1) as [i k2]. destruct Hgive as [Hi0 Hk2]. by rewrite (proj2 (Z.ltb_ge i 0) Hi0).
Qed.

(** ** Pipes *)

Definition pipe_room k : Prop := room_for [SIZEOF_PIPE; SIZEOF_VFS_FILE; SIZEOF_VFS_FILE] (kheap k).

(** Taking back what a failed call has done. *)
Lemma release_two k k0 others (h1 h2 : Z) : kinv k others →
  safe true (k ← release h1 k; k ← release h2 k; error SYSCALL_ENOMEM k) (res_ok k0 others).
Proof using AL.
  intros Hk. destruct (kinv_release k others h1 Hk) as (k1 & -> & Hk1 & _). cbn [mbind result_bind].
  by destruct (kinv_release k1 others h2 Hk1) as (k2 & -> & Hk2 & _).
Qed.

Lemma unset_fd k others fd : kinv k others → kinv (if 0 <=? fd then set_fd fd (-1) k else k) others.
Proof.
  intros Hk. destruct (0 <=? fd); [|done]. pose proof Hk as [(l & bs & Hok) _].
  apply (kinv_frame k _ l bs); [done|done|done|]. apply set_fd_ok; [done|unfold HANDLE_MAX; lia].
Qed.

(** The two ends get handles and descriptors. *)
Lemma pipe_handles pipefd k k0 l bs others rd wr :
  kinv k others → kernel_ok k l bs (keys (launches k) ++ others) → unowned k rd → unowned k wr → rd ≠ wr →
  safe true
    (let '(h1, k) := new_handle HANDLE_VFS rd k in
     if h1 <? 0 then k ← close_file rd k; k ← close_file wr k; error SYSCALL_ENOMEM k
     else
       let '(h2, k) := new_handle HANDLE_VFS wr k in
       if h2 <? 0 then k ← release h1 k; k ← close_file wr k; error SYSCALL_ENOMEM k
       else
         let '(fd1, k) := allocate_fd h1 k in
         let '(fd2, k) := allocate_fd h2 k in
         if (fd1 <? 0) || (fd2 <? 0) then
           let k := if 0 <=? fd1 then set_fd fd1 (-1) k else k in
           let k := if 0 <=? fd2 then set_fd fd2 (-1) k else k in
           k ← release h1 k; k ← release h2 k; error SYSCALL_ENOMEM k
         else
           k ← store_user (le_bytes 4 fd1) pipefd k;
           k ← store_user (le_bytes 4 fd2) (pipefd + 4) k;
           Ret (SysReturn 0 k)) (res_ok k0 others).
Proof using AL.
  intros Hk Hok Hrd Hwr Hne. destruct (new_handle HANDLE_VFS rd k) as [h1 k1] eqn:E1.
  destruct (new_handle_ok k l bs _ _ _ h1 k1 Hok (λ _, Hrd) E1) as (Hok1 & F1 & Hr1 & Hno1 & Hun1).
  destruct (Z.ltb_spec h1 0) as [Hlt|Hge].
  { rewrite (Hno1 Hlt). destruct (close_unowned k l bs _ rd Hok Hrd) as (k2 & bs2 & -> & Hok2 & F2 & Hu2).
    cbn [mbind result_bind]. destruct (close_unowned k2 l bs2 _ wr Hok2 (Hu2 wr (not_eq_sym Hne) Hwr)) as (k3 & bs3 & -> & Hok3 & F3 & _).
    pose proof (kframe_trans _ _ _ F2 F3) as F. apply (kinv_frame k _ l bs3); [done|apply F|apply F|done]. }
  specialize (Hun1 wr (not_eq_sym Hne) Hwr). destruct (new_handle HANDLE_VFS wr k1) as [h2 k2] eqn:E2.
  destruct (new_handle_ok k1 l bs _ _ _ h2 k2 Hok1 (λ _, Hun1) E2) as (Hok2 & F2 & Hr2 & Hno2 & _).
  destruct (Z.ltb_spec h2 0) as [Hlt2|Hge2].
  { rewrite (Hno2 Hlt2). destruct (release_kernel k1 l bs _ h1 Hok1) as (k3 & bs3 & E3 & Hok3 & _).
    pose proof (release_unowned k1 l bs _ h1 k3 wr Hok1 Hun1 E3) as Hun3. pose proof (release_frame _ _ _ E3) as F3.
    rewrite E3. cbn [mbind result_bind].
    destruct (close_unowned k3 l bs3 _ wr Hok3 Hun3) as (k4 & bs4 & -> & Hok4 & F4 & _).
    pose proof (kframe_trans _ _ _ (kframe_trans _ _ _ F1 F3) F4) as F.
    apply (kinv_frame k _ l bs4); [done|apply F|apply F|done]. }
  destruct (allocate_fd h1 k2) as [fd1 k3] eqn:E3.
  destruct (allocate_fd_ok k2 l bs _ h1 fd1 k3 Hok2 ltac:(lia) E3) as (Hok3 & El3 & Et3 & _).
  destruct (allocate_fd h2 k3) as [fd2 k4] eqn:E4.
  destruct (allocate_fd_ok k3 l bs _ h2 fd2 k4 Hok3 ltac:(lia) E4) as (Hok4 & El4 & Et4 & _).
  pose proof (kframe_trans _ _ _ F1 F2) as F. assert (kinv k4 others) as Hk4.
  { apply (kinv_frame k _ l bs); [done|by rewrite El4, El3, (fr_launches _ _ F)|by rewrite Et4, Et3, (fr_tty _ _ F)|done]. }
  destruct (_ || _); [by apply release_two, unset_fd, unset_fd|].
  eapply safe_bind; [exact (store_user_inv k4 others _ _ Hk4)|]. intros k5 Hk5.
  by eapply safe_bind; [exact (store_user_inv k5 others _ _ Hk5)|].
Qed.

Lemma sys_pipe_safe r k others :
  kinv k others → caller k r → pipe_room k → safe true (sys_pipe r k) (res_ok k others).
Proof using AL.
  intros Hk _ Hroom. pose proof Hk as [(l & bs & Hok) Hi]. unfold sys_pipe.
  destruct (negb _); [by apply safe_error|].
  eapply safe_bind; [apply safe_ensures, (pipe_create_core _ _ _ (kernel_vfs k l bs _ Hok) Hroom)|].
  intros [[[[rc rd] wr] v] h] (-> & Hv & _ & _ & Hne & Hn1 & Hn2 & a & _ & _ & _ & Ef). cbn [Z.eqb negb]. cbv zeta.
  set (k0 := with_table_heap k (with_vfs (ktable k) v) h).
  assert (kernel_ok k0 l (blocks v) (keys (launches k) ++ others)) as Hok0.
  { apply (set_vfs k l bs); [done|done|]. apply handles_grow; [by eapply handles_of|].
    intros p Hp. rewrite Ef, !lookup_insert_is_Some'. auto. }
  apply (pipe_handles (rdi r) k0 k l (blocks v) others rd wr); [by apply (kinv_frame k _ l (blocks v))|done| | |done].
  - apply (fresh_unowned k l bs _ rd v h Hok Hn1). rewrite Ef, lookup_insert_ne, lookup_insert_eq by done. by eexists.
  - apply (fresh_unowned k l bs _ wr v h Hok Hn2). rewrite Ef, lookup_insert_eq. by eexists.
Qed.

(** ** Working directory *)

Lemma sys_getcwd_safe r k others : kinv k others → safe true (sys_getcwd r k) (res_ok k others).
Proof.
  intros Hk. unfold sys_getcwd. destruct (_ || _); [by apply safe_error|]. destruct (negb _); [by apply safe_error|].
  cbv zeta. destruct (_ <=? _); [by apply safe_error|].
  by eapply safe_bind; [exact (store_user_inv k others _ _ Hk)|].
Qed.

Lemma upd_cur_kernel k l bs O f :
  kernel_ok k l bs O → (∀ t, links (f t) = links t ∧ stack (f t) = stack t) →
  (∀ t, thread_typed t → thread_typed (f t)) →
  kernel_ok (with_sched k (if negb (current_thread (ks k) =? 0) then upd_cur f (ks k) else ks k)) l bs O.
Proof.
  intros Hok Hf Hty. apply (upd_cur_ok (ks k) l bs O f); [intros t; apply Hf..|done|done].
Qed.

Lemma sys_chdir_safe r k others :
  kinv k others → caller k r → open_room k → safe false (sys_chdir img r k) (res_ok k others).
Proof using AL.
  intros Hk [_ T (R1 & _)] Hroom. pose proof Hk as [(l & bs & Hok) Hi]. unfold sys_chdir.
  destruct (resolve_total (kp k) (kroot k) T (sched_get_cwd (ks k) 256) (rdi r) USER_PATH_MAX R1) as [p Ep].
  unfold resolve, kmem. rewrite Ep. cbn [mbind result_bind]. destruct p as [path|]; [|by apply safe_error].
  eapply safe_bind; [apply safe_ensures, (vfs_open_kernel k l bs others path Hk Hok Hroom)|].
  intros [[[err f] v] h]. cbv zeta. set (k0 := with_table_heap k (with_vfs (ktable k) v) h).
  intros (Hk0 & Hok0 & Hun). destruct (Z.eqb_spec err SYSCALL_OK) as [->|]; cbn [negb]; [|by apply safe_error].
  destruct (close_unowned k0 l _ _ f Hok0 (Hun eq_refl)) as (k2 & bs2 & -> & Hok2 & F2 & _). cbn [mbind result_bind].
  apply (kinv_frame k0 _ l bs2); [done|apply F2|apply F2|].
  apply upd_cur_kernel; [done|done|]. apply set_cwd_typed.
Qed.

(** ** Giving up the processor *)

Lemma lift_flow_ok k l bs others f :
  kinv k others → f ≠ Looping → sched_ok (after (ks k) f) l bs (keys (launches k) ++ others) →
  lift_flow k f ≠ Looping ∧ kinv (after k (lift_flow k f)) others.
Proof.
  intros Hk Hf Hok. destruct f as [s|s|s|]; [..|done]; (split; [done|]);
    by apply (kinv_frame k (with_sched k s) l bs).
Qed.

Lemma sys_yield_safe k others : kinv k others → safe false (sys_yield k) (res_ok k others).
Proof.
  intros Hk. pose proof Hk as [(l & bs & Hok) _]. destruct (resched_ok (ks k) l bs _ Hok) as [Hnl Hok'].
  exact (lift_flow_ok k l bs others _ Hk Hnl Hok').
Qed.

Lemma exit_total k l bs others :
  kinv k others → kernel_ok k l bs (keys (launches k) ++ others) →
  ∃ f, sched_exit (ks k) = Ret f ∧ lift_flow k f ≠ Looping ∧ kinv (after k (lift_flow k f)) others.
Proof using AL.
  intros Hk Hok. destruct (so_cur _ _ _ _ Hok) as [Hc|[Hc _]].
  - destruct (sched_exit_total (ks k) l bs _ Hok Hc) as (f & bs' & E & Hnl & Hok'). exists f. split; [done|].
    exact (lift_flow_ok k l bs' others f Hk Hnl Hok').
  - exists (Halted (ks k)). split; [by apply exit_idle|]. by apply (lift_flow_ok k l bs others (Halted (ks k))).
Qed.

Lemma sys_exit_safe r k others : kinv k others → safe false (sys_exit r k) (res_ok k others).
Proof using AL.
  intros Hk. pose proof Hk as [(l & bs & Hok) _].
  set (k1 := with_sched k (sched_set_current_exit_code (s32 (rdi r)) (ks k))).
  assert (kernel_ok k1 l bs (keys (launches k1) ++ others)) as Hok1.
  { apply upd_cur_kernel; [done|done|]. intros t []. by split. }
  assert (kinv k1 others) as Hk1 by (by apply (kinv_frame k _ l bs)).
  destruct (exit_total k1 l bs others Hk1 Hok1) as (f & E & Hnl & Hk').
  unfold sys_exit, user_exit_with_code, user_exit_common, sched_exit_current.
  change (sched_set_current_exit_code (s32 (rdi r)) (ks k)) with (ks k1). rewrite E. cbn [mbind result_bind safe res_ok].
  by destruct f.
Qed.

(** ** Waiting for a child *)

Lemma sys_wait_safe w r k others :
  kinv k others → caller k r → world_ok w (keys (launches k) ++ others) →
  safe true (sys_wait w r k) (res_ok k others).
Proof using AL.
  intros Hk [Hlive _ _] [_ _ W3]. pose proof Hk as [(l & bs & Hok) _]. unfold sys_wait.
  destruct (_ && _); [by apply safe_error|].
  assert (∀ s, (∃ l bs, sched_ok s l bs (keys (launches k) ++ others)) → kinv (with_sched k s) others) as Hs.
  { intros s (l' & bs' & Hok'). by apply (kinv_frame k _ l' bs'). }
  apply safe_bind with (P := λ o, match o with
    | Done (_, _, s) | Waiting (_, _, s) => kinv (with_sched k s) others | Spinning => False end).
  - set (pp := sched_current_pid (ks k)). destruct (Z.ltb_spec pp 0) as [Hn|Hn].
    { assert (sched_wait_child (w_sched w) pp (ks k) = Ret (Done (-1, 0, ks k))) as ->.
      { destruct (w_sched w); cbn [sched_wait_child]; by rewrite (proj2 (Z.ltb_lt pp 0) Hn). }
      apply Hs. by exists l, bs. }
    destruct (wait_child_core (w_sched w) pp _ Hn W3 (ks k) l bs (conj Hok Hlive)) as (o & s1 & l1 & bs1 & -> & [Hok1 _] & Hp).
    destruct o as [[[c code] s2]|[[c code] s2]|]; [| |done]; cbn [safe wait_post] in *.
    + destruct Hp as [(a & x & b & _ & _ & _ & _ & _ & Hok2 & _)|(_ & -> & _)]; apply Hs; by eexists _, _.
    + destruct Hp as [-> _]. apply Hs. by eexists _, _.
  - intros [[[c code] s]|[[c code] s]|] Ho; [|done|done]. cbv zeta. destruct (c <? 0); [by apply safe_error|].
    apply safe_bind with (P := λ k', kinv k' others); [|done].
    destruct (negb _); [exact (store_user_inv _ others _ _ Ho)|done].
Qed.

(** ** Programs *)

Lemma str_size_small ss : Forall (λ x, (length x ≤ 64)%nat) ss → str_size ss ≤ 65 * Z.of_nat (length ss).
Proof.
  assert (∀ x, (length (cstr x) ≤ length x)%nat) as Hc.
  { intros x. induction x as [|c x IH]; cbn [cstr]; [done|]. destruct (c =? 0); cbn [length]; lia. }
  induction 1 as [|x ss Hx _ IH]; [done|]. rewrite str_size_cons, strlen_spec. cbn [length]. specialize (Hc x). lia.
Qed.

Lemma launch_small_args (l : user_launch) : launch_small l → small_args (Some (largv l)) (Some (lenvp l)).
Proof.
  intros (Ha & He & _ & H1%str_size_small & H2%str_size_small).
  change (str_size (largv l) + str_size (lenvp l) < 2 ^ 62). lia.
Qed.

(** The frame allocator and the kernel's address space. *)
Record memory_ok k : Prop := {
  mo_wf : wf (kp k);
  mo_bound : MmuTree.phys_bound (kp k);
  mo_kernel : MmuTree.tree_ok (kp k) pml4_table;
}.

(** [prepare] changes the frames and, at its first use, the table of built-in
    files. *)
Lemma prepare_safe path argv envp k others :
  kinv k others → memory_ok k → small_args (Some argv) (Some envp) →
  safe false (prepare img pml4_table outside path argv envp k) (λ o, ∃ rc space sp k',
    o = Some (rc, space, sp, k') ∧ kinv k' others ∧ launches k' = launches k ∧
    current_thread (ks k') = current_thread (ks k) ∧
    prepared img pml4_table outside path (Some argv) (Some envp) (memfs_ (tvfs (ktable k))) (kp k)
      (Ret (Some (rc, space, sp, memfs_ (tvfs (ktable k')), kp k')))).
Proof.
  intros Hk [W B T] Hargs. pose proof Hk as [(l & bs & Hok) _]. unfold prepare. cbv zeta.
  pose proof (prepare_core img pml4_table outside path (Some argv) (Some envp) (mk_space 0 0 0 0 0 []) 0
    (memfs_ (tvfs (ktable k))) (kp k) W B T Hargs) as Hp.
  destruct (user_prepare_image _ _ _ _ _ _ _ _ _ _) as [[[[[[rc space] sp] ms] s]|]|msg code];
    [|done|right; by left].
  cbn [mbind result_bind option_map safe]. eexists rc, space, sp, _. split; [done|]. split; [|done].
  apply (kinv_frame k _ l bs); [done|done|done|].
  apply (set_table k l bs _ (with_vfs (ktable k) (with_memfs (tvfs (ktable k)) ms)) Hok).
  destruct (so_files _ _ _ _ Hok) as (Hh & Hv & ->). split_and!.
  - by apply handles_grow.
  - by apply (same_objects_inv (H := H) (tvfs (ktable k))).
  - done.
Qed.

Lemma enter_inv k others root :
  kinv k others → kinv (with_sched k (sched_set_current_aspace root (ks k))) others.
Proof.
  intros Hk. pose proof Hk as [(l & bs & Hok) _]. apply (kinv_frame k _ l bs); [done|done|done|].
  apply upd_cur_kernel; [done|done|]. intros t []. by split.
Qed.

Lemma sys_exec_safe r k others :
  kinv k others → caller k r → memory_ok k → safe false (sys_exec img pml4_table outside r k) (res_ok k others).
Proof.
  intros Hk [_ T (R1 & R2 & R3 & _)] Hm. unfold sys_exec.
  destruct (resolve_total (kp k) (kroot k) T (sched_get_cwd (ks k) 256) (rdi r) USER_PATH_MAX R1) as [p Ep].
  unfold resolve, kmem. rewrite Ep. cbn [mbind result_bind]. destruct p as [path|]; [|by apply safe_error].
  destruct (fill_total (kp k) (kroot k) T path (rsi r) (rdx r) R2 R3) as (o & -> & Ho). cbn [mbind result_bind].
  destruct o as [l|]; [|by apply safe_error].
  eapply safe_bind; [apply (prepare_safe (lpath l) (largv l) (lenvp l) k others Hk Hm), launch_small_args, Ho, eq_refl|].
  intros o (rc & space & sp & k' & -> & Hk' & _). destruct (negb _); [by apply safe_error|]. by apply enter_inv.
Qed.

(** ** Spawning *)

Definition spawn_room k : Prop := room_for [SIZEOF_USER_LAUNCH; SIZEOF_THREAD; STACK_SIZE] (kheap k).

Lemma heap_kernel k l bs O O' h :
  kernel_ok k l bs O → al_live h (bs ++ l ++ stacks (ks k) l ++ O') →
  kernel_ok (with_sched k (Sched.with_heap (ks k) h)) l bs O'.
Proof. intros [L C R Ty F Lv] Lv'. split; auto. by destruct L. Qed.

(** A launch record is given back. *)
Lemma free_launch_ok k l bs O p x :
  kernel_ok k l bs (p :: O) →
  ∃ k', free_launch p (with_launches k x) = Ret k' ∧ kernel_ok k' l bs O ∧ launches k' = delete p x ∧ kt k' = kt k.
Proof using AL.
  intros Hok. pose proof (so_live _ _ _ _ Hok) as Hl.
  destruct (al_free_live (kheap k) (bs ++ l ++ stacks (ks k) l ++ O) p) as (h & E & Hl').
  { eapply al_live_perm; [|done]. by rewrite !app_assoc, Permutation_middle. }
  unfold free_launch. change (kheap (with_launches k x)) with (kheap k). rewrite E. cbn [mbind result_bind].
  eexists. split; [done|]. split; [|done]. exact (heap_kernel k l bs _ O h Hok Hl').
Qed.

Lemma map_fd_ok l bs O xs : ∀ k (x : user_launch),
  kernel_ok k l bs O →
  let k' := (foldl map_fd (k, x) xs).1 in
  kernel_ok k' l bs O ∧ launches k' = launches k ∧ kt k' = kt k ∧ kheap k' = kheap k.
Proof.
  induction xs as [|[i fd] xs IH]; intros k x Hok; [done|]. cbn [foldl map_fd].
  destruct (0 <=? fd); [|by apply IH]. destruct (0 <=? _); [|by apply IH].
  apply (IH (with_table k _)). apply set_table; [done|]. apply acquire_ok. exact (so_files _ _ _ _ Hok).
Qed.

(** From the launch record to the new thread. *)
Lemma spawn_thread k0 k l bs others p x :
  kernel_ok k l bs (p :: keys (launches k) ++ others) → Irq.irqs_ok (Tty.input (kt k)) →
  launches k !! p = None → create_room (ks k) →
  safe false
    (let k := with_launches k (<[p := x]> (launches k)) in
     '(rc, pid_, s) ← sched_create_user tramp launch_entry p (sched_current_pid (ks k)) (ks k);
     let k := with_sched k s in
     if negb (rc =? 0) then k ← free_launch p k; error SYSCALL_ENOMEM k
     else Ret (SysReturn (w64 pid_) k)) (res_ok k0 others).
Proof using AL.
  intros Hok Hi Hp Hroom. cbv zeta. cbn [ks with_launches].
  destruct (sched_create_user tramp launch_entry p _ (ks k)) as [[[rc pid_] s]|msg code] eqn:E; cbn [mbind result_bind].
  2:{ left. left. destruct (sched_create_user_panic tramp (ks k) l bs _ _ _ _ msg code Hok Hroom E) as (h & n & ?).
      by exists h, n. }
  destruct (sched_create_user_ok tramp (ks k) l bs _ _ _ _ rc pid_ s Hok Hroom E) as (l' & Hok' & _).
  destruct (negb (rc =? 0)).
  - destruct (free_launch_ok (with_sched k s) l' bs _ p (<[p := x]> (launches k)) Hok') as (k' & E' & Hok2 & El & Et).
    change (with_sched (with_launches k (<[p := x]> (launches k))) s)
      with (with_launches (with_sched k s) (<[p := x]> (launches k))). rewrite E'.
    split; [|by rewrite Et]. exists l', bs. rewrite El, delete_insert_id by done. exact Hok2.
  - split; [|done]. exists l', bs. cbn [launches with_sched with_launches].
    destruct Hok' as [L C R Ty F Lv]. split; auto. eapply al_live_perm; [|exact Lv].
    rewrite (keys_insert (launches k) p x Hp). cbn [app]. done.
Qed.

Lemma sys_spawn_safe r k others :
  kinv k others → caller k r → spawn_room k → safe false (sys_spawn tramp launch_entry r k) (res_ok k others).
Proof using AL.
  intros Hk [_ T (R1 & R2 & R3 & R4)] (Hr1 & Hr2). pose proof Hk as [(l & bs & Hok) Hi]. unfold sys_spawn.
  destruct (resolve_total (kp k) (kroot k) T (sched_get_cwd (ks k) 256) (rdi r) USER_PATH_MAX R1) as [p Ep].
  unfold resolve. change (kmem k) with (Pmm.mem (kp k)) at 1. rewrite Ep. cbn [mbind result_bind].
  destruct p as [path|]; [|by apply safe_error].
  eapply safe_bind; [apply safe_ensures, (alloc_ensures (kheap k) _ SIZEOF_USER_LAUNCH (so_live _ _ _ _ Hok) ltac:(done) Hr1)|].
  intros [p h] (Hfr & Hp0 & Hl & Ea). rewrite (proj2 (Z.eqb_neq p 0) Hp0).
  set (k1 := with_sched k (Sched.with_heap (ks k) h)). destruct (Hr2 p h Ea) as [Hr3 Hr4].
  assert (launches k !! p = None) as Hpn.
  { apply keys_fresh. intros Hin. apply Hfr. rewrite !elem_of_app. auto. }
  assert (kernel_ok k1 l bs (p :: keys (launches k) ++ others)) as Hok1.
  { apply (heap_kernel k l bs _ _ h Hok). eapply al_live_perm; [|exact Hl]. solve_Permutation. }
  destruct (fill_total (kp k) (kroot k) T path (rsi r) (rdx r) R2 R3) as (o & Eo & _).
  change (kmem k1) with (Pmm.mem (kp k)). change (kroot k1) with (kroot k). rewrite Eo. cbn [mbind result_bind].
  destruct o as [x|].
  2:{ destruct (free_launch_ok k1 l bs _ p (launches k) Hok1) as (k' & E' & Hok2 & El & Et).
      change (free_launch p k1) with (free_launch p (with_launches k1 (launches k))). rewrite E'.
      split; [|by rewrite Et]. exists l, bs. by rewrite El, delete_id. }
  apply safe_bind with (P := λ '(k2, _), kernel_ok k2 l bs (p :: keys (launches k) ++ others) ∧
    launches k2 = launches k ∧ kt k2 = kt k ∧ kheap k2 = h).
  - destruct (negb _ && _) eqn:Em; [|done]. apply andb_true_iff in Em as [_ Hm].
    pose proof (checked_range (kp k) (kroot k) (r10 r) 12 T R4 ltac:(lia) Hm) as Hread.
    destruct (Hread 0 4) as (a & Ha & _); [lia..|]. destruct (Hread 4 4) as (b & Hb & _); [lia..|].
    destruct (Hread 8 4) as (c & Hc & _); [lia..|]. rewrite Z.add_0_r in Ha.
    change (Z.to_nat 4) with 4%nat in *. rewrite Ha, Hb, Hc. cbn [mbind result_bind].
    pose proof (map_fd_ok l bs _ (imap pair [s32 (le_value a); s32 (le_value b); s32 (le_value c)]) k1 x Hok1) as Hmap.
    unfold map_fds. destruct (foldl map_fd (k1, x) _) as [k2 x2]. exact Hmap.
  - intros [k2 x2] (Hok2 & El & Et & Eh). rewrite <- El in Hok2.
    apply (spawn_thread k k2 l bs others p x2 Hok2); [by rewrite Et|by rewrite El|].
    unfold create_room. change (s_heap (ks k2)) with (kheap k2). rewrite Eh. split; [done|]. intros t h' E. by apply (Hr4 t h').
Qed.

(** ** The dispatcher *)

Lemma handles_init_ok (t : table D S) bs : table_ok (H := H) t bs → table_ok (H := H) (handles_init t) bs.
Proof.
  intros ([K1 K2 K3] & Hv & Eb). assert (∀ i x, handles (handles_init t) !! i = Some x → type x ≠ HANDLE_VFS) as Hno.
  { intros i x Hx. cbn [handles handles_init] in Hx. rewrite !list_lookup_alter in Hx.
    repeat case_decide; rewrite list_lookup_fmap in Hx;
      match type of Hx with context [handles t !! ?j] => destruct (handles t !! j) end; by simplify_eq/=. }
  split_and!; [|done|done]. split.
  - cbn [handles handles_init]. by rewrite !length_alter, length_fmap.
  - intros i x Hx Ht. by destruct (Hno i x).
  - intros i j x y Hx _ Ht. by destruct (Hno i x).
Qed.

(** The calls that store into user memory themselves. *)
Definition stores (r : syscall_regs) : bool :=
  (rax r =? SYSCALL_READ) || (rax r =? SYSCALL_WAIT) || (rax r =? SYSCALL_PIPE) || (rax r =? SYSCALL_GETCWD).

(** What a call needs: space below the end of the heap's window, and a free
    descriptor for open. *)
Record room k (r : syscall_regs) : Prop := {
  ro_write : rax r = SYSCALL_WRITE → write_room k r;
  ro_open : rax r = SYSCALL_OPEN → open_room k ∧ free_fd k;
  ro_chdir : rax r = SYSCALL_CHDIR → open_room k;
  ro_pipe : rax r = SYSCALL_PIPE → pipe_room k;
  ro_spawn : rax r = SYSCALL_SPAWN → spawn_room k;
}.

Lemma safe_weaken {X} b (x : result X) P : safe (H := H) false x P → safe (H := H) b x P.
Proof. destruct x; [done|]. intros [?|[?|[? _]]]; [by left|by right; left|done]. Qed.

Lemma dispatch_safe w r k others :
  kinv k others → caller k r → memory_ok k → world_ok w (keys (launches k) ++ others) → room k r →
  handles_ready (ktable k) = true →
  safe (stores r) (syscall_handle img pml4_table outside tramp launch_entry w (Some r) k) (res_ok k others).
Proof using AL.
  intros Hk Hc Hm Hw [G1 G2 G3 G4 G5] Hready. unfold syscall_handle. rewrite Hready. cbn [negb].
  assert (∀ n, rax r = n → stores (mk_regs n (rdi r) (rsi r) (rdx r) (r10 r)) = stores r) as Hst by (by intros n <-).
  destruct (Z.eqb_spec (rax r) SYSCALL_EXIT) as [E|_]; [by apply safe_weaken, sys_exit_safe|].
  destruct (Z.eqb_spec (rax r) SYSCALL_YIELD) as [E|_]; [by apply safe_weaken, sys_yield_safe|].
  destruct (Z.eqb_spec (rax r) SYSCALL_READ) as [E|_]; [rewrite <- (Hst _ E); by apply sys_read_safe|].
  destruct (Z.eqb_spec (rax r) SYSCALL_WRITE) as [E|_]; [by apply safe_weaken, sys_write_safe, G1|].
  destruct (Z.eqb_spec (rax r) SYSCALL_OPEN) as [E|_]; [by apply safe_weaken, sys_open_safe; [..|apply G2|apply G2]|].
  destruct (Z.eqb_spec (rax r) SYSCALL_CLOSE) as [E|_]; [by apply safe_weaken, sys_close_safe|].
  destruct (Z.eqb_spec (rax r) SYSCALL_SPAWN) as [E|_]; [by apply safe_weaken, sys_spawn_safe, G5|].
  destruct (Z.eqb_spec (rax r) SYSCALL_EXEC) as [E|_]; [by apply safe_weaken, sys_exec_safe|].
  destruct (Z.eqb_spec (rax r) SYSCALL_GETPID) as [E|_]; [done|].
  destruct (Z.eqb_spec (rax r) SYSCALL_WAIT) as [E|_]; [rewrite <- (Hst _ E); by apply sys_wait_safe|].
  destruct (Z.eqb_spec (rax r) SYSCALL_CHDIR) as [E|_]; [by apply safe_weaken, sys_chdir_safe, G3|].
  destruct (Z.eqb_spec (rax r) SYSCALL_GETCWD) as [E|_]; [rewrite <- (Hst _ E); by apply sys_getcwd_safe|].
  destruct (Z.eqb_spec (rax r) SYSCALL_DUP2) as [E|_]; [by apply safe_weaken, sys_dup2_safe|].
  destruct (Z.eqb_spec (rax r) SYSCALL_PIPE) as [E|_]; [rewrite <- (Hst _ E); by apply sys_pipe_safe, G4|].
  by apply safe_error.
Qed.

(** The handles are set up at the first call. *)
Definition entered k : kernel H D S :=
  if negb (handles_ready (ktable k)) then with_table k (handles_init (ktable k)) else k.

Lemma entered_frame k : frame k (entered k) ∧ tvfs (ktable (entered k)) = tvfs (ktable k) ∧
  kheap (entered k) = kheap k ∧ kroot (entered k) = kroot k.
Proof. unfold entered. by destruct (negb _). Qed.

Lemma entered_inv k others : kinv k others → kinv (entered k) others.
Proof.
  intros Hk. unfold entered. destruct (negb _); [|done]. pose proof Hk as [(l & bs & Hok) _].
  apply (kinv_frame k _ l bs); [done|done|done|]. apply set_table; [done|].
  apply handles_init_ok. exact (so_files _ _ _ _ Hok).
Qed.

Lemma entered_room k r : room k r → room (entered k) r.
Proof.
  destruct (entered_frame k) as (F & Ev & Eh & _). intros [G1 G2 G3 G4 G5].
  split; unfold write_room, open_room, free_fd, pipe_room, spawn_room; rewrite ?Ev, ?Eh, ?(fr_cur _ _ F), ?(cur_fds_frame _ _ F); auto.
Qed.

End Safe.
End SyscallSafe.
