(* ===== verification/Launch.v ===== *)
(** * Starting a spawned program

    The first steps of the thread that spawn creates, from
    [thread_trampoline] over [user_launch_thread] to the program's first
    instruction: scheduler, launch record, heap, loader, page tables and stack
    together. *)

From S2P Require Import Prelude Memory Pmm Mmu MmuTree UserSpace Elf.
From S2P Require Import CString Pipe Irq Tty Paths Bytes Memfs User Alloc.
From S2P Require Import Sched SchedList SchedInv SchedSwitch SchedSpec SchedWait SchedSteps.
From S2P Require Import Ramfs State Fat Vfs VfsInv VfsSpec VfsIo Handles UserPtr Syscall SyscallSpec SyscallInv SyscallSafe.
From stdpp Require Import options.
Import Pmm UserSpace CString Paths Bytes Memfs User Sched SchedList SchedInv SchedSpec SchedWait SchedSteps.
Import Vfs VfsInv VfsSpec VfsIo Handles UserPtr Syscall SyscallSpec SyscallInv SyscallSafe.

Module Launch.

Section Launch.
Context {H D S : Type} `{!Allocator H} {AL : AllocatorLaws H} `{!SectorDev D S}.
Context (img : user_images) (pml4_table : Z) (outside : Z → Z).
Implicit Types (k : kernel H D S) (others : list Z).

Lemma free_launch_inv k others p x :
  kinv k others → launches k !! p = Some x →
  ∃ k', free_launch p k = Ret k' ∧ kinv k' others ∧ launches k' = delete p (launches k) ∧ kp k' = kp k ∧
    ktable k' = ktable k ∧ current_thread (ks k') = current_thread (ks k).
Proof using AL.
  intros [(l & bs & Hok) Hi] Hp.
  assert (kernel_ok k l bs (p :: keys (delete p (launches k)) ++ others)) as Hok1.
  { destruct Hok as [L C R Ty F Lv]. split; auto. eapply al_live_perm; [|exact Lv].
    rewrite <- (keys_delete (launches k) p) by (by eexists). done. }
  destruct (free_launch_ok k l bs _ p (launches k) Hok1) as (k' & E & Hok' & El & Et).
  replace (with_launches k (launches k)) with k in E by (by destruct k).
  exists k'. split; [done|]. split; [split; [|by rewrite Et]; exists l, bs; by rewrite El|]. split; [done|].
  unfold free_launch in E. apply bind_Ret in E as (h & _ & [= <-]). done.
Qed.

(** What the new thread does. *)
Definition launched k others (p : Z) (x : user_launch) (res : sysres (kernel H D S)) : Prop :=
  let fs := memfs_ (tvfs (ktable k)) in
  match res with
  | SysEnter entry sp root k' =>
      kinv k' others ∧ launches k' = delete p (launches k) ∧ kroot k' = root ∧
      ∃ i f space, memfs_lookup img fs (Some (lpath x)) = (Some i, memfs_ (tvfs (ktable k'))) ∧
        memfs_files (memfs_ (tvfs (ktable k'))) !! i = Some f ∧
        launchable outside f (Some (largv x)) (Some (lenvp x)) ∧
        UserSpace.entry space = entry ∧ pml4_phys space = root ∧
        ready (kp k') space sp (image_src outside f) (largv x) (lenvp x)
  | SysExit f =>
      f ≠ Looping ∧ kinv (after k f) others ∧ launches (after k f) = delete p (launches k) ∧
      ∀ i g, (memfs_lookup img fs (Some (lpath x))).1 = Some i →
        memfs_files (memfs_lookup img fs (Some (lpath x))).2 !! i = Some g →
        ¬ launchable outside g (Some (largv x)) (Some (lenvp x))
  | _ => False
  end.

Lemma set_exit_inv k others e :
  kinv k others → kinv (with_sched k (sched_set_current_exit_to_kernel e (ks k))) others.
Proof.
  intros Hk. pose proof Hk as [(l & bs & Hok) _]. apply (kinv_frame k _ l bs); [done|done|done|].
  apply upd_cur_kernel; [done|done|]. intros t []. by split.
Qed.

(** The root of the address space the thread runs in. *)
Lemma enter_root k l bs O root e :
  kernel_ok k l bs O → current_thread (ks k) ≠ 0 →
  let k1 := with_sched k (sched_set_current_aspace root (ks k)) in
  kroot (with_sched k1 (sched_set_current_exit_to_kernel e (ks k1))) = root.
Proof.
  intros Hok Hc k1. unfold kroot, sched_current_aspace, sched_set_current_exit_to_kernel.
  assert (current_thread (ks k1) = current_thread (ks k)) as Ec
    by (subst k1; unfold sched_set_current_aspace; by destruct (negb _)).
  rewrite Ec, (proj2 (Z.eqb_neq _ 0) Hc). cbn [negb ks with_sched].
  change (current_thread (upd_cur _ _)) with (current_thread (ks k1)). rewrite Ec, (proj2 (Z.eqb_neq _ 0) Hc).
  assert (is_Some (threads (ks k) !! current_thread (ks k))) as Hs.
  { apply (tl_dom _ _ (so_list _ _ _ _ Hok)). destruct (so_cur _ _ _ _ Hok) as [?|[? _]]; done. }
  assert (ks k1 = upd_cur (set_aspace root) (ks k)) as E1
    by (subst k1; unfold sched_set_current_aspace; cbn [ks with_sched]; by rewrite (proj2 (Z.eqb_neq _ 0) Hc)).
  rewrite cur_upd.
  - change (aspace (cur (ks k1)) = root). rewrite E1, cur_upd by done. done.
  - rewrite E1. cbn. rewrite lookup_alter_eq. by apply fmap_is_Some.
Qed.

Lemma enter_table k root e :
  let k1 := with_sched k (sched_set_current_aspace root (ks k)) in
  ktable (with_sched k1 (sched_set_current_exit_to_kernel e (ks k1))) = ktable k.
Proof.
  intros k1. subst k1. unfold ktable, sched_set_current_exit_to_kernel, sched_set_current_aspace. cbn [ks with_sched].
  by repeat case_match.
Qed.

End Launch.
End Launch.
