(* ===== verification/Images.v ===== *)
(** * The built-in programs

    The byte arrays of src/kernel/user_images.c, row by row, with the lengths
    declared beside them. *)

From S2P Require Import Prelude.
From stdpp Require Import options.

Module Images.

Definition user_image_hello : list Z := concat [
  [0x7f; 0x45; 0x4c; 0x46; 0x02; 0x01; 0x01; 0x00; 0x00; 0x00; 0x00; 0x00];
  [0x00; 0x00; 0x00; 0x00; 0x02; 0x00; 0x3e; 0x00; 0x01; 0x00; 0x00; 0x00];
  [0xa0; 0x01; 0x40; 0x00; 0x00; 0x00; 0x00; 0x00; 0x40; 0x00; 0x00; 0x00];
  [0x00; 0x00; 0x00; 0x00; 0x70; 0x14; 0x00; 0x00; 0x00; 0x00; 0x00; 0x00];
  [0x00; 0x00; 0x00; 0x00; 0x40; 0x00; 0x38; 0x00; 0x06; 0x00; 0x40; 0x00];
  [0x09; 0x00; 0x08; 0x00; 0x01; 0x00; 0x00; 0x00; 0x05; 0x00; 0x00; 0x00];
  [0x00; 0x00; 0x00; 0x00; 0x00; 0x00; 0x00; 0x00; 0x00; 0x00; 0x40; 0x00];
  [0x00; 0x00; 0x00; 0x00; 0x00; 0x00; 0x40; 0x00; 0x00; 0x00; 0x00; 0x00];
  [0xe8; 0x03; 0x00; 0x00; 0x00; 0x00; 0x00; 0x00; 0xe8; 0x03; 0x00; 0x00];
  [0x00; 0x00; 0x00; 0x00; 0x00; 0x10; 0x00; 0x00; 0x00; 0x00; 0x00; 0x00];
  [0x01; 0x00; 0x00; 0x00; 0x04; 0x00; 0x00; 0x00; 0x00; 0x10; 0x00; 0x00];
  [0x00; 0x00; 0x00; 0x00; 0x00; 0x10; 0x40; 0x00; 0x00; 0x00; 0x00; 0x00];
  [0x00; 0x10; 0x40; 0x00; 0x00; 0x00; 0x00; 0x00; 0x90; 0x01; 0x00; 0x00];
  [0x00; 0x00; 0x00; 0x00; 0x90; 0x01; 0x00; 0x00; 0x00; 0x00; 0x00; 0x00];
  [0x00; 0x10; 0x00; 0x00; 0x00; 0x00; 0x00; 0x00; 0x04; 0x00; 0x00; 0x00];
  [0x04; 0x00; 0x00; 0x00; 0x00; 0x10; 0x00; 0x00; 0x00; 0x00; 0x00; 0x00];
  [0x00; 0x10; 0x40; 0x00; 0x00; 0x00; 0x00; 0x00; 0x00; 0x10; 0x40; 0x00];
  [0x00; 0x00; 0x00; 0x00; 0x30; 0x00; 0x00; 0x00; 0x00; 0x00; 0x00; 0x00];
  [0x30; 0x00; 0x00; 0x00; 0x00; 0x00; 0x00; 0x00; 0x08; 0x00; 0x00; 0x00];
  [0x00; 0x00; 0x00; 0x00; 0x53; 0xe5; 0x74; 0x64; 0x04; 0x00; 0x00; 0x00];
  [0x00; 0x10; 0x00; 0x00; 0x00; 0x00; 0x00; 0x00; 0x00; 0x10; 0x40; 0x00];
  [0x00; 0x00; 0x00; 0x00; 0x00; 0x10; 0x40; 0x00; 0x00; 0x00; 0x00; 0x00];
  [0x30; 0x00; 0x00; 0x00; 0x00; 0x00; 0x00; 0x00; 0x30; 0x00; 0x00; 0x00];
  [0x00; 0x00; 0x00; 0x00; 0x08; 0x00; 0x00; 0x00; 0x00; 0x00; 0x00; 0x00];
  [0x50; 0xe5; 0x74; 0x64; 0x04; 0x00; 0x00; 0x00; 0x30; 0x10; 0x00; 0x00];
  [0x00; 0x00; 0x00; 0x00; 0x30; 0x10; 0x40; 0x00; 0x00; 0x00; 0x00; 0x00];
  [0x30; 0x10; 0x40; 0x00; 0x00; 0x00; 0x00; 0x00; 0x64; 0x00; 0x00; 0x00];
  [0x00; 0x00; 0x00; 0x00; 0x64; 0x00; 0x00; 0x00; 0x00; 0x00; 0x00; 0x00];
  [0x04; 0x00; 0x00; 0x00; 0x00; 0x00; 0x00; 0x00; 0x51; 0xe5; 0x74; 0x64];
  [0x06; 0x00; 0x00; 0x00; 0x00; 0x00; 0x00; 0x00; 0x00; 0x00; 0x00; 0x00];
  [0x00; 0x00; 0x00; 0x00; 0x00; 0x00; 0x00; 0x00; 0x00; 0x00; 0x00; 0x00];
  [0x00; 0x00; 0x00; 0x00; 0x00; 0x00; 0x00; 0x00; 0x00; 0x00; 0x00; 0x00];
  [0x00; 0x00; 0x00; 0x00; 0x00; 0x00; 0x00; 0x00; 0x10; 0x00; 0x00; 0x00];
  [0x00; 0x00; 0x00; 0x00; 0x00; 0x00; 0x00; 0x00; 0x00; 0x00; 0x00; 0x00];
  [0x00; 0x00; 0x00; 0x00; 0x00; 0x00; 0x00; 0x00; 0x48; 0xb8; 0x48; 0x65];
  [0x6c; 0x6c; 0x6f; 0x20; 0x66; 0x72; 0x48; 0x83; 0xec; 0x28; 0x48; 0x89];
  [0x44; 0x24; 0x07; 0x48; 0x8d; 0x7c; 0x24; 0x07; 0x48; 0xb8; 0x6f; 0x6d];
  [0x20; 0x75; 0x73; 0x65; 0x72; 0x20; 0x48; 0x89; 0x44; 0x24; 0x0f; 0x48];
  [0xb8; 0x70; 0x72; 0x6f; 0x67; 0x72; 0x61; 0x6d; 0x0a; 0x48; 0x89; 0x44];
  [0x24; 0x17; 0xc6; 0x44; 0x24; 0x1f; 0x00; 0xe8; 0x40; 0x00; 0x00; 0x00];
  [0xbf; 0x01; 0x00; 0x00; 0x00; 0x48; 0x8d; 0x74; 0x24; 0x07; 0x48; 0x89];
  [0xc2; 0xb8; 0x04; 0x00; 0x00; 0x00; 0x0f; 0x05; 0x31; 0xff; 0xb8; 0x01];
  [0x00; 0x00; 0x00; 0x48; 0x89; 0xfe; 0x48; 0x89; 0xfa; 0x0f; 0x05; 0x66];
  [0x90; 0x66; 0x66; 0x2e; 0x0f; 0x1f; 0x84; 0x00; 0x00; 0x00; 0x00; 0x00];
  [0xf4; 0xeb; 0xfd; 0x66; 0x2e; 0x0f; 0x1f; 0x84; 0x00; 0x00; 0x00; 0x00];
  [0x00; 0x0f; 0x1f; 0x00; 0x31; 0xc0; 0x48; 0x85; 0xff; 0x75; 0x09; 0xc3];
  [0x0f; 0x1f; 0x84; 0x00; 0x00; 0x00; 0x00; 0x00; 0x80; 0x3f; 0x00; 0x74];
  [0xf2; 0x66; 0x66; 0x2e; 0x0f; 0x1f; 0x84; 0x00; 0x00; 0x00; 0x00; 0x00];
  [0x48; 0x83; 0xc0; 0x01; 0x80; 0x3c; 0x07; 0x00; 0x75; 0xf6; 0xc3; 0x0f];
  [0x1f; 0x44; 0x00; 0x00; 0x48; 0x85; 0xff; 0x74; 0x3b; 0x48; 0x85; 0xf6];
  [0x74; 0x36; 0x0f; 0xb6; 0x07; 0x84; 0xc0; 0x75; 0x1b; 0xeb; 0x4e; 0x0f];
  [0x1f; 0x44; 0x00; 0x00; 0x84; 0xd2; 0x74; 0x17; 0x0f; 0xb6; 0x47; 0x01];
  [0x48; 0x83; 0xc7; 0x01; 0x84; 0xc0; 0x74; 0x30; 0x48; 0x83; 0xc6; 0x01];
  [0x0f; 0xb6; 0x16; 0x38; 0xc2; 0x74; 0xe5; 0x29; 0xd0; 0xc3; 0x66; 0x2e];
  [0x0f; 0x1f; 0x84; 0x00; 0x00; 0x00; 0x00; 0x00; 0x31; 0xc0; 0x48; 0x39];
  [0xf7; 0x74; 0xee; 0x48; 0x83; 0xff; 0x01; 0x19; 0xc0; 0x83; 0xc8; 0x01];
  [0xc3; 0x0f; 0x1f; 0x80; 0x00; 0x00; 0x00; 0x00; 0x0f; 0xb6; 0x56; 0x01];
  [0x31; 0xc0; 0x29; 0xd0; 0xc3; 0x0f; 0xb6; 0x16; 0x31; 0xc0; 0x29; 0xd0];
  [0xc3; 0x0f; 0x1f; 0x80; 0x00; 0x00; 0x00; 0x00; 0x48; 0x85; 0xff; 0x74];
  [0x2f; 0x48; 0x85; 0xf6; 0x74; 0x2a; 0x0f; 0xb6; 0x06; 0x48; 0x89; 0xfa];
  [0x84; 0xc0; 0x74; 0x1d; 0x90; 0x66; 0x66; 0x2e; 0x0f; 0x1f; 0x84; 0x00];
  [0x00; 0x00; 0x00; 0x00; 0x48; 0x83; 0xc6; 0x01; 0x88; 0x02; 0x48; 0x83];
  [0xc2; 0x01; 0x0f; 0xb6; 0x06; 0x84; 0xc0; 0x75; 0xef; 0xc6; 0x02; 0x00];
  [0x48; 0x89; 0xf8; 0xc3; 0x0f; 0x1f; 0x84; 0x00; 0x00; 0x00; 0x00; 0x00];
  [0x48; 0x85; 0xf6; 0x48; 0x89; 0xd1; 0x0f; 0x94; 0xc0; 0x48; 0x85; 0xd2];
  [0x0f; 0x94; 0xc2; 0x08; 0xd0; 0x75; 0x1d; 0x48; 0x85; 0xff; 0x74; 0x18];
  [0x31; 0xc0; 0x66; 0x0f; 0x1f; 0x44; 0x00; 0x00; 0x0f; 0xb6; 0x14; 0x06];
  [0x88; 0x14; 0x07; 0x48; 0x83; 0xc0; 0x01; 0x48; 0x39; 0xc8; 0x72; 0xf0];
  [0x48; 0x89; 0xf8; 0xc3; 0x90; 0x66; 0x66; 0x2e; 0x0f; 0x1f; 0x84; 0x00];
  [0x00; 0x00; 0x00; 0x00; 0x48; 0x85; 0xff; 0x74; 0x4d; 0x48; 0x85; 0xd2];
  [0x74; 0x48; 0xb8; 0x01; 0x00; 0x00; 0x00; 0x40; 0x88; 0x37; 0x48; 0x8d];
  [0x4a; 0xff; 0x48; 0x39; 0xd0; 0x73; 0x37; 0x83; 0xe1; 0x01; 0x74; 0x20];
  [0x40; 0x88; 0x34; 0x07; 0xb8; 0x02; 0x00; 0x00; 0x00; 0x48; 0x39; 0xd0];
  [0x73; 0x24; 0x0f; 0x1f; 0x80; 0x00; 0x00; 0x00; 0x00; 0x66; 0x66; 0x2e];
  [0x0f; 0x1f; 0x84; 0x00; 0x00; 0x00; 0x00; 0x00; 0x40; 0x88; 0x34; 0x07];
  [0x40; 0x88; 0x74; 0x07; 0x01; 0x48; 0x83; 0xc0; 0x02; 0x48; 0x39; 0xd0];
  [0x72; 0xee; 0x48; 0x89; 0xf8; 0xc3; 0x66; 0x2e; 0x0f; 0x1f; 0x84; 0x00];
  [0x00; 0x00; 0x00; 0x00; 0x48; 0x63; 0xff; 0x48; 0x63; 0xf6; 0xb8; 0x0b];
  [0x00; 0x00; 0x00; 0x0f; 0x05; 0xc3; 0x66; 0x90; 0xb8; 0x0c; 0x00; 0x00];
  [0x00; 0x0f; 0x05; 0xc3; 0x0f; 0x1f; 0x84; 0x00; 0x00; 0x00; 0x00; 0x00];
  [0x49; 0x89; 0xca; 0xb8; 0x07; 0x00; 0x00; 0x00; 0x0f; 0x05; 0xc3; 0x0f];
  [0x1f; 0x44; 0x00; 0x00; 0xb8; 0x0d; 0x00; 0x00; 0x00; 0x0f; 0x05; 0xc3];
  [0x0f; 0x1f; 0x84; 0x00; 0x00; 0x00; 0x00; 0x00; 0xb8; 0x0e; 0x00; 0x00];
  [0x00; 0x0f; 0x05; 0xc3; 0x00; 0x00; 0x00; 0x00; 0x00; 0x00; 0x00; 0x00];
  [0x00; 0x00; 0x00; 0x00; 0x00; 0x00; 0x00; 0x00; 0x00; 0x00; 0x00; 0x00];
  [0x00; 0x00; 0x00; 0x00; 0x00; 0x00; 0x00; 0x00; 0x00; 0x00; 0x00; 0x00];
  [0x00; 0x00; 0x00; 0x00; 0x00; 0x00; 0x00; 0x00; 0x00; 0x00; 0x00; 0x00];
  [0x00; 0x00; 0x00; 0x00; 0x00; 0x00; 0x00; 0x00; 0x00; 0x00; 0x00; 0x00];
  [0x00; 0x00; 0x00; 0x00; 0x00; 0x00; 0x00; 0x00; 0x00; 0x00; 0x00; 0x00];
  [0x00; 0x00; 0x00; 0x00; 0x00; 0x00; 0x00; 0x00; 0x00; 0x00; 0x00; 0x00];
  [0x00; 0x00; 0x00; 0x00; 0x00; 0x00; 0x00; 0x00; 0x00; 0x00; 0x00; 0x00];
  [0x00; 0x00; 0x00; 0x00; 0x00; 0x00; 0x00; 0x00; 0x00; 0x00; 0x00; 0x00];
  [0x00; 0x00; 0x00; 0x00; 0x00; 0x00; 0x00; 0x00; 0x00; 0x00; 0x00; 0x00];
  [0x00; 0x00; 0x00; 0x00; 0x00; 0x00; 0x00; 0x00; 0x00; 0x00; 0x00; 0x00];
  [0x00; 0x00; 0x00; 0x00; 0x00; 0x00; 0x00; 0x00; 0x00; 0x00; 0x00; 0x00];
  [0x00; 0x00; 0x00; 0x00; 0x00; 0x00; 0x00; 0x00; 0x00; 0x00; 0x00; 0x00];
  [0x00; 0x00; 0x00; 0x00; 0x00; 0x00; 0x00; 0x00; 0x00; 0x00; 0x00; 0x00];
  [0x00; 0x00; 0x00; 0x00; 0x00; 0x00; 0x00; 0x00; 0x00; 0x00; 0x00; 0x00];
  [0x00; 0x00; 0x00; 0x00; 0x00; 0x00; 0x00; 0x00; 0x00; 0x00; 0x00; 0x00];
  [0x00; 0x00; 0x00; 0x00; 0x00; 0x00; 0x00; 0x00; 0x00; 0x00; 0x00; 0x00];
  [0x00; 0x00; 0x00; 0x00; 0x00; 0x00; 0x00; 0x00; 0x00; 0x00; 0x00; 0x00];
  [0x00; 0x00; 0x00; 0x00; 0x00; 0x00; 0x00; 0x00; 0x00; 0x00; 0x00; 0x00];
  [0x00; 0x00; 0x00; 0x00; 0x00; 0x00; 0x00; 0x00; 0x00; 0x00; 0x00; 0x00];
  [0x00; 0x00; 0x00; 0x00; 0x00; 0x00; 0x00; 0x00; 0x00; 0x00; 0x00; 0x00];
  [0x00; 0x00; 0x00; 0x00; 0x00; 0x00; 0x00; 0x00; 0x00; 0x00; 0x00; 0x00];
  [0x00; 0x00; 0x00; 0x00; 0x00; 0x00; 0x00; 0x00; 0x00; 0x00; 0x00; 0x00];
  [0x00; 0x00; 0x00; 0x00; 0x00; 0x00; 0x00; 0x00; 0x00; 0x00; 0x00; 0x00];
  [0x00; 0x00; 0x00; 0x00; 0x00; 0x00; 0x00; 0x00; 0x00; 0x00; 0x00; 0x00];
  [0x00; 0x00; 0x00; 0x00; 0x00; 0x00; 0x00; 0x00; 0x00; 0x00; 0x00; 0x00];
  [0x00; 0x00; 0x00; 0x00; 0x00; 0x00; 0x00; 0x00; 0x00; 0x00; 0x00; 0x00];
  [0x00; 0x00; 0x00; 0x00; 0x00; 0x00; 0x00; 0x00; 0x00; 0x00; 0x00; 0x00];
  [0x00; 0x00; 0x00; 0x00; 0x00; 0x00; 0x00; 0x00; 0x00; 0x00; 0x00; 0x00];
  [0x00; 0x00; 0x00; 0x00; 0x00; 0x00; 0x00; 0x00; 0x00; 0x00; 0x00; 0x00];
  [0x00; 0x00; 0x00; 0x00; 0x00; 0x00; 0x00; 0x00; 0x00; 0x00; 0x00; 0x00];
  [0x00; 0x00; 0x00; 0x00; 0x00; 0x00; 0x00; 0x00; 0x00; 0x00; 0x00; 0x00];
  [0x00; 0x00; 0x00; 0x00; 0x00; 0x00; 0x00; 0x00; 0x00; 0x00; 0x00; 0x00];
  [0x00; 0x00; 0x00; 0x00; 0x00; 0x00; 0x00; 0x00; 0x00; 0x00; 0x00; 0x00];
  [0x00; 0x00; 0x00; 0x00; 0x00; 0x00; 0x00; 0x00; 0x00; 0x00; 0x00; 0x00];
  [0x00; 0x00; 0x00; 0x00; 0x00; 0x00; 0x00; 0x00; 0x00; 0x00; 0x00; 0x00];
  [0x00; 0x00; 0x00; 0x00; 0x00; 0x00; 0x00; 0x00; 0x00; 0x00; 0x00; 0x00];
  [0x00; 0x00; 0x00; 0x00; 0x00; 0x00; 0x00; 0x00; 0x00; 0x00; 0x00; 0x00];
  [0x00; 0x00; 0x00; 0x00; 0x00; 0x00; 0x00; 0x00; 0x00; 0x00; 0x00; 0x00];
  [0x00; 0x00; 0x00; 0x00; 0x00; 0x00; 0x00; 0x00; 0x00; 0x00; 0x00; 0x00];
  [0x00; 0x00; 0x00; 0x00; 0x00; 0x00; 0x00; 0x00; 0x00; 0x00; 0x00; 0x00];
  [0x00; 0x00; 0x00; 0x00; 0x00; 0x00; 0x00; 0x00; 0x00; 0x00; 0x00; 0x00];
  [0x00; 0x00; 0x00; 0x00; 0x00; 0x00; 0x00; 0x00; 0x00; 0x00; 0x00; 0x00];
  [0x00; 0x00; 0x00; 0x00; 0x00; 0x00; 0x00; 0x00; 0x00; 0x00; 0x00; 0x00];
  [0x00; 0x00; 0x00; 0x00; 0x00; 0x00; 0x00; 0x00; 0x00; 0x00; 0x00; 0x00];
  [0x00; 0x00; 0x00; 0x00; 0x00; 0x00; 0x00; 0x00; 0x00; 0x00; 0x00; 0x00];
  [0x00; 0x00; 0x00; 0x00; 0x00; 0x00; 0x00; 0x00; 0x00; 0x00; 0x00; 0x00];
  [0x00; 0x00; 0x00; 0x00; 0x00; 0x00; 0x00; 0x00; 0x00; 0x00; 0x00; 0x00];
  [0x00; 0x00; 0x00; 0x00; 0x00; 0x00; 0x00; 0x00; 0x00; 0x00; 0x00; 0x00];
  [0x00; 0x00; 0x00; 0x00; 0x00; 0x00; 0x00; 0x00; 0x00; 0x00; 0x00; 0x00];
  [0x00; 0x00; 0x00; 0x00; 0x00; 0x00; 0x00; 0x00; 0x00; 0x00; 0x00; 0x00];
  [0x00; 0x00; 0x00; 0x00; 0x00; 0x00; 0x00; 0x00; 0x00; 0x00; 0x00; 0x00];
  [0x00; 0x00; 0x00; 0x00; 0x00; 0x00; 0x00; 0x00; 0x00; 0x00; 0x00; 0x00];
  [0x00; 0x00; 0x00; 0x00; 0x00; 0x00; 0x00; 0x00; 0x00; 0x00; 0x00; 0x00];
  [0x00; 0x00; 0x00; 0x00; 0x00; 0x00; 0x00; 0x00; 0x00; 0x00; 0x00; 0x00];
  [0x00; 0x00; 0x00; 0x00; 0x00; 0x00; 0x00; 0x00; 0x00; 0x00; 0x00; 0x00];
  [0x00; 0x00; 0x00; 0x00; 0x00; 0x00; 0x00; 0x00; 0x00; 0x00; 0x00; 0x00];
  [0x00; 0x00; 0x00; 0x00; 0x00; 0x00; 0x00; 0x00; 0x00; 0x00; 0x00; 0x00];
  [0x00; 0x00; 0x00; 0x00; 0x00; 0x00; 0x00; 0x00; 0x00; 0x00; 0x00; 0x00];
  [0x00; 0x00; 0x00; 0x00; 0x00; 0x00; 0x00; 0x00; 0x00; 0x00; 0x00; 0x00];
  [0x00; 0x00; 0x00; 0x00; 0x00; 0x00; 0x00; 0x00; 0x00; 0x00; 0x00; 0x00];
  [0x00; 0x00; 0x00; 0x00; 0x00; 0x00; 0x00; 0x00; 0x00; 0x00; 0x00; 0x00];
  [0x00; 0x00; 0x00; 0x00; 0x00; 0x00; 0x00; 0x00; 0x00; 0x00; 0x00; 0x00];
  [0x00; 0x00; 0x00; 0x00; 0x00; 0x00; 0x00; 0x00; 0x00; 0x00; 0x00; 0x00];
  [0x00; 0x00; 0x00; 0x00; 0x00; 0x00; 0x00; 0x00; 0x00; 0x00; 0x00; 0x00];
  [0x00; 0x00; 0x00; 0x00; 0x00; 0x00; 0x00; 0x00; 0x00; 0x00; 0x00; 0x00];
  [0x00; 0x00; 0x00; 0x00; 0x00; 0x00; 0x00; 0x00; 0x00; 0x00; 0x00; 0x00];
  [0x00; 0x00; 0x00; 0x00; 0x00; 0x00; 0x00; 0x00; 0x00; 0x00; 0x00; 0x00];
  [0x00; 0x00; 0x00; 0x00; 0x00; 0x00; 0x00; 0x00; 0x00; 0x00; 0x00; 0x00];
  [0x00; 0x00; 0x00; 0x00; 0x00; 0x00; 0x00; 0x00; 0x00; 0x00; 0x00; 0x00];
  [0x00; 0x00; 0x00; 0x00; 0x00; 0x00; 0x00; 0x00; 0x00; 0x00; 0x00; 0x00];
  [0x00; 0x00; 0x00; 0x00; 0x00; 0x00; 0x00; 0x00; 0x00; 0x00; 0x00; 0x00];
  [0x00; 0x00; 0x00; 0x00; 0x00; 0x00; 0x00; 0x00; 0x00; 0x00; 0x00; 0x00];
  [0x00; 0x00; 0x00; 0x00; 0x00; 0x00; 0x00; 0x00; 0x00; 0x00; 0x00; 0x00];
  [0x00; 0x00; 0x00; 0x00; 0x00; 0x00; 0x00; 0x00; 0x00; 0x00; 0x00; 0x00];
  [0x00; 0x00; 0x00; 0x00; 0x00; 0x00; 0x00; 0x00; 0x00; 0x00; 0x00; 0x00];
  [0x00; 0x00; 0x00; 0x00; 0x00; 0x00; 0x00; 0x00; 0x00; 0x00; 0x00; 0x00];
  [0x00; 0x00; 0x00; 0x00; 0x00; 0x00; 0x00; 0x00; 0x00; 0x00; 0x00; 0x00];
  [0x00; 0x00; 0x00; 0x00; 0x00; 0x00; 0x00; 0x00; 0x00; 0x00; 0x00; 0x00];
  [0x00; 0x00; 0x00; 0x00; 0x00; 0x00; 0x00; 0x00; 0x00; 0x00; 0x00; 0x00];
  [0x00; 0x00; 0x00; 0x00; 0x00; 0x00; 0x00; 0x00; 0x00; 0x00; 0x00; 0x00];
  [0x00; 0x00; 0x00; 0x00; 0x00; 0x00; 0x00; 0x00; 0x00; 0x00; 0x00; 0x00];
  [0x00; 0x00; 0x00; 0x00; 0x00; 0x00; 0x00; 0x00; 0x00; 0x00; 0x00; 0x00];
  [0x00; 0x00; 0x00; 0x00; 0x00; 0x00; 0x00; 0x00; 0x00; 0x00; 0x00; 0x00];
  [0x00; 0x00; 0x00; 0x00; 0x00; 0x00; 0x00; 0x00; 0x00; 0x00; 0x00; 0x00];
  [0x00; 0x00; 0x00; 0x00; 0x00; 0x00; 0x00; 0x00; 0x00; 0x00; 0x00; 0x00];
  [0x00; 0x00; 0x00; 0x00; 0x00; 0x00; 0x00; 0x00; 0x00; 0x00; 0x00; 0x00];
  [0x00; 0x00; 0x00; 0x00; 0x00; 0x00; 0x00; 0x00; 0x00; 0x00; 0x00; 0x00];
  [0x00; 0x00; 0x00; 0x00; 0x00; 0x00; 0x00; 0x00; 0x00; 0x00; 0x00; 0x00];
  [0x00; 0x00; 0x00; 0x00; 0x00; 0x00; 0x00; 0x00; 0x00; 0x00; 0x00; 0x00];
  [0x00; 0x00; 0x00; 0x00; 0x00; 0x00; 0x00; 0x00; 0x00; 0x00; 0x00; 0x00];
  [0x00; 0x00; 0x00; 0x00; 0x00; 0x00; 0x00; 0x00; 0x00; 0x00; 0x00; 0x00];
  [0x00; 0x00; 0x00; 0x00; 0x00; 0x00; 0x00; 0x00; 0x00; 0x00; 0x00; 0x00];
  [0x00; 0x00; 0x00; 0x00; 0x00; 0x00; 0x00; 0x00; 0x00; 0x00; 0x00; 0x00];
  [0x00; 0x00; 0x00; 0x00; 0x00; 0x00; 0x00; 0x00; 0x00; 0x00; 0x00; 0x00];
  [0x00; 0x00; 0x00; 0x00; 0x00; 0x00; 0x00; 0x00; 0x00; 0x00; 0x00; 0x00];
  [0x00; 0x00; 0x00; 0x00; 0x00; 0x00; 0x00; 0x00; 0x00; 0x00; 0x00; 0x00];
  [0x00; 0x00; 0x00; 0x00; 0x00; 0x00; 0x00; 0x00; 0x00; 0x00; 0x00; 0x00];
  [0x00; 0x00; 0x00; 0x00; 0x00; 0x00; 0x00; 0x00; 0x00; 0x00; 0x00; 0x00];
  [0x00; 0x00; 0x00; 0x00; 0x00; 0x00; 0x00; 0x00; 0x00; 0x00; 0x00; 0x00];
  [0x00; 0x00; 0x00; 0x00; 0x00; 0x00; 0x00; 0x00; 0x00; 0x00; 0x00; 0x00];
  [0x00; 0x00; 0x00; 0x00; 0x00; 0x00; 0x00; 0x00; 0x00; 0x00; 0x00; 0x00];
  [0x00; 0x00; 0x00; 0x00; 0x00; 0x00; 0x00; 0x00; 0x00; 0x00; 0x00; 0x00];
  [0x00; 0x00; 0x00; 0x00; 0x00; 0x00; 0x00; 0x00; 0x00; 0x00; 0x00; 0x00];
  [0x00; 0x00; 0x00; 0x00; 0x00; 0x00; 0x00; 0x00; 0x00; 0x00; 0x00; 0x00];
  [0x00; 0x00; 0x00; 0x00; 0x00; 0x00; 0x00; 0x00; 0x00; 0x00; 0x00; 0x00];
  [0x00; 0x00; 0x00; 0x00; 0x00; 0x00; 0x00; 0x00; 0x00; 0x00; 0x00; 0x00];
  [0x00; 0x00; 0x00; 0x00; 0x00; 0x00; 0x00; 0x00; 0x00; 0x00; 0x00; 0x00];
  [0x00; 0x00; 0x00; 0x00; 0x00; 0x00; 0x00; 0x00; 0x00; 0x00; 0x00; 0x00];
  [0x00; 0x00; 0x00; 0x00; 0x00; 0x00; 0x00; 0x00; 0x00; 0x00; 0x00; 0x00];
  [0x00; 0x00; 0x00; 0x00; 0x00; 0x00; 0x00; 0x00; 0x00; 0x00; 0x00; 0x00];
  [0x00; 0x00; 0x00; 0x00; 0x00; 0x00; 0x00; 0x00; 0x00; 0x00; 0x00; 0x00];
  [0x00; 0x00; 0x00; 0x00; 0x00; 0x00; 0x00; 0x00; 0x00; 0x00; 0x00; 0x00];
  [0x00; 0x00; 0x00; 0x00; 0x00; 0x00; 0x00; 0x00; 0x00; 0x00; 0x00; 0x00];
  [0x00; 0x00; 0x00; 0x00; 0x00; 0x00; 0x00; 0x00; 0x00; 0x00; 0x00; 0x00];
  [0x00; 0x00; 0x00; 0x00; 0x00; 0x00; 0x00; 0x00; 0x00; 0x00; 0x00; 0x00];
  [0x00; 0x00; 0x00; 0x00; 0x00; 0x00; 0x00; 0x00; 0x00; 0x00; 0x00; 0x00];
  [0x00; 0x00; 0x00; 0x00; 0x00; 0x00; 0x00; 0x00; 0x00; 0x00; 0x00; 0x00];
  [0x00; 0x00; 0x00; 0x00; 0x00; 0x00; 0x00; 0x00; 0x00; 0x00; 0x00; 0x00];
  [0x00; 0x00; 0x00; 0x00; 0x00; 0x00; 0x00; 0x00; 0x00; 0x00; 0x00; 0x00];
  [0x00; 0x00; 0x00; 0x00; 0x00; 0x00; 0x00; 0x00; 0x00; 0x00; 0x00; 0x00];
  [0x00; 0x00; 0x00; 0x00; 0x00; 0x00; 0x00; 0x00; 0x00; 0x00; 0x00; 0x00];
  [0x00; 0x00; 0x00; 0x00; 0x00; 0x00; 0x00; 0x00; 0x00; 0x00; 0x00; 0x00];
  [0x00; 0x00; 0x00; 0x00; 0x00; 0x00; 0x00; 0x00; 0x00; 0x00; 0x00; 0x00];
  [0x00; 0x00; 0x00; 0x00; 0x00; 0x00; 0x00; 0x00; 0x00; 0x00; 0x00; 0x00];
  [0x00; 0x00; 0x00; 0x00; 0x00; 0x00; 0x00; 0x00; 0x00; 0x00; 0x00; 0x00];
  [0x00; 0x00; 0x00; 0x00; 0x00; 0x00; 0x00; 0x00; 0x00; 0x00; 0x00; 0x00];
  [0x00; 0x00; 0x00; 0x00; 0x00; 0x00; 0x00; 0x00; 0x00; 0x00; 0x00; 0x00];
  [0x00; 0x00; 0x00; 0x00; 0x00; 0x00; 0x00; 0x00; 0x00; 0x00; 0x00; 0x00];
  [0x00; 0x00; 0x00; 0x00; 0x00; 0x00; 0x00; 0x00; 0x00; 0x00; 0x00; 0x00];
  [0x00; 0x00; 0x00; 0x00; 0x00; 0x00; 0x00; 0x00; 0x00; 0x00; 0x00; 0x00];
  [0x00; 0x00; 0x00; 0x00; 0x00; 0x00; 0x00; 0x00; 0x00; 0x00; 0x00; 0x00];
  [0x00; 0x00; 0x00; 0x00; 0x00; 0x00; 0x00; 0x00; 0x00; 0x00; 0x00; 0x00];
  [0x00; 0x00; 0x00; 0x00; 0x00; 0x00; 0x00; 0x00; 0x00; 0x00; 0x00; 0x00];
  [0x00; 0x00; 0x00; 0x00; 0x00; 0x00; 0x00; 0x00; 0x00; 0x00; 0x00; 0x00];
  [0x00; 0x00; 0x00; 0x00; 0x00; 0x00; 0x00; 0x00; 0x00; 0x00; 0x00; 0x00];
  [0x00; 0x00; 0x00; 0x00; 0x00; 0x00; 0x00; 0x00; 0x00; 0x00; 0x00; 0x00];
  [0x00; 0x00; 0x00; 0x00; 0x00; 0x00; 0x00; 0x00; 0x00; 0x00; 0x00; 0x00];
  [0x00; 0x00; 0x00; 0x00; 0x00; 0x00; 0x00; 0x00; 0x00; 0x00; 0x00; 0x00];
  [0x00; 0x00; 0x00; 0x00; 0x00; 0x00; 0x00; 0x00; 0x00; 0x00; 0x00; 0x00];
  [0x00; 0x00; 0x00; 0x00; 0x00; 0x00; 0x00; 0x00; 0x00; 0x00; 0x00; 0x00];
  [0x00; 0x00; 0x00; 0x00; 0x00; 0x00; 0x00; 0x00; 0x00; 0x00; 0x00; 0x00];
  [0x00; 0x00; 0x00; 0x00; 0x00; 0x00; 0x00; 0x00; 0x00; 0x00; 0x00; 0x00];
  [0x00; 0x00; 0x00; 0x00; 0x00; 0x00; 0x00; 0x00; 0x00; 0x00; 0x00; 0x00];
  [0x00; 0x00; 0x00; 0x00; 0x00; 0x00; 0x00; 0x00; 0x00; 0x00; 0x00; 0x00];
  [0x00; 0x00; 0x00; 0x00; 0x00; 0x00; 0x00; 0x00; 0x00; 0x00; 0x00; 0x00];
  [0x00; 0x00; 0x00; 0x00; 0x00; 0x00; 0x00; 0x00; 0x00; 0x00; 0x00; 0x00];
  [0x00; 0x00; 0x00; 0x00; 0x00; 0x00; 0x00; 0x00; 0x00; 0x00; 0x00; 0x00];
  [0x00; 0x00; 0x00; 0x00; 0x00; 0x00; 0x00; 0x00; 0x00; 0x00; 0x00; 0x00];
  [0x00; 0x00; 0x00; 0x00; 0x00; 0x00; 0x00; 0x00; 0x00; 0x00; 0x00; 0x00];
  [0x00; 0x00; 0x00; 0x00; 0x00; 0x00; 0x00; 0x00; 0x00; 0x00; 0x00; 0x00];
  [0x00; 0x00; 0x00; 0x00; 0x00; 0x00; 0x00; 0x00; 0x00; 0x00; 0x00; 0x00];
  [0x00; 0x00; 0x00; 0x00; 0x00; 0x00; 0x00; 0x00; 0x00; 0x00; 0x00; 0x00];
  [0x00; 0x00; 0x00; 0x00; 0x00; 0x00; 0x00; 0x00; 0x00; 0x00; 0x00; 0x00];
  [0x00; 0x00; 0x00; 0x00; 0x00; 0x00; 0x00; 0x00; 0x00; 0x00; 0x00; 0x00];
  [0x00; 0x00; 0x00; 0x00; 0x00; 0x00; 0x00; 0x00; 0x00; 0x00; 0x00; 0x00];
  [0x00; 0x00; 0x00; 0x00; 0x00; 0x00; 0x00; 0x00; 0x00; 0x00; 0x00; 0x00];
  [0x00; 0x00; 0x00; 0x00; 0x00; 0x00; 0x00; 0x00; 0x00; 0x00; 0x00; 0x00];
  [0x00; 0x00; 0x00; 0x00; 0x00; 0x00; 0x00; 0x00; 0x00; 0x00; 0x00; 0x00];
  [0x00; 0x00; 0x00; 0x00; 0x00; 0x00; 0x00; 0x00; 0x00; 0x00; 0x00; 0x00];
  [0x00; 0x00; 0x00; 0x00; 0x00; 0x00; 0x00; 0x00; 0x00; 0x00; 0x00; 0x00];
  [0x00; 0x00; 0x00; 0x00; 0x00; 0x00; 0x00; 0x00; 0x00; 0x00; 0x00; 0x00];
  [0x00; 0x00; 0x00; 0x00; 0x00; 0x00; 0x00; 0x00; 0x00; 0x00; 0x00; 0x00];
  [0x00; 0x00; 0x00; 0x00; 0x00; 0x00; 0x00; 0x00; 0x00; 0x00; 0x00; 0x00];
  [0x00; 0x00; 0x00; 0x00; 0x00; 0x00; 0x00; 0x00; 0x00; 0x00; 0x00; 0x00];
  [0x00; 0x00; 0x00; 0x00; 0x00; 0x00; 0x00; 0x00; 0x00; 0x00; 0x00; 0x00];
  [0x00; 0x00; 0x00; 0x00; 0x00; 0x00; 0x00; 0x00; 0x00; 0x00; 0x00; 0x00];
  [0x00; 0x00; 0x00; 0x00; 0x00; 0x00; 0x00; 0x00; 0x00; 0x00; 0x00; 0x00];
  [0x00; 0x00; 0x00; 0x00; 0x00; 0x00; 0x00; 0x00; 0x00; 0x00; 0x00; 0x00];
  [0x00; 0x00; 0x00; 0x00; 0x00; 0x00; 0x00; 0x00; 0x00; 0x00; 0x00; 0x00];
  [0x00; 0x00; 0x00; 0x00; 0x00; 0x00; 0x00; 0x00; 0x00; 0x00; 0x00; 0x00];
  [0x00; 0x00; 0x00; 0x00; 0x00; 0x00; 0x00; 0x00; 0x00; 0x00; 0x00; 0x00];
  [0x00; 0x00; 0x00; 0x00; 0x00; 0x00; 0x00; 0x00; 0x00; 0x00; 0x00; 0x00];
  [0x00; 0x00; 0x00; 0x00; 0x00; 0x00; 0x00; 0x00; 0x00; 0x00; 0x00; 0x00];
  [0x00; 0x00; 0x00; 0x00; 0x00; 0x00; 0x00; 0x00; 0x00; 0x00; 0x00; 0x00];
  [0x00; 0x00; 0x00; 0x00; 0x00; 0x00; 0x00; 0x00; 0x00; 0x00; 0x00; 0x00];
  [0x00; 0x00; 0x00; 0x00; 0x00; 0x00; 0x00; 0x00; 0x00; 0x00; 0x00; 0x00];
  [0x00; 0x00; 0x00; 0x00; 0x00; 0x00; 0x00; 0x00; 0x00; 0x00; 0x00; 0x00];
  [0x00; 0x00; 0x00; 0x00; 0x00; 0x00; 0x00; 0x00; 0x00; 0x00; 0x00; 0x00];
  [0x00; 0x00; 0x00; 0x00; 0x00; 0x00; 0x00; 0x00; 0x00; 0x00; 0x00; 0x00];
  [0x00; 0x00; 0x00; 0x00; 0x00; 0x00; 0x00; 0x00; 0x00; 0x00; 0x00; 0x00];
  [0x00; 0x00; 0x00; 0x00; 0x00; 0x00; 0x00; 0x00; 0x00; 0x00; 0x00; 0x00];
  [0x00; 0x00; 0x00; 0x00; 0x00; 0x00; 0x00; 0x00; 0x00; 0x00; 0x00; 0x00];
  [0x00; 0x00; 0x00; 0x00; 0x00; 0x00; 0x00; 0x00; 0x00; 0x00; 0x00; 0x00];
  [0x00; 0x00; 0x00; 0x00; 0x00; 0x00; 0x00; 0x00; 0x00; 0x00; 0x00; 0x00];
  [0x00; 0x00; 0x00; 0x00; 0x00; 0x00; 0x00; 0x00; 0x00; 0x00; 0x00; 0x00];
  [0x00; 0x00; 0x00; 0x00; 0x00; 0x00; 0x00; 0x00; 0x00; 0x00; 0x00; 0x00];
  [0x00; 0x00; 0x00; 0x00; 0x00; 0x00; 0x00; 0x00; 0x00; 0x00; 0x00; 0x00];
  [0x00; 0x00; 0x00; 0x00; 0x00; 0x00; 0x00; 0x00; 0x00; 0x00; 0x00; 0x00];
  [0x00; 0x00; 0x00; 0x00; 0x00; 0x00; 0x00; 0x00; 0x00; 0x00; 0x00; 0x00];
  [0x00; 0x00; 0x00; 0x00; 0x00; 0x00; 0x00; 0x00; 0x00; 0x00; 0x00; 0x00];
  [0x00; 0x00; 0x00; 0x00; 0x00; 0x00; 0x00; 0x00; 0x00; 0x00; 0x00; 0x00];
  [0x00; 0x00; 0x00; 0x00; 0x00; 0x00; 0x00; 0x00; 0x00; 0x00; 0x00; 0x00];
  [0x00; 0x00; 0x00; 0x00; 0x00; 0x00; 0x00; 0x00; 0x00; 0x00; 0x00; 0x00];
  [0x00; 0x00; 0x00; 0x00; 0x00; 0x00; 0x00; 0x00; 0x00; 0x00; 0x00; 0x00];
  [0x00; 0x00; 0x00; 0x00; 0x00; 0x00; 0x00; 0x00; 0x00; 0x00; 0x00; 0x00];
  [0x00; 0x00; 0x00; 0x00; 0x00; 0x00; 0x00; 0x00; 0x00; 0x00; 0x00; 0x00];
  [0x00; 0x00; 0x00; 0x00; 0x00; 0x00; 0x00; 0x00; 0x00; 0x00; 0x00; 0x00];
  [0x00; 0x00; 0x00; 0x00; 0x00; 0x00; 0x00; 0x00; 0x00; 0x00; 0x00; 0x00];
  [0x00; 0x00; 0x00; 0x00; 0x00; 0x00; 0x00; 0x00; 0x00; 0x00; 0x00; 0x00];
  [0x00; 0x00; 0x00; 0x00; 0x00; 0x00; 0x00; 0x00; 0x00; 0x00; 0x00; 0x00];
  [0x00; 0x00; 0x00; 0x00; 0x00; 0x00; 0x00; 0x00; 0x00; 0x00; 0x00; 0x00];
  [0x00; 0x00; 0x00; 0x00; 0x00; 0x00; 0x00; 0x00; 0x00; 0x00; 0x00; 0x00];
  [0x00; 0x00; 0x00; 0x00; 0x00; 0x00; 0x00; 0x00; 0x00; 0x00; 0x00; 0x00];
  [0x00; 0x00; 0x00; 0x00; 0x00; 0x00; 0x00; 0x00; 0x00; 0x00; 0x00; 0x00];
  [0x00; 0x00; 0x00; 0x00; 0x00; 0x00; 0x00; 0x00; 0x00; 0x00; 0x00; 0x00];
  [0x00; 0x00; 0x00; 0x00; 0x00; 0x00; 0x00; 0x00; 0x00; 0x00; 0x00; 0x00];
  [0x00; 0x00; 0x00; 0x00; 0x00; 0x00; 0x00; 0x00; 0x00; 0x00; 0x00; 0x00];
  [0x00; 0x00; 0x00; 0x00; 0x00; 0x00; 0x00; 0x00; 0x00; 0x00; 0x00; 0x00];
  [0x00; 0x00; 0x00; 0x00; 0x00; 0x00; 0x00; 0x00; 0x00; 0x00; 0x00; 0x00];
  [0x00; 0x00; 0x00; 0x00; 0x00; 0x00; 0x00; 0x00; 0x00; 0x00; 0x00; 0x00];
  [0x00; 0x00; 0x00; 0x00; 0x00; 0x00; 0x00; 0x00; 0x00; 0x00; 0x00; 0x00];
  [0x00; 0x00; 0x00; 0x00; 0x00; 0x00; 0x00; 0x00; 0x00; 0x00; 0x00; 0x00];
  [0x00; 0x00; 0x00; 0x00; 0x00; 0x00; 0x00; 0x00; 0x00; 0x00; 0x00; 0x00];
  [0x00; 0x00; 0x00; 0x00; 0x00; 0x00; 0x00; 0x00; 0x00; 0x00; 0x00; 0x00];
  [0x00; 0x00; 0x00; 0x00; 0x00; 0x00; 0x00; 0x00; 0x00; 0x00; 0x00; 0x00];
  [0x00; 0x00; 0x00; 0x00; 0x00; 0x00; 0x00; 0x00; 0x00; 0x00; 0x00; 0x00];
  [0x00; 0x00; 0x00; 0x00; 0x00; 0x00; 0x00; 0x00; 0x00; 0x00; 0x00; 0x00];
  [0x00; 0x00; 0x00; 0x00; 0x00; 0x00; 0x00; 0x00; 0x00; 0x00; 0x00; 0x00];
  [0x00; 0x00; 0x00; 0x00; 0x00; 0x00; 0x00; 0x00; 0x00; 0x00; 0x00; 0x00];
  [0x00; 0x00; 0x00; 0x00; 0x00; 0x00; 0x00; 0x00; 0x00; 0x00; 0x00; 0x00];
  [0x00; 0x00; 0x00; 0x00; 0x00; 0x00; 0x00; 0x00; 0x00; 0x00; 0x00; 0x00];
  [0x00; 0x00; 0x00; 0x00; 0x00; 0x00; 0x00; 0x00; 0x00; 0x00; 0x00; 0x00];
  [0x00; 0x00; 0x00; 0x00; 0x00; 0x00; 0x00; 0x00; 0x00; 0x00; 0x00; 0x00];
  [0x00; 0x00; 0x00; 0x00; 0x00; 0x00; 0x00; 0x00; 0x00; 0x00; 0x00; 0x00];
  [0x00; 0x00; 0x00; 0x00; 0x00; 0x00; 0x00; 0x00; 0x00; 0x00; 0x00; 0x00];
  [0x00; 0x00; 0x00; 0x00; 0x00; 0x00; 0x00; 0x00; 0x00; 0x00; 0x00; 0x00];
  [0x00; 0x00; 0x00; 0x00; 0x00; 0x00; 0x00; 0x00; 0x00; 0x00; 0x00; 0x00];
  [0x00; 0x00; 0x00; 0x00; 0x00; 0x00; 0x00; 0x00; 0x00; 0x00; 0x00; 0x00];
  [0x00; 0x00; 0x00; 0x00; 0x00; 0x00; 0x00; 0x00; 0x00; 0x00; 0x00; 0x00];
  [0x00; 0x00; 0x00; 0x00; 0x00; 0x00; 0x00; 0x00; 0x00; 0x00; 0x00; 0x00];
  [0x00; 0x00; 0x00; 0x00; 0x00; 0x00; 0x00; 0x00; 0x00; 0x00; 0x00; 0x00];
  [0x00; 0x00; 0x00; 0x00; 0x00; 0x00; 0x00; 0x00; 0x00; 0x00; 0x00; 0x00];
  [0x00; 0x00; 0x00; 0x00; 0x00; 0x00; 0x00; 0x00; 0x00; 0x00; 0x00; 0x00];
  [0x00; 0x00; 0x00; 0x00; 0x00; 0x00; 0x00; 0x00; 0x00; 0x00; 0x00; 0x00];
  [0x00; 0x00; 0x00; 0x00; 0x00; 0x00; 0x00; 0x00; 0x00; 0x00; 0x00; 0x00];
  [0x00; 0x00; 0x00; 0x00; 0x00; 0x00; 0x00; 0x00; 0x00; 0x00; 0x00; 0x00];
  [0x00; 0x00; 0x00; 0x00; 0x00; 0x00; 0x00; 0x00; 0x00; 0x00; 0x00; 0x00];
  [0x00; 0x00; 0x00; 0x00; 0x00; 0x00; 0x00; 0x00; 0x00; 0x00; 0x00; 0x00];
  [0x00; 0x00; 0x00; 0x00; 0x00; 0x00; 0x00; 0x00; 0x00; 0x00; 0x00; 0x00];
  [0x00; 0x00; 0x00; 0x00; 0x00; 0x00; 0x00; 0x00; 0x00; 0x00; 0x00; 0x00];
  [0x00; 0x00; 0x00; 0x00; 0x00; 0x00; 0x00; 0x00; 0x00; 0x00; 0x00; 0x00];
  [0x00; 0x00; 0x00; 0x00; 0x00; 0x00; 0x00; 0x00; 0x00; 0x00; 0x00; 0x00];
  [0x00; 0x00; 0x00; 0x00; 0x00; 0x00; 0x00; 0x00; 0x00; 0x00; 0x00; 0x00];
  [0x00; 0x00; 0x00; 0x00; 0x00; 0x00; 0x00; 0x00; 0x00; 0x00; 0x00; 0x00];
  [0x00; 0x00; 0x00; 0x00; 0x00; 0x00; 0x00; 0x00; 0x00; 0x00; 0x00; 0x00];
  [0x00; 0x00; 0x00; 0x00; 0x00; 0x00; 0x00; 0x00; 0x00; 0x00; 0x00; 0x00];
  [0x00; 0x00; 0x00; 0x00; 0x00; 0x00; 0x00; 0x00; 0x00; 0x00; 0x00; 0x00];
  [0x00; 0x00; 0x00; 0x00; 0x00; 0x00; 0x00; 0x00; 0x00; 0x00; 0x00; 0x00];
  [0x00; 0x00; 0x00; 0x00; 0x00; 0x00; 0x00; 0x00; 0x00; 0x00; 0x00; 0x00];
  [0x00; 0x00; 0x00; 0x00; 0x00; 0x00; 0x00; 0x00; 0x00; 0x00; 0x00; 0x00];
  [0x00; 0x00; 0x00; 0x00; 0x00; 0x00; 0x00; 0x00; 0x00; 0x00; 0x00; 0x00];
  [0x00; 0x00; 0x00; 0x00; 0x00; 0x00; 0x00; 0x00; 0x00; 0x00; 0x00; 0x00];
  [0x00; 0x00; 0x00; 0x00; 0x00; 0x00; 0x00; 0x00; 0x00; 0x00; 0x00; 0x00];
  [0x00; 0x00; 0x00; 0x00; 0x00; 0x00; 0x00; 0x00; 0x00; 0x00; 0x00; 0x00];
  [0x00; 0x00; 0x00; 0x00; 0x00; 0x00; 0x00; 0x00; 0x00; 0x00; 0x00; 0x00];
  [0x00; 0x00; 0x00; 0x00; 0x00; 0x00; 0x00; 0x00; 0x00; 0x00; 0x00; 0x00];
  [0x00; 0x00; 0x00; 0x00; 0x00; 0x00; 0x00; 0x00; 0x00; 0x00; 0x00; 0x00];
  [0x00; 0x00; 0x00; 0x00; 0x04; 0x00; 0x00; 0x00; 0x20; 0x00; 0x00; 0x00];
  [0x05; 0x00; 0x00; 0x00; 0x47; 0x4e; 0x55; 0x00; 0x01; 0x00; 0x01; 0xc0];
  [0x04; 0x00; 0x00; 0x00; 0x01; 0x00; 0x00; 0x00; 0x00; 0x00; 0x00; 0x00];
  [0x02; 0x00; 0x01; 0xc0; 0x04; 0x00; 0x00; 0x00; 0x01; 0x00; 0x00; 0x00];
  [0x00; 0x00; 0x00; 0x00; 0x01; 0x1b; 0x03; 0x3b; 0x64; 0x00; 0x00; 0x00];
  [0x0b; 0x00; 0x00; 0x00; 0x70; 0xf1; 0xff; 0xff; 0x80; 0x00; 0x00; 0x00];
  [0xf0; 0xf1; 0xff; 0xff; 0x98; 0x00; 0x00; 0x00; 0x20; 0xf2; 0xff; 0xff];
  [0xac; 0x00; 0x00; 0x00; 0x90; 0xf2; 0xff; 0xff; 0xc0; 0x00; 0x00; 0x00];
  [0xd0; 0xf2; 0xff; 0xff; 0xd4; 0x00; 0x00; 0x00; 0x10; 0xf3; 0xff; 0xff];
  [0xe8; 0x00; 0x00; 0x00; 0x70; 0xf3; 0xff; 0xff; 0xfc; 0x00; 0x00; 0x00];
  [0x80; 0xf3; 0xff; 0xff; 0x10; 0x01; 0x00; 0x00; 0x90; 0xf3; 0xff; 0xff];
  [0x24; 0x01; 0x00; 0x00; 0xa0; 0xf3; 0xff; 0xff; 0x38; 0x01; 0x00; 0x00];
  [0xb0; 0xf3; 0xff; 0xff; 0x4c; 0x01; 0x00; 0x00; 0x00; 0x00; 0x00; 0x00];
  [0x14; 0x00; 0x00; 0x00; 0x00; 0x00; 0x00; 0x00; 0x01; 0x7a; 0x52; 0x00];
  [0x01; 0x78; 0x10; 0x01; 0x1b; 0x0c; 0x07; 0x08; 0x90; 0x01; 0x00; 0x00];
  [0x14; 0x00; 0x00; 0x00; 0x1c; 0x00; 0x00; 0x00; 0xe8; 0xf0; 0xff; 0xff];
  [0x73; 0x00; 0x00; 0x00; 0x00; 0x4e; 0x0e; 0x30; 0x00; 0x00; 0x00; 0x00];
  [0x10; 0x00; 0x00; 0x00; 0x34; 0x00; 0x00; 0x00; 0x50; 0xf1; 0xff; 0xff];
  [0x2b; 0x00; 0x00; 0x00; 0x00; 0x00; 0x00; 0x00; 0x10; 0x00; 0x00; 0x00];
  [0x48; 0x00; 0x00; 0x00; 0x6c; 0xf1; 0xff; 0xff; 0x69; 0x00; 0x00; 0x00];
  [0x00; 0x00; 0x00; 0x00; 0x10; 0x00; 0x00; 0x00; 0x5c; 0x00; 0x00; 0x00];
  [0xc8; 0xf1; 0xff; 0xff; 0x38; 0x00; 0x00; 0x00; 0x00; 0x00; 0x00; 0x00];
  [0x10; 0x00; 0x00; 0x00; 0x70; 0x00; 0x00; 0x00; 0xf4; 0xf1; 0xff; 0xff];
  [0x34; 0x00; 0x00; 0x00; 0x00; 0x00; 0x00; 0x00; 0x10; 0x00; 0x00; 0x00];
  [0x84; 0x00; 0x00; 0x00; 0x20; 0xf2; 0xff; 0xff; 0x56; 0x00; 0x00; 0x00];
  [0x00; 0x00; 0x00; 0x00; 0x10; 0x00; 0x00; 0x00; 0x98; 0x00; 0x00; 0x00];
  [0x6c; 0xf2; 0xff; 0xff; 0x0e; 0x00; 0x00; 0x00; 0x00; 0x00; 0x00; 0x00];
  [0x10; 0x00; 0x00; 0x00; 0xac; 0x00; 0x00; 0x00; 0x68; 0xf2; 0xff; 0xff];
  [0x08; 0x00; 0x00; 0x00; 0x00; 0x00; 0x00; 0x00; 0x10; 0x00; 0x00; 0x00];
  [0xc0; 0x00; 0x00; 0x00; 0x64; 0xf2; 0xff; 0xff; 0x0b; 0x00; 0x00; 0x00];
  [0x00; 0x00; 0x00; 0x00; 0x10; 0x00; 0x00; 0x00; 0xd4; 0x00; 0x00; 0x00];
  [0x60; 0xf2; 0xff; 0xff; 0x08; 0x00; 0x00; 0x00; 0x00; 0x00; 0x00; 0x00];
  [0x10; 0x00; 0x00; 0x00; 0xe8; 0x00; 0x00; 0x00; 0x5c; 0xf2; 0xff; 0xff];
  [0x08; 0x00; 0x00; 0x00; 0x00; 0x00; 0x00; 0x00; 0x47; 0x43; 0x43; 0x3a];
  [0x20; 0x28; 0x47; 0x4e; 0x55; 0x29; 0x20; 0x31; 0x35; 0x2e; 0x32; 0x2e];
  [0x31; 0x20; 0x32; 0x30; 0x32; 0x35; 0x31; 0x32; 0x31; 0x31; 0x20; 0x28];
  [0x52; 0x65; 0x64; 0x20; 0x48; 0x61; 0x74; 0x20; 0x31; 0x35; 0x2e; 0x32];
  [0x2e; 0x31; 0x2d; 0x35; 0x29; 0x00; 0x00; 0x00; 0x00; 0x00; 0x00; 0x00];
  [0x00; 0x00; 0x00; 0x00; 0x00; 0x00; 0x00; 0x00; 0x00; 0x00; 0x00; 0x00];
  [0x00; 0x00; 0x00; 0x00; 0x00; 0x00; 0x00; 0x00; 0x01; 0x00; 0x00; 0x00];
  [0x04; 0x00; 0xf1; 0xff; 0x00; 0x00; 0x00; 0x00; 0x00; 0x00; 0x00; 0x00];
  [0x00; 0x00; 0x00; 0x00; 0x00; 0x00; 0x00; 0x00; 0x09; 0x00; 0x00; 0x00];
  [0x04; 0x00; 0xf1; 0xff; 0x00; 0x00; 0x00; 0x00; 0x00; 0x00; 0x00; 0x00];
  [0x00; 0x00; 0x00; 0x00; 0x00; 0x00; 0x00; 0x00; 0x00; 0x00; 0x00; 0x00];
  [0x04; 0x00; 0xf1; 0xff; 0x00; 0x00; 0x00; 0x00; 0x00; 0x00; 0x00; 0x00];
  [0x00; 0x00; 0x00; 0x00; 0x00; 0x00; 0x00; 0x00; 0x10; 0x00; 0x00; 0x00];
  [0x00; 0x00; 0x03; 0x00; 0x30; 0x10; 0x40; 0x00; 0x00; 0x00; 0x00; 0x00];
  [0x00; 0x00; 0x00; 0x00; 0x00; 0x00; 0x00; 0x00; 0x23; 0x00; 0x00; 0x00];
  [0x12; 0x00; 0x01; 0x00; 0xc0; 0x02; 0x40; 0x00; 0x00; 0x00; 0x00; 0x00];
  [0x38; 0x00; 0x00; 0x00; 0x00; 0x00; 0x00; 0x00; 0x2a; 0x00; 0x00; 0x00];
  [0x12; 0x00; 0x01; 0x00; 0x00; 0x03; 0x40; 0x00; 0x00; 0x00; 0x00; 0x00];
  [0x34; 0x00; 0x00; 0x00; 0x00; 0x00; 0x00; 0x00; 0x31; 0x00; 0x00; 0x00];
  [0x12; 0x00; 0x01; 0x00; 0xc0; 0x03; 0x40; 0x00; 0x00; 0x00; 0x00; 0x00];
  [0x0b; 0x00; 0x00; 0x00; 0x00; 0x00; 0x00; 0x00; 0x3c; 0x00; 0x00; 0x00];
  [0x12; 0x00; 0x01; 0x00; 0xa0; 0x03; 0x40; 0x00; 0x00; 0x00; 0x00; 0x00];
  [0x0e; 0x00; 0x00; 0x00; 0x00; 0x00; 0x00; 0x00; 0x4a; 0x00; 0x00; 0x00];
  [0x12; 0x00; 0x01; 0x00; 0xa0; 0x01; 0x40; 0x00; 0x00; 0x00; 0x00; 0x00];
  [0x73; 0x00; 0x00; 0x00; 0x00; 0x00; 0x00; 0x00; 0x45; 0x00; 0x00; 0x00];
  [0x10; 0x00; 0x04; 0x00; 0x00; 0x20; 0x40; 0x00; 0x00; 0x00; 0x00; 0x00];
  [0x00; 0x00; 0x00; 0x00; 0x00; 0x00; 0x00; 0x00; 0x51; 0x00; 0x00; 0x00];
  [0x12; 0x00; 0x01; 0x00; 0x40; 0x03; 0x40; 0x00; 0x00; 0x00; 0x00; 0x00];
  [0x56; 0x00; 0x00; 0x00; 0x00; 0x00; 0x00; 0x00; 0x58; 0x00; 0x00; 0x00];
  [0x12; 0x00; 0x01; 0x00; 0x50; 0x02; 0x40; 0x00; 0x00; 0x00; 0x00; 0x00];
  [0x69; 0x00; 0x00; 0x00; 0x00; 0x00; 0x00; 0x00; 0x5f; 0x00; 0x00; 0x00];
  [0x12; 0x00; 0x01; 0x00; 0xe0; 0x03; 0x40; 0x00; 0x00; 0x00; 0x00; 0x00];
  [0x08; 0x00; 0x00; 0x00; 0x00; 0x00; 0x00; 0x00; 0x6a; 0x00; 0x00; 0x00];
  [0x10; 0x00; 0x04; 0x00; 0x00; 0x20; 0x40; 0x00; 0x00; 0x00; 0x00; 0x00];
  [0x00; 0x00; 0x00; 0x00; 0x00; 0x00; 0x00; 0x00; 0x71; 0x00; 0x00; 0x00];
  [0x10; 0x00; 0x04; 0x00; 0x00; 0x20; 0x40; 0x00; 0x00; 0x00; 0x00; 0x00];
  [0x00; 0x00; 0x00; 0x00; 0x00; 0x00; 0x00; 0x00; 0x76; 0x00; 0x00; 0x00];
  [0x12; 0x00; 0x01; 0x00; 0x20; 0x02; 0x40; 0x00; 0x00; 0x00; 0x00; 0x00];
  [0x2b; 0x00; 0x00; 0x00; 0x00; 0x00; 0x00; 0x00; 0x7d; 0x00; 0x00; 0x00];
  [0x12; 0x00; 0x01; 0x00; 0xb0; 0x03; 0x40; 0x00; 0x00; 0x00; 0x00; 0x00];
  [0x08; 0x00; 0x00; 0x00; 0x00; 0x00; 0x00; 0x00; 0x86; 0x00; 0x00; 0x00];
  [0x12; 0x00; 0x01; 0x00; 0xd0; 0x03; 0x40; 0x00; 0x00; 0x00; 0x00; 0x00];
  [0x08; 0x00; 0x00; 0x00; 0x00; 0x00; 0x00; 0x00; 0x00; 0x68; 0x65; 0x6c];
  [0x6c; 0x6f; 0x2e; 0x63; 0x00; 0x6c; 0x69; 0x62; 0x63; 0x2e; 0x63; 0x00];
  [0x5f; 0x5f; 0x47; 0x4e; 0x55; 0x5f; 0x45; 0x48; 0x5f; 0x46; 0x52; 0x41];
  [0x4d; 0x45; 0x5f; 0x48; 0x44; 0x52; 0x00; 0x73; 0x74; 0x72; 0x63; 0x70];
  [0x79; 0x00; 0x6d; 0x65; 0x6d; 0x63; 0x70; 0x79; 0x00; 0x73; 0x79; 0x73];
  [0x5f; 0x73; 0x70; 0x61; 0x77; 0x6e; 0x32; 0x00; 0x73; 0x79; 0x73; 0x5f];
  [0x64; 0x75; 0x70; 0x32; 0x00; 0x5f; 0x5f; 0x62; 0x73; 0x73; 0x5f; 0x73];
  [0x74; 0x61; 0x72; 0x74; 0x00; 0x6d; 0x65; 0x6d; 0x73; 0x65; 0x74; 0x00];
  [0x73; 0x74; 0x72; 0x63; 0x6d; 0x70; 0x00; 0x73; 0x79; 0x73; 0x5f; 0x67];
  [0x65; 0x74; 0x63; 0x77; 0x64; 0x00; 0x5f; 0x65; 0x64; 0x61; 0x74; 0x61];
  [0x00; 0x5f; 0x65; 0x6e; 0x64; 0x00; 0x73; 0x74; 0x72; 0x6c; 0x65; 0x6e];
  [0x00; 0x73; 0x79; 0x73; 0x5f; 0x70; 0x69; 0x70; 0x65; 0x00; 0x73; 0x79];
  [0x73; 0x5f; 0x63; 0x68; 0x64; 0x69; 0x72; 0x00; 0x00; 0x2e; 0x73; 0x79];
  [0x6d; 0x74; 0x61; 0x62; 0x00; 0x2e; 0x73; 0x74; 0x72; 0x74; 0x61; 0x62];
  [0x00; 0x2e; 0x73; 0x68; 0x73; 0x74; 0x72; 0x74; 0x61; 0x62; 0x00; 0x2e];
  [0x74; 0x65; 0x78; 0x74; 0x00; 0x2e; 0x6e; 0x6f; 0x74; 0x65; 0x2e; 0x67];
  [0x6e; 0x75; 0x2e; 0x70; 0x72; 0x6f; 0x70; 0x65; 0x72; 0x74; 0x79; 0x00];
  [0x2e; 0x65; 0x68; 0x5f; 0x66; 0x72; 0x61; 0x6d; 0x65; 0x5f; 0x68; 0x64];
  [0x72; 0x00; 0x2e; 0x65; 0x68; 0x5f; 0x66; 0x72; 0x61; 0x6d; 0x65; 0x00];
  [0x2e; 0x63; 0x6f; 0x6d; 0x6d; 0x65; 0x6e; 0x74; 0x00; 0x00; 0x00; 0x00];
  [0x00; 0x00; 0x00; 0x00; 0x00; 0x00; 0x00; 0x00; 0x00; 0x00; 0x00; 0x00];
  [0x00; 0x00; 0x00; 0x00; 0x00; 0x00; 0x00; 0x00; 0x00; 0x00; 0x00; 0x00];
  [0x00; 0x00; 0x00; 0x00; 0x00; 0x00; 0x00; 0x00; 0x00; 0x00; 0x00; 0x00];
  [0x00; 0x00; 0x00; 0x00; 0x00; 0x00; 0x00; 0x00; 0x00; 0x00; 0x00; 0x00];
  [0x00; 0x00; 0x00; 0x00; 0x00; 0x00; 0x00; 0x00; 0x00; 0x00; 0x00; 0x00];
  [0x00; 0x00; 0x00; 0x00; 0x1b; 0x00; 0x00; 0x00; 0x01; 0x00; 0x00; 0x00];
  [0x06; 0x00; 0x00; 0x00; 0x00; 0x00; 0x00; 0x00; 0xa0; 0x01; 0x40; 0x00];
  [0x00; 0x00; 0x00; 0x00; 0xa0; 0x01; 0x00; 0x00; 0x00; 0x00; 0x00; 0x00];
  [0x48; 0x02; 0x00; 0x00; 0x00; 0x00; 0x00; 0x00; 0x00; 0x00; 0x00; 0x00];
  [0x00; 0x00; 0x00; 0x00; 0x20; 0x00; 0x00; 0x00; 0x00; 0x00; 0x00; 0x00];
  [0x00; 0x00; 0x00; 0x00; 0x00; 0x00; 0x00; 0x00; 0x21; 0x00; 0x00; 0x00];
  [0x07; 0x00; 0x00; 0x00; 0x02; 0x00; 0x00; 0x00; 0x00; 0x00; 0x00; 0x00];
  [0x00; 0x10; 0x40; 0x00; 0x00; 0x00; 0x00; 0x00; 0x00; 0x10; 0x00; 0x00];
  [0x00; 0x00; 0x00; 0x00; 0x30; 0x00; 0x00; 0x00; 0x00; 0x00; 0x00; 0x00];
  [0x00; 0x00; 0x00; 0x00; 0x00; 0x00; 0x00; 0x00; 0x08; 0x00; 0x00; 0x00];
  [0x00; 0x00; 0x00; 0x00; 0x00; 0x00; 0x00; 0x00; 0x00; 0x00; 0x00; 0x00];
  [0x34; 0x00; 0x00; 0x00; 0x01; 0x00; 0x00; 0x00; 0x02; 0x00; 0x00; 0x00];
  [0x00; 0x00; 0x00; 0x00; 0x30; 0x10; 0x40; 0x00; 0x00; 0x00; 0x00; 0x00];
  [0x30; 0x10; 0x00; 0x00; 0x00; 0x00; 0x00; 0x00; 0x64; 0x00; 0x00; 0x00];
  [0x00; 0x00; 0x00; 0x00; 0x00; 0x00; 0x00; 0x00; 0x00; 0x00; 0x00; 0x00];
  [0x04; 0x00; 0x00; 0x00; 0x00; 0x00; 0x00; 0x00; 0x00; 0x00; 0x00; 0x00];
  [0x00; 0x00; 0x00; 0x00; 0x42; 0x00; 0x00; 0x00; 0x01; 0x00; 0x00; 0x00];
  [0x02; 0x00; 0x00; 0x00; 0x00; 0x00; 0x00; 0x00; 0x98; 0x10; 0x40; 0x00];
  [0x00; 0x00; 0x00; 0x00; 0x98; 0x10; 0x00; 0x00; 0x00; 0x00; 0x00; 0x00];
  [0xf8; 0x00; 0x00; 0x00; 0x00; 0x00; 0x00; 0x00; 0x00; 0x00; 0x00; 0x00];
  [0x00; 0x00; 0x00; 0x00; 0x08; 0x00; 0x00; 0x00; 0x00; 0x00; 0x00; 0x00];
  [0x00; 0x00; 0x00; 0x00; 0x00; 0x00; 0x00; 0x00; 0x4c; 0x00; 0x00; 0x00];
  [0x01; 0x00; 0x00; 0x00; 0x30; 0x00; 0x00; 0x00; 0x00; 0x00; 0x00; 0x00];
  [0x00; 0x00; 0x00; 0x00; 0x00; 0x00; 0x00; 0x00; 0x90; 0x11; 0x00; 0x00];
  [0x00; 0x00; 0x00; 0x00; 0x2e; 0x00; 0x00; 0x00; 0x00; 0x00; 0x00; 0x00];
  [0x00; 0x00; 0x00; 0x00; 0x00; 0x00; 0x00; 0x00; 0x01; 0x00; 0x00; 0x00];
  [0x00; 0x00; 0x00; 0x00; 0x01; 0x00; 0x00; 0x00; 0x00; 0x00; 0x00; 0x00];
  [0x01; 0x00; 0x00; 0x00; 0x02; 0x00; 0x00; 0x00; 0x00; 0x00; 0x00; 0x00];
  [0x00; 0x00; 0x00; 0x00; 0x00; 0x00; 0x00; 0x00; 0x00; 0x00; 0x00; 0x00];
  [0xc0; 0x11; 0x00; 0x00; 0x00; 0x00; 0x00; 0x00; 0xc8; 0x01; 0x00; 0x00];
  [0x00; 0x00; 0x00; 0x00; 0x07; 0x00; 0x00; 0x00; 0x05; 0x00; 0x00; 0x00];
  [0x08; 0x00; 0x00; 0x00; 0x00; 0x00; 0x00; 0x00; 0x18; 0x00; 0x00; 0x00];
  [0x00; 0x00; 0x00; 0x00; 0x09; 0x00; 0x00; 0x00; 0x03; 0x00; 0x00; 0x00];
  [0x00; 0x00; 0x00; 0x00; 0x00; 0x00; 0x00; 0x00; 0x00; 0x00; 0x00; 0x00];
  [0x00; 0x00; 0x00; 0x00; 0x88; 0x13; 0x00; 0x00; 0x00; 0x00; 0x00; 0x00];
  [0x90; 0x00; 0x00; 0x00; 0x00; 0x00; 0x00; 0x00; 0x00; 0x00; 0x00; 0x00];
  [0x00; 0x00; 0x00; 0x00; 0x01; 0x00; 0x00; 0x00; 0x00; 0x00; 0x00; 0x00];
  [0x00; 0x00; 0x00; 0x00; 0x00; 0x00; 0x00; 0x00; 0x11; 0x00; 0x00; 0x00];
  [0x03; 0x00; 0x00; 0x00; 0x00; 0x00; 0x00; 0x00; 0x00; 0x00; 0x00; 0x00];
  [0x00; 0x00; 0x00; 0x00; 0x00; 0x00; 0x00; 0x00; 0x18; 0x14; 0x00; 0x00];
  [0x00; 0x00; 0x00; 0x00; 0x55; 0x00; 0x00; 0x00; 0x00; 0x00; 0x00; 0x00];
  [0x00; 0x00; 0x00; 0x00; 0x00; 0x00; 0x00; 0x00; 0x01; 0x00; 0x00; 0x00];
  [0x00; 0x00; 0x00; 0x00; 0x00; 0x00; 0x00; 0x00; 0x00; 0x00; 0x00; 0x00]].
Definition user_image_hello_len : Z := 5808.

Definition user_image_shell : list Z := concat [
  [0x7f; 0x45; 0x4c; 0x46; 0x02; 0x01; 0x01; 0x00; 0x00; 0x00; 0x00; 0x00];
  [0x00; 0x00; 0x00; 0x00; 0x02; 0x00; 0x3e; 0x00; 0x01; 0x00; 0x00; 0x00];
  [0x30; 0x03; 0x40; 0x00; 0x00; 0x00; 0x00; 0x00; 0x40; 0x00; 0x00; 0x00];
  [0x00; 0x00; 0x00; 0x00; 0xe0; 0x23; 0x00; 0x00; 0x00; 0x00; 0x00; 0x00];
  [0x00; 0x00; 0x00; 0x00; 0x40; 0x00; 0x38; 0x00; 0x07; 0x00; 0x40; 0x00];
  [0x0b; 0x00; 0x0a; 0x00; 0x01; 0x00; 0x00; 0x00; 0x05; 0x00; 0x00; 0x00];
  [0x00; 0x00; 0x00; 0x00; 0x00; 0x00; 0x00; 0x00; 0x00; 0x00; 0x40; 0x00];
  [0x00; 0x00; 0x00; 0x00; 0x00; 0x00; 0x40; 0x00; 0x00; 0x00; 0x00; 0x00];
  [0x08; 0x0f; 0x00; 0x00; 0x00; 0x00; 0x00; 0x00; 0x08; 0x0f; 0x00; 0x00];
  [0x00; 0x00; 0x00; 0x00; 0x00; 0x10; 0x00; 0x00; 0x00; 0x00; 0x00; 0x00];
  [0x01; 0x00; 0x00; 0x00; 0x04; 0x00; 0x00; 0x00; 0x00; 0x10; 0x00; 0x00];
  [0x00; 0x00; 0x00; 0x00; 0x00; 0x10; 0x40; 0x00; 0x00; 0x00; 0x00; 0x00];
  [0x00; 0x10; 0x40; 0x00; 0x00; 0x00; 0x00; 0x00; 0xa8; 0x04; 0x00; 0x00];
  [0x00; 0x00; 0x00; 0x00; 0xa8; 0x04; 0x00; 0x00; 0x00; 0x00; 0x00; 0x00];
  [0x00; 0x10; 0x00; 0x00; 0x00; 0x00; 0x00; 0x00; 0x01; 0x00; 0x00; 0x00];
  [0x06; 0x00; 0x00; 0x00; 0x00; 0x20; 0x00; 0x00; 0x00; 0x00; 0x00; 0x00];
  [0x00; 0x20; 0x40; 0x00; 0x00; 0x00; 0x00; 0x00; 0x00; 0x20; 0x40; 0x00];
  [0x00; 0x00; 0x00; 0x00; 0x50; 0x00; 0x00; 0x00; 0x00; 0x00; 0x00; 0x00];
  [0x50; 0x00; 0x00; 0x00; 0x00; 0x00; 0x00; 0x00; 0x00; 0x10; 0x00; 0x00];
  [0x00; 0x00; 0x00; 0x00; 0x04; 0x00; 0x00; 0x00; 0x04; 0x00; 0x00; 0x00];
  [0x00; 0x10; 0x00; 0x00; 0x00; 0x00; 0x00; 0x00; 0x00; 0x10; 0x40; 0x00];
  [0x00; 0x00; 0x00; 0x00; 0x00; 0x10; 0x40; 0x00; 0x00; 0x00; 0x00; 0x00];
  [0x30; 0x00; 0x00; 0x00; 0x00; 0x00; 0x00; 0x00; 0x30; 0x00; 0x00; 0x00];
  [0x00; 0x00; 0x00; 0x00; 0x08; 0x00; 0x00; 0x00; 0x00; 0x00; 0x00; 0x00];
  [0x53; 0xe5; 0x74; 0x64; 0x04; 0x00; 0x00; 0x00; 0x00; 0x10; 0x00; 0x00];
  [0x00; 0x00; 0x00; 0x00; 0x00; 0x10; 0x40; 0x00; 0x00; 0x00; 0x00; 0x00];
  [0x00; 0x10; 0x40; 0x00; 0x00; 0x00; 0x00; 0x00; 0x30; 0x00; 0x00; 0x00];
  [0x00; 0x00; 0x00; 0x00; 0x30; 0x00; 0x00; 0x00; 0x00; 0x00; 0x00; 0x00];
  [0x08; 0x00; 0x00; 0x00; 0x00; 0x00; 0x00; 0x00; 0x50; 0xe5; 0x74; 0x64];
  [0x04; 0x00; 0x00; 0x00; 0xa8; 0x12; 0x00; 0x00; 0x00; 0x00; 0x00; 0x00];
  [0xa8; 0x12; 0x40; 0x00; 0x00; 0x00; 0x00; 0x00; 0xa8; 0x12; 0x40; 0x00];
  [0x00; 0x00; 0x00; 0x00; 0x74; 0x00; 0x00; 0x00; 0x00; 0x00; 0x00; 0x00];
  [0x74; 0x00; 0x00; 0x00; 0x00; 0x00; 0x00; 0x00; 0x04; 0x00; 0x00; 0x00];
  [0x00; 0x00; 0x00; 0x00; 0x51; 0xe5; 0x74; 0x64; 0x06; 0x00; 0x00; 0x00];
  [0x00; 0x00; 0x00; 0x00; 0x00; 0x00; 0x00; 0x00; 0x00; 0x00; 0x00; 0x00];
  [0x00; 0x00; 0x00; 0x00; 0x00; 0x00; 0x00; 0x00; 0x00; 0x00; 0x00; 0x00];
  [0x00; 0x00; 0x00; 0x00; 0x00; 0x00; 0x00; 0x00; 0x00; 0x00; 0x00; 0x00];
  [0x00; 0x00; 0x00; 0x00; 0x10; 0x00; 0x00; 0x00; 0x00; 0x00; 0x00; 0x00];
  [0x00; 0x00; 0x00; 0x00; 0x00; 0x00; 0x00; 0x00; 0x00; 0x00; 0x00; 0x00];
  [0x00; 0x00; 0x00; 0x00; 0x00; 0x00; 0x00; 0x00; 0x00; 0x00; 0x00; 0x00];
  [0x55; 0x53; 0x48; 0x83; 0xec; 0x48; 0x48; 0x85; 0xff; 0x0f; 0x84; 0x81];
  [0x00; 0x00; 0x00; 0x48; 0x89; 0xf5; 0x48; 0x85; 0xf6; 0x74; 0x79; 0x31];
  [0xf6; 0x41; 0x89; 0xd0; 0xb8; 0x05; 0x00; 0x00; 0x00; 0x48; 0x89; 0xf2];
  [0x0f; 0x05; 0x48; 0x89; 0xc3; 0x48; 0x85; 0xc0; 0x0f; 0x88; 0x86; 0x00];
  [0x00; 0x00; 0x45; 0x85; 0xc0; 0x74; 0x18; 0x48; 0x89; 0xe6; 0xba; 0x40];
  [0x00; 0x00; 0x00; 0x90; 0xb8; 0x03; 0x00; 0x00; 0x00; 0x48; 0x89; 0xdf];
  [0x0f; 0x05; 0x48; 0x85; 0xc0; 0x7f; 0xf1; 0x48; 0x89; 0xef; 0xe8; 0x09];
  [0x0b; 0x00; 0x00; 0x48; 0x89; 0xdf; 0x48; 0x89; 0xee; 0x48; 0x89; 0xc2];
  [0xb8; 0x04; 0x00; 0x00; 0x00; 0x0f; 0x05; 0xbe; 0xbe; 0x10; 0x40; 0x00];
  [0xba; 0x01; 0x00; 0x00; 0x00; 0xb8; 0x04; 0x00; 0x00; 0x00; 0x0f; 0x05];
  [0x31; 0xf6; 0xb8; 0x06; 0x00; 0x00; 0x00; 0x48; 0x89; 0xf2; 0x0f; 0x05];
  [0x48; 0x83; 0xc4; 0x48; 0x5b; 0x5d; 0xc3; 0x0f; 0x1f; 0x44; 0x00; 0x00];
  [0xbf; 0x30; 0x10; 0x40; 0x00; 0xe8; 0xc6; 0x0a; 0x00; 0x00; 0xbf; 0x01];
  [0x00; 0x00; 0x00; 0xbe; 0x30; 0x10; 0x40; 0x00; 0x48; 0x89; 0xc2; 0xb8];
  [0x04; 0x00; 0x00; 0x00; 0x0f; 0x05; 0x48; 0x83; 0xc4; 0x48; 0x5b; 0x5d];
  [0xc3; 0x0f; 0x1f; 0x00; 0xbf; 0x45; 0x10; 0x40; 0x00; 0xe8; 0x9e; 0x0a];
  [0x00; 0x00; 0xbf; 0x01; 0x00; 0x00; 0x00; 0xbe; 0x45; 0x10; 0x40; 0x00];
  [0x48; 0x89; 0xc2; 0xb8; 0x04; 0x00; 0x00; 0x00; 0x0f; 0x05; 0x48; 0x83];
  [0xc4; 0x48; 0x5b; 0x5d; 0xc3; 0x0f; 0x1f; 0x00; 0x53; 0x48; 0x89; 0xfb];
  [0x48; 0x89; 0xf7; 0x48; 0x83; 0xec; 0x10; 0x80; 0x3b; 0x2f; 0x74; 0x50];
  [0xbe; 0x59; 0x10; 0x40; 0x00; 0x48; 0x89; 0x7c; 0x24; 0x08; 0xe8; 0x01];
  [0x0b; 0x00; 0x00; 0x48; 0x8b; 0x7c; 0x24; 0x08; 0x80; 0x3f; 0x00; 0x74];
  [0x21; 0x0f; 0x1f; 0x80; 0x00; 0x00; 0x00; 0x00; 0x48; 0x83; 0xc7; 0x01];
  [0x80; 0x3f; 0x00; 0x75; 0xf7; 0x0f; 0xb6; 0x03; 0x84; 0xc0; 0x74; 0x11];
  [0x88; 0x07; 0x48; 0x83; 0xc7; 0x01; 0x48; 0x83; 0xc3; 0x01; 0x0f; 0xb6];
  [0x03; 0x84; 0xc0; 0x75; 0xef; 0xc6; 0x07; 0x00; 0x48; 0x83; 0xc4; 0x10];
  [0x5b; 0xc3; 0x66; 0x0f; 0x1f; 0x44; 0x00; 0x00; 0x48; 0x83; 0xc4; 0x10];
  [0x48; 0x89; 0xde; 0x5b; 0xe9; 0xb3; 0x0a; 0x00; 0x00; 0x0f; 0x1f; 0x00];
  [0x41; 0x57; 0xbf; 0x5f; 0x10; 0x40; 0x00; 0x41; 0x56; 0x41; 0x55; 0x41];
  [0x54; 0x55; 0x53; 0x48; 0x81; 0xec; 0x18; 0x02; 0x00; 0x00; 0xe8; 0xf5];
  [0x09; 0x00; 0x00; 0xbf; 0x01; 0x00; 0x00; 0x00; 0xbe; 0x5f; 0x10; 0x40];
  [0x00; 0x48; 0x89; 0xc2; 0xb8; 0x04; 0x00; 0x00; 0x00; 0x0f; 0x05; 0xbd];
  [0x01; 0x00; 0x00; 0x00; 0x48; 0x8d; 0x9c; 0x24; 0x90; 0x00; 0x00; 0x00];
  [0x4c; 0x8d; 0xb4; 0x24; 0x8f; 0x00; 0x00; 0x00; 0x90; 0x66; 0x66; 0x2e];
  [0x0f; 0x1f; 0x84; 0x00; 0x00; 0x00; 0x00; 0x00; 0xbe; 0x40; 0x00; 0x00];
  [0x00; 0x48; 0x8d; 0x7c; 0x24; 0x50; 0xe8; 0x71; 0x0b; 0x00; 0x00; 0x85];
  [0xc0; 0x0f; 0x84; 0x19; 0x01; 0x00; 0x00; 0xbf; 0x73; 0x10; 0x40; 0x00];
  [0xe8; 0x9f; 0x09; 0x00; 0x00; 0x48; 0x89; 0xef; 0xbe; 0x73; 0x10; 0x40];
  [0x00; 0x48; 0x89; 0xc2; 0xb8; 0x04; 0x00; 0x00; 0x00; 0x0f; 0x05; 0xba];
  [0x7f; 0x00; 0x00; 0x00; 0xb8; 0x03; 0x00; 0x00; 0x00; 0x31; 0xff; 0x48];
  [0x89; 0xde; 0x0f; 0x05; 0x48; 0x85; 0xc0; 0x7f; 0x17; 0xb8; 0x02; 0x00];
  [0x00; 0x00; 0x48; 0x89; 0xfe; 0x48; 0x89; 0xfa; 0x0f; 0x05; 0xeb; 0xa8];
  [0x0f; 0x1f; 0x84; 0x00; 0x00; 0x00; 0x00; 0x00; 0x48; 0x89; 0xdf; 0xc6];
  [0x84; 0x04; 0x90; 0x00; 0x00; 0x00; 0x00; 0xe8; 0x50; 0x09; 0x00; 0x00];
  [0x48; 0x89; 0xc2; 0x49; 0x8d; 0x04; 0x06; 0x48; 0x85; 0xd2; 0x7f; 0x10];
  [0xeb; 0x1b; 0x66; 0x90; 0xc6; 0x00; 0x00; 0x48; 0x39; 0xc3; 0x74; 0x11];
  [0x48; 0x83; 0xe8; 0x01; 0x0f; 0xb6; 0x10; 0x80; 0xfa; 0x0a; 0x74; 0xec];
  [0x80; 0xfa; 0x0d; 0x74; 0xe7; 0x0f; 0xb6; 0x84; 0x24; 0x90; 0x00; 0x00];
  [0x00; 0x84; 0xc0; 0x0f; 0x84; 0x57; 0xff; 0xff; 0xff; 0x48; 0xc7; 0x44];
  [0x24; 0x30; 0x00; 0x00; 0x00; 0x00; 0x48; 0x8d; 0x4c; 0x24; 0x30; 0x48];
  [0xc7; 0x44; 0x24; 0x38; 0x00; 0x00; 0x00; 0x00; 0x48; 0xc7; 0x44; 0x24];
  [0x40; 0x00; 0x00; 0x00; 0x00; 0x48; 0xc7; 0x44; 0x24; 0x48; 0x00; 0x00];
  [0x00; 0x00; 0x3c; 0x20; 0x0f; 0x85; 0xb9; 0x02; 0x00; 0x00; 0x48; 0x89];
  [0xd8; 0x45; 0x31; 0xff; 0x0f; 0xb6; 0x50; 0x01; 0x48; 0x83; 0xc0; 0x01];
  [0x80; 0xfa; 0x20; 0x74; 0xf3; 0x84; 0xd2; 0x74; 0x60; 0x48; 0x89; 0x01];
  [0x0f; 0xb6; 0x10; 0x41; 0x83; 0xc7; 0x01; 0xf6; 0xc2; 0xdf; 0x74; 0x0d];
  [0x0f; 0xb6; 0x50; 0x01; 0x48; 0x83; 0xc0; 0x01; 0xf6; 0xc2; 0xdf; 0x75];
  [0xf3; 0x84; 0xd2; 0x74; 0x07; 0xc6; 0x00; 0x00; 0x48; 0x83; 0xc0; 0x01];
  [0x0f; 0xb6; 0x10; 0x84; 0xd2; 0x74; 0x3b; 0x41; 0x83; 0xff; 0x04; 0x74];
  [0x35; 0x48; 0x83; 0xc1; 0x08; 0x80; 0xfa; 0x20; 0x74; 0xb2; 0xeb; 0xc1];
  [0x48; 0x8d; 0x7c; 0x24; 0x50; 0xe8; 0x86; 0x08; 0x00; 0x00; 0x48; 0x89];
  [0xef; 0x48; 0x8d; 0x74; 0x24; 0x50; 0x48; 0x89; 0xc2; 0xb8; 0x04; 0x00];
  [0x00; 0x00; 0x0f; 0x05; 0xe9; 0xc6; 0xfe; 0xff; 0xff; 0x45; 0x85; 0xff];
  [0x0f; 0x84; 0xa6; 0xfe; 0xff; 0xff; 0x48; 0x8b; 0x7c; 0x24; 0x30; 0xbe];
  [0x76; 0x10; 0x40; 0x00; 0xe8; 0x87; 0x08; 0x00; 0x00; 0x85; 0xc0; 0x74];
  [0x69; 0x48; 0x8b; 0x7c; 0x24; 0x30; 0xbe; 0x7b; 0x10; 0x40; 0x00; 0xe8];
  [0x74; 0x08; 0x00; 0x00; 0x85; 0xc0; 0x75; 0x0d; 0x31; 0xff; 0x48; 0x89];
  [0xe8; 0x48; 0x89; 0xfe; 0x48; 0x89; 0xfa; 0x0f; 0x05; 0x48; 0x8b; 0x7c];
  [0x24; 0x30; 0xbe; 0x85; 0x10; 0x40; 0x00; 0xe8; 0x54; 0x08; 0x00; 0x00];
  [0x85; 0xc0; 0x75; 0x57; 0x45; 0x31; 0xd2; 0xb8; 0x07; 0x00; 0x00; 0x00];
  [0xbf; 0x80; 0x10; 0x40; 0x00; 0xbe; 0x40; 0x20; 0x40; 0x00; 0xba; 0x20];
  [0x20; 0x40; 0x00; 0x0f; 0x05; 0x48; 0x85; 0xc0; 0x0f; 0x88; 0xae; 0x01];
  [0x00; 0x00; 0x31; 0xff; 0xb8; 0x0a; 0x00; 0x00; 0x00; 0x48; 0x89; 0xfe];
  [0x48; 0x89; 0xfa; 0x0f; 0x05; 0xe9; 0x2a; 0xfe; 0xff; 0xff; 0xbf; 0x08];
  [0x12; 0x40; 0x00; 0xe8; 0xe0; 0x07; 0x00; 0x00; 0x48; 0x89; 0xef; 0xbe];
  [0x08; 0x12; 0x40; 0x00; 0x48; 0x89; 0xc2; 0xb8; 0x04; 0x00; 0x00; 0x00];
  [0x0f; 0x05; 0xe9; 0x09; 0xfe; 0xff; 0xff; 0x48; 0x8b; 0x7c; 0x24; 0x30];
  [0xbe; 0x9a; 0x10; 0x40; 0x00; 0xe8; 0xea; 0x07; 0x00; 0x00; 0x85; 0xc0];
  [0x75; 0x23; 0xb8; 0x08; 0x00; 0x00; 0x00; 0xbf; 0x80; 0x10; 0x40; 0x00];
  [0xbe; 0x00; 0x20; 0x40; 0x00; 0xba; 0x20; 0x20; 0x40; 0x00; 0x0f; 0x05];
  [0x31; 0xf6; 0x48; 0x89; 0xe8; 0x48; 0x89; 0xef; 0x48; 0x89; 0xf2; 0x0f];
  [0x05; 0x48; 0x8b; 0x7c; 0x24; 0x30; 0xbe; 0x9f; 0x10; 0x40; 0x00; 0xe8];
  [0xb4; 0x07; 0x00; 0x00; 0x85; 0xc0; 0x0f; 0x84; 0x5a; 0x01; 0x00; 0x00];
  [0x48; 0x8b; 0x7c; 0x24; 0x30; 0xbe; 0xc0; 0x10; 0x40; 0x00; 0xe8; 0x9d];
  [0x07; 0x00; 0x00; 0x85; 0xc0; 0x0f; 0x84; 0x81; 0x01; 0x00; 0x00; 0x48];
  [0x8b; 0x7c; 0x24; 0x30; 0xbe; 0xd1; 0x10; 0x40; 0x00; 0xe8; 0x86; 0x07];
  [0x00; 0x00; 0x85; 0xc0; 0x0f; 0x84; 0xcb; 0x01; 0x00; 0x00; 0x48; 0x8b];
  [0x7c; 0x24; 0x30; 0xbe; 0x11; 0x11; 0x40; 0x00; 0xe8; 0x6f; 0x07; 0x00];
  [0x00; 0x41; 0x89; 0xc0; 0x85; 0xc0; 0x0f; 0x84; 0x25; 0x02; 0x00; 0x00];
  [0x48; 0x8b; 0x7c; 0x24; 0x30; 0xbe; 0x38; 0x11; 0x40; 0x00; 0xe8; 0x55];
  [0x07; 0x00; 0x00; 0x85; 0xc0; 0x0f; 0x84; 0xf8; 0x01; 0x00; 0x00; 0x48];
  [0x8b; 0x7c; 0x24; 0x30; 0xbe; 0x3e; 0x11; 0x40; 0x00; 0xe8; 0x3e; 0x07];
  [0x00; 0x00; 0x85; 0xc0; 0x0f; 0x84; 0x2d; 0x05; 0x00; 0x00; 0x44; 0x89];
  [0x7c; 0x24; 0x08; 0x45; 0x31; 0xff; 0x4a; 0x8b; 0x7c; 0xfc; 0x30; 0xbe];
  [0x45; 0x11; 0x40; 0x00; 0x44; 0x89; 0x7c; 0x24; 0x0c; 0xe8; 0x1a; 0x07];
  [0x00; 0x00; 0x85; 0xc0; 0x0f; 0x84; 0xf8; 0x03; 0x00; 0x00; 0x4a; 0x8b];
  [0x7c; 0xfc; 0x30; 0xbe; 0x47; 0x11; 0x40; 0x00; 0xe8; 0x03; 0x07; 0x00];
  [0x00; 0x85; 0xc0; 0x0f; 0x84; 0x10; 0x03; 0x00; 0x00; 0x49; 0x83; 0xc7];
  [0x01; 0x44; 0x39; 0x7c; 0x24; 0x08; 0x7f; 0xc2; 0x4c; 0x63; 0x7c; 0x24];
  [0x08; 0x48; 0x8b; 0x7c; 0x24; 0x30; 0x48; 0x8d; 0xb4; 0x24; 0x90; 0x01];
  [0x00; 0x00; 0xe8; 0x29; 0xfc; 0xff; 0xff; 0xb8; 0x01; 0x00; 0x00; 0x00];
  [0x48; 0x8b; 0x54; 0xc4; 0x28; 0x41; 0x39; 0xc7; 0x0f; 0x9f; 0xc1; 0x48];
  [0x83; 0xf8; 0x04; 0x48; 0x89; 0x94; 0xc4; 0x08; 0x01; 0x00; 0x00; 0x0f];
  [0x95; 0xc2; 0x48; 0x83; 0xc0; 0x01; 0x84; 0xd1; 0x75; 0xde; 0x31; 0xc0];
  [0x45; 0x31; 0xd2; 0x48; 0x8d; 0xbc; 0x24; 0x90; 0x01; 0x00; 0x00; 0xba];
  [0x20; 0x20; 0x40; 0x00; 0x4a; 0x89; 0x84; 0xfc; 0x10; 0x01; 0x00; 0x00];
  [0x48; 0x8d; 0xb4; 0x24; 0x10; 0x01; 0x00; 0x00; 0xb8; 0x07; 0x00; 0x00];
  [0x00; 0x0f; 0x05; 0x48; 0x85; 0xc0; 0x0f; 0x89; 0x52; 0xfe; 0xff; 0xff];
  [0xbf; 0x8b; 0x10; 0x40; 0x00; 0xe8; 0x46; 0x06; 0x00; 0x00; 0xbf; 0x01];
  [0x00; 0x00; 0x00; 0xbe; 0x8b; 0x10; 0x40; 0x00; 0x48; 0x89; 0xc2; 0xb8];
  [0x04; 0x00; 0x00; 0x00; 0x0f; 0x05; 0xe9; 0x6d; 0xfc; 0xff; 0xff; 0x45];
  [0x31; 0xff; 0x48; 0x89; 0xd8; 0xe9; 0x53; 0xfd; 0xff; 0xff; 0x48; 0x8b];
  [0x7c; 0x24; 0x38; 0x48; 0x85; 0xff; 0x0f; 0x84; 0xad; 0x01; 0x00; 0x00];
  [0xe8; 0xbf; 0x07; 0x00; 0x00; 0x85; 0xc0; 0x0f; 0x84; 0x47; 0xfc; 0xff];
  [0xff; 0xbf; 0xb4; 0x10; 0x40; 0x00; 0xe8; 0xfd; 0x05; 0x00; 0x00; 0xbf];
  [0x01; 0x00; 0x00; 0x00; 0xbe; 0xb4; 0x10; 0x40; 0x00; 0x48; 0x89; 0xc2];
  [0xb8; 0x04; 0x00; 0x00; 0x00; 0x0f; 0x05; 0xe9; 0x24; 0xfc; 0xff; 0xff];
  [0xbe; 0x80; 0x00; 0x00; 0x00; 0x48; 0x8d; 0xbc; 0x24; 0x90; 0x01; 0x00];
  [0x00; 0xe8; 0x92; 0x07; 0x00; 0x00; 0x85; 0xc0; 0x0f; 0x85; 0x82; 0x00];
  [0x00; 0x00; 0x48; 0x8d; 0xbc; 0x24; 0x90; 0x01; 0x00; 0x00; 0xe8; 0xbd];
  [0x05; 0x00; 0x00; 0xbf; 0x01; 0x00; 0x00; 0x00; 0x48; 0x8d; 0xb4; 0x24];
  [0x90; 0x01; 0x00; 0x00; 0x48; 0x89; 0xc2; 0xb8; 0x04; 0x00; 0x00; 0x00];
  [0x0f; 0x05; 0xbf; 0xbe; 0x10; 0x40; 0x00; 0xe8; 0x9c; 0x05; 0x00; 0x00];
  [0xbf; 0x01; 0x00; 0x00; 0x00; 0xbe; 0xbe; 0x10; 0x40; 0x00; 0x48; 0x89];
  [0xc2; 0xb8; 0x04; 0x00; 0x00; 0x00; 0x0f; 0x05; 0xe9; 0xc3; 0xfb; 0xff];
  [0xff; 0x4c; 0x8b; 0x7c; 0x24; 0x38; 0x4d; 0x85; 0xff; 0x0f; 0x84; 0xe2];
  [0x03; 0x00; 0x00; 0x41; 0x80; 0x3f; 0x2f; 0x0f; 0x84; 0x27; 0x01; 0x00];
  [0x00; 0xbf; 0x88; 0x12; 0x40; 0x00; 0xe8; 0x61; 0x05; 0x00; 0x00; 0xbf];
  [0x01; 0x00; 0x00; 0x00; 0xbe; 0x88; 0x12; 0x40; 0x00; 0x48; 0x89; 0xc2];
  [0xb8; 0x04; 0x00; 0x00; 0x00; 0x0f; 0x05; 0xe9; 0x88; 0xfb; 0xff; 0xff];
  [0xbf; 0xc4; 0x10; 0x40; 0x00; 0xe8; 0x3e; 0x05; 0x00; 0x00; 0xbf; 0x01];
  [0x00; 0x00; 0x00; 0xbe; 0xc4; 0x10; 0x40; 0x00; 0x48; 0x89; 0xc2; 0xb8];
  [0x04; 0x00; 0x00; 0x00; 0x0f; 0x05; 0xe9; 0x65; 0xfb; 0xff; 0xff; 0x48];
  [0x8b; 0x74; 0x24; 0x40; 0x48; 0x8b; 0x7c; 0x24; 0x38; 0x31; 0xd2; 0xe8];
  [0xb4; 0xf9; 0xff; 0xff; 0xe9; 0x4f; 0xfb; 0xff; 0xff; 0x48; 0x8b; 0x7c];
  [0x24; 0x38; 0x48; 0x85; 0xff; 0x0f; 0x84; 0x3e; 0x01; 0x00; 0x00; 0x31];
  [0xf6; 0xb8; 0x05; 0x00; 0x00; 0x00; 0x48; 0x89; 0xf2; 0x0f; 0x05; 0x41];
  [0xb8; 0x01; 0x00; 0x00; 0x00; 0x49; 0x89; 0xc7; 0x48; 0x85; 0xc0; 0x0f];
  [0x88; 0xa1; 0x03; 0x00; 0x00; 0xb8; 0x03; 0x00; 0x00; 0x00; 0xba; 0x40];
  [0x00; 0x00; 0x00; 0x4c; 0x89; 0xff; 0x48; 0x8d; 0xb4; 0x24; 0x90; 0x01];
  [0x00; 0x00; 0x0f; 0x05; 0x48; 0x89; 0xc2; 0x48; 0x85; 0xc0; 0x79; 0x3b];
  [0xe9; 0xff; 0x02; 0x00; 0x00; 0x0f; 0x1f; 0x80; 0x00; 0x00; 0x00; 0x00];
  [0xb8; 0x04; 0x00; 0x00; 0x00; 0xbf; 0x01; 0x00; 0x00; 0x00; 0x48; 0x8d];
  [0xb4; 0x24; 0x90; 0x01; 0x00; 0x00; 0x0f; 0x05; 0xb8; 0x03; 0x00; 0x00];
  [0x00; 0x4c; 0x89; 0xff; 0xba; 0x40; 0x00; 0x00; 0x00; 0x0f; 0x05; 0x48];
  [0x89; 0xc2; 0x48; 0x85; 0xc0; 0x0f; 0x88; 0xc9; 0x02; 0x00; 0x00; 0x48];
  [0x85; 0xd2; 0x75; 0xcc; 0x45; 0x85; 0xc0; 0x0f; 0x84; 0xbb; 0xfa; 0xff];
  [0xff; 0x31; 0xf6; 0xb8; 0x06; 0x00; 0x00; 0x00; 0x4c; 0x89; 0xff; 0x48];
  [0x89; 0xf2; 0x0f; 0x05; 0xe9; 0xa7; 0xfa; 0xff; 0xff; 0xbf; 0xa2; 0x10];
  [0x40; 0x00; 0xe8; 0x5d; 0x04; 0x00; 0x00; 0xbf; 0x01; 0x00; 0x00; 0x00];
  [0xbe; 0xa2; 0x10; 0x40; 0x00; 0x48; 0x89; 0xc2; 0xb8; 0x04; 0x00; 0x00];
  [0x00; 0x0f; 0x05; 0xe9; 0x84; 0xfa; 0xff; 0xff; 0x4c; 0x89; 0xff; 0xe8];
  [0x3c; 0x04; 0x00; 0x00; 0x48; 0x83; 0xf8; 0x7d; 0x0f; 0x8f; 0xcd; 0x02];
  [0x00; 0x00; 0x31; 0xd2; 0x48; 0x85; 0xc0; 0x0f; 0x8e; 0xb7; 0x02; 0x00];
  [0x00; 0x41; 0x0f; 0xb6; 0x0c; 0x17; 0x88; 0x8c; 0x14; 0x90; 0x01; 0x00];
  [0x00; 0x48; 0x83; 0xc2; 0x01; 0x48; 0x39; 0xd0; 0x75; 0xeb; 0x80; 0xbc];
  [0x04; 0x8f; 0x01; 0x00; 0x00; 0x2f; 0x74; 0x0c; 0xc6; 0x84; 0x04; 0x90];
  [0x01; 0x00; 0x00; 0x2f; 0x48; 0x83; 0xc0; 0x01; 0x31; 0xf6; 0xc6; 0x84];
  [0x04; 0x90; 0x01; 0x00; 0x00; 0x00; 0x48; 0x8d; 0xbc; 0x24; 0x90; 0x01];
  [0x00; 0x00; 0xb8; 0x05; 0x00; 0x00; 0x00; 0x48; 0x89; 0xf2; 0x0f; 0x05];
  [0x48; 0x89; 0xc7; 0x48; 0x85; 0xc0; 0x0f; 0x88; 0xa4; 0x03; 0x00; 0x00];
  [0x31; 0xf6; 0xb8; 0x06; 0x00; 0x00; 0x00; 0x48; 0x89; 0xf2; 0x0f; 0x05];
  [0xe9; 0x03; 0xfa; 0xff; 0xff; 0x45; 0x31; 0xff; 0xe9; 0xd8; 0xfe; 0xff];
  [0xff; 0x8b; 0x44; 0x24; 0x0c; 0x4c; 0x63; 0x7c; 0x24; 0x08; 0x85; 0xc0];
  [0x0f; 0x84; 0xef; 0xfc; 0xff; 0xff; 0x48; 0x63; 0xd0; 0x83; 0xc0; 0x01];
  [0x31; 0xc9; 0x48; 0x98; 0x48; 0x89; 0x4c; 0xd4; 0x30; 0x48; 0x8b; 0x7c];
  [0xc4; 0x30; 0x48; 0x85; 0xff; 0x0f; 0x84; 0x3a; 0x03; 0x00; 0x00; 0x31];
  [0xf6; 0xb8; 0x05; 0x00; 0x00; 0x00; 0x48; 0x89; 0xf2; 0x0f; 0x05; 0x49];
  [0x89; 0xc7; 0x85; 0xc0; 0x0f; 0x88; 0x00; 0x03; 0x00; 0x00; 0x48; 0x8b];
  [0x7c; 0x24; 0x30; 0x48; 0x8d; 0xb4; 0x24; 0x90; 0x01; 0x00; 0x00; 0x89];
  [0x84; 0x24; 0x14; 0x01; 0x00; 0x00; 0xc7; 0x84; 0x24; 0x10; 0x01; 0x00];
  [0x00; 0xff; 0xff; 0xff; 0xff; 0xc7; 0x84; 0x24; 0x18; 0x01; 0x00; 0x00];
  [0xff; 0xff; 0xff; 0xff; 0xe8; 0xc7; 0xf8; 0xff; 0xff; 0x48; 0x8d; 0x74];
  [0x24; 0x30; 0xba; 0x20; 0x20; 0x40; 0x00; 0x48; 0x8d; 0xbc; 0x24; 0x90];
  [0x01; 0x00; 0x00; 0x48; 0x8d; 0x8c; 0x24; 0x10; 0x01; 0x00; 0x00; 0xe8];
  [0xc8; 0x04; 0x00; 0x00; 0x31; 0xf6; 0x49; 0x63; 0xff; 0x41; 0x89; 0xc0];
  [0x48; 0x89; 0xf2; 0xb8; 0x06; 0x00; 0x00; 0x00; 0x0f; 0x05; 0x45; 0x85];
  [0xc0; 0x0f; 0x89; 0x0f; 0xfb; 0xff; 0xff; 0xbf; 0xcb; 0x11; 0x40; 0x00];
  [0xe8; 0x03; 0x03; 0x00; 0x00; 0xbf; 0x01; 0x00; 0x00; 0x00; 0xbe; 0xcb];
  [0x11; 0x40; 0x00; 0x48; 0x89; 0xc2; 0xb8; 0x04; 0x00; 0x00; 0x00; 0x0f];
  [0x05; 0xe9; 0x2a; 0xf9; 0xff; 0xff; 0x45; 0x85; 0xff; 0x8b; 0x44; 0x24];
  [0x0c; 0x4c; 0x63; 0x7c; 0x24; 0x08; 0x0f; 0x84; 0x1d; 0xfc; 0xff; 0xff];
  [0x48; 0x63; 0xd0; 0x83; 0xc0; 0x01; 0x31; 0xf6; 0x4c; 0x63; 0xf8; 0x48];
  [0x89; 0x74; 0xd4; 0x30; 0x4a; 0x83; 0x7c; 0xfc; 0x30; 0x00; 0x0f; 0x84];
  [0x23; 0x02; 0x00; 0x00; 0x48; 0x8d; 0x7c; 0x24; 0x10; 0xe8; 0x42; 0x04];
  [0x00; 0x00; 0x85; 0xc0; 0x0f; 0x85; 0xee; 0x01; 0x00; 0x00; 0x8b; 0x44];
  [0x24; 0x14; 0x48; 0x8b; 0x7c; 0x24; 0x30; 0x48; 0x8d; 0xb4; 0x24; 0x10];
  [0x01; 0x00; 0x00; 0xc7; 0x44; 0x24; 0x18; 0xff; 0xff; 0xff; 0xff; 0xc7];
  [0x44; 0x24; 0x20; 0xff; 0xff; 0xff; 0xff; 0x89; 0x44; 0x24; 0x1c; 0xe8];
  [0x00; 0xf8; 0xff; 0xff; 0x48; 0x8d; 0x4c; 0x24; 0x18; 0xba; 0x20; 0x20];
  [0x40; 0x00; 0x48; 0x8d; 0x74; 0x24; 0x30; 0x48; 0x8d; 0xbc; 0x24; 0x10];
  [0x01; 0x00; 0x00; 0xe8; 0x04; 0x04; 0x00; 0x00; 0x85; 0xc0; 0x0f; 0x88];
  [0x60; 0x01; 0x00; 0x00; 0x8b; 0x44; 0x24; 0x10; 0x4a; 0x8b; 0x7c; 0xfc];
  [0x30; 0x48; 0x8d; 0xb4; 0x24; 0x90; 0x01; 0x00; 0x00; 0x48; 0xc7; 0x44];
  [0x24; 0x28; 0xff; 0xff; 0xff; 0xff; 0x89; 0x44; 0x24; 0x24; 0xe8; 0xb9];
  [0xf7; 0xff; 0xff; 0x4a; 0x8d; 0x74; 0xfc; 0x30; 0x48; 0x8d; 0x4c; 0x24];
  [0x24; 0xba; 0x20; 0x20; 0x40; 0x00; 0x48; 0x8d; 0xbc; 0x24; 0x90; 0x01];
  [0x00; 0x00; 0xe8; 0xbd; 0x03; 0x00; 0x00; 0x31; 0xf6; 0x48; 0x63; 0x7c];
  [0x24; 0x10; 0x41; 0x89; 0xc1; 0x48; 0x89; 0xf2; 0xb8; 0x06; 0x00; 0x00];
  [0x00; 0x0f; 0x05; 0xb8; 0x06; 0x00; 0x00; 0x00; 0x48; 0x63; 0x7c; 0x24];
  [0x14; 0x0f; 0x05; 0x45; 0x85; 0xc9; 0x0f; 0x88; 0xd5; 0x00; 0x00; 0x00];
  [0x31; 0xff; 0xb8; 0x0a; 0x00; 0x00; 0x00; 0x48; 0x89; 0xfe; 0x48; 0x89];
  [0xfa; 0x0f; 0x05; 0xb8; 0x0a; 0x00; 0x00; 0x00; 0x0f; 0x05; 0xe9; 0x19];
  [0xf8; 0xff; 0xff; 0x48; 0x8b; 0x74; 0x24; 0x40; 0x48; 0x8b; 0x7c; 0x24];
  [0x38; 0xba; 0x01; 0x00; 0x00; 0x00; 0xe8; 0x65; 0xf6; 0xff; 0xff; 0xe9];
  [0x00; 0xf8; 0xff; 0xff; 0xbf; 0x27; 0x11; 0x40; 0x00; 0x44; 0x89; 0x44];
  [0x24; 0x08; 0xe8; 0xb1; 0x01; 0x00; 0x00; 0xbf; 0x01; 0x00; 0x00; 0x00];
  [0xbe; 0x27; 0x11; 0x40; 0x00; 0x48; 0x89; 0xc2; 0xb8; 0x04; 0x00; 0x00];
  [0x00; 0x0f; 0x05; 0x44; 0x8b; 0x44; 0x24; 0x08; 0xe9; 0x0f; 0xfd; 0xff];
  [0xff; 0xbf; 0xd7; 0x10; 0x40; 0x00; 0xe8; 0x89; 0x01; 0x00; 0x00; 0xbf];
  [0x01; 0x00; 0x00; 0x00; 0xbe; 0xd7; 0x10; 0x40; 0x00; 0x48; 0x89; 0xc2];
  [0xb8; 0x04; 0x00; 0x00; 0x00; 0x0f; 0x05; 0xe9; 0xb0; 0xf7; 0xff; 0xff];
  [0x0f; 0x84; 0x62; 0xfd; 0xff; 0xff; 0xe9; 0x53; 0xfd; 0xff; 0xff; 0xbf];
  [0xec; 0x10; 0x40; 0x00; 0xe8; 0x5b; 0x01; 0x00; 0x00; 0xbf; 0x01; 0x00];
  [0x00; 0x00; 0xbe; 0xec; 0x10; 0x40; 0x00; 0x48; 0x89; 0xc2; 0xb8; 0x04];
  [0x00; 0x00; 0x00; 0x0f; 0x05; 0xe9; 0x82; 0xf7; 0xff; 0xff; 0xbf; 0x15];
  [0x11; 0x40; 0x00; 0xe8; 0x38; 0x01; 0x00; 0x00; 0xbf; 0x01; 0x00; 0x00];
  [0x00; 0xbe; 0x15; 0x11; 0x40; 0x00; 0x48; 0x89; 0xc2; 0xb8; 0x04; 0x00];
  [0x00; 0x00; 0x0f; 0x05; 0xe9; 0x5f; 0xf7; 0xff; 0xff; 0xbf; 0x83; 0x11];
  [0x40; 0x00; 0xe8; 0x15; 0x01; 0x00; 0x00; 0xbf; 0x01; 0x00; 0x00; 0x00];
  [0xbe; 0x83; 0x11; 0x40; 0x00; 0x48; 0x89; 0xc2; 0xb8; 0x04; 0x00; 0x00];
  [0x00; 0x0f; 0x05; 0xe9; 0x08; 0xff; 0xff; 0xff; 0xbf; 0x6a; 0x11; 0x40];
  [0x00; 0xe8; 0xf2; 0x00; 0x00; 0x00; 0xbf; 0x01; 0x00; 0x00; 0x00; 0xbe];
  [0x6a; 0x11; 0x40; 0x00; 0x48; 0x89; 0xc2; 0xb8; 0x04; 0x00; 0x00; 0x00];
  [0x0f; 0x05; 0x31; 0xf6; 0x48; 0x63; 0x7c; 0x24; 0x10; 0xb8; 0x06; 0x00];
  [0x00; 0x00; 0x48; 0x89; 0xf2; 0x0f; 0x05; 0xb8; 0x06; 0x00; 0x00; 0x00];
  [0x48; 0x63; 0x7c; 0x24; 0x14; 0x0f; 0x05; 0xe9; 0xfc; 0xf6; 0xff; 0xff];
  [0xbf; 0x5d; 0x11; 0x40; 0x00; 0xe8; 0xb2; 0x00; 0x00; 0x00; 0xbf; 0x01];
  [0x00; 0x00; 0x00; 0xbe; 0x5d; 0x11; 0x40; 0x00; 0x48; 0x89; 0xc2; 0xb8];
  [0x04; 0x00; 0x00; 0x00; 0x0f; 0x05; 0xe9; 0xd9; 0xf6; 0xff; 0xff; 0xbf];
  [0x49; 0x11; 0x40; 0x00; 0xe8; 0x8f; 0x00; 0x00; 0x00; 0xbf; 0x01; 0x00];
  [0x00; 0x00; 0xbe; 0x49; 0x11; 0x40; 0x00; 0x48; 0x89; 0xc2; 0xb8; 0x04];
  [0x00; 0x00; 0x00; 0x0f; 0x05; 0xe9; 0xb6; 0xf6; 0xff; 0xff; 0xbf; 0xb4];
  [0x11; 0x40; 0x00; 0xe8; 0x6c; 0x00; 0x00; 0x00; 0xbf; 0x01; 0x00; 0x00];
  [0x00; 0xbe; 0xb4; 0x11; 0x40; 0x00; 0x48; 0x89; 0xc2; 0xb8; 0x04; 0x00];
  [0x00; 0x00; 0x0f; 0x05; 0xe9; 0x93; 0xf6; 0xff; 0xff; 0xbf; 0x9c; 0x11];
  [0x40; 0x00; 0xe8; 0x49; 0x00; 0x00; 0x00; 0xbf; 0x01; 0x00; 0x00; 0x00];
  [0xbe; 0x9c; 0x11; 0x40; 0x00; 0x48; 0x89; 0xc2; 0xb8; 0x04; 0x00; 0x00];
  [0x00; 0x0f; 0x05; 0xe9; 0x70; 0xf6; 0xff; 0xff; 0xbf; 0x02; 0x11; 0x40];
  [0x00; 0xe8; 0x26; 0x00; 0x00; 0x00; 0xbf; 0x01; 0x00; 0x00; 0x00; 0xbe];
  [0x02; 0x11; 0x40; 0x00; 0x48; 0x89; 0xc2; 0xb8; 0x04; 0x00; 0x00; 0x00];
  [0x0f; 0x05; 0xe9; 0x4d; 0xf6; 0xff; 0xff; 0x66; 0x2e; 0x0f; 0x1f; 0x84];
  [0x00; 0x00; 0x00; 0x00; 0x00; 0x0f; 0x1f; 0x00; 0x31; 0xc0; 0x48; 0x85];
  [0xff; 0x75; 0x09; 0xc3; 0x0f; 0x1f; 0x84; 0x00; 0x00; 0x00; 0x00; 0x00];
  [0x80; 0x3f; 0x00; 0x74; 0xf2; 0x66; 0x66; 0x2e; 0x0f; 0x1f; 0x84; 0x00];
  [0x00; 0x00; 0x00; 0x00; 0x48; 0x83; 0xc0; 0x01; 0x80; 0x3c; 0x07; 0x00];
  [0x75; 0xf6; 0xc3; 0x0f; 0x1f; 0x44; 0x00; 0x00; 0x48; 0x85; 0xff; 0x74];
  [0x3b; 0x48; 0x85; 0xf6; 0x74; 0x36; 0x0f; 0xb6; 0x07; 0x84; 0xc0; 0x75];
  [0x1b; 0xeb; 0x4e; 0x0f; 0x1f; 0x44; 0x00; 0x00; 0x84; 0xd2; 0x74; 0x17];
  [0x0f; 0xb6; 0x47; 0x01; 0x48; 0x83; 0xc7; 0x01; 0x84; 0xc0; 0x74; 0x30];
  [0x48; 0x83; 0xc6; 0x01; 0x0f; 0xb6; 0x16; 0x38; 0xc2; 0x74; 0xe5; 0x29];
  [0xd0; 0xc3; 0x66; 0x2e; 0x0f; 0x1f; 0x84; 0x00; 0x00; 0x00; 0x00; 0x00];
  [0x31; 0xc0; 0x48; 0x39; 0xf7; 0x74; 0xee; 0x48; 0x83; 0xff; 0x01; 0x19];
  [0xc0; 0x83; 0xc8; 0x01; 0xc3; 0x0f; 0x1f; 0x80; 0x00; 0x00; 0x00; 0x00];
  [0x0f; 0xb6; 0x56; 0x01; 0x31; 0xc0; 0x29; 0xd0; 0xc3; 0x0f; 0xb6; 0x16];
  [0x31; 0xc0; 0x29; 0xd0; 0xc3; 0x0f; 0x1f; 0x80; 0x00; 0x00; 0x00; 0x00];
  [0x48; 0x85; 0xff; 0x74; 0x2f; 0x48; 0x85; 0xf6; 0x74; 0x2a; 0x0f; 0xb6];
  [0x06; 0x48; 0x89; 0xfa; 0x84; 0xc0; 0x74; 0x1d; 0x90; 0x66; 0x66; 0x2e];
  [0x0f; 0x1f; 0x84; 0x00; 0x00; 0x00; 0x00; 0x00; 0x48; 0x83; 0xc6; 0x01];
  [0x88; 0x02; 0x48; 0x83; 0xc2; 0x01; 0x0f; 0xb6; 0x06; 0x84; 0xc0; 0x75];
  [0xef; 0xc6; 0x02; 0x00; 0x48; 0x89; 0xf8; 0xc3; 0x0f; 0x1f; 0x84; 0x00];
  [0x00; 0x00; 0x00; 0x00; 0x48; 0x85; 0xf6; 0x48; 0x89; 0xd1; 0x0f; 0x94];
  [0xc0; 0x48; 0x85; 0xd2; 0x0f; 0x94; 0xc2; 0x08; 0xd0; 0x75; 0x1d; 0x48];
  [0x85; 0xff; 0x74; 0x18; 0x31; 0xc0; 0x66; 0x0f; 0x1f; 0x44; 0x00; 0x00];
  [0x0f; 0xb6; 0x14; 0x06; 0x88; 0x14; 0x07; 0x48; 0x83; 0xc0; 0x01; 0x48];
  [0x39; 0xc8; 0x72; 0xf0; 0x48; 0x89; 0xf8; 0xc3; 0x90; 0x66; 0x66; 0x2e];
  [0x0f; 0x1f; 0x84; 0x00; 0x00; 0x00; 0x00; 0x00; 0x48; 0x85; 0xff; 0x74];
  [0x4d; 0x48; 0x85; 0xd2; 0x74; 0x48; 0xb8; 0x01; 0x00; 0x00; 0x00; 0x40];
  [0x88; 0x37; 0x48; 0x8d; 0x4a; 0xff; 0x48; 0x39; 0xd0; 0x73; 0x37; 0x83];
  [0xe1; 0x01; 0x74; 0x20; 0x40; 0x88; 0x34; 0x07; 0xb8; 0x02; 0x00; 0x00];
  [0x00; 0x48; 0x39; 0xd0; 0x73; 0x24; 0x0f; 0x1f; 0x80; 0x00; 0x00; 0x00];
  [0x00; 0x66; 0x66; 0x2e; 0x0f; 0x1f; 0x84; 0x00; 0x00; 0x00; 0x00; 0x00];
  [0x40; 0x88; 0x34; 0x07; 0x40; 0x88; 0x74; 0x07; 0x01; 0x48; 0x83; 0xc0];
  [0x02; 0x48; 0x39; 0xd0; 0x72; 0xee; 0x48; 0x89; 0xf8; 0xc3; 0x66; 0x2e];
  [0x0f; 0x1f; 0x84; 0x00; 0x00; 0x00; 0x00; 0x00; 0x48; 0x63; 0xff; 0x48];
  [0x63; 0xf6; 0xb8; 0x0b; 0x00; 0x00; 0x00; 0x0f; 0x05; 0xc3; 0x66; 0x90];
  [0xb8; 0x0c; 0x00; 0x00; 0x00; 0x0f; 0x05; 0xc3; 0x0f; 0x1f; 0x84; 0x00];
  [0x00; 0x00; 0x00; 0x00; 0x49; 0x89; 0xca; 0xb8; 0x07; 0x00; 0x00; 0x00];
  [0x0f; 0x05; 0xc3; 0x0f; 0x1f; 0x44; 0x00; 0x00; 0xb8; 0x0d; 0x00; 0x00];
  [0x00; 0x0f; 0x05; 0xc3; 0x0f; 0x1f; 0x84; 0x00; 0x00; 0x00; 0x00; 0x00];
  [0xb8; 0x0e; 0x00; 0x00; 0x00; 0x0f; 0x05; 0xc3; 0x00; 0x00; 0x00; 0x00];
  [0x00; 0x00; 0x00; 0x00; 0x00; 0x00; 0x00; 0x00; 0x00; 0x00; 0x00; 0x00];
  [0x00; 0x00; 0x00; 0x00; 0x00; 0x00; 0x00; 0x00; 0x00; 0x00; 0x00; 0x00];
  [0x00; 0x00; 0x00; 0x00; 0x00; 0x00; 0x00; 0x00; 0x00; 0x00; 0x00; 0x00];
  [0x00; 0x00; 0x00; 0x00; 0x00; 0x00; 0x00; 0x00; 0x00; 0x00; 0x00; 0x00];
  [0x00; 0x00; 0x00; 0x00; 0x00; 0x00; 0x00; 0x00; 0x00; 0x00; 0x00; 0x00];
  [0x00; 0x00; 0x00; 0x00; 0x00; 0x00; 0x00; 0x00; 0x00; 0x00; 0x00; 0x00];
  [0x00; 0x00; 0x00; 0x00; 0x00; 0x00; 0x00; 0x00; 0x00; 0x00; 0x00; 0x00];
  [0x00; 0x00; 0x00; 0x00; 0x00; 0x00; 0x00; 0x00; 0x00; 0x00; 0x00; 0x00];
  [0x00; 0x00; 0x00; 0x00; 0x00; 0x00; 0x00; 0x00; 0x00; 0x00; 0x00; 0x00];
  [0x00; 0x00; 0x00; 0x00; 0x00; 0x00; 0x00; 0x00; 0x00; 0x00; 0x00; 0x00];
  [0x00; 0x00; 0x00; 0x00; 0x00; 0x00; 0x00; 0x00; 0x00; 0x00; 0x00; 0x00];
  [0x00; 0x00; 0x00; 0x00; 0x00; 0x00; 0x00; 0x00; 0x00; 0x00; 0x00; 0x00];
  [0x00; 0x00; 0x00; 0x00; 0x00; 0x00; 0x00; 0x00; 0x00; 0x00; 0x00; 0x00];
  [0x00; 0x00; 0x00; 0x00; 0x00; 0x00; 0x00; 0x00; 0x00; 0x00; 0x00; 0x00];
  [0x00; 0x00; 0x00; 0x00; 0x00; 0x00; 0x00; 0x00; 0x00; 0x00; 0x00; 0x00];
  [0x00; 0x00; 0x00; 0x00; 0x00; 0x00; 0x00; 0x00; 0x00; 0x00; 0x00; 0x00];
  [0x00; 0x00; 0x00; 0x00; 0x00; 0x00; 0x00; 0x00; 0x00; 0x00; 0x00; 0x00];
  [0x00; 0x00; 0x00; 0x00; 0x00; 0x00; 0x00; 0x00; 0x00; 0x00; 0x00; 0x00];
  [0x00; 0x00; 0x00; 0x00; 0x00; 0x00; 0x00; 0x00; 0x00; 0x00; 0x00; 0x00];
  [0x00; 0x00; 0x00; 0x00; 0x00; 0x00; 0x00; 0x00; 0x00; 0x00; 0x00; 0x00];
  [0x00; 0x00; 0x00; 0x00; 0x04; 0x00; 0x00; 0x00; 0x20; 0x00; 0x00; 0x00];
  [0x05; 0x00; 0x00; 0x00; 0x47; 0x4e; 0x55; 0x00; 0x01; 0x00; 0x01; 0xc0];
  [0x04; 0x00; 0x00; 0x00; 0x01; 0x00; 0x00; 0x00; 0x00; 0x00; 0x00; 0x00];
  [0x02; 0x00; 0x01; 0xc0; 0x04; 0x00; 0x00; 0x00; 0x01; 0x00; 0x00; 0x00];
  [0x00; 0x00; 0x00; 0x00; 0x77; 0x72; 0x69; 0x74; 0x65; 0x3a; 0x20; 0x6d];
  [0x69; 0x73; 0x73; 0x69; 0x6e; 0x67; 0x20; 0x61; 0x72; 0x67; 0x73; 0x0a];
  [0x00; 0x77; 0x72; 0x69; 0x74; 0x65; 0x3a; 0x20; 0x6f; 0x70; 0x65; 0x6e];
  [0x20; 0x66; 0x61; 0x69; 0x6c; 0x65; 0x64; 0x0a; 0x00; 0x2f; 0x62; 0x69];
  [0x6e; 0x2f; 0x00; 0x4e; 0x65; 0x70; 0x74; 0x75; 0x6e; 0x65; 0x20; 0x75];
  [0x73; 0x65; 0x72; 0x20; 0x73; 0x68; 0x65; 0x6c; 0x6c; 0x0a; 0x00; 0x3e];
  [0x20; 0x00; 0x68; 0x65; 0x6c; 0x70; 0x00; 0x65; 0x78; 0x69; 0x74; 0x00];
  [0x2f; 0x62; 0x69; 0x6e; 0x2f; 0x68; 0x65; 0x6c; 0x6c; 0x6f; 0x00; 0x73];
  [0x70; 0x61; 0x77; 0x6e; 0x3a; 0x20; 0x66; 0x61; 0x69; 0x6c; 0x65; 0x64];
  [0x0a; 0x00; 0x65; 0x78; 0x65; 0x63; 0x00; 0x63; 0x64; 0x00; 0x63; 0x64];
  [0x3a; 0x20; 0x6d; 0x69; 0x73; 0x73; 0x69; 0x6e; 0x67; 0x20; 0x70; 0x61];
  [0x74; 0x68; 0x0a; 0x00; 0x63; 0x64; 0x3a; 0x20; 0x66; 0x61; 0x69; 0x6c];
  [0x65; 0x64; 0x0a; 0x00; 0x70; 0x77; 0x64; 0x00; 0x70; 0x77; 0x64; 0x3a];
  [0x20; 0x66; 0x61; 0x69; 0x6c; 0x65; 0x64; 0x0a; 0x00; 0x6d; 0x6b; 0x64];
  [0x69; 0x72; 0x00; 0x6d; 0x6b; 0x64; 0x69; 0x72; 0x3a; 0x20; 0x6d; 0x69];
  [0x73; 0x73; 0x69; 0x6e; 0x67; 0x20; 0x70; 0x61; 0x74; 0x68; 0x0a; 0x00];
  [0x6d; 0x6b; 0x64; 0x69; 0x72; 0x3a; 0x20; 0x70; 0x61; 0x74; 0x68; 0x20];
  [0x74; 0x6f; 0x6f; 0x20; 0x6c; 0x6f; 0x6e; 0x67; 0x0a; 0x00; 0x6d; 0x6b];
  [0x64; 0x69; 0x72; 0x3a; 0x20; 0x66; 0x61; 0x69; 0x6c; 0x65; 0x64; 0x0a];
  [0x00; 0x63; 0x61; 0x74; 0x00; 0x63; 0x61; 0x74; 0x3a; 0x20; 0x6f; 0x70];
  [0x65; 0x6e; 0x20; 0x66; 0x61; 0x69; 0x6c; 0x65; 0x64; 0x0a; 0x00; 0x63];
  [0x61; 0x74; 0x3a; 0x20; 0x72; 0x65; 0x61; 0x64; 0x20; 0x65; 0x72; 0x72];
  [0x6f; 0x72; 0x0a; 0x00; 0x77; 0x72; 0x69; 0x74; 0x65; 0x00; 0x61; 0x70];
  [0x70; 0x65; 0x6e; 0x64; 0x00; 0x7c; 0x00; 0x3e; 0x00; 0x73; 0x79; 0x6e];
  [0x74; 0x61; 0x78; 0x20; 0x65; 0x72; 0x72; 0x6f; 0x72; 0x3a; 0x20; 0x70];
  [0x69; 0x70; 0x65; 0x0a; 0x00; 0x70; 0x69; 0x70; 0x65; 0x20; 0x66; 0x61];
  [0x69; 0x6c; 0x65; 0x64; 0x0a; 0x00; 0x70; 0x69; 0x70; 0x65; 0x3a; 0x20];
  [0x63; 0x6d; 0x64; 0x31; 0x20; 0x73; 0x70; 0x61; 0x77; 0x6e; 0x20; 0x66];
  [0x61; 0x69; 0x6c; 0x65; 0x64; 0x0a; 0x00; 0x70; 0x69; 0x70; 0x65; 0x3a];
  [0x20; 0x63; 0x6d; 0x64; 0x32; 0x20; 0x73; 0x70; 0x61; 0x77; 0x6e; 0x20];
  [0x66; 0x61; 0x69; 0x6c; 0x65; 0x64; 0x0a; 0x00; 0x73; 0x79; 0x6e; 0x74];
  [0x61; 0x78; 0x20; 0x65; 0x72; 0x72; 0x6f; 0x72; 0x3a; 0x20; 0x72; 0x65];
  [0x64; 0x69; 0x72; 0x65; 0x63; 0x74; 0x0a; 0x00; 0x72; 0x65; 0x64; 0x69];
  [0x72; 0x65; 0x63; 0x74; 0x3a; 0x20; 0x6f; 0x70; 0x65; 0x6e; 0x20; 0x66];
  [0x61; 0x69; 0x6c; 0x65; 0x64; 0x0a; 0x00; 0x72; 0x65; 0x64; 0x69; 0x72];
  [0x65; 0x63; 0x74; 0x3a; 0x20; 0x73; 0x70; 0x61; 0x77; 0x6e; 0x20; 0x66];
  [0x61; 0x69; 0x6c; 0x65; 0x64; 0x0a; 0x00; 0x66; 0x72; 0x6f; 0x6d; 0x2d];
  [0x73; 0x68; 0x65; 0x6c; 0x6c; 0x00; 0x54; 0x45; 0x52; 0x4d; 0x3d; 0x6e];
  [0x65; 0x70; 0x74; 0x75; 0x6e; 0x65; 0x00; 0x55; 0x53; 0x45; 0x52; 0x3d];
  [0x67; 0x75; 0x65; 0x73; 0x74; 0x00; 0x00; 0x00; 0x43; 0x6f; 0x6d; 0x6d];
  [0x61; 0x6e; 0x64; 0x73; 0x3a; 0x20; 0x68; 0x65; 0x6c; 0x70; 0x2c; 0x20];
  [0x68; 0x65; 0x6c; 0x6c; 0x6f; 0x2c; 0x20; 0x65; 0x78; 0x65; 0x63; 0x2c];
  [0x20; 0x65; 0x78; 0x69; 0x74; 0x2c; 0x20; 0x6c; 0x73; 0x20; 0x5b; 0x70];
  [0x61; 0x74; 0x68; 0x5d; 0x2c; 0x20; 0x6d; 0x6b; 0x64; 0x69; 0x72; 0x20];
  [0x3c; 0x70; 0x61; 0x74; 0x68; 0x3e; 0x2c; 0x20; 0x63; 0x61; 0x74; 0x20];
  [0x3c; 0x70; 0x61; 0x74; 0x68; 0x3e; 0x2c; 0x20; 0x77; 0x72; 0x69; 0x74];
  [0x65; 0x20; 0x3c; 0x70; 0x61; 0x74; 0x68; 0x3e; 0x20; 0x3c; 0x74; 0x65];
  [0x78; 0x74; 0x3e; 0x2c; 0x20; 0x61; 0x70; 0x70; 0x65; 0x6e; 0x64; 0x20];
  [0x3c; 0x70; 0x61; 0x74; 0x68; 0x3e; 0x20; 0x3c; 0x74; 0x65; 0x78; 0x74];
  [0x3e; 0x2c; 0x20; 0x3c; 0x70; 0x72; 0x6f; 0x67; 0x3e; 0x0a; 0x00; 0x00];
  [0x00; 0x00; 0x00; 0x00; 0x6d; 0x6b; 0x64; 0x69; 0x72; 0x3a; 0x20; 0x61];
  [0x62; 0x73; 0x6f; 0x6c; 0x75; 0x74; 0x65; 0x20; 0x70; 0x61; 0x74; 0x68];
  [0x20; 0x72; 0x65; 0x71; 0x75; 0x69; 0x72; 0x65; 0x64; 0x0a; 0x00; 0x00];
  [0x01; 0x1b; 0x03; 0x3b; 0x74; 0x00; 0x00; 0x00; 0x0d; 0x00; 0x00; 0x00];
  [0x38; 0xef; 0xff; 0xff; 0x90; 0x00; 0x00; 0x00; 0x18; 0xf0; 0xff; 0xff];
  [0xd8; 0x00; 0x00; 0x00; 0x88; 0xf0; 0xff; 0xff; 0x04; 0x01; 0x00; 0x00];
  [0x98; 0xfa; 0xff; 0xff; 0x38; 0x01; 0x00; 0x00; 0xc8; 0xfa; 0xff; 0xff];
  [0x4c; 0x01; 0x00; 0x00; 0x38; 0xfb; 0xff; 0xff; 0x60; 0x01; 0x00; 0x00];
  [0x78; 0xfb; 0xff; 0xff; 0x74; 0x01; 0x00; 0x00; 0xb8; 0xfb; 0xff; 0xff];
  [0x88; 0x01; 0x00; 0x00; 0x18; 0xfc; 0xff; 0xff; 0x9c; 0x01; 0x00; 0x00];
  [0x28; 0xfc; 0xff; 0xff; 0xb0; 0x01; 0x00; 0x00; 0x38; 0xfc; 0xff; 0xff];
  [0xc4; 0x01; 0x00; 0x00; 0x48; 0xfc; 0xff; 0xff; 0xd8; 0x01; 0x00; 0x00];
  [0x58; 0xfc; 0xff; 0xff; 0xec; 0x01; 0x00; 0x00; 0x00; 0x00; 0x00; 0x00];
  [0x14; 0x00; 0x00; 0x00; 0x00; 0x00; 0x00; 0x00; 0x01; 0x7a; 0x52; 0x00];
  [0x01; 0x78; 0x10; 0x01; 0x1b; 0x0c; 0x07; 0x08; 0x90; 0x01; 0x00; 0x00];
  [0x44; 0x00; 0x00; 0x00; 0x1c; 0x00; 0x00; 0x00; 0xa0; 0xee; 0xff; 0xff];
  [0xdd; 0x00; 0x00; 0x00; 0x00; 0x41; 0x0e; 0x10; 0x86; 0x02; 0x41; 0x0e];
  [0x18; 0x83; 0x03; 0x44; 0x0e; 0x60; 0x02; 0x82; 0x0a; 0x0e; 0x18; 0x41];
  [0xc3; 0x0e; 0x10; 0x41; 0xc6; 0x0e; 0x08; 0x46; 0x0b; 0x62; 0x0a; 0x0e];
  [0x18; 0x41; 0xc3; 0x0e; 0x10; 0x41; 0xc6; 0x0e; 0x08; 0x44; 0x0b; 0x62];
  [0x0e; 0x18; 0x41; 0xc3; 0x0e; 0x10; 0x41; 0xc6; 0x0e; 0x08; 0x00; 0x00];
  [0x28; 0x00; 0x00; 0x00; 0x64; 0x00; 0x00; 0x00; 0x38; 0xef; 0xff; 0xff];
  [0x6d; 0x00; 0x00; 0x00; 0x00; 0x41; 0x0e; 0x10; 0x83; 0x02; 0x4a; 0x0e];
  [0x20; 0x02; 0x4d; 0x0a; 0x0e; 0x10; 0x41; 0xc3; 0x0e; 0x08; 0x47; 0x0b];
  [0x44; 0x0e; 0x10; 0x44; 0xc3; 0x0e; 0x08; 0x00; 0x30; 0x00; 0x00; 0x00];
  [0x90; 0x00; 0x00; 0x00; 0x7c; 0xef; 0xff; 0xff; 0x03; 0x0a; 0x00; 0x00];
  [0x00; 0x42; 0x0e; 0x10; 0x8f; 0x02; 0x47; 0x0e; 0x18; 0x8e; 0x03; 0x42];
  [0x0e; 0x20; 0x8d; 0x04; 0x42; 0x0e; 0x28; 0x8c; 0x05; 0x41; 0x0e; 0x30];
  [0x86; 0x06; 0x41; 0x0e; 0x38; 0x83; 0x07; 0x47; 0x0e; 0xd0; 0x04; 0x00];
  [0x10; 0x00; 0x00; 0x00; 0xc4; 0x00; 0x00; 0x00; 0x58; 0xf9; 0xff; 0xff];
  [0x2b; 0x00; 0x00; 0x00; 0x00; 0x00; 0x00; 0x00; 0x10; 0x00; 0x00; 0x00];
  [0xd8; 0x00; 0x00; 0x00; 0x74; 0xf9; 0xff; 0xff; 0x69; 0x00; 0x00; 0x00];
  [0x00; 0x00; 0x00; 0x00; 0x10; 0x00; 0x00; 0x00; 0xec; 0x00; 0x00; 0x00];
  [0xd0; 0xf9; 0xff; 0xff; 0x38; 0x00; 0x00; 0x00; 0x00; 0x00; 0x00; 0x00];
  [0x10; 0x00; 0x00; 0x00; 0x00; 0x01; 0x00; 0x00; 0xfc; 0xf9; 0xff; 0xff];
  [0x34; 0x00; 0x00; 0x00; 0x00; 0x00; 0x00; 0x00; 0x10; 0x00; 0x00; 0x00];
  [0x14; 0x01; 0x00; 0x00; 0x28; 0xfa; 0xff; 0xff; 0x56; 0x00; 0x00; 0x00];
  [0x00; 0x00; 0x00; 0x00; 0x10; 0x00; 0x00; 0x00; 0x28; 0x01; 0x00; 0x00];
  [0x74; 0xfa; 0xff; 0xff; 0x0e; 0x00; 0x00; 0x00; 0x00; 0x00; 0x00; 0x00];
  [0x10; 0x00; 0x00; 0x00; 0x3c; 0x01; 0x00; 0x00; 0x70; 0xfa; 0xff; 0xff];
  [0x08; 0x00; 0x00; 0x00; 0x00; 0x00; 0x00; 0x00; 0x10; 0x00; 0x00; 0x00];
  [0x50; 0x01; 0x00; 0x00; 0x6c; 0xfa; 0xff; 0xff; 0x0b; 0x00; 0x00; 0x00];
  [0x00; 0x00; 0x00; 0x00; 0x10; 0x00; 0x00; 0x00; 0x64; 0x01; 0x00; 0x00];
  [0x68; 0xfa; 0xff; 0xff; 0x08; 0x00; 0x00; 0x00; 0x00; 0x00; 0x00; 0x00];
  [0x10; 0x00; 0x00; 0x00; 0x78; 0x01; 0x00; 0x00; 0x64; 0xfa; 0xff; 0xff];
  [0x08; 0x00; 0x00; 0x00; 0x00; 0x00; 0x00; 0x00; 0x00; 0x00; 0x00; 0x00];
  [0x00; 0x00; 0x00; 0x00; 0x00; 0x00; 0x00; 0x00; 0x00; 0x00; 0x00; 0x00];
  [0x00; 0x00; 0x00; 0x00; 0x00; 0x00; 0x00; 0x00; 0x00; 0x00; 0x00; 0x00];
  [0x00; 0x00; 0x00; 0x00; 0x00; 0x00; 0x00; 0x00; 0x00; 0x00; 0x00; 0x00];
  [0x00; 0x00; 0x00; 0x00; 0x00; 0x00; 0x00; 0x00; 0x00; 0x00; 0x00; 0x00];
  [0x00; 0x00; 0x00; 0x00; 0x00; 0x00; 0x00; 0x00; 0x00; 0x00; 0x00; 0x00];
  [0x00; 0x00; 0x00; 0x00; 0x00; 0x00; 0x00; 0x00; 0x00; 0x00; 0x00; 0x00];
  [0x00; 0x00; 0x00; 0x00; 0x00; 0x00; 0x00; 0x00; 0x00; 0x00; 0x00; 0x00];
  [0x00; 0x00; 0x00; 0x00; 0x00; 0x00; 0x00; 0x00; 0x00; 0x00; 0x00; 0x00];
  [0x00; 0x00; 0x00; 0x00; 0x00; 0x00; 0x00; 0x00; 0x00; 0x00; 0x00; 0x00];
  [0x00; 0x00; 0x00; 0x00; 0x00; 0x00; 0x00; 0x00; 0x00; 0x00; 0x00; 0x00];
  [0x00; 0x00; 0x00; 0x00; 0x00; 0x00; 0x00; 0x00; 0x00; 0x00; 0x00; 0x00];
  [0x00; 0x00; 0x00; 0x00; 0x00; 0x00; 0x00; 0x00; 0x00; 0x00; 0x00; 0x00];
  [0x00; 0x00; 0x00; 0x00; 0x00; 0x00; 0x00; 0x00; 0x00; 0x00; 0x00; 0x00];
  [0x00; 0x00; 0x00; 0x00; 0x00; 0x00; 0x00; 0x00; 0x00; 0x00; 0x00; 0x00];
  [0x00; 0x00; 0x00; 0x00; 0x00; 0x00; 0x00; 0x00; 0x00; 0x00; 0x00; 0x00];
  [0x00; 0x00; 0x00; 0x00; 0x00; 0x00; 0x00; 0x00; 0x00; 0x00; 0x00; 0x00];
  [0x00; 0x00; 0x00; 0x00; 0x00; 0x00; 0x00; 0x00; 0x00; 0x00; 0x00; 0x00];
  [0x00; 0x00; 0x00; 0x00; 0x00; 0x00; 0x00; 0x00; 0x00; 0x00; 0x00; 0x00];
  [0x00; 0x00; 0x00; 0x00; 0x00; 0x00; 0x00; 0x00; 0x00; 0x00; 0x00; 0x00];
  [0x00; 0x00; 0x00; 0x00; 0x00; 0x00; 0x00; 0x00; 0x00; 0x00; 0x00; 0x00];
  [0x00; 0x00; 0x00; 0x00; 0x00; 0x00; 0x00; 0x00; 0x00; 0x00; 0x00; 0x00];
  [0x00; 0x00; 0x00; 0x00; 0x00; 0x00; 0x00; 0x00; 0x00; 0x00; 0x00; 0x00];
  [0x00; 0x00; 0x00; 0x00; 0x00; 0x00; 0x00; 0x00; 0x00; 0x00; 0x00; 0x00];
  [0x00; 0x00; 0x00; 0x00; 0x00; 0x00; 0x00; 0x00; 0x00; 0x00; 0x00; 0x00];
  [0x00; 0x00; 0x00; 0x00; 0x00; 0x00; 0x00; 0x00; 0x00; 0x00; 0x00; 0x00];
  [0x00; 0x00; 0x00; 0x00; 0x00; 0x00; 0x00; 0x00; 0x00; 0x00; 0x00; 0x00];
  [0x00; 0x00; 0x00; 0x00; 0x00; 0x00; 0x00; 0x00; 0x00; 0x00; 0x00; 0x00];
  [0x00; 0x00; 0x00; 0x00; 0x00; 0x00; 0x00; 0x00; 0x00; 0x00; 0x00; 0x00];
  [0x00; 0x00; 0x00; 0x00; 0x00; 0x00; 0x00; 0x00; 0x00; 0x00; 0x00; 0x00];
  [0x00; 0x00; 0x00; 0x00; 0x00; 0x00; 0x00; 0x00; 0x00; 0x00; 0x00; 0x00];
  [0x00; 0x00; 0x00; 0x00; 0x00; 0x00; 0x00; 0x00; 0x00; 0x00; 0x00; 0x00];
  [0x00; 0x00; 0x00; 0x00; 0x00; 0x00; 0x00; 0x00; 0x00; 0x00; 0x00; 0x00];
  [0x00; 0x00; 0x00; 0x00; 0x00; 0x00; 0x00; 0x00; 0x00; 0x00; 0x00; 0x00];
  [0x00; 0x00; 0x00; 0x00; 0x00; 0x00; 0x00; 0x00; 0x00; 0x00; 0x00; 0x00];
  [0x00; 0x00; 0x00; 0x00; 0x00; 0x00; 0x00; 0x00; 0x00; 0x00; 0x00; 0x00];
  [0x00; 0x00; 0x00; 0x00; 0x00; 0x00; 0x00; 0x00; 0x00; 0x00; 0x00; 0x00];
  [0x00; 0x00; 0x00; 0x00; 0x00; 0x00; 0x00; 0x00; 0x00; 0x00; 0x00; 0x00];
  [0x00; 0x00; 0x00; 0x00; 0x00; 0x00; 0x00; 0x00; 0x00; 0x00; 0x00; 0x00];
  [0x00; 0x00; 0x00; 0x00; 0x00; 0x00; 0x00; 0x00; 0x00; 0x00; 0x00; 0x00];
  [0x00; 0x00; 0x00; 0x00; 0x00; 0x00; 0x00; 0x00; 0x00; 0x00; 0x00; 0x00];
  [0x00; 0x00; 0x00; 0x00; 0x00; 0x00; 0x00; 0x00; 0x00; 0x00; 0x00; 0x00];
  [0x00; 0x00; 0x00; 0x00; 0x00; 0x00; 0x00; 0x00; 0x00; 0x00; 0x00; 0x00];
  [0x00; 0x00; 0x00; 0x00; 0x00; 0x00; 0x00; 0x00; 0x00; 0x00; 0x00; 0x00];
  [0x00; 0x00; 0x00; 0x00; 0x00; 0x00; 0x00; 0x00; 0x00; 0x00; 0x00; 0x00];
  [0x00; 0x00; 0x00; 0x00; 0x00; 0x00; 0x00; 0x00; 0x00; 0x00; 0x00; 0x00];
  [0x00; 0x00; 0x00; 0x00; 0x00; 0x00; 0x00; 0x00; 0x00; 0x00; 0x00; 0x00];
  [0x00; 0x00; 0x00; 0x00; 0x00; 0x00; 0x00; 0x00; 0x00; 0x00; 0x00; 0x00];
  [0x00; 0x00; 0x00; 0x00; 0x00; 0x00; 0x00; 0x00; 0x00; 0x00; 0x00; 0x00];
  [0x00; 0x00; 0x00; 0x00; 0x00; 0x00; 0x00; 0x00; 0x00; 0x00; 0x00; 0x00];
  [0x00; 0x00; 0x00; 0x00; 0x00; 0x00; 0x00; 0x00; 0x00; 0x00; 0x00; 0x00];
  [0x00; 0x00; 0x00; 0x00; 0x00; 0x00; 0x00; 0x00; 0x00; 0x00; 0x00; 0x00];
  [0x00; 0x00; 0x00; 0x00; 0x00; 0x00; 0x00; 0x00; 0x00; 0x00; 0x00; 0x00];
  [0x00; 0x00; 0x00; 0x00; 0x00; 0x00; 0x00; 0x00; 0x00; 0x00; 0x00; 0x00];
  [0x00; 0x00; 0x00; 0x00; 0x00; 0x00; 0x00; 0x00; 0x00; 0x00; 0x00; 0x00];
  [0x00; 0x00; 0x00; 0x00; 0x00; 0x00; 0x00; 0x00; 0x00; 0x00; 0x00; 0x00];
  [0x00; 0x00; 0x00; 0x00; 0x00; 0x00; 0x00; 0x00; 0x00; 0x00; 0x00; 0x00];
  [0x00; 0x00; 0x00; 0x00; 0x00; 0x00; 0x00; 0x00; 0x00; 0x00; 0x00; 0x00];
  [0x00; 0x00; 0x00; 0x00; 0x00; 0x00; 0x00; 0x00; 0x00; 0x00; 0x00; 0x00];
  [0x00; 0x00; 0x00; 0x00; 0x00; 0x00; 0x00; 0x00; 0x00; 0x00; 0x00; 0x00];
  [0x00; 0x00; 0x00; 0x00; 0x00; 0x00; 0x00; 0x00; 0x00; 0x00; 0x00; 0x00];
  [0x00; 0x00; 0x00; 0x00; 0x00; 0x00; 0x00; 0x00; 0x00; 0x00; 0x00; 0x00];
  [0x00; 0x00; 0x00; 0x00; 0x00; 0x00; 0x00; 0x00; 0x00; 0x00; 0x00; 0x00];
  [0x00; 0x00; 0x00; 0x00; 0x00; 0x00; 0x00; 0x00; 0x00; 0x00; 0x00; 0x00];
  [0x00; 0x00; 0x00; 0x00; 0x00; 0x00; 0x00; 0x00; 0x00; 0x00; 0x00; 0x00];
  [0x00; 0x00; 0x00; 0x00; 0x00; 0x00; 0x00; 0x00; 0x00; 0x00; 0x00; 0x00];
  [0x00; 0x00; 0x00; 0x00; 0x00; 0x00; 0x00; 0x00; 0x00; 0x00; 0x00; 0x00];
  [0x00; 0x00; 0x00; 0x00; 0x00; 0x00; 0x00; 0x00; 0x00; 0x00; 0x00; 0x00];
  [0x00; 0x00; 0x00; 0x00; 0x00; 0x00; 0x00; 0x00; 0x00; 0x00; 0x00; 0x00];
  [0x00; 0x00; 0x00; 0x00; 0x00; 0x00; 0x00; 0x00; 0x00; 0x00; 0x00; 0x00];
  [0x00; 0x00; 0x00; 0x00; 0x00; 0x00; 0x00; 0x00; 0x00; 0x00; 0x00; 0x00];
  [0x00; 0x00; 0x00; 0x00; 0x00; 0x00; 0x00; 0x00; 0x00; 0x00; 0x00; 0x00];
  [0x00; 0x00; 0x00; 0x00; 0x00; 0x00; 0x00; 0x00; 0x00; 0x00; 0x00; 0x00];
  [0x00; 0x00; 0x00; 0x00; 0x00; 0x00; 0x00; 0x00; 0x00; 0x00; 0x00; 0x00];
  [0x00; 0x00; 0x00; 0x00; 0x00; 0x00; 0x00; 0x00; 0x00; 0x00; 0x00; 0x00];
  [0x00; 0x00; 0x00; 0x00; 0x00; 0x00; 0x00; 0x00; 0x00; 0x00; 0x00; 0x00];
  [0x00; 0x00; 0x00; 0x00; 0x00; 0x00; 0x00; 0x00; 0x00; 0x00; 0x00; 0x00];
  [0x00; 0x00; 0x00; 0x00; 0x00; 0x00; 0x00; 0x00; 0x00; 0x00; 0x00; 0x00];
  [0x00; 0x00; 0x00; 0x00; 0x00; 0x00; 0x00; 0x00; 0x00; 0x00; 0x00; 0x00];
  [0x00; 0x00; 0x00; 0x00; 0x00; 0x00; 0x00; 0x00; 0x00; 0x00; 0x00; 0x00];
  [0x00; 0x00; 0x00; 0x00; 0x00; 0x00; 0x00; 0x00; 0x00; 0x00; 0x00; 0x00];
  [0x00; 0x00; 0x00; 0x00; 0x00; 0x00; 0x00; 0x00; 0x00; 0x00; 0x00; 0x00];
  [0x00; 0x00; 0x00; 0x00; 0x00; 0x00; 0x00; 0x00; 0x00; 0x00; 0x00; 0x00];
  [0x00; 0x00; 0x00; 0x00; 0x00; 0x00; 0x00; 0x00; 0x00; 0x00; 0x00; 0x00];
  [0x00; 0x00; 0x00; 0x00; 0x00; 0x00; 0x00; 0x00; 0x00; 0x00; 0x00; 0x00];
  [0x00; 0x00; 0x00; 0x00; 0x00; 0x00; 0x00; 0x00; 0x00; 0x00; 0x00; 0x00];
  [0x00; 0x00; 0x00; 0x00; 0x00; 0x00; 0x00; 0x00; 0x00; 0x00; 0x00; 0x00];
  [0x00; 0x00; 0x00; 0x00; 0x00; 0x00; 0x00; 0x00; 0x00; 0x00; 0x00; 0x00];
  [0x00; 0x00; 0x00; 0x00; 0x00; 0x00; 0x00; 0x00; 0x00; 0x00; 0x00; 0x00];
  [0x00; 0x00; 0x00; 0x00; 0x00; 0x00; 0x00; 0x00; 0x00; 0x00; 0x00; 0x00];
  [0x00; 0x00; 0x00; 0x00; 0x00; 0x00; 0x00; 0x00; 0x00; 0x00; 0x00; 0x00];
  [0x00; 0x00; 0x00; 0x00; 0x00; 0x00; 0x00; 0x00; 0x00; 0x00; 0x00; 0x00];
  [0x00; 0x00; 0x00; 0x00; 0x00; 0x00; 0x00; 0x00; 0x00; 0x00; 0x00; 0x00];
  [0x00; 0x00; 0x00; 0x00; 0x00; 0x00; 0x00; 0x00; 0x00; 0x00; 0x00; 0x00];
  [0x00; 0x00; 0x00; 0x00; 0x00; 0x00; 0x00; 0x00; 0x00; 0x00; 0x00; 0x00];
  [0x00; 0x00; 0x00; 0x00; 0x00; 0x00; 0x00; 0x00; 0x00; 0x00; 0x00; 0x00];
  [0x00; 0x00; 0x00; 0x00; 0x00; 0x00; 0x00; 0x00; 0x00; 0x00; 0x00; 0x00];
  [0x00; 0x00; 0x00; 0x00; 0x00; 0x00; 0x00; 0x00; 0x00; 0x00; 0x00; 0x00];
  [0x00; 0x00; 0x00; 0x00; 0x00; 0x00; 0x00; 0x00; 0x00; 0x00; 0x00; 0x00];
  [0x00; 0x00; 0x00; 0x00; 0x00; 0x00; 0x00; 0x00; 0x00; 0x00; 0x00; 0x00];
  [0x00; 0x00; 0x00; 0x00; 0x00; 0x00; 0x00; 0x00; 0x00; 0x00; 0x00; 0x00];
  [0x00; 0x00; 0x00; 0x00; 0x00; 0x00; 0x00; 0x00; 0x00; 0x00; 0x00; 0x00];
  [0x00; 0x00; 0x00; 0x00; 0x00; 0x00; 0x00; 0x00; 0x00; 0x00; 0x00; 0x00];
  [0x00; 0x00; 0x00; 0x00; 0x00; 0x00; 0x00; 0x00; 0x00; 0x00; 0x00; 0x00];
  [0x00; 0x00; 0x00; 0x00; 0x00; 0x00; 0x00; 0x00; 0x00; 0x00; 0x00; 0x00];
  [0x00; 0x00; 0x00; 0x00; 0x00; 0x00; 0x00; 0x00; 0x00; 0x00; 0x00; 0x00];
  [0x00; 0x00; 0x00; 0x00; 0x00; 0x00; 0x00; 0x00; 0x00; 0x00; 0x00; 0x00];
  [0x00; 0x00; 0x00; 0x00; 0x00; 0x00; 0x00; 0x00; 0x00; 0x00; 0x00; 0x00];
  [0x00; 0x00; 0x00; 0x00; 0x00; 0x00; 0x00; 0x00; 0x00; 0x00; 0x00; 0x00];
  [0x00; 0x00; 0x00; 0x00; 0x00; 0x00; 0x00; 0x00; 0x00; 0x00; 0x00; 0x00];
  [0x00; 0x00; 0x00; 0x00; 0x00; 0x00; 0x00; 0x00; 0x00; 0x00; 0x00; 0x00];
  [0x00; 0x00; 0x00; 0x00; 0x00; 0x00; 0x00; 0x00; 0x00; 0x00; 0x00; 0x00];
  [0x00; 0x00; 0x00; 0x00; 0x00; 0x00; 0x00; 0x00; 0x00; 0x00; 0x00; 0x00];
  [0x00; 0x00; 0x00; 0x00; 0x00; 0x00; 0x00; 0x00; 0x00; 0x00; 0x00; 0x00];
  [0x00; 0x00; 0x00; 0x00; 0x00; 0x00; 0x00; 0x00; 0x00; 0x00; 0x00; 0x00];
  [0x00; 0x00; 0x00; 0x00; 0x00; 0x00; 0x00; 0x00; 0x00; 0x00; 0x00; 0x00];
  [0x00; 0x00; 0x00; 0x00; 0x00; 0x00; 0x00; 0x00; 0x00; 0x00; 0x00; 0x00];
  [0x00; 0x00; 0x00; 0x00; 0x00; 0x00; 0x00; 0x00; 0x00; 0x00; 0x00; 0x00];
  [0x00; 0x00; 0x00; 0x00; 0x00; 0x00; 0x00; 0x00; 0x00; 0x00; 0x00; 0x00];
  [0x00; 0x00; 0x00; 0x00; 0x00; 0x00; 0x00; 0x00; 0x00; 0x00; 0x00; 0x00];
  [0x00; 0x00; 0x00; 0x00; 0x00; 0x00; 0x00; 0x00; 0x00; 0x00; 0x00; 0x00];
  [0x00; 0x00; 0x00; 0x00; 0x00; 0x00; 0x00; 0x00; 0x00; 0x00; 0x00; 0x00];
  [0x00; 0x00; 0x00; 0x00; 0x00; 0x00; 0x00; 0x00; 0x00; 0x00; 0x00; 0x00];
  [0x00; 0x00; 0x00; 0x00; 0x00; 0x00; 0x00; 0x00; 0x00; 0x00; 0x00; 0x00];
  [0x00; 0x00; 0x00; 0x00; 0x00; 0x00; 0x00; 0x00; 0x00; 0x00; 0x00; 0x00];
  [0x00; 0x00; 0x00; 0x00; 0x00; 0x00; 0x00; 0x00; 0x00; 0x00; 0x00; 0x00];
  [0x00; 0x00; 0x00; 0x00; 0x00; 0x00; 0x00; 0x00; 0x00; 0x00; 0x00; 0x00];
  [0x00; 0x00; 0x00; 0x00; 0x00; 0x00; 0x00; 0x00; 0x00; 0x00; 0x00; 0x00];
  [0x00; 0x00; 0x00; 0x00; 0x00; 0x00; 0x00; 0x00; 0x00; 0x00; 0x00; 0x00];
  [0x00; 0x00; 0x00; 0x00; 0x00; 0x00; 0x00; 0x00; 0x00; 0x00; 0x00; 0x00];
  [0x00; 0x00; 0x00; 0x00; 0x00; 0x00; 0x00; 0x00; 0x00; 0x00; 0x00; 0x00];
  [0x00; 0x00; 0x00; 0x00; 0x00; 0x00; 0x00; 0x00; 0x00; 0x00; 0x00; 0x00];
  [0x00; 0x00; 0x00; 0x00; 0x00; 0x00; 0x00; 0x00; 0x00; 0x00; 0x00; 0x00];
  [0x00; 0x00; 0x00; 0x00; 0x00; 0x00; 0x00; 0x00; 0x00; 0x00; 0x00; 0x00];
  [0x00; 0x00; 0x00; 0x00; 0x00; 0x00; 0x00; 0x00; 0x00; 0x00; 0x00; 0x00];
  [0x00; 0x00; 0x00; 0x00; 0x00; 0x00; 0x00; 0x00; 0x00; 0x00; 0x00; 0x00];
  [0x00; 0x00; 0x00; 0x00; 0x00; 0x00; 0x00; 0x00; 0x00; 0x00; 0x00; 0x00];
  [0x00; 0x00; 0x00; 0x00; 0x00; 0x00; 0x00; 0x00; 0x00; 0x00; 0x00; 0x00];
  [0x00; 0x00; 0x00; 0x00; 0x00; 0x00; 0x00; 0x00; 0x00; 0x00; 0x00; 0x00];
  [0x00; 0x00; 0x00; 0x00; 0x00; 0x00; 0x00; 0x00; 0x00; 0x00; 0x00; 0x00];
  [0x00; 0x00; 0x00; 0x00; 0x00; 0x00; 0x00; 0x00; 0x00; 0x00; 0x00; 0x00];
  [0x00; 0x00; 0x00; 0x00; 0x00; 0x00; 0x00; 0x00; 0x00; 0x00; 0x00; 0x00];
  [0x00; 0x00; 0x00; 0x00; 0x00; 0x00; 0x00; 0x00; 0x00; 0x00; 0x00; 0x00];
  [0x00; 0x00; 0x00; 0x00; 0x00; 0x00; 0x00; 0x00; 0x00; 0x00; 0x00; 0x00];
  [0x00; 0x00; 0x00; 0x00; 0x00; 0x00; 0x00; 0x00; 0x00; 0x00; 0x00; 0x00];
  [0x00; 0x00; 0x00; 0x00; 0x00; 0x00; 0x00; 0x00; 0x00; 0x00; 0x00; 0x00];
  [0x00; 0x00; 0x00; 0x00; 0x00; 0x00; 0x00; 0x00; 0x00; 0x00; 0x00; 0x00];
  [0x00; 0x00; 0x00; 0x00; 0x00; 0x00; 0x00; 0x00; 0x00; 0x00; 0x00; 0x00];
  [0x00; 0x00; 0x00; 0x00; 0x00; 0x00; 0x00; 0x00; 0x00; 0x00; 0x00; 0x00];
  [0x00; 0x00; 0x00; 0x00; 0x00; 0x00; 0x00; 0x00; 0x00; 0x00; 0x00; 0x00];
  [0x00; 0x00; 0x00; 0x00; 0x00; 0x00; 0x00; 0x00; 0x00; 0x00; 0x00; 0x00];
  [0x00; 0x00; 0x00; 0x00; 0x00; 0x00; 0x00; 0x00; 0x00; 0x00; 0x00; 0x00];
  [0x00; 0x00; 0x00; 0x00; 0x00; 0x00; 0x00; 0x00; 0x00; 0x00; 0x00; 0x00];
  [0x00; 0x00; 0x00; 0x00; 0x00; 0x00; 0x00; 0x00; 0x00; 0x00; 0x00; 0x00];
  [0x00; 0x00; 0x00; 0x00; 0x00; 0x00; 0x00; 0x00; 0x00; 0x00; 0x00; 0x00];
  [0x00; 0x00; 0x00; 0x00; 0x00; 0x00; 0x00; 0x00; 0x00; 0x00; 0x00; 0x00];
  [0x00; 0x00; 0x00; 0x00; 0x00; 0x00; 0x00; 0x00; 0x00; 0x00; 0x00; 0x00];
  [0x00; 0x00; 0x00; 0x00; 0x00; 0x00; 0x00; 0x00; 0x00; 0x00; 0x00; 0x00];
  [0x00; 0x00; 0x00; 0x00; 0x00; 0x00; 0x00; 0x00; 0x00; 0x00; 0x00; 0x00];
  [0x00; 0x00; 0x00; 0x00; 0x00; 0x00; 0x00; 0x00; 0x00; 0x00; 0x00; 0x00];
  [0x00; 0x00; 0x00; 0x00; 0x00; 0x00; 0x00; 0x00; 0x00; 0x00; 0x00; 0x00];
  [0x00; 0x00; 0x00; 0x00; 0x00; 0x00; 0x00; 0x00; 0x00; 0x00; 0x00; 0x00];
  [0x00; 0x00; 0x00; 0x00; 0x00; 0x00; 0x00; 0x00; 0x00; 0x00; 0x00; 0x00];
  [0x00; 0x00; 0x00; 0x00; 0x00; 0x00; 0x00; 0x00; 0x00; 0x00; 0x00; 0x00];
  [0x00; 0x00; 0x00; 0x00; 0x00; 0x00; 0x00; 0x00; 0x00; 0x00; 0x00; 0x00];
  [0x00; 0x00; 0x00; 0x00; 0x00; 0x00; 0x00; 0x00; 0x00; 0x00; 0x00; 0x00];
  [0x00; 0x00; 0x00; 0x00; 0x00; 0x00; 0x00; 0x00; 0x00; 0x00; 0x00; 0x00];
  [0x00; 0x00; 0x00; 0x00; 0x00; 0x00; 0x00; 0x00; 0x00; 0x00; 0x00; 0x00];
  [0x00; 0x00; 0x00; 0x00; 0x00; 0x00; 0x00; 0x00; 0x00; 0x00; 0x00; 0x00];
  [0x00; 0x00; 0x00; 0x00; 0x00; 0x00; 0x00; 0x00; 0x00; 0x00; 0x00; 0x00];
  [0x00; 0x00; 0x00; 0x00; 0x00; 0x00; 0x00; 0x00; 0x00; 0x00; 0x00; 0x00];
  [0x00; 0x00; 0x00; 0x00; 0x00; 0x00; 0x00; 0x00; 0x00; 0x00; 0x00; 0x00];
  [0x00; 0x00; 0x00; 0x00; 0x00; 0x00; 0x00; 0x00; 0x00; 0x00; 0x00; 0x00];
  [0x00; 0x00; 0x00; 0x00; 0x00; 0x00; 0x00; 0x00; 0x00; 0x00; 0x00; 0x00];
  [0x00; 0x00; 0x00; 0x00; 0x00; 0x00; 0x00; 0x00; 0x00; 0x00; 0x00; 0x00];
  [0x00; 0x00; 0x00; 0x00; 0x00; 0x00; 0x00; 0x00; 0x00; 0x00; 0x00; 0x00];
  [0x00; 0x00; 0x00; 0x00; 0x00; 0x00; 0x00; 0x00; 0x00; 0x00; 0x00; 0x00];
  [0x00; 0x00; 0x00; 0x00; 0x00; 0x00; 0x00; 0x00; 0x00; 0x00; 0x00; 0x00];
  [0x00; 0x00; 0x00; 0x00; 0x00; 0x00; 0x00; 0x00; 0x00; 0x00; 0x00; 0x00];
  [0x00; 0x00; 0x00; 0x00; 0x00; 0x00; 0x00; 0x00; 0x00; 0x00; 0x00; 0x00];
  [0x00; 0x00; 0x00; 0x00; 0x00; 0x00; 0x00; 0x00; 0x00; 0x00; 0x00; 0x00];
  [0x00; 0x00; 0x00; 0x00; 0x00; 0x00; 0x00; 0x00; 0x00; 0x00; 0x00; 0x00];
  [0x00; 0x00; 0x00; 0x00; 0x00; 0x00; 0x00; 0x00; 0x00; 0x00; 0x00; 0x00];
  [0x00; 0x00; 0x00; 0x00; 0x00; 0x00; 0x00; 0x00; 0x00; 0x00; 0x00; 0x00];
  [0x00; 0x00; 0x00; 0x00; 0x00; 0x00; 0x00; 0x00; 0x00; 0x00; 0x00; 0x00];
  [0x00; 0x00; 0x00; 0x00; 0x00; 0x00; 0x00; 0x00; 0x00; 0x00; 0x00; 0x00];
  [0x00; 0x00; 0x00; 0x00; 0x00; 0x00; 0x00; 0x00; 0x00; 0x00; 0x00; 0x00];
  [0x00; 0x00; 0x00; 0x00; 0x00; 0x00; 0x00; 0x00; 0x00; 0x00; 0x00; 0x00];
  [0x00; 0x00; 0x00; 0x00; 0x00; 0x00; 0x00; 0x00; 0x00; 0x00; 0x00; 0x00];
  [0x00; 0x00; 0x00; 0x00; 0x00; 0x00; 0x00; 0x00; 0x00; 0x00; 0x00; 0x00];
  [0x00; 0x00; 0x00; 0x00; 0x00; 0x00; 0x00; 0x00; 0x00; 0x00; 0x00; 0x00];
  [0x00; 0x00; 0x00; 0x00; 0x00; 0x00; 0x00; 0x00; 0x00; 0x00; 0x00; 0x00];
  [0x00; 0x00; 0x00; 0x00; 0x00; 0x00; 0x00; 0x00; 0x00; 0x00; 0x00; 0x00];
  [0x00; 0x00; 0x00; 0x00; 0x00; 0x00; 0x00; 0x00; 0x00; 0x00; 0x00; 0x00];
  [0x00; 0x00; 0x00; 0x00; 0x00; 0x00; 0x00; 0x00; 0x00; 0x00; 0x00; 0x00];
  [0x00; 0x00; 0x00; 0x00; 0x00; 0x00; 0x00; 0x00; 0x00; 0x00; 0x00; 0x00];
  [0x00; 0x00; 0x00; 0x00; 0x00; 0x00; 0x00; 0x00; 0x00; 0x00; 0x00; 0x00];
  [0x00; 0x00; 0x00; 0x00; 0x00; 0x00; 0x00; 0x00; 0x00; 0x00; 0x00; 0x00];
  [0x00; 0x00; 0x00; 0x00; 0x00; 0x00; 0x00; 0x00; 0x00; 0x00; 0x00; 0x00];
  [0x00; 0x00; 0x00; 0x00; 0x00; 0x00; 0x00; 0x00; 0x00; 0x00; 0x00; 0x00];
  [0x00; 0x00; 0x00; 0x00; 0x00; 0x00; 0x00; 0x00; 0x00; 0x00; 0x00; 0x00];
  [0x00; 0x00; 0x00; 0x00; 0x00; 0x00; 0x00; 0x00; 0x00; 0x00; 0x00; 0x00];
  [0x00; 0x00; 0x00; 0x00; 0x00; 0x00; 0x00; 0x00; 0x00; 0x00; 0x00; 0x00];
  [0x00; 0x00; 0x00; 0x00; 0x00; 0x00; 0x00; 0x00; 0x00; 0x00; 0x00; 0x00];
  [0x00; 0x00; 0x00; 0x00; 0x00; 0x00; 0x00; 0x00; 0x00; 0x00; 0x00; 0x00];
  [0x00; 0x00; 0x00; 0x00; 0x00; 0x00; 0x00; 0x00; 0x00; 0x00; 0x00; 0x00];
  [0x00; 0x00; 0x00; 0x00; 0x00; 0x00; 0x00; 0x00; 0x00; 0x00; 0x00; 0x00];
  [0x00; 0x00; 0x00; 0x00; 0x00; 0x00; 0x00; 0x00; 0x00; 0x00; 0x00; 0x00];
  [0x00; 0x00; 0x00; 0x00; 0x00; 0x00; 0x00; 0x00; 0x00; 0x00; 0x00; 0x00];
  [0x00; 0x00; 0x00; 0x00; 0x00; 0x00; 0x00; 0x00; 0x00; 0x00; 0x00; 0x00];
  [0x00; 0x00; 0x00; 0x00; 0x00; 0x00; 0x00; 0x00; 0x00; 0x00; 0x00; 0x00];
  [0x00; 0x00; 0x00; 0x00; 0x00; 0x00; 0x00; 0x00; 0x00; 0x00; 0x00; 0x00];
  [0x00; 0x00; 0x00; 0x00; 0x00; 0x00; 0x00; 0x00; 0x00; 0x00; 0x00; 0x00];
  [0x00; 0x00; 0x00; 0x00; 0x00; 0x00; 0x00; 0x00; 0x00; 0x00; 0x00; 0x00];
  [0x00; 0x00; 0x00; 0x00; 0x00; 0x00; 0x00; 0x00; 0x00; 0x00; 0x00; 0x00];
  [0x00; 0x00; 0x00; 0x00; 0x00; 0x00; 0x00; 0x00; 0x00; 0x00; 0x00; 0x00];
  [0x00; 0x00; 0x00; 0x00; 0x00; 0x00; 0x00; 0x00; 0x00; 0x00; 0x00; 0x00];
  [0x00; 0x00; 0x00; 0x00; 0x00; 0x00; 0x00; 0x00; 0x00; 0x00; 0x00; 0x00];
  [0x00; 0x00; 0x00; 0x00; 0x00; 0x00; 0x00; 0x00; 0x00; 0x00; 0x00; 0x00];
  [0x00; 0x00; 0x00; 0x00; 0x00; 0x00; 0x00; 0x00; 0x00; 0x00; 0x00; 0x00];
  [0x00; 0x00; 0x00; 0x00; 0x00; 0x00; 0x00; 0x00; 0x00; 0x00; 0x00; 0x00];
  [0x00; 0x00; 0x00; 0x00; 0x00; 0x00; 0x00; 0x00; 0x00; 0x00; 0x00; 0x00];
  [0x00; 0x00; 0x00; 0x00; 0x00; 0x00; 0x00; 0x00; 0x00; 0x00; 0x00; 0x00];
  [0x00; 0x00; 0x00; 0x00; 0x00; 0x00; 0x00; 0x00; 0x00; 0x00; 0x00; 0x00];
  [0x00; 0x00; 0x00; 0x00; 0x00; 0x00; 0x00; 0x00; 0x00; 0x00; 0x00; 0x00];
  [0x00; 0x00; 0x00; 0x00; 0x00; 0x00; 0x00; 0x00; 0x00; 0x00; 0x00; 0x00];
  [0x00; 0x00; 0x00; 0x00; 0x00; 0x00; 0x00; 0x00; 0x00; 0x00; 0x00; 0x00];
  [0x00; 0x00; 0x00; 0x00; 0x00; 0x00; 0x00; 0x00; 0x00; 0x00; 0x00; 0x00];
  [0x00; 0x00; 0x00; 0x00; 0x00; 0x00; 0x00; 0x00; 0x00; 0x00; 0x00; 0x00];
  [0x00; 0x00; 0x00; 0x00; 0x00; 0x00; 0x00; 0x00; 0x00; 0x00; 0x00; 0x00];
  [0x00; 0x00; 0x00; 0x00; 0x00; 0x00; 0x00; 0x00; 0x00; 0x00; 0x00; 0x00];
  [0x00; 0x00; 0x00; 0x00; 0x00; 0x00; 0x00; 0x00; 0x00; 0x00; 0x00; 0x00];
  [0x00; 0x00; 0x00; 0x00; 0x00; 0x00; 0x00; 0x00; 0x00; 0x00; 0x00; 0x00];
  [0x00; 0x00; 0x00; 0x00; 0x00; 0x00; 0x00; 0x00; 0x00; 0x00; 0x00; 0x00];
  [0x00; 0x00; 0x00; 0x00; 0x00; 0x00; 0x00; 0x00; 0x00; 0x00; 0x00; 0x00];
  [0x00; 0x00; 0x00; 0x00; 0x00; 0x00; 0x00; 0x00; 0x00; 0x00; 0x00; 0x00];
  [0x00; 0x00; 0x00; 0x00; 0x00; 0x00; 0x00; 0x00; 0x00; 0x00; 0x00; 0x00];
  [0x00; 0x00; 0x00; 0x00; 0x00; 0x00; 0x00; 0x00; 0x00; 0x00; 0x00; 0x00];
  [0x00; 0x00; 0x00; 0x00; 0x00; 0x00; 0x00; 0x00; 0x00; 0x00; 0x00; 0x00];
  [0x00; 0x00; 0x00; 0x00; 0x00; 0x00; 0x00; 0x00; 0x00; 0x00; 0x00; 0x00];
  [0x00; 0x00; 0x00; 0x00; 0x00; 0x00; 0x00; 0x00; 0x00; 0x00; 0x00; 0x00];
  [0x00; 0x00; 0x00; 0x00; 0x00; 0x00; 0x00; 0x00; 0x00; 0x00; 0x00; 0x00];
  [0x00; 0x00; 0x00; 0x00; 0x00; 0x00; 0x00; 0x00; 0x80; 0x10; 0x40; 0x00];
  [0x00; 0x00; 0x00; 0x00; 0xe3; 0x11; 0x40; 0x00; 0x00; 0x00; 0x00; 0x00];
  [0x00; 0x00; 0x00; 0x00; 0x00; 0x00; 0x00; 0x00; 0x00; 0x00; 0x00; 0x00];
  [0x00; 0x00; 0x00; 0x00; 0xee; 0x11; 0x40; 0x00; 0x00; 0x00; 0x00; 0x00];
  [0xfb; 0x11; 0x40; 0x00; 0x00; 0x00; 0x00; 0x00; 0x00; 0x00; 0x00; 0x00];
  [0x00; 0x00; 0x00; 0x00; 0x00; 0x00; 0x00; 0x00; 0x00; 0x00; 0x00; 0x00];
  [0x80; 0x10; 0x40; 0x00; 0x00; 0x00; 0x00; 0x00; 0x00; 0x00; 0x00; 0x00];
  [0x00; 0x00; 0x00; 0x00; 0x47; 0x43; 0x43; 0x3a; 0x20; 0x28; 0x47; 0x4e];
  [0x55; 0x29; 0x20; 0x31; 0x35; 0x2e; 0x32; 0x2e; 0x31; 0x20; 0x32; 0x30];
  [0x32; 0x35; 0x31; 0x32; 0x31; 0x31; 0x20; 0x28; 0x52; 0x65; 0x64; 0x20];
  [0x48; 0x61; 0x74; 0x20; 0x31; 0x35; 0x2e; 0x32; 0x2e; 0x31; 0x2d; 0x35];
  [0x29; 0x00; 0x00; 0x00; 0x00; 0x00; 0x00; 0x00; 0x00; 0x00; 0x00; 0x00];
  [0x00; 0x00; 0x00; 0x00; 0x00; 0x00; 0x00; 0x00; 0x00; 0x00; 0x00; 0x00];
  [0x00; 0x00; 0x00; 0x00; 0x01; 0x00; 0x00; 0x00; 0x04; 0x00; 0xf1; 0xff];
  [0x00; 0x00; 0x00; 0x00; 0x00; 0x00; 0x00; 0x00; 0x00; 0x00; 0x00; 0x00];
  [0x00; 0x00; 0x00; 0x00; 0x09; 0x00; 0x00; 0x00; 0x02; 0x00; 0x01; 0x00];
  [0xe0; 0x01; 0x40; 0x00; 0x00; 0x00; 0x00; 0x00; 0xdd; 0x00; 0x00; 0x00];
  [0x00; 0x00; 0x00; 0x00; 0x13; 0x00; 0x00; 0x00; 0x02; 0x00; 0x01; 0x00];
  [0xc0; 0x02; 0x40; 0x00; 0x00; 0x00; 0x00; 0x00; 0x6d; 0x00; 0x00; 0x00];
  [0x00; 0x00; 0x00; 0x00; 0x1f; 0x00; 0x00; 0x00; 0x01; 0x00; 0x06; 0x00];
  [0x40; 0x20; 0x40; 0x00; 0x00; 0x00; 0x00; 0x00; 0x10; 0x00; 0x00; 0x00];
  [0x00; 0x00; 0x00; 0x00; 0x26; 0x00; 0x00; 0x00; 0x01; 0x00; 0x06; 0x00];
  [0x20; 0x20; 0x40; 0x00; 0x00; 0x00; 0x00; 0x00; 0x18; 0x00; 0x00; 0x00];
  [0x00; 0x00; 0x00; 0x00; 0x2d; 0x00; 0x00; 0x00; 0x01; 0x00; 0x06; 0x00];
  [0x00; 0x20; 0x40; 0x00; 0x00; 0x00; 0x00; 0x00; 0x18; 0x00; 0x00; 0x00];
  [0x00; 0x00; 0x00; 0x00; 0x34; 0x00; 0x00; 0x00; 0x04; 0x00; 0xf1; 0xff];
  [0x00; 0x00; 0x00; 0x00; 0x00; 0x00; 0x00; 0x00; 0x00; 0x00; 0x00; 0x00];
  [0x00; 0x00; 0x00; 0x00; 0x00; 0x00; 0x00; 0x00; 0x04; 0x00; 0xf1; 0xff];
  [0x00; 0x00; 0x00; 0x00; 0x00; 0x00; 0x00; 0x00; 0x00; 0x00; 0x00; 0x00];
  [0x00; 0x00; 0x00; 0x00; 0x3b; 0x00; 0x00; 0x00; 0x00; 0x00; 0x04; 0x00];
  [0xa8; 0x12; 0x40; 0x00; 0x00; 0x00; 0x00; 0x00; 0x00; 0x00; 0x00; 0x00];
  [0x00; 0x00; 0x00; 0x00; 0x4e; 0x00; 0x00; 0x00; 0x12; 0x00; 0x01; 0x00];
  [0xe0; 0x0d; 0x40; 0x00; 0x00; 0x00; 0x00; 0x00; 0x38; 0x00; 0x00; 0x00];
  [0x00; 0x00; 0x00; 0x00; 0x55; 0x00; 0x00; 0x00; 0x12; 0x00; 0x01; 0x00];
  [0x20; 0x0e; 0x40; 0x00; 0x00; 0x00; 0x00; 0x00; 0x34; 0x00; 0x00; 0x00];
  [0x00; 0x00; 0x00; 0x00; 0x5c; 0x00; 0x00; 0x00; 0x12; 0x00; 0x01; 0x00];
  [0xe0; 0x0e; 0x40; 0x00; 0x00; 0x00; 0x00; 0x00; 0x0b; 0x00; 0x00; 0x00];
  [0x00; 0x00; 0x00; 0x00; 0x67; 0x00; 0x00; 0x00; 0x12; 0x00; 0x01; 0x00];
  [0xc0; 0x0e; 0x40; 0x00; 0x00; 0x00; 0x00; 0x00; 0x0e; 0x00; 0x00; 0x00];
  [0x00; 0x00; 0x00; 0x00; 0x75; 0x00; 0x00; 0x00; 0x12; 0x00; 0x01; 0x00];
  [0x30; 0x03; 0x40; 0x00; 0x00; 0x00; 0x00; 0x00; 0x03; 0x0a; 0x00; 0x00];
  [0x00; 0x00; 0x00; 0x00; 0x70; 0x00; 0x00; 0x00; 0x10; 0x00; 0x06; 0x00];
  [0x50; 0x20; 0x40; 0x00; 0x00; 0x00; 0x00; 0x00; 0x00; 0x00; 0x00; 0x00];
  [0x00; 0x00; 0x00; 0x00; 0x7c; 0x00; 0x00; 0x00; 0x12; 0x00; 0x01; 0x00];
  [0x60; 0x0e; 0x40; 0x00; 0x00; 0x00; 0x00; 0x00; 0x56; 0x00; 0x00; 0x00];
  [0x00; 0x00; 0x00; 0x00; 0x83; 0x00; 0x00; 0x00; 0x12; 0x00; 0x01; 0x00];
  [0x70; 0x0d; 0x40; 0x00; 0x00; 0x00; 0x00; 0x00; 0x69; 0x00; 0x00; 0x00];
  [0x00; 0x00; 0x00; 0x00; 0x8a; 0x00; 0x00; 0x00; 0x12; 0x00; 0x01; 0x00];
  [0x00; 0x0f; 0x40; 0x00; 0x00; 0x00; 0x00; 0x00; 0x08; 0x00; 0x00; 0x00];
  [0x00; 0x00; 0x00; 0x00; 0x95; 0x00; 0x00; 0x00; 0x10; 0x00; 0x06; 0x00];
  [0x50; 0x20; 0x40; 0x00; 0x00; 0x00; 0x00; 0x00; 0x00; 0x00; 0x00; 0x00];
  [0x00; 0x00; 0x00; 0x00; 0x9c; 0x00; 0x00; 0x00; 0x10; 0x00; 0x06; 0x00];
  [0x50; 0x20; 0x40; 0x00; 0x00; 0x00; 0x00; 0x00; 0x00; 0x00; 0x00; 0x00];
  [0x00; 0x00; 0x00; 0x00; 0xa1; 0x00; 0x00; 0x00; 0x12; 0x00; 0x01; 0x00];
  [0x40; 0x0d; 0x40; 0x00; 0x00; 0x00; 0x00; 0x00; 0x2b; 0x00; 0x00; 0x00];
  [0x00; 0x00; 0x00; 0x00; 0xa8; 0x00; 0x00; 0x00; 0x12; 0x00; 0x01; 0x00];
  [0xd0; 0x0e; 0x40; 0x00; 0x00; 0x00; 0x00; 0x00; 0x08; 0x00; 0x00; 0x00];
  [0x00; 0x00; 0x00; 0x00; 0xb1; 0x00; 0x00; 0x00; 0x12; 0x00; 0x01; 0x00];
  [0xf0; 0x0e; 0x40; 0x00; 0x00; 0x00; 0x00; 0x00; 0x08; 0x00; 0x00; 0x00];
  [0x00; 0x00; 0x00; 0x00; 0x00; 0x73; 0x68; 0x65; 0x6c; 0x6c; 0x2e; 0x63];
  [0x00; 0x63; 0x6d; 0x64; 0x5f; 0x77; 0x72; 0x69; 0x74; 0x65; 0x00; 0x72];
  [0x65; 0x73; 0x6f; 0x6c; 0x76; 0x65; 0x5f; 0x63; 0x6d; 0x64; 0x00; 0x61];
  [0x72; 0x67; 0x76; 0x2e; 0x32; 0x00; 0x65; 0x6e; 0x76; 0x70; 0x2e; 0x31];
  [0x00; 0x61; 0x72; 0x67; 0x76; 0x2e; 0x30; 0x00; 0x6c; 0x69; 0x62; 0x63];
  [0x2e; 0x63; 0x00; 0x5f; 0x5f; 0x47; 0x4e; 0x55; 0x5f; 0x45; 0x48; 0x5f];
  [0x46; 0x52; 0x41; 0x4d; 0x45; 0x5f; 0x48; 0x44; 0x52; 0x00; 0x73; 0x74];
  [0x72; 0x63; 0x70; 0x79; 0x00; 0x6d; 0x65; 0x6d; 0x63; 0x70; 0x79; 0x00];
  [0x73; 0x79; 0x73; 0x5f; 0x73; 0x70; 0x61; 0x77; 0x6e; 0x32; 0x00; 0x73];
  [0x79; 0x73; 0x5f; 0x64; 0x75; 0x70; 0x32; 0x00; 0x5f; 0x5f; 0x62; 0x73];
  [0x73; 0x5f; 0x73; 0x74; 0x61; 0x72; 0x74; 0x00; 0x6d; 0x65; 0x6d; 0x73];
  [0x65; 0x74; 0x00; 0x73; 0x74; 0x72; 0x63; 0x6d; 0x70; 0x00; 0x73; 0x79];
  [0x73; 0x5f; 0x67; 0x65; 0x74; 0x63; 0x77; 0x64; 0x00; 0x5f; 0x65; 0x64];
  [0x61; 0x74; 0x61; 0x00; 0x5f; 0x65; 0x6e; 0x64; 0x00; 0x73; 0x74; 0x72];
  [0x6c; 0x65; 0x6e; 0x00; 0x73; 0x79; 0x73; 0x5f; 0x70; 0x69; 0x70; 0x65];
  [0x00; 0x73; 0x79; 0x73; 0x5f; 0x63; 0x68; 0x64; 0x69; 0x72; 0x00; 0x00];
  [0x2e; 0x73; 0x79; 0x6d; 0x74; 0x61; 0x62; 0x00; 0x2e; 0x73; 0x74; 0x72];
  [0x74; 0x61; 0x62; 0x00; 0x2e; 0x73; 0x68; 0x73; 0x74; 0x72; 0x74; 0x61];
  [0x62; 0x00; 0x2e; 0x74; 0x65; 0x78; 0x74; 0x00; 0x2e; 0x6e; 0x6f; 0x74];
  [0x65; 0x2e; 0x67; 0x6e; 0x75; 0x2e; 0x70; 0x72; 0x6f; 0x70; 0x65; 0x72];
  [0x74; 0x79; 0x00; 0x2e; 0x72; 0x6f; 0x64; 0x61; 0x74; 0x61; 0x00; 0x2e];
  [0x65; 0x68; 0x5f; 0x66; 0x72; 0x61; 0x6d; 0x65; 0x5f; 0x68; 0x64; 0x72];
  [0x00; 0x2e; 0x65; 0x68; 0x5f; 0x66; 0x72; 0x61; 0x6d; 0x65; 0x00; 0x2e];
  [0x64; 0x61; 0x74; 0x61; 0x00; 0x2e; 0x63; 0x6f; 0x6d; 0x6d; 0x65; 0x6e];
  [0x74; 0x00; 0x00; 0x00; 0x00; 0x00; 0x00; 0x00; 0x00; 0x00; 0x00; 0x00];
  [0x00; 0x00; 0x00; 0x00; 0x00; 0x00; 0x00; 0x00; 0x00; 0x00; 0x00; 0x00];
  [0x00; 0x00; 0x00; 0x00; 0x00; 0x00; 0x00; 0x00; 0x00; 0x00; 0x00; 0x00];
  [0x00; 0x00; 0x00; 0x00; 0x00; 0x00; 0x00; 0x00; 0x00; 0x00; 0x00; 0x00];
  [0x00; 0x00; 0x00; 0x00; 0x00; 0x00; 0x00; 0x00; 0x00; 0x00; 0x00; 0x00];
  [0x00; 0x00; 0x00; 0x00; 0x00; 0x00; 0x00; 0x00; 0x1b; 0x00; 0x00; 0x00];
  [0x01; 0x00; 0x00; 0x00; 0x06; 0x00; 0x00; 0x00; 0x00; 0x00; 0x00; 0x00];
  [0xe0; 0x01; 0x40; 0x00; 0x00; 0x00; 0x00; 0x00; 0xe0; 0x01; 0x00; 0x00];
  [0x00; 0x00; 0x00; 0x00; 0x28; 0x0d; 0x00; 0x00; 0x00; 0x00; 0x00; 0x00];
  [0x00; 0x00; 0x00; 0x00; 0x00; 0x00; 0x00; 0x00; 0x20; 0x00; 0x00; 0x00];
  [0x00; 0x00; 0x00; 0x00; 0x00; 0x00; 0x00; 0x00; 0x00; 0x00; 0x00; 0x00];
  [0x21; 0x00; 0x00; 0x00; 0x07; 0x00; 0x00; 0x00; 0x02; 0x00; 0x00; 0x00];
  [0x00; 0x00; 0x00; 0x00; 0x00; 0x10; 0x40; 0x00; 0x00; 0x00; 0x00; 0x00];
  [0x00; 0x10; 0x00; 0x00; 0x00; 0x00; 0x00; 0x00; 0x30; 0x00; 0x00; 0x00];
  [0x00; 0x00; 0x00; 0x00; 0x00; 0x00; 0x00; 0x00; 0x00; 0x00; 0x00; 0x00];
  [0x08; 0x00; 0x00; 0x00; 0x00; 0x00; 0x00; 0x00; 0x00; 0x00; 0x00; 0x00];
  [0x00; 0x00; 0x00; 0x00; 0x34; 0x00; 0x00; 0x00; 0x01; 0x00; 0x00; 0x00];
  [0x32; 0x00; 0x00; 0x00; 0x00; 0x00; 0x00; 0x00; 0x30; 0x10; 0x40; 0x00];
  [0x00; 0x00; 0x00; 0x00; 0x30; 0x10; 0x00; 0x00; 0x00; 0x00; 0x00; 0x00];
  [0x77; 0x02; 0x00; 0x00; 0x00; 0x00; 0x00; 0x00; 0x00; 0x00; 0x00; 0x00];
  [0x00; 0x00; 0x00; 0x00; 0x08; 0x00; 0x00; 0x00; 0x00; 0x00; 0x00; 0x00];
  [0x01; 0x00; 0x00; 0x00; 0x00; 0x00; 0x00; 0x00; 0x3c; 0x00; 0x00; 0x00];
  [0x01; 0x00; 0x00; 0x00; 0x02; 0x00; 0x00; 0x00; 0x00; 0x00; 0x00; 0x00];
  [0xa8; 0x12; 0x40; 0x00; 0x00; 0x00; 0x00; 0x00; 0xa8; 0x12; 0x00; 0x00];
  [0x00; 0x00; 0x00; 0x00; 0x74; 0x00; 0x00; 0x00; 0x00; 0x00; 0x00; 0x00];
  [0x00; 0x00; 0x00; 0x00; 0x00; 0x00; 0x00; 0x00; 0x04; 0x00; 0x00; 0x00];
  [0x00; 0x00; 0x00; 0x00; 0x00; 0x00; 0x00; 0x00; 0x00; 0x00; 0x00; 0x00];
  [0x4a; 0x00; 0x00; 0x00; 0x01; 0x00; 0x00; 0x00; 0x02; 0x00; 0x00; 0x00];
  [0x00; 0x00; 0x00; 0x00; 0x20; 0x13; 0x40; 0x00; 0x00; 0x00; 0x00; 0x00];
  [0x20; 0x13; 0x00; 0x00; 0x00; 0x00; 0x00; 0x00; 0x88; 0x01; 0x00; 0x00];
  [0x00; 0x00; 0x00; 0x00; 0x00; 0x00; 0x00; 0x00; 0x00; 0x00; 0x00; 0x00];
  [0x08; 0x00; 0x00; 0x00; 0x00; 0x00; 0x00; 0x00; 0x00; 0x00; 0x00; 0x00];
  [0x00; 0x00; 0x00; 0x00; 0x54; 0x00; 0x00; 0x00; 0x01; 0x00; 0x00; 0x00];
  [0x03; 0x00; 0x00; 0x00; 0x00; 0x00; 0x00; 0x00; 0x00; 0x20; 0x40; 0x00];
  [0x00; 0x00; 0x00; 0x00; 0x00; 0x20; 0x00; 0x00; 0x00; 0x00; 0x00; 0x00];
  [0x50; 0x00; 0x00; 0x00; 0x00; 0x00; 0x00; 0x00; 0x00; 0x00; 0x00; 0x00];
  [0x00; 0x00; 0x00; 0x00; 0x10; 0x00; 0x00; 0x00; 0x00; 0x00; 0x00; 0x00];
  [0x00; 0x00; 0x00; 0x00; 0x00; 0x00; 0x00; 0x00; 0x5a; 0x00; 0x00; 0x00];
  [0x01; 0x00; 0x00; 0x00; 0x30; 0x00; 0x00; 0x00; 0x00; 0x00; 0x00; 0x00];
  [0x00; 0x00; 0x00; 0x00; 0x00; 0x00; 0x00; 0x00; 0x50; 0x20; 0x00; 0x00];
  [0x00; 0x00; 0x00; 0x00; 0x2e; 0x00; 0x00; 0x00; 0x00; 0x00; 0x00; 0x00];
  [0x00; 0x00; 0x00; 0x00; 0x00; 0x00; 0x00; 0x00; 0x01; 0x00; 0x00; 0x00];
  [0x00; 0x00; 0x00; 0x00; 0x01; 0x00; 0x00; 0x00; 0x00; 0x00; 0x00; 0x00];
  [0x01; 0x00; 0x00; 0x00; 0x02; 0x00; 0x00; 0x00; 0x00; 0x00; 0x00; 0x00];
  [0x00; 0x00; 0x00; 0x00; 0x00; 0x00; 0x00; 0x00; 0x00; 0x00; 0x00; 0x00];
  [0x80; 0x20; 0x00; 0x00; 0x00; 0x00; 0x00; 0x00; 0x40; 0x02; 0x00; 0x00];
  [0x00; 0x00; 0x00; 0x00; 0x09; 0x00; 0x00; 0x00; 0x0a; 0x00; 0x00; 0x00];
  [0x08; 0x00; 0x00; 0x00; 0x00; 0x00; 0x00; 0x00; 0x18; 0x00; 0x00; 0x00];
  [0x00; 0x00; 0x00; 0x00; 0x09; 0x00; 0x00; 0x00; 0x03; 0x00; 0x00; 0x00];
  [0x00; 0x00; 0x00; 0x00; 0x00; 0x00; 0x00; 0x00; 0x00; 0x00; 0x00; 0x00];
  [0x00; 0x00; 0x00; 0x00; 0xc0; 0x22; 0x00; 0x00; 0x00; 0x00; 0x00; 0x00];
  [0xbb; 0x00; 0x00; 0x00; 0x00; 0x00; 0x00; 0x00; 0x00; 0x00; 0x00; 0x00];
  [0x00; 0x00; 0x00; 0x00; 0x01; 0x00; 0x00; 0x00; 0x00; 0x00; 0x00; 0x00];
  [0x00; 0x00; 0x00; 0x00; 0x00; 0x00; 0x00; 0x00; 0x11; 0x00; 0x00; 0x00];
  [0x03; 0x00; 0x00; 0x00; 0x00; 0x00; 0x00; 0x00; 0x00; 0x00; 0x00; 0x00];
  [0x00; 0x00; 0x00; 0x00; 0x00; 0x00; 0x00; 0x00; 0x7b; 0x23; 0x00; 0x00];
  [0x00; 0x00; 0x00; 0x00; 0x63; 0x00; 0x00; 0x00; 0x00; 0x00; 0x00; 0x00];
  [0x00; 0x00; 0x00; 0x00; 0x00; 0x00; 0x00; 0x00; 0x01; 0x00; 0x00; 0x00];
  [0x00; 0x00; 0x00; 0x00; 0x00; 0x00; 0x00; 0x00; 0x00; 0x00; 0x00; 0x00]].
Definition user_image_shell_len : Z := 9888.

Definition user_image_init : list Z := concat [
  [0x7f; 0x45; 0x4c; 0x46; 0x02; 0x01; 0x01; 0x00; 0x00; 0x00; 0x00; 0x00];
  [0x00; 0x00; 0x00; 0x00; 0x02; 0x00; 0x3e; 0x00; 0x01; 0x00; 0x00; 0x00];
  [0xe0; 0x01; 0x40; 0x00; 0x00; 0x00; 0x00; 0x00; 0x40; 0x00; 0x00; 0x00];
  [0x00; 0x00; 0x00; 0x00; 0x58; 0x23; 0x00; 0x00; 0x00; 0x00; 0x00; 0x00];
  [0x00; 0x00; 0x00; 0x00; 0x40; 0x00; 0x38; 0x00; 0x07; 0x00; 0x40; 0x00];
  [0x0b; 0x00; 0x0a; 0x00; 0x01; 0x00; 0x00; 0x00; 0x05; 0x00; 0x00; 0x00];
  [0x00; 0x00; 0x00; 0x00; 0x00; 0x00; 0x00; 0x00; 0x00; 0x00; 0x40; 0x00];
  [0x00; 0x00; 0x00; 0x00; 0x00; 0x00; 0x40; 0x00; 0x00; 0x00; 0x00; 0x00];
  [0x88; 0x04; 0x00; 0x00; 0x00; 0x00; 0x00; 0x00; 0x88; 0x04; 0x00; 0x00];
  [0x00; 0x00; 0x00; 0x00; 0x00; 0x10; 0x00; 0x00; 0x00; 0x00; 0x00; 0x00];
  [0x01; 0x00; 0x00; 0x00; 0x04; 0x00; 0x00; 0x00; 0x00; 0x10; 0x00; 0x00];
  [0x00; 0x00; 0x00; 0x00; 0x00; 0x10; 0x40; 0x00; 0x00; 0x00; 0x00; 0x00];
  [0x00; 0x10; 0x40; 0x00; 0x00; 0x00; 0x00; 0x00; 0x20; 0x02; 0x00; 0x00];
  [0x00; 0x00; 0x00; 0x00; 0x20; 0x02; 0x00; 0x00; 0x00; 0x00; 0x00; 0x00];
  [0x00; 0x10; 0x00; 0x00; 0x00; 0x00; 0x00; 0x00; 0x01; 0x00; 0x00; 0x00];
  [0x06; 0x00; 0x00; 0x00; 0x00; 0x20; 0x00; 0x00; 0x00; 0x00; 0x00; 0x00];
  [0x00; 0x20; 0x40; 0x00; 0x00; 0x00; 0x00; 0x00; 0x00; 0x20; 0x40; 0x00];
  [0x00; 0x00; 0x00; 0x00; 0x30; 0x00; 0x00; 0x00; 0x00; 0x00; 0x00; 0x00];
  [0x30; 0x00; 0x00; 0x00; 0x00; 0x00; 0x00; 0x00; 0x00; 0x10; 0x00; 0x00];
  [0x00; 0x00; 0x00; 0x00; 0x04; 0x00; 0x00; 0x00; 0x04; 0x00; 0x00; 0x00];
  [0x00; 0x10; 0x00; 0x00; 0x00; 0x00; 0x00; 0x00; 0x00; 0x10; 0x40; 0x00];
  [0x00; 0x00; 0x00; 0x00; 0x00; 0x10; 0x40; 0x00; 0x00; 0x00; 0x00; 0x00];
  [0x30; 0x00; 0x00; 0x00; 0x00; 0x00; 0x00; 0x00; 0x30; 0x00; 0x00; 0x00];
  [0x00; 0x00; 0x00; 0x00; 0x08; 0x00; 0x00; 0x00; 0x00; 0x00; 0x00; 0x00];
  [0x53; 0xe5; 0x74; 0x64; 0x04; 0x00; 0x00; 0x00; 0x00; 0x10; 0x00; 0x00];
  [0x00; 0x00; 0x00; 0x00; 0x00; 0x10; 0x40; 0x00; 0x00; 0x00; 0x00; 0x00];
  [0x00; 0x10; 0x40; 0x00; 0x00; 0x00; 0x00; 0x00; 0x30; 0x00; 0x00; 0x00];
  [0x00; 0x00; 0x00; 0x00; 0x30; 0x00; 0x00; 0x00; 0x00; 0x00; 0x00; 0x00];
  [0x08; 0x00; 0x00; 0x00; 0x00; 0x00; 0x00; 0x00; 0x50; 0xe5; 0x74; 0x64];
  [0x04; 0x00; 0x00; 0x00; 0xb8; 0x10; 0x00; 0x00; 0x00; 0x00; 0x00; 0x00];
  [0xb8; 0x10; 0x40; 0x00; 0x00; 0x00; 0x00; 0x00; 0xb8; 0x10; 0x40; 0x00];
  [0x00; 0x00; 0x00; 0x00; 0x64; 0x00; 0x00; 0x00; 0x00; 0x00; 0x00; 0x00];
  [0x64; 0x00; 0x00; 0x00; 0x00; 0x00; 0x00; 0x00; 0x04; 0x00; 0x00; 0x00];
  [0x00; 0x00; 0x00; 0x00; 0x51; 0xe5; 0x74; 0x64; 0x06; 0x00; 0x00; 0x00];
  [0x00; 0x00; 0x00; 0x00; 0x00; 0x00; 0x00; 0x00; 0x00; 0x00; 0x00; 0x00];
  [0x00; 0x00; 0x00; 0x00; 0x00; 0x00; 0x00; 0x00; 0x00; 0x00; 0x00; 0x00];
  [0x00; 0x00; 0x00; 0x00; 0x00; 0x00; 0x00; 0x00; 0x00; 0x00; 0x00; 0x00];
  [0x00; 0x00; 0x00; 0x00; 0x10; 0x00; 0x00; 0x00; 0x00; 0x00; 0x00; 0x00];
  [0x00; 0x00; 0x00; 0x00; 0x00; 0x00; 0x00; 0x00; 0x00; 0x00; 0x00; 0x00];
  [0x00; 0x00; 0x00; 0x00; 0x00; 0x00; 0x00; 0x00; 0x00; 0x00; 0x00; 0x00];
  [0x53; 0xbf; 0x30; 0x10; 0x40; 0x00; 0x48; 0x83; 0xec; 0x10; 0xe8; 0xd1];
  [0x00; 0x00; 0x00; 0xbf; 0x01; 0x00; 0x00; 0x00; 0xbe; 0x30; 0x10; 0x40];
  [0x00; 0x48; 0x89; 0xc2; 0xb8; 0x04; 0x00; 0x00; 0x00; 0x0f; 0x05; 0xbf];
  [0x90; 0x10; 0x40; 0x00; 0xe8; 0xb3; 0x00; 0x00; 0x00; 0xbf; 0x01; 0x00];
  [0x00; 0x00; 0xbe; 0x90; 0x10; 0x40; 0x00; 0x48; 0x89; 0xc2; 0xb8; 0x04];
  [0x00; 0x00; 0x00; 0x0f; 0x05; 0x0f; 0x1f; 0x40; 0x00; 0x66; 0x66; 0x2e];
  [0x0f; 0x1f; 0x84; 0x00; 0x00; 0x00; 0x00; 0x00; 0x45; 0x31; 0xd2; 0xb8];
  [0x07; 0x00; 0x00; 0x00; 0xbf; 0x3e; 0x10; 0x40; 0x00; 0xbe; 0x20; 0x20];
  [0x40; 0x00; 0xba; 0x00; 0x20; 0x40; 0x00; 0x0f; 0x05; 0x48; 0x85; 0xc0];
  [0x79; 0x32; 0xbf; 0x49; 0x10; 0x40; 0x00; 0xe8; 0x68; 0x00; 0x00; 0x00];
  [0xbf; 0x01; 0x00; 0x00; 0x00; 0xbe; 0x49; 0x10; 0x40; 0x00; 0x48; 0x89];
  [0xc2; 0xb8; 0x04; 0x00; 0x00; 0x00; 0x0f; 0x05; 0x31; 0xff; 0xb8; 0x02];
  [0x00; 0x00; 0x00; 0x48; 0x89; 0xfe; 0x48; 0x89; 0xfa; 0x0f; 0x05; 0xeb];
  [0xb3; 0x0f; 0x1f; 0x00; 0x31; 0xf6; 0xb8; 0x0a; 0x00; 0x00; 0x00; 0x48];
  [0x8d; 0x7c; 0x24; 0x0c; 0xc7; 0x44; 0x24; 0x0c; 0x00; 0x00; 0x00; 0x00];
  [0x48; 0x89; 0xf2; 0x0f; 0x05; 0xbf; 0x5d; 0x10; 0x40; 0x00; 0xe8; 0x1d];
  [0x00; 0x00; 0x00; 0xbf; 0x01; 0x00; 0x00; 0x00; 0xbe; 0x5d; 0x10; 0x40];
  [0x00; 0x48; 0x89; 0xc2; 0xb8; 0x04; 0x00; 0x00; 0x00; 0x0f; 0x05; 0xe9];
  [0x74; 0xff; 0xff; 0xff; 0x0f; 0x1f; 0x40; 0x00; 0x31; 0xc0; 0x48; 0x85];
  [0xff; 0x75; 0x09; 0xc3; 0x0f; 0x1f; 0x84; 0x00; 0x00; 0x00; 0x00; 0x00];
  [0x80; 0x3f; 0x00; 0x74; 0xf2; 0x66; 0x66; 0x2e; 0x0f; 0x1f; 0x84; 0x00];
  [0x00; 0x00; 0x00; 0x00; 0x48; 0x83; 0xc0; 0x01; 0x80; 0x3c; 0x07; 0x00];
  [0x75; 0xf6; 0xc3; 0x0f; 0x1f; 0x44; 0x00; 0x00; 0x48; 0x85; 0xff; 0x74];
  [0x3b; 0x48; 0x85; 0xf6; 0x74; 0x36; 0x0f; 0xb6; 0x07; 0x84; 0xc0; 0x75];
  [0x1b; 0xeb; 0x4e; 0x0f; 0x1f; 0x44; 0x00; 0x00; 0x84; 0xd2; 0x74; 0x17];
  [0x0f; 0xb6; 0x47; 0x01; 0x48; 0x83; 0xc7; 0x01; 0x84; 0xc0; 0x74; 0x30];
  [0x48; 0x83; 0xc6; 0x01; 0x0f; 0xb6; 0x16; 0x38; 0xc2; 0x74; 0xe5; 0x29];
  [0xd0; 0xc3; 0x66; 0x2e; 0x0f; 0x1f; 0x84; 0x00; 0x00; 0x00; 0x00; 0x00];
  [0x31; 0xc0; 0x48; 0x39; 0xf7; 0x74; 0xee; 0x48; 0x83; 0xff; 0x01; 0x19];
  [0xc0; 0x83; 0xc8; 0x01; 0xc3; 0x0f; 0x1f; 0x80; 0x00; 0x00; 0x00; 0x00];
  [0x0f; 0xb6; 0x56; 0x01; 0x31; 0xc0; 0x29; 0xd0; 0xc3; 0x0f; 0xb6; 0x16];
  [0x31; 0xc0; 0x29; 0xd0; 0xc3; 0x0f; 0x1f; 0x80; 0x00; 0x00; 0x00; 0x00];
  [0x48; 0x85; 0xff; 0x74; 0x2f; 0x48; 0x85; 0xf6; 0x74; 0x2a; 0x0f; 0xb6];
  [0x06; 0x48; 0x89; 0xfa; 0x84; 0xc0; 0x74; 0x1d; 0x90; 0x66; 0x66; 0x2e];
  [0x0f; 0x1f; 0x84; 0x00; 0x00; 0x00; 0x00; 0x00; 0x48; 0x83; 0xc6; 0x01];
  [0x88; 0x02; 0x48; 0x83; 0xc2; 0x01; 0x0f; 0xb6; 0x06; 0x84; 0xc0; 0x75];
  [0xef; 0xc6; 0x02; 0x00; 0x48; 0x89; 0xf8; 0xc3; 0x0f; 0x1f; 0x84; 0x00];
  [0x00; 0x00; 0x00; 0x00; 0x48; 0x85; 0xf6; 0x48; 0x89; 0xd1; 0x0f; 0x94];
  [0xc0; 0x48; 0x85; 0xd2; 0x0f; 0x94; 0xc2; 0x08; 0xd0; 0x75; 0x1d; 0x48];
  [0x85; 0xff; 0x74; 0x18; 0x31; 0xc0; 0x66; 0x0f; 0x1f; 0x44; 0x00; 0x00];
  [0x0f; 0xb6; 0x14; 0x06; 0x88; 0x14; 0x07; 0x48; 0x83; 0xc0; 0x01; 0x48];
  [0x39; 0xc8; 0x72; 0xf0; 0x48; 0x89; 0xf8; 0xc3; 0x90; 0x66; 0x66; 0x2e];
  [0x0f; 0x1f; 0x84; 0x00; 0x00; 0x00; 0x00; 0x00; 0x48; 0x85; 0xff; 0x74];
  [0x4d; 0x48; 0x85; 0xd2; 0x74; 0x48; 0xb8; 0x01; 0x00; 0x00; 0x00; 0x40];
  [0x88; 0x37; 0x48; 0x8d; 0x4a; 0xff; 0x48; 0x39; 0xd0; 0x73; 0x37; 0x83];
  [0xe1; 0x01; 0x74; 0x20; 0x40; 0x88; 0x34; 0x07; 0xb8; 0x02; 0x00; 0x00];
  [0x00; 0x48; 0x39; 0xd0; 0x73; 0x24; 0x0f; 0x1f; 0x80; 0x00; 0x00; 0x00];
  [0x00; 0x66; 0x66; 0x2e; 0x0f; 0x1f; 0x84; 0x00; 0x00; 0x00; 0x00; 0x00];
  [0x40; 0x88; 0x34; 0x07; 0x40; 0x88; 0x74; 0x07; 0x01; 0x48; 0x83; 0xc0];
  [0x02; 0x48; 0x39; 0xd0; 0x72; 0xee; 0x48; 0x89; 0xf8; 0xc3; 0x66; 0x2e];
  [0x0f; 0x1f; 0x84; 0x00; 0x00; 0x00; 0x00; 0x00; 0x48; 0x63; 0xff; 0x48];
  [0x63; 0xf6; 0xb8; 0x0b; 0x00; 0x00; 0x00; 0x0f; 0x05; 0xc3; 0x66; 0x90];
  [0xb8; 0x0c; 0x00; 0x00; 0x00; 0x0f; 0x05; 0xc3; 0x0f; 0x1f; 0x84; 0x00];
  [0x00; 0x00; 0x00; 0x00; 0x49; 0x89; 0xca; 0xb8; 0x07; 0x00; 0x00; 0x00];
  [0x0f; 0x05; 0xc3; 0x0f; 0x1f; 0x44; 0x00; 0x00; 0xb8; 0x0d; 0x00; 0x00];
  [0x00; 0x0f; 0x05; 0xc3; 0x0f; 0x1f; 0x84; 0x00; 0x00; 0x00; 0x00; 0x00];
  [0xb8; 0x0e; 0x00; 0x00; 0x00; 0x0f; 0x05; 0xc3; 0x00; 0x00; 0x00; 0x00];
  [0x00; 0x00; 0x00; 0x00; 0x00; 0x00; 0x00; 0x00; 0x00; 0x00; 0x00; 0x00];
  [0x00; 0x00; 0x00; 0x00; 0x00; 0x00; 0x00; 0x00; 0x00; 0x00; 0x00; 0x00];
  [0x00; 0x00; 0x00; 0x00; 0x00; 0x00; 0x00; 0x00; 0x00; 0x00; 0x00; 0x00];
  [0x00; 0x00; 0x00; 0x00; 0x00; 0x00; 0x00; 0x00; 0x00; 0x00; 0x00; 0x00];
  [0x00; 0x00; 0x00; 0x00; 0x00; 0x00; 0x00; 0x00; 0x00; 0x00; 0x00; 0x00];
  [0x00; 0x00; 0x00; 0x00; 0x00; 0x00; 0x00; 0x00; 0x00; 0x00; 0x00; 0x00];
  [0x00; 0x00; 0x00; 0x00; 0x00; 0x00; 0x00; 0x00; 0x00; 0x00; 0x00; 0x00];
  [0x00; 0x00; 0x00; 0x00; 0x00; 0x00; 0x00; 0x00; 0x00; 0x00; 0x00; 0x00];
  [0x00; 0x00; 0x00; 0x00; 0x00; 0x00; 0x00; 0x00; 0x00; 0x00; 0x00; 0x00];
  [0x00; 0x00; 0x00; 0x00; 0x00; 0x00; 0x00; 0x00; 0x00; 0x00; 0x00; 0x00];
  [0x00; 0x00; 0x00; 0x00; 0x00; 0x00; 0x00; 0x00; 0x00; 0x00; 0x00; 0x00];
  [0x00; 0x00; 0x00; 0x00; 0x00; 0x00; 0x00; 0x00; 0x00; 0x00; 0x00; 0x00];
  [0x00; 0x00; 0x00; 0x00; 0x00; 0x00; 0x00; 0x00; 0x00; 0x00; 0x00; 0x00];
  [0x00; 0x00; 0x00; 0x00; 0x00; 0x00; 0x00; 0x00; 0x00; 0x00; 0x00; 0x00];
  [0x00; 0x00; 0x00; 0x00; 0x00; 0x00; 0x00; 0x00; 0x00; 0x00; 0x00; 0x00];
  [0x00; 0x00; 0x00; 0x00; 0x00; 0x00; 0x00; 0x00; 0x00; 0x00; 0x00; 0x00];
  [0x00; 0x00; 0x00; 0x00; 0x00; 0x00; 0x00; 0x00; 0x00; 0x00; 0x00; 0x00];
  [0x00; 0x00; 0x00; 0x00; 0x00; 0x00; 0x00; 0x00; 0x00; 0x00; 0x00; 0x00];
  [0x00; 0x00; 0x00; 0x00; 0x00; 0x00; 0x00; 0x00; 0x00; 0x00; 0x00; 0x00];
  [0x00; 0x00; 0x00; 0x00; 0x00; 0x00; 0x00; 0x00; 0x00; 0x00; 0x00; 0x00];
  [0x00; 0x00; 0x00; 0x00; 0x00; 0x00; 0x00; 0x00; 0x00; 0x00; 0x00; 0x00];
  [0x00; 0x00; 0x00; 0x00; 0x00; 0x00; 0x00; 0x00; 0x00; 0x00; 0x00; 0x00];
  [0x00; 0x00; 0x00; 0x00; 0x00; 0x00; 0x00; 0x00; 0x00; 0x00; 0x00; 0x00];
  [0x00; 0x00; 0x00; 0x00; 0x00; 0x00; 0x00; 0x00; 0x00; 0x00; 0x00; 0x00];
  [0x00; 0x00; 0x00; 0x00; 0x00; 0x00; 0x00; 0x00; 0x00; 0x00; 0x00; 0x00];
  [0x00; 0x00; 0x00; 0x00; 0x00; 0x00; 0x00; 0x00; 0x00; 0x00; 0x00; 0x00];
  [0x00; 0x00; 0x00; 0x00; 0x00; 0x00; 0x00; 0x00; 0x00; 0x00; 0x00; 0x00];
  [0x00; 0x00; 0x00; 0x00; 0x00; 0x00; 0x00; 0x00; 0x00; 0x00; 0x00; 0x00];
  [0x00; 0x00; 0x00; 0x00; 0x00; 0x00; 0x00; 0x00; 0x00; 0x00; 0x00; 0x00];
  [0x00; 0x00; 0x00; 0x00; 0x00; 0x00; 0x00; 0x00; 0x00; 0x00; 0x00; 0x00];
  [0x00; 0x00; 0x00; 0x00; 0x00; 0x00; 0x00; 0x00; 0x00; 0x00; 0x00; 0x00];
  [0x00; 0x00; 0x00; 0x00; 0x00; 0x00; 0x00; 0x00; 0x00; 0x00; 0x00; 0x00];
  [0x00; 0x00; 0x00; 0x00; 0x00; 0x00; 0x00; 0x00; 0x00; 0x00; 0x00; 0x00];
  [0x00; 0x00; 0x00; 0x00; 0x00; 0x00; 0x00; 0x00; 0x00; 0x00; 0x00; 0x00];
  [0x00; 0x00; 0x00; 0x00; 0x00; 0x00; 0x00; 0x00; 0x00; 0x00; 0x00; 0x00];
  [0x00; 0x00; 0x00; 0x00; 0x00; 0x00; 0x00; 0x00; 0x00; 0x00; 0x00; 0x00];
  [0x00; 0x00; 0x00; 0x00; 0x00; 0x00; 0x00; 0x00; 0x00; 0x00; 0x00; 0x00];
  [0x00; 0x00; 0x00; 0x00; 0x00; 0x00; 0x00; 0x00; 0x00; 0x00; 0x00; 0x00];
  [0x00; 0x00; 0x00; 0x00; 0x00; 0x00; 0x00; 0x00; 0x00; 0x00; 0x00; 0x00];
  [0x00; 0x00; 0x00; 0x00; 0x00; 0x00; 0x00; 0x00; 0x00; 0x00; 0x00; 0x00];
  [0x00; 0x00; 0x00; 0x00; 0x00; 0x00; 0x00; 0x00; 0x00; 0x00; 0x00; 0x00];
  [0x00; 0x00; 0x00; 0x00; 0x00; 0x00; 0x00; 0x00; 0x00; 0x00; 0x00; 0x00];
  [0x00; 0x00; 0x00; 0x00; 0x00; 0x00; 0x00; 0x00; 0x00; 0x00; 0x00; 0x00];
  [0x00; 0x00; 0x00; 0x00; 0x00; 0x00; 0x00; 0x00; 0x00; 0x00; 0x00; 0x00];
  [0x00; 0x00; 0x00; 0x00; 0x00; 0x00; 0x00; 0x00; 0x00; 0x00; 0x00; 0x00];
  [0x00; 0x00; 0x00; 0x00; 0x00; 0x00; 0x00; 0x00; 0x00; 0x00; 0x00; 0x00];
  [0x00; 0x00; 0x00; 0x00; 0x00; 0x00; 0x00; 0x00; 0x00; 0x00; 0x00; 0x00];
  [0x00; 0x00; 0x00; 0x00; 0x00; 0x00; 0x00; 0x00; 0x00; 0x00; 0x00; 0x00];
  [0x00; 0x00; 0x00; 0x00; 0x00; 0x00; 0x00; 0x00; 0x00; 0x00; 0x00; 0x00];
  [0x00; 0x00; 0x00; 0x00; 0x00; 0x00; 0x00; 0x00; 0x00; 0x00; 0x00; 0x00];
  [0x00; 0x00; 0x00; 0x00; 0x00; 0x00; 0x00; 0x00; 0x00; 0x00; 0x00; 0x00];
  [0x00; 0x00; 0x00; 0x00; 0x00; 0x00; 0x00; 0x00; 0x00; 0x00; 0x00; 0x00];
  [0x00; 0x00; 0x00; 0x00; 0x00; 0x00; 0x00; 0x00; 0x00; 0x00; 0x00; 0x00];
  [0x00; 0x00; 0x00; 0x00; 0x00; 0x00; 0x00; 0x00; 0x00; 0x00; 0x00; 0x00];
  [0x00; 0x00; 0x00; 0x00; 0x00; 0x00; 0x00; 0x00; 0x00; 0x00; 0x00; 0x00];
  [0x00; 0x00; 0x00; 0x00; 0x00; 0x00; 0x00; 0x00; 0x00; 0x00; 0x00; 0x00];
  [0x00; 0x00; 0x00; 0x00; 0x00; 0x00; 0x00; 0x00; 0x00; 0x00; 0x00; 0x00];
  [0x00; 0x00; 0x00; 0x00; 0x00; 0x00; 0x00; 0x00; 0x00; 0x00; 0x00; 0x00];
  [0x00; 0x00; 0x00; 0x00; 0x00; 0x00; 0x00; 0x00; 0x00; 0x00; 0x00; 0x00];
  [0x00; 0x00; 0x00; 0x00; 0x00; 0x00; 0x00; 0x00; 0x00; 0x00; 0x00; 0x00];
  [0x00; 0x00; 0x00; 0x00; 0x00; 0x00; 0x00; 0x00; 0x00; 0x00; 0x00; 0x00];
  [0x00; 0x00; 0x00; 0x00; 0x00; 0x00; 0x00; 0x00; 0x00; 0x00; 0x00; 0x00];
  [0x00; 0x00; 0x00; 0x00; 0x00; 0x00; 0x00; 0x00; 0x00; 0x00; 0x00; 0x00];
  [0x00; 0x00; 0x00; 0x00; 0x00; 0x00; 0x00; 0x00; 0x00; 0x00; 0x00; 0x00];
  [0x00; 0x00; 0x00; 0x00; 0x00; 0x00; 0x00; 0x00; 0x00; 0x00; 0x00; 0x00];
  [0x00; 0x00; 0x00; 0x00; 0x00; 0x00; 0x00; 0x00; 0x00; 0x00; 0x00; 0x00];
  [0x00; 0x00; 0x00; 0x00; 0x00; 0x00; 0x00; 0x00; 0x00; 0x00; 0x00; 0x00];
  [0x00; 0x00; 0x00; 0x00; 0x00; 0x00; 0x00; 0x00; 0x00; 0x00; 0x00; 0x00];
  [0x00; 0x00; 0x00; 0x00; 0x00; 0x00; 0x00; 0x00; 0x00; 0x00; 0x00; 0x00];
  [0x00; 0x00; 0x00; 0x00; 0x00; 0x00; 0x00; 0x00; 0x00; 0x00; 0x00; 0x00];
  [0x00; 0x00; 0x00; 0x00; 0x00; 0x00; 0x00; 0x00; 0x00; 0x00; 0x00; 0x00];
  [0x00; 0x00; 0x00; 0x00; 0x00; 0x00; 0x00; 0x00; 0x00; 0x00; 0x00; 0x00];
  [0x00; 0x00; 0x00; 0x00; 0x00; 0x00; 0x00; 0x00; 0x00; 0x00; 0x00; 0x00];
  [0x00; 0x00; 0x00; 0x00; 0x00; 0x00; 0x00; 0x00; 0x00; 0x00; 0x00; 0x00];
  [0x00; 0x00; 0x00; 0x00; 0x00; 0x00; 0x00; 0x00; 0x00; 0x00; 0x00; 0x00];
  [0x00; 0x00; 0x00; 0x00; 0x00; 0x00; 0x00; 0x00; 0x00; 0x00; 0x00; 0x00];
  [0x00; 0x00; 0x00; 0x00; 0x00; 0x00; 0x00; 0x00; 0x00; 0x00; 0x00; 0x00];
  [0x00; 0x00; 0x00; 0x00; 0x00; 0x00; 0x00; 0x00; 0x00; 0x00; 0x00; 0x00];
  [0x00; 0x00; 0x00; 0x00; 0x00; 0x00; 0x00; 0x00; 0x00; 0x00; 0x00; 0x00];
  [0x00; 0x00; 0x00; 0x00; 0x00; 0x00; 0x00; 0x00; 0x00; 0x00; 0x00; 0x00];
  [0x00; 0x00; 0x00; 0x00; 0x00; 0x00; 0x00; 0x00; 0x00; 0x00; 0x00; 0x00];
  [0x00; 0x00; 0x00; 0x00; 0x00; 0x00; 0x00; 0x00; 0x00; 0x00; 0x00; 0x00];
  [0x00; 0x00; 0x00; 0x00; 0x00; 0x00; 0x00; 0x00; 0x00; 0x00; 0x00; 0x00];
  [0x00; 0x00; 0x00; 0x00; 0x00; 0x00; 0x00; 0x00; 0x00; 0x00; 0x00; 0x00];
  [0x00; 0x00; 0x00; 0x00; 0x00; 0x00; 0x00; 0x00; 0x00; 0x00; 0x00; 0x00];
  [0x00; 0x00; 0x00; 0x00; 0x00; 0x00; 0x00; 0x00; 0x00; 0x00; 0x00; 0x00];
  [0x00; 0x00; 0x00; 0x00; 0x00; 0x00; 0x00; 0x00; 0x00; 0x00; 0x00; 0x00];
  [0x00; 0x00; 0x00; 0x00; 0x00; 0x00; 0x00; 0x00; 0x00; 0x00; 0x00; 0x00];
  [0x00; 0x00; 0x00; 0x00; 0x00; 0x00; 0x00; 0x00; 0x00; 0x00; 0x00; 0x00];
  [0x00; 0x00; 0x00; 0x00; 0x00; 0x00; 0x00; 0x00; 0x00; 0x00; 0x00; 0x00];
  [0x00; 0x00; 0x00; 0x00; 0x00; 0x00; 0x00; 0x00; 0x00; 0x00; 0x00; 0x00];
  [0x00; 0x00; 0x00; 0x00; 0x00; 0x00; 0x00; 0x00; 0x00; 0x00; 0x00; 0x00];
  [0x00; 0x00; 0x00; 0x00; 0x00; 0x00; 0x00; 0x00; 0x00; 0x00; 0x00; 0x00];
  [0x00; 0x00; 0x00; 0x00; 0x00; 0x00; 0x00; 0x00; 0x00; 0x00; 0x00; 0x00];
  [0x00; 0x00; 0x00; 0x00; 0x00; 0x00; 0x00; 0x00; 0x00; 0x00; 0x00; 0x00];
  [0x00; 0x00; 0x00; 0x00; 0x00; 0x00; 0x00; 0x00; 0x00; 0x00; 0x00; 0x00];
  [0x00; 0x00; 0x00; 0x00; 0x00; 0x00; 0x00; 0x00; 0x00; 0x00; 0x00; 0x00];
  [0x00; 0x00; 0x00; 0x00; 0x00; 0x00; 0x00; 0x00; 0x00; 0x00; 0x00; 0x00];
  [0x00; 0x00; 0x00; 0x00; 0x00; 0x00; 0x00; 0x00; 0x00; 0x00; 0x00; 0x00];
  [0x00; 0x00; 0x00; 0x00; 0x00; 0x00; 0x00; 0x00; 0x00; 0x00; 0x00; 0x00];
  [0x00; 0x00; 0x00; 0x00; 0x00; 0x00; 0x00; 0x00; 0x00; 0x00; 0x00; 0x00];
  [0x00; 0x00; 0x00; 0x00; 0x00; 0x00; 0x00; 0x00; 0x00; 0x00; 0x00; 0x00];
  [0x00; 0x00; 0x00; 0x00; 0x00; 0x00; 0x00; 0x00; 0x00; 0x00; 0x00; 0x00];
  [0x00; 0x00; 0x00; 0x00; 0x00; 0x00; 0x00; 0x00; 0x00; 0x00; 0x00; 0x00];
  [0x00; 0x00; 0x00; 0x00; 0x00; 0x00; 0x00; 0x00; 0x00; 0x00; 0x00; 0x00];
  [0x00; 0x00; 0x00; 0x00; 0x00; 0x00; 0x00; 0x00; 0x00; 0x00; 0x00; 0x00];
  [0x00; 0x00; 0x00; 0x00; 0x00; 0x00; 0x00; 0x00; 0x00; 0x00; 0x00; 0x00];
  [0x00; 0x00; 0x00; 0x00; 0x00; 0x00; 0x00; 0x00; 0x00; 0x00; 0x00; 0x00];
  [0x00; 0x00; 0x00; 0x00; 0x00; 0x00; 0x00; 0x00; 0x00; 0x00; 0x00; 0x00];
  [0x00; 0x00; 0x00; 0x00; 0x00; 0x00; 0x00; 0x00; 0x00; 0x00; 0x00; 0x00];
  [0x00; 0x00; 0x00; 0x00; 0x00; 0x00; 0x00; 0x00; 0x00; 0x00; 0x00; 0x00];
  [0x00; 0x00; 0x00; 0x00; 0x00; 0x00; 0x00; 0x00; 0x00; 0x00; 0x00; 0x00];
  [0x00; 0x00; 0x00; 0x00; 0x00; 0x00; 0x00; 0x00; 0x00; 0x00; 0x00; 0x00];
  [0x00; 0x00; 0x00; 0x00; 0x00; 0x00; 0x00; 0x00; 0x00; 0x00; 0x00; 0x00];
  [0x00; 0x00; 0x00; 0x00; 0x00; 0x00; 0x00; 0x00; 0x00; 0x00; 0x00; 0x00];
  [0x00; 0x00; 0x00; 0x00; 0x00; 0x00; 0x00; 0x00; 0x00; 0x00; 0x00; 0x00];
  [0x00; 0x00; 0x00; 0x00; 0x00; 0x00; 0x00; 0x00; 0x00; 0x00; 0x00; 0x00];
  [0x00; 0x00; 0x00; 0x00; 0x00; 0x00; 0x00; 0x00; 0x00; 0x00; 0x00; 0x00];
  [0x00; 0x00; 0x00; 0x00; 0x00; 0x00; 0x00; 0x00; 0x00; 0x00; 0x00; 0x00];
  [0x00; 0x00; 0x00; 0x00; 0x00; 0x00; 0x00; 0x00; 0x00; 0x00; 0x00; 0x00];
  [0x00; 0x00; 0x00; 0x00; 0x00; 0x00; 0x00; 0x00; 0x00; 0x00; 0x00; 0x00];
  [0x00; 0x00; 0x00; 0x00; 0x00; 0x00; 0x00; 0x00; 0x00; 0x00; 0x00; 0x00];
  [0x00; 0x00; 0x00; 0x00; 0x00; 0x00; 0x00; 0x00; 0x00; 0x00; 0x00; 0x00];
  [0x00; 0x00; 0x00; 0x00; 0x00; 0x00; 0x00; 0x00; 0x00; 0x00; 0x00; 0x00];
  [0x00; 0x00; 0x00; 0x00; 0x00; 0x00; 0x00; 0x00; 0x00; 0x00; 0x00; 0x00];
  [0x00; 0x00; 0x00; 0x00; 0x00; 0x00; 0x00; 0x00; 0x00; 0x00; 0x00; 0x00];
  [0x00; 0x00; 0x00; 0x00; 0x00; 0x00; 0x00; 0x00; 0x00; 0x00; 0x00; 0x00];
  [0x00; 0x00; 0x00; 0x00; 0x00; 0x00; 0x00; 0x00; 0x00; 0x00; 0x00; 0x00];
  [0x00; 0x00; 0x00; 0x00; 0x00; 0x00; 0x00; 0x00; 0x00; 0x00; 0x00; 0x00];
  [0x00; 0x00; 0x00; 0x00; 0x00; 0x00; 0x00; 0x00; 0x00; 0x00; 0x00; 0x00];
  [0x00; 0x00; 0x00; 0x00; 0x00; 0x00; 0x00; 0x00; 0x00; 0x00; 0x00; 0x00];
  [0x00; 0x00; 0x00; 0x00; 0x00; 0x00; 0x00; 0x00; 0x00; 0x00; 0x00; 0x00];
  [0x00; 0x00; 0x00; 0x00; 0x00; 0x00; 0x00; 0x00; 0x00; 0x00; 0x00; 0x00];
  [0x00; 0x00; 0x00; 0x00; 0x00; 0x00; 0x00; 0x00; 0x00; 0x00; 0x00; 0x00];
  [0x00; 0x00; 0x00; 0x00; 0x00; 0x00; 0x00; 0x00; 0x00; 0x00; 0x00; 0x00];
  [0x00; 0x00; 0x00; 0x00; 0x00; 0x00; 0x00; 0x00; 0x00; 0x00; 0x00; 0x00];
  [0x00; 0x00; 0x00; 0x00; 0x00; 0x00; 0x00; 0x00; 0x00; 0x00; 0x00; 0x00];
  [0x00; 0x00; 0x00; 0x00; 0x00; 0x00; 0x00; 0x00; 0x00; 0x00; 0x00; 0x00];
  [0x00; 0x00; 0x00; 0x00; 0x00; 0x00; 0x00; 0x00; 0x00; 0x00; 0x00; 0x00];
  [0x00; 0x00; 0x00; 0x00; 0x00; 0x00; 0x00; 0x00; 0x00; 0x00; 0x00; 0x00];
  [0x00; 0x00; 0x00; 0x00; 0x00; 0x00; 0x00; 0x00; 0x00; 0x00; 0x00; 0x00];
  [0x00; 0x00; 0x00; 0x00; 0x00; 0x00; 0x00; 0x00; 0x00; 0x00; 0x00; 0x00];
  [0x00; 0x00; 0x00; 0x00; 0x00; 0x00; 0x00; 0x00; 0x00; 0x00; 0x00; 0x00];
  [0x00; 0x00; 0x00; 0x00; 0x00; 0x00; 0x00; 0x00; 0x00; 0x00; 0x00; 0x00];
  [0x00; 0x00; 0x00; 0x00; 0x00; 0x00; 0x00; 0x00; 0x00; 0x00; 0x00; 0x00];
  [0x00; 0x00; 0x00; 0x00; 0x00; 0x00; 0x00; 0x00; 0x00; 0x00; 0x00; 0x00];
  [0x00; 0x00; 0x00; 0x00; 0x00; 0x00; 0x00; 0x00; 0x00; 0x00; 0x00; 0x00];
  [0x00; 0x00; 0x00; 0x00; 0x00; 0x00; 0x00; 0x00; 0x00; 0x00; 0x00; 0x00];
  [0x00; 0x00; 0x00; 0x00; 0x00; 0x00; 0x00; 0x00; 0x00; 0x00; 0x00; 0x00];
  [0x00; 0x00; 0x00; 0x00; 0x00; 0x00; 0x00; 0x00; 0x00; 0x00; 0x00; 0x00];
  [0x00; 0x00; 0x00; 0x00; 0x00; 0x00; 0x00; 0x00; 0x00; 0x00; 0x00; 0x00];
  [0x00; 0x00; 0x00; 0x00; 0x00; 0x00; 0x00; 0x00; 0x00; 0x00; 0x00; 0x00];
  [0x00; 0x00; 0x00; 0x00; 0x00; 0x00; 0x00; 0x00; 0x00; 0x00; 0x00; 0x00];
  [0x00; 0x00; 0x00; 0x00; 0x00; 0x00; 0x00; 0x00; 0x00; 0x00; 0x00; 0x00];
  [0x00; 0x00; 0x00; 0x00; 0x00; 0x00; 0x00; 0x00; 0x00; 0x00; 0x00; 0x00];
  [0x00; 0x00; 0x00; 0x00; 0x00; 0x00; 0x00; 0x00; 0x00; 0x00; 0x00; 0x00];
  [0x00; 0x00; 0x00; 0x00; 0x00; 0x00; 0x00; 0x00; 0x00; 0x00; 0x00; 0x00];
  [0x00; 0x00; 0x00; 0x00; 0x00; 0x00; 0x00; 0x00; 0x00; 0x00; 0x00; 0x00];
  [0x00; 0x00; 0x00; 0x00; 0x00; 0x00; 0x00; 0x00; 0x00; 0x00; 0x00; 0x00];
  [0x00; 0x00; 0x00; 0x00; 0x00; 0x00; 0x00; 0x00; 0x00; 0x00; 0x00; 0x00];
  [0x00; 0x00; 0x00; 0x00; 0x00; 0x00; 0x00; 0x00; 0x00; 0x00; 0x00; 0x00];
  [0x00; 0x00; 0x00; 0x00; 0x00; 0x00; 0x00; 0x00; 0x00; 0x00; 0x00; 0x00];
  [0x00; 0x00; 0x00; 0x00; 0x00; 0x00; 0x00; 0x00; 0x00; 0x00; 0x00; 0x00];
  [0x00; 0x00; 0x00; 0x00; 0x00; 0x00; 0x00; 0x00; 0x00; 0x00; 0x00; 0x00];
  [0x00; 0x00; 0x00; 0x00; 0x00; 0x00; 0x00; 0x00; 0x00; 0x00; 0x00; 0x00];
  [0x00; 0x00; 0x00; 0x00; 0x00; 0x00; 0x00; 0x00; 0x00; 0x00; 0x00; 0x00];
  [0x00; 0x00; 0x00; 0x00; 0x00; 0x00; 0x00; 0x00; 0x00; 0x00; 0x00; 0x00];
  [0x00; 0x00; 0x00; 0x00; 0x00; 0x00; 0x00; 0x00; 0x00; 0x00; 0x00; 0x00];
  [0x00; 0x00; 0x00; 0x00; 0x00; 0x00; 0x00; 0x00; 0x00; 0x00; 0x00; 0x00];
  [0x00; 0x00; 0x00; 0x00; 0x00; 0x00; 0x00; 0x00; 0x00; 0x00; 0x00; 0x00];
  [0x00; 0x00; 0x00; 0x00; 0x00; 0x00; 0x00; 0x00; 0x00; 0x00; 0x00; 0x00];
  [0x00; 0x00; 0x00; 0x00; 0x00; 0x00; 0x00; 0x00; 0x00; 0x00; 0x00; 0x00];
  [0x00; 0x00; 0x00; 0x00; 0x00; 0x00; 0x00; 0x00; 0x00; 0x00; 0x00; 0x00];
  [0x00; 0x00; 0x00; 0x00; 0x00; 0x00; 0x00; 0x00; 0x00; 0x00; 0x00; 0x00];
  [0x00; 0x00; 0x00; 0x00; 0x00; 0x00; 0x00; 0x00; 0x00; 0x00; 0x00; 0x00];
  [0x00; 0x00; 0x00; 0x00; 0x00; 0x00; 0x00; 0x00; 0x00; 0x00; 0x00; 0x00];
  [0x00; 0x00; 0x00; 0x00; 0x00; 0x00; 0x00; 0x00; 0x00; 0x00; 0x00; 0x00];
  [0x00; 0x00; 0x00; 0x00; 0x00; 0x00; 0x00; 0x00; 0x00; 0x00; 0x00; 0x00];
  [0x00; 0x00; 0x00; 0x00; 0x00; 0x00; 0x00; 0x00; 0x00; 0x00; 0x00; 0x00];
  [0x00; 0x00; 0x00; 0x00; 0x00; 0x00; 0x00; 0x00; 0x00; 0x00; 0x00; 0x00];
  [0x00; 0x00; 0x00; 0x00; 0x00; 0x00; 0x00; 0x00; 0x00; 0x00; 0x00; 0x00];
  [0x00; 0x00; 0x00; 0x00; 0x00; 0x00; 0x00; 0x00; 0x00; 0x00; 0x00; 0x00];
  [0x00; 0x00; 0x00; 0x00; 0x00; 0x00; 0x00; 0x00; 0x00; 0x00; 0x00; 0x00];
  [0x00; 0x00; 0x00; 0x00; 0x00; 0x00; 0x00; 0x00; 0x00; 0x00; 0x00; 0x00];
  [0x00; 0x00; 0x00; 0x00; 0x00; 0x00; 0x00; 0x00; 0x00; 0x00; 0x00; 0x00];
  [0x00; 0x00; 0x00; 0x00; 0x00; 0x00; 0x00; 0x00; 0x00; 0x00; 0x00; 0x00];
  [0x00; 0x00; 0x00; 0x00; 0x00; 0x00; 0x00; 0x00; 0x00; 0x00; 0x00; 0x00];
  [0x00; 0x00; 0x00; 0x00; 0x00; 0x00; 0x00; 0x00; 0x00; 0x00; 0x00; 0x00];
  [0x00; 0x00; 0x00; 0x00; 0x00; 0x00; 0x00; 0x00; 0x00; 0x00; 0x00; 0x00];
  [0x00; 0x00; 0x00; 0x00; 0x00; 0x00; 0x00; 0x00; 0x00; 0x00; 0x00; 0x00];
  [0x00; 0x00; 0x00; 0x00; 0x00; 0x00; 0x00; 0x00; 0x00; 0x00; 0x00; 0x00];
  [0x00; 0x00; 0x00; 0x00; 0x00; 0x00; 0x00; 0x00; 0x00; 0x00; 0x00; 0x00];
  [0x00; 0x00; 0x00; 0x00; 0x00; 0x00; 0x00; 0x00; 0x00; 0x00; 0x00; 0x00];
  [0x00; 0x00; 0x00; 0x00; 0x00; 0x00; 0x00; 0x00; 0x00; 0x00; 0x00; 0x00];
  [0x00; 0x00; 0x00; 0x00; 0x00; 0x00; 0x00; 0x00; 0x00; 0x00; 0x00; 0x00];
  [0x00; 0x00; 0x00; 0x00; 0x00; 0x00; 0x00; 0x00; 0x00; 0x00; 0x00; 0x00];
  [0x00; 0x00; 0x00; 0x00; 0x00; 0x00; 0x00; 0x00; 0x00; 0x00; 0x00; 0x00];
  [0x00; 0x00; 0x00; 0x00; 0x00; 0x00; 0x00; 0x00; 0x00; 0x00; 0x00; 0x00];
  [0x00; 0x00; 0x00; 0x00; 0x00; 0x00; 0x00; 0x00; 0x00; 0x00; 0x00; 0x00];
  [0x00; 0x00; 0x00; 0x00; 0x00; 0x00; 0x00; 0x00; 0x00; 0x00; 0x00; 0x00];
  [0x00; 0x00; 0x00; 0x00; 0x00; 0x00; 0x00; 0x00; 0x00; 0x00; 0x00; 0x00];
  [0x00; 0x00; 0x00; 0x00; 0x00; 0x00; 0x00; 0x00; 0x00; 0x00; 0x00; 0x00];
  [0x00; 0x00; 0x00; 0x00; 0x00; 0x00; 0x00; 0x00; 0x00; 0x00; 0x00; 0x00];
  [0x00; 0x00; 0x00; 0x00; 0x00; 0x00; 0x00; 0x00; 0x00; 0x00; 0x00; 0x00];
  [0x00; 0x00; 0x00; 0x00; 0x00; 0x00; 0x00; 0x00; 0x00; 0x00; 0x00; 0x00];
  [0x00; 0x00; 0x00; 0x00; 0x00; 0x00; 0x00; 0x00; 0x00; 0x00; 0x00; 0x00];
  [0x00; 0x00; 0x00; 0x00; 0x00; 0x00; 0x00; 0x00; 0x00; 0x00; 0x00; 0x00];
  [0x00; 0x00; 0x00; 0x00; 0x00; 0x00; 0x00; 0x00; 0x00; 0x00; 0x00; 0x00];
  [0x00; 0x00; 0x00; 0x00; 0x00; 0x00; 0x00; 0x00; 0x00; 0x00; 0x00; 0x00];
  [0x00; 0x00; 0x00; 0x00; 0x00; 0x00; 0x00; 0x00; 0x00; 0x00; 0x00; 0x00];
  [0x00; 0x00; 0x00; 0x00; 0x00; 0x00; 0x00; 0x00; 0x00; 0x00; 0x00; 0x00];
  [0x00; 0x00; 0x00; 0x00; 0x00; 0x00; 0x00; 0x00; 0x00; 0x00; 0x00; 0x00];
  [0x00; 0x00; 0x00; 0x00; 0x00; 0x00; 0x00; 0x00; 0x00; 0x00; 0x00; 0x00];
  [0x00; 0x00; 0x00; 0x00; 0x00; 0x00; 0x00; 0x00; 0x00; 0x00; 0x00; 0x00];
  [0x00; 0x00; 0x00; 0x00; 0x00; 0x00; 0x00; 0x00; 0x00; 0x00; 0x00; 0x00];
  [0x00; 0x00; 0x00; 0x00; 0x00; 0x00; 0x00; 0x00; 0x00; 0x00; 0x00; 0x00];
  [0x00; 0x00; 0x00; 0x00; 0x00; 0x00; 0x00; 0x00; 0x00; 0x00; 0x00; 0x00];
  [0x00; 0x00; 0x00; 0x00; 0x00; 0x00; 0x00; 0x00; 0x00; 0x00; 0x00; 0x00];
  [0x00; 0x00; 0x00; 0x00; 0x00; 0x00; 0x00; 0x00; 0x00; 0x00; 0x00; 0x00];
  [0x00; 0x00; 0x00; 0x00; 0x00; 0x00; 0x00; 0x00; 0x00; 0x00; 0x00; 0x00];
  [0x00; 0x00; 0x00; 0x00; 0x00; 0x00; 0x00; 0x00; 0x00; 0x00; 0x00; 0x00];
  [0x00; 0x00; 0x00; 0x00; 0x00; 0x00; 0x00; 0x00; 0x00; 0x00; 0x00; 0x00];
  [0x00; 0x00; 0x00; 0x00; 0x00; 0x00; 0x00; 0x00; 0x00; 0x00; 0x00; 0x00];
  [0x00; 0x00; 0x00; 0x00; 0x00; 0x00; 0x00; 0x00; 0x00; 0x00; 0x00; 0x00];
  [0x00; 0x00; 0x00; 0x00; 0x00; 0x00; 0x00; 0x00; 0x00; 0x00; 0x00; 0x00];
  [0x00; 0x00; 0x00; 0x00; 0x00; 0x00; 0x00; 0x00; 0x00; 0x00; 0x00; 0x00];
  [0x00; 0x00; 0x00; 0x00; 0x00; 0x00; 0x00; 0x00; 0x00; 0x00; 0x00; 0x00];
  [0x00; 0x00; 0x00; 0x00; 0x00; 0x00; 0x00; 0x00; 0x00; 0x00; 0x00; 0x00];
  [0x00; 0x00; 0x00; 0x00; 0x00; 0x00; 0x00; 0x00; 0x00; 0x00; 0x00; 0x00];
  [0x00; 0x00; 0x00; 0x00; 0x00; 0x00; 0x00; 0x00; 0x00; 0x00; 0x00; 0x00];
  [0x00; 0x00; 0x00; 0x00; 0x00; 0x00; 0x00; 0x00; 0x00; 0x00; 0x00; 0x00];
  [0x00; 0x00; 0x00; 0x00; 0x00; 0x00; 0x00; 0x00; 0x00; 0x00; 0x00; 0x00];
  [0x00; 0x00; 0x00; 0x00; 0x00; 0x00; 0x00; 0x00; 0x00; 0x00; 0x00; 0x00];
  [0x00; 0x00; 0x00; 0x00; 0x00; 0x00; 0x00; 0x00; 0x00; 0x00; 0x00; 0x00];
  [0x00; 0x00; 0x00; 0x00; 0x00; 0x00; 0x00; 0x00; 0x00; 0x00; 0x00; 0x00];
  [0x00; 0x00; 0x00; 0x00; 0x00; 0x00; 0x00; 0x00; 0x00; 0x00; 0x00; 0x00];
  [0x00; 0x00; 0x00; 0x00; 0x00; 0x00; 0x00; 0x00; 0x00; 0x00; 0x00; 0x00];
  [0x00; 0x00; 0x00; 0x00; 0x00; 0x00; 0x00; 0x00; 0x00; 0x00; 0x00; 0x00];
  [0x00; 0x00; 0x00; 0x00; 0x00; 0x00; 0x00; 0x00; 0x00; 0x00; 0x00; 0x00];
  [0x00; 0x00; 0x00; 0x00; 0x00; 0x00; 0x00; 0x00; 0x00; 0x00; 0x00; 0x00];
  [0x00; 0x00; 0x00; 0x00; 0x00; 0x00; 0x00; 0x00; 0x00; 0x00; 0x00; 0x00];
  [0x00; 0x00; 0x00; 0x00; 0x00; 0x00; 0x00; 0x00; 0x00; 0x00; 0x00; 0x00];
  [0x00; 0x00; 0x00; 0x00; 0x00; 0x00; 0x00; 0x00; 0x00; 0x00; 0x00; 0x00];
  [0x00; 0x00; 0x00; 0x00; 0x00; 0x00; 0x00; 0x00; 0x00; 0x00; 0x00; 0x00];
  [0x00; 0x00; 0x00; 0x00; 0x04; 0x00; 0x00; 0x00; 0x20; 0x00; 0x00; 0x00];
  [0x05; 0x00; 0x00; 0x00; 0x47; 0x4e; 0x55; 0x00; 0x01; 0x00; 0x01; 0xc0];
  [0x04; 0x00; 0x00; 0x00; 0x01; 0x00; 0x00; 0x00; 0x00; 0x00; 0x00; 0x00];
  [0x02; 0x00; 0x01; 0xc0; 0x04; 0x00; 0x00; 0x00; 0x01; 0x00; 0x00; 0x00];
  [0x00; 0x00; 0x00; 0x00; 0x4e; 0x65; 0x70; 0x74; 0x75; 0x6e; 0x65; 0x20];
  [0x69; 0x6e; 0x69; 0x74; 0x0a; 0x00; 0x2f; 0x62; 0x69; 0x6e; 0x2f; 0x73];
  [0x68; 0x65; 0x6c; 0x6c; 0x00; 0x69; 0x6e; 0x69; 0x74; 0x3a; 0x20; 0x73];
  [0x70; 0x61; 0x77; 0x6e; 0x20; 0x66; 0x61; 0x69; 0x6c; 0x65; 0x64; 0x0a];
  [0x00; 0x69; 0x6e; 0x69; 0x74; 0x3a; 0x20; 0x73; 0x68; 0x65; 0x6c; 0x6c];
  [0x20; 0x65; 0x78; 0x69; 0x74; 0x65; 0x64; 0x0a; 0x00; 0x54; 0x45; 0x52];
  [0x4d; 0x3d; 0x6e; 0x65; 0x70; 0x74; 0x75; 0x6e; 0x65; 0x00; 0x55; 0x53];
  [0x45; 0x52; 0x3d; 0x67; 0x75; 0x65; 0x73; 0x74; 0x00; 0x00; 0x00; 0x00];
  [0x00; 0x00; 0x00; 0x00; 0x4e; 0x65; 0x70; 0x74; 0x75; 0x6e; 0x65; 0x20];
  [0x69; 0x6e; 0x69; 0x74; 0x3a; 0x20; 0x73; 0x70; 0x61; 0x77; 0x6e; 0x69];
  [0x6e; 0x67; 0x20; 0x2f; 0x62; 0x69; 0x6e; 0x2f; 0x73; 0x68; 0x65; 0x6c];
  [0x6c; 0x2e; 0x2e; 0x2e; 0x0a; 0x00; 0x00; 0x00; 0x01; 0x1b; 0x03; 0x3b];
  [0x64; 0x00; 0x00; 0x00; 0x0b; 0x00; 0x00; 0x00; 0x28; 0xf1; 0xff; 0xff];
  [0x80; 0x00; 0x00; 0x00; 0x08; 0xf2; 0xff; 0xff; 0xa0; 0x00; 0x00; 0x00];
  [0x38; 0xf2; 0xff; 0xff; 0xb4; 0x00; 0x00; 0x00; 0xa8; 0xf2; 0xff; 0xff];
  [0xc8; 0x00; 0x00; 0x00; 0xe8; 0xf2; 0xff; 0xff; 0xdc; 0x00; 0x00; 0x00];
  [0x28; 0xf3; 0xff; 0xff; 0xf0; 0x00; 0x00; 0x00; 0x88; 0xf3; 0xff; 0xff];
  [0x04; 0x01; 0x00; 0x00; 0x98; 0xf3; 0xff; 0xff; 0x18; 0x01; 0x00; 0x00];
  [0xa8; 0xf3; 0xff; 0xff; 0x2c; 0x01; 0x00; 0x00; 0xb8; 0xf3; 0xff; 0xff];
  [0x40; 0x01; 0x00; 0x00; 0xc8; 0xf3; 0xff; 0xff; 0x54; 0x01; 0x00; 0x00];
  [0x00; 0x00; 0x00; 0x00; 0x14; 0x00; 0x00; 0x00; 0x00; 0x00; 0x00; 0x00];
  [0x01; 0x7a; 0x52; 0x00; 0x01; 0x78; 0x10; 0x01; 0x1b; 0x0c; 0x07; 0x08];
  [0x90; 0x01; 0x00; 0x00; 0x1c; 0x00; 0x00; 0x00; 0x1c; 0x00; 0x00; 0x00];
  [0xa0; 0xf0; 0xff; 0xff; 0xdc; 0x00; 0x00; 0x00; 0x00; 0x41; 0x0e; 0x10];
  [0x83; 0x02; 0x49; 0x0e; 0x20; 0x00; 0x00; 0x00; 0x00; 0x00; 0x00; 0x00];
  [0x10; 0x00; 0x00; 0x00; 0x3c; 0x00; 0x00; 0x00; 0x60; 0xf1; 0xff; 0xff];
  [0x2b; 0x00; 0x00; 0x00; 0x00; 0x00; 0x00; 0x00; 0x10; 0x00; 0x00; 0x00];
  [0x50; 0x00; 0x00; 0x00; 0x7c; 0xf1; 0xff; 0xff; 0x69; 0x00; 0x00; 0x00];
  [0x00; 0x00; 0x00; 0x00; 0x10; 0x00; 0x00; 0x00; 0x64; 0x00; 0x00; 0x00];
  [0xd8; 0xf1; 0xff; 0xff; 0x38; 0x00; 0x00; 0x00; 0x00; 0x00; 0x00; 0x00];
  [0x10; 0x00; 0x00; 0x00; 0x78; 0x00; 0x00; 0x00; 0x04; 0xf2; 0xff; 0xff];
  [0x34; 0x00; 0x00; 0x00; 0x00; 0x00; 0x00; 0x00; 0x10; 0x00; 0x00; 0x00];
  [0x8c; 0x00; 0x00; 0x00; 0x30; 0xf2; 0xff; 0xff; 0x56; 0x00; 0x00; 0x00];
  [0x00; 0x00; 0x00; 0x00; 0x10; 0x00; 0x00; 0x00; 0xa0; 0x00; 0x00; 0x00];
  [0x7c; 0xf2; 0xff; 0xff; 0x0e; 0x00; 0x00; 0x00; 0x00; 0x00; 0x00; 0x00];
  [0x10; 0x00; 0x00; 0x00; 0xb4; 0x00; 0x00; 0x00; 0x78; 0xf2; 0xff; 0xff];
  [0x08; 0x00; 0x00; 0x00; 0x00; 0x00; 0x00; 0x00; 0x10; 0x00; 0x00; 0x00];
  [0xc8; 0x00; 0x00; 0x00; 0x74; 0xf2; 0xff; 0xff; 0x0b; 0x00; 0x00; 0x00];
  [0x00; 0x00; 0x00; 0x00; 0x10; 0x00; 0x00; 0x00; 0xdc; 0x00; 0x00; 0x00];
  [0x70; 0xf2; 0xff; 0xff; 0x08; 0x00; 0x00; 0x00; 0x00; 0x00; 0x00; 0x00];
  [0x10; 0x00; 0x00; 0x00; 0xf0; 0x00; 0x00; 0x00; 0x6c; 0xf2; 0xff; 0xff];
  [0x08; 0x00; 0x00; 0x00; 0x00; 0x00; 0x00; 0x00; 0x00; 0x00; 0x00; 0x00];
  [0x00; 0x00; 0x00; 0x00; 0x00; 0x00; 0x00; 0x00; 0x00; 0x00; 0x00; 0x00];
  [0x00; 0x00; 0x00; 0x00; 0x00; 0x00; 0x00; 0x00; 0x00; 0x00; 0x00; 0x00];
  [0x00; 0x00; 0x00; 0x00; 0x00; 0x00; 0x00; 0x00; 0x00; 0x00; 0x00; 0x00];
  [0x00; 0x00; 0x00; 0x00; 0x00; 0x00; 0x00; 0x00; 0x00; 0x00; 0x00; 0x00];
  [0x00; 0x00; 0x00; 0x00; 0x00; 0x00; 0x00; 0x00; 0x00; 0x00; 0x00; 0x00];
  [0x00; 0x00; 0x00; 0x00; 0x00; 0x00; 0x00; 0x00; 0x00; 0x00; 0x00; 0x00];
  [0x00; 0x00; 0x00; 0x00; 0x00; 0x00; 0x00; 0x00; 0x00; 0x00; 0x00; 0x00];
  [0x00; 0x00; 0x00; 0x00; 0x00; 0x00; 0x00; 0x00; 0x00; 0x00; 0x00; 0x00];
  [0x00; 0x00; 0x00; 0x00; 0x00; 0x00; 0x00; 0x00; 0x00; 0x00; 0x00; 0x00];
  [0x00; 0x00; 0x00; 0x00; 0x00; 0x00; 0x00; 0x00; 0x00; 0x00; 0x00; 0x00];
  [0x00; 0x00; 0x00; 0x00; 0x00; 0x00; 0x00; 0x00; 0x00; 0x00; 0x00; 0x00];
  [0x00; 0x00; 0x00; 0x00; 0x00; 0x00; 0x00; 0x00; 0x00; 0x00; 0x00; 0x00];
  [0x00; 0x00; 0x00; 0x00; 0x00; 0x00; 0x00; 0x00; 0x00; 0x00; 0x00; 0x00];
  [0x00; 0x00; 0x00; 0x00; 0x00; 0x00; 0x00; 0x00; 0x00; 0x00; 0x00; 0x00];
  [0x00; 0x00; 0x00; 0x00; 0x00; 0x00; 0x00; 0x00; 0x00; 0x00; 0x00; 0x00];
  [0x00; 0x00; 0x00; 0x00; 0x00; 0x00; 0x00; 0x00; 0x00; 0x00; 0x00; 0x00];
  [0x00; 0x00; 0x00; 0x00; 0x00; 0x00; 0x00; 0x00; 0x00; 0x00; 0x00; 0x00];
  [0x00; 0x00; 0x00; 0x00; 0x00; 0x00; 0x00; 0x00; 0x00; 0x00; 0x00; 0x00];
  [0x00; 0x00; 0x00; 0x00; 0x00; 0x00; 0x00; 0x00; 0x00; 0x00; 0x00; 0x00];
  [0x00; 0x00; 0x00; 0x00; 0x00; 0x00; 0x00; 0x00; 0x00; 0x00; 0x00; 0x00];
  [0x00; 0x00; 0x00; 0x00; 0x00; 0x00; 0x00; 0x00; 0x00; 0x00; 0x00; 0x00];
  [0x00; 0x00; 0x00; 0x00; 0x00; 0x00; 0x00; 0x00; 0x00; 0x00; 0x00; 0x00];
  [0x00; 0x00; 0x00; 0x00; 0x00; 0x00; 0x00; 0x00; 0x00; 0x00; 0x00; 0x00];
  [0x00; 0x00; 0x00; 0x00; 0x00; 0x00; 0x00; 0x00; 0x00; 0x00; 0x00; 0x00];
  [0x00; 0x00; 0x00; 0x00; 0x00; 0x00; 0x00; 0x00; 0x00; 0x00; 0x00; 0x00];
  [0x00; 0x00; 0x00; 0x00; 0x00; 0x00; 0x00; 0x00; 0x00; 0x00; 0x00; 0x00];
  [0x00; 0x00; 0x00; 0x00; 0x00; 0x00; 0x00; 0x00; 0x00; 0x00; 0x00; 0x00];
  [0x00; 0x00; 0x00; 0x00; 0x00; 0x00; 0x00; 0x00; 0x00; 0x00; 0x00; 0x00];
  [0x00; 0x00; 0x00; 0x00; 0x00; 0x00; 0x00; 0x00; 0x00; 0x00; 0x00; 0x00];
  [0x00; 0x00; 0x00; 0x00; 0x00; 0x00; 0x00; 0x00; 0x00; 0x00; 0x00; 0x00];
  [0x00; 0x00; 0x00; 0x00; 0x00; 0x00; 0x00; 0x00; 0x00; 0x00; 0x00; 0x00];
  [0x00; 0x00; 0x00; 0x00; 0x00; 0x00; 0x00; 0x00; 0x00; 0x00; 0x00; 0x00];
  [0x00; 0x00; 0x00; 0x00; 0x00; 0x00; 0x00; 0x00; 0x00; 0x00; 0x00; 0x00];
  [0x00; 0x00; 0x00; 0x00; 0x00; 0x00; 0x00; 0x00; 0x00; 0x00; 0x00; 0x00];
  [0x00; 0x00; 0x00; 0x00; 0x00; 0x00; 0x00; 0x00; 0x00; 0x00; 0x00; 0x00];
  [0x00; 0x00; 0x00; 0x00; 0x00; 0x00; 0x00; 0x00; 0x00; 0x00; 0x00; 0x00];
  [0x00; 0x00; 0x00; 0x00; 0x00; 0x00; 0x00; 0x00; 0x00; 0x00; 0x00; 0x00];
  [0x00; 0x00; 0x00; 0x00; 0x00; 0x00; 0x00; 0x00; 0x00; 0x00; 0x00; 0x00];
  [0x00; 0x00; 0x00; 0x00; 0x00; 0x00; 0x00; 0x00; 0x00; 0x00; 0x00; 0x00];
  [0x00; 0x00; 0x00; 0x00; 0x00; 0x00; 0x00; 0x00; 0x00; 0x00; 0x00; 0x00];
  [0x00; 0x00; 0x00; 0x00; 0x00; 0x00; 0x00; 0x00; 0x00; 0x00; 0x00; 0x00];
  [0x00; 0x00; 0x00; 0x00; 0x00; 0x00; 0x00; 0x00; 0x00; 0x00; 0x00; 0x00];
  [0x00; 0x00; 0x00; 0x00; 0x00; 0x00; 0x00; 0x00; 0x00; 0x00; 0x00; 0x00];
  [0x00; 0x00; 0x00; 0x00; 0x00; 0x00; 0x00; 0x00; 0x00; 0x00; 0x00; 0x00];
  [0x00; 0x00; 0x00; 0x00; 0x00; 0x00; 0x00; 0x00; 0x00; 0x00; 0x00; 0x00];
  [0x00; 0x00; 0x00; 0x00; 0x00; 0x00; 0x00; 0x00; 0x00; 0x00; 0x00; 0x00];
  [0x00; 0x00; 0x00; 0x00; 0x00; 0x00; 0x00; 0x00; 0x00; 0x00; 0x00; 0x00];
  [0x00; 0x00; 0x00; 0x00; 0x00; 0x00; 0x00; 0x00; 0x00; 0x00; 0x00; 0x00];
  [0x00; 0x00; 0x00; 0x00; 0x00; 0x00; 0x00; 0x00; 0x00; 0x00; 0x00; 0x00];
  [0x00; 0x00; 0x00; 0x00; 0x00; 0x00; 0x00; 0x00; 0x00; 0x00; 0x00; 0x00];
  [0x00; 0x00; 0x00; 0x00; 0x00; 0x00; 0x00; 0x00; 0x00; 0x00; 0x00; 0x00];
  [0x00; 0x00; 0x00; 0x00; 0x00; 0x00; 0x00; 0x00; 0x00; 0x00; 0x00; 0x00];
  [0x00; 0x00; 0x00; 0x00; 0x00; 0x00; 0x00; 0x00; 0x00; 0x00; 0x00; 0x00];
  [0x00; 0x00; 0x00; 0x00; 0x00; 0x00; 0x00; 0x00; 0x00; 0x00; 0x00; 0x00];
  [0x00; 0x00; 0x00; 0x00; 0x00; 0x00; 0x00; 0x00; 0x00; 0x00; 0x00; 0x00];
  [0x00; 0x00; 0x00; 0x00; 0x00; 0x00; 0x00; 0x00; 0x00; 0x00; 0x00; 0x00];
  [0x00; 0x00; 0x00; 0x00; 0x00; 0x00; 0x00; 0x00; 0x00; 0x00; 0x00; 0x00];
  [0x00; 0x00; 0x00; 0x00; 0x00; 0x00; 0x00; 0x00; 0x00; 0x00; 0x00; 0x00];
  [0x00; 0x00; 0x00; 0x00; 0x00; 0x00; 0x00; 0x00; 0x00; 0x00; 0x00; 0x00];
  [0x00; 0x00; 0x00; 0x00; 0x00; 0x00; 0x00; 0x00; 0x00; 0x00; 0x00; 0x00];
  [0x00; 0x00; 0x00; 0x00; 0x00; 0x00; 0x00; 0x00; 0x00; 0x00; 0x00; 0x00];
  [0x00; 0x00; 0x00; 0x00; 0x00; 0x00; 0x00; 0x00; 0x00; 0x00; 0x00; 0x00];
  [0x00; 0x00; 0x00; 0x00; 0x00; 0x00; 0x00; 0x00; 0x00; 0x00; 0x00; 0x00];
  [0x00; 0x00; 0x00; 0x00; 0x00; 0x00; 0x00; 0x00; 0x00; 0x00; 0x00; 0x00];
  [0x00; 0x00; 0x00; 0x00; 0x00; 0x00; 0x00; 0x00; 0x00; 0x00; 0x00; 0x00];
  [0x00; 0x00; 0x00; 0x00; 0x00; 0x00; 0x00; 0x00; 0x00; 0x00; 0x00; 0x00];
  [0x00; 0x00; 0x00; 0x00; 0x00; 0x00; 0x00; 0x00; 0x00; 0x00; 0x00; 0x00];
  [0x00; 0x00; 0x00; 0x00; 0x00; 0x00; 0x00; 0x00; 0x00; 0x00; 0x00; 0x00];
  [0x00; 0x00; 0x00; 0x00; 0x00; 0x00; 0x00; 0x00; 0x00; 0x00; 0x00; 0x00];
  [0x00; 0x00; 0x00; 0x00; 0x00; 0x00; 0x00; 0x00; 0x00; 0x00; 0x00; 0x00];
  [0x00; 0x00; 0x00; 0x00; 0x00; 0x00; 0x00; 0x00; 0x00; 0x00; 0x00; 0x00];
  [0x00; 0x00; 0x00; 0x00; 0x00; 0x00; 0x00; 0x00; 0x00; 0x00; 0x00; 0x00];
  [0x00; 0x00; 0x00; 0x00; 0x00; 0x00; 0x00; 0x00; 0x00; 0x00; 0x00; 0x00];
  [0x00; 0x00; 0x00; 0x00; 0x00; 0x00; 0x00; 0x00; 0x00; 0x00; 0x00; 0x00];
  [0x00; 0x00; 0x00; 0x00; 0x00; 0x00; 0x00; 0x00; 0x00; 0x00; 0x00; 0x00];
  [0x00; 0x00; 0x00; 0x00; 0x00; 0x00; 0x00; 0x00; 0x00; 0x00; 0x00; 0x00];
  [0x00; 0x00; 0x00; 0x00; 0x00; 0x00; 0x00; 0x00; 0x00; 0x00; 0x00; 0x00];
  [0x00; 0x00; 0x00; 0x00; 0x00; 0x00; 0x00; 0x00; 0x00; 0x00; 0x00; 0x00];
  [0x00; 0x00; 0x00; 0x00; 0x00; 0x00; 0x00; 0x00; 0x00; 0x00; 0x00; 0x00];
  [0x00; 0x00; 0x00; 0x00; 0x00; 0x00; 0x00; 0x00; 0x00; 0x00; 0x00; 0x00];
  [0x00; 0x00; 0x00; 0x00; 0x00; 0x00; 0x00; 0x00; 0x00; 0x00; 0x00; 0x00];
  [0x00; 0x00; 0x00; 0x00; 0x00; 0x00; 0x00; 0x00; 0x00; 0x00; 0x00; 0x00];
  [0x00; 0x00; 0x00; 0x00; 0x00; 0x00; 0x00; 0x00; 0x00; 0x00; 0x00; 0x00];
  [0x00; 0x00; 0x00; 0x00; 0x00; 0x00; 0x00; 0x00; 0x00; 0x00; 0x00; 0x00];
  [0x00; 0x00; 0x00; 0x00; 0x00; 0x00; 0x00; 0x00; 0x00; 0x00; 0x00; 0x00];
  [0x00; 0x00; 0x00; 0x00; 0x00; 0x00; 0x00; 0x00; 0x00; 0x00; 0x00; 0x00];
  [0x00; 0x00; 0x00; 0x00; 0x00; 0x00; 0x00; 0x00; 0x00; 0x00; 0x00; 0x00];
  [0x00; 0x00; 0x00; 0x00; 0x00; 0x00; 0x00; 0x00; 0x00; 0x00; 0x00; 0x00];
  [0x00; 0x00; 0x00; 0x00; 0x00; 0x00; 0x00; 0x00; 0x00; 0x00; 0x00; 0x00];
  [0x00; 0x00; 0x00; 0x00; 0x00; 0x00; 0x00; 0x00; 0x00; 0x00; 0x00; 0x00];
  [0x00; 0x00; 0x00; 0x00; 0x00; 0x00; 0x00; 0x00; 0x00; 0x00; 0x00; 0x00];
  [0x00; 0x00; 0x00; 0x00; 0x00; 0x00; 0x00; 0x00; 0x00; 0x00; 0x00; 0x00];
  [0x00; 0x00; 0x00; 0x00; 0x00; 0x00; 0x00; 0x00; 0x00; 0x00; 0x00; 0x00];
  [0x00; 0x00; 0x00; 0x00; 0x00; 0x00; 0x00; 0x00; 0x00; 0x00; 0x00; 0x00];
  [0x00; 0x00; 0x00; 0x00; 0x00; 0x00; 0x00; 0x00; 0x00; 0x00; 0x00; 0x00];
  [0x00; 0x00; 0x00; 0x00; 0x00; 0x00; 0x00; 0x00; 0x00; 0x00; 0x00; 0x00];
  [0x00; 0x00; 0x00; 0x00; 0x00; 0x00; 0x00; 0x00; 0x00; 0x00; 0x00; 0x00];
  [0x00; 0x00; 0x00; 0x00; 0x00; 0x00; 0x00; 0x00; 0x00; 0x00; 0x00; 0x00];
  [0x00; 0x00; 0x00; 0x00; 0x00; 0x00; 0x00; 0x00; 0x00; 0x00; 0x00; 0x00];
  [0x00; 0x00; 0x00; 0x00; 0x00; 0x00; 0x00; 0x00; 0x00; 0x00; 0x00; 0x00];
  [0x00; 0x00; 0x00; 0x00; 0x00; 0x00; 0x00; 0x00; 0x00; 0x00; 0x00; 0x00];
  [0x00; 0x00; 0x00; 0x00; 0x00; 0x00; 0x00; 0x00; 0x00; 0x00; 0x00; 0x00];
  [0x00; 0x00; 0x00; 0x00; 0x00; 0x00; 0x00; 0x00; 0x00; 0x00; 0x00; 0x00];
  [0x00; 0x00; 0x00; 0x00; 0x00; 0x00; 0x00; 0x00; 0x00; 0x00; 0x00; 0x00];
  [0x00; 0x00; 0x00; 0x00; 0x00; 0x00; 0x00; 0x00; 0x00; 0x00; 0x00; 0x00];
  [0x00; 0x00; 0x00; 0x00; 0x00; 0x00; 0x00; 0x00; 0x00; 0x00; 0x00; 0x00];
  [0x00; 0x00; 0x00; 0x00; 0x00; 0x00; 0x00; 0x00; 0x00; 0x00; 0x00; 0x00];
  [0x00; 0x00; 0x00; 0x00; 0x00; 0x00; 0x00; 0x00; 0x00; 0x00; 0x00; 0x00];
  [0x00; 0x00; 0x00; 0x00; 0x00; 0x00; 0x00; 0x00; 0x00; 0x00; 0x00; 0x00];
  [0x00; 0x00; 0x00; 0x00; 0x00; 0x00; 0x00; 0x00; 0x00; 0x00; 0x00; 0x00];
  [0x00; 0x00; 0x00; 0x00; 0x00; 0x00; 0x00; 0x00; 0x00; 0x00; 0x00; 0x00];
  [0x00; 0x00; 0x00; 0x00; 0x00; 0x00; 0x00; 0x00; 0x00; 0x00; 0x00; 0x00];
  [0x00; 0x00; 0x00; 0x00; 0x00; 0x00; 0x00; 0x00; 0x00; 0x00; 0x00; 0x00];
  [0x00; 0x00; 0x00; 0x00; 0x00; 0x00; 0x00; 0x00; 0x00; 0x00; 0x00; 0x00];
  [0x00; 0x00; 0x00; 0x00; 0x00; 0x00; 0x00; 0x00; 0x00; 0x00; 0x00; 0x00];
  [0x00; 0x00; 0x00; 0x00; 0x00; 0x00; 0x00; 0x00; 0x00; 0x00; 0x00; 0x00];
  [0x00; 0x00; 0x00; 0x00; 0x00; 0x00; 0x00; 0x00; 0x00; 0x00; 0x00; 0x00];
  [0x00; 0x00; 0x00; 0x00; 0x00; 0x00; 0x00; 0x00; 0x00; 0x00; 0x00; 0x00];
  [0x00; 0x00; 0x00; 0x00; 0x00; 0x00; 0x00; 0x00; 0x00; 0x00; 0x00; 0x00];
  [0x00; 0x00; 0x00; 0x00; 0x00; 0x00; 0x00; 0x00; 0x00; 0x00; 0x00; 0x00];
  [0x00; 0x00; 0x00; 0x00; 0x00; 0x00; 0x00; 0x00; 0x00; 0x00; 0x00; 0x00];
  [0x00; 0x00; 0x00; 0x00; 0x00; 0x00; 0x00; 0x00; 0x00; 0x00; 0x00; 0x00];
  [0x00; 0x00; 0x00; 0x00; 0x00; 0x00; 0x00; 0x00; 0x00; 0x00; 0x00; 0x00];
  [0x00; 0x00; 0x00; 0x00; 0x00; 0x00; 0x00; 0x00; 0x00; 0x00; 0x00; 0x00];
  [0x00; 0x00; 0x00; 0x00; 0x00; 0x00; 0x00; 0x00; 0x00; 0x00; 0x00; 0x00];
  [0x00; 0x00; 0x00; 0x00; 0x00; 0x00; 0x00; 0x00; 0x00; 0x00; 0x00; 0x00];
  [0x00; 0x00; 0x00; 0x00; 0x00; 0x00; 0x00; 0x00; 0x00; 0x00; 0x00; 0x00];
  [0x00; 0x00; 0x00; 0x00; 0x00; 0x00; 0x00; 0x00; 0x00; 0x00; 0x00; 0x00];
  [0x00; 0x00; 0x00; 0x00; 0x00; 0x00; 0x00; 0x00; 0x00; 0x00; 0x00; 0x00];
  [0x00; 0x00; 0x00; 0x00; 0x00; 0x00; 0x00; 0x00; 0x00; 0x00; 0x00; 0x00];
  [0x00; 0x00; 0x00; 0x00; 0x00; 0x00; 0x00; 0x00; 0x00; 0x00; 0x00; 0x00];
  [0x00; 0x00; 0x00; 0x00; 0x00; 0x00; 0x00; 0x00; 0x00; 0x00; 0x00; 0x00];
  [0x00; 0x00; 0x00; 0x00; 0x00; 0x00; 0x00; 0x00; 0x00; 0x00; 0x00; 0x00];
  [0x00; 0x00; 0x00; 0x00; 0x00; 0x00; 0x00; 0x00; 0x00; 0x00; 0x00; 0x00];
  [0x00; 0x00; 0x00; 0x00; 0x00; 0x00; 0x00; 0x00; 0x00; 0x00; 0x00; 0x00];
  [0x00; 0x00; 0x00; 0x00; 0x00; 0x00; 0x00; 0x00; 0x00; 0x00; 0x00; 0x00];
  [0x00; 0x00; 0x00; 0x00; 0x00; 0x00; 0x00; 0x00; 0x00; 0x00; 0x00; 0x00];
  [0x00; 0x00; 0x00; 0x00; 0x00; 0x00; 0x00; 0x00; 0x00; 0x00; 0x00; 0x00];
  [0x00; 0x00; 0x00; 0x00; 0x00; 0x00; 0x00; 0x00; 0x00; 0x00; 0x00; 0x00];
  [0x00; 0x00; 0x00; 0x00; 0x00; 0x00; 0x00; 0x00; 0x00; 0x00; 0x00; 0x00];
  [0x00; 0x00; 0x00; 0x00; 0x00; 0x00; 0x00; 0x00; 0x00; 0x00; 0x00; 0x00];
  [0x00; 0x00; 0x00; 0x00; 0x00; 0x00; 0x00; 0x00; 0x00; 0x00; 0x00; 0x00];
  [0x00; 0x00; 0x00; 0x00; 0x00; 0x00; 0x00; 0x00; 0x00; 0x00; 0x00; 0x00];
  [0x00; 0x00; 0x00; 0x00; 0x00; 0x00; 0x00; 0x00; 0x00; 0x00; 0x00; 0x00];
  [0x00; 0x00; 0x00; 0x00; 0x00; 0x00; 0x00; 0x00; 0x00; 0x00; 0x00; 0x00];
  [0x00; 0x00; 0x00; 0x00; 0x00; 0x00; 0x00; 0x00; 0x00; 0x00; 0x00; 0x00];
  [0x00; 0x00; 0x00; 0x00; 0x00; 0x00; 0x00; 0x00; 0x00; 0x00; 0x00; 0x00];
  [0x00; 0x00; 0x00; 0x00; 0x00; 0x00; 0x00; 0x00; 0x00; 0x00; 0x00; 0x00];
  [0x00; 0x00; 0x00; 0x00; 0x00; 0x00; 0x00; 0x00; 0x00; 0x00; 0x00; 0x00];
  [0x00; 0x00; 0x00; 0x00; 0x00; 0x00; 0x00; 0x00; 0x00; 0x00; 0x00; 0x00];
  [0x00; 0x00; 0x00; 0x00; 0x00; 0x00; 0x00; 0x00; 0x00; 0x00; 0x00; 0x00];
  [0x00; 0x00; 0x00; 0x00; 0x00; 0x00; 0x00; 0x00; 0x00; 0x00; 0x00; 0x00];
  [0x00; 0x00; 0x00; 0x00; 0x00; 0x00; 0x00; 0x00; 0x00; 0x00; 0x00; 0x00];
  [0x00; 0x00; 0x00; 0x00; 0x00; 0x00; 0x00; 0x00; 0x00; 0x00; 0x00; 0x00];
  [0x00; 0x00; 0x00; 0x00; 0x00; 0x00; 0x00; 0x00; 0x00; 0x00; 0x00; 0x00];
  [0x00; 0x00; 0x00; 0x00; 0x00; 0x00; 0x00; 0x00; 0x00; 0x00; 0x00; 0x00];
  [0x00; 0x00; 0x00; 0x00; 0x00; 0x00; 0x00; 0x00; 0x00; 0x00; 0x00; 0x00];
  [0x00; 0x00; 0x00; 0x00; 0x00; 0x00; 0x00; 0x00; 0x00; 0x00; 0x00; 0x00];
  [0x00; 0x00; 0x00; 0x00; 0x00; 0x00; 0x00; 0x00; 0x00; 0x00; 0x00; 0x00];
  [0x00; 0x00; 0x00; 0x00; 0x00; 0x00; 0x00; 0x00; 0x00; 0x00; 0x00; 0x00];
  [0x00; 0x00; 0x00; 0x00; 0x00; 0x00; 0x00; 0x00; 0x00; 0x00; 0x00; 0x00];
  [0x00; 0x00; 0x00; 0x00; 0x00; 0x00; 0x00; 0x00; 0x00; 0x00; 0x00; 0x00];
  [0x00; 0x00; 0x00; 0x00; 0x00; 0x00; 0x00; 0x00; 0x00; 0x00; 0x00; 0x00];
  [0x00; 0x00; 0x00; 0x00; 0x00; 0x00; 0x00; 0x00; 0x00; 0x00; 0x00; 0x00];
  [0x00; 0x00; 0x00; 0x00; 0x00; 0x00; 0x00; 0x00; 0x00; 0x00; 0x00; 0x00];
  [0x00; 0x00; 0x00; 0x00; 0x00; 0x00; 0x00; 0x00; 0x00; 0x00; 0x00; 0x00];
  [0x00; 0x00; 0x00; 0x00; 0x00; 0x00; 0x00; 0x00; 0x00; 0x00; 0x00; 0x00];
  [0x00; 0x00; 0x00; 0x00; 0x00; 0x00; 0x00; 0x00; 0x00; 0x00; 0x00; 0x00];
  [0x00; 0x00; 0x00; 0x00; 0x00; 0x00; 0x00; 0x00; 0x00; 0x00; 0x00; 0x00];
  [0x00; 0x00; 0x00; 0x00; 0x00; 0x00; 0x00; 0x00; 0x00; 0x00; 0x00; 0x00];
  [0x00; 0x00; 0x00; 0x00; 0x00; 0x00; 0x00; 0x00; 0x00; 0x00; 0x00; 0x00];
  [0x00; 0x00; 0x00; 0x00; 0x00; 0x00; 0x00; 0x00; 0x00; 0x00; 0x00; 0x00];
  [0x00; 0x00; 0x00; 0x00; 0x00; 0x00; 0x00; 0x00; 0x00; 0x00; 0x00; 0x00];
  [0x00; 0x00; 0x00; 0x00; 0x00; 0x00; 0x00; 0x00; 0x00; 0x00; 0x00; 0x00];
  [0x00; 0x00; 0x00; 0x00; 0x00; 0x00; 0x00; 0x00; 0x00; 0x00; 0x00; 0x00];
  [0x00; 0x00; 0x00; 0x00; 0x00; 0x00; 0x00; 0x00; 0x00; 0x00; 0x00; 0x00];
  [0x00; 0x00; 0x00; 0x00; 0x00; 0x00; 0x00; 0x00; 0x00; 0x00; 0x00; 0x00];
  [0x00; 0x00; 0x00; 0x00; 0x00; 0x00; 0x00; 0x00; 0x00; 0x00; 0x00; 0x00];
  [0x00; 0x00; 0x00; 0x00; 0x00; 0x00; 0x00; 0x00; 0x00; 0x00; 0x00; 0x00];
  [0x00; 0x00; 0x00; 0x00; 0x00; 0x00; 0x00; 0x00; 0x00; 0x00; 0x00; 0x00];
  [0x00; 0x00; 0x00; 0x00; 0x00; 0x00; 0x00; 0x00; 0x00; 0x00; 0x00; 0x00];
  [0x00; 0x00; 0x00; 0x00; 0x00; 0x00; 0x00; 0x00; 0x00; 0x00; 0x00; 0x00];
  [0x00; 0x00; 0x00; 0x00; 0x00; 0x00; 0x00; 0x00; 0x00; 0x00; 0x00; 0x00];
  [0x00; 0x00; 0x00; 0x00; 0x00; 0x00; 0x00; 0x00; 0x00; 0x00; 0x00; 0x00];
  [0x00; 0x00; 0x00; 0x00; 0x00; 0x00; 0x00; 0x00; 0x00; 0x00; 0x00; 0x00];
  [0x00; 0x00; 0x00; 0x00; 0x00; 0x00; 0x00; 0x00; 0x00; 0x00; 0x00; 0x00];
  [0x00; 0x00; 0x00; 0x00; 0x00; 0x00; 0x00; 0x00; 0x00; 0x00; 0x00; 0x00];
  [0x00; 0x00; 0x00; 0x00; 0x00; 0x00; 0x00; 0x00; 0x00; 0x00; 0x00; 0x00];
  [0x00; 0x00; 0x00; 0x00; 0x00; 0x00; 0x00; 0x00; 0x00; 0x00; 0x00; 0x00];
  [0x00; 0x00; 0x00; 0x00; 0x00; 0x00; 0x00; 0x00; 0x00; 0x00; 0x00; 0x00];
  [0x00; 0x00; 0x00; 0x00; 0x00; 0x00; 0x00; 0x00; 0x00; 0x00; 0x00; 0x00];
  [0x00; 0x00; 0x00; 0x00; 0x00; 0x00; 0x00; 0x00; 0x00; 0x00; 0x00; 0x00];
  [0x00; 0x00; 0x00; 0x00; 0x00; 0x00; 0x00; 0x00; 0x00; 0x00; 0x00; 0x00];
  [0x00; 0x00; 0x00; 0x00; 0x00; 0x00; 0x00; 0x00; 0x00; 0x00; 0x00; 0x00];
  [0x00; 0x00; 0x00; 0x00; 0x00; 0x00; 0x00; 0x00; 0x00; 0x00; 0x00; 0x00];
  [0x00; 0x00; 0x00; 0x00; 0x00; 0x00; 0x00; 0x00; 0x00; 0x00; 0x00; 0x00];
  [0x00; 0x00; 0x00; 0x00; 0x00; 0x00; 0x00; 0x00; 0x00; 0x00; 0x00; 0x00];
  [0x00; 0x00; 0x00; 0x00; 0x00; 0x00; 0x00; 0x00; 0x00; 0x00; 0x00; 0x00];
  [0x00; 0x00; 0x00; 0x00; 0x00; 0x00; 0x00; 0x00; 0x00; 0x00; 0x00; 0x00];
  [0x00; 0x00; 0x00; 0x00; 0x00; 0x00; 0x00; 0x00; 0x00; 0x00; 0x00; 0x00];
  [0x00; 0x00; 0x00; 0x00; 0x00; 0x00; 0x00; 0x00; 0x00; 0x00; 0x00; 0x00];
  [0x00; 0x00; 0x00; 0x00; 0x00; 0x00; 0x00; 0x00; 0x00; 0x00; 0x00; 0x00];
  [0x00; 0x00; 0x00; 0x00; 0x00; 0x00; 0x00; 0x00; 0x00; 0x00; 0x00; 0x00];
  [0x00; 0x00; 0x00; 0x00; 0x00; 0x00; 0x00; 0x00; 0x00; 0x00; 0x00; 0x00];
  [0x00; 0x00; 0x00; 0x00; 0x00; 0x00; 0x00; 0x00; 0x00; 0x00; 0x00; 0x00];
  [0x00; 0x00; 0x00; 0x00; 0x00; 0x00; 0x00; 0x00; 0x00; 0x00; 0x00; 0x00];
  [0x00; 0x00; 0x00; 0x00; 0x00; 0x00; 0x00; 0x00; 0x00; 0x00; 0x00; 0x00];
  [0x00; 0x00; 0x00; 0x00; 0x00; 0x00; 0x00; 0x00; 0x00; 0x00; 0x00; 0x00];
  [0x00; 0x00; 0x00; 0x00; 0x00; 0x00; 0x00; 0x00; 0x00; 0x00; 0x00; 0x00];
  [0x00; 0x00; 0x00; 0x00; 0x00; 0x00; 0x00; 0x00; 0x00; 0x00; 0x00; 0x00];
  [0x00; 0x00; 0x00; 0x00; 0x00; 0x00; 0x00; 0x00; 0x00; 0x00; 0x00; 0x00];
  [0x00; 0x00; 0x00; 0x00; 0x00; 0x00; 0x00; 0x00; 0x00; 0x00; 0x00; 0x00];
  [0x00; 0x00; 0x00; 0x00; 0x00; 0x00; 0x00; 0x00; 0x00; 0x00; 0x00; 0x00];
  [0x00; 0x00; 0x00; 0x00; 0x00; 0x00; 0x00; 0x00; 0x00; 0x00; 0x00; 0x00];
  [0x00; 0x00; 0x00; 0x00; 0x00; 0x00; 0x00; 0x00; 0x00; 0x00; 0x00; 0x00];
  [0x00; 0x00; 0x00; 0x00; 0x00; 0x00; 0x00; 0x00; 0x00; 0x00; 0x00; 0x00];
  [0x00; 0x00; 0x00; 0x00; 0x00; 0x00; 0x00; 0x00; 0x00; 0x00; 0x00; 0x00];
  [0x00; 0x00; 0x00; 0x00; 0x00; 0x00; 0x00; 0x00; 0x00; 0x00; 0x00; 0x00];
  [0x00; 0x00; 0x00; 0x00; 0x00; 0x00; 0x00; 0x00; 0x00; 0x00; 0x00; 0x00];
  [0x00; 0x00; 0x00; 0x00; 0x00; 0x00; 0x00; 0x00; 0x00; 0x00; 0x00; 0x00];
  [0x00; 0x00; 0x00; 0x00; 0x00; 0x00; 0x00; 0x00; 0x00; 0x00; 0x00; 0x00];
  [0x00; 0x00; 0x00; 0x00; 0x00; 0x00; 0x00; 0x00; 0x00; 0x00; 0x00; 0x00];
  [0x00; 0x00; 0x00; 0x00; 0x00; 0x00; 0x00; 0x00; 0x00; 0x00; 0x00; 0x00];
  [0x00; 0x00; 0x00; 0x00; 0x00; 0x00; 0x00; 0x00; 0x00; 0x00; 0x00; 0x00];
  [0x00; 0x00; 0x00; 0x00; 0x00; 0x00; 0x00; 0x00; 0x00; 0x00; 0x00; 0x00];
  [0x00; 0x00; 0x00; 0x00; 0x00; 0x00; 0x00; 0x00; 0x00; 0x00; 0x00; 0x00];
  [0x00; 0x00; 0x00; 0x00; 0x00; 0x00; 0x00; 0x00; 0x00; 0x00; 0x00; 0x00];
  [0x00; 0x00; 0x00; 0x00; 0x00; 0x00; 0x00; 0x00; 0x00; 0x00; 0x00; 0x00];
  [0x00; 0x00; 0x00; 0x00; 0x00; 0x00; 0x00; 0x00; 0x00; 0x00; 0x00; 0x00];
  [0x00; 0x00; 0x00; 0x00; 0x00; 0x00; 0x00; 0x00; 0x00; 0x00; 0x00; 0x00];
  [0x00; 0x00; 0x00; 0x00; 0x00; 0x00; 0x00; 0x00; 0x00; 0x00; 0x00; 0x00];
  [0x00; 0x00; 0x00; 0x00; 0x00; 0x00; 0x00; 0x00; 0x00; 0x00; 0x00; 0x00];
  [0x00; 0x00; 0x00; 0x00; 0x00; 0x00; 0x00; 0x00; 0x00; 0x00; 0x00; 0x00];
  [0x00; 0x00; 0x00; 0x00; 0x00; 0x00; 0x00; 0x00; 0x00; 0x00; 0x00; 0x00];
  [0x00; 0x00; 0x00; 0x00; 0x00; 0x00; 0x00; 0x00; 0x00; 0x00; 0x00; 0x00];
  [0x00; 0x00; 0x00; 0x00; 0x00; 0x00; 0x00; 0x00; 0x00; 0x00; 0x00; 0x00];
  [0x00; 0x00; 0x00; 0x00; 0x00; 0x00; 0x00; 0x00; 0x00; 0x00; 0x00; 0x00];
  [0x00; 0x00; 0x00; 0x00; 0x00; 0x00; 0x00; 0x00; 0x00; 0x00; 0x00; 0x00];
  [0x00; 0x00; 0x00; 0x00; 0x00; 0x00; 0x00; 0x00; 0x00; 0x00; 0x00; 0x00];
  [0x00; 0x00; 0x00; 0x00; 0x00; 0x00; 0x00; 0x00; 0x00; 0x00; 0x00; 0x00];
  [0x00; 0x00; 0x00; 0x00; 0x00; 0x00; 0x00; 0x00; 0x00; 0x00; 0x00; 0x00];
  [0x00; 0x00; 0x00; 0x00; 0x00; 0x00; 0x00; 0x00; 0x00; 0x00; 0x00; 0x00];
  [0x00; 0x00; 0x00; 0x00; 0x00; 0x00; 0x00; 0x00; 0x00; 0x00; 0x00; 0x00];
  [0x00; 0x00; 0x00; 0x00; 0x00; 0x00; 0x00; 0x00; 0x00; 0x00; 0x00; 0x00];
  [0x00; 0x00; 0x00; 0x00; 0x00; 0x00; 0x00; 0x00; 0x00; 0x00; 0x00; 0x00];
  [0x00; 0x00; 0x00; 0x00; 0x00; 0x00; 0x00; 0x00; 0x00; 0x00; 0x00; 0x00];
  [0x00; 0x00; 0x00; 0x00; 0x00; 0x00; 0x00; 0x00; 0x00; 0x00; 0x00; 0x00];
  [0x00; 0x00; 0x00; 0x00; 0x00; 0x00; 0x00; 0x00; 0x00; 0x00; 0x00; 0x00];
  [0x00; 0x00; 0x00; 0x00; 0x00; 0x00; 0x00; 0x00; 0x00; 0x00; 0x00; 0x00];
  [0x00; 0x00; 0x00; 0x00; 0x00; 0x00; 0x00; 0x00; 0x00; 0x00; 0x00; 0x00];
  [0x00; 0x00; 0x00; 0x00; 0x00; 0x00; 0x00; 0x00; 0x00; 0x00; 0x00; 0x00];
  [0x00; 0x00; 0x00; 0x00; 0x00; 0x00; 0x00; 0x00; 0x00; 0x00; 0x00; 0x00];
  [0x00; 0x00; 0x00; 0x00; 0x00; 0x00; 0x00; 0x00; 0x00; 0x00; 0x00; 0x00];
  [0x00; 0x00; 0x00; 0x00; 0x00; 0x00; 0x00; 0x00; 0x00; 0x00; 0x00; 0x00];
  [0x00; 0x00; 0x00; 0x00; 0x00; 0x00; 0x00; 0x00; 0x00; 0x00; 0x00; 0x00];
  [0x00; 0x00; 0x00; 0x00; 0x00; 0x00; 0x00; 0x00; 0x00; 0x00; 0x00; 0x00];
  [0x00; 0x00; 0x00; 0x00; 0x00; 0x00; 0x00; 0x00; 0x00; 0x00; 0x00; 0x00];
  [0x00; 0x00; 0x00; 0x00; 0x00; 0x00; 0x00; 0x00; 0x00; 0x00; 0x00; 0x00];
  [0x00; 0x00; 0x00; 0x00; 0x00; 0x00; 0x00; 0x00; 0x00; 0x00; 0x00; 0x00];
  [0x00; 0x00; 0x00; 0x00; 0x00; 0x00; 0x00; 0x00; 0x00; 0x00; 0x00; 0x00];
  [0x00; 0x00; 0x00; 0x00; 0x00; 0x00; 0x00; 0x00; 0x00; 0x00; 0x00; 0x00];
  [0x00; 0x00; 0x00; 0x00; 0x00; 0x00; 0x00; 0x00; 0x00; 0x00; 0x00; 0x00];
  [0x00; 0x00; 0x00; 0x00; 0x00; 0x00; 0x00; 0x00; 0x00; 0x00; 0x00; 0x00];
  [0x00; 0x00; 0x00; 0x00; 0x00; 0x00; 0x00; 0x00; 0x00; 0x00; 0x00; 0x00];
  [0x00; 0x00; 0x00; 0x00; 0x00; 0x00; 0x00; 0x00; 0x00; 0x00; 0x00; 0x00];
  [0x00; 0x00; 0x00; 0x00; 0x00; 0x00; 0x00; 0x00; 0x00; 0x00; 0x00; 0x00];
  [0x00; 0x00; 0x00; 0x00; 0x00; 0x00; 0x00; 0x00; 0x00; 0x00; 0x00; 0x00];
  [0x00; 0x00; 0x00; 0x00; 0x00; 0x00; 0x00; 0x00; 0x00; 0x00; 0x00; 0x00];
  [0x00; 0x00; 0x00; 0x00; 0x00; 0x00; 0x00; 0x00; 0x00; 0x00; 0x00; 0x00];
  [0x00; 0x00; 0x00; 0x00; 0x00; 0x00; 0x00; 0x00; 0x00; 0x00; 0x00; 0x00];
  [0x00; 0x00; 0x00; 0x00; 0x00; 0x00; 0x00; 0x00; 0x00; 0x00; 0x00; 0x00];
  [0x00; 0x00; 0x00; 0x00; 0x00; 0x00; 0x00; 0x00; 0x00; 0x00; 0x00; 0x00];
  [0x00; 0x00; 0x00; 0x00; 0x00; 0x00; 0x00; 0x00; 0x00; 0x00; 0x00; 0x00];
  [0x00; 0x00; 0x00; 0x00; 0x00; 0x00; 0x00; 0x00; 0x00; 0x00; 0x00; 0x00];
  [0x00; 0x00; 0x00; 0x00; 0x00; 0x00; 0x00; 0x00; 0x00; 0x00; 0x00; 0x00];
  [0x00; 0x00; 0x00; 0x00; 0x00; 0x00; 0x00; 0x00; 0x00; 0x00; 0x00; 0x00];
  [0x00; 0x00; 0x00; 0x00; 0x00; 0x00; 0x00; 0x00; 0x00; 0x00; 0x00; 0x00];
  [0x00; 0x00; 0x00; 0x00; 0x00; 0x00; 0x00; 0x00; 0x00; 0x00; 0x00; 0x00];
  [0x00; 0x00; 0x00; 0x00; 0x00; 0x00; 0x00; 0x00; 0x00; 0x00; 0x00; 0x00];
  [0x00; 0x00; 0x00; 0x00; 0x00; 0x00; 0x00; 0x00; 0x00; 0x00; 0x00; 0x00];
  [0x00; 0x00; 0x00; 0x00; 0x00; 0x00; 0x00; 0x00; 0x00; 0x00; 0x00; 0x00];
  [0x00; 0x00; 0x00; 0x00; 0x00; 0x00; 0x00; 0x00; 0x00; 0x00; 0x00; 0x00];
  [0x00; 0x00; 0x00; 0x00; 0x00; 0x00; 0x00; 0x00; 0x00; 0x00; 0x00; 0x00];
  [0x00; 0x00; 0x00; 0x00; 0x00; 0x00; 0x00; 0x00; 0x00; 0x00; 0x00; 0x00];
  [0x00; 0x00; 0x00; 0x00; 0x00; 0x00; 0x00; 0x00; 0x00; 0x00; 0x00; 0x00];
  [0x00; 0x00; 0x00; 0x00; 0x00; 0x00; 0x00; 0x00; 0x00; 0x00; 0x00; 0x00];
  [0x00; 0x00; 0x00; 0x00; 0x00; 0x00; 0x00; 0x00; 0x00; 0x00; 0x00; 0x00];
  [0x00; 0x00; 0x00; 0x00; 0x00; 0x00; 0x00; 0x00; 0x00; 0x00; 0x00; 0x00];
  [0x00; 0x00; 0x00; 0x00; 0x00; 0x00; 0x00; 0x00; 0x00; 0x00; 0x00; 0x00];
  [0x00; 0x00; 0x00; 0x00; 0x00; 0x00; 0x00; 0x00; 0x00; 0x00; 0x00; 0x00];
  [0x00; 0x00; 0x00; 0x00; 0x00; 0x00; 0x00; 0x00; 0x00; 0x00; 0x00; 0x00];
  [0x00; 0x00; 0x00; 0x00; 0x00; 0x00; 0x00; 0x00; 0x00; 0x00; 0x00; 0x00];
  [0x00; 0x00; 0x00; 0x00; 0x00; 0x00; 0x00; 0x00; 0x00; 0x00; 0x00; 0x00];
  [0x00; 0x00; 0x00; 0x00; 0x00; 0x00; 0x00; 0x00; 0x00; 0x00; 0x00; 0x00];
  [0x00; 0x00; 0x00; 0x00; 0x00; 0x00; 0x00; 0x00; 0x00; 0x00; 0x00; 0x00];
  [0x00; 0x00; 0x00; 0x00; 0x00; 0x00; 0x00; 0x00; 0x71; 0x10; 0x40; 0x00];
  [0x00; 0x00; 0x00; 0x00; 0x7e; 0x10; 0x40; 0x00; 0x00; 0x00; 0x00; 0x00];
  [0x00; 0x00; 0x00; 0x00; 0x00; 0x00; 0x00; 0x00; 0x00; 0x00; 0x00; 0x00];
  [0x00; 0x00; 0x00; 0x00; 0x3e; 0x10; 0x40; 0x00; 0x00; 0x00; 0x00; 0x00];
  [0x00; 0x00; 0x00; 0x00; 0x00; 0x00; 0x00; 0x00; 0x47; 0x43; 0x43; 0x3a];
  [0x20; 0x28; 0x47; 0x4e; 0x55; 0x29; 0x20; 0x31; 0x35; 0x2e; 0x32; 0x2e];
  [0x31; 0x20; 0x32; 0x30; 0x32; 0x35; 0x31; 0x32; 0x31; 0x31; 0x20; 0x28];
  [0x52; 0x65; 0x64; 0x20; 0x48; 0x61; 0x74; 0x20; 0x31; 0x35; 0x2e; 0x32];
  [0x2e; 0x31; 0x2d; 0x35; 0x29; 0x00; 0x00; 0x00; 0x00; 0x00; 0x00; 0x00];
  [0x00; 0x00; 0x00; 0x00; 0x00; 0x00; 0x00; 0x00; 0x00; 0x00; 0x00; 0x00];
  [0x00; 0x00; 0x00; 0x00; 0x00; 0x00; 0x00; 0x00; 0x01; 0x00; 0x00; 0x00];
  [0x04; 0x00; 0xf1; 0xff; 0x00; 0x00; 0x00; 0x00; 0x00; 0x00; 0x00; 0x00];
  [0x00; 0x00; 0x00; 0x00; 0x00; 0x00; 0x00; 0x00; 0x08; 0x00; 0x00; 0x00];
  [0x01; 0x00; 0x06; 0x00; 0x20; 0x20; 0x40; 0x00; 0x00; 0x00; 0x00; 0x00];
  [0x10; 0x00; 0x00; 0x00; 0x00; 0x00; 0x00; 0x00; 0x0f; 0x00; 0x00; 0x00];
  [0x01; 0x00; 0x06; 0x00; 0x00; 0x20; 0x40; 0x00; 0x00; 0x00; 0x00; 0x00];
  [0x18; 0x00; 0x00; 0x00; 0x00; 0x00; 0x00; 0x00; 0x16; 0x00; 0x00; 0x00];
  [0x04; 0x00; 0xf1; 0xff; 0x00; 0x00; 0x00; 0x00; 0x00; 0x00; 0x00; 0x00];
  [0x00; 0x00; 0x00; 0x00; 0x00; 0x00; 0x00; 0x00; 0x00; 0x00; 0x00; 0x00];
  [0x04; 0x00; 0xf1; 0xff; 0x00; 0x00; 0x00; 0x00; 0x00; 0x00; 0x00; 0x00];
  [0x00; 0x00; 0x00; 0x00; 0x00; 0x00; 0x00; 0x00; 0x1d; 0x00; 0x00; 0x00];
  [0x00; 0x00; 0x04; 0x00; 0xb8; 0x10; 0x40; 0x00; 0x00; 0x00; 0x00; 0x00];
  [0x00; 0x00; 0x00; 0x00; 0x00; 0x00; 0x00; 0x00; 0x30; 0x00; 0x00; 0x00];
  [0x12; 0x00; 0x01; 0x00; 0x60; 0x03; 0x40; 0x00; 0x00; 0x00; 0x00; 0x00];
  [0x38; 0x00; 0x00; 0x00; 0x00; 0x00; 0x00; 0x00; 0x37; 0x00; 0x00; 0x00];
  [0x12; 0x00; 0x01; 0x00; 0xa0; 0x03; 0x40; 0x00; 0x00; 0x00; 0x00; 0x00];
  [0x34; 0x00; 0x00; 0x00; 0x00; 0x00; 0x00; 0x00; 0x3e; 0x00; 0x00; 0x00];
  [0x12; 0x00; 0x01; 0x00; 0x60; 0x04; 0x40; 0x00; 0x00; 0x00; 0x00; 0x00];
  [0x0b; 0x00; 0x00; 0x00; 0x00; 0x00; 0x00; 0x00; 0x49; 0x00; 0x00; 0x00];
  [0x12; 0x00; 0x01; 0x00; 0x40; 0x04; 0x40; 0x00; 0x00; 0x00; 0x00; 0x00];
  [0x0e; 0x00; 0x00; 0x00; 0x00; 0x00; 0x00; 0x00; 0x57; 0x00; 0x00; 0x00];
  [0x12; 0x00; 0x01; 0x00; 0xe0; 0x01; 0x40; 0x00; 0x00; 0x00; 0x00; 0x00];
  [0xdc; 0x00; 0x00; 0x00; 0x00; 0x00; 0x00; 0x00; 0x52; 0x00; 0x00; 0x00];
  [0x10; 0x00; 0x06; 0x00; 0x30; 0x20; 0x40; 0x00; 0x00; 0x00; 0x00; 0x00];
  [0x00; 0x00; 0x00; 0x00; 0x00; 0x00; 0x00; 0x00; 0x5e; 0x00; 0x00; 0x00];
  [0x12; 0x00; 0x01; 0x00; 0xe0; 0x03; 0x40; 0x00; 0x00; 0x00; 0x00; 0x00];
  [0x56; 0x00; 0x00; 0x00; 0x00; 0x00; 0x00; 0x00; 0x65; 0x00; 0x00; 0x00];
  [0x12; 0x00; 0x01; 0x00; 0xf0; 0x02; 0x40; 0x00; 0x00; 0x00; 0x00; 0x00];
  [0x69; 0x00; 0x00; 0x00; 0x00; 0x00; 0x00; 0x00; 0x6c; 0x00; 0x00; 0x00];
  [0x12; 0x00; 0x01; 0x00; 0x80; 0x04; 0x40; 0x00; 0x00; 0x00; 0x00; 0x00];
  [0x08; 0x00; 0x00; 0x00; 0x00; 0x00; 0x00; 0x00; 0x77; 0x00; 0x00; 0x00];
  [0x10; 0x00; 0x06; 0x00; 0x30; 0x20; 0x40; 0x00; 0x00; 0x00; 0x00; 0x00];
  [0x00; 0x00; 0x00; 0x00; 0x00; 0x00; 0x00; 0x00; 0x7e; 0x00; 0x00; 0x00];
  [0x10; 0x00; 0x06; 0x00; 0x30; 0x20; 0x40; 0x00; 0x00; 0x00; 0x00; 0x00];
  [0x00; 0x00; 0x00; 0x00; 0x00; 0x00; 0x00; 0x00; 0x83; 0x00; 0x00; 0x00];
  [0x12; 0x00; 0x01; 0x00; 0xc0; 0x02; 0x40; 0x00; 0x00; 0x00; 0x00; 0x00];
  [0x2b; 0x00; 0x00; 0x00; 0x00; 0x00; 0x00; 0x00; 0x8a; 0x00; 0x00; 0x00];
  [0x12; 0x00; 0x01; 0x00; 0x50; 0x04; 0x40; 0x00; 0x00; 0x00; 0x00; 0x00];
  [0x08; 0x00; 0x00; 0x00; 0x00; 0x00; 0x00; 0x00; 0x93; 0x00; 0x00; 0x00];
  [0x12; 0x00; 0x01; 0x00; 0x70; 0x04; 0x40; 0x00; 0x00; 0x00; 0x00; 0x00];
  [0x08; 0x00; 0x00; 0x00; 0x00; 0x00; 0x00; 0x00; 0x00; 0x69; 0x6e; 0x69];
  [0x74; 0x2e; 0x63; 0x00; 0x61; 0x72; 0x67; 0x76; 0x2e; 0x31; 0x00; 0x65];
  [0x6e; 0x76; 0x70; 0x2e; 0x30; 0x00; 0x6c; 0x69; 0x62; 0x63; 0x2e; 0x63];
  [0x00; 0x5f; 0x5f; 0x47; 0x4e; 0x55; 0x5f; 0x45; 0x48; 0x5f; 0x46; 0x52];
  [0x41; 0x4d; 0x45; 0x5f; 0x48; 0x44; 0x52; 0x00; 0x73; 0x74; 0x72; 0x63];
  [0x70; 0x79; 0x00; 0x6d; 0x65; 0x6d; 0x63; 0x70; 0x79; 0x00; 0x73; 0x79];
  [0x73; 0x5f; 0x73; 0x70; 0x61; 0x77; 0x6e; 0x32; 0x00; 0x73; 0x79; 0x73];
  [0x5f; 0x64; 0x75; 0x70; 0x32; 0x00; 0x5f; 0x5f; 0x62; 0x73; 0x73; 0x5f];
  [0x73; 0x74; 0x61; 0x72; 0x74; 0x00; 0x6d; 0x65; 0x6d; 0x73; 0x65; 0x74];
  [0x00; 0x73; 0x74; 0x72; 0x63; 0x6d; 0x70; 0x00; 0x73; 0x79; 0x73; 0x5f];
  [0x67; 0x65; 0x74; 0x63; 0x77; 0x64; 0x00; 0x5f; 0x65; 0x64; 0x61; 0x74];
  [0x61; 0x00; 0x5f; 0x65; 0x6e; 0x64; 0x00; 0x73; 0x74; 0x72; 0x6c; 0x65];
  [0x6e; 0x00; 0x73; 0x79; 0x73; 0x5f; 0x70; 0x69; 0x70; 0x65; 0x00; 0x73];
  [0x79; 0x73; 0x5f; 0x63; 0x68; 0x64; 0x69; 0x72; 0x00; 0x00; 0x2e; 0x73];
  [0x79; 0x6d; 0x74; 0x61; 0x62; 0x00; 0x2e; 0x73; 0x74; 0x72; 0x74; 0x61];
  [0x62; 0x00; 0x2e; 0x73; 0x68; 0x73; 0x74; 0x72; 0x74; 0x61; 0x62; 0x00];
  [0x2e; 0x74; 0x65; 0x78; 0x74; 0x00; 0x2e; 0x6e; 0x6f; 0x74; 0x65; 0x2e];
  [0x67; 0x6e; 0x75; 0x2e; 0x70; 0x72; 0x6f; 0x70; 0x65; 0x72; 0x74; 0x79];
  [0x00; 0x2e; 0x72; 0x6f; 0x64; 0x61; 0x74; 0x61; 0x00; 0x2e; 0x65; 0x68];
  [0x5f; 0x66; 0x72; 0x61; 0x6d; 0x65; 0x5f; 0x68; 0x64; 0x72; 0x00; 0x2e];
  [0x65; 0x68; 0x5f; 0x66; 0x72; 0x61; 0x6d; 0x65; 0x00; 0x2e; 0x64; 0x61];
  [0x74; 0x61; 0x00; 0x2e; 0x63; 0x6f; 0x6d; 0x6d; 0x65; 0x6e; 0x74; 0x00];
  [0x00; 0x00; 0x00; 0x00; 0x00; 0x00; 0x00; 0x00; 0x00; 0x00; 0x00; 0x00];
  [0x00; 0x00; 0x00; 0x00; 0x00; 0x00; 0x00; 0x00; 0x00; 0x00; 0x00; 0x00];
  [0x00; 0x00; 0x00; 0x00; 0x00; 0x00; 0x00; 0x00; 0x00; 0x00; 0x00; 0x00];
  [0x00; 0x00; 0x00; 0x00; 0x00; 0x00; 0x00; 0x00; 0x00; 0x00; 0x00; 0x00];
  [0x00; 0x00; 0x00; 0x00; 0x00; 0x00; 0x00; 0x00; 0x00; 0x00; 0x00; 0x00];
  [0x00; 0x00; 0x00; 0x00; 0x1b; 0x00; 0x00; 0x00; 0x01; 0x00; 0x00; 0x00];
  [0x06; 0x00; 0x00; 0x00; 0x00; 0x00; 0x00; 0x00; 0xe0; 0x01; 0x40; 0x00];
  [0x00; 0x00; 0x00; 0x00; 0xe0; 0x01; 0x00; 0x00; 0x00; 0x00; 0x00; 0x00];
  [0xa8; 0x02; 0x00; 0x00; 0x00; 0x00; 0x00; 0x00; 0x00; 0x00; 0x00; 0x00];
  [0x00; 0x00; 0x00; 0x00; 0x20; 0x00; 0x00; 0x00; 0x00; 0x00; 0x00; 0x00];
  [0x00; 0x00; 0x00; 0x00; 0x00; 0x00; 0x00; 0x00; 0x21; 0x00; 0x00; 0x00];
  [0x07; 0x00; 0x00; 0x00; 0x02; 0x00; 0x00; 0x00; 0x00; 0x00; 0x00; 0x00];
  [0x00; 0x10; 0x40; 0x00; 0x00; 0x00; 0x00; 0x00; 0x00; 0x10; 0x00; 0x00];
  [0x00; 0x00; 0x00; 0x00; 0x30; 0x00; 0x00; 0x00; 0x00; 0x00; 0x00; 0x00];
  [0x00; 0x00; 0x00; 0x00; 0x00; 0x00; 0x00; 0x00; 0x08; 0x00; 0x00; 0x00];
  [0x00; 0x00; 0x00; 0x00; 0x00; 0x00; 0x00; 0x00; 0x00; 0x00; 0x00; 0x00];
  [0x34; 0x00; 0x00; 0x00; 0x01; 0x00; 0x00; 0x00; 0x32; 0x00; 0x00; 0x00];
  [0x00; 0x00; 0x00; 0x00; 0x30; 0x10; 0x40; 0x00; 0x00; 0x00; 0x00; 0x00];
  [0x30; 0x10; 0x00; 0x00; 0x00; 0x00; 0x00; 0x00; 0x86; 0x00; 0x00; 0x00];
  [0x00; 0x00; 0x00; 0x00; 0x00; 0x00; 0x00; 0x00; 0x00; 0x00; 0x00; 0x00];
  [0x08; 0x00; 0x00; 0x00; 0x00; 0x00; 0x00; 0x00; 0x01; 0x00; 0x00; 0x00];
  [0x00; 0x00; 0x00; 0x00; 0x3c; 0x00; 0x00; 0x00; 0x01; 0x00; 0x00; 0x00];
  [0x02; 0x00; 0x00; 0x00; 0x00; 0x00; 0x00; 0x00; 0xb8; 0x10; 0x40; 0x00];
  [0x00; 0x00; 0x00; 0x00; 0xb8; 0x10; 0x00; 0x00; 0x00; 0x00; 0x00; 0x00];
  [0x64; 0x00; 0x00; 0x00; 0x00; 0x00; 0x00; 0x00; 0x00; 0x00; 0x00; 0x00];
  [0x00; 0x00; 0x00; 0x00; 0x04; 0x00; 0x00; 0x00; 0x00; 0x00; 0x00; 0x00];
  [0x00; 0x00; 0x00; 0x00; 0x00; 0x00; 0x00; 0x00; 0x4a; 0x00; 0x00; 0x00];
  [0x01; 0x00; 0x00; 0x00; 0x02; 0x00; 0x00; 0x00; 0x00; 0x00; 0x00; 0x00];
  [0x20; 0x11; 0x40; 0x00; 0x00; 0x00; 0x00; 0x00; 0x20; 0x11; 0x00; 0x00];
  [0x00; 0x00; 0x00; 0x00; 0x00; 0x01; 0x00; 0x00; 0x00; 0x00; 0x00; 0x00];
  [0x00; 0x00; 0x00; 0x00; 0x00; 0x00; 0x00; 0x00; 0x08; 0x00; 0x00; 0x00];
  [0x00; 0x00; 0x00; 0x00; 0x00; 0x00; 0x00; 0x00; 0x00; 0x00; 0x00; 0x00];
  [0x54; 0x00; 0x00; 0x00; 0x01; 0x00; 0x00; 0x00; 0x03; 0x00; 0x00; 0x00];
  [0x00; 0x00; 0x00; 0x00; 0x00; 0x20; 0x40; 0x00; 0x00; 0x00; 0x00; 0x00];
  [0x00; 0x20; 0x00; 0x00; 0x00; 0x00; 0x00; 0x00; 0x30; 0x00; 0x00; 0x00];
  [0x00; 0x00; 0x00; 0x00; 0x00; 0x00; 0x00; 0x00; 0x00; 0x00; 0x00; 0x00];
  [0x10; 0x00; 0x00; 0x00; 0x00; 0x00; 0x00; 0x00; 0x00; 0x00; 0x00; 0x00];
  [0x00; 0x00; 0x00; 0x00; 0x5a; 0x00; 0x00; 0x00; 0x01; 0x00; 0x00; 0x00];
  [0x30; 0x00; 0x00; 0x00; 0x00; 0x00; 0x00; 0x00; 0x00; 0x00; 0x00; 0x00];
  [0x00; 0x00; 0x00; 0x00; 0x30; 0x20; 0x00; 0x00; 0x00; 0x00; 0x00; 0x00];
  [0x2e; 0x00; 0x00; 0x00; 0x00; 0x00; 0x00; 0x00; 0x00; 0x00; 0x00; 0x00];
  [0x00; 0x00; 0x00; 0x00; 0x01; 0x00; 0x00; 0x00; 0x00; 0x00; 0x00; 0x00];
  [0x01; 0x00; 0x00; 0x00; 0x00; 0x00; 0x00; 0x00; 0x01; 0x00; 0x00; 0x00];
  [0x02; 0x00; 0x00; 0x00; 0x00; 0x00; 0x00; 0x00; 0x00; 0x00; 0x00; 0x00];
  [0x00; 0x00; 0x00; 0x00; 0x00; 0x00; 0x00; 0x00; 0x60; 0x20; 0x00; 0x00];
  [0x00; 0x00; 0x00; 0x00; 0xf8; 0x01; 0x00; 0x00; 0x00; 0x00; 0x00; 0x00];
  [0x09; 0x00; 0x00; 0x00; 0x07; 0x00; 0x00; 0x00; 0x08; 0x00; 0x00; 0x00];
  [0x00; 0x00; 0x00; 0x00; 0x18; 0x00; 0x00; 0x00; 0x00; 0x00; 0x00; 0x00];
  [0x09; 0x00; 0x00; 0x00; 0x03; 0x00; 0x00; 0x00; 0x00; 0x00; 0x00; 0x00];
  [0x00; 0x00; 0x00; 0x00; 0x00; 0x00; 0x00; 0x00; 0x00; 0x00; 0x00; 0x00];
  [0x58; 0x22; 0x00; 0x00; 0x00; 0x00; 0x00; 0x00; 0x9d; 0x00; 0x00; 0x00];
  [0x00; 0x00; 0x00; 0x00; 0x00; 0x00; 0x00; 0x00; 0x00; 0x00; 0x00; 0x00];
  [0x01; 0x00; 0x00; 0x00; 0x00; 0x00; 0x00; 0x00; 0x00; 0x00; 0x00; 0x00];
  [0x00; 0x00; 0x00; 0x00; 0x11; 0x00; 0x00; 0x00; 0x03; 0x00; 0x00; 0x00];
  [0x00; 0x00; 0x00; 0x00; 0x00; 0x00; 0x00; 0x00; 0x00; 0x00; 0x00; 0x00];
  [0x00; 0x00; 0x00; 0x00; 0xf5; 0x22; 0x00; 0x00; 0x00; 0x00; 0x00; 0x00];
  [0x63; 0x00; 0x00; 0x00; 0x00; 0x00; 0x00; 0x00; 0x00; 0x00; 0x00; 0x00];
  [0x00; 0x00; 0x00; 0x00; 0x01; 0x00; 0x00; 0x00; 0x00; 0x00; 0x00; 0x00];
  [0x00; 0x00; 0x00; 0x00; 0x00; 0x00; 0x00; 0x00]].
Definition user_image_init_len : Z := 9752.

Definition user_image_echo : list Z := concat [
  [0x7f; 0x45; 0x4c; 0x46; 0x02; 0x01; 0x01; 0x00; 0x00; 0x00; 0x00; 0x00];
  [0x00; 0x00; 0x00; 0x00; 0x02; 0x00; 0x3e; 0x00; 0x01; 0x00; 0x00; 0x00];
  [0x30; 0x02; 0x40; 0x00; 0x00; 0x00; 0x00; 0x00; 0x40; 0x00; 0x00; 0x00];
  [0x00; 0x00; 0x00; 0x00; 0xe0; 0x14; 0x00; 0x00; 0x00; 0x00; 0x00; 0x00];
  [0x00; 0x00; 0x00; 0x00; 0x40; 0x00; 0x38; 0x00; 0x06; 0x00; 0x40; 0x00];
  [0x0a; 0x00; 0x09; 0x00; 0x01; 0x00; 0x00; 0x00; 0x05; 0x00; 0x00; 0x00];
  [0x00; 0x00; 0x00; 0x00; 0x00; 0x00; 0x00; 0x00; 0x00; 0x00; 0x40; 0x00];
  [0x00; 0x00; 0x00; 0x00; 0x00; 0x00; 0x40; 0x00; 0x00; 0x00; 0x00; 0x00];
  [0x08; 0x04; 0x00; 0x00; 0x00; 0x00; 0x00; 0x00; 0x08; 0x04; 0x00; 0x00];
  [0x00; 0x00; 0x00; 0x00; 0x00; 0x10; 0x00; 0x00; 0x00; 0x00; 0x00; 0x00];
  [0x01; 0x00; 0x00; 0x00; 0x04; 0x00; 0x00; 0x00; 0x00; 0x10; 0x00; 0x00];
  [0x00; 0x00; 0x00; 0x00; 0x00; 0x10; 0x40; 0x00; 0x00; 0x00; 0x00; 0x00];
  [0x00; 0x10; 0x40; 0x00; 0x00; 0x00; 0x00; 0x00; 0xd8; 0x01; 0x00; 0x00];
  [0x00; 0x00; 0x00; 0x00; 0xd8; 0x01; 0x00; 0x00; 0x00; 0x00; 0x00; 0x00];
  [0x00; 0x10; 0x00; 0x00; 0x00; 0x00; 0x00; 0x00; 0x04; 0x00; 0x00; 0x00];
  [0x04; 0x00; 0x00; 0x00; 0x00; 0x10; 0x00; 0x00; 0x00; 0x00; 0x00; 0x00];
  [0x00; 0x10; 0x40; 0x00; 0x00; 0x00; 0x00; 0x00; 0x00; 0x10; 0x40; 0x00];
  [0x00; 0x00; 0x00; 0x00; 0x30; 0x00; 0x00; 0x00; 0x00; 0x00; 0x00; 0x00];
  [0x30; 0x00; 0x00; 0x00; 0x00; 0x00; 0x00; 0x00; 0x08; 0x00; 0x00; 0x00];
  [0x00; 0x00; 0x00; 0x00; 0x53; 0xe5; 0x74; 0x64; 0x04; 0x00; 0x00; 0x00];
  [0x00; 0x10; 0x00; 0x00; 0x00; 0x00; 0x00; 0x00; 0x00; 0x10; 0x40; 0x00];
  [0x00; 0x00; 0x00; 0x00; 0x00; 0x10; 0x40; 0x00; 0x00; 0x00; 0x00; 0x00];
  [0x30; 0x00; 0x00; 0x00; 0x00; 0x00; 0x00; 0x00; 0x30; 0x00; 0x00; 0x00];
  [0x00; 0x00; 0x00; 0x00; 0x08; 0x00; 0x00; 0x00; 0x00; 0x00; 0x00; 0x00];
  [0x50; 0xe5; 0x74; 0x64; 0x04; 0x00; 0x00; 0x00; 0x34; 0x10; 0x00; 0x00];
  [0x00; 0x00; 0x00; 0x00; 0x34; 0x10; 0x40; 0x00; 0x00; 0x00; 0x00; 0x00];
  [0x34; 0x10; 0x40; 0x00; 0x00; 0x00; 0x00; 0x00; 0x6c; 0x00; 0x00; 0x00];
  [0x00; 0x00; 0x00; 0x00; 0x6c; 0x00; 0x00; 0x00; 0x00; 0x00; 0x00; 0x00];
  [0x04; 0x00; 0x00; 0x00; 0x00; 0x00; 0x00; 0x00; 0x51; 0xe5; 0x74; 0x64];
  [0x06; 0x00; 0x00; 0x00; 0x00; 0x00; 0x00; 0x00; 0x00; 0x00; 0x00; 0x00];
  [0x00; 0x00; 0x00; 0x00; 0x00; 0x00; 0x00; 0x00; 0x00; 0x00; 0x00; 0x00];
  [0x00; 0x00; 0x00; 0x00; 0x00; 0x00; 0x00; 0x00; 0x00; 0x00; 0x00; 0x00];
  [0x00; 0x00; 0x00; 0x00; 0x00; 0x00; 0x00; 0x00; 0x10; 0x00; 0x00; 0x00];
  [0x00; 0x00; 0x00; 0x00; 0x00; 0x00; 0x00; 0x00; 0x00; 0x00; 0x00; 0x00];
  [0x00; 0x00; 0x00; 0x00; 0x00; 0x00; 0x00; 0x00; 0x41; 0x56; 0x41; 0x55];
  [0x41; 0x54; 0x55; 0x53; 0x4c; 0x8b; 0x37; 0x49; 0x83; 0xfe; 0x01; 0x76];
  [0x46; 0x49; 0x89; 0xfd; 0xbb; 0x01; 0x00; 0x00; 0x00; 0xeb; 0x14; 0x0f];
  [0x1f; 0x44; 0x00; 0x00; 0xb8; 0x04; 0x00; 0x00; 0x00; 0xbe; 0x30; 0x10];
  [0x40; 0x00; 0x48; 0x89; 0xfa; 0x0f; 0x05; 0x48; 0x83; 0xc3; 0x01; 0x49];
  [0x8b; 0x6c; 0xdd; 0x00; 0x48; 0x89; 0xef; 0xe8; 0x60; 0x00; 0x00; 0x00];
  [0xbf; 0x01; 0x00; 0x00; 0x00; 0x48; 0x89; 0xee; 0x48; 0x89; 0xc2; 0xb8];
  [0x04; 0x00; 0x00; 0x00; 0x0f; 0x05; 0x49; 0x39; 0xde; 0x75; 0xc9; 0xb8];
  [0x04; 0x00; 0x00; 0x00; 0xbf; 0x01; 0x00; 0x00; 0x00; 0xbe; 0x32; 0x10];
  [0x40; 0x00; 0xba; 0x01; 0x00; 0x00; 0x00; 0x0f; 0x05; 0x31; 0xff; 0xb8];
  [0x01; 0x00; 0x00; 0x00; 0x48; 0x89; 0xfe; 0x48; 0x89; 0xfa; 0x0f; 0x05];
  [0x5b; 0x5d; 0x41; 0x5c; 0x41; 0x5d; 0x41; 0x5e; 0xc3; 0x66; 0x66; 0x2e];
  [0x0f; 0x1f; 0x84; 0x00; 0x00; 0x00; 0x00; 0x00; 0x48; 0x89; 0xe7; 0x48];
  [0x83; 0xe4; 0xf0; 0xe8; 0x64; 0xff; 0xff; 0xff; 0xf4; 0x0f; 0x0b; 0x90];
  [0x31; 0xc0; 0x48; 0x85; 0xff; 0x75; 0x09; 0xc3; 0x0f; 0x1f; 0x84; 0x00];
  [0x00; 0x00; 0x00; 0x00; 0x80; 0x3f; 0x00; 0x74; 0xf2; 0x66; 0x66; 0x2e];
  [0x0f; 0x1f; 0x84; 0x00; 0x00; 0x00; 0x00; 0x00; 0x48; 0x83; 0xc0; 0x01];
  [0x80; 0x3c; 0x07; 0x00; 0x75; 0xf6; 0xc3; 0x0f; 0x1f; 0x44; 0x00; 0x00];
  [0x48; 0x85; 0xff; 0x74; 0x3b; 0x48; 0x85; 0xf6; 0x74; 0x36; 0x0f; 0xb6];
  [0x07; 0x84; 0xc0; 0x75; 0x1b; 0xeb; 0x4e; 0x0f; 0x1f; 0x44; 0x00; 0x00];
  [0x84; 0xd2; 0x74; 0x17; 0x0f; 0xb6; 0x47; 0x01; 0x48; 0x83; 0xc7; 0x01];
  [0x84; 0xc0; 0x74; 0x30; 0x48; 0x83; 0xc6; 0x01; 0x0f; 0xb6; 0x16; 0x38];
  [0xc2; 0x74; 0xe5; 0x29; 0xd0; 0xc3; 0x66; 0x2e; 0x0f; 0x1f; 0x84; 0x00];
  [0x00; 0x00; 0x00; 0x00; 0x31; 0xc0; 0x48; 0x39; 0xf7; 0x74; 0xee; 0x48];
  [0x83; 0xff; 0x01; 0x19; 0xc0; 0x83; 0xc8; 0x01; 0xc3; 0x0f; 0x1f; 0x80];
  [0x00; 0x00; 0x00; 0x00; 0x0f; 0xb6; 0x56; 0x01; 0x31; 0xc0; 0x29; 0xd0];
  [0xc3; 0x0f; 0xb6; 0x16; 0x31; 0xc0; 0x29; 0xd0; 0xc3; 0x0f; 0x1f; 0x80];
  [0x00; 0x00; 0x00; 0x00; 0x48; 0x85; 0xff; 0x74; 0x2f; 0x48; 0x85; 0xf6];
  [0x74; 0x2a; 0x0f; 0xb6; 0x06; 0x48; 0x89; 0xfa; 0x84; 0xc0; 0x74; 0x1d];
  [0x90; 0x66; 0x66; 0x2e; 0x0f; 0x1f; 0x84; 0x00; 0x00; 0x00; 0x00; 0x00];
  [0x48; 0x83; 0xc6; 0x01; 0x88; 0x02; 0x48; 0x83; 0xc2; 0x01; 0x0f; 0xb6];
  [0x06; 0x84; 0xc0; 0x75; 0xef; 0xc6; 0x02; 0x00; 0x48; 0x89; 0xf8; 0xc3];
  [0x0f; 0x1f; 0x84; 0x00; 0x00; 0x00; 0x00; 0x00; 0x48; 0x85; 0xf6; 0x48];
  [0x89; 0xd1; 0x0f; 0x94; 0xc0; 0x48; 0x85; 0xd2; 0x0f; 0x94; 0xc2; 0x08];
  [0xd0; 0x75; 0x1d; 0x48; 0x85; 0xff; 0x74; 0x18; 0x31; 0xc0; 0x66; 0x0f];
  [0x1f; 0x44; 0x00; 0x00; 0x0f; 0xb6; 0x14; 0x06; 0x88; 0x14; 0x07; 0x48];
  [0x83; 0xc0; 0x01; 0x48; 0x39; 0xc8; 0x72; 0xf0; 0x48; 0x89; 0xf8; 0xc3];
  [0x90; 0x66; 0x66; 0x2e; 0x0f; 0x1f; 0x84; 0x00; 0x00; 0x00; 0x00; 0x00];
  [0x48; 0x85; 0xff; 0x74; 0x4d; 0x48; 0x85; 0xd2; 0x74; 0x48; 0xb8; 0x01];
  [0x00; 0x00; 0x00; 0x40; 0x88; 0x37; 0x48; 0x8d; 0x4a; 0xff; 0x48; 0x39];
  [0xd0; 0x73; 0x37; 0x83; 0xe1; 0x01; 0x74; 0x20; 0x40; 0x88; 0x34; 0x07];
  [0xb8; 0x02; 0x00; 0x00; 0x00; 0x48; 0x39; 0xd0; 0x73; 0x24; 0x0f; 0x1f];
  [0x80; 0x00; 0x00; 0x00; 0x00; 0x66; 0x66; 0x2e; 0x0f; 0x1f; 0x84; 0x00];
  [0x00; 0x00; 0x00; 0x00; 0x40; 0x88; 0x34; 0x07; 0x40; 0x88; 0x74; 0x07];
  [0x01; 0x48; 0x83; 0xc0; 0x02; 0x48; 0x39; 0xd0; 0x72; 0xee; 0x48; 0x89];
  [0xf8; 0xc3; 0x66; 0x2e; 0x0f; 0x1f; 0x84; 0x00; 0x00; 0x00; 0x00; 0x00];
  [0x48; 0x63; 0xff; 0x48; 0x63; 0xf6; 0xb8; 0x0b; 0x00; 0x00; 0x00; 0x0f];
  [0x05; 0xc3; 0x66; 0x90; 0xb8; 0x0c; 0x00; 0x00; 0x00; 0x0f; 0x05; 0xc3];
  [0x0f; 0x1f; 0x84; 0x00; 0x00; 0x00; 0x00; 0x00; 0x49; 0x89; 0xca; 0xb8];
  [0x07; 0x00; 0x00; 0x00; 0x0f; 0x05; 0xc3; 0x0f; 0x1f; 0x44; 0x00; 0x00];
  [0xb8; 0x0d; 0x00; 0x00; 0x00; 0x0f; 0x05; 0xc3; 0x0f; 0x1f; 0x84; 0x00];
  [0x00; 0x00; 0x00; 0x00; 0xb8; 0x0e; 0x00; 0x00; 0x00; 0x0f; 0x05; 0xc3];
  [0x00; 0x00; 0x00; 0x00; 0x00; 0x00; 0x00; 0x00; 0x00; 0x00; 0x00; 0x00];
  [0x00; 0x00; 0x00; 0x00; 0x00; 0x00; 0x00; 0x00; 0x00; 0x00; 0x00; 0x00];
  [0x00; 0x00; 0x00; 0x00; 0x00; 0x00; 0x00; 0x00; 0x00; 0x00; 0x00; 0x00];
  [0x00; 0x00; 0x00; 0x00; 0x00; 0x00; 0x00; 0x00; 0x00; 0x00; 0x00; 0x00];
  [0x00; 0x00; 0x00; 0x00; 0x00; 0x00; 0x00; 0x00; 0x00; 0x00; 0x00; 0x00];
  [0x00; 0x00; 0x00; 0x00; 0x00; 0x00; 0x00; 0x00; 0x00; 0x00; 0x00; 0x00];
  [0x00; 0x00; 0x00; 0x00; 0x00; 0x00; 0x00; 0x00; 0x00; 0x00; 0x00; 0x00];
  [0x00; 0x00; 0x00; 0x00; 0x00; 0x00; 0x00; 0x00; 0x00; 0x00; 0x00; 0x00];
  [0x00; 0x00; 0x00; 0x00; 0x00; 0x00; 0x00; 0x00; 0x00; 0x00; 0x00; 0x00];
  [0x00; 0x00; 0x00; 0x00; 0x00; 0x00; 0x00; 0x00; 0x00; 0x00; 0x00; 0x00];
  [0x00; 0x00; 0x00; 0x00; 0x00; 0x00; 0x00; 0x00; 0x00; 0x00; 0x00; 0x00];
  [0x00; 0x00; 0x00; 0x00; 0x00; 0x00; 0x00; 0x00; 0x00; 0x00; 0x00; 0x00];
  [0x00; 0x00; 0x00; 0x00; 0x00; 0x00; 0x00; 0x00; 0x00; 0x00; 0x00; 0x00];
  [0x00; 0x00; 0x00; 0x00; 0x00; 0x00; 0x00; 0x00; 0x00; 0x00; 0x00; 0x00];
  [0x00; 0x00; 0x00; 0x00; 0x00; 0x00; 0x00; 0x00; 0x00; 0x00; 0x00; 0x00];
  [0x00; 0x00; 0x00; 0x00; 0x00; 0x00; 0x00; 0x00; 0x00; 0x00; 0x00; 0x00];
  [0x00; 0x00; 0x00; 0x00; 0x00; 0x00; 0x00; 0x00; 0x00; 0x00; 0x00; 0x00];
  [0x00; 0x00; 0x00; 0x00; 0x00; 0x00; 0x00; 0x00; 0x00; 0x00; 0x00; 0x00];
  [0x00; 0x00; 0x00; 0x00; 0x00; 0x00; 0x00; 0x00; 0x00; 0x00; 0x00; 0x00];
  [0x00; 0x00; 0x00; 0x00; 0x00; 0x00; 0x00; 0x00; 0x00; 0x00; 0x00; 0x00];
  [0x00; 0x00; 0x00; 0x00; 0x00; 0x00; 0x00; 0x00; 0x00; 0x00; 0x00; 0x00];
  [0x00; 0x00; 0x00; 0x00; 0x00; 0x00; 0x00; 0x00; 0x00; 0x00; 0x00; 0x00];
  [0x00; 0x00; 0x00; 0x00; 0x00; 0x00; 0x00; 0x00; 0x00; 0x00; 0x00; 0x00];
  [0x00; 0x00; 0x00; 0x00; 0x00; 0x00; 0x00; 0x00; 0x00; 0x00; 0x00; 0x00];
  [0x00; 0x00; 0x00; 0x00; 0x00; 0x00; 0x00; 0x00; 0x00; 0x00; 0x00; 0x00];
  [0x00; 0x00; 0x00; 0x00; 0x00; 0x00; 0x00; 0x00; 0x00; 0x00; 0x00; 0x00];
  [0x00; 0x00; 0x00; 0x00; 0x00; 0x00; 0x00; 0x00; 0x00; 0x00; 0x00; 0x00];
  [0x00; 0x00; 0x00; 0x00; 0x00; 0x00; 0x00; 0x00; 0x00; 0x00; 0x00; 0x00];
  [0x00; 0x00; 0x00; 0x00; 0x00; 0x00; 0x00; 0x00; 0x00; 0x00; 0x00; 0x00];
  [0x00; 0x00; 0x00; 0x00; 0x00; 0x00; 0x00; 0x00; 0x00; 0x00; 0x00; 0x00];
  [0x00; 0x00; 0x00; 0x00; 0x00; 0x00; 0x00; 0x00; 0x00; 0x00; 0x00; 0x00];
  [0x00; 0x00; 0x00; 0x00; 0x00; 0x00; 0x00; 0x00; 0x00; 0x00; 0x00; 0x00];
  [0x00; 0x00; 0x00; 0x00; 0x00; 0x00; 0x00; 0x00; 0x00; 0x00; 0x00; 0x00];
  [0x00; 0x00; 0x00; 0x00; 0x00; 0x00; 0x00; 0x00; 0x00; 0x00; 0x00; 0x00];
  [0x00; 0x00; 0x00; 0x00; 0x00; 0x00; 0x00; 0x00; 0x00; 0x00; 0x00; 0x00];
  [0x00; 0x00; 0x00; 0x00; 0x00; 0x00; 0x00; 0x00; 0x00; 0x00; 0x00; 0x00];
  [0x00; 0x00; 0x00; 0x00; 0x00; 0x00; 0x00; 0x00; 0x00; 0x00; 0x00; 0x00];
  [0x00; 0x00; 0x00; 0x00; 0x00; 0x00; 0x00; 0x00; 0x00; 0x00; 0x00; 0x00];
  [0x00; 0x00; 0x00; 0x00; 0x00; 0x00; 0x00; 0x00; 0x00; 0x00; 0x00; 0x00];
  [0x00; 0x00; 0x00; 0x00; 0x00; 0x00; 0x00; 0x00; 0x00; 0x00; 0x00; 0x00];
  [0x00; 0x00; 0x00; 0x00; 0x00; 0x00; 0x00; 0x00; 0x00; 0x00; 0x00; 0x00];
  [0x00; 0x00; 0x00; 0x00; 0x00; 0x00; 0x00; 0x00; 0x00; 0x00; 0x00; 0x00];
  [0x00; 0x00; 0x00; 0x00; 0x00; 0x00; 0x00; 0x00; 0x00; 0x00; 0x00; 0x00];
  [0x00; 0x00; 0x00; 0x00; 0x00; 0x00; 0x00; 0x00; 0x00; 0x00; 0x00; 0x00];
  [0x00; 0x00; 0x00; 0x00; 0x00; 0x00; 0x00; 0x00; 0x00; 0x00; 0x00; 0x00];
  [0x00; 0x00; 0x00; 0x00; 0x00; 0x00; 0x00; 0x00; 0x00; 0x00; 0x00; 0x00];
  [0x00; 0x00; 0x00; 0x00; 0x00; 0x00; 0x00; 0x00; 0x00; 0x00; 0x00; 0x00];
  [0x00; 0x00; 0x00; 0x00; 0x00; 0x00; 0x00; 0x00; 0x00; 0x00; 0x00; 0x00];
  [0x00; 0x00; 0x00; 0x00; 0x00; 0x00; 0x00; 0x00; 0x00; 0x00; 0x00; 0x00];
  [0x00; 0x00; 0x00; 0x00; 0x00; 0x00; 0x00; 0x00; 0x00; 0x00; 0x00; 0x00];
  [0x00; 0x00; 0x00; 0x00; 0x00; 0x00; 0x00; 0x00; 0x00; 0x00; 0x00; 0x00];
  [0x00; 0x00; 0x00; 0x00; 0x00; 0x00; 0x00; 0x00; 0x00; 0x00; 0x00; 0x00];
  [0x00; 0x00; 0x00; 0x00; 0x00; 0x00; 0x00; 0x00; 0x00; 0x00; 0x00; 0x00];
  [0x00; 0x00; 0x00; 0x00; 0x00; 0x00; 0x00; 0x00; 0x00; 0x00; 0x00; 0x00];
  [0x00; 0x00; 0x00; 0x00; 0x00; 0x00; 0x00; 0x00; 0x00; 0x00; 0x00; 0x00];
  [0x00; 0x00; 0x00; 0x00; 0x00; 0x00; 0x00; 0x00; 0x00; 0x00; 0x00; 0x00];
  [0x00; 0x00; 0x00; 0x00; 0x00; 0x00; 0x00; 0x00; 0x00; 0x00; 0x00; 0x00];
  [0x00; 0x00; 0x00; 0x00; 0x00; 0x00; 0x00; 0x00; 0x00; 0x00; 0x00; 0x00];
  [0x00; 0x00; 0x00; 0x00; 0x00; 0x00; 0x00; 0x00; 0x00; 0x00; 0x00; 0x00];
  [0x00; 0x00; 0x00; 0x00; 0x00; 0x00; 0x00; 0x00; 0x00; 0x00; 0x00; 0x00];
  [0x00; 0x00; 0x00; 0x00; 0x00; 0x00; 0x00; 0x00; 0x00; 0x00; 0x00; 0x00];
  [0x00; 0x00; 0x00; 0x00; 0x00; 0x00; 0x00; 0x00; 0x00; 0x00; 0x00; 0x00];
  [0x00; 0x00; 0x00; 0x00; 0x00; 0x00; 0x00; 0x00; 0x00; 0x00; 0x00; 0x00];
  [0x00; 0x00; 0x00; 0x00; 0x00; 0x00; 0x00; 0x00; 0x00; 0x00; 0x00; 0x00];
  [0x00; 0x00; 0x00; 0x00; 0x00; 0x00; 0x00; 0x00; 0x00; 0x00; 0x00; 0x00];
  [0x00; 0x00; 0x00; 0x00; 0x00; 0x00; 0x00; 0x00; 0x00; 0x00; 0x00; 0x00];
  [0x00; 0x00; 0x00; 0x00; 0x00; 0x00; 0x00; 0x00; 0x00; 0x00; 0x00; 0x00];
  [0x00; 0x00; 0x00; 0x00; 0x00; 0x00; 0x00; 0x00; 0x00; 0x00; 0x00; 0x00];
  [0x00; 0x00; 0x00; 0x00; 0x00; 0x00; 0x00; 0x00; 0x00; 0x00; 0x00; 0x00];
  [0x00; 0x00; 0x00; 0x00; 0x00; 0x00; 0x00; 0x00; 0x00; 0x00; 0x00; 0x00];
  [0x00; 0x00; 0x00; 0x00; 0x00; 0x00; 0x00; 0x00; 0x00; 0x00; 0x00; 0x00];
  [0x00; 0x00; 0x00; 0x00; 0x00; 0x00; 0x00; 0x00; 0x00; 0x00; 0x00; 0x00];
  [0x00; 0x00; 0x00; 0x00; 0x00; 0x00; 0x00; 0x00; 0x00; 0x00; 0x00; 0x00];
  [0x00; 0x00; 0x00; 0x00; 0x00; 0x00; 0x00; 0x00; 0x00; 0x00; 0x00; 0x00];
  [0x00; 0x00; 0x00; 0x00; 0x00; 0x00; 0x00; 0x00; 0x00; 0x00; 0x00; 0x00];
  [0x00; 0x00; 0x00; 0x00; 0x00; 0x00; 0x00; 0x00; 0x00; 0x00; 0x00; 0x00];
  [0x00; 0x00; 0x00; 0x00; 0x00; 0x00; 0x00; 0x00; 0x00; 0x00; 0x00; 0x00];
  [0x00; 0x00; 0x00; 0x00; 0x00; 0x00; 0x00; 0x00; 0x00; 0x00; 0x00; 0x00];
  [0x00; 0x00; 0x00; 0x00; 0x00; 0x00; 0x00; 0x00; 0x00; 0x00; 0x00; 0x00];
  [0x00; 0x00; 0x00; 0x00; 0x00; 0x00; 0x00; 0x00; 0x00; 0x00; 0x00; 0x00];
  [0x00; 0x00; 0x00; 0x00; 0x00; 0x00; 0x00; 0x00; 0x00; 0x00; 0x00; 0x00];
  [0x00; 0x00; 0x00; 0x00; 0x00; 0x00; 0x00; 0x00; 0x00; 0x00; 0x00; 0x00];
  [0x00; 0x00; 0x00; 0x00; 0x00; 0x00; 0x00; 0x00; 0x00; 0x00; 0x00; 0x00];
  [0x00; 0x00; 0x00; 0x00; 0x00; 0x00; 0x00; 0x00; 0x00; 0x00; 0x00; 0x00];
  [0x00; 0x00; 0x00; 0x00; 0x00; 0x00; 0x00; 0x00; 0x00; 0x00; 0x00; 0x00];
  [0x00; 0x00; 0x00; 0x00; 0x00; 0x00; 0x00; 0x00; 0x00; 0x00; 0x00; 0x00];
  [0x00; 0x00; 0x00; 0x00; 0x00; 0x00; 0x00; 0x00; 0x00; 0x00; 0x00; 0x00];
  [0x00; 0x00; 0x00; 0x00; 0x00; 0x00; 0x00; 0x00; 0x00; 0x00; 0x00; 0x00];
  [0x00; 0x00; 0x00; 0x00; 0x00; 0x00; 0x00; 0x00; 0x00; 0x00; 0x00; 0x00];
  [0x00; 0x00; 0x00; 0x00; 0x00; 0x00; 0x00; 0x00; 0x00; 0x00; 0x00; 0x00];
  [0x00; 0x00; 0x00; 0x00; 0x00; 0x00; 0x00; 0x00; 0x00; 0x00; 0x00; 0x00];
  [0x00; 0x00; 0x00; 0x00; 0x00; 0x00; 0x00; 0x00; 0x00; 0x00; 0x00; 0x00];
  [0x00; 0x00; 0x00; 0x00; 0x00; 0x00; 0x00; 0x00; 0x00; 0x00; 0x00; 0x00];
  [0x00; 0x00; 0x00; 0x00; 0x00; 0x00; 0x00; 0x00; 0x00; 0x00; 0x00; 0x00];
  [0x00; 0x00; 0x00; 0x00; 0x00; 0x00; 0x00; 0x00; 0x00; 0x00; 0x00; 0x00];
  [0x00; 0x00; 0x00; 0x00; 0x00; 0x00; 0x00; 0x00; 0x00; 0x00; 0x00; 0x00];
  [0x00; 0x00; 0x00; 0x00; 0x00; 0x00; 0x00; 0x00; 0x00; 0x00; 0x00; 0x00];
  [0x00; 0x00; 0x00; 0x00; 0x00; 0x00; 0x00; 0x00; 0x00; 0x00; 0x00; 0x00];
  [0x00; 0x00; 0x00; 0x00; 0x00; 0x00; 0x00; 0x00; 0x00; 0x00; 0x00; 0x00];
  [0x00; 0x00; 0x00; 0x00; 0x00; 0x00; 0x00; 0x00; 0x00; 0x00; 0x00; 0x00];
  [0x00; 0x00; 0x00; 0x00; 0x00; 0x00; 0x00; 0x00; 0x00; 0x00; 0x00; 0x00];
  [0x00; 0x00; 0x00; 0x00; 0x00; 0x00; 0x00; 0x00; 0x00; 0x00; 0x00; 0x00];
  [0x00; 0x00; 0x00; 0x00; 0x00; 0x00; 0x00; 0x00; 0x00; 0x00; 0x00; 0x00];
  [0x00; 0x00; 0x00; 0x00; 0x00; 0x00; 0x00; 0x00; 0x00; 0x00; 0x00; 0x00];
  [0x00; 0x00; 0x00; 0x00; 0x00; 0x00; 0x00; 0x00; 0x00; 0x00; 0x00; 0x00];
  [0x00; 0x00; 0x00; 0x00; 0x00; 0x00; 0x00; 0x00; 0x00; 0x00; 0x00; 0x00];
  [0x00; 0x00; 0x00; 0x00; 0x00; 0x00; 0x00; 0x00; 0x00; 0x00; 0x00; 0x00];
  [0x00; 0x00; 0x00; 0x00; 0x00; 0x00; 0x00; 0x00; 0x00; 0x00; 0x00; 0x00];
  [0x00; 0x00; 0x00; 0x00; 0x00; 0x00; 0x00; 0x00; 0x00; 0x00; 0x00; 0x00];
  [0x00; 0x00; 0x00; 0x00; 0x00; 0x00; 0x00; 0x00; 0x00; 0x00; 0x00; 0x00];
  [0x00; 0x00; 0x00; 0x00; 0x00; 0x00; 0x00; 0x00; 0x00; 0x00; 0x00; 0x00];
  [0x00; 0x00; 0x00; 0x00; 0x00; 0x00; 0x00; 0x00; 0x00; 0x00; 0x00; 0x00];
  [0x00; 0x00; 0x00; 0x00; 0x00; 0x00; 0x00; 0x00; 0x00; 0x00; 0x00; 0x00];
  [0x00; 0x00; 0x00; 0x00; 0x00; 0x00; 0x00; 0x00; 0x00; 0x00; 0x00; 0x00];
  [0x00; 0x00; 0x00; 0x00; 0x00; 0x00; 0x00; 0x00; 0x00; 0x00; 0x00; 0x00];
  [0x00; 0x00; 0x00; 0x00; 0x00; 0x00; 0x00; 0x00; 0x00; 0x00; 0x00; 0x00];
  [0x00; 0x00; 0x00; 0x00; 0x00; 0x00; 0x00; 0x00; 0x00; 0x00; 0x00; 0x00];
  [0x00; 0x00; 0x00; 0x00; 0x00; 0x00; 0x00; 0x00; 0x00; 0x00; 0x00; 0x00];
  [0x00; 0x00; 0x00; 0x00; 0x00; 0x00; 0x00; 0x00; 0x00; 0x00; 0x00; 0x00];
  [0x00; 0x00; 0x00; 0x00; 0x00; 0x00; 0x00; 0x00; 0x00; 0x00; 0x00; 0x00];
  [0x00; 0x00; 0x00; 0x00; 0x00; 0x00; 0x00; 0x00; 0x00; 0x00; 0x00; 0x00];
  [0x00; 0x00; 0x00; 0x00; 0x00; 0x00; 0x00; 0x00; 0x00; 0x00; 0x00; 0x00];
  [0x00; 0x00; 0x00; 0x00; 0x00; 0x00; 0x00; 0x00; 0x00; 0x00; 0x00; 0x00];
  [0x00; 0x00; 0x00; 0x00; 0x00; 0x00; 0x00; 0x00; 0x00; 0x00; 0x00; 0x00];
  [0x00; 0x00; 0x00; 0x00; 0x00; 0x00; 0x00; 0x00; 0x00; 0x00; 0x00; 0x00];
  [0x00; 0x00; 0x00; 0x00; 0x00; 0x00; 0x00; 0x00; 0x00; 0x00; 0x00; 0x00];
  [0x00; 0x00; 0x00; 0x00; 0x00; 0x00; 0x00; 0x00; 0x00; 0x00; 0x00; 0x00];
  [0x00; 0x00; 0x00; 0x00; 0x00; 0x00; 0x00; 0x00; 0x00; 0x00; 0x00; 0x00];
  [0x00; 0x00; 0x00; 0x00; 0x00; 0x00; 0x00; 0x00; 0x00; 0x00; 0x00; 0x00];
  [0x00; 0x00; 0x00; 0x00; 0x00; 0x00; 0x00; 0x00; 0x00; 0x00; 0x00; 0x00];
  [0x00; 0x00; 0x00; 0x00; 0x00; 0x00; 0x00; 0x00; 0x00; 0x00; 0x00; 0x00];
  [0x00; 0x00; 0x00; 0x00; 0x00; 0x00; 0x00; 0x00; 0x00; 0x00; 0x00; 0x00];
  [0x00; 0x00; 0x00; 0x00; 0x00; 0x00; 0x00; 0x00; 0x00; 0x00; 0x00; 0x00];
  [0x00; 0x00; 0x00; 0x00; 0x00; 0x00; 0x00; 0x00; 0x00; 0x00; 0x00; 0x00];
  [0x00; 0x00; 0x00; 0x00; 0x00; 0x00; 0x00; 0x00; 0x00; 0x00; 0x00; 0x00];
  [0x00; 0x00; 0x00; 0x00; 0x00; 0x00; 0x00; 0x00; 0x00; 0x00; 0x00; 0x00];
  [0x00; 0x00; 0x00; 0x00; 0x00; 0x00; 0x00; 0x00; 0x00; 0x00; 0x00; 0x00];
  [0x00; 0x00; 0x00; 0x00; 0x00; 0x00; 0x00; 0x00; 0x00; 0x00; 0x00; 0x00];
  [0x00; 0x00; 0x00; 0x00; 0x00; 0x00; 0x00; 0x00; 0x00; 0x00; 0x00; 0x00];
  [0x00; 0x00; 0x00; 0x00; 0x00; 0x00; 0x00; 0x00; 0x00; 0x00; 0x00; 0x00];
  [0x00; 0x00; 0x00; 0x00; 0x00; 0x00; 0x00; 0x00; 0x00; 0x00; 0x00; 0x00];
  [0x00; 0x00; 0x00; 0x00; 0x00; 0x00; 0x00; 0x00; 0x00; 0x00; 0x00; 0x00];
  [0x00; 0x00; 0x00; 0x00; 0x00; 0x00; 0x00; 0x00; 0x00; 0x00; 0x00; 0x00];
  [0x00; 0x00; 0x00; 0x00; 0x00; 0x00; 0x00; 0x00; 0x00; 0x00; 0x00; 0x00];
  [0x00; 0x00; 0x00; 0x00; 0x00; 0x00; 0x00; 0x00; 0x00; 0x00; 0x00; 0x00];
  [0x00; 0x00; 0x00; 0x00; 0x00; 0x00; 0x00; 0x00; 0x00; 0x00; 0x00; 0x00];
  [0x00; 0x00; 0x00; 0x00; 0x00; 0x00; 0x00; 0x00; 0x00; 0x00; 0x00; 0x00];
  [0x00; 0x00; 0x00; 0x00; 0x00; 0x00; 0x00; 0x00; 0x00; 0x00; 0x00; 0x00];
  [0x00; 0x00; 0x00; 0x00; 0x00; 0x00; 0x00; 0x00; 0x00; 0x00; 0x00; 0x00];
  [0x00; 0x00; 0x00; 0x00; 0x00; 0x00; 0x00; 0x00; 0x00; 0x00; 0x00; 0x00];
  [0x00; 0x00; 0x00; 0x00; 0x00; 0x00; 0x00; 0x00; 0x00; 0x00; 0x00; 0x00];
  [0x00; 0x00; 0x00; 0x00; 0x00; 0x00; 0x00; 0x00; 0x00; 0x00; 0x00; 0x00];
  [0x00; 0x00; 0x00; 0x00; 0x00; 0x00; 0x00; 0x00; 0x00; 0x00; 0x00; 0x00];
  [0x00; 0x00; 0x00; 0x00; 0x00; 0x00; 0x00; 0x00; 0x00; 0x00; 0x00; 0x00];
  [0x00; 0x00; 0x00; 0x00; 0x00; 0x00; 0x00; 0x00; 0x00; 0x00; 0x00; 0x00];
  [0x00; 0x00; 0x00; 0x00; 0x00; 0x00; 0x00; 0x00; 0x00; 0x00; 0x00; 0x00];
  [0x00; 0x00; 0x00; 0x00; 0x00; 0x00; 0x00; 0x00; 0x00; 0x00; 0x00; 0x00];
  [0x00; 0x00; 0x00; 0x00; 0x00; 0x00; 0x00; 0x00; 0x00; 0x00; 0x00; 0x00];
  [0x00; 0x00; 0x00; 0x00; 0x00; 0x00; 0x00; 0x00; 0x00; 0x00; 0x00; 0x00];
  [0x00; 0x00; 0x00; 0x00; 0x00; 0x00; 0x00; 0x00; 0x00; 0x00; 0x00; 0x00];
  [0x00; 0x00; 0x00; 0x00; 0x00; 0x00; 0x00; 0x00; 0x00; 0x00; 0x00; 0x00];
  [0x00; 0x00; 0x00; 0x00; 0x00; 0x00; 0x00; 0x00; 0x00; 0x00; 0x00; 0x00];
  [0x00; 0x00; 0x00; 0x00; 0x00; 0x00; 0x00; 0x00; 0x00; 0x00; 0x00; 0x00];
  [0x00; 0x00; 0x00; 0x00; 0x00; 0x00; 0x00; 0x00; 0x00; 0x00; 0x00; 0x00];
  [0x00; 0x00; 0x00; 0x00; 0x00; 0x00; 0x00; 0x00; 0x00; 0x00; 0x00; 0x00];
  [0x00; 0x00; 0x00; 0x00; 0x00; 0x00; 0x00; 0x00; 0x00; 0x00; 0x00; 0x00];
  [0x00; 0x00; 0x00; 0x00; 0x00; 0x00; 0x00; 0x00; 0x00; 0x00; 0x00; 0x00];
  [0x00; 0x00; 0x00; 0x00; 0x00; 0x00; 0x00; 0x00; 0x00; 0x00; 0x00; 0x00];
  [0x00; 0x00; 0x00; 0x00; 0x00; 0x00; 0x00; 0x00; 0x00; 0x00; 0x00; 0x00];
  [0x00; 0x00; 0x00; 0x00; 0x00; 0x00; 0x00; 0x00; 0x00; 0x00; 0x00; 0x00];
  [0x00; 0x00; 0x00; 0x00; 0x00; 0x00; 0x00; 0x00; 0x00; 0x00; 0x00; 0x00];
  [0x00; 0x00; 0x00; 0x00; 0x00; 0x00; 0x00; 0x00; 0x00; 0x00; 0x00; 0x00];
  [0x00; 0x00; 0x00; 0x00; 0x00; 0x00; 0x00; 0x00; 0x00; 0x00; 0x00; 0x00];
  [0x00; 0x00; 0x00; 0x00; 0x00; 0x00; 0x00; 0x00; 0x00; 0x00; 0x00; 0x00];
  [0x00; 0x00; 0x00; 0x00; 0x00; 0x00; 0x00; 0x00; 0x00; 0x00; 0x00; 0x00];
  [0x00; 0x00; 0x00; 0x00; 0x00; 0x00; 0x00; 0x00; 0x00; 0x00; 0x00; 0x00];
  [0x00; 0x00; 0x00; 0x00; 0x00; 0x00; 0x00; 0x00; 0x00; 0x00; 0x00; 0x00];
  [0x00; 0x00; 0x00; 0x00; 0x00; 0x00; 0x00; 0x00; 0x00; 0x00; 0x00; 0x00];
  [0x00; 0x00; 0x00; 0x00; 0x00; 0x00; 0x00; 0x00; 0x00; 0x00; 0x00; 0x00];
  [0x00; 0x00; 0x00; 0x00; 0x00; 0x00; 0x00; 0x00; 0x00; 0x00; 0x00; 0x00];
  [0x00; 0x00; 0x00; 0x00; 0x00; 0x00; 0x00; 0x00; 0x00; 0x00; 0x00; 0x00];
  [0x00; 0x00; 0x00; 0x00; 0x00; 0x00; 0x00; 0x00; 0x00; 0x00; 0x00; 0x00];
  [0x00; 0x00; 0x00; 0x00; 0x00; 0x00; 0x00; 0x00; 0x00; 0x00; 0x00; 0x00];
  [0x00; 0x00; 0x00; 0x00; 0x00; 0x00; 0x00; 0x00; 0x00; 0x00; 0x00; 0x00];
  [0x00; 0x00; 0x00; 0x00; 0x00; 0x00; 0x00; 0x00; 0x00; 0x00; 0x00; 0x00];
  [0x00; 0x00; 0x00; 0x00; 0x00; 0x00; 0x00; 0x00; 0x00; 0x00; 0x00; 0x00];
  [0x00; 0x00; 0x00; 0x00; 0x00; 0x00; 0x00; 0x00; 0x00; 0x00; 0x00; 0x00];
  [0x00; 0x00; 0x00; 0x00; 0x00; 0x00; 0x00; 0x00; 0x00; 0x00; 0x00; 0x00];
  [0x00; 0x00; 0x00; 0x00; 0x00; 0x00; 0x00; 0x00; 0x00; 0x00; 0x00; 0x00];
  [0x00; 0x00; 0x00; 0x00; 0x00; 0x00; 0x00; 0x00; 0x00; 0x00; 0x00; 0x00];
  [0x00; 0x00; 0x00; 0x00; 0x00; 0x00; 0x00; 0x00; 0x00; 0x00; 0x00; 0x00];
  [0x00; 0x00; 0x00; 0x00; 0x00; 0x00; 0x00; 0x00; 0x00; 0x00; 0x00; 0x00];
  [0x00; 0x00; 0x00; 0x00; 0x00; 0x00; 0x00; 0x00; 0x00; 0x00; 0x00; 0x00];
  [0x00; 0x00; 0x00; 0x00; 0x00; 0x00; 0x00; 0x00; 0x00; 0x00; 0x00; 0x00];
  [0x00; 0x00; 0x00; 0x00; 0x00; 0x00; 0x00; 0x00; 0x00; 0x00; 0x00; 0x00];
  [0x00; 0x00; 0x00; 0x00; 0x00; 0x00; 0x00; 0x00; 0x00; 0x00; 0x00; 0x00];
  [0x00; 0x00; 0x00; 0x00; 0x00; 0x00; 0x00; 0x00; 0x00; 0x00; 0x00; 0x00];
  [0x00; 0x00; 0x00; 0x00; 0x00; 0x00; 0x00; 0x00; 0x00; 0x00; 0x00; 0x00];
  [0x00; 0x00; 0x00; 0x00; 0x00; 0x00; 0x00; 0x00; 0x00; 0x00; 0x00; 0x00];
  [0x00; 0x00; 0x00; 0x00; 0x00; 0x00; 0x00; 0x00; 0x00; 0x00; 0x00; 0x00];
  [0x00; 0x00; 0x00; 0x00; 0x00; 0x00; 0x00; 0x00; 0x00; 0x00; 0x00; 0x00];
  [0x00; 0x00; 0x00; 0x00; 0x00; 0x00; 0x00; 0x00; 0x00; 0x00; 0x00; 0x00];
  [0x00; 0x00; 0x00; 0x00; 0x00; 0x00; 0x00; 0x00; 0x00; 0x00; 0x00; 0x00];
  [0x00; 0x00; 0x00; 0x00; 0x00; 0x00; 0x00; 0x00; 0x00; 0x00; 0x00; 0x00];
  [0x00; 0x00; 0x00; 0x00; 0x00; 0x00; 0x00; 0x00; 0x00; 0x00; 0x00; 0x00];
  [0x00; 0x00; 0x00; 0x00; 0x00; 0x00; 0x00; 0x00; 0x00; 0x00; 0x00; 0x00];
  [0x00; 0x00; 0x00; 0x00; 0x00; 0x00; 0x00; 0x00; 0x00; 0x00; 0x00; 0x00];
  [0x00; 0x00; 0x00; 0x00; 0x00; 0x00; 0x00; 0x00; 0x00; 0x00; 0x00; 0x00];
  [0x00; 0x00; 0x00; 0x00; 0x00; 0x00; 0x00; 0x00; 0x00; 0x00; 0x00; 0x00];
  [0x00; 0x00; 0x00; 0x00; 0x00; 0x00; 0x00; 0x00; 0x00; 0x00; 0x00; 0x00];
  [0x00; 0x00; 0x00; 0x00; 0x00; 0x00; 0x00; 0x00; 0x00; 0x00; 0x00; 0x00];
  [0x00; 0x00; 0x00; 0x00; 0x00; 0x00; 0x00; 0x00; 0x00; 0x00; 0x00; 0x00];
  [0x00; 0x00; 0x00; 0x00; 0x00; 0x00; 0x00; 0x00; 0x00; 0x00; 0x00; 0x00];
  [0x00; 0x00; 0x00; 0x00; 0x00; 0x00; 0x00; 0x00; 0x00; 0x00; 0x00; 0x00];
  [0x00; 0x00; 0x00; 0x00; 0x00; 0x00; 0x00; 0x00; 0x00; 0x00; 0x00; 0x00];
  [0x00; 0x00; 0x00; 0x00; 0x00; 0x00; 0x00; 0x00; 0x00; 0x00; 0x00; 0x00];
  [0x00; 0x00; 0x00; 0x00; 0x00; 0x00; 0x00; 0x00; 0x00; 0x00; 0x00; 0x00];
  [0x00; 0x00; 0x00; 0x00; 0x00; 0x00; 0x00; 0x00; 0x00; 0x00; 0x00; 0x00];
  [0x00; 0x00; 0x00; 0x00; 0x00; 0x00; 0x00; 0x00; 0x00; 0x00; 0x00; 0x00];
  [0x00; 0x00; 0x00; 0x00; 0x00; 0x00; 0x00; 0x00; 0x00; 0x00; 0x00; 0x00];
  [0x00; 0x00; 0x00; 0x00; 0x00; 0x00; 0x00; 0x00; 0x00; 0x00; 0x00; 0x00];
  [0x00; 0x00; 0x00; 0x00; 0x00; 0x00; 0x00; 0x00; 0x00; 0x00; 0x00; 0x00];
  [0x00; 0x00; 0x00; 0x00; 0x00; 0x00; 0x00; 0x00; 0x00; 0x00; 0x00; 0x00];
  [0x00; 0x00; 0x00; 0x00; 0x00; 0x00; 0x00; 0x00; 0x00; 0x00; 0x00; 0x00];
  [0x00; 0x00; 0x00; 0x00; 0x00; 0x00; 0x00; 0x00; 0x00; 0x00; 0x00; 0x00];
  [0x00; 0x00; 0x00; 0x00; 0x00; 0x00; 0x00; 0x00; 0x00; 0x00; 0x00; 0x00];
  [0x00; 0x00; 0x00; 0x00; 0x00; 0x00; 0x00; 0x00; 0x00; 0x00; 0x00; 0x00];
  [0x00; 0x00; 0x00; 0x00; 0x00; 0x00; 0x00; 0x00; 0x00; 0x00; 0x00; 0x00];
  [0x00; 0x00; 0x00; 0x00; 0x00; 0x00; 0x00; 0x00; 0x00; 0x00; 0x00; 0x00];
  [0x00; 0x00; 0x00; 0x00; 0x00; 0x00; 0x00; 0x00; 0x00; 0x00; 0x00; 0x00];
  [0x00; 0x00; 0x00; 0x00; 0x00; 0x00; 0x00; 0x00; 0x00; 0x00; 0x00; 0x00];
  [0x00; 0x00; 0x00; 0x00; 0x00; 0x00; 0x00; 0x00; 0x00; 0x00; 0x00; 0x00];
  [0x00; 0x00; 0x00; 0x00; 0x00; 0x00; 0x00; 0x00; 0x00; 0x00; 0x00; 0x00];
  [0x00; 0x00; 0x00; 0x00; 0x00; 0x00; 0x00; 0x00; 0x00; 0x00; 0x00; 0x00];
  [0x00; 0x00; 0x00; 0x00; 0x00; 0x00; 0x00; 0x00; 0x00; 0x00; 0x00; 0x00];
  [0x00; 0x00; 0x00; 0x00; 0x00; 0x00; 0x00; 0x00; 0x00; 0x00; 0x00; 0x00];
  [0x00; 0x00; 0x00; 0x00; 0x00; 0x00; 0x00; 0x00; 0x00; 0x00; 0x00; 0x00];
  [0x00; 0x00; 0x00; 0x00; 0x00; 0x00; 0x00; 0x00; 0x00; 0x00; 0x00; 0x00];
  [0x00; 0x00; 0x00; 0x00; 0x00; 0x00; 0x00; 0x00; 0x00; 0x00; 0x00; 0x00];
  [0x00; 0x00; 0x00; 0x00; 0x00; 0x00; 0x00; 0x00; 0x00; 0x00; 0x00; 0x00];
  [0x00; 0x00; 0x00; 0x00; 0x00; 0x00; 0x00; 0x00; 0x00; 0x00; 0x00; 0x00];
  [0x00; 0x00; 0x00; 0x00; 0x00; 0x00; 0x00; 0x00; 0x00; 0x00; 0x00; 0x00];
  [0x00; 0x00; 0x00; 0x00; 0x00; 0x00; 0x00; 0x00; 0x00; 0x00; 0x00; 0x00];
  [0x00; 0x00; 0x00; 0x00; 0x00; 0x00; 0x00; 0x00; 0x00; 0x00; 0x00; 0x00];
  [0x00; 0x00; 0x00; 0x00; 0x00; 0x00; 0x00; 0x00; 0x00; 0x00; 0x00; 0x00];
  [0x00; 0x00; 0x00; 0x00; 0x00; 0x00; 0x00; 0x00; 0x00; 0x00; 0x00; 0x00];
  [0x00; 0x00; 0x00; 0x00; 0x00; 0x00; 0x00; 0x00; 0x00; 0x00; 0x00; 0x00];
  [0x00; 0x00; 0x00; 0x00; 0x00; 0x00; 0x00; 0x00; 0x00; 0x00; 0x00; 0x00];
  [0x00; 0x00; 0x00; 0x00; 0x00; 0x00; 0x00; 0x00; 0x00; 0x00; 0x00; 0x00];
  [0x00; 0x00; 0x00; 0x00; 0x00; 0x00; 0x00; 0x00; 0x00; 0x00; 0x00; 0x00];
  [0x00; 0x00; 0x00; 0x00; 0x00; 0x00; 0x00; 0x00; 0x00; 0x00; 0x00; 0x00];
  [0x00; 0x00; 0x00; 0x00; 0x00; 0x00; 0x00; 0x00; 0x00; 0x00; 0x00; 0x00];
  [0x00; 0x00; 0x00; 0x00; 0x00; 0x00; 0x00; 0x00; 0x00; 0x00; 0x00; 0x00];
  [0x00; 0x00; 0x00; 0x00; 0x00; 0x00; 0x00; 0x00; 0x00; 0x00; 0x00; 0x00];
  [0x00; 0x00; 0x00; 0x00; 0x00; 0x00; 0x00; 0x00; 0x00; 0x00; 0x00; 0x00];
  [0x00; 0x00; 0x00; 0x00; 0x04; 0x00; 0x00; 0x00; 0x20; 0x00; 0x00; 0x00];
  [0x05; 0x00; 0x00; 0x00; 0x47; 0x4e; 0x55; 0x00; 0x01; 0x00; 0x01; 0xc0];
  [0x04; 0x00; 0x00; 0x00; 0x01; 0x00; 0x00; 0x00; 0x00; 0x00; 0x00; 0x00];
  [0x02; 0x00; 0x01; 0xc0; 0x04; 0x00; 0x00; 0x00; 0x01; 0x00; 0x00; 0x00];
  [0x00; 0x00; 0x00; 0x00; 0x20; 0x00; 0x0a; 0x00; 0x01; 0x1b; 0x03; 0x3b];
  [0x68; 0x00; 0x00; 0x00; 0x0c; 0x00; 0x00; 0x00; 0x6c; 0xf1; 0xff; 0xff];
  [0x84; 0x00; 0x00; 0x00; 0xfc; 0xf1; 0xff; 0xff; 0xc4; 0x00; 0x00; 0x00];
  [0x0c; 0xf2; 0xff; 0xff; 0xdc; 0x00; 0x00; 0x00; 0x3c; 0xf2; 0xff; 0xff];
  [0xf0; 0x00; 0x00; 0x00; 0xac; 0xf2; 0xff; 0xff; 0x04; 0x01; 0x00; 0x00];
  [0xec; 0xf2; 0xff; 0xff; 0x18; 0x01; 0x00; 0x00; 0x2c; 0xf3; 0xff; 0xff];
  [0x2c; 0x01; 0x00; 0x00; 0x8c; 0xf3; 0xff; 0xff; 0x40; 0x01; 0x00; 0x00];
  [0x9c; 0xf3; 0xff; 0xff; 0x54; 0x01; 0x00; 0x00; 0xac; 0xf3; 0xff; 0xff];
  [0x68; 0x01; 0x00; 0x00; 0xbc; 0xf3; 0xff; 0xff; 0x7c; 0x01; 0x00; 0x00];
  [0xcc; 0xf3; 0xff; 0xff; 0x90; 0x01; 0x00; 0x00; 0x14; 0x00; 0x00; 0x00];
  [0x00; 0x00; 0x00; 0x00; 0x01; 0x7a; 0x52; 0x00; 0x01; 0x78; 0x10; 0x01];
  [0x1b; 0x0c; 0x07; 0x08; 0x90; 0x01; 0x00; 0x00; 0x3c; 0x00; 0x00; 0x00];
  [0x1c; 0x00; 0x00; 0x00; 0xe0; 0xf0; 0xff; 0xff; 0x85; 0x00; 0x00; 0x00];
  [0x00; 0x42; 0x0e; 0x10; 0x8e; 0x02; 0x42; 0x0e; 0x18; 0x8d; 0x03; 0x42];
  [0x0e; 0x20; 0x8c; 0x04; 0x41; 0x0e; 0x28; 0x86; 0x05; 0x41; 0x0e; 0x30];
  [0x83; 0x06; 0x02; 0x75; 0xc3; 0x0e; 0x28; 0x41; 0xc6; 0x0e; 0x20; 0x42];
  [0xcc; 0x0e; 0x18; 0x42; 0xcd; 0x0e; 0x10; 0x42; 0xce; 0x0e; 0x08; 0x00];
  [0x14; 0x00; 0x00; 0x00; 0x5c; 0x00; 0x00; 0x00; 0x30; 0xf1; 0xff; 0xff];
  [0x0f; 0x00; 0x00; 0x00; 0x00; 0x00; 0x00; 0x00; 0x00; 0x00; 0x00; 0x00];
  [0x10; 0x00; 0x00; 0x00; 0x74; 0x00; 0x00; 0x00; 0x28; 0xf1; 0xff; 0xff];
  [0x2b; 0x00; 0x00; 0x00; 0x00; 0x00; 0x00; 0x00; 0x10; 0x00; 0x00; 0x00];
  [0x88; 0x00; 0x00; 0x00; 0x44; 0xf1; 0xff; 0xff; 0x69; 0x00; 0x00; 0x00];
  [0x00; 0x00; 0x00; 0x00; 0x10; 0x00; 0x00; 0x00; 0x9c; 0x00; 0x00; 0x00];
  [0xa0; 0xf1; 0xff; 0xff; 0x38; 0x00; 0x00; 0x00; 0x00; 0x00; 0x00; 0x00];
  [0x10; 0x00; 0x00; 0x00; 0xb0; 0x00; 0x00; 0x00; 0xcc; 0xf1; 0xff; 0xff];
  [0x34; 0x00; 0x00; 0x00; 0x00; 0x00; 0x00; 0x00; 0x10; 0x00; 0x00; 0x00];
  [0xc4; 0x00; 0x00; 0x00; 0xf8; 0xf1; 0xff; 0xff; 0x56; 0x00; 0x00; 0x00];
  [0x00; 0x00; 0x00; 0x00; 0x10; 0x00; 0x00; 0x00; 0xd8; 0x00; 0x00; 0x00];
  [0x44; 0xf2; 0xff; 0xff; 0x0e; 0x00; 0x00; 0x00; 0x00; 0x00; 0x00; 0x00];
  [0x10; 0x00; 0x00; 0x00; 0xec; 0x00; 0x00; 0x00; 0x40; 0xf2; 0xff; 0xff];
  [0x08; 0x00; 0x00; 0x00; 0x00; 0x00; 0x00; 0x00; 0x10; 0x00; 0x00; 0x00];
  [0x00; 0x01; 0x00; 0x00; 0x3c; 0xf2; 0xff; 0xff; 0x0b; 0x00; 0x00; 0x00];
  [0x00; 0x00; 0x00; 0x00; 0x10; 0x00; 0x00; 0x00; 0x14; 0x01; 0x00; 0x00];
  [0x38; 0xf2; 0xff; 0xff; 0x08; 0x00; 0x00; 0x00; 0x00; 0x00; 0x00; 0x00];
  [0x10; 0x00; 0x00; 0x00; 0x28; 0x01; 0x00; 0x00; 0x34; 0xf2; 0xff; 0xff];
  [0x08; 0x00; 0x00; 0x00; 0x00; 0x00; 0x00; 0x00; 0x47; 0x43; 0x43; 0x3a];
  [0x20; 0x28; 0x47; 0x4e; 0x55; 0x29; 0x20; 0x31; 0x35; 0x2e; 0x32; 0x2e];
  [0x31; 0x20; 0x32; 0x30; 0x32; 0x35; 0x31; 0x32; 0x31; 0x31; 0x20; 0x28];
  [0x52; 0x65; 0x64; 0x20; 0x48; 0x61; 0x74; 0x20; 0x31; 0x35; 0x2e; 0x32];
  [0x2e; 0x31; 0x2d; 0x35; 0x29; 0x00; 0x00; 0x00; 0x00; 0x00; 0x00; 0x00];
  [0x00; 0x00; 0x00; 0x00; 0x00; 0x00; 0x00; 0x00; 0x00; 0x00; 0x00; 0x00];
  [0x00; 0x00; 0x00; 0x00; 0x00; 0x00; 0x00; 0x00; 0x01; 0x00; 0x00; 0x00];
  [0x04; 0x00; 0xf1; 0xff; 0x00; 0x00; 0x00; 0x00; 0x00; 0x00; 0x00; 0x00];
  [0x00; 0x00; 0x00; 0x00; 0x00; 0x00; 0x00; 0x00; 0x08; 0x00; 0x00; 0x00];
  [0x02; 0x00; 0x01; 0x00; 0xa0; 0x01; 0x40; 0x00; 0x00; 0x00; 0x00; 0x00];
  [0x85; 0x00; 0x00; 0x00; 0x00; 0x00; 0x00; 0x00; 0x13; 0x00; 0x00; 0x00];
  [0x04; 0x00; 0xf1; 0xff; 0x00; 0x00; 0x00; 0x00; 0x00; 0x00; 0x00; 0x00];
  [0x00; 0x00; 0x00; 0x00; 0x00; 0x00; 0x00; 0x00; 0x00; 0x00; 0x00; 0x00];
  [0x04; 0x00; 0xf1; 0xff; 0x00; 0x00; 0x00; 0x00; 0x00; 0x00; 0x00; 0x00];
  [0x00; 0x00; 0x00; 0x00; 0x00; 0x00; 0x00; 0x00; 0x1a; 0x00; 0x00; 0x00];
  [0x00; 0x00; 0x04; 0x00; 0x34; 0x10; 0x40; 0x00; 0x00; 0x00; 0x00; 0x00];
  [0x00; 0x00; 0x00; 0x00; 0x00; 0x00; 0x00; 0x00; 0x2d; 0x00; 0x00; 0x00];
  [0x12; 0x00; 0x01; 0x00; 0xe0; 0x02; 0x40; 0x00; 0x00; 0x00; 0x00; 0x00];
  [0x38; 0x00; 0x00; 0x00; 0x00; 0x00; 0x00; 0x00; 0x34; 0x00; 0x00; 0x00];
  [0x12; 0x00; 0x01; 0x00; 0x20; 0x03; 0x40; 0x00; 0x00; 0x00; 0x00; 0x00];
  [0x34; 0x00; 0x00; 0x00; 0x00; 0x00; 0x00; 0x00; 0x3b; 0x00; 0x00; 0x00];
  [0x12; 0x00; 0x01; 0x00; 0xe0; 0x03; 0x40; 0x00; 0x00; 0x00; 0x00; 0x00];
  [0x0b; 0x00; 0x00; 0x00; 0x00; 0x00; 0x00; 0x00; 0x46; 0x00; 0x00; 0x00];
  [0x12; 0x00; 0x01; 0x00; 0xc0; 0x03; 0x40; 0x00; 0x00; 0x00; 0x00; 0x00];
  [0x0e; 0x00; 0x00; 0x00; 0x00; 0x00; 0x00; 0x00; 0x54; 0x00; 0x00; 0x00];
  [0x12; 0x00; 0x01; 0x00; 0x30; 0x02; 0x40; 0x00; 0x00; 0x00; 0x00; 0x00];
  [0x0f; 0x00; 0x00; 0x00; 0x00; 0x00; 0x00; 0x00; 0x4f; 0x00; 0x00; 0x00];
  [0x10; 0x00; 0x05; 0x00; 0x00; 0x20; 0x40; 0x00; 0x00; 0x00; 0x00; 0x00];
  [0x00; 0x00; 0x00; 0x00; 0x00; 0x00; 0x00; 0x00; 0x5b; 0x00; 0x00; 0x00];
  [0x12; 0x00; 0x01; 0x00; 0x60; 0x03; 0x40; 0x00; 0x00; 0x00; 0x00; 0x00];
  [0x56; 0x00; 0x00; 0x00; 0x00; 0x00; 0x00; 0x00; 0x62; 0x00; 0x00; 0x00];
  [0x12; 0x00; 0x01; 0x00; 0x70; 0x02; 0x40; 0x00; 0x00; 0x00; 0x00; 0x00];
  [0x69; 0x00; 0x00; 0x00; 0x00; 0x00; 0x00; 0x00; 0x69; 0x00; 0x00; 0x00];
  [0x12; 0x00; 0x01; 0x00; 0x00; 0x04; 0x40; 0x00; 0x00; 0x00; 0x00; 0x00];
  [0x08; 0x00; 0x00; 0x00; 0x00; 0x00; 0x00; 0x00; 0x74; 0x00; 0x00; 0x00];
  [0x10; 0x00; 0x05; 0x00; 0x00; 0x20; 0x40; 0x00; 0x00; 0x00; 0x00; 0x00];
  [0x00; 0x00; 0x00; 0x00; 0x00; 0x00; 0x00; 0x00; 0x7b; 0x00; 0x00; 0x00];
  [0x10; 0x00; 0x05; 0x00; 0x00; 0x20; 0x40; 0x00; 0x00; 0x00; 0x00; 0x00];
  [0x00; 0x00; 0x00; 0x00; 0x00; 0x00; 0x00; 0x00; 0x80; 0x00; 0x00; 0x00];
  [0x12; 0x00; 0x01; 0x00; 0x40; 0x02; 0x40; 0x00; 0x00; 0x00; 0x00; 0x00];
  [0x2b; 0x00; 0x00; 0x00; 0x00; 0x00; 0x00; 0x00; 0x87; 0x00; 0x00; 0x00];
  [0x12; 0x00; 0x01; 0x00; 0xd0; 0x03; 0x40; 0x00; 0x00; 0x00; 0x00; 0x00];
  [0x08; 0x00; 0x00; 0x00; 0x00; 0x00; 0x00; 0x00; 0x90; 0x00; 0x00; 0x00];
  [0x12; 0x00; 0x01; 0x00; 0xf0; 0x03; 0x40; 0x00; 0x00; 0x00; 0x00; 0x00];
  [0x08; 0x00; 0x00; 0x00; 0x00; 0x00; 0x00; 0x00; 0x00; 0x65; 0x63; 0x68];
  [0x6f; 0x2e; 0x63; 0x00; 0x73; 0x74; 0x61; 0x72; 0x74; 0x5f; 0x6d; 0x61];
  [0x69; 0x6e; 0x00; 0x6c; 0x69; 0x62; 0x63; 0x2e; 0x63; 0x00; 0x5f; 0x5f];
  [0x47; 0x4e; 0x55; 0x5f; 0x45; 0x48; 0x5f; 0x46; 0x52; 0x41; 0x4d; 0x45];
  [0x5f; 0x48; 0x44; 0x52; 0x00; 0x73; 0x74; 0x72; 0x63; 0x70; 0x79; 0x00];
  [0x6d; 0x65; 0x6d; 0x63; 0x70; 0x79; 0x00; 0x73; 0x79; 0x73; 0x5f; 0x73];
  [0x70; 0x61; 0x77; 0x6e; 0x32; 0x00; 0x73; 0x79; 0x73; 0x5f; 0x64; 0x75];
  [0x70; 0x32; 0x00; 0x5f; 0x5f; 0x62; 0x73; 0x73; 0x5f; 0x73; 0x74; 0x61];
  [0x72; 0x74; 0x00; 0x6d; 0x65; 0x6d; 0x73; 0x65; 0x74; 0x00; 0x73; 0x74];
  [0x72; 0x63; 0x6d; 0x70; 0x00; 0x73; 0x79; 0x73; 0x5f; 0x67; 0x65; 0x74];
  [0x63; 0x77; 0x64; 0x00; 0x5f; 0x65; 0x64; 0x61; 0x74; 0x61; 0x00; 0x5f];
  [0x65; 0x6e; 0x64; 0x00; 0x73; 0x74; 0x72; 0x6c; 0x65; 0x6e; 0x00; 0x73];
  [0x79; 0x73; 0x5f; 0x70; 0x69; 0x70; 0x65; 0x00; 0x73; 0x79; 0x73; 0x5f];
  [0x63; 0x68; 0x64; 0x69; 0x72; 0x00; 0x00; 0x2e; 0x73; 0x79; 0x6d; 0x74];
  [0x61; 0x62; 0x00; 0x2e; 0x73; 0x74; 0x72; 0x74; 0x61; 0x62; 0x00; 0x2e];
  [0x73; 0x68; 0x73; 0x74; 0x72; 0x74; 0x61; 0x62; 0x00; 0x2e; 0x74; 0x65];
  [0x78; 0x74; 0x00; 0x2e; 0x6e; 0x6f; 0x74; 0x65; 0x2e; 0x67; 0x6e; 0x75];
  [0x2e; 0x70; 0x72; 0x6f; 0x70; 0x65; 0x72; 0x74; 0x79; 0x00; 0x2e; 0x72];
  [0x6f; 0x64; 0x61; 0x74; 0x61; 0x00; 0x2e; 0x65; 0x68; 0x5f; 0x66; 0x72];
  [0x61; 0x6d; 0x65; 0x5f; 0x68; 0x64; 0x72; 0x00; 0x2e; 0x65; 0x68; 0x5f];
  [0x66; 0x72; 0x61; 0x6d; 0x65; 0x00; 0x2e; 0x63; 0x6f; 0x6d; 0x6d; 0x65];
  [0x6e; 0x74; 0x00; 0x00; 0x00; 0x00; 0x00; 0x00; 0x00; 0x00; 0x00; 0x00];
  [0x00; 0x00; 0x00; 0x00; 0x00; 0x00; 0x00; 0x00; 0x00; 0x00; 0x00; 0x00];
  [0x00; 0x00; 0x00; 0x00; 0x00; 0x00; 0x00; 0x00; 0x00; 0x00; 0x00; 0x00];
  [0x00; 0x00; 0x00; 0x00; 0x00; 0x00; 0x00; 0x00; 0x00; 0x00; 0x00; 0x00];
  [0x00; 0x00; 0x00; 0x00; 0x00; 0x00; 0x00; 0x00; 0x00; 0x00; 0x00; 0x00];
  [0x00; 0x00; 0x00; 0x00; 0x00; 0x00; 0x00; 0x00; 0x1b; 0x00; 0x00; 0x00];
  [0x01; 0x00; 0x00; 0x00; 0x06; 0x00; 0x00; 0x00; 0x00; 0x00; 0x00; 0x00];
  [0xa0; 0x01; 0x40; 0x00; 0x00; 0x00; 0x00; 0x00; 0xa0; 0x01; 0x00; 0x00];
  [0x00; 0x00; 0x00; 0x00; 0x68; 0x02; 0x00; 0x00; 0x00; 0x00; 0x00; 0x00];
  [0x00; 0x00; 0x00; 0x00; 0x00; 0x00; 0x00; 0x00; 0x20; 0x00; 0x00; 0x00];
  [0x00; 0x00; 0x00; 0x00; 0x00; 0x00; 0x00; 0x00; 0x00; 0x00; 0x00; 0x00];
  [0x21; 0x00; 0x00; 0x00; 0x07; 0x00; 0x00; 0x00; 0x02; 0x00; 0x00; 0x00];
  [0x00; 0x00; 0x00; 0x00; 0x00; 0x10; 0x40; 0x00; 0x00; 0x00; 0x00; 0x00];
  [0x00; 0x10; 0x00; 0x00; 0x00; 0x00; 0x00; 0x00; 0x30; 0x00; 0x00; 0x00];
  [0x00; 0x00; 0x00; 0x00; 0x00; 0x00; 0x00; 0x00; 0x00; 0x00; 0x00; 0x00];
  [0x08; 0x00; 0x00; 0x00; 0x00; 0x00; 0x00; 0x00; 0x00; 0x00; 0x00; 0x00];
  [0x00; 0x00; 0x00; 0x00; 0x34; 0x00; 0x00; 0x00; 0x01; 0x00; 0x00; 0x00];
  [0x32; 0x00; 0x00; 0x00; 0x00; 0x00; 0x00; 0x00; 0x30; 0x10; 0x40; 0x00];
  [0x00; 0x00; 0x00; 0x00; 0x30; 0x10; 0x00; 0x00; 0x00; 0x00; 0x00; 0x00];
  [0x04; 0x00; 0x00; 0x00; 0x00; 0x00; 0x00; 0x00; 0x00; 0x00; 0x00; 0x00];
  [0x00; 0x00; 0x00; 0x00; 0x01; 0x00; 0x00; 0x00; 0x00; 0x00; 0x00; 0x00];
  [0x01; 0x00; 0x00; 0x00; 0x00; 0x00; 0x00; 0x00; 0x3c; 0x00; 0x00; 0x00];
  [0x01; 0x00; 0x00; 0x00; 0x02; 0x00; 0x00; 0x00; 0x00; 0x00; 0x00; 0x00];
  [0x34; 0x10; 0x40; 0x00; 0x00; 0x00; 0x00; 0x00; 0x34; 0x10; 0x00; 0x00];
  [0x00; 0x00; 0x00; 0x00; 0x6c; 0x00; 0x00; 0x00; 0x00; 0x00; 0x00; 0x00];
  [0x00; 0x00; 0x00; 0x00; 0x00; 0x00; 0x00; 0x00; 0x04; 0x00; 0x00; 0x00];
  [0x00; 0x00; 0x00; 0x00; 0x00; 0x00; 0x00; 0x00; 0x00; 0x00; 0x00; 0x00];
  [0x4a; 0x00; 0x00; 0x00; 0x01; 0x00; 0x00; 0x00; 0x02; 0x00; 0x00; 0x00];
  [0x00; 0x00; 0x00; 0x00; 0xa0; 0x10; 0x40; 0x00; 0x00; 0x00; 0x00; 0x00];
  [0xa0; 0x10; 0x00; 0x00; 0x00; 0x00; 0x00; 0x00; 0x38; 0x01; 0x00; 0x00];
  [0x00; 0x00; 0x00; 0x00; 0x00; 0x00; 0x00; 0x00; 0x00; 0x00; 0x00; 0x00];
  [0x08; 0x00; 0x00; 0x00; 0x00; 0x00; 0x00; 0x00; 0x00; 0x00; 0x00; 0x00];
  [0x00; 0x00; 0x00; 0x00; 0x54; 0x00; 0x00; 0x00; 0x01; 0x00; 0x00; 0x00];
  [0x30; 0x00; 0x00; 0x00; 0x00; 0x00; 0x00; 0x00; 0x00; 0x00; 0x00; 0x00];
  [0x00; 0x00; 0x00; 0x00; 0xd8; 0x11; 0x00; 0x00; 0x00; 0x00; 0x00; 0x00];
  [0x2e; 0x00; 0x00; 0x00; 0x00; 0x00; 0x00; 0x00; 0x00; 0x00; 0x00; 0x00];
  [0x00; 0x00; 0x00; 0x00; 0x01; 0x00; 0x00; 0x00; 0x00; 0x00; 0x00; 0x00];
  [0x01; 0x00; 0x00; 0x00; 0x00; 0x00; 0x00; 0x00; 0x01; 0x00; 0x00; 0x00];
  [0x02; 0x00; 0x00; 0x00; 0x00; 0x00; 0x00; 0x00; 0x00; 0x00; 0x00; 0x00];
  [0x00; 0x00; 0x00; 0x00; 0x00; 0x00; 0x00; 0x00; 0x08; 0x12; 0x00; 0x00];
  [0x00; 0x00; 0x00; 0x00; 0xe0; 0x01; 0x00; 0x00; 0x00; 0x00; 0x00; 0x00];
  [0x08; 0x00; 0x00; 0x00; 0x06; 0x00; 0x00; 0x00; 0x08; 0x00; 0x00; 0x00];
  [0x00; 0x00; 0x00; 0x00; 0x18; 0x00; 0x00; 0x00; 0x00; 0x00; 0x00; 0x00];
  [0x09; 0x00; 0x00; 0x00; 0x03; 0x00; 0x00; 0x00; 0x00; 0x00; 0x00; 0x00];
  [0x00; 0x00; 0x00; 0x00; 0x00; 0x00; 0x00; 0x00; 0x00; 0x00; 0x00; 0x00];
  [0xe8; 0x13; 0x00; 0x00; 0x00; 0x00; 0x00; 0x00; 0x9a; 0x00; 0x00; 0x00];
  [0x00; 0x00; 0x00; 0x00; 0x00; 0x00; 0x00; 0x00; 0x00; 0x00; 0x00; 0x00];
  [0x01; 0x00; 0x00; 0x00; 0x00; 0x00; 0x00; 0x00; 0x00; 0x00; 0x00; 0x00];
  [0x00; 0x00; 0x00; 0x00; 0x11; 0x00; 0x00; 0x00; 0x03; 0x00; 0x00; 0x00];
  [0x00; 0x00; 0x00; 0x00; 0x00; 0x00; 0x00; 0x00; 0x00; 0x00; 0x00; 0x00];
  [0x00; 0x00; 0x00; 0x00; 0x82; 0x14; 0x00; 0x00; 0x00; 0x00; 0x00; 0x00];
  [0x5d; 0x00; 0x00; 0x00; 0x00; 0x00; 0x00; 0x00; 0x00; 0x00; 0x00; 0x00];
  [0x00; 0x00; 0x00; 0x00; 0x01; 0x00; 0x00; 0x00; 0x00; 0x00; 0x00; 0x00];
  [0x00; 0x00; 0x00; 0x00; 0x00; 0x00; 0x00; 0x00]].
Definition user_image_echo_len : Z := 5984.

Definition user_image_ls : list Z := concat [
  [0x7f; 0x45; 0x4c; 0x46; 0x02; 0x01; 0x01; 0x00; 0x00; 0x00; 0x00; 0x00];
  [0x00; 0x00; 0x00; 0x00; 0x02; 0x00; 0x3e; 0x00; 0x01; 0x00; 0x00; 0x00];
  [0x10; 0x0b; 0x40; 0x00; 0x00; 0x00; 0x00; 0x00; 0x40; 0x00; 0x00; 0x00];
  [0x00; 0x00; 0x00; 0x00; 0x78; 0x16; 0x00; 0x00; 0x00; 0x00; 0x00; 0x00];
  [0x00; 0x00; 0x00; 0x00; 0x40; 0x00; 0x38; 0x00; 0x07; 0x00; 0x40; 0x00];
  [0x0b; 0x00; 0x0a; 0x00; 0x01; 0x00; 0x00; 0x00; 0x05; 0x00; 0x00; 0x00];
  [0x00; 0x00; 0x00; 0x00; 0x00; 0x00; 0x00; 0x00; 0x00; 0x00; 0x40; 0x00];
  [0x00; 0x00; 0x00; 0x00; 0x00; 0x00; 0x40; 0x00; 0x00; 0x00; 0x00; 0x00];
  [0xe8; 0x0c; 0x00; 0x00; 0x00; 0x00; 0x00; 0x00; 0xe8; 0x0c; 0x00; 0x00];
  [0x00; 0x00; 0x00; 0x00; 0x00; 0x10; 0x00; 0x00; 0x00; 0x00; 0x00; 0x00];
  [0x01; 0x00; 0x00; 0x00; 0x04; 0x00; 0x00; 0x00; 0x00; 0x10; 0x00; 0x00];
  [0x00; 0x00; 0x00; 0x00; 0x00; 0x10; 0x40; 0x00; 0x00; 0x00; 0x00; 0x00];
  [0x00; 0x10; 0x40; 0x00; 0x00; 0x00; 0x00; 0x00; 0x08; 0x03; 0x00; 0x00];
  [0x00; 0x00; 0x00; 0x00; 0x08; 0x03; 0x00; 0x00; 0x00; 0x00; 0x00; 0x00];
  [0x00; 0x10; 0x00; 0x00; 0x00; 0x00; 0x00; 0x00; 0x01; 0x00; 0x00; 0x00];
  [0x06; 0x00; 0x00; 0x00; 0x00; 0x10; 0x00; 0x00; 0x00; 0x00; 0x00; 0x00];
  [0x00; 0x20; 0x40; 0x00; 0x00; 0x00; 0x00; 0x00; 0x00; 0x20; 0x40; 0x00];
  [0x00; 0x00; 0x00; 0x00; 0x00; 0x00; 0x00; 0x00; 0x00; 0x00; 0x00; 0x00];
  [0x20; 0x80; 0x00; 0x00; 0x00; 0x00; 0x00; 0x00; 0x00; 0x10; 0x00; 0x00];
  [0x00; 0x00; 0x00; 0x00; 0x04; 0x00; 0x00; 0x00; 0x04; 0x00; 0x00; 0x00];
  [0x00; 0x10; 0x00; 0x00; 0x00; 0x00; 0x00; 0x00; 0x00; 0x10; 0x40; 0x00];
  [0x00; 0x00; 0x00; 0x00; 0x00; 0x10; 0x40; 0x00; 0x00; 0x00; 0x00; 0x00];
  [0x30; 0x00; 0x00; 0x00; 0x00; 0x00; 0x00; 0x00; 0x30; 0x00; 0x00; 0x00];
  [0x00; 0x00; 0x00; 0x00; 0x08; 0x00; 0x00; 0x00; 0x00; 0x00; 0x00; 0x00];
  [0x53; 0xe5; 0x74; 0x64; 0x04; 0x00; 0x00; 0x00; 0x00; 0x10; 0x00; 0x00];
  [0x00; 0x00; 0x00; 0x00; 0x00; 0x10; 0x40; 0x00; 0x00; 0x00; 0x00; 0x00];
  [0x00; 0x10; 0x40; 0x00; 0x00; 0x00; 0x00; 0x00; 0x30; 0x00; 0x00; 0x00];
  [0x00; 0x00; 0x00; 0x00; 0x30; 0x00; 0x00; 0x00; 0x00; 0x00; 0x00; 0x00];
  [0x08; 0x00; 0x00; 0x00; 0x00; 0x00; 0x00; 0x00; 0x50; 0xe5; 0x74; 0x64];
  [0x04; 0x00; 0x00; 0x00; 0xf0; 0x10; 0x00; 0x00; 0x00; 0x00; 0x00; 0x00];
  [0xf0; 0x10; 0x40; 0x00; 0x00; 0x00; 0x00; 0x00; 0xf0; 0x10; 0x40; 0x00];
  [0x00; 0x00; 0x00; 0x00; 0x74; 0x00; 0x00; 0x00; 0x00; 0x00; 0x00; 0x00];
  [0x74; 0x00; 0x00; 0x00; 0x00; 0x00; 0x00; 0x00; 0x04; 0x00; 0x00; 0x00];
  [0x00; 0x00; 0x00; 0x00; 0x51; 0xe5; 0x74; 0x64; 0x06; 0x00; 0x00; 0x00];
  [0x00; 0x00; 0x00; 0x00; 0x00; 0x00; 0x00; 0x00; 0x00; 0x00; 0x00; 0x00];
  [0x00; 0x00; 0x00; 0x00; 0x00; 0x00; 0x00; 0x00; 0x00; 0x00; 0x00; 0x00];
  [0x00; 0x00; 0x00; 0x00; 0x00; 0x00; 0x00; 0x00; 0x00; 0x00; 0x00; 0x00];
  [0x00; 0x00; 0x00; 0x00; 0x10; 0x00; 0x00; 0x00; 0x00; 0x00; 0x00; 0x00];
  [0x00; 0x00; 0x00; 0x00; 0x00; 0x00; 0x00; 0x00; 0x00; 0x00; 0x00; 0x00];
  [0x00; 0x00; 0x00; 0x00; 0x00; 0x00; 0x00; 0x00; 0x00; 0x00; 0x00; 0x00];
  [0x41; 0x57; 0x41; 0x56; 0x41; 0x55; 0x41; 0x54; 0x55; 0x53; 0x48; 0x81];
  [0xec; 0x38; 0x01; 0x00; 0x00; 0x4c; 0x8b; 0x25; 0x08; 0x1e; 0x00; 0x00];
  [0x89; 0x74; 0x24; 0x10; 0x49; 0x8d; 0x84; 0x24; 0x00; 0x01; 0x00; 0x00];
  [0x48; 0x3d; 0x00; 0x80; 0x00; 0x00; 0x0f; 0x87; 0x0a; 0x06; 0x00; 0x00];
  [0x0f; 0xb6; 0x17; 0x48; 0x89; 0x05; 0xe6; 0x1d; 0x00; 0x00; 0x48; 0x89];
  [0xfb; 0x49; 0x8d; 0xac; 0x24; 0x20; 0x20; 0x40; 0x00; 0x80; 0xfa; 0x2f];
  [0x0f; 0x85; 0x9e; 0x02; 0x00; 0x00; 0x31; 0xc0; 0xeb; 0x16; 0x0f; 0x1f];
  [0x00; 0x66; 0x66; 0x2e; 0x0f; 0x1f; 0x84; 0x00; 0x00; 0x00; 0x00; 0x00];
  [0x48; 0x3d; 0xff; 0x00; 0x00; 0x00; 0x74; 0x10; 0x88; 0x54; 0x05; 0x00];
  [0x48; 0x83; 0xc0; 0x01; 0x0f; 0xb6; 0x14; 0x03; 0x84; 0xd2; 0x75; 0xe8];
  [0x41; 0xc6; 0x84; 0x04; 0x20; 0x20; 0x40; 0x00; 0x00; 0x4c; 0x8d; 0x6c];
  [0x24; 0x30; 0x48; 0x89; 0xef; 0xe8; 0xb2; 0x08; 0x00; 0x00; 0x48; 0x83];
  [0xf8; 0x01; 0x76; 0x1d; 0x48; 0x8d; 0x70; 0xff; 0x48; 0x8d; 0x54; 0x35];
  [0x00; 0x0f; 0xb6; 0x0a; 0x80; 0xf9; 0x2e; 0x0f; 0x84; 0xb4; 0x05; 0x00];
  [0x00; 0x80; 0xf9; 0x2f; 0x75; 0x03; 0xc6; 0x02; 0x00; 0x31; 0xc0; 0xba];
  [0x2f; 0x00; 0x00; 0x00; 0x0f; 0x1f; 0x84; 0x00; 0x00; 0x00; 0x00; 0x00];
  [0x41; 0x88; 0x54; 0x05; 0x00; 0x0f; 0xb6; 0x90; 0x4f; 0x10; 0x40; 0x00];
  [0x48; 0x83; 0xc0; 0x01; 0x48; 0x83; 0xf8; 0x07; 0x75; 0xea; 0x41; 0x0f];
  [0xb6; 0x94; 0x24; 0x20; 0x20; 0x40; 0x00; 0x80; 0xfa; 0x2f; 0x0f; 0x84];
  [0x48; 0x05; 0x00; 0x00; 0xc6; 0x44; 0x24; 0x37; 0x2f; 0x84; 0xd2; 0x0f];
  [0x84; 0x5e; 0x06; 0x00; 0x00; 0xb8; 0x08; 0x00; 0x00; 0x00; 0x48; 0x89];
  [0xee; 0x48; 0x29; 0xc6; 0x41; 0x88; 0x54; 0x05; 0x00; 0x48; 0x89; 0xc1];
  [0x48; 0x83; 0xc0; 0x01; 0x0f; 0xb6; 0x14; 0x06; 0x84; 0xd2; 0x75; 0xec];
  [0x83; 0xc1; 0x01; 0x48; 0x63; 0xc9; 0x31; 0xf6; 0xb8; 0x05; 0x00; 0x00];
  [0x00; 0x4c; 0x89; 0xef; 0xc6; 0x44; 0x0c; 0x30; 0x00; 0x48; 0x89; 0xf2];
  [0x0f; 0x05; 0x49; 0x89; 0xc6; 0x48; 0x85; 0xc0; 0x0f; 0x88; 0x9c; 0x05];
  [0x00; 0x00; 0x4c; 0x8b; 0x3d; 0xdf; 0x1c; 0x00; 0x00; 0x49; 0x8d; 0x87];
  [0x00; 0x40; 0x00; 0x00; 0x48; 0x3d; 0x00; 0x80; 0x00; 0x00; 0x0f; 0x87];
  [0x50; 0x05; 0x00; 0x00; 0x48; 0x89; 0x05; 0xc5; 0x1c; 0x00; 0x00; 0x49];
  [0x8d; 0x9f; 0x20; 0x20; 0x40; 0x00; 0x45; 0x31; 0xc0; 0xeb; 0x1b; 0x66];
  [0x0f; 0x1f; 0x84; 0x00; 0x00; 0x00; 0x00; 0x00; 0x74; 0x4c; 0x49; 0x01];
  [0xc0; 0x49; 0x81; 0xf8; 0xff; 0x3f; 0x00; 0x00; 0x0f; 0x8f; 0x06; 0x05];
  [0x00; 0x00; 0x4e; 0x8d; 0x2c; 0x03; 0xba; 0x00; 0x40; 0x00; 0x00; 0xb8];
  [0x03; 0x00; 0x00; 0x00; 0x4c; 0x89; 0xf7; 0x4c; 0x29; 0xc2; 0x4c; 0x89];
  [0xee; 0x0f; 0x05; 0x48; 0x85; 0xc0; 0x79; 0xd0; 0xbf; 0xa6; 0x10; 0x40];
  [0x00; 0xe8; 0x96; 0x07; 0x00; 0x00; 0xbf; 0x01; 0x00; 0x00; 0x00; 0xbe];
  [0xa6; 0x10; 0x40; 0x00; 0x48; 0x89; 0xc2; 0xb8; 0x04; 0x00; 0x00; 0x00];
  [0x0f; 0x05; 0x31; 0xf6; 0xb8; 0x06; 0x00; 0x00; 0x00; 0x4c; 0x89; 0xf7];
  [0x48; 0x89; 0xf2; 0x0f; 0x05; 0x4c; 0x8b; 0x35; 0x4c; 0x1c; 0x00; 0x00];
  [0x41; 0xc6; 0x45; 0x00; 0x00; 0x49; 0x8d; 0x86; 0x00; 0x10; 0x00; 0x00];
  [0x48; 0x3d; 0x00; 0x80; 0x00; 0x00; 0x0f; 0x87; 0x44; 0x05; 0x00; 0x00];
  [0x48; 0x89; 0xef; 0x48; 0x89; 0x05; 0x2a; 0x1c; 0x00; 0x00; 0xe8; 0x45];
  [0x07; 0x00; 0x00; 0x49; 0x89; 0xc5; 0x48; 0x83; 0xf8; 0x01; 0x76; 0x0e];
  [0x48; 0x8d; 0x40; 0xff; 0x42; 0x80; 0x7c; 0x2d; 0xff; 0x2f; 0x4c; 0x0f];
  [0x44; 0xe8; 0x41; 0x80; 0xbf; 0x20; 0x20; 0x40; 0x00; 0x00; 0x0f; 0x84];
  [0xc4; 0x02; 0x00; 0x00; 0x49; 0x8d; 0x86; 0x20; 0x20; 0x40; 0x00; 0xc7];
  [0x44; 0x24; 0x1c; 0x00; 0x00; 0x00; 0x00; 0x45; 0x0f; 0xb6; 0xb7; 0x20];
  [0x20; 0x40; 0x00; 0x48; 0x89; 0x44; 0x24; 0x28; 0x45; 0x84; 0xf6; 0x0f];
  [0x84; 0xa2; 0x00; 0x00; 0x00; 0x66; 0x66; 0x2e; 0x0f; 0x1f; 0x84; 0x00];
  [0x00; 0x00; 0x00; 0x00; 0x49; 0x89; 0xdf; 0x41; 0x80; 0xfe; 0x0a; 0x0f];
  [0x84; 0x8a; 0x00; 0x00; 0x00; 0x0f; 0x1f; 0x00; 0x45; 0x0f; 0xb6; 0x77];
  [0x01; 0x49; 0x83; 0xc7; 0x01; 0x45; 0x84; 0xf6; 0x74; 0x06; 0x41; 0x80];
  [0xfe; 0x0a; 0x75; 0xec; 0x41; 0xc6; 0x07; 0x00; 0x31; 0xc0; 0xeb; 0x11];
  [0x0f; 0x1f; 0x40; 0x00; 0x0f; 0xb6; 0x3c; 0x03; 0x48; 0x83; 0xc0; 0x01];
  [0x40; 0x38; 0xf7; 0x75; 0x35; 0x0f; 0xb6; 0x74; 0x05; 0x00; 0x40; 0x84];
  [0xf6; 0x75; 0xe9; 0x80; 0x7d; 0x01; 0x00; 0x75; 0x0f; 0x41; 0x80; 0xbc];
  [0x24; 0x20; 0x20; 0x40; 0x00; 0x2f; 0x0f; 0x84; 0x62; 0x03; 0x00; 0x00];
  [0x4c; 0x01; 0xeb; 0x0f; 0xb6; 0x03; 0x3c; 0x2f; 0x0f; 0x84; 0x44; 0x02];
  [0x00; 0x00; 0x84; 0xc0; 0x0f; 0x84; 0x34; 0x02; 0x00; 0x00; 0x41; 0x80];
  [0xfe; 0x0a; 0x0f; 0x85; 0xdc; 0x00; 0x00; 0x00; 0x45; 0x0f; 0xb6; 0x77];
  [0x01; 0x45; 0x84; 0xf6; 0x0f; 0x84; 0xce; 0x00; 0x00; 0x00; 0x49; 0x8d];
  [0x5f; 0x01; 0x45; 0x84; 0xf6; 0x0f; 0x85; 0x69; 0xff; 0xff; 0xff; 0x49];
  [0x89; 0xdf; 0xeb; 0x88; 0x4c; 0x8d; 0x6c; 0x24; 0x30; 0xbe; 0x00; 0x01];
  [0x00; 0x00; 0x4c; 0x89; 0xef; 0xe8; 0x02; 0x08; 0x00; 0x00; 0x85; 0xc0];
  [0x79; 0x0a; 0xb9; 0x2f; 0x00; 0x00; 0x00; 0x66; 0x89; 0x4c; 0x24; 0x30];
  [0x4c; 0x89; 0xef; 0xe8; 0x2c; 0x06; 0x00; 0x00; 0x48; 0x89; 0xdf; 0x49];
  [0x89; 0xc6; 0xe8; 0x21; 0x06; 0x00; 0x00; 0x48; 0x89; 0xc7; 0x4d; 0x85];
  [0xf6; 0x0f; 0x84; 0x5c; 0x04; 0x00; 0x00; 0x31; 0xc0; 0x0f; 0x1f; 0x84];
  [0x00; 0x00; 0x00; 0x00; 0x00; 0x66; 0x66; 0x2e; 0x0f; 0x1f; 0x84; 0x00];
  [0x00; 0x00; 0x00; 0x00; 0x41; 0x0f; 0xb6; 0x54; 0x05; 0x00; 0x48; 0x89];
  [0xc1; 0x88; 0x54; 0x05; 0x00; 0x48; 0x83; 0xc0; 0x01; 0x49; 0x39; 0xc6];
  [0x75; 0xea; 0x4a; 0x8d; 0x44; 0x35; 0x00; 0x44; 0x89; 0xf6; 0x80; 0xfa];
  [0x2f; 0x74; 0x0e; 0x8d; 0x71; 0x02; 0xc6; 0x00; 0x2f; 0x48; 0x63; 0xd6];
  [0x48; 0x8d; 0x44; 0x15; 0x00; 0x48; 0x85; 0xff; 0x74; 0x26; 0x48; 0x63];
  [0xd6; 0x31; 0xc0; 0x48; 0x01; 0xea; 0x66; 0x90; 0x0f; 0xb6; 0x0c; 0x03];
  [0x88; 0x0c; 0x02; 0x48; 0x89; 0xc1; 0x48; 0x83; 0xc0; 0x01; 0x48; 0x39];
  [0xc7; 0x75; 0xed; 0x8d; 0x44; 0x0e; 0x01; 0x48; 0x98; 0x48; 0x01; 0xe8];
  [0xc6; 0x00; 0x00; 0xe9; 0xe2; 0xfc; 0xff; 0xff; 0x89; 0x44; 0x24; 0x1c];
  [0x44; 0x8b; 0x7c; 0x24; 0x1c; 0x41; 0xd1; 0xff; 0x0f; 0x84; 0xa7; 0x03];
  [0x00; 0x00; 0x66; 0x2e; 0x0f; 0x1f; 0x84; 0x00; 0x00; 0x00; 0x00; 0x00];
  [0x44; 0x3b; 0x7c; 0x24; 0x1c; 0x0f; 0x8d; 0x5d; 0x02; 0x00; 0x00; 0x48];
  [0x8b; 0x54; 0x24; 0x28; 0x49; 0x63; 0xc7; 0x44; 0x89; 0xfb; 0x44; 0x89];
  [0x7c; 0x24; 0x08; 0x48; 0xc1; 0xe0; 0x03; 0xf7; 0xdb; 0x48; 0x89; 0x44];
  [0x24; 0x20; 0x48; 0x01; 0xd0; 0x48; 0x63; 0xdb; 0x48; 0x89; 0x44; 0x24];
  [0x10; 0x48; 0xc1; 0xe3; 0x03; 0x66; 0x66; 0x2e; 0x0f; 0x1f; 0x84; 0x00];
  [0x00; 0x00; 0x00; 0x00; 0x48; 0x8b; 0x4c; 0x24; 0x10; 0x44; 0x8b; 0x74];
  [0x24; 0x08; 0x48; 0x8b; 0x11; 0x48; 0x89; 0xc8; 0x48; 0x89; 0x14; 0x24];
  [0x45; 0x39; 0xfe; 0x7c; 0x49; 0x48; 0x89; 0xcd; 0x49; 0x89; 0xcd; 0x48];
  [0x2b; 0x6c; 0x24; 0x20; 0xeb; 0x25; 0x66; 0x2e; 0x0f; 0x1f; 0x84; 0x00];
  [0x00; 0x00; 0x00; 0x00; 0x48; 0x8b; 0x75; 0x00; 0x45; 0x29; 0xfe; 0x48];
  [0x01; 0xdd; 0x49; 0x89; 0x75; 0x00; 0x4c; 0x8d; 0x2c; 0x18; 0x45; 0x39];
  [0xfe; 0x0f; 0x8c; 0xd5; 0x01; 0x00; 0x00; 0x48; 0x8b; 0x7d; 0x00; 0x48];
  [0x8b; 0x34; 0x24; 0x49; 0x89; 0xec; 0xe8; 0x15; 0x05; 0x00; 0x00; 0x85];
  [0xc0; 0x4c; 0x89; 0xe8; 0x7f; 0xce; 0x48; 0x8b; 0x14; 0x24; 0x83; 0x44];
  [0x24; 0x08; 0x01; 0x48; 0x83; 0x44; 0x24; 0x10; 0x08; 0x48; 0x89; 0x10];
  [0x8b; 0x44; 0x24; 0x08; 0x3b; 0x44; 0x24; 0x1c; 0x75; 0x82; 0x41; 0xd1];
  [0xff; 0x0f; 0x85; 0x39; 0xff; 0xff; 0xff; 0x48; 0x8b; 0x5c; 0x24; 0x28];
  [0x4c; 0x63; 0x7c; 0x24; 0x1c; 0x4e; 0x8d; 0x2c; 0xfb; 0x66; 0x66; 0x2e];
  [0x0f; 0x1f; 0x84; 0x00; 0x00; 0x00; 0x00; 0x00; 0x48; 0x8b; 0x2b; 0x48];
  [0x89; 0xef; 0xe8; 0x95; 0x04; 0x00; 0x00; 0xbf; 0x01; 0x00; 0x00; 0x00];
  [0x48; 0x89; 0xee; 0x48; 0x89; 0xc2; 0xb8; 0x04; 0x00; 0x00; 0x00; 0x0f];
  [0x05; 0xbf; 0x4c; 0x10; 0x40; 0x00; 0xe8; 0x79; 0x04; 0x00; 0x00; 0xbf];
  [0x01; 0x00; 0x00; 0x00; 0xbe; 0x4c; 0x10; 0x40; 0x00; 0x48; 0x89; 0xc2];
  [0xb8; 0x04; 0x00; 0x00; 0x00; 0x0f; 0x05; 0x48; 0x83; 0xc3; 0x08; 0x4c];
  [0x39; 0xeb; 0x75; 0xbc; 0x48; 0x81; 0xc4; 0x38; 0x01; 0x00; 0x00; 0x5b];
  [0x5d; 0x41; 0x5c; 0x41; 0x5d; 0x41; 0x5e; 0x41; 0x5f; 0xc3; 0x3c; 0x2f];
  [0x0f; 0x85; 0xc4; 0xfd; 0xff; 0xff; 0x48; 0x83; 0xc3; 0x01; 0x80; 0x3b];
  [0x00; 0x0f; 0x84; 0xb7; 0xfd; 0xff; 0xff; 0x48; 0x89; 0xdf; 0xe8; 0x2d];
  [0x04; 0x00; 0x00; 0x48; 0x8b; 0x0d; 0x06; 0x19; 0x00; 0x00; 0x49; 0x89];
  [0xc0; 0x48; 0x8d; 0x44; 0x01; 0x01; 0x48; 0x89; 0x4c; 0x24; 0x20; 0x48];
  [0x3d; 0x00; 0x80; 0x00; 0x00; 0x0f; 0x87; 0x8f; 0xfd; 0xff; 0xff; 0x48];
  [0x89; 0x05; 0xe6; 0x18; 0x00; 0x00; 0x48; 0x8d; 0xb1; 0x20; 0x20; 0x40];
  [0x00; 0x31; 0xc0; 0x0f; 0xb6; 0x3c; 0x03; 0x40; 0x88; 0x3c; 0x06; 0x48];
  [0x83; 0xc0; 0x01; 0x49; 0x39; 0xc0; 0x73; 0xef; 0x48; 0x8b; 0x44; 0x24];
  [0x20; 0x0f; 0xb6; 0xb8; 0x20; 0x20; 0x40; 0x00; 0x40; 0x84; 0xff; 0x74];
  [0x1b; 0x48; 0x89; 0xf0; 0xeb; 0x0d; 0x0f; 0xb6; 0x78; 0x01; 0x48; 0x83];
  [0xc0; 0x01; 0x40; 0x84; 0xff; 0x74; 0x09; 0x40; 0x80; 0xff; 0x2f; 0x75];
  [0xed; 0xc6; 0x00; 0x00; 0x8b; 0x54; 0x24; 0x1c; 0x85; 0xd2; 0x74; 0x39];
  [0x48; 0x8b; 0x4c; 0x24; 0x28; 0x48; 0x63; 0x44; 0x24; 0x1c; 0x48; 0x8d];
  [0x04; 0xc1; 0x48; 0x89; 0xcb; 0x48; 0x89; 0x44; 0x24; 0x08; 0x48; 0x8b];
  [0x3b; 0x48; 0x89; 0x34; 0x24; 0xe8; 0xc6; 0x03; 0x00; 0x00; 0x85; 0xc0];
  [0x0f; 0x84; 0x10; 0xfd; 0xff; 0xff; 0x48; 0x83; 0xc3; 0x08; 0x48; 0x3b];
  [0x5c; 0x24; 0x08; 0x48; 0x8b; 0x34; 0x24; 0x75; 0xdd; 0x8b; 0x44; 0x24];
  [0x10; 0x85; 0xc0; 0x0f; 0x84; 0xa3; 0x01; 0x00; 0x00; 0x48; 0x63; 0x54];
  [0x24; 0x1c; 0x48; 0x8b; 0x4c; 0x24; 0x28; 0x8d; 0x42; 0x01; 0x48; 0x89];
  [0x34; 0xd1; 0x41; 0x80; 0xfe; 0x0a; 0x0f; 0x85; 0xbc; 0xfd; 0xff; 0xff];
  [0x45; 0x0f; 0xb6; 0x77; 0x01; 0x45; 0x84; 0xf6; 0x0f; 0x84; 0xae; 0xfd];
  [0xff; 0xff; 0x3d; 0x00; 0x02; 0x00; 0x00; 0x0f; 0x84; 0x90; 0x00; 0x00];
  [0x00; 0x89; 0x44; 0x24; 0x1c; 0x49; 0x8d; 0x5f; 0x01; 0xe9; 0x2e; 0xfc];
  [0xff; 0xff; 0x80; 0x3b; 0x2f; 0x0f; 0x85; 0xab; 0xfc; 0xff; 0xff; 0xe9];
  [0xe2; 0xfe; 0xff; 0xff; 0x0f; 0x1f; 0x40; 0x00; 0x4c; 0x89; 0xe0; 0xe9];
  [0x3a; 0xfe; 0xff; 0xff; 0x41; 0xd1; 0xff; 0xe9; 0x90; 0xfd; 0xff; 0xff];
  [0xb8; 0x07; 0x00; 0x00; 0x00; 0xe9; 0xc0; 0xfa; 0xff; 0xff; 0xbf; 0x30];
  [0x10; 0x40; 0x00; 0xe8; 0xfc; 0x02; 0x00; 0x00; 0xbf; 0x01; 0x00; 0x00];
  [0x00; 0xbe; 0x30; 0x10; 0x40; 0x00; 0x48; 0x89; 0xc2; 0xb8; 0x04; 0x00];
  [0x00; 0x00; 0x0f; 0x05; 0xe9; 0x87; 0xfe; 0xff; 0xff; 0x48; 0x8d; 0x44];
  [0x05; 0xfe; 0x80; 0x38; 0x2f; 0x0f; 0x85; 0x46; 0xfa; 0xff; 0xff; 0xc6];
  [0x02; 0x00; 0x48; 0x83; 0xfe; 0x01; 0x0f; 0x84; 0x39; 0xfa; 0xff; 0xff];
  [0x0f; 0xb6; 0x08; 0x48; 0x89; 0xc2; 0xe9; 0x26; 0xfa; 0xff; 0xff; 0x0f];
  [0x1f; 0x44; 0x00; 0x00; 0x4e; 0x8d; 0x2c; 0x03; 0xe9; 0x2d; 0xfb; 0xff];
  [0xff; 0xc7; 0x44; 0x24; 0x1c; 0x00; 0x02; 0x00; 0x00; 0x41; 0xbf; 0x00];
  [0x01; 0x00; 0x00; 0xe9; 0x1c; 0xfd; 0xff; 0xff; 0xbf; 0x88; 0x10; 0x40];
  [0x00; 0xe8; 0x92; 0x02; 0x00; 0x00; 0xbf; 0x01; 0x00; 0x00; 0x00; 0xbe];
  [0x88; 0x10; 0x40; 0x00; 0x48; 0x89; 0xc2; 0xb8; 0x04; 0x00; 0x00; 0x00];
  [0x0f; 0x05; 0x31; 0xf6; 0xb8; 0x06; 0x00; 0x00; 0x00; 0x4c; 0x89; 0xf7];
  [0x48; 0x89; 0xf2; 0x0f; 0x05; 0xe9; 0x0e; 0xfe; 0xff; 0xff; 0xbf; 0x56];
  [0x10; 0x40; 0x00; 0xbd; 0x04; 0x00; 0x00; 0x00; 0xe8; 0x5b; 0x02; 0x00];
  [0x00; 0xbf; 0x01; 0x00; 0x00; 0x00; 0xbe; 0x56; 0x10; 0x40; 0x00; 0x48];
  [0x89; 0xc2; 0x48; 0x89; 0xe8; 0x0f; 0x05; 0x48; 0x89; 0xdf; 0xe8; 0x41];
  [0x02; 0x00; 0x00; 0xbf; 0x01; 0x00; 0x00; 0x00; 0x48; 0x89; 0xde; 0x48];
  [0x89; 0xc2; 0x48; 0x89; 0xe8; 0x0f; 0x05; 0xbf; 0x6a; 0x10; 0x40; 0x00];
  [0xe8; 0x27; 0x02; 0x00; 0x00; 0xbf; 0x01; 0x00; 0x00; 0x00; 0xbe; 0x6a];
  [0x10; 0x40; 0x00; 0x48; 0x89; 0xc2; 0x48; 0x89; 0xe8; 0x0f; 0x05; 0xe9];
  [0xb4; 0xfd; 0xff; 0xff; 0xbf; 0xd0; 0x10; 0x40; 0x00; 0xe8; 0x06; 0x02];
  [0x00; 0x00; 0xbf; 0x01; 0x00; 0x00; 0x00; 0xbe; 0xd0; 0x10; 0x40; 0x00];
  [0x48; 0x89; 0xc2; 0xb8; 0x04; 0x00; 0x00; 0x00; 0x0f; 0x05; 0xe9; 0x91];
  [0xfd; 0xff; 0xff; 0xb9; 0x08; 0x00; 0x00; 0x00; 0xe9; 0xba; 0xf9; 0xff];
  [0xff; 0x83; 0x7c; 0x24; 0x1c; 0x01; 0x0f; 0x85; 0x7c; 0xfd; 0xff; 0xff];
  [0xe9; 0x1a; 0xfd; 0xff; 0xff; 0x0f; 0x1f; 0x00; 0x48; 0x8b; 0x44; 0x24];
  [0x20; 0x80; 0xb8; 0x20; 0x20; 0x40; 0x00; 0x2e; 0x0f; 0x85; 0x4b; 0xfe];
  [0xff; 0xff; 0xe9; 0x3b; 0xfb; 0xff; 0xff; 0x48; 0x89; 0xe8; 0x31; 0xf6];
  [0xe9; 0xe0; 0xfb; 0xff; 0xff; 0x0f; 0x1f; 0x40; 0x00; 0x66; 0x66; 0x2e];
  [0x0f; 0x1f; 0x84; 0x00; 0x00; 0x00; 0x00; 0x00; 0x41; 0x57; 0x41; 0x56];
  [0x41; 0x55; 0x41; 0x54; 0x55; 0x53; 0x48; 0x83; 0xec; 0x18; 0x4c; 0x8b];
  [0x37; 0x49; 0x83; 0xfe; 0x01; 0x0f; 0x86; 0x6b; 0x01; 0x00; 0x00; 0x49];
  [0x89; 0xfd; 0x45; 0x31; 0xe4; 0xbd; 0x01; 0x00; 0x00; 0x00; 0x66; 0x2e];
  [0x0f; 0x1f; 0x84; 0x00; 0x00; 0x00; 0x00; 0x00; 0x49; 0x8b; 0x5c; 0xed];
  [0x08; 0x80; 0x3b; 0x2d; 0x0f; 0x85; 0x92; 0x00; 0x00; 0x00; 0x0f; 0xb6];
  [0x43; 0x01; 0x84; 0xc0; 0x74; 0x56; 0x48; 0x83; 0xc3; 0x02; 0xeb; 0x3b];
  [0x0f; 0x1f; 0x40; 0x00; 0x3c; 0x6c; 0x74; 0x28; 0xbf; 0xb6; 0x10; 0x40];
  [0x00; 0xe8; 0x42; 0x01; 0x00; 0x00; 0xbf; 0x01; 0x00; 0x00; 0x00; 0xbe];
  [0xb6; 0x10; 0x40; 0x00; 0x48; 0x89; 0xc2; 0xb8; 0x04; 0x00; 0x00; 0x00];
  [0x0f; 0x05; 0x31; 0xf6; 0x48; 0x89; 0xf8; 0x48; 0x89; 0xf2; 0x0f; 0x05];
  [0x0f; 0xb6; 0x03; 0x48; 0x83; 0xc3; 0x01; 0x84; 0xc0; 0x74; 0x15; 0x3c];
  [0x61; 0x75; 0xc5; 0x0f; 0xb6; 0x03; 0x48; 0x83; 0xc3; 0x01; 0x41; 0xbc];
  [0x01; 0x00; 0x00; 0x00; 0x84; 0xc0; 0x75; 0xeb; 0x48; 0x83; 0xc5; 0x01];
  [0x49; 0x39; 0xee; 0x75; 0x8b; 0x44; 0x89; 0xe6; 0xbf; 0xca; 0x10; 0x40];
  [0x00; 0xe8; 0xae; 0xf7; 0xff; 0xff; 0x31; 0xff; 0xb8; 0x01; 0x00; 0x00];
  [0x00; 0x48; 0x89; 0xfe; 0x48; 0x89; 0xfa; 0x0f; 0x05; 0x48; 0x83; 0xc4];
  [0x18; 0x5b; 0x5d; 0x41; 0x5c; 0x41; 0x5d; 0x41; 0x5e; 0x41; 0x5f; 0xc3];
  [0x4c; 0x39; 0xf5; 0x73; 0xd0; 0x4c; 0x89; 0xf0; 0x4c; 0x63; 0xfd; 0xbb];
  [0x04; 0x00; 0x00; 0x00; 0x48; 0x29; 0xe8; 0x49; 0x8d; 0x6e; 0xff; 0x48];
  [0x89; 0x04; 0x24; 0x4d; 0x39; 0xf7; 0x72; 0x11; 0xeb; 0xc0; 0x66; 0x0f];
  [0x1f; 0x44; 0x00; 0x00; 0x49; 0x83; 0xc7; 0x01; 0x4d; 0x39; 0xf7; 0x73];
  [0xb1; 0x48; 0x83; 0x3c; 0x24; 0x01; 0x74; 0x40; 0x4b; 0x8b; 0x74; 0xfd];
  [0x08; 0x48; 0x89; 0xf7; 0x48; 0x89; 0x74; 0x24; 0x08; 0xe8; 0x86; 0x00];
  [0x00; 0x00; 0xbf; 0x01; 0x00; 0x00; 0x00; 0x48; 0x8b; 0x74; 0x24; 0x08];
  [0x48; 0x89; 0xc2; 0x48; 0x89; 0xd8; 0x0f; 0x05; 0xbf; 0xcc; 0x10; 0x40];
  [0x00; 0xe8; 0x6a; 0x00; 0x00; 0x00; 0xbf; 0x01; 0x00; 0x00; 0x00; 0xbe];
  [0xcc; 0x10; 0x40; 0x00; 0x48; 0x89; 0xc2; 0x48; 0x89; 0xd8; 0x0f; 0x05];
  [0x4b; 0x8b; 0x7c; 0xfd; 0x08; 0x44; 0x89; 0xe6; 0x48; 0xc7; 0x05; 0x25];
  [0x15; 0x00; 0x00; 0x00; 0x00; 0x00; 0x00; 0xe8; 0x00; 0xf7; 0xff; 0xff];
  [0x49; 0x39; 0xef; 0x73; 0x93; 0xbf; 0x4c; 0x10; 0x40; 0x00; 0xe8; 0x31];
  [0x00; 0x00; 0x00; 0xbf; 0x01; 0x00; 0x00; 0x00; 0xbe; 0x4c; 0x10; 0x40];
  [0x00; 0x48; 0x89; 0xc2; 0x48; 0x89; 0xd8; 0x0f; 0x05; 0xe9; 0x72; 0xff];
  [0xff; 0xff; 0x45; 0x31; 0xe4; 0xe9; 0x17; 0xff; 0xff; 0xff; 0x66; 0x90];
  [0x48; 0x89; 0xe7; 0x48; 0x83; 0xe4; 0xf0; 0xe8; 0x64; 0xfe; 0xff; 0xff];
  [0xf4; 0x0f; 0x0b; 0x90; 0x31; 0xc0; 0x48; 0x85; 0xff; 0x75; 0x09; 0xc3];
  [0x0f; 0x1f; 0x84; 0x00; 0x00; 0x00; 0x00; 0x00; 0x80; 0x3f; 0x00; 0x74];
  [0xf2; 0x66; 0x66; 0x2e; 0x0f; 0x1f; 0x84; 0x00; 0x00; 0x00; 0x00; 0x00];
  [0x48; 0x83; 0xc0; 0x01; 0x80; 0x3c; 0x07; 0x00; 0x75; 0xf6; 0xc3; 0x0f];
  [0x1f; 0x44; 0x00; 0x00; 0x48; 0x85; 0xff; 0x74; 0x3b; 0x48; 0x85; 0xf6];
  [0x74; 0x36; 0x0f; 0xb6; 0x07; 0x84; 0xc0; 0x75; 0x1b; 0xeb; 0x4e; 0x0f];
  [0x1f; 0x44; 0x00; 0x00; 0x84; 0xd2; 0x74; 0x17; 0x0f; 0xb6; 0x47; 0x01];
  [0x48; 0x83; 0xc7; 0x01; 0x84; 0xc0; 0x74; 0x30; 0x48; 0x83; 0xc6; 0x01];
  [0x0f; 0xb6; 0x16; 0x38; 0xc2; 0x74; 0xe5; 0x29; 0xd0; 0xc3; 0x66; 0x2e];
  [0x0f; 0x1f; 0x84; 0x00; 0x00; 0x00; 0x00; 0x00; 0x31; 0xc0; 0x48; 0x39];
  [0xf7; 0x74; 0xee; 0x48; 0x83; 0xff; 0x01; 0x19; 0xc0; 0x83; 0xc8; 0x01];
  [0xc3; 0x0f; 0x1f; 0x80; 0x00; 0x00; 0x00; 0x00; 0x0f; 0xb6; 0x56; 0x01];
  [0x31; 0xc0; 0x29; 0xd0; 0xc3; 0x0f; 0xb6; 0x16; 0x31; 0xc0; 0x29; 0xd0];
  [0xc3; 0x0f; 0x1f; 0x80; 0x00; 0x00; 0x00; 0x00; 0x48; 0x85; 0xff; 0x74];
  [0x2f; 0x48; 0x85; 0xf6; 0x74; 0x2a; 0x0f; 0xb6; 0x06; 0x48; 0x89; 0xfa];
  [0x84; 0xc0; 0x74; 0x1d; 0x90; 0x66; 0x66; 0x2e; 0x0f; 0x1f; 0x84; 0x00];
  [0x00; 0x00; 0x00; 0x00; 0x48; 0x83; 0xc6; 0x01; 0x88; 0x02; 0x48; 0x83];
  [0xc2; 0x01; 0x0f; 0xb6; 0x06; 0x84; 0xc0; 0x75; 0xef; 0xc6; 0x02; 0x00];
  [0x48; 0x89; 0xf8; 0xc3; 0x0f; 0x1f; 0x84; 0x00; 0x00; 0x00; 0x00; 0x00];
  [0x48; 0x85; 0xf6; 0x48; 0x89; 0xd1; 0x0f; 0x94; 0xc0; 0x48; 0x85; 0xd2];
  [0x0f; 0x94; 0xc2; 0x08; 0xd0; 0x75; 0x1d; 0x48; 0x85; 0xff; 0x74; 0x18];
  [0x31; 0xc0; 0x66; 0x0f; 0x1f; 0x44; 0x00; 0x00; 0x0f; 0xb6; 0x14; 0x06];
  [0x88; 0x14; 0x07; 0x48; 0x83; 0xc0; 0x01; 0x48; 0x39; 0xc8; 0x72; 0xf0];
  [0x48; 0x89; 0xf8; 0xc3; 0x90; 0x66; 0x66; 0x2e; 0x0f; 0x1f; 0x84; 0x00];
  [0x00; 0x00; 0x00; 0x00; 0x48; 0x85; 0xff; 0x74; 0x4d; 0x48; 0x85; 0xd2];
  [0x74; 0x48; 0xb8; 0x01; 0x00; 0x00; 0x00; 0x40; 0x88; 0x37; 0x48; 0x8d];
  [0x4a; 0xff; 0x48; 0x39; 0xd0; 0x73; 0x37; 0x83; 0xe1; 0x01; 0x74; 0x20];
  [0x40; 0x88; 0x34; 0x07; 0xb8; 0x02; 0x00; 0x00; 0x00; 0x48; 0x39; 0xd0];
  [0x73; 0x24; 0x0f; 0x1f; 0x80; 0x00; 0x00; 0x00; 0x00; 0x66; 0x66; 0x2e];
  [0x0f; 0x1f; 0x84; 0x00; 0x00; 0x00; 0x00; 0x00; 0x40; 0x88; 0x34; 0x07];
  [0x40; 0x88; 0x74; 0x07; 0x01; 0x48; 0x83; 0xc0; 0x02; 0x48; 0x39; 0xd0];
  [0x72; 0xee; 0x48; 0x89; 0xf8; 0xc3; 0x66; 0x2e; 0x0f; 0x1f; 0x84; 0x00];
  [0x00; 0x00; 0x00; 0x00; 0x48; 0x63; 0xff; 0x48; 0x63; 0xf6; 0xb8; 0x0b];
  [0x00; 0x00; 0x00; 0x0f; 0x05; 0xc3; 0x66; 0x90; 0xb8; 0x0c; 0x00; 0x00];
  [0x00; 0x0f; 0x05; 0xc3; 0x0f; 0x1f; 0x84; 0x00; 0x00; 0x00; 0x00; 0x00];
  [0x49; 0x89; 0xca; 0xb8; 0x07; 0x00; 0x00; 0x00; 0x0f; 0x05; 0xc3; 0x0f];
  [0x1f; 0x44; 0x00; 0x00; 0xb8; 0x0d; 0x00; 0x00; 0x00; 0x0f; 0x05; 0xc3];
  [0x0f; 0x1f; 0x84; 0x00; 0x00; 0x00; 0x00; 0x00; 0xb8; 0x0e; 0x00; 0x00];
  [0x00; 0x0f; 0x05; 0xc3; 0x00; 0x00; 0x00; 0x00; 0x00; 0x00; 0x00; 0x00];
  [0x00; 0x00; 0x00; 0x00; 0x00; 0x00; 0x00; 0x00; 0x00; 0x00; 0x00; 0x00];
  [0x00; 0x00; 0x00; 0x00; 0x00; 0x00; 0x00; 0x00; 0x00; 0x00; 0x00; 0x00];
  [0x00; 0x00; 0x00; 0x00; 0x00; 0x00; 0x00; 0x00; 0x00; 0x00; 0x00; 0x00];
  [0x00; 0x00; 0x00; 0x00; 0x00; 0x00; 0x00; 0x00; 0x00; 0x00; 0x00; 0x00];
  [0x00; 0x00; 0x00; 0x00; 0x00; 0x00; 0x00; 0x00; 0x00; 0x00; 0x00; 0x00];
  [0x00; 0x00; 0x00; 0x00; 0x00; 0x00; 0x00; 0x00; 0x00; 0x00; 0x00; 0x00];
  [0x00; 0x00; 0x00; 0x00; 0x00; 0x00; 0x00; 0x00; 0x00; 0x00; 0x00; 0x00];
  [0x00; 0x00; 0x00; 0x00; 0x00; 0x00; 0x00; 0x00; 0x00; 0x00; 0x00; 0x00];
  [0x00; 0x00; 0x00; 0x00; 0x00; 0x00; 0x00; 0x00; 0x00; 0x00; 0x00; 0x00];
  [0x00; 0x00; 0x00; 0x00; 0x00; 0x00; 0x00; 0x00; 0x00; 0x00; 0x00; 0x00];
  [0x00; 0x00; 0x00; 0x00; 0x00; 0x00; 0x00; 0x00; 0x00; 0x00; 0x00; 0x00];
  [0x00; 0x00; 0x00; 0x00; 0x00; 0x00; 0x00; 0x00; 0x00; 0x00; 0x00; 0x00];
  [0x00; 0x00; 0x00; 0x00; 0x00; 0x00; 0x00; 0x00; 0x00; 0x00; 0x00; 0x00];
  [0x00; 0x00; 0x00; 0x00; 0x00; 0x00; 0x00; 0x00; 0x00; 0x00; 0x00; 0x00];
  [0x00; 0x00; 0x00; 0x00; 0x00; 0x00; 0x00; 0x00; 0x00; 0x00; 0x00; 0x00];
  [0x00; 0x00; 0x00; 0x00; 0x00; 0x00; 0x00; 0x00; 0x00; 0x00; 0x00; 0x00];
  [0x00; 0x00; 0x00; 0x00; 0x00; 0x00; 0x00; 0x00; 0x00; 0x00; 0x00; 0x00];
  [0x00; 0x00; 0x00; 0x00; 0x00; 0x00; 0x00; 0x00; 0x00; 0x00; 0x00; 0x00];
  [0x00; 0x00; 0x00; 0x00; 0x00; 0x00; 0x00; 0x00; 0x00; 0x00; 0x00; 0x00];
  [0x00; 0x00; 0x00; 0x00; 0x00; 0x00; 0x00; 0x00; 0x00; 0x00; 0x00; 0x00];
  [0x00; 0x00; 0x00; 0x00; 0x00; 0x00; 0x00; 0x00; 0x00; 0x00; 0x00; 0x00];
  [0x00; 0x00; 0x00; 0x00; 0x00; 0x00; 0x00; 0x00; 0x00; 0x00; 0x00; 0x00];
  [0x00; 0x00; 0x00; 0x00; 0x00; 0x00; 0x00; 0x00; 0x00; 0x00; 0x00; 0x00];
  [0x00; 0x00; 0x00; 0x00; 0x00; 0x00; 0x00; 0x00; 0x00; 0x00; 0x00; 0x00];
  [0x00; 0x00; 0x00; 0x00; 0x00; 0x00; 0x00; 0x00; 0x00; 0x00; 0x00; 0x00];
  [0x00; 0x00; 0x00; 0x00; 0x00; 0x00; 0x00; 0x00; 0x00; 0x00; 0x00; 0x00];
  [0x00; 0x00; 0x00; 0x00; 0x00; 0x00; 0x00; 0x00; 0x00; 0x00; 0x00; 0x00];
  [0x00; 0x00; 0x00; 0x00; 0x00; 0x00; 0x00; 0x00; 0x00; 0x00; 0x00; 0x00];
  [0x00; 0x00; 0x00; 0x00; 0x00; 0x00; 0x00; 0x00; 0x00; 0x00; 0x00; 0x00];
  [0x00; 0x00; 0x00; 0x00; 0x00; 0x00; 0x00; 0x00; 0x00; 0x00; 0x00; 0x00];
  [0x00; 0x00; 0x00; 0x00; 0x00; 0x00; 0x00; 0x00; 0x00; 0x00; 0x00; 0x00];
  [0x00; 0x00; 0x00; 0x00; 0x00; 0x00; 0x00; 0x00; 0x00; 0x00; 0x00; 0x00];
  [0x00; 0x00; 0x00; 0x00; 0x00; 0x00; 0x00; 0x00; 0x00; 0x00; 0x00; 0x00];
  [0x00; 0x00; 0x00; 0x00; 0x00; 0x00; 0x00; 0x00; 0x00; 0x00; 0x00; 0x00];
  [0x00; 0x00; 0x00; 0x00; 0x00; 0x00; 0x00; 0x00; 0x00; 0x00; 0x00; 0x00];
  [0x00; 0x00; 0x00; 0x00; 0x00; 0x00; 0x00; 0x00; 0x00; 0x00; 0x00; 0x00];
  [0x00; 0x00; 0x00; 0x00; 0x00; 0x00; 0x00; 0x00; 0x00; 0x00; 0x00; 0x00];
  [0x00; 0x00; 0x00; 0x00; 0x00; 0x00; 0x00; 0x00; 0x00; 0x00; 0x00; 0x00];
  [0x00; 0x00; 0x00; 0x00; 0x00; 0x00; 0x00; 0x00; 0x00; 0x00; 0x00; 0x00];
  [0x00; 0x00; 0x00; 0x00; 0x00; 0x00; 0x00; 0x00; 0x00; 0x00; 0x00; 0x00];
  [0x00; 0x00; 0x00; 0x00; 0x00; 0x00; 0x00; 0x00; 0x00; 0x00; 0x00; 0x00];
  [0x00; 0x00; 0x00; 0x00; 0x00; 0x00; 0x00; 0x00; 0x00; 0x00; 0x00; 0x00];
  [0x00; 0x00; 0x00; 0x00; 0x00; 0x00; 0x00; 0x00; 0x00; 0x00; 0x00; 0x00];
  [0x00; 0x00; 0x00; 0x00; 0x00; 0x00; 0x00; 0x00; 0x00; 0x00; 0x00; 0x00];
  [0x00; 0x00; 0x00; 0x00; 0x00; 0x00; 0x00; 0x00; 0x00; 0x00; 0x00; 0x00];
  [0x00; 0x00; 0x00; 0x00; 0x00; 0x00; 0x00; 0x00; 0x00; 0x00; 0x00; 0x00];
  [0x00; 0x00; 0x00; 0x00; 0x00; 0x00; 0x00; 0x00; 0x00; 0x00; 0x00; 0x00];
  [0x00; 0x00; 0x00; 0x00; 0x00; 0x00; 0x00; 0x00; 0x00; 0x00; 0x00; 0x00];
  [0x00; 0x00; 0x00; 0x00; 0x00; 0x00; 0x00; 0x00; 0x00; 0x00; 0x00; 0x00];
  [0x00; 0x00; 0x00; 0x00; 0x00; 0x00; 0x00; 0x00; 0x00; 0x00; 0x00; 0x00];
  [0x00; 0x00; 0x00; 0x00; 0x00; 0x00; 0x00; 0x00; 0x00; 0x00; 0x00; 0x00];
  [0x00; 0x00; 0x00; 0x00; 0x00; 0x00; 0x00; 0x00; 0x00; 0x00; 0x00; 0x00];
  [0x00; 0x00; 0x00; 0x00; 0x00; 0x00; 0x00; 0x00; 0x00; 0x00; 0x00; 0x00];
  [0x00; 0x00; 0x00; 0x00; 0x00; 0x00; 0x00; 0x00; 0x00; 0x00; 0x00; 0x00];
  [0x00; 0x00; 0x00; 0x00; 0x00; 0x00; 0x00; 0x00; 0x00; 0x00; 0x00; 0x00];
  [0x00; 0x00; 0x00; 0x00; 0x00; 0x00; 0x00; 0x00; 0x00; 0x00; 0x00; 0x00];
  [0x00; 0x00; 0x00; 0x00; 0x00; 0x00; 0x00; 0x00; 0x00; 0x00; 0x00; 0x00];
  [0x00; 0x00; 0x00; 0x00; 0x00; 0x00; 0x00; 0x00; 0x00; 0x00; 0x00; 0x00];
  [0x00; 0x00; 0x00; 0x00; 0x00; 0x00; 0x00; 0x00; 0x00; 0x00; 0x00; 0x00];
  [0x00; 0x00; 0x00; 0x00; 0x00; 0x00; 0x00; 0x00; 0x00; 0x00; 0x00; 0x00];
  [0x00; 0x00; 0x00; 0x00; 0x00; 0x00; 0x00; 0x00; 0x00; 0x00; 0x00; 0x00];
  [0x00; 0x00; 0x00; 0x00; 0x00; 0x00; 0x00; 0x00; 0x00; 0x00; 0x00; 0x00];
  [0x00; 0x00; 0x00; 0x00; 0x00; 0x00; 0x00; 0x00; 0x00; 0x00; 0x00; 0x00];
  [0x00; 0x00; 0x00; 0x00; 0x00; 0x00; 0x00; 0x00; 0x00; 0x00; 0x00; 0x00];
  [0x00; 0x00; 0x00; 0x00; 0x00; 0x00; 0x00; 0x00; 0x00; 0x00; 0x00; 0x00];
  [0x00; 0x00; 0x00; 0x00; 0x04; 0x00; 0x00; 0x00; 0x20; 0x00; 0x00; 0x00];
  [0x05; 0x00; 0x00; 0x00; 0x47; 0x4e; 0x55; 0x00; 0x01; 0x00; 0x01; 0xc0];
  [0x04; 0x00; 0x00; 0x00; 0x01; 0x00; 0x00; 0x00; 0x00; 0x00; 0x00; 0x00];
  [0x02; 0x00; 0x01; 0xc0; 0x04; 0x00; 0x00; 0x00; 0x01; 0x00; 0x00; 0x00];
  [0x00; 0x00; 0x00; 0x00; 0x6c; 0x73; 0x3a; 0x20; 0x6f; 0x75; 0x74; 0x20];
  [0x6f; 0x66; 0x20; 0x6d; 0x65; 0x6d; 0x6f; 0x72; 0x79; 0x20; 0x28; 0x61];
  [0x62; 0x73; 0x5f; 0x70; 0x61; 0x74; 0x68; 0x29; 0x0a; 0x00; 0x2f; 0x64];
  [0x65; 0x76; 0x2f; 0x6c; 0x73; 0x00; 0x6c; 0x73; 0x3a; 0x20; 0x63; 0x61];
  [0x6e; 0x6e; 0x6f; 0x74; 0x20; 0x61; 0x63; 0x63; 0x65; 0x73; 0x73; 0x20];
  [0x27; 0x00; 0x27; 0x3a; 0x20; 0x4e; 0x6f; 0x20; 0x73; 0x75; 0x63; 0x68];
  [0x20; 0x66; 0x69; 0x6c; 0x65; 0x20; 0x6f; 0x72; 0x20; 0x64; 0x69; 0x72];
  [0x65; 0x63; 0x74; 0x6f; 0x72; 0x79; 0x0a; 0x00; 0x6c; 0x73; 0x3a; 0x20];
  [0x62; 0x75; 0x66; 0x66; 0x65; 0x72; 0x20; 0x61; 0x6c; 0x6c; 0x6f; 0x63];
  [0x61; 0x74; 0x69; 0x6f; 0x6e; 0x20; 0x66; 0x61; 0x69; 0x6c; 0x65; 0x64];
  [0x0a; 0x00; 0x6c; 0x73; 0x3a; 0x20; 0x72; 0x65; 0x61; 0x64; 0x20; 0x65];
  [0x72; 0x72; 0x6f; 0x72; 0x0a; 0x00; 0x6c; 0x73; 0x3a; 0x20; 0x69; 0x6e];
  [0x76; 0x61; 0x6c; 0x69; 0x64; 0x20; 0x6f; 0x70; 0x74; 0x69; 0x6f; 0x6e];
  [0x0a; 0x00; 0x2e; 0x00; 0x3a; 0x0a; 0x00; 0x00; 0x6c; 0x73; 0x3a; 0x20];
  [0x65; 0x6e; 0x74; 0x72; 0x69; 0x65; 0x73; 0x20; 0x61; 0x6c; 0x6c; 0x6f];
  [0x63; 0x61; 0x74; 0x69; 0x6f; 0x6e; 0x20; 0x66; 0x61; 0x69; 0x6c; 0x65];
  [0x64; 0x0a; 0x00; 0x00; 0x01; 0x1b; 0x03; 0x3b; 0x74; 0x00; 0x00; 0x00];
  [0x0d; 0x00; 0x00; 0x00; 0xf0; 0xf0; 0xff; 0xff; 0x90; 0x00; 0x00; 0x00];
  [0x90; 0xf8; 0xff; 0xff; 0xe4; 0x00; 0x00; 0x00; 0x20; 0xfa; 0xff; 0xff];
  [0x38; 0x01; 0x00; 0x00; 0x30; 0xfa; 0xff; 0xff; 0x50; 0x01; 0x00; 0x00];
  [0x60; 0xfa; 0xff; 0xff; 0x64; 0x01; 0x00; 0x00; 0xd0; 0xfa; 0xff; 0xff];
  [0x78; 0x01; 0x00; 0x00; 0x10; 0xfb; 0xff; 0xff; 0x8c; 0x01; 0x00; 0x00];
  [0x50; 0xfb; 0xff; 0xff; 0xa0; 0x01; 0x00; 0x00; 0xb0; 0xfb; 0xff; 0xff];
  [0xb4; 0x01; 0x00; 0x00; 0xc0; 0xfb; 0xff; 0xff; 0xc8; 0x01; 0x00; 0x00];
  [0xd0; 0xfb; 0xff; 0xff; 0xdc; 0x01; 0x00; 0x00; 0xe0; 0xfb; 0xff; 0xff];
  [0xf0; 0x01; 0x00; 0x00; 0xf0; 0xfb; 0xff; 0xff; 0x04; 0x02; 0x00; 0x00];
  [0x00; 0x00; 0x00; 0x00; 0x14; 0x00; 0x00; 0x00; 0x00; 0x00; 0x00; 0x00];
  [0x01; 0x7a; 0x52; 0x00; 0x01; 0x78; 0x10; 0x01; 0x1b; 0x0c; 0x07; 0x08];
  [0x90; 0x01; 0x00; 0x00; 0x50; 0x00; 0x00; 0x00; 0x1c; 0x00; 0x00; 0x00];
  [0x58; 0xf0; 0xff; 0xff; 0x91; 0x07; 0x00; 0x00; 0x00; 0x42; 0x0e; 0x10];
  [0x8f; 0x02; 0x42; 0x0e; 0x18; 0x8e; 0x03; 0x42; 0x0e; 0x20; 0x8d; 0x04];
  [0x42; 0x0e; 0x28; 0x8c; 0x05; 0x41; 0x0e; 0x30; 0x86; 0x06; 0x41; 0x0e];
  [0x38; 0x83; 0x07; 0x47; 0x0e; 0xf0; 0x02; 0x03; 0xda; 0x04; 0x0a; 0x0e];
  [0x38; 0x41; 0xc3; 0x0e; 0x30; 0x41; 0xc6; 0x0e; 0x28; 0x42; 0xcc; 0x0e];
  [0x20; 0x42; 0xcd; 0x0e; 0x18; 0x42; 0xce; 0x0e; 0x10; 0x42; 0xcf; 0x0e];
  [0x08; 0x41; 0x0b; 0x00; 0x50; 0x00; 0x00; 0x00; 0x70; 0x00; 0x00; 0x00];
  [0xa4; 0xf7; 0xff; 0xff; 0x8e; 0x01; 0x00; 0x00; 0x00; 0x42; 0x0e; 0x10];
  [0x8f; 0x02; 0x42; 0x0e; 0x18; 0x8e; 0x03; 0x42; 0x0e; 0x20; 0x8d; 0x04];
  [0x42; 0x0e; 0x28; 0x8c; 0x05; 0x41; 0x0e; 0x30; 0x86; 0x06; 0x41; 0x0e];
  [0x38; 0x83; 0x07; 0x44; 0x0e; 0x50; 0x02; 0xb7; 0x0a; 0x0e; 0x38; 0x41];
  [0xc3; 0x0e; 0x30; 0x41; 0xc6; 0x0e; 0x28; 0x42; 0xcc; 0x0e; 0x20; 0x42];
  [0xcd; 0x0e; 0x18; 0x42; 0xce; 0x0e; 0x10; 0x42; 0xcf; 0x0e; 0x08; 0x41];
  [0x0b; 0x00; 0x00; 0x00; 0x14; 0x00; 0x00; 0x00; 0xc4; 0x00; 0x00; 0x00];
  [0xe0; 0xf8; 0xff; 0xff; 0x0f; 0x00; 0x00; 0x00; 0x00; 0x00; 0x00; 0x00];
  [0x00; 0x00; 0x00; 0x00; 0x10; 0x00; 0x00; 0x00; 0xdc; 0x00; 0x00; 0x00];
  [0xd8; 0xf8; 0xff; 0xff; 0x2b; 0x00; 0x00; 0x00; 0x00; 0x00; 0x00; 0x00];
  [0x10; 0x00; 0x00; 0x00; 0xf0; 0x00; 0x00; 0x00; 0xf4; 0xf8; 0xff; 0xff];
  [0x69; 0x00; 0x00; 0x00; 0x00; 0x00; 0x00; 0x00; 0x10; 0x00; 0x00; 0x00];
  [0x04; 0x01; 0x00; 0x00; 0x50; 0xf9; 0xff; 0xff; 0x38; 0x00; 0x00; 0x00];
  [0x00; 0x00; 0x00; 0x00; 0x10; 0x00; 0x00; 0x00; 0x18; 0x01; 0x00; 0x00];
  [0x7c; 0xf9; 0xff; 0xff; 0x34; 0x00; 0x00; 0x00; 0x00; 0x00; 0x00; 0x00];
  [0x10; 0x00; 0x00; 0x00; 0x2c; 0x01; 0x00; 0x00; 0xa8; 0xf9; 0xff; 0xff];
  [0x56; 0x00; 0x00; 0x00; 0x00; 0x00; 0x00; 0x00; 0x10; 0x00; 0x00; 0x00];
  [0x40; 0x01; 0x00; 0x00; 0xf4; 0xf9; 0xff; 0xff; 0x0e; 0x00; 0x00; 0x00];
  [0x00; 0x00; 0x00; 0x00; 0x10; 0x00; 0x00; 0x00; 0x54; 0x01; 0x00; 0x00];
  [0xf0; 0xf9; 0xff; 0xff; 0x08; 0x00; 0x00; 0x00; 0x00; 0x00; 0x00; 0x00];
  [0x10; 0x00; 0x00; 0x00; 0x68; 0x01; 0x00; 0x00; 0xec; 0xf9; 0xff; 0xff];
  [0x0b; 0x00; 0x00; 0x00; 0x00; 0x00; 0x00; 0x00; 0x10; 0x00; 0x00; 0x00];
  [0x7c; 0x01; 0x00; 0x00; 0xe8; 0xf9; 0xff; 0xff; 0x08; 0x00; 0x00; 0x00];
  [0x00; 0x00; 0x00; 0x00; 0x10; 0x00; 0x00; 0x00; 0x90; 0x01; 0x00; 0x00];
  [0xe4; 0xf9; 0xff; 0xff; 0x08; 0x00; 0x00; 0x00; 0x00; 0x00; 0x00; 0x00];
  [0x47; 0x43; 0x43; 0x3a; 0x20; 0x28; 0x47; 0x4e; 0x55; 0x29; 0x20; 0x31];
  [0x35; 0x2e; 0x32; 0x2e; 0x31; 0x20; 0x32; 0x30; 0x32; 0x35; 0x31; 0x32];
  [0x31; 0x31; 0x20; 0x28; 0x52; 0x65; 0x64; 0x20; 0x48; 0x61; 0x74; 0x20];
  [0x31; 0x35; 0x2e; 0x32; 0x2e; 0x31; 0x2d; 0x35; 0x29; 0x00; 0x00; 0x00];
  [0x00; 0x00; 0x00; 0x00; 0x00; 0x00; 0x00; 0x00; 0x00; 0x00; 0x00; 0x00];
  [0x00; 0x00; 0x00; 0x00; 0x00; 0x00; 0x00; 0x00; 0x00; 0x00; 0x00; 0x00];
  [0x01; 0x00; 0x00; 0x00; 0x04; 0x00; 0xf1; 0xff; 0x00; 0x00; 0x00; 0x00];
  [0x00; 0x00; 0x00; 0x00; 0x00; 0x00; 0x00; 0x00; 0x00; 0x00; 0x00; 0x00];
  [0x06; 0x00; 0x00; 0x00; 0x02; 0x00; 0x01; 0x00; 0xe0; 0x01; 0x40; 0x00];
  [0x00; 0x00; 0x00; 0x00; 0x91; 0x07; 0x00; 0x00; 0x00; 0x00; 0x00; 0x00];
  [0x15; 0x00; 0x00; 0x00; 0x01; 0x00; 0x06; 0x00; 0x00; 0x20; 0x40; 0x00];
  [0x00; 0x00; 0x00; 0x00; 0x08; 0x00; 0x00; 0x00; 0x00; 0x00; 0x00; 0x00];
  [0x1e; 0x00; 0x00; 0x00; 0x01; 0x00; 0x06; 0x00; 0x20; 0x20; 0x40; 0x00];
  [0x00; 0x00; 0x00; 0x00; 0x00; 0x80; 0x00; 0x00; 0x00; 0x00; 0x00; 0x00];
  [0x23; 0x00; 0x00; 0x00; 0x02; 0x00; 0x01; 0x00; 0x80; 0x09; 0x40; 0x00];
  [0x00; 0x00; 0x00; 0x00; 0x8e; 0x01; 0x00; 0x00; 0x00; 0x00; 0x00; 0x00];
  [0x2e; 0x00; 0x00; 0x00; 0x04; 0x00; 0xf1; 0xff; 0x00; 0x00; 0x00; 0x00];
  [0x00; 0x00; 0x00; 0x00; 0x00; 0x00; 0x00; 0x00; 0x00; 0x00; 0x00; 0x00];
  [0x00; 0x00; 0x00; 0x00; 0x04; 0x00; 0xf1; 0xff; 0x00; 0x00; 0x00; 0x00];
  [0x00; 0x00; 0x00; 0x00; 0x00; 0x00; 0x00; 0x00; 0x00; 0x00; 0x00; 0x00];
  [0x35; 0x00; 0x00; 0x00; 0x00; 0x00; 0x04; 0x00; 0xf0; 0x10; 0x40; 0x00];
  [0x00; 0x00; 0x00; 0x00; 0x00; 0x00; 0x00; 0x00; 0x00; 0x00; 0x00; 0x00];
  [0x48; 0x00; 0x00; 0x00; 0x12; 0x00; 0x01; 0x00; 0xc0; 0x0b; 0x40; 0x00];
  [0x00; 0x00; 0x00; 0x00; 0x38; 0x00; 0x00; 0x00; 0x00; 0x00; 0x00; 0x00];
  [0x4f; 0x00; 0x00; 0x00; 0x12; 0x00; 0x01; 0x00; 0x00; 0x0c; 0x40; 0x00];
  [0x00; 0x00; 0x00; 0x00; 0x34; 0x00; 0x00; 0x00; 0x00; 0x00; 0x00; 0x00];
  [0x56; 0x00; 0x00; 0x00; 0x12; 0x00; 0x01; 0x00; 0xc0; 0x0c; 0x40; 0x00];
  [0x00; 0x00; 0x00; 0x00; 0x0b; 0x00; 0x00; 0x00; 0x00; 0x00; 0x00; 0x00];
  [0x61; 0x00; 0x00; 0x00; 0x12; 0x00; 0x01; 0x00; 0xa0; 0x0c; 0x40; 0x00];
  [0x00; 0x00; 0x00; 0x00; 0x0e; 0x00; 0x00; 0x00; 0x00; 0x00; 0x00; 0x00];
  [0x6f; 0x00; 0x00; 0x00; 0x12; 0x00; 0x01; 0x00; 0x10; 0x0b; 0x40; 0x00];
  [0x00; 0x00; 0x00; 0x00; 0x0f; 0x00; 0x00; 0x00; 0x00; 0x00; 0x00; 0x00];
  [0x6a; 0x00; 0x00; 0x00; 0x10; 0x00; 0x06; 0x00; 0x00; 0x20; 0x40; 0x00];
  [0x00; 0x00; 0x00; 0x00; 0x00; 0x00; 0x00; 0x00; 0x00; 0x00; 0x00; 0x00];
  [0x76; 0x00; 0x00; 0x00; 0x12; 0x00; 0x01; 0x00; 0x40; 0x0c; 0x40; 0x00];
  [0x00; 0x00; 0x00; 0x00; 0x56; 0x00; 0x00; 0x00; 0x00; 0x00; 0x00; 0x00];
  [0x7d; 0x00; 0x00; 0x00; 0x12; 0x00; 0x01; 0x00; 0x50; 0x0b; 0x40; 0x00];
  [0x00; 0x00; 0x00; 0x00; 0x69; 0x00; 0x00; 0x00; 0x00; 0x00; 0x00; 0x00];
  [0x84; 0x00; 0x00; 0x00; 0x12; 0x00; 0x01; 0x00; 0xe0; 0x0c; 0x40; 0x00];
  [0x00; 0x00; 0x00; 0x00; 0x08; 0x00; 0x00; 0x00; 0x00; 0x00; 0x00; 0x00];
  [0x8f; 0x00; 0x00; 0x00; 0x10; 0x00; 0x06; 0x00; 0x00; 0x20; 0x40; 0x00];
  [0x00; 0x00; 0x00; 0x00; 0x00; 0x00; 0x00; 0x00; 0x00; 0x00; 0x00; 0x00];
  [0x96; 0x00; 0x00; 0x00; 0x10; 0x00; 0x06; 0x00; 0x20; 0xa0; 0x40; 0x00];
  [0x00; 0x00; 0x00; 0x00; 0x00; 0x00; 0x00; 0x00; 0x00; 0x00; 0x00; 0x00];
  [0x9b; 0x00; 0x00; 0x00; 0x12; 0x00; 0x01; 0x00; 0x20; 0x0b; 0x40; 0x00];
  [0x00; 0x00; 0x00; 0x00; 0x2b; 0x00; 0x00; 0x00; 0x00; 0x00; 0x00; 0x00];
  [0xa2; 0x00; 0x00; 0x00; 0x12; 0x00; 0x01; 0x00; 0xb0; 0x0c; 0x40; 0x00];
  [0x00; 0x00; 0x00; 0x00; 0x08; 0x00; 0x00; 0x00; 0x00; 0x00; 0x00; 0x00];
  [0xab; 0x00; 0x00; 0x00; 0x12; 0x00; 0x01; 0x00; 0xd0; 0x0c; 0x40; 0x00];
  [0x00; 0x00; 0x00; 0x00; 0x08; 0x00; 0x00; 0x00; 0x00; 0x00; 0x00; 0x00];
  [0x00; 0x6c; 0x73; 0x2e; 0x63; 0x00; 0x6c; 0x69; 0x73; 0x74; 0x5f; 0x64];
  [0x69; 0x72; 0x65; 0x63; 0x74; 0x6f; 0x72; 0x79; 0x00; 0x68; 0x65; 0x61];
  [0x70; 0x5f; 0x74; 0x6f; 0x70; 0x00; 0x68; 0x65; 0x61; 0x70; 0x00; 0x73];
  [0x74; 0x61; 0x72; 0x74; 0x5f; 0x6d; 0x61; 0x69; 0x6e; 0x00; 0x6c; 0x69];
  [0x62; 0x63; 0x2e; 0x63; 0x00; 0x5f; 0x5f; 0x47; 0x4e; 0x55; 0x5f; 0x45];
  [0x48; 0x5f; 0x46; 0x52; 0x41; 0x4d; 0x45; 0x5f; 0x48; 0x44; 0x52; 0x00];
  [0x73; 0x74; 0x72; 0x63; 0x70; 0x79; 0x00; 0x6d; 0x65; 0x6d; 0x63; 0x70];
  [0x79; 0x00; 0x73; 0x79; 0x73; 0x5f; 0x73; 0x70; 0x61; 0x77; 0x6e; 0x32];
  [0x00; 0x73; 0x79; 0x73; 0x5f; 0x64; 0x75; 0x70; 0x32; 0x00; 0x5f; 0x5f];
  [0x62; 0x73; 0x73; 0x5f; 0x73; 0x74; 0x61; 0x72; 0x74; 0x00; 0x6d; 0x65];
  [0x6d; 0x73; 0x65; 0x74; 0x00; 0x73; 0x74; 0x72; 0x63; 0x6d; 0x70; 0x00];
  [0x73; 0x79; 0x73; 0x5f; 0x67; 0x65; 0x74; 0x63; 0x77; 0x64; 0x00; 0x5f];
  [0x65; 0x64; 0x61; 0x74; 0x61; 0x00; 0x5f; 0x65; 0x6e; 0x64; 0x00; 0x73];
  [0x74; 0x72; 0x6c; 0x65; 0x6e; 0x00; 0x73; 0x79; 0x73; 0x5f; 0x70; 0x69];
  [0x70; 0x65; 0x00; 0x73; 0x79; 0x73; 0x5f; 0x63; 0x68; 0x64; 0x69; 0x72];
  [0x00; 0x00; 0x2e; 0x73; 0x79; 0x6d; 0x74; 0x61; 0x62; 0x00; 0x2e; 0x73];
  [0x74; 0x72; 0x74; 0x61; 0x62; 0x00; 0x2e; 0x73; 0x68; 0x73; 0x74; 0x72];
  [0x74; 0x61; 0x62; 0x00; 0x2e; 0x74; 0x65; 0x78; 0x74; 0x00; 0x2e; 0x6e];
  [0x6f; 0x74; 0x65; 0x2e; 0x67; 0x6e; 0x75; 0x2e; 0x70; 0x72; 0x6f; 0x70];
  [0x65; 0x72; 0x74; 0x79; 0x00; 0x2e; 0x72; 0x6f; 0x64; 0x61; 0x74; 0x61];
  [0x00; 0x2e; 0x65; 0x68; 0x5f; 0x66; 0x72; 0x61; 0x6d; 0x65; 0x5f; 0x68];
  [0x64; 0x72; 0x00; 0x2e; 0x65; 0x68; 0x5f; 0x66; 0x72; 0x61; 0x6d; 0x65];
  [0x00; 0x2e; 0x62; 0x73; 0x73; 0x00; 0x2e; 0x63; 0x6f; 0x6d; 0x6d; 0x65];
  [0x6e; 0x74; 0x00; 0x00; 0x00; 0x00; 0x00; 0x00; 0x00; 0x00; 0x00; 0x00];
  [0x00; 0x00; 0x00; 0x00; 0x00; 0x00; 0x00; 0x00; 0x00; 0x00; 0x00; 0x00];
  [0x00; 0x00; 0x00; 0x00; 0x00; 0x00; 0x00; 0x00; 0x00; 0x00; 0x00; 0x00];
  [0x00; 0x00; 0x00; 0x00; 0x00; 0x00; 0x00; 0x00; 0x00; 0x00; 0x00; 0x00];
  [0x00; 0x00; 0x00; 0x00; 0x00; 0x00; 0x00; 0x00; 0x00; 0x00; 0x00; 0x00];
  [0x00; 0x00; 0x00; 0x00; 0x00; 0x00; 0x00; 0x00; 0x1b; 0x00; 0x00; 0x00];
  [0x01; 0x00; 0x00; 0x00; 0x06; 0x00; 0x00; 0x00; 0x00; 0x00; 0x00; 0x00];
  [0xe0; 0x01; 0x40; 0x00; 0x00; 0x00; 0x00; 0x00; 0xe0; 0x01; 0x00; 0x00];
  [0x00; 0x00; 0x00; 0x00; 0x08; 0x0b; 0x00; 0x00; 0x00; 0x00; 0x00; 0x00];
  [0x00; 0x00; 0x00; 0x00; 0x00; 0x00; 0x00; 0x00; 0x20; 0x00; 0x00; 0x00];
  [0x00; 0x00; 0x00; 0x00; 0x00; 0x00; 0x00; 0x00; 0x00; 0x00; 0x00; 0x00];
  [0x21; 0x00; 0x00; 0x00; 0x07; 0x00; 0x00; 0x00; 0x02; 0x00; 0x00; 0x00];
  [0x00; 0x00; 0x00; 0x00; 0x00; 0x10; 0x40; 0x00; 0x00; 0x00; 0x00; 0x00];
  [0x00; 0x10; 0x00; 0x00; 0x00; 0x00; 0x00; 0x00; 0x30; 0x00; 0x00; 0x00];
  [0x00; 0x00; 0x00; 0x00; 0x00; 0x00; 0x00; 0x00; 0x00; 0x00; 0x00; 0x00];
  [0x08; 0x00; 0x00; 0x00; 0x00; 0x00; 0x00; 0x00; 0x00; 0x00; 0x00; 0x00];
  [0x00; 0x00; 0x00; 0x00; 0x34; 0x00; 0x00; 0x00; 0x01; 0x00; 0x00; 0x00];
  [0x32; 0x00; 0x00; 0x00; 0x00; 0x00; 0x00; 0x00; 0x30; 0x10; 0x40; 0x00];
  [0x00; 0x00; 0x00; 0x00; 0x30; 0x10; 0x00; 0x00; 0x00; 0x00; 0x00; 0x00];
  [0xbf; 0x00; 0x00; 0x00; 0x00; 0x00; 0x00; 0x00; 0x00; 0x00; 0x00; 0x00];
  [0x00; 0x00; 0x00; 0x00; 0x08; 0x00; 0x00; 0x00; 0x00; 0x00; 0x00; 0x00];
  [0x01; 0x00; 0x00; 0x00; 0x00; 0x00; 0x00; 0x00; 0x3c; 0x00; 0x00; 0x00];
  [0x01; 0x00; 0x00; 0x00; 0x02; 0x00; 0x00; 0x00; 0x00; 0x00; 0x00; 0x00];
  [0xf0; 0x10; 0x40; 0x00; 0x00; 0x00; 0x00; 0x00; 0xf0; 0x10; 0x00; 0x00];
  [0x00; 0x00; 0x00; 0x00; 0x74; 0x00; 0x00; 0x00; 0x00; 0x00; 0x00; 0x00];
  [0x00; 0x00; 0x00; 0x00; 0x00; 0x00; 0x00; 0x00; 0x04; 0x00; 0x00; 0x00];
  [0x00; 0x00; 0x00; 0x00; 0x00; 0x00; 0x00; 0x00; 0x00; 0x00; 0x00; 0x00];
  [0x4a; 0x00; 0x00; 0x00; 0x01; 0x00; 0x00; 0x00; 0x02; 0x00; 0x00; 0x00];
  [0x00; 0x00; 0x00; 0x00; 0x68; 0x11; 0x40; 0x00; 0x00; 0x00; 0x00; 0x00];
  [0x68; 0x11; 0x00; 0x00; 0x00; 0x00; 0x00; 0x00; 0xa0; 0x01; 0x00; 0x00];
  [0x00; 0x00; 0x00; 0x00; 0x00; 0x00; 0x00; 0x00; 0x00; 0x00; 0x00; 0x00];
  [0x08; 0x00; 0x00; 0x00; 0x00; 0x00; 0x00; 0x00; 0x00; 0x00; 0x00; 0x00];
  [0x00; 0x00; 0x00; 0x00; 0x54; 0x00; 0x00; 0x00; 0x08; 0x00; 0x00; 0x00];
  [0x03; 0x00; 0x00; 0x00; 0x00; 0x00; 0x00; 0x00; 0x00; 0x20; 0x40; 0x00];
  [0x00; 0x00; 0x00; 0x00; 0x00; 0x20; 0x00; 0x00; 0x00; 0x00; 0x00; 0x00];
  [0x20; 0x80; 0x00; 0x00; 0x00; 0x00; 0x00; 0x00; 0x00; 0x00; 0x00; 0x00];
  [0x00; 0x00; 0x00; 0x00; 0x20; 0x00; 0x00; 0x00; 0x00; 0x00; 0x00; 0x00];
  [0x00; 0x00; 0x00; 0x00; 0x00; 0x00; 0x00; 0x00; 0x59; 0x00; 0x00; 0x00];
  [0x01; 0x00; 0x00; 0x00; 0x30; 0x00; 0x00; 0x00; 0x00; 0x00; 0x00; 0x00];
  [0x00; 0x00; 0x00; 0x00; 0x00; 0x00; 0x00; 0x00; 0x08; 0x13; 0x00; 0x00];
  [0x00; 0x00; 0x00; 0x00; 0x2e; 0x00; 0x00; 0x00; 0x00; 0x00; 0x00; 0x00];
  [0x00; 0x00; 0x00; 0x00; 0x00; 0x00; 0x00; 0x00; 0x01; 0x00; 0x00; 0x00];
  [0x00; 0x00; 0x00; 0x00; 0x01; 0x00; 0x00; 0x00; 0x00; 0x00; 0x00; 0x00];
  [0x01; 0x00; 0x00; 0x00; 0x02; 0x00; 0x00; 0x00; 0x00; 0x00; 0x00; 0x00];
  [0x00; 0x00; 0x00; 0x00; 0x00; 0x00; 0x00; 0x00; 0x00; 0x00; 0x00; 0x00];
  [0x38; 0x13; 0x00; 0x00; 0x00; 0x00; 0x00; 0x00; 0x28; 0x02; 0x00; 0x00];
  [0x00; 0x00; 0x00; 0x00; 0x09; 0x00; 0x00; 0x00; 0x09; 0x00; 0x00; 0x00];
  [0x08; 0x00; 0x00; 0x00; 0x00; 0x00; 0x00; 0x00; 0x18; 0x00; 0x00; 0x00];
  [0x00; 0x00; 0x00; 0x00; 0x09; 0x00; 0x00; 0x00; 0x03; 0x00; 0x00; 0x00];
  [0x00; 0x00; 0x00; 0x00; 0x00; 0x00; 0x00; 0x00; 0x00; 0x00; 0x00; 0x00];
  [0x00; 0x00; 0x00; 0x00; 0x60; 0x15; 0x00; 0x00; 0x00; 0x00; 0x00; 0x00];
  [0xb5; 0x00; 0x00; 0x00; 0x00; 0x00; 0x00; 0x00; 0x00; 0x00; 0x00; 0x00];
  [0x00; 0x00; 0x00; 0x00; 0x01; 0x00; 0x00; 0x00; 0x00; 0x00; 0x00; 0x00];
  [0x00; 0x00; 0x00; 0x00; 0x00; 0x00; 0x00; 0x00; 0x11; 0x00; 0x00; 0x00];
  [0x03; 0x00; 0x00; 0x00; 0x00; 0x00; 0x00; 0x00; 0x00; 0x00; 0x00; 0x00];
  [0x00; 0x00; 0x00; 0x00; 0x00; 0x00; 0x00; 0x00; 0x15; 0x16; 0x00; 0x00];
  [0x00; 0x00; 0x00; 0x00; 0x62; 0x00; 0x00; 0x00; 0x00; 0x00; 0x00; 0x00];
  [0x00; 0x00; 0x00; 0x00; 0x00; 0x00; 0x00; 0x00; 0x01; 0x00; 0x00; 0x00];
  [0x00; 0x00; 0x00; 0x00; 0x00; 0x00; 0x00; 0x00; 0x00; 0x00; 0x00; 0x00]].
Definition user_image_ls_len : Z := 6456.

Definition user_image_cat : list Z := concat [
  [0x7f; 0x45; 0x4c; 0x46; 0x02; 0x01; 0x01; 0x00; 0x00; 0x00; 0x00; 0x00];
  [0x00; 0x00; 0x00; 0x00; 0x02; 0x00; 0x3e; 0x00; 0x01; 0x00; 0x00; 0x00];
  [0xb0; 0x02; 0x40; 0x00; 0x00; 0x00; 0x00; 0x00; 0x40; 0x00; 0x00; 0x00];
  [0x00; 0x00; 0x00; 0x00; 0xe8; 0x14; 0x00; 0x00; 0x00; 0x00; 0x00; 0x00];
  [0x00; 0x00; 0x00; 0x00; 0x40; 0x00; 0x38; 0x00; 0x06; 0x00; 0x40; 0x00];
  [0x0a; 0x00; 0x09; 0x00; 0x01; 0x00; 0x00; 0x00; 0x05; 0x00; 0x00; 0x00];
  [0x00; 0x00; 0x00; 0x00; 0x00; 0x00; 0x00; 0x00; 0x00; 0x00; 0x40; 0x00];
  [0x00; 0x00; 0x00; 0x00; 0x00; 0x00; 0x40; 0x00; 0x00; 0x00; 0x00; 0x00];
  [0x88; 0x04; 0x00; 0x00; 0x00; 0x00; 0x00; 0x00; 0x88; 0x04; 0x00; 0x00];
  [0x00; 0x00; 0x00; 0x00; 0x00; 0x10; 0x00; 0x00; 0x00; 0x00; 0x00; 0x00];
  [0x01; 0x00; 0x00; 0x00; 0x04; 0x00; 0x00; 0x00; 0x00; 0x10; 0x00; 0x00];
  [0x00; 0x00; 0x00; 0x00; 0x00; 0x10; 0x40; 0x00; 0x00; 0x00; 0x00; 0x00];
  [0x00; 0x10; 0x40; 0x00; 0x00; 0x00; 0x00; 0x00; 0xe0; 0x01; 0x00; 0x00];
  [0x00; 0x00; 0x00; 0x00; 0xe0; 0x01; 0x00; 0x00; 0x00; 0x00; 0x00; 0x00];
  [0x00; 0x10; 0x00; 0x00; 0x00; 0x00; 0x00; 0x00; 0x04; 0x00; 0x00; 0x00];
  [0x04; 0x00; 0x00; 0x00; 0x00; 0x10; 0x00; 0x00; 0x00; 0x00; 0x00; 0x00];
  [0x00; 0x10; 0x40; 0x00; 0x00; 0x00; 0x00; 0x00; 0x00; 0x10; 0x40; 0x00];
  [0x00; 0x00; 0x00; 0x00; 0x30; 0x00; 0x00; 0x00; 0x00; 0x00; 0x00; 0x00];
  [0x30; 0x00; 0x00; 0x00; 0x00; 0x00; 0x00; 0x00; 0x08; 0x00; 0x00; 0x00];
  [0x00; 0x00; 0x00; 0x00; 0x53; 0xe5; 0x74; 0x64; 0x04; 0x00; 0x00; 0x00];
  [0x00; 0x10; 0x00; 0x00; 0x00; 0x00; 0x00; 0x00; 0x00; 0x10; 0x40; 0x00];
  [0x00; 0x00; 0x00; 0x00; 0x00; 0x10; 0x40; 0x00; 0x00; 0x00; 0x00; 0x00];
  [0x30; 0x00; 0x00; 0x00; 0x00; 0x00; 0x00; 0x00; 0x30; 0x00; 0x00; 0x00];
  [0x00; 0x00; 0x00; 0x00; 0x08; 0x00; 0x00; 0x00; 0x00; 0x00; 0x00; 0x00];
  [0x50; 0xe5; 0x74; 0x64; 0x04; 0x00; 0x00; 0x00; 0x58; 0x10; 0x00; 0x00];
  [0x00; 0x00; 0x00; 0x00; 0x58; 0x10; 0x40; 0x00; 0x00; 0x00; 0x00; 0x00];
  [0x58; 0x10; 0x40; 0x00; 0x00; 0x00; 0x00; 0x00; 0x6c; 0x00; 0x00; 0x00];
  [0x00; 0x00; 0x00; 0x00; 0x6c; 0x00; 0x00; 0x00; 0x00; 0x00; 0x00; 0x00];
  [0x04; 0x00; 0x00; 0x00; 0x00; 0x00; 0x00; 0x00; 0x51; 0xe5; 0x74; 0x64];
  [0x06; 0x00; 0x00; 0x00; 0x00; 0x00; 0x00; 0x00; 0x00; 0x00; 0x00; 0x00];
  [0x00; 0x00; 0x00; 0x00; 0x00; 0x00; 0x00; 0x00; 0x00; 0x00; 0x00; 0x00];
  [0x00; 0x00; 0x00; 0x00; 0x00; 0x00; 0x00; 0x00; 0x00; 0x00; 0x00; 0x00];
  [0x00; 0x00; 0x00; 0x00; 0x00; 0x00; 0x00; 0x00; 0x10; 0x00; 0x00; 0x00];
  [0x00; 0x00; 0x00; 0x00; 0x00; 0x00; 0x00; 0x00; 0x00; 0x00; 0x00; 0x00];
  [0x00; 0x00; 0x00; 0x00; 0x00; 0x00; 0x00; 0x00; 0x53; 0x48; 0x89; 0xfb];
  [0x48; 0x83; 0xec; 0x40; 0x48; 0x83; 0x3f; 0x01; 0x0f; 0x86; 0x96; 0x00];
  [0x00; 0x00; 0x48; 0x8b; 0x7f; 0x10; 0x48; 0x85; 0xff; 0x0f; 0x84; 0x89];
  [0x00; 0x00; 0x00; 0x80; 0x3f; 0x00; 0x0f; 0x84; 0x80; 0x00; 0x00; 0x00];
  [0x31; 0xf6; 0xb8; 0x05; 0x00; 0x00; 0x00; 0x48; 0x89; 0xf2; 0x0f; 0x05];
  [0x48; 0x89; 0xc3; 0x48; 0x85; 0xc0; 0x0f; 0x88; 0xa0; 0x00; 0x00; 0x00];
  [0x48; 0x89; 0xe6; 0xb8; 0x03; 0x00; 0x00; 0x00; 0xba; 0x40; 0x00; 0x00];
  [0x00; 0x48; 0x89; 0xdf; 0x0f; 0x05; 0x48; 0x89; 0xc2; 0x48; 0x85; 0xc0];
  [0x7e; 0x29; 0x66; 0x0f; 0x1f; 0x44; 0x00; 0x00; 0xb8; 0x04; 0x00; 0x00];
  [0x00; 0xbf; 0x01; 0x00; 0x00; 0x00; 0x0f; 0x05; 0xb8; 0x03; 0x00; 0x00];
  [0x00; 0x48; 0x89; 0xdf; 0xba; 0x40; 0x00; 0x00; 0x00; 0x0f; 0x05; 0x48];
  [0x89; 0xc2; 0x48; 0x85; 0xc0; 0x7f; 0xdd; 0x31; 0xf6; 0xb8; 0x06; 0x00];
  [0x00; 0x00; 0x48; 0x89; 0xdf; 0x48; 0x89; 0xf2; 0x0f; 0x05; 0xb8; 0x01];
  [0x00; 0x00; 0x00; 0x48; 0x89; 0xf7; 0x0f; 0x05; 0x48; 0x83; 0xc4; 0x40];
  [0x5b; 0xc3; 0x66; 0x0f; 0x1f; 0x44; 0x00; 0x00; 0xbf; 0x30; 0x10; 0x40];
  [0x00; 0xe8; 0x6e; 0x00; 0x00; 0x00; 0xbf; 0x01; 0x00; 0x00; 0x00; 0xbe];
  [0x30; 0x10; 0x40; 0x00; 0x48; 0x89; 0xc2; 0xb8; 0x04; 0x00; 0x00; 0x00];
  [0x0f; 0x05; 0x31; 0xf6; 0x48; 0x89; 0xf8; 0x48; 0x89; 0xf2; 0x0f; 0x05];
  [0x48; 0x8b; 0x7b; 0x10; 0xe9; 0x4f; 0xff; 0xff; 0xff; 0x0f; 0x1f; 0x80];
  [0x00; 0x00; 0x00; 0x00; 0xbf; 0x43; 0x10; 0x40; 0x00; 0xe8; 0x36; 0x00];
  [0x00; 0x00; 0xbf; 0x01; 0x00; 0x00; 0x00; 0xbe; 0x43; 0x10; 0x40; 0x00];
  [0x48; 0x89; 0xc2; 0xb8; 0x04; 0x00; 0x00; 0x00; 0x0f; 0x05; 0x31; 0xf6];
  [0x48; 0x89; 0xf8; 0x48; 0x89; 0xf2; 0x0f; 0x05; 0xe9; 0x33; 0xff; 0xff];
  [0xff; 0x0f; 0x1f; 0x00; 0x48; 0x89; 0xe7; 0x48; 0x83; 0xe4; 0xf0; 0xe8];
  [0xe4; 0xfe; 0xff; 0xff; 0xf4; 0x0f; 0x0b; 0x90; 0x31; 0xc0; 0x48; 0x85];
  [0xff; 0x75; 0x09; 0xc3; 0x0f; 0x1f; 0x84; 0x00; 0x00; 0x00; 0x00; 0x00];
  [0x80; 0x3f; 0x00; 0x74; 0xf2; 0x66; 0x66; 0x2e; 0x0f; 0x1f; 0x84; 0x00];
  [0x00; 0x00; 0x00; 0x00; 0x48; 0x83; 0xc0; 0x01; 0x80; 0x3c; 0x07; 0x00];
  [0x75; 0xf6; 0xc3; 0x0f; 0x1f; 0x44; 0x00; 0x00; 0x48; 0x85; 0xff; 0x74];
  [0x3b; 0x48; 0x85; 0xf6; 0x74; 0x36; 0x0f; 0xb6; 0x07; 0x84; 0xc0; 0x75];
  [0x1b; 0xeb; 0x4e; 0x0f; 0x1f; 0x44; 0x00; 0x00; 0x84; 0xd2; 0x74; 0x17];
  [0x0f; 0xb6; 0x47; 0x01; 0x48; 0x83; 0xc7; 0x01; 0x84; 0xc0; 0x74; 0x30];
  [0x48; 0x83; 0xc6; 0x01; 0x0f; 0xb6; 0x16; 0x38; 0xc2; 0x74; 0xe5; 0x29];
  [0xd0; 0xc3; 0x66; 0x2e; 0x0f; 0x1f; 0x84; 0x00; 0x00; 0x00; 0x00; 0x00];
  [0x31; 0xc0; 0x48; 0x39; 0xf7; 0x74; 0xee; 0x48; 0x83; 0xff; 0x01; 0x19];
  [0xc0; 0x83; 0xc8; 0x01; 0xc3; 0x0f; 0x1f; 0x80; 0x00; 0x00; 0x00; 0x00];
  [0x0f; 0xb6; 0x56; 0x01; 0x31; 0xc0; 0x29; 0xd0; 0xc3; 0x0f; 0xb6; 0x16];
  [0x31; 0xc0; 0x29; 0xd0; 0xc3; 0x0f; 0x1f; 0x80; 0x00; 0x00; 0x00; 0x00];
  [0x48; 0x85; 0xff; 0x74; 0x2f; 0x48; 0x85; 0xf6; 0x74; 0x2a; 0x0f; 0xb6];
  [0x06; 0x48; 0x89; 0xfa; 0x84; 0xc0; 0x74; 0x1d; 0x90; 0x66; 0x66; 0x2e];
  [0x0f; 0x1f; 0x84; 0x00; 0x00; 0x00; 0x00; 0x00; 0x48; 0x83; 0xc6; 0x01];
  [0x88; 0x02; 0x48; 0x83; 0xc2; 0x01; 0x0f; 0xb6; 0x06; 0x84; 0xc0; 0x75];
  [0xef; 0xc6; 0x02; 0x00; 0x48; 0x89; 0xf8; 0xc3; 0x0f; 0x1f; 0x84; 0x00];
  [0x00; 0x00; 0x00; 0x00; 0x48; 0x85; 0xf6; 0x48; 0x89; 0xd1; 0x0f; 0x94];
  [0xc0; 0x48; 0x85; 0xd2; 0x0f; 0x94; 0xc2; 0x08; 0xd0; 0x75; 0x1d; 0x48];
  [0x85; 0xff; 0x74; 0x18; 0x31; 0xc0; 0x66; 0x0f; 0x1f; 0x44; 0x00; 0x00];
  [0x0f; 0xb6; 0x14; 0x06; 0x88; 0x14; 0x07; 0x48; 0x83; 0xc0; 0x01; 0x48];
  [0x39; 0xc8; 0x72; 0xf0; 0x48; 0x89; 0xf8; 0xc3; 0x90; 0x66; 0x66; 0x2e];
  [0x0f; 0x1f; 0x84; 0x00; 0x00; 0x00; 0x00; 0x00; 0x48; 0x85; 0xff; 0x74];
  [0x4d; 0x48; 0x85; 0xd2; 0x74; 0x48; 0xb8; 0x01; 0x00; 0x00; 0x00; 0x40];
  [0x88; 0x37; 0x48; 0x8d; 0x4a; 0xff; 0x48; 0x39; 0xd0; 0x73; 0x37; 0x83];
  [0xe1; 0x01; 0x74; 0x20; 0x40; 0x88; 0x34; 0x07; 0xb8; 0x02; 0x00; 0x00];
  [0x00; 0x48; 0x39; 0xd0; 0x73; 0x24; 0x0f; 0x1f; 0x80; 0x00; 0x00; 0x00];
  [0x00; 0x66; 0x66; 0x2e; 0x0f; 0x1f; 0x84; 0x00; 0x00; 0x00; 0x00; 0x00];
  [0x40; 0x88; 0x34; 0x07; 0x40; 0x88; 0x74; 0x07; 0x01; 0x48; 0x83; 0xc0];
  [0x02; 0x48; 0x39; 0xd0; 0x72; 0xee; 0x48; 0x89; 0xf8; 0xc3; 0x66; 0x2e];
  [0x0f; 0x1f; 0x84; 0x00; 0x00; 0x00; 0x00; 0x00; 0x48; 0x63; 0xff; 0x48];
  [0x63; 0xf6; 0xb8; 0x0b; 0x00; 0x00; 0x00; 0x0f; 0x05; 0xc3; 0x66; 0x90];
  [0xb8; 0x0c; 0x00; 0x00; 0x00; 0x0f; 0x05; 0xc3; 0x0f; 0x1f; 0x84; 0x00];
  [0x00; 0x00; 0x00; 0x00; 0x49; 0x89; 0xca; 0xb8; 0x07; 0x00; 0x00; 0x00];
  [0x0f; 0x05; 0xc3; 0x0f; 0x1f; 0x44; 0x00; 0x00; 0xb8; 0x0d; 0x00; 0x00];
  [0x00; 0x0f; 0x05; 0xc3; 0x0f; 0x1f; 0x84; 0x00; 0x00; 0x00; 0x00; 0x00];
  [0xb8; 0x0e; 0x00; 0x00; 0x00; 0x0f; 0x05; 0xc3; 0x00; 0x00; 0x00; 0x00];
  [0x00; 0x00; 0x00; 0x00; 0x00; 0x00; 0x00; 0x00; 0x00; 0x00; 0x00; 0x00];
  [0x00; 0x00; 0x00; 0x00; 0x00; 0x00; 0x00; 0x00; 0x00; 0x00; 0x00; 0x00];
  [0x00; 0x00; 0x00; 0x00; 0x00; 0x00; 0x00; 0x00; 0x00; 0x00; 0x00; 0x00];
  [0x00; 0x00; 0x00; 0x00; 0x00; 0x00; 0x00; 0x00; 0x00; 0x00; 0x00; 0x00];
  [0x00; 0x00; 0x00; 0x00; 0x00; 0x00; 0x00; 0x00; 0x00; 0x00; 0x00; 0x00];
  [0x00; 0x00; 0x00; 0x00; 0x00; 0x00; 0x00; 0x00; 0x00; 0x00; 0x00; 0x00];
  [0x00; 0x00; 0x00; 0x00; 0x00; 0x00; 0x00; 0x00; 0x00; 0x00; 0x00; 0x00];
  [0x00; 0x00; 0x00; 0x00; 0x00; 0x00; 0x00; 0x00; 0x00; 0x00; 0x00; 0x00];
  [0x00; 0x00; 0x00; 0x00; 0x00; 0x00; 0x00; 0x00; 0x00; 0x00; 0x00; 0x00];
  [0x00; 0x00; 0x00; 0x00; 0x00; 0x00; 0x00; 0x00; 0x00; 0x00; 0x00; 0x00];
  [0x00; 0x00; 0x00; 0x00; 0x00; 0x00; 0x00; 0x00; 0x00; 0x00; 0x00; 0x00];
  [0x00; 0x00; 0x00; 0x00; 0x00; 0x00; 0x00; 0x00; 0x00; 0x00; 0x00; 0x00];
  [0x00; 0x00; 0x00; 0x00; 0x00; 0x00; 0x00; 0x00; 0x00; 0x00; 0x00; 0x00];
  [0x00; 0x00; 0x00; 0x00; 0x00; 0x00; 0x00; 0x00; 0x00; 0x00; 0x00; 0x00];
  [0x00; 0x00; 0x00; 0x00; 0x00; 0x00; 0x00; 0x00; 0x00; 0x00; 0x00; 0x00];
  [0x00; 0x00; 0x00; 0x00; 0x00; 0x00; 0x00; 0x00; 0x00; 0x00; 0x00; 0x00];
  [0x00; 0x00; 0x00; 0x00; 0x00; 0x00; 0x00; 0x00; 0x00; 0x00; 0x00; 0x00];
  [0x00; 0x00; 0x00; 0x00; 0x00; 0x00; 0x00; 0x00; 0x00; 0x00; 0x00; 0x00];
  [0x00; 0x00; 0x00; 0x00; 0x00; 0x00; 0x00; 0x00; 0x00; 0x00; 0x00; 0x00];
  [0x00; 0x00; 0x00; 0x00; 0x00; 0x00; 0x00; 0x00; 0x00; 0x00; 0x00; 0x00];
  [0x00; 0x00; 0x00; 0x00; 0x00; 0x00; 0x00; 0x00; 0x00; 0x00; 0x00; 0x00];
  [0x00; 0x00; 0x00; 0x00; 0x00; 0x00; 0x00; 0x00; 0x00; 0x00; 0x00; 0x00];
  [0x00; 0x00; 0x00; 0x00; 0x00; 0x00; 0x00; 0x00; 0x00; 0x00; 0x00; 0x00];
  [0x00; 0x00; 0x00; 0x00; 0x00; 0x00; 0x00; 0x00; 0x00; 0x00; 0x00; 0x00];
  [0x00; 0x00; 0x00; 0x00; 0x00; 0x00; 0x00; 0x00; 0x00; 0x00; 0x00; 0x00];
  [0x00; 0x00; 0x00; 0x00; 0x00; 0x00; 0x00; 0x00; 0x00; 0x00; 0x00; 0x00];
  [0x00; 0x00; 0x00; 0x00; 0x00; 0x00; 0x00; 0x00; 0x00; 0x00; 0x00; 0x00];
  [0x00; 0x00; 0x00; 0x00; 0x00; 0x00; 0x00; 0x00; 0x00; 0x00; 0x00; 0x00];
  [0x00; 0x00; 0x00; 0x00; 0x00; 0x00; 0x00; 0x00; 0x00; 0x00; 0x00; 0x00];
  [0x00; 0x00; 0x00; 0x00; 0x00; 0x00; 0x00; 0x00; 0x00; 0x00; 0x00; 0x00];
  [0x00; 0x00; 0x00; 0x00; 0x00; 0x00; 0x00; 0x00; 0x00; 0x00; 0x00; 0x00];
  [0x00; 0x00; 0x00; 0x00; 0x00; 0x00; 0x00; 0x00; 0x00; 0x00; 0x00; 0x00];
  [0x00; 0x00; 0x00; 0x00; 0x00; 0x00; 0x00; 0x00; 0x00; 0x00; 0x00; 0x00];
  [0x00; 0x00; 0x00; 0x00; 0x00; 0x00; 0x00; 0x00; 0x00; 0x00; 0x00; 0x00];
  [0x00; 0x00; 0x00; 0x00; 0x00; 0x00; 0x00; 0x00; 0x00; 0x00; 0x00; 0x00];
  [0x00; 0x00; 0x00; 0x00; 0x00; 0x00; 0x00; 0x00; 0x00; 0x00; 0x00; 0x00];
  [0x00; 0x00; 0x00; 0x00; 0x00; 0x00; 0x00; 0x00; 0x00; 0x00; 0x00; 0x00];
  [0x00; 0x00; 0x00; 0x00; 0x00; 0x00; 0x00; 0x00; 0x00; 0x00; 0x00; 0x00];
  [0x00; 0x00; 0x00; 0x00; 0x00; 0x00; 0x00; 0x00; 0x00; 0x00; 0x00; 0x00];
  [0x00; 0x00; 0x00; 0x00; 0x00; 0x00; 0x00; 0x00; 0x00; 0x00; 0x00; 0x00];
  [0x00; 0x00; 0x00; 0x00; 0x00; 0x00; 0x00; 0x00; 0x00; 0x00; 0x00; 0x00];
  [0x00; 0x00; 0x00; 0x00; 0x00; 0x00; 0x00; 0x00; 0x00; 0x00; 0x00; 0x00];
  [0x00; 0x00; 0x00; 0x00; 0x00; 0x00; 0x00; 0x00; 0x00; 0x00; 0x00; 0x00];
  [0x00; 0x00; 0x00; 0x00; 0x00; 0x00; 0x00; 0x00; 0x00; 0x00; 0x00; 0x00];
  [0x00; 0x00; 0x00; 0x00; 0x00; 0x00; 0x00; 0x00; 0x00; 0x00; 0x00; 0x00];
  [0x00; 0x00; 0x00; 0x00; 0x00; 0x00; 0x00; 0x00; 0x00; 0x00; 0x00; 0x00];
  [0x00; 0x00; 0x00; 0x00; 0x00; 0x00; 0x00; 0x00; 0x00; 0x00; 0x00; 0x00];
  [0x00; 0x00; 0x00; 0x00; 0x00; 0x00; 0x00; 0x00; 0x00; 0x00; 0x00; 0x00];
  [0x00; 0x00; 0x00; 0x00; 0x00; 0x00; 0x00; 0x00; 0x00; 0x00; 0x00; 0x00];
  [0x00; 0x00; 0x00; 0x00; 0x00; 0x00; 0x00; 0x00; 0x00; 0x00; 0x00; 0x00];
  [0x00; 0x00; 0x00; 0x00; 0x00; 0x00; 0x00; 0x00; 0x00; 0x00; 0x00; 0x00];
  [0x00; 0x00; 0x00; 0x00; 0x00; 0x00; 0x00; 0x00; 0x00; 0x00; 0x00; 0x00];
  [0x00; 0x00; 0x00; 0x00; 0x00; 0x00; 0x00; 0x00; 0x00; 0x00; 0x00; 0x00];
  [0x00; 0x00; 0x00; 0x00; 0x00; 0x00; 0x00; 0x00; 0x00; 0x00; 0x00; 0x00];
  [0x00; 0x00; 0x00; 0x00; 0x00; 0x00; 0x00; 0x00; 0x00; 0x00; 0x00; 0x00];
  [0x00; 0x00; 0x00; 0x00; 0x00; 0x00; 0x00; 0x00; 0x00; 0x00; 0x00; 0x00];
  [0x00; 0x00; 0x00; 0x00; 0x00; 0x00; 0x00; 0x00; 0x00; 0x00; 0x00; 0x00];
  [0x00; 0x00; 0x00; 0x00; 0x00; 0x00; 0x00; 0x00; 0x00; 0x00; 0x00; 0x00];
  [0x00; 0x00; 0x00; 0x00; 0x00; 0x00; 0x00; 0x00; 0x00; 0x00; 0x00; 0x00];
  [0x00; 0x00; 0x00; 0x00; 0x00; 0x00; 0x00; 0x00; 0x00; 0x00; 0x00; 0x00];
  [0x00; 0x00; 0x00; 0x00; 0x00; 0x00; 0x00; 0x00; 0x00; 0x00; 0x00; 0x00];
  [0x00; 0x00; 0x00; 0x00; 0x00; 0x00; 0x00; 0x00; 0x00; 0x00; 0x00; 0x00];
  [0x00; 0x00; 0x00; 0x00; 0x00; 0x00; 0x00; 0x00; 0x00; 0x00; 0x00; 0x00];
  [0x00; 0x00; 0x00; 0x00; 0x00; 0x00; 0x00; 0x00; 0x00; 0x00; 0x00; 0x00];
  [0x00; 0x00; 0x00; 0x00; 0x00; 0x00; 0x00; 0x00; 0x00; 0x00; 0x00; 0x00];
  [0x00; 0x00; 0x00; 0x00; 0x00; 0x00; 0x00; 0x00; 0x00; 0x00; 0x00; 0x00];
  [0x00; 0x00; 0x00; 0x00; 0x00; 0x00; 0x00; 0x00; 0x00; 0x00; 0x00; 0x00];
  [0x00; 0x00; 0x00; 0x00; 0x00; 0x00; 0x00; 0x00; 0x00; 0x00; 0x00; 0x00];
  [0x00; 0x00; 0x00; 0x00; 0x00; 0x00; 0x00; 0x00; 0x00; 0x00; 0x00; 0x00];
  [0x00; 0x00; 0x00; 0x00; 0x00; 0x00; 0x00; 0x00; 0x00; 0x00; 0x00; 0x00];
  [0x00; 0x00; 0x00; 0x00; 0x00; 0x00; 0x00; 0x00; 0x00; 0x00; 0x00; 0x00];
  [0x00; 0x00; 0x00; 0x00; 0x00; 0x00; 0x00; 0x00; 0x00; 0x00; 0x00; 0x00];
  [0x00; 0x00; 0x00; 0x00; 0x00; 0x00; 0x00; 0x00; 0x00; 0x00; 0x00; 0x00];
  [0x00; 0x00; 0x00; 0x00; 0x00; 0x00; 0x00; 0x00; 0x00; 0x00; 0x00; 0x00];
  [0x00; 0x00; 0x00; 0x00; 0x00; 0x00; 0x00; 0x00; 0x00; 0x00; 0x00; 0x00];
  [0x00; 0x00; 0x00; 0x00; 0x00; 0x00; 0x00; 0x00; 0x00; 0x00; 0x00; 0x00];
  [0x00; 0x00; 0x00; 0x00; 0x00; 0x00; 0x00; 0x00; 0x00; 0x00; 0x00; 0x00];
  [0x00; 0x00; 0x00; 0x00; 0x00; 0x00; 0x00; 0x00; 0x00; 0x00; 0x00; 0x00];
  [0x00; 0x00; 0x00; 0x00; 0x00; 0x00; 0x00; 0x00; 0x00; 0x00; 0x00; 0x00];
  [0x00; 0x00; 0x00; 0x00; 0x00; 0x00; 0x00; 0x00; 0x00; 0x00; 0x00; 0x00];
  [0x00; 0x00; 0x00; 0x00; 0x00; 0x00; 0x00; 0x00; 0x00; 0x00; 0x00; 0x00];
  [0x00; 0x00; 0x00; 0x00; 0x00; 0x00; 0x00; 0x00; 0x00; 0x00; 0x00; 0x00];
  [0x00; 0x00; 0x00; 0x00; 0x00; 0x00; 0x00; 0x00; 0x00; 0x00; 0x00; 0x00];
  [0x00; 0x00; 0x00; 0x00; 0x00; 0x00; 0x00; 0x00; 0x00; 0x00; 0x00; 0x00];
  [0x00; 0x00; 0x00; 0x00; 0x00; 0x00; 0x00; 0x00; 0x00; 0x00; 0x00; 0x00];
  [0x00; 0x00; 0x00; 0x00; 0x00; 0x00; 0x00; 0x00; 0x00; 0x00; 0x00; 0x00];
  [0x00; 0x00; 0x00; 0x00; 0x00; 0x00; 0x00; 0x00; 0x00; 0x00; 0x00; 0x00];
  [0x00; 0x00; 0x00; 0x00; 0x00; 0x00; 0x00; 0x00; 0x00; 0x00; 0x00; 0x00];
  [0x00; 0x00; 0x00; 0x00; 0x00; 0x00; 0x00; 0x00; 0x00; 0x00; 0x00; 0x00];
  [0x00; 0x00; 0x00; 0x00; 0x00; 0x00; 0x00; 0x00; 0x00; 0x00; 0x00; 0x00];
  [0x00; 0x00; 0x00; 0x00; 0x00; 0x00; 0x00; 0x00; 0x00; 0x00; 0x00; 0x00];
  [0x00; 0x00; 0x00; 0x00; 0x00; 0x00; 0x00; 0x00; 0x00; 0x00; 0x00; 0x00];
  [0x00; 0x00; 0x00; 0x00; 0x00; 0x00; 0x00; 0x00; 0x00; 0x00; 0x00; 0x00];
  [0x00; 0x00; 0x00; 0x00; 0x00; 0x00; 0x00; 0x00; 0x00; 0x00; 0x00; 0x00];
  [0x00; 0x00; 0x00; 0x00; 0x00; 0x00; 0x00; 0x00; 0x00; 0x00; 0x00; 0x00];
  [0x00; 0x00; 0x00; 0x00; 0x00; 0x00; 0x00; 0x00; 0x00; 0x00; 0x00; 0x00];
  [0x00; 0x00; 0x00; 0x00; 0x00; 0x00; 0x00; 0x00; 0x00; 0x00; 0x00; 0x00];
  [0x00; 0x00; 0x00; 0x00; 0x00; 0x00; 0x00; 0x00; 0x00; 0x00; 0x00; 0x00];
  [0x00; 0x00; 0x00; 0x00; 0x00; 0x00; 0x00; 0x00; 0x00; 0x00; 0x00; 0x00];
  [0x00; 0x00; 0x00; 0x00; 0x00; 0x00; 0x00; 0x00; 0x00; 0x00; 0x00; 0x00];
  [0x00; 0x00; 0x00; 0x00; 0x00; 0x00; 0x00; 0x00; 0x00; 0x00; 0x00; 0x00];
  [0x00; 0x00; 0x00; 0x00; 0x00; 0x00; 0x00; 0x00; 0x00; 0x00; 0x00; 0x00];
  [0x00; 0x00; 0x00; 0x00; 0x00; 0x00; 0x00; 0x00; 0x00; 0x00; 0x00; 0x00];
  [0x00; 0x00; 0x00; 0x00; 0x00; 0x00; 0x00; 0x00; 0x00; 0x00; 0x00; 0x00];
  [0x00; 0x00; 0x00; 0x00; 0x00; 0x00; 0x00; 0x00; 0x00; 0x00; 0x00; 0x00];
  [0x00; 0x00; 0x00; 0x00; 0x00; 0x00; 0x00; 0x00; 0x00; 0x00; 0x00; 0x00];
  [0x00; 0x00; 0x00; 0x00; 0x00; 0x00; 0x00; 0x00; 0x00; 0x00; 0x00; 0x00];
  [0x00; 0x00; 0x00; 0x00; 0x00; 0x00; 0x00; 0x00; 0x00; 0x00; 0x00; 0x00];
  [0x00; 0x00; 0x00; 0x00; 0x00; 0x00; 0x00; 0x00; 0x00; 0x00; 0x00; 0x00];
  [0x00; 0x00; 0x00; 0x00; 0x00; 0x00; 0x00; 0x00; 0x00; 0x00; 0x00; 0x00];
  [0x00; 0x00; 0x00; 0x00; 0x00; 0x00; 0x00; 0x00; 0x00; 0x00; 0x00; 0x00];
  [0x00; 0x00; 0x00; 0x00; 0x00; 0x00; 0x00; 0x00; 0x00; 0x00; 0x00; 0x00];
  [0x00; 0x00; 0x00; 0x00; 0x00; 0x00; 0x00; 0x00; 0x00; 0x00; 0x00; 0x00];
  [0x00; 0x00; 0x00; 0x00; 0x00; 0x00; 0x00; 0x00; 0x00; 0x00; 0x00; 0x00];
  [0x00; 0x00; 0x00; 0x00; 0x00; 0x00; 0x00; 0x00; 0x00; 0x00; 0x00; 0x00];
  [0x00; 0x00; 0x00; 0x00; 0x00; 0x00; 0x00; 0x00; 0x00; 0x00; 0x00; 0x00];
  [0x00; 0x00; 0x00; 0x00; 0x00; 0x00; 0x00; 0x00; 0x00; 0x00; 0x00; 0x00];
  [0x00; 0x00; 0x00; 0x00; 0x00; 0x00; 0x00; 0x00; 0x00; 0x00; 0x00; 0x00];
  [0x00; 0x00; 0x00; 0x00; 0x00; 0x00; 0x00; 0x00; 0x00; 0x00; 0x00; 0x00];
  [0x00; 0x00; 0x00; 0x00; 0x00; 0x00; 0x00; 0x00; 0x00; 0x00; 0x00; 0x00];
  [0x00; 0x00; 0x00; 0x00; 0x00; 0x00; 0x00; 0x00; 0x00; 0x00; 0x00; 0x00];
  [0x00; 0x00; 0x00; 0x00; 0x00; 0x00; 0x00; 0x00; 0x00; 0x00; 0x00; 0x00];
  [0x00; 0x00; 0x00; 0x00; 0x00; 0x00; 0x00; 0x00; 0x00; 0x00; 0x00; 0x00];
  [0x00; 0x00; 0x00; 0x00; 0x00; 0x00; 0x00; 0x00; 0x00; 0x00; 0x00; 0x00];
  [0x00; 0x00; 0x00; 0x00; 0x00; 0x00; 0x00; 0x00; 0x00; 0x00; 0x00; 0x00];
  [0x00; 0x00; 0x00; 0x00; 0x00; 0x00; 0x00; 0x00; 0x00; 0x00; 0x00; 0x00];
  [0x00; 0x00; 0x00; 0x00; 0x00; 0x00; 0x00; 0x00; 0x00; 0x00; 0x00; 0x00];
  [0x00; 0x00; 0x00; 0x00; 0x00; 0x00; 0x00; 0x00; 0x00; 0x00; 0x00; 0x00];
  [0x00; 0x00; 0x00; 0x00; 0x00; 0x00; 0x00; 0x00; 0x00; 0x00; 0x00; 0x00];
  [0x00; 0x00; 0x00; 0x00; 0x00; 0x00; 0x00; 0x00; 0x00; 0x00; 0x00; 0x00];
  [0x00; 0x00; 0x00; 0x00; 0x00; 0x00; 0x00; 0x00; 0x00; 0x00; 0x00; 0x00];
  [0x00; 0x00; 0x00; 0x00; 0x00; 0x00; 0x00; 0x00; 0x00; 0x00; 0x00; 0x00];
  [0x00; 0x00; 0x00; 0x00; 0x00; 0x00; 0x00; 0x00; 0x00; 0x00; 0x00; 0x00];
  [0x00; 0x00; 0x00; 0x00; 0x00; 0x00; 0x00; 0x00; 0x00; 0x00; 0x00; 0x00];
  [0x00; 0x00; 0x00; 0x00; 0x00; 0x00; 0x00; 0x00; 0x00; 0x00; 0x00; 0x00];
  [0x00; 0x00; 0x00; 0x00; 0x00; 0x00; 0x00; 0x00; 0x00; 0x00; 0x00; 0x00];
  [0x00; 0x00; 0x00; 0x00; 0x00; 0x00; 0x00; 0x00; 0x00; 0x00; 0x00; 0x00];
  [0x00; 0x00; 0x00; 0x00; 0x00; 0x00; 0x00; 0x00; 0x00; 0x00; 0x00; 0x00];
  [0x00; 0x00; 0x00; 0x00; 0x00; 0x00; 0x00; 0x00; 0x00; 0x00; 0x00; 0x00];
  [0x00; 0x00; 0x00; 0x00; 0x00; 0x00; 0x00; 0x00; 0x00; 0x00; 0x00; 0x00];
  [0x00; 0x00; 0x00; 0x00; 0x00; 0x00; 0x00; 0x00; 0x00; 0x00; 0x00; 0x00];
  [0x00; 0x00; 0x00; 0x00; 0x00; 0x00; 0x00; 0x00; 0x00; 0x00; 0x00; 0x00];
  [0x00; 0x00; 0x00; 0x00; 0x00; 0x00; 0x00; 0x00; 0x00; 0x00; 0x00; 0x00];
  [0x00; 0x00; 0x00; 0x00; 0x00; 0x00; 0x00; 0x00; 0x00; 0x00; 0x00; 0x00];
  [0x00; 0x00; 0x00; 0x00; 0x00; 0x00; 0x00; 0x00; 0x00; 0x00; 0x00; 0x00];
  [0x00; 0x00; 0x00; 0x00; 0x00; 0x00; 0x00; 0x00; 0x00; 0x00; 0x00; 0x00];
  [0x00; 0x00; 0x00; 0x00; 0x00; 0x00; 0x00; 0x00; 0x00; 0x00; 0x00; 0x00];
  [0x00; 0x00; 0x00; 0x00; 0x00; 0x00; 0x00; 0x00; 0x00; 0x00; 0x00; 0x00];
  [0x00; 0x00; 0x00; 0x00; 0x00; 0x00; 0x00; 0x00; 0x00; 0x00; 0x00; 0x00];
  [0x00; 0x00; 0x00; 0x00; 0x00; 0x00; 0x00; 0x00; 0x00; 0x00; 0x00; 0x00];
  [0x00; 0x00; 0x00; 0x00; 0x00; 0x00; 0x00; 0x00; 0x00; 0x00; 0x00; 0x00];
  [0x00; 0x00; 0x00; 0x00; 0x00; 0x00; 0x00; 0x00; 0x00; 0x00; 0x00; 0x00];
  [0x00; 0x00; 0x00; 0x00; 0x00; 0x00; 0x00; 0x00; 0x00; 0x00; 0x00; 0x00];
  [0x00; 0x00; 0x00; 0x00; 0x00; 0x00; 0x00; 0x00; 0x00; 0x00; 0x00; 0x00];
  [0x00; 0x00; 0x00; 0x00; 0x00; 0x00; 0x00; 0x00; 0x00; 0x00; 0x00; 0x00];
  [0x00; 0x00; 0x00; 0x00; 0x00; 0x00; 0x00; 0x00; 0x00; 0x00; 0x00; 0x00];
  [0x00; 0x00; 0x00; 0x00; 0x00; 0x00; 0x00; 0x00; 0x00; 0x00; 0x00; 0x00];
  [0x00; 0x00; 0x00; 0x00; 0x00; 0x00; 0x00; 0x00; 0x00; 0x00; 0x00; 0x00];
  [0x00; 0x00; 0x00; 0x00; 0x00; 0x00; 0x00; 0x00; 0x00; 0x00; 0x00; 0x00];
  [0x00; 0x00; 0x00; 0x00; 0x00; 0x00; 0x00; 0x00; 0x00; 0x00; 0x00; 0x00];
  [0x00; 0x00; 0x00; 0x00; 0x00; 0x00; 0x00; 0x00; 0x00; 0x00; 0x00; 0x00];
  [0x00; 0x00; 0x00; 0x00; 0x00; 0x00; 0x00; 0x00; 0x00; 0x00; 0x00; 0x00];
  [0x00; 0x00; 0x00; 0x00; 0x00; 0x00; 0x00; 0x00; 0x00; 0x00; 0x00; 0x00];
  [0x00; 0x00; 0x00; 0x00; 0x00; 0x00; 0x00; 0x00; 0x00; 0x00; 0x00; 0x00];
  [0x00; 0x00; 0x00; 0x00; 0x00; 0x00; 0x00; 0x00; 0x00; 0x00; 0x00; 0x00];
  [0x00; 0x00; 0x00; 0x00; 0x00; 0x00; 0x00; 0x00; 0x00; 0x00; 0x00; 0x00];
  [0x00; 0x00; 0x00; 0x00; 0x00; 0x00; 0x00; 0x00; 0x00; 0x00; 0x00; 0x00];
  [0x00; 0x00; 0x00; 0x00; 0x00; 0x00; 0x00; 0x00; 0x00; 0x00; 0x00; 0x00];
  [0x00; 0x00; 0x00; 0x00; 0x00; 0x00; 0x00; 0x00; 0x00; 0x00; 0x00; 0x00];
  [0x00; 0x00; 0x00; 0x00; 0x00; 0x00; 0x00; 0x00; 0x00; 0x00; 0x00; 0x00];
  [0x00; 0x00; 0x00; 0x00; 0x00; 0x00; 0x00; 0x00; 0x00; 0x00; 0x00; 0x00];
  [0x00; 0x00; 0x00; 0x00; 0x00; 0x00; 0x00; 0x00; 0x00; 0x00; 0x00; 0x00];
  [0x00; 0x00; 0x00; 0x00; 0x00; 0x00; 0x00; 0x00; 0x00; 0x00; 0x00; 0x00];
  [0x00; 0x00; 0x00; 0x00; 0x00; 0x00; 0x00; 0x00; 0x00; 0x00; 0x00; 0x00];
  [0x00; 0x00; 0x00; 0x00; 0x00; 0x00; 0x00; 0x00; 0x00; 0x00; 0x00; 0x00];
  [0x00; 0x00; 0x00; 0x00; 0x00; 0x00; 0x00; 0x00; 0x00; 0x00; 0x00; 0x00];
  [0x00; 0x00; 0x00; 0x00; 0x00; 0x00; 0x00; 0x00; 0x00; 0x00; 0x00; 0x00];
  [0x00; 0x00; 0x00; 0x00; 0x00; 0x00; 0x00; 0x00; 0x00; 0x00; 0x00; 0x00];
  [0x00; 0x00; 0x00; 0x00; 0x00; 0x00; 0x00; 0x00; 0x00; 0x00; 0x00; 0x00];
  [0x00; 0x00; 0x00; 0x00; 0x00; 0x00; 0x00; 0x00; 0x00; 0x00; 0x00; 0x00];
  [0x00; 0x00; 0x00; 0x00; 0x00; 0x00; 0x00; 0x00; 0x00; 0x00; 0x00; 0x00];
  [0x00; 0x00; 0x00; 0x00; 0x00; 0x00; 0x00; 0x00; 0x00; 0x00; 0x00; 0x00];
  [0x00; 0x00; 0x00; 0x00; 0x00; 0x00; 0x00; 0x00; 0x00; 0x00; 0x00; 0x00];
  [0x00; 0x00; 0x00; 0x00; 0x00; 0x00; 0x00; 0x00; 0x00; 0x00; 0x00; 0x00];
  [0x00; 0x00; 0x00; 0x00; 0x00; 0x00; 0x00; 0x00; 0x00; 0x00; 0x00; 0x00];
  [0x00; 0x00; 0x00; 0x00; 0x00; 0x00; 0x00; 0x00; 0x00; 0x00; 0x00; 0x00];
  [0x00; 0x00; 0x00; 0x00; 0x00; 0x00; 0x00; 0x00; 0x00; 0x00; 0x00; 0x00];
  [0x00; 0x00; 0x00; 0x00; 0x00; 0x00; 0x00; 0x00; 0x00; 0x00; 0x00; 0x00];
  [0x00; 0x00; 0x00; 0x00; 0x00; 0x00; 0x00; 0x00; 0x00; 0x00; 0x00; 0x00];
  [0x00; 0x00; 0x00; 0x00; 0x00; 0x00; 0x00; 0x00; 0x00; 0x00; 0x00; 0x00];
  [0x00; 0x00; 0x00; 0x00; 0x00; 0x00; 0x00; 0x00; 0x00; 0x00; 0x00; 0x00];
  [0x00; 0x00; 0x00; 0x00; 0x00; 0x00; 0x00; 0x00; 0x00; 0x00; 0x00; 0x00];
  [0x00; 0x00; 0x00; 0x00; 0x00; 0x00; 0x00; 0x00; 0x00; 0x00; 0x00; 0x00];
  [0x00; 0x00; 0x00; 0x00; 0x00; 0x00; 0x00; 0x00; 0x00; 0x00; 0x00; 0x00];
  [0x00; 0x00; 0x00; 0x00; 0x00; 0x00; 0x00; 0x00; 0x00; 0x00; 0x00; 0x00];
  [0x00; 0x00; 0x00; 0x00; 0x00; 0x00; 0x00; 0x00; 0x00; 0x00; 0x00; 0x00];
  [0x00; 0x00; 0x00; 0x00; 0x00; 0x00; 0x00; 0x00; 0x00; 0x00; 0x00; 0x00];
  [0x00; 0x00; 0x00; 0x00; 0x00; 0x00; 0x00; 0x00; 0x00; 0x00; 0x00; 0x00];
  [0x00; 0x00; 0x00; 0x00; 0x00; 0x00; 0x00; 0x00; 0x00; 0x00; 0x00; 0x00];
  [0x00; 0x00; 0x00; 0x00; 0x00; 0x00; 0x00; 0x00; 0x00; 0x00; 0x00; 0x00];
  [0x00; 0x00; 0x00; 0x00; 0x00; 0x00; 0x00; 0x00; 0x00; 0x00; 0x00; 0x00];
  [0x00; 0x00; 0x00; 0x00; 0x00; 0x00; 0x00; 0x00; 0x00; 0x00; 0x00; 0x00];
  [0x00; 0x00; 0x00; 0x00; 0x00; 0x00; 0x00; 0x00; 0x00; 0x00; 0x00; 0x00];
  [0x00; 0x00; 0x00; 0x00; 0x00; 0x00; 0x00; 0x00; 0x00; 0x00; 0x00; 0x00];
  [0x00; 0x00; 0x00; 0x00; 0x00; 0x00; 0x00; 0x00; 0x00; 0x00; 0x00; 0x00];
  [0x00; 0x00; 0x00; 0x00; 0x00; 0x00; 0x00; 0x00; 0x00; 0x00; 0x00; 0x00];
  [0x00; 0x00; 0x00; 0x00; 0x00; 0x00; 0x00; 0x00; 0x00; 0x00; 0x00; 0x00];
  [0x00; 0x00; 0x00; 0x00; 0x00; 0x00; 0x00; 0x00; 0x00; 0x00; 0x00; 0x00];
  [0x00; 0x00; 0x00; 0x00; 0x00; 0x00; 0x00; 0x00; 0x00; 0x00; 0x00; 0x00];
  [0x00; 0x00; 0x00; 0x00; 0x00; 0x00; 0x00; 0x00; 0x00; 0x00; 0x00; 0x00];
  [0x00; 0x00; 0x00; 0x00; 0x00; 0x00; 0x00; 0x00; 0x00; 0x00; 0x00; 0x00];
  [0x00; 0x00; 0x00; 0x00; 0x00; 0x00; 0x00; 0x00; 0x00; 0x00; 0x00; 0x00];
  [0x00; 0x00; 0x00; 0x00; 0x00; 0x00; 0x00; 0x00; 0x00; 0x00; 0x00; 0x00];
  [0x00; 0x00; 0x00; 0x00; 0x00; 0x00; 0x00; 0x00; 0x00; 0x00; 0x00; 0x00];
  [0x00; 0x00; 0x00; 0x00; 0x00; 0x00; 0x00; 0x00; 0x00; 0x00; 0x00; 0x00];
  [0x00; 0x00; 0x00; 0x00; 0x00; 0x00; 0x00; 0x00; 0x00; 0x00; 0x00; 0x00];
  [0x00; 0x00; 0x00; 0x00; 0x00; 0x00; 0x00; 0x00; 0x00; 0x00; 0x00; 0x00];
  [0x00; 0x00; 0x00; 0x00; 0x00; 0x00; 0x00; 0x00; 0x00; 0x00; 0x00; 0x00];
  [0x00; 0x00; 0x00; 0x00; 0x00; 0x00; 0x00; 0x00; 0x00; 0x00; 0x00; 0x00];
  [0x00; 0x00; 0x00; 0x00; 0x00; 0x00; 0x00; 0x00; 0x00; 0x00; 0x00; 0x00];
  [0x00; 0x00; 0x00; 0x00; 0x00; 0x00; 0x00; 0x00; 0x00; 0x00; 0x00; 0x00];
  [0x00; 0x00; 0x00; 0x00; 0x00; 0x00; 0x00; 0x00; 0x00; 0x00; 0x00; 0x00];
  [0x00; 0x00; 0x00; 0x00; 0x00; 0x00; 0x00; 0x00; 0x00; 0x00; 0x00; 0x00];
  [0x00; 0x00; 0x00; 0x00; 0x00; 0x00; 0x00; 0x00; 0x00; 0x00; 0x00; 0x00];
  [0x00; 0x00; 0x00; 0x00; 0x00; 0x00; 0x00; 0x00; 0x00; 0x00; 0x00; 0x00];
  [0x00; 0x00; 0x00; 0x00; 0x00; 0x00; 0x00; 0x00; 0x00; 0x00; 0x00; 0x00];
  [0x00; 0x00; 0x00; 0x00; 0x00; 0x00; 0x00; 0x00; 0x00; 0x00; 0x00; 0x00];
  [0x00; 0x00; 0x00; 0x00; 0x00; 0x00; 0x00; 0x00; 0x00; 0x00; 0x00; 0x00];
  [0x00; 0x00; 0x00; 0x00; 0x00; 0x00; 0x00; 0x00; 0x00; 0x00; 0x00; 0x00];
  [0x00; 0x00; 0x00; 0x00; 0x00; 0x00; 0x00; 0x00; 0x00; 0x00; 0x00; 0x00];
  [0x00; 0x00; 0x00; 0x00; 0x00; 0x00; 0x00; 0x00; 0x00; 0x00; 0x00; 0x00];
  [0x00; 0x00; 0x00; 0x00; 0x00; 0x00; 0x00; 0x00; 0x00; 0x00; 0x00; 0x00];
  [0x00; 0x00; 0x00; 0x00; 0x00; 0x00; 0x00; 0x00; 0x00; 0x00; 0x00; 0x00];
  [0x00; 0x00; 0x00; 0x00; 0x00; 0x00; 0x00; 0x00; 0x00; 0x00; 0x00; 0x00];
  [0x00; 0x00; 0x00; 0x00; 0x00; 0x00; 0x00; 0x00; 0x00; 0x00; 0x00; 0x00];
  [0x00; 0x00; 0x00; 0x00; 0x00; 0x00; 0x00; 0x00; 0x00; 0x00; 0x00; 0x00];
  [0x00; 0x00; 0x00; 0x00; 0x00; 0x00; 0x00; 0x00; 0x00; 0x00; 0x00; 0x00];
  [0x00; 0x00; 0x00; 0x00; 0x00; 0x00; 0x00; 0x00; 0x00; 0x00; 0x00; 0x00];
  [0x00; 0x00; 0x00; 0x00; 0x00; 0x00; 0x00; 0x00; 0x00; 0x00; 0x00; 0x00];
  [0x00; 0x00; 0x00; 0x00; 0x00; 0x00; 0x00; 0x00; 0x00; 0x00; 0x00; 0x00];
  [0x00; 0x00; 0x00; 0x00; 0x00; 0x00; 0x00; 0x00; 0x00; 0x00; 0x00; 0x00];
  [0x00; 0x00; 0x00; 0x00; 0x00; 0x00; 0x00; 0x00; 0x00; 0x00; 0x00; 0x00];
  [0x00; 0x00; 0x00; 0x00; 0x00; 0x00; 0x00; 0x00; 0x00; 0x00; 0x00; 0x00];
  [0x00; 0x00; 0x00; 0x00; 0x00; 0x00; 0x00; 0x00; 0x00; 0x00; 0x00; 0x00];
  [0x00; 0x00; 0x00; 0x00; 0x04; 0x00; 0x00; 0x00; 0x20; 0x00; 0x00; 0x00];
  [0x05; 0x00; 0x00; 0x00; 0x47; 0x4e; 0x55; 0x00; 0x01; 0x00; 0x01; 0xc0];
  [0x04; 0x00; 0x00; 0x00; 0x01; 0x00; 0x00; 0x00; 0x00; 0x00; 0x00; 0x00];
  [0x02; 0x00; 0x01; 0xc0; 0x04; 0x00; 0x00; 0x00; 0x01; 0x00; 0x00; 0x00];
  [0x00; 0x00; 0x00; 0x00; 0x63; 0x61; 0x74; 0x3a; 0x20; 0x6d; 0x69; 0x73];
  [0x73; 0x69; 0x6e; 0x67; 0x20; 0x70; 0x61; 0x74; 0x68; 0x0a; 0x00; 0x63];
  [0x61; 0x74; 0x3a; 0x20; 0x6f; 0x70; 0x65; 0x6e; 0x20; 0x66; 0x61; 0x69];
  [0x6c; 0x65; 0x64; 0x0a; 0x00; 0x00; 0x00; 0x00; 0x01; 0x1b; 0x03; 0x3b];
  [0x6c; 0x00; 0x00; 0x00; 0x0c; 0x00; 0x00; 0x00; 0x48; 0xf1; 0xff; 0xff];
  [0x88; 0x00; 0x00; 0x00; 0x58; 0xf2; 0xff; 0xff; 0xac; 0x00; 0x00; 0x00];
  [0x68; 0xf2; 0xff; 0xff; 0xc0; 0x00; 0x00; 0x00; 0x98; 0xf2; 0xff; 0xff];
  [0xd4; 0x00; 0x00; 0x00; 0x08; 0xf3; 0xff; 0xff; 0xe8; 0x00; 0x00; 0x00];
  [0x48; 0xf3; 0xff; 0xff; 0xfc; 0x00; 0x00; 0x00; 0x88; 0xf3; 0xff; 0xff];
  [0x10; 0x01; 0x00; 0x00; 0xe8; 0xf3; 0xff; 0xff; 0x24; 0x01; 0x00; 0x00];
  [0xf8; 0xf3; 0xff; 0xff; 0x38; 0x01; 0x00; 0x00; 0x08; 0xf4; 0xff; 0xff];
  [0x4c; 0x01; 0x00; 0x00; 0x18; 0xf4; 0xff; 0xff; 0x60; 0x01; 0x00; 0x00];
  [0x28; 0xf4; 0xff; 0xff; 0x74; 0x01; 0x00; 0x00; 0x00; 0x00; 0x00; 0x00];
  [0x14; 0x00; 0x00; 0x00; 0x00; 0x00; 0x00; 0x00; 0x01; 0x7a; 0x52; 0x00];
  [0x01; 0x78; 0x10; 0x01; 0x1b; 0x0c; 0x07; 0x08; 0x90; 0x01; 0x00; 0x00];
  [0x20; 0x00; 0x00; 0x00; 0x1c; 0x00; 0x00; 0x00; 0xb8; 0xf0; 0xff; 0xff];
  [0x0d; 0x01; 0x00; 0x00; 0x00; 0x41; 0x0e; 0x10; 0x83; 0x02; 0x47; 0x0e];
  [0x50; 0x02; 0x98; 0x0a; 0x0e; 0x10; 0x41; 0xc3; 0x0e; 0x08; 0x47; 0x0b];
  [0x10; 0x00; 0x00; 0x00; 0x40; 0x00; 0x00; 0x00; 0xa4; 0xf1; 0xff; 0xff];
  [0x0f; 0x00; 0x00; 0x00; 0x00; 0x00; 0x00; 0x00; 0x10; 0x00; 0x00; 0x00];
  [0x54; 0x00; 0x00; 0x00; 0xa0; 0xf1; 0xff; 0xff; 0x2b; 0x00; 0x00; 0x00];
  [0x00; 0x00; 0x00; 0x00; 0x10; 0x00; 0x00; 0x00; 0x68; 0x00; 0x00; 0x00];
  [0xbc; 0xf1; 0xff; 0xff; 0x69; 0x00; 0x00; 0x00; 0x00; 0x00; 0x00; 0x00];
  [0x10; 0x00; 0x00; 0x00; 0x7c; 0x00; 0x00; 0x00; 0x18; 0xf2; 0xff; 0xff];
  [0x38; 0x00; 0x00; 0x00; 0x00; 0x00; 0x00; 0x00; 0x10; 0x00; 0x00; 0x00];
  [0x90; 0x00; 0x00; 0x00; 0x44; 0xf2; 0xff; 0xff; 0x34; 0x00; 0x00; 0x00];
  [0x00; 0x00; 0x00; 0x00; 0x10; 0x00; 0x00; 0x00; 0xa4; 0x00; 0x00; 0x00];
  [0x70; 0xf2; 0xff; 0xff; 0x56; 0x00; 0x00; 0x00; 0x00; 0x00; 0x00; 0x00];
  [0x10; 0x00; 0x00; 0x00; 0xb8; 0x00; 0x00; 0x00; 0xbc; 0xf2; 0xff; 0xff];
  [0x0e; 0x00; 0x00; 0x00; 0x00; 0x00; 0x00; 0x00; 0x10; 0x00; 0x00; 0x00];
  [0xcc; 0x00; 0x00; 0x00; 0xb8; 0xf2; 0xff; 0xff; 0x08; 0x00; 0x00; 0x00];
  [0x00; 0x00; 0x00; 0x00; 0x10; 0x00; 0x00; 0x00; 0xe0; 0x00; 0x00; 0x00];
  [0xb4; 0xf2; 0xff; 0xff; 0x0b; 0x00; 0x00; 0x00; 0x00; 0x00; 0x00; 0x00];
  [0x10; 0x00; 0x00; 0x00; 0xf4; 0x00; 0x00; 0x00; 0xb0; 0xf2; 0xff; 0xff];
  [0x08; 0x00; 0x00; 0x00; 0x00; 0x00; 0x00; 0x00; 0x10; 0x00; 0x00; 0x00];
  [0x08; 0x01; 0x00; 0x00; 0xac; 0xf2; 0xff; 0xff; 0x08; 0x00; 0x00; 0x00];
  [0x00; 0x00; 0x00; 0x00; 0x47; 0x43; 0x43; 0x3a; 0x20; 0x28; 0x47; 0x4e];
  [0x55; 0x29; 0x20; 0x31; 0x35; 0x2e; 0x32; 0x2e; 0x31; 0x20; 0x32; 0x30];
  [0x32; 0x35; 0x31; 0x32; 0x31; 0x31; 0x20; 0x28; 0x52; 0x65; 0x64; 0x20];
  [0x48; 0x61; 0x74; 0x20; 0x31; 0x35; 0x2e; 0x32; 0x2e; 0x31; 0x2d; 0x35];
  [0x29; 0x00; 0x00; 0x00; 0x00; 0x00; 0x00; 0x00; 0x00; 0x00; 0x00; 0x00];
  [0x00; 0x00; 0x00; 0x00; 0x00; 0x00; 0x00; 0x00; 0x00; 0x00; 0x00; 0x00];
  [0x00; 0x00; 0x00; 0x00; 0x01; 0x00; 0x00; 0x00; 0x04; 0x00; 0xf1; 0xff];
  [0x00; 0x00; 0x00; 0x00; 0x00; 0x00; 0x00; 0x00; 0x00; 0x00; 0x00; 0x00];
  [0x00; 0x00; 0x00; 0x00; 0x07; 0x00; 0x00; 0x00; 0x02; 0x00; 0x01; 0x00];
  [0xa0; 0x01; 0x40; 0x00; 0x00; 0x00; 0x00; 0x00; 0x0d; 0x01; 0x00; 0x00];
  [0x00; 0x00; 0x00; 0x00; 0x12; 0x00; 0x00; 0x00; 0x04; 0x00; 0xf1; 0xff];
  [0x00; 0x00; 0x00; 0x00; 0x00; 0x00; 0x00; 0x00; 0x00; 0x00; 0x00; 0x00];
  [0x00; 0x00; 0x00; 0x00; 0x00; 0x00; 0x00; 0x00; 0x04; 0x00; 0xf1; 0xff];
  [0x00; 0x00; 0x00; 0x00; 0x00; 0x00; 0x00; 0x00; 0x00; 0x00; 0x00; 0x00];
  [0x00; 0x00; 0x00; 0x00; 0x19; 0x00; 0x00; 0x00; 0x00; 0x00; 0x04; 0x00];
  [0x58; 0x10; 0x40; 0x00; 0x00; 0x00; 0x00; 0x00; 0x00; 0x00; 0x00; 0x00];
  [0x00; 0x00; 0x00; 0x00; 0x2c; 0x00; 0x00; 0x00; 0x12; 0x00; 0x01; 0x00];
  [0x60; 0x03; 0x40; 0x00; 0x00; 0x00; 0x00; 0x00; 0x38; 0x00; 0x00; 0x00];
  [0x00; 0x00; 0x00; 0x00; 0x33; 0x00; 0x00; 0x00; 0x12; 0x00; 0x01; 0x00];
  [0xa0; 0x03; 0x40; 0x00; 0x00; 0x00; 0x00; 0x00; 0x34; 0x00; 0x00; 0x00];
  [0x00; 0x00; 0x00; 0x00; 0x3a; 0x00; 0x00; 0x00; 0x12; 0x00; 0x01; 0x00];
  [0x60; 0x04; 0x40; 0x00; 0x00; 0x00; 0x00; 0x00; 0x0b; 0x00; 0x00; 0x00];
  [0x00; 0x00; 0x00; 0x00; 0x45; 0x00; 0x00; 0x00; 0x12; 0x00; 0x01; 0x00];
  [0x40; 0x04; 0x40; 0x00; 0x00; 0x00; 0x00; 0x00; 0x0e; 0x00; 0x00; 0x00];
  [0x00; 0x00; 0x00; 0x00; 0x53; 0x00; 0x00; 0x00; 0x12; 0x00; 0x01; 0x00];
  [0xb0; 0x02; 0x40; 0x00; 0x00; 0x00; 0x00; 0x00; 0x0f; 0x00; 0x00; 0x00];
  [0x00; 0x00; 0x00; 0x00; 0x4e; 0x00; 0x00; 0x00; 0x10; 0x00; 0x05; 0x00];
  [0x00; 0x20; 0x40; 0x00; 0x00; 0x00; 0x00; 0x00; 0x00; 0x00; 0x00; 0x00];
  [0x00; 0x00; 0x00; 0x00; 0x5a; 0x00; 0x00; 0x00; 0x12; 0x00; 0x01; 0x00];
  [0xe0; 0x03; 0x40; 0x00; 0x00; 0x00; 0x00; 0x00; 0x56; 0x00; 0x00; 0x00];
  [0x00; 0x00; 0x00; 0x00; 0x61; 0x00; 0x00; 0x00; 0x12; 0x00; 0x01; 0x00];
  [0xf0; 0x02; 0x40; 0x00; 0x00; 0x00; 0x00; 0x00; 0x69; 0x00; 0x00; 0x00];
  [0x00; 0x00; 0x00; 0x00; 0x68; 0x00; 0x00; 0x00; 0x12; 0x00; 0x01; 0x00];
  [0x80; 0x04; 0x40; 0x00; 0x00; 0x00; 0x00; 0x00; 0x08; 0x00; 0x00; 0x00];
  [0x00; 0x00; 0x00; 0x00; 0x73; 0x00; 0x00; 0x00; 0x10; 0x00; 0x05; 0x00];
  [0x00; 0x20; 0x40; 0x00; 0x00; 0x00; 0x00; 0x00; 0x00; 0x00; 0x00; 0x00];
  [0x00; 0x00; 0x00; 0x00; 0x7a; 0x00; 0x00; 0x00; 0x10; 0x00; 0x05; 0x00];
  [0x00; 0x20; 0x40; 0x00; 0x00; 0x00; 0x00; 0x00; 0x00; 0x00; 0x00; 0x00];
  [0x00; 0x00; 0x00; 0x00; 0x7f; 0x00; 0x00; 0x00; 0x12; 0x00; 0x01; 0x00];
  [0xc0; 0x02; 0x40; 0x00; 0x00; 0x00; 0x00; 0x00; 0x2b; 0x00; 0x00; 0x00];
  [0x00; 0x00; 0x00; 0x00; 0x86; 0x00; 0x00; 0x00; 0x12; 0x00; 0x01; 0x00];
  [0x50; 0x04; 0x40; 0x00; 0x00; 0x00; 0x00; 0x00; 0x08; 0x00; 0x00; 0x00];
  [0x00; 0x00; 0x00; 0x00; 0x8f; 0x00; 0x00; 0x00; 0x12; 0x00; 0x01; 0x00];
  [0x70; 0x04; 0x40; 0x00; 0x00; 0x00; 0x00; 0x00; 0x08; 0x00; 0x00; 0x00];
  [0x00; 0x00; 0x00; 0x00; 0x00; 0x63; 0x61; 0x74; 0x2e; 0x63; 0x00; 0x73];
  [0x74; 0x61; 0x72; 0x74; 0x5f; 0x6d; 0x61; 0x69; 0x6e; 0x00; 0x6c; 0x69];
  [0x62; 0x63; 0x2e; 0x63; 0x00; 0x5f; 0x5f; 0x47; 0x4e; 0x55; 0x5f; 0x45];
  [0x48; 0x5f; 0x46; 0x52; 0x41; 0x4d; 0x45; 0x5f; 0x48; 0x44; 0x52; 0x00];
  [0x73; 0x74; 0x72; 0x63; 0x70; 0x79; 0x00; 0x6d; 0x65; 0x6d; 0x63; 0x70];
  [0x79; 0x00; 0x73; 0x79; 0x73; 0x5f; 0x73; 0x70; 0x61; 0x77; 0x6e; 0x32];
  [0x00; 0x73; 0x79; 0x73; 0x5f; 0x64; 0x75; 0x70; 0x32; 0x00; 0x5f; 0x5f];
  [0x62; 0x73; 0x73; 0x5f; 0x73; 0x74; 0x61; 0x72; 0x74; 0x00; 0x6d; 0x65];
  [0x6d; 0x73; 0x65; 0x74; 0x00; 0x73; 0x74; 0x72; 0x63; 0x6d; 0x70; 0x00];
  [0x73; 0x79; 0x73; 0x5f; 0x67; 0x65; 0x74; 0x63; 0x77; 0x64; 0x00; 0x5f];
  [0x65; 0x64; 0x61; 0x74; 0x61; 0x00; 0x5f; 0x65; 0x6e; 0x64; 0x00; 0x73];
  [0x74; 0x72; 0x6c; 0x65; 0x6e; 0x00; 0x73; 0x79; 0x73; 0x5f; 0x70; 0x69];
  [0x70; 0x65; 0x00; 0x73; 0x79; 0x73; 0x5f; 0x63; 0x68; 0x64; 0x69; 0x72];
  [0x00; 0x00; 0x2e; 0x73; 0x79; 0x6d; 0x74; 0x61; 0x62; 0x00; 0x2e; 0x73];
  [0x74; 0x72; 0x74; 0x61; 0x62; 0x00; 0x2e; 0x73; 0x68; 0x73; 0x74; 0x72];
  [0x74; 0x61; 0x62; 0x00; 0x2e; 0x74; 0x65; 0x78; 0x74; 0x00; 0x2e; 0x6e];
  [0x6f; 0x74; 0x65; 0x2e; 0x67; 0x6e; 0x75; 0x2e; 0x70; 0x72; 0x6f; 0x70];
  [0x65; 0x72; 0x74; 0x79; 0x00; 0x2e; 0x72; 0x6f; 0x64; 0x61; 0x74; 0x61];
  [0x00; 0x2e; 0x65; 0x68; 0x5f; 0x66; 0x72; 0x61; 0x6d; 0x65; 0x5f; 0x68];
  [0x64; 0x72; 0x00; 0x2e; 0x65; 0x68; 0x5f; 0x66; 0x72; 0x61; 0x6d; 0x65];
  [0x00; 0x2e; 0x63; 0x6f; 0x6d; 0x6d; 0x65; 0x6e; 0x74; 0x00; 0x00; 0x00];
  [0x00; 0x00; 0x00; 0x00; 0x00; 0x00; 0x00; 0x00; 0x00; 0x00; 0x00; 0x00];
  [0x00; 0x00; 0x00; 0x00; 0x00; 0x00; 0x00; 0x00; 0x00; 0x00; 0x00; 0x00];
  [0x00; 0x00; 0x00; 0x00; 0x00; 0x00; 0x00; 0x00; 0x00; 0x00; 0x00; 0x00];
  [0x00; 0x00; 0x00; 0x00; 0x00; 0x00; 0x00; 0x00; 0x00; 0x00; 0x00; 0x00];
  [0x00; 0x00; 0x00; 0x00; 0x00; 0x00; 0x00; 0x00; 0x00; 0x00; 0x00; 0x00];
  [0x00; 0x00; 0x00; 0x00; 0x1b; 0x00; 0x00; 0x00; 0x01; 0x00; 0x00; 0x00];
  [0x06; 0x00; 0x00; 0x00; 0x00; 0x00; 0x00; 0x00; 0xa0; 0x01; 0x40; 0x00];
  [0x00; 0x00; 0x00; 0x00; 0xa0; 0x01; 0x00; 0x00; 0x00; 0x00; 0x00; 0x00];
  [0xe8; 0x02; 0x00; 0x00; 0x00; 0x00; 0x00; 0x00; 0x00; 0x00; 0x00; 0x00];
  [0x00; 0x00; 0x00; 0x00; 0x20; 0x00; 0x00; 0x00; 0x00; 0x00; 0x00; 0x00];
  [0x00; 0x00; 0x00; 0x00; 0x00; 0x00; 0x00; 0x00; 0x21; 0x00; 0x00; 0x00];
  [0x07; 0x00; 0x00; 0x00; 0x02; 0x00; 0x00; 0x00; 0x00; 0x00; 0x00; 0x00];
  [0x00; 0x10; 0x40; 0x00; 0x00; 0x00; 0x00; 0x00; 0x00; 0x10; 0x00; 0x00];
  [0x00; 0x00; 0x00; 0x00; 0x30; 0x00; 0x00; 0x00; 0x00; 0x00; 0x00; 0x00];
  [0x00; 0x00; 0x00; 0x00; 0x00; 0x00; 0x00; 0x00; 0x08; 0x00; 0x00; 0x00];
  [0x00; 0x00; 0x00; 0x00; 0x00; 0x00; 0x00; 0x00; 0x00; 0x00; 0x00; 0x00];
  [0x34; 0x00; 0x00; 0x00; 0x01; 0x00; 0x00; 0x00; 0x32; 0x00; 0x00; 0x00];
  [0x00; 0x00; 0x00; 0x00; 0x30; 0x10; 0x40; 0x00; 0x00; 0x00; 0x00; 0x00];
  [0x30; 0x10; 0x00; 0x00; 0x00; 0x00; 0x00; 0x00; 0x25; 0x00; 0x00; 0x00];
  [0x00; 0x00; 0x00; 0x00; 0x00; 0x00; 0x00; 0x00; 0x00; 0x00; 0x00; 0x00];
  [0x01; 0x00; 0x00; 0x00; 0x00; 0x00; 0x00; 0x00; 0x01; 0x00; 0x00; 0x00];
  [0x00; 0x00; 0x00; 0x00; 0x3c; 0x00; 0x00; 0x00; 0x01; 0x00; 0x00; 0x00];
  [0x02; 0x00; 0x00; 0x00; 0x00; 0x00; 0x00; 0x00; 0x58; 0x10; 0x40; 0x00];
  [0x00; 0x00; 0x00; 0x00; 0x58; 0x10; 0x00; 0x00; 0x00; 0x00; 0x00; 0x00];
  [0x6c; 0x00; 0x00; 0x00; 0x00; 0x00; 0x00; 0x00; 0x00; 0x00; 0x00; 0x00];
  [0x00; 0x00; 0x00; 0x00; 0x04; 0x00; 0x00; 0x00; 0x00; 0x00; 0x00; 0x00];
  [0x00; 0x00; 0x00; 0x00; 0x00; 0x00; 0x00; 0x00; 0x4a; 0x00; 0x00; 0x00];
  [0x01; 0x00; 0x00; 0x00; 0x02; 0x00; 0x00; 0x00; 0x00; 0x00; 0x00; 0x00];
  [0xc8; 0x10; 0x40; 0x00; 0x00; 0x00; 0x00; 0x00; 0xc8; 0x10; 0x00; 0x00];
  [0x00; 0x00; 0x00; 0x00; 0x18; 0x01; 0x00; 0x00; 0x00; 0x00; 0x00; 0x00];
  [0x00; 0x00; 0x00; 0x00; 0x00; 0x00; 0x00; 0x00; 0x08; 0x00; 0x00; 0x00];
  [0x00; 0x00; 0x00; 0x00; 0x00; 0x00; 0x00; 0x00; 0x00; 0x00; 0x00; 0x00];
  [0x54; 0x00; 0x00; 0x00; 0x01; 0x00; 0x00; 0x00; 0x30; 0x00; 0x00; 0x00];
  [0x00; 0x00; 0x00; 0x00; 0x00; 0x00; 0x00; 0x00; 0x00; 0x00; 0x00; 0x00];
  [0xe0; 0x11; 0x00; 0x00; 0x00; 0x00; 0x00; 0x00; 0x2e; 0x00; 0x00; 0x00];
  [0x00; 0x00; 0x00; 0x00; 0x00; 0x00; 0x00; 0x00; 0x00; 0x00; 0x00; 0x00];
  [0x01; 0x00; 0x00; 0x00; 0x00; 0x00; 0x00; 0x00; 0x01; 0x00; 0x00; 0x00];
  [0x00; 0x00; 0x00; 0x00; 0x01; 0x00; 0x00; 0x00; 0x02; 0x00; 0x00; 0x00];
  [0x00; 0x00; 0x00; 0x00; 0x00; 0x00; 0x00; 0x00; 0x00; 0x00; 0x00; 0x00];
  [0x00; 0x00; 0x00; 0x00; 0x10; 0x12; 0x00; 0x00; 0x00; 0x00; 0x00; 0x00];
  [0xe0; 0x01; 0x00; 0x00; 0x00; 0x00; 0x00; 0x00; 0x08; 0x00; 0x00; 0x00];
  [0x06; 0x00; 0x00; 0x00; 0x08; 0x00; 0x00; 0x00; 0x00; 0x00; 0x00; 0x00];
  [0x18; 0x00; 0x00; 0x00; 0x00; 0x00; 0x00; 0x00; 0x09; 0x00; 0x00; 0x00];
  [0x03; 0x00; 0x00; 0x00; 0x00; 0x00; 0x00; 0x00; 0x00; 0x00; 0x00; 0x00];
  [0x00; 0x00; 0x00; 0x00; 0x00; 0x00; 0x00; 0x00; 0xf0; 0x13; 0x00; 0x00];
  [0x00; 0x00; 0x00; 0x00; 0x99; 0x00; 0x00; 0x00; 0x00; 0x00; 0x00; 0x00];
  [0x00; 0x00; 0x00; 0x00; 0x00; 0x00; 0x00; 0x00; 0x01; 0x00; 0x00; 0x00];
  [0x00; 0x00; 0x00; 0x00; 0x00; 0x00; 0x00; 0x00; 0x00; 0x00; 0x00; 0x00];
  [0x11; 0x00; 0x00; 0x00; 0x03; 0x00; 0x00; 0x00; 0x00; 0x00; 0x00; 0x00];
  [0x00; 0x00; 0x00; 0x00; 0x00; 0x00; 0x00; 0x00; 0x00; 0x00; 0x00; 0x00];
  [0x89; 0x14; 0x00; 0x00; 0x00; 0x00; 0x00; 0x00; 0x5d; 0x00; 0x00; 0x00];
  [0x00; 0x00; 0x00; 0x00; 0x00; 0x00; 0x00; 0x00; 0x00; 0x00; 0x00; 0x00];
  [0x01; 0x00; 0x00; 0x00; 0x00; 0x00; 0x00; 0x00; 0x00; 0x00; 0x00; 0x00];
  [0x00; 0x00; 0x00; 0x00]].
Definition user_image_cat_len : Z := 5992.

Definition user_image_fuzz : list Z := concat [
  [0x7f; 0x45; 0x4c; 0x46; 0x02; 0x01; 0x01; 0x00; 0x00; 0x00; 0x00; 0x00];
  [0x00; 0x00; 0x00; 0x00; 0x02; 0x00; 0x3e; 0x00; 0x01; 0x00; 0x00; 0x00];
  [0x80; 0x02; 0x40; 0x00; 0x00; 0x00; 0x00; 0x00; 0x40; 0x00; 0x00; 0x00];
  [0x00; 0x00; 0x00; 0x00; 0x70; 0x23; 0x00; 0x00; 0x00; 0x00; 0x00; 0x00];
  [0x00; 0x00; 0x00; 0x00; 0x40; 0x00; 0x38; 0x00; 0x07; 0x00; 0x40; 0x00];
  [0x0b; 0x00; 0x0a; 0x00; 0x01; 0x00; 0x00; 0x00; 0x05; 0x00; 0x00; 0x00];
  [0x00; 0x00; 0x00; 0x00; 0x00; 0x00; 0x00; 0x00; 0x00; 0x00; 0x40; 0x00];
  [0x00; 0x00; 0x00; 0x00; 0x00; 0x00; 0x40; 0x00; 0x00; 0x00; 0x00; 0x00];
  [0xc8; 0x06; 0x00; 0x00; 0x00; 0x00; 0x00; 0x00; 0xc8; 0x06; 0x00; 0x00];
  [0x00; 0x00; 0x00; 0x00; 0x00; 0x10; 0x00; 0x00; 0x00; 0x00; 0x00; 0x00];
  [0x01; 0x00; 0x00; 0x00; 0x04; 0x00; 0x00; 0x00; 0x00; 0x10; 0x00; 0x00];
  [0x00; 0x00; 0x00; 0x00; 0x00; 0x10; 0x40; 0x00; 0x00; 0x00; 0x00; 0x00];
  [0x00; 0x10; 0x40; 0x00; 0x00; 0x00; 0x00; 0x00; 0x08; 0x02; 0x00; 0x00];
  [0x00; 0x00; 0x00; 0x00; 0x08; 0x02; 0x00; 0x00; 0x00; 0x00; 0x00; 0x00];
  [0x00; 0x10; 0x00; 0x00; 0x00; 0x00; 0x00; 0x00; 0x01; 0x00; 0x00; 0x00];
  [0x06; 0x00; 0x00; 0x00; 0x00; 0x20; 0x00; 0x00; 0x00; 0x00; 0x00; 0x00];
  [0x00; 0x20; 0x40; 0x00; 0x00; 0x00; 0x00; 0x00; 0x00; 0x20; 0x40; 0x00];
  [0x00; 0x00; 0x00; 0x00; 0x1c; 0x00; 0x00; 0x00; 0x00; 0x00; 0x00; 0x00];
  [0x1c; 0x00; 0x00; 0x00; 0x00; 0x00; 0x00; 0x00; 0x00; 0x10; 0x00; 0x00];
  [0x00; 0x00; 0x00; 0x00; 0x04; 0x00; 0x00; 0x00; 0x04; 0x00; 0x00; 0x00];
  [0x00; 0x10; 0x00; 0x00; 0x00; 0x00; 0x00; 0x00; 0x00; 0x10; 0x40; 0x00];
  [0x00; 0x00; 0x00; 0x00; 0x00; 0x10; 0x40; 0x00; 0x00; 0x00; 0x00; 0x00];
  [0x30; 0x00; 0x00; 0x00; 0x00; 0x00; 0x00; 0x00; 0x30; 0x00; 0x00; 0x00];
  [0x00; 0x00; 0x00; 0x00; 0x08; 0x00; 0x00; 0x00; 0x00; 0x00; 0x00; 0x00];
  [0x53; 0xe5; 0x74; 0x64; 0x04; 0x00; 0x00; 0x00; 0x00; 0x10; 0x00; 0x00];
  [0x00; 0x00; 0x00; 0x00; 0x00; 0x10; 0x40; 0x00; 0x00; 0x00; 0x00; 0x00];
  [0x00; 0x10; 0x40; 0x00; 0x00; 0x00; 0x00; 0x00; 0x30; 0x00; 0x00; 0x00];
  [0x00; 0x00; 0x00; 0x00; 0x30; 0x00; 0x00; 0x00; 0x00; 0x00; 0x00; 0x00];
  [0x08; 0x00; 0x00; 0x00; 0x00; 0x00; 0x00; 0x00; 0x50; 0xe5; 0x74; 0x64];
  [0x04; 0x00; 0x00; 0x00; 0x88; 0x10; 0x00; 0x00; 0x00; 0x00; 0x00; 0x00];
  [0x88; 0x10; 0x40; 0x00; 0x00; 0x00; 0x00; 0x00; 0x88; 0x10; 0x40; 0x00];
  [0x00; 0x00; 0x00; 0x00; 0x6c; 0x00; 0x00; 0x00; 0x00; 0x00; 0x00; 0x00];
  [0x6c; 0x00; 0x00; 0x00; 0x00; 0x00; 0x00; 0x00; 0x04; 0x00; 0x00; 0x00];
  [0x00; 0x00; 0x00; 0x00; 0x51; 0xe5; 0x74; 0x64; 0x06; 0x00; 0x00; 0x00];
  [0x00; 0x00; 0x00; 0x00; 0x00; 0x00; 0x00; 0x00; 0x00; 0x00; 0x00; 0x00];
  [0x00; 0x00; 0x00; 0x00; 0x00; 0x00; 0x00; 0x00; 0x00; 0x00; 0x00; 0x00];
  [0x00; 0x00; 0x00; 0x00; 0x00; 0x00; 0x00; 0x00; 0x00; 0x00; 0x00; 0x00];
  [0x00; 0x00; 0x00; 0x00; 0x10; 0x00; 0x00; 0x00; 0x00; 0x00; 0x00; 0x00];
  [0x00; 0x00; 0x00; 0x00; 0x00; 0x00; 0x00; 0x00; 0x00; 0x00; 0x00; 0x00];
  [0x00; 0x00; 0x00; 0x00; 0x00; 0x00; 0x00; 0x00; 0x00; 0x00; 0x00; 0x00];
  [0x00; 0x00; 0x00; 0x00; 0x00; 0x00; 0x00; 0x00; 0x00; 0x00; 0x00; 0x00];
  [0x00; 0x00; 0x00; 0x00; 0x00; 0x00; 0x00; 0x00; 0x00; 0x00; 0x00; 0x00];
  [0x00; 0x00; 0x00; 0x00; 0x00; 0x00; 0x00; 0x00; 0x69; 0x05; 0x0e; 0x1e];
  [0x00; 0x00; 0x0d; 0x66; 0x19; 0x00; 0x05; 0x5f; 0xf3; 0x6e; 0x3c; 0x69];
  [0xc8; 0x0d; 0x66; 0x19; 0x00; 0x81; 0xc1; 0x5f; 0xf3; 0x6e; 0x3c; 0xa8];
  [0x01; 0x75; 0x51; 0x48; 0x89; 0xc8; 0x69; 0xc9; 0x0d; 0x66; 0x19; 0x00];
  [0x48; 0xc1; 0xe0; 0x20; 0x8d; 0xb1; 0x5f; 0xf3; 0x6e; 0x3c; 0x48; 0x89];
  [0xf1; 0x48; 0x09; 0xc6; 0x48; 0xb8; 0x01; 0x01; 0x01; 0x01; 0x02; 0x00];
  [0x04; 0x00; 0x48; 0x89; 0xf2; 0x89; 0x0d; 0xcd; 0x1d; 0x00; 0x00; 0x48];
  [0xc1; 0xea; 0x0d; 0x48; 0xf7; 0xe2; 0x48; 0xb8; 0x00; 0xe0; 0xbf; 0xff];
  [0x7f; 0x00; 0x00; 0x00; 0x48; 0xc1; 0xea; 0x0c; 0x48; 0x0f; 0xaf; 0xd0];
  [0x48; 0x29; 0xd6; 0x48; 0x8d; 0x86; 0x00; 0x00; 0x40; 0x00; 0xc3; 0x90];
  [0x89; 0x0d; 0xa2; 0x1d; 0x00; 0x00; 0x0f; 0xb7; 0xc1; 0xc3; 0x66; 0x0f];
  [0x1f; 0x44; 0x00; 0x00; 0x48; 0xb8; 0x2f; 0x64; 0x65; 0x76; 0x2f; 0x74];
  [0x74; 0x79; 0x48; 0x83; 0xec; 0x58; 0x31; 0xd2; 0x48; 0x89; 0x44; 0x24];
  [0x07; 0xc6; 0x44; 0x24; 0x0f; 0x00; 0x0f; 0x1f; 0x44; 0x00; 0x00; 0x66];
  [0x66; 0x2e; 0x0f; 0x1f; 0x84; 0x00; 0x00; 0x00; 0x00; 0x00; 0x66; 0x66];
  [0x2e; 0x0f; 0x1f; 0x84; 0x00; 0x00; 0x00; 0x00; 0x00; 0x66; 0x66; 0x2e];
  [0x0f; 0x1f; 0x84; 0x00; 0x00; 0x00; 0x00; 0x00; 0x89; 0xd0; 0x89; 0xd1];
  [0x48; 0x69; 0xc0; 0x4f; 0xec; 0xc4; 0x4e; 0x48; 0xc1; 0xe8; 0x23; 0x6b];
  [0xc0; 0x1a; 0x29; 0xc1; 0x8d; 0x41; 0x41; 0x88; 0x44; 0x14; 0x10; 0x48];
  [0x83; 0xc2; 0x01; 0x48; 0x83; 0xfa; 0x40; 0x75; 0xdb; 0x45; 0x31; 0xc0];
  [0x41; 0xb9; 0x04; 0x00; 0x00; 0x00; 0x66; 0x90; 0x69; 0x05; 0x1e; 0x1d];
  [0x00; 0x00; 0x0d; 0x66; 0x19; 0x00; 0x8d; 0x88; 0x5f; 0xf3; 0x6e; 0x3c];
  [0x48; 0x89; 0xc8; 0x69; 0xf1; 0x0d; 0x66; 0x19; 0x00; 0x48; 0x69; 0xc9];
  [0x25; 0x49; 0x92; 0x24; 0x89; 0xc2; 0x81; 0xc6; 0x5f; 0xf3; 0x6e; 0x3c];
  [0x48; 0xc1; 0xe9; 0x20; 0x41; 0x89; 0xf2; 0x89; 0x35; 0xf3; 0x1c; 0x00];
  [0x00; 0x29; 0xca; 0x41; 0x83; 0xe2; 0x07; 0xd1; 0xea; 0x01; 0xca; 0xc1];
  [0xea; 0x02; 0x8d; 0x0c; 0xd5; 0x00; 0x00; 0x00; 0x00; 0x29; 0xd1; 0x29];
  [0xc8; 0x83; 0xf8; 0x06; 0x0f; 0x87; 0x8d; 0x01; 0x00; 0x00; 0xff; 0x24];
  [0xc5; 0x50; 0x10; 0x40; 0x00; 0x0f; 0x1f; 0x00; 0x69; 0xf6; 0x0d; 0x66];
  [0x19; 0x00; 0x81; 0xc6; 0x5f; 0xf3; 0x6e; 0x3c; 0x89; 0x35; 0xb6; 0x1c];
  [0x00; 0x00; 0x83; 0xe6; 0x1f; 0x75; 0x29; 0x45; 0x31; 0xd2; 0xbe; 0x00];
  [0x20; 0x40; 0x00; 0xbf; 0x30; 0x10; 0x40; 0x00; 0x31; 0xd2; 0xb8; 0x07];
  [0x00; 0x00; 0x00; 0x0f; 0x05; 0x48; 0x85; 0xc0; 0x78; 0x0e; 0xb8; 0x0a];
  [0x00; 0x00; 0x00; 0x48; 0x89; 0xd7; 0x48; 0x89; 0xd6; 0x0f; 0x05; 0x90];
  [0x41; 0xf6; 0xc0; 0x1f; 0x75; 0x5a; 0x31; 0xff; 0xb8; 0x02; 0x00; 0x00];
  [0x00; 0x48; 0x89; 0xfe; 0x48; 0x89; 0xfa; 0x0f; 0x05; 0x41; 0x83; 0xc0];
  [0x01; 0xe9; 0x42; 0xff; 0xff; 0xff; 0x66; 0x90; 0xe8; 0x4b; 0xfe; 0xff];
  [0xff; 0x41; 0x8d; 0x52; 0x01; 0x48; 0x89; 0xc6; 0x69; 0x05; 0x52; 0x1c];
  [0x00; 0x00; 0x0d; 0x66; 0x19; 0x00; 0x05; 0x5f; 0xf3; 0x6e; 0x3c; 0x89];
  [0x05; 0x47; 0x1c; 0x00; 0x00; 0x83; 0xe0; 0x1f; 0x48; 0x8d; 0x78; 0x03];
  [0xb8; 0x03; 0x00; 0x00; 0x00; 0x0f; 0x05; 0x41; 0xf6; 0xc0; 0x1f; 0x74];
  [0xb1; 0x66; 0x66; 0x2e; 0x0f; 0x1f; 0x84; 0x00; 0x00; 0x00; 0x00; 0x00];
  [0x41; 0x83; 0xc0; 0x01; 0x41; 0x81; 0xf8; 0xc8; 0x00; 0x00; 0x00; 0x0f];
  [0x85; 0xef; 0xfe; 0xff; 0xff; 0xbf; 0x3a; 0x10; 0x40; 0x00; 0xe8; 0xf5];
  [0x00; 0x00; 0x00; 0xbf; 0x01; 0x00; 0x00; 0x00; 0xbe; 0x3a; 0x10; 0x40];
  [0x00; 0x48; 0x89; 0xc2; 0xb8; 0x04; 0x00; 0x00; 0x00; 0x0f; 0x05; 0x31];
  [0xff; 0xb8; 0x01; 0x00; 0x00; 0x00; 0x48; 0x89; 0xfe; 0x48; 0x89; 0xfa];
  [0x0f; 0x05; 0x48; 0x83; 0xc4; 0x58; 0xc3; 0x0f; 0x1f; 0x44; 0x00; 0x00];
  [0x69; 0xf6; 0x0d; 0x66; 0x19; 0x00; 0xb8; 0x06; 0x00; 0x00; 0x00; 0x81];
  [0xc6; 0x5f; 0xf3; 0x6e; 0x3c; 0x89; 0x35; 0xc9; 0x1b; 0x00; 0x00; 0x83];
  [0xe6; 0x1f; 0x48; 0x8d; 0x7e; 0x03; 0x31; 0xf6; 0x48; 0x89; 0xf2; 0x0f];
  [0x05; 0xe9; 0x2e; 0xff; 0xff; 0xff; 0x66; 0x0f; 0x1f; 0x44; 0x00; 0x00];
  [0xe8; 0x93; 0xfd; 0xff; 0xff; 0x31; 0xf6; 0x48; 0x89; 0xc7; 0x48; 0x89];
  [0xf2; 0xb8; 0x05; 0x00; 0x00; 0x00; 0x0f; 0x05; 0xe9; 0x0f; 0xff; 0xff];
  [0xff; 0x0f; 0x1f; 0x80; 0x00; 0x00; 0x00; 0x00; 0x31; 0xf6; 0xb8; 0x05];
  [0x00; 0x00; 0x00; 0x48; 0x8d; 0x7c; 0x24; 0x07; 0x48; 0x89; 0xf2; 0x0f];
  [0x05; 0x48; 0x89; 0xc7; 0x48; 0x85; 0xc0; 0x0f; 0x88; 0xeb; 0xfe; 0xff];
  [0xff; 0xb8; 0x06; 0x00; 0x00; 0x00; 0x0f; 0x05; 0xe9; 0xdf; 0xfe; 0xff];
  [0xff; 0x0f; 0x1f; 0x80; 0x00; 0x00; 0x00; 0x00; 0xe8; 0x43; 0xfd; 0xff];
  [0xff; 0xbf; 0x01; 0x00; 0x00; 0x00; 0x41; 0x8d; 0x52; 0x01; 0x48; 0x89];
  [0xc6; 0x4c; 0x89; 0xc8; 0x0f; 0x05; 0xe9; 0xbd; 0xfe; 0xff; 0xff; 0x41];
  [0x8d; 0x52; 0x01; 0xbf; 0x01; 0x00; 0x00; 0x00; 0x4c; 0x89; 0xc8; 0x48];
  [0x8d; 0x74; 0x24; 0x10; 0x0f; 0x05; 0xe9; 0xa5; 0xfe; 0xff; 0xff; 0x66];
  [0x2e; 0x0f; 0x1f; 0x84; 0x00; 0x00; 0x00; 0x00; 0x00; 0x66; 0x2e; 0x0f];
  [0x1f; 0x84; 0x00; 0x00; 0x00; 0x00; 0x00; 0x90; 0x31; 0xc0; 0x48; 0x85];
  [0xff; 0x75; 0x09; 0xc3; 0x0f; 0x1f; 0x84; 0x00; 0x00; 0x00; 0x00; 0x00];
  [0x80; 0x3f; 0x00; 0x74; 0xf2; 0x66; 0x66; 0x2e; 0x0f; 0x1f; 0x84; 0x00];
  [0x00; 0x00; 0x00; 0x00; 0x48; 0x83; 0xc0; 0x01; 0x80; 0x3c; 0x07; 0x00];
  [0x75; 0xf6; 0xc3; 0x0f; 0x1f; 0x44; 0x00; 0x00; 0x48; 0x85; 0xff; 0x74];
  [0x3b; 0x48; 0x85; 0xf6; 0x74; 0x36; 0x0f; 0xb6; 0x07; 0x84; 0xc0; 0x75];
  [0x1b; 0xeb; 0x4e; 0x0f; 0x1f; 0x44; 0x00; 0x00; 0x84; 0xd2; 0x74; 0x17];
  [0x0f; 0xb6; 0x47; 0x01; 0x48; 0x83; 0xc7; 0x01; 0x84; 0xc0; 0x74; 0x30];
  [0x48; 0x83; 0xc6; 0x01; 0x0f; 0xb6; 0x16; 0x38; 0xc2; 0x74; 0xe5; 0x29];
  [0xd0; 0xc3; 0x66; 0x2e; 0x0f; 0x1f; 0x84; 0x00; 0x00; 0x00; 0x00; 0x00];
  [0x31; 0xc0; 0x48; 0x39; 0xf7; 0x74; 0xee; 0x48; 0x83; 0xff; 0x01; 0x19];
  [0xc0; 0x83; 0xc8; 0x01; 0xc3; 0x0f; 0x1f; 0x80; 0x00; 0x00; 0x00; 0x00];
  [0x0f; 0xb6; 0x56; 0x01; 0x31; 0xc0; 0x29; 0xd0; 0xc3; 0x0f; 0xb6; 0x16];
  [0x31; 0xc0; 0x29; 0xd0; 0xc3; 0x0f; 0x1f; 0x80; 0x00; 0x00; 0x00; 0x00];
  [0x48; 0x85; 0xff; 0x74; 0x2f; 0x48; 0x85; 0xf6; 0x74; 0x2a; 0x0f; 0xb6];
  [0x06; 0x48; 0x89; 0xfa; 0x84; 0xc0; 0x74; 0x1d; 0x90; 0x66; 0x66; 0x2e];
  [0x0f; 0x1f; 0x84; 0x00; 0x00; 0x00; 0x00; 0x00; 0x48; 0x83; 0xc6; 0x01];
  [0x88; 0x02; 0x48; 0x83; 0xc2; 0x01; 0x0f; 0xb6; 0x06; 0x84; 0xc0; 0x75];
  [0xef; 0xc6; 0x02; 0x00; 0x48; 0x89; 0xf8; 0xc3; 0x0f; 0x1f; 0x84; 0x00];
  [0x00; 0x00; 0x00; 0x00; 0x48; 0x85; 0xf6; 0x48; 0x89; 0xd1; 0x0f; 0x94];
  [0xc0; 0x48; 0x85; 0xd2; 0x0f; 0x94; 0xc2; 0x08; 0xd0; 0x75; 0x1d; 0x48];
  [0x85; 0xff; 0x74; 0x18; 0x31; 0xc0; 0x66; 0x0f; 0x1f; 0x44; 0x00; 0x00];
  [0x0f; 0xb6; 0x14; 0x06; 0x88; 0x14; 0x07; 0x48; 0x83; 0xc0; 0x01; 0x48];
  [0x39; 0xc8; 0x72; 0xf0; 0x48; 0x89; 0xf8; 0xc3; 0x90; 0x66; 0x66; 0x2e];
  [0x0f; 0x1f; 0x84; 0x00; 0x00; 0x00; 0x00; 0x00; 0x48; 0x85; 0xff; 0x74];
  [0x4d; 0x48; 0x85; 0xd2; 0x74; 0x48; 0xb8; 0x01; 0x00; 0x00; 0x00; 0x40];
  [0x88; 0x37; 0x48; 0x8d; 0x4a; 0xff; 0x48; 0x39; 0xd0; 0x73; 0x37; 0x83];
  [0xe1; 0x01; 0x74; 0x20; 0x40; 0x88; 0x34; 0x07; 0xb8; 0x02; 0x00; 0x00];
  [0x00; 0x48; 0x39; 0xd0; 0x73; 0x24; 0x0f; 0x1f; 0x80; 0x00; 0x00; 0x00];
  [0x00; 0x66; 0x66; 0x2e; 0x0f; 0x1f; 0x84; 0x00; 0x00; 0x00; 0x00; 0x00];
  [0x40; 0x88; 0x34; 0x07; 0x40; 0x88; 0x74; 0x07; 0x01; 0x48; 0x83; 0xc0];
  [0x02; 0x48; 0x39; 0xd0; 0x72; 0xee; 0x48; 0x89; 0xf8; 0xc3; 0x66; 0x2e];
  [0x0f; 0x1f; 0x84; 0x00; 0x00; 0x00; 0x00; 0x00; 0x48; 0x63; 0xff; 0x48];
  [0x63; 0xf6; 0xb8; 0x0b; 0x00; 0x00; 0x00; 0x0f; 0x05; 0xc3; 0x66; 0x90];
  [0xb8; 0x0c; 0x00; 0x00; 0x00; 0x0f; 0x05; 0xc3; 0x0f; 0x1f; 0x84; 0x00];
  [0x00; 0x00; 0x00; 0x00; 0x49; 0x89; 0xca; 0xb8; 0x07; 0x00; 0x00; 0x00];
  [0x0f; 0x05; 0xc3; 0x0f; 0x1f; 0x44; 0x00; 0x00; 0xb8; 0x0d; 0x00; 0x00];
  [0x00; 0x0f; 0x05; 0xc3; 0x0f; 0x1f; 0x84; 0x00; 0x00; 0x00; 0x00; 0x00];
  [0xb8; 0x0e; 0x00; 0x00; 0x00; 0x0f; 0x05; 0xc3; 0x00; 0x00; 0x00; 0x00];
  [0x00; 0x00; 0x00; 0x00; 0x00; 0x00; 0x00; 0x00; 0x00; 0x00; 0x00; 0x00];
  [0x00; 0x00; 0x00; 0x00; 0x00; 0x00; 0x00; 0x00; 0x00; 0x00; 0x00; 0x00];
  [0x00; 0x00; 0x00; 0x00; 0x00; 0x00; 0x00; 0x00; 0x00; 0x00; 0x00; 0x00];
  [0x00; 0x00; 0x00; 0x00; 0x00; 0x00; 0x00; 0x00; 0x00; 0x00; 0x00; 0x00];
  [0x00; 0x00; 0x00; 0x00; 0x00; 0x00; 0x00; 0x00; 0x00; 0x00; 0x00; 0x00];
  [0x00; 0x00; 0x00; 0x00; 0x00; 0x00; 0x00; 0x00; 0x00; 0x00; 0x00; 0x00];
  [0x00; 0x00; 0x00; 0x00; 0x00; 0x00; 0x00; 0x00; 0x00; 0x00; 0x00; 0x00];
  [0x00; 0x00; 0x00; 0x00; 0x00; 0x00; 0x00; 0x00; 0x00; 0x00; 0x00; 0x00];
  [0x00; 0x00; 0x00; 0x00; 0x00; 0x00; 0x00; 0x00; 0x00; 0x00; 0x00; 0x00];
  [0x00; 0x00; 0x00; 0x00; 0x00; 0x00; 0x00; 0x00; 0x00; 0x00; 0x00; 0x00];
  [0x00; 0x00; 0x00; 0x00; 0x00; 0x00; 0x00; 0x00; 0x00; 0x00; 0x00; 0x00];
  [0x00; 0x00; 0x00; 0x00; 0x00; 0x00; 0x00; 0x00; 0x00; 0x00; 0x00; 0x00];
  [0x00; 0x00; 0x00; 0x00; 0x00; 0x00; 0x00; 0x00; 0x00; 0x00; 0x00; 0x00];
  [0x00; 0x00; 0x00; 0x00; 0x00; 0x00; 0x00; 0x00; 0x00; 0x00; 0x00; 0x00];
  [0x00; 0x00; 0x00; 0x00; 0x00; 0x00; 0x00; 0x00; 0x00; 0x00; 0x00; 0x00];
  [0x00; 0x00; 0x00; 0x00; 0x00; 0x00; 0x00; 0x00; 0x00; 0x00; 0x00; 0x00];
  [0x00; 0x00; 0x00; 0x00; 0x00; 0x00; 0x00; 0x00; 0x00; 0x00; 0x00; 0x00];
  [0x00; 0x00; 0x00; 0x00; 0x00; 0x00; 0x00; 0x00; 0x00; 0x00; 0x00; 0x00];
  [0x00; 0x00; 0x00; 0x00; 0x00; 0x00; 0x00; 0x00; 0x00; 0x00; 0x00; 0x00];
  [0x00; 0x00; 0x00; 0x00; 0x00; 0x00; 0x00; 0x00; 0x00; 0x00; 0x00; 0x00];
  [0x00; 0x00; 0x00; 0x00; 0x00; 0x00; 0x00; 0x00; 0x00; 0x00; 0x00; 0x00];
  [0x00; 0x00; 0x00; 0x00; 0x00; 0x00; 0x00; 0x00; 0x00; 0x00; 0x00; 0x00];
  [0x00; 0x00; 0x00; 0x00; 0x00; 0x00; 0x00; 0x00; 0x00; 0x00; 0x00; 0x00];
  [0x00; 0x00; 0x00; 0x00; 0x00; 0x00; 0x00; 0x00; 0x00; 0x00; 0x00; 0x00];
  [0x00; 0x00; 0x00; 0x00; 0x00; 0x00; 0x00; 0x00; 0x00; 0x00; 0x00; 0x00];
  [0x00; 0x00; 0x00; 0x00; 0x00; 0x00; 0x00; 0x00; 0x00; 0x00; 0x00; 0x00];
  [0x00; 0x00; 0x00; 0x00; 0x00; 0x00; 0x00; 0x00; 0x00; 0x00; 0x00; 0x00];
  [0x00; 0x00; 0x00; 0x00; 0x00; 0x00; 0x00; 0x00; 0x00; 0x00; 0x00; 0x00];
  [0x00; 0x00; 0x00; 0x00; 0x00; 0x00; 0x00; 0x00; 0x00; 0x00; 0x00; 0x00];
  [0x00; 0x00; 0x00; 0x00; 0x00; 0x00; 0x00; 0x00; 0x00; 0x00; 0x00; 0x00];
  [0x00; 0x00; 0x00; 0x00; 0x00; 0x00; 0x00; 0x00; 0x00; 0x00; 0x00; 0x00];
  [0x00; 0x00; 0x00; 0x00; 0x00; 0x00; 0x00; 0x00; 0x00; 0x00; 0x00; 0x00];
  [0x00; 0x00; 0x00; 0x00; 0x00; 0x00; 0x00; 0x00; 0x00; 0x00; 0x00; 0x00];
  [0x00; 0x00; 0x00; 0x00; 0x00; 0x00; 0x00; 0x00; 0x00; 0x00; 0x00; 0x00];
  [0x00; 0x00; 0x00; 0x00; 0x00; 0x00; 0x00; 0x00; 0x00; 0x00; 0x00; 0x00];
  [0x00; 0x00; 0x00; 0x00; 0x00; 0x00; 0x00; 0x00; 0x00; 0x00; 0x00; 0x00];
  [0x00; 0x00; 0x00; 0x00; 0x00; 0x00; 0x00; 0x00; 0x00; 0x00; 0x00; 0x00];
  [0x00; 0x00; 0x00; 0x00; 0x00; 0x00; 0x00; 0x00; 0x00; 0x00; 0x00; 0x00];
  [0x00; 0x00; 0x00; 0x00; 0x00; 0x00; 0x00; 0x00; 0x00; 0x00; 0x00; 0x00];
  [0x00; 0x00; 0x00; 0x00; 0x00; 0x00; 0x00; 0x00; 0x00; 0x00; 0x00; 0x00];
  [0x00; 0x00; 0x00; 0x00; 0x00; 0x00; 0x00; 0x00; 0x00; 0x00; 0x00; 0x00];
  [0x00; 0x00; 0x00; 0x00; 0x00; 0x00; 0x00; 0x00; 0x00; 0x00; 0x00; 0x00];
  [0x00; 0x00; 0x00; 0x00; 0x00; 0x00; 0x00; 0x00; 0x00; 0x00; 0x00; 0x00];
  [0x00; 0x00; 0x00; 0x00; 0x00; 0x00; 0x00; 0x00; 0x00; 0x00; 0x00; 0x00];
  [0x00; 0x00; 0x00; 0x00; 0x00; 0x00; 0x00; 0x00; 0x00; 0x00; 0x00; 0x00];
  [0x00; 0x00; 0x00; 0x00; 0x00; 0x00; 0x00; 0x00; 0x00; 0x00; 0x00; 0x00];
  [0x00; 0x00; 0x00; 0x00; 0x00; 0x00; 0x00; 0x00; 0x00; 0x00; 0x00; 0x00];
  [0x00; 0x00; 0x00; 0x00; 0x00; 0x00; 0x00; 0x00; 0x00; 0x00; 0x00; 0x00];
  [0x00; 0x00; 0x00; 0x00; 0x00; 0x00; 0x00; 0x00; 0x00; 0x00; 0x00; 0x00];
  [0x00; 0x00; 0x00; 0x00; 0x00; 0x00; 0x00; 0x00; 0x00; 0x00; 0x00; 0x00];
  [0x00; 0x00; 0x00; 0x00; 0x00; 0x00; 0x00; 0x00; 0x00; 0x00; 0x00; 0x00];
  [0x00; 0x00; 0x00; 0x00; 0x00; 0x00; 0x00; 0x00; 0x00; 0x00; 0x00; 0x00];
  [0x00; 0x00; 0x00; 0x00; 0x00; 0x00; 0x00; 0x00; 0x00; 0x00; 0x00; 0x00];
  [0x00; 0x00; 0x00; 0x00; 0x00; 0x00; 0x00; 0x00; 0x00; 0x00; 0x00; 0x00];
  [0x00; 0x00; 0x00; 0x00; 0x00; 0x00; 0x00; 0x00; 0x00; 0x00; 0x00; 0x00];
  [0x00; 0x00; 0x00; 0x00; 0x00; 0x00; 0x00; 0x00; 0x00; 0x00; 0x00; 0x00];
  [0x00; 0x00; 0x00; 0x00; 0x00; 0x00; 0x00; 0x00; 0x00; 0x00; 0x00; 0x00];
  [0x00; 0x00; 0x00; 0x00; 0x00; 0x00; 0x00; 0x00; 0x00; 0x00; 0x00; 0x00];
  [0x00; 0x00; 0x00; 0x00; 0x00; 0x00; 0x00; 0x00; 0x00; 0x00; 0x00; 0x00];
  [0x00; 0x00; 0x00; 0x00; 0x00; 0x00; 0x00; 0x00; 0x00; 0x00; 0x00; 0x00];
  [0x00; 0x00; 0x00; 0x00; 0x00; 0x00; 0x00; 0x00; 0x00; 0x00; 0x00; 0x00];
  [0x00; 0x00; 0x00; 0x00; 0x00; 0x00; 0x00; 0x00; 0x00; 0x00; 0x00; 0x00];
  [0x00; 0x00; 0x00; 0x00; 0x00; 0x00; 0x00; 0x00; 0x00; 0x00; 0x00; 0x00];
  [0x00; 0x00; 0x00; 0x00; 0x00; 0x00; 0x00; 0x00; 0x00; 0x00; 0x00; 0x00];
  [0x00; 0x00; 0x00; 0x00; 0x00; 0x00; 0x00; 0x00; 0x00; 0x00; 0x00; 0x00];
  [0x00; 0x00; 0x00; 0x00; 0x00; 0x00; 0x00; 0x00; 0x00; 0x00; 0x00; 0x00];
  [0x00; 0x00; 0x00; 0x00; 0x00; 0x00; 0x00; 0x00; 0x00; 0x00; 0x00; 0x00];
  [0x00; 0x00; 0x00; 0x00; 0x00; 0x00; 0x00; 0x00; 0x00; 0x00; 0x00; 0x00];
  [0x00; 0x00; 0x00; 0x00; 0x00; 0x00; 0x00; 0x00; 0x00; 0x00; 0x00; 0x00];
  [0x00; 0x00; 0x00; 0x00; 0x00; 0x00; 0x00; 0x00; 0x00; 0x00; 0x00; 0x00];
  [0x00; 0x00; 0x00; 0x00; 0x00; 0x00; 0x00; 0x00; 0x00; 0x00; 0x00; 0x00];
  [0x00; 0x00; 0x00; 0x00; 0x00; 0x00; 0x00; 0x00; 0x00; 0x00; 0x00; 0x00];
  [0x00; 0x00; 0x00; 0x00; 0x00; 0x00; 0x00; 0x00; 0x00; 0x00; 0x00; 0x00];
  [0x00; 0x00; 0x00; 0x00; 0x00; 0x00; 0x00; 0x00; 0x00; 0x00; 0x00; 0x00];
  [0x00; 0x00; 0x00; 0x00; 0x00; 0x00; 0x00; 0x00; 0x00; 0x00; 0x00; 0x00];
  [0x00; 0x00; 0x00; 0x00; 0x00; 0x00; 0x00; 0x00; 0x00; 0x00; 0x00; 0x00];
  [0x00; 0x00; 0x00; 0x00; 0x00; 0x00; 0x00; 0x00; 0x00; 0x00; 0x00; 0x00];
  [0x00; 0x00; 0x00; 0x00; 0x00; 0x00; 0x00; 0x00; 0x00; 0x00; 0x00; 0x00];
  [0x00; 0x00; 0x00; 0x00; 0x00; 0x00; 0x00; 0x00; 0x00; 0x00; 0x00; 0x00];
  [0x00; 0x00; 0x00; 0x00; 0x00; 0x00; 0x00; 0x00; 0x00; 0x00; 0x00; 0x00];
  [0x00; 0x00; 0x00; 0x00; 0x00; 0x00; 0x00; 0x00; 0x00; 0x00; 0x00; 0x00];
  [0x00; 0x00; 0x00; 0x00; 0x00; 0x00; 0x00; 0x00; 0x00; 0x00; 0x00; 0x00];
  [0x00; 0x00; 0x00; 0x00; 0x00; 0x00; 0x00; 0x00; 0x00; 0x00; 0x00; 0x00];
  [0x00; 0x00; 0x00; 0x00; 0x00; 0x00; 0x00; 0x00; 0x00; 0x00; 0x00; 0x00];
  [0x00; 0x00; 0x00; 0x00; 0x00; 0x00; 0x00; 0x00; 0x00; 0x00; 0x00; 0x00];
  [0x00; 0x00; 0x00; 0x00; 0x00; 0x00; 0x00; 0x00; 0x00; 0x00; 0x00; 0x00];
  [0x00; 0x00; 0x00; 0x00; 0x00; 0x00; 0x00; 0x00; 0x00; 0x00; 0x00; 0x00];
  [0x00; 0x00; 0x00; 0x00; 0x00; 0x00; 0x00; 0x00; 0x00; 0x00; 0x00; 0x00];
  [0x00; 0x00; 0x00; 0x00; 0x00; 0x00; 0x00; 0x00; 0x00; 0x00; 0x00; 0x00];
  [0x00; 0x00; 0x00; 0x00; 0x00; 0x00; 0x00; 0x00; 0x00; 0x00; 0x00; 0x00];
  [0x00; 0x00; 0x00; 0x00; 0x00; 0x00; 0x00; 0x00; 0x00; 0x00; 0x00; 0x00];
  [0x00; 0x00; 0x00; 0x00; 0x00; 0x00; 0x00; 0x00; 0x00; 0x00; 0x00; 0x00];
  [0x00; 0x00; 0x00; 0x00; 0x00; 0x00; 0x00; 0x00; 0x00; 0x00; 0x00; 0x00];
  [0x00; 0x00; 0x00; 0x00; 0x00; 0x00; 0x00; 0x00; 0x00; 0x00; 0x00; 0x00];
  [0x00; 0x00; 0x00; 0x00; 0x00; 0x00; 0x00; 0x00; 0x00; 0x00; 0x00; 0x00];
  [0x00; 0x00; 0x00; 0x00; 0x00; 0x00; 0x00; 0x00; 0x00; 0x00; 0x00; 0x00];
  [0x00; 0x00; 0x00; 0x00; 0x00; 0x00; 0x00; 0x00; 0x00; 0x00; 0x00; 0x00];
  [0x00; 0x00; 0x00; 0x00; 0x00; 0x00; 0x00; 0x00; 0x00; 0x00; 0x00; 0x00];
  [0x00; 0x00; 0x00; 0x00; 0x00; 0x00; 0x00; 0x00; 0x00; 0x00; 0x00; 0x00];
  [0x00; 0x00; 0x00; 0x00; 0x00; 0x00; 0x00; 0x00; 0x00; 0x00; 0x00; 0x00];
  [0x00; 0x00; 0x00; 0x00; 0x00; 0x00; 0x00; 0x00; 0x00; 0x00; 0x00; 0x00];
  [0x00; 0x00; 0x00; 0x00; 0x00; 0x00; 0x00; 0x00; 0x00; 0x00; 0x00; 0x00];
  [0x00; 0x00; 0x00; 0x00; 0x00; 0x00; 0x00; 0x00; 0x00; 0x00; 0x00; 0x00];
  [0x00; 0x00; 0x00; 0x00; 0x00; 0x00; 0x00; 0x00; 0x00; 0x00; 0x00; 0x00];
  [0x00; 0x00; 0x00; 0x00; 0x00; 0x00; 0x00; 0x00; 0x00; 0x00; 0x00; 0x00];
  [0x00; 0x00; 0x00; 0x00; 0x00; 0x00; 0x00; 0x00; 0x00; 0x00; 0x00; 0x00];
  [0x00; 0x00; 0x00; 0x00; 0x00; 0x00; 0x00; 0x00; 0x00; 0x00; 0x00; 0x00];
  [0x00; 0x00; 0x00; 0x00; 0x00; 0x00; 0x00; 0x00; 0x00; 0x00; 0x00; 0x00];
  [0x00; 0x00; 0x00; 0x00; 0x00; 0x00; 0x00; 0x00; 0x00; 0x00; 0x00; 0x00];
  [0x00; 0x00; 0x00; 0x00; 0x00; 0x00; 0x00; 0x00; 0x00; 0x00; 0x00; 0x00];
  [0x00; 0x00; 0x00; 0x00; 0x00; 0x00; 0x00; 0x00; 0x00; 0x00; 0x00; 0x00];
  [0x00; 0x00; 0x00; 0x00; 0x00; 0x00; 0x00; 0x00; 0x00; 0x00; 0x00; 0x00];
  [0x00; 0x00; 0x00; 0x00; 0x00; 0x00; 0x00; 0x00; 0x00; 0x00; 0x00; 0x00];
  [0x00; 0x00; 0x00; 0x00; 0x00; 0x00; 0x00; 0x00; 0x00; 0x00; 0x00; 0x00];
  [0x00; 0x00; 0x00; 0x00; 0x00; 0x00; 0x00; 0x00; 0x00; 0x00; 0x00; 0x00];
  [0x00; 0x00; 0x00; 0x00; 0x00; 0x00; 0x00; 0x00; 0x00; 0x00; 0x00; 0x00];
  [0x00; 0x00; 0x00; 0x00; 0x00; 0x00; 0x00; 0x00; 0x00; 0x00; 0x00; 0x00];
  [0x00; 0x00; 0x00; 0x00; 0x00; 0x00; 0x00; 0x00; 0x00; 0x00; 0x00; 0x00];
  [0x00; 0x00; 0x00; 0x00; 0x00; 0x00; 0x00; 0x00; 0x00; 0x00; 0x00; 0x00];
  [0x00; 0x00; 0x00; 0x00; 0x00; 0x00; 0x00; 0x00; 0x00; 0x00; 0x00; 0x00];
  [0x00; 0x00; 0x00; 0x00; 0x00; 0x00; 0x00; 0x00; 0x00; 0x00; 0x00; 0x00];
  [0x00; 0x00; 0x00; 0x00; 0x00; 0x00; 0x00; 0x00; 0x00; 0x00; 0x00; 0x00];
  [0x00; 0x00; 0x00; 0x00; 0x00; 0x00; 0x00; 0x00; 0x00; 0x00; 0x00; 0x00];
  [0x00; 0x00; 0x00; 0x00; 0x00; 0x00; 0x00; 0x00; 0x00; 0x00; 0x00; 0x00];
  [0x00; 0x00; 0x00; 0x00; 0x00; 0x00; 0x00; 0x00; 0x00; 0x00; 0x00; 0x00];
  [0x00; 0x00; 0x00; 0x00; 0x00; 0x00; 0x00; 0x00; 0x00; 0x00; 0x00; 0x00];
  [0x00; 0x00; 0x00; 0x00; 0x00; 0x00; 0x00; 0x00; 0x00; 0x00; 0x00; 0x00];
  [0x00; 0x00; 0x00; 0x00; 0x00; 0x00; 0x00; 0x00; 0x00; 0x00; 0x00; 0x00];
  [0x00; 0x00; 0x00; 0x00; 0x00; 0x00; 0x00; 0x00; 0x00; 0x00; 0x00; 0x00];
  [0x00; 0x00; 0x00; 0x00; 0x00; 0x00; 0x00; 0x00; 0x00; 0x00; 0x00; 0x00];
  [0x00; 0x00; 0x00; 0x00; 0x00; 0x00; 0x00; 0x00; 0x00; 0x00; 0x00; 0x00];
  [0x00; 0x00; 0x00; 0x00; 0x00; 0x00; 0x00; 0x00; 0x00; 0x00; 0x00; 0x00];
  [0x00; 0x00; 0x00; 0x00; 0x00; 0x00; 0x00; 0x00; 0x00; 0x00; 0x00; 0x00];
  [0x00; 0x00; 0x00; 0x00; 0x00; 0x00; 0x00; 0x00; 0x00; 0x00; 0x00; 0x00];
  [0x00; 0x00; 0x00; 0x00; 0x00; 0x00; 0x00; 0x00; 0x00; 0x00; 0x00; 0x00];
  [0x00; 0x00; 0x00; 0x00; 0x00; 0x00; 0x00; 0x00; 0x00; 0x00; 0x00; 0x00];
  [0x00; 0x00; 0x00; 0x00; 0x00; 0x00; 0x00; 0x00; 0x00; 0x00; 0x00; 0x00];
  [0x00; 0x00; 0x00; 0x00; 0x00; 0x00; 0x00; 0x00; 0x00; 0x00; 0x00; 0x00];
  [0x00; 0x00; 0x00; 0x00; 0x00; 0x00; 0x00; 0x00; 0x00; 0x00; 0x00; 0x00];
  [0x00; 0x00; 0x00; 0x00; 0x00; 0x00; 0x00; 0x00; 0x00; 0x00; 0x00; 0x00];
  [0x00; 0x00; 0x00; 0x00; 0x00; 0x00; 0x00; 0x00; 0x00; 0x00; 0x00; 0x00];
  [0x00; 0x00; 0x00; 0x00; 0x00; 0x00; 0x00; 0x00; 0x00; 0x00; 0x00; 0x00];
  [0x00; 0x00; 0x00; 0x00; 0x00; 0x00; 0x00; 0x00; 0x00; 0x00; 0x00; 0x00];
  [0x00; 0x00; 0x00; 0x00; 0x00; 0x00; 0x00; 0x00; 0x00; 0x00; 0x00; 0x00];
  [0x00; 0x00; 0x00; 0x00; 0x00; 0x00; 0x00; 0x00; 0x00; 0x00; 0x00; 0x00];
  [0x00; 0x00; 0x00; 0x00; 0x00; 0x00; 0x00; 0x00; 0x00; 0x00; 0x00; 0x00];
  [0x00; 0x00; 0x00; 0x00; 0x00; 0x00; 0x00; 0x00; 0x00; 0x00; 0x00; 0x00];
  [0x00; 0x00; 0x00; 0x00; 0x00; 0x00; 0x00; 0x00; 0x00; 0x00; 0x00; 0x00];
  [0x00; 0x00; 0x00; 0x00; 0x00; 0x00; 0x00; 0x00; 0x00; 0x00; 0x00; 0x00];
  [0x00; 0x00; 0x00; 0x00; 0x00; 0x00; 0x00; 0x00; 0x00; 0x00; 0x00; 0x00];
  [0x00; 0x00; 0x00; 0x00; 0x00; 0x00; 0x00; 0x00; 0x00; 0x00; 0x00; 0x00];
  [0x00; 0x00; 0x00; 0x00; 0x00; 0x00; 0x00; 0x00; 0x00; 0x00; 0x00; 0x00];
  [0x00; 0x00; 0x00; 0x00; 0x00; 0x00; 0x00; 0x00; 0x00; 0x00; 0x00; 0x00];
  [0x00; 0x00; 0x00; 0x00; 0x00; 0x00; 0x00; 0x00; 0x00; 0x00; 0x00; 0x00];
  [0x00; 0x00; 0x00; 0x00; 0x00; 0x00; 0x00; 0x00; 0x00; 0x00; 0x00; 0x00];
  [0x00; 0x00; 0x00; 0x00; 0x00; 0x00; 0x00; 0x00; 0x00; 0x00; 0x00; 0x00];
  [0x00; 0x00; 0x00; 0x00; 0x00; 0x00; 0x00; 0x00; 0x00; 0x00; 0x00; 0x00];
  [0x00; 0x00; 0x00; 0x00; 0x00; 0x00; 0x00; 0x00; 0x00; 0x00; 0x00; 0x00];
  [0x00; 0x00; 0x00; 0x00; 0x00; 0x00; 0x00; 0x00; 0x00; 0x00; 0x00; 0x00];
  [0x00; 0x00; 0x00; 0x00; 0x00; 0x00; 0x00; 0x00; 0x00; 0x00; 0x00; 0x00];
  [0x00; 0x00; 0x00; 0x00; 0x00; 0x00; 0x00; 0x00; 0x00; 0x00; 0x00; 0x00];
  [0x00; 0x00; 0x00; 0x00; 0x00; 0x00; 0x00; 0x00; 0x00; 0x00; 0x00; 0x00];
  [0x00; 0x00; 0x00; 0x00; 0x00; 0x00; 0x00; 0x00; 0x00; 0x00; 0x00; 0x00];
  [0x00; 0x00; 0x00; 0x00; 0x00; 0x00; 0x00; 0x00; 0x00; 0x00; 0x00; 0x00];
  [0x00; 0x00; 0x00; 0x00; 0x00; 0x00; 0x00; 0x00; 0x00; 0x00; 0x00; 0x00];
  [0x00; 0x00; 0x00; 0x00; 0x00; 0x00; 0x00; 0x00; 0x00; 0x00; 0x00; 0x00];
  [0x00; 0x00; 0x00; 0x00; 0x00; 0x00; 0x00; 0x00; 0x00; 0x00; 0x00; 0x00];
  [0x00; 0x00; 0x00; 0x00; 0x00; 0x00; 0x00; 0x00; 0x00; 0x00; 0x00; 0x00];
  [0x00; 0x00; 0x00; 0x00; 0x00; 0x00; 0x00; 0x00; 0x00; 0x00; 0x00; 0x00];
  [0x00; 0x00; 0x00; 0x00; 0x00; 0x00; 0x00; 0x00; 0x00; 0x00; 0x00; 0x00];
  [0x00; 0x00; 0x00; 0x00; 0x00; 0x00; 0x00; 0x00; 0x00; 0x00; 0x00; 0x00];
  [0x00; 0x00; 0x00; 0x00; 0x00; 0x00; 0x00; 0x00; 0x00; 0x00; 0x00; 0x00];
  [0x00; 0x00; 0x00; 0x00; 0x00; 0x00; 0x00; 0x00; 0x00; 0x00; 0x00; 0x00];
  [0x00; 0x00; 0x00; 0x00; 0x00; 0x00; 0x00; 0x00; 0x00; 0x00; 0x00; 0x00];
  [0x00; 0x00; 0x00; 0x00; 0x00; 0x00; 0x00; 0x00; 0x00; 0x00; 0x00; 0x00];
  [0x00; 0x00; 0x00; 0x00; 0x00; 0x00; 0x00; 0x00; 0x00; 0x00; 0x00; 0x00];
  [0x00; 0x00; 0x00; 0x00; 0x00; 0x00; 0x00; 0x00; 0x00; 0x00; 0x00; 0x00];
  [0x00; 0x00; 0x00; 0x00; 0x00; 0x00; 0x00; 0x00; 0x00; 0x00; 0x00; 0x00];
  [0x00; 0x00; 0x00; 0x00; 0x00; 0x00; 0x00; 0x00; 0x00; 0x00; 0x00; 0x00];
  [0x00; 0x00; 0x00; 0x00; 0x00; 0x00; 0x00; 0x00; 0x00; 0x00; 0x00; 0x00];
  [0x00; 0x00; 0x00; 0x00; 0x00; 0x00; 0x00; 0x00; 0x00; 0x00; 0x00; 0x00];
  [0x00; 0x00; 0x00; 0x00; 0x00; 0x00; 0x00; 0x00; 0x00; 0x00; 0x00; 0x00];
  [0x00; 0x00; 0x00; 0x00; 0x00; 0x00; 0x00; 0x00; 0x00; 0x00; 0x00; 0x00];
  [0x00; 0x00; 0x00; 0x00; 0x00; 0x00; 0x00; 0x00; 0x00; 0x00; 0x00; 0x00];
  [0x00; 0x00; 0x00; 0x00; 0x00; 0x00; 0x00; 0x00; 0x00; 0x00; 0x00; 0x00];
  [0x00; 0x00; 0x00; 0x00; 0x00; 0x00; 0x00; 0x00; 0x00; 0x00; 0x00; 0x00];
  [0x00; 0x00; 0x00; 0x00; 0x00; 0x00; 0x00; 0x00; 0x00; 0x00; 0x00; 0x00];
  [0x00; 0x00; 0x00; 0x00; 0x00; 0x00; 0x00; 0x00; 0x00; 0x00; 0x00; 0x00];
  [0x00; 0x00; 0x00; 0x00; 0x00; 0x00; 0x00; 0x00; 0x00; 0x00; 0x00; 0x00];
  [0x00; 0x00; 0x00; 0x00; 0x00; 0x00; 0x00; 0x00; 0x00; 0x00; 0x00; 0x00];
  [0x00; 0x00; 0x00; 0x00; 0x00; 0x00; 0x00; 0x00; 0x00; 0x00; 0x00; 0x00];
  [0x00; 0x00; 0x00; 0x00; 0x00; 0x00; 0x00; 0x00; 0x00; 0x00; 0x00; 0x00];
  [0x00; 0x00; 0x00; 0x00; 0x00; 0x00; 0x00; 0x00; 0x00; 0x00; 0x00; 0x00];
  [0x00; 0x00; 0x00; 0x00; 0x00; 0x00; 0x00; 0x00; 0x00; 0x00; 0x00; 0x00];
  [0x00; 0x00; 0x00; 0x00; 0x00; 0x00; 0x00; 0x00; 0x00; 0x00; 0x00; 0x00];
  [0x00; 0x00; 0x00; 0x00; 0x00; 0x00; 0x00; 0x00; 0x00; 0x00; 0x00; 0x00];
  [0x00; 0x00; 0x00; 0x00; 0x04; 0x00; 0x00; 0x00; 0x20; 0x00; 0x00; 0x00];
  [0x05; 0x00; 0x00; 0x00; 0x47; 0x4e; 0x55; 0x00; 0x01; 0x00; 0x01; 0xc0];
  [0x04; 0x00; 0x00; 0x00; 0x01; 0x00; 0x00; 0x00; 0x00; 0x00; 0x00; 0x00];
  [0x02; 0x00; 0x01; 0xc0; 0x04; 0x00; 0x00; 0x00; 0x01; 0x00; 0x00; 0x00];
  [0x00; 0x00; 0x00; 0x00; 0x2f; 0x62; 0x69; 0x6e; 0x2f; 0x65; 0x63; 0x68];
  [0x6f; 0x00; 0x66; 0x75; 0x7a; 0x7a; 0x3a; 0x20; 0x6f; 0x6b; 0x0a; 0x00];
  [0x66; 0x75; 0x7a; 0x7a; 0x00; 0x00; 0x00; 0x00; 0x00; 0x00; 0x00; 0x00];
  [0xd3; 0x04; 0x40; 0x00; 0x00; 0x00; 0x00; 0x00; 0xb8; 0x04; 0x40; 0x00];
  [0x00; 0x00; 0x00; 0x00; 0x88; 0x04; 0x40; 0x00; 0x00; 0x00; 0x00; 0x00];
  [0x68; 0x04; 0x40; 0x00; 0x00; 0x00; 0x00; 0x00; 0x38; 0x04; 0x40; 0x00];
  [0x00; 0x00; 0x00; 0x00; 0xb0; 0x03; 0x40; 0x00; 0x00; 0x00; 0x00; 0x00];
  [0x50; 0x03; 0x40; 0x00; 0x00; 0x00; 0x00; 0x00; 0x01; 0x1b; 0x03; 0x3b];
  [0x6c; 0x00; 0x00; 0x00; 0x0c; 0x00; 0x00; 0x00; 0x78; 0xf1; 0xff; 0xff];
  [0x88; 0x00; 0x00; 0x00; 0xf8; 0xf1; 0xff; 0xff; 0x9c; 0x00; 0x00; 0x00];
  [0x78; 0xf4; 0xff; 0xff; 0xb8; 0x00; 0x00; 0x00; 0xa8; 0xf4; 0xff; 0xff];
  [0xcc; 0x00; 0x00; 0x00; 0x18; 0xf5; 0xff; 0xff; 0xe0; 0x00; 0x00; 0x00];
  [0x58; 0xf5; 0xff; 0xff; 0xf4; 0x00; 0x00; 0x00; 0x98; 0xf5; 0xff; 0xff];
  [0x08; 0x01; 0x00; 0x00; 0xf8; 0xf5; 0xff; 0xff; 0x1c; 0x01; 0x00; 0x00];
  [0x08; 0xf6; 0xff; 0xff; 0x30; 0x01; 0x00; 0x00; 0x18; 0xf6; 0xff; 0xff];
  [0x44; 0x01; 0x00; 0x00; 0x28; 0xf6; 0xff; 0xff; 0x58; 0x01; 0x00; 0x00];
  [0x38; 0xf6; 0xff; 0xff; 0x6c; 0x01; 0x00; 0x00; 0x00; 0x00; 0x00; 0x00];
  [0x14; 0x00; 0x00; 0x00; 0x00; 0x00; 0x00; 0x00; 0x01; 0x7a; 0x52; 0x00];
  [0x01; 0x78; 0x10; 0x01; 0x1b; 0x0c; 0x07; 0x08; 0x90; 0x01; 0x00; 0x00];
  [0x10; 0x00; 0x00; 0x00; 0x1c; 0x00; 0x00; 0x00; 0xe8; 0xf0; 0xff; 0xff];
  [0x7a; 0x00; 0x00; 0x00; 0x00; 0x00; 0x00; 0x00; 0x18; 0x00; 0x00; 0x00];
  [0x30; 0x00; 0x00; 0x00; 0x54; 0xf1; 0xff; 0xff; 0x6b; 0x02; 0x00; 0x00];
  [0x00; 0x4e; 0x0e; 0x60; 0x03; 0xa4; 0x01; 0x0a; 0x0e; 0x08; 0x46; 0x0b];
  [0x10; 0x00; 0x00; 0x00; 0x4c; 0x00; 0x00; 0x00; 0xb8; 0xf3; 0xff; 0xff];
  [0x2b; 0x00; 0x00; 0x00; 0x00; 0x00; 0x00; 0x00; 0x10; 0x00; 0x00; 0x00];
  [0x60; 0x00; 0x00; 0x00; 0xd4; 0xf3; 0xff; 0xff; 0x69; 0x00; 0x00; 0x00];
  [0x00; 0x00; 0x00; 0x00; 0x10; 0x00; 0x00; 0x00; 0x74; 0x00; 0x00; 0x00];
  [0x30; 0xf4; 0xff; 0xff; 0x38; 0x00; 0x00; 0x00; 0x00; 0x00; 0x00; 0x00];
  [0x10; 0x00; 0x00; 0x00; 0x88; 0x00; 0x00; 0x00; 0x5c; 0xf4; 0xff; 0xff];
  [0x34; 0x00; 0x00; 0x00; 0x00; 0x00; 0x00; 0x00; 0x10; 0x00; 0x00; 0x00];
  [0x9c; 0x00; 0x00; 0x00; 0x88; 0xf4; 0xff; 0xff; 0x56; 0x00; 0x00; 0x00];
  [0x00; 0x00; 0x00; 0x00; 0x10; 0x00; 0x00; 0x00; 0xb0; 0x00; 0x00; 0x00];
  [0xd4; 0xf4; 0xff; 0xff; 0x0e; 0x00; 0x00; 0x00; 0x00; 0x00; 0x00; 0x00];
  [0x10; 0x00; 0x00; 0x00; 0xc4; 0x00; 0x00; 0x00; 0xd0; 0xf4; 0xff; 0xff];
  [0x08; 0x00; 0x00; 0x00; 0x00; 0x00; 0x00; 0x00; 0x10; 0x00; 0x00; 0x00];
  [0xd8; 0x00; 0x00; 0x00; 0xcc; 0xf4; 0xff; 0xff; 0x0b; 0x00; 0x00; 0x00];
  [0x00; 0x00; 0x00; 0x00; 0x10; 0x00; 0x00; 0x00; 0xec; 0x00; 0x00; 0x00];
  [0xc8; 0xf4; 0xff; 0xff; 0x08; 0x00; 0x00; 0x00; 0x00; 0x00; 0x00; 0x00];
  [0x10; 0x00; 0x00; 0x00; 0x00; 0x01; 0x00; 0x00; 0xc4; 0xf4; 0xff; 0xff];
  [0x08; 0x00; 0x00; 0x00; 0x00; 0x00; 0x00; 0x00; 0x00; 0x00; 0x00; 0x00];
  [0x00; 0x00; 0x00; 0x00; 0x00; 0x00; 0x00; 0x00; 0x00; 0x00; 0x00; 0x00];
  [0x00; 0x00; 0x00; 0x00; 0x00; 0x00; 0x00; 0x00; 0x00; 0x00; 0x00; 0x00];
  [0x00; 0x00; 0x00; 0x00; 0x00; 0x00; 0x00; 0x00; 0x00; 0x00; 0x00; 0x00];
  [0x00; 0x00; 0x00; 0x00; 0x00; 0x00; 0x00; 0x00; 0x00; 0x00; 0x00; 0x00];
  [0x00; 0x00; 0x00; 0x00; 0x00; 0x00; 0x00; 0x00; 0x00; 0x00; 0x00; 0x00];
  [0x00; 0x00; 0x00; 0x00; 0x00; 0x00; 0x00; 0x00; 0x00; 0x00; 0x00; 0x00];
  [0x00; 0x00; 0x00; 0x00; 0x00; 0x00; 0x00; 0x00; 0x00; 0x00; 0x00; 0x00];
  [0x00; 0x00; 0x00; 0x00; 0x00; 0x00; 0x00; 0x00; 0x00; 0x00; 0x00; 0x00];
  [0x00; 0x00; 0x00; 0x00; 0x00; 0x00; 0x00; 0x00; 0x00; 0x00; 0x00; 0x00];
  [0x00; 0x00; 0x00; 0x00; 0x00; 0x00; 0x00; 0x00; 0x00; 0x00; 0x00; 0x00];
  [0x00; 0x00; 0x00; 0x00; 0x00; 0x00; 0x00; 0x00; 0x00; 0x00; 0x00; 0x00];
  [0x00; 0x00; 0x00; 0x00; 0x00; 0x00; 0x00; 0x00; 0x00; 0x00; 0x00; 0x00];
  [0x00; 0x00; 0x00; 0x00; 0x00; 0x00; 0x00; 0x00; 0x00; 0x00; 0x00; 0x00];
  [0x00; 0x00; 0x00; 0x00; 0x00; 0x00; 0x00; 0x00; 0x00; 0x00; 0x00; 0x00];
  [0x00; 0x00; 0x00; 0x00; 0x00; 0x00; 0x00; 0x00; 0x00; 0x00; 0x00; 0x00];
  [0x00; 0x00; 0x00; 0x00; 0x00; 0x00; 0x00; 0x00; 0x00; 0x00; 0x00; 0x00];
  [0x00; 0x00; 0x00; 0x00; 0x00; 0x00; 0x00; 0x00; 0x00; 0x00; 0x00; 0x00];
  [0x00; 0x00; 0x00; 0x00; 0x00; 0x00; 0x00; 0x00; 0x00; 0x00; 0x00; 0x00];
  [0x00; 0x00; 0x00; 0x00; 0x00; 0x00; 0x00; 0x00; 0x00; 0x00; 0x00; 0x00];
  [0x00; 0x00; 0x00; 0x00; 0x00; 0x00; 0x00; 0x00; 0x00; 0x00; 0x00; 0x00];
  [0x00; 0x00; 0x00; 0x00; 0x00; 0x00; 0x00; 0x00; 0x00; 0x00; 0x00; 0x00];
  [0x00; 0x00; 0x00; 0x00; 0x00; 0x00; 0x00; 0x00; 0x00; 0x00; 0x00; 0x00];
  [0x00; 0x00; 0x00; 0x00; 0x00; 0x00; 0x00; 0x00; 0x00; 0x00; 0x00; 0x00];
  [0x00; 0x00; 0x00; 0x00; 0x00; 0x00; 0x00; 0x00; 0x00; 0x00; 0x00; 0x00];
  [0x00; 0x00; 0x00; 0x00; 0x00; 0x00; 0x00; 0x00; 0x00; 0x00; 0x00; 0x00];
  [0x00; 0x00; 0x00; 0x00; 0x00; 0x00; 0x00; 0x00; 0x00; 0x00; 0x00; 0x00];
  [0x00; 0x00; 0x00; 0x00; 0x00; 0x00; 0x00; 0x00; 0x00; 0x00; 0x00; 0x00];
  [0x00; 0x00; 0x00; 0x00; 0x00; 0x00; 0x00; 0x00; 0x00; 0x00; 0x00; 0x00];
  [0x00; 0x00; 0x00; 0x00; 0x00; 0x00; 0x00; 0x00; 0x00; 0x00; 0x00; 0x00];
  [0x00; 0x00; 0x00; 0x00; 0x00; 0x00; 0x00; 0x00; 0x00; 0x00; 0x00; 0x00];
  [0x00; 0x00; 0x00; 0x00; 0x00; 0x00; 0x00; 0x00; 0x00; 0x00; 0x00; 0x00];
  [0x00; 0x00; 0x00; 0x00; 0x00; 0x00; 0x00; 0x00; 0x00; 0x00; 0x00; 0x00];
  [0x00; 0x00; 0x00; 0x00; 0x00; 0x00; 0x00; 0x00; 0x00; 0x00; 0x00; 0x00];
  [0x00; 0x00; 0x00; 0x00; 0x00; 0x00; 0x00; 0x00; 0x00; 0x00; 0x00; 0x00];
  [0x00; 0x00; 0x00; 0x00; 0x00; 0x00; 0x00; 0x00; 0x00; 0x00; 0x00; 0x00];
  [0x00; 0x00; 0x00; 0x00; 0x00; 0x00; 0x00; 0x00; 0x00; 0x00; 0x00; 0x00];
  [0x00; 0x00; 0x00; 0x00; 0x00; 0x00; 0x00; 0x00; 0x00; 0x00; 0x00; 0x00];
  [0x00; 0x00; 0x00; 0x00; 0x00; 0x00; 0x00; 0x00; 0x00; 0x00; 0x00; 0x00];
  [0x00; 0x00; 0x00; 0x00; 0x00; 0x00; 0x00; 0x00; 0x00; 0x00; 0x00; 0x00];
  [0x00; 0x00; 0x00; 0x00; 0x00; 0x00; 0x00; 0x00; 0x00; 0x00; 0x00; 0x00];
  [0x00; 0x00; 0x00; 0x00; 0x00; 0x00; 0x00; 0x00; 0x00; 0x00; 0x00; 0x00];
  [0x00; 0x00; 0x00; 0x00; 0x00; 0x00; 0x00; 0x00; 0x00; 0x00; 0x00; 0x00];
  [0x00; 0x00; 0x00; 0x00; 0x00; 0x00; 0x00; 0x00; 0x00; 0x00; 0x00; 0x00];
  [0x00; 0x00; 0x00; 0x00; 0x00; 0x00; 0x00; 0x00; 0x00; 0x00; 0x00; 0x00];
  [0x00; 0x00; 0x00; 0x00; 0x00; 0x00; 0x00; 0x00; 0x00; 0x00; 0x00; 0x00];
  [0x00; 0x00; 0x00; 0x00; 0x00; 0x00; 0x00; 0x00; 0x00; 0x00; 0x00; 0x00];
  [0x00; 0x00; 0x00; 0x00; 0x00; 0x00; 0x00; 0x00; 0x00; 0x00; 0x00; 0x00];
  [0x00; 0x00; 0x00; 0x00; 0x00; 0x00; 0x00; 0x00; 0x00; 0x00; 0x00; 0x00];
  [0x00; 0x00; 0x00; 0x00; 0x00; 0x00; 0x00; 0x00; 0x00; 0x00; 0x00; 0x00];
  [0x00; 0x00; 0x00; 0x00; 0x00; 0x00; 0x00; 0x00; 0x00; 0x00; 0x00; 0x00];
  [0x00; 0x00; 0x00; 0x00; 0x00; 0x00; 0x00; 0x00; 0x00; 0x00; 0x00; 0x00];
  [0x00; 0x00; 0x00; 0x00; 0x00; 0x00; 0x00; 0x00; 0x00; 0x00; 0x00; 0x00];
  [0x00; 0x00; 0x00; 0x00; 0x00; 0x00; 0x00; 0x00; 0x00; 0x00; 0x00; 0x00];
  [0x00; 0x00; 0x00; 0x00; 0x00; 0x00; 0x00; 0x00; 0x00; 0x00; 0x00; 0x00];
  [0x00; 0x00; 0x00; 0x00; 0x00; 0x00; 0x00; 0x00; 0x00; 0x00; 0x00; 0x00];
  [0x00; 0x00; 0x00; 0x00; 0x00; 0x00; 0x00; 0x00; 0x00; 0x00; 0x00; 0x00];
  [0x00; 0x00; 0x00; 0x00; 0x00; 0x00; 0x00; 0x00; 0x00; 0x00; 0x00; 0x00];
  [0x00; 0x00; 0x00; 0x00; 0x00; 0x00; 0x00; 0x00; 0x00; 0x00; 0x00; 0x00];
  [0x00; 0x00; 0x00; 0x00; 0x00; 0x00; 0x00; 0x00; 0x00; 0x00; 0x00; 0x00];
  [0x00; 0x00; 0x00; 0x00; 0x00; 0x00; 0x00; 0x00; 0x00; 0x00; 0x00; 0x00];
  [0x00; 0x00; 0x00; 0x00; 0x00; 0x00; 0x00; 0x00; 0x00; 0x00; 0x00; 0x00];
  [0x00; 0x00; 0x00; 0x00; 0x00; 0x00; 0x00; 0x00; 0x00; 0x00; 0x00; 0x00];
  [0x00; 0x00; 0x00; 0x00; 0x00; 0x00; 0x00; 0x00; 0x00; 0x00; 0x00; 0x00];
  [0x00; 0x00; 0x00; 0x00; 0x00; 0x00; 0x00; 0x00; 0x00; 0x00; 0x00; 0x00];
  [0x00; 0x00; 0x00; 0x00; 0x00; 0x00; 0x00; 0x00; 0x00; 0x00; 0x00; 0x00];
  [0x00; 0x00; 0x00; 0x00; 0x00; 0x00; 0x00; 0x00; 0x00; 0x00; 0x00; 0x00];
  [0x00; 0x00; 0x00; 0x00; 0x00; 0x00; 0x00; 0x00; 0x00; 0x00; 0x00; 0x00];
  [0x00; 0x00; 0x00; 0x00; 0x00; 0x00; 0x00; 0x00; 0x00; 0x00; 0x00; 0x00];
  [0x00; 0x00; 0x00; 0x00; 0x00; 0x00; 0x00; 0x00; 0x00; 0x00; 0x00; 0x00];
  [0x00; 0x00; 0x00; 0x00; 0x00; 0x00; 0x00; 0x00; 0x00; 0x00; 0x00; 0x00];
  [0x00; 0x00; 0x00; 0x00; 0x00; 0x00; 0x00; 0x00; 0x00; 0x00; 0x00; 0x00];
  [0x00; 0x00; 0x00; 0x00; 0x00; 0x00; 0x00; 0x00; 0x00; 0x00; 0x00; 0x00];
  [0x00; 0x00; 0x00; 0x00; 0x00; 0x00; 0x00; 0x00; 0x00; 0x00; 0x00; 0x00];
  [0x00; 0x00; 0x00; 0x00; 0x00; 0x00; 0x00; 0x00; 0x00; 0x00; 0x00; 0x00];
  [0x00; 0x00; 0x00; 0x00; 0x00; 0x00; 0x00; 0x00; 0x00; 0x00; 0x00; 0x00];
  [0x00; 0x00; 0x00; 0x00; 0x00; 0x00; 0x00; 0x00; 0x00; 0x00; 0x00; 0x00];
  [0x00; 0x00; 0x00; 0x00; 0x00; 0x00; 0x00; 0x00; 0x00; 0x00; 0x00; 0x00];
  [0x00; 0x00; 0x00; 0x00; 0x00; 0x00; 0x00; 0x00; 0x00; 0x00; 0x00; 0x00];
  [0x00; 0x00; 0x00; 0x00; 0x00; 0x00; 0x00; 0x00; 0x00; 0x00; 0x00; 0x00];
  [0x00; 0x00; 0x00; 0x00; 0x00; 0x00; 0x00; 0x00; 0x00; 0x00; 0x00; 0x00];
  [0x00; 0x00; 0x00; 0x00; 0x00; 0x00; 0x00; 0x00; 0x00; 0x00; 0x00; 0x00];
  [0x00; 0x00; 0x00; 0x00; 0x00; 0x00; 0x00; 0x00; 0x00; 0x00; 0x00; 0x00];
  [0x00; 0x00; 0x00; 0x00; 0x00; 0x00; 0x00; 0x00; 0x00; 0x00; 0x00; 0x00];
  [0x00; 0x00; 0x00; 0x00; 0x00; 0x00; 0x00; 0x00; 0x00; 0x00; 0x00; 0x00];
  [0x00; 0x00; 0x00; 0x00; 0x00; 0x00; 0x00; 0x00; 0x00; 0x00; 0x00; 0x00];
  [0x00; 0x00; 0x00; 0x00; 0x00; 0x00; 0x00; 0x00; 0x00; 0x00; 0x00; 0x00];
  [0x00; 0x00; 0x00; 0x00; 0x00; 0x00; 0x00; 0x00; 0x00; 0x00; 0x00; 0x00];
  [0x00; 0x00; 0x00; 0x00; 0x00; 0x00; 0x00; 0x00; 0x00; 0x00; 0x00; 0x00];
  [0x00; 0x00; 0x00; 0x00; 0x00; 0x00; 0x00; 0x00; 0x00; 0x00; 0x00; 0x00];
  [0x00; 0x00; 0x00; 0x00; 0x00; 0x00; 0x00; 0x00; 0x00; 0x00; 0x00; 0x00];
  [0x00; 0x00; 0x00; 0x00; 0x00; 0x00; 0x00; 0x00; 0x00; 0x00; 0x00; 0x00];
  [0x00; 0x00; 0x00; 0x00; 0x00; 0x00; 0x00; 0x00; 0x00; 0x00; 0x00; 0x00];
  [0x00; 0x00; 0x00; 0x00; 0x00; 0x00; 0x00; 0x00; 0x00; 0x00; 0x00; 0x00];
  [0x00; 0x00; 0x00; 0x00; 0x00; 0x00; 0x00; 0x00; 0x00; 0x00; 0x00; 0x00];
  [0x00; 0x00; 0x00; 0x00; 0x00; 0x00; 0x00; 0x00; 0x00; 0x00; 0x00; 0x00];
  [0x00; 0x00; 0x00; 0x00; 0x00; 0x00; 0x00; 0x00; 0x00; 0x00; 0x00; 0x00];
  [0x00; 0x00; 0x00; 0x00; 0x00; 0x00; 0x00; 0x00; 0x00; 0x00; 0x00; 0x00];
  [0x00; 0x00; 0x00; 0x00; 0x00; 0x00; 0x00; 0x00; 0x00; 0x00; 0x00; 0x00];
  [0x00; 0x00; 0x00; 0x00; 0x00; 0x00; 0x00; 0x00; 0x00; 0x00; 0x00; 0x00];
  [0x00; 0x00; 0x00; 0x00; 0x00; 0x00; 0x00; 0x00; 0x00; 0x00; 0x00; 0x00];
  [0x00; 0x00; 0x00; 0x00; 0x00; 0x00; 0x00; 0x00; 0x00; 0x00; 0x00; 0x00];
  [0x00; 0x00; 0x00; 0x00; 0x00; 0x00; 0x00; 0x00; 0x00; 0x00; 0x00; 0x00];
  [0x00; 0x00; 0x00; 0x00; 0x00; 0x00; 0x00; 0x00; 0x00; 0x00; 0x00; 0x00];
  [0x00; 0x00; 0x00; 0x00; 0x00; 0x00; 0x00; 0x00; 0x00; 0x00; 0x00; 0x00];
  [0x00; 0x00; 0x00; 0x00; 0x00; 0x00; 0x00; 0x00; 0x00; 0x00; 0x00; 0x00];
  [0x00; 0x00; 0x00; 0x00; 0x00; 0x00; 0x00; 0x00; 0x00; 0x00; 0x00; 0x00];
  [0x00; 0x00; 0x00; 0x00; 0x00; 0x00; 0x00; 0x00; 0x00; 0x00; 0x00; 0x00];
  [0x00; 0x00; 0x00; 0x00; 0x00; 0x00; 0x00; 0x00; 0x00; 0x00; 0x00; 0x00];
  [0x00; 0x00; 0x00; 0x00; 0x00; 0x00; 0x00; 0x00; 0x00; 0x00; 0x00; 0x00];
  [0x00; 0x00; 0x00; 0x00; 0x00; 0x00; 0x00; 0x00; 0x00; 0x00; 0x00; 0x00];
  [0x00; 0x00; 0x00; 0x00; 0x00; 0x00; 0x00; 0x00; 0x00; 0x00; 0x00; 0x00];
  [0x00; 0x00; 0x00; 0x00; 0x00; 0x00; 0x00; 0x00; 0x00; 0x00; 0x00; 0x00];
  [0x00; 0x00; 0x00; 0x00; 0x00; 0x00; 0x00; 0x00; 0x00; 0x00; 0x00; 0x00];
  [0x00; 0x00; 0x00; 0x00; 0x00; 0x00; 0x00; 0x00; 0x00; 0x00; 0x00; 0x00];
  [0x00; 0x00; 0x00; 0x00; 0x00; 0x00; 0x00; 0x00; 0x00; 0x00; 0x00; 0x00];
  [0x00; 0x00; 0x00; 0x00; 0x00; 0x00; 0x00; 0x00; 0x00; 0x00; 0x00; 0x00];
  [0x00; 0x00; 0x00; 0x00; 0x00; 0x00; 0x00; 0x00; 0x00; 0x00; 0x00; 0x00];
  [0x00; 0x00; 0x00; 0x00; 0x00; 0x00; 0x00; 0x00; 0x00; 0x00; 0x00; 0x00];
  [0x00; 0x00; 0x00; 0x00; 0x00; 0x00; 0x00; 0x00; 0x00; 0x00; 0x00; 0x00];
  [0x00; 0x00; 0x00; 0x00; 0x00; 0x00; 0x00; 0x00; 0x00; 0x00; 0x00; 0x00];
  [0x00; 0x00; 0x00; 0x00; 0x00; 0x00; 0x00; 0x00; 0x00; 0x00; 0x00; 0x00];
  [0x00; 0x00; 0x00; 0x00; 0x00; 0x00; 0x00; 0x00; 0x00; 0x00; 0x00; 0x00];
  [0x00; 0x00; 0x00; 0x00; 0x00; 0x00; 0x00; 0x00; 0x00; 0x00; 0x00; 0x00];
  [0x00; 0x00; 0x00; 0x00; 0x00; 0x00; 0x00; 0x00; 0x00; 0x00; 0x00; 0x00];
  [0x00; 0x00; 0x00; 0x00; 0x00; 0x00; 0x00; 0x00; 0x00; 0x00; 0x00; 0x00];
  [0x00; 0x00; 0x00; 0x00; 0x00; 0x00; 0x00; 0x00; 0x00; 0x00; 0x00; 0x00];
  [0x00; 0x00; 0x00; 0x00; 0x00; 0x00; 0x00; 0x00; 0x00; 0x00; 0x00; 0x00];
  [0x00; 0x00; 0x00; 0x00; 0x00; 0x00; 0x00; 0x00; 0x00; 0x00; 0x00; 0x00];
  [0x00; 0x00; 0x00; 0x00; 0x00; 0x00; 0x00; 0x00; 0x00; 0x00; 0x00; 0x00];
  [0x00; 0x00; 0x00; 0x00; 0x00; 0x00; 0x00; 0x00; 0x00; 0x00; 0x00; 0x00];
  [0x00; 0x00; 0x00; 0x00; 0x00; 0x00; 0x00; 0x00; 0x00; 0x00; 0x00; 0x00];
  [0x00; 0x00; 0x00; 0x00; 0x00; 0x00; 0x00; 0x00; 0x00; 0x00; 0x00; 0x00];
  [0x00; 0x00; 0x00; 0x00; 0x00; 0x00; 0x00; 0x00; 0x00; 0x00; 0x00; 0x00];
  [0x00; 0x00; 0x00; 0x00; 0x00; 0x00; 0x00; 0x00; 0x00; 0x00; 0x00; 0x00];
  [0x00; 0x00; 0x00; 0x00; 0x00; 0x00; 0x00; 0x00; 0x00; 0x00; 0x00; 0x00];
  [0x00; 0x00; 0x00; 0x00; 0x00; 0x00; 0x00; 0x00; 0x00; 0x00; 0x00; 0x00];
  [0x00; 0x00; 0x00; 0x00; 0x00; 0x00; 0x00; 0x00; 0x00; 0x00; 0x00; 0x00];
  [0x00; 0x00; 0x00; 0x00; 0x00; 0x00; 0x00; 0x00; 0x00; 0x00; 0x00; 0x00];
  [0x00; 0x00; 0x00; 0x00; 0x00; 0x00; 0x00; 0x00; 0x00; 0x00; 0x00; 0x00];
  [0x00; 0x00; 0x00; 0x00; 0x00; 0x00; 0x00; 0x00; 0x00; 0x00; 0x00; 0x00];
  [0x00; 0x00; 0x00; 0x00; 0x00; 0x00; 0x00; 0x00; 0x00; 0x00; 0x00; 0x00];
  [0x00; 0x00; 0x00; 0x00; 0x00; 0x00; 0x00; 0x00; 0x00; 0x00; 0x00; 0x00];
  [0x00; 0x00; 0x00; 0x00; 0x00; 0x00; 0x00; 0x00; 0x00; 0x00; 0x00; 0x00];
  [0x00; 0x00; 0x00; 0x00; 0x00; 0x00; 0x00; 0x00; 0x00; 0x00; 0x00; 0x00];
  [0x00; 0x00; 0x00; 0x00; 0x00; 0x00; 0x00; 0x00; 0x00; 0x00; 0x00; 0x00];
  [0x00; 0x00; 0x00; 0x00; 0x00; 0x00; 0x00; 0x00; 0x00; 0x00; 0x00; 0x00];
  [0x00; 0x00; 0x00; 0x00; 0x00; 0x00; 0x00; 0x00; 0x00; 0x00; 0x00; 0x00];
  [0x00; 0x00; 0x00; 0x00; 0x00; 0x00; 0x00; 0x00; 0x00; 0x00; 0x00; 0x00];
  [0x00; 0x00; 0x00; 0x00; 0x00; 0x00; 0x00; 0x00; 0x00; 0x00; 0x00; 0x00];
  [0x00; 0x00; 0x00; 0x00; 0x00; 0x00; 0x00; 0x00; 0x00; 0x00; 0x00; 0x00];
  [0x00; 0x00; 0x00; 0x00; 0x00; 0x00; 0x00; 0x00; 0x00; 0x00; 0x00; 0x00];
  [0x00; 0x00; 0x00; 0x00; 0x00; 0x00; 0x00; 0x00; 0x00; 0x00; 0x00; 0x00];
  [0x00; 0x00; 0x00; 0x00; 0x00; 0x00; 0x00; 0x00; 0x00; 0x00; 0x00; 0x00];
  [0x00; 0x00; 0x00; 0x00; 0x00; 0x00; 0x00; 0x00; 0x00; 0x00; 0x00; 0x00];
  [0x00; 0x00; 0x00; 0x00; 0x00; 0x00; 0x00; 0x00; 0x00; 0x00; 0x00; 0x00];
  [0x00; 0x00; 0x00; 0x00; 0x00; 0x00; 0x00; 0x00; 0x00; 0x00; 0x00; 0x00];
  [0x00; 0x00; 0x00; 0x00; 0x00; 0x00; 0x00; 0x00; 0x00; 0x00; 0x00; 0x00];
  [0x00; 0x00; 0x00; 0x00; 0x00; 0x00; 0x00; 0x00; 0x00; 0x00; 0x00; 0x00];
  [0x00; 0x00; 0x00; 0x00; 0x00; 0x00; 0x00; 0x00; 0x00; 0x00; 0x00; 0x00];
  [0x00; 0x00; 0x00; 0x00; 0x00; 0x00; 0x00; 0x00; 0x00; 0x00; 0x00; 0x00];
  [0x00; 0x00; 0x00; 0x00; 0x00; 0x00; 0x00; 0x00; 0x00; 0x00; 0x00; 0x00];
  [0x00; 0x00; 0x00; 0x00; 0x00; 0x00; 0x00; 0x00; 0x00; 0x00; 0x00; 0x00];
  [0x00; 0x00; 0x00; 0x00; 0x00; 0x00; 0x00; 0x00; 0x00; 0x00; 0x00; 0x00];
  [0x00; 0x00; 0x00; 0x00; 0x00; 0x00; 0x00; 0x00; 0x00; 0x00; 0x00; 0x00];
  [0x00; 0x00; 0x00; 0x00; 0x00; 0x00; 0x00; 0x00; 0x00; 0x00; 0x00; 0x00];
  [0x00; 0x00; 0x00; 0x00; 0x00; 0x00; 0x00; 0x00; 0x00; 0x00; 0x00; 0x00];
  [0x00; 0x00; 0x00; 0x00; 0x00; 0x00; 0x00; 0x00; 0x00; 0x00; 0x00; 0x00];
  [0x00; 0x00; 0x00; 0x00; 0x00; 0x00; 0x00; 0x00; 0x00; 0x00; 0x00; 0x00];
  [0x00; 0x00; 0x00; 0x00; 0x00; 0x00; 0x00; 0x00; 0x00; 0x00; 0x00; 0x00];
  [0x00; 0x00; 0x00; 0x00; 0x00; 0x00; 0x00; 0x00; 0x00; 0x00; 0x00; 0x00];
  [0x00; 0x00; 0x00; 0x00; 0x00; 0x00; 0x00; 0x00; 0x00; 0x00; 0x00; 0x00];
  [0x00; 0x00; 0x00; 0x00; 0x00; 0x00; 0x00; 0x00; 0x00; 0x00; 0x00; 0x00];
  [0x00; 0x00; 0x00; 0x00; 0x00; 0x00; 0x00; 0x00; 0x00; 0x00; 0x00; 0x00];
  [0x00; 0x00; 0x00; 0x00; 0x00; 0x00; 0x00; 0x00; 0x00; 0x00; 0x00; 0x00];
  [0x00; 0x00; 0x00; 0x00; 0x00; 0x00; 0x00; 0x00; 0x00; 0x00; 0x00; 0x00];
  [0x00; 0x00; 0x00; 0x00; 0x00; 0x00; 0x00; 0x00; 0x00; 0x00; 0x00; 0x00];
  [0x00; 0x00; 0x00; 0x00; 0x00; 0x00; 0x00; 0x00; 0x00; 0x00; 0x00; 0x00];
  [0x00; 0x00; 0x00; 0x00; 0x00; 0x00; 0x00; 0x00; 0x00; 0x00; 0x00; 0x00];
  [0x00; 0x00; 0x00; 0x00; 0x00; 0x00; 0x00; 0x00; 0x00; 0x00; 0x00; 0x00];
  [0x00; 0x00; 0x00; 0x00; 0x00; 0x00; 0x00; 0x00; 0x00; 0x00; 0x00; 0x00];
  [0x00; 0x00; 0x00; 0x00; 0x00; 0x00; 0x00; 0x00; 0x00; 0x00; 0x00; 0x00];
  [0x00; 0x00; 0x00; 0x00; 0x00; 0x00; 0x00; 0x00; 0x00; 0x00; 0x00; 0x00];
  [0x00; 0x00; 0x00; 0x00; 0x00; 0x00; 0x00; 0x00; 0x00; 0x00; 0x00; 0x00];
  [0x00; 0x00; 0x00; 0x00; 0x00; 0x00; 0x00; 0x00; 0x00; 0x00; 0x00; 0x00];
  [0x00; 0x00; 0x00; 0x00; 0x00; 0x00; 0x00; 0x00; 0x00; 0x00; 0x00; 0x00];
  [0x00; 0x00; 0x00; 0x00; 0x00; 0x00; 0x00; 0x00; 0x00; 0x00; 0x00; 0x00];
  [0x00; 0x00; 0x00; 0x00; 0x00; 0x00; 0x00; 0x00; 0x00; 0x00; 0x00; 0x00];
  [0x00; 0x00; 0x00; 0x00; 0x00; 0x00; 0x00; 0x00; 0x00; 0x00; 0x00; 0x00];
  [0x00; 0x00; 0x00; 0x00; 0x00; 0x00; 0x00; 0x00; 0x00; 0x00; 0x00; 0x00];
  [0x00; 0x00; 0x00; 0x00; 0x00; 0x00; 0x00; 0x00; 0x00; 0x00; 0x00; 0x00];
  [0x00; 0x00; 0x00; 0x00; 0x00; 0x00; 0x00; 0x00; 0x00; 0x00; 0x00; 0x00];
  [0x00; 0x00; 0x00; 0x00; 0x00; 0x00; 0x00; 0x00; 0x00; 0x00; 0x00; 0x00];
  [0x00; 0x00; 0x00; 0x00; 0x00; 0x00; 0x00; 0x00; 0x00; 0x00; 0x00; 0x00];
  [0x00; 0x00; 0x00; 0x00; 0x00; 0x00; 0x00; 0x00; 0x00; 0x00; 0x00; 0x00];
  [0x00; 0x00; 0x00; 0x00; 0x00; 0x00; 0x00; 0x00; 0x00; 0x00; 0x00; 0x00];
  [0x00; 0x00; 0x00; 0x00; 0x00; 0x00; 0x00; 0x00; 0x00; 0x00; 0x00; 0x00];
  [0x00; 0x00; 0x00; 0x00; 0x00; 0x00; 0x00; 0x00; 0x00; 0x00; 0x00; 0x00];
  [0x00; 0x00; 0x00; 0x00; 0x00; 0x00; 0x00; 0x00; 0x00; 0x00; 0x00; 0x00];
  [0x00; 0x00; 0x00; 0x00; 0x00; 0x00; 0x00; 0x00; 0x00; 0x00; 0x00; 0x00];
  [0x00; 0x00; 0x00; 0x00; 0x00; 0x00; 0x00; 0x00; 0x00; 0x00; 0x00; 0x00];
  [0x00; 0x00; 0x00; 0x00; 0x00; 0x00; 0x00; 0x00; 0x00; 0x00; 0x00; 0x00];
  [0x00; 0x00; 0x00; 0x00; 0x00; 0x00; 0x00; 0x00; 0x00; 0x00; 0x00; 0x00];
  [0x00; 0x00; 0x00; 0x00; 0x00; 0x00; 0x00; 0x00; 0x00; 0x00; 0x00; 0x00];
  [0x00; 0x00; 0x00; 0x00; 0x00; 0x00; 0x00; 0x00; 0x00; 0x00; 0x00; 0x00];
  [0x00; 0x00; 0x00; 0x00; 0x00; 0x00; 0x00; 0x00; 0x00; 0x00; 0x00; 0x00];
  [0x00; 0x00; 0x00; 0x00; 0x00; 0x00; 0x00; 0x00; 0x00; 0x00; 0x00; 0x00];
  [0x00; 0x00; 0x00; 0x00; 0x00; 0x00; 0x00; 0x00; 0x00; 0x00; 0x00; 0x00];
  [0x00; 0x00; 0x00; 0x00; 0x00; 0x00; 0x00; 0x00; 0x00; 0x00; 0x00; 0x00];
  [0x00; 0x00; 0x00; 0x00; 0x00; 0x00; 0x00; 0x00; 0x00; 0x00; 0x00; 0x00];
  [0x00; 0x00; 0x00; 0x00; 0x00; 0x00; 0x00; 0x00; 0x00; 0x00; 0x00; 0x00];
  [0x00; 0x00; 0x00; 0x00; 0x00; 0x00; 0x00; 0x00; 0x00; 0x00; 0x00; 0x00];
  [0x00; 0x00; 0x00; 0x00; 0x00; 0x00; 0x00; 0x00; 0x00; 0x00; 0x00; 0x00];
  [0x00; 0x00; 0x00; 0x00; 0x00; 0x00; 0x00; 0x00; 0x00; 0x00; 0x00; 0x00];
  [0x00; 0x00; 0x00; 0x00; 0x00; 0x00; 0x00; 0x00; 0x00; 0x00; 0x00; 0x00];
  [0x00; 0x00; 0x00; 0x00; 0x00; 0x00; 0x00; 0x00; 0x00; 0x00; 0x00; 0x00];
  [0x00; 0x00; 0x00; 0x00; 0x00; 0x00; 0x00; 0x00; 0x00; 0x00; 0x00; 0x00];
  [0x00; 0x00; 0x00; 0x00; 0x00; 0x00; 0x00; 0x00; 0x00; 0x00; 0x00; 0x00];
  [0x00; 0x00; 0x00; 0x00; 0x00; 0x00; 0x00; 0x00; 0x00; 0x00; 0x00; 0x00];
  [0x00; 0x00; 0x00; 0x00; 0x00; 0x00; 0x00; 0x00; 0x00; 0x00; 0x00; 0x00];
  [0x00; 0x00; 0x00; 0x00; 0x00; 0x00; 0x00; 0x00; 0x00; 0x00; 0x00; 0x00];
  [0x00; 0x00; 0x00; 0x00; 0x00; 0x00; 0x00; 0x00; 0x00; 0x00; 0x00; 0x00];
  [0x00; 0x00; 0x00; 0x00; 0x00; 0x00; 0x00; 0x00; 0x00; 0x00; 0x00; 0x00];
  [0x00; 0x00; 0x00; 0x00; 0x00; 0x00; 0x00; 0x00; 0x00; 0x00; 0x00; 0x00];
  [0x00; 0x00; 0x00; 0x00; 0x00; 0x00; 0x00; 0x00; 0x00; 0x00; 0x00; 0x00];
  [0x00; 0x00; 0x00; 0x00; 0x00; 0x00; 0x00; 0x00; 0x00; 0x00; 0x00; 0x00];
  [0x00; 0x00; 0x00; 0x00; 0x00; 0x00; 0x00; 0x00; 0x00; 0x00; 0x00; 0x00];
  [0x00; 0x00; 0x00; 0x00; 0x00; 0x00; 0x00; 0x00; 0x00; 0x00; 0x00; 0x00];
  [0x00; 0x00; 0x00; 0x00; 0x00; 0x00; 0x00; 0x00; 0x00; 0x00; 0x00; 0x00];
  [0x00; 0x00; 0x00; 0x00; 0x00; 0x00; 0x00; 0x00; 0x00; 0x00; 0x00; 0x00];
  [0x00; 0x00; 0x00; 0x00; 0x00; 0x00; 0x00; 0x00; 0x00; 0x00; 0x00; 0x00];
  [0x00; 0x00; 0x00; 0x00; 0x00; 0x00; 0x00; 0x00; 0x00; 0x00; 0x00; 0x00];
  [0x00; 0x00; 0x00; 0x00; 0x00; 0x00; 0x00; 0x00; 0x00; 0x00; 0x00; 0x00];
  [0x00; 0x00; 0x00; 0x00; 0x00; 0x00; 0x00; 0x00; 0x00; 0x00; 0x00; 0x00];
  [0x00; 0x00; 0x00; 0x00; 0x00; 0x00; 0x00; 0x00; 0x00; 0x00; 0x00; 0x00];
  [0x00; 0x00; 0x00; 0x00; 0x00; 0x00; 0x00; 0x00; 0x00; 0x00; 0x00; 0x00];
  [0x00; 0x00; 0x00; 0x00; 0x00; 0x00; 0x00; 0x00; 0x00; 0x00; 0x00; 0x00];
  [0x00; 0x00; 0x00; 0x00; 0x00; 0x00; 0x00; 0x00; 0x00; 0x00; 0x00; 0x00];
  [0x00; 0x00; 0x00; 0x00; 0x00; 0x00; 0x00; 0x00; 0x00; 0x00; 0x00; 0x00];
  [0x00; 0x00; 0x00; 0x00; 0x00; 0x00; 0x00; 0x00; 0x00; 0x00; 0x00; 0x00];
  [0x00; 0x00; 0x00; 0x00; 0x00; 0x00; 0x00; 0x00; 0x00; 0x00; 0x00; 0x00];
  [0x00; 0x00; 0x00; 0x00; 0x00; 0x00; 0x00; 0x00; 0x00; 0x00; 0x00; 0x00];
  [0x00; 0x00; 0x00; 0x00; 0x00; 0x00; 0x00; 0x00; 0x00; 0x00; 0x00; 0x00];
  [0x00; 0x00; 0x00; 0x00; 0x00; 0x00; 0x00; 0x00; 0x00; 0x00; 0x00; 0x00];
  [0x00; 0x00; 0x00; 0x00; 0x00; 0x00; 0x00; 0x00; 0x00; 0x00; 0x00; 0x00];
  [0x00; 0x00; 0x00; 0x00; 0x00; 0x00; 0x00; 0x00; 0x00; 0x00; 0x00; 0x00];
  [0x00; 0x00; 0x00; 0x00; 0x00; 0x00; 0x00; 0x00; 0x00; 0x00; 0x00; 0x00];
  [0x00; 0x00; 0x00; 0x00; 0x00; 0x00; 0x00; 0x00; 0x00; 0x00; 0x00; 0x00];
  [0x00; 0x00; 0x00; 0x00; 0x00; 0x00; 0x00; 0x00; 0x00; 0x00; 0x00; 0x00];
  [0x00; 0x00; 0x00; 0x00; 0x00; 0x00; 0x00; 0x00; 0x00; 0x00; 0x00; 0x00];
  [0x00; 0x00; 0x00; 0x00; 0x00; 0x00; 0x00; 0x00; 0x00; 0x00; 0x00; 0x00];
  [0x00; 0x00; 0x00; 0x00; 0x00; 0x00; 0x00; 0x00; 0x00; 0x00; 0x00; 0x00];
  [0x00; 0x00; 0x00; 0x00; 0x00; 0x00; 0x00; 0x00; 0x00; 0x00; 0x00; 0x00];
  [0x00; 0x00; 0x00; 0x00; 0x00; 0x00; 0x00; 0x00; 0x00; 0x00; 0x00; 0x00];
  [0x00; 0x00; 0x00; 0x00; 0x00; 0x00; 0x00; 0x00; 0x00; 0x00; 0x00; 0x00];
  [0x00; 0x00; 0x00; 0x00; 0x00; 0x00; 0x00; 0x00; 0x00; 0x00; 0x00; 0x00];
  [0x00; 0x00; 0x00; 0x00; 0x00; 0x00; 0x00; 0x00; 0x00; 0x00; 0x00; 0x00];
  [0x00; 0x00; 0x00; 0x00; 0x00; 0x00; 0x00; 0x00; 0x00; 0x00; 0x00; 0x00];
  [0x00; 0x00; 0x00; 0x00; 0x00; 0x00; 0x00; 0x00; 0x00; 0x00; 0x00; 0x00];
  [0x00; 0x00; 0x00; 0x00; 0x00; 0x00; 0x00; 0x00; 0x00; 0x00; 0x00; 0x00];
  [0x00; 0x00; 0x00; 0x00; 0x00; 0x00; 0x00; 0x00; 0x00; 0x00; 0x00; 0x00];
  [0x00; 0x00; 0x00; 0x00; 0x00; 0x00; 0x00; 0x00; 0x00; 0x00; 0x00; 0x00];
  [0x00; 0x00; 0x00; 0x00; 0x00; 0x00; 0x00; 0x00; 0x00; 0x00; 0x00; 0x00];
  [0x00; 0x00; 0x00; 0x00; 0x00; 0x00; 0x00; 0x00; 0x00; 0x00; 0x00; 0x00];
  [0x00; 0x00; 0x00; 0x00; 0x00; 0x00; 0x00; 0x00; 0x00; 0x00; 0x00; 0x00];
  [0x00; 0x00; 0x00; 0x00; 0x00; 0x00; 0x00; 0x00; 0x00; 0x00; 0x00; 0x00];
  [0x00; 0x00; 0x00; 0x00; 0x00; 0x00; 0x00; 0x00; 0x00; 0x00; 0x00; 0x00];
  [0x00; 0x00; 0x00; 0x00; 0x00; 0x00; 0x00; 0x00; 0x00; 0x00; 0x00; 0x00];
  [0x00; 0x00; 0x00; 0x00; 0x00; 0x00; 0x00; 0x00; 0x00; 0x00; 0x00; 0x00];
  [0x00; 0x00; 0x00; 0x00; 0x00; 0x00; 0x00; 0x00; 0x00; 0x00; 0x00; 0x00];
  [0x00; 0x00; 0x00; 0x00; 0x00; 0x00; 0x00; 0x00; 0x00; 0x00; 0x00; 0x00];
  [0x00; 0x00; 0x00; 0x00; 0x00; 0x00; 0x00; 0x00; 0x00; 0x00; 0x00; 0x00];
  [0x00; 0x00; 0x00; 0x00; 0x00; 0x00; 0x00; 0x00; 0x00; 0x00; 0x00; 0x00];
  [0x00; 0x00; 0x00; 0x00; 0x00; 0x00; 0x00; 0x00; 0x00; 0x00; 0x00; 0x00];
  [0x00; 0x00; 0x00; 0x00; 0x00; 0x00; 0x00; 0x00; 0x00; 0x00; 0x00; 0x00];
  [0x00; 0x00; 0x00; 0x00; 0x00; 0x00; 0x00; 0x00; 0x00; 0x00; 0x00; 0x00];
  [0x00; 0x00; 0x00; 0x00; 0x00; 0x00; 0x00; 0x00; 0x00; 0x00; 0x00; 0x00];
  [0x00; 0x00; 0x00; 0x00; 0x00; 0x00; 0x00; 0x00; 0x00; 0x00; 0x00; 0x00];
  [0x00; 0x00; 0x00; 0x00; 0x00; 0x00; 0x00; 0x00; 0x00; 0x00; 0x00; 0x00];
  [0x00; 0x00; 0x00; 0x00; 0x00; 0x00; 0x00; 0x00; 0x00; 0x00; 0x00; 0x00];
  [0x00; 0x00; 0x00; 0x00; 0x00; 0x00; 0x00; 0x00; 0x00; 0x00; 0x00; 0x00];
  [0x00; 0x00; 0x00; 0x00; 0x00; 0x00; 0x00; 0x00; 0x00; 0x00; 0x00; 0x00];
  [0x00; 0x00; 0x00; 0x00; 0x00; 0x00; 0x00; 0x00; 0x00; 0x00; 0x00; 0x00];
  [0x00; 0x00; 0x00; 0x00; 0x00; 0x00; 0x00; 0x00; 0x00; 0x00; 0x00; 0x00];
  [0x00; 0x00; 0x00; 0x00; 0x00; 0x00; 0x00; 0x00; 0x00; 0x00; 0x00; 0x00];
  [0x00; 0x00; 0x00; 0x00; 0x00; 0x00; 0x00; 0x00; 0x00; 0x00; 0x00; 0x00];
  [0x00; 0x00; 0x00; 0x00; 0x00; 0x00; 0x00; 0x00; 0x00; 0x00; 0x00; 0x00];
  [0x00; 0x00; 0x00; 0x00; 0x00; 0x00; 0x00; 0x00; 0x00; 0x00; 0x00; 0x00];
  [0x00; 0x00; 0x00; 0x00; 0x00; 0x00; 0x00; 0x00; 0x00; 0x00; 0x00; 0x00];
  [0x00; 0x00; 0x00; 0x00; 0x00; 0x00; 0x00; 0x00; 0x00; 0x00; 0x00; 0x00];
  [0x00; 0x00; 0x00; 0x00; 0x00; 0x00; 0x00; 0x00; 0x00; 0x00; 0x00; 0x00];
  [0x00; 0x00; 0x00; 0x00; 0x00; 0x00; 0x00; 0x00; 0x00; 0x00; 0x00; 0x00];
  [0x00; 0x00; 0x00; 0x00; 0x00; 0x00; 0x00; 0x00; 0x00; 0x00; 0x00; 0x00];
  [0x00; 0x00; 0x00; 0x00; 0x00; 0x00; 0x00; 0x00; 0x00; 0x00; 0x00; 0x00];
  [0x00; 0x00; 0x00; 0x00; 0x00; 0x00; 0x00; 0x00; 0x00; 0x00; 0x00; 0x00];
  [0x00; 0x00; 0x00; 0x00; 0x00; 0x00; 0x00; 0x00; 0x00; 0x00; 0x00; 0x00];
  [0x00; 0x00; 0x00; 0x00; 0x00; 0x00; 0x00; 0x00; 0x00; 0x00; 0x00; 0x00];
  [0x00; 0x00; 0x00; 0x00; 0x00; 0x00; 0x00; 0x00; 0x00; 0x00; 0x00; 0x00];
  [0x00; 0x00; 0x00; 0x00; 0x00; 0x00; 0x00; 0x00; 0x30; 0x10; 0x40; 0x00];
  [0x00; 0x00; 0x00; 0x00; 0x44; 0x10; 0x40; 0x00; 0x00; 0x00; 0x00; 0x00];
  [0x00; 0x00; 0x00; 0x00; 0x00; 0x00; 0x00; 0x00; 0xee; 0xff; 0xc0; 0x00];
  [0x47; 0x43; 0x43; 0x3a; 0x20; 0x28; 0x47; 0x4e; 0x55; 0x29; 0x20; 0x31];
  [0x35; 0x2e; 0x32; 0x2e; 0x31; 0x20; 0x32; 0x30; 0x32; 0x35; 0x31; 0x32];
  [0x31; 0x31; 0x20; 0x28; 0x52; 0x65; 0x64; 0x20; 0x48; 0x61; 0x74; 0x20];
  [0x31; 0x35; 0x2e; 0x32; 0x2e; 0x31; 0x2d; 0x35; 0x29; 0x00; 0x00; 0x00];
  [0x00; 0x00; 0x00; 0x00; 0x00; 0x00; 0x00; 0x00; 0x00; 0x00; 0x00; 0x00];
  [0x00; 0x00; 0x00; 0x00; 0x00; 0x00; 0x00; 0x00; 0x00; 0x00; 0x00; 0x00];
  [0x00; 0x00; 0x00; 0x00; 0x01; 0x00; 0x00; 0x00; 0x04; 0x00; 0xf1; 0xff];
  [0x00; 0x00; 0x00; 0x00; 0x00; 0x00; 0x00; 0x00; 0x00; 0x00; 0x00; 0x00];
  [0x00; 0x00; 0x00; 0x00; 0x08; 0x00; 0x00; 0x00; 0x02; 0x00; 0x01; 0x00];
  [0x00; 0x02; 0x40; 0x00; 0x00; 0x00; 0x00; 0x00; 0x7a; 0x00; 0x00; 0x00];
  [0x00; 0x00; 0x00; 0x00; 0x11; 0x00; 0x00; 0x00; 0x01; 0x00; 0x06; 0x00];
  [0x18; 0x20; 0x40; 0x00; 0x00; 0x00; 0x00; 0x00; 0x04; 0x00; 0x00; 0x00];
  [0x00; 0x00; 0x00; 0x00; 0x1b; 0x00; 0x00; 0x00; 0x01; 0x00; 0x06; 0x00];
  [0x00; 0x20; 0x40; 0x00; 0x00; 0x00; 0x00; 0x00; 0x18; 0x00; 0x00; 0x00];
  [0x00; 0x00; 0x00; 0x00; 0x22; 0x00; 0x00; 0x00; 0x04; 0x00; 0xf1; 0xff];
  [0x00; 0x00; 0x00; 0x00; 0x00; 0x00; 0x00; 0x00; 0x00; 0x00; 0x00; 0x00];
  [0x00; 0x00; 0x00; 0x00; 0x00; 0x00; 0x00; 0x00; 0x04; 0x00; 0xf1; 0xff];
  [0x00; 0x00; 0x00; 0x00; 0x00; 0x00; 0x00; 0x00; 0x00; 0x00; 0x00; 0x00];
  [0x00; 0x00; 0x00; 0x00; 0x29; 0x00; 0x00; 0x00; 0x00; 0x00; 0x04; 0x00];
  [0x88; 0x10; 0x40; 0x00; 0x00; 0x00; 0x00; 0x00; 0x00; 0x00; 0x00; 0x00];
  [0x00; 0x00; 0x00; 0x00; 0x3c; 0x00; 0x00; 0x00; 0x12; 0x00; 0x01; 0x00];
  [0xa0; 0x05; 0x40; 0x00; 0x00; 0x00; 0x00; 0x00; 0x38; 0x00; 0x00; 0x00];
  [0x00; 0x00; 0x00; 0x00; 0x43; 0x00; 0x00; 0x00; 0x12; 0x00; 0x01; 0x00];
  [0xe0; 0x05; 0x40; 0x00; 0x00; 0x00; 0x00; 0x00; 0x34; 0x00; 0x00; 0x00];
  [0x00; 0x00; 0x00; 0x00; 0x4a; 0x00; 0x00; 0x00; 0x12; 0x00; 0x01; 0x00];
  [0xa0; 0x06; 0x40; 0x00; 0x00; 0x00; 0x00; 0x00; 0x0b; 0x00; 0x00; 0x00];
  [0x00; 0x00; 0x00; 0x00; 0x55; 0x00; 0x00; 0x00; 0x12; 0x00; 0x01; 0x00];
  [0x80; 0x06; 0x40; 0x00; 0x00; 0x00; 0x00; 0x00; 0x0e; 0x00; 0x00; 0x00];
  [0x00; 0x00; 0x00; 0x00; 0x63; 0x00; 0x00; 0x00; 0x12; 0x00; 0x01; 0x00];
  [0x80; 0x02; 0x40; 0x00; 0x00; 0x00; 0x00; 0x00; 0x6b; 0x02; 0x00; 0x00];
  [0x00; 0x00; 0x00; 0x00; 0x5e; 0x00; 0x00; 0x00; 0x10; 0x00; 0x06; 0x00];
  [0x1c; 0x20; 0x40; 0x00; 0x00; 0x00; 0x00; 0x00; 0x00; 0x00; 0x00; 0x00];
  [0x00; 0x00; 0x00; 0x00; 0x6a; 0x00; 0x00; 0x00; 0x12; 0x00; 0x01; 0x00];
  [0x20; 0x06; 0x40; 0x00; 0x00; 0x00; 0x00; 0x00; 0x56; 0x00; 0x00; 0x00];
  [0x00; 0x00; 0x00; 0x00; 0x71; 0x00; 0x00; 0x00; 0x12; 0x00; 0x01; 0x00];
  [0x30; 0x05; 0x40; 0x00; 0x00; 0x00; 0x00; 0x00; 0x69; 0x00; 0x00; 0x00];
  [0x00; 0x00; 0x00; 0x00; 0x78; 0x00; 0x00; 0x00; 0x12; 0x00; 0x01; 0x00];
  [0xc0; 0x06; 0x40; 0x00; 0x00; 0x00; 0x00; 0x00; 0x08; 0x00; 0x00; 0x00];
  [0x00; 0x00; 0x00; 0x00; 0x83; 0x00; 0x00; 0x00; 0x10; 0x00; 0x06; 0x00];
  [0x1c; 0x20; 0x40; 0x00; 0x00; 0x00; 0x00; 0x00; 0x00; 0x00; 0x00; 0x00];
  [0x00; 0x00; 0x00; 0x00; 0x8a; 0x00; 0x00; 0x00; 0x10; 0x00; 0x06; 0x00];
  [0x20; 0x20; 0x40; 0x00; 0x00; 0x00; 0x00; 0x00; 0x00; 0x00; 0x00; 0x00];
  [0x00; 0x00; 0x00; 0x00; 0x8f; 0x00; 0x00; 0x00; 0x12; 0x00; 0x01; 0x00];
  [0x00; 0x05; 0x40; 0x00; 0x00; 0x00; 0x00; 0x00; 0x2b; 0x00; 0x00; 0x00];
  [0x00; 0x00; 0x00; 0x00; 0x96; 0x00; 0x00; 0x00; 0x12; 0x00; 0x01; 0x00];
  [0x90; 0x06; 0x40; 0x00; 0x00; 0x00; 0x00; 0x00; 0x08; 0x00; 0x00; 0x00];
  [0x00; 0x00; 0x00; 0x00; 0x9f; 0x00; 0x00; 0x00; 0x12; 0x00; 0x01; 0x00];
  [0xb0; 0x06; 0x40; 0x00; 0x00; 0x00; 0x00; 0x00; 0x08; 0x00; 0x00; 0x00];
  [0x00; 0x00; 0x00; 0x00; 0x00; 0x66; 0x75; 0x7a; 0x7a; 0x2e; 0x63; 0x00];
  [0x72; 0x61; 0x6e; 0x64; 0x5f; 0x70; 0x74; 0x72; 0x00; 0x6c; 0x63; 0x67];
  [0x5f; 0x73; 0x74; 0x61; 0x74; 0x65; 0x00; 0x61; 0x72; 0x67; 0x76; 0x2e];
  [0x30; 0x00; 0x6c; 0x69; 0x62; 0x63; 0x2e; 0x63; 0x00; 0x5f; 0x5f; 0x47];
  [0x4e; 0x55; 0x5f; 0x45; 0x48; 0x5f; 0x46; 0x52; 0x41; 0x4d; 0x45; 0x5f];
  [0x48; 0x44; 0x52; 0x00; 0x73; 0x74; 0x72; 0x63; 0x70; 0x79; 0x00; 0x6d];
  [0x65; 0x6d; 0x63; 0x70; 0x79; 0x00; 0x73; 0x79; 0x73; 0x5f; 0x73; 0x70];
  [0x61; 0x77; 0x6e; 0x32; 0x00; 0x73; 0x79; 0x73; 0x5f; 0x64; 0x75; 0x70];
  [0x32; 0x00; 0x5f; 0x5f; 0x62; 0x73; 0x73; 0x5f; 0x73; 0x74; 0x61; 0x72];
  [0x74; 0x00; 0x6d; 0x65; 0x6d; 0x73; 0x65; 0x74; 0x00; 0x73; 0x74; 0x72];
  [0x63; 0x6d; 0x70; 0x00; 0x73; 0x79; 0x73; 0x5f; 0x67; 0x65; 0x74; 0x63];
  [0x77; 0x64; 0x00; 0x5f; 0x65; 0x64; 0x61; 0x74; 0x61; 0x00; 0x5f; 0x65];
  [0x6e; 0x64; 0x00; 0x73; 0x74; 0x72; 0x6c; 0x65; 0x6e; 0x00; 0x73; 0x79];
  [0x73; 0x5f; 0x70; 0x69; 0x70; 0x65; 0x00; 0x73; 0x79; 0x73; 0x5f; 0x63];
  [0x68; 0x64; 0x69; 0x72; 0x00; 0x00; 0x2e; 0x73; 0x79; 0x6d; 0x74; 0x61];
  [0x62; 0x00; 0x2e; 0x73; 0x74; 0x72; 0x74; 0x61; 0x62; 0x00; 0x2e; 0x73];
  [0x68; 0x73; 0x74; 0x72; 0x74; 0x61; 0x62; 0x00; 0x2e; 0x74; 0x65; 0x78];
  [0x74; 0x00; 0x2e; 0x6e; 0x6f; 0x74; 0x65; 0x2e; 0x67; 0x6e; 0x75; 0x2e];
  [0x70; 0x72; 0x6f; 0x70; 0x65; 0x72; 0x74; 0x79; 0x00; 0x2e; 0x72; 0x6f];
  [0x64; 0x61; 0x74; 0x61; 0x00; 0x2e; 0x65; 0x68; 0x5f; 0x66; 0x72; 0x61];
  [0x6d; 0x65; 0x5f; 0x68; 0x64; 0x72; 0x00; 0x2e; 0x65; 0x68; 0x5f; 0x66];
  [0x72; 0x61; 0x6d; 0x65; 0x00; 0x2e; 0x64; 0x61; 0x74; 0x61; 0x00; 0x2e];
  [0x63; 0x6f; 0x6d; 0x6d; 0x65; 0x6e; 0x74; 0x00; 0x00; 0x00; 0x00; 0x00];
  [0x00; 0x00; 0x00; 0x00; 0x00; 0x00; 0x00; 0x00; 0x00; 0x00; 0x00; 0x00];
  [0x00; 0x00; 0x00; 0x00; 0x00; 0x00; 0x00; 0x00; 0x00; 0x00; 0x00; 0x00];
  [0x00; 0x00; 0x00; 0x00; 0x00; 0x00; 0x00; 0x00; 0x00; 0x00; 0x00; 0x00];
  [0x00; 0x00; 0x00; 0x00; 0x00; 0x00; 0x00; 0x00; 0x00; 0x00; 0x00; 0x00];
  [0x00; 0x00; 0x00; 0x00; 0x00; 0x00; 0x00; 0x00; 0x00; 0x00; 0x00; 0x00];
  [0x00; 0x00; 0x00; 0x00; 0x1b; 0x00; 0x00; 0x00; 0x01; 0x00; 0x00; 0x00];
  [0x06; 0x00; 0x00; 0x00; 0x00; 0x00; 0x00; 0x00; 0x00; 0x02; 0x40; 0x00];
  [0x00; 0x00; 0x00; 0x00; 0x00; 0x02; 0x00; 0x00; 0x00; 0x00; 0x00; 0x00];
  [0xc8; 0x04; 0x00; 0x00; 0x00; 0x00; 0x00; 0x00; 0x00; 0x00; 0x00; 0x00];
  [0x00; 0x00; 0x00; 0x00; 0x40; 0x00; 0x00; 0x00; 0x00; 0x00; 0x00; 0x00];
  [0x00; 0x00; 0x00; 0x00; 0x00; 0x00; 0x00; 0x00; 0x21; 0x00; 0x00; 0x00];
  [0x07; 0x00; 0x00; 0x00; 0x02; 0x00; 0x00; 0x00; 0x00; 0x00; 0x00; 0x00];
  [0x00; 0x10; 0x40; 0x00; 0x00; 0x00; 0x00; 0x00; 0x00; 0x10; 0x00; 0x00];
  [0x00; 0x00; 0x00; 0x00; 0x30; 0x00; 0x00; 0x00; 0x00; 0x00; 0x00; 0x00];
  [0x00; 0x00; 0x00; 0x00; 0x00; 0x00; 0x00; 0x00; 0x08; 0x00; 0x00; 0x00];
  [0x00; 0x00; 0x00; 0x00; 0x00; 0x00; 0x00; 0x00; 0x00; 0x00; 0x00; 0x00];
  [0x34; 0x00; 0x00; 0x00; 0x01; 0x00; 0x00; 0x00; 0x02; 0x00; 0x00; 0x00];
  [0x00; 0x00; 0x00; 0x00; 0x30; 0x10; 0x40; 0x00; 0x00; 0x00; 0x00; 0x00];
  [0x30; 0x10; 0x00; 0x00; 0x00; 0x00; 0x00; 0x00; 0x58; 0x00; 0x00; 0x00];
  [0x00; 0x00; 0x00; 0x00; 0x00; 0x00; 0x00; 0x00; 0x00; 0x00; 0x00; 0x00];
  [0x08; 0x00; 0x00; 0x00; 0x00; 0x00; 0x00; 0x00; 0x00; 0x00; 0x00; 0x00];
  [0x00; 0x00; 0x00; 0x00; 0x3c; 0x00; 0x00; 0x00; 0x01; 0x00; 0x00; 0x00];
  [0x02; 0x00; 0x00; 0x00; 0x00; 0x00; 0x00; 0x00; 0x88; 0x10; 0x40; 0x00];
  [0x00; 0x00; 0x00; 0x00; 0x88; 0x10; 0x00; 0x00; 0x00; 0x00; 0x00; 0x00];
  [0x6c; 0x00; 0x00; 0x00; 0x00; 0x00; 0x00; 0x00; 0x00; 0x00; 0x00; 0x00];
  [0x00; 0x00; 0x00; 0x00; 0x04; 0x00; 0x00; 0x00; 0x00; 0x00; 0x00; 0x00];
  [0x00; 0x00; 0x00; 0x00; 0x00; 0x00; 0x00; 0x00; 0x4a; 0x00; 0x00; 0x00];
  [0x01; 0x00; 0x00; 0x00; 0x02; 0x00; 0x00; 0x00; 0x00; 0x00; 0x00; 0x00];
  [0xf8; 0x10; 0x40; 0x00; 0x00; 0x00; 0x00; 0x00; 0xf8; 0x10; 0x00; 0x00];
  [0x00; 0x00; 0x00; 0x00; 0x10; 0x01; 0x00; 0x00; 0x00; 0x00; 0x00; 0x00];
  [0x00; 0x00; 0x00; 0x00; 0x00; 0x00; 0x00; 0x00; 0x08; 0x00; 0x00; 0x00];
  [0x00; 0x00; 0x00; 0x00; 0x00; 0x00; 0x00; 0x00; 0x00; 0x00; 0x00; 0x00];
  [0x54; 0x00; 0x00; 0x00; 0x01; 0x00; 0x00; 0x00; 0x03; 0x00; 0x00; 0x00];
  [0x00; 0x00; 0x00; 0x00; 0x00; 0x20; 0x40; 0x00; 0x00; 0x00; 0x00; 0x00];
  [0x00; 0x20; 0x00; 0x00; 0x00; 0x00; 0x00; 0x00; 0x1c; 0x00; 0x00; 0x00];
  [0x00; 0x00; 0x00; 0x00; 0x00; 0x00; 0x00; 0x00; 0x00; 0x00; 0x00; 0x00];
  [0x10; 0x00; 0x00; 0x00; 0x00; 0x00; 0x00; 0x00; 0x00; 0x00; 0x00; 0x00];
  [0x00; 0x00; 0x00; 0x00; 0x5a; 0x00; 0x00; 0x00; 0x01; 0x00; 0x00; 0x00];
  [0x30; 0x00; 0x00; 0x00; 0x00; 0x00; 0x00; 0x00; 0x00; 0x00; 0x00; 0x00];
  [0x00; 0x00; 0x00; 0x00; 0x1c; 0x20; 0x00; 0x00; 0x00; 0x00; 0x00; 0x00];
  [0x2e; 0x00; 0x00; 0x00; 0x00; 0x00; 0x00; 0x00; 0x00; 0x00; 0x00; 0x00];
  [0x00; 0x00; 0x00; 0x00; 0x01; 0x00; 0x00; 0x00; 0x00; 0x00; 0x00; 0x00];
  [0x01; 0x00; 0x00; 0x00; 0x00; 0x00; 0x00; 0x00; 0x01; 0x00; 0x00; 0x00];
  [0x02; 0x00; 0x00; 0x00; 0x00; 0x00; 0x00; 0x00; 0x00; 0x00; 0x00; 0x00];
  [0x00; 0x00; 0x00; 0x00; 0x00; 0x00; 0x00; 0x00; 0x50; 0x20; 0x00; 0x00];
  [0x00; 0x00; 0x00; 0x00; 0x10; 0x02; 0x00; 0x00; 0x00; 0x00; 0x00; 0x00];
  [0x09; 0x00; 0x00; 0x00; 0x08; 0x00; 0x00; 0x00; 0x08; 0x00; 0x00; 0x00];
  [0x00; 0x00; 0x00; 0x00; 0x18; 0x00; 0x00; 0x00; 0x00; 0x00; 0x00; 0x00];
  [0x09; 0x00; 0x00; 0x00; 0x03; 0x00; 0x00; 0x00; 0x00; 0x00; 0x00; 0x00];
  [0x00; 0x00; 0x00; 0x00; 0x00; 0x00; 0x00; 0x00; 0x00; 0x00; 0x00; 0x00];
  [0x60; 0x22; 0x00; 0x00; 0x00; 0x00; 0x00; 0x00; 0xa9; 0x00; 0x00; 0x00];
  [0x00; 0x00; 0x00; 0x00; 0x00; 0x00; 0x00; 0x00; 0x00; 0x00; 0x00; 0x00];
  [0x01; 0x00; 0x00; 0x00; 0x00; 0x00; 0x00; 0x00; 0x00; 0x00; 0x00; 0x00];
  [0x00; 0x00; 0x00; 0x00; 0x11; 0x00; 0x00; 0x00; 0x03; 0x00; 0x00; 0x00];
  [0x00; 0x00; 0x00; 0x00; 0x00; 0x00; 0x00; 0x00; 0x00; 0x00; 0x00; 0x00];
  [0x00; 0x00; 0x00; 0x00; 0x09; 0x23; 0x00; 0x00; 0x00; 0x00; 0x00; 0x00];
  [0x63; 0x00; 0x00; 0x00; 0x00; 0x00; 0x00; 0x00; 0x00; 0x00; 0x00; 0x00];
  [0x00; 0x00; 0x00; 0x00; 0x01; 0x00; 0x00; 0x00; 0x00; 0x00; 0x00; 0x00];
  [0x00; 0x00; 0x00; 0x00; 0x00; 0x00; 0x00; 0x00]].
Definition user_image_fuzz_len : Z := 9776.

End Images.
