(* ===== verification/Programs.v ===== *)
(** * The programs in the kernel start

    The loader of Elf.v and User.v applied to the seven images of Images.v:
    each is accepted, whatever surrounds it in the kernel, and its first
    instruction is mapped, executable and read-only; the boot thread starts
    /bin/init. *)

From S2P Require Import Prelude Memory Pmm Mmu MmuTree UserSpace Elf.
From S2P Require Import CString Pipe Irq Tty Paths Bytes Memfs User Alloc.
From S2P Require Import Sched SchedList SchedInv SchedSwitch SchedSpec SchedWait SchedSteps.
From S2P Require Import Ramfs State Fat Vfs VfsInv VfsSpec VfsIo Handles UserPtr Syscall SyscallSpec SyscallInv SyscallSafe Launch.
From S2P Require Import Images.
From stdpp Require Import options.
Import Pmm Mmu MmuTree UserSpace Elf CString Memfs User Sched SchedInv Vfs Handles Syscall SyscallInv SyscallSafe Launch.

Module Programs.

Definition built_in : user_images :=
  mk_images Images.user_image_hello Images.user_image_shell Images.user_image_init Images.user_image_echo
    Images.user_image_ls Images.user_image_cat Images.user_image_fuzz.

(** The declared lengths are the lengths of the arrays. *)
Lemma image_lengths :
  mf_size <$> memfs_files (memfs_init built_in memfs_boot) =
    [Images.user_image_hello_len; Images.user_image_shell_len; Images.user_image_init_len;
     Images.user_image_echo_len; Images.user_image_ls_len; Images.user_image_cat_len; Images.user_image_fuzz_len].
Proof. vm_compute. reflexivity. Qed.

(** ** Checking an image *)

Definition segment_okb (size : Z) (ph : Elf64_Phdr) : bool :=
  (0 <? p_memsz ph) && (p_filesz ph <=? p_memsz ph) && (w64 (p_offset ph + p_filesz ph) <=? size) &&
  (p_vaddr ph + p_memsz ph <? 2 ^ 64) && (USER_BASE - 0x1000 <=? seg_start ph) &&
  (seg_end ph <=? USER_STACK_TOP - 4096).

Definition apartb (ph ph' : Elf64_Phdr) : bool :=
  negb (p_type ph =? PT_LOAD) || negb (p_type ph' =? PT_LOAD) ||
  (seg_end ph <=? seg_start ph') || (seg_end ph' <=? seg_start ph).

(** The entry point is in the file part of a segment that is mapped
    executable and read-only. *)
Definition codeb (entry : Z) (ph : Elf64_Phdr) : bool :=
  (p_type ph =? PT_LOAD) && (p_vaddr ph <=? entry) && (entry <? p_vaddr ph + p_filesz ph) &&
  (seg_start ph <=? entry) && (entry <? seg_end ph) && (leaf_flags ph =? MMU_FLAG_USER).

Definition image_okb (src : Z → Z) (size : Z) : bool :=
  let eh := ehdr_at src in
  let phdrs := phdr src <$> seqZ 0 (e_phnum eh) in
  (elf_check_header eh size =? 0) &&
  forallb (λ ph, negb (p_type ph =? PT_LOAD) || segment_okb size ph) phdrs &&
  forallb (λ j, forallb (λ i, apartb (phdr src i) (phdr src j)) (seqZ 0 j)) (seqZ 0 (e_phnum eh)) &&
  existsb (codeb (e_entry eh)) phdrs.

Lemma apartb_spec ph ph' v : apartb ph ph' = true → seg_page ph v → ¬ seg_page ph' v.
Proof. unfold apartb, seg_page. intros H [E ?] [E' ?]. rewrite E, E' in H. cbn in H. bsimp; lia. Qed.

Lemma image_okb_sound src size :
  image_okb src size = true →
  image_ok src size ∧
  (∀ i v, 0 ≤ i < e_phnum (ehdr_at src) → seg_page (phdr src i) v → v < USER_STACK_TOP - 4096) ∧
  ∃ i, 0 ≤ i < e_phnum (ehdr_at src) ∧ codeb (e_entry (ehdr_at src)) (phdr src i) = true.
Proof.
  unfold image_okb. rewrite !andb_true_iff, !forallb_forall, existsb_exists.
  intros [[[Hh Hs] Ha] (ph & Hin & Hc)].
  assert (∀ i, 0 ≤ i < e_phnum (ehdr_at src) → p_type (phdr src i) = PT_LOAD → segment_okb size (phdr src i) = true) as Hs'.
  { intros i Hi Ht. specialize (Hs (phdr src i)). rewrite Ht in Hs. apply Hs.
    apply list_elem_of_In, list_elem_of_fmap. exists i. split; [done|]. apply elem_of_seqZ. lia. }
  assert (∀ i, 0 ≤ i < e_phnum (ehdr_at src) → p_type (phdr src i) = PT_LOAD →
    segment_ok size (phdr src i) ∧ seg_end (phdr src i) ≤ USER_STACK_TOP - 4096) as Hok.
  { intros i Hi Ht. pose proof (Hs' i Hi Ht) as H. unfold segment_okb in H. rewrite !andb_true_iff in H.
    destruct H as [[[[[? ?] ?] ?] ?] ?]. split; [split|]; lia. }
  split_and!.
  - split; [by apply Z.eqb_eq|intros i Hi Ht; by apply Hok|].
    intros i j v Hi Hj. apply apartb_spec. specialize (Ha j).
    rewrite list_elem_of_In, elem_of_seqZ in Ha || rewrite <- list_elem_of_In, elem_of_seqZ in Ha.
    specialize (Ha ltac:(lia)). rewrite forallb_forall in Ha. apply Ha, list_elem_of_In, elem_of_seqZ. lia.
  - intros i v Hi [Ht Hv]. destruct (Hok i Hi Ht). lia.
  - apply list_elem_of_In, list_elem_of_fmap in Hin as (i & -> & Hi). exists i. split; [|done].
    apply elem_of_seqZ in Hi. lia.
Qed.

Section Outside.
Context (outside : Z → Z).

Lemma built_in_checked :
  forallb (λ f, image_okb (image_src outside f) (mf_size f)) (memfs_files (memfs_init built_in memfs_boot)) = true.
Proof. vm_compute. reflexivity. Qed.

Lemma built_in_ok i f :
  memfs_files (memfs_init built_in memfs_boot) !! i = Some f → image_okb (image_src outside f) (mf_size f) = true.
Proof.
  intros Hf. pose proof built_in_checked as H. rewrite forallb_forall in H.
  by apply H, list_elem_of_In, list_elem_of_lookup_2 with i.
Qed.

(** The paths of the programs. *)
Definition programs : list (list Z) :=
  [chars "/bin/hello"; chars "/bin/shell"; chars "/bin/init"; chars "/bin/echo"; chars "/bin/ls";
   chars "/bin/cat"; chars "/bin/fuzz"].

(** The table is empty or filled by [memfs_init]. *)
Definition fresh_or_ready (fs : memfs) : Prop :=
  memfs_ready fs = false ∨ fs = memfs_init built_in memfs_boot.

Lemma lookup_program fs path :
  fresh_or_ready fs → path ∈ programs →
  ∃ i f, memfs_lookup built_in fs (Some path) = (Some i, memfs_init built_in memfs_boot) ∧
    memfs_files (memfs_init built_in memfs_boot) !! i = Some f.
Proof using Type.
  clear outside. intros Hfs Hp.
  assert (memfs_init built_in fs = memfs_init built_in memfs_boot) as E.
  { destruct Hfs as [Hr| ->]; [|done]. unfold memfs_init. by rewrite Hr. }
  unfold memfs_lookup. rewrite E.
  assert (Forall (λ p, is_Some (find_file 0 (memfs_files (memfs_init built_in memfs_boot)) p)) programs) as H
    by (repeat constructor; vm_compute; by eexists).
  rewrite Forall_forall in H. destruct (H path Hp) as [i Hi]. rewrite Hi.
  destruct (find_file_Some _ _ _ _ Hi) as (f & p & Hf & _). rewrite Nat.sub_0_r in Hf. by exists i, f.
Qed.

(** The first instruction: fetched from a page that is executable and
    read-only, it is the byte of the image. *)
Definition starts (f : memfs_file) (s : pmm) (space : user_space) : Prop :=
  ∃ i fr, 0 ≤ i < e_phnum (ehdr_at (image_src outside f)) ∧
    hw_translate (Pmm.mem s) (pml4_phys space) (UserSpace.entry space) = Some (fr, MMU_FLAG_USER) ∧
    rd8 (Pmm.mem s) (fr + UserSpace.entry space mod 4096) =
      byte (image_src outside f) (p_offset (phdr (image_src outside f) i) +
        (UserSpace.entry space - p_vaddr (phdr (image_src outside f) i))).

Lemma ready_starts f s space sp argv envp :
  image_okb (image_src outside f) (mf_size f) = true →
  ready s space sp (image_src outside f) argv envp → starts f s space.
Proof using Type.
  intros H R. destruct (image_okb_sound _ _ H) as (_ & _ & i & Hi & Hc).
  unfold codeb in Hc. rewrite !andb_true_iff in Hc. destruct Hc as [[[[[Ht H1] H2] H3] H4] H5].
  destruct (rd_segments _ _ _ _ _ _ R i (UserSpace.entry space) Hi) as (fr & Hfr & Hb).
  - rewrite (rd_entry _ _ _ _ _ _ R). split; [by apply Z.eqb_eq|lia].
  - exists i, fr. split; [done|]. apply Z.eqb_eq in H5. rewrite <- H5 at 1. split; [done|]. rewrite Hb.
    unfold seg_byte. rewrite (rd_entry _ _ _ _ _ _ R), decide_True by lia. done.
Qed.

Section Start.
Context (pml4_table : Z).

Lemma program_prepared path argv envp space0 sp0 fs s :
  wf s → phys_bound s → tree_ok s pml4_table → small_args (Some argv) (Some envp) →
  fresh_or_ready fs → path ∈ programs → (length argv ≤ 8)%nat → (length envp ≤ 8)%nat →
  USER_STACK_TOP - 4096 ≤ args_sp (Some argv) (Some envp) →
  match user_prepare_image built_in pml4_table outside (Some path) (Some argv) (Some envp) space0 sp0 fs s with
  | Panic msg code => msg = "Out of physical memory"%string ∧ code = 0
  | Ret None => False
  | Ret (Some (r, space, sp, fs', s')) =>
      r = 0 ∧ fs' = memfs_init built_in memfs_boot ∧
      ∃ i f, memfs_files fs' !! i = Some f ∧ option_map cstr (mf_path f) = Some (cstr path) ∧
        ready s' space sp (image_src outside f) argv envp ∧ starts f s' space
  end.
Proof using Type.
  intros W B T Ha Hfs Hp Hac Hec Hfit.
  destruct (lookup_program fs path Hfs Hp) as (i & f & El & Ef).
  pose proof (prepare_core built_in pml4_table outside path (Some argv) (Some envp) space0 sp0 fs s W B T Ha) as H.
  destruct (user_prepare_image _ _ _ _ _ _ _ _ _ _) as [[[[[[r space] sp] fs'] s']|]|]; [|done|done].
  destruct H as [Hfs' H]. rewrite El in Hfs', H. cbn [snd] in Hfs'. subst fs'.
  pose proof (built_in_ok i f Ef) as Hok. destruct (image_okb_sound _ _ Hok) as (Him & Hst & _).
  destruct H as [[_ Hno]|(-> & (j & g & Ej & Hg & _ & _ & R) & _)].
  - exfalso. apply (Hno i f eq_refl Ef). split; auto; cbn [too_many]; unfold USER_ARG_MAX, USER_ENV_MAX; lia.
  - apply (f_equal fst) in Ej. cbn [fst] in Ej. injection Ej as <-.
    assert (g = f) as -> by congruence. split; [done|]. split; [done|]. exists i, f. split_and!; [done| |done|by eapply ready_starts].
    unfold memfs_lookup in El. injection El as El _.
    destruct (find_file_Some _ _ _ _ El) as (g & q & Hg' & _ & Hq & Eq). rewrite Nat.sub_0_r in Hg'.
    assert (memfs_init built_in fs = memfs_init built_in memfs_boot) as E
      by (destruct Hfs as [Hr| ->]; [unfold memfs_init; by rewrite Hr|done]).
    rewrite E in Hg'. assert (g = f) as -> by congruence. rewrite Hq. cbn. by f_equal.
Qed.


(** ** The boot thread *)

Context {H D S : Type} `{!Allocator H} {AL : AllocatorLaws H} `{!SectorDev D S}.
Implicit Types (k : kernel H D S) (others : list Z).

Definition init_envp : list (list Z) := [chars "TERM=neptune"; chars "USER=guest"].

Lemma init_args : small_args (Some [chars "/bin/init"]) (Some init_envp) ∧
  USER_STACK_TOP - 4096 ≤ args_sp (Some [chars "/bin/init"]) (Some init_envp).
Proof using Type. clear. split; vm_compute; [reflexivity|discriminate]. Qed.

(** [user_smoke_thread], the first user thread, enters /bin/init with its
    arguments, in an address space of its own that is then current; it panics
    only without memory. *)
Theorem boot_starts_init k others :
  kinv k others → memory_ok pml4_table k → fresh_or_ready (memfs_ (tvfs (ktable k))) → current_thread (ks k) ≠ 0 →
  match user_smoke_thread built_in pml4_table outside k with
  | Ret (Some (SysEnter entry sp root k'), _) =>
      kinv k' others ∧ kroot k' = root ∧
      ∃ f space, option_map cstr (mf_path f) = Some (chars "/bin/init") ∧
        UserSpace.entry space = entry ∧ pml4_phys space = root ∧
        ready (kp k') space sp (image_src outside f) [chars "/bin/init"] init_envp ∧ starts f (kp k') space
  | Ret _ => False
  | Panic msg code => may_panic (H := H) false msg code
  end.
Proof using AL.
  intros Hk Hm Hfs Hc. destruct init_args as [Ha Hfit]. destruct Hm as [W B T].
  pose proof (prepare_safe built_in pml4_table outside (chars "/bin/init") [chars "/bin/init"] init_envp k others Hk
    (Build_memory_ok _ _ W B T) Ha) as Hs.
  pose proof (program_prepared (chars "/bin/init") [chars "/bin/init"] init_envp (mk_space 0 0 0 0 0 []) 0
    (memfs_ (tvfs (ktable k))) (kp k) W B T Ha Hfs) as Hp.
  unfold user_smoke_thread. fold init_envp. unfold prepare in Hs |- *. cbv zeta in Hs |- *.
  destruct (user_prepare_image _ _ _ _ _ _ _ _ _ _) as [[[[[[r space] sp] ms] s]|]|msg code];
    [|exfalso; apply Hp; [set_solver|simpl; lia|simpl; lia|done]|exact Hs].
  cbn [mbind result_bind option_map safe] in Hs |- *.
  destruct Hp as (-> & -> & i & f & Hf & Hpath & R & St); [set_solver|simpl; lia|simpl; lia|done|].
  change (0 =? 0) with true. cbn [negb].
  destruct Hs as (rc & sp2 & sp1 & k1 & [= <- <- <- <-] & Hk1 & _ & Hc1 & _).
  pose proof Hk1 as [(l & bs & Hok1) _]. split; [by apply set_exit_inv, enter_inv|]. split.
  - apply (enter_root _ l bs _ _ _ Hok1). exact Hc.
  - exists f, space. by split_and!.
Qed.
End Start.
End Outside.
End Programs.
