(* ===== verification/ProgramExamples.v ===== *)
(** * Concrete program starts *)

From S2P Require Import Prelude Memory Pmm PmmRuns PmmInit Mmu MmuTree MmuOps MmuMap MmuSpaces.
From S2P Require Import PageFault UserSpace Elf MemoryExamples CString Bytes Memfs User Images.
From S2P Require Import Programs.
From stdpp Require Import options.

(** ** A program started on a small machine

    Sixteen frames of memory and a program of one segment, on which the
    properties of Elf.v and User.v are exercised. *)

Module UserExamples.
Import Pmm PmmInit PmmExamples Mmu MmuTree MmuOps MmuExamples UserSpace Elf CString Memfs User.

(** ** The machine *)

Definition big0 : pmm := get empty_pmm (pmm_add_region empty_pmm 0x200000 0x210000).
Definition big : pmm := get empty_pmm (setup_bitmaps big0).

Lemma big_wf : wf big.
Proof.
  apply (setup_bitmaps_wf big0 big).
  - apply Forall_cons. split; [|constructor]. split; vm_compute; auto; split; congruence.
  - intros i j r r' Hne Hi Hj. apply lookup_lt_Some in Hi, Hj. simpl in *. lia.
  - vm_compute; try split; congruence.
  - vm_compute; try split; congruence.
  - vm_compute; try split; congruence.
Qed.

Lemma big_regions : regions big = [mk_region 0x200000 0x210000 0x200000 2 16 1].
Proof. vm_compute. reflexivity. Qed.

Lemma big_bound : phys_bound big.
Proof. intros r. rewrite big_regions. intros ->%list_elem_of_singleton. simpl. lia. Qed.

Lemma big_low b : root0 ≤ b < root0 + 4096 → rd8 (mem big) b = 0.
Proof.
  intros Hb. unfold rd8. replace (mem big !! b) with (@None Z); [done|]. unfold root0 in Hb.
  symmetry. replace (mem big) with ({[0x200000 := 1; 0x200001 := 0]} : memory) by (vm_compute; reflexivity).
  rewrite lookup_insert_ne, lookup_singleton_ne by lia. done.
Qed.

Lemma big_tree : tree_ok big root0.
Proof.
  apply (empty_root_tree big root0 big_low). split; [done|]. split; [unfold root0; lia|]. split.
  - intros (i & r & p & Hi & Hp & _ & E). rewrite big_regions in Hi. destruct i as [|i]; [|done].
    injection Hi as <-. cbn in *. unfold root0 in E. lia.
  - rewrite big_regions. intros r ->%list_elem_of_singleton. left. simpl. unfold root0. lia.
Qed.

Lemma big_space : uspace big root0.
Proof.
  split; [apply big_wf|apply big_bound|apply big_tree|]. intros v _. by apply empty_root_no_huge, big_low.
Qed.

Lemma big_empty v : hw_translate (mem big) root0 v = None.
Proof.
  rewrite (hw_translate_eq _ _ _ big_tree). unfold translate. cbn [path_table].
  assert (next (mem big) root0 (pml4_index v) = None) as ->; [|done].
  unfold next. rewrite (empty_root_entry big root0 big_low); [done|]. auto with tree words.
Qed.

(** ** The program: four bytes of text at 0x400000, followed by zeros *)

Definition prog : list Z :=
  [0x7F; 0x45; 0x4C; 0x46; 2; 1; 1] ++ replicate 17 0 ++ le_bytes 8 0x400000 ++ le_bytes 8 64 ++
  replicate 14 0 ++ [56; 0; 1; 0] ++ replicate 6 0 ++
  le_bytes 4 1 ++ le_bytes 4 5 ++ le_bytes 8 120 ++ le_bytes 8 0x400000 ++ le_bytes 8 0 ++
  le_bytes 8 4 ++ le_bytes 8 8 ++ le_bytes 8 4096 ++ [0x41; 0x42; 0x43; 0x44].

Definition images : user_images := mk_images [] [] prog [] [] [] [].
Definition init_file : memfs_file := image "/bin/init" prog.
Definition src0 : Z → Z := image_src (λ _, 0) init_file.
Definition no_stack : user_space := mk_space root0 0 0 0 0 [].

Definition load1 : Z * user_space * pmm :=
  get (0, no_stack, big) (elf_load_user (Some src0) 124 no_stack big).

Definition ok3 {A B} (r : result (Z * A * B)) : bool :=
  match r with Ret (c, _, _) => c =? 0 | Panic _ _ => false end.

Lemma ok3_eq {A B} (d : Z * A * B) r : ok3 r = true → r = Ret (0, (get d r).1.2, (get d r).2).
Proof. destruct r as [[[c a] b]|]; simpl; [|done]. by intros ->%Z.eqb_eq. Qed.

Lemma load1_eq : elf_load_user (Some src0) 124 no_stack big = Ret (0, load1.1.2, load1.2).
Proof.
  assert (ok3 (elf_load_user (Some src0) 124 no_stack big) = true) as H by (vm_compute; reflexivity).
  exact (ok3_eq (0, no_stack, big) _ H).
Qed.


Lemma elf_load_user_reads_witness :
  elf_load_user (Some src0) 124 no_stack big =
  elf_load_user (Some (image_src (λ _, 7) init_file)) 124 no_stack big.
Proof.
  apply elf_load_user_reads; [lia| | |].
  - intros k Hk. unfold src0, image_src. change (mf_size init_file) with 124.
    by rewrite (proj2 (Z.ltb_lt k 124)) by lia.
  - vm_compute. reflexivity.
  - change (e_phnum (ehdr_at src0)) with 1. intros i Hi. replace i with 0 by lia. vm_compute. reflexivity.
Defined.

(** ** Its stack *)

Definition argv0 : option (list (list Z)) := Some [chars "/bin/init"; chars "x"].
Definition envp0 : option (list (list Z)) := Some [chars "USER=guest"].
Definition one_page : user_space := mk_space root0 0 USER_STACK_TOP (USER_STACK_TOP - 4096) 1 [0x205000].

Lemma user_stack_setup_spec_witness :
  ∃ m' argv_addr env_addr,
    user_stack_setup one_page argv0 envp0 ∅ = Some (0, USER_STACK_TOP - 80, m') ∧
    at_ one_page m' (USER_STACK_TOP - 80) (words ([2] ++ argv_addr ++ [0] ++ env_addr ++ [0])).
Proof.
  destruct (user_stack_setup_spec one_page argv0 envp0 ∅) as [H _].
  - by apply one_page_ok.
  - vm_compute. reflexivity.
  - reflexivity.
  - reflexivity.
  - rewrite decide_True in H by (vm_compute; congruence).
    destruct H as (m' & aa & ea & H1 & _ & _ & _ & H2). exists m', aa, ea. split.
    + etransitivity; [exact H1|]. do 3 f_equal.
    + exact H2.
Defined.

(** ** The whole *)

Definition prep := user_prepare_image images root0 (λ _, 0) (Some (chars "/bin/init")) argv0 envp0
  no_stack 0 memfs_boot big.

Definition started : bool := match prep with Ret (Some (r, _, _, _, _)) => r =? 0 | _ => false end.

Lemma prep_ok : started = true.
Proof. vm_compute. reflexivity. Qed.


End UserExamples.

(** ** Starting /bin/hello on a machine with sixteen frames *)

Module ProgramsExamples.
Import Pmm MmuExamples UserSpace CString Memfs User UserExamples Programs.

Definition returned (r : result (option (Z * user_space * Z * memfs * pmm))) : Z :=
  match r with Ret (Some (v, _, _, _, _)) => v | _ => -2 end.

Lemma returned_inv r v : returned r = v → v ≠ -2 →
  ∃ space sp fs s, r = Ret (Some (v, space, sp, fs, s)).
Proof. destruct r as [[[[[[? ?] ?] ?] ?]|]|]; cbn; intros; subst; try done. by do 4 eexists. Qed.

Definition hello_argv : list (list Z) := [chars "/bin/hello"; chars "x"].

Lemma hello_prepared : ∃ space sp fs s,
  user_prepare_image built_in root0 (λ _, 0) (Some (chars "/bin/hello")) (Some hello_argv) (Some [])
    no_stack 0 memfs_boot big = Ret (Some (0, space, sp, fs, s)).
Proof. apply returned_inv; [vm_compute; reflexivity|done]. Qed.

Lemma hello_fits : small_args (Some hello_argv) (Some []) ∧ USER_STACK_TOP - 4096 ≤ args_sp (Some hello_argv) (Some []).
Proof. split; vm_compute; [reflexivity|discriminate]. Qed.

End ProgramsExamples.
