(* ===== verification/KernelExamples.v ===== *)
(** * A concrete kernel *)

From S2P Require Import Prelude Memory Pmm Mmu MmuTree UserSpace Elf MemoryExamples CString Pipe Irq.
From S2P Require Import Tty Paths Bytes Memfs User Alloc Sched SchedList SchedInv SchedSwitch.
From S2P Require Import SchedSpec SchedWait SchedSteps SchedExamples Ramfs RamfsSpec State Fat Vfs.
From S2P Require Import VfsInv VfsSpec VfsIo Handles UserPtr Syscall SyscallSpec SyscallInv.
From S2P Require Import SyscallSafe Launch ProgramExamples.
From stdpp Require Import options.

(** ** A small virtual file system

    No volume, empty RAM file system, the arena of SchedExamples.v as the
    heap: the hypotheses of the theorems on the virtual file system and the
    handle table hold on concrete states. *)

Module VfsExamples.
Import CString Bytes Paths Pipe Memfs SchedExamples Ramfs RamfsSpec Fat Vfs VfsInv VfsSpec VfsIo Handles.

(** A device without sectors. *)
#[export] Instance no_sectors : SectorDev unit unit := {
  sread _ _ s := Some (None, s);
  swrite _ _ _ s := Some (false, s);
}.

Definition images0 : user_images := mk_images [1; 2; 3] [] [] [] [] [] [].
Definition volume0 : fat_state unit := mk_fat None 0 0 0 0 0 0 0 0 0 0 0 0 false.
Definition v0 : vfs unit unit :=
  mk_vfs ∅ ∅ ∅ memfs_boot (replicate 32 empty_file) ∅ volume0 tt.
Definition h0 : arena := mk_arena 0x10000 [].

Lemma v0_inv : vfs_inv (H := arena) v0.
Proof.
  assert (∀ i f, ram_files v0 !! i = Some f → f = empty_file) as Hf
    by (intros i f Hi; by apply lookup_replicate in Hi as [-> _]).
  split; try done; [|by intros a [x Hx]]. intros h others Hl. split; [done| | |done|].
  - intros i f ->%Hf. by split.
  - constructor.
  - intros i j f g ->%Hf ->%Hf. done.
Qed.

Lemma v0_ok : vfs_ok v0 h0 [].
Proof.
  split; [apply v0_inv|]. split_and!; [done|apply NoDup_nil_2| |done]. by intros p ?%elem_of_nil.
Qed.

Lemma room_any ns h : room_for (H := arena) ns h.
Proof. revert h. induction ns as [|n ns IH]; intros h; [done|]. split; [done|]. intros p h' _. apply IH. Qed.

(** What a call returned. *)
Definition open_of (r : result (Z * Z * vfs unit unit * arena)) : Z * Z * vfs unit unit * arena :=
  match r with Ret x => x | Panic _ _ => (-1, 0, v0, h0) end.

Definition open1 := Eval vm_compute in open_of (vfs_open images0 (Some (chars "/tmp")) v0 h0).
Definition v1 : vfs unit unit := open1.1.2.
Definition h1 : arena := open1.2.
Definition file1 : vfs_file := set_ram (Some 0%nat) (new_file VFS_BACKEND_RAMFS).

Lemma open1_eq : vfs_open images0 (Some (chars "/tmp")) v0 h0 = Ret (SYSCALL_OK, 0x10000, v1, h1).
Proof. vm_compute. reflexivity. Qed.
Lemma open1_file : files v1 !! 0x10000 = Some file1.
Proof. vm_compute. reflexivity. Qed.

Lemma vfs_open_spec_witness :
  open_post (chars "/tmp") [] v0 (SYSCALL_OK, 0x10000, v1, h1).
Proof.
  pose proof (vfs_open_spec images0 (chars "/tmp") [] v0 h0 v0_ok I (room_any _ _)) as H.
  rewrite open1_eq in H. exact H.
Defined.

Lemma v1_ok : vfs_ok v1 h1 [].
Proof.
  pose proof (vfs_open_core images0 (chars "/tmp") [] v0 h0 v0_ok I (room_any _ _)) as H.
  rewrite open1_eq in H. apply H.
Qed.

Lemma vfs_close_spec_witness : ∃ v h, vfs_close 0x10000 v1 h1 = Ret (v, h) ∧ vfs_ok v h [] ∧ files v = ∅.
Proof.
  destruct (vfs_close_spec v1 h1 [] 0x10000 file1 v1_ok open1_file) as (v & h & E & Hok & Hf).
  exists v, h. split; [exact E|]. split; [exact Hok|]. rewrite Hf. vm_compute. reflexivity.
Defined.

Lemma vfs_ram_roundtrip_witness :
  ensures (vfs_write [] 0x10000 (Some (chars "hello")) v1 h1) (λ o, ∃ v2 h2, o = Done (5, v2, h2) ∧
    ∀ file' f' v3 h3, al_room h2 SIZEOF_VFS_FILE 16 → room_for [SIZEOF_FAT_FILE; SIZEOF_VFS_FILE] h2 →
      vfs_open images0 (Some (chars "//./tmp/")) v2 h2 = Ret (SYSCALL_OK, file', v3, h3) →
      files v3 !! file' = Some f' → backend f' = VFS_BACKEND_RAMFS →
      ∃ v4, vfs_read images0 [] file' false 5 v3 = Ret (Done (5, chars "hello", v4))).
Proof.
  apply (vfs_ram_roundtrip images0 (chars "/tmp") (chars "//./tmp/") (chars "/tmp") false true (chars "hello")
    v0 h0 [] 0x10000 file1 v1 h1 v0_ok I (room_any _ _)).
  - vm_compute. reflexivity.
  - vm_compute. reflexivity.
  - exact open1_eq.
  - exact open1_file.
  - reflexivity.
  - discriminate.
  - intros _ i g _ Hg. assert (g = mk_rf (copy_path (replicate 64 0) (chars "/tmp")) 0 0 0 true ∨ g = empty_file) as E.
    { apply list_elem_of_lookup_2 in Hg.
      assert (Forall (λ g, g = mk_rf (copy_path (replicate 64 0) (chars "/tmp")) 0 0 0 true ∨ g = empty_file) (ram_files v1)) as Hall.
      { repeat (constructor; [vm_compute; auto|]). constructor. }
      rewrite Forall_forall in Hall. by apply Hall. }
    split; [|done]. destruct E as [->| ->]; cbn; lia.
Defined.
Definition pipe_of (r : result (Z * Z * Z * vfs unit unit * arena)) : Z * Z * Z * vfs unit unit * arena :=
  match r with Ret x => x | Panic _ _ => (-1, 0, 0, v0, h0) end.
Definition pipe1 := pipe_of (pipe_create v0 h0).

Lemma pipe1_eq : pipe_create v0 h0 = Ret (0, 0x20000, 0x30000, pipe1.1.2, pipe1.2).
Proof. reflexivity. Qed.

Lemma vfs_pipe_roundtrip_witness :
  ∃ v2 v3 v4 h4 v5 h5,
    vfs_write [] 0x30000 (Some (chars "hi")) pipe1.1.2 pipe1.2 = Ret (Done (2, v2, pipe1.2)) ∧
    vfs_read images0 [] 0x20000 false 2 v2 = Ret (Done (2, chars "hi", v3)) ∧
    vfs_close 0x30000 v3 pipe1.2 = Ret (v4, h4) ∧ vfs_close 0x20000 v4 h4 = Ret (v5, h5) ∧
    vfs_ok v5 h5 [] ∧ files v5 = files v0 ∧ dom (pipes v5) = dom (pipes v0).
Proof.
  apply (vfs_pipe_roundtrip images0 (chars "hi") v0 h0 [] 0x20000 0x30000 pipe1.1.2 pipe1.2 v0_ok (room_any _ _) pipe1_eq).
  - discriminate.
  - vm_compute. lia.
Defined.

(** ** The handle table *)

Definition t0 : table unit unit := mk_table (replicate 128 free_handle) false v0.

(** A table without handles to files. *)
Lemma no_files_ok (v : vfs unit unit) : vfs_inv (H := arena) v →
  table_ok (H := arena) (mk_table (replicate 128 free_handle) false v) (blocks v).
Proof.
  assert (∀ i x, replicate 128 free_handle !! i = Some x → x = free_handle) as Hf
    by (intros i x Hi; by apply lookup_replicate in Hi as [-> _]).
  intros Hv. split_and!; [|done|done]. split; [done| |].
  - by intros i x ->%Hf.
  - by intros i j x y ->%Hf ->%Hf.
Qed.

(** Handle 5 is the only one to the RAM file. *)
Definition t1 : table unit unit :=
  set_handle (mk_table (replicate 128 free_handle) true v1) 5 (mk_handle HANDLE_VFS 0x10000 1 1).

Lemma t1_ok : table_ok (H := arena) t1 (blocks v1).
Proof.
  assert (∀ i x, handles t1 !! i = Some x → type x = HANDLE_VFS → i = 5%nat ∧ file x = 0x10000) as Hf.
  { intros i x [[-> ->]|[_ Hi]]%set_handle_lookup Hx; [done|]. by apply lookup_replicate in Hi as [-> _]. }
  split_and!; [|apply v1_ok|done]. split; [done| |].
  - intros i x Hi Hx. destruct (Hf i x Hi Hx) as [_ ->]. eexists. exact open1_file.
  - intros i j x y Hi Hj Hx Hy _. destruct (Hf i x Hi Hx) as [-> _]. by destruct (Hf j y Hj Hy) as [-> _].
Qed.


Lemma tty_handle_lost_witness :
  ∃ t, syscall_release_handle 1 (syscall_acquire_handle 1 (handles_init t0)) h0 = Ret (t, h0) ∧
    type (hnd t 1) = HANDLE_FREE.
Proof.
  apply (tty_handle_lost t0 1 h0).
  - reflexivity.
  - repeat (constructor; [reflexivity|]). constructor.
  - lia.
Defined.
End VfsExamples.

(** ** System calls on a small kernel

    One thread whose address space is the program of UserExamples.v, loaded at
    0x400000, on the arena and the file system of VfsExamples.v.  The text of
    the program is the string "ABCD", which the calls use as a path. *)

Module SyscallExamples.
Import Pmm MmuExamples UserSpace CString UserExamples Sched SchedInv SchedSteps SchedExamples Vfs VfsInv VfsSpec Handles VfsExamples UserPtr Syscall SyscallSpec SyscallInv SyscallSafe Launch.

Definition machine : pmm := load1.2.

Lemma machine_tree : MmuTree.tree_ok machine root0.
Proof.
  destruct (Elf.Elf.elf_load_user_loaded src0 124 no_stack big load1.1.2 load1.2 big_space load1_eq) as [_ L].
  apply L.
Qed.

Lemma user_ptr_range_spec_witness :
  user_ptr_range (Pmm.mem machine) root0 0x400000 4096 = true ∧
  user_ptr_range (Pmm.mem machine) root0 0x400000 4097 = false.
Proof.
  assert (user_ptr_range (Pmm.mem machine) root0 0x400000 4096 = true) as H by (vm_compute; reflexivity).
  split; [exact H|].
  pose proof (proj1 (user_ptr_range_spec (Pmm.mem machine) root0 0x400000 4097 ltac:(lia) ltac:(lia))) as H'.
  destruct (user_ptr_range (Pmm.mem machine) root0 0x400000 4097); [|reflexivity].
  destruct (H' eq_refl) as (_ & _ & _ & Ha). specialize (Ha 0x401000 ltac:(lia)). vm_compute in Ha. discriminate.
Defined.

Lemma user_str_copy_spec_witness :
  ∃ r l, user_str_copy (Pmm.mem machine) root0 0x400000 64 = Ret (r, l) ∧ str_post machine root0 0x400000 63 r l ∧
    r = 0 ∧ l = [0x41; 0x42; 0x43; 0x44; 0].
Proof.
  destruct (user_str_copy_spec machine root0 machine_tree 0x400000 64 ltac:(lia) ltac:(lia)) as (r & l & E & H).
  exists r, l. split; [exact E|]. split; [exact H|].
  assert (user_str_copy (Pmm.mem machine) root0 0x400000 64 = Ret (0, [0x41; 0x42; 0x43; 0x44; 0])) as E'
    by (vm_compute; reflexivity).
  rewrite E in E'. injection E' as -> ->. split; reflexivity.
Defined.

Lemma launch_arguments_safe_witness :
  (∃ o, resolve_path (Pmm.mem machine) root0 [47; 0] 0x400000 64 = Ret o) ∧
  ∃ o, user_launch_fill (Pmm.mem machine) root0 (chars "/x") 0 0 = Ret o ∧
    ∀ l, o = Some l → launch_small l.
Proof.
  apply (launch_arguments_safe machine root0 machine_tree [47; 0] (chars "/x") 0x400000 0 0 64); lia.
Defined.

(** ** The kernel *)

Definition b0 : sched arena (table unit unit) :=
  mk_sched ∅ 0 0 0 0 0 false 0 false false 0 1 0 0 (mk_arena 0x10000 []) t0.
Definition b1 : sched arena (table unit unit) := match sched_init b0 with Ret s => s | Panic _ _ => b0 end.
Definition b2 : sched arena (table unit unit) := sched_set_current_aspace root0 b1.
Definition kernel0 : kernel arena unit unit :=
  mk_kernel b2 machine (Tty.Tty.mk_tty Irq.Irq.irqs_boot false []) ∅.

Lemma kernel0_ok : ∃ l bs, kernel_ok kernel0 l bs [].
Proof.
  assert (unbooted b0 [] []) as Hu.
  { split; try done; [apply (no_files_ok v0 v0_inv)|].
    split_and!; [done|apply NoDup_nil_2| |done]. by intros p ?%elem_of_nil. }
  apply (reachable_good 0 b0 b1 b2 [] [] Hu I); [reflexivity|].
  apply rtc_once. apply (step_aspace 0 root0 b1).
Qed.

Definition regs (num a b : Z) : syscall_regs := mk_regs num a b 0 0.

Lemma sys_close_spec_witness :
  ∃ l k bs, sys_close (regs 6 3 0) kernel0 = Ret (SysReturn 0 k) ∧ kernel_ok k l bs [] ∧
    cur_fds k = <[3%nat := -1]> (cur_fds kernel0).
Proof.
  destruct kernel0_ok as (l & bs & Hok).
  destruct (sys_close_spec kernel0 l bs [] (regs 6 3 0) Hok) as (k & bs' & H1 & H2 & H3 & _).
  exists l, k, bs'. split; [exact H1|]. split; [exact H2|exact H3].
Defined.

Lemma sys_dup2_spec_witness :
  ∃ l k bs, sys_dup2 (regs 11 3 4) kernel0 = Ret (SysReturn 4 k) ∧ kernel_ok k l bs [] ∧
    cur_fds k = <[4%nat := 0]> (cur_fds kernel0).
Proof.
  destruct kernel0_ok as (l & bs & Hok).
  destruct (sys_dup2_spec kernel0 l bs [] (regs 11 3 4) Hok) as (k & bs' & H1 & H2 & H3 & _).
  exists l, k, bs'. split; [exact H1|]. split; [exact H2|exact H3].
Defined.

Definition opened0 := open_of (vfs_open images0 (Some (chars "/ABCD")) (tvfs (ktable kernel0)) (kheap kernel0)).

(** open("ABCD") with all descriptors in use. *)
Lemma sys_open_double_close_witness :
  sys_open images0 (regs 5 0x400000 0) kernel0 = Panic DANGLING 0x20000.
Proof.
  destruct kernel0_ok as (l & bs & Hok).
  apply (sys_open_double_close images0 kernel0 l bs [] (regs 5 0x400000 0) (chars "/ABCD") 0x20000
    opened0.1.2 opened0.2 Hok I (room_any _ _)).
  - vm_compute. reflexivity.
  - vm_compute. reflexivity.
  - vm_compute. reflexivity.
  - reflexivity.
  - exists 0. split; [unfold HANDLE_MAX; lia|reflexivity].
  - intros fd Hfd. assert (cur_fds kernel0 = replicate 16 0) as -> by (vm_compute; reflexivity).
    rewrite nth_lookup, lookup_replicate_2 by lia. done.
Defined.

(** ** A system call on the whole kernel: spawn("ABCD") *)

Lemma machine_memory : memory_ok root0 kernel0.
Proof.
  destruct (Elf.Elf.elf_load_user_loaded src0 124 no_stack big load1.1.2 load1.2 big_space load1_eq) as [_ L].
  destruct (ex_ok _ _ _ _ (Elf.Elf.ld_extends _ _ _ _ _ L)) as [W B T _]. by split.
Qed.

Definition pid_returned (r : result (sysres (kernel arena unit unit))) : Z :=
  match r with Ret (SysReturn v _) => v | _ => -1 end.

Lemma pid_returned_inv r v : pid_returned r = v → v ≠ -1 → ∃ k, r = Ret (SysReturn v k).
Proof. destruct r as [[]|]; cbn; intros; subst; try done. by eexists. Qed.

Lemma spawn_returns : ∃ k,
  syscall_handle images0 root0 (λ _, 0) 1 2 (mk_world _ _ _ [] [] []) (Some (mk_regs 7 0x400000 0 0 0)) kernel0 =
  Ret (SysReturn 1 k).
Proof. apply pid_returned_inv; [vm_compute; reflexivity|done]. Qed.

Lemma kernel0_inv : kinv kernel0 [].
Proof. destruct kernel0_ok as (l & bs & Hok). split; [by exists l, bs|]. exact (proj1 Irq.Irq.irqs_boot_ok). Qed.

Lemma kernel0_caller : caller kernel0 (mk_regs 7 0x400000 0 0 0).
Proof. split; [vm_compute; discriminate|exact machine_tree|]. unfold regs_typed. cbn. lia. Qed.


(** ** The first steps of a spawned program *)

Definition init_launch : user_launch := mk_launch (chars "/bin/init") [chars "/bin/init"] [] [-1; -1; -1].

Definition a0 : sched arena (table unit unit) :=
  mk_sched ∅ 0 0 0 0 0 false 0 false false 0 1 0 0 (mk_arena 0x20000 [0x10000]) t0.
Definition a1 : sched arena (table unit unit) := match sched_init a0 with Ret s => s | Panic _ _ => a0 end.
Definition a2 : sched arena (table unit unit) :=
  match sched_create_user 1 2 0x10000 0 a1 with Ret (_, _, s) => s | Panic _ _ => a1 end.
Definition a3 : sched arena (table unit unit) := after a2 (sched_yield a2).
Definition kernel1 : kernel arena unit unit :=
  mk_kernel a3 big (Tty.Tty.mk_tty Irq.Irq.irqs_boot false []) {[0x10000 := init_launch]}.

Lemma kernel1_inv : kinv kernel1 [].
Proof.
  assert (unbooted a0 [] [0x10000]) as Hu.
  { split; try done; [apply (no_files_ok v0 v0_inv)|].
    split_and!; [done|apply NoDup_singleton| |done]. intros p ->%list_elem_of_singleton. split; [done|]. cbn. lia. }
  destruct (reachable_good 1 a0 a1 a3 [] [0x10000] Hu I) as (l & bs & Hok); [reflexivity| |].
  - eapply rtc_l; [|apply rtc_once, (step_yield 1 a2)].
    apply (step_create_user 1 2 0x10000 0 0 1 a1 a2); [by split|vm_compute; reflexivity].
  - split; [|exact (proj1 Irq.Irq.irqs_boot_ok)]. by exists l, bs.
Qed.

Definition entry_of (r : result (sysres (kernel arena unit unit))) : Z :=
  match r with Ret (SysEnter e _ _ _) => e | _ => -1 end.

Lemma entry_of_inv r e : entry_of r = e → e ≠ -1 → ∃ sp root k, r = Ret (SysEnter e sp root k).
Proof. destruct r as [[]|]; cbn; intros; subst; try done. by do 3 eexists. Qed.

Lemma started_enters : ∃ sp root k,
  thread_trampoline (λ _ a, user_launch_thread images root0 (λ _, 0) a) kernel1 = Ret (SysEnter 0x400000 sp root k).
Proof. apply entry_of_inv; [vm_compute; reflexivity|done]. Qed.

Lemma kernel1_memory : memory_ok root0 kernel1.
Proof. split; [exact big_wf|exact big_bound|exact big_tree]. Qed.

Lemma init_launch_small : launch_small init_launch.
Proof. vm_compute. repeat split; lia || (repeat constructor). Qed.

Lemma kernel1_current : current_thread (ks kernel1) ≠ 0 ∧ Sched.entry (cur (ks kernel1)) ≠ 0 ∧ arg (cur (ks kernel1)) = 0x10000.
Proof. vm_compute. repeat split; discriminate. Qed.

End SyscallExamples.
