(* ===== verification/OutputExamples.v ===== *)
(** * Concrete boots and output *)

From S2P Require Import Prelude Memory Pmm PmmInit CString Bytes Memfs User BootMem Alloc.
From S2P Require Import SchedExamples Ata Console Serial Devices Tables.
From stdpp Require Import options.

(** ** The boot components on concrete inputs *)

Module BootExamples.
Import Pmm PmmInit BootMem.

(** ** A machine with 640 KiB below and 256 KiB above the kernel *)

Definition tags0 : list tag :=
  [Other 1 [110; 0]; Mmap [mk_entry 0 0x9FC00 1; mk_entry 0x9FC00 0x400 2; mk_entry 0x100000 0x140000 1]].

Definition boot0 : pmm := mk_pmm (wr_bytes ∅ 0x9000 (encode_info tags0)) [] 0 0 0 0 0 0.

Lemma bytes_at_check m a l :
  forallb (λ p, rd8 m (a + Z.of_nat p.1) =? p.2) (imap pair l) = true → bytes_at m a l.
Proof.
  rewrite forallb_forall. intros H i b Hi. specialize (H (i, b)). apply Z.eqb_eq, H, list_elem_of_In.
  apply (list_elem_of_lookup_2 _ i). by rewrite list_lookup_imap, Hi.
Qed.

Lemma tags0_apart : entries_apart (entries tags0).
Proof.
  intros i j e e' Hne Hi Hj Ht Ht'.
  destruct i as [|[|[|i]]]; try discriminate; destruct j as [|[|[|j]]]; try discriminate;
    injection Hi as <-; injection Hj as <-; cbn in *; lia || done.
Qed.

Lemma tags0_ok : Forall tag_ok tags0.
Proof. repeat constructor; cbn; lia. Qed.

Definition booted : Z :=
  match mem_init 0x100000 0x200000 0x9000 boot0 with Ret (Some s) => managed_pages s | _ => -1 end.

Lemma boot0_runs : ∃ s, mem_init 0x100000 0x200000 0x9000 boot0 = Ret (Some s).
Proof.
  assert (booted = 63) as E by (vm_compute; reflexivity). unfold booted in E.
  destruct (mem_init 0x100000 0x200000 0x9000 boot0) as [[s|]|]; [by exists s|done|done].
Qed.

End BootExamples.

(** ** The screen and the serial port on concrete inputs

    A transmitter that is busy once after every byte, and the two output
    theorems at a text and at a format. *)

Module OutputExamples.
Import CString Console ConsoleSpec Serial SerialSpec SchedExamples.

(** The bytes sent, and whether the next poll finds the transmitter busy. *)
Record line := mk_line { out : list Z; wait : bool }.

#[local] Instance line_ports : Ports line := {
  inb p port := (if wait p then 0 else 0x20, mk_line (out p) false);
  inw p port := (0, p);
  outb p port v := if port =? COM1_PORT then mk_line (out p ++ [v]) true else p;
  outw p port v := p;
}.

#[local] Instance line_uart : Uart line.
Proof.
  refine {| sent := out; busy p := if wait p then 1%nat else 0%nat |}.
  - intros p. cbn [inb line_ports]. destruct (wait p); cbn; (split_and!; [|done..]); split; [done..|by intros []].
  - intros p c _. done.
  - intros p. destruct (wait p); lia.
  - intros p port v Hne. cbn [outb line_ports]. by rewrite (proj2 (Z.eqb_neq _ _) Hne).
Defined.

Definition screen0 : vga line := mk_vga (replicate 2000 0) 3 4 7 (mk_line [] false).

Lemma screen0_length : length (buf screen0) = 2000%nat.
Proof. done. Qed.

(** A line of 81 characters and one more line. *)
Lemma console_shows_layout_witness :
  let text := replicate 81 65 ++ [10; 66] in
  let s' := arch_console_write text (console_clear 0x0F screen0) in
  buf s' = shown 0x0F (layout text) ∧ cursor_row s' = 2 ∧ cursor_col s' = 1 ∧ buf s' !! 160%nat = Some 0x0F42.
Proof.
  intros text s'. destruct (console_shows_layout 0x0F text screen0 screen0_length) as (Hb & _ & Hr & Hc & _).
  split; [exact Hb|]. split; [exact Hr|]. split; [exact Hc|].
  fold text in Hb. change (buf s' !! 160%nat = Some 0x0F42). unfold s'. rewrite Hb. by vm_compute.
Defined.

Definition arena0 : arena := mk_arena 0x1000 [].

Lemma arena0_live : al_live arena0 [].
Proof. cbn. split_and!; [done|constructor|set_solver|lia]. Qed.

(** "%d:%x\n" of -42 and 255: the text, the bytes on the wire. *)
Definition fmt0 : list Z := chars "%d:%x" ++ [10; 0].
Definition args0 : list arg := [AInt (-42); AInt 255].

Lemma kvprintf_spec_witness :
  ∃ s' h', kvprintf true fmt0 args0 screen0 arena0 = Ret (Some s', h') ∧ al_live h' [] ∧
    (∃ t, renders fmt0 args0 t ∧ prints t screen0 s') ∧ sent (vports s') = chars "-42:ff" ++ [13; 10].
Proof.
  pose proof (kvprintf_spec true fmt0 args0 screen0 arena0 [] arena0_live I) as H.
  destruct (kvprintf true fmt0 args0 screen0 arena0) as [[[s'|] h']|] eqn:E.
  - destruct H as [Hl Ht]. exists s', h'. split; [done|]. split; [done|]. split; [done|].
    assert (match kvprintf true fmt0 args0 screen0 arena0 with
            | Ret (Some s, _) => sent (vports s) = chars "-42:ff" ++ [13; 10] | _ => False end) as Hs by (by vm_compute).
    by rewrite E in Hs.
  - exfalso. assert (match kvprintf true fmt0 args0 screen0 arena0 with Ret (Some s, _) => True | _ => False end) as Hs
      by (by vm_compute). by rewrite E in Hs.
  - exfalso. assert (match kvprintf true fmt0 args0 screen0 arena0 with Ret (Some s, _) => True | _ => False end) as Hs
      by (by vm_compute). by rewrite E in Hs.
Defined.
End OutputExamples.

(** ** Concrete devices and tables *)

Module DeviceExamples.
Import CString Console Serial Pci Acpi User BootMem BootExamples.

(** A host bridge, a device with two functions, and nothing else. *)
Definition space (a : Z) : Z :=
  if a =? 0x80000000 then 0x12378086 else if a =? 0x80000008 then 0x06000002
  else if a =? 0x8000000C then 0 else if a =? 0x8000003C then 0
  else if a =? 0x80000800 then 0x70008086 else if a =? 0x80000808 then 0x06010000
  else if a =? 0x8000080C then 0x00800000 else if a =? 0x8000083C then 0
  else if a =? 0x80000900 then 0x70108086 else if a =? 0x80000908 then 0x01018000
  else if a =? 0x8000090C then 0 else if a =? 0x8000093C then 0x0000010E
  else 0xFFFFFFFF.

(** The address register. *)
Record bridge := mk_bridge { config_address : Z }.

#[local] Instance bridge_ports : Ports bridge := {
  inb p port := (0x20, p);
  inw p port := (0, p);
  outb p port v := p;
  outw p port v := p;
}.
#[local] Instance bridge_ports32 : Ports32 bridge := {
  inl p port := (space (config_address p), p);
  outl p port v := if port =? 0xCF8 then mk_bridge v else p;
}.
#[local, refine] Instance bridge_bus : PciBus bridge := { config p a := space a }.
Proof. all: done. Defined.


(** Two processors, one of them disabled. *)
Definition controllers : list controller :=
  [Lapic 0 0 1; Lapic 1 1 0; Ioapic 2 0xFEC00000 0; Override [0; 0; 2; 0; 0; 0; 0; 0]; OtherEntry 4 [255; 0; 0; 1]].

Definition madt : list Z :=
  chars "APIC" ++ le_bytes 4 (44 + Z.of_nat (length (concat (encode <$> controllers)))) ++ replicate 28 0 ++
  le_bytes 4 0xFEE00000 ++ le_bytes 4 1 ++ concat (encode <$> controllers).

Definition tables : memory := wr_bytes ∅ 0x7000 madt.

Lemma acpi_parse_madt_spec_witness :
  acpi_parse_madt tables 0x7000 acpi_zero = Some (mk_acpi 0 0xFEE00000 0xFEC00000 2 1 1 1 0).
Proof.
  etransitivity; [apply (acpi_parse_madt_spec tables 0x7000 controllers acpi_zero)|].
  - unfold controllers, controller_ok, byte. repeat (apply Forall_cons_2 || apply Forall_nil_2); cbn; lia.
  - apply bytes_at_check. vm_compute. reflexivity.
  - vm_compute. reflexivity.
  - vm_compute. reflexivity.
Defined.

(** Handlers one behind the other. *)
Definition handler_addr (h : Idt.isr) : Z :=
  0xFFFFFFFF80101000 + match h with Idt.isr_syscall => 0x100 | Idt.isr_irq0 => 0x40 | Idt.isr_page_fault => 0x80 | _ => 0 end.

Lemma idt_build_spec_witness : ∃ e h,
  Idt.idt_build handler_addr (replicate 256 (Idt.mk_gate 0 0 0 0 0 0 0)) !! 14%nat = Some e ∧
  Idt.gate_offset e = handler_addr h ∧ Idt.exception_of h = Some (14, true) ∧ Idt.gate_dpl e = 0.
Proof.
  destruct (Idt.idt_build_spec handler_addr (replicate 256 (Idt.mk_gate 0 0 0 0 0 0 0)) 14) as (e & h & He & Ho & Hh & _ & _ & _ & Hd & _).
  - intros h. unfold handler_addr. destruct h; lia.
  - apply length_replicate.
  - lia.
  - exists e, h. split; [exact He|]. split; [exact Ho|]. split; [|exact Hd]. by apply bool_decide_eq_true in Hh.
Defined.
End DeviceExamples.
