(* ===== verification/Ls.v ===== *)
(** * The program /bin/ls (src/user/ls.c)

    The allocator, the sort and the parsing of the listing the kernel returns.
    Strings are lists of characters; a pointer to a string that is no longer
    written is the string. *)

From stdpp Require Import sorting.
From S2P Require Import Prelude CString.
From stdpp Require Import options.
Import CString.

Module Ls.

Definition HEAP_SIZE : Z := 32768.
Definition MAX_ENTRIES : Z := 512.

(** The offset of the block and the new [heap_top]; [None] for NULL. *)
Definition simple_alloc (size heap_top : Z) : option (Z * Z) :=
  if HEAP_SIZE <? heap_top + size then None else Some (heap_top, heap_top + size).

(** ** The sort *)

(** [for (j = i; j >= gap && strcmp(entries[j - gap], temp) > 0; j -= gap)]. *)
Fixpoint shift (fuel gap j : nat) (temp : list Z) (entries : list (list Z)) : list (list Z) * nat :=
  match fuel with
  | O => (entries, j)
  | S fuel' =>
      if (gap <=? j)%nat && (0 <? strcmp (entries !!! (j - gap)%nat) temp) then
        shift fuel' gap (j - gap) temp (<[j := entries !!! (j - gap)%nat]> entries)
      else (entries, j)
  end.

Definition insert_entry (gap : nat) (entries : list (list Z)) (i : nat) : list (list Z) :=
  let temp := entries !!! i in
  let '(entries, j) := shift (S i) gap i temp entries in
  <[j := temp]> entries.

(** [for (i = gap; i < count; i++)]. *)
Definition sort_pass (gap count : nat) (entries : list (list Z)) : list (list Z) :=
  foldl (insert_entry gap) entries (seq gap (count - gap)).

(** [for (gap = count / 2; gap > 0; gap /= 2)]. *)
Fixpoint gap_loop (fuel gap count : nat) (entries : list (list Z)) : list (list Z) :=
  match fuel with
  | O => entries
  | S fuel' =>
      if (gap =? 0)%nat then entries
      else gap_loop fuel' (gap / 2) count (sort_pass gap count entries)
  end.

Definition sort_entries (entries : list (list Z)) (count : nat) : list (list Z) :=
  gap_loop (S count) (count / 2) count entries.

(** ** The listing *)

(** The paths [list_directory] builds.  [None] when a path does not fit its
    array of 256 characters, where the source writes past the end. *)

Definition slash : Z := 47.

Definition resolve (cwd target_path : list Z) : option (list Z) :=
  if nth 0 target_path 0 =? slash then Some (take 255 target_path)
  else
    let p := if negb (Z.of_nat (length cwd) =? 0) && negb (bool_decide (last cwd = Some slash)) then cwd ++ [slash] else cwd in
    let p := p ++ target_path in
    if 256 <=? Z.of_nat (length p) then None else Some p.

Definition strip_end (p : list Z) : list Z := take (length p - 1) p.

(** A final "/." loses its dot, and a final slash goes. *)
Definition canonicalize (p : list Z) : list Z :=
  let p := if (2 <=? Z.of_nat (length p)) && bool_decide (drop (length p - 2) p = [slash; 46]) then strip_end p else p in
  if (1 <? Z.of_nat (length p)) && bool_decide (last p = Some slash) then strip_end p else p.

Definition list_request (abs_path : list Z) : option (list Z) :=
  let r := chars "/dev/ls" ++ (if negb (nth 0 abs_path 0 =? slash) then [slash] else []) ++ abs_path in
  if 256 <=? Z.of_nat (length r) then None else Some r.

Definition prefix_len (abs_path : list Z) : nat :=
  let n := length abs_path in
  if (1 <? Z.of_nat n) && bool_decide (last abs_path = Some slash) then (n - 1)%nat else n.

(** [suffix], when [match] is set. *)
Definition suffix_of (abs_path line : list Z) : option (list Z) :=
  if negb (starts_with line abs_path) then None
  else if (nth 1 abs_path 0 =? 0) && (nth 0 abs_path 0 =? slash) then
    if nth 0 line 0 =? slash then Some (drop 1 line) else None
  else
    let c := nth (prefix_len abs_path) line 0 in
    if (c =? slash) || (c =? 0) then
      Some (if c =? slash then drop (S (prefix_len abs_path)) line else drop (prefix_len abs_path) line)
    else None.

(** The loop that truncates at a slash. *)
Fixpoint truncate (name : list Z) : list Z :=
  match name with
  | [] => []
  | c :: name' => if c =? slash then [] else c :: truncate name'
  end.

(** [heap_top] and the array [entries]. *)
Record listing := mk_listing { heap_top : Z; entries : list (list Z) }.

(** The body of the loop over the lines. *)
Definition add_line (abs_path : list Z) (show_hidden : bool) (st : listing) (line : list Z) : listing :=
  match suffix_of abs_path line with
  | None | Some [] => st
  | Some suffix =>
      match simple_alloc (Z.of_nat (length suffix) + 1) (heap_top st) with
      | None => st
      | Some (_, top) =>
          let entry_name := truncate suffix in
          if existsb (λ e, strcmp e entry_name =? 0) (entries st) then mk_listing top (entries st)
          else if show_hidden || negb (nth 0 entry_name 0 =? 46) then
            mk_listing top (entries st ++ [entry_name])
          else mk_listing top (entries st)
      end
  end.

(** Up to the newline, and what follows it if there is one. *)
Fixpoint break_line (text : list Z) : list Z * option (list Z) :=
  match text with
  | [] => ([], None)
  | c :: text' =>
      if c =? 10 then ([], Some text') else let '(l, r) := break_line text' in (c :: l, r)
  end.

(** [while ( *line && count < MAX_ENTRIES)]. *)
Fixpoint parse (fuel : nat) (abs_path : list Z) (show_hidden : bool) (text : list Z) (st : listing) : listing :=
  match fuel with
  | O => st
  | S fuel' =>
      match text with
      | [] => st
      | _ =>
          if negb (Z.of_nat (length (entries st)) <? MAX_ENTRIES) then st
          else
            let '(line, rest) := break_line text in
            let st := add_line abs_path show_hidden st line in
            match rest with None => st | Some text' => parse fuel' abs_path show_hidden text' st end
      end
  end.

(** What is printed for the bytes read from the kernel. *)
Definition list_names (abs_path : list Z) (show_hidden : bool) (buf : list Z) (top : Z) : list (list Z) :=
  let text := cstr buf in
  let st := parse (S (length text)) abs_path show_hidden text (mk_listing top []) in
  sort_entries (entries st) (length (entries st)).

(** ** The order *)

Definition leq (a b : list Z) : Prop := strcmp a b ≤ 0.

Lemma strcmp_flip a : ∀ b, strcmp b a = - strcmp a b.
Proof.
  induction a as [|x a IH]; intros [|y b]; cbn [strcmp hd tl]; try lia.
  - destruct (negb (y =? 0) && negb (0 =? 0) && (y =? 0)) eqn:E; [|lia]. by rewrite andb_false_r in E.
  - destruct (negb (x =? 0) && negb (0 =? 0) && (x =? 0)) eqn:E; [|lia]. by rewrite andb_false_r in E.
  - rewrite (Z.eqb_sym y x), (andb_comm (negb (y =? 0))).
    destruct (negb (x =? 0) && negb (y =? 0) && (x =? y)); [apply IH|lia].
Qed.

Lemma leq_total a b : leq a b ∨ leq b a.
Proof. unfold leq. rewrite (strcmp_flip a b). lia. Qed.

Definition bytes (a : list Z) : Prop := Forall (λ c, 0 < c) a.

Lemma leq_trans a : ∀ b c, bytes a → bytes b → bytes c → leq a b → leq b c → leq a c.
Proof.
  unfold leq. induction a as [|x a IH]; intros b c Ha Hb Hc H1 H2.
  - destruct c as [|z c]; cbn; [lia|]. inversion Hc; subst. lia.
  - inversion Ha as [|? ? Hx Ha']; subst. destruct b as [|y b].
    { cbn [strcmp hd tl] in H1. rewrite (proj2 (Z.eqb_neq x 0)) in H1 by lia. cbn in H1. lia. }
    inversion Hb as [|? ? Hy Hb']; subst. destruct c as [|z c].
    { cbn [strcmp hd tl] in H2. rewrite (proj2 (Z.eqb_neq y 0)) in H2 by lia. cbn in H2. lia. }
    inversion Hc as [|? ? Hz Hc']; subst. cbn [strcmp hd tl] in *.
    rewrite (proj2 (Z.eqb_neq x 0)), (proj2 (Z.eqb_neq y 0)), (proj2 (Z.eqb_neq z 0)) in * by lia.
    cbn [negb andb] in *. destruct (Z.eqb_spec x y), (Z.eqb_spec y z), (Z.eqb_spec x z); subst; try lia.
    by apply (IH b c).
Qed.

Lemma bytes_cstr a : bytes a → cstr a = a.
Proof. intros H. apply cstr_id. eapply Forall_impl; [exact H|]. intros c; cbn; lia. Qed.

(** Equal strings are those [strcmp] calls equal. *)
Lemma strcmp_bytes a b : bytes a → bytes b → strcmp a b = 0 ↔ a = b.
Proof. intros Ha Hb. by rewrite strcmp_eq, !bytes_cstr. Qed.

(** ** It permutes *)

Lemma insert_swap_head (l : list (list Z)) b x y : l !! b = Some y → y :: <[b := x]> l ≡ₚ x :: l.
Proof.
  revert b. induction l as [|z l IH]; intros [|b] Hb; try done; cbn in *.
  - injection Hb as ->. apply Permutation_swap.
  - rewrite Permutation_swap, (IH b) by done. apply Permutation_swap.
Qed.

Lemma swap_perm (l : list (list Z)) a b x y :
  a ≠ b → l !! a = Some x → l !! b = Some y → <[a := y]> (<[b := x]> l) ≡ₚ l.
Proof.
  revert a b. induction l as [|z l IH]; intros [|a] [|b] Hne Ha Hb; try done; cbn in *.
  - injection Ha as ->. by apply insert_swap_head.
  - injection Hb as ->. by apply insert_swap_head.
  - f_equiv. apply IH; [congruence|done..].
Qed.

(** With the hole at [j] filled the array stays a permutation. *)
Lemma shift_perm fuel gap temp : (0 < gap)%nat → ∀ j e, (j < length e)%nat →
  let '(e', j') := shift fuel gap j temp e in
  <[j' := temp]> e' ≡ₚ <[j := temp]> e ∧ length e' = length e ∧ (j' ≤ j)%nat.
Proof.
  intros Hg. induction fuel as [|fuel IH]; intros j e Hj; cbn [shift]; [done|].
  destruct (Nat.leb_spec gap j) as [Hgj|Hgj]; cbn [andb]; [|done].
  destruct (0 <? strcmp (e !!! (j - gap)%nat) temp); [|done].
  assert ((j - gap < length e)%nat) as Hlt by lia. destruct (lookup_lt_is_Some_2 e (j - gap) Hlt) as [x Hx].
  rewrite (list_lookup_total_correct _ _ _ Hx).
  specialize (IH (j - gap)%nat (<[j := x]> e) ltac:(by rewrite length_insert)).
  destruct (shift fuel gap (j - gap) temp (<[j := x]> e)) as [e' j']. destruct IH as (Hp & Hl & Hle).
  rewrite length_insert in Hl. split_and!; [|done|lia]. rewrite Hp.
  rewrite <- (list_insert_insert_eq e j x temp). apply swap_perm; [lia| |by rewrite list_lookup_insert_eq].
  by rewrite list_lookup_insert_ne by lia.
Qed.

Lemma insert_entry_perm gap e i : (0 < gap)%nat → (i < length e)%nat →
  insert_entry gap e i ≡ₚ e ∧ length (insert_entry gap e i) = length e.
Proof.
  intros Hg Hi. unfold insert_entry. pose proof (shift_perm (S i) gap (e !!! i) Hg i e Hi) as H.
  destruct (shift (S i) gap i (e !!! i) e) as [e' j]. destruct H as (Hp & Hl & _).
  rewrite length_insert. split; [|done]. rewrite Hp. by rewrite list_insert_id by (by apply list_lookup_lookup_total_lt).
Qed.

Lemma sort_pass_perm gap count e : (0 < gap)%nat → (count ≤ length e)%nat →
  sort_pass gap count e ≡ₚ e ∧ length (sort_pass gap count e) = length e.
Proof.
  intros Hg Hc. unfold sort_pass.
  assert (∀ ks e', Forall (λ i, (i < length e)%nat) ks → length e' = length e →
    foldl (insert_entry gap) e' ks ≡ₚ e' ∧ length (foldl (insert_entry gap) e' ks) = length e) as H.
  { induction ks as [|i ks IH]; intros e' Hf Hl; [done|]. inversion Hf; subst. cbn [foldl].
    destruct (insert_entry_perm gap e' i Hg ltac:(by rewrite Hl)) as [P1 L1].
    destruct (IH (insert_entry gap e' i)) as [P2 L2]; [done|by rewrite L1|]. by rewrite P2, P1. }
  apply H; [|done]. apply Forall_forall. intros i Hi%elem_of_seq. lia.
Qed.

Lemma gap_loop_perm fuel : ∀ gap count e, (count ≤ length e)%nat → gap_loop fuel gap count e ≡ₚ e.
Proof.
  induction fuel as [|fuel IH]; intros gap count e Hc; [done|]. cbn [gap_loop].
  destruct (Nat.eqb_spec gap 0); [done|]. destruct (sort_pass_perm gap count e ltac:(lia) Hc) as [P L].
  rewrite IH by (by rewrite L). done.
Qed.

(** ** It sorts *)

Definition sorted_upto (n : nat) (e : list (list Z)) : Prop :=
  ∀ a b x y, (a < b < n)%nat → e !! a = Some x → e !! b = Some y → leq x y.

(** The pass with gap 1 moves the entries greater than [temp] up by one. *)
Lemma shift_one fuel temp : ∀ j e, (j < fuel)%nat → (j < length e)%nat →
  let '(e', k) := shift fuel 1 j temp e in
  (k ≤ j)%nat ∧ length e' = length e ∧
  (∀ m, e' !! m = if bool_decide (k < m ≤ j)%nat then e !! (m - 1)%nat else e !! m) ∧
  (∀ m x, (k ≤ m < j)%nat → e !! m = Some x → 0 < strcmp x temp) ∧
  (∀ x, (0 < k)%nat → e !! (k - 1)%nat = Some x → leq x temp).
Proof.
  induction fuel as [|fuel IH]; intros j e Hf Hj; [lia|]. cbn [shift].
  destruct (Nat.leb_spec 1 j) as [H1|H1]; cbn [andb].
  2:{ split_and!; [done..| |lia|lia]. intros m. rewrite bool_decide_false; [done|lia]. }
  destruct (lookup_lt_is_Some_2 e (j - 1) ltac:(lia)) as [v Hv]. rewrite (list_lookup_total_correct _ _ _ Hv).
  destruct (Z.ltb_spec 0 (strcmp v temp)) as [Hc|Hc].
  2:{ split_and!; [done..| |lia|]; [|intros x _ Hx; unfold leq; simplify_eq; lia].
      intros m. rewrite bool_decide_false; [done|lia]. }
  specialize (IH (j - 1)%nat (<[j := v]> e) ltac:(lia) ltac:(rewrite length_insert; lia)).
  destruct (shift fuel 1 (j - 1) temp (<[j := v]> e)) as [e' k]. destruct IH as (Hk & Hl & Hm & Hgt & Hle).
  rewrite length_insert in Hl. split_and!; [lia|done| | |].
  - intros m. rewrite Hm. destruct (decide (m = j)) as [->|Hne].
    + rewrite bool_decide_false, bool_decide_true, list_lookup_insert_eq by lia. done.
    + do 2 case_bool_decide; try lia; by rewrite list_lookup_insert_ne by lia.
  - intros m x Hmj Hx. destruct (decide (m = (j - 1)%nat)) as [->|Hne]; [by simplify_eq|].
    apply (Hgt m); [lia|]. by rewrite list_lookup_insert_ne by lia.
  - intros x Hk0 Hx. apply Hle; [done|]. by rewrite list_lookup_insert_ne by lia.
Qed.

Definition all_bytes (e : list (list Z)) : Prop := Forall bytes e.

Lemma insert_entry_sorted e i : all_bytes e → (i < length e)%nat →
  sorted_upto i e → sorted_upto (S i) (insert_entry 1 e i).
Proof.
  intros Hb Hi Hs. unfold insert_entry. destruct (lookup_lt_is_Some_2 e i Hi) as [t Ht].
  rewrite (list_lookup_total_correct _ _ _ Ht). pose proof (shift_one (S i) t i e ltac:(lia) Hi) as H.
  destruct (shift (S i) 1 i t e) as [e' k]. destruct H as (Hk & Hl & Hm & Hgt & Hle).
  assert (∀ m x, e !! m = Some x → bytes x) as Hby by (intros m x Hx; by eapply Forall_lookup_1).
  assert (∀ m x, (m < k)%nat → e !! m = Some x → leq x t) as Hlow.
  { intros m x Hmk Hx. destruct (lookup_lt_is_Some_2 e (k - 1) ltac:(lia)) as [p Hp].
    pose proof (Hle p ltac:(lia) Hp) as Hpt. destruct (decide (m = (k - 1)%nat)) as [->|Hne]; [by simplify_eq|].
    apply (leq_trans x p t); [by eapply Hby..| |done]. apply (Hs m (k - 1)%nat); [lia|done..]. }
  assert (∀ m x, (k ≤ m < i)%nat → e !! m = Some x → leq t x) as Hhigh.
  { intros m x Hmk Hx. pose proof (Hgt m x Hmk Hx). unfold leq. rewrite strcmp_flip. lia. }
  assert (∀ m, <[k := t]> e' !! m = if bool_decide (m = k) then Some t
    else if bool_decide (k < m ≤ i)%nat then e !! (m - 1)%nat else e !! m) as Hf.
  { intros m. case_bool_decide as E; [subst; apply list_lookup_insert_eq; lia|].
    by rewrite list_lookup_insert_ne, Hm by done. }
  intros a b x y Hab Hx Hy. rewrite Hf in Hx, Hy. revert Hx Hy. repeat case_bool_decide; intros Hx Hy; simplify_eq; try lia.
  - apply (Hhigh (b - 1)%nat); [lia|done].
  - apply (Hs (a - 1)%nat (b - 1)%nat); [lia|done..].
  - apply (Hlow a); [lia|done].
  - apply (Hs a (b - 1)%nat); [lia|done..].
  - apply (Hs a b); [lia|done..].
Qed.

Lemma sort_pass_sorted e : all_bytes e → sorted_upto (length e) (sort_pass 1 (length e) e).
Proof.
  intros Hb. unfold sort_pass.
  assert (∀ n k e', all_bytes e' → (k + n ≤ length e')%nat → sorted_upto k e' →
    sorted_upto (k + n) (foldl (insert_entry 1) e' (seq k n))) as H.
  { induction n as [|n IH]; intros k e' Hb' Hl Hs; [by rewrite Nat.add_0_r|]. cbn [seq foldl].
    destruct (insert_entry_perm 1 e' k ltac:(lia) ltac:(lia)) as [P L]. rewrite <- Nat.add_succ_comm.
    apply IH; [unfold all_bytes; by rewrite P|lia|]. apply insert_entry_sorted; [done|lia|done]. }
  destruct e as [|x e]; [intros a b; cbn; lia|]. pose proof (H (length e) 1%nat (x :: e) Hb ltac:(done)) as H1.
  cbn [length Nat.sub]. rewrite Nat.sub_0_r. apply H1.
  intros a b; lia.
Qed.

Lemma gap_loop_sorted fuel : ∀ gap e, all_bytes e → (0 < gap < 2 ^ fuel)%nat →
  sorted_upto (length e) (gap_loop fuel gap (length e) e).
Proof.
  induction fuel as [|fuel IH]; intros gap e Hb Hg; [cbn in Hg; lia|]. cbn [gap_loop].
  rewrite (proj2 (Nat.eqb_neq gap 0)) by lia. destruct (sort_pass_perm gap (length e) e ltac:(lia) ltac:(lia)) as [P L].
  destruct (decide (gap = 1%nat)) as [->|Hne].
  - change (1 / 2)%nat with 0%nat. destruct fuel; by apply sort_pass_sorted.
  - rewrite <- L at 1. rewrite <- L at 2. apply IH; [unfold all_bytes; by rewrite P|].
    pose proof (Nat.div_mod_eq gap 2). pose proof (Nat.mod_upper_bound gap 2). rewrite Nat.pow_succ_r' in Hg. lia.
Qed.

(** The shell sort of ls sorts: for any array of strings the result is a
    permutation of it in the order of [strcmp]. *)
Theorem sort_entries_spec e : all_bytes e →
  sort_entries e (length e) ≡ₚ e ∧ StronglySorted leq (sort_entries e (length e)).
Proof.
  intros Hb. pose proof (gap_loop_perm (S (length e)) (length e / 2) (length e) e ltac:(lia)) as P.
  split; [done|]. unfold sort_entries.
  assert (sorted_upto (length e) (gap_loop (S (length e)) (length e / 2) (length e) e)) as Hs.
  { destruct (decide (length e / 2 = 0)%nat) as [E|E].
    - rewrite E. cbn [gap_loop Nat.eqb]. intros a b.
      pose proof (Nat.div_mod_eq (length e) 2). pose proof (Nat.mod_upper_bound (length e) 2). lia.
    - apply gap_loop_sorted; [done|]. pose proof (Nat.pow_gt_lin_r 2 (S (length e)) ltac:(lia)).
      pose proof (Nat.div_le_upper_bound (length e) 2 (length e)). lia. }
  rewrite <- P in Hs at 1. revert Hs. generalize (gap_loop (S (length e)) (length e / 2) (length e) e). clear.
  intros l Hs. induction l as [|x l IH]; constructor.
  - apply IH. intros a b y z Hab Hy Hz. apply (Hs (S a) (S b)); [cbn; lia|done..].
  - apply Forall_lookup_2. intros i y Hy. apply (Hs 0%nat (S i)); [|done..].
    apply lookup_lt_Some in Hy. cbn. lia.
Qed.

(** ** What is listed *)

Fixpoint lines (text : list Z) : list (list Z) :=
  match text with
  | [] => []
  | c :: text' =>
      if c =? 10 then [] :: lines text'
      else match lines text' with [] => [[c]] | l :: ls => (c :: l) :: ls end
  end.

(** The path [line] is inside the directory [dir], in its entry [name]. *)
Definition child (dir line name : list Z) : Prop :=
  ∃ rest, rest ≠ [] ∧ line = (if bool_decide (dir = [slash]) then dir else dir ++ [slash]) ++ rest ∧
    name = truncate rest.

(** An absolute path without a slash at its end, or the root. *)
Definition canonical (dir : list Z) : Prop :=
  bytes dir ∧ (dir = [slash] ∨ hd_error dir = Some slash ∧ (1 < length dir)%nat ∧ last dir ≠ Some slash).

Lemma lines_break text : text ≠ [] →
  lines text = (break_line text).1 :: match (break_line text).2 with Some r => lines r | None => [] end.
Proof.
  induction text as [|c t IH]; intros Hne; [done|]. cbn [lines break_line]. destruct (c =? 10); [done|].
  destruct t as [|d t]; [done|]. rewrite (IH ltac:(done)). by destruct (break_line (d :: t)).
Qed.

Lemma break_bytes text l r : bytes text → break_line text = (l, r) →
  bytes l ∧ match r with
            | Some r => bytes r ∧ (length l + length r < length text)%nat
            | None => True
            end ∧ (length l ≤ length text)%nat.
Proof.
  revert l r. induction text as [|c t IH]; intros l r Hb; cbn [break_line]; [by intros [= <- <-]|].
  inversion Hb; subst. destruct (c =? 10).
  - intros [= <- <-]. cbn. split_and!; [constructor|done|lia|lia].
  - destruct (break_line t) as [l' r'] eqn:E. intros [= <- <-].
    destruct (IH l' r' ltac:(done) eq_refl) as (Hl' & Hr' & Hn'). split_and!; [by constructor| |cbn; lia].
    destruct r'; [|done]. destruct Hr'. cbn. split; [done|lia].
Qed.

Lemma starts_with_prefix line dir : bytes line → bytes dir → starts_with line dir = true ↔ ∃ r, line = dir ++ r.
Proof. intros Hl Hd. by rewrite starts_with_spec, !bytes_cstr. Qed.

Lemma prefix_len_canonical dir : canonical dir → dir ≠ [slash] → prefix_len dir = length dir.
Proof.
  intros [_ [->|(_ & _ & Hl)]] Hne; [done|]. unfold prefix_len. rewrite (bool_decide_false (last dir = _)) by done.
  by rewrite andb_false_r.
Qed.

Lemma nth_app_length (dir r : list Z) : nth (length dir) (dir ++ r) 0 = nth 0 r 0.
Proof. rewrite app_nth2 by lia. by rewrite Nat.sub_diag. Qed.

(** The entry a line contributes. *)
Lemma suffix_spec dir line name : canonical dir → bytes line →
  (∃ c s, suffix_of dir line = Some (c :: s) ∧ name = truncate (c :: s)) ↔ child dir line name.
Proof.
  intros Hc Hl. unfold suffix_of, child. pose proof (starts_with_prefix line dir Hl (proj1 Hc)) as Hs.
  destruct (starts_with line dir) eqn:E; cbn [negb].
  2:{ split; [by intros (? & ? & ? & _)|]. intros (r & _ & -> & _). assert (false = true); [|done]. apply Hs.
      case_bool_decide; [by exists r|]. exists (slash :: r). by rewrite <- app_assoc. }
  destruct (proj1 Hs eq_refl) as [r ->]. clear Hs E.
  destruct (decide (dir = [slash])) as [->|Hne].
  - cbn. rewrite drop_0. split.
    + intros (c & s & [= ->] & ->). by exists (c :: s).
    + intros ([|c s] & Hr & [= ->] & ->); [done|]. by exists c, s.
  - rewrite (bool_decide_false (dir = _)) by done.
    assert ((nth 1 dir 0 =? 0) && (nth 0 dir 0 =? slash) = false) as ->.
    { destruct Hc as [Hb [?|(_ & Hlen & _)]]; [done|]. destruct dir as [|d [|d' dir]]; cbn in Hlen; try lia.
      inversion Hb as [|? ? _ Hb']; inversion Hb'; subst. cbn [nth]. by rewrite (proj2 (Z.eqb_neq d' 0)) by lia. }
    rewrite prefix_len_canonical, nth_app_length by done. apply Forall_app in Hl as [_ Hl].
    destruct r as [|c r]; cbn [nth].
    + rewrite app_nil_r, (drop_ge dir (length dir)) by done. split; [by intros (? & ? & [=] & _)|].
      intros (r & _ & Hr & _). apply (f_equal length) in Hr. rewrite !length_app in Hr. cbn in Hr. lia.
    + inversion Hl; subst. rewrite (proj2 (Z.eqb_neq c 0)), orb_false_r by lia.
      destruct (Z.eqb_spec c slash) as [->|Hcs].
      * rewrite (cons_middle slash dir r), app_assoc, drop_app_length' by (rewrite length_app; cbn; lia).
        split; [intros (c & s & [= ->] & ->); by exists (c :: s)|]. intros ([|c s] & Hr & E & ->); [done|].
        apply app_inv_head in E as ->. by exists c, s.
      * split; [by intros (? & ? & [=] & _)|]. intros (r' & _ & E & _). rewrite <- app_assoc in E.
        apply app_inv_head in E. by injection E.
Qed.

Definition visible (show_hidden : bool) (name : list Z) : Prop := show_hidden = true ∨ nth 0 name 0 ≠ 46.

Lemma truncate_bytes s : bytes s → bytes (truncate s).
Proof. induction 1 as [|c s Hc _ IH]; cbn [truncate]; [constructor|]. destruct (c =? slash); by constructor. Qed.

Lemma suffix_bytes dir line s : bytes line → suffix_of dir line = Some s → bytes s ∧ (length s ≤ length line)%nat.
Proof.
  intros Hl. unfold suffix_of. repeat case_match; try done; intros [= <-];
    (split; [by apply Forall_drop|rewrite length_drop; lia]).
Qed.

Record names_ok (dir : list Z) (show : bool) (seen : list (list Z)) (st : listing) : Prop := {
  no_bytes : all_bytes (entries st);
  no_dup : NoDup (entries st);
  no_elem : ∀ n, n ∈ entries st ↔ visible show n ∧ ∃ line, line ∈ seen ∧ child dir line n;
  no_count : (length (entries st) ≤ length seen)%nat;
}.

Lemma existsb_names e n : all_bytes e → bytes n → existsb (λ x, strcmp x n =? 0) e = bool_decide (n ∈ e).
Proof.
  unfold all_bytes. rewrite Forall_forall. intros He Hn. apply eq_bool_prop_intro. rewrite Is_true_true, existsb_exists, bool_decide_spec. split.
  - intros (x & Hx%list_elem_of_In & E%Z.eqb_eq). apply strcmp_bytes in E as ->; [done|by apply He|done].
  - intros Hx. exists n. split; [by apply list_elem_of_In|]. by apply Z.eqb_eq, strcmp_bytes.
Qed.

Lemma add_line_spec dir show seen st line :
  canonical dir → bytes line → names_ok dir show seen st →
  heap_top st + Z.of_nat (length line) + 1 ≤ HEAP_SIZE →
  names_ok dir show (line :: seen) (add_line dir show st line) ∧
  heap_top (add_line dir show st line) ≤ heap_top st + Z.of_nat (length line) + 1.
Proof.
  intros Hd Hl [Hb Hn He Hc] Hroom. pose proof (λ n, suffix_spec dir line n Hd Hl) as Hs. unfold add_line.
  assert (∀ e' : list (list Z), (∀ n, n ∈ e' ↔ n ∈ entries st ∨ child dir line n ∧ visible show n) →
    ∀ n, n ∈ e' ↔ visible show n ∧ ∃ l, l ∈ line :: seen ∧ child dir l n) as Hnew.
  { intros e' H n. rewrite H, He. set_solver. }
  destruct (suffix_of dir line) as [[|c s]|] eqn:E.
  1,3: split; [|lia]; split; [done|done| |cbn; lia]; apply Hnew; intros n; split; [by left|]; intros [?|[Hch _]]; [done|];
    apply Hs in Hch as (? & ? & [=] & _).
  destruct (suffix_bytes dir line _ Hl E) as [Hbs Hls].
  assert (∀ n, child dir line n ↔ n = truncate (c :: s)) as Hch.
  { intros n. rewrite <- Hs. split; [by intros (? & ? & [= -> ->] & ->)|]. intros ->. by exists c, s. }
  unfold simple_alloc. rewrite (proj2 (Z.ltb_ge _ _)) by lia.
  pose proof (truncate_bytes _ Hbs) as Hbt. set (n := truncate (c :: s)) in *.
  rewrite existsb_names by done. case_bool_decide as Hin.
  - split; [|cbn [heap_top]; lia]. split; cbn [entries]; [done|done| |cbn; lia]. apply Hnew. intros m. rewrite Hch, He.
    split; [by left|]. intros [?|[-> _]]; [done|by apply He].
  - destruct (show || negb (nth 0 n 0 =? 46)) eqn:Hv; (split; [|cbn [heap_top]; lia]); split; cbn [entries].
    + apply Forall_app. split; [done|by apply Forall_singleton].
    + apply NoDup_app. split_and!; [done|set_solver|apply NoDup_singleton].
    + apply Hnew. intros m. rewrite elem_of_app, list_elem_of_singleton, Hch. split; [|naive_solver].
      intros [?| ->]; [by left|right]. split; [done|]. apply orb_prop in Hv as [?|Hv]; [by left|right].
      by apply Z.eqb_neq, negb_true_iff.
    + rewrite length_app. cbn. lia.
    + done.
    + done.
    + apply Hnew. intros m. rewrite Hch. split; [by left|]. intros [?|[-> Hvis]]; [done|]. exfalso.
      apply orb_false_iff in Hv as [-> Hv]. apply negb_false_iff, Z.eqb_eq in Hv. destruct Hvis; done.
    + cbn. lia.
Qed.

Lemma parse_spec fuel dir show : canonical dir → ∀ text seen st,
  (length text < fuel)%nat → bytes text → names_ok dir show seen st →
  (length seen + length (lines text) ≤ 512)%nat → heap_top st + Z.of_nat (length text) + 1 ≤ HEAP_SIZE →
  names_ok dir show (reverse (lines text) ++ seen) (parse fuel dir show text st).
Proof.
  intros Hd. induction fuel as [|fuel IH]; intros text seen st Hf Hb Hn Hlen Hroom; [lia|].
  destruct text as [|c text]; [done|]. cbn [parse]. set (t := c :: text) in *.
  pose proof (lines_break t ltac:(done)) as Hl. pose proof (no_count _ _ _ _ Hn) as Hc.
  assert ((length (entries st) < 512)%nat) as Hmax by (rewrite Hl in Hlen; cbn in Hlen; lia).
  rewrite (proj2 (Z.ltb_lt _ _)) by (unfold MAX_ENTRIES; lia). cbn [negb].
  destruct (break_line t) as [l r] eqn:E. cbn [fst snd] in Hl. rewrite Hl in *.
  destruct (break_bytes t l r Hb E) as (Hbl & Hr & Hll).
  destruct (add_line_spec dir show seen st l Hd Hbl Hn ltac:(lia)) as [Hn' Htop].
  rewrite reverse_cons, <- app_assoc. cbn [app]. destruct r as [r|]; [|done].
  destruct Hr as [Hbr Hlr]. apply IH; [lia|done|done| |lia]. cbn in Hlen |- *. lia.
Qed.

(** ls lists a directory.  Given the paths of all files, one to a line, it
    prints the names of the entries of the directory -- the first components
    of the paths inside it -- each once and in the order of [strcmp]; names
    that begin with a dot only with the option -a.  The listing may have 512
    lines and as many bytes as the heap of the program has left. *)
Theorem list_names_spec dir show buf top :
  canonical dir → Forall (λ c, 0 ≤ c) buf → (length (lines (cstr buf)) ≤ 512)%nat →
  top + Z.of_nat (length (cstr buf)) + 1 ≤ HEAP_SIZE →
  let names := list_names dir show buf top in
  all_bytes names ∧ StronglySorted leq names ∧ NoDup names ∧
  ∀ n, n ∈ names ↔ visible show n ∧ ∃ line, line ∈ lines (cstr buf) ∧ child dir line n.
Proof.
  intros Hd Hbuf Hlen Hroom names.
  assert (bytes (cstr buf)) as Hb.
  { clear -Hbuf. induction Hbuf as [|c buf Hc _ IH]; cbn [cstr]; [constructor|].
    destruct (Z.eqb_spec c 0); constructor; [lia|done]. }
  assert (names_ok dir show [] (mk_listing top [])) as H0.
  { split; cbn [entries]; [constructor|constructor| |done]. intros n. set_solver. }
  pose proof (parse_spec (S (length (cstr buf))) dir show Hd (cstr buf) [] _ ltac:(lia) Hb H0 ltac:(done) Hroom) as H.
  rewrite app_nil_r in H. destruct H as [Hab Hnd He _]. subst names. unfold list_names.
  set (st := parse _ _ _ _ _) in *. destruct (sort_entries_spec (entries st) Hab) as [P Hs].
  split_and!; [unfold all_bytes; by rewrite P|done|by rewrite P|]. intros n. rewrite P, He. setoid_rewrite elem_of_reverse. done.
Qed.

(** The paths fit their arrays when the directory and the argument have
    246 characters together. *)
Theorem paths_fit cwd target : (length cwd + length target ≤ 246)%nat →
  ∃ p r, resolve cwd target = Some p ∧ list_request (canonicalize p) = Some r.
Proof.
  intros Hlen. assert (∃ p, resolve cwd target = Some p ∧ (length p ≤ 247)%nat) as (p & Hp & Hl).
  { unfold resolve. destruct (nth 0 target 0 =? slash); [eexists; split; [done|]; rewrite length_take; lia|].
    destruct (_ && _); (rewrite (proj2 (Z.leb_gt _ _)); [eexists; split; [done|]|]); rewrite !length_app; cbn; lia. }
  exists p. assert ((length (canonicalize p) ≤ 247)%nat) as Hc.
  { unfold canonicalize, strip_end. repeat case_match; rewrite ?length_take; lia. }
  eexists. split; [done|]. unfold list_request. rewrite (proj2 (Z.leb_gt _ _)); [done|]. rewrite !length_app.
  change (length (chars "/dev/ls")) with 7%nat. destruct (negb _); cbn [length]; lia.
Qed.

(** They do not in a directory whose path has 250 characters. *)
Theorem paths_overflow :
  let cwd := slash :: replicate 249 97 in
  ∃ p, resolve cwd [46] = Some p ∧ list_request (canonicalize p) = None.
Proof. eexists. by vm_compute. Qed.
End Ls.
