(* ===== verification/UserSys.v ===== *)
(** * User programs as interaction trees

    A user program is the tree of the system calls it makes.  [sysE] has one
    event for each wrapper of src/user/syscall.h and src/user/libc.c the
    programs use; [Undefined] stands for behaviour C does not define, such as
    writing past the end of an array.

    The program logic: [wp C s t Q] says that from the state [s] of the process
    the program [t] makes no call the contract [C] forbids, whatever answers
    the contract allows, and that [Q] holds if it ends. *)

From stdpp Require Import prelude gmap.
From ITree Require Import ITree ITreeFacts.
From Paco Require Import paco.
From stdpp Require Import options.
Local Open Scope Z_scope.

Module UserSys.

Notation str := (list Z).

Variant sysE : Type → Type :=
| SysExit (code : Z) : sysE void
| SysYield : sysE Z
| SysRead (fd len : Z) : sysE (Z * str)
| SysWrite (fd : Z) (data : str) : sysE Z
| SysOpen (path : str) : sysE Z
| SysClose (fd : Z) : sysE Z
| SysSpawn (path : str) (argv envp : list str) (fd_map : option (list Z)) : sysE Z
| SysExec (path : str) (argv envp : list str) : sysE Z
| SysWait : sysE Z
| SysPipe : sysE (Z * Z * Z)
| SysChdir (path : str) : sysE Z
| SysGetcwd (size : Z) : sysE (Z * str)
| Undefined : sysE void.

Notation prog := (itree sysE).
Notation call e := (ITree.trigger e).

#[export] Instance prog_bind : MBind prog := λ A B k t, ITree.bind t k.

(** ** The contract with the kernel *)

(** The descriptors a process has opened besides the standard ones, and its
    children that have not been waited for. *)
Record proc := mk_proc { ufds : gset Z; kids : nat }.

Definition std (fd : Z) : Prop := 0 ≤ fd ≤ 2.
Definition owns (s : proc) (fd : Z) : Prop := std fd ∨ fd ∈ ufds s.

Definition with_fds (s : proc) (fds : gset Z) : proc := mk_proc fds (kids s).

(** A descriptor the kernel hands out. *)
Definition fresh_fd (s : proc) (fd : Z) : Prop := 2 < fd ∧ fd ∉ ufds s.

(** What the kernel may answer and what becomes of the process, given what
    [typed] says of input lines. *)
Definition kernel_does (typed : str → Prop) {X} (e : sysE X) : X → proc → proc → Prop :=
  match e in sysE X return X → proc → proc → Prop with
  | SysRead fd len => λ r s s', s' = s ∧
      (r.1 < 0 ∨ r.1 = Z.of_nat (length r.2) ∧ r.1 ≤ len ∧ (fd = 0 → typed r.2))
  | SysOpen _ => λ r s s', r < 0 ∧ s' = s ∨ fresh_fd s r ∧ s' = with_fds s ({[r]} ∪ ufds s)
  | SysClose fd => λ r s s', s' = with_fds s (ufds s ∖ {[fd]})
  | SysSpawn _ _ _ _ => λ r s s', r < 0 ∧ s' = s ∨ 0 ≤ r ∧ s' = mk_proc (ufds s) (S (kids s))
  | SysWait => λ r s s', s' = mk_proc (ufds s) (pred (kids s))
  | SysPipe => λ r s s',
      r.1.1 ≠ 0 ∧ s' = s ∨
      r.1.1 = 0 ∧ fresh_fd s r.1.2 ∧ fresh_fd s r.2 ∧ r.1.2 ≠ r.2 ∧ s' = with_fds s ({[r.1.2; r.2]} ∪ ufds s)
  | _ => λ r s s', s' = s
  end.

(** What a program must see to before a call, and what it may rely on after. *)
Record contract := mk_contract {
  pre : ∀ {X}, sysE X → proc → Prop;
  post : ∀ {X}, sysE X → X → proc → proc → Prop;
}.

(** ** The logic *)

Section Logic.
Context (C : contract) {R : Type}.
Implicit Types (Q : R → proc → Prop) (t : prog R) (s : proc).

Inductive wpF Q (r : proc → prog R → Prop) s : itree' sysE R → Prop :=
| wp_retF x : Q x s → wpF Q r s (RetF x)
| wp_tauF t : r s t → wpF Q r s (TauF t)
| wp_visF X (e : sysE X) k :
    pre C e s → (∀ a s', post C e a s s' → r s' (k a)) → wpF Q r s (VisF e k).

Definition wp_ Q (r : proc → prog R → Prop) s t : Prop := wpF Q r s (observe t).

Lemma wp_mono Q : monotone2 (wp_ Q).
Proof. intros s t r r' H LE. unfold wp_ in *. destruct H; constructor; auto. Qed.
End Logic.
#[export] Hint Resolve wp_mono : paco.

Definition wp (C : contract) {R} (s : proc) (t : prog R) (Q : R → proc → Prop) : Prop :=
  paco2 (wp_ C Q) bot2 s t.

Section Rules.
Context (C : contract).

Lemma wp_ret {R} (x : R) s (Q : R → proc → Prop) : Q x s → wp C s (Ret x) Q.
Proof. intros H. pfold. by constructor. Qed.

Lemma wp_call {X} (e : sysE X) s (Q : X → proc → Prop) :
  pre C e s → (∀ a s', post C e a s s' → Q a s') → wp C s (call e) Q.
Proof.
  intros Hp Hq. pfold. constructor; [done|]. intros a s' Ha. left. apply wp_ret. by apply Hq.
Qed.

Lemma wp_bind {A R} (t : prog A) (k : A → prog R) s (Q' : A → proc → Prop) (Q : R → proc → Prop) :
  wp C s t Q' → (∀ x s', Q' x s' → wp C s' (k x) Q) → wp C s (t ≫= k) Q.
Proof.
  unfold mbind, prog_bind.
  revert t s. pcofix CIH. intros t s Ht Hk. punfold Ht. pfold. red. red in Ht.
  rewrite observe_bind.
  destruct Ht as [x Hx|t' Ht|X e h Hp Hh].
  - specialize (Hk x s Hx). punfold Hk. red in Hk. eapply (wp_mono C Q); [exact Hk|].
    intros ? ? H. left. destruct H as [H|[]]. eapply paco2_mon; [exact H|done].
  - constructor. right. apply CIH; [|done]. by destruct Ht as [|[]].
  - constructor; [done|]. intros a s' Ha. right. apply CIH; [|done]. by destruct (Hh a s' Ha) as [|[]].
Qed.

Lemma wp_mono_post {R} (t : prog R) s (Q Q' : R → proc → Prop) :
  wp C s t Q → (∀ x s', Q x s' → Q' x s') → wp C s t Q'.
Proof.
  revert t s. pcofix CIH. intros t s Ht HQ. punfold Ht. pfold. red. red in Ht.
  destruct Ht as [x Hx|t' Ht|X e h Hp Hh]; constructor; [by apply HQ| |done|].
  - right. apply CIH; [|done]. by destruct Ht as [|[]].
  - intros a s' Ha. right. apply CIH; [|done]. by destruct (Hh a s' Ha) as [|[]].
Qed.

(** A loop keeps its invariant. *)
Lemma wp_iter {A R} (body : A → prog (A + R)) (I : A → proc → Prop) (Q : R → proc → Prop) :
  (∀ x s, I x s → wp C s (body x) (λ y s', match y with inl x' => I x' s' | inr r => Q r s' end)) →
  ∀ x s, I x s → wp C s (ITree.iter body x) Q.
Proof.
  intros Hbody. set (K := λ y : A + R, match y with inl x => Tau (ITree.iter body x) | inr r => Ret r end).
  assert (∀ u s t, observe u = observe (ITree.bind t K) →
    wp C s t (λ y s', match y with inl x' => I x' s' | inr r => Q r s' end) → wp C s u Q) as H.
  { pcofix CIH. intros u s t Hu Ht. punfold Ht. pfold. red. red in Ht. rewrite Hu, observe_bind.
    destruct Ht as [[x|y] Hx|t' Ht|X e h Hp Hh]; cbn.
    - constructor. right. apply (CIH _ _ (body x)); [done|by apply Hbody].
    - by constructor.
    - constructor. right. apply (CIH _ _ t'); [done|]. by destruct Ht as [|[]].
    - constructor; [done|]. intros a s' Ha. right. apply (CIH _ _ (h a)); [done|].
      by destruct (Hh a s' Ha) as [|[]]. }
  intros x s Hx. apply (H _ s (body x)); [done|by apply Hbody].
Qed.
End Rules.
End UserSys.
