(* ===== verification/Shell.v ===== *)
(** * The shell (src/user/shell.c)

    Parsing of a command line and the program as a tree of system calls. *)

From stdpp Require Import prelude gmap strings.
From ITree Require Import ITree ITreeFacts.
From S2P Require Import CString UserSys.
From stdpp Require Import options.
Local Open Scope Z_scope.
Import CString UserSys.

Module Shell.

Definition BUF_LEN : Z := 128.
Definition MAX_TOKENS : nat := 4.
Definition READ_CHUNK : Z := 64.

(** ** The line *)

(** [while (len > 0)]. *)
Fixpoint strip_loop (len : nat) (buf : str) : str :=
  match len with
  | O => []
  | S len' =>
      let c := nth len' buf 0 in
      if (c =? 10) || (c =? 13) then strip_loop len' buf else take len buf
  end.

Definition strip_newline (buf : str) : str := let s := cstr buf in strip_loop (length s) s.

Fixpoint skip_spaces (p : str) : str :=
  match p with
  | [] => []
  | c :: p' => if c =? 32 then skip_spaces p' else p
  end.

(** Up to the space, which becomes a NUL, and what is behind it. *)
Fixpoint take_word (p : str) : str * str :=
  match p with
  | [] => ([], [])
  | c :: p' => if c =? 32 then ([], p') else let '(w, r) := take_word p' in (c :: w, r)
  end.

(** [while ( *p && count < max)]. *)
Fixpoint tokenize (max : nat) (p : str) : list str :=
  match max, p with
  | S max', _ :: _ =>
      match skip_spaces p with
      | [] => []
      | q => let '(w, r) := take_word q in w :: tokenize max' r
      end
  | _, _ => []
  end.

(** [None] when the path does not fit the 128 characters of [path_buf]. *)
Definition resolve_cmd (cmd : str) : option str :=
  let out := if nth 0 cmd 0 =? 47 then cmd else chars "/bin/" ++ cmd in
  if BUF_LEN <=? Z.of_nat (length out) then None else Some out.

(** ** Commands *)

Definition nop : prog unit := Ret tt.
Definition write_str (s : str) : prog unit := _ ← call (SysWrite 1 (cstr s)); nop.
Definition line (s : string) : str := chars s ++ [10].
Definition undefined {R} : prog R := v ← call Undefined; match v : void with end.
Definition sys_exit {R} (code : Z) : prog R := v ← call (SysExit code); match v : void with end.

Definition envp : list str := [chars "TERM=neptune"; chars "USER=guest"].

Definition spawn_and_wait (path : str) (argv : list str) : prog unit :=
  pid ← call (SysSpawn path argv envp None);
  if pid <? 0 then write_str (line "spawn: failed") else _ ← call SysWait; nop.

Definition cmd_help : prog unit :=
  write_str (line "Commands: help, hello, exec, exit, ls [path], mkdir <path>, cat <path>, write <path> <text>, append <path> <text>, <prog>").

Definition cat_loop (fd : Z) : prog unit :=
  ITree.iter (λ _ : unit,
    r ← call (SysRead fd READ_CHUNK);
    if r.1 <? 0 then _ ← write_str (line "cat: read error"); Ret (inr tt)
    else if r.1 =? 0 then Ret (inr tt)
    else _ ← call (SysWrite 1 (take (Z.to_nat r.1) r.2)); Ret (inl tt)) tt.

Definition cmd_cat (path : option str) : prog unit :=
  match path with
  | Some path =>
      fd ← call (SysOpen path);
      if fd <? 0 then write_str (line "cat: open failed")
      else _ ← cat_loop fd; _ ← call (SysClose fd); nop
  | None => cat_loop 0
  end.

(** [while (sys_read(fd, scratch, READ_CHUNK) > 0)]. *)
Definition drain (fd : Z) : prog unit :=
  ITree.iter (λ _ : unit,
    r ← call (SysRead fd READ_CHUNK); if 0 <? r.1 then Ret (inl tt) else Ret (inr tt)) tt.

Definition cmd_write (path text : option str) (append : bool) : prog unit :=
  match path, text with
  | Some path, Some text =>
      fd ← call (SysOpen path);
      if fd <? 0 then write_str (line "write: open failed")
      else
        _ ← (if append then drain fd else nop);
        _ ← call (SysWrite fd text);
        _ ← call (SysWrite fd [10]);
        _ ← call (SysClose fd); nop
  | _, _ => write_str (line "write: missing args")
  end.

Definition cmd_mkdir (path : option str) : prog unit :=
  match path with
  | None => write_str (line "mkdir: missing path")
  | Some path =>
      if negb (nth 0 path 0 =? 47) then write_str (line "mkdir: absolute path required")
      else if BUF_LEN <=? Z.of_nat (length path) + 2 then write_str (line "mkdir: path too long")
      else
        let full := if bool_decide (last path = Some 47) then path else path ++ [47] in
        fd ← call (SysOpen full);
        if fd <? 0 then write_str (line "mkdir: failed") else _ ← call (SysClose fd); nop
  end.

Definition cmd_cd (path : option str) : prog unit :=
  match path with
  | None => write_str (line "cd: missing path")
  | Some path => r ← call (SysChdir path); if negb (r =? 0) then write_str (line "cd: failed") else nop
  end.

Definition cmd_pwd : prog unit :=
  r ← call (SysGetcwd 128);
  if r.1 =? 0 then _ ← write_str r.2; write_str [10] else write_str (line "pwd: failed").

Definition cmd_spawn (args : list str) : prog unit :=
  match args with
  | [] => nop
  | cmd :: _ =>
      match resolve_cmd cmd with
      | None => undefined
      | Some path => spawn_and_wait path args
      end
  end.

(** The first operator: [true] for a pipe. *)
Fixpoint find_op (args : list str) (i : nat) : option (bool * nat) :=
  match args with
  | [] => None
  | a :: args' =>
      if strcmp a (chars "|") =? 0 then Some (true, i)
      else if strcmp a (chars ">") =? 0 then Some (false, i)
      else find_op args' (S i)
  end.

(** [cmd1 | cmd2].  [args] has room for four pointers: the fifth is read when
    the operator is the fourth token, and by the kernel when the vector of the
    second command is not terminated within the array. *)
Definition run_pipe (args : list str) (pipe_idx : nat) : prog unit :=
  if (S pipe_idx =? MAX_TOKENS)%nat then undefined
  else
    match drop (S pipe_idx) args with
    | [] => write_str (line "syntax error: pipe")
    | cmd2 :: rest2 =>
        p ← call SysPipe;
        let '(rc, p0, p1) := p in
        if negb (rc =? 0) then write_str (line "pipe failed")
        else
          match resolve_cmd (nth 0 args []) with
          | None => undefined
          | Some path1 =>
              pid1 ← call (SysSpawn path1 (take pipe_idx args) envp (Some [-1; p1; -1]));
              if pid1 <? 0 then
                _ ← write_str (line "pipe: cmd1 spawn failed");
                _ ← call (SysClose p0); _ ← call (SysClose p1); nop
              else
                match resolve_cmd cmd2 with
                | None => undefined
                | Some path2 =>
                    if (length args =? MAX_TOKENS)%nat then undefined
                    else
                      pid2 ← call (SysSpawn path2 (cmd2 :: rest2) envp (Some [p0; -1; -1]));
                      _ ← call (SysClose p0);
                      _ ← call (SysClose p1);
                      _ ← (if pid2 <? 0 then write_str (line "pipe: cmd2 spawn failed") else nop);
                      _ ← call SysWait;
                      _ ← call SysWait; nop
                end
          end
    end.

(** [cmd > file]. *)
Definition run_redirect (args : list str) (redir_idx : nat) : prog unit :=
  if (S redir_idx =? MAX_TOKENS)%nat then undefined
  else
    match nth_error args (S redir_idx) with
    | None => write_str (line "syntax error: redirect")
    | Some file =>
        fd ← call (SysOpen file);
        if fd <? 0 then write_str (line "redirect: open failed")
        else
          match resolve_cmd (nth 0 args []) with
          | None => undefined
          | Some path =>
              pid ← call (SysSpawn path (take redir_idx args) envp (Some [-1; fd; -1]));
              _ ← call (SysClose fd);
              if pid <? 0 then write_str (line "redirect: spawn failed") else _ ← call SysWait; nop
          end
    end.

Definition named (a : str) (s : string) : bool := strcmp a (chars s) =? 0.

Definition run_line (args : list str) : prog unit :=
  let a := nth 0 args [] in
  if named a "help" then cmd_help
  else if named a "exit" then sys_exit 0
  else if named a "hello" then spawn_and_wait (chars "/bin/hello") [chars "/bin/hello"]
  else if named a "exec" then
    _ ← call (SysExec (chars "/bin/hello") [chars "/bin/hello"; chars "from-shell"] envp); sys_exit 1
  else if named a "cd" then cmd_cd (nth_error args 1)
  else if named a "pwd" then cmd_pwd
  else if named a "mkdir" then cmd_mkdir (nth_error args 1)
  else if named a "cat" then cmd_cat (nth_error args 1)
  else if named a "write" then cmd_write (nth_error args 1) (nth_error args 2) false
  else if named a "append" then cmd_write (nth_error args 1) (nth_error args 2) true
  else
    match find_op args 0 with
    | Some (true, S i) => run_pipe args (S i)
    | Some (false, S i) => run_redirect args (S i)
    | _ => cmd_spawn args
    end.

(** One turn of [for (;;)]. *)
Definition turn : prog unit :=
  cwd ← call (SysGetcwd 64);
  _ ← (if cwd.1 =? 0 then write_str cwd.2 else nop);
  _ ← write_str (chars "> ");
  r ← call (SysRead 0 (BUF_LEN - 1));
  if r.1 <=? 0 then _ ← call SysYield; nop
  else
    match strip_newline (take (Z.to_nat r.1) r.2) with
    | [] => nop
    | buf => match tokenize MAX_TOKENS buf with [] => nop | args => run_line args end
    end.

Definition shell : prog void :=
  _ ← write_str (line "Neptune user shell");
  ITree.iter (λ _ : unit, _ ← turn; Ret (inl tt)) tt.
End Shell.

Module ShellSpec.
Import Shell.

(** ** Parsing *)

(** The maximal runs of characters other than spaces. *)
Fixpoint words (p : str) : list str :=
  match p with
  | [] => []
  | c :: p' =>
      if c =? 32 then words p'
      else
        match p' with
        | [] => [[c]]
        | d :: _ =>
            if d =? 32 then [c] :: words p'
            else match words p' with [] => [[c]] | w :: ws => (c :: w) :: ws end
        end
  end.

Lemma words_step p :
  words p = match skip_spaces p with [] => [] | q => let '(w, r) := take_word q in w :: words r end.
Proof.
  induction p as [|c p IH]; [done|]. cbn [words skip_spaces]. destruct (c =? 32) eqn:Ec; [done|].
  cbn [take_word]. rewrite Ec. destruct p as [|d p]; [done|]. cbn [skip_spaces] in IH.
  destruct (d =? 32) eqn:Ed.
  - cbn [take_word words]. by rewrite Ed.
  - rewrite IH. by destruct (take_word (d :: p)).
Qed.

(** [tokenize] finds the first words of the line. *)
Theorem tokenize_words n p : tokenize n p = take n (words p).
Proof.
  revert p. induction n as [|n IH]; intros p; [by destruct p|]. rewrite words_step. destruct p as [|c p]; [done|].
  cbn [tokenize]. destruct (skip_spaces (c :: p)) as [|d q]; [done|].
  destruct (take_word (d :: q)) as [w r]. cbn [take]. by rewrite IH.
Qed.

Fixpoint join (ws : list str) : str :=
  match ws with
  | [] => []
  | [w] => w
  | w :: ws' => w ++ 32 :: join ws'
  end.

Definition word (w : str) : Prop := w ≠ [] ∧ Forall (λ c, c ≠ 32) w.

Lemma words_app_space w p : word w → words (w ++ 32 :: p) = w :: words p.
Proof.
  intros [Hne Hf]. rewrite words_step. destruct w as [|c w]; [done|]. inversion Hf as [|? ? Hc Hf']; subst.
  cbn [app skip_spaces]. rewrite (proj2 (Z.eqb_neq c 32)) by done. change (c :: w ++ 32 :: p) with ((c :: w) ++ 32 :: p).
  assert (∀ v, Forall (λ c, c ≠ 32) v → take_word (v ++ 32 :: p) = (v, p)) as H.
  { clear. induction 1 as [|c v Hc _ IH]; [done|]. cbn [app take_word]. by rewrite (proj2 (Z.eqb_neq c 32)), IH by done. }
  by rewrite (H (c :: w)).
Qed.

(** Words joined by single spaces come back. *)
Theorem words_join ws : Forall word ws → words (join ws) = ws.
Proof.
  induction 1 as [|w ws Hw Hws IH]; [done|]. destruct ws as [|v ws].
  - cbn [join]. destruct Hw as [Hne Hf]. rewrite words_step. destruct w as [|c w]; [done|].
    inversion Hf as [|? ? Hc Hf']; subst. cbn [skip_spaces]. rewrite (proj2 (Z.eqb_neq c 32)) by done.
    assert (∀ v, Forall (λ c, c ≠ 32) v → take_word v = (v, [])) as H.
    { clear. induction 1 as [|c v Hc _ IH]; [done|]. cbn [take_word]. by rewrite (proj2 (Z.eqb_neq c 32)), IH by done. }
    by rewrite (H (c :: w)).
  - change (join (w :: v :: ws)) with (w ++ 32 :: join (v :: ws)). by rewrite words_app_space, IH.
Qed.

(** ** The program *)

Definition idle : proc := mk_proc ∅ 0.

(** The lines on which nothing is undefined: words of at most 122 characters,
    no more than three tokens in a pipeline, and something behind an output
    redirection. *)
Definition line_ok (data : str) : Prop :=
  let args := tokenize MAX_TOKENS (strip_newline data) in
  Forall (λ a, (length a ≤ 122)%nat) args ∧
  match find_op args 0 with
  | Some (true, S i) => (length args < 4)%nat
  | Some (false, S i) => (S i < 3)%nat
  | _ => True
  end.

(** What the shell must be careful about: it uses only descriptors it has, it
    closes what it opened and nothing else, and it leaves nothing undefined.
    Reading a line of input is where it is idle, with nothing open and no
    child. *)
Definition careful {X} (e : sysE X) (s : proc) : Prop :=
  match e with
  | SysRead fd len => owns s fd ∧ 0 ≤ len ∧ (fd = 0 → s = idle)
  | SysWrite fd _ => owns s fd
  | SysClose fd => fd ∈ ufds s
  | SysSpawn _ argv _ m =>
      argv ≠ [] ∧ match m with Some m => Forall (λ fd, fd = -1 ∨ owns s fd) m | None => True end
  | Undefined => False
  | _ => True
  end.

Definition shell_contract : contract := mk_contract (@careful) (@kernel_does line_ok).

Notation wps := (wp shell_contract).

Lemma wp_call_then {X R} (e : sysE X) (k : X → prog R) s Q :
  careful e s → (∀ a s', kernel_does line_ok e a s s' → wps s' (k a) Q) → wps s (call e ≫= k) Q.
Proof. intros Hp Hk. eapply wp_bind; [apply wp_call; [done|]; intros a s1 Ha; exact Ha|exact Hk]. Qed.

Lemma owns_std s fd : 0 ≤ fd ≤ 2 → owns s fd.
Proof. by left. Qed.

Lemma wp_write_str m s (Q : unit → proc → Prop) : Q tt s → wps s (write_str m) Q.
Proof.
  intros HQ. apply wp_call_then; [apply owns_std; lia|]. intros a s' ->. by apply wp_ret.
Qed.

Lemma wp_then {R} (t : prog unit) (k : prog R) s s' Q :
  wps s t (λ _ u, u = s') → wps s' k Q → wps s (t ≫= λ _, k) Q.
Proof. intros Ht Hk. eapply wp_bind; [exact Ht|]. by intros x u ->. Qed.

Definition back (s : proc) : unit → proc → Prop := λ _ u, u = s.

Lemma wp_cat_loop fd s : owns s fd → (fd = 0 → s = idle) → wps s (cat_loop fd) (back s).
Proof.
  intros Ho Hi. apply (wp_iter shell_contract _ (λ _ u, u = s)); [|done]. intros _ u ->.
  apply wp_call_then; [done|]. intros r u [-> _].
  destruct (r.1 <? 0); [eapply wp_then; [by apply wp_write_str|by apply wp_ret]|].
  destruct (r.1 =? 0); [by apply wp_ret|]. apply wp_call_then; [apply owns_std; lia|]. intros a u ->. by apply wp_ret.
Qed.

Lemma wp_drain fd s : owns s fd → (fd = 0 → s = idle) → wps s (drain fd) (back s).
Proof.
  intros Ho Hi. apply (wp_iter shell_contract _ (λ _ u, u = s)); [|done]. intros _ u ->.
  apply wp_call_then; [done|]. intros r u [-> _]. destruct (0 <? r.1); by apply wp_ret.
Qed.

(** A descriptor that is opened and closed again. *)
Lemma open_close s fd : fresh_fd s fd → with_fds (with_fds s ({[fd]} ∪ ufds s)) (ufds (with_fds s ({[fd]} ∪ ufds s)) ∖ {[fd]}) = s.
Proof. intros [_ Hf]. destruct s as [f k]. cbn in *. unfold with_fds; cbn. f_equal. apply set_eq. set_solver. Qed.

Lemma wp_open {R} path (k : Z → prog R) s Q :
  (∀ fd, fd < 0 → wps s (k fd) Q) →
  (∀ fd, fresh_fd s fd → wps (with_fds s ({[fd]} ∪ ufds s)) (k fd) Q) → wps s (call (SysOpen path) ≫= k) Q.
Proof. intros H1 H2. apply wp_call_then; [done|]. intros fd u [[? ->]|[? ->]]; [by apply H1|by apply H2]. Qed.

Lemma wp_close s fd : fresh_fd s fd →
  wps (with_fds s ({[fd]} ∪ ufds s)) (_ ← call (SysClose fd); nop) (back s).
Proof.
  intros Hf. apply wp_call_then; [cbn; set_solver|]. intros a u ->. rewrite open_close by done. by apply wp_ret.
Qed.

Lemma fresh_owned s fd : fresh_fd s fd → owns (with_fds s ({[fd]} ∪ ufds s)) fd ∧ fd ≠ 0.
Proof. intros [H _]. split; [right; cbn; set_solver|lia]. Qed.

Lemma wp_spawn_and_wait s path argv : argv ≠ [] → wps s (spawn_and_wait path argv) (back s).
Proof.
  intros Ha. apply wp_call_then; [done|]. intros pid u [[Hn ->]|[Hn ->]].
  - rewrite (proj2 (Z.ltb_lt _ _)) by done. by apply wp_write_str.
  - rewrite (proj2 (Z.ltb_ge _ _)) by done. apply wp_call_then; [done|]. intros a u ->. apply wp_ret. by destruct s.
Qed.

Lemma wp_cmd_cat path : wps idle (cmd_cat path) (back idle).
Proof.
  destruct path as [path|]; [|by apply wp_cat_loop; [apply owns_std; lia|]].
  apply wp_open; intros fd Hf.
  - rewrite (proj2 (Z.ltb_lt _ _)) by done. by apply wp_write_str.
  - destruct (fresh_owned _ _ Hf). destruct Hf as [Hf2 Hf]. rewrite (proj2 (Z.ltb_ge _ _)) by lia.
    eapply wp_then; [by apply wp_cat_loop|]. by apply wp_close.
Qed.

Lemma wp_cmd_write path text append : wps idle (cmd_write path text append) (back idle).
Proof.
  destruct path as [path|], text as [text|]; cbn [cmd_write]; try by apply wp_write_str.
  apply wp_open; intros fd Hf.
  - rewrite (proj2 (Z.ltb_lt _ _)) by done. by apply wp_write_str.
  - destruct (fresh_owned _ _ Hf) as [Ho H0]. rewrite (proj2 (Z.ltb_ge _ _)) by (destruct Hf; lia).
    eapply wp_then; [destruct append; [by apply wp_drain|by apply wp_ret]|].
    apply wp_call_then; [done|]. intros a u ->. apply wp_call_then; [done|]. intros b u ->. by apply wp_close.
Qed.

Lemma wp_cmd_mkdir path : wps idle (cmd_mkdir path) (back idle).
Proof.
  destruct path as [path|]; cbn [cmd_mkdir]; [|by apply wp_write_str].
  destruct (negb _); [by apply wp_write_str|]. destruct (_ <=? _); [by apply wp_write_str|].
  apply wp_open; intros fd Hf.
  - rewrite (proj2 (Z.ltb_lt _ _)) by done. by apply wp_write_str.
  - rewrite (proj2 (Z.ltb_ge _ _)) by (destruct Hf; lia). by apply wp_close.
Qed.

Lemma wp_simple path : wps idle (cmd_cd path) (back idle) ∧ wps idle cmd_pwd (back idle).
Proof.
  split.
  - destruct path as [path|]; cbn [cmd_cd]; [|by apply wp_write_str]. apply wp_call_then; [done|]. intros r u ->.
    destruct (negb _); [by apply wp_write_str|by apply wp_ret].
  - apply wp_call_then; [done|]. intros r u ->. destruct (_ =? _); [|by apply wp_write_str].
    eapply wp_then; [by apply wp_write_str|by apply wp_write_str].
Qed.

Definition fits (a : str) : Prop := (length a ≤ 122)%nat.

Lemma resolve_fits a : fits a → ∃ p, resolve_cmd a = Some p.
Proof.
  intros H. unfold resolve_cmd, fits, BUF_LEN in *. eexists. rewrite (proj2 (Z.leb_gt _ _)); [done|].
  destruct (_ =? _); rewrite ?length_app; cbn; lia.
Qed.

(** The state in which both ends of the pipe are open. *)
Definition piped (p0 p1 : Z) (n : nat) : proc := mk_proc {[p0; p1]} n.

Lemma closed_ends (p0 p1 : Z) : ({[p0; p1]} : gset Z) ∖ {[p0]} ∖ {[p1]} = ∅.
Proof. apply set_eq. set_solver. Qed.

Lemma wp_close_pipe {R} p0 p1 n (k : prog R) Q : p0 ≠ p1 → wps (mk_proc ∅ n) k Q →
  wps (piped p0 p1 n) (_ ← call (SysClose p0); _ ← call (SysClose p1); k) Q.
Proof.
  intros Hne Hk. apply wp_call_then; [cbn; set_solver|]. intros a u ->. apply wp_call_then; [cbn; set_solver|].
  intros b u ->. cbn [ufds kids with_fds piped]. by rewrite closed_ends.
Qed.

Lemma Forall_three {A} (P : A → Prop) a b c : P a → P b → P c → Forall P [a; b; c].
Proof. intros Ha Hb Hc. by repeat apply Forall_cons_2. Qed.

Lemma wp_run_redirect args i : Forall fits args → args ≠ [] → (S i < 3)%nat →
  wps idle (run_redirect args (S i)) (back idle).
Proof.
  intros Hf Hne Hi. unfold run_redirect. rewrite (proj2 (Nat.eqb_neq _ _)) by (unfold MAX_TOKENS; lia).
  destruct args as [|a args]; [done|]. inversion Hf; subst. destruct (nth_error _ _) as [file|]; [|by apply wp_write_str].
  apply wp_open; intros fd Hfd.
  - rewrite (proj2 (Z.ltb_lt _ _)) by done. by apply wp_write_str.
  - destruct (fresh_owned _ _ Hfd) as [Ho H0]. rewrite (proj2 (Z.ltb_ge _ _)) by (destruct Hfd; lia). cbn [nth].
    destruct (resolve_fits a) as [p ->]; [done|]. apply wp_call_then.
    { split; [done|]. apply Forall_three; [by left|by right|by left]. }
    intros pid u Hpost. apply wp_call_then; [destruct Hpost as [[_ ->]|[_ ->]]; cbn; set_solver|]. intros b u' ->.
    destruct Hpost as [[Hn ->]|[Hn ->]].
    + rewrite open_close, (proj2 (Z.ltb_lt _ _)) by done. by apply wp_write_str.
    + rewrite (proj2 (Z.ltb_ge _ _)) by done. apply wp_call_then; [done|]. intros c u ->. apply wp_ret. cbn.
      unfold back, idle. f_equal. apply set_eq. set_solver.
Qed.

Lemma wp_run_pipe args i : Forall fits args → args ≠ [] → (length args < 4)%nat → (S i < length args)%nat →
  wps idle (run_pipe args (S i)) (back idle).
Proof.
  intros Hf Hne Hl Hi. unfold run_pipe. rewrite (proj2 (Nat.eqb_neq _ _)) by (unfold MAX_TOKENS; lia).
  destruct args as [|a args]; [done|]. inversion Hf as [|? ? Ha Hf']; subst.
  destruct (drop (S (S i)) (a :: args)) as [|c rest] eqn:Ed; [by apply wp_write_str|].
  assert (fits c) as Hc. { apply (Forall_lookup_1 fits (a :: args) (S (S i) + 0)); [done|]. by rewrite <- lookup_drop, Ed. }
  apply wp_call_then; [done|]. intros [[rc p0] p1] u [[Hrc ->]|(Hrc & H0 & H1 & Hne01 & ->)]; cbn [fst snd] in *.
  { rewrite (proj2 (Z.eqb_neq _ _)) by done. by apply wp_write_str. }
  rewrite (proj2 (Z.eqb_eq _ _)) by done. cbn [negb nth]. destruct (resolve_fits a Ha) as [path1 ->].
  replace (with_fds idle _) with (piped p0 p1 0) by (unfold piped, idle, with_fds; cbn; f_equal; apply set_eq; set_solver).
  apply wp_call_then.
  { split; [done|]. apply Forall_three; [by left|right; right; cbn; set_solver|by left]. }
  intros pid1 u [[Hn ->]|[Hn ->]].
  { rewrite (proj2 (Z.ltb_lt _ _)) by done. eapply wp_then; [by apply wp_write_str|].
    apply wp_close_pipe; [done|]. by apply wp_ret. }
  rewrite (proj2 (Z.ltb_ge _ _)) by done. destruct (resolve_fits c Hc) as [path2 ->].
  rewrite (proj2 (Nat.eqb_neq _ _)) by (unfold MAX_TOKENS; lia). apply wp_call_then.
  { split; [done|]. apply Forall_three; [right; right; cbn; set_solver|by left|by left]. }
  intros pid2 u Hpost.
  assert (∃ n, (n = 1 ∨ n = 2)%nat ∧ u = piped p0 p1 n) as (n & Hnn & ->)
    by (destruct Hpost as [[_ ->]|[_ ->]]; [exists 1%nat|exists 2%nat]; auto).
  apply wp_close_pipe; [done|]. eapply wp_then; [destruct (_ <? _); [by apply wp_write_str|by apply wp_ret]|].
  apply wp_call_then; [done|]. intros b u ->. apply wp_call_then; [done|]. intros d u ->. apply wp_ret.
  by destruct Hnn as [-> | ->].
Qed.

Lemma find_op_lt args : ∀ j b i, find_op args j = Some (b, i) → (j ≤ i < j + length args)%nat.
Proof.
  induction args as [|a args IH]; intros j b i; cbn [find_op length]; [done|].
  destruct (_ =? _); [intros [= <- <-]; lia|]. destruct (_ =? _); [intros [= <- <-]; lia|].
  intros H%IH. lia.
Qed.

Lemma wp_exit {R} code s (Q : R → proc → Prop) : wps s (sys_exit code) Q.
Proof. apply wp_call_then; [done|]. by intros []. Qed.

Lemma wp_run_line args : args ≠ [] → Forall fits args →
  match find_op args 0 with
  | Some (true, S i) => (length args < 4)%nat
  | Some (false, S i) => (S i < 3)%nat
  | _ => True
  end → wps idle (run_line args) (back idle).
Proof.
  intros Hne Hf Hop. unfold run_line. cbv zeta.
  destruct (named _ "help"); [by apply wp_write_str|].
  destruct (named _ "exit"); [apply wp_exit|].
  destruct (named _ "hello"); [by apply wp_spawn_and_wait|].
  destruct (named _ "exec"); [apply wp_call_then; [done|]; intros a u ->; apply wp_exit|].
  destruct (named _ "cd"); [by apply wp_simple|].
  destruct (named _ "pwd"); [by apply (wp_simple None)|].
  destruct (named _ "mkdir"); [by apply wp_cmd_mkdir|].
  destruct (named _ "cat"); [by apply wp_cmd_cat|].
  destruct (named _ "write"); [by apply wp_cmd_write|].
  destruct (named _ "append"); [by apply wp_cmd_write|].
  assert (wps idle (cmd_spawn args) (back idle)) as Hspawn.
  { destruct args as [|a args]; [done|]. inversion Hf; subst. cbn [cmd_spawn].
    destruct (resolve_fits a) as [p ->]; [done|]. by apply wp_spawn_and_wait. }
  destruct (find_op args 0) as [[[] [|i]]|] eqn:E; [done| |done| |done].
  - apply wp_run_pipe; [done..|]. apply find_op_lt in E. lia.
  - by apply wp_run_redirect.
Qed.

Lemma wp_turn : wps idle turn (back idle).
Proof.
  apply wp_call_then; [done|]. intros cwd u ->. eapply wp_then; [destruct (_ =? _); [by apply wp_write_str|by apply wp_ret]|].
  eapply wp_then; [by apply wp_write_str|]. apply wp_call_then; [split; [apply owns_std; lia|done]|].
  intros r u [-> Hr]. destruct (Z.leb_spec r.1 0) as [Hn|Hn].
  - apply wp_call_then; [done|]. intros a u ->. by apply wp_ret.
  - destruct Hr as [Hr|(Hr & _ & Ht)]; [lia|]. specialize (Ht eq_refl). rewrite take_ge by lia.
    destruct Ht as [Hf Hop]. destruct (strip_newline r.2) as [|c b] eqn:E; [by apply wp_ret|].
    destruct (tokenize MAX_TOKENS (c :: b)) as [|a args]; [by apply wp_ret|]. by apply wp_run_line.
Qed.

(** C16: the shell cleans up after every command.  Whatever the kernel answers
    and whatever is typed -- words of at most 122 characters, a pipeline of at
    most three tokens, a file behind every redirection -- the shell reads the
    next line with no descriptor open besides the standard ones and no child it
    has not waited for; it writes to and closes only descriptors it has, hands
    only those to the programs it starts, and never leaves its own arrays.  It
    ends by the exit call only. *)
Theorem shell_safe : wp shell_contract (mk_proc ∅ 0) shell (λ _ _, False).
Proof.
  change (mk_proc ∅ 0) with idle. eapply wp_then; [by apply wp_write_str|].
  apply (wp_iter shell_contract _ (λ _ s, s = idle)); [|done]. intros _ s ->.
  eapply wp_then; [apply wp_turn|]. by apply wp_ret.
Qed.

(** ** Lines on which the shell is undefined *)

(** Runs the program for [n] steps on a kernel where every call succeeds, with
    the given lines of input; whether it gets to something undefined. *)
Fixpoint exec {R} (n : nat) (t : prog R) (input : list str) : bool :=
  match n with
  | O => false
  | S n' =>
      match observe t with
      | RetF _ => false
      | TauF t' => exec n' t' input
      | VisF e k =>
          match e in sysE X return (X → prog R) → bool with
          | Undefined => λ _, true
          | SysExit _ => λ _, false
          | SysRead _ _ => λ k,
              match input with
              | [] => false
              | l :: input' => exec n' (k (Z.of_nat (length l), l)) input'
              end
          | SysYield => λ k, exec n' (k 0) input
          | SysWrite _ d => λ k, exec n' (k (Z.of_nat (length d))) input
          | SysOpen _ => λ k, exec n' (k 3) input
          | SysClose _ => λ k, exec n' (k 0) input
          | SysSpawn _ _ _ _ => λ k, exec n' (k 7) input
          | SysExec _ _ _ => λ k, exec n' (k 0) input
          | SysWait => λ k, exec n' (k 7) input
          | SysPipe => λ k, exec n' (k (0, 3, 4)) input
          | SysChdir _ => λ k, exec n' (k 0) input
          | SysGetcwd _ => λ k, exec n' (k (0, chars "/")) input
          end k
      end
  end.

(** A pipeline of four tokens hands the kernel a vector that goes on behind the
    array, and a command of 123 characters does not fit its path. *)
Theorem shell_undefined :
  exec 400 shell [line "ls /bin | cat"] = true ∧ exec 400 shell [replicate 123 97 ++ [10]] = true ∧
  exec 400 shell [line "ls | cat"; line "echo hi > f"; replicate 122 97 ++ [10]] = false.
Proof. by vm_compute. Qed.
End ShellSpec.
