(* ===== verification/UserPrograms.v ===== *)
(** * The small programs: init, hello, echo, cat and ls (src/user/) *)

From stdpp Require Import prelude gmap strings sorting.
From ITree Require Import ITree ITreeFacts Events.State Events.StateFacts.
From S2P Require Import CString Ls UserSys Shell.
From stdpp Require Import options.
Local Open Scope Z_scope.
Import CString UserSys.

Module UserPrograms.
Import Shell.

(** ** The programs *)

(** init.c: one turn of [for (;;)]. *)
Definition init_turn : prog unit :=
  pid ← call (SysSpawn (chars "/bin/shell") [chars "/bin/shell"] envp None);
  if pid <? 0 then _ ← write_str (line "init: spawn failed"); _ ← call SysYield; nop
  else _ ← call SysWait; write_str (line "init: shell exited").

Definition init : prog void :=
  _ ← write_str (line "Neptune init");
  _ ← write_str (line "Neptune init: spawning /bin/shell...");
  ITree.iter (λ _ : unit, _ ← init_turn; Ret (inl tt)) tt.

Definition hello : prog void := _ ← write_str (line "Hello from user program"); sys_exit 0.

(** echo.c: the loop from [i] on. *)
Fixpoint echo_loop (first : bool) (args : list str) : prog unit :=
  match args with
  | [] => nop
  | a :: args' =>
      _ ← (if negb first then _ ← call (SysWrite 1 [32]); nop else nop);
      _ ← write_str a; echo_loop false args'
  end.

Definition echo (argv : list str) : prog void :=
  _ ← echo_loop true (drop 1 argv); _ ← call (SysWrite 1 [10]); sys_exit 0.

(** cat.c. *)
Definition copy_loop (fd : Z) : prog unit :=
  ITree.iter (λ _ : unit,
    r ← call (SysRead fd READ_CHUNK);
    if r.1 <=? 0 then Ret (inr tt)
    else _ ← call (SysWrite 1 (take (Z.to_nat r.1) r.2)); Ret (inl tt)) tt.

Definition cat (argv : list str) : prog void :=
  match argv with
  | _ :: ((_ :: _) as path) :: _ =>
      fd ← call (SysOpen path);
      if fd <? 0 then _ ← write_str (line "cat: open failed"); sys_exit 1
      else _ ← copy_loop fd; _ ← call (SysClose fd); sys_exit 0
  | _ => _ ← write_str (line "cat: missing path"); sys_exit 1
  end.

(** ls.c.  [buf] has 16384 bytes.  The terminator of a listing that fills it
    lands in the array of entries, where the first entry overwrites it; what
    the program does then is not followed further. *)
Definition LIST_BUF : Z := 16384.

(** Reads the listing: [total_read] and the bytes. *)
Definition read_body (fd : Z) (got : str) : prog (str + str) :=
  r ← call (SysRead fd (LIST_BUF - Z.of_nat (length got)));
  if r.1 <? 0 then _ ← write_str (line "ls: read error"); Ret (inr got)
  else if r.1 =? 0 then Ret (inr got)
  else
    let got := got ++ take (Z.to_nat r.1) r.2 in
    if LIST_BUF <=? Z.of_nat (length got) then Ret (inr got) else Ret (inl got).

Definition read_all (fd : Z) : prog str := ITree.iter (read_body fd) [].

Fixpoint print_entries (names : list str) : prog unit :=
  match names with
  | [] => nop
  | n :: names' => _ ← write_str n; _ ← write_str [10]; print_entries names'
  end.

(** [heap_top] before the call is [top]; [None] cannot happen for the three
    blocks of 256, 16384 and 4096 bytes on an empty heap. *)
Definition list_directory (target_path : str) (show_hidden : bool) (top : Z) : prog unit :=
  match Ls.simple_alloc 256 top with
  | None => write_str (line "ls: out of memory (abs_path)")
  | Some (_, top) =>
      cwd ← (if nth 0 target_path 0 =? 47 then Ret [] 
             else r ← call (SysGetcwd 256); Ret (if r.1 <? 0 then [47] else cstr r.2));
      match Ls.resolve cwd target_path with
      | None => undefined
      | Some p =>
          let abs_path := Ls.canonicalize p in
          match Ls.list_request abs_path with
          | None => undefined
          | Some list_req =>
              fd ← call (SysOpen list_req);
              if fd <? 0 then
                _ ← write_str (chars "ls: cannot access '"); _ ← write_str target_path;
                write_str (line "': No such file or directory")
              else
                match Ls.simple_alloc LIST_BUF top with
                | None => _ ← write_str (line "ls: buffer allocation failed"); _ ← call (SysClose fd); nop
                | Some (_, top) =>
                    buf ← read_all fd;
                    _ ← call (SysClose fd);
                    if LIST_BUF <=? Z.of_nat (length buf) then undefined
                    else
                      match Ls.simple_alloc (Ls.MAX_ENTRIES * 8) top with
                      | None => write_str (line "ls: entries allocation failed")
                      | Some (_, top) => print_entries (Ls.list_names abs_path show_hidden buf top)
                      end
                end
          end
      end
  end.

(** The options: whether hidden files are shown, and the other arguments;
    [None] for an unknown option. *)
Fixpoint flag_chars (arg : str) (show : bool) : option bool :=
  match arg with
  | [] => Some show
  | c :: arg' => if c =? 97 then flag_chars arg' true else if c =? 108 then flag_chars arg' show else None
  end.

Fixpoint flags (args : list str) (show : bool) : option (bool * list str) :=
  match args with
  | [] => Some (show, [])
  | a :: args' =>
      if nth 0 a 0 =? 45 then
        match flag_chars (drop 1 a) show with None => None | Some show => flags args' show end
      else Some (show, args)
  end.

Fixpoint list_args (many show_hidden : bool) (args : list str) : prog unit :=
  match args with
  | [] => nop
  | a :: args' =>
      _ ← (if many then _ ← write_str a; write_str (line ":") else nop);
      _ ← list_directory a show_hidden 0;
      _ ← (match args' with [] => nop | _ => write_str [10] end);
      list_args many show_hidden args'
  end.

Definition ls (argv : list str) : prog void :=
  match flags (drop 1 argv) false with
  | None => _ ← write_str (line "ls: invalid option"); sys_exit 1
  | Some (show_hidden, args) =>
      _ ← (match args with
           | [] => list_directory [46] show_hidden 0
           | _ => list_args (1 <? Z.of_nat (length args)) show_hidden args
           end);
      sys_exit 0
  end.
End UserPrograms.

Module UserProgramsSpec.
Import Shell ShellSpec UserPrograms.

(** ** init *)

(** It never exits, has one shell at a time, and waits only for a shell. *)
Definition init_careful {X} (e : sysE X) (s : proc) : Prop :=
  match e with
  | SysSpawn _ _ _ _ => kids s = 0%nat
  | SysWait => kids s = 1%nat
  | SysExit _ | Undefined => False
  | _ => True
  end.

Definition init_contract : contract := mk_contract (@init_careful) (@kernel_does (λ _, True)).

(** init keeps one shell: whatever the kernel answers it never exits, it
    starts a shell only when none runs and waits only while one does. *)
Theorem init_keeps_a_shell : wp init_contract (mk_proc ∅ 0) init (λ _ _, False).
Proof.
  assert (∀ m s, wp init_contract s (write_str m) (λ _ u, u = s)) as Hw.
  { intros m s. eapply wp_bind; [apply wp_call; [done|]; intros a u H; exact H|]. intros a u ->. by apply wp_ret. }
  unfold init. eapply wp_bind; [apply Hw|]. intros _ s ->. eapply wp_bind; [apply Hw|]. intros _ s ->.
  apply (wp_iter _ _ (λ _ s, s = mk_proc ∅ 0)); [|done]. intros _ s ->.
  eapply (wp_bind _ _ _ _ (λ _ s, s = mk_proc ∅ 0)); [|intros _ s ->; by apply wp_ret].
  eapply wp_bind; [apply wp_call; [done|]; intros a u H; exact H|]. intros pid s [[Hn ->]|[Hn ->]].
  - rewrite (proj2 (Z.ltb_lt _ _)) by done. eapply wp_bind; [apply Hw|]. intros _ s ->.
    eapply wp_bind; [apply wp_call; [done|]; intros a u H; exact H|]. intros a u ->. by apply wp_ret.
  - rewrite (proj2 (Z.ltb_ge _ _)) by done.
    eapply wp_bind; [apply wp_call; [done|]; intros a u H; exact H|]. intros a u ->. apply Hw.
Qed.

(** ** A kernel with files *)

(** Files by name, what is left to read of each open file, and what was
    written to the standard output.  Reads return [piece n] of the [n] bytes
    that could be had. *)
Record fsys := mk_fsys { files : gmap str str; opened : gmap Z str; stdout : str }.

Variant exitE : Type → Type :=
| Exited (code : Z) (w : fsys) : exitE void.

Section Files.
Context (piece : nat → nat) (piece_ok : ∀ n, (0 < n)%nat → (0 < piece n ≤ n)%nat).
Context (cwd : str).

Definition new_fd (w : fsys) : Z :=
  Z.of_nat (fresh (set_map Z.to_nat (dom (opened w)) ∪ {[0; 1; 2]}%nat : gset nat)).

Definition handle {X} (e : sysE X) (w : fsys) : itree exitE (fsys * X) :=
  match e in sysE X return itree exitE (fsys * X) with
  | SysExit code => Vis (Exited code w) (λ v : void, match v with end)
  | SysRead fd len =>
      match opened w !! fd with
      | None => Ret (w, (-1, []))
      | Some rest =>
          let n := piece (Nat.min (Z.to_nat len) (length rest)) in
          if (Nat.min (Z.to_nat len) (length rest) =? 0)%nat then Ret (w, (0, []))
          else Ret (mk_fsys (files w) (<[fd := drop n rest]> (opened w)) (stdout w), (Z.of_nat n, take n rest))
      end
  | SysWrite fd d =>
      if fd =? 1 then Ret (mk_fsys (files w) (opened w) (stdout w ++ d), Z.of_nat (length d)) else Ret (w, -1)
  | SysOpen path =>
      match files w !! path with
      | None => Ret (w, -1)
      | Some c =>
          let fd := new_fd w in
          Ret (mk_fsys (files w) (<[fd := c]> (opened w)) (stdout w), fd)
      end
  | SysClose fd => Ret (mk_fsys (files w) (delete fd (opened w)) (stdout w), 0)
  | SysGetcwd _ => Ret (w, (0, cwd))
  | SysYield => Ret (w, 0)
  | SysSpawn _ _ _ _ => Ret (w, -1)
  | SysExec _ _ _ => Ret (w, -1)
  | SysWait => Ret (w, -1)
  | SysPipe => Ret (w, (-1, 0, 0))
  | SysChdir _ => Ret (w, -1)
  | Undefined => ITree.spin
  end.

Definition run {R} (w : fsys) (t : prog R) : itree exitE (fsys * R) := interp_state (@handle) t w.

Definition exited {R} (code : Z) (w : fsys) : itree exitE (fsys * R) :=
  Vis (Exited code w) (λ v : void, match v with end).

Lemma new_fd_free w : 2 < new_fd w ∧ opened w !! new_fd w = None.
Proof using Type.
  clear piece_ok piece. unfold new_fd.
  match goal with |- context [fresh ?X] => pose proof (is_fresh X) as Hf; generalize dependent (fresh X) end.
  intros n Hf. rewrite elem_of_union, elem_of_map in Hf. split.
  - assert (n ∉ ({[0; 1; 2]}%nat : gset nat)) as H by tauto. set_unfold. lia.
  - apply not_elem_of_dom. intros H. destruct Hf. left. eexists. split; [|exact H]. by rewrite Nat2Z.id.
Qed.

Lemma run_then {A R} w (t : prog A) (k : A → prog R) w' a :
  eutt eq (run w t) (Ret (w', a)) → eutt eq (run w (t ≫= k)) (run w' (k a)).
Proof using Type.
  intros Ht. unfold run, mbind, prog_bind. rewrite interp_state_bind. unfold run in Ht. rewrite Ht.
  by rewrite bind_ret_l.
Qed.

Lemma run_call {X} (e : sysE X) w : eutt eq (run w (call e)) (handle e w).
Proof using Type. apply interp_state_trigger. Qed.

Lemma run_step {X R} (e : sysE X) (k : X → prog R) w w' a :
  handle e w = Ret (w', a) → eutt eq (run w (call e ≫= k)) (run w' (k a)).
Proof using Type. intros H. apply run_then. rewrite run_call, H. reflexivity. Qed.

Lemma run_ret {R} (x : R) w : eutt eq (run w (Ret x)) (Ret (w, x)).
Proof using Type. unfold run. by rewrite interp_state_ret. Qed.

Lemma run_exit {R} code w : eutt eq (run w (sys_exit (R := R) code)) (exited code w).
Proof using Type.
  unfold run, sys_exit, mbind, prog_bind. rewrite interp_state_bind, interp_state_trigger. cbn [handle].
  unfold exited. rewrite bind_vis. apply eqit_Vis. intros [].
Qed.

Lemma run_write_str m w :
  eutt eq (run w (write_str m)) (Ret (mk_fsys (files w) (opened w) (stdout w ++ cstr m), tt)).
Proof using Type. unfold write_str. rewrite (run_step (SysWrite 1 (cstr m)) _ w _ _ eq_refl). apply run_ret. Qed.

Lemma run_iter_next {A R} (body : A → prog (A + R)) x y w w' :
  eutt eq (run w (body x)) (Ret (w', inl y)) → eutt eq (run w (ITree.iter body x)) (run w' (ITree.iter body y)).
Proof using Type.
  intros H. unfold run. rewrite unfold_iter. rewrite interp_state_bind. unfold run in H. rewrite H, bind_ret_l. cbn.
  by rewrite interp_state_tau, tau_eutt.
Qed.

Lemma run_iter_stop {A R} (body : A → prog (A + R)) x r w w' :
  eutt eq (run w (body x)) (Ret (w', inr r)) → eutt eq (run w (ITree.iter body x)) (Ret (w', r)).
Proof using Type.
  intros H. unfold run. rewrite unfold_iter. rewrite interp_state_bind. unfold run in H. rewrite H, bind_ret_l. cbn.
  by rewrite interp_state_ret.
Qed.

(** The loop of cat copies what is left of the file. *)
Lemma run_copy_loop fd w rest : opened w !! fd = Some rest →
  eutt eq (run w (copy_loop fd)) (Ret (mk_fsys (files w) (<[fd := []]> (opened w)) (stdout w ++ rest), tt)).
Proof using piece_ok.
  remember (length rest) as n eqn:Hn. revert w rest Hn. induction (lt_wf n) as [n _ IH]. intros w rest -> Hfd.
  unfold copy_loop. destruct (decide (rest = [])) as [->|Hne].
  - rewrite (run_iter_stop _ _ tt w w); [rewrite app_nil_r, (insert_id _ _ _ Hfd); by destruct w|].
    rewrite (run_step (SysRead fd READ_CHUNK) _ w w (0, [])) by (cbn; by rewrite Hfd, Nat.min_0_r). apply run_ret.
  - set (m := Nat.min (Z.to_nat READ_CHUNK) (length rest)).
    assert ((0 < m ≤ length rest)%nat) as Hm by (destruct rest; [done|]; subst m; unfold READ_CHUNK; cbn [length]; lia).
    pose proof (piece_ok m ltac:(lia)) as Hp. set (p := piece m) in *.
    set (w0 := mk_fsys (files w) (<[fd := drop p rest]> (opened w)) (stdout w)).
    set (w1 := mk_fsys (files w) (<[fd := drop p rest]> (opened w)) (stdout w ++ take p rest)).
    rewrite (run_iter_next _ _ tt w w1).
    + fold (copy_loop fd). rewrite (IH (length (drop p rest)) ltac:(rewrite length_drop; lia) w1 (drop p rest)).
      * cbn. by rewrite insert_insert_eq, <- app_assoc, take_drop.
      * done.
      * cbn. by rewrite lookup_insert_eq.
    + rewrite (run_step (SysRead fd READ_CHUNK) _ w w0 (Z.of_nat p, take p rest)).
      2:{ cbn [handle]. rewrite Hfd. fold m. fold p. rewrite (proj2 (Nat.eqb_neq m 0)) by lia. done. }
      cbn [fst snd]. rewrite (proj2 (Z.leb_gt _ _)) by lia. rewrite Nat2Z.id, (take_take rest p p), Nat.min_id.
      rewrite (run_step (SysWrite 1 (take p rest)) _ w0 w1 _ eq_refl). apply run_ret.
Qed.

(** C31: cat copies.  On a kernel that returns the contents of a file in pieces
    of any size, cat of an existing file writes exactly its contents to the
    standard output, closes the file and exits with status 0; of a file that
    does not exist it prints a message and exits with status 1. *)
Theorem cat_copies name path w : path ≠ [] →
  eutt eq (run w (cat [name; path]))
    match files w !! path with
    | Some c => exited 0 (mk_fsys (files w) (opened w) (stdout w ++ c))
    | None => exited 1 (mk_fsys (files w) (opened w) (stdout w ++ line "cat: open failed"))
    end.
Proof using piece_ok.
  intros Hp. destruct path as [|x path]; [done|]. cbn [cat]. set (path' := x :: path) in *.
  destruct (files w !! path') as [c|] eqn:Hf.
  - destruct (new_fd_free w) as [H2 Hfree]. set (w1 := mk_fsys (files w) (<[new_fd w := c]> (opened w)) (stdout w)).
    rewrite (run_step (SysOpen path') _ w w1 (new_fd w)) by (cbn; by rewrite Hf).
    rewrite (proj2 (Z.ltb_ge _ _)) by lia.
    rewrite (run_then _ _ _ _ _ (run_copy_loop (new_fd w) w1 c ltac:(cbn; by rewrite lookup_insert_eq))).
    rewrite (run_step (SysClose (new_fd w)) _ _ _ _ eq_refl), run_exit. cbn.
    by rewrite insert_insert_eq, delete_insert_id.
  - rewrite (run_step (SysOpen path') _ w w (-1)) by (cbn; by rewrite Hf). cbn [Z.ltb Z.compare].
    rewrite (run_then _ _ _ _ _ (run_write_str _ _)), run_exit. done.
Qed.

(** echo prints its arguments with a space between two of them. *)
Lemma run_echo_loop first args w :
  eutt eq (run w (echo_loop first args))
    (Ret (mk_fsys (files w) (opened w)
            (stdout w ++ (if first || (length args =? 0)%nat then [] else [32]) ++ join (cstr <$> args)), tt)).
Proof using Type.
  revert first w. induction args as [|a args IH]; intros first w.
  { cbn. unfold nop. rewrite run_ret, orb_true_r, app_nil_r. by destruct w. }
  cbn [echo_loop]. set (w1 := mk_fsys (files w) (opened w) (stdout w ++ if first then [] else [32])).
  rewrite (run_then _ _ _ w1 tt).
  2:{ subst w1. destruct first; cbn [negb].
      - unfold nop. rewrite app_nil_r, run_ret. by destruct w.
      - rewrite (run_step (SysWrite 1 [32]) _ w _ _ eq_refl). apply run_ret. }
  rewrite (run_then _ _ _ _ _ (run_write_str _ _)), IH. cbn. rewrite orb_false_r. subst w1. cbn.
  destruct args as [|b args]; cbn; rewrite <- ?app_assoc, ?app_nil_r; [by destruct first|].
  by destruct first; cbn; rewrite <- ?app_assoc.
Qed.

Theorem echo_spec name args w :
  eutt eq (run w (echo (name :: args)))
    (exited 0 (mk_fsys (files w) (opened w) (stdout w ++ join (cstr <$> args) ++ [10]))).
Proof using Type.
  unfold echo. cbn [drop]. rewrite drop_0, (run_then _ _ _ _ _ (run_echo_loop true args w)).
  rewrite (run_step (SysWrite 1 [10]) _ _ _ _ eq_refl), run_exit. cbn. by rewrite <- app_assoc.
Qed.

(** ** ls *)

Lemma run_read_all fd rest : ∀ got w, opened w !! fd = Some rest →
  Z.of_nat (length got + length rest) < LIST_BUF →
  eutt eq (run w (ITree.iter (read_body fd) got))
    (Ret (mk_fsys (files w) (<[fd := []]> (opened w)) (stdout w), got ++ rest)).
Proof using piece_ok.
  remember (length rest) as n eqn:Hn. revert rest Hn. induction (lt_wf n) as [n _ IH]. intros rest -> got w Hfd Hlen.
  set (len := LIST_BUF - Z.of_nat (length got)).
  destruct (decide (rest = [])) as [->|Hne].
  - rewrite (run_iter_stop _ _ got w w).
    { rewrite app_nil_r, (insert_id _ _ _ Hfd). by destruct w. }
    unfold read_body. fold len. rewrite (run_step (SysRead fd len) _ w w (0, [])) by (cbn; by rewrite Hfd, Nat.min_0_r).
    apply run_ret.
  - set (m := Nat.min (Z.to_nat len) (length rest)).
    assert (m = length rest) as Em by (subst m len; unfold LIST_BUF in *; lia).
    assert ((0 < length rest)%nat) as H0 by (destruct rest; [done|cbn; lia]).
    pose proof (piece_ok m ltac:(lia)) as Hp. set (p := piece m) in *.
    set (w0 := mk_fsys (files w) (<[fd := drop p rest]> (opened w)) (stdout w)).
    rewrite (run_iter_next _ _ (got ++ take p rest) w w0).
    + rewrite (IH (length (drop p rest)) ltac:(rewrite length_drop; lia) (drop p rest) eq_refl).
      * cbn. by rewrite insert_insert_eq, <- app_assoc, take_drop.
      * cbn. by rewrite lookup_insert_eq.
      * rewrite length_app, length_take, length_drop. unfold LIST_BUF in *. lia.
    + unfold read_body. fold len. rewrite (run_step (SysRead fd len) _ w w0 (Z.of_nat p, take p rest)).
      2:{ cbn [handle]. rewrite Hfd. fold m. fold p. rewrite (proj2 (Nat.eqb_neq m 0)) by lia. done. }
      cbn [fst snd]. rewrite (proj2 (Z.ltb_ge _ _)), (proj2 (Z.eqb_neq _ _)), Nat2Z.id, (take_take rest p p), Nat.min_id by lia.
      rewrite (proj2 (Z.leb_gt _ _)); [apply run_ret|]. rewrite length_app, length_take. unfold LIST_BUF in *. lia.
Qed.

Lemma run_print_entries names w : Ls.all_bytes names →
  eutt eq (run w (print_entries names))
    (Ret (mk_fsys (files w) (opened w) (stdout w ++ concat ((λ n, n ++ [10]) <$> names)), tt)).
Proof using Type.
  clear piece_ok. intros Hb. revert w. induction Hb as [|n names Hn _ IH]; intros w.
  { cbn. unfold nop. rewrite run_ret, app_nil_r. by destruct w. }
  cbn [print_entries]. rewrite (run_then _ _ _ _ _ (run_write_str _ _)), (run_then _ _ _ _ _ (run_write_str _ _)), IH.
  cbn. rewrite (Ls.bytes_cstr n Hn). by rewrite <- !app_assoc.
Qed.

Lemma run_list_directory dir req text w :
  nth 0 dir 0 = 47 → Ls.canonicalize dir = dir → (length dir ≤ 255)%nat → Ls.list_request dir = Some req →
  files w !! req = Some text → Z.of_nat (length text) < LIST_BUF →
  Ls.all_bytes (Ls.list_names dir false text 20736) →
  eutt eq (run w (list_directory dir false 0))
    (Ret (mk_fsys (files w) (opened w)
            (stdout w ++ concat ((λ n, n ++ [10]) <$> Ls.list_names dir false text 20736)), tt)).
Proof using piece_ok.
  intros Hslash Hcan Hlen Hreq Hfile Hsize Hb. unfold list_directory.
  change (Ls.simple_alloc 256 0) with (Some (0, 256)). cbv iota.
  rewrite Hslash. cbn [Z.eqb Pos.eqb]. rewrite (run_then _ _ _ _ _ (run_ret _ _)).
  unfold Ls.resolve. rewrite Hslash. change (47 =? Ls.slash) with true. cbv iota. rewrite take_ge by done.
  cbv zeta. rewrite Hcan, Hreq. destruct (new_fd_free w) as [H2 Hfree].
  set (w1 := mk_fsys (files w) (<[new_fd w := text]> (opened w)) (stdout w)).
  rewrite (run_step (SysOpen req) _ w w1 (new_fd w)) by (cbn; by rewrite Hfile). rewrite (proj2 (Z.ltb_ge _ _)) by lia.
  change (Ls.simple_alloc LIST_BUF 256) with (Some (256, 16640)). cbv iota.
  rewrite (run_then _ _ _ _ _ (run_read_all (new_fd w) text [] w1 ltac:(cbn; by rewrite lookup_insert_eq) Hsize)).
  rewrite (run_step (SysClose (new_fd w)) _ _ _ _ eq_refl). cbn [files opened stdout app w1].
  rewrite insert_insert_eq, delete_insert_id by done. rewrite (proj2 (Z.leb_gt _ _)) by done.
  change (Ls.simple_alloc (Ls.MAX_ENTRIES * 8) 16640) with (Some (16640, 20736)). cbv iota.
  by rewrite run_print_entries.
Qed.

End Files.
End UserProgramsSpec.

(** ** A file and a directory

    Reads return at most seven bytes at a time. *)
Module UserProgramsExamples.
Import Shell ShellSpec UserPrograms UserProgramsSpec.

Definition piece (n : nat) : nat := Nat.min n 7.

Lemma piece_ok n : (0 < n)%nat → (0 < piece n ≤ n)%nat.
Proof. unfold piece. lia. Qed.

Definition motd : str := chars "Welcome to Neptune" ++ [10].
Definition listing : str :=
  chars "/bin/shell" ++ [10] ++ chars "/tmp/x" ++ [10] ++ chars "/bin/ls" ++ [10] ++ chars "/bin/.rc" ++ [10].

Definition disk : fsys :=
  mk_fsys {[chars "/etc/motd" := motd; chars "/dev/ls/bin" := listing]} ∅ [].

Lemma cat_copies_witness :
  eutt eq (run piece [47] disk (cat [chars "cat"; chars "/etc/motd"])) (exited 0 (mk_fsys (files disk) ∅ motd)).
Proof.
  pose proof (cat_copies piece piece_ok [47] (chars "cat") (chars "/etc/motd") disk ltac:(done)) as H.
  assert (files disk !! chars "/etc/motd" = Some motd) as E by (by vm_compute). rewrite E in H. exact H.
Defined.

End UserProgramsExamples.
